(* ===== verification/_CoqProject ===== *)
-Q . S2P
Prelude.v
Assoc.v
Ring.v
PyFloat.v
FloatFacts.v
PyText.v
PyVal.v
PyJson.v
Exchange.v
ExchangeProofs.v
PyStr.v
ExchangeStore.v
ExchangeFraming.v
ExchangeSpec.v
Pcm.v
AudioWire.v
AudioWireSpec.v
AudioState.v
AudioStream.v
AudioMix.v
AudioServer.v
AudioProofs.v
AudioMixProofs.v
AudioSpec.v
AudioProtoSpec.v
InputQueue.v
InputQueueSpec.v
InputKeys.v
InputPointer.v
InputServer.v
InputSpec.v
InputRunSpec.v
Dns.v
DnsSpec.v
Dhcp.v
DhcpSpec.v
NetConfig.v
NetConfigSpec.v
PyFs.v
PyPath.v
PyDecimal.v
Calculator.v
CalculatorSpec.v
PyB64.v
Credential.v
CredentialSpec.v
BrokerFiles.v
Limiter.v
Broker.v
PyFsFacts.v
BrokerReadSpec.v
BrokerWriteSpec.v
BrokerStoreSpec.v
LimiterSpec.v
LoginSpec.v
RecoverySpec.v
AccountSpec.v
RemovalSpec.v
LeakSpec.v
BrokerDemo.v
WriteState.v
WriteText.v
WriteFormat.v
WriteDisk.v
WriteTree.v
WriteWrap.v
WriteEdit.v
WriteView.v
WriteOps.v
WriteDocs.v
WriteEditSpec.v
WriteFormatSpec.v
WriteDiskSpec.v
WriteWrapSpec.v
WriteViewSpec.v
WriteSession.v
WriteCommands.v
WriteSessionSpec.v
WriteDocsSpec.v
WriteDemo.v
