(* ===== verification/Prelude.v ===== *)
(** * A verification library for the core services, editor and calculator of The One OS

    The One OS (T1OS) is a desktop system whose services are Python programs under
    [src/source/build software/].  They talk over local sockets: applications ask
    the clipboard service ([exchange/exchange.py]) and the audio service
    ([audio/audioserver.py], with its client library in [audio/audio.py]); the
    window server takes raw input from the input service
    ([input/inputserver.py]); the network service ([network/network.py])
    configures interfaces by DHCP and resolves names by DNS; and the broker
    ([broker/broker.py]), called by the lock screen and the settings, holds the
    account, checks passwords and authorises recovery.  Two applications are
    modelled: the text editor Write ([write/write.py]) and the calculator
    ([calculator/calculator.py]).  This library models these programs as executable
    Rocq definitions, written after the source function by function, and proves what
    makes them correct.

    ** How the code is represented

    - A Python value is a [PyVal.pyval]; a [str] is a list of code points
      ([PyText.pystr]); [bytes] is a list of integers; an [int] is a [Z]; a
      [float] is an IEEE binary64 number of the Standard Library's [SpecFloat]
      ([PyFloat.pyfloat]).  A dict is an association list in insertion order
      ([Assoc], [PyVal.pydict]).
    - An operation that can raise returns [res A]: a value or an exception class
      ([Prelude.exn]).  Stateful code is explicit state passing (Exchange, the
      input queues) or a state and exception monad whose exceptions keep the
      assignments made before them ([AudioState.AM], [InputPointer.PM]).
    - What the operating system decides is an environment: clock readings, what a
      send or a read gives, whether a file can be written, the datagrams that
      arrive.  It is a field of the state (consumed in order) or an argument, and
      every theorem quantifies over it.
    - What lies outside the repository is a parameter with its documented laws:
      the Unicode database beyond ASCII ([PyText.PyUnicode], [PyUnicodeLaws]), the
      IDNA codec ([Dns.PyIdna], [PyIdnaLaws]), SHA-256 ([Exchange]), the C
      library's [inet_aton] and [inet_pton], the iteration order of sets, the key
      derivation functions and NFKC of the broker ([Credential.Kdf], [KdfLaws]),
      the font, the clock and [str.isalnum] of the editor, [str.isdigit] of the
      calculator.
      Each has a concrete instance, used by the witnesses.
    - The broker runs on a file system of inodes ([PyFs.world]) in a monad whose
      exceptions keep the state.  The class [PyFs.Os] decides call by call whether
      a call fails or moves fewer bytes than asked for: a theorem over all [Os] is
      about every point at which the program can be cut off.

    ** The files

    Foundations: [Prelude] (results, integer-indexed lists, big and little endian
    integers, [split_if], [zlen_lia]), [Assoc] (dicts), [PyFloat] and [FloatFacts]
    (binary64 arithmetic with conversions, and bounds on rounded products,
    quotients and sums), [PyText] (text, UTF-8), [PyVal] (values, [str], [repr],
    [int], [float]), [PyStr] (integers read back from their decimal form, [split],
    words, lines), [PyJson] ([json.dumps] and [json.loads], their round trip, JSON
    lines on a wire).

    Clipboard, [exchange/exchange.py]:
    - [Exchange]: the document, persistence ([loadstate], [savestate]), requests
      ([handle] and the [op*] functions), sockets, watchers and one turn of the
      loop ([serve_ready]); the client's side: [exset], [exget], [exwatch].
    - [ExchangeProofs], [ExchangeStore], [ExchangeFraming], [ExchangeSpec]: the
      server invariant over all reachable states, set then get through both ends
      of the wire, independence of how the stream is cut into reads, delivery of
      notifications, persistence, the shutdown key, and what a failed save leaves.

    Audio, [audio/audioserver.py] and [audio/audio.py]:
    - [Ring]: the byte ring buffer ([rb*]) refines a bounded FIFO.  [Pcm]: gain, mixing, ramp and master stage on 16-bit samples.
    - [AudioWire], [AudioWireSpec]: the packet format of both ends, the client's
      request and reply.  [AudioState]: configuration, presentation and the ALSA
      queue.  [AudioStream]: streams and the table of closed ones.  [AudioMix]:
      collecting, mixing, pacing.  [AudioServer]: connections, handlers, and the
      choice of a device among those a scan finds.
    - [AudioProofs], [AudioMixProofs], [AudioSpec], [AudioProtoSpec]: a Hoare logic
      for the monad; the invariant (bytes in = bytes played + bytes queued, whole
      frames, presentation behind play) over the whole event loop; totality of
      mixing; delivery to the device, that loses only a block whose write failed for
      good; the parser handles exactly the
      requests sent; clients cannot touch each other's streams.

    Input, [input/inputserver.py]:
    - [InputQueue], [InputQueueSpec]: bounded client queues that
      coalesce pointer states: order, loss only of superseded pointer states,
      bounds, and progress of flushing.
    - [InputKeys]: key tables, modifiers, typed text.  [InputPointer]: device
      batches, wheels, absolute and relative movement, clamping, the saved
      position.  [InputServer]: requests, broadcasting, the file of the saved position
      and the turn of the main loop.  [InputSpec], [InputRunSpec]: their properties, over whole runs of the
      loop where that matters (the pointer is on the screen).

    Network, [network/network.py]:
    - [Dns], [DnsSpec]: names with compression, queries, response
      validation, the choice of an answer and the resolver: reading always ends,
      records lie in the packet, an address comes from a record the question leads
      to, in a response to that question.
    - [Dhcp], [DhcpSpec]: packets, link-layer frames, options, the offer, the
      request and the lease: options and packets read back, a lease needs an
      authenticated acknowledgement (and the offer is not authenticated).
    - [NetConfig], [NetConfigSpec]: settings files, the wireless engine's
      configuration (exactly the lines of its template), the DNS servers a lease
      configures, and which interface is used.

    Broker, [broker/broker.py]:
    - [PyFs], [PyPath], [PyB64]: the [os] calls, paths and line splitting, base64
      and hexadecimal text.  [PyFsFacts]: how a successful run went, what a program
      leaves alone ([keeps]), triples with an outcome for exceptions ([hoare]).
    - [Credential], [CredentialSpec]: names, password policy, the formats of stored
      hashes, hashing and verification.
    - [BrokerFiles]: [_open_secure_directory], [_atomic_write_at],
      [_read_regular_at], service secrets, the credential file, home trees.
      [BrokerReadSpec], [BrokerWriteSpec], [BrokerStoreSpec], [RecoverySpec]: reads
      are exact, writes are all or nothing, what was written is read back.
    - [Limiter], [LimiterSpec]: the attempt limiter, its file, and
      the pauses it enforces across processes, whatever other users and scopes do
      with the file in between ([LimiterSpec.meanwhile]).
    - [Broker]: login, recovery authorizations, change and removal of the user, the
      commands.  [LoginSpec], [RecoverySpec], [AccountSpec], [RemovalSpec]: who gets
      in, throttling, no outcome loses the account, an authorization is redeemed
      once.  [LeakSpec]: descriptors.  [BrokerDemo]: a small file system on which
      the theorems are applied.

    The text editor, [write/write.py] (and the measuring of a line in
    [graphics/graphics.py]):
    - [WriteState]: the globals of the program, grouped into records ([doc],
      [caret], [view], [wrap], [widths], [hist], [conf], [search], [file], [io]), and
      the monad [W] over them whose exceptions keep the assignments made.
    - [WriteText]: columns, tabs, measured advances, and how a line is broken into
      rows.  [WriteTree]: the binary indexed tree of row counts.  [WriteWrap]: the
      cache of wrapped lines, the row index with its dirty rows, line widths.
    - [WriteEdit]: selection, [editapply], the undo history, loading of a document.
      [WriteView]: scrolling and hit testing.  [WriteOps]: the editing commands,
      caret movement, words, lines, indentation, clipboard, find and replace.
    - [WriteEditSpec], [WriteWrapSpec], [WriteViewSpec], [WriteSession],
      [WriteCommands], [WriteSessionSpec]: an edit replaces one slice of the flat
      text; the caret stays in the text and in sight; undo takes back an edit or
      the run of typing it belongs to, undo and redo are inverses; and over whole
      sessions of commands a revision number stands for one text.
    - [WriteFormat], [WriteFormatSpec]: encodings, byte order marks and line ends;
      what is saved is what is loaded, and the other way round.  [WriteDisk],
      [WriteDiskSpec]: checked paths, atomic saving and bounded loading on [PyFs].
      [WriteDocs], [WriteDocsSpec]: background saving and loading, with editing
      while they run, dialogs, pickers and the confirmation before unsaved text is
      dropped; the index of a document opened first answers as the list of its rows.  [WriteDemo]: small
      documents and a file system on which the theorems are applied.

    The calculator, [calculator/calculator.py]:
    - [PyDecimal]: the numbers of the [decimal] module it computes with, their
      rounding at a precision, their formats and how they are read.
    - [Calculator]: the state behind the display, every key ([press]), the text of a
      number ([formatnumber]), the buttons, the messages of the window server, and
      the turns of the program ([initapp], [pulse], [main]).
    - [CalculatorSpec]: keys evaluate their operations from left to right; the state
      stays in order over every session; an operation is exact up to half of its
      fortieth digit, the number shown up to the digits that fit; a button is found
      under its own points only.

    ** Fuel

    Loops whose end is not structural take fuel, and a theorem says it is enough:
    [Dns.name_fuel] allows 32 compression jumps with a pass over the packet
    between them ([DnsSpec.parsednsname_total]); a flush pass sends at least one
    byte a turn and its budget is 64 KiB ([InputQueueSpec.output_drains]); option
    loops advance at least one byte a turn, so the length is fuel enough
    ([DhcpSpec.parsed_encoded] for every packet of well-formed options); the
    mixing and pumping loops are bounded by the frames asked for and the bytes
    given ([AudioSpec.mixonceframes_total], [AudioSpec.pump_delivers]); JSON values
    are read with their length as fuel ([PyJson.json_roundtrip]); the broker's
    write and bounded read loops move at least one byte a turn
    ([BrokerWriteSpec.write_all_phase], [BrokerReadSpec.read_chunks_Ok]), and a
    directory tree is no deeper than there are inodes ([PyFs.rmtree]).  A row takes
    at least one character, so a line's length is enough to wrap it
    ([WriteText.wrapline_partition]); the cursor of the row tree moves by at least
    one; the history is trimmed once per action.  Trailing zeros of a decimal are at
    most its digits ([PyDecimal.drop_zeros]).

    ** Not modelled

    Opening sockets and devices, daemon start-up, log files, [ioctl] structures,
    device probing through [/sys] and [/proc], the reopening of input devices, the HD-audio register driver, peer
    identity, the netlink firewall and interface set-up are system I/O: the model
    starts from their outcome.  The playback and tag-parsing parts of
    [audio/audio.py], the broker's branches for systems that are not POSIX, its
    loading of libargon2 and the effect of [fsync] after a power failure, the
    client library [input/input.py], and the graphical programs (window server,
    Array, Brick, Expanse and the others) are not modelled.  Of Write, drawing,
    menus, mouse dragging, settings and the messages of the window server are left
    out, and of the calculator drawing and managed graphics, of which only the
    conversions of its responses remain; the infinities and NaNs
    of decimals cannot arise there ([PyDecimal]); a save in the background is one step of its worker between two turns of
    the main loop, which is how the program passes the result ([FILE_IO_RESULT]).
    The manifest lists each part with its reason. *)

From stdpp Require Import base list gmap strings option.
From Stdlib Require Import ZArith Lia Bool List.
Import ListNotations.
#[export] Set Default Goal Selector "!".
Open Scope Z_scope.

(** ** Exceptions and results

    A Python operation either returns a value or raises.  [res] is the value of
    an expression; [exn] lists the exception classes the modelled code can
    raise or distinguishes in an [except] clause. *)
Inductive exn : Type :=
| TypeError | ValueError | OverflowError | ZeroDivisionError | KeyError
| IndexError | AttributeError | StructError | UnicodeError | JSONDecodeError
| OSError | FileNotFoundError | FileExistsError | NotADirectoryError | IsADirectoryError
| RuntimeError | AudioProtocolError | AuthenticationError | PermissionError | LookupError
| InvalidOperation | DivisionByZero | DecimalOverflow.

#[export] Instance exn_eq_dec : EqDecision exn.
Proof. solve_decision. Defined.

Inductive res (A : Type) : Type :=
| Ok (a : A)
| Exc (e : exn).
Arguments Ok {A} a.
Arguments Exc {A} e.

#[export] Instance res_ret : MRet res := fun A a => Ok a.
#[export] Instance res_bind : MBind res := fun A B f m =>
  match m with Ok a => f a | Exc e => Exc e end.

(** [try: m  except Exception: h]. *)
Definition catch {A} (m : res A) (h : A) : A :=
  match m with Ok a => a | Exc _ => h end.

Definition is_ok {A} (m : res A) : bool :=
  match m with Ok _ => true | Exc _ => false end.

Lemma bind_Ok {A B} (m : res A) (f : A -> res B) b :
  (m ≫= f) = Ok b <-> exists a, m = Ok a /\ f a = Ok b.
Proof.
  destruct m; simpl; split; [eauto| |discriminate|].
  - intros (a' & H & H'). by simplify_eq.
  - intros (a' & H & H'). discriminate.
Qed.

(** ** Lists indexed by integers

    [zlen] is [len]; [zslice l a b] is the Python slice [l[a:b]] for
    non-negative [a] and [b] (bounds past the end are clamped);
    [zsplice l a b d] is the slice assignment [l[a:b] = d]. *)
Definition zlen {A} (l : list A) : Z := Z.of_nat (length l).
Definition ztake {A} (n : Z) (l : list A) : list A := take (Z.to_nat n) l.
Definition zdrop {A} (n : Z) (l : list A) : list A := drop (Z.to_nat n) l.
Definition zslice {A} (l : list A) (a b : Z) : list A := ztake (b - a) (zdrop a l).
Definition zsplice {A} (l : list A) (a b : Z) (d : list A) : list A :=
  ztake a l ++ d ++ zdrop (Z.max a b) l.
Definition znth (l : list Z) (i : Z) : Z := nth (Z.to_nat i) l 0.
Definition zreplicate {A} (n : Z) (x : A) : list A := replicate (Z.to_nat n) x.

(** ** Automation *)

(** Case analysis on the conditionals of the goal or of a hypothesis, innermost
    conditions first. *)
Ltac destruct_cond b :=
  lazymatch b with
  | context [if _ then _ else _] => fail
  | _ => destruct b eqn:?
  end.
Ltac split_if :=
  repeat match goal with
         | |- context [if ?b then _ else _] => destruct_cond b
         end.
Ltac split_if_in H :=
  repeat match type of H with
         | context [if ?b then _ else _] => destruct_cond b
         end.

(** Unfold the integer views of lists and hand the goal to [lia]. *)
Ltac zlen_lia :=
  unfold zlen in *;
  rewrite ?length_app, ?length_take, ?length_drop, ?length_replicate,
    ?length_map, ?length_cons in *; simpl length in *; lia.

Create HintDb zlen.

Section ZLists.
  Context {A : Type}.
  Implicit Types l d : list A.

Lemma zlen_nonneg l : 0 <= zlen l.
Proof. unfold zlen; lia. Qed.

Lemma zlen_app l d : zlen (l ++ d) = zlen l + zlen d.
Proof. zlen_lia. Qed.

Lemma zlen_cons (x : A) l : zlen (x :: l) = 1 + zlen l.
Proof. zlen_lia. Qed.

Lemma zlen_nil : zlen (@nil A) = 0.
Proof. done. Qed.

Lemma zlen_zero l : zlen l = 0 -> l = [].
Proof. destruct l; [done|]. unfold zlen; simpl; lia. Qed.

Lemma zlen_take n l : 0 <= n -> zlen (ztake n l) = Z.min n (zlen l).
Proof. unfold ztake; zlen_lia. Qed.

Lemma zlen_drop n l : 0 <= n -> zlen (zdrop n l) = Z.max 0 (zlen l - n).
Proof. unfold zdrop; zlen_lia. Qed.

Lemma zlen_replicate n (x : A) : zlen (zreplicate n x) = Z.max 0 n.
Proof. unfold zreplicate; zlen_lia. Qed.

Lemma zlen_slice l a b :
    0 <= a -> a <= b -> b <= zlen l -> zlen (zslice l a b) = b - a.
Proof. unfold zslice, ztake, zdrop; zlen_lia. Qed.

Lemma ztake_zdrop n l : ztake n l ++ zdrop n l = l.
Proof. apply take_drop. Qed.

Lemma ztake_all n l : zlen l <= n -> ztake n l = l.
Proof. intros. apply take_ge. unfold zlen in *; lia. Qed.

Lemma zdrop_all n l : zlen l <= n -> zdrop n l = [].
Proof. intros. apply drop_ge. unfold zlen in *; lia. Qed.

Lemma zdrop_0 l : zdrop 0 l = l.
Proof. done. Qed.

Lemma ztake_app_exact n l d : n = zlen l -> ztake n (l ++ d) = l.
Proof. intros ->. unfold ztake, zlen. rewrite Nat2Z.id. apply take_app_length. Qed.

Lemma zdrop_app_exact n l d : n = zlen l -> zdrop n (l ++ d) = d.
Proof. intros ->. unfold zdrop, zlen. rewrite Nat2Z.id. apply drop_app_length. Qed.

Lemma zslice_app_mid l d t a b :
    a = zlen l -> b = zlen l + zlen d -> zslice (l ++ d ++ t) a b = d.
Proof.
    intros -> ->. unfold zslice. rewrite zdrop_app_exact by done.
    apply ztake_app_exact. lia.
Qed.

Lemma zdrop_zdrop n m l : 0 <= n -> 0 <= m -> zdrop n (zdrop m l) = zdrop (m + n) l.
Proof. intros. unfold zdrop. rewrite drop_drop. f_equal. lia. Qed.

Lemma zlen_splice l a b d :
    0 <= a -> a <= b -> b <= zlen l -> zlen d = b - a -> zlen (zsplice l a b d) = zlen l.
Proof. intros. unfold zsplice. rewrite Z.max_r by lia. unfold ztake, zdrop; zlen_lia. Qed.

(** A same-length slice assignment changes exactly the assigned positions. *)
Lemma lookup_zsplice l a d (i : nat) :
    0 <= a -> a + zlen d <= zlen l ->
    zsplice l a (a + zlen d) d !! i =
      if (a <=? Z.of_nat i) && (Z.of_nat i <? a + zlen d)
      then d !! Z.to_nat (Z.of_nat i - a) else l !! i.
Proof.
    intros Ha Hd. unfold zsplice. pose proof (zlen_nonneg d) as Hd0.
    rewrite Z.max_r by lia. unfold ztake, zdrop, zlen in *.
    destruct ((a <=? Z.of_nat i) && (Z.of_nat i <? a + Z.of_nat (length d))) eqn:E.
    - rewrite lookup_app_r by (rewrite length_take; lia).
      rewrite length_take, lookup_app_l by lia. f_equal; lia.
    - destruct (Z_lt_le_dec (Z.of_nat i) a).
      + rewrite lookup_app_l by (rewrite length_take; lia).
        apply lookup_take_lt. lia.
      + rewrite lookup_app_r by (rewrite length_take; lia).
        rewrite length_take, lookup_app_r, lookup_drop by lia. f_equal. lia.
Qed.

Lemma lookup_zslice l a b (i : nat) :
    0 <= a -> Z.of_nat i < b - a -> zslice l a b !! i = l !! (Z.to_nat a + i)%nat.
Proof.
    intros. unfold zslice, ztake, zdrop.
    rewrite lookup_take_lt by lia. by rewrite lookup_drop.
Qed.
End ZLists.

#[export] Hint Rewrite @zlen_app @zlen_cons @zlen_nil : zlen.

(** ** Bytes and big/little endian integers (the [struct] module) *)

(** A byte string is a list of integers in [0..255]. *)
Abbreviation bytes := (list Z).
Definition is_byte (b : Z) : Prop := 0 <= b < 256.
Definition bytes_ok (l : bytes) : Prop := Forall is_byte l.

(** [struct.pack('>H')], [struct.pack('>I')] of an in-range integer. *)
Definition pack_u16be (v : Z) : bytes := [Z.land (Z.shiftr v 8) 255; Z.land v 255].
Definition pack_u32be (v : Z) : bytes :=
  [Z.land (Z.shiftr v 24) 255; Z.land (Z.shiftr v 16) 255;
   Z.land (Z.shiftr v 8) 255; Z.land v 255].
Definition unpack_u16be (l : bytes) : Z := Z.lor (Z.shiftl (znth l 0) 8) (znth l 1).
Definition unpack_u32be (l : bytes) : Z :=
  Z.lor (Z.shiftl (znth l 0) 24)
    (Z.lor (Z.shiftl (znth l 1) 16) (Z.lor (Z.shiftl (znth l 2) 8) (znth l 3))).

Lemma land_255 v : Z.land v 255 = v mod 256.
Proof. change 255 with (Z.ones 8). by rewrite Z.land_ones. Qed.

(** Disjoint bits: [a << n | b] is [a * 2^n + b]. *)
Lemma lor_shiftl_add a b n :
  0 <= n -> 0 <= b < 2 ^ n -> Z.lor (Z.shiftl a n) b = a * 2 ^ n + b.
Proof.
  intros Hn Hb.
  assert (Hl : Z.land (Z.shiftl a n) b = 0).
  { apply Z.bits_inj'; intros i Hi. rewrite Z.land_spec, Z.bits_0, Z.shiftl_spec by done.
    destruct (Z_lt_le_dec i n); [by rewrite Z.testbit_neg_r by lia|].
    rewrite (Z.testbit_eqb b i), (Z.div_small b (2 ^ i)), andb_comm; [done| |lia].
    split; [lia|]. eapply Z.lt_le_trans; [apply Hb|]. apply Z.pow_le_mono_r; lia. }
  rewrite <- Z.lxor_lor, <- Z.add_nocarry_lxor, Z.shiftl_mul_pow2 by done. done.
Qed.

Lemma pack_u16be_ok v : bytes_ok (pack_u16be v).
Proof.
  repeat constructor; rewrite land_255; apply Z.mod_pos_bound; lia.
Qed.

Lemma pack_u32be_ok v : bytes_ok (pack_u32be v).
Proof.
  repeat constructor; rewrite land_255; apply Z.mod_pos_bound; lia.
Qed.

Lemma unpack_pack_u16be v l : 0 <= v < 65536 -> unpack_u16be (pack_u16be v ++ l) = v.
Proof.
  intros. unfold unpack_u16be, pack_u16be, znth; simpl nth.
  rewrite !land_255, Z.shiftr_div_pow2 by lia.
  rewrite lor_shiftl_add; [|lia|apply Z.mod_pos_bound; lia].
  rewrite (Z.mod_small (v / 2 ^ 8)) by (split; [apply Z.div_pos|apply Z.div_lt_upper_bound]; lia).
  change (2 ^ 8) with 256. pose proof (Z.div_mod v 256 ltac:(lia)). lia.
Qed.

Lemma unpack_pack_u32be v l : 0 <= v < 4294967296 -> unpack_u32be (pack_u32be v ++ l) = v.
Proof.
  intros. unfold unpack_u32be, pack_u32be, znth; simpl nth.
  rewrite !land_255, !Z.shiftr_div_pow2 by lia.
  set (a := v / 2 ^ 24). set (b := v / 2 ^ 16). set (c := v / 2 ^ 8).
  assert (Hb : 0 <= b mod 256 < 256) by (apply Z.mod_pos_bound; lia).
  assert (Hc : 0 <= c mod 256 < 256) by (apply Z.mod_pos_bound; lia).
  assert (Hv : 0 <= v mod 256 < 256) by (apply Z.mod_pos_bound; lia).
  rewrite (lor_shiftl_add (c mod 256)) by lia.
  rewrite (lor_shiftl_add (b mod 256)) by lia.
  rewrite lor_shiftl_add by lia.
  subst a b c.
  rewrite (Z.mod_small (v / 2 ^ 24)) by (split; [apply Z.div_pos|apply Z.div_lt_upper_bound]; lia).
  change (2 ^ 24) with (256 * 256 * 256). change (2 ^ 16) with (256 * 256). change (2 ^ 8) with 256.
  rewrite <- !Z.div_div by lia.
  pose proof (Z.div_mod v 256 ltac:(lia)).
  pose proof (Z.div_mod (v / 256) 256 ltac:(lia)).
  pose proof (Z.div_mod (v / 256 / 256) 256 ltac:(lia)). lia.
Qed.

(** Signed 16-bit little endian samples ([struct.unpack('<h')]). *)
Definition unpack_s16le (lo hi : Z) : Z :=
  let u := Z.lor (Z.shiftl hi 8) lo in if u <? 32768 then u else u - 65536.
Definition pack_s16le (v : Z) : bytes := [Z.land v 255; Z.land (Z.shiftr v 8) 255].

Definition s16 (v : Z) : Prop := -32768 <= v <= 32767.

Lemma unpack_s16le_range lo hi : is_byte lo -> is_byte hi -> s16 (unpack_s16le lo hi).
Proof.
  unfold is_byte, s16, unpack_s16le. intros.
  rewrite lor_shiftl_add by lia. split_if; lia.
Qed.

Lemma unpack_pack_s16le v :
  s16 v -> unpack_s16le (znth (pack_s16le v) 0) (znth (pack_s16le v) 1) = v.
Proof.
  unfold s16. intros. unfold unpack_s16le, pack_s16le, znth; simpl nth.
  rewrite !land_255, Z.shiftr_div_pow2 by lia. change (2 ^ 8) with 256.
  pose proof (Z.mod_pos_bound v 256 ltac:(lia)).
  rewrite lor_shiftl_add by lia. change (2 ^ 8) with 256.
  pose proof (Z.div_mod v 256 ltac:(lia)).
  assert (Hq : -128 <= v / 256 < 128)
    by (split; [apply Z.div_le_lower_bound|apply Z.div_lt_upper_bound]; lia).
  destruct (Z_lt_le_dec (v / 256) 0).
  - replace ((v / 256) mod 256) with (v / 256 + 256)
      by (rewrite <- (Z.mod_small (v / 256 + 256) 256) by lia;
          rewrite <- Z.add_mod_idemp_r, Z.mod_same, Z.add_0_r by lia; done).
    split_if; lia.
  - rewrite (Z.mod_small (v / 256)) by lia. split_if; lia.
Qed.

Lemma pack_s16le_ok v : bytes_ok (pack_s16le v).
Proof. repeat constructor; rewrite land_255; apply Z.mod_pos_bound; lia. Qed.

Lemma pack_unpack_s16le lo hi :
  is_byte lo -> is_byte hi -> pack_s16le (unpack_s16le lo hi) = [lo; hi].
Proof.
  unfold is_byte, pack_s16le, unpack_s16le. intros.
  rewrite lor_shiftl_add by lia. change (2 ^ 8) with 256.
  rewrite !land_255, Z.shiftr_div_pow2 by lia. change (2 ^ 8) with 256.
  set (u := hi * 256 + lo).
  assert (Hm : u mod 256 = lo) by (subst u; rewrite Z.add_comm, Z_mod_plus_full, Z.mod_small; lia).
  assert (Hd : u / 256 = hi) by (subst u; rewrite Z.div_add_l, Z.div_small; lia).
  destruct (u <? 32768).
  - rewrite Hm, Hd, Z.mod_small by lia. done.
  - replace (u - 65536) with (u + (-256) * 256) by lia.
    rewrite Z_mod_plus_full, Z.div_add, Hm, Hd by lia.
    replace (hi + -256) with (hi + (-1) * 256) by lia.
    rewrite Z_mod_plus_full, Z.mod_small by lia. done.
Qed.
