(* ===== verification/Assoc.v ===== *)
(** Python dicts as association lists in insertion order: [get], item assignment
    (an existing key keeps its place) and deletion, with their laws. *)

From stdpp Require Import base list sets.
From Stdlib Require Import ZArith Lia Bool.
From S2P Require Import Prelude.

Section Assoc.
Context {K V : Type} `{EqDecision K}.

Fixpoint aget (k : K) (d : list (K * V)) : option V :=
  match d with
  | [] => None
  | (k', v) :: d' => if decide (k = k') then Some v else aget k d'
  end.

Fixpoint aset (k : K) (v : V) (d : list (K * V)) : list (K * V) :=
  match d with
  | [] => [(k, v)]
  | (k', v') :: d' => if decide (k = k') then (k', v) :: d' else (k', v') :: aset k v d'
  end.

Fixpoint adel (k : K) (d : list (K * V)) : list (K * V) :=
  match d with
  | [] => []
  | (k', v') :: d' => if decide (k = k') then d' else (k', v') :: adel k d'
  end.

Implicit Types d : list (K * V).

Lemma aget_In k v d : aget k d = Some v -> (k, v) ∈ d.
Proof.
  induction d as [|[k' v'] d IH]; simpl; [done|]. destruct (decide (k = k')) as [->|].
  - intros [= ->]. left.
  - intros H. right. auto.
Qed.

Lemma aset_Forall (P : K * V -> Prop) k v d :
  (is_Some (aget k d) \/ True) -> Forall P d -> P (k, v) -> Forall P (aset k v d).
Proof.
  intros _. induction d as [|[k' v'] d IH]; simpl; intros Hd Hv; [by repeat constructor|].
  apply Forall_cons in Hd as [H1 H2]. destruct (decide (k = k')) as [->|]; constructor; auto.
Qed.

Lemma adel_Forall (P : K * V -> Prop) k d : Forall P d -> Forall P (adel k d).
Proof.
  induction 1 as [|[k' v'] d H1 H2 IH]; simpl; [constructor|].
  destruct (decide (k = k')); [done|by constructor].
Qed.

Lemma aset_keys k v d x : x ∈ List.map fst (aset k v d) <-> x = k \/ x ∈ List.map fst d.
Proof.
  induction d as [|[k' v'] d IH]; simpl; [set_solver|].
  destruct (decide (k = k')) as [->|]; simpl; set_solver.
Qed.

Lemma aset_NoDup k v d : NoDup (List.map fst d) -> NoDup (List.map fst (aset k v d)).
Proof.
  induction d as [|[k' v'] d IH]; simpl; intros Hnd.
  - apply NoDup_cons. split; [set_solver|constructor].
  - apply NoDup_cons in Hnd as [H1 H2]. destruct (decide (k = k')) as [->|Hk]; simpl.
    + by apply NoDup_cons.
    + apply NoDup_cons. split; [rewrite aset_keys; set_solver|auto].
Qed.

Lemma adel_keys k d x : x ∈ List.map fst (adel k d) -> x ∈ List.map fst d.
Proof.
  induction d as [|[k' v'] d IH]; simpl; [done|]. destruct (decide (k = k')); simpl; set_solver.
Qed.

Lemma adel_NoDup k d : NoDup (List.map fst d) -> NoDup (List.map fst (adel k d)).
Proof.
  induction d as [|[k' v'] d IH]; simpl; intros Hnd; [constructor|].
  apply NoDup_cons in Hnd as [H1 H2]. destruct (decide (k = k')) as [->|Hk]; [done|].
  simpl. apply NoDup_cons. split; [intros ?%adel_keys; done|auto].
Qed.

Lemma aget_aset_eq k v d : aget k (aset k v d) = Some v.
Proof.
  induction d as [|[k' v'] d IH]; simpl; [by rewrite decide_True|].
  destruct (decide (k = k')) as [->|Hk]; simpl; [by rewrite decide_True|by rewrite decide_False].
Qed.

Lemma aget_aset_ne k k' v d : k <> k' -> aget k (aset k' v d) = aget k d.
Proof.
  intros Hne. induction d as [|[k2 v2] d IH]; simpl; [by rewrite decide_False|].
  destruct (decide (k' = k2)) as [->|Hk]; simpl; [by rewrite !decide_False|].
  by destruct (decide (k = k2)).
Qed.

Lemma aget_adel_ne k k' d : k <> k' -> aget k (adel k' d) = aget k d.
Proof.
  intros Hne. induction d as [|[k2 v2] d IH]; simpl; [done|].
  destruct (decide (k' = k2)) as [->|Hk]; simpl; [by rewrite decide_False|].
  by destruct (decide (k = k2)).
Qed.

Lemma aget_adel_eq k d : NoDup (List.map fst d) -> aget k (adel k d) = None.
Proof.
  induction d as [|[k' v'] d IH]; simpl; [done|]. intros [H1 H2]%NoDup_cons.
  destruct (decide (k = k')) as [->|Hk]; simpl; [|rewrite decide_False by done; auto].
  destruct (aget k' d) eqn:E; [|done]. apply aget_In in E. exfalso. apply H1.
  apply list_elem_of_In, in_map_iff. eexists. split; [|by apply list_elem_of_In]. done.
Qed.

Lemma aset_aset k v v' d : aset k v' (aset k v d) = aset k v' d.
Proof.
  induction d as [|[k2 v2] d IH]; simpl; [by rewrite decide_True|].
  destruct (decide (k = k2)) as [->|Hk]; simpl; [by rewrite decide_True|]. by rewrite decide_False, IH.
Qed.

Lemma aget_None k d : aget k d = None <-> k ∉ List.map fst d.
Proof.
  induction d as [|[k' v'] d IH]; simpl; [set_solver|].
  destruct (decide (k = k')) as [->|Hk]; [set_solver|]. rewrite IH. set_solver.
Qed.
End Assoc.
