(* ===== verification/Ring.v ===== *)
(** The byte ring buffer of the audio service ([rbnew] ... [rbpop] of
    audioserver.py): its data, its operations with both wrap branches, its
    well-formedness invariant and its refinement of a bounded byte queue. *)

From stdpp Require Import base list.
From Stdlib Require Import ZArith Lia Bool.
From S2P Require Import Prelude.
Open Scope Z_scope.

(** The dict [{'buf','size','r','w','used'}]. *)
Record rb : Type := mkrb {
  rb_buf : bytes; rb_size : Z; rb_r : Z; rb_w : Z; rb_used : Z }.

(** [bytearray(maxbytes)] raises [ValueError] on a negative count. *)
Definition rbnew (maxbytes : Z) : res rb :=
  if maxbytes <? 0 then Exc ValueError
  else Ok (mkrb (zreplicate maxbytes 0) maxbytes 0 0 0).

Definition rbclear (b : rb) : rb := mkrb (rb_buf b) (rb_size b) 0 0 0.

Definition rbavail (b : rb) : Z := rb_used b.

Definition rbspace (b : rb) : Z := rb_size b - rb_used b.

(** Returns the buffer after the call and the boolean result; [(w + n) % size]
    raises on a zero-sized buffer. *)
Definition rbpush (b : rb) (data : bytes) : res (rb * bool) :=
  let size := rb_size b in
  let w := rb_w b in
  let used := rb_used b in
  let n := zlen data in
  if size - used <? n then Ok (b, false)
  else
    let room := size - w in
    if n <=? room then
      if size =? 0 then Exc ZeroDivisionError
      else Ok (mkrb (zsplice (rb_buf b) w (w + n) data) size (rb_r b)
                    ((w + n) mod size) (used + n), true)
    else
      let buf1 := zsplice (rb_buf b) w (w + room) (ztake room data) in
      let buf2 := zsplice buf1 0 (n - room) (zdrop room data) in
      Ok (mkrb buf2 size (rb_r b) (n - room) (used + n), true).

(** [None] is Python's [None]: fewer than [nbytes] bytes are queued. *)
Definition rbpop (b : rb) (nbytes : Z) : res (rb * option bytes) :=
  let size := rb_size b in
  let r := rb_r b in
  let used := rb_used b in
  if used <? nbytes then Ok (b, None)
  else if nbytes <? 0 then Exc ValueError
  else
    let room := size - r in
    if nbytes <=? room then
      if size =? 0 then Exc ZeroDivisionError
      else Ok (mkrb (rb_buf b) size ((r + nbytes) mod size) (rb_w b) (used - nbytes),
               Some (zslice (rb_buf b) r (r + nbytes)))
    else
      Ok (mkrb (rb_buf b) size (nbytes - room) (rb_w b) (used - nbytes),
          Some (zslice (rb_buf b) r (r + room) ++ zslice (rb_buf b) 0 (nbytes - room))).

(** ** Invariant and abstraction *)

Record rb_ok (b : rb) : Prop := {
  rbo_size : 0 < rb_size b;
  rbo_buf : zlen (rb_buf b) = rb_size b;
  rbo_r : 0 <= rb_r b < rb_size b;
  rbo_used : 0 <= rb_used b <= rb_size b;
  rbo_w : rb_w b = (rb_r b + rb_used b) mod rb_size b }.

(** The queue a buffer stands for: the [used] bytes from [r] on, read
    cyclically. *)
Definition rb_queue (b : rb) : bytes :=
  ztake (rb_used b) (zdrop (rb_r b) (rb_buf b ++ rb_buf b)).

(** [(a + b) % n] for [a < n] and [b <= n]. *)
Lemma add_mod_cases a b n :
  0 <= a < n -> 0 <= b <= n ->
  (a + b) mod n = if a + b <? n then a + b else a + b - n.
Proof.
  intros Ha Hb. destruct (a + b <? n) eqn:E; [apply Z.mod_small; lia|].
  replace (a + b) with (a + b - n + 1 * n) by lia.
  rewrite Z_mod_plus_full. rewrite Z.mod_small; lia.
Qed.

Lemma rb_queue_length b : rb_ok b -> zlen (rb_queue b) = rb_used b.
Proof.
  intros [? Hb ? ? _]. unfold rb_queue.
  rewrite zlen_take, zlen_drop, zlen_app by lia. lia.
Qed.

(** The byte at queue position [i] sits at [(r + i) % size]. *)
Lemma rb_queue_lookup b (i : nat) :
  rb_ok b -> Z.of_nat i < rb_used b ->
  rb_queue b !! i =
    rb_buf b !! Z.to_nat (if rb_r b + Z.of_nat i <? rb_size b
                          then rb_r b + Z.of_nat i else rb_r b + Z.of_nat i - rb_size b).
Proof.
  intros [? Hb ? ? _] Hi. unfold rb_queue, ztake, zdrop, zlen in *.
  rewrite lookup_take_lt, lookup_drop by lia.
  destruct (rb_r b + Z.of_nat i <? rb_size b) eqn:E.
  - rewrite lookup_app_l by lia. f_equal; lia.
  - rewrite lookup_app_r by lia. f_equal; lia.
Qed.

Lemma rb_queue_ext b q :
  rb_ok b -> zlen q = rb_used b ->
  (forall i : nat, Z.of_nat i < rb_used b ->
     q !! i = rb_buf b !! Z.to_nat (if rb_r b + Z.of_nat i <? rb_size b
                          then rb_r b + Z.of_nat i else rb_r b + Z.of_nat i - rb_size b)) ->
  rb_queue b = q.
Proof.
  intros Hok Hlen Hq. apply list_eq. intros i.
  pose proof (rb_queue_length b Hok) as Hl.
  destruct (Z_lt_le_dec (Z.of_nat i) (rb_used b)).
  - by rewrite rb_queue_lookup, Hq.
  - rewrite !lookup_ge_None_2; [done| |]; unfold zlen in *; lia.
Qed.

Lemma rbnew_ok n b : 0 < n -> rbnew n = Ok b -> rb_ok b /\ rb_queue b = [].
Proof.
  intros Hn. unfold rbnew. destruct (n <? 0) eqn:E; [discriminate|].
  intros H; simplify_eq. split.
  - split; simpl; try lia.
    + rewrite zlen_replicate. lia.
    + rewrite Z.mod_small; lia.
  - done.
Qed.

Lemma rbclear_ok b : rb_ok b -> rb_ok (rbclear b) /\ rb_queue (rbclear b) = [].
Proof.
  intros [? ? ? ? ?]. split; [|done].
  split; simpl; try lia. rewrite Z.mod_small; lia.
Qed.

(** The buffer after a successful push, whichever branch stored the bytes:
    position [j] holds the byte of [data] destined for it, or the old byte. *)
Lemma rbpush_shape b data :
  rb_ok b -> zlen data <= rbspace b ->
  exists buf,
    rbpush b data = Ok (mkrb buf (rb_size b) (rb_r b)
                          ((rb_w b + zlen data) mod rb_size b)
                          (rb_used b + zlen data), true) /\
    zlen buf = rb_size b /\
    forall j : nat, Z.of_nat j < rb_size b ->
      buf !! j =
        let k := if rb_w b <=? Z.of_nat j then Z.of_nat j - rb_w b
                 else Z.of_nat j + rb_size b - rb_w b in
        if k <? zlen data then data !! Z.to_nat k else rb_buf b !! j.
Proof.
  intros [Hs Hb Hr Hu Hw] Hspace. unfold rbspace in Hspace.
  assert (Hw' : 0 <= rb_w b < rb_size b) by (rewrite Hw; apply Z.mod_pos_bound; lia).
  pose proof (zlen_nonneg data) as Hd.
  unfold rbpush. destruct (rb_size b - rb_used b <? zlen data) eqn:E1; [lia|].
  destruct (zlen data <=? rb_size b - rb_w b) eqn:E2.
  - destruct (rb_size b =? 0) eqn:E3; [lia|]. eexists; split; [done|]. split.
    + rewrite zlen_splice; lia.
    + intros j Hj. rewrite lookup_zsplice by lia. simpl.
      split_if; (lia || done || (f_equal; lia)).
  - remember (rb_size b - rb_w b) as room eqn:Hroom.
    assert (Ht : zlen (ztake room data) = room) by (rewrite zlen_take; lia).
    assert (Hdr : zlen (zdrop room data) = zlen data - room) by (rewrite zlen_drop; lia).
    eexists; split.
    { do 3 f_equal. rewrite add_mod_cases by lia. split_if; lia. }
    split.
    + rewrite !zlen_splice; rewrite ?zlen_splice; lia.
    + intros j Hj. simpl.
      replace (zlen data - room) with (0 + zlen (zdrop room data)) by lia.
      replace (rb_w b + room) with (rb_w b + zlen (ztake room data)) by lia.
      rewrite lookup_zsplice by (rewrite ?zlen_splice; lia).
      rewrite lookup_zsplice by lia. rewrite Ht, Hdr.
      unfold zdrop, ztake. rewrite lookup_drop.
      split_if; try lia; try done.
      * f_equal; lia.
      * rewrite lookup_take_lt by lia. done.
Qed.

Lemma rbpush_push b data b' :
  rb_ok b -> rbpush b data = Ok (b', true) ->
  rb_ok b' /\ rb_queue b' = rb_queue b ++ data.
Proof.
  intros Hok Hp.
  assert (Hspace : zlen data <= rbspace b).
  { unfold rbpush, rbspace in *. split_if_in Hp; simplify_eq; lia. }
  destruct (rbpush_shape b data Hok Hspace) as (buf & Hbuf & Hlen & Hat).
  rewrite Hbuf in Hp. injection Hp as <-. unfold rbspace in *.
  destruct Hok as [Hs Hb Hr Hu Hw]. pose proof (zlen_nonneg data) as Hd.
  assert (Hok' : rb_ok (mkrb buf (rb_size b) (rb_r b)
                   ((rb_w b + zlen data) mod rb_size b) (rb_used b + zlen data))).
  { split; simpl; try lia. rewrite Hw, Z.add_mod_idemp_l by lia. f_equal; lia. }
  split; [done|]. apply rb_queue_ext; [done| |]; simpl.
  { rewrite zlen_app, rb_queue_length by done. done. }
  intros i Hi. set (p := if rb_r b + Z.of_nat i <? rb_size b then _ else _).
  assert (Hp : 0 <= p < rb_size b) by (subst p; split_if; lia).
  rewrite Hat by lia. rewrite Z2Nat.id by lia. cbv zeta.
  rewrite Hw, add_mod_cases by lia.
  destruct (Z_lt_le_dec (Z.of_nat i) (rb_used b)) as [Hlt|Hge].
  - rewrite lookup_app_l by (pose proof (rb_queue_length b ltac:(done)); unfold zlen in *; lia).
    rewrite rb_queue_lookup by done. fold p. subst p. split_if; try lia; done.
  - rewrite lookup_app_r by (pose proof (rb_queue_length b ltac:(done)); unfold zlen in *; lia).
    pose proof (rb_queue_length b ltac:(done)) as Hq. unfold zlen in *.
    subst p. split_if; try lia; f_equal; lia.
Qed.

Lemma rbpop_shape b n :
  rb_ok b -> 0 <= n <= rb_used b ->
  rbpop b n = Ok (mkrb (rb_buf b) (rb_size b) ((rb_r b + n) mod rb_size b) (rb_w b)
                    (rb_used b - n), Some (ztake n (rb_queue b))).
Proof.
  intros Hok Hn. pose proof Hok as [Hs Hb Hr Hu Hw].
  pose proof (rb_queue_length b Hok) as Hq.
  unfold rbpop. destruct (rb_used b <? n) eqn:E1; [lia|].
  destruct (n <? 0) eqn:E2; [lia|].
  assert (Hlk : forall i : nat, Z.of_nat i < n -> ztake n (rb_queue b) !! i =
    rb_buf b !! Z.to_nat (if rb_r b + Z.of_nat i <? rb_size b
                          then rb_r b + Z.of_nat i else rb_r b + Z.of_nat i - rb_size b)).
  { intros i Hi. unfold ztake. rewrite lookup_take_lt by lia. apply rb_queue_lookup; [done|lia]. }
  assert (Hlen : zlen (ztake n (rb_queue b)) = n) by (rewrite zlen_take; lia).
  destruct (n <=? rb_size b - rb_r b) eqn:E3.
  - destruct (rb_size b =? 0) eqn:E4; [lia|]. do 3 f_equal.
    apply list_eq. intros i. destruct (Z_lt_le_dec (Z.of_nat i) n).
    + rewrite lookup_zslice, Hlk by lia. split_if; [f_equal; lia|lia].
    + rewrite !lookup_ge_None_2; [done| |].
      * unfold zlen in *; lia.
      * pose proof (zlen_slice (rb_buf b) (rb_r b) (rb_r b + n) ltac:(lia) ltac:(lia) ltac:(lia)).
        unfold zlen in *; lia.
  - remember (rb_size b - rb_r b) as room eqn:Hroom.
    assert (Ha : zlen (zslice (rb_buf b) (rb_r b) (rb_r b + room)) = room)
      by (rewrite zlen_slice; lia).
    assert (Hc : zlen (zslice (rb_buf b) 0 (n - room)) = n - room)
      by (rewrite zlen_slice; lia).
    do 3 f_equal.
    { f_equal. rewrite add_mod_cases by lia. split_if; lia. }
    f_equal. apply list_eq. intros i. destruct (Z_lt_le_dec (Z.of_nat i) n).
    + rewrite Hlk by lia. destruct (Z_lt_le_dec (Z.of_nat i) room).
      * rewrite lookup_app_l by (unfold zlen in *; lia). rewrite lookup_zslice by lia.
        split_if; [f_equal; lia|lia].
      * rewrite lookup_app_r by (unfold zlen in *; lia). rewrite lookup_zslice; unfold zlen in *.
        -- split_if; [lia|f_equal; lia].
        -- lia.
        -- lia.
    + rewrite !lookup_ge_None_2; [done| |].
      * unfold zlen in *; lia.
      * rewrite length_app. unfold zlen in *; lia.
Qed.

Lemma rbpop_pop b n b' out :
  rb_ok b -> rbpop b n = Ok (b', Some out) ->
  rb_ok b' /\ zlen out = n /\ rb_queue b = out ++ rb_queue b'.
Proof.
  intros Hok Hp. pose proof Hok as [Hs Hb Hr Hu Hw].
  assert (Hn : 0 <= n <= rb_used b) by (unfold rbpop in Hp; split_if_in Hp; simplify_eq; lia).
  rewrite rbpop_shape in Hp by done. injection Hp as <- <-.
  pose proof (rb_queue_length b Hok) as Hq.
  assert (Hok' : rb_ok (mkrb (rb_buf b) (rb_size b) ((rb_r b + n) mod rb_size b)
                          (rb_w b) (rb_used b - n))).
  { split; simpl; try lia.
    - apply Z.mod_pos_bound; lia.
    - rewrite Z.add_mod_idemp_l, Hw by lia. f_equal; lia. }
  split; [done|]. split; [rewrite zlen_take; lia|].
  rewrite <- (ztake_zdrop n (rb_queue b)) at 1. f_equal. symmetry.
  apply rb_queue_ext; [done| |]; simpl.
  { rewrite zlen_drop; lia. }
  intros i Hi. unfold zdrop. rewrite lookup_drop, rb_queue_lookup by (done || lia).
  rewrite add_mod_cases by lia. rewrite Nat2Z.inj_add, Z2Nat.id by lia.
  f_equal. split_if; lia.
Qed.

(** ** The abstract bounded queue and the refinement *)

Record fifo : Type := mkfifo { fifo_cap : Z; fifo_data : bytes }.

Definition fifo_push (q : fifo) (d : bytes) : fifo * bool :=
  if zlen (fifo_data q) + zlen d <=? fifo_cap q
  then (mkfifo (fifo_cap q) (fifo_data q ++ d), true) else (q, false).

Definition fifo_pop (q : fifo) (n : Z) : fifo * option bytes :=
  if n <=? zlen (fifo_data q)
  then (mkfifo (fifo_cap q) (zdrop n (fifo_data q)), Some (ztake n (fifo_data q)))
  else (q, None).

(** [rb_refines b q]: the ring is well formed and holds the queue [q]. *)
Definition rb_refines (b : rb) (q : fifo) : Prop :=
  rb_ok b /\ rb_size b = fifo_cap q /\ rb_queue b = fifo_data q.

(** On a well-formed ring, [rbpush] never raises and behaves as the bounded
    queue's push in both the contiguous and the wrap-around branch: it appends
    the bytes when they fit, and otherwise refuses all of them and leaves the
    ring as it was. *)
Theorem rbpush_refines b q d :
  rb_refines b q ->
  exists b', rbpush b d = Ok (b', (fifo_push q d).2) /\ rb_refines b' (fifo_push q d).1.
Proof.
  intros (Hok & Hcap & Hq). pose proof (rb_queue_length b Hok) as Hl.
  unfold fifo_push. rewrite <- Hq, Hl, <- Hcap.
  destruct (rb_used b + zlen d <=? rb_size b) eqn:E; simpl.
  - destruct (rbpush_shape b d Hok) as (buf & Hb & _); [unfold rbspace; lia|].
    eexists; split; [exact Hb|]. destruct (rbpush_push _ _ _ Hok Hb) as [Hok' Hq'].
    split; [done|]. split; [done|]. simpl. by rewrite Hq'.
  - exists b. unfold rbpush. destruct (_ <? _) eqn:E1; [|lia]. done.
Qed.

(** On a well-formed ring and a non-negative count, [rbpop] never raises and
    behaves as the queue's pop: it removes and returns exactly the oldest [n]
    bytes in order, or returns [None] and changes nothing when fewer are
    queued. *)
Theorem rbpop_refines b q n :
  rb_refines b q -> 0 <= n ->
  exists b', rbpop b n = Ok (b', (fifo_pop q n).2) /\ rb_refines b' (fifo_pop q n).1.
Proof.
  intros (Hok & Hcap & Hq) Hn. pose proof (rb_queue_length b Hok) as Hl.
  unfold fifo_pop. rewrite <- Hq, Hl.
  destruct (n <=? rb_used b) eqn:E; simpl.
  - pose proof (rbpop_shape b n Hok ltac:(lia)) as Hp. eexists; split; [exact Hp|].
    destruct (rbpop_pop _ _ _ _ Hok Hp) as (Hok' & _ & Hq').
    split; [done|]. split; [done|]. simpl.
    rewrite Hq', zdrop_app_exact; [done|]. rewrite zlen_take; lia.
  - exists b. unfold rbpop. destruct (_ <? _) eqn:E1; [|lia]. done.
Qed.

(** A wrapped ring used by the witnesses: 4 bytes, read position 3. *)
Definition demo_rb : rb := mkrb [13; 12; 10; 11] 4 3 1 2.

Lemma demo_rb_refines : rb_refines demo_rb (mkfifo 4 [11; 13]).
Proof. repeat split; try done; simpl; lia. Qed.

Lemma rbpush_refines_witness :
  exists b', rbpush demo_rb [7; 8] = Ok (b', true) /\ rb_refines b' (mkfifo 4 [11; 13; 7; 8]).
Proof. apply (rbpush_refines demo_rb (mkfifo 4 [11; 13]) [7; 8]). apply demo_rb_refines. Defined.

Lemma rbpop_refines_witness :
  exists b', rbpop demo_rb 2 = Ok (b', Some [11; 13]) /\ rb_refines b' (mkfifo 4 []).
Proof.
  apply (rbpop_refines demo_rb (mkfifo 4 [11; 13]) 2); [apply demo_rb_refines|lia].
Defined.
