(* ===== verification/PyFloat.v ===== *)
(** Python floats: IEEE-754 binary64 as the Standard Library's [spec_float],
    with the conversions ([float(int)], [int(float)], decimal literals, [repr])
    and comparisons the modelled code uses.  Everything computes. *)

From stdpp Require Import base list.
From Stdlib Require Import ZArith Lia Bool.
From Stdlib Require Import SpecFloat.
From S2P Require Import Prelude.
Open Scope Z_scope.

Abbreviation pyfloat := spec_float.

#[export] Instance float_eq_dec : EqDecision pyfloat.
Proof. solve_decision. Defined.

Definition fprec : Z := 53.
Definition femax : Z := 1024.

Definition fadd : pyfloat -> pyfloat -> pyfloat := SFadd fprec femax.
Definition fsub : pyfloat -> pyfloat -> pyfloat := SFsub fprec femax.
Definition fmul : pyfloat -> pyfloat -> pyfloat := SFmul fprec femax.

(** Division raises on a zero divisor. *)
Definition fdiv (a b : pyfloat) : res pyfloat :=
  match b with
  | S754_zero _ => Exc ZeroDivisionError
  | _ => Ok (SFdiv fprec femax a b)
  end.

Definition fabs (a : pyfloat) : pyfloat := SFabs a.

(** Comparisons; every one is false on a NaN except [fneb]. *)
Definition flt (a b : pyfloat) : bool := SFltb a b.
Definition fle (a b : pyfloat) : bool := SFleb a b.
Definition fgt (a b : pyfloat) : bool := SFltb b a.
Definition fge (a b : pyfloat) : bool := SFleb b a.
Definition feqb (a b : pyfloat) : bool := SFeqb a b.
Definition fneb (a b : pyfloat) : bool := negb (SFeqb a b).

Definition fzero : pyfloat := S754_zero false.
Definition fnan : pyfloat := S754_nan.
Definition finf (s : bool) : pyfloat := S754_infinity s.

(** [m * 2^e] rounded to nearest even. *)
Definition fround (m e : Z) : pyfloat := binary_normalize fprec femax m e false.

(** [float(z)]: raises when the rounded value is out of range. *)
Definition float_of_int (z : Z) : res pyfloat :=
  match fround z 0 with
  | S754_infinity _ => Exc OverflowError
  | f => Ok f
  end.

(** The nearest binary64 to [m / d], for a positive [d]: the correctly rounded
    quotient of two integers of any size. *)
Definition fratio (m : Z) (d : positive) : pyfloat :=
  match m with
  | Z0 => fzero
  | Zpos p =>
      let '(q, e, l) := SFdiv_core_binary fprec femax (Zpos p) 0 (Zpos d) 0 in
      binary_round_aux fprec femax false q e l
  | Zneg p =>
      let '(q, e, l) := SFdiv_core_binary fprec femax (Zpos p) 0 (Zpos d) 0 in
      binary_round_aux fprec femax true q e l
  end.

(** The value of a decimal [m * 10^k]. *)
Definition fdecimal (m k : Z) : pyfloat :=
  if 0 <=? k then fround (m * 10 ^ k) 0 else fratio m (Z.to_pos (10 ^ (- k))).

(** [a / b] of two Python ints (true division); out-of-range results raise. *)
Definition int_truediv (a b : Z) : res pyfloat :=
  match b with
  | Z0 => Exc ZeroDivisionError
  | Zpos d => match fratio a d with S754_infinity _ => Exc OverflowError | f => Ok f end
  | Zneg d => match fratio (- a) d with S754_infinity _ => Exc OverflowError | f => Ok f end
  end.

(** The finite value as an exact dyadic [m * 2^e], [None] for NaN and infinities. *)
Definition fdyadic (f : pyfloat) : option (Z * Z) :=
  match f with
  | S754_zero _ => Some (0, 0)
  | S754_finite s m e => Some ((if s then Zneg m else Zpos m), e)
  | _ => None
  end.

(** [int(f)]: truncation toward zero. *)
Definition int_of_float (f : pyfloat) : res Z :=
  match f with
  | S754_nan => Exc ValueError
  | S754_infinity _ => Exc OverflowError
  | S754_zero _ => Ok 0
  | S754_finite s m e =>
      let a := if 0 <=? e then Zpos m * 2 ^ e else Zpos m / 2 ^ (- e) in
      Ok (if s then - a else a)
  end.

(** [round(f)] to an integer: nearest, ties to even. *)
Definition round_half_even (m e : Z) : Z :=
  if 0 <=? e then m * 2 ^ e
  else
    let d := 2 ^ (- e) in
    let q := m / d in
    let r := 2 * (m mod d) in
    if r <? d then q else if d <? r then q + 1 else if Z.even q then q else q + 1.

Definition int_round (f : pyfloat) : res Z :=
  match f with
  | S754_nan => Exc ValueError
  | S754_infinity _ => Exc OverflowError
  | S754_zero _ => Ok 0
  | S754_finite s m e => Ok (round_half_even (if s then Zneg m else Zpos m) e)
  end.

(** Python's [max(a, b)] and [min(a, b)]: the first argument wins ties and
    incomparable pairs. *)
Definition fmax2 (a b : pyfloat) : pyfloat := if fgt b a then b else a.
Definition fmin2 (a b : pyfloat) : pyfloat := if flt b a then b else a.

Definition is_nan (f : pyfloat) : bool :=
  match f with S754_nan => true | _ => false end.

Definition is_finite_float (f : pyfloat) : bool :=
  match f with S754_zero _ | S754_finite _ _ _ => true | _ => false end.

(** ** [repr] of a float: the shortest decimal that reads back as the float

    [decimal_candidates m e n] are the two [n]-digit decimals around the exact
    value [m * 2^e] as [(digits, exponent)]; [shortest] takes the first length
    for which one of them reads back. *)

(** The decimal exponent [k] with [10^k <= num/den < 10^(k+1)]. *)
Fixpoint dec_exp_down (fuel : nat) (num den k : Z) : Z :=
  match fuel with
  | O => k
  | S fuel => if num <? den then dec_exp_down fuel (10 * num) den (k - 1) else k
  end.
Fixpoint dec_exp_up (fuel : nat) (num den k : Z) : Z :=
  match fuel with
  | O => k
  | S fuel => if 10 * den <=? num then dec_exp_up fuel num (10 * den) (k + 1) else k
  end.

(** [floor] of [num/den * 10^j]. *)
Definition scaled_floor (num den j : Z) : Z :=
  if 0 <=? j then num * 10 ^ j / den else num / (den * 10 ^ (- j)).

Fixpoint shortest (fuel : nat) (f : pyfloat) (num den k n : Z) : Z * Z :=
  let j := n - 1 - k in
  let lo := scaled_floor num den j in
  let hi := lo + 1 in
  match fuel with
  | O => (lo, - j)
  | S fuel =>
      let lok := SFeqb (fdecimal lo (- j)) f in
      let hik := SFeqb (fdecimal hi (- j)) f in
      (* compare 2*value with lo+hi to pick the nearer one *)
      let nearer_lo :=
        if 0 <=? j then 2 * num * 10 ^ j <? (lo + hi) * den
        else 2 * num <? (lo + hi) * den * 10 ^ (- j) in
      if lok && (nearer_lo || negb hik) then (lo, - j)
      else if hik then (hi, - j)
      else shortest fuel f num den k (n + 1)
  end.

(** Shortest digits of a positive finite float: [(digits, exponent)] with the
    value [digits * 10^exponent]. *)
Definition shortest_digits (m : positive) (e : Z) : Z * Z :=
  let num := if 0 <=? e then Zpos m * 2 ^ e else Zpos m in
  let den := if 0 <=? e then 1 else 2 ^ (- e) in
  let k0 := dec_exp_down 400 num den 0 in
  let k := if num <? den then k0 else dec_exp_up 400 num den 0 in
  shortest 17 (S754_finite false m e) num den k 1.

(** ** Facts *)

Lemma flt_irrefl_nan f : flt fnan f = false /\ flt f fnan = false.
Proof. split; destruct f; done. Qed.

Lemma fdiv_zero a s : fdiv a (S754_zero s) = Exc ZeroDivisionError.
Proof. done. Qed.

(** The truncation of a finite float has the sign and is within the magnitude
    of the float. *)
Lemma int_of_float_nonneg m e :
  exists z, int_of_float (S754_finite false m e) = Ok z /\ 0 <= z.
Proof.
  eexists; split; [done|]. simpl. destruct (0 <=? e) eqn:E.
  - apply Z.mul_nonneg_nonneg; [lia|]. apply Z.pow_nonneg; lia.
  - apply Z.div_pos; [lia|]. apply Z.pow_pos_nonneg; lia.
Qed.

Lemma int_of_float_total f : is_finite_float f = true -> exists z, int_of_float f = Ok z.
Proof. destruct f; try discriminate; simpl; eauto. Qed.
