(* ===== verification/FloatFacts.v ===== *)
(** Facts about binary64 arithmetic that the audio components need: rounding
    never goes above the ceiling of the exact value, integers of sample size are
    exact, a product of a sample with a gain in [0, 1] truncates to a value no
    larger than the sample, and rounded results have 53-bit mantissas. *)

From stdpp Require Import base list.
From Stdlib Require Import ZArith Lia Bool.
From Stdlib Require Import SpecFloat.
From S2P Require Import Prelude PyFloat.
Open Scope Z_scope.

(** ** Digits *)

Lemma digits2_bounds p : 2 ^ (Zpos (digits2_pos p) - 1) <= Zpos p < 2 ^ Zpos (digits2_pos p).
Proof.
  induction p as [p IH|p IH|]; simpl digits2_pos; [| |by split; vm_compute].
  all: rewrite Pos2Z.inj_succ; unfold Z.succ;
    replace (Zpos (digits2_pos p) + 1 - 1) with (Zpos (digits2_pos p) - 1 + 1) by lia;
    rewrite !Z.pow_add_r by lia; change (2 ^ 1) with 2; lia.
Qed.

(** The number of digits from an upper bound. *)
Lemma digits2_le p k : 0 <= k -> Zpos p < 2 ^ k -> Zpos (digits2_pos p) <= k.
Proof.
  intros Hk Hp. pose proof (digits2_bounds p) as [H _].
  destruct (Z_le_gt_dec (Zpos (digits2_pos p)) k); [done|].
  assert (2 ^ k <= 2 ^ (Zpos (digits2_pos p) - 1)) by (apply Z.pow_le_mono_r; lia). lia.
Qed.

Lemma digits2_xO p n :
  Zpos (digits2_pos (Pos.iter xO p n)) = Zpos (digits2_pos p) + Zpos n /\
  Zpos (Pos.iter xO p n) = Zpos p * 2 ^ Zpos n.
Proof.
  induction n as [|n [IH1 IH2]] using Pos.peano_ind; simpl.
  - split; [lia|]. change (2 ^ 1) with 2. lia.
  - rewrite Pos.iter_succ. simpl digits2_pos. rewrite !Pos2Z.inj_succ, IH1. split; [lia|].
    rewrite Z.pow_succ_r by lia. rewrite Pos2Z.inj_xO, IH2. ring.
Qed.

(** ** Right shifts with sticky bits *)

Lemma iter_pos_nat {A} (f : A -> A) n x : SpecFloat.iter_pos f n x = Nat.iter (Pos.to_nat n) f x.
Proof.
  revert x. induction n as [n IH|n IH|]; intros x; cbn [SpecFloat.iter_pos]; rewrite ?IH.
  - rewrite Pos2Nat.inj_xI, <- Nat.iter_add.
    replace (S (2 * Pos.to_nat n))%nat with (Pos.to_nat n + Pos.to_nat n + 1)%nat by lia.
    by rewrite (Nat.iter_add (Pos.to_nat n + Pos.to_nat n) 1).
  - rewrite Pos2Nat.inj_xO, <- Nat.iter_add. f_equal; lia.
  - done.
Qed.

Definition inexact (r : shr_record) : bool := shr_r r || shr_s r.

(** [n] shifts: the quotient; the flags are clear when the division is exact and
    they were clear. *)
Lemma shr_iter n r0 :
  0 <= shr_m r0 ->
  let r := Nat.iter n shr_1 r0 in
  shr_m r = shr_m r0 / 2 ^ Z.of_nat n /\
  (inexact r = true -> shr_m r0 mod 2 ^ Z.of_nat n <> 0 \/ inexact r0 = true).
Proof.
  intros Hm. induction n as [|n [IH1 IH2]]; intros r.
  - simpl. rewrite Z.div_1_r. split; [done|by right].
  - subst r. change (Nat.iter (S n) shr_1 ?x) with (shr_1 (Nat.iter n shr_1 x)).
    destruct (Nat.iter n shr_1 _) as [q r s]. simpl in IH1, IH2. set (m := shr_m r0) in *.
    rewrite Nat2Z.inj_succ, Z.pow_succ_r by lia.
    assert (Hp : 0 < 2 ^ Z.of_nat n) by (apply Z.pow_pos_nonneg; lia).
    assert (Hq : 0 <= q) by (subst q; apply Z.div_pos; lia).
    assert (Hdm : m = 2 ^ Z.of_nat n * q + m mod 2 ^ Z.of_nat n) by (subst q; apply Z.div_mod; lia).
    pose proof (Z.mod_pos_bound m (2 ^ Z.of_nat n) ltac:(lia)) as Hmod.
    assert (Hexact : m mod (2 * 2 ^ Z.of_nat n) = 0 -> Z.even q = true /\ m mod 2 ^ Z.of_nat n = 0).
    { intros E. apply Z.mod_divide in E as [k Hk]; [|lia].
      assert (m mod 2 ^ Z.of_nat n = 0) as E0.
      { rewrite Hk. replace (k * (2 * 2 ^ Z.of_nat n)) with (k * 2 * 2 ^ Z.of_nat n) by lia. apply Z_mod_mult. }
      split; [|done]. replace q with (2 * k) by nia. by rewrite Z.even_mul. }
    assert (Hflag : inexact (Build_shr_record q r s) = true ->
      m mod (2 * 2 ^ Z.of_nat n) <> 0 \/ inexact r0 = true).
    { intros [H|H]%IH2; [left|by right]. intros E. apply Hexact in E as [_ E]. done. }
    rewrite (Z.mul_comm 2), <- Z.div_div, <- IH1 by lia. rewrite (Z.mul_comm _ 2).
    unfold inexact in *; cbn [shr_r shr_s] in *.
    destruct q as [|[p|p|]|]; [| | | |lia]; unfold shr_1; cbn [shr_m shr_r shr_s].
    + split; [done|]. intros Hi. apply Hflag. by destruct r, s.
    + split; [rewrite Pos2Z.inj_xI, (Z.mul_comm 2), Z.div_add_l; [done|lia]|].
      intros _. left. intros E. apply Hexact in E as [E _]. done.
    + split; [rewrite Pos2Z.inj_xO, (Z.mul_comm 2), Z.div_mul; [done|lia]|].
      intros Hi. apply Hflag. by destruct r, s.
    + split; [done|]. intros _. left. intros E. apply Hexact in E as [E _]. done.
Qed.

Definition shift_of (m e : Z) : Z := Z.max 0 (fexp fprec femax (Zdigits2 m + e) - e).

Definition loc_exact (l : location) : bool := match l with loc_Exact => true | _ => false end.

Lemma shr_fexp_spec m e l :
  0 <= m ->
  let '(r, e') := shr_fexp fprec femax m e l in
  e' = e + shift_of m e /\ shr_m r = m / 2 ^ shift_of m e /\
  (inexact r = true -> m mod 2 ^ shift_of m e <> 0 \/ loc_exact l = false).
Proof.
  intros Hm. unfold shr_fexp, shift_of, shr.
  assert (Hr : shr_m (shr_record_of_loc m l) = m /\
    (inexact (shr_record_of_loc m l) = true -> loc_exact l = false)) by (by destruct l as [|[]]).
  destruct Hr as [Hr Hl].
  destruct (fexp fprec femax (Zdigits2 m + e) - e) as [|p|p] eqn:E.
  - rewrite Z.max_id, Z.add_0_r, Z.pow_0_r, Z.div_1_r. auto.
  - rewrite iter_pos_nat. destruct (shr_iter (Pos.to_nat p) (shr_record_of_loc m l)) as [H1 H2]; [lia|].
    rewrite Hr, positive_nat_Z in H1, H2. rewrite Z.max_r by lia. split; [done|]. split; [done|].
    intros Hi. destruct (H2 Hi); auto.
  - rewrite Z.max_l by lia. rewrite Z.add_0_r, Z.pow_0_r, Z.div_1_r. auto.
Qed.

(** Rounding is at most the ceiling. *)
Lemma rne_ceil r q : shr_m r = q ->
  let v := round_nearest_even q (loc_of_shr_record r) in
  v = q \/ v = q + 1 /\ inexact r = true.
Proof. intros <-. destruct r as [m [] []]; simpl; [by right|destruct (Z.even m); [by left|by right]|by left|by left]. Qed.

(** The digits of a shifted mantissa fit in 53 bits. *)
Lemma shift_digits m e : 0 <= m -> m / 2 ^ shift_of m e < 2 ^ 53.
Proof.
  intros Hm. destruct (Z_lt_le_dec m (2 ^ 53)).
  { assert (0 < 2 ^ shift_of m e) by (apply Z.pow_pos_nonneg; unfold shift_of; lia).
    assert (m / 2 ^ shift_of m e <= m) by (apply Z.div_le_upper_bound; nia). lia. }
  destruct m as [|p|p]; [done| |lia].
  pose proof (digits2_bounds p) as [_ Hu].
  assert (Hsh : Zpos (digits2_pos p) - 53 <= shift_of (Zpos p) e).
  { unfold shift_of, fexp, fprec. simpl Zdigits2. lia. }
  assert (0 <= shift_of (Zpos p) e) by (unfold shift_of; lia).
  assert (H53 : 53 < Zpos (digits2_pos p) \/ Zpos (digits2_pos p) <= 53) by lia.
  destruct H53.
  - apply Z.div_lt_upper_bound; [apply Z.pow_pos_nonneg; lia|].
    rewrite <- Z.pow_add_r by lia. eapply Z.lt_le_trans; [exact Hu|]. apply Z.pow_le_mono_r; lia.
  - assert (2 ^ Zpos (digits2_pos p) <= 2 ^ 53) by (apply Z.pow_le_mono_r; lia). lia.
Qed.

(** ** Bounds on a rounded result *)

Definition mag (f : pyfloat) : Prop :=
  match f with S754_finite _ m _ => Zpos m < 2 ^ 53 | _ => True end.

Lemma round_aux_mag sx m e l : 0 <= m -> mag (binary_round_aux fprec femax sx m e l).
Proof.
  intros Hm. unfold binary_round_aux.
  pose proof (shr_fexp_spec m e l Hm) as H1. destruct (shr_fexp _ _ m e _) as [r1 e1].
  destruct H1 as (-> & Hq1 & _).
  set (v := round_nearest_even _ _).
  assert (Hq0 : 0 <= m / 2 ^ shift_of m e).
  { apply Z.div_pos; [done|]. apply Z.pow_pos_nonneg; unfold shift_of; lia. }
  assert (Hv : 0 <= v) by (destruct (rne_ceil r1 _ Hq1) as [E|[E _]]; unfold v; rewrite Hq1, E; lia).
  pose proof (shr_fexp_spec v (e + shift_of m e) loc_Exact Hv) as H2.
  destruct (shr_fexp _ _ v _ _) as [r2 e2]. destruct H2 as (_ & Hq2 & _).
  pose proof (shift_digits v (e + shift_of m e) Hv) as Hd. rewrite <- Hq2 in Hd.
  destruct (shr_m r2); try done. by destruct (_ <=? _).
Qed.

(** ** Values of bounded magnitude *)

(** The bounds in use: below [2^40] the exponent of a rounded value is negative. *)
Definition BIG : Z := 2 ^ 40.

Lemma shift_bound m e B :
  0 <= m -> e <= 0 -> 0 <= B <= BIG -> m <= B * 2 ^ (- e) ->
  let k := shift_of m e in
  e + k <= 0 /\ m / 2 ^ k <= B * 2 ^ (- (e + k)) /\
  (m mod 2 ^ k <> 0 \/ m + 1 <= B * 2 ^ (- e) -> m / 2 ^ k + 1 <= B * 2 ^ (- (e + k))).
Proof.
  intros Hm He HB Hb k. unfold BIG in HB.
  assert (Hd : Zdigits2 m <= 41 - e).
  { destruct m as [|p|p]; [simpl; lia| |lia]. simpl. apply digits2_le; [lia|].
    assert (Zpos p <= 2 ^ (40 - e)).
    { replace (40 - e) with (40 + - e) by lia. rewrite Z.pow_add_r by lia.
      etransitivity; [exact Hb|]. apply Z.mul_le_mono_nonneg_r; [apply Z.pow_nonneg; lia|lia]. }
    assert (2 ^ (40 - e) < 2 ^ (41 - e)) by (apply Z.pow_lt_mono_r; lia). lia. }
  assert (Hk0 : 0 <= k) by (unfold k, shift_of; lia).
  assert (Hk : e + k <= 0) by (unfold k, shift_of, fexp, emin, fprec, femax; lia).
  assert (Hp : 0 < 2 ^ k) by (apply Z.pow_pos_nonneg; lia).
  assert (Hsplit : B * 2 ^ (- e) = B * 2 ^ (- (e + k)) * 2 ^ k).
  { rewrite <- Z.mul_assoc, <- Z.pow_add_r by lia. do 2 f_equal. lia. }
  split; [done|]. pose proof (Z.div_mod m (2 ^ k) ltac:(lia)).
  pose proof (Z.mod_pos_bound m (2 ^ k) Hp). split; [|intros]; nia.
Qed.

(** Magnitude at most the integer [B], as an exact dyadic. *)
Definition absle (B : Z) (f : pyfloat) : Prop :=
  match f with
  | S754_zero _ => True
  | S754_finite _ m e => e <= 0 /\ Zpos m <= B * 2 ^ (- e)
  | _ => False
  end.

Definition fsign (f : pyfloat) (sx : bool) : Prop :=
  match f with S754_finite s _ _ | S754_zero s => s = sx | _ => True end.

(** A rounded value is within every integer bound of the exact value. *)
Lemma round_aux_absle sx m e l B :
  0 <= m -> e <= 0 -> 0 <= B <= BIG -> m <= B * 2 ^ (- e) ->
  (loc_exact l = false -> m + 1 <= B * 2 ^ (- e)) ->
  absle B (binary_round_aux fprec femax sx m e l) /\ fsign (binary_round_aux fprec femax sx m e l) sx.
Proof.
  intros Hm He HB Hb Hl. unfold binary_round_aux.
  pose proof (shr_fexp_spec m e l Hm) as H1. destruct (shr_fexp _ _ m e _) as [r1 e1].
  destruct H1 as (-> & Hq1 & Hi1).
  destruct (shift_bound m e B Hm He HB Hb) as (He1 & Hb1 & Hb1').
  set (v := round_nearest_even _ _).
  assert (Hq0 : 0 <= m / 2 ^ shift_of m e).
  { apply Z.div_pos; [done|]. apply Z.pow_pos_nonneg; unfold shift_of; lia. }
  assert (Hv : 0 <= v <= B * 2 ^ (- (e + shift_of m e))).
  { destruct (rne_ceil r1 _ Hq1) as [E|[E Hx]]; unfold v; rewrite Hq1, E; [lia|].
    assert (m / 2 ^ shift_of m e + 1 <= B * 2 ^ (- (e + shift_of m e))); [|lia].
    apply Hb1'. destruct (Hi1 Hx); auto. }
  pose proof (shr_fexp_spec v (e + shift_of m e) loc_Exact ltac:(lia)) as H2.
  destruct (shr_fexp _ _ v _ _) as [r2 e2]. destruct H2 as (-> & Hq2 & _).
  destruct (shift_bound v (e + shift_of m e) B ltac:(lia) He1 HB ltac:(lia)) as (He2 & Hb2 & _).
  set (k2 := shift_of v _) in *. set (e2 := e + shift_of m e + k2) in *.
  assert (Hq20 : 0 <= v / 2 ^ k2).
  { apply Z.div_pos; [lia|]. apply Z.pow_pos_nonneg; unfold k2, shift_of; lia. }
  rewrite <- Hq2 in *. destruct (shr_m r2) as [|q|q]; [done| |lia].
  destruct (e2 <=? femax - fprec) eqn:Ef; [done|unfold femax, fprec in Ef; lia].
Qed.

(** Truncating a bounded value. *)
Lemma int_of_absle B f : absle B f ->
  exists z, int_of_float f = Ok z /\ Z.abs z <= Z.max 0 B /\
    (forall s, fsign f s -> if s : bool then z <= 0 else 0 <= z).
Proof.
  destruct f as [s|s| |s m e]; try done.
  { intros _. exists 0. split; [done|]. split; [lia|]. intros []; lia. }
  intros [He Hm]. eexists. split; [reflexivity|].
  assert (Ha : 0 <= (if 0 <=? e then Zpos m * 2 ^ e else Zpos m / 2 ^ (- e)) <= B).
  { destruct (0 <=? e) eqn:E0.
    - replace e with 0 in * by lia. change (2 ^ (- 0)) with 1 in Hm. rewrite Z.pow_0_r. lia.
    - assert (0 < 2 ^ (- e)) by (apply Z.pow_pos_nonneg; lia). split.
      + apply Z.div_pos; lia.
      + apply Z.div_le_upper_bound; lia. }
  split; [destruct s; lia|]. intros s' <-. destruct s; lia.
Qed.

Lemma absle_weaken A B f : 0 <= A <= B -> absle A f -> absle B f.
Proof.
  destruct f as [| | |s m e]; try done. intros HAB [He Hm]. split; [done|].
  etransitivity; [exact Hm|]. apply Z.mul_le_mono_nonneg_r; [apply Z.pow_nonneg; lia|lia].
Qed.

Lemma mul_absle A B f g :
  0 <= A -> 0 <= B -> A * B <= BIG -> absle A f -> absle B g -> absle (A * B) (fmul f g).
Proof.
  intros HA HB HAB Hf Hg. destruct f as [| | |s m e], g as [| | |s' m' e']; try done.
  destruct Hf as [He Hm], Hg as [He' Hm']. unfold fmul, SFmul.
  apply round_aux_absle; [done|lia|lia| |done].
  rewrite Pos2Z.inj_mul. replace (- (e + e')) with (- e + - e') by lia. rewrite Z.pow_add_r by lia.
  replace (A * B * (2 ^ (- e) * 2 ^ (- e'))) with ((A * 2 ^ (- e)) * (B * 2 ^ (- e'))) by ring.
  apply Z.mul_le_mono_nonneg; lia.
Qed.

Lemma shl_align_spec m e e' :
  let '(m', e'') := shl_align m e e' in
  e'' = Z.min e e' /\ Zpos m' = Zpos m * 2 ^ (e - Z.min e e').
Proof.
  unfold shl_align. destruct (e' - e) as [|p|p] eqn:E.
  - rewrite Z.min_l, Z.sub_diag, Z.pow_0_r by lia. split; [done|lia].
  - rewrite Z.min_l, Z.sub_diag, Z.pow_0_r by lia. split; [done|lia].
  - rewrite Z.min_r by lia. split; [done|]. replace (e - e') with (Zpos p) by lia. apply digits2_xO.
Qed.

Lemma normalize_absle m e B z :
  e <= 0 -> 0 <= B <= BIG -> Z.abs m <= B * 2 ^ (- e) -> absle B (binary_normalize fprec femax m e z).
Proof.
  intros He HB Hm. destruct m as [|p|p]; [done| |]; simpl; unfold binary_round;
    (pose proof (shl_align_spec p e (fexp fprec femax (Zpos (digits2_pos p) + e))) as H;
     destruct (shl_align p e _) as [m' e'']; destruct H as [-> H]; set (x := Z.min e _) in *;
     apply round_aux_absle; [lia|lia|lia| |done];
     rewrite H; replace (- x) with (- e + (e - x)) by lia; rewrite Z.pow_add_r by lia;
     rewrite Z.mul_assoc; apply Z.mul_le_mono_nonneg_r; [apply Z.pow_nonneg; lia|simpl in Hm; lia]).
Qed.

Lemma align_le m e ez A :
  ez <= e -> e <= 0 -> Zpos m <= A * 2 ^ (- e) ->
  Zpos (fst (shl_align m e ez)) <= A * 2 ^ (- ez).
Proof.
  intros Hez He Hm. pose proof (shl_align_spec m e ez) as H. destruct (shl_align m e ez) as [m' e'].
  destruct H as [_ H]. simpl. rewrite H, Z.min_r by lia.
  replace (- ez) with (- e + (e - ez)) by lia. rewrite Z.pow_add_r by lia. rewrite Z.mul_assoc.
  apply Z.mul_le_mono_nonneg_r; [apply Z.pow_nonneg; lia|done].
Qed.

Lemma add_absle A B f g :
  0 <= A -> 0 <= B -> A + B <= BIG -> absle A f -> absle B g -> absle (A + B) (fadd f g).
Proof.
  intros HA HB HAB Hf Hg. destruct f as [s|s| |s m e], g as [s'|s'| |s' m' e']; try done;
    try (by destruct s, s').
  1, 2: eapply absle_weaken; [|eassumption]; lia.
  destruct Hf as [He Hm], Hg as [He' Hm']. unfold fadd, SFadd. cbv zeta.
  apply normalize_absle; [lia|lia|].
  pose proof (align_le m e (Z.min e e') A ltac:(lia) He Hm).
  pose proof (align_le m' e' (Z.min e e') B ltac:(lia) He' Hm').
  rewrite Z.mul_add_distr_r. destruct s, s'; simpl cond_Zopp; lia.
Qed.

Lemma sub_absle A B f g :
  0 <= A -> 0 <= B -> A + B <= BIG -> absle A f -> absle B g -> absle (A + B) (fsub f g).
Proof.
  intros HA HB HAB Hf Hg. destruct f as [s|s| |s m e], g as [s'|s'| |s' m' e']; try done;
    try (by destruct s, s').
  { exact (absle_weaken B (A + B) (S754_finite s' m' e') ltac:(lia) Hg). }
  { exact (absle_weaken A (A + B) (S754_finite s m e) ltac:(lia) Hf). }
  destruct Hf as [He Hm], Hg as [He' Hm']. unfold fsub, SFsub. cbv zeta.
  apply normalize_absle; [lia|lia|].
  pose proof (align_le m e (Z.min e e') A ltac:(lia) He Hm).
  pose proof (align_le m' e' (Z.min e e') B ltac:(lia) He' Hm').
  rewrite Z.mul_add_distr_r. destruct s, s'; simpl cond_Zopp; lia.
Qed.

(** ** Integers of sample size *)

Definition sgn_ok (s : bool) (z : Z) : Prop := if s then z < 0 else 0 < z.

Lemma round_exact sx p : Zpos p < 2 ^ 53 ->
  exists m e, binary_round fprec femax sx p 0 = S754_finite sx m e /\ e <= 0 /\
    Zpos m = Zpos p * 2 ^ (- e).
Proof.
  intros Hp. pose proof (digits2_le p 53 ltac:(lia) Hp) as Hd.
  set (d := Zpos (digits2_pos p)) in *.
  assert (Hf : fexp fprec femax (d + 0) = d - 53) by (unfold fexp, emin, fprec, femax; lia).
  unfold binary_round. fold d. rewrite Hf. unfold shl_align. rewrite Z.sub_0_r.
  assert (Hmz : exists mz ez, (match d - 53 with Zneg d0 => (Pos.iter xO p d0, d - 53) | _ => (p, 0) end)
    = (mz, ez) /\ ez <= 0 /\ Zpos mz = Zpos p * 2 ^ (- ez) /\ Zpos (digits2_pos mz) = 53 /\ ez = d - 53).
  { destruct (d - 53) as [|q|q] eqn:E; [|lia|].
    - exists p, 0. fold d. split_and!; (done || lia || (change (2 ^ (- 0)) with 1; lia)).
    - destruct (digits2_xO p q) as [E1 E2]. exists (Pos.iter xO p q), (Zneg q).
      fold d in E1. split_and!; try lia; done. }
  destruct Hmz as (mz & ez & -> & He & Hm & Hdz & Hez).
  assert (Hs : shr_fexp fprec femax (Zpos mz) ez loc_Exact = (Build_shr_record (Zpos mz) false false, ez)).
  { unfold shr_fexp. simpl Zdigits2. rewrite Hdz, Hez.
    replace (53 + (d - 53)) with (d + 0) by lia. by rewrite Hf, Z.sub_diag. }
  exists mz, ez. split; [|done]. unfold binary_round_aux. rewrite Hs. simpl. rewrite Hs. simpl.
  destruct (ez <=? femax - fprec) eqn:E; [done|unfold femax, fprec in E; lia].
Qed.

Lemma float_of_sample s : Z.abs s < 2 ^ 53 ->
  s = 0 /\ float_of_int s = Ok (S754_zero false) \/
  exists sx m e, float_of_int s = Ok (S754_finite sx m e) /\ e <= 0 /\
    Zpos m = Z.abs s * 2 ^ (- e) /\ sgn_ok sx s.
Proof.
  intros Hs. destruct s as [|p|p]; [by left| |]; right; unfold float_of_int, fround; simpl binary_normalize.
  - destruct (round_exact false p Hs) as (m & e & -> & He & Hm). exists false, m, e. by split_and!.
  - destruct (round_exact true p Hs) as (m & e & -> & He & Hm). exists true, m, e. by split_and!.
Qed.

(** ** Gains in [0, 1] *)

(** A non-negative finite float of value at most one (negative zero included). *)
Definition unit_gain (g : pyfloat) : Prop :=
  match g with
  | S754_zero _ => True
  | S754_finite false m e => e <= 0 /\ Zpos m <= 2 ^ (- e)
  | _ => False
  end.

(** A sample times a unit gain, truncated, keeps its sign and does not grow. *)
Lemma attenuate s g f : s16 s -> unit_gain g -> float_of_int s = Ok f ->
  exists z, int_of_float (fmul f g) = Ok z /\ Z.abs z <= Z.abs s /\ 0 <= z * s.
Proof.
  unfold s16. intros Hs Hg Hf. destruct (float_of_sample s ltac:(lia)) as [[-> H0]|H].
  - rewrite H0 in Hf. injection Hf as <-. exists 0. split; [|done].
    destruct g as [| | |sg m e]; done.
  - destruct H as (sx & m & e & H & He & Hm & Hsg). rewrite H in Hf. injection Hf as <-.
    destruct g as [sg| | |[] mg eg]; try done.
    { exists 0. split; [done|]. lia. }
    destruct Hg as [Heg Hmg]. unfold fmul, SFmul.
    assert (Hprod : Zpos (m * mg) <= Z.abs s * 2 ^ (- (e + eg))).
    { rewrite Pos2Z.inj_mul, Hm. replace (- (e + eg)) with (- e + - eg) by lia.
      rewrite Z.pow_add_r by lia. assert (0 < 2 ^ (- e)) by (apply Z.pow_pos_nonneg; lia).
      rewrite <- !Z.mul_assoc. apply Z.mul_le_mono_nonneg_l; [lia|]. apply Z.mul_le_mono_nonneg_l; lia. }
    destruct (round_aux_absle (xorb sx false) (Zpos (m * mg)) (e + eg) loc_Exact (Z.abs s))
      as [Ha Hsign]; [lia|lia|unfold BIG; lia|done|done|].
    destruct (int_of_absle _ _ Ha) as (z & Hz & Hb & Hzs). specialize (Hzs _ Hsign).
    exists z. split; [done|]. destruct sx; simpl in Hsg, Hzs; split; nia.
Qed.

(** [clamp] to [0, 1] of a rounded float that is not a NaN is a unit gain. *)
Definition fone : pyfloat := fdecimal 1 0.

Lemma fone_eq : fone = S754_finite false 4503599627370496 (-52).
Proof. reflexivity. Qed.

Lemma unit_gain_between f :
  mag f -> is_nan f = false -> flt f fzero = false -> fgt f fone = false -> unit_gain f.
Proof.
  rewrite fone_eq. destruct f as [s|s| |s m e]; try done.
  - destruct s; done.
  - unfold flt, fgt, SFltb, SFcompare, fzero, mag. intros Hm _. destruct s; [done|]. intros _ H.
    unfold unit_gain. destruct (-52 ?= e) eqn:E; [|done|].
    + apply Z.compare_eq in E as <-. split; [lia|]. change (2 ^ (- -52)) with 4503599627370496.
      change (Pos.compare_cont Eq 4503599627370496 m) with (4503599627370496 ?= m)%positive in H.
      destruct (4503599627370496 ?= m)%positive eqn:E2; [|done|].
      * apply Pos.compare_eq in E2 as <-. reflexivity.
      * apply Pos.compare_gt_iff in E2. apply (Pos2Z.pos_le_pos m), Pos.lt_le_incl, E2.
    + rewrite Z.compare_gt_iff in E. split; [lia|].
      assert (2 ^ 53 <= 2 ^ (- e)) by (apply Z.pow_le_mono_r; lia). lia.
Qed.

(** A quotient by a value of at least one. *)
Lemma sfdiv_absle s s' mx ex my ey B :
  ex <= 0 -> ey <= 0 -> 0 <= B <= BIG ->
  Zpos mx * 2 ^ (- ey) <= B * Zpos my * 2 ^ (- ex) ->
  Zpos mx <= BIG * 2 ^ (- ex) -> 2 ^ (- ey) <= Zpos my ->
  absle B (SFdiv fprec femax (S754_finite s mx ex) (S754_finite s' my ey)).
Proof.
  intros Hex Hey HB Hr Hx Hy. unfold SFdiv, SFdiv_core_binary. cbv zeta.
  set (e' := Z.min _ (ex - ey)).
  assert (Hpx : 0 < 2 ^ (- ex)) by (apply Z.pow_pos_nonneg; lia).
  assert (Hpy : 0 < 2 ^ (- ey)) by (apply Z.pow_pos_nonneg; lia).
  assert (Hd1 : Zdigits2 (Zpos mx) <= 41 - ex).
  { apply digits2_le; [lia|]. replace (41 - ex) with (41 + - ex) by lia.
    rewrite Z.pow_add_r by lia. unfold BIG in Hx. lia. }
  assert (Hd2 : - ey < Zdigits2 (Zpos my)).
  { pose proof (digits2_bounds my) as [_ Hu]. apply (Z.pow_lt_mono_r_iff 2); [lia|simpl; lia|].
    simpl Zdigits2. lia. }
  assert (He' : e' <= 0) by (unfold e', fexp, emin, fprec, femax; lia).
  assert (Hs : 0 <= ex - ey - e') by (unfold e'; lia).
  assert (Hm' : (match ex - ey - e' with Z0 => Zpos mx | Zpos _ => Z.shiftl (Zpos mx) (ex - ey - e')
    | Zneg _ => 0 end) = Zpos mx * 2 ^ (ex - ey - e')).
  { destruct (ex - ey - e') as [|q|q] eqn:Eq; [by rewrite Z.pow_0_r, Z.mul_1_r| |lia].
    apply Z.shiftl_mul_pow2. lia. }
  rewrite Hm'. set (m' := Zpos mx * _).
  assert (Hle : m' <= Zpos my * (B * 2 ^ (- e'))).
  { apply (Zmult_le_reg_r _ _ (2 ^ (- ex))); [lia|]. unfold m'.
    rewrite <- Z.mul_assoc, <- Z.pow_add_r by lia.
    replace (ex - ey - e' + - ex) with (- ey + - e') by lia. rewrite Z.pow_add_r by lia.
    pose proof (Z.pow_nonneg 2 (- e')). nia. }
  assert (Hm0 : 0 <= m') by (unfold m'; pose proof (Z.pow_nonneg 2 (ex - ey - e')); nia).
  pose proof (Z.div_mod m' (Zpos my) ltac:(lia)) as Hdm. pose proof (Z.mod_pos_bound m' (Zpos my) ltac:(lia)).
  unfold Z.modulo, Z.div in *. destruct (Z.div_eucl m' (Zpos my)) as [q r].
  assert (0 <= q) by nia.
  apply round_aux_absle; [done|done|done|nia|].
  intros Hl. assert (r <> 0); [|nia]. intros ->. revert Hl. unfold new_location, new_location_even, new_location_odd.
  by destruct (Z.even (Zpos my)).
Qed.

(** The quotient of two integers [a <= b] is at most one. *)
Lemma div_absle a b f g :
  0 <= a <= b -> 0 < b <= BIG -> float_of_int a = Ok f -> float_of_int b = Ok g ->
  exists q, fdiv f g = Ok q /\ absle 1 q.
Proof.
  unfold BIG. intros Ha Hb Hf Hg.
  destruct (float_of_sample b) as [[E _]|(sy & my & ey & E & Hey & Hmy & Hsy)]; [lia|lia|].
  rewrite E in Hg. injection Hg as <-.
  destruct (float_of_sample a) as [[-> E0]|(sx & mx & ex & E0 & Hex & Hmx & Hsx)]; [lia| |].
  { rewrite E0 in Hf. injection Hf as <-. eexists. split; [reflexivity|]. done. }
  rewrite E0 in Hf. injection Hf as <-. rewrite Z.abs_eq in Hmx, Hmy by lia.
  assert (0 < 2 ^ (- ex)) by (apply Z.pow_pos_nonneg; lia).
  assert (0 < 2 ^ (- ey)) by (apply Z.pow_pos_nonneg; lia).
  eexists. split; [reflexivity|]. apply sfdiv_absle; try done; unfold BIG; try nia.
Qed.

(** The quotient by a float of value at least one does not grow. *)
Lemma div_ge1_absle A f s my ey :
  0 <= A <= BIG -> absle A f -> ey <= 0 -> 2 ^ (- ey) <= Zpos my ->
  exists q, fdiv f (S754_finite s my ey) = Ok q /\ absle A q.
Proof.
  intros HA Hf Hey Hy. destruct f as [s0| | |s0 m e]; try done.
  { eexists. split; [reflexivity|]. done. }
  destruct Hf as [He Hm]. eexists. split; [reflexivity|].
  assert (0 < 2 ^ (- e)) by (apply Z.pow_pos_nonneg; lia).
  assert (0 < 2 ^ (- ey)) by (apply Z.pow_pos_nonneg; lia).
  apply sfdiv_absle; try done; nia.
Qed.

Lemma float_of_int_absle z f : Z.abs z <= BIG -> float_of_int z = Ok f -> absle (Z.abs z) f.
Proof.
  unfold BIG. intros Hz Hf.
  destruct (float_of_sample z) as [[-> E0]|(sx & mx & ex & E0 & Hex & Hmx & Hsx)]; [lia| |];
    rewrite E0 in Hf; injection Hf as <-; [done|]. split; [done|lia].
Qed.

Lemma float_of_int_total z : Z.abs z <= BIG -> exists f, float_of_int z = Ok f /\ absle (Z.abs z) f.
Proof.
  unfold BIG. intros Hz.
  destruct (float_of_sample z) as [[-> E0]|(sx & mx & ex & E0 & Hex & Hmx & Hsx)]; [lia|by eexists|].
  eexists. split; [done|]. split; [done|lia].
Qed.

Lemma unit_gain_absle g : unit_gain g -> absle 1 g.
Proof. destruct g as [| | |[] m e]; try done. intros [He Hm]. split; [done|lia]. Qed.

Lemma int_round_total f B : absle B f -> exists z, int_round f = Ok z.
Proof. destruct f; try done; simpl; eauto. Qed.

(** Every quotient of finite values is a rounded one. *)
Lemma div_mag A f s my ey q : absle A f -> fdiv f (S754_finite s my ey) = Ok q -> mag q.
Proof.
  intros Hf [= <-]. destruct f as [| | |s0 m e]; try done. unfold SFdiv, SFdiv_core_binary. cbv zeta.
  set (e' := Z.min _ _). set (m' := match _ with Z0 => _ | Zpos _ => _ | Zneg _ => _ end).
  assert (Hm : 0 <= m').
  { unfold m'. destruct (e - ey - e'); [lia| |lia]. apply Z.shiftl_nonneg. lia. }
  pose proof (Z.div_pos m' (Zpos my) Hm ltac:(lia)) as Hq. unfold Z.div in Hq.
  destruct (Z.div_eucl m' (Zpos my)) as [q r]. by apply round_aux_mag.
Qed.

(** A ratio of integers, clipped to the unit interval. *)
Lemma clipped_unit r A : absle A r -> mag r ->
  let r := if flt r fzero then fzero else r in unit_gain (if fgt r fone then fone else r).
Proof.
  intros Ha Hm. cbv zeta. destruct (flt r fzero) eqn:E1; [done|].
  destruct (fgt r fone) eqn:E2; [rewrite fone_eq; split; [lia|by vm_compute]|].
  apply unit_gain_between; [done| |done|done]. by destruct r.
Qed.
