(* ===== verification/PyText.v ===== *)
(** Python [str] values as lists of code points, their literals, [strip] and
    case mapping, and UTF-8 encoding and decoding with the [strict] and
    [replace] error handlers. *)

From stdpp Require Import base list strings.
From Stdlib Require Import ZArith Lia Bool Ascii String.
From S2P Require Import Prelude.
Open Scope Z_scope.

(** A [str]: code points in [0..0x10FFFF], surrogates included. *)
Abbreviation pystr := (list Z).

Definition lit (s : string) : pystr :=
  List.map (fun a => Z.of_N (N_of_ascii a)) (list_ascii_of_string s).

Definition str_eqb (a b : pystr) : bool := bool_decide (a = b).

Lemma str_eqb_eq a b : str_eqb a b = true <-> a = b.
Proof. unfold str_eqb. apply bool_decide_eq_true. Qed.

Lemma str_eqb_refl a : str_eqb a a = true.
Proof. by apply str_eqb_eq. Qed.

(** [c in s] for a one-character string [c]. *)
Definition has_char (c : Z) (s : pystr) : bool := existsb (Z.eqb c) s.

(** ** White space *)

(** The code points [str.strip()] removes. *)
Definition is_space (c : Z) : bool :=
  ((9 <=? c) && (c <=? 13)) || ((28 <=? c) && (c <=? 32)) || (c =? 133) || (c =? 160)
  || (c =? 5760) || ((8192 <=? c) && (c <=? 8202)) || (c =? 8232) || (c =? 8233)
  || (c =? 8239) || (c =? 8287) || (c =? 12288).

(** The bytes [bytes.strip()] removes. *)
Definition is_bspace (c : Z) : bool := ((9 <=? c) && (c <=? 13)) || (c =? 32).

Fixpoint lstrip_if (p : Z -> bool) (s : list Z) : list Z :=
  match s with
  | [] => []
  | c :: s' => if p c then lstrip_if p s' else s
  end.
Definition rstrip_if (p : Z -> bool) (s : list Z) : list Z := rev (lstrip_if p (rev s)).
Definition strip (s : pystr) : pystr := rstrip_if is_space (lstrip_if is_space s).
Definition bstrip (s : bytes) : bytes := rstrip_if is_bspace (lstrip_if is_bspace s).

(** ** Case mapping

    ASCII case mapping is computed; [str.lower], [str.upper], [str.isprintable]
    and the decimal digits [int] accepts need the Unicode database beyond ASCII,
    which is not part of the repository: they come from an instance of
    [PyUnicode]. *)
Definition ascii_lower1 (c : Z) : Z := if (65 <=? c) && (c <=? 90) then c + 32 else c.
Definition ascii_upper1 (c : Z) : Z := if (97 <=? c) && (c <=? 122) then c - 32 else c.
Definition ascii_lower (s : pystr) : pystr := List.map ascii_lower1 s.
Definition ascii_upper (s : pystr) : pystr := List.map ascii_upper1 s.
Definition is_ascii (c : Z) : bool := (0 <=? c) && (c <? 128).
Definition ascii_alpha (c : Z) : bool :=
  ((65 <=? c) && (c <=? 90)) || ((97 <=? c) && (c <=? 122)).
Definition ascii_digit (c : Z) : bool := (48 <=? c) && (c <=? 57).
Definition ascii_alnum (c : Z) : bool := ascii_alpha c || ascii_digit c.

Class PyUnicode : Type := {
  uc_printable : Z -> bool;
  uc_decimal : Z -> option Z;
  uc_lower : pystr -> pystr;
  uc_upper : pystr -> pystr }.

(** What the code relies on: on ASCII text the mappings are the ASCII ones. *)
Class PyUnicodeLaws (U : PyUnicode) : Prop := {
  uc_lower_ascii s : forallb is_ascii s = true -> uc_lower s = ascii_lower s;
  uc_upper_ascii s : forallb is_ascii s = true -> uc_upper s = ascii_upper s;
  uc_printable_ascii c : is_ascii c = true -> uc_printable c = (32 <=? c) && (c <? 127);
  uc_decimal_ascii c : is_ascii c = true ->
    uc_decimal c = if ascii_digit c then Some (c - 48) else None }.

(** A concrete instance: every character outside ASCII is printable and
    caseless. *)
Definition ascii_unicode : PyUnicode := {|
  uc_printable c := if is_ascii c then (32 <=? c) && (c <? 127) else true;
  uc_decimal c := if ascii_digit c then Some (c - 48) else None;
  uc_lower := ascii_lower;
  uc_upper := ascii_upper |}.

Lemma ascii_unicode_laws : PyUnicodeLaws ascii_unicode.
Proof. split; simpl; intros; try done. by rewrite H. Qed.

(** ** UTF-8 *)

Definition is_surrogate (c : Z) : bool := (55296 <=? c) && (c <=? 57343).

(** A Unicode scalar value: what strict UTF-8 can carry. *)
Definition is_scalar (c : Z) : bool := (0 <=? c) && (c <=? 1114111) && negb (is_surrogate c).

Definition utf8_char (c : Z) : bytes :=
  if c <? 128 then [c]
  else if c <? 2048 then [192 + c / 64; 128 + c mod 64]
  else if c <? 65536 then [224 + c / 4096; 128 + (c / 64) mod 64; 128 + c mod 64]
  else [240 + c / 262144; 128 + (c / 4096) mod 64; 128 + (c / 64) mod 64; 128 + c mod 64].

(** [s.encode('utf-8', errors='replace')]: a surrogate becomes ['?']. *)
Definition utf8_encode_replace (s : pystr) : bytes :=
  flat_map (fun c => if is_surrogate c then [63] else utf8_char c) s.

(** [s.encode('utf-8')]: a surrogate raises. *)
Definition utf8_encode (s : pystr) : res bytes :=
  if existsb is_surrogate s then Exc UnicodeError else Ok (flat_map utf8_char s).

Definition in_rng (lo hi b : Z) : bool := (lo <=? b) && (b <=? hi).
Definition is_cont (b : Z) : bool := in_rng 128 191 b.

(** The range of the second byte after a three or four byte lead. *)
Definition second3 (b0 : Z) (b1 : Z) : bool :=
  if b0 =? 224 then in_rng 160 191 b1 else if b0 =? 237 then in_rng 128 159 b1 else is_cont b1.
Definition second4 (b0 : Z) (b1 : Z) : bool :=
  if b0 =? 240 then in_rng 144 191 b1 else if b0 =? 244 then in_rng 128 143 b1 else is_cont b1.

(** The decoder: [Some c] for a decoded character, [None] for each maximal
    ill-formed subsequence (one replacement character). *)
Fixpoint utf8_scan (l : bytes) : list (option Z) :=
  match l with
  | [] => []
  | b0 :: l1 =>
    if b0 <? 128 then Some b0 :: utf8_scan l1
    else if in_rng 194 223 b0 then
      match l1 with
      | b1 :: l2 =>
        if is_cont b1 then Some ((b0 - 192) * 64 + (b1 - 128)) :: utf8_scan l2
        else None :: utf8_scan l1
      | [] => [None]
      end
    else if in_rng 224 239 b0 then
      match l1 with
      | b1 :: l2 =>
        if second3 b0 b1 then
          match l2 with
          | b2 :: l3 =>
            if is_cont b2 then
              Some ((b0 - 224) * 4096 + (b1 - 128) * 64 + (b2 - 128)) :: utf8_scan l3
            else None :: utf8_scan l2
          | [] => [None]
          end
        else None :: utf8_scan l1
      | [] => [None]
      end
    else if in_rng 240 244 b0 then
      match l1 with
      | b1 :: l2 =>
        if second4 b0 b1 then
          match l2 with
          | b2 :: l3 =>
            if is_cont b2 then
              match l3 with
              | b3 :: l4 =>
                if is_cont b3 then
                  Some ((b0 - 240) * 262144 + (b1 - 128) * 4096 + (b2 - 128) * 64 + (b3 - 128))
                  :: utf8_scan l4
                else None :: utf8_scan l3
              | [] => [None]
              end
            else None :: utf8_scan l2
          | [] => [None]
          end
        else None :: utf8_scan l1
      | [] => [None]
      end
    else None :: utf8_scan l1
  end.

(** [b.decode('utf-8', errors='replace')] and [b.decode('utf-8')]. *)
Definition utf8_decode_replace (l : bytes) : pystr :=
  List.map (fun o => match o with Some c => c | None => 65533 end) (utf8_scan l).

Definition utf8_decode (l : bytes) : res pystr :=
  if existsb (fun o => match o with None => true | _ => false end) (utf8_scan l)
  then Exc UnicodeError else Ok (utf8_decode_replace l).

(** ** Facts *)

Lemma utf8_scan_char c l :
  is_scalar c = true -> utf8_scan (utf8_char c ++ l) = Some c :: utf8_scan l.
Proof.
  unfold is_scalar, is_surrogate, utf8_char. intros Hc.
  pose proof (Z.div_mod c 64 ltac:(lia)) as H1.
  pose proof (Z.mod_pos_bound c 64 ltac:(lia)) as B1.
  destruct (c <? 128) eqn:E1; [simpl; by rewrite E1|].
  destruct (c <? 2048) eqn:E2.
  { simpl. unfold in_rng, is_cont, in_rng.
    assert (2 <= c / 64 < 32) by lia.
    split_if; try lia. do 2 f_equal. lia. }
  pose proof (Z.div_mod (c / 64) 64 ltac:(lia)) as H2.
  pose proof (Z.mod_pos_bound (c / 64) 64 ltac:(lia)) as B2.
  rewrite Z.div_div in H2 by lia. change (64 * 64) with 4096 in H2.
  destruct (c <? 65536) eqn:E3.
  { simpl. unfold second3, is_cont, in_rng.
    assert (0 <= c / 4096 < 16) by lia.
    split_if; try lia; do 2 f_equal; lia. }
  pose proof (Z.div_mod (c / 4096) 64 ltac:(lia)) as H3.
  pose proof (Z.mod_pos_bound (c / 4096) 64 ltac:(lia)) as B3.
  rewrite Z.div_div in H3 by lia. change (4096 * 64) with 262144 in H3.
  simpl. unfold second4, is_cont, in_rng.
  assert (0 <= c / 262144 < 5) by lia.
  split_if; try lia; do 2 f_equal; lia.
Qed.

Lemma utf8_scan_encode s l :
  forallb is_scalar s = true ->
  utf8_scan (utf8_encode_replace s ++ l) = List.map Some s ++ utf8_scan l.
Proof.
  induction s as [|c s IH]; simpl; [done|]. intros [Hc Hs]%andb_true_iff.
  assert (is_surrogate c = false) as ->.
  { unfold is_scalar in Hc. destruct (is_surrogate c); [|done].
    by rewrite andb_false_r in Hc. }
  rewrite <- app_assoc, utf8_scan_char by done. by rewrite IH.
Qed.

Lemma map_some_default s :
  List.map (fun o => match o with Some c => c | None => 65533 end) (List.map Some s) = s.
Proof. induction s; simpl; congruence. Qed.

(** Scalar text survives encoding and lenient decoding. *)
Lemma utf8_roundtrip_replace s :
  forallb is_scalar s = true -> utf8_decode_replace (utf8_encode_replace s) = s.
Proof.
  intros Hs. unfold utf8_decode_replace.
  rewrite <- (app_nil_r (utf8_encode_replace s)), utf8_scan_encode by done.
  rewrite app_nil_r. apply map_some_default.
Qed.

Lemma utf8_encode_scalar s :
  forallb is_scalar s = true -> utf8_encode s = Ok (utf8_encode_replace s).
Proof.
  intros Hs. unfold utf8_encode, utf8_encode_replace.
  assert (H : existsb is_surrogate s = false /\ flat_map utf8_char s =
    flat_map (fun c => if is_surrogate c then [63] else utf8_char c) s).
  { induction s as [|c s IH]; [done|]. simpl in *. apply andb_true_iff in Hs as [Hc Hs].
    destruct (IH Hs) as [-> ->]. unfold is_scalar in Hc.
    destruct (is_surrogate c); [|done]. by rewrite andb_false_r in Hc. }
  destruct H as [-> ->]. done.
Qed.

Lemma utf8_roundtrip s b :
  forallb is_scalar s = true -> utf8_encode s = Ok b -> utf8_decode b = Ok s.
Proof.
  intros Hs. rewrite utf8_encode_scalar by done. intros [= <-].
  unfold utf8_decode. rewrite utf8_roundtrip_replace by done.
  rewrite <- (app_nil_r (utf8_encode_replace s)), utf8_scan_encode, app_nil_r by done.
  destruct (existsb _ _) eqn:E; [|done].
  apply existsb_exists in E as (o & Ho & Hn). apply in_map_iff in Ho as (c & <- & _). done.
Qed.

(** Encoding never emits a newline for a character other than the newline: the
    line framing of the JSON services relies on it. *)
Lemma utf8_char_newline c : is_scalar c = true -> c <> 10 -> Forall (fun b => b <> 10) (utf8_char c).
Proof.
  unfold is_scalar, utf8_char. intros Hc Hn.
  split_if; rewrite ?Forall_cons, Forall_nil; repeat split;
    try (Z.div_mod_to_equations; lia).
Qed.

Lemma utf8_encode_newline s :
  forallb is_scalar s = true -> Forall (fun c => c <> 10) s ->
  Forall (fun b => b <> 10) (utf8_encode_replace s).
Proof.
  intros Hs Hn. induction s as [|c s IH]; simpl in *; [constructor|].
  apply andb_true_iff in Hs as [Hc Hs]. inversion Hn; subst.
  apply Forall_app. split; [|by apply IH].
  destruct (is_surrogate c); [by apply Forall_singleton|]. by apply utf8_char_newline.
Qed.
