(* ===== verification/PyVal.v ===== *)
(** Python values as the services see them: what [json.loads] returns and
    [json.dumps] takes, with truthiness, [dict] access, [str], [repr], [int] and
    [float]. *)

From stdpp Require Import base list strings.
From Stdlib Require Import ZArith Lia Bool String.
From Stdlib Require Import SpecFloat.
From S2P Require Import Prelude PyFloat PyText.
Open Scope Z_scope.

(** A [dict] is kept in insertion order, its keys distinct. *)
Inductive pyval : Type :=
| PNone
| PBool (b : bool)
| PInt (z : Z)
| PFloat (f : pyfloat)
| PStr (s : pystr)
| PList (l : list pyval)
| PDict (d : list (pystr * pyval)).

Abbreviation pydict := (list (pystr * pyval)).

(** Induction through the nested lists. *)
Lemma pyval_ind' (P : pyval -> Prop)
  (HN : P PNone) (HB : forall b, P (PBool b)) (HI : forall z, P (PInt z))
  (HF : forall f, P (PFloat f)) (HS : forall s, P (PStr s))
  (HL : forall l, Forall P l -> P (PList l))
  (HD : forall d, Forall (fun kv => P kv.2) d -> P (PDict d)) : forall v, P v.
Proof.
  fix IH 1. intros [|b|z|f|s|l|d].
  - exact HN.
  - apply HB.
  - apply HI.
  - apply HF.
  - apply HS.
  - apply HL. induction l; constructor; auto.
  - apply HD. induction d as [|[k v] d IHd]; constructor; [apply IH|exact IHd].
Qed.

(** [bool(v)]. *)
Definition truthy (v : pyval) : bool :=
  match v with
  | PNone => false
  | PBool b => b
  | PInt z => negb (z =? 0)
  | PFloat f => match f with S754_zero _ => false | _ => true end
  | PStr s => match s with [] => false | _ => true end
  | PList l => match l with [] => false | _ => true end
  | PDict d => match d with [] => false | _ => true end
  end.

Definition is_str (v : pyval) : bool := match v with PStr _ => true | _ => false end.
Definition is_dict (v : pyval) : bool := match v with PDict _ => true | _ => false end.

(** ** Dictionaries *)

Fixpoint dict_get (k : pystr) (d : pydict) : option pyval :=
  match d with
  | [] => None
  | (k', v) :: d' => if str_eqb k k' then Some v else dict_get k d'
  end.

(** [d.get(k, default)]. *)
Definition dict_get_def (k : pystr) (dflt : pyval) (d : pydict) : pyval :=
  match dict_get k d with Some v => v | None => dflt end.

(** [k in d]. *)
Definition dict_mem (k : pystr) (d : pydict) : bool :=
  match dict_get k d with Some _ => true | None => false end.

(** [d[k] = v]: an existing key keeps its place. *)
Fixpoint dict_set (k : pystr) (v : pyval) (d : pydict) : pydict :=
  match d with
  | [] => [(k, v)]
  | (k', v') :: d' => if str_eqb k k' then (k', v) :: d' else (k', v') :: dict_set k v d'
  end.

Lemma dict_get_set_eq k v d : dict_get k (dict_set k v d) = Some v.
Proof.
  induction d as [|[k' v'] d IH]; simpl; [by rewrite str_eqb_refl|].
  destruct (str_eqb k k') eqn:E; simpl; by rewrite E.
Qed.

Lemma dict_get_set_ne k k' v d : k <> k' -> dict_get k (dict_set k' v d) = dict_get k d.
Proof.
  intros Hne. induction d as [|[k2 v2] d IH]; simpl.
  - destruct (str_eqb k k') eqn:E; [by apply str_eqb_eq in E|done].
  - destruct (str_eqb k' k2) eqn:E; simpl.
    + apply str_eqb_eq in E as ->. destruct (str_eqb k k2) eqn:E; [by apply str_eqb_eq in E|done].
    + by rewrite IH.
Qed.

(** ** Decimal integers *)

Fixpoint dec_digits (fuel : nat) (n : Z) (acc : pystr) : pystr :=
  match fuel with
  | O => acc
  | S fuel => if n <? 10 then (48 + n) :: acc else dec_digits fuel (n / 10) ((48 + n mod 10) :: acc)
  end.

(** [str(n)] for [n >= 0], and for any int. *)
Definition nat_str (n : Z) : pystr := dec_digits (Z.to_nat (Z.log2 n) + 1) n [].
Definition int_str (z : Z) : pystr := if z <? 0 then 45 :: nat_str (- z) else nat_str z.

(** The value of a digit string, most significant digit first. *)
Definition digits_val (ds : pystr) : Z := fold_left (fun a c => a * 10 + (c - 48)) ds 0.

(** ** [repr] and [str] *)

Definition hex_digit (n : Z) : Z := if n <? 10 then 48 + n else 87 + n.
Fixpoint hex_pad (width : nat) (n : Z) (acc : pystr) : pystr :=
  match width with
  | O => acc
  | S w => hex_pad w (n / 16) (hex_digit (n mod 16) :: acc)
  end.

Definition zeros (n : Z) : pystr := zreplicate n 48.

Fixpoint strip_zeros (fuel : nat) (d e : Z) : Z * Z :=
  match fuel with
  | O => (d, e)
  | S fuel => if (d mod 10 =? 0) && negb (d =? 0) then strip_zeros fuel (d / 10) (e + 1) else (d, e)
  end.

Definition float_digits_str (neg : bool) (d e : Z) : pystr :=
  let '(d, e) := strip_zeros 20 d e in
  let ds := nat_str d in
  let nd := zlen ds in
  let decpt := nd + e in
  (if neg then [45] else []) ++
  (if (-4 <? decpt) && (decpt <=? 16) then
     if decpt <=? 0 then lit "0." ++ zeros (- decpt) ++ ds
     else if nd <=? decpt then ds ++ zeros (decpt - nd) ++ lit ".0"
     else ztake decpt ds ++ lit "." ++ zdrop decpt ds
   else
     let x := decpt - 1 in
     ztake 1 ds ++ (if nd =? 1 then [] else lit "." ++ zdrop 1 ds)
     ++ lit "e" ++ (if x <? 0 then [45] else [43])
     ++ (if Z.abs x <? 10 then [48] else []) ++ nat_str (Z.abs x)).

(** [repr(f)]. *)
Definition float_repr (f : pyfloat) : pystr :=
  match f with
  | S754_nan => lit "nan"
  | S754_infinity s => if s then lit "-inf" else lit "inf"
  | S754_zero s => if s then lit "-0.0" else lit "0.0"
  | S754_finite s m e => let '(d, x) := shortest_digits m e in float_digits_str s d x
  end.

Section Str.
Context {U : PyUnicode}.

Definition repr_char (quote c : Z) : pystr :=
  if (c =? quote) || (c =? 92) then [92; c]
  else if c =? 9 then lit "\t"
  else if c =? 10 then lit "\n"
  else if c =? 13 then lit "\r"
  else if (c <? 32) || (c =? 127) then lit "\x" ++ hex_pad 2 c []
  else if c <? 127 then [c]
  else if uc_printable c then [c]
  else if c <? 256 then lit "\x" ++ hex_pad 2 c []
  else if c <? 65536 then lit "\u" ++ hex_pad 4 c []
  else lit "\U" ++ hex_pad 8 c [].

Definition str_repr (s : pystr) : pystr :=
  let quote := if has_char 39 s && negb (has_char 34 s) then 34 else 39 in
  quote :: flat_map (repr_char quote) s ++ [quote].

Fixpoint join_with (sep : pystr) (l : list pystr) : pystr :=
  match l with
  | [] => []
  | [x] => x
  | x :: l' => x ++ sep ++ join_with sep l'
  end.

Fixpoint py_repr (v : pyval) : pystr :=
  match v with
  | PNone => lit "None"
  | PBool b => if b then lit "True" else lit "False"
  | PInt z => int_str z
  | PFloat f => float_repr f
  | PStr s => str_repr s
  | PList l => lit "[" ++ join_with (lit ", ") (List.map py_repr l) ++ lit "]"
  | PDict d =>
      lit "{" ++ join_with (lit ", ")
        (List.map (fun kv => str_repr kv.1 ++ lit ": " ++ py_repr kv.2) d) ++ lit "}"
  end.

(** [str(v)]. *)
Definition py_str (v : pyval) : pystr :=
  match v with PStr s => s | _ => py_repr v end.

(** ** [int] and [float] *)

(** The largest number of digits [int(str)] converts. *)
Definition max_str_digits : Z := 4300.

(** Digits with single underscores between them, as [int] and [float] accept
    them; [None] when the text is not of that form. *)
Fixpoint grouped_digits (after_digit : bool) (s : pystr) : option pystr :=
  match s with
  | [] => if after_digit then Some [] else None
  | c :: s' =>
      match uc_decimal c with
      | Some d => match grouped_digits true s' with Some r => Some (48 + d :: r) | None => None end
      | None => if (c =? 95) && after_digit then grouped_digits false s' else None
      end
  end.

Definition split_sign (s : pystr) : bool * pystr :=
  match s with
  | c :: s' => if c =? 45 then (true, s') else if c =? 43 then (false, s') else (false, s)
  | [] => (false, s)
  end.

Definition int_of_str (s : pystr) : res Z :=
  let '(neg, body) := split_sign (strip s) in
  match grouped_digits false body with
  | Some ds =>
      if max_str_digits <? zlen ds then Exc ValueError
      else Ok (if neg then - digits_val ds else digits_val ds)
  | None => Exc ValueError
  end.

(** [int(v)]. *)
Definition py_int (v : pyval) : res Z :=
  match v with
  | PInt z => Ok z
  | PBool b => Ok (if b then 1 else 0)
  | PFloat f => int_of_float f
  | PStr s => int_of_str s
  | _ => Exc TypeError
  end.

(** The longest run of characters before the first [p]. *)
Fixpoint break_at (p : Z -> bool) (s : pystr) : pystr * pystr :=
  match s with
  | [] => ([], [])
  | c :: s' => if p c then ([], s) else let '(a, b) := break_at p s' in (c :: a, b)
  end.

Definition opt_digits (s : pystr) : option pystr :=
  match s with [] => Some [] | _ => grouped_digits false s end.

Definition float_of_str (s : pystr) : res pyfloat :=
  let '(neg, body) := split_sign (strip s) in
  let sgn (f : pyfloat) : pyfloat := if neg then SFopp f else f in
  let low := ascii_lower body in
  if str_eqb low (lit "nan") then Ok fnan
  else if str_eqb low (lit "inf") || str_eqb low (lit "infinity") then Ok (sgn (finf false))
  else
    let '(mant, expo) := break_at (fun c => (c =? 101) || (c =? 69)) body in
    let '(ip, fp) := break_at (Z.eqb 46) mant in
    let frac := match fp with [] => [] | _ :: r => r end in
    let ex :=
      match expo with
      | [] => Some 0
      | _ :: r =>
          let '(eneg, ed) := split_sign r in
          match grouped_digits false ed with
          | Some ds => Some (if eneg then - digits_val ds else digits_val ds)
          | None => None
          end
      end in
    match opt_digits ip, opt_digits frac, ex with
    | Some id, Some fd, Some x =>
        if zlen id + zlen fd =? 0 then Exc ValueError
        else Ok (sgn (fdecimal (digits_val (id ++ fd)) (x - zlen fd)))
    | _, _, _ => Exc ValueError
    end.

(** [float(v)]. *)
Definition py_float (v : pyval) : res pyfloat :=
  match v with
  | PFloat f => Ok f
  | PInt z => float_of_int z
  | PBool b => float_of_int (if b then 1 else 0)
  | PStr s => float_of_str s
  | _ => Exc TypeError
  end.

End Str.

(** ** Facts about decimal integers *)

Definition is_digit_char (c : Z) : Prop := 48 <= c <= 57.

Lemma fold_digits_app ds v acc :
  fold_left (fun a c => a * 10 + (c - 48)) ds v = v * 10 ^ zlen ds + digits_val ds ->
  fold_left (fun a c => a * 10 + (c - 48)) (ds ++ acc) v =
  fold_left (fun a c => a * 10 + (c - 48)) acc (v * 10 ^ zlen ds + digits_val ds).
Proof. intros H. by rewrite fold_left_app, H. Qed.

Lemma dec_digits_spec fuel n acc :
  0 <= n < 2 ^ Z.of_nat fuel -> (0 < fuel)%nat ->
  exists ds, dec_digits fuel n acc = ds ++ acc /\ Forall is_digit_char ds /\ ds <> [] /\
    (forall v, fold_left (fun a c => a * 10 + (c - 48)) ds v = v * 10 ^ zlen ds + n) /\
    (hd 0 ds = 48 -> n = 0 /\ ds = [48]).
Proof.
  revert n acc. induction fuel as [|fuel IH]; intros n acc Hn Hf; [lia|].
  simpl dec_digits. destruct (n <? 10) eqn:E.
  - exists [48 + n]. split; [done|]. split.
    { apply Forall_singleton. unfold is_digit_char. lia. }
    split; [done|]. split.
    + intros v. simpl. change (zlen [48 + n]) with 1. lia.
    + simpl. intros. split; [lia|]. f_equal; lia.
  - assert (Hq : 0 < n / 10 < 2 ^ Z.of_nat fuel).
    { rewrite Nat2Z.inj_succ, Z.pow_succ_r in Hn by lia.
      split; [apply Z.div_str_pos; lia|]. apply Z.div_lt_upper_bound; lia. }
    assert (Hf' : (0 < fuel)%nat).
    { destruct fuel; [|lia]. simpl in Hq. change (2 ^ 0) with 1 in Hq. lia. }
    destruct (IH (n / 10) ((48 + n mod 10) :: acc) ltac:(lia) Hf')
      as (ds & Hds & Hall & Hne & Hval & Hhd).
    exists (ds ++ [48 + n mod 10]). rewrite Hds, <- app_assoc. split; [done|].
    pose proof (Z.mod_pos_bound n 10 ltac:(lia)).
    split.
    { apply Forall_app. split; [done|]. apply Forall_singleton. unfold is_digit_char. lia. }
    split; [by destruct ds|]. split.
    + intros v. rewrite fold_left_app, Hval. simpl.
      rewrite zlen_app. change (zlen [48 + n mod 10]) with 1.
      rewrite Z.pow_add_r by (pose proof (zlen_nonneg ds); lia).
      pose proof (Z.div_mod n 10 ltac:(lia)). lia.
    + destruct ds as [|d ds]; [done|]. simpl in *. intros Hd. destruct (Hhd Hd). lia.
Qed.

Lemma nat_str_spec n :
  0 <= n -> exists ds, nat_str n = ds /\ Forall is_digit_char ds /\ ds <> [] /\
    digits_val ds = n /\ (hd 0 ds = 48 -> ds = [48]).
Proof.
  intros Hn. unfold nat_str.
  destruct (dec_digits_spec (Z.to_nat (Z.log2 n) + 1) n []) as (ds & Hds & Hall & Hne & Hval & Hhd).
  - rewrite Nat2Z.inj_add, Z2Nat.id by apply Z.log2_nonneg. split; [done|].
    destruct (Z.eq_dec n 0) as [->|]; [done|].
    pose proof (Z.log2_spec n ltac:(lia)). change (Z.of_nat 1) with 1.
    rewrite Z.add_1_r. lia.
  - lia.
  - rewrite app_nil_r in Hds. exists ds. split; [done|]. split; [done|]. split; [done|]. split.
    + unfold digits_val. rewrite Hval. lia.
    + intros H. by apply Hhd.
Qed.
