(* ===== verification/PyJson.v ===== *)
(** [json.dumps] and [json.loads]: the encoder with its separators and
    [ensure_ascii] switch, the decoder of the C scanner, and the round trip for
    float-free values. *)

From stdpp Require Import base list strings.
From Stdlib Require Import ZArith Lia Bool String.
From Stdlib Require Import SpecFloat.
From S2P Require Import Prelude PyFloat PyText PyVal.
Open Scope Z_scope.

(** ** Encoder *)

Record jopts : Type := mkjopts { j_ascii : bool; j_item : pystr; j_key : pystr }.

(** [json.dumps(o)], [json.dumps(o, ensure_ascii=False)] and
    [json.dumps(o, separators=(",", ":"))]. *)
Definition j_default : jopts := mkjopts true (lit ", ") (lit ": ").
Definition j_unicode : jopts := mkjopts false (lit ", ") (lit ": ").
Definition j_compact : jopts := mkjopts true (lit ",") (lit ":").

Definition u_escape (n : Z) : pystr := 92 :: 117 :: hex_pad 4 n [].

Definition json_escape (ascii : bool) (c : Z) : pystr :=
  if c =? 34 then [92; 34]
  else if c =? 92 then [92; 92]
  else if c =? 10 then [92; 110]
  else if c =? 13 then [92; 114]
  else if c =? 9 then [92; 116]
  else if c =? 12 then [92; 102]
  else if c =? 8 then [92; 98]
  else if c <? 32 then u_escape c
  else if ascii && (126 <? c) then
    if c <? 65536 then u_escape c
    else u_escape (55296 + (c - 65536) / 1024) ++ u_escape (56320 + (c - 65536) mod 1024)
  else [c].

Definition json_str (ascii : bool) (s : pystr) : pystr :=
  34 :: flat_map (json_escape ascii) s ++ [34].

Definition json_float (f : pyfloat) : pystr :=
  match f with
  | S754_nan => lit "NaN"
  | S754_infinity s => if s then lit "-Infinity" else lit "Infinity"
  | _ => float_repr f
  end.

Fixpoint json_dumps (o : jopts) (v : pyval) : pystr :=
  match v with
  | PNone => lit "null"
  | PBool b => if b then lit "true" else lit "false"
  | PInt z => int_str z
  | PFloat f => json_float f
  | PStr s => json_str (j_ascii o) s
  | PList l => 91 :: join_with (j_item o) (List.map (json_dumps o) l) ++ [93]
  | PDict d =>
      123 :: join_with (j_item o)
        (List.map (fun kv => json_str (j_ascii o) kv.1 ++ j_key o ++ json_dumps o kv.2) d) ++ [125]
  end.

(** ** Decoder *)

Definition jfail {A} : res A := Exc JSONDecodeError.

Definition is_jspace (c : Z) : bool := (c =? 32) || (c =? 9) || (c =? 10) || (c =? 13).
Definition skip_ws (s : pystr) : pystr := lstrip_if is_jspace s.

Definition hex_val (c : Z) : option Z :=
  if (48 <=? c) && (c <=? 57) then Some (c - 48)
  else if (97 <=? c) && (c <=? 102) then Some (c - 87)
  else if (65 <=? c) && (c <=? 70) then Some (c - 55)
  else None.

Definition hex4 (s : pystr) : option (Z * pystr) :=
  match s with
  | a :: b :: c :: d :: r =>
      match hex_val a, hex_val b, hex_val c, hex_val d with
      | Some a, Some b, Some c, Some d => Some (((a * 16 + b) * 16 + c) * 16 + d, r)
      | _, _, _, _ => None
      end
  | _ => None
  end.

(** The character after a backslash, when it is a one-letter escape. *)
Definition short_escape (c : Z) : option Z :=
  if (c =? 34) || (c =? 92) || (c =? 47) then Some c
  else if c =? 98 then Some 8
  else if c =? 102 then Some 12
  else if c =? 110 then Some 10
  else if c =? 114 then Some 13
  else if c =? 116 then Some 9
  else None.

Definition is_high (c : Z) : bool := (55296 <=? c) && (c <=? 56319).
Definition is_low (c : Z) : bool := (56320 <=? c) && (c <=? 57343).

(** [expect c s]: the rest of [s] after a leading [c]. *)
Definition expect (c : Z) (s : pystr) : option pystr :=
  match s with
  | c' :: r => if c' =? c then Some r else None
  | [] => None
  end.

(** A low surrogate escape directly after a high one. *)
Definition low_escape (s : pystr) : option (Z * pystr) :=
  r ← expect 92 s; r1 ← expect 117 r; '(lo, r2) ← hex4 r1;
  if is_low lo then Some (lo, r2) else None.

Definition cons_fst (c : Z) (r : res (pystr * pystr)) : res (pystr * pystr) :=
  match r with Ok (s, t) => Ok (c :: s, t) | Exc e => Exc e end.

(** One escape sequence after its backslash: the character and the rest. *)
Definition junescape (s : pystr) : res (Z * pystr) :=
  match s with
  | [] => jfail
  | c :: r =>
      if c =? 117 then
        match hex4 r with
        | Some (hi, r1) =>
            if is_high hi then
              match low_escape r1 with
              | Some (lo, r2) => Ok (65536 + (hi - 55296) * 1024 + (lo - 56320), r2)
              | None => Ok (hi, r1)
              end
            else Ok (hi, r1)
        | None => jfail
        end
      else match short_escape c with Some c' => Ok (c', r) | None => jfail end
  end.

(** The text after the opening quote up to the closing one. *)
Fixpoint jstring (fuel : nat) (s : pystr) : res (pystr * pystr) :=
  match fuel with
  | O => jfail
  | S fuel =>
    match s with
    | [] => jfail
    | c :: r =>
        if c =? 34 then Ok ([], r)
        else if c =? 92 then
          match junescape r with
          | Ok (c', r') => cons_fst c' (jstring fuel r')
          | Exc e => Exc e
          end
        else if c <? 32 then jfail
        else cons_fst c (jstring fuel r)
    end
  end.

Fixpoint span_digits (s : pystr) : pystr * pystr :=
  match s with
  | c :: r => if ascii_digit c then let '(a, b) := span_digits r in (c :: a, b) else ([], s)
  | [] => ([], [])
  end.

(** A number: integer part, optional fraction and exponent.  A digit run over
    the conversion limit raises [ValueError], which is not a decode error. *)
Definition jfrac (s : pystr) : pystr * pystr :=
  match expect 46 s with
  | Some r => match span_digits r with ([], _) => ([], s) | (ds, r') => (ds, r') end
  | None => ([], s)
  end.

Definition jexp (s : pystr) : option Z * pystr :=
  match s with
  | c :: r =>
      if (c =? 101) || (c =? 69) then
        let '(neg, r1) :=
          match expect 45 r with
          | Some r' => (true, r')
          | None => match expect 43 r with Some r' => (false, r') | None => (false, r) end
          end in
        match span_digits r1 with
        | ([], _) => (None, s)
        | (ds, r2) => (Some (if neg : bool then - digits_val ds else digits_val ds), r2)
        end
      else (None, s)
  | [] => (None, s)
  end.

Definition jnumber (neg : bool) (s : pystr) : res (pyval * pystr) :=
  let '(ip, r) := match expect 48 s with
                  | Some r => ([48], r)
                  | None => span_digits s
                  end in
  match ip with
  | [] => jfail
  | _ =>
      let '(fp, r1) := jfrac r in
      let '(ex, r2) := jexp r1 in
      match fp, ex with
      | [], None =>
          if max_str_digits <? zlen ip then Exc ValueError
          else Ok (PInt (if neg then - digits_val ip else digits_val ip), r2)
      | _, _ =>
          let x := match ex with Some x => x | None => 0 end in
          let f := fdecimal (digits_val (ip ++ fp)) (x - zlen fp) in
          Ok (PFloat (if neg then SFopp f else f), r2)
      end
  end.

(** Strip a literal prefix. *)
Fixpoint strip_prefix (p s : pystr) : option pystr :=
  match p, s with
  | [], _ => Some s
  | a :: p', b :: s' => if a =? b then strip_prefix p' s' else None
  | _, [] => None
  end.

(** The literal [p] as the value [v]. *)
Definition jword (p : pystr) (v : pyval) (s : pystr) (k : res (pyval * pystr))
  : res (pyval * pystr) :=
  match strip_prefix p s with Some r => Ok (v, r) | None => k end.

Definition jconst (s : pystr) : res (pyval * pystr) :=
  jword (lit "null") PNone s
  (jword (lit "true") (PBool true) s
  (jword (lit "false") (PBool false) s
  (jword (lit "NaN") (PFloat fnan) s
  (jword (lit "Infinity") (PFloat (finf false)) s
  (jword (lit "-Infinity") (PFloat (finf true)) s
  (match expect 45 s with
   | Some r => jnumber true r
   | None => jnumber false s
   end)))))).

(** Values, array items and object members share one fuel; [2 * length + 2] is
    always enough, since every two levels of recursion consume a character. *)
Fixpoint jvalue (fuel : nat) (s : pystr) : res (pyval * pystr) :=
  match fuel with
  | O => jfail
  | S fuel =>
    match s with
    | [] => jfail
    | c :: r =>
      if c =? 34 then '(t, r') ← jstring (S (List.length r)) r; Ok (PStr t, r')
      else if c =? 91 then
        match expect 93 (skip_ws r) with
        | Some r' => Ok (PList [], r')
        | None => '(l, r2) ← jitems fuel (skip_ws r); Ok (PList l, r2)
        end
      else if c =? 123 then
        match expect 125 (skip_ws r) with
        | Some r' => Ok (PDict [], r')
        | None => '(d, r2) ← jmembers fuel [] (skip_ws r); Ok (PDict d, r2)
        end
      else jconst s
    end
  end
with jitems (fuel : nat) (s : pystr) : res (list pyval * pystr) :=
  match fuel with
  | O => jfail
  | S fuel =>
    '(v, r) ← jvalue fuel s;
    match expect 93 (skip_ws r) with
    | Some r' => Ok ([v], r')
    | None =>
      match expect 44 (skip_ws r) with
      | Some r' => '(l, r2) ← jitems fuel (skip_ws r'); Ok (v :: l, r2)
      | None => jfail
      end
    end
  end
with jmembers (fuel : nat) (acc : pydict) (s : pystr) : res (pydict * pystr) :=
  match fuel with
  | O => jfail
  | S fuel =>
    match expect 34 s with
    | None => jfail
    | Some r =>
      '(k, r1) ← jstring (S (List.length r)) r;
      match expect 58 (skip_ws r1) with
      | None => jfail
      | Some r2 =>
        '(v, r3) ← jvalue fuel (skip_ws r2);
        match expect 125 (skip_ws r3) with
        | Some r4 => Ok (dict_set k v acc, r4)
        | None =>
          match expect 44 (skip_ws r3) with
          | Some r4 => jmembers fuel (dict_set k v acc) (skip_ws r4)
          | None => jfail
          end
        end
      end
    end
  end.

(** [json.loads(s)] of a [str]: a leading byte order mark and trailing data are
    decode errors. *)
Definition json_loads (s : pystr) : res pyval :=
  match expect 65279 s with
  | Some _ => jfail
  | None =>
      '(v, r) ← jvalue (2 * List.length s + 2)%nat (skip_ws s);
      match skip_ws r with [] => Ok v | _ => jfail end
  end.

(** ** Round trip *)

Lemma hex_val_digit n : 0 <= n < 16 -> hex_val (hex_digit n) = Some n.
Proof. intros. unfold hex_val, hex_digit. split_if; try lia; f_equal; lia. Qed.

Lemma hex4_pad n r : 0 <= n < 65536 -> hex4 (hex_pad 4 n [] ++ r) = Some (n, r).
Proof.
  intros Hn. cbn [hex_pad app hex4].
  rewrite !hex_val_digit by (apply Z.mod_pos_bound; lia).
  do 2 f_equal. Z.div_mod_to_equations; lia.
Qed.

Lemma expect_hit c s : expect c (c :: s) = Some s.
Proof. simpl. by rewrite Z.eqb_refl. Qed.

Lemma expect_miss c c' s : c' <> c -> expect c (c' :: s) = None.
Proof. intros. simpl. destruct (c' =? c) eqn:E; [lia|done]. Qed.

Lemma is_scalar_spec c :
  is_scalar c = true -> 0 <= c <= 1114111 /\ (c < 55296 \/ 57343 < c).
Proof. unfold is_scalar, is_surrogate. lia. Qed.

Lemma low_escape_hit lo r :
  56320 <= lo <= 57343 -> low_escape (92 :: 117 :: hex_pad 4 lo [] ++ r) = Some (lo, r).
Proof.
  intros Hlo. unfold low_escape. rewrite expect_hit. unfold mbind, option_bind.
  rewrite expect_hit, hex4_pad by lia. unfold is_low. split_if; [done|lia].
Qed.

(** One encoded character is one step of the string scanner. *)
Lemma jstring_escape a c t fuel :
  is_scalar c = true ->
  jstring (S fuel) (json_escape a c ++ t) = cons_fst c (jstring fuel t).
Proof.
  intros Hc%is_scalar_spec. unfold json_escape.
  repeat match goal with
  | |- context [if ?x =? ?k then _ else _] =>
      let E := fresh in destruct (x =? k) eqn:E;
      [apply Z.eqb_eq in E as ->; reflexivity|]
  end.
  unfold u_escape.
  destruct (c <? 32) eqn:E32.
  { cbn [app jstring]. change (92 =? 34) with false. change (92 =? 92) with true. cbn iota beta.
    unfold junescape. change (117 =? 117) with true. cbn iota beta.
    rewrite hex4_pad by lia. unfold is_high.
    split_if; [lia|done]. }
  destruct (a && (126 <? c)) eqn:Ea.
  - destruct (c <? 65536) eqn:E6.
    + cbn [app jstring]. change (92 =? 34) with false. change (92 =? 92) with true. cbn iota beta.
      unfold junescape. change (117 =? 117) with true. cbn iota beta.
      rewrite hex4_pad by lia. unfold is_high.
      split_if; [lia|done].
    + assert (Hq : 0 <= (c - 65536) / 1024 < 1024)
        by (split; [apply Z.div_pos|apply Z.div_lt_upper_bound]; lia).
      pose proof (Z.mod_pos_bound (c - 65536) 1024 ltac:(lia)) as Hr.
      rewrite <- app_assoc. cbn [app jstring].
      change (92 =? 34) with false. change (92 =? 92) with true. cbn iota beta.
      unfold junescape. change (117 =? 117) with true. cbn iota beta.
      rewrite hex4_pad by lia. unfold is_high.
      destruct ((55296 <=? _) && _) eqn:E; [|lia].
      rewrite low_escape_hit by lia. f_equal.
      pose proof (Z.div_mod (c - 65536) 1024 ltac:(lia)). lia.
  - cbn [app jstring]. destruct (c =? 34) eqn:F1; [lia|]. destruct (c =? 92) eqn:F2; [lia|].
    by rewrite E32.
Qed.

Lemma json_escape_nonempty a c : (0 < List.length (json_escape a c))%nat.
Proof. unfold json_escape, u_escape. split_if; simpl; lia. Qed.

Lemma jstring_roundtrip a s rest fuel :
  forallb is_scalar s = true -> (List.length s < fuel)%nat ->
  jstring fuel (flat_map (json_escape a) s ++ 34 :: rest) = Ok (s, rest).
Proof.
  revert fuel. induction s as [|c s IH]; intros fuel Hs Hf; simpl in Hf.
  - destruct fuel; [lia|]. reflexivity.
  - destruct fuel; [lia|]. simpl in Hs. apply andb_true_iff in Hs as [Hc Hs].
    simpl flat_map. rewrite <- app_assoc, jstring_escape, IH by (done || lia). done.
Qed.

Lemma flat_map_escape_length a s :
  (List.length s <= List.length (flat_map (json_escape a) s))%nat.
Proof.
  induction s as [|c s IH]; simpl; [lia|]. rewrite length_app.
  pose proof (json_escape_nonempty a c). lia.
Qed.

Lemma jstring_json_str a s rest :
  forallb is_scalar s = true ->
  exists r, json_str a s ++ rest = 34 :: r /\ jstring (S (List.length r)) r = Ok (s, rest).
Proof.
  intros Hs. unfold json_str. exists (flat_map (json_escape a) s ++ 34 :: rest).
  split; [cbn [app]; by rewrite <- app_assoc|]. apply jstring_roundtrip; [done|].
  rewrite length_app. pose proof (flat_map_escape_length a s). simpl; lia.
Qed.

(** What may follow a value inside an encoded document, or on the line of one. *)
Definition stops (rest : pystr) : Prop :=
  match rest with [] => True | c :: _ => c = 44 \/ c = 93 \/ c = 125 \/ c = 10 end.

Lemma span_digits_app ds rest :
  Forall is_digit_char ds -> stops rest -> span_digits (ds ++ rest) = (ds, rest).
Proof.
  intros Hd Hr. induction Hd as [|c ds Hc Hd IH]; simpl.
  - destruct rest as [|c r]; [done|]. simpl in *. unfold ascii_digit. split_if; [lia|done].
  - rewrite IH. unfold ascii_digit, is_digit_char in *. split_if; [done|lia].
Qed.

Lemma jnumber_digits neg n rest :
  0 <= n -> zlen (nat_str n) <= max_str_digits -> stops rest ->
  jnumber neg (nat_str n ++ rest) = Ok (PInt (if neg then - n else n), rest).
Proof.
  intros Hn Hl Hr. destruct (nat_str_spec n Hn) as (ds & Hds & Hd & Hne & Hv & Hz).
  rewrite Hds in *. clear Hds.
  assert (Hip : match expect 48 (ds ++ rest) with
                | Some r => ([48], r) | None => span_digits (ds ++ rest) end = (ds, rest)).
  { destruct ds as [|d ds]; [done|]. cbn [app expect]. destruct (d =? 48) eqn:E.
    - apply Z.eqb_eq in E as ->. specialize (Hz eq_refl). by injection Hz as ->.
    - change (d :: ds ++ rest) with ((d :: ds) ++ rest). by apply span_digits_app. }
  unfold jnumber. rewrite Hip. destruct ds as [|d ds]; [done|].
  assert (Hf : jfrac rest = ([], rest) /\ jexp rest = (None, rest)).
  { unfold jfrac, jexp. destruct rest as [|c r]; [done|]. unfold stops in Hr.
    rewrite expect_miss by lia. split; [done|]. split_if; [lia|done]. }
  destruct Hf as [-> ->]. destruct (max_str_digits <? _) eqn:E; [lia|]. by rewrite Hv.
Qed.

(** A word whose first letter is not the head of the text does not match. *)
Lemma jword_miss p v c s k : hd c p <> c -> jword p v (c :: s) k = k.
Proof.
  destruct p as [|d p]; simpl; [done|]. intros Hd. unfold jword. simpl.
  destruct (d =? c) eqn:E; [lia|done].
Qed.

Lemma jword_miss2 p v c d s k :
  hd d (tl p) <> d -> jword p v (c :: d :: s) k = k.
Proof.
  destruct p as [|x [|y p]]; simpl; try done. intros Hd. unfold jword. simpl.
  destruct (x =? c); [|done]. destruct (y =? d) eqn:E; [lia|done].
Qed.

Lemma jconst_int z rest :
  zlen (nat_str (Z.abs z)) <= max_str_digits -> stops rest ->
  jconst (int_str z ++ rest) = Ok (PInt z, rest).
Proof.
  intros Hl Hr.
  destruct (nat_str_spec (Z.abs z) ltac:(lia)) as (ds & Hds & Hd & Hne & _ & _).
  assert (Hh : exists d t, nat_str (Z.abs z) ++ rest = d :: t /\ 48 <= d <= 57).
  { rewrite Hds. destruct ds as [|d t]; [done|]. inversion Hd; subst. eauto. }
  destruct Hh as (d & t & Ht & Hdig). unfold jconst, int_str.
  destruct (z <? 0) eqn:E.
  - replace (- z) with (Z.abs z) by lia. cbn [app]. rewrite Ht.
    rewrite 5!jword_miss by (simpl; lia). rewrite jword_miss2 by (simpl; lia).
    rewrite expect_hit, <- Ht, jnumber_digits by (done || lia). do 3 f_equal. lia.
  - replace z with (Z.abs z) by lia. rewrite Ht.
    rewrite 6!jword_miss by (simpl; lia).
    rewrite expect_miss by lia. rewrite <- Ht, jnumber_digits by (done || lia). done.
Qed.

(** The options of the services: separators are a comma or colon and spaces. *)
Definition jopts_ok (o : jopts) : Prop :=
  (exists w, j_item o = 44 :: w /\ forallb is_jspace w = true) /\
  (exists w, j_key o = 58 :: w /\ forallb is_jspace w = true).

Lemma j_default_ok : jopts_ok j_default.
Proof. split; [exists [32]|exists [32]]; done. Qed.
Lemma j_unicode_ok : jopts_ok j_unicode.
Proof. split; [exists [32]|exists [32]]; done. Qed.
Lemma j_compact_ok : jopts_ok j_compact.
Proof. split; [exists []|exists []]; done. Qed.

#[export] Hint Resolve j_default_ok j_unicode_ok j_compact_ok : t1os.

(** ** Floats

    [repr] of a finite float reads back as the float.  That 17 digits are always
    enough is a fact about binary64; the model only uses it for the floats a
    document holds, as a condition that can be evaluated. *)
Definition float_text_ok (f : pyfloat) : bool :=
  match f with
  | S754_zero false | S754_finite false _ _ =>
      let t := float_repr f in
      forallb (fun c => (32 <? c) && (c <? 127)) t && ascii_digit (hd 0 t) &&
      match jnumber false t with
      | Ok (PFloat g, []) => bool_decide (g = f)
      | _ => false
      end
  | _ => false
  end.

Lemma span_digits_local a rest : stops rest ->
  span_digits (a ++ rest) = let '(ds, r) := span_digits a in (ds, r ++ rest).
Proof.
  intros Hr. induction a as [|c a IH]; simpl.
  - destruct rest as [|c r]; [done|]. simpl in *. unfold ascii_digit. split_if; [lia|done].
  - destruct (ascii_digit c); [|done]. rewrite IH. by destruct (span_digits a).
Qed.

Lemma jfrac_local a rest : stops rest -> jfrac (a ++ rest) = let '(ds, r) := jfrac a in (ds, r ++ rest).
Proof.
  intros Hr. unfold jfrac. destruct a as [|c a]; cbn [app].
  - destruct rest as [|c r]; [done|]. rewrite expect_miss; [done|]. simpl in Hr. lia.
  - cbn [expect]. destruct (c =? 46); [|done].
    rewrite (span_digits_local a rest Hr). by destruct (span_digits a) as [[|d ds] r'].
Qed.

Lemma expect_local c a rest : stops rest -> (c = 45 \/ c = 43) ->
  expect c (a ++ rest) = match expect c a with Some r => Some (r ++ rest) | None => None end.
Proof.
  intros Hr Hc. destruct a as [|d a]; cbn [app expect].
  - destruct rest as [|d r]; [done|]. simpl in *. destruct (d =? c) eqn:E; [lia|done].
  - by destruct (d =? c).
Qed.

Lemma jexp_local a rest : stops rest -> jexp (a ++ rest) = let '(x, r) := jexp a in (x, r ++ rest).
Proof.
  intros Hr. unfold jexp. destruct a as [|c a]; cbn [app].
  - destruct rest as [|c r]; [done|]. simpl in Hr. split_if; [lia|done].
  - destruct ((c =? 101) || (c =? 69)); [|done]. rewrite !expect_local by auto.
    destruct (expect 45 a) as [r1|]; [|destruct (expect 43 a) as [r1|]];
      rewrite (span_digits_local _ rest Hr).
    all: by destruct (span_digits _) as [[|d ds] r'].
Qed.

(** A number that ends a text also ends before a delimiter. *)
Lemma jnumber_local neg a v rest : stops rest ->
  jnumber neg a = Ok (v, []) -> jnumber neg (a ++ rest) = Ok (v, rest).
Proof.
  intros Hr. unfold jnumber. destruct a as [|c a]; [done|].
  assert (Hip : match expect 48 ((c :: a) ++ rest) with
                | Some r => ([48], r) | None => span_digits ((c :: a) ++ rest) end =
          let '(ip, r) := match expect 48 (c :: a) with
                | Some r => ([48], r) | None => span_digits (c :: a) end in (ip, r ++ rest)).
  { rewrite (span_digits_local _ _ Hr). cbn [app expect]. destruct (c =? 48); [done|]. by destruct (span_digits _). }
  rewrite Hip. destruct (match expect 48 (c :: a) with | Some _ => _ | None => _ end) as [ip r].
  destruct ip as [|i ip]; [done|]. rewrite (jfrac_local _ _ Hr). destruct (jfrac r) as [fp r1].
  rewrite (jexp_local _ _ Hr). destruct (jexp r1) as [ex r2].
  destruct fp as [|x fp], ex as [ex|]; try (destruct (max_str_digits <? _); [done|]).
  all: by intros [= <- ->].
Qed.

Lemma float_text_spec f : float_text_ok f = true ->
  forallb (fun c => (32 <? c) && (c <? 127)) (json_float f) = true /\
  (exists c t, json_float f = c :: t /\ 48 <= c <= 57) /\
  forall rest, stops rest -> jconst (json_float f ++ rest) = Ok (PFloat f, rest).
Proof.
  intros H.
  assert (Hf : json_float f = float_repr f /\
    forallb (fun c => (32 <? c) && (c <? 127)) (float_repr f) = true /\
    ascii_digit (hd 0 (float_repr f)) = true /\ jnumber false (float_repr f) = Ok (PFloat f, [])).
  { unfold float_text_ok in H. destruct f as [[]| | |[] m e]; try done.
    all: apply andb_true_iff in H as [[? ?]%andb_true_iff H']; do 3 (split; [done|]).
    all: destruct (jnumber false _) as [[[] []]|]; try done.
    all: by apply bool_decide_eq_true in H' as ->. }
  destruct Hf as (-> & Ha & Hd & Hn). split; [done|].
  destruct (float_repr f) as [|c t]; [done|]. cbn [hd] in Hd. unfold ascii_digit in Hd.
  split; [exists c, t; split; [done|lia]|]. intros rest Hr. cbn [app].
  unfold jconst. rewrite 6!jword_miss by (simpl; lia). rewrite expect_miss by lia.
  change (c :: t ++ rest) with ((c :: t) ++ rest). by apply jnumber_local.
Qed.

(** Values that survive a round trip: scalar text, floats whose text reads back,
    ints within the conversion limit, distinct keys. *)
Fixpoint json_ok (v : pyval) : bool :=
  match v with
  | PNone | PBool _ => true
  | PInt z => zlen (nat_str (Z.abs z)) <=? max_str_digits
  | PFloat f => float_text_ok f
  | PStr s => forallb is_scalar s
  | PList l => forallb json_ok l
  | PDict d => forallb (fun kv => forallb is_scalar kv.1 && json_ok kv.2) d
               && bool_decide (NoDup (List.map fst d))
  end.

(** Fuel one value takes. *)
Fixpoint jneed (v : pyval) : nat :=
  match v with
  | PList l => S (list_sum (List.map (fun x => S (jneed x)) l))
  | PDict d => S (list_sum (List.map (fun kv => S (jneed kv.2)) d))
  | _ => 1
  end.

Lemma skip_ws_app w s : forallb is_jspace w = true -> skip_ws (w ++ s) = skip_ws s.
Proof.
  induction w as [|c w IH]; simpl; [done|]. intros [Hc Hw]%andb_true_iff.
  unfold skip_ws in *. simpl. by rewrite Hc, IH.
Qed.

Lemma skip_ws_cons c s : is_jspace c = false -> skip_ws (c :: s) = c :: s.
Proof. unfold skip_ws. simpl. by intros ->. Qed.

(** The first character of an encoded value. *)
Lemma json_dumps_head o v :
  json_ok v = true ->
  exists c t, json_dumps o v = c :: t /\ is_jspace c = false /\ c <> 93 /\ 32 < c < 127.
Proof.
  destruct v as [|b|z|f|s|l|d]; intros Hv.
  - by eexists _, _.
  - destruct b; by eexists _, _.
  - simpl. unfold int_str. destruct (z <? 0) eqn:E; [by eexists _, _|].
    destruct (nat_str_spec z ltac:(lia)) as (ds & -> & Hd & Hne & _).
    destruct ds as [|c t]; [done|]. inversion Hd as [|? ? Hc]; subst.
    unfold is_digit_char in Hc.
    exists c, t. unfold is_jspace. repeat split; lia.
  - cbn [json_dumps]. destruct (float_text_spec f Hv) as (_ & (c & t & -> & Hc) & _).
    exists c, t. unfold is_jspace. repeat split; lia.
  - by eexists _, _.
  - by eexists _, _.
  - by eexists _, _.
Qed.

Lemma skip_ws_dumps o v rest :
  json_ok v = true -> skip_ws (json_dumps o v ++ rest) = json_dumps o v ++ rest.
Proof.
  intros Hv. destruct (json_dumps_head o v Hv) as (c & t & -> & Hc & _). by apply skip_ws_cons.
Qed.

Definition jround (o : jopts) (v : pyval) : Prop :=
  forall rest fuel, json_ok v = true -> stops rest -> (jneed v <= fuel)%nat ->
  jvalue fuel (json_dumps o v ++ rest) = Ok (v, rest).

Lemma join_with_cons sep x y l :
  join_with sep (x :: y :: l) = x ++ sep ++ join_with sep (y :: l).
Proof. done. Qed.

Lemma jitems_roundtrip o x l rest fuel :
  jopts_ok o -> Forall (jround o) (x :: l) -> forallb json_ok (x :: l) = true ->
  (list_sum (List.map (fun x => S (jneed x)) (x :: l)) <= fuel)%nat ->
  jitems fuel (join_with (j_item o) (List.map (json_dumps o) (x :: l)) ++ 93 :: rest)
    = Ok (x :: l, rest).
Proof.
  intros Ho. destruct Ho as [(wi & Hi & Hwi) _]. revert x fuel.
  induction l as [|y l IH]; intros x fuel HF Hok Hfuel;
    (destruct fuel as [|fuel]; [simpl in Hfuel; lia|]);
    (inversion HF as [|? ? Hx Hl]; subst); simpl in Hok; apply andb_true_iff in Hok as [Hokx Hokl].
  - cbn [List.map join_with jitems]. rewrite Hx; [|done|simpl; lia|simpl in Hfuel; lia].
    cbn [mbind res_bind]. rewrite skip_ws_cons, expect_hit by done. done.
  - cbn [List.map]. rewrite join_with_cons. cbn [jitems]. rewrite <- !app_assoc.
    rewrite Hx; [|done|rewrite Hi; simpl; lia|simpl in Hfuel; lia].
    cbn [mbind res_bind]. rewrite Hi. cbn [app].
    rewrite skip_ws_cons, expect_miss, expect_hit by done.
    rewrite skip_ws_app by done.
    assert (Hs : forall t, skip_ws (join_with (j_item o) (List.map (json_dumps o) (y :: l)) ++ t) =
                 join_with (j_item o) (List.map (json_dumps o) (y :: l)) ++ t).
    { intros t. simpl in Hokl. apply andb_true_iff in Hokl as [Hy _].
      destruct (json_dumps_head o y Hy) as (c & t' & He & Hc & _).
      destruct l; cbn [List.map join_with]; rewrite He; by apply skip_ws_cons. }
    rewrite Hi in *. rewrite Hs, IH; [done|done|done|simpl in *; lia].
Qed.

Lemma dict_set_fresh k v d : ~ In k (List.map fst d) -> dict_set k v d = d ++ [(k, v)].
Proof.
  induction d as [|[k' v'] d IH]; simpl; [done|]. intros Hn.
  destruct (str_eqb k k') eqn:E; [apply str_eqb_eq in E; subst; tauto|].
  rewrite IH by tauto. done.
Qed.

Definition jmember (o : jopts) (kv : pystr * pyval) : pystr :=
  json_str (j_ascii o) kv.1 ++ j_key o ++ json_dumps o kv.2.

Lemma jmembers_roundtrip o kv d acc rest fuel :
  jopts_ok o -> Forall (fun kv => jround o kv.2) (kv :: d) ->
  forallb (fun kv => forallb is_scalar kv.1 && json_ok kv.2) (kv :: d) = true ->
  NoDup (List.map fst (acc ++ kv :: d)) ->
  (list_sum (List.map (fun kv => S (jneed kv.2)) (kv :: d)) <= fuel)%nat ->
  jmembers fuel acc (join_with (j_item o) (List.map (jmember o) (kv :: d)) ++ 125 :: rest)
    = Ok (acc ++ kv :: d, rest).
Proof.
  intros Ho. destruct Ho as [(wi & Hi & Hwi) (wk & Hk & Hwk)]. revert kv acc fuel.
  induction d as [|kv2 d IH]; intros [k v] acc fuel HF Hok Hnd Hfuel;
    (destruct fuel as [|fuel]; [simpl in Hfuel; lia|]);
    (inversion HF as [|? ? Hx Hl]; subst); simpl in Hok;
    apply andb_true_iff in Hok as [Hokx Hokl]; apply andb_true_iff in Hokx as [Hks Hv];
    simpl in Hx.
  all: assert (Hfresh : ~ In k (List.map fst acc)).
  1, 3: rewrite map_app in Hnd; apply NoDup_app in Hnd as (_ & Hd & _);
        intros Hin; apply (Hd k); [by apply list_elem_of_In|simpl; apply list_elem_of_here].
  all: pose proof (jstring_json_str (j_ascii o) k) as Hstr.
  - cbn [List.map join_with]. unfold jmember at 1. simpl fst. simpl snd. cbn [jmembers].
    rewrite <- !app_assoc.
    destruct (Hstr (j_key o ++ json_dumps o v ++ 125 :: rest) Hks) as (r & -> & Hr).
    rewrite expect_hit, Hr. cbn [mbind res_bind]. rewrite Hk. cbn [app].
    rewrite skip_ws_cons, expect_hit, skip_ws_app, skip_ws_dumps by done.
    rewrite Hx; [|done|simpl; lia|simpl in Hfuel; lia].
    cbn [mbind res_bind]. rewrite skip_ws_cons, expect_hit, dict_set_fresh by done. done.
  - cbn [List.map]. rewrite join_with_cons. unfold jmember at 1. simpl fst. simpl snd.
    cbn [jmembers]. rewrite <- !app_assoc.
    match goal with |- context [json_str _ k ++ ?t] => destruct (Hstr t Hks) as (r & -> & Hr) end.
    rewrite expect_hit, Hr. cbn [mbind res_bind]. rewrite Hk. cbn [app].
    rewrite skip_ws_cons, expect_hit, skip_ws_app, skip_ws_dumps by done.
    rewrite Hx; [|done|rewrite Hi; simpl; lia|simpl in Hfuel; lia].
    cbn [mbind res_bind]. rewrite Hi. cbn [app].
    rewrite skip_ws_cons, expect_miss, expect_hit, skip_ws_app, dict_set_fresh by done.
    assert (Hs : forall t, skip_ws (join_with (44 :: wi) (List.map (jmember o) (kv2 :: d)) ++ t) =
                 join_with (44 :: wi) (List.map (jmember o) (kv2 :: d)) ++ t).
    { intros t. destruct d; cbn [List.map join_with]; unfold jmember at 1, json_str;
        cbn [app]; by apply skip_ws_cons. }
    rewrite Hi in IH. rewrite Hs, IH; [by rewrite <- app_assoc|done|done| |simpl in *; lia].
    rewrite <- app_assoc. exact Hnd.
Qed.

Lemma jvalue_roundtrip o v : jopts_ok o -> jround o v.
Proof.
  intros Ho. induction v as [|b|z|f|s|l IH|d IH] using pyval_ind'; intros rest fuel Hv Hr Hf;
    (destruct fuel as [|fuel]; [simpl in Hf; lia|]).
  - reflexivity.
  - destruct b; reflexivity.
  - simpl in Hv. pose proof (jconst_int z rest ltac:(lia) Hr) as Hj. cbn [json_dumps].
    destruct (json_dumps_head o (PInt z) Hv) as (c & t & He & _). cbn [json_dumps] in He.
    assert (Hc : c = 45 \/ 48 <= c <= 57).
    { unfold int_str in He. destruct (z <? 0) eqn:E; [left; congruence|right].
      destruct (nat_str_spec z ltac:(lia)) as (ds & Hds & Hd & Hne & _). rewrite Hds in He.
      subst ds. by inversion Hd. }
    rewrite He in *. cbn [app jvalue] in *. split_if; try lia. exact Hj.
  - cbn [json_dumps]. destruct (float_text_spec f Hv) as (_ & (c & t & He & Hc) & Hj).
    specialize (Hj rest Hr). rewrite He in *. cbn [app jvalue] in *. split_if; try lia. exact Hj.
  - cbn [json_dumps jvalue].
    destruct (jstring_json_str (j_ascii o) s rest Hv) as (r & -> & Hs).
    cbn [jvalue]. change (34 =? 34) with true. cbn iota. by rewrite Hs.
  - simpl in Hv. destruct l as [|x l].
    + reflexivity.
    + cbn [json_dumps app jvalue]. rewrite <- app_assoc. cbn [app].
      change (91 =? 34) with false. change (91 =? 91) with true. cbn iota.
      assert (Hs : forall t, exists c t',
        join_with (j_item o) (List.map (json_dumps o) (x :: l)) ++ t = c :: t' /\
        is_jspace c = false /\ c <> 93).
      { intros t. simpl in Hv. apply andb_true_iff in Hv as [Hx _].
        destruct (json_dumps_head o x Hx) as (c & t' & He & Hc & Hc' & _).
        destruct l; cbn [List.map join_with]; rewrite He; cbn [app]; eauto. }
      destruct (Hs (93 :: rest)) as (c & t & He & Hc & Hc').
      rewrite He, skip_ws_cons, expect_miss, <- He by done.
      rewrite jitems_roundtrip; [done|done|done|done|simpl in *; lia].
  - simpl in Hv. apply andb_true_iff in Hv as [Hv Hnd%bool_decide_eq_true].
    destruct d as [|kv d].
    + reflexivity.
    + cbn [json_dumps app jvalue]. rewrite <- app_assoc. cbn [app].
      change (123 =? 34) with false. change (123 =? 91) with false.
      change (123 =? 123) with true. cbn iota.
      change (List.map _ (kv :: d)) with (List.map (jmember o) (kv :: d)).
      assert (Hs : forall t, exists t',
        join_with (j_item o) (List.map (jmember o) (kv :: d)) ++ t = 34 :: t').
      { intros t. destruct d; cbn [List.map join_with]; unfold jmember at 1, json_str;
          cbn [app]; eauto. }
      destruct (Hs (125 :: rest)) as (t & He).
      rewrite He, skip_ws_cons, expect_miss, <- He by done.
      rewrite (jmembers_roundtrip o kv d []); [done|done|done|done|done|simpl in *; lia].
Qed.

Lemma join_with_length (sep : pystr) (l : list pystr) (need : list nat) :
  (0 < List.length sep)%nat ->
  Forall2 (fun n x => (n <= 2 * List.length x)%nat) need l ->
  (list_sum (List.map S need) <= 2 * List.length (join_with sep l) + 1)%nat.
Proof.
  intros Hsep H. induction H as [|n x need l Hn Hl IH]; [simpl; lia|].
  change (list_sum (List.map S (n :: need))) with (S n + list_sum (List.map S need))%nat.
  destruct l as [|y l]; [inversion Hl; subst; simpl; lia|].
  rewrite join_with_cons, !length_app. lia.
Qed.

Lemma jneed_le o v :
  jopts_ok o -> json_ok v = true -> (jneed v <= 2 * List.length (json_dumps o v))%nat.
Proof.
  intros [(wi & Hi & _) _].
  induction v as [|b|z|f|s|l IH|d IH] using pyval_ind'; intros Hv.
  - simpl; lia.
  - destruct b; simpl; lia.
  - destruct (json_dumps_head o (PInt z) Hv) as (c & t & -> & _). simpl; lia.
  - destruct (json_dumps_head o (PFloat f) Hv) as (c & t & -> & _). simpl; lia.
  - simpl; lia.
  - simpl in Hv |- *.
    rewrite length_app. cbn [List.length].
    assert (HF : Forall2 (fun n x => (n <= 2 * List.length x)%nat)
              (List.map jneed l) (List.map (json_dumps o) l)).
    { induction IH as [|x l Hx Hl IHl]; simpl; [constructor|].
      simpl in Hv. apply andb_true_iff in Hv as [Hx' Hl']. constructor; auto. }
    apply (join_with_length (j_item o)) in HF; [|rewrite Hi; simpl; lia].
    rewrite map_map in HF. lia.
  - cbn [json_ok] in Hv. apply andb_true_iff in Hv as [Hv _].
    cbn [jneed json_dumps List.length]. rewrite length_app. cbn [List.length].
    assert (HF : Forall2 (fun n x => (n <= 2 * List.length x)%nat)
              (List.map (fun kv => jneed kv.2) d) (List.map (jmember o) d)).
    { induction IH as [|x d Hx Hl IHl]; simpl; [constructor|].
      simpl in Hv. apply andb_true_iff in Hv as [Hx' Hl'].
      apply andb_true_iff in Hx' as [_ Hx']. constructor; auto.
      unfold jmember. rewrite !length_app. specialize (Hx Hx'). cbv beta in Hx. lia. }
    apply (join_with_length (j_item o)) in HF; [|rewrite Hi; simpl; lia].
    rewrite map_map in HF. unfold jmember in HF. lia.
Qed.

(** [json.loads(json.dumps(v)) == v] for every such value, also with the newline
    that ends a file. *)
Lemma json_roundtrip_nl o v nl :
  jopts_ok o -> json_ok v = true -> nl = [] \/ nl = [10] -> json_loads (json_dumps o v ++ nl) = Ok v.
Proof.
  intros Ho Hv Hnl. unfold json_loads.
  destruct (json_dumps_head o v Hv) as (c & t & He & Hc & _ & Hb).
  rewrite He. cbn [app]. rewrite expect_miss, skip_ws_cons by (done || lia). change (c :: t ++ nl) with ((c :: t) ++ nl).
  rewrite <- He. rewrite jvalue_roundtrip; [|done|done|by destruct Hnl as [->| ->]; simpl; auto|].
  - cbn [mbind res_bind]. by destruct Hnl as [->| ->].
  - pose proof (jneed_le o v Ho Hv). rewrite length_app. lia.
Qed.

Lemma json_roundtrip o v :
  jopts_ok o -> json_ok v = true -> json_loads (json_dumps o v) = Ok v.
Proof. intros Ho Hv. rewrite <- (app_nil_r (json_dumps o v)). apply json_roundtrip_nl; auto. Qed.

(** JSON documents on a wire: the text [json.dumps] produces has no newline and
    encodes to UTF-8 without loss, so one document fits one line or one packet. *)
Definition no_nl (b : bytes) : Prop := Forall (fun c => c <> 10) b.


Definition clean (s : pystr) : Prop := Forall (fun c => is_scalar c = true /\ c <> 10) s.

Lemma clean_app a b : clean a -> clean b -> clean (a ++ b).
Proof. intros. by apply Forall_app. Qed.

Lemma clean_ascii s : forallb (fun c => (32 <=? c) && (c <? 127)) s = true -> clean s.
Proof.
  intros H. apply Forall_forall. intros c Hc. rewrite forallb_forall in H.
  apply list_elem_of_In in Hc. specialize (H c Hc). unfold is_scalar, is_surrogate. lia.
Qed.

Lemma clean_digits ds : Forall is_digit_char ds -> clean ds.
Proof.
  intros H. apply (Forall_impl _ _ _ H). intros c Hc. unfold is_digit_char in Hc.
  unfold is_scalar, is_surrogate. lia.
Qed.

Lemma clean_int z : clean (int_str z).
Proof.
  unfold int_str. destruct (z <? 0) eqn:E.
  - destruct (nat_str_spec (- z) ltac:(lia)) as (ds & -> & Hd & _).
    constructor; [done|by apply clean_digits].
  - destruct (nat_str_spec z ltac:(lia)) as (ds & -> & Hd & _). by apply clean_digits.
Qed.

Lemma hex_digit_range n : 0 <= n < 16 -> 48 <= hex_digit n <= 102.
Proof. unfold hex_digit. split_if; lia. Qed.

Lemma clean_escape a c : is_scalar c = true -> clean (json_escape a c).
Proof.
  intros Hc%is_scalar_spec. unfold json_escape, u_escape.
  assert (Hh : forall n, clean (hex_pad 4 n [])).
  { intros n. unfold hex_pad, clean. repeat (apply Forall_cons; split); [..|apply Forall_nil; done];
      (pose proof (hex_digit_range (n / 16 / 16 / 16 mod 16) ltac:(apply Z.mod_pos_bound; lia));
       pose proof (hex_digit_range (n / 16 / 16 mod 16) ltac:(apply Z.mod_pos_bound; lia));
       pose proof (hex_digit_range (n / 16 mod 16) ltac:(apply Z.mod_pos_bound; lia));
       pose proof (hex_digit_range (n mod 16) ltac:(apply Z.mod_pos_bound; lia));
       unfold is_scalar, is_surrogate; lia). }
  assert (Hu : forall n, clean (92 :: 117 :: hex_pad 4 n [])).
  { intros n. repeat (apply Forall_cons; split; [done|]). apply Hh. }
  split_if; try (by apply clean_ascii); try apply Hu.
  - apply clean_app; apply Hu.
  - apply Forall_singleton. unfold is_scalar, is_surrogate. lia.
Qed.

Lemma clean_json_str a s : forallb is_scalar s = true -> clean (json_str a s).
Proof.
  intros Hs. unfold json_str. apply Forall_cons. split; [done|].
  apply clean_app; [|by apply clean_ascii].
  induction s as [|c s IH]; simpl in *; [constructor|].
  apply andb_true_iff in Hs as [Hc Hs]. apply clean_app; [by apply clean_escape|by apply IH].
Qed.

Lemma clean_join sep l : clean sep -> Forall clean l -> clean (join_with sep l).
Proof.
  intros Hsep. induction 1 as [|x l Hx Hl IH]; [constructor|].
  destruct l; [done|]. rewrite join_with_cons. by repeat apply clean_app.
Qed.

Definition jopts_clean (o : jopts) : Prop := clean (j_item o) /\ clean (j_key o).

Lemma clean_dumps o v : jopts_clean o -> json_ok v = true -> clean (json_dumps o v).
Proof.
  intros [Hi Hk]. induction v as [|b|z|f|s|l IH|d IH] using pyval_ind'; intros Hv; cbn [json_dumps].
  - by apply clean_ascii.
  - destruct b; by apply clean_ascii.
  - apply clean_int.
  - destruct (float_text_spec f Hv) as (Ha & _). apply clean_ascii.
    apply forallb_forall. intros c Hc. eapply forallb_forall in Ha; [|exact Hc]. lia.
  - by apply clean_json_str.
  - apply Forall_cons. split; [done|]. apply clean_app; [|by apply clean_ascii].
    apply clean_join; [done|]. simpl in Hv.
    induction IH as [|x l Hx Hl IHl]; cbn [List.map forallb] in *; [constructor|].
    apply andb_true_iff in Hv as [? ?]. constructor; auto.
  - apply Forall_cons. split; [done|]. apply clean_app; [|by apply clean_ascii].
    apply clean_join; [done|]. simpl in Hv. apply andb_true_iff in Hv as [Hv _].
    induction IH as [|x d Hx Hd IHd]; cbn [List.map forallb] in *; [constructor|].
    apply andb_true_iff in Hv as [Hx' Hd']. apply andb_true_iff in Hx' as [Hxk Hxv].
    constructor; [|auto]. apply clean_app; [by apply clean_json_str|]. by apply clean_app; auto.
Qed.

Lemma clean_scalar s : clean s -> forallb is_scalar s = true.
Proof. induction 1 as [|c s [Hc _] Hs IH]; simpl; [done|]. by rewrite Hc. Qed.

Lemma clean_no_nl s : clean s -> no_nl (utf8_encode_replace s).
Proof.
  intros Hs. apply utf8_encode_newline; [by apply clean_scalar|].
  apply (Forall_impl _ _ _ Hs). tauto.
Qed.

Lemma j_unicode_clean : jopts_clean j_unicode.
Proof. split; by apply clean_ascii. Qed.

Lemma j_compact_clean : jopts_clean j_compact.
Proof. split; by apply clean_ascii. Qed.

(** The encoding of a document, and reading it back. *)
Lemma encode_dumps o v : jopts_clean o -> json_ok v = true ->
  utf8_encode (json_dumps o v) = Ok (utf8_encode_replace (json_dumps o v)).
Proof. intros Ho Hv. by apply utf8_encode_scalar, clean_scalar, clean_dumps. Qed.

Lemma decode_dumps o v : jopts_clean o -> jopts_ok o -> json_ok v = true ->
  (utf8_decode (utf8_encode_replace (json_dumps o v)) ≫= json_loads) = Ok v.
Proof.
  intros Hc Ho Hv. rewrite (utf8_roundtrip (json_dumps o v)).
  - by apply json_roundtrip.
  - by apply clean_scalar, clean_dumps.
  - by apply encode_dumps.
Qed.

Lemma dumps_nonempty o v : json_ok v = true -> utf8_encode_replace (json_dumps o v) <> [].
Proof.
  intros Hv. destruct (json_dumps_head o v Hv) as (c & t & -> & _ & _ & Hc).
  unfold utf8_encode_replace. simpl. unfold utf8_char. split_if; done.
Qed.
