(* ===== verification/Exchange.v ===== *)
(** The transfer (clipboard) service, exchange.py: the service state, its
    validation and persistence, the sockets, the request handlers and the event
    loop, each a function on an explicit [server] state. *)

From stdpp Require Import base list gmap strings.
From Stdlib Require Import ZArith Lia Bool String.
From S2P Require Import Prelude PyFloat PyText PyVal PyJson.
Open Scope Z_scope.

(** ** Data *)

Definition MAXBYTES : Z := 1048576.
Definition MAXMSG : Z := 1048576.

(** The [STATE] dict, whose seven keys always hold these types. *)
Record xstate : Type := mkx {
  x_type : pystr; x_data : pystr; x_hash : pystr; x_ts : Z;
  x_source : pystr; x_bytes : Z; x_ttl : Z }.

Definition STATE0 : xstate := mkx (lit "empty") [] [] 0 (lit "system") 0 0.

(** The file system under the runtime tier: writable, not openable, or failing
    after [k] bytes of a write (the [open] has already truncated the file). *)
Inductive fsmode : Type := FsOk | FsOpenFails | FsWriteFails (k : Z).

(** A connected, non-blocking socket: open on our side, peer still there, room
    in the kernel buffer, and the bytes the kernel accepted so far. *)
Record sock : Type := mksock { k_open : bool; k_peer : bool; k_room : Z; k_out : bytes }.

(** The module's globals and its environment.  [sv_clock] is what successive
    calls of [time.time] return, [sv_tick] how many were made. *)
Record server : Type := mksv {
  sv_state : xstate;
  sv_clients : list Z;
  sv_bufs : gmap Z bytes;
  sv_watchers : list Z;
  sv_running : bool;
  sv_key : pystr;
  sv_socks : gmap Z sock;
  sv_file : option bytes;
  sv_fs : fsmode;
  sv_clock : nat -> Z;
  sv_tick : nat }.

Definition set_state (sv : server) (x : xstate) : server :=
  mksv x (sv_clients sv) (sv_bufs sv) (sv_watchers sv) (sv_running sv) (sv_key sv)
    (sv_socks sv) (sv_file sv) (sv_fs sv) (sv_clock sv) (sv_tick sv).
Definition set_file (sv : server) (f : option bytes) : server :=
  mksv (sv_state sv) (sv_clients sv) (sv_bufs sv) (sv_watchers sv) (sv_running sv) (sv_key sv)
    (sv_socks sv) f (sv_fs sv) (sv_clock sv) (sv_tick sv).
Definition set_watchers (sv : server) (w : list Z) : server :=
  mksv (sv_state sv) (sv_clients sv) (sv_bufs sv) w (sv_running sv) (sv_key sv)
    (sv_socks sv) (sv_file sv) (sv_fs sv) (sv_clock sv) (sv_tick sv).
Definition set_conns (sv : server) (c : list Z) (b : gmap Z bytes) (k : gmap Z sock) : server :=
  mksv (sv_state sv) c b (sv_watchers sv) (sv_running sv) (sv_key sv)
    k (sv_file sv) (sv_fs sv) (sv_clock sv) (sv_tick sv).
Definition set_running (sv : server) (r : bool) : server :=
  mksv (sv_state sv) (sv_clients sv) (sv_bufs sv) (sv_watchers sv) r (sv_key sv)
    (sv_socks sv) (sv_file sv) (sv_fs sv) (sv_clock sv) (sv_tick sv).

(** A Python dict display with literal keys. *)
Definition pdict (l : list (string * pyval)) : pydict := List.map (fun kv => (lit kv.1, kv.2)) l.
Definition pobj (l : list (string * pyval)) : pyval := PDict (pdict l).

(** [list.remove]: the first occurrence. *)
Fixpoint remove_first (x : Z) (l : list Z) : list Z :=
  match l with
  | [] => []
  | y :: l' => if y =? x then l' else y :: remove_first x l'
  end.

Definition memz (x : Z) (l : list Z) : bool := existsb (Z.eqb x) l.

(** What [recv] on a client socket gives: bytes (none at end of file), nothing
    yet, or an error. *)
Inductive recv_result : Type := RData (b : bytes) | RWouldBlock | RError.

(** [lstat] of the runtime directory. *)
Record stat_result : Type := mkstat { st_mode : Z; st_uid : Z; st_gid : Z }.

Section Exchange.
Context {U : PyUnicode}.
(** [hashlib.sha256(b).hexdigest()]. *)
Context (sha256hex : bytes -> pystr).

(** ** Set-up and helpers *)

(** The result and the message; [None] is an [OSError] of [lstat]. *)
Definition validateruntime (status : option stat_result) : bool * pystr :=
  match status with
  | None => (false, lit "exchange runtime is unavailable")
  | Some s =>
      if negb (Z.land (st_mode s) 61440 =? 16384) then (false, lit "exchange runtime is not a tier")
      else if negb (st_uid s =? 0) || negb (st_gid s =? 1000)
      then (false, lit "exchange runtime ownership is invalid")
      else if negb (Z.land (st_mode s) 4095 =? 1480)
      then (false, lit "exchange runtime permissions are invalid")
      else (true, [])
  end.

Definition nowsec (sv : server) : server * Z :=
  (mksv (sv_state sv) (sv_clients sv) (sv_bufs sv) (sv_watchers sv) (sv_running sv) (sv_key sv)
     (sv_socks sv) (sv_file sv) (sv_fs sv) (sv_clock sv) (S (sv_tick sv)),
   sv_clock sv (sv_tick sv)).

Definition makehash (text : pystr) : pystr := sha256hex (utf8_encode_replace text).

Definition state_dict (x : xstate) : pydict :=
  pdict [("type", PStr (x_type x)); ("data", PStr (x_data x)); ("hash", PStr (x_hash x));
         ("ts", PInt (x_ts x)); ("source", PStr (x_source x)); ("bytes", PInt (x_bytes x));
         ("ttl", PInt (x_ttl x))]%string.

(** The validated fields of a state file; [None] when the file is ignored.
    The field accesses are outside the [try] blocks: they raise when the
    document is not an object or a number does not convert. *)
Definition loadobj (obj : pyval) : res (option xstate) :=
  match obj with
  | PDict o =>
      let t := py_str (dict_get_def (lit "type") (PStr (lit "empty")) o) in
      let d := py_str (dict_get_def (lit "data") (PStr []) o) in
      let s := py_str (dict_get_def (lit "source") (PStr (lit "system")) o) in
      ts ← py_int (dict_get_def (lit "ts") (PInt 0) o);
      ttl ← py_int (dict_get_def (lit "ttl") (PInt 0) o);
      let b := zlen (utf8_encode_replace d) in
      if MAXBYTES <? b then Ok None
      else Ok (Some (mkx t d (makehash d) ts s b ttl))
  | _ => Exc AttributeError
  end.

Definition loadstate (sv : server) : res server :=
  match sv_file sv with
  | None => Ok sv
  | Some raw =>
      match sv_fs sv with
      | FsOpenFails => Ok sv
      | _ =>
          match utf8_decode raw ≫= json_loads with
          | Exc _ => Ok sv
          | Ok obj =>
              o ← loadobj obj;
              Ok (match o with Some x => set_state sv x | None => sv end)
          end
      end
  end.

Definition savestate (sv : server) : server * bool :=
  let raw := json_dumps j_unicode (PDict (state_dict (sv_state sv))) in
  match sv_fs sv with
  | FsOpenFails => (sv, false)
  | FsWriteFails k =>
      match utf8_encode raw with
      | Exc _ => (set_file sv (Some []), false)
      | Ok b => (set_file sv (Some (ztake k b)), false)
      end
  | FsOk =>
      match utf8_encode raw with
      | Exc _ => (set_file sv (Some []), false)
      | Ok b => (set_file sv (Some b), true)
      end
  end.

(** ** Validation *)

Definition validtext (text : pyval) : bool * pystr :=
  match text with
  | PNone => (false, lit "no text")
  | _ =>
      let t := py_str text in
      if has_char 0 t then (false, lit "null byte")
      else if MAXBYTES <? zlen (utf8_encode_replace t) then (false, lit "too large")
      else (true, [])
  end.

Definition expired (sv : server) : server * bool :=
  let x := sv_state sv in
  if x_ttl x <=? 0 then (sv, false)
  else if x_ts x <=? 0 then (sv, false)
  else let '(sv, now) := nowsec sv in (sv, x_ts x + x_ttl x <=? now).

(** ** State operations *)

Definition setstatetype (t text source : pystr) (sv : server) : server * (bool * pystr) :=
  let '(ok, err) := validtext (PStr text) in
  if negb ok then (sv, (false, err))
  else
    let b := zlen (utf8_encode_replace text) in
    let h := makehash text in
    let '(sv, now) := nowsec sv in
    let sv := set_state sv (mkx t text h now source b 0) in
    let '(sv, saved) := savestate sv in
    if saved then (sv, (true, [])) else (sv, (false, lit "save error")).

(** [setstate] is [setstatetype] for the type ["text"], written out. *)
Definition setstate (text source : pystr) (sv : server) : server * (bool * pystr) :=
  let '(ok, err) := validtext (PStr text) in
  if negb ok then (sv, (false, err))
  else
    let b := zlen (utf8_encode_replace text) in
    let h := makehash text in
    let '(sv, now) := nowsec sv in
    let sv := set_state sv (mkx (lit "text") text h now source b 0) in
    let '(sv, saved) := savestate sv in
    if saved then (sv, (true, [])) else (sv, (false, lit "save error")).

Definition clearstate (source : pystr) (sv : server) : server * (bool * pystr) :=
  let '(sv, now) := nowsec sv in
  let sv := set_state sv (mkx (lit "empty") [] [] now source 0 0) in
  let '(sv, saved) := savestate sv in
  if saved then (sv, (true, [])) else (sv, (false, lit "save error")).

Definition getstate (sv : server) : server * pydict :=
  let '(sv, ex) := expired sv in
  let sv := if ex then (clearstate (lit "system:expired") sv).1 else sv in
  (sv, state_dict (sv_state sv)).

(** ** Permission *)

Definition msg_op (d : pydict) : pystr := strip (py_str (dict_get_def (lit "op") (PStr []) d)).

Definition allowed (sv : server) (msg : pyval) : bool :=
  match msg with
  | PDict d =>
      let op := msg_op d in
      if str_eqb op [] then false
      else if str_eqb op (lit "shutdown") then
        str_eqb (py_str (dict_get_def (lit "key") (PStr []) d)) (sv_key sv)
      else true
  | _ => false
  end.

(** ** Sockets *)

(** [sendall] on a non-blocking socket: everything, or as much as fits and an
    error. *)
Definition sendall (k : sock) (data : bytes) : sock * bool :=
  if negb (k_open k) || negb (k_peer k) then (k, false)
  else if zlen data <=? k_room k
  then (mksock true true (k_room k - zlen data) (k_out k ++ data), true)
  else (mksock true true 0 (k_out k ++ ztake (k_room k) data), false).

(** One JSON line of the protocol. *)
Definition wire_line (obj : pyval) : bytes :=
  utf8_encode_replace (json_dumps j_unicode obj ++ [10]).

Definition sendobj (cli : Z) (obj : pyval) (sv : server) : server * bool :=
  match sv_socks sv !! cli with
  | None => (sv, false)
  | Some k =>
      let '(k, ok) := sendall k (wire_line obj) in
      (set_conns sv (sv_clients sv) (sv_bufs sv) (<[cli := k]> (sv_socks sv)), ok)
  end.

Definition acceptclient (conn : option (Z * sock)) (sv : server) : server :=
  match conn with
  | None => sv
  | Some (cli, k) =>
      set_conns sv (sv_clients sv ++ [cli]) (<[cli := []]> (sv_bufs sv))
        (<[cli := k]> (sv_socks sv))
  end.

Definition dropclient (cli : Z) (sv : server) : server :=
  let sv := if memz cli (sv_watchers sv)
            then set_watchers sv (remove_first cli (sv_watchers sv)) else sv in
  let clients := if memz cli (sv_clients sv)
                 then remove_first cli (sv_clients sv) else sv_clients sv in
  let bufs := delete cli (sv_bufs sv) in
  let socks := alter (fun k => mksock false (k_peer k) (k_room k) (k_out k)) cli (sv_socks sv) in
  set_conns sv clients bufs socks.

(** The watchers to drop, in order, and the server after every send. *)
Fixpoint notify_send (ws : list Z) (event : pyval) (sv : server) : server * list Z :=
  match ws with
  | [] => (sv, [])
  | w :: ws' =>
      let '(sv, ok) := sendobj w event sv in
      let '(sv, dead) := notify_send ws' event sv in
      (sv, if ok then dead else w :: dead)
  end.

Definition notify (event : pyval) (sv : server) : server :=
  let '(sv, dead) := notify_send (sv_watchers sv) event sv in
  fold_left (fun sv w => dropclient w sv) dead sv.

(** The complete lines of a buffer and the unfinished rest. *)
Fixpoint frames (buf : bytes) : list bytes * bytes :=
  match buf with
  | [] => ([], [])
  | b :: r =>
      let '(ls, t) := frames r in
      if b =? 10 then ([] :: ls, t)
      else match ls with
           | [] => ([], b :: t)
           | l :: ls' => ((b :: l) :: ls', t)
           end
  end.

Definition err_obj (e : string) : pyval := pobj [("ok", PBool false); ("error", PStr (lit e))]%string.

(** The parsing loop over the complete lines. *)
Fixpoint readlines (cli : Z) (ls : list bytes) (sv : server) : server * list pyval :=
  match ls with
  | [] => (sv, [])
  | line :: ls' =>
      match bstrip line with
      | [] => readlines cli ls' sv
      | _ =>
          match json_loads (utf8_decode_replace line) with
          | Ok obj => let '(sv, msgs) := readlines cli ls' sv in (sv, obj :: msgs)
          | Exc JSONDecodeError => readlines cli ls' (sendobj cli (err_obj "bad json") sv).1
          | Exc _ => readlines cli ls' (sendobj cli (err_obj "parse error") sv).1
          end
      end
  end.

(** [recv] on a socket this side has closed raises whatever the kernel holds. *)
Definition recv_on (sv : server) (cli : Z) (r : recv_result) : recv_result :=
  match sv_socks sv !! cli with
  | Some k => if k_open k then r else RError
  | None => RError
  end.

Definition readmsgs (cli : Z) (r : recv_result) (sv : server) : server * list pyval :=
  match recv_on sv cli r with
  | RWouldBlock => (sv, [])
  | RError => (dropclient cli sv, [])
  | RData [] => (dropclient cli sv, [])
  | RData data =>
      let buf := default [] (sv_bufs sv !! cli) ++ data in
      if MAXMSG <? zlen buf then
        let '(sv, _) := sendobj cli (err_obj "message too large") sv in
        (dropclient cli sv, [])
      else
        let '(ls, rest) := frames buf in
        let '(sv, msgs) := readlines cli ls sv in
        (set_conns sv (sv_clients sv) (<[cli := rest]> (sv_bufs sv)) (sv_socks sv), msgs)
  end.

(** ** Operations *)

Definition sget (k : string) (dflt : pyval) (st : pydict) : pyval := dict_get_def (lit k) dflt st.

Definition opping (sv : server) : server * pyval :=
  let '(sv, st) := getstate sv in
  let '(sv, now) := nowsec sv in
  (sv, pobj [("ok", PBool true); ("daemon", PStr (lit "exchange")); ("ts", PInt now);
             ("statehash", sget "hash" (PStr []) st);
             ("statetype", sget "type" (PStr (lit "empty")) st);
             ("bytes", sget "bytes" (PInt 0) st)]%string).

Definition opget (sv : server) : server * pyval :=
  let '(sv, st) := getstate sv in
  (sv, pobj [("ok", PBool true); ("state", PDict st)]%string).

Definition opmeta (sv : server) : server * pyval :=
  let '(sv, st) := getstate sv in
  (sv, pobj [("ok", PBool true); ("type", sget "type" (PStr (lit "empty")) st);
             ("hash", sget "hash" (PStr []) st); ("ts", sget "ts" (PInt 0) st);
             ("source", sget "source" (PStr []) st); ("bytes", sget "bytes" (PInt 0) st);
             ("ttl", sget "ttl" (PInt 0) st)]%string).

Definition changed_event (st : pydict) : pyval :=
  pobj [("event", PStr (lit "changed")); ("hash", sget "hash" (PStr []) st);
        ("ts", sget "ts" (PInt 0) st); ("source", sget "source" (PStr []) st);
        ("bytes", sget "bytes" (PInt 0) st)]%string.

Definition settable_types : list pystr := [lit "text"; lit "files"; lit "html"; lit "image"].

Definition opset (msg : pydict) (sv : server) : server * pyval :=
  let t := py_str (sget "type" (PStr (lit "text")) msg) in
  let d := sget "data" (PStr []) msg in
  let s := py_str (sget "source" (PStr (lit "app")) msg) in
  if negb (existsb (str_eqb t) settable_types) then (sv, err_obj "unsupported type")
  else
    let d := py_str d in
    let '(sv, (ok, err)) := setstatetype t d s sv in
    if negb ok then (sv, pobj [("ok", PBool false); ("error", PStr err)]%string)
    else
      let '(sv, st) := getstate sv in
      let sv := notify (changed_event st) sv in
      (sv, pobj [("ok", PBool true); ("hash", sget "hash" (PStr []) st);
                 ("ts", sget "ts" (PInt 0) st)]%string).

Definition opclear (msg : pydict) (sv : server) : server * pyval :=
  let s := py_str (sget "source" (PStr (lit "app")) msg) in
  let '(sv, (ok, err)) := clearstate s sv in
  if negb ok then (sv, pobj [("ok", PBool false); ("error", PStr err)]%string)
  else
    let '(sv, st) := getstate sv in
    let sv := notify (changed_event st) sv in
    (sv, pobj [("ok", PBool true); ("ts", sget "ts" (PInt 0) st)]%string).

Definition opwatch (cli : Z) (sv : server) : server * pyval :=
  let sv := if memz cli (sv_watchers sv) then sv
            else set_watchers sv (sv_watchers sv ++ [cli]) in
  let '(sv, st) := getstate sv in
  let '(sv, _) := sendobj cli
    (pobj [("event", PStr (lit "ready")); ("hash", sget "hash" (PStr []) st);
           ("ts", sget "ts" (PInt 0) st); ("type", sget "type" (PStr (lit "empty")) st);
           ("bytes", sget "bytes" (PInt 0) st)]%string) sv in
  (sv, pobj [("ok", PBool true)]%string).

Definition opunwatch (cli : Z) (sv : server) : server * pyval :=
  let sv := if memz cli (sv_watchers sv)
            then set_watchers sv (remove_first cli (sv_watchers sv)) else sv in
  (sv, pobj [("ok", PBool true)]%string).

Definition opshutdown (sv : server) : server * pyval :=
  (set_running sv false, pobj [("ok", PBool true)]%string).

(** ** Routing *)

Definition handle (cli : Z) (msg : pyval) (sv : server) : server * pyval :=
  if negb (allowed sv msg) then (sv, err_obj "not allowed")
  else
    match msg with
    | PDict d =>
        let op := msg_op d in
        if str_eqb op (lit "ping") then opping sv
        else if str_eqb op (lit "get") then opget sv
        else if str_eqb op (lit "meta") then opmeta sv
        else if str_eqb op (lit "set") then opset d sv
        else if str_eqb op (lit "clear") then opclear d sv
        else if str_eqb op (lit "watch") then opwatch cli sv
        else if str_eqb op (lit "unwatch") then opunwatch cli sv
        else if str_eqb op (lit "shutdown") then opshutdown sv
        else (sv, err_obj "unknown op")
    | _ => (sv, err_obj "not allowed")
    end.

(** ** Event loop *)

(** The messages of one read: reply to each, stop at the first reply that
    cannot be sent. *)
Fixpoint serve (cli : Z) (msgs : list pyval) (sv : server) : server :=
  match msgs with
  | [] => sv
  | m :: msgs' =>
      let '(sv, r) := handle cli m sv in
      let '(sv, ok) := sendobj cli r sv in
      if ok then serve cli msgs' sv else dropclient cli sv
  end.

(** One readable object of a [select] round. *)
Inductive ready : Type :=
| ReadyServer (conn : option (Z * sock))
| ReadyClient (cli : Z) (r : recv_result).

Definition serve_ready (sv : server) (e : ready) : server :=
  match e with
  | ReadyServer conn => acceptclient conn sv
  | ReadyClient cli r =>
      let '(sv, msgs) := readmsgs cli r sv in
      serve cli msgs sv
  end.

(** One iteration of the [while RUNNING] loop. *)
Definition daemon_round (evs : list ready) (sv : server) : server := fold_left serve_ready evs sv.

(** The clean-up after the loop. *)
Definition daemon_stop (sv : server) : server := fold_left (fun sv c => dropclient c sv) (sv_clients sv) sv.

Definition handlesig (sv : server) : server := set_running sv false.

End Exchange.

(** The client side of exchange.py: receiving one reply, a request/reply call and
    the [ex*] functions other services import. *)
(** What one [recv] of the blocking socket gives, and whether the clock has
    passed the deadline when [exrecv] looks at it afterwards. *)
Abbreviation recv_event := (recv_result * bool)%type.

Fixpoint find_nl (buf : bytes) : option Z :=
  match buf with
  | [] => None
  | b :: r => if b =? 10 then Some 0 else match find_nl r with Some i => Some (1 + i) | None => None end
  end.

(** [None]: still blocked in [recv] when the events run out.  [Some (v, evs)]:
    returned [v] ([None] is Python's [None]) and left [evs] unread.  Bytes after
    the first newline are local to the call and are lost with it. *)
Fixpoint exrecv (buf : bytes) (evs : list recv_event) : option (option pyval * list recv_event) :=
  match evs with
  | [] => None
  | (r, late) :: evs' =>
      match r with
      | RError | RWouldBlock => Some (None, evs')
      | RData [] => Some (None, evs')
      | RData data =>
          let buf := buf ++ data in
          if MAXMSG <? zlen buf then Some (None, evs')
          else
            match find_nl buf with
            | Some i =>
                match json_loads (utf8_decode_replace (ztake i buf)) with
                | Ok obj => Some (Some obj, evs')
                | Exc _ => Some (None, evs')
                end
            | None => if late : bool then Some (None, evs') else exrecv buf evs'
            end
      end
  end.

(** A connection attempt: does [connect] succeed, does [sendall] succeed, and
    what the socket then receives. *)
Record conn : Type := mkconn { c_connects : bool; c_sends : bool; c_recv : list recv_event }.

(** The bytes handed to [sendall] and the reply; [None] while still blocked. *)
Definition excall (msg : pyval) (c : conn) : option bytes * option (option pyval) :=
  if negb (c_connects c) then (None, Some None)
  else
    let raw := wire_line msg in
    if negb (c_sends c) then (Some raw, Some None)
    else (Some raw, match exrecv [] (c_recv c) with Some (v, _) => Some v | None => None end).

(** [(False, {})], [(False, res)] or [(True, res)]; a reply that is not an
    object raises at [res.get]. *)
Definition exreply (r : option pyval) : res (bool * pyval) :=
  match r with
  | None => Ok (false, PDict [])
  | Some (PDict d) =>
      if negb (truthy (dict_get_def (lit "ok") (PBool false) d)) then Ok (false, PDict d)
      else Ok (true, PDict d)
  | Some _ => Exc AttributeError
  end.

Abbreviation exoutcome := (option bytes * option (res (bool * pyval)))%type.

Definition excall_reply (msg : pyval) (c : conn) : exoutcome :=
  let '(sent, r) := excall msg c in (sent, exreply <$> r).

Section Client.
Context {U : PyUnicode}.

Definition exping (c : conn) : exoutcome := excall_reply (pobj [("op", PStr (lit "ping"))]%string) c.

Definition exget (c : conn) : exoutcome :=
  let '(sent, r) := excall_reply (pobj [("op", PStr (lit "get"))]%string) c in
  (sent, (fun x => match x with
                   | Ok (true, PDict d) => Ok (true, dict_get_def (lit "state") (PDict []) d)
                   | _ => x
                   end) <$> r).

Definition exmeta (c : conn) : exoutcome := excall_reply (pobj [("op", PStr (lit "meta"))]%string) c.

Definition set_msg (type data source : pystr) : pyval :=
  pobj [("op", PStr (lit "set")); ("type", PStr type); ("data", PStr data);
        ("source", PStr source)]%string.

Definition exset (text : pyval) (source : pystr) (c : conn) : exoutcome :=
  excall_reply (set_msg (lit "text") (py_str text) source) c.

Definition exsetfiles (payload : pyval) (source : pystr) (c : conn) : exoutcome :=
  excall_reply (set_msg (lit "files") (json_dumps j_unicode payload) source) c.

Definition exsethtml (text : pyval) (source : pystr) (c : conn) : exoutcome :=
  excall_reply (set_msg (lit "html") (py_str text) source) c.

Definition exsetimage (payload : pyval) (source : pystr) (c : conn) : exoutcome :=
  excall_reply (set_msg (lit "image") (json_dumps j_unicode payload) source) c.

Definition exclear (source : pystr) (c : conn) : exoutcome :=
  excall_reply (pobj [("op", PStr (lit "clear")); ("source", PStr source)]%string) c.

(** The watch loop: the messages given to [onchange], in order, and whether the
    loop has ended.  Every call of [exrecv] reads at least one event, so the
    number of events bounds the calls. *)
Fixpoint watch_loop (fuel : nat) (evs : list recv_event) : list pyval * bool :=
  match fuel with
  | O => ([], false)
  | S fuel =>
      match exrecv [] evs with
      | None => ([], false)
      | Some (None, _) => ([], true)
      | Some (Some m, evs') => let '(ms, e) := watch_loop fuel evs' in (m :: ms, e)
      end
  end.

Inductive watch_result : Type :=
| WatchFailed (err : pystr)
| Watching (sent : bytes) (delivered : list pyval) (ended : bool).

Definition exwatch (source : pystr) (c : conn) : watch_result :=
  if negb (c_connects c) then WatchFailed (lit "connect error")
  else
    let raw := wire_line (pobj [("op", PStr (lit "watch")); ("source", PStr source)]%string) in
    if negb (c_sends c) then WatchFailed (lit "send error")
    else
      let '(ms, ended) := watch_loop (S (List.length (c_recv c))) (c_recv c) in
      Watching raw ms ended.

End Client.
