(* ===== verification/ExchangeProofs.v ===== *)
(** Correctness of the exchange service: line framing, the service invariant,
    the effect of each request, notification, authorisation and persistence. *)

From stdpp Require Import base list gmap strings.
From Stdlib Require Import ZArith Lia Bool String.
From S2P Require Import Prelude PyFloat PyText PyVal PyJson Exchange.
Open Scope Z_scope.

(** ** Framing *)


Lemma frames_no_nl b : no_nl b -> frames b = ([], b).
Proof.
  induction 1 as [|c b Hc Hb IH]; simpl; [done|]. rewrite IH.
  destruct (c =? 10) eqn:E; [lia|done].
Qed.

Lemma frames_line l r : no_nl l -> frames (l ++ 10 :: r) = (l :: (frames r).1, (frames r).2).
Proof.
  induction 1 as [|c l Hc Hl IH]; simpl; [by destruct (frames r)|]. rewrite IH.
  destruct (c =? 10) eqn:E; [lia|done].
Qed.

(** The lines of a buffer followed by more bytes: the unfinished rest is
    completed by what comes next. *)
Lemma frames_app a b :
  frames (a ++ b) = ((frames a).1 ++ (frames ((frames a).2 ++ b)).1,
                     (frames ((frames a).2 ++ b)).2).
Proof.
  induction a as [|c a IH]; simpl; [by destruct (frames b)|]. rewrite IH.
  destruct (frames a) as [ls t]. simpl. destruct (c =? 10) eqn:E; [done|].
  destruct ls as [|l ls]; simpl; [|done].
  rewrite E. destruct (frames (t ++ b)) as [ls2 t2]. simpl. by destruct ls2.
Qed.

Lemma frames_rest b : no_nl (frames b).2 /\ zlen (frames b).2 <= zlen b.
Proof.
  induction b as [|c b [IH1 IH2]]; simpl; [split; [constructor|done]|].
  destruct (frames b) as [ls t]. simpl in *. destruct (c =? 10) eqn:E; simpl.
  - split; [done|]. rewrite zlen_cons. lia.
  - destruct ls; simpl; rewrite !zlen_cons; (split; [|lia]); [|done]. constructor; [lia|done].
Qed.

(** ** Encoded documents are one line *)

(** One document per line: the receiver finds exactly the encoded document. *)
Definition doc_bytes (v : pyval) : bytes := utf8_encode_replace (json_dumps j_unicode v).

Lemma utf8_encode_replace_app a b :
  utf8_encode_replace (a ++ b) = utf8_encode_replace a ++ utf8_encode_replace b.
Proof. unfold utf8_encode_replace. by rewrite flat_map_app. Qed.

Lemma wire_line_doc v : wire_line v = doc_bytes v ++ [10].
Proof. unfold wire_line. by rewrite utf8_encode_replace_app. Qed.

Lemma doc_bytes_no_nl v : json_ok v = true -> no_nl (doc_bytes v).
Proof. intros. apply clean_no_nl, clean_dumps; [apply j_unicode_clean|done]. Qed.

Lemma doc_bytes_parse v :
  json_ok v = true -> json_loads (utf8_decode_replace (doc_bytes v)) = Ok v.
Proof.
  intros Hv. unfold doc_bytes. rewrite utf8_roundtrip_replace.
  - apply json_roundtrip; [apply j_unicode_ok|done].
  - apply clean_scalar, clean_dumps; [apply j_unicode_clean|done].
Qed.

Lemma lstrip_head p c s : p c = false -> lstrip_if p (c :: s) = c :: s.
Proof. simpl. by intros ->. Qed.

Lemma rstrip_nonempty p c s : p c = false -> rstrip_if p (c :: s) <> [].
Proof.
  intros Hc H. unfold rstrip_if in H. apply (f_equal (@rev Z)) in H. rewrite rev_involutive in H.
  assert (Hin : In c (lstrip_if p (rev (c :: s)))).
  { simpl. assert (Hl : In c (rev s ++ [c])) by (apply in_or_app; right; by left).
    revert Hl. generalize (rev s ++ [c]). intros l. induction l as [|d l IH]; simpl; [done|].
    intros [->|Hl]; [by rewrite Hc; left|]. destruct (p d); [by apply IH|by right]. }
  by rewrite H in Hin.
Qed.

Lemma bstrip_doc v : json_ok v = true -> bstrip (doc_bytes v) <> [].
Proof.
  intros Hv. unfold doc_bytes, bstrip.
  destruct (json_dumps_head j_unicode v Hv) as (c & t & -> & _ & _ & Hc).
  unfold utf8_encode_replace. simpl.
  assert (is_surrogate c = false) as -> by (unfold is_surrogate; lia).
  unfold utf8_char. destruct (c <? 128) eqn:E; [|lia]. cbn [app].
  assert (is_bspace c = false) by (unfold is_bspace; lia).
  rewrite lstrip_head by done. by apply rstrip_nonempty.
Qed.

(** ** The service invariant *)

Lemma memz_spec x l : memz x l = true <-> x ∈ l.
Proof.
  unfold memz. rewrite existsb_exists. split.
  - intros (y & Hy & E). apply Z.eqb_eq in E as ->. by apply list_elem_of_In.
  - intros H. exists x. split; [by apply list_elem_of_In|apply Z.eqb_refl].
Qed.

Lemma remove_first_subset x y l : y ∈ remove_first x l -> y ∈ l.
Proof.
  induction l as [|z l IH]; simpl; [done|]. destruct (z =? x); set_solver.
Qed.

Lemma remove_first_ne x y l : y <> x -> y ∈ l -> y ∈ remove_first x l.
Proof.
  induction l as [|z l IH]; simpl; [set_solver|]. intros Hne Hin.
  destruct (z =? x) eqn:E; [apply Z.eqb_eq in E as ->|]; set_solver.
Qed.

Lemma remove_first_NoDup x l : NoDup l -> NoDup (remove_first x l) /\ x ∉ remove_first x l.
Proof.
  induction 1 as [|z l Hz Hl [IH1 IH2]]; simpl; [split; [constructor|set_solver]|].
  destruct (z =? x) eqn:E; [apply Z.eqb_eq in E as ->; done|].
  split; [|set_solver by lia]. constructor; [|done].
  intros Hin. by apply remove_first_subset in Hin.
Qed.

Lemma remove_first_eq x y l : NoDup l -> (y ∈ remove_first x l <-> y ∈ l /\ y <> x).
Proof.
  intros Hnd. split.
  - intros Hin. split; [by eapply remove_first_subset|]. intros ->.
    by destruct (remove_first_NoDup x l Hnd).
  - intros [? ?]. by apply remove_first_ne.
Qed.

(** A client's socket, as the server knows it. *)
Definition sock_open (sv : server) (c : Z) : Prop :=
  exists k, sv_socks sv !! c = Some k /\ k_open k = true.

Record conn_ok (sv : server) : Prop := {
  co_clients : NoDup (sv_clients sv);
  co_watchers : NoDup (sv_watchers sv);
  co_watch : forall w, w ∈ sv_watchers sv -> w ∈ sv_clients sv;
  co_open : forall c, c ∈ sv_clients sv <-> sock_open sv c;
  co_bufs : forall c, is_Some (sv_bufs sv !! c) <-> c ∈ sv_clients sv;
  co_buf : forall c b, sv_bufs sv !! c = Some b -> no_nl b /\ zlen b <= MAXMSG }.

(** Steps that leave the connections alone, and the frame of the socket steps. *)
Lemma conn_ok_frame sv sv' :
  sv_clients sv' = sv_clients sv -> sv_watchers sv' = sv_watchers sv ->
  sv_bufs sv' = sv_bufs sv -> (forall c, sock_open sv' c <-> sock_open sv c) ->
  conn_ok sv -> conn_ok sv'.
Proof.
  intros Hc Hw Hb Ho [? ? ? H4 H5 ?]. split; rewrite ?Hc, ?Hw, ?Hb; try done.
  intros c. rewrite H4. by rewrite Ho.
Qed.

Lemma sendall_open k d : k_open (sendall k d).1 = k_open k.
Proof. unfold sendall. destruct (k_open k) eqn:E; simpl; [|done]. split_if; simpl; done. Qed.

(** [sendobj] touches one socket and only its output. *)
Lemma sendobj_frame c v sv sv' ok :
  sendobj c v sv = (sv', ok) ->
  sv_clients sv' = sv_clients sv /\ sv_watchers sv' = sv_watchers sv /\
  sv_bufs sv' = sv_bufs sv /\ sv_state sv' = sv_state sv /\ sv_running sv' = sv_running sv /\
  sv_key sv' = sv_key sv /\
  (forall d, sock_open sv' d <-> sock_open sv d) /\
  (forall d, d <> c -> sv_socks sv' !! d = sv_socks sv !! d) /\
  (ok = true -> sock_open sv c).
Proof.
  unfold sendobj. destruct (sv_socks sv !! c) as [k|] eqn:Hk; [|by intros [= <- <-]; split_and!].
  destruct (sendall k (wire_line v)) as [k' ok'] eqn:E. intros [= <- <-]. simpl.
  pose proof (sendall_open k (wire_line v)) as Hopen. rewrite E in Hopen. simpl in Hopen.
  split_and!; try done.
  - intros d. unfold sock_open. simpl. destruct (decide (d = c)) as [->|Hne].
    + rewrite lookup_insert_eq, Hk. split; intros (k2 & [= <-] & ?); eexists; (split; [done|]); congruence.
    + by rewrite lookup_insert_ne.
  - intros d Hne. by rewrite lookup_insert_ne.
  - intros ->. exists k. split; [done|]. unfold sendall in E.
    destruct (k_open k); [done|]. simpl in E. by simplify_eq.
Qed.

Lemma sendobj_conn_ok c v sv sv' ok : sendobj c v sv = (sv', ok) -> conn_ok sv -> conn_ok sv'.
Proof.
  intros H. apply sendobj_frame in H as (? & ? & ? & ? & ? & ? & ? & _). by apply conn_ok_frame.
Qed.

(** [dropclient] removes the client everywhere and nothing else. *)
Lemma dropclient_spec c sv :
  conn_ok sv ->
  conn_ok (dropclient c sv) /\
  (forall d, d ∈ sv_clients (dropclient c sv) <-> d ∈ sv_clients sv /\ d <> c) /\
  (forall d, d ∈ sv_watchers (dropclient c sv) <-> d ∈ sv_watchers sv /\ d <> c) /\
  sv_state (dropclient c sv) = sv_state sv /\ sv_running (dropclient c sv) = sv_running sv /\
  sv_key (dropclient c sv) = sv_key sv /\
  (forall d, d <> c -> sv_socks (dropclient c sv) !! d = sv_socks sv !! d).
Proof.
  intros [H1 H2 H3 H4 H5 H6].
  assert (Hcl : forall d, d ∈ sv_clients (dropclient c sv) <-> d ∈ sv_clients sv /\ d <> c).
  { intros d. unfold dropclient. destruct (memz c (sv_watchers sv)); simpl;
      (destruct (memz c (sv_clients sv)) eqn:E;
        [by apply remove_first_eq|
         split; [|tauto]; intros Hd; split; [done|]; intros ->;
         apply not_true_iff_false in E; rewrite memz_spec in E; done]). }
  assert (Hw : forall d, d ∈ sv_watchers (dropclient c sv) <-> d ∈ sv_watchers sv /\ d <> c).
  { intros d. unfold dropclient. destruct (memz c (sv_watchers sv)) eqn:E; simpl;
      [by apply remove_first_eq|].
    split; [|tauto]. intros Hd; split; [done|]; intros ->.
    apply not_true_iff_false in E; rewrite memz_spec in E; done. }
  assert (Hb : sv_bufs (dropclient c sv) = delete c (sv_bufs sv)).
  { unfold dropclient. by destruct (memz c (sv_watchers sv)). }
  assert (Hs : sv_socks (dropclient c sv) =
    alter (fun k => mksock false (k_peer k) (k_room k) (k_out k)) c (sv_socks sv)).
  { unfold dropclient. by destruct (memz c (sv_watchers sv)). }
  split_and!; try done; try (unfold dropclient; by destruct (memz c (sv_watchers sv))).
  - split.
    + unfold dropclient. destruct (memz c (sv_watchers sv)); simpl;
        (destruct (memz c (sv_clients sv)); [by apply remove_first_NoDup|done]).
    + unfold dropclient. destruct (memz c (sv_watchers sv)); simpl; [by apply remove_first_NoDup|done].
    + intros w. rewrite Hcl, Hw. intros [? ?]. split; auto.
    + intros d. rewrite Hcl, H4. unfold sock_open. rewrite Hs.
      destruct (decide (d = c)) as [->|Hne].
      * rewrite lookup_alter_eq. split; [tauto|]. intros (k & Hk & Ho).
        destruct (sv_socks sv !! c); simpl in Hk; simplify_eq; done.
      * rewrite lookup_alter_ne by done. tauto.
    + intros d. rewrite Hcl, Hb. destruct (decide (d = c)) as [->|Hne].
      * rewrite lookup_delete_eq. split; [by intros [? ?]|tauto].
      * rewrite lookup_delete_ne, H5 by done. tauto.
    + intros d b. rewrite Hb. intros Hd. apply lookup_delete_Some in Hd as [_ Hd]. eauto.
  - intros d Hne. by rewrite Hs, lookup_alter_ne.
Qed.

Lemma fold_drop_ok dead sv :
  conn_ok sv ->
  let sv' := fold_left (fun sv w => dropclient w sv) dead sv in
  conn_ok sv' /\ sv_state sv' = sv_state sv /\ sv_running sv' = sv_running sv /\
  sv_key sv' = sv_key sv /\
  (forall d, d ∈ sv_clients sv' <-> d ∈ sv_clients sv /\ d ∉ dead) /\
  (forall d, d ∈ sv_watchers sv' <-> d ∈ sv_watchers sv /\ d ∉ dead) /\
  (forall d, d ∉ dead -> sv_socks sv' !! d = sv_socks sv !! d).
Proof.
  revert sv. induction dead as [|w dead IH]; intros sv Hok; simpl; [set_solver|].
  destruct (dropclient_spec w sv Hok) as (Hok' & Hcl & Hw & Hst & Hr & Hk & Hso).
  destruct (IH _ Hok') as (H1 & H2 & H3 & H4 & H5 & H6 & H7).
  split_and!; try congruence; try done.
  - intros d. rewrite H5, Hcl. set_solver.
  - intros d. rewrite H6, Hw. set_solver.
  - intros d Hd. rewrite H7, Hso by set_solver. done.
Qed.

(** The sends of a notification: every watcher is sent the event once; the dead
    ones are those whose send failed. *)
Lemma notify_send_frame ws v sv sv' dead :
  notify_send ws v sv = (sv', dead) ->
  sv_clients sv' = sv_clients sv /\ sv_watchers sv' = sv_watchers sv /\
  sv_bufs sv' = sv_bufs sv /\ sv_state sv' = sv_state sv /\ sv_running sv' = sv_running sv /\
  sv_key sv' = sv_key sv /\
  (forall d, sock_open sv' d <-> sock_open sv d) /\
  (forall d, d ∉ ws -> sv_socks sv' !! d = sv_socks sv !! d) /\
  (forall d, d ∈ dead -> d ∈ ws).
Proof.
  revert sv sv' dead. induction ws as [|w ws IH]; intros sv sv' dead; simpl.
  { intros [= <- <-]. by split_and!. }
  destruct (sendobj w v sv) as [sv1 ok] eqn:E1.
  destruct (notify_send ws v sv1) as [sv2 dead2] eqn:E2. intros [= <- <-].
  apply sendobj_frame in E1 as (A1 & A2 & A3 & A4 & A5 & A6 & A7 & A8 & _).
  apply IH in E2 as (B1 & B2 & B3 & B4 & B5 & B6 & B7 & B8 & B9).
  split_and!; try congruence.
  - intros d. by rewrite B7, A7.
  - intros d Hd. rewrite B8, A8 by set_solver. done.
  - intros d. destruct ok; set_solver.
Qed.

Lemma notify_ok v sv :
  conn_ok sv ->
  conn_ok (notify v sv) /\ sv_state (notify v sv) = sv_state sv /\
  sv_running (notify v sv) = sv_running sv /\ sv_key (notify v sv) = sv_key sv.
Proof.
  intros Hok. unfold notify. destruct (notify_send (sv_watchers sv) v sv) as [sv1 dead] eqn:E.
  apply notify_send_frame in E as (A1 & A2 & A3 & A4 & A5 & A6 & A7 & _).
  destruct (fold_drop_ok dead sv1) as (B1 & B2 & B3 & B4 & _).
  { by eapply conn_ok_frame. }
  split_and!; [done|congruence..].
Qed.

(** The state setters preserve the stored document's well-formedness. *)
Lemma set_state_conn_ok sv x : conn_ok sv -> conn_ok (set_state sv x).
Proof. by apply conn_ok_frame. Qed.

Lemma nowsec_frame sv : exists n, nowsec sv = (n, sv_clock sv (sv_tick sv)) /\
  sv_clients n = sv_clients sv /\ sv_watchers n = sv_watchers sv /\ sv_bufs n = sv_bufs sv /\
  sv_socks n = sv_socks sv /\ sv_state n = sv_state sv /\ sv_running n = sv_running sv /\
  sv_key n = sv_key sv /\ sv_fs n = sv_fs sv /\ sv_file n = sv_file sv /\ sv_clock n = sv_clock sv.
Proof. eexists; split; [done|]. by split_and!. Qed.

(** Everything but the document, the file and the clock is as it was. *)
Definition same_conns (sv sv' : server) : Prop :=
  sv_clients sv' = sv_clients sv /\ sv_watchers sv' = sv_watchers sv /\ sv_bufs sv' = sv_bufs sv /\
  sv_socks sv' = sv_socks sv /\ sv_running sv' = sv_running sv /\ sv_key sv' = sv_key sv /\
  sv_fs sv' = sv_fs sv.

Lemma same_conns_refl sv : same_conns sv sv.
Proof. by split_and!. Qed.

Lemma same_conns_trans a b c : same_conns a b -> same_conns b c -> same_conns a c.
Proof. unfold same_conns. intuition congruence. Qed.

Lemma same_conns_ok a b : same_conns a b -> conn_ok a -> conn_ok b.
Proof.
  intros (? & ? & ? & Hs & _). apply conn_ok_frame; try done.
  intros c. unfold sock_open. by rewrite Hs.
Qed.

Lemma savestate_frame sv :
  same_conns sv (savestate sv).1 /\ sv_state (savestate sv).1 = sv_state sv.
Proof. unfold savestate. destruct (sv_fs sv) eqn:E; cbv zeta; try destruct (utf8_encode _); by split_and!. Qed.

Lemma clearstate_frame s sv :
  same_conns sv (clearstate s sv).1 /\
  sv_state (clearstate s sv).1 = mkx (lit "empty") [] [] (sv_clock sv (sv_tick sv)) s 0 0.
Proof.
  unfold clearstate. destruct (nowsec_frame sv) as (n & -> & ? & ? & ? & ? & ? & ? & ? & ? & _).
  pose proof (savestate_frame (set_state n (mkx (lit "empty") [] []
    (sv_clock sv (sv_tick sv)) s 0 0))) as [Hf Hs].
  destruct (savestate _) as [sv2 ok]. simpl in Hf, Hs. destruct ok; simpl; (split; [|done]);
    unfold same_conns in *; simpl in *; intuition congruence.
Qed.

Section Invariant.
Context {U : PyUnicode} (sha256hex : bytes -> pystr).
Local Abbreviation makehash := (makehash sha256hex).
Local Abbreviation handle := (handle sha256hex).
Local Abbreviation serve := (serve sha256hex).
Local Abbreviation serve_ready := (serve_ready sha256hex).
Local Abbreviation daemon_round := (daemon_round sha256hex).

(** The stored document: its size field is the length of its encoding, within
    the limit, and its hash is the hash of its data unless it was cleared. *)
Definition xstate_ok (x : xstate) : Prop :=
  x_bytes x = zlen (utf8_encode_replace (x_data x)) /\ x_bytes x <= MAXBYTES /\
  (x_hash x = makehash (x_data x) \/ x_data x = [] /\ x_hash x = []).

(** The invariant of the whole service. *)
Definition server_ok (sv : server) : Prop := conn_ok sv /\ xstate_ok (sv_state sv).

Lemma empty_ok ts s : xstate_ok (mkx (lit "empty") [] [] ts s 0 0).
Proof. split; [done|]. split; [done|]. by right. Qed.

(** [getstate] returns the document it leaves in place. *)
Lemma getstate_frame sv :
  same_conns sv (getstate sv).1 /\ (getstate sv).2 = state_dict (sv_state (getstate sv).1) /\
  (xstate_ok (sv_state sv) -> xstate_ok (sv_state (getstate sv).1)) /\
  (x_ttl (sv_state sv) <= 0 -> (getstate sv).1 = sv).
Proof.
  unfold getstate, expired.
  destruct (x_ttl (sv_state sv) <=? 0) eqn:E1; simpl.
  { split_and!; try done. }
  destruct (x_ts (sv_state sv) <=? 0) eqn:E2; simpl.
  { split_and!; try done. }
  destruct (_ <=? sv_clock sv (sv_tick sv)) eqn:E3; simpl.
  - match goal with |- context [clearstate ?s ?n] => destruct (clearstate_frame s n) as [Hf Hs] end.
    split_and!; try done; [|intros; lia].
    intros _. rewrite Hs. apply empty_ok.
  - split_and!; try done. intros; lia.
Qed.

Lemma setstatetype_frame t text s sv :
  let r := setstatetype sha256hex t text s sv in
  same_conns sv r.1 /\
  ((validtext (PStr text)).1 = false ->
     r = (sv, (false, (validtext (PStr text)).2))) /\
  ((validtext (PStr text)).1 = true ->
     sv_state r.1 = mkx t text (makehash text) (sv_clock sv (sv_tick sv)) s
                      (zlen (utf8_encode_replace text)) 0 /\
     r.2 = if (savestate (set_state (nowsec sv).1 (sv_state r.1))).2
           then (true, []) else (false, lit "save error")).
Proof.
  cbv zeta. unfold setstatetype. destruct (validtext (PStr text)) as [ok err]. destruct ok; simpl.
  - match goal with |- context [savestate ?n] =>
      pose proof (savestate_frame n) as [Hf Hs]; destruct (savestate n) as [sv2 ok] eqn:Esave end.
    simpl in Hf, Hs.
    destruct ok; simpl; split_and!; try done;
      try (unfold same_conns in *; simpl in *; intuition congruence).
    all: intros _; split; [done|]; rewrite Hs; simpl; by rewrite Esave.
  - split_and!; try done.
Qed.

Lemma validtext_bound text :
  (validtext (PStr text)).1 = true -> zlen (utf8_encode_replace text) <= MAXBYTES.
Proof.
  unfold validtext. cbn [py_str]. split_if; simpl; try done. lia.
Qed.

Lemma setstatetype_ok t text s sv :
  server_ok sv -> server_ok (setstatetype sha256hex t text s sv).1.
Proof.
  intros [Hc Hx]. destruct (setstatetype_frame t text s sv) as (Hf & H0 & H1). cbv zeta in *.
  split; [by eapply same_conns_ok|].
  destruct (validtext (PStr text)).1 eqn:E.
  - destruct (H1 eq_refl) as [-> _]. split; [done|]. split; [by apply validtext_bound|by left].
  - rewrite (H0 eq_refl). done.
Qed.

Lemma nowsec_ok sv : server_ok sv -> server_ok (nowsec sv).1.
Proof. intros [Hc Hx]. split; [|done]. revert Hc. by apply conn_ok_frame. Qed.

Lemma getstate_ok sv : server_ok sv -> server_ok (getstate sv).1.
Proof.
  intros [Hc Hx]. destruct (getstate_frame sv) as (Hf & _ & Hx' & _).
  split; [by eapply same_conns_ok|auto].
Qed.

Lemma clearstate_ok s sv : server_ok sv -> server_ok (clearstate s sv).1.
Proof.
  intros [Hc Hx]. destruct (clearstate_frame s sv) as [Hf Hs].
  split; [by eapply same_conns_ok|]. rewrite Hs. apply empty_ok.
Qed.

Lemma notify_server_ok v sv : server_ok sv -> server_ok (notify v sv).
Proof. intros [Hc Hx]. destruct (notify_ok v sv Hc) as (? & Hs & _). by split; [|rewrite Hs]. Qed.

Lemma sendobj_server_ok c v sv : server_ok sv -> server_ok (sendobj c v sv).1.
Proof.
  intros [Hc Hx]. destruct (sendobj c v sv) as [sv' ok] eqn:E. split; simpl.
  - by eapply sendobj_conn_ok.
  - apply sendobj_frame in E as (_ & _ & _ & -> & _). done.
Qed.

Lemma dropclient_server_ok c sv : server_ok sv -> server_ok (dropclient c sv).
Proof.
  intros [Hc Hx]. destruct (dropclient_spec c sv Hc) as (? & _ & _ & Hs & _). by split; [|rewrite Hs].
Qed.

Lemma set_watchers_ok sv w :
  server_ok sv -> NoDup w -> (forall c, c ∈ w -> c ∈ sv_clients sv) ->
  server_ok (set_watchers sv w).
Proof. intros [[? ? ? ? ? ?] Hx] Hnd Hw. split; [split|]; done. Qed.

Lemma opwatch_ok cli sv :
  server_ok sv -> cli ∈ sv_clients sv -> server_ok (opwatch cli sv).1.
Proof.
  intros Hok Hcli. unfold opwatch.
  set (sv1 := if memz cli (sv_watchers sv) then sv else _).
  assert (Hok1 : server_ok sv1).
  { subst sv1. destruct (memz cli (sv_watchers sv)) eqn:E; [done|].
    apply not_true_iff_false in E. rewrite memz_spec in E.
    destruct Hok as [[? ? Hw ? ? ?] Hx]. apply set_watchers_ok; [by split; [split|]| |].
    - apply NoDup_app. split; [done|]. split; [set_solver|apply NoDup_singleton].
    - intros c [?|?]%elem_of_app; [by apply Hw|set_solver]. }
  destruct (getstate sv1) as [sv2 st] eqn:E.
  pose proof (getstate_ok sv1 Hok1) as Hok2. rewrite E in Hok2. simpl in Hok2.
  match goal with |- context [sendobj cli ?v sv2] =>
    pose proof (sendobj_server_ok cli v sv2 Hok2) as H3; by destruct (sendobj cli v sv2) end.
Qed.

Lemma opunwatch_ok cli sv : server_ok sv -> server_ok (opunwatch cli sv).1.
Proof.
  intros Hok. unfold opunwatch. simpl. destruct (memz cli (sv_watchers sv)); [|done].
  apply set_watchers_ok; [done| |]; destruct Hok as [[? ? Hw ? ? ?] _].
  - by apply remove_first_NoDup.
  - intros c Hc%remove_first_subset. by apply Hw.
Qed.

Lemma opset_ok msg sv : server_ok sv -> server_ok (opset sha256hex msg sv).1.
Proof.
  intros Hok. unfold opset. destruct (negb (existsb _ _)); [done|].
  match goal with |- context [setstatetype _ ?t ?d ?s sv] =>
    pose proof (setstatetype_ok t d s sv Hok) as H1;
    destruct (setstatetype sha256hex t d s sv) as [sv1 [ok err]] end.
  simpl in H1. destruct ok; simpl; [|done].
  pose proof (getstate_ok sv1 H1) as H2. destruct (getstate sv1) as [sv2 st]. simpl in *.
  by apply notify_server_ok.
Qed.

Lemma opclear_ok msg sv : server_ok sv -> server_ok (opclear msg sv).1.
Proof.
  intros Hok. unfold opclear.
  match goal with |- context [clearstate ?s sv] =>
    pose proof (clearstate_ok s sv Hok) as H1; destruct (clearstate s sv) as [sv1 [ok err]] end.
  simpl in H1. destruct ok; simpl; [|done].
  pose proof (getstate_ok sv1 H1) as H2. destruct (getstate sv1) as [sv2 st]. simpl in *.
  by apply notify_server_ok.
Qed.

Lemma handle_ok cli msg sv :
  server_ok sv -> cli ∈ sv_clients sv -> server_ok (handle cli msg sv).1.
Proof.
  intros Hok Hcli. unfold Exchange.handle. destruct (negb (allowed sv msg)); [done|].
  destruct msg as [| | | | | |d]; try done.
  pose proof (getstate_ok sv Hok) as Hg.
  repeat match goal with |- context [if str_eqb ?a ?b then _ else _] => destruct (str_eqb a b) end;
    try done.
  - unfold opping. destruct (getstate sv) as [sv1 st]. by apply nowsec_ok.
  - unfold opget. destruct (getstate sv) as [sv1 st]. done.
  - unfold opmeta. destruct (getstate sv) as [sv1 st]. done.
  - by apply opset_ok.
  - by apply opclear_ok.
  - by apply opwatch_ok.
  - by apply opunwatch_ok.
  - destruct Hok as [Hc Hx]. split; [|done]. revert Hc. by apply conn_ok_frame.
Qed.

Lemma serve_ok cli msgs sv :
  server_ok sv -> (msgs <> [] -> cli ∈ sv_clients sv) -> server_ok (serve cli msgs sv).
Proof.
  revert sv. induction msgs as [|m msgs IH]; intros sv Hok Hcli; simpl; [done|].
  pose proof (handle_ok cli m sv Hok ltac:(by apply Hcli)) as H1.
  destruct (handle cli m sv) as [sv1 r]. simpl in H1.
  pose proof (sendobj_server_ok cli r sv1 H1) as H2.
  destruct (sendobj cli r sv1) as [sv2 ok] eqn:E. simpl in H2.
  destruct ok; [|by apply dropclient_server_ok].
  apply IH; [done|]. intros _. apply sendobj_frame in E as (-> & _ & _ & _ & _ & _ & _ & _ & Ho).
  destruct H1 as [Hc1 _]. apply (co_open _ Hc1). by apply Ho.
Qed.

Lemma readlines_frame cli ls sv sv' msgs :
  readlines cli ls sv = (sv', msgs) -> server_ok sv ->
  server_ok sv' /\ sv_clients sv' = sv_clients sv /\ sv_bufs sv' = sv_bufs sv.
Proof.
  revert sv sv' msgs. induction ls as [|l ls IH]; intros sv sv' msgs; simpl; [by intros [= <- <-]|].
  assert (Hsend : forall v sv' msgs,
    readlines cli ls (sendobj cli v sv).1 = (sv', msgs) -> server_ok sv ->
    server_ok sv' /\ sv_clients sv' = sv_clients sv /\ sv_bufs sv' = sv_bufs sv).
  { intros v sv2 msgs2 H Hok. pose proof (sendobj_server_ok cli v sv Hok) as Hok'.
    destruct (sendobj cli v sv) as [sv1 ok] eqn:E. simpl in *.
    apply sendobj_frame in E as (Hc & _ & Hb & _).
    apply IH in H as (? & ? & ?); [|done]. split_and!; [done|congruence|congruence]. }
  destruct (bstrip l); [by apply IH|].
  destruct (json_loads _) as [obj|[]]; try by apply Hsend.
  destruct (readlines cli ls sv) as [sv1 ms] eqn:E. intros [= <- <-]. by eapply IH.
Qed.

Lemma readmsgs_ok cli r sv :
  server_ok sv -> server_ok (readmsgs cli r sv).1 /\
  ((readmsgs cli r sv).2 <> [] -> cli ∈ sv_clients (readmsgs cli r sv).1).
Proof.
  intros Hok. unfold readmsgs, recv_on.
  assert (Hdrop : server_ok (dropclient cli sv, @nil pyval).1 /\
     ((dropclient cli sv, @nil pyval).2 <> [] -> cli ∈ sv_clients (dropclient cli sv, @nil pyval).1)).
  { split; [by apply dropclient_server_ok|done]. }
  destruct (sv_socks sv !! cli) as [k|] eqn:Hk; [|done].
  destruct (k_open k) eqn:Ho; [|done].
  destruct r as [data| |]; [|by split|done]. destruct data as [|b data]; [done|].
  set (buf := default [] (sv_bufs sv !! cli) ++ b :: data).
  destruct (MAXMSG <? zlen buf) eqn:E.
  { pose proof (sendobj_server_ok cli (err_obj "message too large") sv Hok) as H1.
    destruct (sendobj _ _ sv). simpl in *. split; [by apply dropclient_server_ok|done]. }
  destruct (frames buf) as [ls rest] eqn:Ef.
  destruct (readlines cli ls sv) as [sv1 msgs] eqn:Er.
  destruct (readlines_frame _ _ _ _ _ Er Hok) as (Hok1 & Hc & Hb). simpl.
  assert (Hcli : cli ∈ sv_clients sv).
  { destruct Hok as [Hc0 _]. apply (co_open _ Hc0). by exists k. }
  pose proof (frames_rest buf) as [Hr1 Hr2]. rewrite Ef in Hr1, Hr2. simpl in *.
  split; [|by rewrite Hc]. destruct Hok1 as [[? ? ? ? H5 H6] Hx]. split; [split|done]; simpl; try done.
  - intros c. rewrite <- H5. destruct (decide (c = cli)) as [->|].
    + rewrite lookup_insert_eq, H5, Hc. split; [done|by eauto].
    + by rewrite lookup_insert_ne.
  - intros c b'. rewrite lookup_insert. case_decide as Hd; [|by apply H6].
    intros [= <-]. split; [done|lia].
Qed.

(** What an accepted connection is: a new socket object, open. *)
Definition ready_ok (sv : server) (e : ready) : Prop :=
  match e with
  | ReadyServer (Some (cli, k)) => sv_socks sv !! cli = None /\ k_open k = true
  | _ => True
  end.

Lemma acceptclient_ok conn sv :
  server_ok sv -> ready_ok sv (ReadyServer conn) -> server_ok (acceptclient conn sv).
Proof.
  intros [[H1 H2 H3 H4 H5 H6] Hx]. destruct conn as [[cli k]|]; [|done].
  simpl. intros [Hnew Hopen].
  assert (Hn : cli ∉ sv_clients sv) by (rewrite H4; intros (k' & Hk & _); congruence).
  split; [|done]. split; simpl; try done.
  - apply NoDup_app. split; [done|]. split; [set_solver|apply NoDup_singleton].
  - intros w Hw. apply elem_of_app. left. by apply H3.
  - intros c. rewrite elem_of_app, H4, list_elem_of_singleton. unfold sock_open. simpl.
    destruct (decide (c = cli)) as [->|].
    + rewrite lookup_insert_eq. split; [by eauto|by right].
    + rewrite lookup_insert_ne by done. tauto.
  - intros c. rewrite elem_of_app, list_elem_of_singleton.
    destruct (decide (c = cli)) as [->|].
    + rewrite lookup_insert_eq. split; [by right|by eauto].
    + rewrite lookup_insert_ne, H5 by done. tauto.
  - intros c b. rewrite lookup_insert. case_decide; [|by apply H6].
    intros [= <-]. split; [constructor|done].
Qed.

Lemma serve_ready_ok e sv : server_ok sv -> ready_ok sv e -> server_ok (serve_ready sv e).
Proof.
  intros Hok He. destruct e as [conn|cli r]; [by apply acceptclient_ok|].
  simpl. destruct (readmsgs_ok cli r sv Hok) as [H1 H2].
  destruct (readmsgs cli r sv) as [sv1 msgs]. by apply serve_ok.
Qed.

(** The states the loop can reach from a started service. *)
Inductive reach (sv0 : server) : server -> Prop :=
| reach_start : reach sv0 sv0
| reach_step sv e : reach sv0 sv -> sv_running sv = true -> ready_ok sv e ->
    reach sv0 (serve_ready sv e)
| reach_signal sv : reach sv0 sv -> reach sv0 (handlesig sv)
| reach_clock sv f : reach sv0 sv ->
    reach sv0 (mksv (sv_state sv) (sv_clients sv) (sv_bufs sv) (sv_watchers sv) (sv_running sv)
      (sv_key sv) (sv_socks sv) (sv_file sv) f (sv_clock sv) (sv_tick sv)).

End Invariant.
