(* ===== verification/PyStr.v ===== *)
(** Facts about [int(str)] and [str(int)]: stripping clean text, digit strings, and
    the round trip of an integer through its decimal form. *)

From stdpp Require Import base list strings.
From Stdlib Require Import ZArith Lia Bool String.
From S2P Require Import Prelude PyFloat PyText PyVal.
Open Scope Z_scope.

(** Text without white space. *)
Definition unspaced (s : pystr) : Prop := Forall (fun c => is_space c = false) s.

Lemma lstrip_unspaced s : unspaced s -> lstrip_if is_space s = s.
Proof. unfold unspaced. destruct s as [|c s]; [intros; reflexivity|]. intros [Hc _]%Forall_cons. simpl. by rewrite Hc. Qed.

Lemma strip_unspaced s : unspaced s -> strip s = s.
Proof.
  intros Hs. unfold strip, rstrip_if. rewrite (lstrip_unspaced s) by done.
  rewrite lstrip_unspaced; [apply rev_involutive|]. unfold unspaced in *. by apply Forall_rev in Hs.
Qed.

Lemma digit_unspaced c : is_digit_char c -> is_space c = false.
Proof. unfold is_digit_char, is_space. intros H. lia. Qed.

Lemma nat_str_digits n : 0 <= n -> Forall is_digit_char (nat_str n) /\ nat_str n <> [] /\ digits_val (nat_str n) = n.
Proof. intros Hn. by destruct (nat_str_spec n Hn) as (ds & -> & H1 & H2 & H3 & _). Qed.

Lemma int_str_chars z : Forall (fun c => c = 45 \/ is_digit_char c) (int_str z).
Proof.
  unfold int_str. destruct (z <? 0) eqn:E.
  - constructor; [by left|]. destruct (nat_str_digits (- z)) as [H _]; [lia|].
    eapply Forall_impl; [exact H|]. by right.
  - destruct (nat_str_digits z) as [H _]; [lia|]. eapply Forall_impl; [exact H|]. by right.
Qed.

Lemma int_str_unspaced z : unspaced (int_str z).
Proof.
  eapply Forall_impl; [apply int_str_chars|]. intros c [->|H]; [done|by apply digit_unspaced].
Qed.

Section Ints.
Context {U : PyUnicode} {L : PyUnicodeLaws U}.

Lemma grouped_digits_digits ds b : Forall is_digit_char ds -> ds <> [] \/ b = true -> grouped_digits b ds = Some ds.
Proof.
  intros H. revert b. induction H as [|c ds Hc _ IH]; intros b Hb; simpl; [by destruct Hb as [?| ->]|].
  unfold is_digit_char in Hc. rewrite uc_decimal_ascii by (unfold is_ascii; lia).
  assert (ascii_digit c = true) as -> by (unfold ascii_digit; lia).
  rewrite IH by auto. do 2 f_equal. lia.
Qed.

Lemma split_sign_digits ds : Forall is_digit_char ds -> split_sign ds = (false, ds).
Proof.
  intros [|c ds' Hc _]; [done|]. unfold is_digit_char in Hc. simpl.
  rewrite !(proj2 (Z.eqb_neq _ _)) by lia. done.
Qed.

Lemma int_of_digits ds : Forall is_digit_char ds -> ds <> [] -> zlen ds <= max_str_digits ->
  int_of_str ds = Ok (digits_val ds).
Proof.
  intros Hd Hne Hl. unfold int_of_str. rewrite strip_unspaced.
  - rewrite split_sign_digits, grouped_digits_digits by auto. by rewrite (proj2 (Z.ltb_ge _ _)).
  - eapply Forall_impl; [exact Hd|]. apply digit_unspaced.
Qed.

(** Printing then reading an integer of at most 4300 digits. *)
Lemma int_of_int_str z : zlen (nat_str (Z.abs z)) <= max_str_digits -> int_of_str (int_str z) = Ok z.
Proof.
  intros Hl. unfold int_of_str. rewrite strip_unspaced by apply int_str_unspaced. unfold int_str.
  destruct (z <? 0) eqn:E.
  - destruct (nat_str_digits (- z)) as (H1 & H2 & H3); [lia|].
    cbn [split_sign]. change (45 =? 45) with true. cbv iota. rewrite grouped_digits_digits by auto.
    rewrite H3. rewrite Z.abs_neq in Hl by lia. rewrite (proj2 (Z.ltb_ge _ _)) by done. f_equal. lia.
  - destruct (nat_str_digits z) as (H1 & H2 & H3); [lia|].
    rewrite split_sign_digits, grouped_digits_digits by auto. rewrite H3.
    rewrite Z.abs_eq in Hl by lia. by rewrite (proj2 (Z.ltb_ge _ _)).
Qed.
End Ints.

(** More [str] methods: [split] with a separator and on white space, lines of a text
    file, prefixes, and the dotted form of an IPv4 address, with their facts. *)
(** [s.split(sep)] for a one-character separator. *)
Fixpoint split_on (sep : Z) (s : pystr) : list pystr :=
  match s with
  | [] => [[]]
  | c :: s' =>
      if c =? sep then [] :: split_on sep s'
      else match split_on sep s' with
           | [] => [[c]]
           | w :: ws => (c :: w) :: ws
           end
  end.

(** [s.split()]: the words between white space; [word] is the current one,
    reversed. *)
Fixpoint words_acc (word : pystr) (s : pystr) : list pystr :=
  match s with
  | [] => match word with [] => [] | _ => [rev word] end
  | c :: s' =>
      if is_space c then match word with [] => words_acc [] s' | _ => rev word :: words_acc [] s' end
      else words_acc (c :: word) s'
  end.
Definition words (s : pystr) : list pystr := words_acc [] s.

(** Universal newlines: a text file's carriage returns become newlines. *)
Fixpoint universal (s : pystr) : pystr :=
  match s with
  | [] => []
  | c :: s' => if c =? 13 then 10 :: match s' with d :: s'' => if d =? 10 then universal s'' else universal s' | [] => [] end
               else c :: universal s'
  end.

(** The lines of a text file, without their ends. *)
Definition file_lines (s : pystr) : list pystr :=
  match rev (split_on 10 (universal s)) with
  | [] :: ls => rev ls
  | ls => rev ls
  end.

Fixpoint starts_with (p s : pystr) : bool :=
  match p, s with
  | [], _ => true
  | a :: p', b :: s' => (a =? b) && starts_with p' s'
  | _ :: _, [] => false
  end.

(** [p in s]. *)
Fixpoint has_sub (p s : pystr) : bool :=
  starts_with p s || match s with [] => false | _ :: s' => has_sub p s' end.

Definition rstrip_char (c : Z) (s : pystr) : pystr := rstrip_if (Z.eqb c) s.

(** [socket.inet_ntoa] of four bytes. *)
Definition inet_ntoa (b : bytes) : res pystr :=
  if zlen b =? 4 then Ok (join_with [46] (List.map int_str b)) else Exc OSError.

(** ** Facts *)

Definition lacks (c : Z) (s : pystr) : Prop := Forall (fun x => x <> c) s.

Lemma split_on_nonempty sep s : split_on sep s <> [].
Proof. destruct s as [|c s]; simpl; [done|]. destruct (c =? sep); [done|]. by destruct (split_on sep s). Qed.

Lemma split_on_lacks sep s : lacks sep s -> split_on sep s = [s].
Proof.
  induction 1 as [|c s Hc _ IH]; simpl; [done|]. rewrite (proj2 (Z.eqb_neq _ _)) by done. by rewrite IH.
Qed.

Lemma split_on_cons sep w s : lacks sep w -> split_on sep (w ++ sep :: s) = w :: split_on sep s.
Proof.
  induction 1 as [|c w Hc _ IH]; simpl; [by rewrite Z.eqb_refl|].
  rewrite (proj2 (Z.eqb_neq _ _)) by done. by rewrite IH.
Qed.

Lemma join_cons sep x (l : list pystr) : l <> [] -> join_with sep (x :: l) = x ++ sep ++ join_with sep l.
Proof. by destruct l. Qed.

(** Splitting undoes joining, and joining undoes splitting. *)
Lemma split_join sep (ws : list pystr) : ws <> [] -> Forall (lacks sep) ws -> split_on sep (join_with [sep] ws) = ws.
Proof.
  induction ws as [|w ws IH]; [done|]. intros _ [Hw Hws]%Forall_cons. destruct ws as [|w2 ws].
  - by apply split_on_lacks.
  - rewrite join_cons by done. cbn [app]. rewrite split_on_cons by done. by rewrite IH.
Qed.

Lemma join_split sep s : join_with [sep] (split_on sep s) = s.
Proof.
  induction s as [|c s IH]; simpl; [done|]. pose proof (split_on_nonempty sep s) as Hne.
  destruct (Z.eqb_spec c sep) as [->|Hc].
  - rewrite join_cons by done. simpl. by rewrite IH.
  - destruct (split_on sep s) as [|w ws]; [done|]. destruct ws as [|w2 ws].
    + simpl in *. by rewrite IH.
    + rewrite join_cons in * by done. simpl in *. by rewrite IH.
Qed.

Lemma split_on_words sep s : Forall (lacks sep) (split_on sep s).
Proof.
  induction s as [|c s IH]; simpl; [repeat constructor|]. destruct (Z.eqb_spec c sep) as [->|Hc].
  - constructor; [constructor|done].
  - destruct (split_on sep s) as [|w ws]; [repeat constructor; done|]. apply Forall_cons in IH as [H1 H2].
    constructor; [by constructor|done].
Qed.

Lemma split_on_Forall (P : Z -> Prop) sep s : Forall P s -> Forall (Forall P) (split_on sep s).
Proof.
  induction 1 as [|c s Hc _ IH]; simpl; [repeat constructor|]. destruct (c =? sep); [by constructor; [constructor|]|].
  destruct (split_on sep s) as [|w ws]; [by repeat constructor|]. apply Forall_cons in IH as [H1 H2].
  constructor; [by constructor|done].
Qed.

(** The words of a line of unspaced words. *)
Lemma words_unspaced w rest : unspaced w -> w <> [] -> (forall c s, rest = c :: s -> is_space c = true) ->
  words (w ++ rest) = w :: words rest.
Proof.
  unfold words. intros Hw Hne Hr.
  assert (H : forall acc, Forall (fun c => is_space c = false) w ->
    words_acc acc (w ++ rest) = words_acc (rev w ++ acc) rest).
  { clear Hw Hne. induction w as [|c w IH]; intros acc; [done|]. intros [Hc Hw]%Forall_cons.
    simpl. rewrite Hc, IH by done. by rewrite <- app_assoc. }
  rewrite H, app_nil_r by done. assert (Hrev : rev w <> []).
  { intros E. apply (f_equal (@rev Z)) in E. rewrite rev_involutive in E. done. }
  destruct rest as [|c s]; simpl.
  - destruct (rev w) eqn:E; [done|]. by rewrite <- E, rev_involutive.
  - rewrite (Hr c s eq_refl). destruct (rev w) eqn:E; [done|]. by rewrite <- E, rev_involutive.
Qed.

Lemma rstrip_keeps p s : s <> [] -> p (List.last s 0) = false -> rstrip_if p s = s.
Proof.
  intros Hs Hp. destruct (exists_last Hs) as (s' & c & ->). rewrite last_last in Hp.
  unfold rstrip_if. rewrite rev_app_distr. simpl. rewrite Hp. simpl. by rewrite rev_involutive.
Qed.

Lemma last_app_ne (a b : list Z) : b <> [] -> List.last (a ++ b) 0 = List.last b 0.
Proof.
  intros Hb. induction a as [|x a IH]; [done|]. cbn [app]. rewrite <- IH. simpl.
  destruct (a ++ b) eqn:E; [|done]. by apply app_eq_nil in E as [_ ?].
Qed.

Lemma last_Forall (P : Z -> Prop) s : s <> [] -> Forall P s -> P (List.last s 0).
Proof.
  intros Hs HP. destruct (exists_last Hs) as (t & c & ->). rewrite last_last.
  apply Forall_app in HP as [_ HP]. by apply Forall_cons in HP as [HP _].
Qed.
