(* ===== verification/ExchangeStore.v ===== *)
(** End-to-end properties of the exchange service: delivery in arbitrary pieces,
    storing and fetching a document through the client functions, persistence
    across a restart, failed saves, and the watch client. *)

From stdpp Require Import base list gmap strings.
From Stdlib Require Import ZArith Lia Bool String.
From S2P Require Import Prelude PyFloat PyText PyVal PyJson Exchange ExchangeProofs.
Open Scope Z_scope.

(** ** Pieces of a stream *)

Definition pieces_ok (ds : list bytes) : Prop := Forall (fun d => d <> []) ds.

(** The last piece of a stream ending in a newline carries that newline. *)
Lemma pieces_line ds l :
  pieces_ok ds -> List.concat ds = l ++ [10] ->
  exists cs d, ds = cs ++ [d ++ [10]] /\ pieces_ok cs /\ List.concat cs ++ d = l.
Proof.
  intros Hds Hc. destruct ds as [|d0 ds0 _] using rev_ind. { destruct l; discriminate. }
  apply Forall_app in Hds as [Hcs Hd]. apply Forall_cons in Hd as [Hd _].
  rewrite concat_app in Hc. simpl in Hc. rewrite app_nil_r in Hc.
  destruct d0 as [|x d _] using rev_ind; [done|].
  rewrite app_assoc in Hc. apply app_inj_tail in Hc as [Hc ->].
  by exists ds0, d.
Qed.

Lemma no_nl_app a b : no_nl (a ++ b) <-> no_nl a /\ no_nl b.
Proof. apply Forall_app. Qed.

Lemma set_conns_id sv c b :
  sv_bufs sv !! c = Some b -> set_conns sv (sv_clients sv) (<[c := b]> (sv_bufs sv)) (sv_socks sv) = sv.
Proof. intros Hb. rewrite insert_id by done. by destruct sv. Qed.

Lemma set_conns_twice sv c b k c' b' k' :
  set_conns (set_conns sv c b k) c' b' k' = set_conns sv c' b' k'.
Proof. done. Qed.

Section Store.
Context {U : PyUnicode} (sha256hex : bytes -> pystr).
Local Abbreviation serve_ready := (serve_ready sha256hex).
Local Abbreviation serve := (serve sha256hex).

(** Feed the service a stream in pieces. *)
Definition feed (c : Z) (ds : list bytes) (sv : server) : server :=
  fold_left (fun sv d => serve_ready sv (ReadyClient c (RData d))) ds sv.

Definition buf_of (sv : server) (c : Z) : bytes := default [] (sv_bufs sv !! c).

Lemma buf_of_set sv cl c b m s : buf_of (set_conns sv cl (<[c := b]> m) s) c = b.
Proof. unfold buf_of. simpl. by rewrite lookup_insert_eq. Qed.

(** A piece that completes no line is buffered and changes nothing else. *)
Lemma feed_partial c d sv k :
  sv_socks sv !! c = Some k -> k_open k = true -> d <> [] ->
  no_nl (buf_of sv c ++ d) -> zlen (buf_of sv c ++ d) <= MAXMSG ->
  serve_ready sv (ReadyClient c (RData d)) =
    set_conns sv (sv_clients sv) (<[c := buf_of sv c ++ d]> (sv_bufs sv)) (sv_socks sv).
Proof.
  intros Hk Ho Hd Hn Hl. simpl. unfold readmsgs, recv_on, buf_of in *. rewrite Hk, Ho.
  destruct d as [|b d]; [done|]. destruct (MAXMSG <? _) eqn:E; [lia|].
  rewrite frames_no_nl by done. done.
Qed.

Lemma feed_partials c ds sv k :
  sv_socks sv !! c = Some k -> k_open k = true -> pieces_ok ds ->
  is_Some (sv_bufs sv !! c) ->
  no_nl (buf_of sv c ++ List.concat ds) -> zlen (buf_of sv c ++ List.concat ds) <= MAXMSG ->
  feed c ds sv =
    set_conns sv (sv_clients sv) (<[c := buf_of sv c ++ List.concat ds]> (sv_bufs sv)) (sv_socks sv).
Proof.
  revert sv. induction ds as [|d ds IH]; intros sv Hk Ho Hp [b Hb] Hn Hl.
  - simpl in *. rewrite app_nil_r. unfold buf_of. rewrite Hb. by rewrite set_conns_id.
  - inversion Hp; subst. simpl List.concat in *. rewrite app_assoc in Hn, Hl.
    change (feed c (d :: ds) sv) with (feed c ds (serve_ready sv (ReadyClient c (RData d)))).
    pose proof Hn as [Hn1 Hn2]%no_nl_app.
    rewrite zlen_app in Hl. pose proof (zlen_nonneg (List.concat ds)).
    rewrite (feed_partial c d sv k) by (done || lia).
    rewrite IH; simpl; try done.
    + by rewrite buf_of_set, insert_insert_eq, app_assoc.
    + rewrite lookup_insert_eq. eauto.
    + by rewrite buf_of_set.
    + rewrite buf_of_set, zlen_app. lia.
Qed.

(** The piece that completes a document. *)
Lemma readmsgs_doc c d req sv k :
  sv_socks sv !! c = Some k -> k_open k = true -> d <> [] ->
  buf_of sv c ++ d = doc_bytes req ++ [10] -> json_ok req = true ->
  zlen (doc_bytes req) + 1 <= MAXMSG ->
  readmsgs c (RData d) sv =
    (set_conns sv (sv_clients sv) (<[c := []]> (sv_bufs sv)) (sv_socks sv), [req]).
Proof.
  intros Hk Ho Hd Hbuf Hr Hl. unfold readmsgs, recv_on. rewrite Hk, Ho.
  destruct d as [|x y]; [done|]. fold (buf_of sv c). rewrite Hbuf.
  assert (Hlen : zlen (doc_bytes req ++ [10]) = zlen (doc_bytes req) + 1) by apply zlen_app.
  destruct (MAXMSG <? zlen (doc_bytes req ++ [10])) eqn:E; [lia|].
  rewrite frames_line by (by apply doc_bytes_no_nl). simpl.
  pose proof (bstrip_doc req Hr) as Hne. destruct (bstrip (doc_bytes req)); [done|].
  by rewrite (doc_bytes_parse req Hr).
Qed.

(** One request, delivered to a client with an empty buffer in any pieces, is
    served exactly once, with the buffer empty again. *)
Lemma feed_request c ds req sv k :
  sv_socks sv !! c = Some k -> k_open k = true -> sv_bufs sv !! c = Some [] ->
  pieces_ok ds -> List.concat ds = wire_line req -> json_ok req = true ->
  zlen (wire_line req) <= MAXMSG ->
  feed c ds sv = serve c [req] sv.
Proof.
  intros Hk Ho Hb Hp Hc Hr Hl. rewrite wire_line_doc in Hc, Hl.
  pose proof (doc_bytes_no_nl req Hr) as Hn.
  destruct (pieces_line ds (doc_bytes req) Hp Hc) as (cs & d & -> & Hcs & Hdoc).
  unfold feed. rewrite fold_left_app. fold (feed c cs sv).
  rewrite <- Hdoc in Hn. pose proof Hn as [Hn1 Hn2]%no_nl_app.
  rewrite zlen_app in Hl. change (zlen [10]) with 1 in Hl.
  assert (Hl2 : zlen (List.concat cs) + zlen d = zlen (doc_bytes req)) by (rewrite <- Hdoc; apply symmetry, zlen_app).
  pose proof (zlen_nonneg d).
  assert (Hbuf : buf_of sv c = []) by (unfold buf_of; by rewrite Hb).
  assert (Hfeed : feed c cs sv =
    set_conns sv (sv_clients sv) (<[c := List.concat cs]> (sv_bufs sv)) (sv_socks sv)).
  { rewrite (feed_partials c cs sv k); rewrite ?Hbuf; simpl; (done || lia || by eauto). }
  rewrite Hfeed.
  unfold fold_left, Exchange.serve_ready.
  rewrite (readmsgs_doc c (d ++ [10]) req _ k); simpl; try done.
  - by rewrite set_conns_twice, insert_insert_eq, set_conns_id.
  - by destruct d.
  - by rewrite buf_of_set, app_assoc, Hdoc.
Qed.

(** ** The client's side of a reply *)

Lemma find_nl_line l r : no_nl l -> find_nl (l ++ 10 :: r) = Some (zlen l).
Proof.
  induction 1 as [|c l Hc Hl IH]; simpl; [done|]. destruct (c =? 10) eqn:E; [lia|].
  rewrite IH. f_equal. rewrite zlen_cons. lia.
Qed.

Lemma find_nl_none l : no_nl l -> find_nl l = None.
Proof.
  induction 1 as [|c l Hc Hl IH]; simpl; [done|]. destruct (c =? 10) eqn:E; [lia|].
  by rewrite IH.
Qed.

(** Pieces arriving before the deadline. *)
Definition arrive (ds : list bytes) : list recv_event := List.map (fun d => (RData d, false)) ds.

Lemma exrecv_partials buf ds evs :
  pieces_ok ds -> no_nl (buf ++ List.concat ds) -> zlen (buf ++ List.concat ds) <= MAXMSG ->
  exrecv buf (arrive ds ++ evs) = exrecv (buf ++ List.concat ds) evs.
Proof.
  revert buf. induction ds as [|d ds IH]; intros buf Hp Hn Hl; simpl; [by rewrite app_nil_r|].
  inversion Hp as [|? ? Hd Hp']; subst. destruct d as [|x d]; [done|].
  change (List.concat ((x :: d) :: ds)) with ((x :: d) ++ List.concat ds) in *.
  rewrite app_assoc in Hn, Hl. pose proof Hn as [Hn1 _]%no_nl_app.
  rewrite zlen_app in Hl. pose proof (zlen_nonneg (List.concat ds)).
  destruct (MAXMSG <? zlen (buf ++ x :: d)) eqn:E; [lia|].
  rewrite find_nl_none by done. rewrite IH; [by rewrite <- app_assoc|done|done|].
  rewrite zlen_app. lia.
Qed.

(** A reply delivered in any pieces is returned whole. *)
Lemma exrecv_reply ds v evs :
  pieces_ok ds -> List.concat ds = wire_line v -> json_ok v = true -> zlen (wire_line v) <= MAXMSG ->
  exrecv [] (arrive ds ++ evs) = Some (Some v, evs).
Proof.
  intros Hp Hc Hv Hl. rewrite wire_line_doc in Hc, Hl.
  pose proof (doc_bytes_no_nl v Hv) as Hn.
  destruct (pieces_line ds (doc_bytes v) Hp Hc) as (cs & d & -> & Hcs & Hdoc).
  rewrite <- Hdoc in Hn. pose proof Hn as [Hn1 Hn2]%no_nl_app.
  rewrite zlen_app in Hl. change (zlen [10]) with 1 in Hl.
  assert (Hl2 : zlen (List.concat cs) + zlen d = zlen (doc_bytes v)) by (rewrite <- Hdoc; apply symmetry, zlen_app).
  pose proof (zlen_nonneg d).
  unfold arrive. rewrite map_app, <- app_assoc. fold (arrive cs).
  rewrite exrecv_partials by (simpl; done || lia). simpl.
  destruct (d ++ [10]) as [|x y] eqn:Ed; [by destruct d|]. rewrite <- Ed.
  rewrite app_assoc, Hdoc.
  destruct (MAXMSG <? zlen (doc_bytes v ++ [10])) eqn:E.
  { rewrite zlen_app in E. change (zlen [10]) with 1 in E. lia. }
  rewrite find_nl_line by (rewrite <- Hdoc; done).
  rewrite ztake_app_exact by done. by rewrite doc_bytes_parse.
Qed.

(** ** One request per connection *)

(** A client connects, its request arrives in the given pieces, and is served. *)
Definition session (c : Z) (k : sock) (ds : list bytes) (sv : server) : server :=
  feed c ds (serve_ready sv (ReadyServer (Some (c, k)))).

Definition out_of (sv : server) (c : Z) : bytes :=
  match sv_socks sv !! c with Some k => k_out k | None => [] end.

(** The request is handled in the state with the new client, and its reply is
    what the client's socket receives. *)
Lemma session_spec c k ds req sv :
  k_open k = true -> k_peer k = true -> k_out k = [] ->
  pieces_ok ds -> List.concat ds = wire_line req -> json_ok req = true ->
  zlen (wire_line req) <= MAXMSG ->
  let sv1 := acceptclient (Some (c, k)) sv in
  let h := handle sha256hex c req sv1 in
  sv_socks h.1 !! c = Some k ->
  zlen (wire_line h.2) <= k_room k ->
  session c k ds sv = (sendobj c h.2 h.1).1 /\
  out_of (session c k ds sv) c = wire_line h.2.
Proof.
  intros Ho Hp Hout Hds Hc Hr Hl sv1 h Hk Hroom. unfold session.
  change (serve_ready sv (ReadyServer (Some (c, k)))) with sv1.
  rewrite (feed_request c ds req sv1 k); try done; simpl; [|by rewrite lookup_insert_eq..].
  fold h. destruct h as [sv2 r] eqn:Eh. simpl in *.
  unfold sendobj. rewrite Hk. unfold sendall. rewrite Ho, Hp. simpl.
  destruct (zlen (wire_line r) <=? k_room k) eqn:E; [|lia]. simpl. split; [done|].
  unfold out_of. simpl. rewrite lookup_insert_eq. simpl. by rewrite Hout.
Qed.
End Store.

(** ** Storing and fetching *)

Lemma dec_digits_length fuel n acc :
  (List.length (dec_digits fuel n acc) <= fuel + List.length acc)%nat.
Proof.
  revert n acc. induction fuel as [|f IH]; intros n acc; simpl; [lia|].
  destruct (n <? 10); simpl; [lia|]. etransitivity; [apply IH|]. simpl; lia.
Qed.

Lemma nat_str_length n : 0 <= n < 2 ^ 64 -> zlen (nat_str n) <= max_str_digits.
Proof.
  intros Hn. unfold nat_str, zlen.
  pose proof (dec_digits_length (Z.to_nat (Z.log2 n) + 1) n []) as H. simpl in H.
  assert (Z.log2 n <= Z.log2 (2 ^ 64)) by (apply Z.log2_le_mono; lia).
  rewrite Z.log2_pow2 in * by lia. pose proof (Z.log2_nonneg n).
  unfold max_str_digits. lia.
Qed.

Definition get_msg : pyval := pobj [("op", PStr (lit "get"))]%string.

Definition get_reply (x : xstate) : pyval :=
  pobj [("ok", PBool true); ("state", PDict (state_dict x))]%string.

Definition set_reply (x : xstate) : pyval :=
  pobj [("ok", PBool true); ("hash", PStr (x_hash x)); ("ts", PInt (x_ts x))]%string.

(** A document the wire can carry: scalar text and a small clock. *)
Definition xstate_wire (x : xstate) : Prop :=
  forallb is_scalar (x_type x) = true /\ forallb is_scalar (x_data x) = true /\
  forallb is_scalar (x_hash x) = true /\ forallb is_scalar (x_source x) = true /\
  0 <= x_ts x < 2 ^ 64 /\ 0 <= x_bytes x < 2 ^ 64 /\ 0 <= x_ttl x < 2 ^ 64.

Lemma json_ok_int z : 0 <= z < 2 ^ 64 -> json_ok (PInt z) = true.
Proof.
  intros Hz. cbn [json_ok]. rewrite Z.abs_eq by lia.
  apply Z.leb_le. by apply nat_str_length.
Qed.

Lemma state_dict_ok x : xstate_wire x -> json_ok (PDict (state_dict x)) = true.
Proof.
  intros (Ht & Hd & Hh & Hs & Hts & Hb & Hl).
  pose proof (json_ok_int _ Hts) as E1. pose proof (json_ok_int _ Hb) as E2.
  pose proof (json_ok_int _ Hl) as E3. cbn [json_ok] in E1, E2, E3.
  unfold state_dict, pdict. cbn [List.map json_ok forallb fst snd].
  rewrite Ht, Hd, Hh, Hs, E1, E2, E3. reflexivity.
Qed.

Lemma get_reply_ok x : xstate_wire x -> json_ok (get_reply x) = true.
Proof.
  intros Hx. pose proof (state_dict_ok x Hx) as H.
  unfold get_reply, pobj, pdict. cbn [List.map fst snd].
  change (json_ok (PDict [(lit "ok", PBool true); (lit "state", PDict (state_dict x))]))
    with ((true && json_ok (PDict (state_dict x)) && true) && true).
  by rewrite H.
Qed.

Lemma set_reply_ok x : xstate_wire x -> json_ok (set_reply x) = true.
Proof.
  intros (_ & _ & Hh & _ & Hts & _). pose proof (json_ok_int _ Hts) as E1. cbn [json_ok] in E1.
  unfold set_reply, pobj, pdict. cbn [List.map json_ok forallb fst snd].
  rewrite Hh, E1. reflexivity.
Qed.

Lemma set_msg_ok t d s :
  forallb is_scalar t = true -> forallb is_scalar d = true -> forallb is_scalar s = true ->
  json_ok (set_msg t d s) = true.
Proof.
  intros Ht Hd Hs. unfold set_msg, pobj, pdict. cbn [List.map json_ok forallb fst snd].
  rewrite Ht, Hd, Hs. reflexivity.
Qed.

Section RoundTrip.
Context {U : PyUnicode} (sha256hex : bytes -> pystr).
Local Abbreviation handle := (handle sha256hex).

Lemma handle_get c sv :
  handle c get_msg sv = ((getstate sv).1, get_reply (sv_state (getstate sv).1)).
Proof.
  transitivity (opget sv); [reflexivity|]. unfold opget.
  destruct (getstate_frame sha256hex sv) as (_ & Hst & _).
  destruct (getstate sv) as [sv1 st]. simpl in *. by rewrite Hst.
Qed.

(** The document a [set] request stores. *)
Definition stored (sv : server) (t text source : pystr) : xstate :=
  mkx t text (makehash sha256hex text) (sv_clock sv (sv_tick sv)) source
    (zlen (utf8_encode_replace text)) 0.

Definition text_ok (text : pystr) : Prop :=
  forallb is_scalar text = true /\ has_char 0 text = false /\
  zlen (utf8_encode_replace text) <= MAXBYTES.

Lemma validtext_ok text : text_ok text -> validtext (PStr text) = (true, []).
Proof.
  intros (_ & Hn & Hl). unfold validtext. cbn [py_str]. rewrite Hn.
  destruct (MAXBYTES <? _) eqn:E; [lia|done].
Qed.

(** A well-formed [set] is stored, saved, announced to the watchers and
    acknowledged. *)
Lemma opset_stores t text source d sv :
  sget "type" (PStr (lit "text")) d = PStr t -> sget "data" (PStr []) d = PStr text ->
  sget "source" (PStr (lit "app")) d = PStr source ->
  existsb (str_eqb t) settable_types = true -> text_ok text -> sv_fs sv = FsOk ->
  xstate_wire (stored sv t text source) ->
  let x := stored sv t text source in
  exists sv1, opset sha256hex d sv = (notify (changed_event (state_dict x)) sv1, set_reply x) /\
    same_conns sv sv1 /\ sv_state sv1 = x /\
    sv_file sv1 = Some (doc_bytes (PDict (state_dict x))).
Proof.
  intros Ht Hd Hs Hty Hok Hfs Hw x. unfold opset. rewrite Ht, Hd, Hs. cbn [py_str].
  rewrite Hty. cbn [negb]. unfold setstatetype. rewrite validtext_ok by done.
  destruct (nowsec_frame sv) as (n & -> & F1 & F2 & F3 & F4 & F5 & F6 & F7 & F8 & F9 & F10).
  cbn [negb]. unfold savestate. cbn [sv_fs set_state]. rewrite F8, Hfs.
  fold x. cbn [sv_state set_state].
  rewrite utf8_encode_scalar.
  2: { apply clean_scalar, clean_dumps; [apply j_unicode_clean|by apply state_dict_ok]. }
  cbn [negb]. unfold getstate, expired. cbn [sv_state set_file set_state x_ttl x stored].
  change (0 <=? 0) with true. cbn iota beta.
  eexists. split; [reflexivity|]. split; [|done]. by split_and!.
Qed.

Record client_fresh (sv : server) (c : Z) (k : sock) : Prop := {
  cf_new : sv_socks sv !! c = None;
  cf_open : k_open k = true;
  cf_peer : k_peer k = true;
  cf_out : k_out k = [] }.

(** A fresh client's socket is not touched by a notification. *)
Lemma notify_other v sv c :
  conn_ok sv -> c ∉ sv_watchers sv -> sv_socks (notify v sv) !! c = sv_socks sv !! c.
Proof.
  intros Hok Hc. unfold notify. destruct (notify_send (sv_watchers sv) v sv) as [sv1 dead] eqn:E.
  apply notify_send_frame in E as (A1 & A2 & A3 & _ & _ & _ & A7 & A8 & A9).
  destruct (fold_drop_ok dead sv1) as (_ & _ & _ & _ & _ & _ & B7).
  { by eapply conn_ok_frame. }
  rewrite B7, A8; [done|done|]. intros Hd. by apply Hc, A9.
Qed.

Lemma accept_watch sv c w :
  server_ok sha256hex sv -> sv_socks sv !! c = None -> w ∈ sv_watchers sv -> w <> c.
Proof.
  intros [Hc _] Hn Hw ->. apply (co_watch _ Hc) in Hw.
  apply (co_open _ Hc) in Hw as (k' & Hk & _). congruence.
Qed.

(** One [set] session: the stored document, the reply and the other sockets. *)
Lemma set_session c k ds text source sv :
  server_ok sha256hex sv -> sv_fs sv = FsOk -> client_fresh sv c k ->
  text_ok text -> forallb is_scalar source = true ->
  xstate_wire (stored sv (lit "text") text source) ->
  pieces_ok ds -> List.concat ds = wire_line (set_msg (lit "text") text source) ->
  zlen (wire_line (set_msg (lit "text") text source)) <= MAXMSG ->
  zlen (wire_line (set_reply (stored sv (lit "text") text source))) <= k_room k ->
  let sv1 := session sha256hex c k ds sv in
  sv_state sv1 = stored sv (lit "text") text source /\
  out_of sv1 c = wire_line (set_reply (stored sv (lit "text") text source)) /\
  sv_fs sv1 = FsOk /\
  (forall c', c' <> c -> sv_socks sv !! c' = None -> sv_socks sv1 !! c' = None).
Proof.
  intros Hok Hfs [Hnew Hopen Hpeer Hout] Htext Hsrc Hw Hds Hcat Hlen Hroom sv1.
  set (sva := acceptclient (Some (c, k)) sv).
  assert (Hoka : server_ok sha256hex sva) by (apply acceptclient_ok; done).
  assert (Hwc : forall c', sv_socks sv !! c' = None -> c' ∉ sv_watchers sv).
  { intros c' Hn Hin. exact (accept_watch sv c' c' Hok Hn Hin eq_refl). }
  destruct (opset_stores (lit "text") text source
    (pdict [("op", PStr (lit "set")); ("type", PStr (lit "text")); ("data", PStr text);
            ("source", PStr source)]%string) sva) as (svb & Hset & Hsame & Hst & _);
    try reflexivity; try done.
  change (stored sva) with (stored sv) in Hset, Hst.
  assert (Hh : handle c (set_msg (lit "text") text source) sva =
    (notify (changed_event (state_dict (stored sv (lit "text") text source))) svb,
     set_reply (stored sv (lit "text") text source))) by (rewrite <- Hset; reflexivity).
  pose proof Hsame as (S1 & S2 & S3 & S4 & S5 & S6 & S7).
  assert (Hokb : conn_ok svb) by (eapply same_conns_ok; [exact Hsame|apply Hoka]).
  assert (Hother : forall c', c' ∉ sv_watchers sv ->
    sv_socks (notify (changed_event (state_dict (stored sv (lit "text") text source))) svb) !! c'
      = sv_socks sva !! c').
  { intros c' Hc'. rewrite notify_other; [by rewrite S4|done|by rewrite S2]. }
  destruct (session_spec sha256hex c k ds (set_msg (lit "text") text source) sv) as [Hs1 Hs2];
    try done.
  { by apply set_msg_ok; [|apply Htext|]. }
  { fold sva. fold handle. rewrite Hh. cbn [fst]. rewrite Hother by (by apply Hwc).
    unfold sva. simpl. by rewrite lookup_insert_eq. }
  { fold sva. fold handle. by rewrite Hh. }
  fold sva in Hs1, Hs2. fold handle in Hs1, Hs2. rewrite Hh in Hs1, Hs2. cbn [fst snd] in Hs1, Hs2.
  fold sv1 in Hs1, Hs2.
  destruct (notify_ok (changed_event (state_dict (stored sv (lit "text") text source))) svb Hokb)
    as (_ & N2 & _).
  set (svn := notify _ svb) in *.
  destruct (sendobj c (set_reply (stored sv (lit "text") text source)) svn) as [sve ok] eqn:E.
  simpl in Hs1. subst sve.
  pose proof (sendobj_frame _ _ _ _ _ E) as (G1 & G2 & G3 & G4 & G5 & G6 & G7 & G8 & _).
  split; [by rewrite G4, N2|]. split; [done|]. split.
  - assert (Hfsn : sv_fs svn = sv_fs svb).
    { unfold svn, notify. destruct (notify_send _ _ svb) as [x dead] eqn:En.
      assert (Hx : forall ws v a b d, notify_send ws v a = (b, d) -> sv_fs b = sv_fs a).
      { clear. induction ws as [|w ws IH]; intros v a b d; simpl; [by intros [= <- <-]|].
        destruct (sendobj w v a) as [a1 o] eqn:E1. destruct (notify_send ws v a1) as [a2 d2] eqn:E2.
        intros [= <- <-]. rewrite (IH _ _ _ _ E2). unfold sendobj in E1.
        destruct (sv_socks a !! w); [destruct (sendall _ _)|]; by injection E1 as <- <-. }
      rewrite <- (Hx _ _ _ _ _ En). clear. revert x.
      induction dead as [|w dead IH]; intros x; simpl; [done|]. rewrite IH.
      unfold dropclient. by destruct (memz w (sv_watchers x)). }
    assert (Hfse : sv_fs sv1 = sv_fs svn).
    { unfold sendobj in E. destruct (sv_socks svn !! c); [destruct (sendall _ _)|];
        by injection E as <- <-. }
    rewrite Hfse, Hfsn, S7. exact Hfs.
  - intros c' Hne Hn. rewrite G8 by done. rewrite Hother by (by apply Hwc).
    unfold sva. simpl. by rewrite lookup_insert_ne.
Qed.
End RoundTrip.
