(* ===== verification/ExchangeFraming.v ===== *)
(** Delivery of a request stream: how the kernel cuts the stream into pieces
    does not change what the service does.  The proof shows that the handlers
    do not look at the requesting client's read buffer. *)

From stdpp Require Import base list gmap strings.
From Stdlib Require Import ZArith Lia Bool String.
From S2P Require Import Prelude PyFloat PyText PyVal PyJson Exchange ExchangeProofs ExchangeStore.
Open Scope Z_scope.

(** Replace the buffer of a client, if it has one. *)
Definition setbuf (c : Z) (b : bytes) (sv : server) : server :=
  set_conns sv (sv_clients sv) (alter (fun _ => b) c (sv_bufs sv)) (sv_socks sv).

Definition on_fst {A} (c : Z) (b : bytes) (p : server * A) : server * A := (setbuf c b p.1, p.2).

Lemma setbuf_setbuf c b b' sv : setbuf c b (setbuf c b' sv) = setbuf c b sv.
Proof.
  unfold setbuf, set_conns. simpl. f_equal. apply map_eq. intros i.
  destruct (decide (i = c)) as [->|Hi].
  - rewrite !lookup_alter_eq. by destruct (_ !! c).
  - by rewrite !lookup_alter_ne.
Qed.

Lemma setbuf_insert c b sv : is_Some (sv_bufs sv !! c) ->
  setbuf c b sv = set_conns sv (sv_clients sv) (<[c := b]> (sv_bufs sv)) (sv_socks sv).
Proof.
  intros [x Hx]. unfold setbuf. f_equal. apply map_eq. intros i.
  destruct (decide (i = c)) as [->|Hi].
  - by rewrite lookup_alter_eq, lookup_insert_eq, Hx.
  - by rewrite lookup_alter_ne, lookup_insert_ne.
Qed.

Lemma setbuf_gone c b sv : sv_bufs sv !! c = None -> setbuf c b sv = sv.
Proof.
  intros Hc. unfold setbuf. replace (alter (fun _ => b) c (sv_bufs sv)) with (sv_bufs sv).
  - by destruct sv.
  - apply map_eq. intros i. destruct (decide (i = c)) as [->|Hi].
    + by rewrite lookup_alter_eq, Hc.
    + by rewrite lookup_alter_ne.
Qed.

Lemma sendobj_setbuf c b w v sv : sendobj w v (setbuf c b sv) = on_fst c b (sendobj w v sv).
Proof. unfold sendobj, on_fst. simpl. destruct (sv_socks sv !! w) as [k|]; [destruct (sendall _ _)|]; done. Qed.

Lemma dropclient_setbuf c b w sv : dropclient w (setbuf c b sv) = setbuf c b (dropclient w sv).
Proof.
  unfold dropclient. simpl. destruct (memz w (sv_watchers sv)); unfold setbuf, set_conns; simpl;
    (f_equal; apply map_eq; intros i; destruct (decide (i = c)) as [->|Hi], (decide (w = c)) as [->|Hw];
     rewrite ?lookup_alter_eq, ?lookup_alter_ne, ?lookup_delete_eq, ?lookup_delete_ne,
       ?lookup_alter_eq, ?lookup_alter_ne by done; try done; destruct (decide (w = i)) as [->|];
     rewrite ?lookup_alter_eq, ?lookup_alter_ne, ?lookup_delete_eq, ?lookup_delete_ne,
       ?lookup_alter_eq, ?lookup_alter_ne by done; done).
Qed.

Lemma fold_drop_setbuf c b ws sv :
  fold_left (fun sv w => dropclient w sv) ws (setbuf c b sv) =
  setbuf c b (fold_left (fun sv w => dropclient w sv) ws sv).
Proof.
  revert sv. induction ws as [|w ws IH]; intros sv; simpl; [done|]. by rewrite dropclient_setbuf, IH.
Qed.

Lemma notify_send_setbuf c b ws v sv :
  notify_send ws v (setbuf c b sv) = on_fst c b (notify_send ws v sv).
Proof.
  revert sv. induction ws as [|w ws IH]; intros sv; simpl; [done|].
  rewrite sendobj_setbuf. destruct (sendobj w v sv) as [s1 o]. unfold on_fst at 1. simpl.
  rewrite IH. by destruct (notify_send ws v s1).
Qed.

Lemma notify_setbuf c b v sv : notify v (setbuf c b sv) = setbuf c b (notify v sv).
Proof.
  unfold notify. change (sv_watchers (setbuf c b sv)) with (sv_watchers sv).
  rewrite notify_send_setbuf. destruct (notify_send (sv_watchers sv) v sv). simpl.
  apply fold_drop_setbuf.
Qed.

Section Commute.
Context {U : PyUnicode}.

Lemma savestate_setbuf c b sv : savestate (setbuf c b sv) = on_fst c b (savestate sv).
Proof.
  unfold savestate. change (sv_fs (setbuf c b sv)) with (sv_fs sv).
  change (sv_state (setbuf c b sv)) with (sv_state sv).
  destruct (sv_fs sv); cbv zeta; try destruct (utf8_encode _); reflexivity.
Qed.

Lemma expired_setbuf c b sv : expired (setbuf c b sv) = on_fst c b (expired sv).
Proof.
  unfold expired. simpl. destruct (x_ttl _ <=? 0); [done|]. by destruct (x_ts _ <=? 0).
Qed.

Lemma clearstate_setbuf c b s sv : clearstate s (setbuf c b sv) = on_fst c b (clearstate s sv).
Proof.
  unfold clearstate. simpl.
  match goal with |- context [savestate ?x] => change x with
    (setbuf c b (set_state (nowsec sv).1 (mkx (lit "empty") [] [] (nowsec sv).2 s 0 0))) end.
  rewrite savestate_setbuf. simpl.
  by match goal with |- context [savestate ?x] => destruct (savestate x) as [? []] end.
Qed.

Lemma getstate_setbuf c b sv : getstate (setbuf c b sv) = on_fst c b (getstate sv).
Proof.
  unfold getstate. rewrite expired_setbuf. destruct (expired sv) as [s1 []]; simpl; [|done].
  by rewrite clearstate_setbuf.
Qed.
End Commute.

Section Framing.
Context {U : PyUnicode} (sha256hex : bytes -> pystr).
Local Abbreviation handle := (handle sha256hex).
Local Abbreviation serve := (serve sha256hex).
Local Abbreviation feed := (feed sha256hex).

Lemma setstatetype_setbuf c b t x s sv :
  setstatetype sha256hex t x s (setbuf c b sv) = on_fst c b (setstatetype sha256hex t x s sv).
Proof.
  unfold setstatetype. destruct (validtext _) as [ok err]. destruct ok; simpl; [|done].
  match goal with |- context [savestate ?y] => change y with
    (setbuf c b (set_state (nowsec sv).1 (mkx t x (makehash sha256hex x) (nowsec sv).2 s (zlen (utf8_encode_replace x)) 0))) end.
  rewrite savestate_setbuf. simpl.
  by match goal with |- context [savestate ?y] => destruct (savestate y) as [? []] end.
Qed.

Ltac commute_getstate :=
  rewrite getstate_setbuf;
  match goal with |- context [getstate ?s] => destruct (getstate s) as [? ?] end;
  unfold on_fst; cbn [fst snd].

(** No handler reads or writes the buffer of a client that stays connected. *)
Lemma handle_setbuf c b cli msg sv : handle cli msg (setbuf c b sv) = on_fst c b (handle cli msg sv).
Proof.
  unfold Exchange.handle. change (allowed (setbuf c b sv) msg) with (allowed sv msg).
  destruct (negb (allowed sv msg)); [done|].
  destruct msg as [| | | | | |d]; try done.
  destruct (str_eqb (msg_op d) (lit "ping")).
  { unfold opping. commute_getstate. done. }
  destruct (str_eqb (msg_op d) (lit "get")).
  { unfold opget. commute_getstate. done. }
  destruct (str_eqb (msg_op d) (lit "meta")).
  { unfold opmeta. commute_getstate. done. }
  destruct (str_eqb (msg_op d) (lit "set")).
  { unfold opset. split_if; [done|]. rewrite setstatetype_setbuf.
    match goal with |- context [setstatetype sha256hex ?t ?x ?s sv] =>
      destruct (setstatetype sha256hex t x s sv) as [s1 [[] e]] end;
      unfold on_fst at 1; cbn [fst snd negb]; [|done].
    commute_getstate. by rewrite notify_setbuf. }
  destruct (str_eqb (msg_op d) (lit "clear")).
  { unfold opclear. rewrite clearstate_setbuf.
    match goal with |- context [clearstate ?s sv] => destruct (clearstate s sv) as [s1 [[] e]] end;
      unfold on_fst at 1; cbn [fst snd negb]; [|done].
    commute_getstate. by rewrite notify_setbuf. }
  destruct (str_eqb (msg_op d) (lit "watch")).
  { unfold opwatch. change (sv_watchers (setbuf c b sv)) with (sv_watchers sv).
    destruct (memz cli (sv_watchers sv)).
    - commute_getstate. rewrite sendobj_setbuf. by match goal with |- context [sendobj ?x ?y ?z] => destruct (sendobj x y z) end.
    - change (set_watchers (setbuf c b sv) (sv_watchers sv ++ [cli]))
        with (setbuf c b (set_watchers sv (sv_watchers sv ++ [cli]))).
      commute_getstate. rewrite sendobj_setbuf. by match goal with |- context [sendobj ?x ?y ?z] => destruct (sendobj x y z) end. }
  destruct (str_eqb (msg_op d) (lit "unwatch")).
  { unfold opunwatch. change (sv_watchers (setbuf c b sv)) with (sv_watchers sv).
    by destruct (memz cli (sv_watchers sv)). }
  by destruct (str_eqb (msg_op d) (lit "shutdown")).
Qed.

Lemma serve_setbuf c b cli msgs sv : serve cli msgs (setbuf c b sv) = setbuf c b (serve cli msgs sv).
Proof.
  revert sv. induction msgs as [|m msgs IH]; intros sv; simpl; [done|].
  rewrite handle_setbuf. destruct (handle cli m sv) as [s1 r]. unfold on_fst. simpl.
  rewrite sendobj_setbuf. destruct (sendobj cli r s1) as [s2 []]; unfold on_fst; simpl.
  - apply IH.
  - apply dropclient_setbuf.
Qed.
End Framing.

(** ** Cutting a stream of documents *)

Definition stream (reqs : list pyval) : bytes := List.concat (List.map wire_line reqs).

(** The documents of a request stream: each leaves room for one more [recv]. *)
Definition RECV : Z := 8192.
Definition req_ok (m : pyval) : Prop := json_ok m = true /\ zlen (wire_line m) + RECV <= MAXMSG.
Definition piece_ok (d : bytes) : Prop := d <> [] /\ zlen d <= RECV.

(** Splitting [l ++ [10] ++ s] at any point: inside [l], or after the newline. *)
Lemma split_line (p q l s : bytes) :
  p ++ q = (l ++ [10]) ++ s ->
  (exists t, l = p ++ t /\ q = t ++ [10] ++ s) \/ (exists p', p = (l ++ [10]) ++ p' /\ p' ++ q = s).
Proof.
  revert p. induction l as [|x l IH]; intros p H; simpl in *.
  - destruct p as [|y p]; simpl in *; [left; by exists []|].
    injection H as -> <-. right. by exists p.
  - destruct p as [|y p]; simpl in *.
    + left. exists (x :: l). split; [done|]. by rewrite H, <- app_assoc.
    + injection H as -> H. destruct (IH p H) as [(t & -> & ->)|(p' & -> & Hp)].
      * left. by exists t.
      * right. by exists p'.
Qed.

(** Cut a stream of documents anywhere: the part before holds whole documents
    and the beginning of the next one. *)
Lemma stream_split reqs p q :
  Forall req_ok reqs -> p ++ q = stream reqs ->
  exists r1 r2, reqs = r1 ++ r2 /\ frames p = (List.map doc_bytes r1, (frames p).2) /\
    (frames p).2 ++ q = stream r2 /\
    (forall d, zlen d <= RECV -> zlen ((frames p).2 ++ d) <= MAXMSG).
Proof.
  intros Hr. revert p. induction Hr as [|m reqs [Hm Hl] Hr IH]; intros p H.
  - destruct p; [|done]. exists [], []. split_and!; [done|done|done|].
    intros d Hd. simpl. unfold RECV, MAXMSG in *. lia.
  - unfold stream in H. simpl in H. rewrite wire_line_doc in H. fold (stream reqs) in H.
    pose proof (doc_bytes_no_nl m Hm) as Hn.
    destruct (split_line _ _ _ _ H) as [(t & E & ->)|(p' & -> & Hp)].
    + rewrite E in Hn. apply no_nl_app in Hn as [Hn _].
      exists [], (m :: reqs). rewrite frames_no_nl by done. split_and!; [done|done| |].
      * unfold stream. simpl. rewrite wire_line_doc, E. cbn [snd]. by rewrite <- !app_assoc.
      * intros d Hd. rewrite wire_line_doc, E, !zlen_app in Hl. cbn [snd]. rewrite zlen_app.
        pose proof (zlen_nonneg t). change (zlen [10]) with 1 in Hl. lia.
    + destruct (IH p' Hp) as (r1 & r2 & -> & Hf & Hs & Hb).
      exists (m :: r1), r2. rewrite <- app_assoc. simpl ([10] ++ p').
      rewrite frames_line by done. rewrite Hf. cbn [fst snd]. by split_and!.
Qed.

Lemma readlines_docs {U : PyUnicode} c reqs sv :
  Forall req_ok reqs -> readlines c (List.map doc_bytes reqs) sv = (sv, reqs).
Proof.
  induction 1 as [|m reqs [Hm _] Hr IH]; simpl; [done|].
  pose proof (bstrip_doc m Hm). destruct (bstrip (doc_bytes m)); [done|].
  by rewrite doc_bytes_parse, IH.
Qed.

Lemma sendobj_ok_open c v sv s : sendobj c v sv = (s, true) -> sock_open s c.
Proof.
  unfold sendobj. destruct (sv_socks sv !! c) as [k|]; [|done].
  destruct (sendall k (wire_line v)) as [k' ok] eqn:E. intros [= <- ->].
  exists k'. simpl. rewrite lookup_insert_eq. split; [done|].
  unfold sendall in E. destruct (k_open k); simpl in E; [|by injection E as _ ?].
  destruct (k_peer k); simpl in E; [|by injection E as _ ?].
  destruct (_ <=? _); by injection E as <-.
Qed.

Lemma dropclient_closed c sv : ~ sock_open (dropclient c sv) c.
Proof.
  intros (k & Hk & Ho). unfold dropclient in Hk.
  destruct (memz c (sv_watchers sv)); cbn [set_conns set_watchers sv_socks] in Hk;
    rewrite lookup_alter_eq in Hk; destruct (sv_socks sv !! c); try done; by injection Hk as <-.
Qed.

(** Dropping a client that is gone changes nothing. *)
Lemma dropclient_gone c sv : conn_ok sv -> ~ sock_open sv c -> dropclient c sv = sv.
Proof.
  intros Hok Hc. assert (Hcl : c ∉ sv_clients sv) by (intros ?%(co_open _ Hok); done).
  assert (Hw : c ∉ sv_watchers sv) by (intros ?%(co_watch _ Hok); done).
  unfold dropclient.
  destruct (memz c (sv_watchers sv)) eqn:E1; [by apply memz_spec in E1|].
  destruct (memz c (sv_clients sv)) eqn:E2; [by apply memz_spec in E2|].
  destruct sv as [x cl b w r k s f fs ck t]. unfold set_conns. simpl in *. f_equal.
  - apply delete_id. destruct (b !! c) eqn:Eb; [|done].
    exfalso. apply Hcl, (co_bufs _ Hok). simpl. eauto.
  - apply map_eq. intros i. destruct (decide (i = c)) as [->|Hi]; [|by rewrite lookup_alter_ne].
    rewrite lookup_alter_eq. destruct (s !! c) as [[o p q u]|] eqn:Es; [|done]. simpl.
    destruct o; [|done]. exfalso. apply Hc. exists (mksock true p q u). by split.
Qed.

Section Stream.
Context {U : PyUnicode} (sha256hex : bytes -> pystr).
Local Abbreviation serve := (serve sha256hex).
Local Abbreviation feed := (feed sha256hex).

Lemma serve_app c a b sv :
  sock_open sv c ->
  sock_open (serve c a sv) c /\ serve c (a ++ b) sv = serve c b (serve c a sv) \/
  ~ sock_open (serve c a sv) c /\ serve c (a ++ b) sv = serve c a sv.
Proof.
  revert sv. induction a as [|m a IH]; intros sv Ho; simpl; [by left|].
  destruct (handle sha256hex c m sv) as [s1 r]. destruct (sendobj c r s1) as [s2 []] eqn:E.
  - apply IH. by eapply sendobj_ok_open.
  - right. split; [apply dropclient_closed|done].
Qed.

Lemma feed_gone c ds sv : conn_ok sv -> ~ sock_open sv c -> feed c ds sv = sv.
Proof.
  intros Hok Hc. induction ds as [|d ds IH]; [done|].
  change (feed c (d :: ds) sv) with (feed c ds (serve_ready sha256hex sv (ReadyClient c (RData d)))).
  assert (Hr : recv_on sv c (RData d) = RError).
  { unfold recv_on. destruct (sv_socks sv !! c) as [k|] eqn:E; [|done].
    destruct (k_open k) eqn:Eo; [|done]. exfalso. apply Hc. by exists k. }
  unfold serve_ready, readmsgs. rewrite Hr. rewrite dropclient_gone by done. exact IH.
Qed.

Lemma serve_buf c msgs sv :
  server_ok sha256hex sv -> sv_bufs sv !! c = Some [] ->
  is_Some (sv_bufs (serve c msgs sv) !! c) -> sv_bufs (serve c msgs sv) !! c = Some [].
Proof.
  intros Hok Hb [x Hx]. assert (Hid : setbuf c [] sv = sv).
  { rewrite setbuf_insert, insert_id by eauto. by destruct sv. }
  rewrite <- Hid, serve_setbuf. simpl. rewrite lookup_alter_eq, Hx. done.
Qed.

(** The stream is served document by document, wherever it is cut. *)
Lemma feed_stream c ds reqs b sv :
  server_ok sha256hex sv -> sv_bufs sv !! c = Some [] -> sock_open sv c ->
  Forall piece_ok ds -> Forall req_ok reqs ->
  no_nl b -> (forall d, zlen d <= RECV -> zlen (b ++ d) <= MAXMSG) ->
  b ++ List.concat ds = stream reqs ->
  feed c ds (setbuf c b sv) = serve c reqs sv.
Proof.
  revert reqs b sv. induction ds as [|d ds IH]; intros reqs b sv Hok Hb Ho Hd Hr Hn Hlen Hs.
  - destruct (stream_split reqs b [] Hr Hs) as (r1 & r2 & -> & Hf & Hs2 & _).
    rewrite frames_no_nl in Hf, Hs2 by done. apply (f_equal fst) in Hf. destruct r1; [|done].
    simpl in *. rewrite app_nil_r in Hs. destruct r2 as [|m r2].
    + unfold stream in Hs. simpl in Hs. subst b. rewrite setbuf_insert, insert_id by eauto. by destruct sv.
    + unfold stream in Hs. simpl in Hs. rewrite wire_line_doc, <- app_assoc in Hs. subst b.
      apply no_nl_app in Hn as [_ Hn]. simpl in Hn. by apply Forall_cons in Hn as [? _].
  - apply Forall_cons in Hd as [[Hne Hd] Hds]. simpl in Hs. rewrite app_assoc in Hs.
    destruct (stream_split reqs (b ++ d) (List.concat ds) Hr Hs) as (r1 & r2 & -> & Hf & Hs2 & Hlen2).
    apply Forall_app in Hr as [Hr1 Hr2].
    change (feed c (d :: ds) (setbuf c b sv)) with
      (feed c ds (serve_ready sha256hex (setbuf c b sv) (ReadyClient c (RData d)))).
    assert (Hread : readmsgs c (RData d) (setbuf c b sv) = (setbuf c (frames (b ++ d)).2 sv, r1)).
    { destruct Ho as (k & Hk & Hko). unfold readmsgs, recv_on. simpl. rewrite Hk, Hko.
      destruct d as [|y d]; [done|]. rewrite lookup_alter_eq, Hb. simpl (default _ _).
      specialize (Hlen (y :: d) Hd). destruct (MAXMSG <? zlen (b ++ y :: d)) eqn:E; [lia|].
      rewrite Hf. cbn [fst snd]. rewrite readlines_docs by done. f_equal.
      rewrite <- (setbuf_setbuf c (frames (b ++ y :: d)).2 b sv). symmetry.
      apply setbuf_insert. simpl. rewrite lookup_alter_eq, Hb. eauto. }
    unfold serve_ready. rewrite Hread, serve_setbuf.
    assert (Hok1 : server_ok sha256hex (serve c r1 sv)).
    { apply serve_ok; [done|]. intros _. by apply (co_open _ (proj1 Hok)). }
    destruct (serve_app c r1 r2 sv Ho) as [[Ho1 ->]|[Ho1 ->]].
    + apply IH; try done.
      * apply serve_buf; [done|done|]. apply (co_bufs _ (proj1 Hok1)), (co_open _ (proj1 Hok1)), Ho1.
      * apply frames_rest.
    + assert (Hgone : sv_bufs (serve c r1 sv) !! c = None).
      { destruct (sv_bufs (serve c r1 sv) !! c) eqn:E; [|done].
        exfalso. apply Ho1, (co_open _ (proj1 Hok1)), (co_bufs _ (proj1 Hok1)). eauto. }
      rewrite setbuf_gone by done. apply feed_gone; [apply Hok1|done].
Qed.
End Stream.
