(* ===== verification/ExchangeSpec.v ===== *)
(** The properties of the exchange service: invariant, authorisation, framing,
    storage and retrieval end to end, persistence, notification and the watch
    client. *)

From stdpp Require Import base list gmap strings.
From Stdlib Require Import ZArith Lia Bool String.
From S2P Require Import Prelude PyFloat PyText PyVal PyJson Exchange ExchangeProofs ExchangeStore ExchangeFraming.
Open Scope Z_scope.

(** A digest function for the witnesses: the length in decimal. *)
Definition toy_hash (b : bytes) : pystr := nat_str (zlen b).

(** A started service without clients, and a fresh connection. *)
Definition sv_start : server :=
  mksv STATE0 [] ∅ [] true (lit "secret") ∅ None FsOk (fun n => 1000 + Z.of_nat n) 0.
Definition fresh_sock : sock := mksock true true 65536 [].

Lemma sv_start_ok : server_ok toy_hash sv_start.
Proof.
  split.
  - split; simpl; try (by constructor); try set_solver.
    + intros c. split; [set_solver|]. intros (k & Hk & _). simpl in Hk. by rewrite lookup_empty in Hk.
    + intros c. rewrite lookup_empty. split; [by intros [? ?]|set_solver].
  - split; [done|]. split; [done|]. by right.
Qed.

Section Spec.
Context {U : PyUnicode} (sha256hex : bytes -> pystr).

(** C1: from a well-formed service every state the event loop reaches is
    well-formed: no client or watcher is listed twice, every watcher is a
    client, exactly the clients have an open socket and a buffer, every buffer
    is an unfinished line within the limit, and the stored document's size and
    hash fields match its data and the size limit. *)
Theorem exchange_invariant sv0 sv :
  server_ok sha256hex sv0 -> reach sha256hex sv0 sv -> server_ok sha256hex sv.
Proof.
  intros H0. induction 1 as [|sv e Hr IH Hrun He|sv Hr IH|sv f Hr IH]; [done| | |].
  - by apply serve_ready_ok.
  - destruct IH as [Hc Hx]. split; [|done]. revert Hc. by apply conn_ok_frame.
  - destruct IH as [Hc Hx]. split; [|done]. revert Hc. by apply conn_ok_frame.
Qed.

(** ** Authorisation *)

Lemma setstatetype_running t d s sv :
  sv_running (setstatetype sha256hex t d s sv).1 = sv_running sv.
Proof. by destruct (setstatetype_frame sha256hex t d s sv) as ((_ & _ & _ & _ & ? & _) & _). Qed.

Lemma getstate_running sv : sv_running (getstate sv).1 = sv_running sv.
Proof. by destruct (getstate_frame sha256hex sv) as ((_ & _ & _ & _ & ? & _) & _). Qed.

Lemma clearstate_running s sv : sv_running (clearstate s sv).1 = sv_running sv.
Proof. by destruct (clearstate_frame s sv) as ((_ & _ & _ & _ & ? & _) & _). Qed.

Lemma notify_running v sv : sv_running (notify v sv) = sv_running sv.
Proof.
  unfold notify. destruct (notify_send (sv_watchers sv) v sv) as [sv1 dead] eqn:E.
  apply notify_send_frame in E as (_ & _ & _ & _ & <- & _).
  revert sv1. induction dead as [|w dead IH]; intros sv1; simpl; [done|].
  rewrite IH. unfold dropclient. by destruct (memz w (sv_watchers sv1)).
Qed.

Lemma sendobj_running c v sv : sv_running (sendobj c v sv).1 = sv_running sv.
Proof.
  destruct (sendobj c v sv) as [sv1 ok] eqn:E. apply sendobj_frame in E as (_ & _ & _ & _ & ? & _).
  done.
Qed.

(** A request stops the service only if it is an object whose [op], once
    stripped, is [shutdown] and whose [key] equals the key generated at
    start-up; every other request leaves the running flag as it was. *)
Theorem shutdown_requires_key cli msg sv :
  sv_running sv = true -> sv_running (handle sha256hex cli msg sv).1 = false ->
  exists d, msg = PDict d /\ msg_op d = lit "shutdown" /\
    py_str (dict_get_def (lit "key") (PStr []) d) = sv_key sv.
Proof.
  intros Hrun. unfold handle. destruct (allowed sv msg) eqn:Ha; simpl; [|congruence].
  destruct msg as [| | | | | |d]; try discriminate. intros Hstop. exists d. split; [done|].
  assert (Hop : str_eqb (msg_op d) (lit "shutdown") = true).
  { destruct (str_eqb (msg_op d) (lit "shutdown")) eqn:E; [done|exfalso].
    repeat match type of Hstop with context [if str_eqb ?a ?b then _ else _] =>
      destruct (str_eqb a b) eqn:? end; try congruence.
    - unfold opping in Hstop. pose proof (getstate_running sv) as H.
      destruct (getstate sv). simpl in *. congruence.
    - unfold opget in Hstop. pose proof (getstate_running sv) as H.
      destruct (getstate sv). simpl in *. congruence.
    - unfold opmeta in Hstop. pose proof (getstate_running sv) as H.
      destruct (getstate sv). simpl in *. congruence.
    - unfold opset in Hstop. destruct (negb _); [simpl in *; congruence|].
      match type of Hstop with context [setstatetype _ ?t ?x ?s sv] =>
        pose proof (setstatetype_running t x s sv) as H1;
        destruct (setstatetype sha256hex t x s sv) as [sv1 [ok err]] end.
      destruct ok; simpl in *; [|congruence]. pose proof (getstate_running sv1) as H2.
      destruct (getstate sv1). simpl in *. rewrite notify_running in Hstop. congruence.
    - unfold opclear in Hstop.
      match type of Hstop with context [clearstate ?s sv] =>
        pose proof (clearstate_running s sv) as H1; destruct (clearstate s sv) as [sv1 [ok err]] end.
      destruct ok; simpl in *; [|congruence]. pose proof (getstate_running sv1) as H2.
      destruct (getstate sv1). simpl in *. rewrite notify_running in Hstop. congruence.
    - unfold opwatch in Hstop.
      match type of Hstop with context [getstate ?n] =>
        pose proof (getstate_running n) as H1; destruct (getstate n) as [sv1 st] end.
      match type of Hstop with context [sendobj ?c ?v ?n] =>
        pose proof (sendobj_running c v n) as H2; destruct (sendobj c v n) as [sv2 ok] end.
      simpl in *. destruct (memz cli (sv_watchers sv)); simpl in *; congruence.
    - unfold opunwatch in Hstop. destruct (memz cli (sv_watchers sv)); simpl in *; congruence.
    - simpl in *; congruence. }
  apply str_eqb_eq in Hop. split; [done|].
  unfold allowed in Ha. rewrite Hop in Ha.
  destruct (str_eqb (lit "shutdown") []) eqn:E1; [by apply str_eqb_eq in E1|].
  rewrite str_eqb_refl in Ha. by apply str_eqb_eq.
Qed.
End Spec.

(** ** Storing and fetching *)

Section RoundTrip.
Context {U : PyUnicode} (sha256hex : bytes -> pystr).

(** C5: a text stored with [exset] on one connection is what [exget] returns on
    another, with its digest, time, source and size, however the kernel cuts
    the requests and the replies into pieces, as long as every message is within
    the limits and the replies fit the sockets' buffers. *)
Theorem exset_exget_roundtrip sv c1 c2 k1 k2 text source ds1 ds2 rs1 rs2 :
  server_ok sha256hex sv -> sv_fs sv = FsOk ->
  client_fresh sv c1 k1 -> client_fresh sv c2 k2 -> c1 <> c2 ->
  text_ok text -> forallb is_scalar source = true ->
  let x := stored sha256hex sv (lit "text") text source in
  xstate_wire x ->
  zlen (wire_line (set_msg (lit "text") text source)) <= MAXMSG ->
  zlen (wire_line (set_reply x)) <= Z.min MAXMSG (k_room k1) ->
  zlen (wire_line (get_reply x)) <= Z.min MAXMSG (k_room k2) ->
  pieces_ok ds1 -> pieces_ok ds2 -> pieces_ok rs1 -> pieces_ok rs2 ->
  let call1 := exset (PStr text) source (mkconn true true (arrive rs1)) in
  let call2 := exget (mkconn true true (arrive rs2)) in
  let sv1 := session sha256hex c1 k1 ds1 sv in
  let sv2 := session sha256hex c2 k2 ds2 sv1 in
  call1.1 = Some (List.concat ds1) -> List.concat rs1 = out_of sv1 c1 ->
  call2.1 = Some (List.concat ds2) -> List.concat rs2 = out_of sv2 c2 ->
  call1.2 = Some (Ok (true, set_reply x)) /\
  call2.2 = Some (Ok (true, PDict (state_dict x))).
Proof.
  intros Hok Hfs Hf1 Hf2 Hne Htext Hsrc x Hw Hl1 Hl2 Hl3 Hd1 Hd2 Hr1 Hr2 call1 call2 sv1 sv2 E1 E2 E3 E4.
  assert (Hds1 : List.concat ds1 = wire_line (set_msg (lit "text") text source)) by (by injection E1).
  assert (Hds2 : List.concat ds2 = wire_line get_msg) by (by injection E3).
  destruct (set_session sha256hex c1 k1 ds1 text source sv) as (S1 & S2 & S3 & S4); try done; [unfold x in *; lia|].
  fold sv1 x in S1, S2, S3, S4. rewrite S2 in E2.
  assert (Hget : handle sha256hex c2 get_msg (acceptclient (Some (c2, k2)) sv1) =
    (acceptclient (Some (c2, k2)) sv1, get_reply x)).
  { rewrite handle_get. unfold getstate, expired.
    change (sv_state (acceptclient (Some (c2, k2)) sv1)) with (sv_state sv1).
    rewrite S1. change (x_ttl x <=? 0) with true. cbn iota beta zeta.
    cbn [fst]. change (sv_state (acceptclient (Some (c2, k2)) sv1)) with (sv_state sv1).
    by rewrite S1. }
  destruct (session_spec sha256hex c2 k2 ds2 get_msg sv1) as [_ G2]; try done; try apply Hf2.
  - rewrite Hget. simpl. by rewrite lookup_insert_eq.
  - rewrite Hget. cbn [snd]. lia.
  - fold sv2 in G2. rewrite G2, Hget in E4. cbn [snd] in E4.
    unfold call1, call2, exset, exget, excall_reply, excall. cbn [c_connects c_sends c_recv negb].
    rewrite <- (app_nil_r (arrive rs1)), <- (app_nil_r (arrive rs2)).
    rewrite (exrecv_reply rs1 (set_reply x)); [|done|done|by apply set_reply_ok|lia].
    rewrite (exrecv_reply rs2 (get_reply x)); [|done|done|by apply get_reply_ok|lia].
    split; reflexivity.
Qed.
End RoundTrip.

(** ** Framing *)

(** C20: however a stream of requests is cut into reads, the service ends in the
    state of serving the requests one after the other: framing neither loses,
    merges nor repeats a request.  Each request leaves room for one more read
    in the buffer; the stream may be of any length. *)
Theorem request_stream_cut {U : PyUnicode} (sha256hex : bytes -> pystr) c ds reqs sv :
  server_ok sha256hex sv -> sv_bufs sv !! c = Some [] ->
  Forall piece_ok ds -> Forall req_ok reqs -> List.concat ds = stream reqs ->
  feed sha256hex c ds sv = serve sha256hex c reqs sv.
Proof.
  intros Hok Hb Hds Hr Hs.
  assert (Hid : setbuf c [] sv = sv) by (rewrite setbuf_insert, insert_id by eauto; by destruct sv).
  rewrite <- Hid at 1. apply feed_stream; try done.
  - apply (co_open _ (proj1 Hok)), (co_bufs _ (proj1 Hok)). by rewrite Hb.
  - constructor.
  - intros d Hd. simpl. unfold RECV, MAXMSG in *. lia.
Qed.

(** ** Notification *)

Lemma notify_send_spec ws v sv sv' dead c k :
  NoDup ws -> notify_send ws v sv = (sv', dead) -> c ∈ ws -> sv_socks sv !! c = Some k ->
  sv_socks sv' !! c = Some (sendall k (wire_line v)).1 /\
  (c ∈ dead <-> (sendall k (wire_line v)).2 = false).
Proof.
  intros Hnd. revert sv sv' dead. induction Hnd as [|w ws Hw Hnd IH]; intros sv sv' dead; simpl.
  { set_solver. }
  destruct (sendobj w v sv) as [sv1 ok] eqn:E1.
  destruct (notify_send ws v sv1) as [sv2 dead2] eqn:E2. intros [= <- <-] Hc Hk.
  pose proof (sendobj_frame _ _ _ _ _ E1) as (_ & _ & _ & _ & _ & _ & _ & Hother & _).
  pose proof (notify_send_frame _ _ _ _ _ E2) as (_ & _ & _ & _ & _ & _ & _ & Hrest & Hdead).
  destruct (decide (c = w)) as [->|Hne].
  - unfold sendobj in E1. rewrite Hk in E1. destruct (sendall k (wire_line v)) as [k' ok'] eqn:Es.
    injection E1 as <- <-. rewrite Hrest by done. simpl. rewrite lookup_insert_eq.
    split; [done|]. destruct ok'; [|set_solver]. split; [|done]. intros ?%Hdead. done.
  - destruct (IH sv1 sv2 dead2 E2) as [I1 I2]; [set_solver|by rewrite Hother|].
    split; [done|]. rewrite <- I2. destruct ok; set_solver.
Qed.

(** A connection that is not a client's is nowhere else either. *)
Lemma gone_client sv c : conn_ok sv -> c ∉ sv_clients sv ->
  ~ sock_open sv c /\ c ∉ sv_watchers sv /\ c ∉ sv_clients sv /\ sv_bufs sv !! c = None.
Proof.
  intros Hok Hc. split_and!; [|by intros ?%(co_watch _ Hok)|done|].
  - by intros ?%(co_open _ Hok).
  - destruct (sv_bufs sv !! c) eqn:E; [|done]. exfalso. apply Hc, (co_bufs _ Hok). eauto.
Qed.

(** A notification reaches every watcher.  A watcher whose peer is there and
    whose socket has room receives the whole event line, once, and stays a
    watcher; any other watcher is disconnected and forgotten; the sockets of
    clients that do not watch are not touched. *)
Theorem notify_delivers v sv c k :
  conn_ok sv -> sv_socks sv !! c = Some k ->
  (c ∈ sv_watchers sv ->
   if k_peer k && (zlen (wire_line v) <=? k_room k) then
     sv_socks (notify v sv) !! c =
       Some (mksock true true (k_room k - zlen (wire_line v)) (k_out k ++ wire_line v)) /\
     c ∈ sv_watchers (notify v sv) /\ c ∈ sv_clients (notify v sv)
   else
     ~ sock_open (notify v sv) c /\ c ∉ sv_watchers (notify v sv) /\
     c ∉ sv_clients (notify v sv) /\ sv_bufs (notify v sv) !! c = None) /\
  (c ∉ sv_watchers sv -> sv_socks (notify v sv) !! c = Some k).
Proof.
  intros Hok Hk. unfold notify. destruct (notify_send (sv_watchers sv) v sv) as [sv1 dead] eqn:E.
  pose proof (notify_send_frame _ _ _ _ _ E) as (A1 & A2 & A3 & _ & _ & _ & A7 & A8 & A9).
  destruct (fold_drop_ok dead sv1) as (B0 & _ & _ & _ & B5 & B6 & B7).
  { by eapply conn_ok_frame. }
  split.
  - intros Hw. assert (Hc : c ∈ sv_clients sv) by (by apply (co_watch _ Hok)).
    destruct (notify_send_spec _ _ _ _ _ c k (co_watchers _ Hok) E Hw Hk) as [N1 N2].
    apply (co_open _ Hok) in Hc as Ho. destruct Ho as (k0 & Hk0 & Ho).
    rewrite Hk in Hk0. injection Hk0 as <-.
    unfold sendall in N1, N2. rewrite Ho in N1, N2. simpl in N1, N2.
    destruct (k_peer k); simpl in *; [destruct (zlen (wire_line v) <=? k_room k)|]; simpl in *.
    + assert (Hd : c ∉ dead) by (rewrite N2; done).
      rewrite B7, B5, B6, A1, A2 by done. done.
    + assert (Hd : c ∈ dead) by (by apply N2). apply (gone_client _ _ B0). rewrite B5. tauto.
    + assert (Hd : c ∈ dead) by (by apply N2). apply (gone_client _ _ B0). rewrite B5. tauto.
  - intros Hw. rewrite B7, A8; [done|done|]. intros ?%A9. done.
Qed.

(** ** Persistence *)

Lemma encode_doc v : json_ok v = true -> utf8_encode (json_dumps j_unicode v) = Ok (doc_bytes v).
Proof. apply encode_dumps, j_unicode_clean. Qed.

Lemma decode_doc v : json_ok v = true -> (utf8_decode (doc_bytes v) ≫= json_loads) = Ok v.
Proof. apply decode_dumps; [apply j_unicode_clean|apply j_unicode_ok]. Qed.

Section Persist.
Context {U : PyUnicode} (sha256hex : bytes -> pystr).

Lemma loadobj_state x : zlen (utf8_encode_replace (x_data x)) <= MAXBYTES ->
  loadobj sha256hex (PDict (state_dict x)) =
    Ok (Some (mkx (x_type x) (x_data x) (makehash sha256hex (x_data x)) (x_ts x) (x_source x)
      (zlen (utf8_encode_replace (x_data x))) (x_ttl x))).
Proof.
  intros Hb. destruct x as [t d h ts s b ttl]. cbn [x_data] in Hb.
  transitivity (if MAXBYTES <? zlen (utf8_encode_replace d) then Ok None
    else Ok (Some (mkx t d (makehash sha256hex d) ts s (zlen (utf8_encode_replace d)) ttl)) : res (option xstate)).
  - reflexivity.
  - destruct (MAXBYTES <? _) eqn:E; [lia|done].
Qed.

(** A service that starts on the file written by a successful save holds the
    same document: type, text, source, time and time to live as saved, the size
    as maintained, and the digest recomputed from the text. *)
Theorem loadstate_savestate sv sv1 sv2 :
  xstate_ok sha256hex (sv_state sv) -> xstate_wire (sv_state sv) ->
  savestate sv = (sv1, true) ->
  sv_file sv2 = sv_file sv1 -> sv_fs sv2 <> FsOpenFails ->
  let x := sv_state sv in
  loadstate sha256hex sv2 =
    Ok (set_state sv2 (mkx (x_type x) (x_data x) (makehash sha256hex (x_data x)) (x_ts x)
      (x_source x) (x_bytes x) (x_ttl x))).
Proof.
  intros (Hb & Hmax & _) Hw Hsave Hfile Hfs x. pose proof (state_dict_ok _ Hw) as Hj.
  unfold savestate in Hsave. cbv zeta in Hsave. rewrite (encode_doc (PDict _)) in Hsave by done.
  assert (Hf : sv_file sv1 = Some (doc_bytes (PDict (state_dict (sv_state sv))))).
  { destruct (sv_fs sv); try discriminate. by rewrite <- (f_equal fst Hsave : _ = sv1). }
  unfold loadstate. rewrite Hfile, Hf, decode_doc by done.
  rewrite loadobj_state by (rewrite <- Hb; exact Hmax). rewrite <- Hb. by destruct (sv_fs sv2).
Qed.

(** When the save fails, a [set] of a valid document answers with the error
    "save error", and yet the document has replaced the old one in memory, for
    every later [get], while no watcher is told. *)
Theorem failed_save_replaces_document text source d sv :
  sget "type" (PStr (lit "text")) d = PStr (lit "text") ->
  sget "data" (PStr []) d = PStr text -> sget "source" (PStr (lit "app")) d = PStr source ->
  text_ok text -> sv_fs sv <> FsOk ->
  let r := opset sha256hex d sv in
  let x := stored sha256hex sv (lit "text") text source in
  r.2 = err_obj "save error" /\ (opget r.1).2 = get_reply x /\
  sv_socks r.1 = sv_socks sv /\ sv_watchers r.1 = sv_watchers sv.
Proof.
  intros Ht Hd Hs Hok Hfs r x. unfold r, opset. rewrite Ht, Hd, Hs. cbn [py_str].
  change (negb (existsb (str_eqb (lit "text")) settable_types)) with false. cbv iota.
  unfold setstatetype. rewrite validtext_ok by done. cbn [negb].
  destruct (nowsec_frame sv) as (n & -> & _ & F2 & _ & F4 & _ & _ & _ & F8 & _).
  fold (stored sha256hex sv (lit "text") text source). fold x.
  change (mkx (lit "text") text _ _ source _ 0) with x.
  assert (Hsave : exists f, savestate (set_state n x) = (f, false) /\ sv_state f = x /\
    sv_socks f = sv_socks sv /\ sv_watchers f = sv_watchers sv).
  { unfold savestate. cbn [sv_fs set_state]. rewrite F8.
    destruct (sv_fs sv); [done| |]; cbv zeta; try destruct (utf8_encode _); eexists; by split_and!. }
  destruct Hsave as (f & -> & Hst & Hso & Hwa). cbn [negb fst snd].
  split_and!; [done| |done|done].
  unfold opget, getstate, expired. rewrite Hst. change (x_ttl x <=? 0) with true.
  cbn [fst snd]. by rewrite Hst.
Qed.

(** A state file holding valid JSON that is not an object makes the start-up
    raise [AttributeError], although an unreadable or malformed file is ignored. *)
Theorem loadstate_needs_object sv v :
  json_ok v = true -> (forall d, v <> PDict d) -> sv_fs sv <> FsOpenFails ->
  sv_file sv = Some (doc_bytes v) -> loadstate sha256hex sv = Exc AttributeError.
Proof.
  intros Hv Hd Hfs Hf. unfold loadstate. rewrite Hf.
  rewrite decode_doc by done.
  destruct (sv_fs sv); try done; destruct v; try done; by destruct (Hd d).
Qed.
End Persist.

(** ** Watching *)

Lemma exrecv_first v rest l evs :
  json_ok v = true -> zlen (wire_line v ++ rest) <= MAXMSG ->
  exrecv [] ((RData (wire_line v ++ rest), l) :: evs) = Some (Some v, evs).
Proof.
  intros Hv Hl. rewrite wire_line_doc in *. simpl exrecv.
  destruct ((doc_bytes v ++ [10]) ++ rest) as [|y b] eqn:E.
  { by apply (f_equal (@List.length Z)) in E; rewrite !length_app in E; simpl in E; lia. }
  rewrite <- E in *. destruct (MAXMSG <? _) eqn:Em; [lia|].
  rewrite <- app_assoc. simpl ([10] ++ rest). rewrite find_nl_line by (by apply doc_bytes_no_nl).
  rewrite ztake_app_exact by done. by rewrite doc_bytes_parse.
Qed.

Lemma watch_loop_step n evs m evs' :
  exrecv [] evs = Some (Some m, evs') ->
  watch_loop (S n) evs = (m :: (watch_loop n evs').1, (watch_loop n evs').2).
Proof. intros H. simpl. rewrite H. by destruct (watch_loop n evs'). Qed.

(** The watch client hands its callback the first message of every read and
    drops whatever follows it in the same read: of the events a service writes
    back to back, all that arrive together but the first are lost. *)
Theorem exwatch_first_per_read {U : PyUnicode} source (groups : list (pyval * list pyval)) :
  Forall (fun g => json_ok g.1 = true /\ zlen (stream (g.1 :: g.2)) <= MAXMSG) groups ->
  let c := mkconn true true (List.map (fun g => (RData (stream (g.1 :: g.2)), false)) groups) in
  exwatch source c =
    Watching (wire_line (pobj [("op", PStr (lit "watch")); ("source", PStr source)]%string))
      (List.map fst groups) false.
Proof.
  intros Hg c. unfold exwatch. cbn [c_connects c_sends negb].
  assert (Hloop : forall n, (List.length (c_recv c) < n)%nat ->
    watch_loop n (c_recv c) = (List.map fst groups, false)).
  { unfold c. cbn [c_recv]. clear c. induction Hg as [|[m ms] groups [Hm Hl] Hg IH];
      intros n Hn; (destruct n as [|n]; [simpl in Hn; lia|]); [done|].
    cbn [List.map fst snd] in *. rewrite (watch_loop_step _ _ m (List.map (fun g => (RData (stream (g.1 :: g.2)), false)) groups)).
    - rewrite IH; [done|simpl in Hn; lia].
    - exact (exrecv_first m (stream ms) false _ Hm Hl). }
  rewrite Hloop by lia. done.
Qed.

Section Witnesses.
#[local] Existing Instance ascii_unicode.

Definition key_msg : pyval :=
  pobj [("op", PStr (lit " shutdown ")); ("key", PStr (lit "secret"))]%string.

Lemma shutdown_requires_key_witness :
  sv_running (handle toy_hash 7 key_msg sv_start).1 = false /\
  exists d, key_msg = PDict d /\ msg_op d = lit "shutdown" /\
    py_str (dict_get_def (lit "key") (PStr []) d) = lit "secret".
Proof.
  split; [vm_compute; reflexivity|].
  apply (shutdown_requires_key toy_hash 7 key_msg sv_start); [reflexivity|vm_compute; reflexivity].
Defined.

Lemma exchange_invariant_witness :
  server_ok toy_hash
    (serve_ready toy_hash sv_start (ReadyServer (Some (3, fresh_sock)))).
Proof.
  apply (exchange_invariant toy_hash sv_start).
  - apply sv_start_ok.
  - apply reach_step; [apply reach_start|reflexivity|split; reflexivity].
Defined.

(** A conversation: a text set on connection 3 and fetched on connection 4, each
    message cut in two. *)
Definition cut (l : bytes) : list bytes := [ztake 9 l; zdrop 9 l].
Definition hello : pystr := [104; 105; 10; 8364].
Definition hello_state : xstate := stored toy_hash sv_start (lit "text") hello (lit "app").
Definition ask : list bytes := cut (wire_line (set_msg (lit "text") hello (lit "app"))).
Definition ask_get : list bytes := cut (wire_line get_msg).

Lemma exset_exget_roundtrip_witness :
  (exset (PStr hello) (lit "app") (mkconn true true (arrive (cut (wire_line (set_reply hello_state)))))).2
    = Some (Ok (true, set_reply hello_state)) /\
  (exget (mkconn true true (arrive (cut (wire_line (get_reply hello_state)))))).2
    = Some (Ok (true, PDict (state_dict hello_state))).
Proof.
  apply (exset_exget_roundtrip toy_hash sv_start 3 4 fresh_sock fresh_sock hello (lit "app")
    ask ask_get (cut (wire_line (set_reply hello_state))) (cut (wire_line (get_reply hello_state)))).
  - apply sv_start_ok.
  - reflexivity.
  - split; reflexivity.
  - split; reflexivity.
  - discriminate.
  - split_and!; [reflexivity|reflexivity|vm_compute; discriminate].
  - reflexivity.
  - vm_compute. split_and!; done.
  - vm_compute; discriminate.
  - vm_compute; discriminate.
  - vm_compute; discriminate.
  - repeat constructor; vm_compute; discriminate.
  - repeat constructor; vm_compute; discriminate.
  - repeat constructor; vm_compute; discriminate.
  - repeat constructor; vm_compute; discriminate.
  - vm_compute; reflexivity.
  - vm_compute; reflexivity.
  - vm_compute; reflexivity.
  - vm_compute; reflexivity.
Defined.

(** The service with one client, a watcher. *)
Definition sv_one : server := acceptclient (Some (3, fresh_sock)) sv_start.
Definition sv_watch : server := set_watchers sv_one [3].

Lemma sv_one_ok : server_ok toy_hash sv_one.
Proof. apply acceptclient_ok; [apply sv_start_ok|]. split; reflexivity. Qed.

Lemma sv_watch_ok : server_ok toy_hash sv_watch.
Proof.
  apply set_watchers_ok; [apply sv_one_ok| |].
  - apply NoDup_singleton.
  - intros c Hc. exact Hc.
Qed.

Lemma request_stream_cut_witness :
  feed toy_hash 3 (cut (stream [get_msg; key_msg])) sv_one =
  serve toy_hash 3 [get_msg; key_msg] sv_one.
Proof.
  apply (request_stream_cut toy_hash).
  - apply sv_one_ok.
  - reflexivity.
  - repeat constructor; vm_compute; discriminate.
  - repeat constructor; vm_compute; done.
  - vm_compute; reflexivity.
Defined.

Lemma notify_delivers_witness :
  sv_socks (notify get_msg sv_watch) !! 3 =
    Some (mksock true true (65536 - zlen (wire_line get_msg)) (wire_line get_msg)).
Proof.
  refine (proj1 (proj1 (notify_delivers get_msg sv_watch 3 fresh_sock _ _) _)).
  - apply sv_watch_ok.
  - reflexivity.
  - left.
Defined.

Definition sv_hello : server := set_state sv_start hello_state.

Lemma hello_wire : xstate_wire hello_state.
Proof. vm_compute. split_and!; done. Qed.

Lemma loadstate_savestate_witness :
  loadstate toy_hash (savestate sv_hello).1 = Ok (savestate sv_hello).1.
Proof.
  refine (loadstate_savestate toy_hash sv_hello (savestate sv_hello).1 (savestate sv_hello).1 _ _ _ _ _).
  - vm_compute. split_and!; [done|discriminate|by left].
  - apply hello_wire.
  - vm_compute; reflexivity.
  - reflexivity.
  - vm_compute; discriminate.
Defined.

Definition sv_full : server :=
  mksv STATE0 [] ∅ [] true (lit "secret") ∅ None (FsWriteFails 10) (fun n => 1000 + Z.of_nat n) 0.

Lemma failed_save_replaces_document_witness :
  let d := pdict [("data", PStr (lit "new"))]%string in
  (opset toy_hash d sv_full).2 = err_obj "save error" /\
  (opget (opset toy_hash d sv_full).1).2 =
    get_reply (stored toy_hash sv_full (lit "text") (lit "new") (lit "app")).
Proof.
  destruct (failed_save_replaces_document toy_hash (lit "new") (lit "app")
    (pdict [("data", PStr (lit "new"))]%string) sv_full) as (H1 & H2 & _).
  - reflexivity.
  - reflexivity.
  - reflexivity.
  - split_and!; [reflexivity|reflexivity|vm_compute; discriminate].
  - discriminate.
  - split; [exact H1|exact H2].
Defined.

Lemma loadstate_needs_object_witness :
  loadstate toy_hash (set_file sv_start (Some (doc_bytes (PList [])))) = Exc AttributeError.
Proof.
  apply (loadstate_needs_object toy_hash _ (PList [])).
  - reflexivity.
  - discriminate.
  - discriminate.
  - reflexivity.
Defined.

Lemma exwatch_first_per_read_witness :
  exwatch (lit "app") (mkconn true true
    [(RData (stream [PInt 1; PInt 2]), false); (RData (stream [PInt 3]), false)]) =
  Watching (wire_line (pobj [("op", PStr (lit "watch")); ("source", PStr (lit "app"))]%string))
    [PInt 1; PInt 3] false.
Proof.
  apply (exwatch_first_per_read (lit "app") [(PInt 1, [PInt 2]); (PInt 3, [])]).
  repeat constructor; vm_compute; discriminate.
Defined.
End Witnesses.
