(* ===== verification/Pcm.v ===== *)
(** Sample processing of the audio service (audioserver.py): clamping, level
    statistics, gain, the gain ramp, mixing of two blocks and the master stage,
    on 16-bit little-endian interleaved PCM. *)

From stdpp Require Import base list.
From Stdlib Require Import ZArith Lia Bool.
From Stdlib Require Import SpecFloat.
From S2P Require Import Prelude PyFloat FloatFacts.
Open Scope Z_scope.

(** ** Audio format (audio.py) *)

Definition DEFAULTSR : Z := 48000.
Definition DEFAULTCH : Z := 2.
Definition DEFAULTFRAMES : Z := 480.
Definition FRAMEBYTES : Z := DEFAULTCH * 2.
Definition MASTERGAINRAMPMS : pyfloat := fdecimal 10 0.

(** ** Scalars *)

(** [clamp] on floats. *)
Definition clamp (x a b : pyfloat) : pyfloat :=
  if flt x a then a else if fgt x b then b else x.

Definition calibratedmastergain (gain : pyfloat) : pyfloat := clamp gain fzero fone.

Definition mastergainmultiplier (gain : pyfloat) : pyfloat := calibratedmastergain gain.

(** The two saturation guards of every mixing loop. *)
Definition saturate (v : Z) : Z :=
  let v := if 32767 <? v then 32767 else v in
  if v <? -32768 then -32768 else v.

(** ** Loops over samples *)

(** [for i in range(0, len(b), 2)]: unpack the sample at [i], compute, pack.
    An odd trailing byte makes [unpack_from] raise. *)
Fixpoint map_samples (f : Z -> res Z) (b : bytes) : res bytes :=
  match b with
  | [] => Ok []
  | [_] => Exc StructError
  | lo :: hi :: r =>
      v ← f (unpack_s16le lo hi);
      rest ← map_samples f r;
      Ok (pack_s16le v ++ rest)
  end.

(** [int(sample * gain)], saturated. *)
Definition scale (gain : pyfloat) (sample : Z) : res Z :=
  f ← float_of_int sample;
  v ← int_of_float (fmul f gain);
  Ok (saturate v).

Definition mixapplygain (pcms16 : bytes) (gain : pyfloat) : res bytes :=
  if feqb gain fone then Ok pcms16 else map_samples (scale gain) pcms16.

(** The gain of one frame of the ramp. *)
Definition rampgain (rampframes : Z) (startgain endgain : pyfloat) (frame : Z) : res pyfloat :=
  if (rampframes <=? 1) || (rampframes <=? frame) then Ok endgain
  else
    f ← float_of_int frame;
    d ← float_of_int (rampframes - 1);
    q ← fdiv f d;
    Ok (fadd startgain (fmul (fsub endgain startgain) q)).

(** The frames of a block from number [frame] on, each of [DEFAULTCH] samples
    scaled by the frame's gain; a trailing partial frame is copied. *)
Fixpoint rampframes_loop (gain : Z -> res pyfloat) (frame : Z) (b : bytes) : res bytes :=
  match b with
  | l0 :: h0 :: l1 :: h1 :: r =>
      g ← gain frame;
      a ← scale g (unpack_s16le l0 h0);
      c ← scale g (unpack_s16le l1 h1);
      rest ← rampframes_loop gain (frame + 1) r;
      Ok (pack_s16le a ++ pack_s16le c ++ rest)
  | r => Ok r
  end.

(** [rate] is [backendsamplerate()]. *)
Definition mixapplygainramp (rate : Z) (pcms16 : bytes) (startgain endgain : pyfloat) : res bytes :=
  match pcms16 with
  | [] => Ok pcms16
  | _ =>
      let frames := zlen pcms16 / FRAMEBYTES in
      if frames <=? 0 then Ok pcms16
      else if flt (fabs (fsub endgain startgain)) (fdecimal 1 (-6)) then mixapplygain pcms16 endgain
      else
        let samplerate := Z.max 1 rate in
        r ← float_of_int samplerate;
        q ← fdiv (fmul r MASTERGAINRAMPMS) (fdecimal 1000 0);
        n ← int_round q;
        let rampframes := Z.min frames (Z.max 1 n) in
        rampframes_loop (rampgain rampframes startgain endgain) 0 pcms16
  end.

(** Adds [inp] into [out], sample by sample; a short [inp] raises. *)
Fixpoint mixsum (out inp : bytes) : res bytes :=
  match out with
  | [] => Ok []
  | [_] => Exc StructError
  | lo :: hi :: r =>
      match inp with
      | lo' :: hi' :: r' =>
          let v := saturate (unpack_s16le lo hi + unpack_s16le lo' hi') in
          rest ← mixsum r r';
          Ok (pack_s16le v ++ rest)
      | _ => Exc StructError
      end
  end.

Definition mixsilence (nbytes : Z) : bytes := zreplicate nbytes 0.

(** [MASTERAPPLIEDGAIN] after the stage, and the block. *)
Definition mixmaster (rate : Z) (mastergain : pyfloat) (mastermute : bool)
    (applied : option pyfloat) (pcmbytes : bytes) : option pyfloat * res bytes :=
  let targetgain := if mastermute then fzero else mastergainmultiplier mastergain in
  let plain := if feqb targetgain fone then Ok pcmbytes else mixapplygain pcmbytes targetgain in
  match applied with
  | None => (Some targetgain, plain)
  | Some startgain =>
      (Some targetgain,
       if flt (fabs (fsub targetgain startgain)) (fdecimal 1 (-6)) then plain
       else mixapplygainramp rate pcmbytes startgain targetgain)
  end.

(** Peak and root mean square of the first [maxsamples] samples. *)
Fixpoint pcmacc (n : nat) (b : bytes) (maxv acc : Z) : Z * Z :=
  match n, b with
  | S n, lo :: hi :: r =>
      let s := unpack_s16le lo hi in
      let a := if 0 <=? s then s else - s in
      pcmacc n r (if maxv <? a then a else maxv) (acc + s * s)
  | _, _ => (maxv, acc)
  end.

Definition pcmstats (pcmbytes : bytes) (maxsamples : Z) : res (Z * pyfloat) :=
  match pcmbytes with
  | [] => Ok (0, fzero)
  | _ =>
      let nsamp := zlen pcmbytes / 2 in
      if nsamp <=? 0 then Ok (0, fzero)
      else
        let nsamp := if maxsamples <? nsamp then maxsamples else nsamp in
        let '(maxv, acc) := pcmacc (Z.to_nat nsamp) pcmbytes 0 0 in
        a ← float_of_int acc;
        d ← float_of_int nsamp;
        q ← fdiv a d;
        Ok (maxv, SFsqrt fprec femax q)
  end.

(** ** The samples of a block *)

Fixpoint samples (b : bytes) : list Z :=
  match b with
  | lo :: hi :: r => unpack_s16le lo hi :: samples r
  | _ => []
  end.

Definition pcm_ok (b : bytes) : Prop := bytes_ok b /\ Z.Even (zlen b).

Lemma bytes_pair_ind (P : bytes -> Prop) :
  P [] -> (forall x, P [x]) -> (forall x y l, P l -> P (x :: y :: l)) -> forall l, P l.
Proof.
  intros H0 H1 H2 l. enough (H : P l /\ forall x, P (x :: l)) by tauto.
  induction l as [|y l [IH1 IH2]]; split; auto.
Qed.

Lemma pcm_ok_inv (P : Prop) lo hi r :
  pcm_ok (lo :: hi :: r) -> (is_byte lo -> is_byte hi -> pcm_ok r -> P) -> P.
Proof.
  intros [Hb [k Hk]] H. apply Forall_cons in Hb as [Hlo Hb]. apply Forall_cons in Hb as [Hhi Hb].
  apply H; [done|done|]. split; [done|]. exists (k - 1). rewrite !zlen_cons in Hk. lia.
Qed.

Lemma pcm_ok_single x : pcm_ok [x] -> False.
Proof. intros [_ [k Hk]]. change (zlen [x]) with 1 in Hk. lia. Qed.

Lemma pcm_ok_cons v r : pcm_ok r -> pcm_ok (pack_s16le v ++ r).
Proof.
  intros [Hb [k Hk]]. split.
  - apply Forall_app. split; [apply pack_s16le_ok|done].
  - exists (k + 1). rewrite zlen_app, Hk. change (zlen (pack_s16le v)) with 2. lia.
Qed.

Lemma samples_cons v r : s16 v -> samples (pack_s16le v ++ r) = v :: samples r.
Proof. intros Hv. simpl. f_equal. exact (unpack_pack_s16le v Hv). Qed.

Lemma samples_length b : pcm_ok b -> 2 * zlen (samples b) = zlen b.
Proof.
  induction b as [|x|lo hi r IH] using bytes_pair_ind; intros Hb; [done|by apply pcm_ok_single in Hb|].
  apply (pcm_ok_inv _ _ _ _ Hb). intros _ _ Hr. simpl. rewrite !zlen_cons, <- IH by done. lia.
Qed.

Lemma samples_s16 b : bytes_ok b -> Forall s16 (samples b).
Proof.
  induction b as [|x|lo hi r IH] using bytes_pair_ind; intros Hb; [constructor..|].
  apply Forall_cons in Hb as [Hlo Hb]. apply Forall_cons in Hb as [Hhi Hb].
  constructor; [by apply unpack_s16le_range|auto].
Qed.

Lemma saturate_s16 v : s16 (saturate v).
Proof. unfold saturate, s16. split_if; lia. Qed.

Lemma saturate_id v : s16 v -> saturate v = v.
Proof. unfold saturate, s16. intros. split_if; lia. Qed.

(** A sample loop that succeeds on every sample: the output block holds the
    results, in place. *)
Lemma map_samples_ok f g b :
  pcm_ok b -> (forall s, s16 s -> s ∈ samples b -> f s = Ok (g s) /\ s16 (g s)) ->
  exists b', map_samples f b = Ok b' /\ samples b' = List.map g (samples b) /\
    zlen b' = zlen b /\ pcm_ok b'.
Proof.
  induction b as [|x|lo hi r IH] using bytes_pair_ind; intros Hb Hf.
  - exists []. done.
  - by apply pcm_ok_single in Hb.
  - apply (pcm_ok_inv _ _ _ _ Hb). intros Hlo Hhi Hr.
    destruct (Hf (unpack_s16le lo hi)) as [H1 H2].
    { by apply unpack_s16le_range. }
    { simpl. left. }
    destruct (IH Hr) as (b' & E & Hs & Hl & Hp).
    { intros s Hs Hin. apply Hf; [done|]. simpl. by right. }
    exists (pack_s16le (g (unpack_s16le lo hi)) ++ b').
    simpl map_samples. rewrite H1. cbn [mbind res_bind]. rewrite E. split; [done|].
    rewrite samples_cons, Hs by done. split; [done|]. split; [|by apply pcm_ok_cons].
    rewrite zlen_app, !zlen_cons, Hl. change (zlen (pack_s16le _)) with 2. lia.
Qed.

(** The scaled sample when it exists. *)
Definition scaled (gain : pyfloat) (s : Z) : Z := match scale gain s with Ok v => v | Exc _ => 0 end.

Lemma scale_unit g s : unit_gain g -> s16 s ->
  scale g s = Ok (scaled g s) /\ s16 (scaled g s) /\ Z.abs (scaled g s) <= Z.abs s /\
  0 <= scaled g s * s.
Proof.
  intros Hg Hs. unfold scaled, scale.
  destruct (float_of_int s) as [f|ex] eqn:E.
  - destruct (attenuate s g f Hs Hg E) as (z & Hz & Hb & Hsg). cbn [mbind res_bind]. rewrite Hz. cbn [mbind res_bind].
    assert (Hz16 : s16 z) by (unfold s16 in *; nia).
    rewrite saturate_id by done. done.
  - exfalso. destruct (float_of_sample s) as [[-> H]|(sx & m & e & H & _)].
    + unfold s16 in Hs. lia.
    + rewrite H in E. done.
    + rewrite H in E. done.
Qed.

Lemma mixsum_ok out inp :
  pcm_ok out -> bytes_ok inp -> zlen out <= zlen inp ->
  exists b, mixsum out inp = Ok b /\ pcm_ok b /\ zlen b = zlen out /\
    samples b = zip_with (fun a c => saturate (a + c)) (samples out) (samples inp).
Proof.
  revert inp. induction out as [|x|lo hi r IH] using bytes_pair_ind; intros inp Ho Hi Hl.
  - exists []. split_and!; done.
  - by apply pcm_ok_single in Ho.
  - apply (pcm_ok_inv _ _ _ _ Ho). intros Hlo Hhi Hr.
    destruct inp as [|lo' [|hi' r']]; rewrite ?zlen_cons, ?zlen_nil in Hl;
      pose proof (zlen_nonneg r); try lia.
    apply Forall_cons in Hi as [_ Hi]. apply Forall_cons in Hi as [_ Hi].
    destruct (IH r' Hr Hi ltac:(lia)) as (b & E & Hb & Hlb & Hs).
    exists (pack_s16le (saturate (unpack_s16le lo hi + unpack_s16le lo' hi')) ++ b).
    simpl mixsum. rewrite E. split; [done|]. split; [by apply pcm_ok_cons|]. split.
    + rewrite zlen_app, !zlen_cons, Hlb. change (zlen (pack_s16le _)) with 2. lia.
    + rewrite samples_cons, Hs by apply saturate_s16. done.
Qed.

Lemma mixsilence_ok n : 0 <= n -> Z.Even n -> pcm_ok (mixsilence n) /\ zlen (mixsilence n) = n.
Proof.
  intros Hn He. unfold mixsilence. rewrite zlen_replicate, Z.max_r by lia. split; [|done].
  split; [|by rewrite zlen_replicate, Z.max_r by lia].
  apply Forall_forall. intros x Hx. unfold zreplicate in Hx. apply elem_of_replicate in Hx as [-> _].
  unfold is_byte. lia.
Qed.

(** ** Totality *)

(** Any gain of magnitude at most four scales any sample. *)
Lemma scale_total g s : absle 4 g -> s16 s -> exists v, scale g s = Ok v /\ s16 v.
Proof.
  intros Hg Hs. assert (Habs : Z.abs s <= BIG) by (unfold s16, BIG in *; lia).
  destruct (float_of_int_total s Habs) as (f & Hf & Hfa). unfold scale. rewrite Hf. cbn [mbind res_bind].
  assert (Hm : absle (Z.abs s * 4) (fmul f g)).
  { apply mul_absle; try done; unfold s16, BIG in *; lia. }
  destruct (int_of_absle _ _ Hm) as (z & -> & _). cbn [mbind res_bind].
  eexists. split; [done|apply saturate_s16].
Qed.

Lemma rampgain_total n g0 g1 frame :
  unit_gain g0 -> unit_gain g1 -> 0 <= frame -> n <= BIG ->
  exists g, rampgain n g0 g1 frame = Ok g /\ absle 4 g.
Proof.
  intros H0 H1 Hf Hn. apply unit_gain_absle in H0, H1. unfold rampgain.
  destruct ((n <=? 1) || (n <=? frame)) eqn:E.
  - exists g1. split; [done|]. by apply (absle_weaken 1).
  - apply orb_false_iff in E as [E1 E2].
    destruct (float_of_int_total frame) as (f & Hfr & _); [lia|].
    destruct (float_of_int_total (n - 1)) as (d & Hd & _); [lia|].
    rewrite Hfr. cbn [mbind res_bind]. rewrite Hd. cbn [mbind res_bind].
    destruct (div_absle frame (n - 1) f d) as (q & -> & Hq); try done; try lia.
    cbn [mbind res_bind]. eexists. split; [done|].
    apply (absle_weaken (1 + (1 + 1) * 1)); [lia|].
    apply add_absle; unfold BIG; try lia; [done|].
    apply mul_absle; unfold BIG; try lia; [|done].
    by apply sub_absle; unfold BIG; try lia.
Qed.

Lemma ramp_loop_total gain b frame :
  (forall i, 0 <= i -> exists g, gain i = Ok g /\ absle 4 g) -> 0 <= frame -> pcm_ok b ->
  exists b', rampframes_loop gain frame b = Ok b' /\ zlen b' = zlen b /\ pcm_ok b'.
Proof.
  intros Hg. remember (length b) as n eqn:Hn. revert b frame Hn.
  induction n as [n IH] using lt_wf_ind. intros b frame -> Hf Hb.
  destruct b as [|l0 [|h0 [|l1 [|h1 r]]]]; try (eexists; by split_and!).
  apply (pcm_ok_inv _ _ _ _ Hb). intros Hl0 Hh0 Hb1.
  apply (pcm_ok_inv _ _ _ _ Hb1). intros Hl1 Hh1 Hr.
  destruct (Hg frame Hf) as (g & Eg & Ha).
  destruct (scale_total g (unpack_s16le l0 h0) Ha) as (v0 & Ev0 & _); [by apply unpack_s16le_range|].
  destruct (scale_total g (unpack_s16le l1 h1) Ha) as (v1 & Ev1 & _); [by apply unpack_s16le_range|].
  destruct (IH (length r)) with (b := r) (frame := frame + 1) as (b' & Eb & Hlb & Hpb); try done.
  { simpl. lia. }
  { lia. }
  exists (pack_s16le v0 ++ pack_s16le v1 ++ b'). cbn [rampframes_loop].
  rewrite Eg. cbn [mbind res_bind]. rewrite Ev0. cbn [mbind res_bind]. rewrite Ev1. cbn [mbind res_bind].
  rewrite Eb. split; [done|]. split; [|by do 2 apply pcm_ok_cons].
  rewrite !zlen_app, !zlen_cons, Hlb. change (zlen (pack_s16le _)) with 2. lia.
Qed.

Lemma gain_total b g : pcm_ok b -> unit_gain g ->
  exists b', mixapplygain b g = Ok b' /\ zlen b' = zlen b /\ pcm_ok b'.
Proof.
  intros Hb Hg. unfold mixapplygain. destruct (feqb g fone); [by exists b|].
  destruct (map_samples_ok (scale g) (scaled g) b Hb) as (b' & H & _ & Hl & Hp).
  { intros s Hs _. by destruct (scale_unit g s Hg Hs) as (? & ? & _). }
  by exists b'.
Qed.

Lemma ramp_total rate b g0 g1 :
  rate <= 2 ^ 31 -> zlen b <= BIG -> pcm_ok b -> unit_gain g0 -> unit_gain g1 ->
  exists b', mixapplygainramp rate b g0 g1 = Ok b' /\ zlen b' = zlen b /\ pcm_ok b'.
Proof.
  intros Hr Hlen Hb H0 H1. unfold mixapplygainramp. destruct b as [|x b0]; [by exists []|].
  set (b := x :: b0) in *. destruct (zlen b / FRAMEBYTES <=? 0); [by exists b|].
  destruct (flt _ _); [by apply gain_total|].
  destruct (float_of_int_total (Z.max 1 rate)) as (f & -> & Hf); [unfold BIG; lia|]. cbn [mbind res_bind].
  assert (Hten : MASTERGAINRAMPMS = S754_finite false 5629499534213120 (-49)) by reflexivity.
  assert (Hth : fdecimal 1000 0 = S754_finite false 8796093022208000 (-43)) by reflexivity.
  assert (Hm : absle (2 ^ 31 * 16) (fmul f MASTERGAINRAMPMS)).
  { apply mul_absle; [lia|lia|unfold BIG; lia| |].
    - apply (absle_weaken (Z.abs (Z.max 1 rate))); [lia|done].
    - rewrite Hten. split; [lia|by vm_compute]. }
  rewrite Hth. destruct (div_ge1_absle (2 ^ 31 * 16) _ false 8796093022208000 (-43) ltac:(unfold BIG; lia) Hm) as (q & -> & Hq);
    [lia|by vm_compute|]. cbn [mbind res_bind].
  destruct (int_round_total _ _ Hq) as (n & ->). cbn [mbind res_bind].
  apply ramp_loop_total; [|lia|done]. intros i Hi. apply rampgain_total; try done.
  assert (zlen b / FRAMEBYTES <= zlen b); [|lia].
  unfold FRAMEBYTES, DEFAULTCH. pose proof (zlen_nonneg b). apply Z.div_le_upper_bound; lia.
Qed.

Lemma calibrated_unit g : mag g -> is_nan g = false -> unit_gain (calibratedmastergain g).
Proof.
  intros Hm Hn. unfold calibratedmastergain, clamp. destruct (flt g fzero) eqn:E1; [done|].
  destruct (fgt g fone) eqn:E2.
  - rewrite fone_eq. split; [lia|by vm_compute].
  - by apply unit_gain_between.
Qed.

(** The properties of sample processing: gains in [0, 1] attenuate sample by
    sample, mixing saturates, the master stage is total and silences a muted
    mixer, and a gain that is not a number makes it raise. *)
(** ** Gain *)

(** A gain in [0, 1] applied to a block of samples succeeds and keeps the
    block's length; sample by sample the result is the truncated product, which
    has the sample's sign and is no larger, so the saturation guards never
    cut anything. *)
Theorem mixapplygain_attenuates b g :
  pcm_ok b -> unit_gain g ->
  exists b', mixapplygain b g = Ok b' /\ zlen b' = zlen b /\ pcm_ok b' /\
    Forall2 (fun s s' => Z.abs s' <= Z.abs s /\ 0 <= s' * s /\
      (feqb g fone = true -> s' = s) /\
      (feqb g fone = false -> exists f, float_of_int s = Ok f /\ int_of_float (fmul f g) = Ok s'))
      (samples b) (samples b').
Proof.
  intros Hb Hg. unfold mixapplygain. destruct (feqb g fone) eqn:E.
  - exists b. split_and!; try done. apply Forall_Forall2_diag.
    eapply Forall_impl; [apply samples_s16, Hb|]. intros s _. cbv beta. split_and!; (done || lia || apply Z.square_nonneg).
  - destruct (map_samples_ok (scale g) (scaled g) b Hb) as (b' & H & Hs & Hl & Hp).
    { intros s Hs _. by destruct (scale_unit g s Hg Hs) as (? & ? & _). }
    exists b'. split_and!; try done. rewrite Hs. apply Forall2_fmap_r, Forall_Forall2_diag.
    eapply Forall_impl; [apply samples_s16, Hb|]. intros s Hs16. cbv beta.
    destruct (scale_unit g s Hg Hs16) as (Hsc & _ & Habs & Hsg). split_and!; [done|done|done|].
    intros _. unfold scale in Hsc. destruct (float_of_int s) as [f|] eqn:Ef; [|done].
    exists f. split; [done|]. destruct (attenuate s g f Hs16 Hg Ef) as (z & Hz & Hza & Hzs).
    cbn [mbind res_bind] in Hsc. rewrite Hz in Hsc. cbn [mbind res_bind] in Hsc.
    rewrite saturate_id in Hsc by (unfold s16 in *; nia). injection Hsc as ->. by rewrite Hz.
Qed.

(** Adding a block into the mix buffer adds sample by sample, saturating at
    the 16-bit limits, and leaves the length of the mix buffer unchanged. *)
Theorem mixsum_saturates out inp :
  pcm_ok out -> bytes_ok inp -> zlen out <= zlen inp ->
  exists b, mixsum out inp = Ok b /\ pcm_ok b /\ zlen b = zlen out /\
    samples b = zip_with (fun a c => Z.max (-32768) (Z.min 32767 (a + c))) (samples out) (samples inp).
Proof.
  intros Ho Hi Hl. destruct (mixsum_ok out inp Ho Hi Hl) as (b & H1 & H2 & H3 & H4).
  exists b. split_and!; try done. rewrite H4. apply zip_with_ext; [|done|done].
  intros a c. unfold saturate. split_if; lia.
Qed.

(** ** The master stage *)

(** For a master gain that is a number, at every sample rate up to [2^31],
    and after every earlier gain in [0, 1], the master stage succeeds on every
    block of whole samples (also while it ramps), keeps the block's length, and
    leaves as applied gain the calibrated one, which is in [0, 1] again. *)
Theorem mixmaster_total rate mastergain mastermute applied b :
  rate <= 2 ^ 31 -> zlen b <= BIG -> pcm_ok b -> mag mastergain -> is_nan mastergain = false ->
  (forall g, applied = Some g -> unit_gain g) ->
  exists g b', mixmaster rate mastergain mastermute applied b = (Some g, Ok b') /\
    g = (if mastermute : bool then fzero else calibratedmastergain mastergain) /\
    unit_gain g /\ zlen b' = zlen b /\ pcm_ok b'.
Proof.
  intros Hr Hlen Hb Hm Hn Happ. unfold mixmaster, mastergainmultiplier.
  set (target := if mastermute then fzero else calibratedmastergain mastergain).
  assert (Ht : unit_gain target).
  { unfold target. destruct mastermute; [done|by apply calibrated_unit]. }
  assert (Hp : exists b', (if feqb target fone then Ok b else mixapplygain b target) = Ok b' /\
    zlen b' = zlen b /\ pcm_ok b').
  { destruct (feqb target fone); [by exists b|by apply gain_total]. }
  destruct Hp as (bp & -> & Hlp & Hpp).
  destruct applied as [g0|].
  - destruct (flt _ _).
    + by exists target, bp.
    + destruct (ramp_total rate b g0 target) as (b' & -> & ? & ?); try done; [by apply Happ|].
      by exists target, b'.
  - by exists target, bp.
Qed.

(** Once a mute has settled (the last gain applied was zero, or nothing was
    played yet) every sample of the output is zero. *)
Theorem mixmaster_mute rate mastergain applied b :
  pcm_ok b -> applied = None \/ applied = Some fzero ->
  exists b', mixmaster rate mastergain true applied b = (Some fzero, Ok b') /\
    zlen b' = zlen b /\ Forall (fun s => s = 0) (samples b').
Proof.
  intros Hb Happ. assert (Hz : unit_gain fzero) by done.
  assert (Hg : exists b', mixapplygain b fzero = Ok b' /\ zlen b' = zlen b /\
    Forall (fun s => s = 0) (samples b')).
  { destruct (map_samples_ok (scale fzero) (scaled fzero) b Hb) as (b' & H & Hs & Hl & _).
    { intros s Hs _. by destruct (scale_unit fzero s Hz Hs) as (? & ? & _). }
    exists b'. split; [exact H|]. split; [done|]. rewrite Hs. apply Forall_map, Forall_forall.
    intros s Hin. assert (Hs16 : s16 s) by (eapply Forall_forall in Hin; [done|by apply samples_s16, Hb]).
    unfold scaled, scale. destruct (float_of_int_total s) as (f & -> & Hf); [unfold s16, BIG in *; lia|].
    cbn [mbind res_bind]. destruct f; done. }
  destruct Hg as (b' & Hg & Hl & Hs). exists b'. split; [|done].
  unfold mixmaster. change (feqb fzero fone) with false. cbn iota.
  destruct Happ as [->| ->]; [by rewrite Hg|].
  change (flt (fabs (fsub fzero fzero)) (fdecimal 1 (-6))) with true. by rewrite Hg.
Qed.

(** With a master gain that is not a number the master stage raises on every
    block that holds a sample: [clamp] lets the value through. *)
Theorem mixmaster_nan_raises rate lo hi r :
  is_byte lo -> is_byte hi -> mixmaster rate fnan false None (lo :: hi :: r) = (Some fnan, Exc ValueError).
Proof.
  intros Hlo Hhi. unfold mixmaster, mastergainmultiplier, calibratedmastergain.
  change (clamp fnan fzero fone) with fnan. change (feqb fnan fone) with false. cbn iota. f_equal.
  unfold mixapplygain. change (feqb fnan fone) with false. cbn [map_samples].
  pose proof (unpack_s16le_range lo hi Hlo Hhi) as Hs.
  destruct (float_of_int_total (unpack_s16le lo hi)) as (f & Hf & _); [unfold s16, BIG in *; lia|].
  unfold scale. rewrite Hf. cbn [mbind res_bind].
  replace (fmul f fnan) with fnan by (by destruct f). done.
Qed.

(** ** Witnesses *)

Definition two_samples : bytes := [0; 128; 100; 0].

Lemma two_samples_ok : pcm_ok two_samples.
Proof. split; [repeat constructor; unfold is_byte; lia|by exists 2]. Qed.

Lemma mixapplygain_attenuates_witness :
  mixapplygain two_samples (fdecimal 5 (-1)) = Ok [0; 192; 50; 0] /\
  exists b', mixapplygain two_samples (fdecimal 5 (-1)) = Ok b' /\ zlen b' = 4.
Proof.
  split; [vm_compute; reflexivity|].
  destruct (mixapplygain_attenuates two_samples (fdecimal 5 (-1))) as (b' & H1 & H2 & _).
  - apply two_samples_ok.
  - vm_compute. split; [discriminate|discriminate].
  - exists b'. split; [exact H1|exact H2].
Defined.

Lemma mixsum_saturates_witness :
  exists b, mixsum two_samples two_samples = Ok b /\ samples b = [-32768; 200].
Proof.
  destruct (mixsum_saturates two_samples two_samples) as (b & H1 & _ & _ & H2).
  - apply two_samples_ok.
  - apply two_samples_ok.
  - vm_compute; discriminate.
  - exists b. split; [exact H1|]. rewrite H2. vm_compute. reflexivity.
Defined.

Lemma mixmaster_total_witness :
  exists g b', mixmaster 48000 (fdecimal 5 (-1)) false (Some fzero) (concat (replicate 4 two_samples))
    = (Some g, Ok b') /\ zlen b' = 16.
Proof.
  destruct (mixmaster_total 48000 (fdecimal 5 (-1)) false (Some fzero) (concat (replicate 4 two_samples)))
    as (g & b' & H1 & _ & _ & H2 & _).
  - vm_compute; discriminate.
  - vm_compute; discriminate.
  - split; [repeat constructor; unfold is_byte; lia|by exists 8].
  - vm_compute; reflexivity.
  - reflexivity.
  - intros g [= <-]. exact I.
  - exists g, b'. split; [exact H1|exact H2].
Defined.

Lemma mixmaster_mute_witness :
  exists b', mixmaster 48000 fone true None two_samples = (Some fzero, Ok b') /\
    Forall (fun s => s = 0) (samples b').
Proof.
  destruct (mixmaster_mute 48000 fone None two_samples) as (b' & H1 & _ & H2).
  - apply two_samples_ok.
  - left; reflexivity.
  - exists b'. split; [exact H1|exact H2].
Defined.

Lemma mixmaster_nan_raises_witness :
  mixmaster 48000 fnan false None two_samples = (Some fnan, Exc ValueError).
Proof. apply mixmaster_nan_raises; unfold is_byte; lia. Defined.
