(* ===== verification/AudioWire.v ===== *)
(** The wire format of the audio service (audio.py): packet headers, JSON bodies,
    packing and unpacking, and the client's send, receive and request calls over
    a byte stream that arrives in pieces. *)

From stdpp Require Import base list strings.
From Stdlib Require Import ZArith Lia Bool String.
From S2P Require Import Prelude PyFloat PyText PyVal PyJson Exchange Pcm.
Open Scope Z_scope.

(** ** Protocol constants *)

Definition MAGIC : bytes := [84; 49; 65; 85].
Definition PROTO : Z := 1.
Definition HEADER_SIZE : Z := 12.
Definition AUDIO_MAXMSG : Z := 1024 * 1024.

Definition MSGHELLO : Z := 1.
Definition MSGPING : Z := 2.
Definition MSGCONFIG : Z := 3.
Definition MSGDEVLIST : Z := 10.
Definition MSGDEVSET : Z := 11.
Definition MSGSTREAMOPEN : Z := 20.
Definition MSGSTREAMCLOSE : Z := 21.
Definition MSGSTREAMWRITE : Z := 22.
Definition MSGSTREAMREAD : Z := 23.
Definition MSGSTREAMSTATUS : Z := 24.
Definition MSGSTREAMCONTROL : Z := 25.
Definition MSGVOLUME : Z := 30.
Definition MSGMUTE : Z := 31.
Definition MSGSUBSCRIBE : Z := 40.
Definition MSGNOTIFY : Z := 41.
Definition MSGERROR : Z := 250.

(** ** Packing *)

(** [struct.pack('>4sBBHI', ...)] raises when a field is out of range. *)
Definition packetheader (msgtype length : Z) : res bytes :=
  if (0 <=? msgtype) && (msgtype <? 256) && (0 <=? length) && (length <? 2 ^ 32)
  then Ok (MAGIC ++ [PROTO; msgtype; 0; 0] ++ pack_u32be length)
  else Exc StructError.

Definition jsonbytes (payload : pyval) : res bytes :=
  match payload with
  | PNone => Ok []
  | v => match utf8_encode (json_dumps j_compact v) with
         | Ok b => Ok b
         | Exc _ => Exc AudioProtocolError
         end
  end.

(** [raw] is the empty list for both [None] and [b'']. *)
Definition packrequest (msgtype : Z) (payload : pyval) (raw : bytes) : res bytes :=
  body ←
    (if msgtype =? MSGSTREAMWRITE then
       jblob ← jsonbytes (match payload with PNone => PDict [] | v => v end);
       Ok (pack_u32be (zlen jblob) ++ jblob ++ raw)
     else
       b ← jsonbytes payload;
       Ok (b ++ raw));
  if AUDIO_MAXMSG <? zlen body then Exc AudioProtocolError
  else h ← packetheader msgtype (zlen body); Ok (h ++ body).

Definition packresponse (msgtype : Z) (payload : pyval) (raw : bytes) : res bytes :=
  b ← jsonbytes payload;
  let body := b ++ raw in
  if AUDIO_MAXMSG <? zlen body then Exc AudioProtocolError
  else h ← packetheader msgtype (zlen body); Ok (h ++ body).

(** ** Unpacking *)

(** The header fields: magic, protocol, message type, flags and length. *)
Definition unpackheader (buf : bytes) : bytes * Z * Z * Z * Z :=
  (ztake 4 buf, znth buf 4, znth buf 5, unpack_u16be (zdrop 6 buf), unpack_u32be (zdrop 8 buf)).

(** [None]: not a whole message yet.  The payload is [PNone] and the body is
    raw when it is not JSON. *)
Definition unpackresponse (buf : bytes) : res (option (Z * pyval * option bytes) * bytes) :=
  if zlen buf <? HEADER_SIZE then Ok (None, buf)
  else
    let '(magic, proto, msgtype, flags, length) := unpackheader buf in
    if negb (bool_decide (magic = MAGIC)) then Exc AudioProtocolError
    else if negb (proto =? PROTO) then Exc AudioProtocolError
    else if AUDIO_MAXMSG <? length then Exc AudioProtocolError
    else
      let need := HEADER_SIZE + length in
      if zlen buf <? need then Ok (None, buf)
      else
        let body := zslice buf HEADER_SIZE need in
        let rest := zdrop need buf in
        match body with
        | [] => Ok (Some (msgtype, PNone, None), rest)
        | _ =>
            match utf8_decode body ≫= json_loads with
            | Ok v => Ok (Some (msgtype, v, None), rest)
            | Exc _ => Ok (Some (msgtype, PNone, Some body), rest)
            end
        end.

(** ** The client *)

(** What the client meets while it waits: a piece of data (an empty one is the
    end of the stream), a passed deadline, or an error of [recv]. *)
Inductive netevent : Type := NData (b : bytes) | NLate | NError.

(** [AudioClient]: connected, the unread bytes, the notifications kept, and what
    was given to [sendall]. *)
Record aclient : Type := mkac {
  ac_sock : bool; ac_inbuf : bytes; ac_notifies : list pyval; ac_sent : list bytes }.

Definition ac_disconnect (c : aclient) : aclient := mkac false [] (ac_notifies c) (ac_sent c).

Inductive aexn : Type := AUnavailable | AProtocol (e : exn) | ATimeout | AServer (msg : pystr).

(** The outcome of a client call: blocked when the events run out. *)
Inductive aresult (A : Type) : Type :=
| ABlocked
| ARaise (c : aclient) (evs : list netevent) (e : aexn)
| ADone (c : aclient) (evs : list netevent) (a : A).
Arguments ABlocked {A}.
Arguments ARaise {A} c evs e.
Arguments ADone {A} c evs a.

(** [sends] is whether [sendall] succeeds. *)
Definition ac_send (sends : bool) (msgtype : Z) (payload : pyval) (raw : bytes) (c : aclient)
  : aclient * option aexn :=
  if negb (ac_sock c) then (c, Some AUnavailable)
  else
    match packrequest msgtype payload raw with
    | Exc e => (c, Some (AProtocol e))
    | Ok packet =>
        if sends then (mkac true (ac_inbuf c) (ac_notifies c) (ac_sent c ++ [packet]), None)
        else (ac_disconnect c, Some AUnavailable)
    end.

(** The receive loop: one event per turn. *)
Fixpoint ac_receive (c : aclient) (evs : list netevent) : aresult (Z * pyval * option bytes) :=
  if negb (ac_sock c) then ARaise c evs AUnavailable
  else
    match unpackresponse (ac_inbuf c) with
    | Exc e => ARaise c evs (AProtocol e)
    | Ok (Some m, rest) => ADone (mkac true rest (ac_notifies c) (ac_sent c)) evs m
    | Ok (None, _) =>
        match evs with
        | [] => ABlocked
        | NLate :: evs' => ARaise c evs' ATimeout
        | NError :: evs' => ARaise (ac_disconnect c) evs' AUnavailable
        | NData [] :: evs' => ARaise (ac_disconnect c) evs' AUnavailable
        | NData chunk :: evs' =>
            let inbuf := ac_inbuf c ++ chunk in
            if AUDIO_MAXMSG + HEADER_SIZE <? zlen inbuf
            then ARaise (ac_disconnect c) evs' (AProtocol AudioProtocolError)
            else ac_receive (mkac true inbuf (ac_notifies c) (ac_sent c)) evs'
        end
    end.

(** The last [n] elements. *)
Definition zlast {A} (n : Z) (l : list A) : list A := zdrop (zlen l - n) l.

Definition keep_notify (v : pyval) (l : list pyval) : list pyval :=
  let l := l ++ [v] in if 100 <? zlen l then zlast 100 l else l.

Definition late (evs : list netevent) : bool := match evs with NLate :: _ => true | _ => false end.

Section Client.
Context {U : PyUnicode}.

(** The reply loop of [request].  A deadline that has passed at the top of a turn
    is the event [NLate]. *)
Fixpoint ac_reply (fuel : nat) (msgtype : Z) (c : aclient) (evs : list netevent) : aresult pyval :=
  match fuel with
  | O => ABlocked
  | S fuel =>
      if late evs then ARaise c (tl evs) ATimeout
      else
        match ac_receive c evs with
        | ABlocked => ABlocked
        | ARaise c evs e => ARaise c evs e
        | ADone c evs (rtype, response, response_raw) =>
            if rtype =? MSGNOTIFY then
              ac_reply fuel msgtype
                (mkac (ac_sock c) (ac_inbuf c) (keep_notify response (ac_notifies c)) (ac_sent c)) evs
            else if rtype =? MSGERROR then
              match response with
              | PDict d =>
                  ARaise c evs (AServer (py_str (dict_get_def (lit "error")
                    (dict_get_def (lit "text") (PStr (lit "audio server error")) d) d)))
              | _ => ARaise c evs (AServer (lit "audio server error"))
              end
            else if negb (rtype =? msgtype) then ac_reply fuel msgtype c evs
            else
              match response, response_raw with
              | PNone, Some (_ :: _) => ARaise c evs (AProtocol AudioProtocolError)
              | v, _ => ADone c evs v
              end
        end
  end.

(** Every turn of the loop but the last takes a whole message, of at least a
    header, from the buffer: the number of bytes bounds the turns. *)
Fixpoint event_bytes (evs : list netevent) : nat :=
  match evs with
  | [] => O
  | NData b :: evs' => (List.length b + event_bytes evs')%nat
  | _ :: evs' => event_bytes evs'
  end.

Definition reply_fuel (c : aclient) (evs : list netevent) : nat :=
  S (List.length (ac_inbuf c) + event_bytes evs).

Definition ac_request (sends : bool) (msgtype : Z) (payload : pyval) (raw : bytes)
    (c : aclient) (evs : list netevent) : aresult pyval :=
  let '(c, e) := ac_send sends msgtype payload raw c in
  match e with
  | Some e => ARaise c evs e
  | None => ac_reply (reply_fuel c evs) msgtype c evs
  end.

End Client.
