(* ===== verification/AudioWireSpec.v ===== *)
(** The properties of the audio wire format and of the client: packing and
    unpacking round trip, incomplete messages are kept, and a request returns
    the matching reply however the server's bytes are cut into pieces. *)

From stdpp Require Import base list strings.
From Stdlib Require Import ZArith Lia Bool String.
From S2P Require Import Prelude PyFloat PyText PyVal PyJson Exchange Pcm AudioWire.
Open Scope Z_scope.

Lemma packetheader_ok t n : 0 <= t < 256 -> 0 <= n <= AUDIO_MAXMSG ->
  packetheader t n = Ok (MAGIC ++ [PROTO; t; 0; 0] ++ pack_u32be n).
Proof.
  unfold packetheader, AUDIO_MAXMSG. intros Ht Hn.
  destruct ((0 <=? t) && (t <? 256) && (0 <=? n) && (n <? 2 ^ 32)) eqn:E; [done|].
  rewrite !andb_false_iff in E. lia.
Qed.

Lemma unpackheader_pack t n b : 0 <= n <= AUDIO_MAXMSG ->
  unpackheader ((MAGIC ++ [PROTO; t; 0; 0] ++ pack_u32be n) ++ b) = (MAGIC, PROTO, t, 0, n).
Proof.
  intros Hn. unfold unpackheader.
  change (zdrop 8 ((MAGIC ++ [PROTO; t; 0; 0] ++ pack_u32be n) ++ b)) with (pack_u32be n ++ b).
  rewrite unpack_pack_u32be by (unfold AUDIO_MAXMSG in Hn; lia). done.
Qed.

Lemma header_length t n : zlen (MAGIC ++ [PROTO; t; 0; 0] ++ pack_u32be n) = HEADER_SIZE.
Proof. done. Qed.

(** The body of a message as the receiver decodes it. *)
Definition body_of (body : bytes) : pyval * option bytes :=
  match body with
  | [] => (PNone, None)
  | _ => match utf8_decode body ≫= json_loads with
         | Ok v => (v, None)
         | Exc _ => (PNone, Some body)
         end
  end.

(** A packet at the head of the buffer is taken off it. *)
Lemma unpack_packet t body rest :
  0 <= t < 256 -> zlen body <= AUDIO_MAXMSG ->
  unpackresponse ((MAGIC ++ [PROTO; t; 0; 0] ++ pack_u32be (zlen body)) ++ body ++ rest) =
    Ok (Some (t, (body_of body).1, (body_of body).2), rest).
Proof.
  intros Ht Hb. pose proof (zlen_nonneg body) as H0. pose proof (zlen_nonneg rest) as H1.
  unfold unpackresponse. rewrite zlen_app, header_length, zlen_app.
  destruct (HEADER_SIZE + _ <? HEADER_SIZE) eqn:E; [lia|].
  rewrite unpackheader_pack by lia. rewrite bool_decide_eq_true_2 by done. simpl negb. cbv iota.
  destruct (AUDIO_MAXMSG <? zlen body) eqn:E2; [lia|]. 
  destruct (_ <? HEADER_SIZE + zlen body) eqn:E3; [lia|].
  assert (Hd : zdrop HEADER_SIZE ((MAGIC ++ [PROTO; t; 0; 0] ++ pack_u32be (zlen body)) ++ body ++ rest) = body ++ rest) by done.
  unfold zslice. rewrite Hd. replace (HEADER_SIZE + zlen body - HEADER_SIZE) with (zlen body) by lia.
  rewrite ztake_app_exact by done.
  assert (Hr : zdrop (HEADER_SIZE + zlen body) ((MAGIC ++ [PROTO; t; 0; 0] ++ pack_u32be (zlen body)) ++ body ++ rest) = rest).
  { rewrite app_assoc. apply zdrop_app_exact. by rewrite zlen_app, header_length. }
  rewrite Hr. unfold body_of. destruct body as [|x body]; [done|].
  by destruct (utf8_decode (x :: body) ≫= json_loads).
Qed.

Lemma jsonbytes_ok v : json_ok v = true -> exists b, jsonbytes v = Ok b /\ body_of b = (v, None).
Proof.
  intros Hv. destruct v; [by exists []| | | | | |];
    (eexists; unfold jsonbytes; rewrite (encode_dumps j_compact) by (done || apply j_compact_clean);
     split; [reflexivity|];
     match goal with |- body_of (utf8_encode_replace (json_dumps _ ?v)) = _ =>
       pose proof (dumps_nonempty j_compact v Hv) as Hne;
       pose proof (decode_dumps j_compact v j_compact_clean j_compact_ok Hv) as Hd;
       unfold body_of; destruct (utf8_encode_replace (json_dumps j_compact v)); [done|];
       by rewrite Hd
     end).
Qed.

(** Packing a response and unpacking it from the head of a buffer gives back
    the message type and the document and leaves exactly the bytes after the
    packet; every document the wire can carry packs, unless it is too large. *)
Theorem packresponse_roundtrip t v rest p :
  0 <= t < 256 -> json_ok v = true -> packresponse t v [] = Ok p ->
  unpackresponse (p ++ rest) = Ok (Some (t, v, None), rest) /\
  zlen p <= HEADER_SIZE + AUDIO_MAXMSG.
Proof.
  intros Ht Hv. destruct (jsonbytes_ok v Hv) as (b & Hb & Hbody). unfold packresponse. rewrite Hb.
  cbn [mbind res_bind]. rewrite app_nil_r. destruct (AUDIO_MAXMSG <? zlen b) eqn:E; [discriminate|].
  pose proof (zlen_nonneg b). rewrite packetheader_ok by lia. cbn [mbind res_bind]. intros [= <-].
  split.
  - pose proof (unpack_packet t b rest Ht ltac:(lia)) as H1. rewrite Hbody in H1. exact H1.
  - change (zlen ((MAGIC ++ [PROTO; t; 0; 0] ++ pack_u32be (zlen b)) ++ b) <= HEADER_SIZE + AUDIO_MAXMSG).
    rewrite zlen_app, header_length. lia.
Qed.

(** ** Receiving in pieces *)

Definition packet (t : Z) (body : bytes) : bytes :=
  (MAGIC ++ [PROTO; t; 0; 0] ++ pack_u32be (zlen body)) ++ body.

Lemma packet_length t body : zlen (packet t body) = HEADER_SIZE + zlen body.
Proof. unfold packet. by rewrite zlen_app, header_length. Qed.

(** A buffer that holds only the beginning of a packet is kept as it is. *)
Lemma unpack_incomplete t body rest buf q :
  zlen body <= AUDIO_MAXMSG -> buf ++ q = packet t body ++ rest ->
  zlen buf < zlen (packet t body) -> unpackresponse buf = Ok (None, buf).
Proof.
  intros Hb Hbuf Hl. rewrite packet_length in Hl. pose proof (zlen_nonneg body).
  unfold unpackresponse. destruct (zlen buf <? HEADER_SIZE) eqn:E; [done|].
  unfold packet in Hbuf. rewrite <- app_assoc in Hbuf.
  apply app_eq_inv in Hbuf as [(k & -> & Hk)|(k & Hh & _)].
  - rewrite unpackheader_pack by lia. rewrite bool_decide_eq_true_2 by done. simpl negb. cbv iota.
    destruct (AUDIO_MAXMSG <? zlen body) eqn:E2; [lia|].
    destruct (_ <? HEADER_SIZE + zlen body) eqn:E3; [done|lia].
  - assert (k = []) as ->.
    { apply (f_equal zlen) in Hh. rewrite header_length, zlen_app in Hh. apply zlen_zero.
      pose proof (zlen_nonneg k). lia. }
    rewrite app_nil_r in Hh. rewrite <- Hh, <- (app_nil_r (MAGIC ++ _)) in *.
    rewrite unpackheader_pack by lia. rewrite bool_decide_eq_true_2 by done. simpl negb. cbv iota.
    destruct (AUDIO_MAXMSG <? zlen body) eqn:E2; [lia|].
    destruct (_ <? HEADER_SIZE + zlen body) eqn:E3; [done|lia].
Qed.

Definition RECVMAX : Z := 65536.
Definition chunk_ok (d : bytes) : Prop := d <> [] /\ zlen d <= RECVMAX.
Definition chunks (cs : list bytes) : list netevent := List.map NData cs.

(** A message whose reading leaves room for one more [recv] in the buffer. *)
Definition body_fits (body : bytes) : Prop := zlen body + RECVMAX <= AUDIO_MAXMSG.

Lemma receive_message c cs evs t body rest :
  ac_sock c = true -> Forall chunk_ok cs -> 0 <= t < 256 -> body_fits body ->
  ac_inbuf c ++ List.concat cs = packet t body ++ rest ->
  exists inbuf cs', ac_receive c (chunks cs ++ evs) =
      ADone (mkac true inbuf (ac_notifies c) (ac_sent c)) (chunks cs' ++ evs)
        (t, (body_of body).1, (body_of body).2) /\
    Forall chunk_ok cs' /\ inbuf ++ List.concat cs' = rest.
Proof.
  intros Hsock Hcs Ht Hfit. unfold body_fits, RECVMAX in Hfit. revert c Hsock.
  assert (Hnow : forall c cs, ac_sock c = true -> Forall chunk_ok cs ->
    zlen (packet t body) <= zlen (ac_inbuf c) -> ac_inbuf c ++ List.concat cs = packet t body ++ rest ->
    exists inbuf cs', ac_receive c (chunks cs ++ evs) =
      ADone (mkac true inbuf (ac_notifies c) (ac_sent c)) (chunks cs' ++ evs)
        (t, (body_of body).1, (body_of body).2) /\
    Forall chunk_ok cs' /\ inbuf ++ List.concat cs' = rest).
  { clear cs Hcs. intros c cs Hsock Hcs Hl He.
    assert (exists z, ac_inbuf c = packet t body ++ z /\ rest = z ++ List.concat cs) as (z & Hz & ->).
    { apply app_eq_inv in He as [?|(k & Hk & He)]; [done|]. exists [].
      assert (k = []) as ->.
      { apply zlen_zero. apply (f_equal zlen) in Hk. rewrite zlen_app in Hk. pose proof (zlen_nonneg k). lia. }
      rewrite app_nil_r in Hk. rewrite app_nil_r. by split. }
    exists z, cs. split; [|done].
    assert (Hun : unpackresponse (ac_inbuf c) = Ok (Some (t, (body_of body).1, (body_of body).2), z)).
    { rewrite Hz. unfold packet. rewrite <- app_assoc. apply unpack_packet; [done|lia]. }
    destruct (chunks cs ++ evs); cbn [ac_receive]; by rewrite Hsock, Hun. }
  induction Hcs as [|d cs [Hne Hd] Hcs IH]; intros c Hsock He.
  - apply Hnow; [done|constructor| |done]. rewrite app_nil_r in He. rewrite He, zlen_app.
    pose proof (zlen_nonneg rest). lia.
  - destruct (Z_lt_le_dec (zlen (ac_inbuf c)) (zlen (packet t body))) as [Hl|Hl].
    + cbn [chunks List.map app ac_receive]. rewrite Hsock. cbn [negb].
      rewrite (unpack_incomplete t body rest _ (List.concat (d :: cs))) by (done || lia).
      rewrite packet_length in Hl. destruct d as [|x d]; [done|].
      destruct (AUDIO_MAXMSG + HEADER_SIZE <? zlen (ac_inbuf c ++ x :: d)) eqn:E.
      { rewrite zlen_app in E. unfold RECVMAX in Hd. lia. }
      destruct (IH (mkac true (ac_inbuf c ++ x :: d) (ac_notifies c) (ac_sent c))) as (i & cs' & H1 & H2 & H3);
        [done|cbn [ac_inbuf]; by rewrite <- app_assoc|].
      exists i, cs'. split; [exact H1|done].
    + apply Hnow; [done|by constructor|done|done].
Qed.

(** A document as one packet of the stream. *)
Definition wire (m : Z * pyval) : bytes :=
  match jsonbytes m.2 with Ok b => packet m.1 b | Exc _ => [] end.

Definition msg_ok (m : Z * pyval) : Prop :=
  0 <= m.1 < 256 /\ json_ok m.2 = true /\ forall b, jsonbytes m.2 = Ok b -> body_fits b.

(** Messages a call for a reply of type [t] passes over. *)
Definition passed_over (t : Z) (m : Z * pyval) : Prop :=
  m.1 = MSGNOTIFY \/ m.1 <> MSGERROR /\ m.1 <> t.

Definition note (l : list pyval) (m : Z * pyval) : list pyval :=
  if m.1 =? MSGNOTIFY then keep_notify m.2 l else l.

Section Request.
Context {U : PyUnicode}.

Lemma reply_stream fuel t v ms rest c cs :
  ac_sock c = true -> Forall chunk_ok cs -> Forall msg_ok ms -> msg_ok (t, v) ->
  t <> MSGNOTIFY -> t <> MSGERROR -> Forall (passed_over t) ms ->
  ac_inbuf c ++ List.concat cs = List.concat (List.map wire ms) ++ wire (t, v) ++ rest ->
  zlen (ac_inbuf c ++ List.concat cs) < Z.of_nat fuel ->
  exists inbuf cs', ac_reply fuel t c (chunks cs) =
      ADone (mkac true inbuf (fold_left note ms (ac_notifies c)) (ac_sent c)) (chunks cs') v /\
    inbuf ++ List.concat cs' = rest.
Proof.
  intros Hsock Hcs Hms Hv Hn He. revert fuel c cs Hsock Hcs.
  assert (Hstep : forall c cs m r, ac_sock c = true -> Forall chunk_ok cs -> msg_ok m ->
    ac_inbuf c ++ List.concat cs = wire m ++ r ->
    exists inbuf cs', ac_receive c (chunks cs) =
        ADone (mkac true inbuf (ac_notifies c) (ac_sent c)) (chunks cs') (m.1, m.2, None) /\
      Forall chunk_ok cs' /\ inbuf ++ List.concat cs' = r /\ zlen r < zlen (ac_inbuf c ++ List.concat cs)).
  { intros c cs m r Hsock Hcs (Ht & Hj & Hfit) Hs. destruct (jsonbytes_ok m.2 Hj) as (b & Hb & Hbody).
    unfold wire in Hs. rewrite Hb in Hs.
    destruct (receive_message c cs [] m.1 b r) as (i & cs' & H1 & H2 & H3); try done; [by apply Hfit|].
    rewrite !app_nil_r, Hbody in H1. exists i, cs'. split_and!; try done.
    rewrite Hs, zlen_app, packet_length. pose proof (zlen_nonneg b). unfold HEADER_SIZE. lia. }
  intros fuel c cs Hsock Hcs Hskip. revert fuel c cs Hsock Hcs.
  induction Hms as [|m ms Hm Hms IH]; intros fuel c cs Hsock Hcs Hs Hfuel;
    (destruct fuel as [|fuel]; [pose proof (zlen_nonneg (ac_inbuf c ++ List.concat cs)); lia|]);
    assert (Hlate : late (chunks cs) = false) by (by destruct cs); cbn [ac_reply]; rewrite Hlate.
  - destruct (Hstep c cs (t, v) rest) as (i & cs' & -> & _ & Hr & _); try done. cbn [fst snd].
    destruct (t =? MSGNOTIFY) eqn:E1; [lia|]. destruct (t =? MSGERROR) eqn:E2; [lia|].
    rewrite Z.eqb_refl. cbn [negb]. exists i, cs'. split; [by destruct v|done].
  - apply Forall_cons in Hskip as [Hp Hskip]. cbn [List.map List.concat] in Hs. rewrite <- app_assoc in Hs.
    destruct (Hstep c cs m _ Hsock Hcs Hm Hs) as (i & cs' & -> & Hcs' & Hr & Hlt).
    cbn [fold_left]. unfold note at 2. destruct (m.1 =? MSGNOTIFY) eqn:E1.
    + destruct (IH Hskip fuel (mkac true i (keep_notify m.2 (ac_notifies c)) (ac_sent c)) cs') as (i2 & cs2 & H1 & H2);
        [done|done|done|cbn [ac_inbuf]; rewrite Hr; lia|].
      exists i2, cs2. split; [exact H1|done].
    + destruct Hp as [Hp|[Hp1 Hp2]]; [lia|].
      destruct (m.1 =? MSGERROR) eqn:E2; [lia|]. destruct (m.1 =? t) eqn:E3; [lia|]. cbn [negb].
      destruct (IH Hskip fuel (mkac true i (ac_notifies c) (ac_sent c)) cs') as (i2 & cs2 & H1 & H2);
        [done|done|done|cbn [ac_inbuf]; rewrite Hr; lia|].
      exists i2, cs2. split; [exact H1|done].
Qed.

(** C3: a request whose packet can be sent returns the server's reply, whatever
    pieces the server's bytes arrive in and whatever notifications and other
    replies arrive before it: the notifications are kept (the last hundred), the
    bytes after the reply stay for the next call, and the loop ends within the
    bound of the byte count. *)
Theorem request_reply t payload raw p v ms rest c cs :
  ac_sock c = true -> packrequest t payload raw = Ok p ->
  Forall chunk_ok cs -> Forall msg_ok ms -> msg_ok (t, v) ->
  t <> MSGNOTIFY -> t <> MSGERROR -> Forall (passed_over t) ms ->
  ac_inbuf c ++ List.concat cs = List.concat (List.map wire ms) ++ wire (t, v) ++ rest ->
  exists inbuf cs', ac_request true t payload raw c (chunks cs) =
      ADone (mkac true inbuf (fold_left note ms (ac_notifies c)) (ac_sent c ++ [p])) (chunks cs') v /\
    inbuf ++ List.concat cs' = rest.
Proof.
  intros Hsock Hp Hcs Hms Hv Hn He Hskip Hs. unfold ac_request, ac_send. rewrite Hsock, Hp. cbn [negb].
  apply (reply_stream _ t v ms rest (mkac true (ac_inbuf c) (ac_notifies c) (ac_sent c ++ [p])) cs);
    try done. cbn [ac_inbuf]. unfold reply_fuel. cbn [ac_inbuf].
  assert (Hev : event_bytes (chunks cs) = List.length (List.concat cs)).
  { clear. induction cs as [|d cs IH]; [done|]. simpl. by rewrite IH, length_app. }
  rewrite Hev. unfold zlen. rewrite length_app. lia.
Qed.
End Request.

(** ** Witnesses *)

Section Witnesses.
#[local] Existing Instance ascii_unicode.

Definition ok_reply : pyval := pobj [("ok", PBool true); ("accepted", PInt 4)]%string.
Definition volume_note : pyval := pobj [("type", PStr (lit "volume"))]%string.

Lemma packresponse_roundtrip_witness :
  exists p, packresponse MSGSTREAMWRITE ok_reply [] = Ok p /\
    unpackresponse (p ++ [84; 49]) = Ok (Some (MSGSTREAMWRITE, ok_reply, None), [84; 49]).
Proof.
  eexists. split; [vm_compute; reflexivity|].
  refine (proj1 (packresponse_roundtrip MSGSTREAMWRITE ok_reply [84; 49] _ _ _ _)).
  - split; [discriminate|reflexivity].
  - vm_compute; reflexivity.
  - vm_compute; reflexivity.
Defined.

Definition reply_bytes : bytes := wire (MSGNOTIFY, volume_note) ++ wire (MSGSTREAMWRITE, ok_reply).

Lemma request_reply_witness :
  exists p inbuf cs', ac_request true MSGSTREAMWRITE (pobj [("stream", PInt 1)]%string) [1; 2; 3; 4]
      (mkac true [] [] []) (chunks [ztake 20 reply_bytes; zdrop 20 reply_bytes]) =
    ADone (mkac true inbuf [volume_note] [p]) (chunks cs') ok_reply /\
    inbuf ++ List.concat cs' = [].
Proof.
  eexists.
  apply (request_reply MSGSTREAMWRITE (pobj [("stream", PInt 1)]%string) [1; 2; 3; 4] _ ok_reply
    [(MSGNOTIFY, volume_note)] [] (mkac true [] [] []) [ztake 20 reply_bytes; zdrop 20 reply_bytes]).
  - reflexivity.
  - vm_compute; reflexivity.
  - repeat constructor; vm_compute; discriminate.
  - apply Forall_cons. split; [|constructor]. split; [split; [discriminate|reflexivity]|].
    split; [reflexivity|]. intros b [= <-]. vm_compute. discriminate.
  - split; [split; [discriminate|reflexivity]|].
    split; [reflexivity|]. intros b [= <-]. vm_compute. discriminate.
  - discriminate.
  - discriminate.
  - apply Forall_cons. split; [left; reflexivity|constructor].
  - vm_compute; reflexivity.
Defined.
End Witnesses.
