(* ===== verification/AudioState.v ===== *)
(** The state of the audio service (audioserver.py): streams, clients, backend and
    globals, the state and error monad its functions run in, and the
    configuration and backend functions. *)

From stdpp Require Import base list strings.
From Stdlib Require Import ZArith Lia Bool String.
From Stdlib Require Import SpecFloat.
From S2P Require Import Prelude Assoc Ring PyFloat FloatFacts PyText PyVal PyJson Exchange Pcm AudioWire.
Open Scope Z_scope.

(** ** Data *)

(** A stream, the dict [streamnew] builds; its format is always [DEFAULTCH]
    channels of [DEFAULTFMT], so only the sample rate is kept. *)
Record stream : Type := mkstream {
  st_id : Z;
  st_fd : Z;
  st_rate : Z;
  st_rb : rb;
  st_gain : pyfloat;
  st_mute : bool;
  st_alive : bool;
  st_closing : bool;
  st_started : bool;
  st_paused : bool;
  st_state : pystr;
  st_write_ack : bool;
  st_latency : pystr;
  st_prebuffer : Z;
  st_inbytes : Z;
  st_outbytes : Z;
  st_presented : Z;
  st_segments : list (Z * Z * Z);
  st_underruns : Z;
  st_inmax : Z;
  st_inrms : pyfloat;
  st_lastinlog : pyfloat }.

(** A connected client: the unread and the unsent bytes, the topics it subscribed
    to (a list standing for the set), and whether the selector watches for
    writability. *)
Record client : Type := mkclient {
  cl_inbuf : bytes;
  cl_outbuf : bytes;
  cl_authed : bool;
  cl_subs : list pyval;
  cl_want : bool }.

(** The open output of a file or ALSA backend.  [bk_inforate] is the sample rate
    ALSA negotiated; [bk_written] collects what [os.write] accepted. *)
Record backend : Type := mkbackend {
  bk_alsa : bool;
  bk_outfd : bool;
  bk_periodframes : Z;
  bk_bufferframes : Z;
  bk_framebytes : Z;
  bk_outrb : option rb;
  bk_pending : bytes;
  bk_recoveries : Z;
  bk_ready : bool;
  bk_inforate : option Z;
  bk_written : bytes }.

(** What [os.write] does with a block. *)
Inductive write_result : Type := WroteN (n : Z) | WErrno (e : Z).

(** A device of [DEVICES]: its identifier, what it can do, and whether its backend is
    open.  Every scan makes new objects, so [ACTIVEDEV] may be a device of an older
    scan: [dv_scan] tells the objects of one scan from those of another. *)
Record device : Type := mkdevice { dv_id : pystr; dv_caps : pydict; dv_ready : bool; dv_scan : nat }.

(** The environment: what the successive readings of the clocks and the successive
    system calls give; of the devices, what a scan of the device nodes finds, the
    name and the format of one for control panels, and the backend that opening one
    gives; and whether the selector takes a change of interest. *)
Record env : Type := mkenv {
  e_mono : nat -> pyfloat;
  e_ns : nat -> Z;
  e_wall : nat -> pyfloat;
  e_stamp : nat -> pystr;
  e_delay : nat -> option Z;
  e_write : nat -> write_result;
  e_prepare : nat -> bool;
  e_saves : nat -> bool;
  e_scan : nat -> list device;
  e_name : nat -> res pystr;
  e_format : nat -> res pyval;
  e_open : nat -> backend;
  e_modify : nat -> bool }.

(** The module's globals.  [a_conf] is the configuration file ([None]: absent or
    unreadable), [a_devices] and [a_active] are [DEVICES] and [ACTIVEDEV]. *)
Record aud : Type := mkaud {
  a_env : env;
  a_tick : nat;
  a_running : bool;
  a_clients : list (Z * client);
  a_streams : list (Z * stream);
  a_next : Z;
  a_closed : list ((Z * Z) * (pyfloat * pydict));
  a_mastergain : pyfloat;
  a_mastermute : bool;
  a_applied : option pyfloat;
  a_dirty : bool;
  a_due : pyfloat;
  a_conf : option pyval;
  a_mixframes : Z;
  a_lastmix : pyfloat;
  a_xruns : Z;
  a_mixed : Z;
  a_bpresented : Z;
  a_underruns : Z;
  a_bwrites : Z;
  a_bbytes : Z;
  a_berrs : Z;
  a_lastlevel : pyfloat;
  a_laststat : pyfloat;
  a_lastwrite : pyfloat;
  a_backend : option backend;
  a_devices : list device;
  a_active : option device }.

(** Field updates. *)
Definition set_st_rb (v : rb) (s : stream) : stream :=
  mkstream (st_id s) (st_fd s) (st_rate s) v (st_gain s) (st_mute s) (st_alive s) (st_closing s)
    (st_started s) (st_paused s) (st_state s) (st_write_ack s) (st_latency s) (st_prebuffer s)
    (st_inbytes s) (st_outbytes s) (st_presented s) (st_segments s) (st_underruns s) (st_inmax s)
    (st_inrms s) (st_lastinlog s).
Definition set_st_gain (v : pyfloat) (s : stream) : stream :=
  mkstream (st_id s) (st_fd s) (st_rate s) (st_rb s) v (st_mute s) (st_alive s) (st_closing s)
    (st_started s) (st_paused s) (st_state s) (st_write_ack s) (st_latency s) (st_prebuffer s)
    (st_inbytes s) (st_outbytes s) (st_presented s) (st_segments s) (st_underruns s) (st_inmax s)
    (st_inrms s) (st_lastinlog s).
Definition set_st_mute (v : bool) (s : stream) : stream :=
  mkstream (st_id s) (st_fd s) (st_rate s) (st_rb s) (st_gain s) v (st_alive s) (st_closing s)
    (st_started s) (st_paused s) (st_state s) (st_write_ack s) (st_latency s) (st_prebuffer s)
    (st_inbytes s) (st_outbytes s) (st_presented s) (st_segments s) (st_underruns s) (st_inmax s)
    (st_inrms s) (st_lastinlog s).
Definition set_st_alive (v : bool) (s : stream) : stream :=
  mkstream (st_id s) (st_fd s) (st_rate s) (st_rb s) (st_gain s) (st_mute s) v (st_closing s)
    (st_started s) (st_paused s) (st_state s) (st_write_ack s) (st_latency s) (st_prebuffer s)
    (st_inbytes s) (st_outbytes s) (st_presented s) (st_segments s) (st_underruns s) (st_inmax s)
    (st_inrms s) (st_lastinlog s).
Definition set_st_closing (v : bool) (s : stream) : stream :=
  mkstream (st_id s) (st_fd s) (st_rate s) (st_rb s) (st_gain s) (st_mute s) (st_alive s) v
    (st_started s) (st_paused s) (st_state s) (st_write_ack s) (st_latency s) (st_prebuffer s)
    (st_inbytes s) (st_outbytes s) (st_presented s) (st_segments s) (st_underruns s) (st_inmax s)
    (st_inrms s) (st_lastinlog s).
Definition set_st_started (v : bool) (s : stream) : stream :=
  mkstream (st_id s) (st_fd s) (st_rate s) (st_rb s) (st_gain s) (st_mute s) (st_alive s)
    (st_closing s) v (st_paused s) (st_state s) (st_write_ack s) (st_latency s) (st_prebuffer s)
    (st_inbytes s) (st_outbytes s) (st_presented s) (st_segments s) (st_underruns s) (st_inmax s)
    (st_inrms s) (st_lastinlog s).
Definition set_st_paused (v : bool) (s : stream) : stream :=
  mkstream (st_id s) (st_fd s) (st_rate s) (st_rb s) (st_gain s) (st_mute s) (st_alive s)
    (st_closing s) (st_started s) v (st_state s) (st_write_ack s) (st_latency s) (st_prebuffer s)
    (st_inbytes s) (st_outbytes s) (st_presented s) (st_segments s) (st_underruns s) (st_inmax s)
    (st_inrms s) (st_lastinlog s).
Definition set_st_state (v : pystr) (s : stream) : stream :=
  mkstream (st_id s) (st_fd s) (st_rate s) (st_rb s) (st_gain s) (st_mute s) (st_alive s)
    (st_closing s) (st_started s) (st_paused s) v (st_write_ack s) (st_latency s)
    (st_prebuffer s) (st_inbytes s) (st_outbytes s) (st_presented s) (st_segments s)
    (st_underruns s) (st_inmax s) (st_inrms s) (st_lastinlog s).
Definition set_st_inbytes (v : Z) (s : stream) : stream :=
  mkstream (st_id s) (st_fd s) (st_rate s) (st_rb s) (st_gain s) (st_mute s) (st_alive s)
    (st_closing s) (st_started s) (st_paused s) (st_state s) (st_write_ack s) (st_latency s)
    (st_prebuffer s) v (st_outbytes s) (st_presented s) (st_segments s) (st_underruns s)
    (st_inmax s) (st_inrms s) (st_lastinlog s).
Definition set_st_outbytes (v : Z) (s : stream) : stream :=
  mkstream (st_id s) (st_fd s) (st_rate s) (st_rb s) (st_gain s) (st_mute s) (st_alive s)
    (st_closing s) (st_started s) (st_paused s) (st_state s) (st_write_ack s) (st_latency s)
    (st_prebuffer s) (st_inbytes s) v (st_presented s) (st_segments s) (st_underruns s)
    (st_inmax s) (st_inrms s) (st_lastinlog s).
Definition set_st_presented (v : Z) (s : stream) : stream :=
  mkstream (st_id s) (st_fd s) (st_rate s) (st_rb s) (st_gain s) (st_mute s) (st_alive s)
    (st_closing s) (st_started s) (st_paused s) (st_state s) (st_write_ack s) (st_latency s)
    (st_prebuffer s) (st_inbytes s) (st_outbytes s) v (st_segments s) (st_underruns s)
    (st_inmax s) (st_inrms s) (st_lastinlog s).
Definition set_st_segments (v : list (Z * Z * Z)) (s : stream) : stream :=
  mkstream (st_id s) (st_fd s) (st_rate s) (st_rb s) (st_gain s) (st_mute s) (st_alive s)
    (st_closing s) (st_started s) (st_paused s) (st_state s) (st_write_ack s) (st_latency s)
    (st_prebuffer s) (st_inbytes s) (st_outbytes s) (st_presented s) v (st_underruns s)
    (st_inmax s) (st_inrms s) (st_lastinlog s).
Definition set_st_underruns (v : Z) (s : stream) : stream :=
  mkstream (st_id s) (st_fd s) (st_rate s) (st_rb s) (st_gain s) (st_mute s) (st_alive s)
    (st_closing s) (st_started s) (st_paused s) (st_state s) (st_write_ack s) (st_latency s)
    (st_prebuffer s) (st_inbytes s) (st_outbytes s) (st_presented s) (st_segments s) v
    (st_inmax s) (st_inrms s) (st_lastinlog s).
Definition set_st_inmax (v : Z) (s : stream) : stream :=
  mkstream (st_id s) (st_fd s) (st_rate s) (st_rb s) (st_gain s) (st_mute s) (st_alive s)
    (st_closing s) (st_started s) (st_paused s) (st_state s) (st_write_ack s) (st_latency s)
    (st_prebuffer s) (st_inbytes s) (st_outbytes s) (st_presented s) (st_segments s)
    (st_underruns s) v (st_inrms s) (st_lastinlog s).
Definition set_st_inrms (v : pyfloat) (s : stream) : stream :=
  mkstream (st_id s) (st_fd s) (st_rate s) (st_rb s) (st_gain s) (st_mute s) (st_alive s)
    (st_closing s) (st_started s) (st_paused s) (st_state s) (st_write_ack s) (st_latency s)
    (st_prebuffer s) (st_inbytes s) (st_outbytes s) (st_presented s) (st_segments s)
    (st_underruns s) (st_inmax s) v (st_lastinlog s).
Definition set_st_lastinlog (v : pyfloat) (s : stream) : stream :=
  mkstream (st_id s) (st_fd s) (st_rate s) (st_rb s) (st_gain s) (st_mute s) (st_alive s)
    (st_closing s) (st_started s) (st_paused s) (st_state s) (st_write_ack s) (st_latency s)
    (st_prebuffer s) (st_inbytes s) (st_outbytes s) (st_presented s) (st_segments s)
    (st_underruns s) (st_inmax s) (st_inrms s) v.
Definition set_cl_inbuf (v : bytes) (s : client) : client :=
  mkclient v (cl_outbuf s) (cl_authed s) (cl_subs s) (cl_want s).
Definition set_cl_outbuf (v : bytes) (s : client) : client :=
  mkclient (cl_inbuf s) v (cl_authed s) (cl_subs s) (cl_want s).
Definition set_cl_authed (v : bool) (s : client) : client :=
  mkclient (cl_inbuf s) (cl_outbuf s) v (cl_subs s) (cl_want s).
Definition set_cl_subs (v : list pyval) (s : client) : client :=
  mkclient (cl_inbuf s) (cl_outbuf s) (cl_authed s) v (cl_want s).
Definition set_cl_want (v : bool) (s : client) : client :=
  mkclient (cl_inbuf s) (cl_outbuf s) (cl_authed s) (cl_subs s) v.
Definition set_bk_outrb (v : option rb) (s : backend) : backend :=
  mkbackend (bk_alsa s) (bk_outfd s) (bk_periodframes s) (bk_bufferframes s) (bk_framebytes s) v
    (bk_pending s) (bk_recoveries s) (bk_ready s) (bk_inforate s) (bk_written s).
Definition set_bk_pending (v : bytes) (s : backend) : backend :=
  mkbackend (bk_alsa s) (bk_outfd s) (bk_periodframes s) (bk_bufferframes s) (bk_framebytes s)
    (bk_outrb s) v (bk_recoveries s) (bk_ready s) (bk_inforate s) (bk_written s).
Definition set_bk_recoveries (v : Z) (s : backend) : backend :=
  mkbackend (bk_alsa s) (bk_outfd s) (bk_periodframes s) (bk_bufferframes s) (bk_framebytes s)
    (bk_outrb s) (bk_pending s) v (bk_ready s) (bk_inforate s) (bk_written s).
Definition set_bk_ready (v : bool) (s : backend) : backend :=
  mkbackend (bk_alsa s) (bk_outfd s) (bk_periodframes s) (bk_bufferframes s) (bk_framebytes s)
    (bk_outrb s) (bk_pending s) (bk_recoveries s) v (bk_inforate s) (bk_written s).
Definition set_bk_written (v : bytes) (s : backend) : backend :=
  mkbackend (bk_alsa s) (bk_outfd s) (bk_periodframes s) (bk_bufferframes s) (bk_framebytes s)
    (bk_outrb s) (bk_pending s) (bk_recoveries s) (bk_ready s) (bk_inforate s) v.
Definition set_a_tick (v : nat) (s : aud) : aud :=
  mkaud (a_env s) v (a_running s) (a_clients s) (a_streams s) (a_next s) (a_closed s)
    (a_mastergain s) (a_mastermute s) (a_applied s) (a_dirty s) (a_due s) (a_conf s)
    (a_mixframes s) (a_lastmix s) (a_xruns s) (a_mixed s) (a_bpresented s) (a_underruns s)
    (a_bwrites s) (a_bbytes s) (a_berrs s) (a_lastlevel s) (a_laststat s) (a_lastwrite s)
    (a_backend s) (a_devices s) (a_active s).
Definition set_a_running (v : bool) (s : aud) : aud :=
  mkaud (a_env s) (a_tick s) v (a_clients s) (a_streams s) (a_next s) (a_closed s)
    (a_mastergain s) (a_mastermute s) (a_applied s) (a_dirty s) (a_due s) (a_conf s)
    (a_mixframes s) (a_lastmix s) (a_xruns s) (a_mixed s) (a_bpresented s) (a_underruns s)
    (a_bwrites s) (a_bbytes s) (a_berrs s) (a_lastlevel s) (a_laststat s) (a_lastwrite s)
    (a_backend s) (a_devices s) (a_active s).
Definition set_a_clients (v : list (Z * client)) (s : aud) : aud :=
  mkaud (a_env s) (a_tick s) (a_running s) v (a_streams s) (a_next s) (a_closed s)
    (a_mastergain s) (a_mastermute s) (a_applied s) (a_dirty s) (a_due s) (a_conf s)
    (a_mixframes s) (a_lastmix s) (a_xruns s) (a_mixed s) (a_bpresented s) (a_underruns s)
    (a_bwrites s) (a_bbytes s) (a_berrs s) (a_lastlevel s) (a_laststat s) (a_lastwrite s)
    (a_backend s) (a_devices s) (a_active s).
Definition set_a_streams (v : list (Z * stream)) (s : aud) : aud :=
  mkaud (a_env s) (a_tick s) (a_running s) (a_clients s) v (a_next s) (a_closed s)
    (a_mastergain s) (a_mastermute s) (a_applied s) (a_dirty s) (a_due s) (a_conf s)
    (a_mixframes s) (a_lastmix s) (a_xruns s) (a_mixed s) (a_bpresented s) (a_underruns s)
    (a_bwrites s) (a_bbytes s) (a_berrs s) (a_lastlevel s) (a_laststat s) (a_lastwrite s)
    (a_backend s) (a_devices s) (a_active s).
Definition set_a_next (v : Z) (s : aud) : aud :=
  mkaud (a_env s) (a_tick s) (a_running s) (a_clients s) (a_streams s) v (a_closed s)
    (a_mastergain s) (a_mastermute s) (a_applied s) (a_dirty s) (a_due s) (a_conf s)
    (a_mixframes s) (a_lastmix s) (a_xruns s) (a_mixed s) (a_bpresented s) (a_underruns s)
    (a_bwrites s) (a_bbytes s) (a_berrs s) (a_lastlevel s) (a_laststat s) (a_lastwrite s)
    (a_backend s) (a_devices s) (a_active s).
Definition set_a_closed (v : list ((Z * Z) * (pyfloat * pydict))) (s : aud) : aud :=
  mkaud (a_env s) (a_tick s) (a_running s) (a_clients s) (a_streams s) (a_next s) v
    (a_mastergain s) (a_mastermute s) (a_applied s) (a_dirty s) (a_due s) (a_conf s)
    (a_mixframes s) (a_lastmix s) (a_xruns s) (a_mixed s) (a_bpresented s) (a_underruns s)
    (a_bwrites s) (a_bbytes s) (a_berrs s) (a_lastlevel s) (a_laststat s) (a_lastwrite s)
    (a_backend s) (a_devices s) (a_active s).
Definition set_a_mastergain (v : pyfloat) (s : aud) : aud :=
  mkaud (a_env s) (a_tick s) (a_running s) (a_clients s) (a_streams s) (a_next s) (a_closed s) v
    (a_mastermute s) (a_applied s) (a_dirty s) (a_due s) (a_conf s) (a_mixframes s) (a_lastmix s)
    (a_xruns s) (a_mixed s) (a_bpresented s) (a_underruns s) (a_bwrites s) (a_bbytes s)
    (a_berrs s) (a_lastlevel s) (a_laststat s) (a_lastwrite s) (a_backend s) (a_devices s) (a_active s).
Definition set_a_mastermute (v : bool) (s : aud) : aud :=
  mkaud (a_env s) (a_tick s) (a_running s) (a_clients s) (a_streams s) (a_next s) (a_closed s)
    (a_mastergain s) v (a_applied s) (a_dirty s) (a_due s) (a_conf s) (a_mixframes s)
    (a_lastmix s) (a_xruns s) (a_mixed s) (a_bpresented s) (a_underruns s) (a_bwrites s)
    (a_bbytes s) (a_berrs s) (a_lastlevel s) (a_laststat s) (a_lastwrite s) (a_backend s)
    (a_devices s) (a_active s).
Definition set_a_applied (v : option pyfloat) (s : aud) : aud :=
  mkaud (a_env s) (a_tick s) (a_running s) (a_clients s) (a_streams s) (a_next s) (a_closed s)
    (a_mastergain s) (a_mastermute s) v (a_dirty s) (a_due s) (a_conf s) (a_mixframes s)
    (a_lastmix s) (a_xruns s) (a_mixed s) (a_bpresented s) (a_underruns s) (a_bwrites s)
    (a_bbytes s) (a_berrs s) (a_lastlevel s) (a_laststat s) (a_lastwrite s) (a_backend s)
    (a_devices s) (a_active s).
Definition set_a_dirty (v : bool) (s : aud) : aud :=
  mkaud (a_env s) (a_tick s) (a_running s) (a_clients s) (a_streams s) (a_next s) (a_closed s)
    (a_mastergain s) (a_mastermute s) (a_applied s) v (a_due s) (a_conf s) (a_mixframes s)
    (a_lastmix s) (a_xruns s) (a_mixed s) (a_bpresented s) (a_underruns s) (a_bwrites s)
    (a_bbytes s) (a_berrs s) (a_lastlevel s) (a_laststat s) (a_lastwrite s) (a_backend s)
    (a_devices s) (a_active s).
Definition set_a_due (v : pyfloat) (s : aud) : aud :=
  mkaud (a_env s) (a_tick s) (a_running s) (a_clients s) (a_streams s) (a_next s) (a_closed s)
    (a_mastergain s) (a_mastermute s) (a_applied s) (a_dirty s) v (a_conf s) (a_mixframes s)
    (a_lastmix s) (a_xruns s) (a_mixed s) (a_bpresented s) (a_underruns s) (a_bwrites s)
    (a_bbytes s) (a_berrs s) (a_lastlevel s) (a_laststat s) (a_lastwrite s) (a_backend s)
    (a_devices s) (a_active s).
Definition set_a_conf (v : option pyval) (s : aud) : aud :=
  mkaud (a_env s) (a_tick s) (a_running s) (a_clients s) (a_streams s) (a_next s) (a_closed s)
    (a_mastergain s) (a_mastermute s) (a_applied s) (a_dirty s) (a_due s) v (a_mixframes s)
    (a_lastmix s) (a_xruns s) (a_mixed s) (a_bpresented s) (a_underruns s) (a_bwrites s)
    (a_bbytes s) (a_berrs s) (a_lastlevel s) (a_laststat s) (a_lastwrite s) (a_backend s)
    (a_devices s) (a_active s).
Definition set_a_mixframes (v : Z) (s : aud) : aud :=
  mkaud (a_env s) (a_tick s) (a_running s) (a_clients s) (a_streams s) (a_next s) (a_closed s)
    (a_mastergain s) (a_mastermute s) (a_applied s) (a_dirty s) (a_due s) (a_conf s) v
    (a_lastmix s) (a_xruns s) (a_mixed s) (a_bpresented s) (a_underruns s) (a_bwrites s)
    (a_bbytes s) (a_berrs s) (a_lastlevel s) (a_laststat s) (a_lastwrite s) (a_backend s)
    (a_devices s) (a_active s).
Definition set_a_lastmix (v : pyfloat) (s : aud) : aud :=
  mkaud (a_env s) (a_tick s) (a_running s) (a_clients s) (a_streams s) (a_next s) (a_closed s)
    (a_mastergain s) (a_mastermute s) (a_applied s) (a_dirty s) (a_due s) (a_conf s)
    (a_mixframes s) v (a_xruns s) (a_mixed s) (a_bpresented s) (a_underruns s) (a_bwrites s)
    (a_bbytes s) (a_berrs s) (a_lastlevel s) (a_laststat s) (a_lastwrite s) (a_backend s)
    (a_devices s) (a_active s).
Definition set_a_xruns (v : Z) (s : aud) : aud :=
  mkaud (a_env s) (a_tick s) (a_running s) (a_clients s) (a_streams s) (a_next s) (a_closed s)
    (a_mastergain s) (a_mastermute s) (a_applied s) (a_dirty s) (a_due s) (a_conf s)
    (a_mixframes s) (a_lastmix s) v (a_mixed s) (a_bpresented s) (a_underruns s) (a_bwrites s)
    (a_bbytes s) (a_berrs s) (a_lastlevel s) (a_laststat s) (a_lastwrite s) (a_backend s)
    (a_devices s) (a_active s).
Definition set_a_mixed (v : Z) (s : aud) : aud :=
  mkaud (a_env s) (a_tick s) (a_running s) (a_clients s) (a_streams s) (a_next s) (a_closed s)
    (a_mastergain s) (a_mastermute s) (a_applied s) (a_dirty s) (a_due s) (a_conf s)
    (a_mixframes s) (a_lastmix s) (a_xruns s) v (a_bpresented s) (a_underruns s) (a_bwrites s)
    (a_bbytes s) (a_berrs s) (a_lastlevel s) (a_laststat s) (a_lastwrite s) (a_backend s)
    (a_devices s) (a_active s).
Definition set_a_bpresented (v : Z) (s : aud) : aud :=
  mkaud (a_env s) (a_tick s) (a_running s) (a_clients s) (a_streams s) (a_next s) (a_closed s)
    (a_mastergain s) (a_mastermute s) (a_applied s) (a_dirty s) (a_due s) (a_conf s)
    (a_mixframes s) (a_lastmix s) (a_xruns s) (a_mixed s) v (a_underruns s) (a_bwrites s)
    (a_bbytes s) (a_berrs s) (a_lastlevel s) (a_laststat s) (a_lastwrite s) (a_backend s)
    (a_devices s) (a_active s).
Definition set_a_underruns (v : Z) (s : aud) : aud :=
  mkaud (a_env s) (a_tick s) (a_running s) (a_clients s) (a_streams s) (a_next s) (a_closed s)
    (a_mastergain s) (a_mastermute s) (a_applied s) (a_dirty s) (a_due s) (a_conf s)
    (a_mixframes s) (a_lastmix s) (a_xruns s) (a_mixed s) (a_bpresented s) v (a_bwrites s)
    (a_bbytes s) (a_berrs s) (a_lastlevel s) (a_laststat s) (a_lastwrite s) (a_backend s)
    (a_devices s) (a_active s).
Definition set_a_bwrites (v : Z) (s : aud) : aud :=
  mkaud (a_env s) (a_tick s) (a_running s) (a_clients s) (a_streams s) (a_next s) (a_closed s)
    (a_mastergain s) (a_mastermute s) (a_applied s) (a_dirty s) (a_due s) (a_conf s)
    (a_mixframes s) (a_lastmix s) (a_xruns s) (a_mixed s) (a_bpresented s) (a_underruns s) v
    (a_bbytes s) (a_berrs s) (a_lastlevel s) (a_laststat s) (a_lastwrite s) (a_backend s)
    (a_devices s) (a_active s).
Definition set_a_bbytes (v : Z) (s : aud) : aud :=
  mkaud (a_env s) (a_tick s) (a_running s) (a_clients s) (a_streams s) (a_next s) (a_closed s)
    (a_mastergain s) (a_mastermute s) (a_applied s) (a_dirty s) (a_due s) (a_conf s)
    (a_mixframes s) (a_lastmix s) (a_xruns s) (a_mixed s) (a_bpresented s) (a_underruns s)
    (a_bwrites s) v (a_berrs s) (a_lastlevel s) (a_laststat s) (a_lastwrite s) (a_backend s)
    (a_devices s) (a_active s).
Definition set_a_berrs (v : Z) (s : aud) : aud :=
  mkaud (a_env s) (a_tick s) (a_running s) (a_clients s) (a_streams s) (a_next s) (a_closed s)
    (a_mastergain s) (a_mastermute s) (a_applied s) (a_dirty s) (a_due s) (a_conf s)
    (a_mixframes s) (a_lastmix s) (a_xruns s) (a_mixed s) (a_bpresented s) (a_underruns s)
    (a_bwrites s) (a_bbytes s) v (a_lastlevel s) (a_laststat s) (a_lastwrite s) (a_backend s)
    (a_devices s) (a_active s).
Definition set_a_lastlevel (v : pyfloat) (s : aud) : aud :=
  mkaud (a_env s) (a_tick s) (a_running s) (a_clients s) (a_streams s) (a_next s) (a_closed s)
    (a_mastergain s) (a_mastermute s) (a_applied s) (a_dirty s) (a_due s) (a_conf s)
    (a_mixframes s) (a_lastmix s) (a_xruns s) (a_mixed s) (a_bpresented s) (a_underruns s)
    (a_bwrites s) (a_bbytes s) (a_berrs s) v (a_laststat s) (a_lastwrite s) (a_backend s)
    (a_devices s) (a_active s).
Definition set_a_laststat (v : pyfloat) (s : aud) : aud :=
  mkaud (a_env s) (a_tick s) (a_running s) (a_clients s) (a_streams s) (a_next s) (a_closed s)
    (a_mastergain s) (a_mastermute s) (a_applied s) (a_dirty s) (a_due s) (a_conf s)
    (a_mixframes s) (a_lastmix s) (a_xruns s) (a_mixed s) (a_bpresented s) (a_underruns s)
    (a_bwrites s) (a_bbytes s) (a_berrs s) (a_lastlevel s) v (a_lastwrite s) (a_backend s)
    (a_devices s) (a_active s).
Definition set_a_lastwrite (v : pyfloat) (s : aud) : aud :=
  mkaud (a_env s) (a_tick s) (a_running s) (a_clients s) (a_streams s) (a_next s) (a_closed s)
    (a_mastergain s) (a_mastermute s) (a_applied s) (a_dirty s) (a_due s) (a_conf s)
    (a_mixframes s) (a_lastmix s) (a_xruns s) (a_mixed s) (a_bpresented s) (a_underruns s)
    (a_bwrites s) (a_bbytes s) (a_berrs s) (a_lastlevel s) (a_laststat s) v (a_backend s)
    (a_devices s) (a_active s).
Definition set_a_backend (v : option backend) (s : aud) : aud :=
  mkaud (a_env s) (a_tick s) (a_running s) (a_clients s) (a_streams s) (a_next s) (a_closed s)
    (a_mastergain s) (a_mastermute s) (a_applied s) (a_dirty s) (a_due s) (a_conf s)
    (a_mixframes s) (a_lastmix s) (a_xruns s) (a_mixed s) (a_bpresented s) (a_underruns s)
    (a_bwrites s) (a_bbytes s) (a_berrs s) (a_lastlevel s) (a_laststat s) (a_lastwrite s) v
    (a_devices s) (a_active s).

Definition set_a_devices (v : list device) (s : aud) : aud :=
  mkaud (a_env s) (a_tick s) (a_running s) (a_clients s) (a_streams s) (a_next s) (a_closed s)
    (a_mastergain s) (a_mastermute s) (a_applied s) (a_dirty s) (a_due s) (a_conf s)
    (a_mixframes s) (a_lastmix s) (a_xruns s) (a_mixed s) (a_bpresented s) (a_underruns s)
    (a_bwrites s) (a_bbytes s) (a_berrs s) (a_lastlevel s) (a_laststat s) (a_lastwrite s)
    (a_backend s) v (a_active s).
Definition set_a_active (v : option device) (s : aud) : aud :=
  mkaud (a_env s) (a_tick s) (a_running s) (a_clients s) (a_streams s) (a_next s) (a_closed s)
    (a_mastergain s) (a_mastermute s) (a_applied s) (a_dirty s) (a_due s) (a_conf s)
    (a_mixframes s) (a_lastmix s) (a_xruns s) (a_mixed s) (a_bpresented s) (a_underruns s)
    (a_bwrites s) (a_bbytes s) (a_berrs s) (a_lastlevel s) (a_laststat s) (a_lastwrite s)
    (a_backend s) (a_devices s) v.

(** ** The monad

    A function of the module runs on the globals and returns, or raises out of
    the module: nothing above the handlers catches. *)
Definition AM (A : Type) : Type := aud -> res (aud * A).

#[export] Instance am_ret : MRet AM := fun A a s => Ok (s, a).
#[export] Instance am_bind : MBind AM := fun A B f m s =>
  match m s with Ok (s', a) => f a s' | Exc e => Exc e end.

Definition gets {A} (f : aud -> A) : AM A := fun s => Ok (s, f s).
Definition modify (f : aud -> aud) : AM unit := fun s => Ok (f s, tt).
Definition lift {A} (r : res A) : AM A := fun s => match r with Ok a => Ok (s, a) | Exc e => Exc e end.
Definition pass : AM unit := mret tt.
Definition when (b : bool) (m : AM unit) : AM unit := if b then m else pass.

(** Every look at a clock and every system call takes the next entry. *)
Definition observe {A} (f : env -> nat -> A) : AM A := fun s =>
  Ok (set_a_tick (S (a_tick s)) s, f (a_env s) (a_tick s)).
Definition monotonic : AM pyfloat := observe e_mono.
Definition timestamp : AM pystr := observe e_stamp.

Section AudioState.
Context {U : PyUnicode}.

(** ** Configuration *)

Definition defaultconfig : pydict := pdict
  [("samplerate", PInt DEFAULTSR); ("channels", PInt DEFAULTCH); ("format", PStr (lit "s16le"));
   ("frames", PInt DEFAULTFRAMES); ("mastergain", PFloat (fdecimal 20 (-2)));
   ("mastermute", PBool false); ("autodevice", PBool true); ("device", PNone);
   ("preferredcodec", PNone); ("maxstreams", PInt 32); ("maxclients", PInt 32);
   ("streambufsec", PFloat (fdecimal 20 (-1))); ("prebufferms", PInt 100)]%string.

(** [for k in usercfg: cfg[k] = usercfg[k]].  Iterating over a string or a number
    raises; so does a list, whose elements would have to be its own indices. *)
Definition mergeconfig (cfg : pydict) (usercfg : pyval) : res pydict :=
  match usercfg with
  | PDict d => Ok (fold_left (fun c kv => dict_set kv.1 kv.2 c) d cfg)
  | PList [] | PStr [] => Ok cfg
  | _ => Exc TypeError
  end.

(** Every exception while reading leaves the defaults. *)
Definition getconfig : AM pydict :=
  f ← gets a_conf;
  mret (match f with
        | None => defaultconfig
        | Some u => catch (mergeconfig defaultconfig u) defaultconfig
        end).

(** Written to a temporary file and renamed: the old file or the new one. *)
Definition saveconfig (cfg : pydict) : AM unit :=
  ok ← observe e_saves;
  when ok (modify (set_a_conf (Some (PDict cfg)))).

Definition loadconfig : AM pydict :=
  f ← gets a_conf;
  match f with
  | None => saveconfig defaultconfig;; mret defaultconfig
  | Some u => mret (catch (mergeconfig defaultconfig u) defaultconfig)
  end.

Definition applyconfig (cfg : pydict) : AM unit :=
  match dict_get (lit "mastergain") cfg with
  | Some v => g ← lift (py_float v); modify (set_a_mastergain g)
  | None => pass
  end;;
  match dict_get (lit "mastermute") cfg with
  | Some v => modify (set_a_mastermute (truthy v))
  | None => pass
  end;;
  match dict_get (lit "frames") cfg with
  | Some v => n ← lift (py_int v); modify (set_a_mixframes n)
  | None => pass
  end.

Definition MASTERCONFIGDELAY : pyfloat := fdecimal 75 (-2).

Definition masterconfigschedule : AM unit :=
  modify (set_a_dirty true);;
  t ← monotonic;
  modify (set_a_due (fadd t MASTERCONFIGDELAY)).

Definition masterconfigflush (force : bool) : AM bool :=
  dirty ← gets a_dirty;
  if negb dirty then mret false
  else
    early ← (if force then mret false
             else t ← monotonic; due ← gets a_due; mret (flt t due));
    if early : bool then mret false
    else
      cfg ← getconfig;
      g ← gets a_mastergain;
      m ← gets a_mastermute;
      saveconfig (dict_set (lit "mastermute") (PBool m) (dict_set (lit "mastergain") (PFloat g) cfg));;
      modify (set_a_dirty false);;
      modify (set_a_due fzero);;
      mret true.

(** ** Backend

    The file and ALSA backends.  The HD-audio register driver (type ['hda']) is
    not part of the model. *)

(** The sample rate the active device advertises. *)
Definition a_capsrate (s : aud) : option Z :=
  dev ← a_active s;
  v ← dict_get (lit "samplerate") (dv_caps dev);
  Some (catch (py_int v) DEFAULTSR).

(** [backendformat()['samplerate']], and [DEFAULTSR] when it is not positive. *)
Definition backendsamplerate (s : aud) : Z :=
  let caps := default DEFAULTSR (a_capsrate s) in
  let rate := match a_backend s with
              | Some b => if bk_alsa b then default caps (bk_inforate b) else caps
              | None => caps
              end in
  if 0 <? rate then rate else DEFAULTSR.

Definition alsadelay : AM (option Z) := observe e_delay.

Definition backendpendingframes : AM Z :=
  b ← gets a_backend;
  match b with
  | None => mret 0
  | Some b =>
      if bk_alsa b then
        let framebytes := Z.max 1 (bk_framebytes b) in
        let pending := zlen (bk_pending b) +
          match bk_outrb b with Some r => rbavail r | None => 0 end in
        delay ← (if bk_outfd b then alsadelay else mret None);
        let pending := match delay with
                       | Some d => if 0 <? d then pending + d * framebytes else pending
                       | None => pending
                       end in
        mret (Z.max 0 (pending / framebytes))
      else mret 0
  end.

(** With the pending count given. *)
Definition presented_of (pendingframes : Z) (s : aud) : Z :=
  let mixed := Z.max 0 (a_mixed s) in
  let candidate := Z.max 0 (Z.min mixed (mixed - pendingframes)) in
  if mixed <? a_bpresented s then candidate
  else if a_bpresented s <? candidate then candidate
  else a_bpresented s.

Definition backendpresentedframes (pendingframes : option Z) : AM Z :=
  p ← match pendingframes with Some p => mret p | None => backendpendingframes end;
  modify (fun s => set_a_bpresented (presented_of p s) s);;
  gets a_bpresented.

Definition upd_backend (f : backend -> backend) : AM unit :=
  modify (fun s => match a_backend s with Some b => set_a_backend (Some (f b)) s | None => s end).

Definition bump_errs : AM unit := modify (fun s => set_a_berrs (a_berrs s + 1) s).

Definition AUDIOTELEMETRYINTERVAL : pyfloat := fdecimal 300 (-1).

(** [os.write] on the output, recording what the device took. *)
Definition oswrite (data : bytes) : AM write_result :=
  r ← observe e_write;
  match r with
  | WroteN n => upd_backend (fun b => set_bk_written (bk_written b ++ ztake n data) b)
  | WErrno _ => pass
  end;;
  mret r.

Definition count_write (got : Z) : AM unit :=
  modify (fun s => set_a_bwrites (a_bwrites s + 1) s);;
  modify (fun s => set_a_bbytes (a_bbytes s + got) s).

(** A raw output: one write, which must take the whole block.  (Its recovery
    branch needs an ALSA backend, which never gets here.) *)
Definition backendfilewrite (pcmbytes : bytes) : AM bool :=
  b ← gets a_backend;
  match b with
  | None => mret false
  | Some b =>
      if negb (bk_outfd b) then mret false
      else
        r ← oswrite pcmbytes;
        match r with
        | WErrno _ => bump_errs;; mret false
        | WroteN got =>
            count_write got;;
            if negb (got =? zlen pcmbytes) then mret false
            else
              nowt ← monotonic;
              lastw ← gets a_lastwrite;
              when (fge (fsub nowt lastw) AUDIOTELEMETRYINTERVAL) (modify (set_a_lastwrite nowt));;
              mret true
        end
  end.

Definition backendfilequeue (pcmbytes : bytes) : AM bool :=
  b ← gets a_backend;
  match b with
  | None => mret false
  | Some b =>
      if negb (bk_alsa b) then backendfilewrite pcmbytes
      else
        match bk_outrb b with
        | None => mret false
        | Some r =>
            x ← lift (rbpush r pcmbytes);
            let '(r, ok) := x in
            upd_backend (set_bk_outrb (Some r));;
            if ok : bool then mret true else bump_errs;; mret false
        end
  end.

(** [EPIPE], [ESTRPIPE] and [EBADFD]. *)
Definition alsarecoverableerror (e : Z) : bool := existsb (Z.eqb e) [32; 86; 77].

(** The write loop of the pump: [data[off:]] is left to write.  A write that takes
    something shortens the rest, so its length bounds the loop. *)
Fixpoint pump_write (fuel : nat) (rest : bytes) : AM bool :=
  match rest with
  | [] => upd_backend (set_bk_pending []);; mret true
  | _ =>
      match fuel with
      | O => mret false
      | S fuel =>
          r ← oswrite rest;
          match r with
          | WErrno e =>
              if existsb (Z.eqb e) [11; 35] then upd_backend (set_bk_pending rest);; mret false
              else
                bump_errs;;
                if alsarecoverableerror e then
                  upd_backend (set_bk_pending rest);;
                  recovered ← observe e_prepare;
                  if recovered : bool then
                    modify (fun s => set_a_xruns (a_xruns s + 1) s);;
                    upd_backend (fun b => set_bk_recoveries (bk_recoveries b + 1) b);;
                    mret false
                  else upd_backend (set_bk_ready false);; mret false
                else upd_backend (set_bk_pending []);; mret false
          | WroteN got =>
              if got <=? 0 then upd_backend (set_bk_pending rest);; mret false
              else count_write got;; pump_write fuel (zdrop got rest)
          end
      end
  end.

(** The block to write: the pending rest, or as many whole periods as the device
    has room for and the queue holds; [None] when there is nothing to do. *)
Definition pump_data (b : backend) : AM (option bytes) :=
  let periodbytes := bk_periodframes b * bk_framebytes b in
  match bk_outrb b with
  | None => mret None
  | Some r =>
      match bk_pending b with
      | (_ :: _) as pending => mret (Some pending)
      | [] =>
          delay ← alsadelay;
          match delay with
          | None => mret None
          | Some delay =>
              let freeframes := bk_bufferframes b - delay in
              if freeframes <? bk_periodframes b then mret None
              else if bk_periodframes b =? 0 then lift (Exc ZeroDivisionError)
              else
                let maxbytes := freeframes / bk_periodframes b * periodbytes in
                let have := rbavail r in
                if have <? periodbytes then mret None
                else
                  (if (have <? maxbytes) && (periodbytes =? 0) then lift (Exc ZeroDivisionError) else pass);;
                  let maxbytes := if have <? maxbytes then have - have mod periodbytes else maxbytes in
                  if maxbytes <? periodbytes then mret None
                  else
                    x ← lift (rbpop r maxbytes);
                    let '(r, data) := x in
                    upd_backend (set_bk_outrb (Some r));;
                    mret (match data with Some ((_ :: _) as d) => Some d | _ => None end)
          end
      end
  end.

Definition backendfilepump : AM bool :=
  b ← gets a_backend;
  match b with
  | None => mret false
  | Some b =>
      if negb (bk_alsa b) then mret false
      else if negb (bk_outfd b) then mret false
      else
        d ← pump_data b;
        match d with
        | None => mret false
        | Some data => pump_write (List.length data) data
        end
  end.

(** The queue result, after a pump. *)
Definition backendwrite (pcmbytes : bytes) : AM bool :=
  b ← gets a_backend;
  match b with
  | None => mret false
  | Some _ =>
      ok ← backendfilequeue pcmbytes;
      backendfilepump;;
      mret ok
  end.
End AudioState.
