(* ===== verification/AudioStream.v ===== *)
(** Playback streams of the audio service (audioserver.py): opening, closing,
    writing and reading, presentation accounting and the table of recently closed
    streams. *)

From stdpp Require Import base list strings.
From Stdlib Require Import ZArith Lia Bool String.
From Stdlib Require Import SpecFloat.
From S2P Require Import Prelude Assoc Ring PyFloat FloatFacts PyText PyVal PyJson Exchange Pcm AudioWire AudioState.
Open Scope Z_scope.

Definition INTERACTIVESTREAMMINBUFFERSECONDS : pyfloat := fdecimal 4 (-2).
Definition CLOSEDSTREAMTTL : pyfloat := fdecimal 50 (-1).
Definition CLOSEDSTREAMLIMIT : Z := 256.
Definition ftwelve : pyfloat := fdecimal 120 (-1).

(** [sorted(..., key=expires)], stable. *)
Fixpoint insert_expiry {A} (x : A * (pyfloat * pydict)) (l : list (A * (pyfloat * pydict)))
  : list (A * (pyfloat * pydict)) :=
  match l with
  | [] => [x]
  | y :: l' => if flt y.2.1 x.2.1 then y :: insert_expiry x l' else x :: l
  end.

Fixpoint sort_expiry {A} (l : list (A * (pyfloat * pydict))) : list (A * (pyfloat * pydict)) :=
  match l with
  | [] => []
  | x :: l' => insert_expiry x (sort_expiry l')
  end.

Definition closed_table : Type := list ((Z * Z) * (pyfloat * pydict)).

(** The two loops of [pruneclosed] at time [nowt]. *)
Definition prune_table (fd : option Z) (nowt : pyfloat) (t : closed_table) : closed_table :=
  let t := List.filter (fun e =>
    negb (match fd with Some f => e.1.1 =? f | None => false end) && negb (fle e.2.1 nowt)) t in
  if zlen t <=? CLOSEDSTREAMLIMIT then t
  else
    let removed := ztake (zlen t - CLOSEDSTREAMLIMIT) (sort_expiry t) in
    fold_left (fun t e => adel e.1 t) removed t.

Definition pruneclosed (fd : option Z) : AM unit :=
  nowt ← monotonic;
  modify (fun s => set_a_closed (prune_table fd nowt (a_closed s)) s).

(** ** Presentation *)

Definition streamsegment (timelineframe audioframes : Z) (st : stream) : stream :=
  let frames := Z.max 0 audioframes in
  if frames <=? 0 then st
  else
    let globalstart := Z.max 0 timelineframe in
    let streamstart := st_outbytes st / FRAMEBYTES in
    let segments := st_segments st in
    let fresh := segments ++ [(globalstart, globalstart + frames, streamstart)] in
    set_st_segments
      (match last segments with
       | Some (s0, s1, s2) =>
           if (s1 =? globalstart) && (s2 + (s1 - s0) =? streamstart)
           then removelast segments ++ [(s0, globalstart + frames, s2)]
           else fresh
       | None => fresh
       end) st.

(** The frames of the segments that the device has played at [globalpresented]. *)
Definition segment_presented (globalpresented : Z) (presented : Z) (seg : Z * Z * Z) : Z :=
  let '(globalstart, globalend, streamstart) := seg in
  if globalpresented <=? globalstart then presented
  else
    let passed := Z.min globalend globalpresented - globalstart in
    if 0 <? passed then Z.max presented (streamstart + passed) else presented.

Definition presented_at (globalpresented : Z) (st : stream) : stream :=
  let presented := fold_left (segment_presented globalpresented) (st_segments st)
                     (Z.max 0 (st_presented st)) in
  let outputframes := Z.max 0 (st_outbytes st / FRAMEBYTES) in
  set_st_presented (Z.min outputframes presented) st.

Section AudioStream.
Context {U : PyUnicode}.

Definition streampresentedframes (globalpresented : option Z) (st : stream) : AM (stream * Z) :=
  g ← match globalpresented with Some g => mret g | None => backendpresentedframes None end;
  let st := presented_at g st in
  mret (st, st_presented st).

Definition streamdrained (st : stream) : AM (stream * bool) :=
  let outputframes := Z.max 0 (st_outbytes st / FRAMEBYTES) in
  x ← streampresentedframes None st;
  let '(st, p) := x in
  mret (st, outputframes <=? p).

(** The stream with its presentation counter brought up to date, and the reply. *)
Definition streamstatusdata (st : stream) : AM (stream * pydict) :=
  hardwarependingframes ← backendpendingframes;
  globalpresented ← backendpresentedframes (Some hardwarependingframes);
  x ← streampresentedframes (Some globalpresented) st;
  let '(st, presentedframes) := x in
  ns ← observe e_ns;
  mret (st, pdict
    [("stream", PInt (st_id st)); ("state", PStr (st_state st));
     ("queued", PInt (rbavail (st_rb st))); ("capacity", PInt (rb_size (st_rb st)));
     ("input_bytes", PInt (st_inbytes st)); ("output_bytes", PInt (st_outbytes st));
     ("presented_bytes", PInt (presentedframes * FRAMEBYTES));
     ("hardware_pending_frames", PInt hardwarependingframes);
     ("clock_monotonic_ns", PInt ns); ("samplerate", PInt (st_rate st));
     ("underruns", PInt (st_underruns st)); ("paused", PBool (st_paused st));
     ("muted", PBool (st_mute st))]%string).

(** ** The stream table *)

Definition streamget (streamid : Z) : AM (option stream) := gets (fun s => aget streamid (a_streams s)).

(** The stream objects are shared: an update is visible through the table. *)
Definition putstream (streamid : Z) (st : stream) : AM unit :=
  modify (fun s => match aget streamid (a_streams s) with
                   | Some _ => set_a_streams (aset streamid st (a_streams s)) s
                   | None => s
                   end).

Definition rememberclosed (st : stream) (reason : pystr) : AM pydict :=
  x ← streamstatusdata st;
  let '(st, payload) := x in
  let payload := dict_set (lit "state") (PStr (lit "closed")) payload in
  let payload := dict_set (lit "queued") (PInt 0) payload in
  let payload := dict_set (lit "reason") (PStr reason) payload in
  t ← monotonic;
  modify (fun s => set_a_closed
    (aset (st_fd st, st_id st) (fadd t CLOSEDSTREAMTTL, payload) (a_closed s)) s);;
  pruneclosed None;;
  mret payload.

Definition closedstreamget (fd streamid : Z) : AM (option pydict) :=
  pruneclosed None;;
  e ← gets (fun s => aget (fd, streamid) (a_closed s));
  mret (snd <$> e).

(** [None] is [False]. *)
Definition streamfree (streamid : Z) (reason : pystr) (remember : bool) : AM (option pydict) :=
  x ← streamget streamid;
  match x with
  | None => mret None
  | Some st =>
      let st := set_st_alive false st in
      modify (fun s => set_a_streams (adel streamid (a_streams s)) s);;
      if remember then p ← rememberclosed st reason; mret (Some p)
      else mret (Some (pdict
        [("stream", PInt streamid); ("state", PStr (lit "closed")); ("queued", PInt 0);
         ("reason", PStr reason)]%string))
  end.

(** ** Opening *)

(** [spec.get(k, dflt)]: only a dict has [get]. *)
Definition spec_get (k : string) (dflt : pyval) (spec : pyval) : res pyval :=
  match spec with
  | PDict d => Ok (dict_get_def (lit k) dflt d)
  | _ => Exc AttributeError
  end.

(** [x == s] for a string [s]. *)
Definition is_string (v : pyval) (s : string) : bool :=
  match v with PStr t => str_eqb t (lit s) | _ => false end.

(** The accepted sample rate, [None] for [None]. *)
Definition streamformat (spec : pyval) : AM (option Z) :=
  brate ← gets backendsamplerate;
  mret (match
    (sr ← spec_get "samplerate" (PInt brate) spec;
     sr ← py_int sr;
     ch ← spec_get "channels" (PInt DEFAULTCH) spec;
     ch ← py_int ch;
     fm ← spec_get "format" (PStr (lit "s16le")) spec;
     Ok (sr, ch, fm))
  with
  | Exc _ => None
  | Ok (sr, ch, fm) =>
      if negb (sr =? brate) then None
      else if negb (ch =? DEFAULTCH) then None
      else if negb (is_string fm "s16le") then None
      else Some sr
  end).

(** [n >= v] for an int [n]. *)
Definition int_ge (n : Z) (v : pyval) : res bool :=
  match v with
  | PInt z => Ok (z <=? n)
  | PBool b => Ok ((if b then 1 else 0) <=? n)
  | PFloat f => x ← float_of_int n; Ok (fge x f)
  | _ => Exc TypeError
  end.

(** The queue length in seconds for the requested one. *)
Definition buffer_seconds (interactive : bool) (bufsec requested : pyfloat) : pyfloat :=
  let bufsec := if interactive
    then fmin2 ftwelve (fmax2 INTERACTIVESTREAMMINBUFFERSECONDS requested)
    else fmin2 ftwelve (fmax2 bufsec requested) in
  let minimum := if interactive then INTERACTIVESTREAMMINBUFFERSECONDS else fdecimal 25 (-2) in
  if flt bufsec minimum then minimum else bufsec.

(** The ring size in bytes, whole frames. *)
Definition ring_bytes (samplerate : Z) (bufsec : pyfloat) : res Z :=
  f ← float_of_int (samplerate * DEFAULTCH * 2);
  n ← int_of_float (fmul f bufsec);
  Ok (n - n mod (DEFAULTCH * 2)).

(** The bytes to queue before playback starts, whole frames within the ring. *)
Definition prebuffer_bytes (interactive : bool) (samplerate prebufferms requested rbsize : Z)
    (bufsec : pyfloat) : res Z :=
  let ms := if interactive then Z.min 2000 requested else Z.min 2000 (Z.max prebufferms requested) in
  let ms := if ms <? 0 then 0 else ms in
  cap ← int_of_float (fmul bufsec (fdecimal 10000 (-1)));
  let ms := Z.min ms cap in
  x ← float_of_int ms;
  q ← fdiv x (fdecimal 10000 (-1));
  f ← float_of_int (samplerate * FRAMEBYTES);
  n ← int_of_float (fmul f q);
  let n := n - n mod FRAMEBYTES in
  Ok (if rbsize <? n then rbsize else n).

(** The identifier of the new stream; [None] when it is refused. *)
Definition streamnew (fd : Z) (spec : pyval) : AM (option Z) :=
  cfg ← getconfig;
  n ← gets (fun s => zlen (a_streams s));
  full ← lift (int_ge n (dict_get_def (lit "maxstreams") (PInt 32) cfg));
  if full : bool then mret None
  else
    fmt ← streamformat spec;
    match fmt with
    | None => mret None
    | Some samplerate =>
        streamid ← gets a_next;
        modify (set_a_next (streamid + 1));;
        lc ← lift (spec_get "latency_class" (PStr (lit "resilient")) spec);
        let lc := uc_lower (strip (py_str lc)) in
        let interactive := str_eqb lc (lit "interactive") in
        let latencyclass := if interactive then lit "interactive" else lit "resilient" in
        cfg ← getconfig;
        bufsec ← lift (py_float (dict_get_def (lit "streambufsec") (PFloat (fdecimal 40 (-1))) cfg));
        rb_s ← lift (spec_get "buffer_seconds" (PFloat bufsec) spec);
        let bufsec := buffer_seconds interactive bufsec (catch (py_float rb_s) bufsec) in
        rbsize ← lift (ring_bytes samplerate bufsec);
        r ← lift (rbnew rbsize);
        wa ← lift (spec_get "write_ack" (PBool false) spec);
        cfg ← getconfig;
        prebufferms ← lift (py_int (dict_get_def (lit "prebufferms") (PInt 100) cfg));
        rp ← lift (spec_get "prebuffer_ms" (PInt prebufferms) spec);
        prebuffer ← lift (prebuffer_bytes interactive samplerate prebufferms
                            (catch (py_int rp) prebufferms) rbsize bufsec);
        let st := mkstream streamid fd samplerate r fone false true false false false
          (lit "prebuffering") (truthy wa) latencyclass prebuffer 0 0 0 [] 0 0 fzero fzero in
        modify (fun s => set_a_streams (aset streamid st (a_streams s)) s);;
        mret (Some streamid)
    end.

(** ** Data *)

Definition streampush (streamid : Z) (pcmbytes : bytes) : AM bool :=
  x ← streamget streamid;
  match x with
  | None => mret false
  | Some st =>
      let n := zlen pcmbytes in
      if (n <=? 0) || negb (n mod FRAMEBYTES =? 0) then mret false
      else if rbspace (st_rb st) <? n then mret false
      else
        y ← lift (rbpush (st_rb st) pcmbytes);
        let '(r, ok) := y in
        putstream streamid (set_st_rb r st);;
        mret ok
  end.

Definition streampull (streamid nbytes : Z) : AM (option bytes) :=
  x ← streamget streamid;
  match x with
  | None => mret None
  | Some st =>
      if rbavail (st_rb st) <? nbytes then mret None
      else
        y ← lift (rbpop (st_rb st) nbytes);
        let '(r, out) := y in
        putstream streamid (set_st_rb r st);;
        mret out
  end.

Definition streamgain (streamid : Z) (gain : pyval) : AM bool :=
  x ← streamget streamid;
  match x with
  | None => mret false
  | Some st =>
      match py_float gain with
      | Exc _ => mret false
      | Ok g => putstream streamid (set_st_gain (clamp g fzero fone) st);; mret true
      end
  end.

Definition streammute (streamid : Z) (mute : pyval) : AM bool :=
  x ← streamget streamid;
  match x with
  | None => mret false
  | Some st => putstream streamid (set_st_mute (truthy mute) st);; mret true
  end.
End AudioStream.
