(* ===== verification/AudioMix.v ===== *)
(** The mixing loop of the audio service (audioserver.py): what each stream
    contributes to a period, the mix of a period, and the scheduling of periods on
    an ALSA backend and on a paced one. *)

From stdpp Require Import base list strings.
From Stdlib Require Import ZArith Lia Bool String.
From Stdlib Require Import SpecFloat.
From S2P Require Import Prelude Assoc Ring PyFloat FloatFacts PyText PyVal PyJson Exchange Pcm AudioWire AudioState.
From S2P Require Import AudioStream.
Open Scope Z_scope.

Definition MAXMIXCATCHUP : nat := 16.

(** [int(a // b)] on floats: the floor of the exact quotient. *)
Definition float_floordiv (a b : pyfloat) : res Z :=
  match fdyadic b with
  | None => Exc ValueError
  | Some (m2, e2) =>
      if m2 =? 0 then Exc ZeroDivisionError
      else
        match a with
        | S754_infinity _ => Exc ValueError
        | _ =>
            match fdyadic a with
            | None => Exc ValueError
            | Some (m1, e1) =>
                let e := Z.min e1 e2 in
                Ok ((m1 * 2 ^ (e1 - e)) / (m2 * 2 ^ (e2 - e)))
            end
        end
  end.

Definition mixperiodframes (s : aud) : Z :=
  let frames := match a_backend s with
                | Some b => if bk_alsa b && negb (bk_periodframes b =? 0)
                            then bk_periodframes b else a_mixframes s
                | None => a_mixframes s
                end in
  Z.max 1 frames.

Definition mixwait (maximum : pyfloat) : AM pyfloat :=
  lastmix ← gets a_lastmix;
  if fle lastmix fzero then mret fzero
  else
    t ← monotonic;
    let wait := fsub lastmix t in
    let wait := if flt wait fzero then fzero else wait in
    mret (if fgt wait maximum then maximum else wait).

Section AudioMix.
Context {U : PyUnicode}.

Definition mixleveltrace (pcmbytes : bytes) : AM unit :=
  nowt ← monotonic;
  lastl ← gets a_lastlevel;
  if flt (fsub nowt lastl) AUDIOTELEMETRYINTERVAL then pass
  else
    modify (set_a_lastlevel nowt);;
    lift (pcmstats pcmbytes 2048);; pass.

(** ** Collecting *)

Definition starve (streamid : Z) (st : stream) : AM unit :=
  let st := set_st_underruns (st_underruns st + 1) st in
  modify (fun s => set_a_underruns (a_underruns s + 1) s);;
  putstream streamid (if st_closing st then st
    else set_st_state (lit "prebuffering") (set_st_started false st)).

(** The stream after playing [pcm], and its contribution. *)
Definition play (streamid timelineframe : Z) (st : stream) (pcm pad : bytes) : AM (option bytes) :=
  let st := streamsegment timelineframe (zlen pcm / FRAMEBYTES) st in
  let st := set_st_outbytes (st_outbytes st + zlen pcm) st in
  putstream streamid st;;
  if st_mute st then mret None
  else
    pcm ← (if feqb (st_gain st) fone then mret pcm else lift (mixapplygain pcm (st_gain st)));
    mret (Some (pcm ++ pad)).

(** One stream's block of [need] bytes, [None] when it contributes nothing. *)
Definition collect_one (need timelineframe streamid : Z) : AM (option bytes) :=
  x ← streamget streamid;
  match x with
  | None => mret None
  | Some st =>
      if negb (st_alive st) then mret None
      else if st_paused st then mret None
      else
        let have := rbavail (st_rb st) in
        if st_closing st && (have <=? 0) then
          drained ← (if negb (st_started st) then mret true
                     else y ← streamdrained st;
                          let '(st, d) := y in
                          putstream streamid st;; mret d);
          (if drained : bool then streamfree streamid (lit "drained") true;; pass else pass);;
          mret None
        else
          let starts := negb (st_started st) &&
            ((st_prebuffer st <=? have) || (st_closing st && (0 <? have))) in
          let st := if starts
                    then set_st_state (if st_closing st then lit "draining" else lit "playing")
                           (set_st_started true st)
                    else st in
          when starts (putstream streamid st);;
          if negb (st_started st) then mret None
          else if have <? need then
            if st_closing st && (0 <? have) then
              y ← lift (rbpop (st_rb st) have);
              let '(r, pcm) := y in
              match pcm with
              | None => lift (Exc TypeError)
              | Some pcm => play streamid timelineframe (set_st_rb r st) pcm (mixsilence (need - have))
              end
            else
              starve streamid st;;
              (if st_closing st && (have <=? 0)
               then streamfree streamid (lit "drained") true;; pass else pass);;
              mret None
          else
            pcm ← streampull streamid need;
            x ← streamget streamid;
            match pcm, x with
            | Some pcm, Some st => play streamid timelineframe st pcm []
            | _, _ => starve streamid st;; mret None
            end
  end.

Fixpoint collect_all (need timelineframe : Z) (ids : list Z) : AM (list bytes) :=
  match ids with
  | [] => mret []
  | i :: ids' =>
      b ← collect_one need timelineframe i;
      bs ← collect_all need timelineframe ids';
      mret (match b with Some b => b :: bs | None => bs end)
  end.

Definition mixcollectframes (frames : Z) (timelineframe : option Z) : AM (list bytes) :=
  let need := frames * DEFAULTCH * 2 in
  mixed ← gets a_mixed;
  ids ← gets (fun s => List.map fst (a_streams s));
  collect_all need (default mixed timelineframe) ids.

Definition mixcollect : AM (list bytes) :=
  frames ← gets a_mixframes;
  mixcollectframes frames None.

(** ** Mixing a period *)

Fixpoint mixsum_all (mixed : bytes) (blocks : list bytes) : res bytes :=
  match blocks with
  | [] => Ok mixed
  | pcm :: blocks' => m ← mixsum mixed pcm; mixsum_all m blocks'
  end.

Definition mixblocks (framebytes : Z) (collected : list bytes) : AM bytes :=
  match collected with
  | [] => mret (mixsilence framebytes)
  | _ =>
      mixed ← lift (mixsum_all (mixsilence framebytes) collected);
      s ← gets id;
      let '(applied, r) := mixmaster (backendsamplerate s) (a_mastergain s) (a_mastermute s)
                             (a_applied s) mixed in
      modify (set_a_applied applied);;
      out ← lift r;
      mixleveltrace out;;
      mret out
  end.

Definition mixonceframes (frames : Z) (timelineframe : option Z) : AM bytes :=
  collected ← mixcollectframes frames timelineframe;
  mixblocks (frames * DEFAULTCH * 2) collected.

Definition mixonce : AM bytes :=
  frames ← gets a_mixframes;
  collected ← mixcollect;
  mixblocks (frames * DEFAULTCH * 2) collected.

(** ** The loop *)

Definition add_xruns (n : Z) : AM unit := modify (fun s => set_a_xruns (a_xruns s + n) s).
Definition add_mixed (n : Z) : AM unit := modify (fun s => set_a_mixed (a_mixed s + n) s).

(** Is there no room in the ALSA queue for [required] bytes? *)
Definition queue_full (required : Z) (s : aud) : bool :=
  match a_backend s with
  | Some b => match bk_outrb b with Some r => rbspace r <? required | None => false end
  | None => false
  end.

(** The refill of the ALSA queue, at most [n] periods. *)
Fixpoint alsa_refill (n : nat) (frames targetframes required : Z) : AM unit :=
  match n with
  | O => backendpendingframes;; pass
  | S n =>
      p ← backendpendingframes;
      if negb (p <? targetframes) then pass
      else
        full ← gets (queue_full required);
        stop ← (if full : bool then backendfilepump;; gets (queue_full required) else mret false);
        if stop : bool then pass
        else
          mixed ← gets a_mixed;
          pcm ← mixonceframes frames (Some mixed);
          ok ← backendwrite pcm;
          if negb ok then add_xruns 1
          else add_mixed frames;; alsa_refill n frames targetframes required
  end.

(** The paced loop, at most [n] periods. *)
Fixpoint paced_mix (n : nat) (frames : Z) (interval due : pyfloat) : AM unit :=
  match n with
  | O => pass
  | S n =>
      lastmix ← gets a_lastmix;
      if negb (fge due lastmix) then pass
      else
        mixed ← gets a_mixed;
        pcm ← mixonceframes frames (Some mixed);
        add_mixed frames;;
        backendwrite pcm;;
        modify (fun s => set_a_lastmix (fadd (a_lastmix s) interval) s);;
        paced_mix n frames interval due
  end.

(** The statistics line is formatted, whatever the log does with it. *)
Definition statlog (probe : AM unit) : AM unit :=
  nowt ← monotonic;
  lasts ← gets a_laststat;
  if fgt (fsub nowt lasts) AUDIOTELEMETRYINTERVAL then probe;; modify (set_a_laststat nowt) else pass.

Definition mixloop : AM unit :=
  nowt ← monotonic;
  frames ← gets mixperiodframes;
  rate ← gets backendsamplerate;
  ff ← lift (float_of_int frames);
  fr ← lift (float_of_int rate);
  interval ← lift (fdiv ff fr);
  let epsilon := fmax2 (fdecimal 1 (-6)) (fmul interval (fdecimal 1 (-3))) in
  lastmix ← gets a_lastmix;
  when (fle lastmix fzero) (modify (set_a_lastmix nowt));;
  bk ← gets a_backend;
  if (match bk with Some b => bk_alsa b | None => false end) then
    backendfilepump;;
    bk ← gets a_backend;
    let '(bufferframes, fb) := match bk with
      | Some b => (bk_bufferframes b, bk_framebytes b) | None => (frames * 4, FRAMEBYTES) end in
    let targetframes := Z.max bufferframes (frames * 4) in
    let required := frames * Z.max 1 fb in
    alsa_refill MAXMIXCATCHUP frames targetframes required;;
    modify (set_a_lastmix (fadd nowt interval));;
    statlog (backendpresentedframes None;; backendpendingframes;; pass)
  else
    lastmix ← gets a_lastmix;
    if flt (fadd nowt epsilon) lastmix then pass
    else
      let due := fadd nowt epsilon in
      paced_mix MAXMIXCATCHUP frames interval due;;
      lastmix ← gets a_lastmix;
      (if fge due lastmix then
         q ← lift (float_floordiv (fsub nowt lastmix) interval);
         let dropped := q + 1 in
         d ← lift (float_of_int dropped);
         modify (set_a_lastmix (fadd lastmix (fmul d interval)));;
         add_xruns dropped
       else pass);;
      statlog pass.
End AudioMix.
