(* ===== verification/AudioServer.v ===== *)
(** The connections and message handlers of the audio service (audioserver.py):
    accepting, reading, parsing and writing, one function per message type, and
    subscriptions. *)

From stdpp Require Import base list strings.
From Stdlib Require Import ZArith Lia Bool String.
From Stdlib Require Import SpecFloat.
From S2P Require Import Prelude Assoc Ring PyFloat FloatFacts PyText PyVal PyJson Exchange Pcm AudioWire AudioState.
From S2P Require Import AudioStream AudioMix.
Open Scope Z_scope.

(** ** Access to a decoded payload *)

Fixpoint str_prefix (p s : pystr) : bool :=
  match p, s with
  | [], _ => true
  | a :: p', b :: s' => (a =? b) && str_prefix p' s'
  | _, _ => false
  end.

Fixpoint str_contains (p s : pystr) : bool :=
  str_prefix p s || match s with [] => false | _ :: s' => str_contains p s' end.

(** [key in payload]. *)
Definition py_in (key : string) (payload : pyval) : res bool :=
  match payload with
  | PDict d => Ok (dict_mem (lit key) d)
  | PList l => Ok (existsb (fun v => is_string v key) l)
  | PStr s => Ok (str_contains (lit key) s)
  | _ => Exc TypeError
  end.

(** [payload[key]] with a string key. *)
Definition py_item (key : string) (payload : pyval) : res pyval :=
  match payload with
  | PDict d => match dict_get (lit key) d with Some v => Ok v | None => Exc KeyError end
  | _ => Exc TypeError
  end.

Definition hashable (v : pyval) : bool :=
  match v with PList _ | PDict _ => false | _ => true end.

Definition err_reply (e : string) : pyval := pobj [("error", PStr (lit e))]%string.

Section AudioServer.
Context {U : PyUnicode}.

(** ** Connections *)

Definition getclient (fd : Z) : AM (option client) := gets (fun s => aget fd (a_clients s)).

Definition updclient (fd : Z) (f : client -> client) : AM unit :=
  modify (fun s => match aget fd (a_clients s) with
                   | Some c => set_a_clients (aset fd (f c) (a_clients s)) s
                   | None => s
                   end).

(** [conn] is the descriptor of an accepted connection, [None] when [accept]
    raised. *)
Definition accept (conn : option Z) : AM unit :=
  match conn with
  | None => pass
  | Some fd =>
      n ← gets (fun s => zlen (a_clients s));
      cfg ← getconfig;
      limit ← lift (py_int (dict_get_def (lit "maxclients") (PInt 32) cfg));
      if limit <=? n then pass
      else
        pruneclosed (Some fd);;
        modify (fun s => set_a_clients (aset fd (mkclient [] [] false [] false) (a_clients s)) s)
  end.

Fixpoint free_streams (fd : Z) (ids : list Z) : AM unit :=
  match ids with
  | [] => pass
  | i :: ids' =>
      x ← streamget i;
      match x with
      | Some st => if st_fd st =? fd then streamfree i (lit "disconnected") false;; pass else pass
      | None => pass
      end;;
      free_streams fd ids'
  end.

Definition drop (fd : Z) : AM unit :=
  c ← getclient fd;
  match c with
  | None => pass
  | Some _ =>
      ids ← gets (fun s => List.map fst (a_streams s));
      free_streams fd ids;;
      pruneclosed (Some fd);;
      modify (fun s => set_a_clients (adel fd (a_clients s)) s)
  end.

(** A client whose interest the selector does not take is dropped. *)
Definition updateclientevents (fd : Z) : AM unit :=
  c ← getclient fd;
  match c with
  | None => pass
  | Some _ =>
      modified ← observe e_modify;
      if modified : bool then updclient fd (fun c => set_cl_want (match cl_outbuf c with [] => false | _ => true end) c)
      else drop fd
  end.

Definition send (fd msgtype : Z) (payload : pyval) : AM unit :=
  c ← getclient fd;
  match c with
  | None => pass
  | Some _ =>
      match packresponse msgtype payload [] with
      | Exc _ => drop fd
      | Ok p =>
          updclient fd (fun c => set_cl_outbuf (cl_outbuf c ++ p) c);;
          updateclientevents fd
      end
  end.

Fixpoint send_all (fds : list Z) (msgtype : Z) (payload : pyval) : AM unit :=
  match fds with
  | [] => pass
  | fd :: fds' => send fd msgtype payload;; send_all fds' msgtype payload
  end.

Definition broadcast (msgtype : Z) (payload : pyval) : AM unit :=
  fds ← gets (fun s => List.map fst (a_clients s));
  send_all fds msgtype payload.

(** [sent] is what [sock.send] took, [None] when it would block; an error is a
    negative count. *)
Definition writeclient (fd : Z) (sent : option Z) : AM unit :=
  c ← getclient fd;
  match c with
  | None => drop fd
  | Some c =>
      match cl_outbuf c with
      | [] => updateclientevents fd
      | outbuf =>
          match sent with
          | None => pass
          | Some n =>
              if n <? 0 then drop fd
              else updclient fd (set_cl_outbuf (zdrop n outbuf));; updateclientevents fd
          end
      end
  end.

(** ** Subscriptions *)

Definition subadd (fd : Z) (topic : pyval) : AM bool :=
  c ← getclient fd;
  match c with
  | None => mret false
  | Some c =>
      if negb (hashable topic) then lift (Exc TypeError)
      else updclient fd (set_cl_subs (cl_subs c ++ [topic]));; mret true
  end.

Definition is_topic (topic : string) (v : pyval) : bool := is_string v topic.

Definition subdel (fd : Z) (topic : string) : AM bool :=
  c ← getclient fd;
  match c with
  | None => mret false
  | Some c =>
      updclient fd (set_cl_subs (List.filter (fun v => negb (is_topic topic v)) (cl_subs c)));;
      mret true
  end.

(** The loop over [CLIENTS.items()]: a send that drops a client changes the
    dict's size, and the iteration raises. *)
Fixpoint subsend_loop (fds : list Z) (topic : string) (msgtype : Z) (payload : pyval) : AM unit :=
  match fds with
  | [] => pass
  | fd :: fds' =>
      c ← getclient fd;
      n ← gets (fun s => zlen (a_clients s));
      match c with
      | None => pass
      | Some c => when (existsb (is_topic topic) (cl_subs c)) (send fd msgtype payload)
      end;;
      n' ← gets (fun s => zlen (a_clients s));
      if negb (n' =? n) then lift (Exc RuntimeError)
      else subsend_loop fds' topic msgtype payload
  end.

Definition subsend (topic : string) (msgtype : Z) (payload : pyval) : AM unit :=
  fds ← gets (fun s => List.map fst (a_clients s));
  subsend_loop fds topic msgtype payload.

Definition notemsg (evtype : string) (t : pystr) (payload : pyval) : pyval :=
  pobj [("type", PStr (lit evtype)); ("time", PStr t); ("data", payload)]%string.

Definition event (evtype : string) (payload : pyval) : AM unit :=
  t ← timestamp;
  subsend evtype MSGNOTIFY (notemsg evtype t payload).

(** ** Handlers *)

Definition handlehello (fd : Z) (payload : pyval) : AM unit :=
  updclient fd (set_cl_authed true);;
  t ← timestamp;
  send fd MSGHELLO (pobj
    [("server", PStr (lit "audioserver")); ("time", PStr t); ("protocol", PInt PROTO);
     ("capabilities", pobj [("write_ack", PBool true); ("stream_status", PBool true);
        ("drain_close", PBool true); ("negotiated_samplerate", PBool true);
        ("presented_progress", PBool true)])]%string).

Definition handleping (fd : Z) (payload : pyval) : AM unit :=
  t ← timestamp;
  send fd MSGPING (pobj [("time", PStr t)]%string).

Definition handleconfig (fd : Z) (payload : pyval) : AM unit :=
  cfg ← getconfig;
  if negb (truthy payload) then
    g ← gets a_mastergain;
    m ← gets a_mastermute;
    send fd MSGCONFIG (PDict (dict_set (lit "mastermute") (PBool m)
                               (dict_set (lit "mastergain") (PFloat g) cfg)))
  else
    cfg ← lift (mergeconfig cfg payload);
    applyconfig cfg;;
    saveconfig cfg;;
    send fd MSGCONFIG (PDict cfg).

Definition handlestreamopen (fd : Z) (payload : pyval) : AM unit :=
  let payload := if truthy payload then payload else PDict [] in
  streamid ← streamnew fd payload;
  match streamid with
  | None => send fd MSGERROR (err_reply "cannot open stream")
  | Some streamid =>
      x ← streamget streamid;
      match x with
      | None => lift (Exc AttributeError)
      | Some st =>
          send fd MSGSTREAMOPEN (pobj
            [("stream", PInt streamid);
             ("format", pobj [("samplerate", PInt (st_rate st)); ("channels", PInt DEFAULTCH);
                              ("format", PStr (lit "s16le"))]);
             ("capacity", PInt (rb_size (st_rb st))); ("prebuffer", PInt (st_prebuffer st));
             ("latency_class", PStr (st_latency st)); ("write_ack", PBool (st_write_ack st))]%string)
      end
  end.

(** [int(payload['stream'])], every exception caught. *)
Definition stream_id (payload : pyval) : option Z :=
  match v ← py_item "stream" payload; py_int v with Ok i => Some i | Exc _ => None end.

(** [not payload or 'stream' not in payload]. *)
Definition lacks_stream (payload : pyval) : res bool :=
  if negb (truthy payload) then Ok true
  else b ← py_in "stream" payload; Ok (negb b).

(** The stream when it belongs to the client. *)
Definition ownstream (fd streamid : Z) : AM (option stream) :=
  x ← streamget streamid;
  mret (match x with Some st => if st_fd st =? fd then Some st else None | None => None end).

Definition payload_get (key : string) (dflt : pyval) (payload : pyval) : pyval :=
  match payload with PDict d => dict_get_def (lit key) dflt d | _ => dflt end.

(** The status of a stream, its counter stored, sent to the client. *)
Definition send_status (fd msgtype streamid : Z) (st : stream) (extra : pydict) : AM unit :=
  x ← streamstatusdata st;
  let '(st, d) := x in
  putstream streamid st;;
  send fd msgtype (PDict (fold_left (fun c kv => dict_set kv.1 kv.2 c) extra d)).

Definition or_empty (p : option pydict) : pyval := match p with Some d => PDict d | None => PBool false end.

Definition handlestreamclose (fd : Z) (payload : pyval) : AM unit :=
  lacks ← lift (lacks_stream payload);
  if lacks : bool then send fd MSGERROR (err_reply "missing stream id")
  else
    match stream_id payload with
    | None => send fd MSGERROR (err_reply "invalid stream id")
    | Some streamid =>
        x ← ownstream fd streamid;
        match x with
        | None =>
            closed ← closedstreamget fd streamid;
            match closed with
            | Some ((_ :: _) as d) => send fd MSGSTREAMCLOSE (PDict d)
            | _ => send fd MSGERROR (err_reply "stream not found")
            end
        | Some st =>
            if negb (truthy (payload_get "drain" (PBool true) payload)) then
              closed ← streamfree streamid (lit "aborted") true;
              send fd MSGSTREAMCLOSE (or_empty closed)
            else
              let st := set_st_state (if st_paused st then lit "paused" else lit "draining")
                          (set_st_closing true st) in
              putstream streamid st;;
              y ← (if rbavail (st_rb st) <=? 0 then
                     z ← streamdrained st;
                     let '(st, d) := z in
                     putstream streamid st;; mret (st, d)
                   else mret (st, false));
              let '(st, drained) := y in
              if drained : bool then
                closed ← streamfree streamid (lit "drained") true;
                send fd MSGSTREAMCLOSE (or_empty closed)
              else send_status fd MSGSTREAMCLOSE streamid st []
        end
    end.

Definition handlestreamwrite (fd : Z) (payload : pyval) (raw : bytes) : AM unit :=
  lacks ← lift (lacks_stream payload);
  if lacks || match raw with [] => true | _ => false end then
    send fd MSGERROR (err_reply "invalid stream write")
  else
    match stream_id payload with
    | None => send fd MSGERROR (err_reply "invalid stream id")
    | Some streamid =>
        x ← ownstream fd streamid;
        match x with
        | None => send fd MSGERROR (err_reply "stream not found")
        | Some st =>
            if st_closing st then send fd MSGERROR (err_reply "stream is closing")
            else if negb (zlen raw mod FRAMEBYTES =? 0) then
              send fd MSGERROR (err_reply "unaligned stream write")
            else
              ok ← streampush streamid raw;
              x ← streamget streamid;
              let st := default st x in
              if ok : bool then
                let st := set_st_inbytes (st_inbytes st + zlen raw) st in
                mr ← lift (pcmstats raw 2048);
                let st := set_st_inrms mr.2 (set_st_inmax mr.1 st) in
                t ← observe e_wall;
                let st := if fgt (fsub t (st_lastinlog st)) AUDIOTELEMETRYINTERVAL
                          then set_st_lastinlog t st else st in
                putstream streamid st;;
                when (st_write_ack st)
                  (send_status fd MSGSTREAMWRITE streamid st
                     (pdict [("ok", PBool true); ("accepted", PInt (zlen raw))]%string))
              else if st_write_ack st then
                send_status fd MSGSTREAMWRITE streamid st
                  (pdict [("ok", PBool false); ("accepted", PInt 0)]%string)
              else send fd MSGERROR (err_reply "stream write failed")
        end
    end.

Definition handlestreamread (fd : Z) (payload : pyval) : AM unit :=
  send fd MSGERROR (err_reply "capture not implemented").

Definition handlestreamstatus (fd : Z) (payload : pyval) : AM unit :=
  lacks ← lift (lacks_stream payload);
  if lacks : bool then send fd MSGERROR (err_reply "missing stream id")
  else
    match stream_id payload with
    | None => send fd MSGERROR (err_reply "invalid stream id")
    | Some streamid =>
        x ← ownstream fd streamid;
        match x with
        | Some st =>
            y ← (if st_closing st && (rbavail (st_rb st) <=? 0) then
                   z ← streamdrained st;
                   let '(st, d) := z in
                   putstream streamid st;; mret (st, d)
                 else mret (st, false));
            let '(st, drained) := y in
            if drained : bool then
              closed ← streamfree streamid (lit "drained") true;
              send fd MSGSTREAMSTATUS (or_empty closed)
            else send_status fd MSGSTREAMSTATUS streamid st []
        | None =>
            closed ← closedstreamget fd streamid;
            match closed with
            | Some ((_ :: _) as d) => send fd MSGSTREAMSTATUS (PDict d)
            | _ => send fd MSGERROR (err_reply "stream not found")
            end
        end
    end.

(** The state shown for a stream whose paused flag is set or cleared. *)
Definition control_state (paused : bool) (st : stream) : pystr :=
  if paused then lit "paused"
  else if st_closing st then lit "draining"
  else if st_started st then lit "playing"
  else lit "prebuffering".

Definition handlestreamcontrol (fd : Z) (payload : pyval) : AM unit :=
  lacks ← lift (lacks_stream payload);
  has ← (if lacks : bool then mret true
         else lift (p ← py_in "paused" payload;
                    if p : bool then Ok true else py_in "muted" payload));
  if lacks || negb has then send fd MSGERROR (err_reply "invalid stream control")
  else
    match stream_id payload with
    | None => send fd MSGERROR (err_reply "invalid stream id")
    | Some streamid =>
        x ← ownstream fd streamid;
        match x with
        | None => send fd MSGERROR (err_reply "stream not found")
        | Some st =>
            muted ← lift (py_in "muted" payload);
            let st := if muted : bool
                      then set_st_mute (truthy (payload_get "muted" PNone payload)) st else st in
            hasp ← lift (py_in "paused" payload);
            let st := if hasp : bool
                      then let paused := truthy (payload_get "paused" PNone payload) in
                           set_st_state (control_state paused st) (set_st_paused paused st)
                      else st in
            putstream streamid st;;
            send_status fd MSGSTREAMCONTROL streamid st []
        end
    end.

Definition volume_data : AM pyval :=
  g ← gets a_mastergain;
  m ← gets a_mastermute;
  mret (pobj [("gain", PFloat g); ("mute", PBool m)]%string).

Definition mute_data : AM pyval :=
  m ← gets a_mastermute;
  g ← gets a_mastergain;
  mret (pobj [("mute", PBool m); ("gain", PFloat g)]%string).

Definition handlevolume (fd : Z) (payload : pyval) : AM unit :=
  if negb (truthy payload) then d ← volume_data; send fd MSGVOLUME d
  else
    hasg ← lift (py_in "gain" payload);
    hasd ← lift (py_in "delta" payload);
    if negb hasg && negb hasd then send fd MSGERROR (err_reply "missing gain")
    else
      current ← gets a_mastergain;
      gain ← (if hasg : bool then lift (v ← py_item "gain" payload; py_float v)
              else
                delta ← lift (v ← spec_get "delta" (PFloat fzero) payload; py_float v);
                mret (fadd current delta));
      let gain := if flt gain fzero then fzero else gain in
      let gain := if fgt gain fone then fone else gain in
      if flt (fabs (fsub gain current)) (fdecimal 1 (-6)) then
        send fd MSGVOLUME (pobj [("gain", PFloat current)]%string)
      else
        modify (set_a_mastergain gain);;
        masterconfigschedule;;
        send fd MSGVOLUME (pobj [("gain", PFloat gain)]%string);;
        t ← timestamp;
        d ← volume_data;
        broadcast MSGNOTIFY (notemsg "volume" t d).

Definition handlemute (fd : Z) (payload : pyval) : AM unit :=
  if negb (truthy payload) then d ← mute_data; send fd MSGMUTE d
  else
    hasm ← lift (py_in "mute" payload);
    if negb hasm then send fd MSGERROR (err_reply "missing mute")
    else
      v ← lift (py_item "mute" payload);
      current ← gets a_mastermute;
      if Bool.eqb (truthy v) current then
        send fd MSGMUTE (pobj [("mute", PBool current)]%string)
      else
        modify (set_a_mastermute (truthy v));;
        masterconfigschedule;;
        send fd MSGMUTE (pobj [("mute", PBool (truthy v))]%string);;
        d ← mute_data;
        event "mute" d.

Definition handlesubscribe (fd : Z) (payload : pyval) : AM unit :=
  lacks ← lift (if negb (truthy payload) then Ok true
                else b ← py_in "topic" payload; Ok (negb b));
  if lacks : bool then send fd MSGERROR (err_reply "missing topic")
  else
    topic ← lift (py_item "topic" payload);
    c ← getclient fd;
    match c with
    | None => pass
    | Some c =>
        (if negb (hashable topic) then lift (Exc TypeError)
         else updclient fd (set_cl_subs (cl_subs c ++ [topic])));;
        send fd MSGSUBSCRIBE (pobj [("topic", topic)]%string);;
        (if is_topic "volume" topic then
           t ← timestamp; d ← volume_data; send fd MSGNOTIFY (notemsg "volume" t d)
         else pass);;
        (if is_topic "mute" topic then
           t ← timestamp; d ← mute_data; send fd MSGNOTIFY (notemsg "mute" t d)
         else pass)
    end.

(** ** Devices

    What the files of the device nodes say is the environment's; a backend that is
    opened is of the file or ALSA kind. *)

Definition scan : AM unit :=
  number ← gets a_tick;
  devices ← observe e_scan;
  modify (set_a_devices (List.map (fun d => mkdevice (dv_id d) (dv_caps d) (dv_ready d) number) devices)).

Definition active_id : AM pyval :=
  active ← gets a_active;
  mret (match active with Some dev => PStr (dv_id dev) | None => PNone end).

(** One item of [devlist]. *)
Definition devitem (active : option device) (open : bool) (dev : device) : AM pyval :=
  name ← observe e_name;
  name ← lift name;
  let item := pdict [("id", PStr (dv_id dev)); ("name", PStr name); ("caps", PDict (dv_caps dev));
                     ("ready", PBool (dv_ready dev))]%string in
  match active with
  | Some a =>
      if str_eqb (dv_id dev) (dv_id a) && open then
        format ← observe e_format;
        format ← lift format;
        mret (PDict (dict_set (lit "format") format item))
      else mret (PDict item)
  | None => mret (PDict item)
  end.

Fixpoint devitems (active : option device) (open : bool) (devices : list device) : AM (list pyval) :=
  match devices with
  | [] => mret []
  | dev :: devices =>
      item ← devitem active open dev;
      items ← devitems active open devices;
      mret (item :: items)
  end.

Definition is_open (s : aud) : bool := match a_backend s with Some _ => true | None => false end.

Definition devlist : AM pyval :=
  active ← gets a_active;
  open ← gets is_open;
  devices ← gets a_devices;
  items ← devitems active open devices;
  mret (PList items).

(** The payload that lists the devices and names the active one. *)
Definition device_data : AM pyval :=
  devices ← devlist;
  active ← active_id;
  mret (pobj [("devices", devices); ("active", active)]%string).

Definition devnotify : AM unit := d ← device_data; broadcast MSGNOTIFY d.
Definition devlistemit : AM unit := d ← device_data; broadcast MSGDEVLIST d.

(** [dev['ready'] = ready], of this very object. *)
Definition set_ready (dev : device) (ready : bool) : AM unit :=
  modify (fun s => set_a_devices (List.map (fun d =>
    if str_eqb (dv_id d) (dv_id dev) && (dv_scan d =? dv_scan dev)%nat
    then mkdevice (dv_id d) (dv_caps d) ready (dv_scan d) else d) (a_devices s)) s).

(** The device of the open backend is the active one. *)
Definition backendclose : AM unit :=
  open ← gets is_open;
  when open (
    active ← gets a_active;
    match active with Some a => set_ready a false | None => pass end;;
    modify (set_a_backend None)).

Definition backendopen (dev : device) : AM bool :=
  if negb (is_string (dict_get_def (lit "class") PNone (dv_caps dev)) "audio")
     || negb (truthy (dict_get_def (lit "audioout") PNone (dv_caps dev)))
  then mret false
  else
    backend ← observe e_open;
    set_ready dev (bk_ready backend);;
    modify (set_a_backend (Some backend));;
    when (bk_ready backend) devlistemit;;
    mret (bk_ready backend).

Definition is_device (devid : pyval) (dev : device) : bool :=
  match devid with PStr id => str_eqb (dv_id dev) id | _ => false end.

Definition devset (devid : pyval) : AM bool :=
  devices ← gets a_devices;
  match List.find (is_device devid) devices with
  | None => mret false
  | Some dev =>
      backendclose;;
      modify (set_a_active (Some dev));;
      backendopen dev;;
      devnotify;;
      mret true
  end.

Definition handledevlist (fd : Z) (payload : pyval) : AM unit :=
  scan;;
  d ← device_data;
  send fd MSGDEVLIST d.

Definition handledevset (fd : Z) (payload : pyval) : AM unit :=
  has ← lift (if negb (truthy payload) then Ok false else py_in "id" payload);
  if negb has then send fd MSGERROR (err_reply "missing device id")
  else
    devid ← lift (py_item "id" payload);
    ok ← devset devid;
    if negb ok then send fd MSGERROR (err_reply "device not found")
    else send fd MSGDEVSET (pobj [("active", devid)]%string).

(** ** Dispatch *)

Definition handlemessage (fd mtype : Z) (payload : pyval) (raw : bytes) : AM unit :=
  if mtype =? MSGHELLO then handlehello fd payload
  else if mtype =? MSGPING then handleping fd payload
  else if mtype =? MSGCONFIG then handleconfig fd payload
  else if mtype =? MSGDEVLIST then handledevlist fd payload
  else if mtype =? MSGDEVSET then handledevset fd payload
  else if mtype =? MSGSTREAMOPEN then handlestreamopen fd payload
  else if mtype =? MSGSTREAMCLOSE then handlestreamclose fd payload
  else if mtype =? MSGSTREAMWRITE then handlestreamwrite fd payload raw
  else if mtype =? MSGSTREAMREAD then handlestreamread fd payload
  else if mtype =? MSGSTREAMSTATUS then handlestreamstatus fd payload
  else if mtype =? MSGSTREAMCONTROL then handlestreamcontrol fd payload
  else if mtype =? MSGVOLUME then handlevolume fd payload
  else if mtype =? MSGMUTE then handlemute fd payload
  else if mtype =? MSGSUBSCRIBE then handlesubscribe fd payload
  else send fd MSGERROR (err_reply "unknown message").

(** The document and the raw bytes of a message body. *)
Definition decode_json (b : bytes) : pyval := catch (utf8_decode b ≫= json_loads) PNone.

Definition decode_body (mtype : Z) (payload : bytes) : pyval * bytes :=
  if mtype =? MSGSTREAMWRITE then
    if zlen payload <? 4 then (PNone, payload)
    else
      let jlen := unpack_u32be payload in
      if zlen payload - 4 <? jlen then (PNone, payload)
      else (decode_json (zslice payload 4 (4 + jlen)), zdrop (4 + jlen) payload)
  else
    match utf8_decode payload ≫= json_loads with
    | Ok v => (v, [])
    | Exc _ => (PNone, payload)
    end.

(** One turn of the parsing loop: stop, drop the client, or a message and the
    rest of the buffer. *)
Inductive parsed : Type :=
| PStop
| PBad
| PMsg (mtype : Z) (payload : pyval) (raw : bytes) (rest : bytes).

Definition parse_one (buf : bytes) : parsed :=
  if zlen buf <? HEADER_SIZE then PStop
  else
    let '(magic, proto, mtype, flags, length) := unpackheader buf in
    if negb (bool_decide (magic = MAGIC)) || negb (proto =? PROTO) || (AUDIO_MAXMSG <? length)
    then PBad
    else if zlen buf <? HEADER_SIZE + length then PStop
    else
      let '(data, raw) := decode_body mtype (zslice buf HEADER_SIZE (HEADER_SIZE + length)) in
      PMsg mtype data raw (zdrop (HEADER_SIZE + length) buf).

(** The loop goes on with the buffer it took from the client even when a handler
    drops the client: the remaining messages are then handled for a descriptor
    without a client. *)
Fixpoint parse_loop (fuel : nat) (fd : Z) (buf : bytes) : AM unit :=
  match fuel with
  | O => pass
  | S fuel =>
      match parse_one buf with
      | PStop => updclient fd (set_cl_inbuf buf)
      | PBad => drop fd
      | PMsg mtype data raw rest =>
          updclient fd (set_cl_inbuf rest);;
          handlemessage fd mtype data raw;;
          parse_loop fuel fd rest
      end
  end.

Definition parse (fd : Z) : AM unit :=
  c ← getclient fd;
  match c with
  | None => pass
  | Some c => parse_loop (S (List.length (cl_inbuf c))) fd (cl_inbuf c)
  end.

Definition readclient (fd : Z) (r : recv_result) : AM unit :=
  c ← getclient fd;
  match c with
  | None => drop fd
  | Some c =>
      match r with
      | RWouldBlock => pass
      | RError | RData [] => drop fd
      | RData data =>
          let inbuf := cl_inbuf c ++ data in
          updclient fd (set_cl_inbuf inbuf);;
          if AUDIO_MAXMSG + HEADER_SIZE <? zlen inbuf then drop fd else parse fd
      end
  end.

(** ** The event loop *)

(** One ready object: the listening socket, or a client to read and to write. *)
Inductive io_event : Type :=
| EvAccept (conn : option Z)
| EvClient (fd : Z) (read : option recv_result) (write : option (option Z)).

Definition pollevent (e : io_event) : AM unit :=
  match e with
  | EvAccept conn => accept conn
  | EvClient fd r w =>
      match r with Some r => readclient fd r | None => pass end;;
      match w with Some n => writeclient fd n | None => pass end
  end.

Fixpoint pollevents (evs : list io_event) : AM unit :=
  match evs with
  | [] => pass
  | e :: evs' => pollevent e;; pollevents evs'
  end.

(** One turn of [runloop]. *)
Definition runstep (evs : list io_event) : AM unit :=
  mixloop;;
  masterconfigflush false;;
  mixwait (fdecimal 2 (-2));;
  pollevents evs.
End AudioServer.
