(* ===== verification/AudioProofs.v ===== *)
(** Reasoning about the audio service: Hoare triples for its monad, the
    invariant of the stream table, and its preservation by the stream functions,
    the mixer and every message handler. *)

From stdpp Require Import base list sets strings.
From Stdlib Require Import ZArith Lia Bool String.
From Stdlib Require Import SpecFloat.
From S2P Require Import Prelude Assoc Ring PyFloat FloatFacts PyText PyVal PyJson Exchange Pcm AudioWire AudioState.
From S2P Require Import AudioStream AudioMix AudioServer.
Open Scope Z_scope.

(** ** Triples

    [hoare E P m Q]: from a state with [P], [m] ends in a state with [Q] of its
    result, or raises, which is allowed when [E]. *)
Definition hoare {A} (E : Prop) (P : aud -> Prop) (m : AM A) (Q : A -> aud -> Prop) : Prop :=
  forall s, P s -> match m s with Ok (s', a) => Q a s' | Exc _ => E end.

Section Hoare.
Context {E : Prop}.

Lemma hoare_ret {A} (P : aud -> Prop) (a : A) (Q : A -> aud -> Prop) :
  (forall s, P s -> Q a s) -> hoare E P (mret a) Q.
Proof. intros H s Hs. by apply H. Qed.

Lemma hoare_bind {A B} P (m : AM A) R (k : A -> AM B) Q :
  hoare E P m R -> (forall a, hoare E (R a) (k a) Q) -> hoare E P (m ≫= k) Q.
Proof.
  intros Hm Hk s Hs. specialize (Hm s Hs). unfold mbind, am_bind.
  destruct (m s) as [[s' a]|e]; [by apply Hk|done].
Qed.

Lemma hoare_conseq {A} (P P' : aud -> Prop) (m : AM A) (Q Q' : A -> aud -> Prop) :
  hoare E P' m Q' -> (forall s, P s -> P' s) -> (forall a s, Q' a s -> Q a s) -> hoare E P m Q.
Proof.
  intros Hm HP HQ s Hs. specialize (Hm s (HP s Hs)). destruct (m s) as [[s' a]|e]; [by apply HQ|done].
Qed.

Lemma hoare_pure {A} (P : aud -> Prop) (X : Prop) (m : AM A) Q :
  (X -> hoare E P m Q) -> hoare E (fun s => P s /\ X) m Q.
Proof. intros H s [Hs Hx]. by apply H. Qed.

Lemma hoare_gets {A} P (f : aud -> A) : hoare E P (gets f) (fun a s => P s /\ f s = a).
Proof. by intros s Hs. Qed.

Lemma hoare_modify P (f : aud -> aud) (Q : unit -> aud -> Prop) :
  (forall s, P s -> Q tt (f s)) -> hoare E P (modify f) Q.
Proof. intros H s Hs. by apply H. Qed.

Lemma hoare_observe {A} P (f : env -> nat -> A) :
  (forall s n, P s -> P (set_a_tick n s)) -> hoare E P (observe f) (fun _ s => P s).
Proof. intros H s Hs. by apply H. Qed.

Lemma hoare_lift {A} P (r : res A) :
  E \/ is_ok r = true -> hoare E P (lift r) (fun a s => P s /\ r = Ok a).
Proof. intros H s Hs. unfold lift. destruct r; [done|]. by destruct H. Qed.
End Hoare.

(** Running a call whose first step is known. *)
Lemma run_bind {A B} (m : AM A) (k : A -> AM B) s s1 a : m s = Ok (s1, a) -> (m ≫= k) s = k a s1.
Proof. intros H. unfold mbind, am_bind. by rewrite H. Qed.

(** ** Streams *)

(** A ring of the service; a stream opened at a tiny rate has an empty one. *)
Definition ring_ok (r : rb) : Prop := rb_ok r \/ rb_size r = 0 /\ rb_used r = 0.

Lemma ring_queue_length r : ring_ok r -> zlen (rb_queue r) = rb_used r.
Proof.
  intros [H|[H0 H1]]; [by apply rb_queue_length|]. unfold rb_queue. by rewrite H1.
Qed.

Lemma ring_used r : ring_ok r -> 0 <= rb_used r <= rb_size r.
Proof. intros [H|[H0 H1]]; [apply H|lia]. Qed.

Lemma ring_push r d :
  ring_ok r -> 0 < zlen d <= rbspace r ->
  exists r', rbpush r d = Ok (r', true) /\ ring_ok r' /\ rb_queue r' = rb_queue r ++ d /\
    rb_size r' = rb_size r.
Proof.
  unfold rbspace. intros [H|[H0 H1]] Hd; [|lia].
  destruct (rbpush_shape r d H) as (buf & Hb & _); [unfold rbspace; lia|].
  destruct (rbpush_push _ _ _ H Hb) as [Hok Hq]. eexists. split; [exact Hb|].
  split; [by left|]. done.
Qed.

Lemma ring_pop r n :
  ring_ok r -> 0 < n <= rb_used r ->
  exists r' out, rbpop r n = Ok (r', Some out) /\ ring_ok r' /\ zlen out = n /\
    rb_queue r = out ++ rb_queue r' /\ rb_size r' = rb_size r.
Proof.
  intros [H|[H0 H1]] Hn; [|lia].
  pose proof (rbpop_shape r n H ltac:(lia)) as Hp. destruct (rbpop_pop _ _ _ _ H Hp) as (Hok & Hl & Hq).
  do 2 eexists. split; [exact Hp|]. split; [by left|]. done.
Qed.

(** Whole frames throughout, every byte that came in either played or queued, no
    more presented than played, and a gain that attenuates. *)
Record stream_ok (st : stream) : Prop := {
  so_ring : ring_ok (st_rb st);
  so_bytes : bytes_ok (rb_queue (st_rb st));
  so_used : (FRAMEBYTES | rb_used (st_rb st));
  so_balance : st_inbytes st = st_outbytes st + rb_used (st_rb st);
  so_out : 0 <= st_outbytes st;
  so_outframes : (FRAMEBYTES | st_outbytes st);
  so_presented : 0 <= st_presented st <= st_outbytes st / FRAMEBYTES;
  so_gain : unit_gain (st_gain st) }.

(** The table's entries; the stream with identifier [x] is judged after [fix]. *)
Definition entry_ok (x : Z) (fixup : stream -> stream) (next : Z) (e : Z * stream) : Prop :=
  st_id e.2 = e.1 /\ 0 < e.1 < next /\ stream_ok (if e.1 =? x then fixup e.2 else e.2).

Record aud_okx (x : Z) (fixup : stream -> stream) (s : aud) : Prop := {
  ao_keys : NoDup (List.map fst (a_streams s));
  ao_streams : Forall (entry_ok x fixup (a_next s)) (a_streams s);
  ao_next : 0 < a_next s;
  ao_inbufs : Forall (fun c => bytes_ok (cl_inbuf c.2)) (a_clients s);
  ao_clients : NoDup (List.map fst (a_clients s));
  ao_presented : 0 <= a_bpresented s <= a_mixed s }.

(** The invariant of the service. *)
Definition aud_ok : aud -> Prop := aud_okx 0 id.

Lemma entry_ok_id x next e : entry_ok x id next e <-> st_id e.2 = e.1 /\ 0 < e.1 < next /\ stream_ok e.2.
Proof. unfold entry_ok. by destruct (e.1 =? x). Qed.

Lemma aud_ok_x x s : aud_ok s <-> aud_okx x id s.
Proof.
  split; intros [H1 H2 H3 H4 H5 H6]; split; try done;
    (eapply Forall_impl; [exact H2|]; intros e; by rewrite !entry_ok_id).
Qed.

(** Changes that leave the table, the clients and the counters of the invariant
    alone. *)
Definition frame_of (s s' : aud) : Prop :=
  a_streams s' = a_streams s /\ a_next s' = a_next s /\ a_clients s' = a_clients s /\
  a_mixed s' = a_mixed s /\ a_bpresented s' = a_bpresented s.

Lemma okx_frame x f s s' : frame_of s s' -> aud_okx x f s -> aud_okx x f s'.
Proof.
  intros (E1 & E2 & E3 & E4 & E5) [H1 H2 H3 H4 H5 H6].
  split; rewrite ?E1, ?E2, ?E3, ?E4, ?E5; done.
Qed.

Section Preserve.
Context {U : PyUnicode} {E : Prop} (x : Z) (fixup : stream -> stream).
Local Abbreviation I := (aud_okx x fixup).
Local Abbreviation pres m := (hoare E I m (fun _ s => I s)).

Lemma pres_bind {A B} (m : AM A) (k : A -> AM B) Q :
  pres m -> (forall a, hoare E I (k a) Q) -> hoare E I (m ≫= k) Q.
Proof. intros Hm Hk. eapply hoare_bind; [exact Hm|]. intros a. apply Hk. Qed.

Lemma pres_gets {A B} (f : aud -> A) (k : A -> AM B) Q :
  (forall a, hoare E I (k a) Q) -> hoare E I (gets f ≫= k) Q.
Proof. intros Hk s Hs. by apply Hk. Qed.

Lemma pres_lift {A B} (r : res A) (k : A -> AM B) Q :
  E \/ is_ok r = true -> (forall a, r = Ok a -> hoare E I (k a) Q) -> hoare E I (lift r ≫= k) Q.
Proof.
  intros He Hk s Hs. unfold mbind, am_bind, lift. destruct r as [a|e]; [by apply Hk|]. by destruct He.
Qed.

Lemma pres_modify f : (forall s, frame_of s (f s)) -> pres (modify f).
Proof. intros Hf s Hs. eapply okx_frame; [apply Hf|done]. Qed.

Lemma pres_observe {A} (f : env -> nat -> A) : pres (observe f).
Proof. intros s Hs. by apply (okx_frame x fixup s). Qed.

Lemma pres_ret {A} (a : A) : pres (mret a).
Proof. by intros s Hs. Qed.

Lemma pres_when b m : pres m -> pres (when b m).
Proof. destruct b; [done|]. intros _. apply pres_ret. Qed.

Lemma pres_if {A} (b : bool) (m1 m2 : AM A) : pres m1 -> pres m2 -> pres (if b then m1 else m2).
Proof. by destruct b. Qed.

Lemma upd_backend_frame f : pres (upd_backend f).
Proof. apply pres_modify. intros s. unfold frame_of. destruct (a_backend s); by split_and!. Qed.



Lemma pres_pending : pres backendpendingframes.
Proof.
  unfold backendpendingframes. apply pres_gets. intros [b|]; [|apply pres_ret].
  destruct (bk_alsa b); [|apply pres_ret]. apply pres_bind.
  - destruct (bk_outfd b); [apply pres_observe|apply pres_ret].
  - intros [d|]; [destruct (0 <? d)|]; apply pres_ret.
Qed.

Lemma presented_of_bounds p s :
  0 <= a_bpresented s <= a_mixed s ->
  0 <= presented_of p s <= a_mixed s /\ a_bpresented s <= presented_of p s.
Proof. unfold presented_of. intros H. split_if; lia. Qed.

Lemma pres_presented p : pres (backendpresentedframes p).
Proof.
  unfold backendpresentedframes. apply pres_bind.
  - destruct p; [apply pres_ret|apply pres_pending].
  - intros q. eapply hoare_bind; [|intros; apply hoare_gets || idtac].
    + apply (hoare_modify I _ (fun _ s => I s)). intros s [H1 H2 H3 H4 H5 H6]. split; try done.
      simpl. by apply presented_of_bounds.
    + intros s Hs. done.
Qed.
End Preserve.

(** *** Streams as values *)

Lemma stream_ok_core st st' :
  st_rb st' = st_rb st -> st_inbytes st' = st_inbytes st -> st_outbytes st' = st_outbytes st ->
  st_presented st' = st_presented st -> st_gain st' = st_gain st -> stream_ok st -> stream_ok st'.
Proof.
  intros E1 E2 E3 E4 E5 [H1 H2 H3 H4 H5 H6 H7 H8].
  split; rewrite ?E1, ?E2, ?E3, ?E4, ?E5; done.
Qed.

Lemma segment_presented_mono g segs p : p <= fold_left (segment_presented g) segs p.
Proof.
  revert p. induction segs as [|[[a b] c] segs IH]; intros p; simpl; [lia|].
  etransitivity; [|apply IH]. split_if; lia.
Qed.

Lemma presented_at_spec g st :
  stream_ok st -> stream_ok (presented_at g st) /\ st_presented st <= st_presented (presented_at g st).
Proof.
  intros [H1 H2 H3 H4 H5 H6 H7 H8]. unfold presented_at.
  pose proof (segment_presented_mono g (st_segments st) (Z.max 0 (st_presented st))) as Hm.
  assert (0 <= st_outbytes st / FRAMEBYTES) by (apply Z.div_pos; [lia|done]).
  split; [split; try done; simpl; lia|simpl; lia].
Qed.

(** A stream whose presentation counter was brought up to date. *)
Definition evolves (st st' : stream) : Prop := st' = st \/ exists g, st' = presented_at g st.

Lemma evolves_ok st st' : evolves st st' -> stream_ok st -> stream_ok st'.
Proof. intros [->|[g ->]]; [done|]. intros H. by apply presented_at_spec. Qed.

Lemma evolves_same st st' : evolves st st' ->
  st_id st' = st_id st /\ st_fd st' = st_fd st /\ st_rb st' = st_rb st /\
  st_closing st' = st_closing st /\ st_inbytes st' = st_inbytes st.
Proof. by intros [->|[g ->]]. Qed.

Lemma push_fixup st n r :
  stream_ok st -> ring_ok r -> bytes_ok (rb_queue r) -> (FRAMEBYTES | n) ->
  rb_used r = rb_used (st_rb st) + n -> stream_ok (set_st_inbytes (st_inbytes st + n) (set_st_rb r st)).
Proof.
  intros [H1 H2 H3 H4 H5 H6 H7 H8] Hr Hb Hn Hu. split; simpl; try done; [|lia].
  rewrite Hu. by apply Z.divide_add_r.
Qed.

Lemma pop_fixup st n r :
  stream_ok st -> ring_ok r -> bytes_ok (rb_queue r) -> (FRAMEBYTES | n) -> 0 <= n ->
  rb_used r = rb_used (st_rb st) - n -> stream_ok (set_st_outbytes (st_outbytes st + n) (set_st_rb r st)).
Proof.
  intros [H1 H2 H3 H4 H5 H6 H7 H8] Hr Hb Hn H0 Hu. split; simpl; try done; try lia.
  - rewrite Hu. by apply Z.divide_sub_r.
  - by apply Z.divide_add_r.
  - destruct H7. split; [done|]. etransitivity; [eassumption|]. apply Z.div_le_mono; [done|lia].
Qed.

Lemma rb_used_push r r' d : ring_ok r -> ring_ok r' -> rb_queue r' = rb_queue r ++ d ->
  rb_used r' = rb_used r + zlen d.
Proof.
  intros H H' Hq. rewrite <- (ring_queue_length r H), <- (ring_queue_length r' H'), Hq. apply zlen_app.
Qed.

Lemma rb_used_pop r r' d : ring_ok r -> ring_ok r' -> rb_queue r = d ++ rb_queue r' ->
  rb_used r' = rb_used r - zlen d.
Proof.
  intros H H' Hq. rewrite <- (ring_queue_length r H), <- (ring_queue_length r' H'), Hq, zlen_app. lia.
Qed.

(** ** Preservation of the invariant *)

(** A change outside the invariant. *)
Ltac frame_step := apply pres_modify; intros ?; unfold frame_of; by split_and!.

Section Streams.
Context {U : PyUnicode} {E : Prop}.
Local Abbreviation pres m := (hoare E aud_ok m (fun _ s => aud_ok s)).

Lemma pres_getstream {B} sid (k : option stream -> AM B) Q :
  (forall st, st_id st = sid -> 0 < sid -> stream_ok st -> hoare E aud_ok (k (Some st)) Q) ->
  hoare E aud_ok (k None) Q -> hoare E aud_ok (streamget sid ≫= k) Q.
Proof.
  intros H1 H2 s Hs. unfold streamget, gets, mbind, am_bind.
  destruct (aget sid (a_streams s)) as [st|] eqn:Eg; [|by apply H2].
  apply aget_In in Eg. pose proof (ao_streams _ _ _ Hs) as Hst.
  eapply Forall_forall in Hst; [|exact Eg]. apply entry_ok_id in Hst as (Hi & Hn & Hok).
  simpl in *. apply H1; [done|lia|done|done].
Qed.

Lemma pres_putstream sid st : st_id st = sid -> stream_ok st -> pres (putstream sid st).
Proof.
  intros Hi Hok s [Hk Hst H3 H4 H5 H6]. unfold putstream, modify.
  destruct (aget sid (a_streams s)) as [st0|] eqn:Eg; [|by split].
  apply aget_In in Eg. split; try done; simpl.
  - by apply aset_NoDup.
  - eapply Forall_forall in Hst as He; [|exact Eg]. apply entry_ok_id in He as (_ & Hn & _). simpl in Hn.
    apply aset_Forall; [by right|done|]. by apply entry_ok_id.
Qed.

Lemma pres_spf g st : hoare E aud_ok (streampresentedframes g st) (fun r s => aud_ok s /\ evolves st r.1).
Proof.
  unfold streampresentedframes. eapply pres_bind.
  - destruct g; [apply pres_ret|apply pres_presented].
  - intros a s Hs. split; [done|]. right. by eexists.
Qed.

Lemma pres_drained st : hoare E aud_ok (streamdrained st) (fun r s => aud_ok s /\ evolves st r.1).
Proof.
  unfold streamdrained. eapply hoare_bind; [apply pres_spf|]. intros [st' p] s [Hs He]. done.
Qed.

Lemma pres_status st : hoare E aud_ok (streamstatusdata st) (fun r s => aud_ok s /\ evolves st r.1).
Proof.
  unfold streamstatusdata. eapply pres_bind; [apply pres_pending|]. intros p.
  eapply pres_bind; [apply pres_presented|]. intros g.
  eapply hoare_bind; [apply pres_spf|]. intros [st' q].
  eapply hoare_bind; [|intros; apply hoare_ret; intros s Hs; exact Hs].
  apply hoare_observe. intros s n [Hs He]. split; [|done]. revert Hs. by apply okx_frame.
Qed.

Lemma pres_prune fd : pres (pruneclosed fd).
Proof.
  unfold pruneclosed. apply pres_bind; [apply pres_observe|]. intros t. frame_step.
Qed.

Lemma pres_remember st r : pres (rememberclosed st r).
Proof.
  unfold rememberclosed. eapply hoare_bind; [apply pres_status|]. intros [st' d]. apply hoare_pure. intros _.
  eapply pres_bind; [apply pres_observe|]. intros t.
  eapply pres_bind; [frame_step|]. intros _.
  eapply pres_bind; [apply pres_prune|]. intros _. apply pres_ret.
Qed.

Lemma pres_closedget fd sid : pres (closedstreamget fd sid).
Proof.
  unfold closedstreamget. eapply pres_bind; [apply pres_prune|]. intros _.
  apply pres_gets. intros e. apply pres_ret.
Qed.

Lemma pres_streamfree sid r b : pres (streamfree sid r b).
Proof.
  unfold streamfree. apply pres_getstream; [|apply pres_ret]. intros st Hi Hp Hok.
  eapply pres_bind.
  - intros s [Hk Hst H3 H4 H5 H6]. split; try done; simpl; [by apply adel_NoDup|by apply adel_Forall].
  - intros _. destruct b; [|apply pres_ret]. eapply pres_bind; [apply pres_remember|]. intros d.
    apply pres_ret.
Qed.
End Streams.

(** ** Handlers *)

Section Handlers.
Context {U : PyUnicode}.
Local Abbreviation pres m := (hoare True aud_ok m (fun _ s => aud_ok s)).

Lemma hbind_gets {A B} P (f : aud -> A) (k : A -> AM B) Q :
  (forall a, hoare True P (k a) Q) -> hoare True P (gets f ≫= k) Q.
Proof. intros Hk s Hs. by apply Hk. Qed.

Lemma hbind_lift {A B} P (r : res A) (k : A -> AM B) Q :
  (forall a, r = Ok a -> hoare True P (k a) Q) -> hoare True P (lift r ≫= k) Q.
Proof.
  intros Hk s Hs. unfold mbind, am_bind, lift. destruct r as [a|e]; [by apply Hk|done].
Qed.

Lemma hbind_getconfig {B} P (k : pydict -> AM B) Q :
  (forall a, hoare True P (k a) Q) -> hoare True P (getconfig ≫= k) Q.
Proof. intros Hk s Hs. by apply Hk. Qed.

Lemma pres_raise {A} e Q : hoare True aud_ok (lift (Exc e) : AM A) Q.
Proof. by intros s Hs. Qed.

Lemma pres_updclient fd f :
  (forall c, bytes_ok (cl_inbuf c) -> bytes_ok (cl_inbuf (f c))) -> pres (updclient fd f).
Proof.
  intros Hf s [Hk Hst H3 H4 H5 H6]. unfold updclient, modify.
  destruct (aget fd (a_clients s)) as [c|] eqn:Eg; [|by split].
  split; try done; simpl; [|by apply aset_NoDup].
  apply aset_Forall; [by right|done|]. simpl. apply Hf.
  apply aget_In in Eg. eapply Forall_forall in H4; [|exact Eg]. done.
Qed.

Lemma pres_free_streams fd ids : pres (free_streams fd ids).
Proof.
  induction ids as [|i ids IH]; simpl; [apply pres_ret|]. apply pres_getstream; [|apply pres_bind; [apply pres_ret|done]].
  intros st _ _ _. eapply pres_bind; [|intros; apply IH].
  apply pres_if; [|apply pres_ret]. eapply pres_bind; [apply pres_streamfree|intros; apply pres_ret].
Qed.

Lemma pres_drop fd : pres (drop fd).
Proof.
  unfold drop, getclient. apply hbind_gets. intros [c|]; [|apply pres_ret]. apply hbind_gets. intros ids.
  eapply pres_bind; [apply pres_free_streams|]. intros _.
  eapply pres_bind; [apply pres_prune|]. intros _.
  intros s [Hk Hst H3 H4 H5 H6]. split; try done; simpl; [by apply adel_Forall|by apply adel_NoDup].
Qed.

Lemma pres_updateclientevents fd : pres (updateclientevents fd).
Proof.
  unfold updateclientevents, getclient. apply hbind_gets. intros [c|]; [|apply pres_ret].
  apply pres_bind; [apply pres_observe|]. intros modified. apply pres_if; [by apply pres_updclient|apply pres_drop].
Qed.

Lemma pres_send fd t v : pres (send fd t v).
Proof.
  unfold send, getclient. apply hbind_gets. intros [c|]; [|apply pres_ret].
  destruct (packresponse t v []); [|apply pres_drop].
  eapply pres_bind; [by apply pres_updclient|]. intros _. apply pres_updateclientevents.
Qed.

Lemma pres_send_all fds t v : pres (send_all fds t v).
Proof.
  induction fds as [|fd fds IH]; simpl; [apply pres_ret|].
  eapply pres_bind; [apply pres_send|intros; apply IH].
Qed.

Lemma pres_broadcast t v : pres (broadcast t v).
Proof. unfold broadcast. apply hbind_gets. intros fds. apply pres_send_all. Qed.

Lemma pres_subsend topic t v : pres (subsend topic t v).
Proof.
  unfold subsend. apply hbind_gets. intros fds. induction fds as [|fd fds IH]; simpl; [apply pres_ret|].
  unfold getclient. apply hbind_gets. intros c. apply hbind_gets. intros n. eapply pres_bind.
  - destruct c; [apply pres_when, pres_send|apply pres_ret].
  - intros _. apply hbind_gets. intros n'. destruct (negb _); [apply pres_raise|done].
Qed.

Lemma pres_event e v : pres (event e v).
Proof. unfold event. eapply pres_bind; [apply pres_observe|]. intros t. apply pres_subsend. Qed.

Lemma pres_saveconfig c : pres (saveconfig c).
Proof. unfold saveconfig. eapply pres_bind; [apply pres_observe|]. intros b. apply pres_when. frame_step. Qed.

Lemma pres_applyconfig c : pres (applyconfig c).
Proof.
  unfold applyconfig. repeat (eapply pres_bind; [|intros _]).
  - destruct (dict_get _ _); [|apply pres_ret]. apply hbind_lift. intros g _. frame_step.
  - destruct (dict_get _ _); [|apply pres_ret]. frame_step.
  - destruct (dict_get _ _); [|apply pres_ret]. apply hbind_lift. intros g _. frame_step.
Qed.

Lemma pres_schedule : pres masterconfigschedule.
Proof.
  unfold masterconfigschedule. eapply pres_bind; [frame_step|]. intros _.
  eapply pres_bind; [apply pres_observe|]. intros t. frame_step.
Qed.

(** A new stream: its ring is empty and its counters are zero. *)
Lemma rbnew_ring n r : rbnew n = Ok r -> ring_ok r /\ rb_queue r = [] /\ rb_used r = 0.
Proof.
  intros Hr. destruct (Z_lt_le_dec 0 n).
  - destruct (rbnew_ok n r ltac:(lia) Hr) as [H1 H2]. split; [by left|].
    unfold rbnew in Hr. destruct (n <? 0); [done|]. injection Hr as <-. done.
  - unfold rbnew in Hr. destruct (n <? 0) eqn:Ec; [done|]. injection Hr as <-.
    split; [right; simpl; lia|]. done.
Qed.

Lemma pres_streamnew fd spec : pres (streamnew fd spec).
Proof.
  unfold streamnew. apply hbind_getconfig. intros cfg. apply hbind_gets. intros n.
  apply hbind_lift. intros [] _; [apply pres_ret|].
  unfold streamformat. eapply pres_bind; [apply hbind_gets; intros; apply pres_ret|]. intros [sr|]; [|apply pres_ret].
  eapply hoare_bind; [apply hoare_gets|]. intros sid.
  eapply hoare_bind with (R := fun _ s => aud_ok s /\ 0 < sid < a_next s).
  { apply hoare_modify. intros s [[H1 H2 H3 H4 H5 H6] <-]. split; [|simpl; lia]. split; try done; simpl; [|lia].
    eapply Forall_impl; [exact H2|]. intros e. rewrite !entry_ok_id. intuition lia. }
  intros _. apply hbind_lift. intros lc _. apply hbind_getconfig. intros cfg2.
  apply hbind_lift. intros bs _. apply hbind_lift. intros rbs _. cbv zeta.
  apply hbind_lift. intros rbsize _. apply hbind_lift. intros r Hr.
  apply hbind_lift. intros wa _. apply hbind_getconfig. intros cfg3.
  apply hbind_lift. intros pms _. apply hbind_lift. intros rp _. apply hbind_lift. intros pb _.
  destruct (rbnew_ring _ _ Hr) as (Hring & Hq & Hu).
  eapply hoare_bind; [|intros; apply pres_ret].
  intros s [[H1 H2 H3 H4 H5 H6] Hsid]. split; try done; simpl; [by apply aset_NoDup|].
  apply aset_Forall; [by right|done|]. apply entry_ok_id. split; [done|]. split; [done|].
  simpl. split; simpl; rewrite ?Hq, ?Hu; (done || (by exists 0) || (by constructor) || reflexivity).
Qed.

Lemma pres_send_status fd t sid st extra :
  st_id st = sid -> stream_ok st -> pres (send_status fd t sid st extra).
Proof.
  intros Hi Hok. unfold send_status. eapply hoare_bind; [apply pres_status|]. intros [st' d].
  apply hoare_pure. simpl. intros He. destruct (evolves_same _ _ He) as (E1 & _).
  eapply pres_bind; [|intros; apply pres_send].
  apply pres_putstream; [congruence|by eapply evolves_ok].
Qed.

Lemma pres_ownstream {B} fd sid (k : option stream -> AM B) Q :
  (forall st, st_id st = sid -> stream_ok st -> st_fd st = fd -> hoare True aud_ok (k (Some st)) Q) ->
  hoare True aud_ok (k None) Q -> hoare True aud_ok (ownstream fd sid ≫= k) Q.
Proof.
  intros H1 H2 s Hs. unfold ownstream, streamget, gets, mbind, am_bind, mret, am_ret.
  destruct (aget sid (a_streams s)) as [st|] eqn:Eg; [|by apply H2].
  destruct (st_fd st =? fd) eqn:Ef; [|by apply H2].
  apply aget_In in Eg. pose proof (ao_streams _ _ _ Hs) as Hst.
  eapply Forall_forall in Hst; [|exact Eg]. apply entry_ok_id in Hst as (Hi & Hn & Hok).
  apply H1; [done|done|lia|done].
Qed.

(** The check whether a closing stream has drained. *)
Lemma pres_drain_check {B} (b : bool) sid st (k : stream * bool -> AM B) Q :
  st_id st = sid -> stream_ok st ->
  (forall st' d, st_id st' = sid -> stream_ok st' -> hoare True aud_ok (k (st', d)) Q) ->
  hoare True aud_ok ((if b then z ← streamdrained st; let '(st, d) := z in putstream sid st;; mret (st, d)
                      else mret (st, false)) ≫= k) Q.
Proof.
  intros Hi Hok Hk. eapply hoare_bind with (R := fun r s => aud_ok s /\ st_id r.1 = sid /\ stream_ok r.1).
  - destruct b; [|intros s Hs; done]. eapply hoare_bind; [apply pres_drained|]. intros [st' d].
    apply hoare_pure. simpl. intros He. destruct (evolves_same _ _ He) as (E1 & _).
    assert (stream_ok st') by (by eapply evolves_ok).
    eapply pres_bind; [apply pres_putstream; [simpl in E1; congruence|done]|]. intros _ s Hs.
    split; [done|]. simpl in *. split; [congruence|done].
  - intros [st' d]. apply hoare_pure. intros [H1 H2]. by apply Hk.
Qed.

Lemma pres_streamclose fd v : pres (handlestreamclose fd v).
Proof.
  unfold handlestreamclose. apply hbind_lift. intros [] _; [apply pres_send|].
  destruct (stream_id v) as [sid|]; [|apply pres_send].
  apply pres_ownstream.
  - intros st Hi Hok _. destruct (negb _).
    + eapply pres_bind; [apply pres_streamfree|]. intros d. apply pres_send.
    + cbv zeta. set (st1 := set_st_state _ _).
      assert (Hok1 : stream_ok st1) by (by apply (stream_ok_core st)).
      assert (Hi1 : st_id st1 = sid) by done.
      eapply pres_bind; [by apply pres_putstream|]. intros _.
      apply pres_drain_check; [done|done|]. intros st' d Hi' Hok'. destruct d.
      * eapply pres_bind; [apply pres_streamfree|]. intros d. apply pres_send.
      * by apply pres_send_status.
  - eapply pres_bind; [apply pres_closedget|]. intros [[|]|]; apply pres_send.
Qed.

Lemma pres_streamstatus fd v : pres (handlestreamstatus fd v).
Proof.
  unfold handlestreamstatus. apply hbind_lift. intros [] _; [apply pres_send|].
  destruct (stream_id v) as [sid|]; [|apply pres_send].
  apply pres_ownstream.
  - intros st Hi Hok _. apply pres_drain_check; [done|done|]. intros st' d Hi' Hok'. destruct d.
    + eapply pres_bind; [apply pres_streamfree|]. intros d. apply pres_send.
    + by apply pres_send_status.
  - eapply pres_bind; [apply pres_closedget|]. intros [[|]|]; apply pres_send.
Qed.

Lemma pres_streamcontrol fd v : pres (handlestreamcontrol fd v).
Proof.
  unfold handlestreamcontrol. apply hbind_lift. intros lacks _. eapply pres_bind.
  - destruct lacks; [apply pres_ret|]. intros s Hs. unfold lift. by destruct (_ ≫= _).
  - intros has. destruct (_ || _); [apply pres_send|].
    destruct (stream_id v) as [sid|]; [|apply pres_send].
    apply pres_ownstream; [|apply pres_send]. intros st Hi Hok _.
    apply hbind_lift. intros m _. cbv zeta. apply hbind_lift. intros p _.
    set (st1 := if m then _ else st). set (st2 := if p then _ else st1).
    assert (Hok1 : stream_ok st1) by (unfold st1; destruct m; [by apply (stream_ok_core st)|done]).
    assert (Hok2 : stream_ok st2) by (unfold st2; destruct p; [by apply (stream_ok_core st1)|done]).
    assert (Hi2 : st_id st2 = sid) by (unfold st2, st1; by destruct p, m).
    eapply pres_bind; [by apply pres_putstream|]. intros _. by apply pres_send_status.
Qed.

Lemma pres_streamopen fd v : pres (handlestreamopen fd v).
Proof.
  unfold handlestreamopen. cbv zeta. eapply pres_bind; [apply pres_streamnew|].
  intros [sid|]; [|apply pres_send]. apply pres_getstream; [|apply pres_raise].
  intros st _ _ _. apply pres_send.
Qed.

Lemma pres_volume fd v : pres (handlevolume fd v).
Proof.
  unfold handlevolume, volume_data. destruct (negb (truthy v)).
  { eapply pres_bind; [do 2 (apply hbind_gets; intros ?); apply pres_ret|]. intros d. apply pres_send. }
  apply hbind_lift. intros hg _. apply hbind_lift. intros hd _. destruct (_ && _); [apply pres_send|].
  apply hbind_gets. intros cur. eapply pres_bind.
  { destruct hg; [intros s Hs; unfold lift; by destruct (_ ≫= _)|].
    apply hbind_lift. intros d _. apply pres_ret. }
  intros g. cbv zeta. destruct (flt (fabs _) _); [apply pres_send|].
  eapply pres_bind; [frame_step|]. intros _. eapply pres_bind; [apply pres_schedule|]. intros _.
  eapply pres_bind; [apply pres_send|]. intros _. eapply pres_bind; [apply pres_observe|]. intros t.
  eapply pres_bind; [do 2 (apply hbind_gets; intros ?); apply pres_ret|]. intros d.
  apply pres_broadcast.
Qed.

Lemma pres_mute fd v : pres (handlemute fd v).
Proof.
  unfold handlemute, mute_data. destruct (negb (truthy v)).
  { eapply pres_bind; [do 2 (apply hbind_gets; intros ?); apply pres_ret|]. intros d. apply pres_send. }
  apply hbind_lift. intros hm _. destruct (negb hm); [apply pres_send|].
  apply hbind_lift. intros x _. apply hbind_gets. intros cur. destruct (Bool.eqb _ _); [apply pres_send|].
  eapply pres_bind; [frame_step|]. intros _. eapply pres_bind; [apply pres_schedule|]. intros _.
  eapply pres_bind; [apply pres_send|]. intros _.
  eapply pres_bind; [do 2 (apply hbind_gets; intros ?); apply pres_ret|]. intros d. apply pres_event.
Qed.

Lemma pres_subscribe fd v : pres (handlesubscribe fd v).
Proof.
  unfold handlesubscribe, volume_data, mute_data. apply hbind_lift. intros lacks _.
  destruct lacks; [apply pres_send|]. apply hbind_lift. intros topic _. unfold getclient. apply hbind_gets.
  intros [c|]; [|apply pres_ret]. eapply pres_bind.
  { destruct (negb _); [apply pres_raise|by apply pres_updclient]. }
  intros _. eapply pres_bind; [apply pres_send|]. intros _. eapply pres_bind.
  - destruct (is_topic _ _); [|apply pres_ret]. eapply pres_bind; [apply pres_observe|]. intros t.
    eapply pres_bind; [do 2 (apply hbind_gets; intros ?); apply pres_ret|]. intros d. apply pres_send.
  - intros _. destruct (is_topic _ _); [|apply pres_ret]. eapply pres_bind; [apply pres_observe|]. intros t.
    eapply pres_bind; [do 2 (apply hbind_gets; intros ?); apply pres_ret|]. intros d. apply pres_send.
Qed.

Lemma pres_config fd v : pres (handleconfig fd v).
Proof.
  unfold handleconfig. apply hbind_getconfig. intros cfg. destruct (negb _).
  - apply hbind_gets. intros g. apply hbind_gets. intros m. apply pres_send.
  - apply hbind_lift. intros c _. eapply pres_bind; [apply pres_applyconfig|]. intros _.
    eapply pres_bind; [apply pres_saveconfig|]. intros _. apply pres_send.
Qed.
End Handlers.

(** ** Writing: between the push and the update of the byte counter *)

Section Window.
Context {U : PyUnicode} {E : Prop}.

Lemma okx_put x f st s :
  aud_okx x f s -> st_id st = x -> stream_ok st ->
  aud_ok (match aget x (a_streams s) with
          | Some _ => set_a_streams (aset x st (a_streams s)) s
          | None => s
          end).
Proof.
  intros [Hk Hst H3 H4 H5 H6] Hi Hok.
  assert (Hother : forall e, entry_ok x f (a_next s) e -> e.1 <> x -> entry_ok 0 id (a_next s) e).
  { intros e (A1 & A2 & A3) Hne. apply entry_ok_id. destruct (e.1 =? x) eqn:Ec; [lia|]. done. }
  destruct (aget x (a_streams s)) as [st0|] eqn:Eg; split; try done; simpl.
  - by apply aset_NoDup.
  - clear H3 H4 H5 H6. induction (a_streams s) as [|[k0 v0] l IH]; simpl in *; [done|].
    apply Forall_cons in Hst as [Hs1 Hs2]. apply NoDup_cons in Hk as [Hk1 Hk2].
    destruct (decide (x = k0)) as [->|Hne].
    + apply Forall_cons. split.
      * destruct Hs1 as (_ & A2 & _). by apply entry_ok_id.
      * apply Forall_forall. intros e He. apply Hother.
        { eapply Forall_forall in Hs2; [|exact He]. done. }
        intros Hx. apply Hk1. rewrite <- Hx. by apply (list_elem_of_fmap_2 fst).
    + apply Forall_cons. split; [|by apply IH]. apply Hother; [done|]. simpl. congruence.
  - apply Forall_forall. intros e He. apply Hother.
    { eapply Forall_forall in Hst; [|exact He]. done. }
    intros Hx. apply aget_None in Eg. apply Eg. rewrite <- Hx. by apply (list_elem_of_fmap_2 fst).
Qed.

Definition push_fix (n : Z) (st : stream) : stream := set_st_inbytes (st_inbytes st + n) st.
Definition pop_fix (n : Z) (st : stream) : stream := set_st_outbytes (st_outbytes st + n) st.

(** A change of one stream's ring leaves the table well formed up to the fix. *)
Lemma okx_ring sid f st r s :
  aud_ok s -> aget sid (a_streams s) = Some st -> stream_ok (f (set_st_rb r st)) ->
  aud_okx sid f (set_a_streams (aset sid (set_st_rb r st) (a_streams s)) s).
Proof.
  intros [Hk Hst H3 H4 H5 H6] Hg Hf. split; try done; simpl; [by apply aset_NoDup|].
  assert (Hin : (sid, st) ∈ a_streams s) by (by apply aget_In).
  eapply Forall_forall in Hst as He; [|exact Hin]. apply entry_ok_id in He as (A1 & A2 & _). simpl in *.
  clear Hin H3 H4 H5 H6. induction (a_streams s) as [|[k0 v0] l IH]; simpl in *; [done|].
  apply Forall_cons in Hst as [Hs1 Hs2]. apply NoDup_cons in Hk as [Hk1 Hk2].
  destruct (decide (sid = k0)) as [->|Hne].
  - apply Forall_cons. split.
    + split; [done|]. split; [done|]. simpl. by rewrite Z.eqb_refl.
    + apply Forall_forall. intros e He. eapply Forall_forall in Hs2; [|exact He].
      apply entry_ok_id in Hs2 as (B1 & B2 & B3). split; [done|]. split; [done|].
      destruct (e.1 =? k0) eqn:Ec; [|done]. exfalso. apply Hk1. replace k0 with e.1 by lia.
      by apply (list_elem_of_fmap_2 fst).
  - apply Forall_cons. split; [|by apply IH].
    apply entry_ok_id in Hs1 as (B1 & B2 & B3). split; [done|]. split; [done|]. simpl in *.
    destruct (k0 =? sid) eqn:Ec; [lia|done].
Qed.

(** The window: the ring of stream [sid] has changed, its counter not yet. *)
Definition window (sid : Z) (f : stream -> stream) (s : aud) : Prop :=
  aud_okx sid f s /\ is_Some (aget sid (a_streams s)).

Lemma window_get {B} sid f (k : option stream -> AM B) Q :
  (forall st, st_id st = sid -> stream_ok (f st) -> hoare E (window sid f) (k (Some st)) Q) ->
  hoare E (window sid f) (streamget sid ≫= k) Q.
Proof.
  intros Hk s [Hs [st Eg]]. unfold streamget, gets, mbind, am_bind. rewrite Eg.
  pose proof (ao_streams _ _ _ Hs) as Hst. eapply Forall_forall in Hst; [|by apply aget_In].
  destruct Hst as (Hi & Hn & Hok). simpl in *. rewrite Z.eqb_refl in Hok.
  apply Hk; [done|done|]. split; [done|by rewrite Eg].
Qed.

Lemma window_put {B} sid f st (k : AM B) Q :
  st_id st = sid -> stream_ok st -> hoare E aud_ok k Q ->
  hoare E (window sid f) (putstream sid st;; k) Q.
Proof.
  intros Hi Hok Hk s [Hs [st0 Eg]]. unfold putstream, modify, mbind, am_bind. apply Hk.
  pose proof (okx_put sid f st s Hs Hi Hok) as H. by rewrite Eg in *.
Qed.

Lemma window_observe {A B} sid f (g : env -> nat -> A) (k : A -> AM B) Q :
  (forall a, hoare E (window sid f) (k a) Q) -> hoare E (window sid f) (observe g ≫= k) Q.
Proof.
  intros Hk s [Hs Hp]. apply Hk. split; [|done]. revert Hs. apply okx_frame; by split_and!.
Qed.

(** The window after a change of the ring. *)
Lemma window_ring sid f st r s :
  aud_ok s -> aget sid (a_streams s) = Some st -> stream_ok (f (set_st_rb r st)) ->
  window sid f (set_a_streams (aset sid (set_st_rb r st) (a_streams s)) s).
Proof.
  intros Hs Hg Hf. split; [by apply okx_ring|]. simpl. by rewrite aget_aset_eq.
Qed.

Lemma pushed sid d :
  bytes_ok d ->
  hoare E aud_ok (streampush sid d)
    (fun ok s => if ok then window sid (push_fix (zlen d)) s else aud_ok s).
Proof.
  intros Hd s Hs. unfold streampush, streamget, gets, putstream, modify, lift, mbind, am_bind, mret, am_ret.
  destruct (aget sid (a_streams s)) as [st|] eqn:Eg; [|done].
  destruct ((zlen d <=? 0) || negb (zlen d mod FRAMEBYTES =? 0)) eqn:E1; [done|].
  apply orb_false_iff in E1 as [E1 E2]. destruct (rbspace (st_rb st) <? zlen d) eqn:E3; [done|].
  pose proof (ao_streams _ _ _ Hs) as Hst. eapply Forall_forall in Hst; [|by apply aget_In].
  apply entry_ok_id in Hst as (Hi & Hn & Hok).
  destruct (ring_push (st_rb st) d (so_ring _ Hok)) as (r & -> & Hr & Hq & Hsz); [lia|].
  rewrite Eg. apply window_ring; [done|done|].
  apply (push_fixup st (zlen d) r); try done.
  - rewrite Hq. apply Forall_app. split; [apply Hok|done].
  - apply Z.mod_divide; [done|]. destruct (zlen d mod FRAMEBYTES =? 0) eqn:E4; [lia|done].
  - apply rb_used_push; [apply Hok|done|done].
Qed.

Lemma pulled sid n :
  0 < n -> (FRAMEBYTES | n) ->
  hoare E aud_ok (streampull sid n)
    (fun out s => match out with
                  | Some d => window sid (pop_fix n) s /\ zlen d = n /\ bytes_ok d
                  | None => aud_ok s
                  end).
Proof.
  intros Hn Hdiv s Hs. unfold streampull, streamget, gets, putstream, modify, lift, mbind, am_bind, mret, am_ret.
  destruct (aget sid (a_streams s)) as [st|] eqn:Eg; [|done].
  destruct (rbavail (st_rb st) <? n) eqn:E1; [done|]. unfold rbavail in E1.
  pose proof (ao_streams _ _ _ Hs) as Hst. eapply Forall_forall in Hst; [|by apply aget_In].
  apply entry_ok_id in Hst as (Hi & Hk & Hok).
  destruct (ring_pop (st_rb st) n (so_ring _ Hok)) as (r & d & -> & Hr & Hl & Hq & _); [lia|].
  assert (Hb : bytes_ok d /\ bytes_ok (rb_queue r)).
  { apply Forall_app. rewrite <- Hq. apply Hok. }
  rewrite Eg. split; [|split; [done|apply Hb]]. apply window_ring; [done|done|].
  apply (pop_fixup st n r); try done; [apply Hb|lia|]. rewrite <- Hl. apply rb_used_pop; [apply Hok|done|done].
Qed.

End Window.

Section Writing.
Context {U : PyUnicode}.
Local Abbreviation pres m := (hoare True aud_ok m (fun _ s => aud_ok s)).

Lemma pres_streamwrite fd v raw : bytes_ok raw -> pres (handlestreamwrite fd v raw).
Proof.
  intros Hraw. unfold handlestreamwrite. apply hbind_lift. intros lacks _.
  destruct (_ || _); [apply pres_send|]. destruct (stream_id v) as [sid|]; [|apply pres_send].
  apply pres_ownstream; [|apply pres_send]. intros st Hi Hok _.
  destruct (st_closing st); [apply pres_send|]. destruct (negb _); [apply pres_send|].
  eapply hoare_bind; [by apply pushed|]. intros ok. destruct ok.
  - apply window_get. intros st1 Hid Hfix. cbv zeta. change (default st (Some st1)) with st1.
    apply hbind_lift. intros mr _. apply window_observe. intros t.
    set (st2 := if fgt _ _ then _ else _).
    assert (H2 : st_id st2 = sid /\ stream_ok st2).
    { unfold st2. split; [by destruct (fgt _ _)|].
      destruct (fgt _ _); by apply (stream_ok_core (push_fix (zlen raw) st1)). }
    destruct H2. apply window_put; [done|done|]. apply pres_when. by apply pres_send_status.
  - apply pres_getstream.
    + intros st1 Hid _ Hok1. change (default st (Some st1)) with st1. cbv zeta.
      destruct (st_write_ack st1); [by apply pres_send_status|apply pres_send].
    + change (default st None) with st. cbv zeta. destruct (st_write_ack st); [by apply pres_send_status|apply pres_send].
Qed.
End Writing.

(** ** Messages and events *)

Section Events.
Context {U : PyUnicode}.
Local Abbreviation pres m := (hoare True aud_ok m (fun _ s => aud_ok s)).

Lemma pres_devitems active open devices : pres (devitems active open devices).
Proof.
  induction devices as [|dev devices IH]; cbn [devitems]; [apply pres_ret|]. apply pres_bind.
  - unfold devitem. apply pres_bind; [apply pres_observe|]. intros name. apply hbind_lift. intros n _. cbv zeta.
    destruct active as [a|]; [|apply pres_ret]. apply pres_if; [|apply pres_ret].
    apply pres_bind; [apply pres_observe|]. intros f. apply hbind_lift. intros f' _. apply pres_ret.
  - intros item. apply pres_bind; [exact IH|]. intros items. apply pres_ret.
Qed.

Lemma pres_device_data : pres device_data.
Proof.
  unfold device_data, devlist, active_id. apply pres_bind.
  - do 3 (apply hbind_gets; intros ?). apply pres_bind; [apply pres_devitems|]. intros. apply pres_ret.
  - intros d. apply pres_bind; [apply hbind_gets; intros ?; apply pres_ret|]. intros a. apply pres_ret.
Qed.

Lemma pres_devlist fd v : pres (handledevlist fd v).
Proof.
  unfold handledevlist, scan. apply pres_bind.
  - apply hbind_gets. intros number. apply pres_bind; [apply pres_observe|]. intros d. frame_step.
  - intros _. apply pres_bind; [apply pres_device_data|]. intros d. apply pres_send.
Qed.

Lemma pres_set_ready dev b : pres (set_ready dev b).
Proof. unfold set_ready. frame_step. Qed.

Lemma pres_devset devid : pres (devset devid).
Proof.
  unfold devset. apply hbind_gets. intros devices. destruct (List.find _ _) as [dev|]; [|apply pres_ret].
  apply pres_bind; [|intros _; apply pres_bind; [frame_step|intros _; apply pres_bind; [|intros _; apply pres_bind; [|intros _; apply pres_ret]]]].
  - unfold backendclose. apply hbind_gets. intros open. apply pres_when. apply hbind_gets. intros a.
    apply pres_bind; [destruct a; [apply pres_set_ready|apply pres_ret]|]. intros _. frame_step.
  - unfold backendopen. apply pres_if; [apply pres_ret|]. apply pres_bind; [apply pres_observe|]. intros b.
    apply pres_bind; [apply pres_set_ready|]. intros _. apply pres_bind; [frame_step|]. intros _.
    apply pres_bind; [|intros _; apply pres_ret]. apply pres_when. apply pres_bind; [apply pres_device_data|]. intros d. apply pres_broadcast.
  - unfold devnotify. apply pres_bind; [apply pres_device_data|]. intros d. apply pres_broadcast.
Qed.

Lemma pres_handledevset fd v : pres (handledevset fd v).
Proof.
  unfold handledevset. apply hbind_lift. intros has _. apply pres_if; [apply pres_send|]. apply hbind_lift. intros devid _.
  apply pres_bind; [apply pres_devset|]. intros ok. apply pres_if; apply pres_send.
Qed.

Lemma pres_handlemessage fd t v raw : bytes_ok raw ->
  pres (handlemessage fd t v raw).
Proof.
  intros Hraw. unfold handlemessage. 
  repeat match goal with |- hoare _ _ (if _ then _ else _) _ => apply pres_if end.
  - unfold handlehello. eapply pres_bind; [by apply pres_updclient|]. intros _.
    eapply pres_bind; [apply pres_observe|]. intros tm. apply pres_send.
  - unfold handleping. eapply pres_bind; [apply pres_observe|]. intros tm. apply pres_send.
  - apply pres_config.
  - apply pres_devlist.
  - apply pres_handledevset.
  - apply pres_streamopen.
  - apply pres_streamclose.
  - by apply pres_streamwrite.
  - apply pres_send.
  - apply pres_streamstatus.
  - apply pres_streamcontrol.
  - apply pres_volume.
  - apply pres_mute.
  - apply pres_subscribe.
  - apply pres_send.
Qed.

Lemma bytes_ok_slice b i j : bytes_ok b -> bytes_ok (zslice b i j).
Proof. intros H. unfold zslice, ztake, zdrop. by apply Forall_take, Forall_drop. Qed.

Lemma bytes_ok_drop b i : bytes_ok b -> bytes_ok (zdrop i b).
Proof. apply Forall_drop. Qed.

Lemma parse_one_bytes buf t v raw rest :
  bytes_ok buf -> parse_one buf = PMsg t v raw rest -> bytes_ok raw /\ bytes_ok rest.
Proof.
  intros Hb. unfold parse_one. destruct (_ <? _); [done|]. destruct (unpackheader buf) as [[[[m p] ty] fl] len].
  destruct (_ || _); [done|]. destruct (_ <? _); [done|].
  assert (Hbody : bytes_ok (zslice buf HEADER_SIZE (HEADER_SIZE + len))) by (by apply bytes_ok_slice).
  set (body := zslice _ _ _) in *. clearbody body.
  unfold decode_body. destruct (ty =? MSGSTREAMWRITE).
  - destruct (_ <? 4); [intros [= <- <- <- <-]; split; [done|by apply bytes_ok_drop]|].
    destruct (_ <? _); intros [= <- <- <- <-]; (split; [|by apply bytes_ok_drop]); [done|by apply bytes_ok_drop].
  - destruct (_ ≫= _); intros [= <- <- <- <-]; (split; [|by apply bytes_ok_drop]); [constructor|done].
Qed.

Lemma pres_parse_loop fuel fd buf : bytes_ok buf ->
  pres (parse_loop fuel fd buf).
Proof.
  revert buf. induction fuel as [|fuel IH]; intros buf Hb; simpl; [apply pres_ret|].
  destruct (parse_one buf) as [| |t v raw rest] eqn:Ec.
  - by apply pres_updclient.
  - apply pres_drop.
  - destruct (parse_one_bytes _ _ _ _ _ Hb Ec) as [H1 H2].
    eapply pres_bind; [by apply pres_updclient|]. intros _.
    eapply pres_bind; [by apply pres_handlemessage|]. intros _. by apply IH.
Qed.

Lemma pres_getclient {B} fd (k : option client -> AM B) Q :
  (forall c, bytes_ok (cl_inbuf c) -> hoare True aud_ok (k (Some c)) Q) ->
  hoare True aud_ok (k None) Q -> hoare True aud_ok (getclient fd ≫= k) Q.
Proof.
  intros H1 H2 s Hs. unfold getclient, gets, mbind, am_bind.
  destruct (aget fd (a_clients s)) as [c|] eqn:Eg; [|by apply H2]. apply H1; [|done].
  pose proof (ao_inbufs _ _ _ Hs) as Hc. eapply Forall_forall in Hc; [|by apply aget_In]. done.
Qed.

Lemma pres_readclient fd r :
  (forall d, r = RData d -> bytes_ok d) -> pres (readclient fd r).
Proof.
  intros Hr. unfold readclient. apply pres_getclient; [|apply pres_drop]. intros c Hc.
  destruct r as [[|y d]| |]; [apply pres_drop| |apply pres_ret|apply pres_drop].
  cbv zeta. eapply pres_bind.
  - apply pres_updclient. intros c' _. simpl. apply Forall_app. split; [done|by apply Hr].
  - intros _. destruct (_ <? _); [apply pres_drop|].
    unfold parse. apply pres_getclient; [|apply pres_ret]. intros c' Hc'. by apply pres_parse_loop.
Qed.

Lemma pres_writeclient fd n : pres (writeclient fd n).
Proof.
  unfold writeclient. apply pres_getclient; [|apply pres_drop]. intros c Hc.
  destruct (cl_outbuf c); [apply pres_updateclientevents|].
  destruct n as [n|]; [|apply pres_ret]. destruct (n <? 0); [apply pres_drop|].
  eapply pres_bind; [by apply pres_updclient|]. intros _. apply pres_updateclientevents.
Qed.

Lemma pres_accept conn : pres (accept conn).
Proof.
  unfold accept. destruct conn as [fd|]; [|apply pres_ret]. apply hbind_gets. intros n.
  apply hbind_getconfig. intros cfg. apply hbind_lift. intros l _. destruct (_ <=? _); [apply pres_ret|].
  eapply pres_bind; [apply pres_prune|]. intros _.
  intros s [Hk Hst H3 H4 H5 H6]. split; try done; simpl; [|by apply aset_NoDup].
  apply aset_Forall; [by right|done|]. constructor.
Qed.
End Events.

(** ** Mixing *)

Section Mixing.
Context {U : PyUnicode} {E : Prop}.
Local Abbreviation pres m := (hoare E aud_ok m (fun _ s => aud_ok s)).

Lemma pcm_ok_app a b : pcm_ok a -> pcm_ok b -> pcm_ok (a ++ b).
Proof.
  intros [H1 [i Hi]] [H2 [j Hj]]. split; [by apply Forall_app|]. exists (i + j). rewrite zlen_app. lia.
Qed.

Lemma frames_even n : (FRAMEBYTES | n) -> Z.Even n.
Proof. intros [k ->]. exists (2 * k). unfold FRAMEBYTES, DEFAULTCH. lia. Qed.

(** What a stream contributes to a period of [need] bytes. *)
Definition block_ok (need : Z) (o : option bytes) : Prop :=
  match o with Some b => zlen b = need /\ pcm_ok b | None => True end.

(** Playing a block, from a state where storing the stream is allowed. *)
Lemma play_ok P sid tl st pcm pad :
  (forall B st' (k : AM B) Q, st_id st' = sid -> stream_ok st' -> hoare E aud_ok k Q ->
     hoare E P (putstream sid st';; k) Q) ->
  st_id st = sid -> stream_ok (pop_fix (zlen pcm) st) -> pcm_ok pcm -> pcm_ok pad ->
  hoare E P (play sid tl st pcm pad) (fun o s => aud_ok s /\ block_ok (zlen pcm + zlen pad) o).
Proof.
  intros Hput Hi Hok Hp Hpad. unfold play. cbv zeta.
  set (st1 := set_st_outbytes _ _).
  assert (H1 : stream_ok st1 /\ st_id st1 = sid).
  { unfold st1, streamsegment. destruct (_ <=? 0); [done|].
    split; [|done]. by apply (stream_ok_core (pop_fix (zlen pcm) st)). }
  destruct H1 as [H1 H2]. apply Hput; [done|done|].
  destruct (st_mute st1); [by intros s Hs|].
  assert (Hg : exists b, (if feqb (st_gain st1) fone then Ok pcm else mixapplygain pcm (st_gain st1)) = Ok b /\
    zlen b = zlen pcm /\ pcm_ok b).
  { destruct (feqb _ _); [by exists pcm|]. by apply gain_total; [|apply so_gain]. }
  destruct Hg as (b & Hb & Hl & Hbp). intros s Hs.
  assert (Hm : ((if feqb (st_gain st1) fone then mret pcm else lift (mixapplygain pcm (st_gain st1))) : AM bytes) s
    = Ok (s, b)).
  { destruct (feqb _ _); [by injection Hb as ->|]. unfold lift. by rewrite Hb. }
  unfold mbind, am_bind. rewrite Hm. split; [done|]. simpl. rewrite zlen_app. split; [lia|by apply pcm_ok_app].
Qed.

Lemma silence_pcm n : 0 <= n -> (FRAMEBYTES | n) -> pcm_ok (mixsilence n) /\ zlen (mixsilence n) = n.
Proof. intros Hn Hd. apply mixsilence_ok; [done|by apply frames_even]. Qed.

Lemma pres_starve sid st : st_id st = sid -> stream_ok st -> pres (starve sid st).
Proof.
  intros Hi Hok. unfold starve. cbv zeta. eapply pres_bind; [frame_step|]. intros _.
  apply pres_putstream; [by destruct (st_closing _)|].
  destruct (st_closing _); by apply (stream_ok_core st).
Qed.

Lemma none_ok P (need : Z) : (forall s, P s -> aud_ok s) ->
  hoare E P (mret None) (fun o s => aud_ok s /\ block_ok need o).
Proof. intros H s Hs. split; [by apply H|done]. Qed.

Lemma put_rule {B} sid st (k : AM B) Q :
  st_id st = sid -> stream_ok st -> hoare E aud_ok k Q -> hoare E aud_ok (putstream sid st;; k) Q.
Proof. intros Hi Hok Hk. eapply pres_bind; [by apply pres_putstream|]. by intros _. Qed.

Lemma free_none sid r need (b : bool) :
  hoare E aud_ok ((if b then streamfree sid r true;; pass else pass);; mret None)
    (fun o s => aud_ok s /\ block_ok need o).
Proof.
  eapply pres_bind; [|intros; by apply none_ok].
  destruct b; [|apply pres_ret]. eapply pres_bind; [apply pres_streamfree|intros; apply pres_ret].
Qed.

(** Collecting one stream never raises, keeps the invariant and gives a block of
    the period's length. *)
Lemma collect_one_ok need tl sid :
  0 < need -> (FRAMEBYTES | need) ->
  hoare E aud_ok (collect_one need tl sid) (fun o s => aud_ok s /\ block_ok need o).
Proof.
  intros Hn Hdiv. unfold collect_one. apply pres_getstream; [|by apply none_ok].
  intros st Hi Hpos Hok. destruct (negb (st_alive st)); [by apply none_ok|].
  destruct (st_paused st); [by apply none_ok|]. cbv zeta.
  pose proof (ring_used _ (so_ring _ Hok)) as Hused. unfold rbavail.
  destruct (st_closing st && (rb_used (st_rb st) <=? 0)).
  { eapply pres_bind; [|intros; apply free_none].
    destruct (negb (st_started st)); [apply pres_ret|].
    eapply hoare_bind; [apply pres_drained|]. intros [st' d]. apply hoare_pure. simpl. intros He.
    destruct (evolves_same _ _ He) as (E1 & _). apply put_rule; [congruence|by eapply evolves_ok|apply pres_ret]. }
  set (starts := negb (st_started st) && _). set (st1 := if starts then _ else st).
  assert (H1 : st_id st1 = sid /\ stream_ok st1 /\ st_rb st1 = st_rb st).
  { unfold st1. destruct starts; [|done]. split; [done|]. split; [by apply (stream_ok_core st)|done]. }
  destruct H1 as (Hi1 & Hok1 & Hrb1).
  eapply pres_bind; [apply pres_when; by apply pres_putstream|]. intros _.
  destruct (negb (st_started st1)); [by apply none_ok|].
  destruct (rb_used (st_rb st) <? need) eqn:E1.
  - destruct (st_closing st1 && (0 <? rb_used (st_rb st))) eqn:E2.
    + apply andb_true_iff in E2 as [_ E2].
      destruct (ring_pop (st_rb st) (rb_used (st_rb st)) (so_ring _ Hok)) as (r & d & Hp & Hr & Hl & Hq & _); [lia|].
      rewrite Hrb1, Hp. apply pres_lift; [by right|]. intros y [= <-].
      assert (Hb : bytes_ok d /\ bytes_ok (rb_queue r)) by (apply Forall_app; rewrite <- Hq; apply Hok).
      assert (Hd4 : (FRAMEBYTES | zlen d)) by (rewrite Hl; apply Hok).
      destruct (silence_pcm (need - rb_used (st_rb st))) as [Hsil Hsl]; [lia|apply Z.divide_sub_r; [done|apply Hok]|].
      eapply hoare_conseq; [apply (play_ok aud_ok)| |].
      * intros B. apply @put_rule.
      * done.
      * apply (pop_fixup st1 (zlen d) r); try done; [apply Hb|apply zlen_nonneg|].
        rewrite Hrb1. apply rb_used_pop; [apply Hok|done|done].
      * split; [apply Hb|by apply frames_even].
      * exact Hsil.
      * done.
      * intros o s [Hs Ho]. split; [done|]. replace need with (zlen d + zlen (mixsilence (need - rb_used (st_rb st)))) by lia.
        exact Ho.
    + eapply pres_bind; [by apply pres_starve|]. intros _. apply free_none.
  - eapply hoare_bind; [by apply pulled|]. intros [d|].
    + intros s (Hw & Hl & Hb). revert s Hw.
      change (hoare E (window sid (pop_fix need)) (x ← streamget sid;
        match x with Some st => play sid tl st d [] | None => starve sid st1;; mret None end)
        (fun o s => aud_ok s /\ block_ok need o)).
      apply window_get. intros st2 Hi2 Hok2. eapply hoare_conseq; [apply (play_ok (window sid (pop_fix need)))| | ].
      * intros B. apply @window_put.
      * done.
      * by rewrite Hl.
      * split; [done|]. rewrite Hl. by apply frames_even.
      * split; [constructor|by exists 0].
      * done.
      * intros o s [Hs Ho]. split; [done|]. rewrite zlen_nil, Z.add_0_r, Hl in Ho. exact Ho.
    + apply pres_getstream; intros; (eapply pres_bind; [by apply pres_starve|]; intros; by apply none_ok).
Qed.

Lemma collect_all_ok need tl ids :
  0 < need -> (FRAMEBYTES | need) ->
  hoare E aud_ok (collect_all need tl ids)
    (fun bs s => aud_ok s /\ Forall (fun b => zlen b = need /\ pcm_ok b) bs).
Proof.
  intros Hn Hd. induction ids as [|i ids IH]; simpl; [intros s Hs; split; [done|constructor]|].
  eapply hoare_bind; [by apply collect_one_ok|]. intros o. apply hoare_pure. intros Ho.
  eapply hoare_bind; [exact IH|]. intros bs. apply hoare_pure. intros Hbs.
  intros s Hs. split; [done|]. destruct o; [by constructor|done].
Qed.

Lemma mixcollectframes_ok frames tl :
  0 < frames ->
  hoare E aud_ok (mixcollectframes frames tl)
    (fun bs s => aud_ok s /\ Forall (fun b => zlen b = frames * FRAMEBYTES /\ pcm_ok b) bs).
Proof.
  intros Hf. unfold mixcollectframes. cbv zeta. apply pres_gets. intros mixed. apply pres_gets. intros ids.
  replace (frames * DEFAULTCH * 2) with (frames * FRAMEBYTES) by (unfold FRAMEBYTES; lia).
  apply collect_all_ok; [unfold FRAMEBYTES, DEFAULTCH; lia|by exists frames].
Qed.

Lemma mixsum_all_ok n mixed bs :
  zlen mixed = n -> pcm_ok mixed -> Forall (fun b => zlen b = n /\ pcm_ok b) bs ->
  exists m, mixsum_all mixed bs = Ok m /\ zlen m = n /\ pcm_ok m.
Proof.
  intros Hm Hp Hbs. revert mixed Hm Hp. induction Hbs as [|b bs [Hl Hb] Hbs IH]; intros mixed Hm Hp; simpl.
  - by exists mixed.
  - destruct (mixsum_ok mixed b Hp) as (m & -> & H1 & H2 & _); [apply Hb|lia|]. cbn [mbind res_bind].
    apply IH; [lia|done].
Qed.
End Mixing.
