(* ===== verification/AudioMixProofs.v ===== *)
(** The mixer keeps the service's invariant, and for a master gain that is a number
    it never raises: collecting, mixing and the master stage produce a block of
    exactly the period's length. *)

From stdpp Require Import base list sets strings.
From Stdlib Require Import ZArith Lia Bool String.
From Stdlib Require Import SpecFloat.
From S2P Require Import Prelude Assoc Ring PyFloat FloatFacts PyText PyVal PyJson Exchange Pcm AudioWire AudioState.
From S2P Require Import AudioStream AudioMix AudioServer AudioProofs.
Open Scope Z_scope.

(** ** What a call leaves unchanged *)

Definition keeps {X A} (pi : aud -> X) (m : AM A) : Prop :=
  forall s, match m s with Ok (s', _) => pi s' = pi s | Exc _ => True end.

Section Keeps.
Context {X : Type} (pi : aud -> X).

Lemma keeps_ret {A} (a : A) : keeps pi (mret a).
Proof. done. Qed.
Lemma keeps_bind {A B} (m : AM A) (k : A -> AM B) :
  keeps pi m -> (forall a, keeps pi (k a)) -> keeps pi (m ≫= k).
Proof.
  intros Hm Hk s. unfold mbind, am_bind. specialize (Hm s). destruct (m s) as [[s' a]|]; [|done].
  specialize (Hk a s'). destruct (k a s') as [[s2 b]|]; [congruence|done].
Qed.
Lemma keeps_gets {A} (f : aud -> A) : keeps pi (gets f).
Proof. done. Qed.
Lemma keeps_lift {A} (r : res A) : keeps pi (lift r).
Proof. intros s. unfold lift. by destruct r. Qed.
Lemma keeps_modify f : (forall s, pi (f s) = pi s) -> keeps pi (modify f).
Proof. intros H s. apply H. Qed.

Lemma hoare_keeps {E A} P (m : AM A) Q c :
  hoare E P m Q -> keeps pi m -> hoare E (fun s => P s /\ pi s = c) m (fun a s => Q a s /\ pi s = c).
Proof.
  intros Hm Hk s [Hs Hc]. specialize (Hm s Hs). specialize (Hk s).
  destruct (m s) as [[s' a]|]; [|done]. split; [done|congruence].
Qed.
End Keeps.

(** Follow the structure of a call down to its primitives. *)
Ltac keeps_step :=
  match goal with
  | |- keeps _ (mret _) => apply keeps_ret
  | |- keeps _ pass => apply keeps_ret
  | |- keeps _ (gets _) => apply keeps_gets
  | |- keeps _ (lift _) => apply keeps_lift
  | |- keeps _ (_ ≫= _) => apply keeps_bind; [|intros ?]
  | |- keeps _ (when ?b _) => destruct b; unfold when
  | |- keeps _ (let '(_, _) := ?x in _) => destruct x
  | |- keeps _ (match ?x with _ => _ end) => destruct x
  | |- keeps _ (modify _) => apply keeps_modify; intros ?
  | _ => progress cbv zeta
  end.

(** The state the master stage depends on. *)
Definition gcore {U : PyUnicode} (s : aud) : pyfloat * bool * option pyfloat * Z :=
  (a_mastergain s, a_mastermute s, a_applied s, backendsamplerate s).

(** Collecting changes only the clock, the streams and four counters. *)
Section MixKeeps.
Context {U : PyUnicode} {X : Type} (pi : aud -> X).
Hypothesis pi_tick : forall v s, pi (set_a_tick v s) = pi s.
Hypothesis pi_streams : forall v s, pi (set_a_streams v s) = pi s.
Hypothesis pi_closed : forall v s, pi (set_a_closed v s) = pi s.
Hypothesis pi_bpresented : forall v s, pi (set_a_bpresented v s) = pi s.
Hypothesis pi_underruns : forall v s, pi (set_a_underruns v s) = pi s.

Lemma keeps_observe {A} (f : env -> nat -> A) : keeps pi (observe f).
Proof. intros s. apply pi_tick. Qed.

Lemma keeps_putstream sid st : keeps pi (putstream sid st).
Proof. unfold putstream. apply keeps_modify. intros s. destruct (aget _ _); [apply pi_streams|done]. Qed.

Lemma keeps_pending : keeps pi backendpendingframes.
Proof. unfold backendpendingframes, alsadelay. repeat keeps_step; apply keeps_observe. Qed.

Lemma keeps_presented p : keeps pi (backendpresentedframes p).
Proof. unfold backendpresentedframes. repeat keeps_step; first [apply keeps_pending|apply pi_bpresented]. Qed.

Lemma keeps_spf g st : keeps pi (streampresentedframes g st).
Proof. unfold streampresentedframes. repeat keeps_step; apply keeps_presented. Qed.

Lemma keeps_drained st : keeps pi (streamdrained st).
Proof. unfold streamdrained. repeat keeps_step. apply keeps_spf. Qed.

Lemma keeps_prune fd : keeps pi (pruneclosed fd).
Proof. unfold pruneclosed, monotonic. repeat keeps_step; first [apply keeps_observe|apply pi_closed]. Qed.

Lemma keeps_status st : keeps pi (streamstatusdata st).
Proof.
  unfold streamstatusdata. apply keeps_bind; [apply keeps_pending|intros p].
  apply keeps_bind; [apply keeps_presented|intros q]. apply keeps_bind; [apply keeps_spf|].
  intros [st' r]. repeat keeps_step. apply keeps_observe.
Qed.

Lemma keeps_streamfree sid r b : keeps pi (streamfree sid r b).
Proof.
  unfold streamfree, streamget, rememberclosed, monotonic. repeat keeps_step;
    first [apply keeps_status|apply keeps_prune|apply keeps_observe|apply pi_streams|apply pi_closed].
Qed.

Lemma keeps_play sid tl st pcm pad : keeps pi (play sid tl st pcm pad).
Proof. unfold play. cbv zeta. apply keeps_bind; [apply keeps_putstream|intros _]. repeat keeps_step. Qed.

Lemma keeps_starve sid st : keeps pi (starve sid st).
Proof. unfold starve. cbv zeta. apply keeps_bind; [apply keeps_modify; intros s; apply pi_underruns|intros _]. apply keeps_putstream. Qed.

Lemma keeps_pull sid n : keeps pi (streampull sid n).
Proof. unfold streampull, streamget. repeat keeps_step. apply keeps_putstream. Qed.

Lemma keeps_collect_one need tl sid : keeps pi (collect_one need tl sid).
Proof.
  unfold collect_one, streamget. repeat keeps_step;
    first [apply keeps_drained|apply keeps_putstream|apply keeps_streamfree|apply keeps_play
          |apply keeps_starve|apply keeps_pull].
Qed.

Lemma keeps_collect need tl ids : keeps pi (collect_all need tl ids).
Proof.
  induction ids as [|i ids IH]; simpl; [done|]. apply keeps_bind; [apply keeps_collect_one|intros o].
  apply keeps_bind; [apply IH|intros bs]. done.
Qed.

Lemma keeps_mixcollect frames tl : keeps pi (mixcollectframes frames tl).
Proof. unfold mixcollectframes. cbv zeta. repeat keeps_step. apply keeps_collect. Qed.
End MixKeeps.

(** ** Mixing a period *)

(** The gain state from which the master stage cannot raise. *)
Definition gain_ready {U : PyUnicode} (s : aud) : Prop :=
  mag (a_mastergain s) /\ is_nan (a_mastergain s) = false /\
  (forall g, a_applied s = Some g -> unit_gain g) /\ backendsamplerate s <= 2 ^ 31.

Lemma pcmacc_bound n b maxv acc :
  Forall s16 (samples b) -> 0 <= acc ->
  0 <= (pcmacc n b maxv acc).2 <= acc + Z.of_nat n * 2 ^ 30.
Proof.
  revert b maxv acc. induction n as [|n IH]; intros b maxv acc Hb Ha; [destruct b as [|? [|]]; simpl; lia|].
  destruct b as [|lo [|hi r]]; try (simpl; lia). cbn [pcmacc]. cbv zeta. simpl in Hb.
  apply Forall_cons in Hb as [Hs Hb]. set (v := unpack_s16le lo hi) in *.
  assert (0 <= v * v <= 2 ^ 30) by (unfold s16 in Hs; nia).
  specialize (IH r (if maxv <? (if 0 <=? v then v else - v) then (if 0 <=? v then v else - v) else maxv)
    (acc + v * v) Hb ltac:(lia)). lia.
Qed.

Lemma pcmstats_total b : bytes_ok b -> exists r, pcmstats b 2048 = Ok r.
Proof.
  intros Hb. unfold pcmstats. destruct b as [|x b0]; [eauto|]. set (b := x :: b0) in *.
  destruct (zlen b / 2 <=? 0) eqn:E1; [eauto|]. set (n := if 2048 <? zlen b / 2 then 2048 else zlen b / 2).
  assert (Hn : 0 < n <= 2048) by (unfold n; destruct (2048 <? _) eqn:E2; lia).
  pose proof (pcmacc_bound (Z.to_nat n) b 0 0 (samples_s16 b Hb) ltac:(lia)) as Hacc.
  destruct (pcmacc (Z.to_nat n) b 0 0) as [maxv acc]. simpl in Hacc.
  assert (Ha : exists f, float_of_int acc = Ok f).
  { destruct (float_of_sample acc) as [[_ ?]|(? & ? & ? & ? & _)]; [nia|eauto|eauto]. }
  destruct Ha as (f & ->). cbn [mbind res_bind].
  destruct (float_of_sample n) as [[-> _]|(sx & m & e & -> & _)]; [lia|lia|].
  cbn [mbind res_bind fdiv]. eauto.
Qed.

Section MixTotal.
Context {U : PyUnicode}.

Lemma leveltrace_ok (E : Prop) b : E \/ bytes_ok b -> hoare E aud_ok (mixleveltrace b) (fun _ s => aud_ok s).
Proof.
  intros Hb. unfold mixleveltrace. eapply pres_bind; [apply pres_observe|]. intros t. apply pres_gets. intros l.
  destruct (flt _ _); [apply pres_ret|]. eapply pres_bind; [frame_step|]. intros _.
  apply pres_lift; [|intros; apply pres_ret].
  destruct Hb as [Hb|Hb]; [by left|]. right. by destruct (pcmstats_total b Hb) as [? ->].
Qed.

Lemma mixblocks_pres n bs : hoare True aud_ok (mixblocks n bs) (fun _ s => aud_ok s).
Proof.
  unfold mixblocks. destruct bs as [|b bs]; [apply pres_ret|].
  apply hbind_lift. intros m _. apply hbind_gets. intros s0. destruct (mixmaster _ _ _ _ _) as [applied r].
  eapply pres_bind; [frame_step|]. intros _. apply hbind_lift. intros out _.
  eapply pres_bind; [apply leveltrace_ok; by left|]. intros _. apply pres_ret.
Qed.

(** The master stage in a ready state. *)
Lemma mixmaster_ready s m :
  gain_ready s -> zlen m <= BIG -> pcm_ok m ->
  exists g out, mixmaster (backendsamplerate s) (a_mastergain s) (a_mastermute s) (a_applied s) m
      = (Some g, Ok out) /\ unit_gain g /\ zlen out = zlen m /\ pcm_ok out.
Proof.
  intros (Hmag & Hnan & Happ & Hrate) Hl Hm. unfold mixmaster, mastergainmultiplier.
  set (target := if a_mastermute s then fzero else calibratedmastergain (a_mastergain s)).
  assert (Ht : unit_gain target) by (unfold target; destruct (a_mastermute s); [done|by apply calibrated_unit]).
  assert (Hp : exists out, (if feqb target fone then Ok m else mixapplygain m target) = Ok out /\
    zlen out = zlen m /\ pcm_ok out).
  { destruct (feqb target fone); [by exists m|by apply gain_total]. }
  destruct Hp as (bp & -> & Hlp & Hpp). destruct (a_applied s) as [g0|]; [|by exists target, bp].
  destruct (flt _ _); [by exists target, bp|].
  destruct (ramp_total (backendsamplerate s) m g0 target) as (out & -> & Ho & ?); try done; [by apply Happ|].
  by exists target, out.
Qed.

(** The collected blocks of [n] bytes, mixed, in a ready state: no exception. *)
Lemma mixblocks_total n bs :
  0 <= n <= BIG -> (FRAMEBYTES | n) -> Forall (fun b => zlen b = n /\ pcm_ok b) bs ->
  hoare False (fun s => aud_ok s /\ gain_ready s) (mixblocks n bs)
    (fun out s => aud_ok s /\ zlen out = n /\ pcm_ok out).
Proof.
  intros Hn Hd Hbs. destruct (silence_pcm n) as [Hsil Hlen]; [lia|done|].
  unfold mixblocks. destruct bs as [|b bs]; [by intros s [Hs _]|].
  destruct (mixsum_all_ok n (mixsilence n) (b :: bs) Hlen Hsil Hbs) as (m & Hm & Hlm & Hpm).
  intros s [Hs Hg]. destruct (mixmaster_ready s m Hg) as (g & out & Hmm & Hgu & Hlo & Hpo); [lia|done|].
  unfold mbind, am_bind, lift, gets. rewrite Hm. change (id s) with s. rewrite Hmm.
  unfold modify. cbv beta iota.
  assert (Hs' : aud_ok (set_a_applied (Some g) s)) by (revert Hs; apply okx_frame; by split_and!).
  pose proof (leveltrace_ok False out (or_intror (proj1 Hpo)) _ Hs') as Hlt.
  destruct (mixleveltrace out (set_a_applied (Some g) s)) as [[s2 []]|]; [|done].
  split; [done|]. split; [lia|done].
Qed.

Lemma mixonceframes_pres frames tl : 0 < frames ->
  hoare True aud_ok (mixonceframes frames tl) (fun _ s => aud_ok s).
Proof.
  intros Hf. unfold mixonceframes. eapply hoare_bind; [by apply mixcollectframes_ok|].
  intros bs. apply hoare_pure. intros _. apply mixblocks_pres.
Qed.
End MixTotal.

(** ** The loop *)

Section Loop.
Context {U : PyUnicode}.
Local Abbreviation pres m := (hoare True aud_ok m (fun _ s => aud_ok s)).

Lemma pres_mixed n : 0 <= n -> pres (add_mixed n).
Proof.
  intros Hn s [H1 H2 H3 H4 H5 H6]. split; try done. simpl. lia.
Qed.

Lemma pres_xruns n : pres (add_xruns n).
Proof. unfold add_xruns. frame_step. Qed.

Lemma pres_oswrite d : pres (oswrite d).
Proof.
  unfold oswrite. eapply pres_bind; [apply pres_observe|]. intros r.
  eapply pres_bind; [|intros; apply pres_ret]. destruct r; [apply upd_backend_frame|apply pres_ret].
Qed.

Lemma pres_count n : pres (count_write n).
Proof. unfold count_write. eapply pres_bind; [frame_step|]. intros _. frame_step. Qed.

Lemma pres_errs : pres bump_errs.
Proof. unfold bump_errs. frame_step. Qed.

Lemma pres_pump_write fuel d : pres (pump_write fuel d).
Proof.
  assert (Hret : forall f (b : bool), pres (upd_backend f;; mret b)).
  { intros f b. eapply pres_bind; [apply upd_backend_frame|]. intros _. apply pres_ret. }
  revert d. induction fuel as [|fuel IH]; intros d; destruct d as [|x d]; cbn [pump_write];
    try apply Hret; try apply pres_ret.
  eapply pres_bind; [apply pres_oswrite|]. intros [n|e].
  - destruct (n <=? 0); [apply Hret|]. eapply pres_bind; [apply pres_count|]. intros _. apply IH.
  - destruct (existsb _ _); [apply Hret|]. eapply pres_bind; [apply pres_errs|]. intros _.
    destruct (alsarecoverableerror e); [|apply Hret].
    eapply pres_bind; [apply upd_backend_frame|]. intros _. eapply pres_bind; [apply pres_observe|].
    intros []; [|apply Hret]. eapply pres_bind; [frame_step|]. intros _. apply Hret.
Qed.

Lemma pres_pump_data b : pres (pump_data b).
Proof.
  unfold pump_data. cbv zeta. destruct (bk_outrb b) as [r|]; [|apply pres_ret].
  destruct (bk_pending b); [|apply pres_ret]. eapply pres_bind; [apply pres_observe|].
  intros [d|]; [|apply pres_ret]. destruct (_ <? _); [apply pres_ret|].
  destruct (_ =? 0); [apply pres_raise|]. destruct (_ <? _); [apply pres_ret|].
  eapply pres_bind; [destruct (_ && _); [apply pres_raise|apply pres_ret]|]. intros _.
  destruct (_ <? _); [apply pres_ret|]. apply hbind_lift. intros [r' out] _.
  eapply pres_bind; [apply upd_backend_frame|]. intros _. apply pres_ret.
Qed.

Lemma pres_pump : pres backendfilepump.
Proof.
  unfold backendfilepump. apply hbind_gets. intros [b|]; [|apply pres_ret].
  destruct (negb _); [apply pres_ret|]. destruct (negb _); [apply pres_ret|].
  eapply pres_bind; [apply pres_pump_data|]. intros [d|]; [apply pres_pump_write|apply pres_ret].
Qed.

Lemma pres_backendwrite d : pres (backendwrite d).
Proof.
  unfold backendwrite, backendfilequeue, backendfilewrite. apply hbind_gets. intros [b|]; [|apply pres_ret].
  eapply pres_bind; [|intros ok; eapply pres_bind; [apply pres_pump|intros; apply pres_ret]].
  apply hbind_gets. intros [b'|]; [|apply pres_ret]. destruct (negb (bk_alsa b')).
  - apply hbind_gets. intros [b2|]; [|apply pres_ret]. destruct (negb _); [apply pres_ret|].
    eapply pres_bind; [apply pres_oswrite|]. intros [n|e].
    + eapply pres_bind; [apply pres_count|]. intros _. destruct (negb _); [apply pres_ret|].
      eapply pres_bind; [apply pres_observe|]. intros t. apply hbind_gets. intros l.
      eapply pres_bind; [apply pres_when; frame_step|]. intros _. apply pres_ret.
    + eapply pres_bind; [apply pres_errs|]. intros _. apply pres_ret.
  - destruct (bk_outrb b') as [r|]; [|apply pres_ret]. apply hbind_lift. intros [r' ok] _.
    eapply pres_bind; [apply upd_backend_frame|]. intros _. destruct ok; [apply pres_ret|].
    eapply pres_bind; [apply pres_errs|]. intros _. apply pres_ret.
Qed.

Lemma pres_refill n frames tgt req : 0 < frames -> pres (alsa_refill n frames tgt req).
Proof.
  intros Hf. induction n as [|n IH]; simpl.
  { eapply pres_bind; [apply pres_pending|]. intros _. apply pres_ret. }
  eapply pres_bind; [apply pres_pending|]. intros p. destruct (negb _); [apply pres_ret|].
  apply hbind_gets. intros full. eapply pres_bind.
  { destruct full; [|apply pres_ret]. eapply pres_bind; [apply pres_pump|]. intros _ s Hs. done. }
  intros []; [apply pres_ret|]. apply hbind_gets. intros mixed.
  eapply pres_bind; [by apply mixonceframes_pres|]. intros pcm.
  eapply pres_bind; [apply pres_backendwrite|]. intros []; simpl; [|apply pres_xruns].
  eapply pres_bind; [apply pres_mixed; lia|]. intros _. apply IH.
Qed.

Lemma pres_paced n frames iv due : 0 < frames -> pres (paced_mix n frames iv due).
Proof.
  intros Hf. induction n as [|n IH]; simpl; [apply pres_ret|]. apply hbind_gets. intros l.
  destruct (negb _); [apply pres_ret|]. apply hbind_gets. intros mixed.
  eapply pres_bind; [by apply mixonceframes_pres|]. intros pcm.
  eapply pres_bind; [apply pres_mixed; lia|]. intros _.
  eapply pres_bind; [apply pres_backendwrite|]. intros _.
  eapply pres_bind; [frame_step|]. intros _. apply IH.
Qed.

Lemma pres_statlog m : pres m -> pres (statlog m).
Proof.
  intros Hm. unfold statlog. eapply pres_bind; [apply pres_observe|]. intros t. apply hbind_gets. intros l.
  destruct (fgt _ _); [|apply pres_ret]. eapply pres_bind; [exact Hm|]. intros _. frame_step.
Qed.

Lemma pres_mixloop : pres mixloop.
Proof.
  unfold mixloop. eapply pres_bind; [apply pres_observe|]. intros nowt.
  eapply hoare_bind with (R := fun frames s => aud_ok s /\ 0 < frames).
  { intros s Hs. split; [done|]. unfold mixperiodframes. lia. }
  intros frames. apply hoare_pure. intros Hf.
  apply hbind_gets. intros rate. do 3 (apply hbind_lift; intros ? _). cbv zeta. apply hbind_gets. intros l.
  eapply pres_bind; [apply pres_when; frame_step|]. intros _. apply hbind_gets. intros bk.
  destruct (match bk with Some b => bk_alsa b | None => false end).
  - eapply pres_bind; [apply pres_pump|]. intros _. apply hbind_gets. intros bk'.
    destruct (match bk' with Some b => _ | None => _ end) as [bf fb].
    eapply pres_bind; [by apply pres_refill|]. intros _.
    eapply pres_bind; [frame_step|]. intros _. apply pres_statlog.
    eapply pres_bind; [apply pres_presented|]. intros _.
    eapply pres_bind; [apply pres_pending|]. intros _. apply pres_ret.
  - apply hbind_gets. intros l2. destruct (flt _ _); [apply pres_ret|].
    eapply pres_bind; [by apply pres_paced|]. intros _. apply hbind_gets. intros l3.
    eapply pres_bind; [|intros _; apply pres_statlog, pres_ret].
    destruct (fge _ _); [|apply pres_ret]. apply hbind_lift. intros q _. apply hbind_lift. intros d _.
    eapply pres_bind; [frame_step|]. intros _. apply pres_xruns.
Qed.

Lemma pres_flush force : pres (masterconfigflush force).
Proof.
  unfold masterconfigflush. apply hbind_gets. intros d. destruct (negb d); [apply pres_ret|].
  eapply pres_bind.
  { destruct force; [apply pres_ret|]. eapply pres_bind; [apply pres_observe|]. intros t.
    apply hbind_gets. intros due. apply pres_ret. }
  intros []; [apply pres_ret|]. apply hbind_getconfig. intros cfg. apply hbind_gets. intros g.
  apply hbind_gets. intros m. eapply pres_bind; [apply pres_saveconfig|]. intros _.
  eapply pres_bind; [frame_step|]. intros _. eapply pres_bind; [frame_step|]. intros _. apply pres_ret.
Qed.
End Loop.
