(* ===== verification/AudioSpec.v ===== *)
(** The properties of the audio service: the invariant of its reachable states,
    totality of mixing, delivery of queued samples to the device, stream queues,
    the wire protocol as the server reads it, the table of closed streams, bounded
    catch-up, and the inputs that stop the service. *)

From stdpp Require Import base list sets strings.
From Stdlib Require Import ZArith Lia Bool String.
From Stdlib Require Import SpecFloat.
From S2P Require Import Prelude Assoc Ring PyFloat FloatFacts PyText PyVal PyJson Exchange Pcm AudioWire AudioWireSpec.
From S2P Require Import AudioState AudioStream AudioMix AudioServer AudioProofs AudioMixProofs.
Open Scope Z_scope.

(** ** The invariant *)

Section Reach.
Context {U : PyUnicode}.

(** What the sockets deliver are bytes. *)
Definition io_ok (e : io_event) : Prop :=
  match e with EvClient _ (Some (RData d)) _ => bytes_ok d | _ => True end.

(** The states of the event loop: each turn mixes, flushes the configuration and
    serves the ready objects. *)
Inductive areach (s0 : aud) : aud -> Prop :=
| areach_start : areach s0 s0
| areach_mix s s' : areach s0 s -> mixloop s = Ok (s', tt) -> areach s0 s'
| areach_flush s s' force b : areach s0 s -> masterconfigflush force s = Ok (s', b) -> areach s0 s'
| areach_event s s' e : areach s0 s -> io_ok e ->
    pollevent e s = Ok (s', tt) -> areach s0 s'.

(** C2: in every state the service reaches, stream identifiers and clients are
    listed once, and for every stream the bytes received are exactly the bytes
    played plus the bytes queued, the queue and the played count are whole
    frames, the ring is well formed and within its capacity, and no more is
    reported as presented than was played; the global presented count is within
    the mixed count. *)
Theorem audio_invariant s0 s :
  aud_ok s0 -> areach s0 s -> aud_ok s.
Proof.
  intros H0. induction 1 as [|s s' Hr IH E|s s' f b Hr IH E|s s' e Hr IH He E]; [done| | |].
  - pose proof (pres_mixloop s IH) as H. by rewrite E in H.
  - pose proof (pres_flush f s IH) as H. by rewrite E in H.
  - assert (Hp : hoare True aud_ok (pollevent e) (fun _ s => aud_ok s)).
    { destruct e as [conn|fd r w]; simpl; [apply pres_accept|]. eapply pres_bind.
      - destruct r as [r|]; [|apply pres_ret]. apply pres_readclient.
        intros d ->. done.
      - intros _. destruct w; [apply pres_writeclient|apply pres_ret]. }
    specialize (Hp s IH). by rewrite E in Hp.
Qed.
End Reach.

(** ** Mixing *)

(** C37: in a well-formed state whose master gain is a number, mixing a period of
    any positive number of frames never raises, whatever the streams' states,
    and gives a block of exactly that many frames of valid samples. *)
Theorem mixonceframes_total {U : PyUnicode} frames tl s :
  aud_ok s -> gain_ready s -> 0 < frames -> frames * FRAMEBYTES <= BIG ->
  exists s' out, mixonceframes frames tl s = Ok (s', out) /\ aud_ok s' /\
    zlen out = frames * FRAMEBYTES /\ pcm_ok out.
Proof.
  intros Hs Hg Hf Hbig.
  assert (Hc : hoare False (fun s0 => aud_ok s0 /\ gcore s0 = gcore s) (mixcollectframes frames tl)
    (fun bs s0 => (aud_ok s0 /\ Forall (fun b => zlen b = frames * FRAMEBYTES /\ pcm_ok b) bs) /\ gcore s0 = gcore s)).
  { apply hoare_keeps; [by apply mixcollectframes_ok|]. by apply keeps_mixcollect. }
  specialize (Hc s (conj Hs eq_refl)). unfold mixonceframes, mbind, am_bind.
  destruct (mixcollectframes frames tl s) as [[s1 bs]|]; [|done].
  destruct Hc as [[Hs1 Hbs] Hcore].
  assert (Hg1 : gain_ready s1).
  { unfold gcore in Hcore. injection Hcore as E1 _ E3 E4. unfold gain_ready. by rewrite E1, E3, E4. }
  pose proof (mixblocks_total (frames * FRAMEBYTES) bs) as Hm.
  specialize (Hm ltac:(unfold FRAMEBYTES, DEFAULTCH in *; lia) ltac:(by exists frames) Hbs s1 (conj Hs1 Hg1)).
  replace (frames * DEFAULTCH * 2) with (frames * FRAMEBYTES) by (unfold FRAMEBYTES; lia).
  destruct (mixblocks _ bs s1) as [[s2 out]|]; [|done]. destruct Hm as (? & ? & ?). by exists s2, out.
Qed.

Lemma keeps_mixed_blocks {U : PyUnicode} n bs : keeps a_mixed (mixblocks n bs).
Proof. unfold mixblocks, mixleveltrace, monotonic. repeat keeps_step; first [done|by intros ?]. Qed.

Lemma keeps_mixed_once {U : PyUnicode} frames tl : keeps a_mixed (mixonceframes frames tl).
Proof.
  unfold mixonceframes. apply keeps_bind; [by apply keeps_mixcollect|]. intros bs. apply keeps_mixed_blocks.
Qed.

Lemma keeps_mixed_upd f : keeps a_mixed (upd_backend f).
Proof. unfold upd_backend. apply keeps_modify. intros s. by destruct (a_backend s). Qed.

Lemma keeps_mixed_pump : keeps a_mixed backendfilepump.
Proof.
  assert (Hw : forall fuel d, keeps a_mixed (pump_write fuel d)).
  { induction fuel as [|fuel IH]; intros d; destruct d as [|x d]; cbn [pump_write];
      unfold oswrite, count_write, bump_errs; repeat keeps_step;
      first [apply keeps_mixed_upd|apply IH|by intros ?|done]. }
  unfold backendfilepump, pump_data, alsadelay. repeat keeps_step;
    first [apply keeps_mixed_upd|apply Hw|by intros ?|done].
Qed.

Lemma keeps_mixed_write d : keeps a_mixed (backendwrite d).
Proof.
  unfold backendwrite, backendfilequeue, backendfilewrite, oswrite, count_write, bump_errs, monotonic.
  repeat keeps_step; first [apply keeps_mixed_upd|apply keeps_mixed_pump|by intros ?|done].
Qed.

(** One turn of the paced loop mixes whole periods, at most [n] of them (the
    code's limit is sixteen), however far the clock has run ahead. *)
Theorem paced_mix_bounded {U : PyUnicode} n frames interval due s s' :
  0 < frames -> paced_mix n frames interval due s = Ok (s', tt) ->
  exists k, 0 <= k <= Z.of_nat n /\ a_mixed s' = a_mixed s + k * frames.
Proof.
  intros Hf. revert s. induction n as [|n IH]; intros s; simpl.
  { intros [= <-]. exists 0. lia. }
  unfold mbind, am_bind, gets, modify. destruct (negb _).
  { intros [= <-]. exists 0. lia. }
  pose proof (keeps_mixed_once frames (Some (a_mixed s)) s) as H1.
  destruct (mixonceframes frames (Some (a_mixed s)) s) as [[s1 pcm]|]; [|done].
  unfold add_mixed, modify. set (s2 := set_a_mixed _ s1).
  pose proof (keeps_mixed_write pcm s2) as H2.
  destruct (backendwrite pcm s2) as [[s3 ok]|]; [|done].
  intros H. destruct (IH _ H) as (k & Hk & Hm). exists (k + 1). split; [lia|].
  rewrite Hm. simpl. rewrite H2. simpl. lia.
Qed.

(** ** The stream queues *)

(** A block offered to a stream is accepted exactly when it is a positive
    number of whole frames and fits the free space; it is then appended to the
    queue, and otherwise nothing changes at all. *)
Theorem streampush_spec {U : PyUnicode} sid d s st :
  aud_ok s -> aget sid (a_streams s) = Some st -> bytes_ok d ->
  if (0 <? zlen d) && (zlen d mod FRAMEBYTES =? 0) && (zlen d <=? rbspace (st_rb st)) then
    exists r, streampush sid d s = Ok (set_a_streams (aset sid (set_st_rb r st) (a_streams s)) s, true) /\
      rb_queue r = rb_queue (st_rb st) ++ d /\ rb_size r = rb_size (st_rb st)
  else streampush sid d s = Ok (s, false).
Proof.
  intros Hs Hg Hd. pose proof (ao_streams _ _ _ Hs) as Hst. eapply Forall_forall in Hst; [|by apply aget_In].
  apply entry_ok_id in Hst as (Hi & Hn & Hok). simpl in *.
  unfold streampush, streamget, gets, putstream, modify, lift, mbind, am_bind, mret, am_ret. rewrite Hg.
  destruct (zlen d <=? 0) eqn:E1; [rewrite (proj2 (Z.ltb_ge 0 (zlen d))) by lia; done|].
  rewrite (proj2 (Z.ltb_lt 0 (zlen d))) by lia. cbn [orb andb].
  destruct (zlen d mod FRAMEBYTES =? 0) eqn:E2; [|done]. cbn [negb andb].
  destruct (rbspace (st_rb st) <? zlen d) eqn:E3.
  - rewrite (proj2 (Z.leb_gt _ _)) by lia. done.
  - rewrite (proj2 (Z.leb_le _ _)) by lia.
    destruct (ring_push (st_rb st) d (so_ring _ Hok)) as (r & -> & Hr & Hq & Hsz); [lia|].
    exists r. by rewrite Hg.
Qed.

(** A period pulled from a stream is the oldest queued bytes, in order, which
    leave the queue; when fewer are queued nothing is pulled and nothing
    changes. *)
Theorem streampull_spec {U : PyUnicode} sid n s st :
  aud_ok s -> aget sid (a_streams s) = Some st -> 0 < n ->
  if n <=? rb_used (st_rb st) then
    exists r d, streampull sid n s = Ok (set_a_streams (aset sid (set_st_rb r st) (a_streams s)) s, Some d) /\
      rb_queue (st_rb st) = d ++ rb_queue r /\ zlen d = n
  else streampull sid n s = Ok (s, None).
Proof.
  intros Hs Hg Hn. pose proof (ao_streams _ _ _ Hs) as Hst. eapply Forall_forall in Hst; [|by apply aget_In].
  apply entry_ok_id in Hst as (Hi & _ & Hok). simpl in *.
  unfold streampull, streamget, gets, putstream, modify, lift, mbind, am_bind, mret, am_ret, rbavail. rewrite Hg.
  destruct (n <=? rb_used (st_rb st)) eqn:E1.
  - rewrite (proj2 (Z.ltb_ge _ _)) by lia.
    destruct (ring_pop (st_rb st) n (so_ring _ Hok)) as (r & d & -> & Hr & Hl & Hq & _); [lia|].
    exists r, d. by rewrite Hg.
  - by rewrite (proj2 (Z.ltb_lt _ _)) by lia.
Qed.

(** ** Delivery to the device *)

(** Everything accepted for the device, in order: what it took, the rest of a
    partial write, and the queue. *)
Definition device_stream (b : backend) : bytes :=
  bk_written b ++ bk_pending b ++ match bk_outrb b with Some r => rb_queue r | None => [] end.

(** Errors that only ask to try again. *)
Definition try_again (e : Z) : bool := existsb (Z.eqb e) [11; 35].

(** Samples are lost only with the last call of the pump: a write that fails with an
    error that is neither "try again" nor recoverable. *)
Definition delivery (s s' : aud) (stream : bytes) : Prop :=
  exists b', a_backend s' = Some b' /\
    (device_stream b' = stream \/
     a_berrs s' = a_berrs s + 1 /\ bk_pending b' = [] /\
     (exists t e, a_tick s' = S t /\ (a_tick s <= t)%nat /\ e_write (a_env s) t = WErrno e /\
        try_again e = false /\ alsarecoverableerror e = false) /\
     exists taken lost rest, bk_written b' = taken /\
       match bk_outrb b' with Some r => rb_queue r | None => [] end = rest /\
       taken ++ lost ++ rest = stream).

Lemma delivery_from s0 s s' stream : a_env s = a_env s0 -> a_berrs s = a_berrs s0 -> (a_tick s0 <= a_tick s)%nat ->
  delivery s s' stream -> delivery s0 s' stream.
Proof.
  intros E1 E2 E3 (b' & Hb & H). exists b'. split; [done|]. destruct H as [H|(H1 & H2 & (t & e & T1 & T2 & T3 & T4 & T5) & H3)]; [by left|].
  right. rewrite <- E1, <- E2. split_and!; try done. exists t, e. split_and!; [done|lia|done..].
Qed.

Lemma run_upd f s b : a_backend s = Some b -> upd_backend f s = Ok (set_a_backend (Some (f b)) s, tt).
Proof. intros H. unfold upd_backend, modify. by rewrite H. Qed.

Lemma run_oswrite d s b : a_backend s = Some b ->
  oswrite d s = match e_write (a_env s) (a_tick s) with
    | WroteN n => Ok (set_a_backend (Some (set_bk_written (bk_written b ++ ztake n d) b))
                        (set_a_tick (S (a_tick s)) s), WroteN n)
    | WErrno e => Ok (set_a_tick (S (a_tick s)) s, WErrno e)
    end.
Proof.
  intros H. unfold oswrite, observe, mbind, am_bind. destruct (e_write _ _); [|done].
  unfold upd_backend, modify. simpl. by rewrite H.
Qed.

Definition queued (b : backend) : bytes := match bk_outrb b with Some r => rb_queue r | None => [] end.

(** The loop's exits that keep the rest of the block. *)
Lemma pump_keep data s0 s b (bb : bool) :
  a_backend s = Some b ->
  exists s' ok, ((upd_backend (set_bk_pending data);; mret bb) : AM bool) s = Ok (s', ok) /\
    delivery s0 s' (bk_written b ++ data ++ queued b).
Proof.
  intros Hb. rewrite (run_bind _ _ _ _ _ (run_upd _ s b Hb)). eexists _, bb. split; [reflexivity|].
  eexists. split; [reflexivity|]. by left.
Qed.

Lemma pump_write_delivery fuel data s b :
  a_backend s = Some b -> (List.length data <= fuel)%nat ->
  exists s' ok, pump_write fuel data s = Ok (s', ok) /\ delivery s s' (bk_written b ++ data ++ queued b).
Proof.
  revert data s b. induction fuel as [|fuel IH]; intros data s b Hb Hl;
    (destruct data as [|x data0]; [by apply (pump_keep [])|try (simpl in Hl; lia)]); cbn [pump_write].
  set (data := x :: data0) in *. pose proof (run_oswrite data s b Hb) as Hw.
  destruct (e_write (a_env s) (a_tick s)) as [n|e] eqn:Ew; rewrite (run_bind _ _ _ _ _ Hw).
  - set (s1 := set_a_backend _ _). set (b1 := set_bk_written (bk_written b ++ ztake n data) b).
    assert (Hb1 : a_backend s1 = Some b1) by done. destruct (n <=? 0) eqn:En.
    + destruct (pump_keep data s s1 b1 false Hb1) as (s' & ok & H1 & H2). exists s', ok. split; [exact H1|].
      replace (bk_written b ++ data ++ queued b) with (bk_written b1 ++ data ++ queued b1); [done|].
      unfold b1, queued. simpl. replace (ztake n data) with (@nil Z); [by rewrite app_nil_r|].
      unfold ztake. by replace (Z.to_nat n) with 0%nat by lia.
    + rewrite (run_bind _ _ s1 (set_a_bbytes (a_bbytes s1 + n) (set_a_bwrites (a_bwrites s1 + 1) s1)) tt eq_refl).
      set (s2 := set_a_bbytes _ _). destruct (IH (zdrop n data) s2 b1 Hb1) as (s' & ok & H1 & H2).
      { unfold zdrop. rewrite length_drop. subst data. simpl in Hl |- *. lia. }
      exists s', ok. split; [exact H1|].
      replace (bk_written b ++ data ++ queued b) with (bk_written b1 ++ zdrop n data ++ queued b1); [apply (delivery_from s s2); [done|done|cbn; lia|exact H2]|].
      unfold b1, queued. simpl bk_written. rewrite <- app_assoc. f_equal. rewrite app_assoc. by rewrite ztake_zdrop.
  - set (s1 := set_a_tick _ s). assert (Hb1 : a_backend s1 = Some b) by done.
    destruct (existsb (Z.eqb e) [11; 35]) eqn:Et; [by apply pump_keep|].
    rewrite (run_bind _ _ s1 (set_a_berrs (a_berrs s1 + 1) s1) tt eq_refl). set (s2 := set_a_berrs _ s1).
    assert (Hb2 : a_backend s2 = Some b) by done. destruct (alsarecoverableerror e) eqn:Er.
    + rewrite (run_bind _ _ _ _ _ (run_upd (set_bk_pending data) s2 b Hb2)). set (s3 := set_a_backend _ s2).
      rewrite (run_bind _ _ s3 (set_a_tick (S (a_tick s3)) s3) (e_prepare (a_env s3) (a_tick s3)) eq_refl).
      destruct (e_prepare _ _); (eexists _, false; split; [reflexivity|]);
        (eexists; split; [reflexivity|]); by left.
    + rewrite (run_bind _ _ _ _ _ (run_upd (set_bk_pending []) s2 b Hb2)).
      eexists _, false. split; [reflexivity|]. eexists. split; [reflexivity|]. right.
      split; [done|]. split; [done|]. split; [by exists (a_tick s), e|]. by eexists _, data, _.
Qed.

(** C6: the pump never raises, and writes to the ALSA device in order: what the
    device has taken, what is pending and what is queued is, after a pump, the
    same stream of samples as before; only a write error that is neither
    "try again" nor recoverable loses the block being written, and counts it. *)
Theorem pump_delivers s b r :
  a_backend s = Some b -> bk_alsa b = true -> bk_outfd b = true -> bk_outrb b = Some r -> rb_ok r ->
  0 < bk_periodframes b -> 0 < bk_framebytes b ->
  exists s' ok, backendfilepump s = Ok (s', ok) /\ delivery s s' (device_stream b).
Proof.
  intros Hb Ha Ho Hr Hrok Hp Hf.
  assert (Hsame : forall s1, a_backend s1 = Some b -> delivery s s1 (device_stream b)).
  { intros s1 Hb1. exists b. split; [done|]. by left. }
  assert (Hidle : forall s1, a_backend s1 = Some b -> exists s' ok,
    Ok (s1, false) = Ok (s', ok) /\ delivery s s' (device_stream b)).
  { intros s1 Hb1. exists s1, false. split; [done|by apply Hsame]. }
  unfold backendfilepump. rewrite (run_bind _ _ s s (a_backend s) eq_refl). rewrite Hb, Ha, Ho. cbn [negb].
  destruct (bk_pending b) as [|y p] eqn:Epend.
  - set (s1 := set_a_tick (S (a_tick s)) s). assert (Hb1 : a_backend s1 = Some b) by done.
    assert (Hdata : pump_data b s = Ok (s1, None) \/
      exists mb, 0 < mb <= rb_used r /\ pump_data b s =
        Ok (set_a_backend (Some (set_bk_outrb (Some (mkrb (rb_buf r) (rb_size r) ((rb_r r + mb) mod rb_size r)
          (rb_w r) (rb_used r - mb))) b)) s1, Some (ztake mb (rb_queue r)))).
    { unfold pump_data. rewrite Hr, Epend. cbv zeta.
      rewrite (run_bind alsadelay _ s s1 (e_delay (a_env s) (a_tick s)) eq_refl).
      destruct (e_delay _ _) as [delay|]; [|by left].
      destruct (_ <? bk_periodframes b) eqn:E1; [by left|].
      destruct (bk_periodframes b =? 0) eqn:E2; [lia|].
      set (pb := bk_periodframes b * bk_framebytes b). assert (Hpb : 0 < pb) by (unfold pb; nia).
      set (mb := _ / bk_periodframes b * pb). unfold rbavail.
      destruct (rb_used r <? pb) eqn:E3; [by left|].
      replace ((rb_used r <? mb) && (pb =? 0)) with false
        by (rewrite (proj2 (Z.eqb_neq pb 0)) by lia; by rewrite andb_false_r).
      rewrite (run_bind pass _ s1 s1 tt eq_refl).
      set (mb' := if rb_used r <? mb then _ else mb).
      destruct (mb' <? pb) eqn:E5; [by left|]. right. exists mb'.
      assert (Hmb : 0 < mb' <= rb_used r).
      { unfold mb' in *. pose proof (Z.mod_pos_bound (rb_used r) pb Hpb).
        destruct (rb_used r <? mb) eqn:E6; lia. }
      split; [done|]. pose proof (rbpop_shape r mb' Hrok ltac:(lia)) as Hpop.
      destruct (rbpop_pop _ _ _ _ Hrok Hpop) as (_ & Hl & _).
      unfold lift at 1. rewrite Hpop. unfold mbind at 1, am_bind at 1. cbv beta iota.
      rewrite (run_bind _ _ _ _ _ (run_upd _ s1 b Hb1)).
      destruct (ztake mb' (rb_queue r)); [rewrite zlen_nil in Hl; lia|done]. }
    destruct Hdata as [Hd|(mb & Hmb & Hd)]; rewrite (run_bind _ _ _ _ _ Hd); [by apply Hidle|].
    pose proof (rbpop_shape r mb Hrok ltac:(lia)) as Hpop.
    destruct (rbpop_pop _ _ _ _ Hrok Hpop) as (_ & _ & Hq).
    set (b2 := set_bk_outrb _ b). set (s2 := set_a_backend (Some b2) s1). set (data := ztake mb (rb_queue r)) in *.
    destruct (pump_write_delivery (List.length data) data s2 b2) as (s' & ok & H1 & H2); [done|done|].
    exists s', ok. split; [exact H1|]. apply (delivery_from s s2); [done|done|cbn; lia|].
    replace (bk_written b2 ++ data ++ queued b2) with (device_stream b) in H2; [exact H2|].
    unfold device_stream, queued. rewrite Epend, Hr, Hq. done.
  - assert (Hd : pump_data b s = Ok (s, Some (y :: p))) by (unfold pump_data; by rewrite Hr, Epend).
    rewrite (run_bind _ _ _ _ _ Hd).
    destruct (pump_write_delivery (List.length (y :: p)) (y :: p) s b Hb) as (s' & ok & H1 & H2); [done|].
    exists s', ok. split; [exact H1|]. replace (device_stream b) with (bk_written b ++ (y :: p) ++ queued b); [done|].
    unfold device_stream. by rewrite Epend.
Qed.

(** ** Witnesses

    A service with one client, one playing stream of two queued frames, and an
    ALSA device that takes four bytes at a time. *)

Section Witnesses.
#[local] Existing Instance ascii_unicode.

Definition demo_env : env := mkenv (fun _ => fone) (fun _ => 0) (fun _ => fzero) (fun _ => [])
  (fun _ => Some 0) (fun _ => WroteN 4) (fun _ => true) (fun _ => true)
  (fun _ => []) (fun _ => Ok []) (fun _ => Ok PNone) (fun _ => mkbackend false true 1 4 4 None [] 0 true None []) (fun _ => true).

Definition demo_ring : rb := mkrb [1; 0; 2; 0; 3; 0; 4; 0; 0; 0; 0; 0; 0; 0; 0; 0] 16 0 8 8.

Definition demo_stream : stream := mkstream 1 5 48000 demo_ring fone false true false true false
  (lit "playing") true (lit "interactive") 0 8 0 0 [] 0 0 fzero fzero.

Definition demo_backend : backend := mkbackend true true 1 4 4
  (Some (mkrb [9; 0; 9; 0; 8; 0; 8; 0] 8 0 0 8)) [] 0 true (Some 48000) [].

Definition demo_aud : aud := mkaud demo_env 0 true [(5, mkclient [] [] true [] false)] [(1, demo_stream)] 2 []
  (fdecimal 5 (-1)) false None false fzero None 2 fzero 0 0 0 0 0 0 0 fzero fzero fzero (Some demo_backend) [] None.

Lemma demo_bytes l : forallb (fun b => (0 <=? b) && (b <? 256)) l = true -> bytes_ok l.
Proof.
  intros H. apply Forall_forall. intros b Hb. rewrite forallb_forall in H.
  apply list_elem_of_In in Hb. specialize (H b Hb). unfold is_byte. lia.
Qed.

Lemma demo_stream_ok : stream_ok demo_stream.
Proof.
  split.
  - left. by split.
  - by apply demo_bytes.
  - by exists 2.
  - done.
  - done.
  - by exists 0.
  - done.
  - vm_compute. split; discriminate.
Qed.

Lemma demo_ok : aud_ok demo_aud.
Proof.
  split.
  - apply NoDup_singleton.
  - apply Forall_singleton, entry_ok_id. split_and!; [done|done|done|apply demo_stream_ok].
  - done.
  - apply Forall_singleton, Forall_nil_2.
  - apply NoDup_singleton.
  - done.
Qed.

(** The state after one turn of the mixer. *)
Definition demo_mixed : aud := match mixloop demo_aud with Ok (s, _) => s | Exc _ => demo_aud end.

Lemma audio_invariant_witness :
  a_mixed demo_mixed = 16 /\ areach demo_aud demo_mixed /\ aud_ok demo_mixed.
Proof.
  split; [vm_compute; reflexivity|].
  assert (H : areach demo_aud demo_mixed).
  { eapply areach_mix; [apply areach_start|vm_compute; reflexivity]. }
  split; [exact H|]. apply (audio_invariant demo_aud); [apply demo_ok|exact H].
Defined.

Lemma mixonceframes_total_witness :
  exists s' out, mixonceframes 2 None demo_aud = Ok (s', out) /\ zlen out = 8.
Proof.
  destruct (mixonceframes_total 2 None demo_aud) as (s' & out & H1 & _ & H2 & _).
  - apply demo_ok.
  - split; [vm_compute; reflexivity|]. split; [reflexivity|]. split; [intros g Hg; discriminate Hg|vm_compute; discriminate].
  - reflexivity.
  - vm_compute; discriminate.
  - exists s', out. split; [exact H1|exact H2].
Defined.

Definition paced_once : aud :=
  match paced_mix 16 2 fone fone (set_a_backend None demo_aud) with Ok (s, _) => s | Exc _ => demo_aud end.

Lemma paced_mix_bounded_witness :
  exists k, 0 <= k <= 16 /\ a_mixed paced_once = a_mixed demo_aud + k * 2.
Proof.
  apply (paced_mix_bounded 16 2 fone fone (set_a_backend None demo_aud)); [reflexivity|].
  vm_compute; reflexivity.
Defined.

Lemma streampush_spec_witness :
  exists r, streampush 1 [5; 0; 6; 0] demo_aud =
      Ok (set_a_streams (aset 1 (set_st_rb r demo_stream) (a_streams demo_aud)) demo_aud, true) /\
    rb_queue r = [1; 0; 2; 0; 3; 0; 4; 0; 5; 0; 6; 0].
Proof.
  pose proof (streampush_spec 1 [5; 0; 6; 0] demo_aud demo_stream demo_ok eq_refl) as H.
  destruct H as (r & H1 & H2 & _); [by apply demo_bytes|]. exists r. split; [exact H1|exact H2].
Defined.

Lemma streampull_spec_witness :
  exists r d, streampull 1 4 demo_aud =
      Ok (set_a_streams (aset 1 (set_st_rb r demo_stream) (a_streams demo_aud)) demo_aud, Some d) /\
    rb_queue demo_ring = d ++ rb_queue r /\ zlen d = 4.
Proof. apply (streampull_spec 1 4 demo_aud demo_stream demo_ok eq_refl). reflexivity. Defined.

Lemma pump_delivers_witness :
  exists s' ok, backendfilepump demo_aud = Ok (s', ok) /\ delivery demo_aud s' [9; 0; 9; 0; 8; 0; 8; 0].
Proof.
  destruct (pump_delivers demo_aud demo_backend (mkrb [9; 0; 9; 0; 8; 0; 8; 0] 8 0 0 8))
    as (s' & ok & H1 & H2); try reflexivity.
  - by split.
  - exists s', ok. split; [exact H1|exact H2].
Defined.
End Witnesses.
