(* ===== verification/AudioProtoSpec.v ===== *)
(** The audio service as its clients see it: a request stream is served message by
    message, a client's stream messages cannot touch another client's streams,
    the table of closed streams is bounded, and the exceptions a payload can
    raise out of the service. *)

From stdpp Require Import base list sets strings.
From Stdlib Require Import ZArith Lia Bool String.
From Stdlib Require Import SpecFloat.
From S2P Require Import Prelude Assoc Ring PyFloat FloatFacts PyText PyVal PyJson Exchange Pcm AudioWire AudioWireSpec.
From S2P Require Import AudioState AudioStream AudioMix AudioServer AudioProofs AudioMixProofs AudioSpec.
Open Scope Z_scope.

(** ** Requests on the wire *)

(** A request as the client library packs it: type, document, raw bytes. *)
Record request : Type := mkrequest { rq_type : Z; rq_doc : pyval; rq_raw : bytes }.

Definition rq_bytes (m : request) : bytes :=
  match packrequest (rq_type m) (rq_doc m) (rq_raw m) with Ok p => p | Exc _ => [] end.

(** Only a stream write carries raw bytes after its document. *)
Definition request_ok (m : request) : Prop :=
  0 <= rq_type m < 256 /\ json_ok (rq_doc m) = true /\
  (rq_type m <> MSGSTREAMWRITE -> rq_raw m = []) /\
  is_ok (packrequest (rq_type m) (rq_doc m) (rq_raw m)) = true.

(** The document the server sees. *)
Definition rq_seen (m : request) : pyval :=
  if rq_type m =? MSGSTREAMWRITE then match rq_doc m with PNone => PDict [] | _ => rq_doc m end
  else rq_doc m.

Lemma jsonbytes_seen v : json_ok v = true -> v <> PNone ->
  exists b, jsonbytes v = Ok b /\ b <> [] /\ (utf8_decode b ≫= json_loads) = Ok v.
Proof.
  intros Hv Hn. exists (utf8_encode_replace (json_dumps j_compact v)).
  split_and!; [|by apply dumps_nonempty|by apply decode_dumps; [apply j_compact_clean|apply j_compact_ok|]].
  unfold jsonbytes. destruct v; [done|..];
    by rewrite (encode_dumps j_compact) by (done || apply j_compact_clean).
Qed.

(** The body of a request. *)
Definition rq_body (m : request) : bytes :=
  if rq_type m =? MSGSTREAMWRITE then
    match jsonbytes (rq_seen m) with
    | Ok b => pack_u32be (zlen b) ++ b ++ rq_raw m
    | Exc _ => []
    end
  else match jsonbytes (rq_doc m) with Ok b => b | Exc _ => [] end.

Lemma request_packet m : request_ok m ->
  rq_bytes m = packet (rq_type m) (rq_body m) /\ zlen (rq_body m) <= AUDIO_MAXMSG /\
  decode_body (rq_type m) (rq_body m) = (rq_seen m, rq_raw m).
Proof.
  intros (Ht & Hv & Hraw & Hp). unfold rq_bytes, packrequest, rq_body, rq_seen, decode_body in *.
  destruct (rq_type m =? MSGSTREAMWRITE) eqn:Et in Hp |- *; rewrite ?Et in Hp.
  - destruct (jsonbytes_seen (match rq_doc m with PNone => PDict [] | _ => rq_doc m end)) as (b & Hb & _ & Hd);
      [by destruct (rq_doc m)|by destruct (rq_doc m)|].
    rewrite Hb in Hp |- *. cbn [mbind res_bind] in Hp |- *. set (body := pack_u32be _ ++ _) in *.
    destruct (AUDIO_MAXMSG <? zlen body) eqn:E; [done|]. pose proof (zlen_nonneg body).
    rewrite packetheader_ok by lia. cbn [mbind res_bind]. split_and!; [done|lia|].
    pose proof (zlen_nonneg b). pose proof (zlen_nonneg (rq_raw m)).
    assert (Hl : zlen body = 4 + zlen b + zlen (rq_raw m))
      by (unfold body; rewrite !zlen_app; change (zlen (pack_u32be (zlen b))) with 4; lia).
    unfold AUDIO_MAXMSG in *.
    destruct (zlen body <? 4) eqn:E4; [lia|].
    assert (Hj : unpack_u32be body = zlen b) by (apply unpack_pack_u32be; lia). rewrite Hj.
    destruct (_ <? zlen b) eqn:E5; [lia|]. unfold zslice.
    change (zdrop 4 body) with (b ++ rq_raw m). replace (4 + zlen b - 4) with (zlen b) by lia.
    rewrite ztake_app_exact by done. unfold decode_json. rewrite Hd. cbn [catch]. f_equal.
    unfold body. rewrite app_assoc. apply zdrop_app_exact. by rewrite zlen_app.
  - assert (Hr : rq_raw m = []) by (apply Hraw; lia). rewrite Hr in *. clear Hraw Hr. assert (Hdec : rq_doc m = PNone \/ rq_doc m <> PNone) by (destruct (rq_doc m); auto).
    destruct Hdec as [Hn|Hn].
    + rewrite Hn. cbn [jsonbytes mbind res_bind app]. change (AUDIO_MAXMSG <? zlen []) with false.
      rewrite (packetheader_ok _ (zlen [])) by done.
      split_and!; done.
    + destruct (jsonbytes_seen (rq_doc m) Hv Hn) as (b & Hb & Hne & Hd). rewrite Hb in Hp.
      rewrite Hb. cbn [mbind res_bind] in Hp |- *. rewrite app_nil_r in Hp |- *.
      destruct (AUDIO_MAXMSG <? zlen b) eqn:E; [done|]. pose proof (zlen_nonneg b).
      rewrite packetheader_ok by lia. cbn [mbind res_bind]. split_and!; [done|lia|]. by rewrite Hd.
Qed.

Lemma parse_one_request m rest : request_ok m ->
  parse_one (rq_bytes m ++ rest) = PMsg (rq_type m) (rq_seen m) (rq_raw m) rest.
Proof.
  intros Hm. destruct (request_packet m Hm) as (-> & Hb & Hd).
  pose proof (zlen_nonneg (rq_body m)) as H0. pose proof (zlen_nonneg rest) as H1.
  unfold parse_one. rewrite zlen_app, packet_length.
  destruct (HEADER_SIZE + _ + _ <? HEADER_SIZE) eqn:E; [lia|].
  unfold packet. rewrite <- app_assoc, unpackheader_pack by lia. rewrite bool_decide_eq_true_2 by done.
  rewrite Z.eqb_refl. cbn [negb orb]. destruct (AUDIO_MAXMSG <? _) eqn:E2; [lia|].
  destruct (_ <? HEADER_SIZE + _) eqn:E3; [lia|]. unfold zslice.
  set (h := MAGIC ++ _). assert (Hh : zlen h = HEADER_SIZE) by done.
  rewrite (zdrop_app_exact HEADER_SIZE h) by done.
  replace (HEADER_SIZE + zlen (rq_body m) - HEADER_SIZE) with (zlen (rq_body m)) by lia.
  rewrite ztake_app_exact, Hd by done. f_equal. rewrite app_assoc. apply zdrop_app_exact.
  by rewrite zlen_app, Hh.
Qed.

(** What is left of a message that has not fully arrived. *)
Definition partial_request (tail : bytes) : Prop :=
  tail = [] \/ exists m q, request_ok m /\ tail ++ q = rq_bytes m /\ q <> [].

Lemma parse_one_partial tail : partial_request tail -> parse_one tail = PStop.
Proof.
  intros [->|(m & q & Hm & Hq & Hne)]; [done|].
  destruct (request_packet m Hm) as (Hp & Hb & _). rewrite Hp in Hq.
  pose proof (unpack_incomplete (rq_type m) (rq_body m) [] tail q Hb) as Hun.
  rewrite app_nil_r in Hun. specialize (Hun Hq).
  assert (Hl : zlen tail < zlen (packet (rq_type m) (rq_body m))).
  { rewrite <- Hq, zlen_app. pose proof (zlen_nonneg q). destruct (decide (zlen q = 0)) as [Hz|]; [|lia].
    by apply zlen_zero in Hz. }
  specialize (Hun Hl). unfold unpackresponse in Hun. unfold parse_one.
  destruct (zlen tail <? HEADER_SIZE); [done|].
  destruct (unpackheader tail) as [[[[magic proto] t] fl] n].
  destruct (negb (bool_decide _)); [done|]. destruct (negb (proto =? PROTO)); [done|].
  destruct (AUDIO_MAXMSG <? n); [done|]. cbn [orb].
  destruct (zlen tail <? HEADER_SIZE + n); [done|]. exfalso.
  destruct (zslice tail _ _); [done|]. by destruct (utf8_decode _ ≫= json_loads).
Qed.

Section Serve.
Context {U : PyUnicode}.

(** Serving requests one after the other: each sees the buffer after it. *)
Fixpoint serve_all (fd : Z) (ms : list request) (tail : bytes) : AM unit :=
  match ms with
  | [] => updclient fd (set_cl_inbuf tail)
  | m :: ms' =>
      updclient fd (set_cl_inbuf (List.concat (List.map rq_bytes ms') ++ tail));;
      handlemessage fd (rq_type m) (rq_seen m) (rq_raw m);;
      serve_all fd ms' tail
  end.

Lemma am_bind_ext {A B} (m : AM A) (k k' : A -> AM B) s :
  (forall a s', k a s' = k' a s') -> (m ≫= k) s = (m ≫= k') s.
Proof. intros H. unfold mbind, am_bind. destruct (m s) as [[s' a]|]; [apply H|done]. Qed.

Lemma parse_loop_serve fuel fd ms tail s :
  Forall request_ok ms -> partial_request tail -> (List.length ms < fuel)%nat ->
  parse_loop fuel fd (List.concat (List.map rq_bytes ms) ++ tail) s =
  serve_all fd ms tail s.
Proof.
  intros Hms Htail. revert fuel s.
  induction Hms as [|m ms Hm Hms IH]; intros fuel s Hf; (destruct fuel as [|fuel]; [simpl in Hf; lia|]);
    cbn [parse_loop List.map List.concat serve_all].
  - by rewrite app_nil_l, parse_one_partial.
  - rewrite <- app_assoc, parse_one_request by done. apply am_bind_ext. intros _ s1.
    apply am_bind_ext. intros _ s2. apply IH. simpl in Hf. lia.
Qed.

(** C4: when a client's buffer holds the packets of any requests the client
    library packs, followed by any beginning of one more, the server handles
    exactly these requests, in order, each with the document and the raw bytes
    that were sent, and keeps the incomplete rest for the next read. *)
Theorem parse_serves fd c ms tail s :
  aget fd (a_clients s) = Some c -> cl_inbuf c = List.concat (List.map rq_bytes ms) ++ tail ->
  Forall request_ok ms -> partial_request tail ->
  parse fd s = serve_all fd ms tail s.
Proof.
  intros Hc Hin Hms Htail. unfold parse, getclient, gets, mbind at 1, am_bind at 1. rewrite Hc.
  rewrite Hin. apply parse_loop_serve; [done|done|].
  assert (Hl : (List.length ms <= List.length (List.concat (List.map rq_bytes ms)))%nat).
  { clear -Hms. induction Hms as [|m ms Hm Hms IH]; simpl; [lia|]. rewrite length_app.
    destruct (request_packet m Hm) as (-> & _). pose proof (packet_length (rq_type m) (rq_body m)) as Hp.
    unfold zlen, HEADER_SIZE in Hp. lia. }
  rewrite length_app. lia.
Qed.
End Serve.

(** ** Closed streams *)

Section Closed.
Implicit Types t : closed_table.

Lemma insert_expiry_perm (e : (Z * Z) * (pyfloat * pydict)) t : insert_expiry e t ≡ₚ e :: t.
Proof.
  induction t as [|y t IH]; simpl; [done|]. destruct (flt _ _); [|done]. rewrite IH. by constructor.
Qed.

Lemma sort_expiry_perm t : sort_expiry t ≡ₚ t.
Proof. induction t as [|e t IH]; simpl; [done|]. by rewrite insert_expiry_perm, IH. Qed.

Lemma adel_length (k : Z * Z) t : k ∈ List.map fst t -> zlen (adel k t) = zlen t - 1.
Proof.
  induction t as [|[k' v] t IH]; simpl; [set_solver|]. intros Hk.
  destruct (decide (k = k')) as [->|Hne]; rewrite !zlen_cons; [lia|]. rewrite IH by set_solver. lia.
Qed.

Lemma adel_keeps_key (k k' : Z * Z) t : k <> k' -> k ∈ List.map fst t -> k ∈ List.map fst (adel k' t).
Proof.
  intros Hne. induction t as [|[k2 v] t IH]; simpl; [done|]. intros Hk.
  destruct (decide (k' = k2)) as [->|]; simpl; set_solver.
Qed.

Lemma adel_sub (k : Z * Z) t e : e ∈ adel k t -> e ∈ t.
Proof.
  induction t as [|[k' v] t IH]; simpl; [done|]. destruct (decide (k = k')); set_solver.
Qed.

Lemma remove_all (removed : closed_table) t :
  NoDup (List.map fst t) -> NoDup (List.map fst removed) ->
  (forall e, e ∈ removed -> e.1 ∈ List.map fst t) ->
  let t' := fold_left (fun t e => adel e.1 t) removed t in
  NoDup (List.map fst t') /\ zlen t' = zlen t - zlen removed /\ (forall e, e ∈ t' -> e ∈ t).
Proof.
  revert t. induction removed as [|e r IH]; intros t Ht Hr Hin; simpl.
  - rewrite zlen_nil. split_and!; [done|lia|done].
  - simpl in Hr. apply NoDup_cons in Hr as [He Hr].
    destruct (IH (adel e.1 t)) as (H1 & H2 & H3).
    + by apply adel_NoDup.
    + done.
    + intros e' He'. apply adel_keeps_key; [|apply Hin; set_solver]. intros Heq. apply He.
      rewrite <- Heq. apply list_elem_of_In, in_map. by apply list_elem_of_In.
    + rewrite adel_length in H2 by (apply Hin; set_solver). rewrite zlen_cons. split_and!; [done|lia|].
      intros e' He'. by eapply adel_sub, H3.
Qed.

(** The entries that survive by time and owner. *)
Definition survives (fd : option Z) (nowt : pyfloat) (e : (Z * Z) * (pyfloat * pydict)) : bool :=
  negb (match fd with Some f => e.1.1 =? f | None => false end) && negb (fle e.2.1 nowt).

Lemma filter_keys_NoDup (P : (Z * Z) * (pyfloat * pydict) -> bool) t :
  NoDup (List.map fst t) -> NoDup (List.map fst (List.filter P t)).
Proof.
  induction t as [|e t IH]; simpl; [done|]. intros [H1 H2]%NoDup_cons.
  destruct (P e); simpl; [|by apply IH]. apply NoDup_cons. split; [|by apply IH].
  intros (e' & He & H)%list_elem_of_In%in_map_iff. apply H1. rewrite <- He.
  apply filter_In in H as [H _]. by apply list_elem_of_In, in_map.
Qed.

(** Pruning the table of closed streams leaves entries of the table only,
    none of them expired and none of the disconnected client, each key once, and
    at most 256 of them: all that survive when there are no more, exactly 256
    otherwise. *)
Theorem prune_table_bounded fd nowt t :
  NoDup (List.map fst t) ->
  let t' := prune_table fd nowt t in
  NoDup (List.map fst t') /\
  zlen t' = Z.min CLOSEDSTREAMLIMIT (zlen (List.filter (survives fd nowt) t)) /\
  (forall e, e ∈ t' -> e ∈ t /\ fle e.2.1 nowt = false /\ forall f, fd = Some f -> e.1.1 <> f) /\
  (zlen (List.filter (survives fd nowt) t) <= CLOSEDSTREAMLIMIT -> t' = List.filter (survives fd nowt) t).
Proof.
  intros Hnd t'. subst t'. unfold prune_table. fold (survives fd nowt).
  set (u := List.filter (survives fd nowt) t).
  assert (Hu : forall e, e ∈ u -> e ∈ t /\ fle e.2.1 nowt = false /\ forall f, fd = Some f -> e.1.1 <> f).
  { intros e [H1 H2]%list_elem_of_In%filter_In. split; [by apply list_elem_of_In|].
    unfold survives in H2. apply andb_true_iff in H2 as [H2 H3]. split; [by destruct (fle _ _)|].
    intros f ->. lia. }
  assert (Hun : NoDup (List.map fst u)) by (by apply filter_keys_NoDup).
  destruct (zlen u <=? CLOSEDSTREAMLIMIT) eqn:E; [split_and!; [done|lia|done|done]|].
  set (r := ztake _ _). assert (Hperm := sort_expiry_perm u).
  assert (Hr : r `sublist_of` sort_expiry u) by apply sublist_take.
  destruct (remove_all r u) as (H1 & H2 & H3); [done| | |].
  - apply (sublist_NoDup _ (List.map fst (sort_expiry u))).
    + by rewrite (Permutation_map fst Hperm).
    + by apply (fmap_sublist fst).
  - intros e He. apply list_elem_of_In, in_map, list_elem_of_In. rewrite <- Hperm.
    by eapply elem_of_sublist.
  - assert (Hl : zlen r = zlen u - CLOSEDSTREAMLIMIT).
    { unfold r, ztake, zlen. rewrite length_take, Hperm. unfold zlen, CLOSEDSTREAMLIMIT in *. lia. }
    split; [exact H1|]. split; [etransitivity; [exact H2|lia]|]. split; [|lia].
    intros e He. apply Hu, H3, He.
Qed.
End Closed.

(** ** Isolation of clients *)

Section Isolation.
Context {U : PyUnicode}.
Context (fd sid : Z) (st : stream).
Hypothesis other : st_fd st <> fd.

(** The stream of another client, as it is. *)
Definition untouched (s : aud) : Prop := aget sid (a_streams s) = Some st /\ sid < a_next s.
Local Abbreviation iso m := (hoare True untouched m (fun _ s => untouched s)).

Lemma iso_bind {A B} (m : AM A) (k : A -> AM B) : iso m -> (forall a, iso (k a)) -> iso (m ≫= k).
Proof. intros Hm Hk. eapply hoare_bind; [exact Hm|]. intros a. apply Hk. Qed.

Lemma iso_gets {A B} (f : aud -> A) (k : A -> AM B) : (forall a, iso (k a)) -> iso (gets f ≫= k).
Proof. intros Hk s Hs. by apply Hk. Qed.

Lemma iso_lift {A} (r : res A) : iso (lift r).
Proof. intros s Hs. unfold lift. by destruct r. Qed.

Lemma iso_ret {A} (a : A) : iso (mret a).
Proof. by intros s Hs. Qed.

Lemma iso_modify f : (forall s, a_streams (f s) = a_streams s /\ a_next (f s) = a_next s) -> iso (modify f).
Proof. intros H s [H1 H2]. unfold modify, untouched. destruct (H s) as [-> ->]. done. Qed.

Lemma iso_keeps {A} (m : AM A) : keeps (fun s => (a_streams s, a_next s)) m -> iso m.
Proof.
  intros Hk s [H1 H2]. specialize (Hk s). destruct (m s) as [[s' a]|]; [|done].
  injection Hk as E1 E2. unfold untouched. by rewrite E1, E2.
Qed.

(** The client's own streams are others than [sid]. *)
Lemma iso_ownstream {B} i (k : option stream -> AM B) :
  (forall x, (x <> None -> i <> sid) -> iso (k x)) -> iso (ownstream fd i ≫= k).
Proof.
  intros Hk s Hs. pose proof Hs as [H1 H2]. unfold ownstream, streamget, gets, mbind at 1 2, am_bind.
  cbv beta iota. unfold mret, am_ret. apply Hk; [|done]. intros Hx ->. rewrite H1 in Hx.
  destruct (st_fd st =? fd) eqn:E; [lia|done].
Qed.

Lemma iso_streamget {B} i (k : option stream -> AM B) :
  (forall x, (forall y, x = Some y -> st_fd y = fd -> i <> sid) -> iso (k x)) -> iso (streamget i ≫= k).
Proof.
  intros Hk s Hs. pose proof Hs as [H1 H2]. unfold streamget, gets, mbind at 1, am_bind.
  apply Hk; [|done]. intros y Hy Hfd ->. rewrite H1 in Hy. by injection Hy as ->.
Qed.

Lemma iso_putstream i x : i <> sid -> iso (putstream i x).
Proof.
  intros Hi s [H1 H2]. unfold putstream, modify, untouched. destruct (aget i _); [|done]. simpl.
  by rewrite aget_aset_ne.
Qed.

Ltac iso_prim := apply iso_keeps; first
  [apply keeps_prune|apply keeps_status|apply keeps_drained|apply keeps_observe]; done.

Lemma iso_streamfree i r b : i <> sid -> iso (streamfree i r b).
Proof.
  intros Hi. unfold streamfree. apply iso_streamget. intros [x|] _; [|apply iso_ret].
  apply iso_bind; [|intros _].
  - intros s [H1 H2]. unfold modify, untouched. simpl. by rewrite aget_adel_ne.
  - destruct b; [|apply iso_ret]. unfold rememberclosed. apply iso_bind; [|intros; apply iso_ret].
    apply iso_bind; [iso_prim|intros [y d]]. apply iso_bind; [iso_prim|intros t].
    apply iso_bind; [by apply iso_modify|intros _].
    apply iso_bind; [iso_prim|intros _; apply iso_ret].
Qed.

Lemma iso_closedget i : iso (closedstreamget fd i).
Proof.
  unfold closedstreamget. apply iso_bind; [iso_prim|intros _]. apply iso_gets. intros e. apply iso_ret.
Qed.

Lemma iso_updclient fd' f : iso (updclient fd' f).
Proof. apply iso_modify. intros s. by destruct (aget fd' _). Qed.

Lemma iso_drop : iso (drop fd).
Proof.
  unfold drop, getclient. apply iso_gets. intros [c|]; [|apply iso_ret]. apply iso_gets. intros ids.
  apply iso_bind; [|intros _; apply iso_bind; [iso_prim|intros _; by apply iso_modify]].
  induction ids as [|i ids IH]; simpl; [apply iso_ret|]. apply iso_streamget. intros x Hx.
  apply iso_bind; [|intros _; apply IH]. destruct x as [y|]; [|apply iso_ret].
  destruct (st_fd y =? fd) eqn:E; [|apply iso_ret]. apply iso_bind; [|intros; apply iso_ret].
  apply iso_streamfree. apply (Hx y); [done|lia].
Qed.

Lemma iso_observe {A} (f : env -> nat -> A) : iso (observe f).
Proof. by intros s Hs. Qed.

Lemma iso_updateclientevents : iso (updateclientevents fd).
Proof.
  unfold updateclientevents, getclient. apply iso_gets. intros [c|]; [|apply iso_ret].
  apply iso_bind; [apply iso_observe|]. intros []; [apply iso_updclient|apply iso_drop].
Qed.

Lemma iso_send t v : iso (send fd t v).
Proof.
  unfold send, getclient. apply iso_gets. intros [c|]; [|apply iso_ret].
  destruct (packresponse t v []); [|apply iso_drop].
  apply iso_bind; [apply iso_updclient|intros _; apply iso_updateclientevents].
Qed.

Lemma iso_send_status t i x extra : i <> sid -> iso (send_status fd t i x extra).
Proof.
  intros Hi. unfold send_status. apply iso_bind; [iso_prim|]. intros [y d].
  apply iso_bind; [by apply iso_putstream|intros _; apply iso_send].
Qed.

(** The structure of a handler, down to the calls above. *)
Ltac iso_step :=
  match goal with
  | |- hoare _ _ (mret _) _ => apply iso_ret
  | |- hoare _ _ pass _ => apply iso_ret
  | |- hoare _ _ (lift _) _ => apply iso_lift
  | |- hoare _ _ (send _ _ _) _ => apply iso_send
  | |- hoare _ _ (send_status _ _ _ _ _) _ => apply iso_send_status
  | |- hoare _ _ (updclient _ _) _ => apply iso_updclient
  | |- hoare _ _ (putstream _ _) _ => apply iso_putstream
  | |- hoare _ _ (streamfree _ _ _) _ => apply iso_streamfree
  | |- hoare _ _ (closedstreamget _ _) _ => apply iso_closedget
  | |- hoare _ _ (observe _) _ => iso_prim
  | |- hoare _ _ timestamp _ => iso_prim
  | |- hoare _ _ (streamdrained _) _ => iso_prim
  | |- hoare _ _ (streamstatusdata _) _ => iso_prim
  | |- hoare _ _ (pruneclosed _) _ => iso_prim
  | |- hoare _ _ (modify _) _ => apply iso_modify; intros ?; done
  | |- hoare _ _ (ownstream _ _ ≫= _) _ => apply iso_ownstream; intros ? ?
  | |- hoare _ _ (streamget _ ≫= _) _ => apply iso_streamget; intros ? ?
  | |- hoare _ _ (gets _ ≫= _) _ => apply iso_gets; intros ?
  | |- hoare _ _ (_ ≫= _) _ => apply iso_bind; [|intros ?]
  | |- hoare _ _ (when ?b _) _ => destruct b; unfold when
  | |- hoare _ _ (let '(_, _) := ?x in _) _ => destruct x
  | |- hoare _ _ (match ?x with _ => _ end) _ => destruct x
  | |- _ <> sid => first [assumption|match goal with H : Some _ <> None -> _ |- _ => by apply H end]
  end.

Lemma iso_close payload : iso (handlestreamclose fd payload).
Proof. unfold handlestreamclose. cbv zeta. repeat iso_step. Qed.

Lemma iso_streampush i d : i <> sid -> iso (streampush i d).
Proof. intros Hi. unfold streampush. cbv zeta. repeat iso_step. Qed.

Lemma iso_write payload raw : iso (handlestreamwrite fd payload raw).
Proof.
  unfold handlestreamwrite. cbv zeta. repeat iso_step.
  all: try (apply iso_streampush; iso_step).
Qed.

Lemma iso_status payload : iso (handlestreamstatus fd payload).
Proof. unfold handlestreamstatus. repeat iso_step. Qed.

Lemma iso_control payload : iso (handlestreamcontrol fd payload).
Proof. unfold handlestreamcontrol. cbv zeta. repeat iso_step. Qed.

Lemma iso_getconfig {B} (k : pydict -> AM B) : (forall a, iso (k a)) -> iso (getconfig ≫= k).
Proof. intros Hk s Hs. by apply Hk. Qed.

Lemma iso_insert {B} (k : Z -> AM B) :
  (forall i, i <> sid -> iso (k i)) ->
  iso (i ← gets a_next; modify (set_a_next (i + 1));; k i).
Proof.
  intros Hk s [H1 H2]. unfold gets, modify, mbind, am_bind.
  apply Hk; [lia|]. split; [done|simpl; lia].
Qed.

Lemma iso_streamnew spec : iso (streamnew fd spec).
Proof.
  unfold streamnew. apply iso_getconfig. intros cfg. apply iso_gets. intros n.
  apply iso_bind; [apply iso_lift|intros full]. destruct (full : bool); [apply iso_ret|].
  apply iso_bind; [unfold streamformat; apply iso_gets; intros; apply iso_ret|]. intros [sr|]; [|apply iso_ret].
  apply (iso_insert _). intros i Hi. do 2 (try (apply iso_bind; [apply iso_lift|intros ?])). cbv zeta.
  repeat first [apply iso_getconfig; intros ?|apply iso_bind; [apply iso_lift|intros ?]].
  apply iso_bind; [|intros; apply iso_ret]. intros s [H1 H2]. unfold modify, untouched. simpl.
  by rewrite aget_aset_ne.
Qed.

Lemma iso_open payload : iso (handlestreamopen fd payload).
Proof.
  unfold handlestreamopen. cbv zeta. apply iso_bind; [apply iso_streamnew|]. intros [i|]; repeat iso_step.
Qed.

Lemma iso_config payload : iso (handleconfig fd payload).
Proof.
  unfold handleconfig, applyconfig, saveconfig. apply iso_getconfig. intros cfg. repeat iso_step.
Qed.

Lemma iso_subscribe payload : iso (handlesubscribe fd payload).
Proof. unfold handlesubscribe, getclient, volume_data, mute_data. repeat iso_step. Qed.

(** Listing the devices looks at them and answers the sender. *)
Lemma iso_devitems active open devices : iso (devitems active open devices).
Proof.
  induction devices as [|dev devices IH]; [apply iso_ret|]. cbn [devitems]. apply iso_bind; [|intros item; apply iso_bind; [exact IH|intros; apply iso_ret]].
  unfold devitem. apply iso_bind; [apply iso_observe|]. intros name. apply iso_bind; [apply iso_lift|]. intros name'. cbv zeta.
  destruct active as [a|]; [|apply iso_ret]. destruct (_ && _); [|apply iso_ret].
  apply iso_bind; [apply iso_observe|]. intros format. apply iso_bind; [apply iso_lift|]. intros. apply iso_ret.
Qed.

Lemma iso_devlist payload : iso (handledevlist fd payload).
Proof.
  unfold handledevlist, scan. apply iso_bind; [apply iso_gets; intros number; apply iso_bind; [apply iso_observe|intros; by apply iso_modify]|].
  intros _. apply iso_bind; [|intros; apply iso_send]. unfold device_data, devlist, active_id.
  apply iso_bind; [do 3 (apply iso_gets; intros ?); apply iso_bind; [apply iso_devitems|intros; apply iso_ret]|].
  intros. apply iso_bind; [apply iso_gets; intros; apply iso_ret|]. intros. apply iso_ret.
Qed.

(** The messages answered to their sender only. *)
Definition own_message (t : Z) : bool :=
  negb ((t =? MSGDEVSET) || (t =? MSGVOLUME) || (t =? MSGMUTE)).

Lemma iso_message t payload raw : own_message t = true ->
  iso (handlemessage fd t payload raw).
Proof.
  intros Ht. unfold own_message in Ht. rewrite !negb_orb in Ht.
  apply andb_true_iff in Ht as [Ht Hm]. apply andb_true_iff in Ht as [Ht Hv].
  apply negb_true_iff in Ht, Hv, Hm.
  unfold handlemessage. rewrite Ht, Hv, Hm.
  repeat match goal with |- hoare _ _ (if ?b then _ else _) _ => destruct b end.
  all: first [apply iso_devlist|apply iso_open|apply iso_config|apply iso_close|apply iso_write|apply iso_status
    |apply iso_control|apply iso_subscribe|apply iso_send|unfold handlehello, handleping; repeat iso_step].
Qed.

(** C36: whatever a client sends on the stream, configuration, subscription or
    device list messages, well formed or not, the streams of the other clients are exactly
    as before: its queue, counters, gain, mute and state; also when the reply
    cannot be built and the sender is dropped. *)
Theorem message_isolation t payload raw s s' :
  own_message t = true -> aget sid (a_streams s) = Some st -> sid < a_next s ->
  handlemessage fd t payload raw s = Ok (s', tt) ->
  aget sid (a_streams s') = Some st.
Proof.
  intros Ht H1 H2 E. pose proof (iso_message t payload raw Ht s (conj H1 H2)) as H. rewrite E in H.
  apply H.
Qed.
End Isolation.

(** ** Exceptions out of the service *)

Section Escape.
Context {U : PyUnicode}.

Lemma serve_bad_gain fd v e s :
  py_float v = Exc e ->
  serve_all fd [mkrequest MSGVOLUME (pobj [("gain", v)]%string) []] [] s = Exc e.
Proof.
  intros Hf. cbn [serve_all]. unfold updclient at 1, modify at 1.
  rewrite (run_bind _ _ s _ tt eq_refl). set (s2 := match _ with Some _ => _ | None => _ end).
  set (doc := pobj [("gain", v)]%string).
  assert (Hh : handlevolume fd doc s2 = Exc e).
  { unfold handlevolume. change (truthy doc) with true. cbn [negb].
    rewrite (run_bind _ _ s2 s2 true eq_refl), (run_bind _ _ s2 s2 false eq_refl). cbn [negb andb].
    rewrite (run_bind _ _ s2 s2 (a_mastergain s2) eq_refl). unfold mbind at 1, am_bind at 1, lift.
    change (py_item "gain" doc) with (Ok v). unfold mbind at 1, res_bind at 1. by rewrite Hf. }
  unfold mbind, am_bind. unfold handlemessage. cbn [rq_type rq_raw].
  change (MSGVOLUME =? MSGVOLUME) with true.
  repeat match goal with |- context [MSGVOLUME =? ?t] => change (MSGVOLUME =? t) with false end.
  cbn iota. unfold rq_seen. cbn [rq_type rq_doc]. change (MSGVOLUME =? MSGSTREAMWRITE) with false. cbn iota. by rewrite Hh.
Qed.

(** A volume message whose gain Python's [float] refuses (a string that is
    no number, a list) raises out of the event loop: no handler, no reader and no
    loop catches it, so any client can stop the service for all of them. *)
Theorem bad_gain_escapes fd c v p e s :
  let doc := pobj [("gain", v)]%string in
  aget fd (a_clients s) = Some c -> cl_inbuf c = [] ->
  json_ok doc = true -> packrequest MSGVOLUME doc [] = Ok p -> py_float v = Exc e ->
  pollevents [EvClient fd (Some (RData p)) None] s = Exc e.
Proof.
  intros doc Hc Hin Hv Hp Hf. set (m := mkrequest MSGVOLUME doc []).
  assert (Hm : request_ok m) by (split_and!; [done|done|done|done|by unfold m; simpl; rewrite Hp]).
  assert (Hbytes : rq_bytes m = p) by (unfold rq_bytes, m; simpl; by rewrite Hp).
  destruct (request_packet m Hm) as (Hpk & Hl & _). rewrite Hbytes in Hpk.
  pose proof (packet_length (rq_type m) (rq_body m)) as Hlen. rewrite <- Hpk in Hlen.
  pose proof (zlen_nonneg (rq_body m)) as H0.
  set (s1 := set_a_clients (aset fd (set_cl_inbuf p c) (a_clients s)) s).
  assert (Hc1 : aget fd (a_clients s1) = Some (set_cl_inbuf p c)) by apply aget_aset_eq.
  assert (Hparse : parse fd s1 = Exc e).
  { unfold parse. rewrite (run_bind (getclient fd) _ s1 s1 (Some (set_cl_inbuf p c)) (f_equal (fun x => Ok (s1, x)) Hc1)).
    pose proof (parse_loop_serve (S (List.length p)) fd [m] []) as Hs.
    cbn [List.map List.concat] in Hs. rewrite !app_nil_r, Hbytes in Hs. cbn [cl_inbuf set_cl_inbuf].
    rewrite Hs; [|by constructor|by left|].
    2:{ apply (f_equal Z.to_nat) in Hlen. unfold zlen in *. simpl. unfold HEADER_SIZE in *. lia. }
    by apply serve_bad_gain. }
  assert (Hread : readclient fd (RData p) s = Exc e).
  { unfold readclient. rewrite (run_bind (getclient fd) _ s s (Some c) (f_equal (fun x => Ok (s, x)) Hc)).
    destruct p as [|x p]; [rewrite zlen_nil in Hlen; unfold HEADER_SIZE in Hlen; lia|].
    rewrite Hin, app_nil_l. rewrite (run_bind _ _ s s1 tt); [|unfold updclient, modify; by rewrite Hc].
    destruct (_ <? zlen (x :: p)) eqn:E; [lia|]. exact Hparse. }
  cbn [pollevents pollevent]. unfold mbind at 1, am_bind at 1. unfold mbind at 1, am_bind at 1. by rewrite Hread.
Qed.
End Escape.

(** ** Witnesses *)

Section Witnesses.
#[local] Existing Instance ascii_unicode.

Definition ping : request := mkrequest MSGPING PNone [].
Definition write_four : request := mkrequest MSGSTREAMWRITE (pobj [("stream", PInt 1)]%string) [5; 0; 6; 0].

Lemma ping_ok : request_ok ping.
Proof. split_and!; try done. Qed.

Lemma write_four_ok : request_ok write_four.
Proof. split_and!; try done. Qed.

(** The client has sent a write and the first bytes of a ping. *)
Definition sent_client : client :=
  mkclient (rq_bytes write_four ++ [84; 49]) [] true [] false.

Definition sent_aud : aud := set_a_clients [(5, sent_client)] demo_aud.

Lemma parse_serves_witness :
  parse 5 sent_aud = serve_all 5 [write_four] [84; 49] sent_aud /\
  match parse 5 sent_aud with
  | Ok (s, _) => match aget 1 (a_streams s) with Some st => st_inbytes st = 12 | None => False end
  | Exc _ => False
  end.
Proof.
  split; [|vm_compute; reflexivity].
  apply (parse_serves 5 sent_client [write_four] [84; 49]).
  - reflexivity.
  - reflexivity.
  - apply Forall_singleton, write_four_ok.
  - right. exists ping, (zdrop 2 (rq_bytes ping)). split; [apply ping_ok|]. split; [reflexivity|discriminate].
Defined.

Definition demo_table : closed_table := [((5, 1), (fzero, [])); ((5, 2), (fdecimal 20 (-1), [])); ((6, 3), (ftwelve, []))].

Lemma prune_table_bounded_witness :
  prune_table (Some 6) fone demo_table = [((5, 2), (fdecimal 20 (-1), []))] /\
  zlen (prune_table (Some 6) fone demo_table) = 1.
Proof.
  split; [vm_compute; reflexivity|].
  refine (proj1 (proj2 (prune_table_bounded (Some 6) fone demo_table _))).
  repeat (apply NoDup_cons; split; [set_solver|]). apply NoDup_nil. exact I.
Defined.

Definition two_clients : aud :=
  set_a_clients [(5, mkclient [] [] true [] false); (6, mkclient [] [] true [] false)] demo_aud.

Lemma message_isolation_witness :
  match handlemessage 6 MSGSTREAMCLOSE (pobj [("stream", PInt 1)]%string) [] two_clients with
  | Ok (s', _) => aget 1 (a_streams s') = Some demo_stream
  | Exc _ => False
  end.
Proof.
  destruct (handlemessage 6 MSGSTREAMCLOSE (pobj [("stream", PInt 1)]%string) [] two_clients)
    as [[s' []]|e] eqn:E; [|vm_compute in E; discriminate E].
  apply (message_isolation 6 1 demo_stream ltac:(discriminate) MSGSTREAMCLOSE
    (pobj [("stream", PInt 1)]%string) [] two_clients); [reflexivity|reflexivity|reflexivity|exact E].
Defined.

Lemma bad_gain_escapes_witness :
  exists p, pollevents [EvClient 5 (Some (RData p)) None] demo_aud = Exc ValueError.
Proof.
  eexists.
  apply (bad_gain_escapes 5 (mkclient [] [] true [] false) (PStr (lit "loud"))).
  - reflexivity.
  - reflexivity.
  - reflexivity.
  - vm_compute; reflexivity.
  - vm_compute; reflexivity.
Defined.
End Witnesses.
