(* ===== verification/InputQueue.v ===== *)
(** The client queues of the input service (inputserver.py): bounded output with a
    replaceable pointer state, partial non-blocking sends, and received lines. *)

From stdpp Require Import base list strings.
From Stdlib Require Import ZArith Lia Bool String.
From S2P Require Import Prelude Assoc PyFloat PyText PyVal PyJson Exchange.
Open Scope Z_scope.

(** ** Limits *)

Definition CLIENTINBUFLIMIT : Z := 64 * 1024.
Definition CLIENTOUTBUFLIMIT : Z := 1024 * 1024.
Definition CLIENTFLUSHBYTES : Z := 64 * 1024.
Definition CLIENTPOINTERINTERVAL : pyfloat := fzero.

(** ** State *)

(** A client: received bytes, output buffer and the offset of its first unsent
    byte, the pending pointer record and the time it is due, subscriptions,
    whether the selector watches for writability, the time of the next identity
    check, and [ic_sent], the bytes the kernel has taken. *)
Record iclient : Type := mkic {
  ic_rx : bytes;
  ic_outbuf : bytes;
  ic_off : Z;
  ic_pending : option bytes;
  ic_next : pyfloat;
  ic_subs : list pystr;
  ic_write : bool;
  ic_check : pyfloat;
  ic_sent : bytes }.

Definition set_rx (v : bytes) (c : iclient) : iclient :=
  mkic v (ic_outbuf c) (ic_off c) (ic_pending c) (ic_next c) (ic_subs c) (ic_write c) (ic_check c) (ic_sent c).
Definition set_out (buf : bytes) (off : Z) (c : iclient) : iclient :=
  mkic (ic_rx c) buf off (ic_pending c) (ic_next c) (ic_subs c) (ic_write c) (ic_check c) (ic_sent c).
Definition set_pending (p : option bytes) (c : iclient) : iclient :=
  mkic (ic_rx c) (ic_outbuf c) (ic_off c) p (ic_next c) (ic_subs c) (ic_write c) (ic_check c) (ic_sent c).
Definition set_next (t : pyfloat) (c : iclient) : iclient :=
  mkic (ic_rx c) (ic_outbuf c) (ic_off c) (ic_pending c) t (ic_subs c) (ic_write c) (ic_check c) (ic_sent c).
Definition set_subs (s : list pystr) (c : iclient) : iclient :=
  mkic (ic_rx c) (ic_outbuf c) (ic_off c) (ic_pending c) (ic_next c) s (ic_write c) (ic_check c) (ic_sent c).
Definition set_write (w : bool) (c : iclient) : iclient :=
  mkic (ic_rx c) (ic_outbuf c) (ic_off c) (ic_pending c) (ic_next c) (ic_subs c) w (ic_check c) (ic_sent c).
Definition set_check (t : pyfloat) (c : iclient) : iclient :=
  mkic (ic_rx c) (ic_outbuf c) (ic_off c) (ic_pending c) (ic_next c) (ic_subs c) (ic_write c) t (ic_sent c).
Definition set_sent (s : bytes) (c : iclient) : iclient :=
  mkic (ic_rx c) (ic_outbuf c) (ic_off c) (ic_pending c) (ic_next c) (ic_subs c) (ic_write c) (ic_check c) s.

(** A non-blocking [send]: the kernel takes at most [n] bytes of the block, has no
    room, or fails. *)
Inductive send_result : Type := SSent (n : Z) | SWouldBlock | SFailed.

(** What successive clock readings, sends, identity checks and changes of the
    selector's interest ([true]: accepted) give. *)
Record qenv : Type := mkqenv {
  qe_mono : nat -> pyfloat;
  qe_ns : nat -> Z;
  qe_send : nat -> send_result;
  qe_alive : nat -> bool;
  qe_modify : nat -> bool }.

Record queue : Type := mkqueue {
  q_clients : list (Z * iclient);
  q_env : qenv;
  q_tick : nat;
  q_coalesced : Z;
  q_peak : Z }.

Definition set_clients (l : list (Z * iclient)) (q : queue) : queue :=
  mkqueue l (q_env q) (q_tick q) (q_coalesced q) (q_peak q).
Definition set_coalesced (n : Z) (q : queue) : queue :=
  mkqueue (q_clients q) (q_env q) (q_tick q) n (q_peak q).
Definition set_peak (n : Z) (q : queue) : queue :=
  mkqueue (q_clients q) (q_env q) (q_tick q) (q_coalesced q) n.

(** One reading of the environment. *)
Definition look {A} (f : qenv -> nat -> A) (q : queue) : queue * A :=
  (mkqueue (q_clients q) (q_env q) (S (q_tick q)) (q_coalesced q) (q_peak q), f (q_env q) (q_tick q)).

Definition put (cid : Z) (c : iclient) (q : queue) : queue := set_clients (aset cid c (q_clients q)) q.

(** ** Connections *)

(** [conn] is the identifier drawn for an accepted connection; [auth] is whether
    the peer is the expected window server. *)
Definition dropclient (cid : Z) (q : queue) : queue := set_clients (adel cid (q_clients q)) q.

(** ** Output *)

(** Consumed prefixes are cut off only when they are large. *)
Definition compact (c : iclient) : iclient :=
  let off := ic_off c in
  if negb (off =? 0) && ((CLIENTFLUSHBYTES <=? off) || (zlen (ic_outbuf c) <=? off * 2))
  then set_out (zdrop off (ic_outbuf c)) 0 c
  else c.

Definition appendclientoutput (cid : Z) (data : bytes) (q : queue) : queue * bool :=
  match aget cid (q_clients q) with
  | None => (q, false)
  | Some c =>
      match data with
      | [] => (q, true)
      | _ =>
          let c := compact c in
          let queued := zlen (ic_outbuf c) - ic_off c in
          if CLIENTOUTBUFLIMIT <? queued + zlen data then (dropclient cid q, false)
          else
            let c := set_out (ic_outbuf c ++ data) (ic_off c) c in
            (set_peak (Z.max (q_peak q) (zlen (ic_outbuf c) - ic_off c)) (put cid c q), true)
      end
  end.

(** [now = None]: the clock is read when it is needed. *)
Definition materializeclientpointer (cid : Z) (force : bool) (now : option pyfloat) (q : queue) : queue * bool :=
  match aget cid (q_clients q) with
  | None => (q, false)
  | Some c =>
      match ic_pending c with
      | None => (q, false)
      | Some pending =>
          let '(q, now) := match now with Some t => (q, t) | None => look qe_mono q end in
          if negb force && (negb (bool_decide (ic_outbuf c = [])) || flt now (ic_next c)) then (q, false)
          else
            let '(q, ok) := appendclientoutput cid pending (put cid (set_pending None c) q) in
            if negb ok then (q, false)
            else
              match aget cid (q_clients q) with
              | None => (q, false)
              | Some c => (put cid (set_next (fadd now CLIENTPOINTERINTERVAL) c) q, true)
              end
      end
  end.

(** When the selector refuses, the interest stays what it was. *)
Definition updateclientevents (cid : Z) (q : queue) : queue :=
  match aget cid (q_clients q) with
  | None => q
  | Some _ =>
      let '(q, _) := materializeclientpointer cid false None q in
      match aget cid (q_clients q) with
      | None => q
      | Some c =>
          let events := negb (bool_decide (ic_outbuf c = [])) in
          if Bool.eqb (ic_write c) events then q
          else
            let '(q, ok) := look qe_modify q in
            if ok : bool then put cid (set_write events c) q else q
      end
  end.

Fixpoint flush_pointers (cids : list Z) (now : pyfloat) (q : queue) : queue :=
  match cids with
  | [] => q
  | cid :: cids' =>
      let '(q, done) := materializeclientpointer cid false (Some now) q in
      flush_pointers cids' now (if done then updateclientevents cid q else q)
  end.

Definition flushclientpointers (q : queue) : queue :=
  let '(q, now) := look qe_mono q in
  flush_pointers (List.map fst (q_clients q)) now q.

(** The time [select] may sleep: until the first pending pointer is due. *)
Definition nextclientpointertimeout (maximum : pyfloat) (q : queue) : queue * pyfloat :=
  let '(q, now) := look qe_mono q in
  (q, fold_left (fun timeout kc =>
        let c := kc.2 in
        match ic_pending c with
        | None => timeout
        | Some _ =>
            if negb (bool_decide (ic_outbuf c = [])) then timeout
            else fmin2 timeout (fmax2 fzero (fsub (ic_next c) now))
        end) (q_clients q) (fmax2 fzero maximum)).

(** One compact JSON line. *)
Definition json_line (obj : pyval) : bytes := utf8_encode_replace (json_dumps j_compact obj ++ [10]).

Definition field_is (k v : string) (obj : pyval) : bool :=
  match obj with
  | PDict d => match dict_get_def (lit k) (PStr []) d with PStr s => str_eqb s (lit v) | _ => false end
  | _ => false
  end.

Definition is_pointer (obj : pyval) : bool := field_is "op" "EVENT" obj && field_is "kind" "pointer" obj.

Definition sendjson (cid : Z) (obj : pyval) (q : queue) : queue * bool :=
  match aget cid (q_clients q) with
  | None => (q, false)
  | Some c =>
      let line := json_line obj in
      let '(q, ok) :=
        if is_pointer obj then
          let q := if bool_decide (ic_pending c = None) then q else set_coalesced (q_coalesced q + 1) q in
          let '(q, _) := materializeclientpointer cid false None (put cid (set_pending (Some line) c) q) in
          (q, true)
        else
          let '(q, _) := materializeclientpointer cid true None q in
          match aget cid (q_clients q) with
          | None => (q, false)
          | Some _ => appendclientoutput cid line q
          end in
      if negb ok then (q, false)
      else
        match aget cid (q_clients q) with
        | None => (q, false)
        | Some _ => (updateclientevents cid q, true)
        end
  end.

(** One pass sends at most [CLIENTFLUSHBYTES] bytes of a client; every turn but the
    last sends a byte or more, so the budget bounds the turns. *)
Fixpoint flush_loop (fuel : nat) (cid budget : Z) (q : queue) : queue :=
  match fuel with
  | O => q
  | S fuel =>
      if budget <=? 0 then q
      else
        match aget cid (q_clients q) with
        | None => q
        | Some c =>
            let q := if bool_decide (ic_outbuf c = []) then (materializeclientpointer cid false None q).1 else q in
            match aget cid (q_clients q) with
            | None => q
            | Some c =>
                if bool_decide (ic_outbuf c = []) then q
                else
                  let chunk := zslice (ic_outbuf c) (ic_off c) (ic_off c + budget) in
                  let '(q, r) := look qe_send q in
                  match r with
                  | SWouldBlock => q
                  | SFailed => dropclient cid q
                  | SSent n =>
                      let sent := Z.min n (zlen chunk) in
                      if sent <=? 0 then dropclient cid q
                      else
                        let off := ic_off c + sent in
                        let c := set_sent (ic_sent c ++ ztake sent chunk) c in
                        let c := if zlen (ic_outbuf c) <=? off then set_out [] 0 c
                                 else set_out (ic_outbuf c) off c in
                        flush_loop fuel cid (budget - sent) (put cid c q)
                  end
            end
        end
  end.

Definition flushclient (cid : Z) (q : queue) : queue :=
  flush_loop (S (Z.to_nat CLIENTFLUSHBYTES)) cid CLIENTFLUSHBYTES q.

(** ** Input *)

(** The complete lines of the receive buffer, decoded and stripped. *)
Definition recvlines (cid : Z) (r : recv_result) (q : queue) : queue * list pystr :=
  match aget cid (q_clients q) with
  | None => (q, [])
  | Some c =>
      match r with
      | RWouldBlock => (q, [])
      | RError | RData [] => (dropclient cid q, [])
      | RData data =>
          let rx := ic_rx c ++ data in
          if CLIENTINBUFLIMIT <? zlen rx then (dropclient cid q, [])
          else
            let '(ls, rest) := frames rx in
            (put cid (set_rx rest c) q, List.map (fun l => strip (utf8_decode_replace l)) ls)
      end
  end.

(** ** Acceptance *)

(** There is one consumer of raw input; [cid] is the identifier drawn for the new
    connection and [auth] the outcome of the peer's authentication. *)
Definition acceptclient (conn : option (Z * bool)) (q : queue) : queue :=
  match conn with
  | None => q
  | Some (cid, auth) =>
      if negb (bool_decide (q_clients q = [])) || negb auth then q
      else
        let q := set_clients (aset cid (mkic [] [] 0 None fzero [] false fzero []) (q_clients q)) q in
        (sendjson cid (pobj [("op", PStr (lit "WELCOME")); ("id", PInt cid)]%string) q).1
  end.
