(* ===== verification/InputQueueSpec.v ===== *)
(** The properties of the input service's client queues: what is queued is
    delivered in order, only superseded pointer states are dropped, and the
    queues are bounded. *)

From stdpp Require Import base list strings sets.
From Stdlib Require Import ZArith Lia Bool String.
From S2P Require Import Prelude Assoc PyFloat PyText PyVal PyJson Exchange ExchangeProofs InputQueue.
Open Scope Z_scope.

(** ** The well-formed client *)

Record client_ok (c : iclient) : Prop := {
  co_off : 0 <= ic_off c;
  co_rest : ic_outbuf c <> [] -> ic_off c < zlen (ic_outbuf c);
  co_empty : ic_outbuf c = [] -> ic_off c = 0;
  co_queued : zlen (ic_outbuf c) - ic_off c <= CLIENTOUTBUFLIMIT;
  co_buffer : zlen (ic_outbuf c) <= CLIENTOUTBUFLIMIT + CLIENTFLUSHBYTES;
  co_rx : zlen (ic_rx c) <= CLIENTINBUFLIMIT }.

(** Everything given to the socket or waiting for it, in order. *)
Definition wire_out (c : iclient) : bytes := ic_sent c ++ zdrop (ic_off c) (ic_outbuf c).

(** What happens to a client between two submissions: nothing visible, or its
    pending pointer joins the output. *)
Definition quiet (c c' : iclient) : Prop :=
  wire_out c' = wire_out c /\ ic_pending c' = ic_pending c \/
  exists p, ic_pending c = Some p /\ ic_pending c' = None /\ wire_out c' = wire_out c ++ p.

Lemma quiet_refl c : quiet c c.
Proof. by left. Qed.

Lemma quiet_trans c1 c2 c3 : quiet c1 c2 -> quiet c2 c3 -> quiet c1 c3.
Proof.
  intros [[H1 H2]|(p & H1 & H2 & H3)] [[G1 G2]|(p' & G1 & G2 & G3)].
  - left. by rewrite G1, G2.
  - right. exists p'. by rewrite <- H2, G3, H1.
  - right. exists p. by rewrite G2, G1.
  - congruence.
Qed.

(** A client seen before and after a call: it may have been dropped. *)
Definition changes (R : iclient -> iclient -> Prop) (x y : option iclient) : Prop :=
  match x, y with
  | Some c, Some c' => client_ok c -> client_ok c' /\ R c c'
  | Some _, None => True
  | None, None => True
  | None, Some _ => False
  end.

(** Identifiers are unique. *)
Definition keys_ok (q : queue) : Prop := NoDup (List.map fst (q_clients q)).

Definition quietly (q q' : queue) : Prop :=
  keys_ok q -> keys_ok q' /\
  forall cid, changes quiet (aget cid (q_clients q)) (aget cid (q_clients q')).

Lemma changes_refl x : changes quiet x x.
Proof. destruct x; [|done]. intros H. split; [done|apply quiet_refl]. Qed.

Lemma quietly_clients q q' : q_clients q' = q_clients q -> quietly q q'.
Proof. intros E Hk. unfold keys_ok in *. rewrite E. split; [done|]. intros cid. apply changes_refl. Qed.

Lemma quietly_refl q : quietly q q.
Proof. by apply quietly_clients. Qed.

Lemma quietly_trans q1 q2 q3 : quietly q1 q2 -> quietly q2 q3 -> quietly q1 q3.
Proof.
  intros H1 H2 Hk. destruct (H1 Hk) as [Hk2 G1]. destruct (H2 Hk2) as [Hk3 G2]. split; [done|].
  intros cid. specialize (G1 cid). specialize (G2 cid). unfold changes in *.
  destruct (aget cid (q_clients q1)), (aget cid (q_clients q2)), (aget cid (q_clients q3)); try done.
  intros Hc. destruct (G1 Hc) as [Hc2 Hq]. destruct (G2 Hc2) as [Hc3 Hq2].
  split; [done|]. by eapply quiet_trans.
Qed.

Lemma quietly_drop cid q : quietly q (dropclient cid q).
Proof.
  intros Hk. split; [by apply adel_NoDup|]. intros cid'. unfold dropclient. simpl.
  destruct (decide (cid' = cid)) as [->|Hne].
  - rewrite aget_adel_eq by done. by destruct (aget cid _).
  - rewrite aget_adel_ne by done. apply changes_refl.
Qed.

(** Replacing a client by one related to it. *)
Lemma quietly_put cid c c' q :
  aget cid (q_clients q) = Some c -> (client_ok c -> client_ok c' /\ quiet c c') -> quietly q (put cid c' q).
Proof.
  intros Hc Hr Hk. split; [by apply aset_NoDup|]. intros cid'. unfold put. simpl.
  destruct (decide (cid' = cid)) as [->|Hne].
  - by rewrite aget_aset_eq, Hc.
  - rewrite aget_aset_ne by done. apply changes_refl.
Qed.

Lemma put_put cid c c' q : put cid c' (put cid c q) = put cid c' q.
Proof. unfold put. simpl. by rewrite aset_aset. Qed.

(** ** The operations *)

Lemma compact_spec c : client_ok c ->
  client_ok (compact c) /\ wire_out (compact c) = wire_out c /\ ic_pending (compact c) = ic_pending c /\
  zlen (ic_outbuf (compact c)) - ic_off (compact c) = zlen (ic_outbuf c) - ic_off c /\
  ic_off (compact c) < CLIENTFLUSHBYTES.
Proof.
  intros [H1 H2 H3 H4 H5 H6]. unfold compact. pose proof (zlen_nonneg (ic_outbuf c)) as H0.
  assert (Hle : ic_off c <= zlen (ic_outbuf c)).
  { destruct (ic_outbuf c) eqn:E; [rewrite H3 by done; done|]. rewrite <- E in *. assert (ic_off c < zlen (ic_outbuf c)) by (apply H2; by rewrite E). lia. }
  destruct (negb (ic_off c =? 0) && _) eqn:E.
  - assert (Hl : zlen (zdrop (ic_off c) (ic_outbuf c)) = zlen (ic_outbuf c) - ic_off c) by (rewrite zlen_drop by done; lia).
    split_and!; simpl; try done; [|lia]. split; simpl; try lia; try done.
    + intros Hne. destruct (zdrop _ _); [done|]. rewrite zlen_cons. pose proof (zlen_nonneg l). lia.
  - split_and!; try done. destruct (ic_off c =? 0) eqn:E0; [unfold CLIENTFLUSHBYTES; lia|].
    cbn [negb andb] in E. apply orb_false_iff in E. lia.
Qed.

Lemma pending_compact c : ic_pending (compact c) = ic_pending c.
Proof. unfold compact. by destruct (_ && _). Qed.

(** Appending a record: it is queued, or the client is dropped. *)
Lemma append_spec cid data q c :
  aget cid (q_clients q) = Some c -> data <> [] ->
  let '(q', ok) := appendclientoutput cid data q in
  if ok then exists c', q_clients q' = aset cid c' (q_clients q) /\
    ic_outbuf c' <> [] /\ ic_pending c' = ic_pending c /\
    (client_ok c -> client_ok c' /\ wire_out c' = wire_out c ++ data /\
      zlen (ic_outbuf c) - ic_off c + zlen data <= CLIENTOUTBUFLIMIT)
  else q' = dropclient cid q /\
    (client_ok c -> CLIENTOUTBUFLIMIT < zlen (ic_outbuf c) - ic_off c + zlen data).
Proof.
  intros Hc Hd. unfold appendclientoutput. rewrite Hc. destruct data as [|x data0]; [done|].
  assert (H0 : 0 < zlen (x :: data0)) by (rewrite zlen_cons; pose proof (zlen_nonneg data0); lia).
  set (data := x :: data0) in *.
  destruct (CLIENTOUTBUFLIMIT <? _) eqn:E.
  - split; [done|]. intros Hok. destruct (compact_spec c Hok) as (_ & _ & _ & H4 & _). lia.
  - set (c' := set_out _ _ _). exists c'. split; [done|]. split; [|split].
    + simpl. intros Hnil. by apply app_eq_nil in Hnil as [_ ?].
    + apply pending_compact.
    + intros Hok. destruct (compact_spec c Hok) as (Hok' & Hw & _ & H4 & Hoff).
      destruct Hok' as [G1 G2 G3 G4 G5 G6]. split_and!.
      * split; simpl; rewrite ?zlen_app; try done; try lia.
        -- intros _. destruct (ic_outbuf (compact c)) eqn:Eb.
           ++ rewrite (G3 eq_refl). pose proof (zlen_nonneg (@nil Z)). lia.
           ++ specialize (G2 ltac:(discriminate)). lia.
        -- intros Hnil. by apply app_eq_nil in Hnil as [_ ?].
      * rewrite <- Hw. unfold wire_out. unfold c'. cbn [ic_sent ic_off ic_outbuf set_out]. rewrite <- app_assoc. f_equal.
        unfold zdrop. rewrite drop_app_le; [done|]. unfold zlen in *.
        destruct (ic_outbuf (compact c)) eqn:Eb; [rewrite (G3 eq_refl); done|].
        specialize (G2 ltac:(discriminate)). lia.
      * lia.
Qed.

(** A call that may do more to one client. *)
Definition acts (cid : Z) (R : iclient -> iclient -> Prop) (q q' : queue) : Prop :=
  keys_ok q -> keys_ok q' /\
  forall i, changes (if decide (i = cid) then R else quiet) (aget i (q_clients q)) (aget i (q_clients q')).

Lemma acts_quiet cid q q' : quietly q q' <-> acts cid quiet q q'.
Proof.
  split; intros H Hk; destruct (H Hk) as [H1 H2]; (split; [done|]; intros i; specialize (H2 i); by destruct (decide (i = cid))).
Qed.

Lemma acts_trans cid (R1 R2 R : iclient -> iclient -> Prop) q1 q2 q3 :
  (forall c1 c2 c3, R1 c1 c2 -> R2 c2 c3 -> R c1 c3) ->
  acts cid R1 q1 q2 -> acts cid R2 q2 q3 -> acts cid R q1 q3.
Proof.
  intros HR H1 H2 Hk. destruct (H1 Hk) as [Hk2 G1]. destruct (H2 Hk2) as [Hk3 G2]. split; [done|].
  intros i. specialize (G1 i). specialize (G2 i). unfold changes in *.
  destruct (aget i (q_clients q1)), (aget i (q_clients q2)), (aget i (q_clients q3)); try done.
  intros Hc. destruct (G1 Hc) as [Hc2 Hq]. destruct (G2 Hc2) as [Hc3 Hq2]. split; [done|].
  destruct (decide (i = cid)); [by eapply HR|by eapply quiet_trans].
Qed.

Lemma acts_drop cid R q : acts cid R q (dropclient cid q).
Proof.
  intros Hk. destruct (quietly_drop cid q Hk) as [H1 H2]. split; [done|]. intros i. specialize (H2 i).
  destruct (decide (i = cid)) as [->|]; [|done]. unfold dropclient. simpl.
  rewrite aget_adel_eq by done. by destruct (aget cid _).
Qed.

Lemma acts_set cid R c c' q q' :
  aget cid (q_clients q) = Some c -> q_clients q' = aset cid c' (q_clients q) ->
  (client_ok c -> client_ok c' /\ R c c') -> acts cid R q q'.
Proof.
  intros Hc E Hr Hk. unfold keys_ok in *. rewrite E. split; [by apply aset_NoDup|]. intros i.
  destruct (decide (i = cid)) as [->|Hne].
  - by rewrite aget_aset_eq, Hc.
  - rewrite aget_aset_ne by done. apply changes_refl.
Qed.

Lemma clients_put cid c q : q_clients (put cid c q) = aset cid c (q_clients q).
Proof. done. Qed.

Lemma acts_gone cid R c q q' : q_clients q' = adel cid (aset cid c (q_clients q)) -> acts cid R q q'.
Proof.
  intros E Hk. assert (Hk' : NoDup (List.map fst (aset cid c (q_clients q)))) by (by apply aset_NoDup).
  unfold keys_ok. rewrite E. split; [by apply adel_NoDup|]. intros i.
  destruct (decide (i = cid)) as [->|Hne].
  - rewrite aget_adel_eq by done. by destruct (aget cid _).
  - rewrite aget_adel_ne, aget_aset_ne by done. apply changes_refl.
Qed.

(** [materializeclientpointer] as it acts on its client; after a forced call the
    client, if still there, has nothing pending. *)
Definition committed (c c' : iclient) : Prop :=
  ic_pending c' = None /\ wire_out c' = wire_out c ++ default [] (ic_pending c).

Lemma committed_quiet c c' : committed c c' -> quiet c c'.
Proof.
  intros [H1 H2]. unfold quiet. destruct (ic_pending c) as [p|] eqn:E; simpl in H2.
  - right. by exists p.
  - left. by rewrite H1, H2, app_nil_r.
Qed.

Lemma pending_ok p c : client_ok c -> client_ok (set_pending p c).
Proof. by intros []. Qed.

Lemma commit_acts cid pending now c q q0 :
  aget cid (q_clients q0) = Some c -> ic_pending c = Some pending -> q_clients q = q_clients q0 ->
  let '(q', ok) := appendclientoutput cid pending (put cid (set_pending None c) q) in
  acts cid committed q0
    (if ok then match aget cid (q_clients q') with
                | None => q'
                | Some c => put cid (set_next (fadd now CLIENTPOINTERINTERVAL) c) q'
                end
     else q').
Proof.
  intros Hc Hp Eq. set (q1 := put cid _ q).
  assert (Hq1 : q_clients q1 = aset cid (set_pending None c) (q_clients q0)) by (unfold q1; simpl; by rewrite Eq).
  assert (H1 : aget cid (q_clients q1) = Some (set_pending None c)) by (by rewrite Hq1, aget_aset_eq).
  destruct (decide (pending = [])) as [->|Hne].
  - unfold appendclientoutput. rewrite H1. cbv beta iota. rewrite H1.
    eapply acts_set; [exact Hc|rewrite clients_put, Hq1; apply aset_aset|]. intros Hok.
    split; [by destruct Hok|]. split; [done|]. rewrite Hp. simpl. by rewrite app_nil_r.
  - pose proof (append_spec cid pending q1 _ H1 Hne) as Ha.
    destruct (appendclientoutput cid pending q1) as [q' []].
    + destruct Ha as (c' & E & _ & Hp' & Hw). rewrite E, aget_aset_eq.
      eapply acts_set; [exact Hc|rewrite clients_put, E, Hq1; by rewrite !aset_aset|]. intros Hok.
      destruct (Hw (pending_ok None c Hok)) as (Hok' & Hw' & _). split; [by destruct Hok'|].
      split; [by simpl; rewrite Hp'|]. rewrite Hp. exact Hw'.
    + destruct Ha as [-> _]. eapply acts_gone. unfold dropclient. cbn [set_clients q_clients]. by rewrite Hq1.
Qed.

Lemma acts_refl cid (R : iclient -> iclient -> Prop) q q' :
  (forall c, aget cid (q_clients q) = Some c -> R c c) -> q_clients q' = q_clients q -> acts cid R q q'.
Proof.
  intros HR E Hk. unfold keys_ok in *. rewrite E. split; [done|]. intros i.
  destruct (decide (i = cid)) as [->|]; [|apply changes_refl].
  unfold changes. destruct (aget cid (q_clients q)) as [c|] eqn:Ec; [|done]. intros Hok.
  split; [done|]. by apply HR.
Qed.

Lemma acts_weaken cid (R R' : iclient -> iclient -> Prop) q q' :
  (forall c c', R c c' -> R' c c') -> acts cid R q q' -> acts cid R' q q'.
Proof.
  intros HR H Hk. destruct (H Hk) as [H1 H2]. split; [done|]. intros i. specialize (H2 i).
  unfold changes in *. destruct (aget i (q_clients q)), (aget i (q_clients q')); try done.
  intros Hok. destruct (H2 Hok) as [? Hr]. split; [done|]. destruct (decide (i = cid)); auto.
Qed.

Lemma forced_acts cid now q : acts cid committed q (materializeclientpointer cid true now q).1.
Proof.
  unfold materializeclientpointer. destruct (aget cid (q_clients q)) as [c|] eqn:Ec.
  - destruct (ic_pending c) as [p|] eqn:Ep.
    + destruct now as [t|].
      * pose proof (commit_acts cid p t c q q Ec Ep eq_refl) as H. cbn [negb andb].
        destruct (appendclientoutput _ _ _) as [q' []]; [|exact H]. cbn [negb].
        by destruct (aget cid (q_clients q')).
      * unfold look. set (t := qe_mono _ _). set (q1 := mkqueue _ _ _ _ _).
        pose proof (commit_acts cid p t c q1 q Ec Ep eq_refl) as H. cbn [negb andb].
        destruct (appendclientoutput _ _ _) as [q' []]; [|exact H]. cbn [negb].
        by destruct (aget cid (q_clients q')).
    + apply acts_refl; [|done]. intros c' Hc'. assert (c' = c) as -> by congruence.
      split; [done|]. rewrite Ep. simpl. by rewrite app_nil_r.
  - apply acts_refl; [|done]. intros c' Hc'. congruence.
Qed.

Lemma materialize_quietly cid force now q : quietly q (materializeclientpointer cid force now q).1.
Proof.
  apply (acts_quiet cid). destruct force.
  - eapply acts_weaken; [apply committed_quiet|apply forced_acts].
  - unfold materializeclientpointer. destruct (aget cid (q_clients q)) as [c|] eqn:Ec.
    2:{ apply acts_refl; [|done]. intros. apply quiet_refl. }
    destruct (ic_pending c) as [p|] eqn:Ep; [|apply acts_refl; [intros; apply quiet_refl|done]].
    destruct (match now with Some t => (q, t) | None => look qe_mono q end) as [q1 t] eqn:El.
    assert (E1 : q_clients q1 = q_clients q) by (destruct now; injection El as <- _; done).
    destruct (_ && _); [by apply acts_refl; [intros; apply quiet_refl|]|].
    eapply acts_weaken; [apply committed_quiet|].
    pose proof (commit_acts cid p t c q1 q Ec Ep E1) as H.
    destruct (appendclientoutput _ _ _) as [q' []]; [|exact H]. cbn [negb].
    by destruct (aget cid (q_clients q')).
Qed.

Lemma update_quietly cid q : quietly q (updateclientevents cid q).
Proof.
  unfold updateclientevents. destruct (aget cid (q_clients q)); [|apply quietly_refl].
  pose proof (materialize_quietly cid false None q) as H.
  destruct (materializeclientpointer cid false None q) as [q1 b]. simpl in H.
  destruct (aget cid (q_clients q1)) as [c|] eqn:Ec; [|done].
  destruct (Bool.eqb _ _); [done|]. eapply quietly_trans; [exact H|]. unfold look.
  destruct (qe_modify _ _); [|by apply quietly_clients].
  eapply quietly_trans; [by apply (quietly_clients _ (look qe_modify q1).1)|].
  eapply quietly_put; [exact Ec|]. intros Hok. split; [by destruct Hok|by left].
Qed.

Lemma flush_pointers_quietly cids now q : quietly q (flush_pointers cids now q).
Proof.
  revert q. induction cids as [|cid cids IH]; intros q; simpl; [apply quietly_refl|].
  pose proof (materialize_quietly cid false (Some now) q) as H.
  destruct (materializeclientpointer cid false (Some now) q) as [q1 []]; simpl in H.
  - eapply quietly_trans; [exact H|]. eapply quietly_trans; [apply update_quietly|apply IH].
  - eapply quietly_trans; [exact H|apply IH].
Qed.

Lemma flushclientpointers_quietly q : quietly q (flushclientpointers q).
Proof.
  unfold flushclientpointers, look. eapply quietly_trans; [|apply flush_pointers_quietly].
  by apply quietly_clients.
Qed.

(** The kernel takes the next bytes of the output. *)
Lemma take_sent c n : client_ok c -> ic_outbuf c <> [] ->
  0 < n <= zlen (ic_outbuf c) - ic_off c ->
  let c' := set_sent (ic_sent c ++ ztake n (zdrop (ic_off c) (ic_outbuf c))) c in
  let c'' := if zlen (ic_outbuf c) <=? ic_off c + n then set_out [] 0 c' else set_out (ic_outbuf c) (ic_off c + n) c' in
  client_ok c'' /\ quiet c c''.
Proof.
  intros [H1 H2 H3 H4 H5 H6] Hne Hn. cbv zeta.
  assert (Hw : ic_sent c ++ ztake n (zdrop (ic_off c) (ic_outbuf c)) ++ zdrop (ic_off c + n) (ic_outbuf c) = wire_out c).
  { unfold wire_out. f_equal. rewrite <- (ztake_zdrop n (zdrop (ic_off c) (ic_outbuf c))) at 2.
    by rewrite zdrop_zdrop by lia. }
  destruct (zlen (ic_outbuf c) <=? _) eqn:E.
  - split; [split; simpl; try done; unfold zlen, CLIENTOUTBUFLIMIT, CLIENTFLUSHBYTES; simpl; lia|].
    left. split; [|done]. rewrite <- Hw. unfold wire_out. simpl. rewrite !app_nil_r.
    rewrite (zdrop_all (ic_off c + n)) by lia. by rewrite app_nil_r.
  - split; [split; simpl; try done; lia|]. left. split; [|done]. rewrite <- Hw. unfold wire_out. simpl.
    by rewrite <- app_assoc.
Qed.

Lemma flush_loop_quietly fuel cid budget q : keys_ok q ->
  (forall c, aget cid (q_clients q) = Some c -> client_ok c) -> quietly q (flush_loop fuel cid budget q).
Proof.
  revert budget q. induction fuel as [|fuel IH]; intros budget q Hk Hok; cbn [flush_loop]; [apply quietly_refl|].
  destruct (budget <=? 0) eqn:Eb; [apply quietly_refl|].
  destruct (aget cid (q_clients q)) as [c0|] eqn:E0; [|apply quietly_refl]. cbv zeta.
  set (q1 := if bool_decide _ then _ else q).
  assert (Hq1 : quietly q q1) by (unfold q1; destruct (bool_decide _); [apply materialize_quietly|apply quietly_refl]).
  destruct (Hq1 Hk) as [Hk1 Hc1]. specialize (Hc1 cid). unfold changes in Hc1. rewrite E0 in Hc1.
  destruct (aget cid (q_clients q1)) as [c|] eqn:E1; [|done].
  destruct (Hc1 (Hok c0 eq_refl)) as [Hokc _]. destruct (bool_decide_reflect (ic_outbuf c = [])) as [|Hne]; [done|].
  eapply quietly_trans; [exact Hq1|]. unfold look. set (q2 := mkqueue _ _ _ _ _).
  assert (Hq2 : quietly q1 q2) by (by apply quietly_clients).
  assert (E2 : aget cid (q_clients q2) = Some c) by exact E1.
  destruct (qe_send _ _) as [n| |]; [|done|].
  2:{ eapply quietly_trans; [exact Hq2|apply quietly_drop]. }
  set (sent := Z.min n _). destruct (sent <=? 0) eqn:Es; [eapply quietly_trans; [exact Hq2|apply quietly_drop]|].
  assert (Hlen : zlen (zslice (ic_outbuf c) (ic_off c) (ic_off c + budget)) <= zlen (ic_outbuf c) - ic_off c /\
    ztake sent (zslice (ic_outbuf c) (ic_off c) (ic_off c + budget)) = ztake sent (zdrop (ic_off c) (ic_outbuf c))).
  { pose proof (co_off _ Hokc). unfold zslice. replace (ic_off c + budget - ic_off c) with budget by lia.
    pose proof (zlen_nonneg (ic_outbuf c)). pose proof (co_rest _ Hokc Hne).
    assert (Hs : sent <= budget).
    { unfold sent, zslice. replace (ic_off c + budget - ic_off c) with budget by lia. rewrite zlen_take by lia. lia. }
    split; [rewrite zlen_take, zlen_drop by lia; lia|]. unfold ztake. rewrite take_take. f_equal. lia. }
  destruct Hlen as [Hlen ->].
  pose proof (take_sent c sent Hokc Hne) as Ht. cbv zeta in Ht. destruct Ht as [Hok' Hq']; [lia|].
  set (c' := if zlen (ic_outbuf c) <=? _ then _ else _) in *.
  assert (H3 : quietly q2 (put cid c' q2)) by (by eapply quietly_put).
  eapply quietly_trans; [exact Hq2|]. eapply quietly_trans; [exact H3|]. apply IH.
  - apply (H3 Hk1).
  - intros c2. rewrite clients_put, aget_aset_eq. intros [= <-]. done.
Qed.

Lemma recvlines_quietly cid r q : quietly q (recvlines cid r q).1.
Proof.
  unfold recvlines. destruct (aget cid (q_clients q)) as [c|] eqn:Ec; [|apply quietly_refl].
  destruct r as [d| |]; [|apply quietly_refl|apply quietly_drop]. destruct d as [|x d]; [apply quietly_drop|].
  destruct (_ <? _) eqn:E; [apply quietly_drop|]. pose proof (frames_rest (ic_rx c ++ x :: d)) as [_ Hr].
  destruct (frames _) as [ls rest]. simpl in *. eapply quietly_put; [exact Ec|]. intros [].
  split; [split; simpl; try done; lia|by left].
Qed.

(** ** Submitting a record *)

(** A pointer record replaces the pending one; any other record goes out after
    the pending pointer. *)
Definition submits (obj : pyval) (c c' : iclient) : Prop :=
  if is_pointer obj then
    exists c1, wire_out c1 = wire_out c /\ ic_pending c1 = Some (json_line obj) /\ quiet c1 c'
  else ic_pending c' = None /\ wire_out c' = wire_out c ++ default [] (ic_pending c) ++ json_line obj.

Lemma json_line_nonempty obj : json_line obj <> [].
Proof.
  unfold json_line. rewrite utf8_encode_replace_app. intros [_ H]%app_eq_nil. discriminate H.
Qed.

Lemma append_acts cid data q : data <> [] ->
  acts cid (fun c c' => ic_pending c' = ic_pending c /\ wire_out c' = wire_out c ++ data) q
    (appendclientoutput cid data q).1 \/ aget cid (q_clients q) = None.
Proof.
  intros Hd. destruct (aget cid (q_clients q)) as [c|] eqn:Ec; [left|by right].
  pose proof (append_spec cid data q c Ec Hd) as H.
  destruct (appendclientoutput cid data q) as [q' []]; simpl.
  - destruct H as (c' & E & _ & Hp & Hw). eapply acts_set; [exact Ec|exact E|]. intros Hok.
    destruct (Hw Hok) as (? & ? & _). split; [done|]. split; [done|done].
  - destruct H as [-> _]. apply acts_drop.
Qed.

Lemma quiet_nothing c c' : ic_pending c = None -> quiet c c' -> ic_pending c' = None /\ wire_out c' = wire_out c.
Proof. intros Hp [[H1 H2]|(p & H1 & _)]; [split; congruence|congruence]. Qed.

Lemma sendjson_acts cid obj q : acts cid (submits obj) q (sendjson cid obj q).1.
Proof.
  unfold sendjson, submits. destruct (aget cid (q_clients q)) as [c|] eqn:Ec.
  2:{ apply acts_refl; [|done]. intros c' Hc'. congruence. }
  destruct (is_pointer obj).
  - set (q0 := if bool_decide (ic_pending c = None) then q else _).
    assert (E0 : q_clients q0 = q_clients q) by (unfold q0; by destruct (bool_decide _)).
    set (q1 := put cid (set_pending (Some (json_line obj)) c) q0).
    pose proof (materialize_quietly cid false None q1) as Hm.
    destruct (materializeclientpointer cid false None q1) as [q2 b]. simpl in Hm. cbn [negb].
    assert (H : acts cid (fun c c' => exists c1, wire_out c1 = wire_out c /\ ic_pending c1 = Some (json_line obj) /\ quiet c1 c') q q2).
    { eapply (acts_trans cid (fun c c1 => wire_out c1 = wire_out c /\ ic_pending c1 = Some (json_line obj)) quiet);
        [| |by apply acts_quiet].
      - intros c1 c2 c3 [? ?] ?. by exists c2.
      - eapply acts_set; [exact Ec|unfold q1; rewrite clients_put, E0; reflexivity|]. intros Hok.
        split; [by apply pending_ok|done]. }
    destruct (aget cid (q_clients q2)); [|exact H]. cbn [fst].
    eapply (acts_trans cid _ quiet); [|exact H|apply acts_quiet, update_quietly].
    intros c1 c2 c3 (c0 & H1 & H2 & H3) H4. exists c0. split_and!; [done|done|by eapply quiet_trans].
  - pose proof (forced_acts cid None q) as Hf.
    destruct (materializeclientpointer cid true None q) as [q1 b]. simpl in Hf.
    destruct (aget cid (q_clients q1)) as [c1|] eqn:E1.
    2:{ cbn [negb fst]. intros Hk. destruct (Hf Hk) as [Hk1 G]. split; [done|]. intros i. specialize (G i).
        destruct (decide (i = cid)) as [->|]; [|done]. rewrite E1 in *. by destruct (aget cid (q_clients q)). }
    destruct (append_acts cid (json_line obj) q1 (json_line_nonempty obj)) as [Ha|Hn]; [|congruence].
    destruct (appendclientoutput cid (json_line obj) q1) as [q2 ok]. simpl in Ha.
    assert (H : acts cid (fun c c' => ic_pending c' = None /\
      wire_out c' = wire_out c ++ default [] (ic_pending c) ++ json_line obj) q q2).
    { eapply (acts_trans cid committed); [|exact Hf|exact Ha]. intros c2 c3 c4 [G1 G2] [G3 G4].
      split; [congruence|]. by rewrite G4, G2, <- app_assoc. }
    destruct (negb ok); [exact H|]. destruct (aget cid (q_clients q2)); [|exact H]. cbn [fst].
    eapply (acts_trans cid _ quiet); [|exact H|apply acts_quiet, update_quietly].
    intros c2 c3 c4 [G1 G2] G3. destruct (quiet_nothing _ _ G1 G3) as [G4 G5]. split; [done|congruence].
Qed.

(** ** Runs *)

Definition queue_ok (q : queue) : Prop :=
  keys_ok q /\ forall cid c, aget cid (q_clients q) = Some c -> client_ok c.

Inductive qop : Type :=
| OSend (cid : Z) (obj : pyval)
| OFlush (cid : Z)
| OPointers
| OEvents (cid : Z)
| ORecv (cid : Z) (r : recv_result)
| ODrop (cid : Z).

Definition run_op (q : queue) (o : qop) : queue :=
  match o with
  | OSend cid obj => (sendjson cid obj q).1
  | OFlush cid => flushclient cid q
  | OPointers => flushclientpointers q
  | OEvents cid => updateclientevents cid q
  | ORecv cid r => (recvlines cid r q).1
  | ODrop cid => dropclient cid q
  end.

Definition run_ops (ops : list qop) (q : queue) : queue := fold_left run_op ops q.

(** The records submitted to one client. *)
Definition submitted (cid : Z) (o : qop) : list pyval :=
  match o with OSend i obj => if i =? cid then [obj] else [] | _ => [] end.

Definition events_of (cid : Z) (ops : list qop) : list pyval := List.concat (List.map (submitted cid) ops).

(** What a step does to the tracked client. *)
Definition op_effect (cid : Z) (o : qop) (c c' : iclient) : Prop :=
  match o with
  | OSend i obj => if i =? cid then submits obj c c' else quiet c c'
  | _ => quiet c c'
  end.

Lemma acts_effect i cid (R : iclient -> iclient -> Prop) q q' : queue_ok q -> acts i R q q' ->
  queue_ok q' /\
  changes (if decide (cid = i) then R else quiet) (aget cid (q_clients q)) (aget cid (q_clients q')).
Proof.
  intros [Hk Hok] Ha. destruct (Ha Hk) as [Hk' Hc]. split; [|apply Hc]. split; [done|].
  intros j c' Hj. specialize (Hc j). unfold changes in Hc. rewrite Hj in Hc.
  destruct (aget j (q_clients q)) as [c|] eqn:Ej; [|done]. by destruct (Hc (Hok j c Ej)).
Qed.

Lemma run_op_effect cid o q : queue_ok q ->
  queue_ok (run_op q o) /\ changes (op_effect cid o) (aget cid (q_clients q)) (aget cid (q_clients (run_op q o))).
Proof.
  intros Hq. assert (Hquiet : forall q', quietly q q' ->
    queue_ok q' /\ changes quiet (aget cid (q_clients q)) (aget cid (q_clients q'))).
  { intros q' H%(acts_quiet cid). apply (acts_effect cid cid) in H; [|done]. by rewrite decide_True in H. }
  destruct o as [i obj|i| |i|i r|i]; simpl.
  - destruct (acts_effect i cid _ _ _ Hq (sendjson_acts i obj q)) as [H1 H2]. split; [done|].
    unfold op_effect. destruct (Z.eqb_spec i cid) as [->|Hne]; [by rewrite decide_True in H2|].
    rewrite decide_False in H2 by congruence. exact H2.
  - apply Hquiet, flush_loop_quietly; [apply Hq|]. intros c. apply Hq.
  - apply Hquiet, flushclientpointers_quietly.
  - apply Hquiet, update_quietly.
  - apply Hquiet, recvlines_quietly.
  - apply Hquiet, quietly_drop.
Qed.

(** ** Order and coalescing *)

(** The records without the pointer states that the next record supersedes. *)
Fixpoint collapse (l : list pyval) : list pyval :=
  match l with
  | [] => []
  | o :: l' =>
      if is_pointer o && match l' with o' :: _ => is_pointer o' | [] => false end
      then collapse l' else o :: collapse l'
  end.

(** Up to its last record, the collapse depends only on that record's kind. *)
Lemma collapse_last l x y : is_pointer x = is_pointer y ->
  exists k, collapse (l ++ [x]) = k ++ [x] /\ collapse (l ++ [y]) = k ++ [y].
Proof.
  intros Hxy. induction l as [|o l IH]; simpl.
  - exists []. by rewrite !andb_false_r.
  - destruct IH as (k & H1 & H2). destruct l as [|o' l]; cbn [app] in *.
    + cbn [app] in *. rewrite Hxy. destruct (is_pointer o && is_pointer y); [by exists k|].
      exists (o :: k). by rewrite H1, H2.
    + destruct (is_pointer o && is_pointer o'); [by exists k|]. exists (o :: k). by rewrite H1, H2.
Qed.

Lemma collapse_replace l p o : is_pointer p = true -> is_pointer o = true ->
  collapse (l ++ [p; o]) = collapse (l ++ [o]).
Proof.
  intros Hp Ho. induction l as [|x l IH]; simpl.
  - by rewrite Hp, Ho.
  - destruct l as [|y l]; cbn [app] in *; [|by rewrite IH]. simpl in *. rewrite Hp, Ho.
    by destruct (is_pointer x).
Qed.

Lemma collapse_other l o : is_pointer o = false -> collapse (l ++ [o]) = collapse l ++ [o].
Proof.
  intros Ho. induction l as [|x l IH]; simpl; [by rewrite andb_false_r|].
  destruct l as [|y l]; cbn [app] in *.
  - rewrite Ho, IH. by rewrite andb_false_r.
  - rewrite IH. by destruct (is_pointer x && is_pointer y).
Qed.

Lemma collapse_le l o : collapse (l ++ [o]) `sublist_of` collapse l ++ [o].
Proof.
  induction l as [|x l IH]; simpl; [by rewrite andb_false_r|].
  destruct l as [|y l]; cbn [app] in *.
  - simpl. rewrite !andb_false_r. destruct (is_pointer x && is_pointer o); simpl; [by apply sublist_cons|done].
  - destruct (is_pointer x && is_pointer y); [done|]. simpl. by apply sublist_skip.
Qed.

Lemma sublist_snoc {A} (l1 l2 : list A) x y : l1 ++ [x] `sublist_of` l2 ++ [x] ->
  l1 ++ [y] `sublist_of` l2 ++ [y].
Proof. intros H%sublist_app_inv_r. by apply sublist_app. Qed.

(** What one client has been given, against the records submitted to it. *)
Definition delivered_of (w0 : bytes) (evs : list pyval) (c : iclient) (sent : list pyval) (last : option pyval) : Prop :=
  wire_out c = w0 ++ List.concat (List.map json_line sent) /\ ic_pending c = json_line <$> last /\
  sent ++ option_list last `sublist_of` evs /\ collapse evs `sublist_of` sent ++ option_list last.

Definition track (w0 : bytes) (evs : list pyval) (c : iclient) : Prop :=
  exists sent last, delivered_of w0 evs c sent last /\
    forall p, last = Some p -> is_pointer p = true /\ exists l0, evs = l0 ++ [p].

Lemma lines_snoc (l : list pyval) o : List.concat (List.map json_line (l ++ [o])) = List.concat (List.map json_line l) ++ json_line o.
Proof. rewrite map_app, concat_app. simpl. by rewrite app_nil_r. Qed.

Lemma track_quiet w0 evs c c' : track w0 evs c -> quiet c c' -> track w0 evs c'.
Proof.
  intros (sent & last & (H1 & H2 & H3 & H4) & H5) [[Hw Hp]|(p & Hp & Hp' & Hw)].
  - exists sent, last. split; [|done]. split_and!; [by rewrite Hw|by rewrite Hp|done|done].
  - rewrite Hp in H2. destruct last as [o|]; [|discriminate H2]. injection H2 as ->.
    exists (sent ++ [o]), None. split; [|done]. unfold delivered_of. simpl option_list. rewrite app_nil_r.
    split_and!; [|done|done|done]. by rewrite Hw, H1, lines_snoc, <- app_assoc.
Qed.

Lemma track_pointer w0 evs c c' o : is_pointer o = true -> track w0 evs c ->
  wire_out c' = wire_out c -> ic_pending c' = Some (json_line o) -> track w0 (evs ++ [o]) c'.
Proof.
  intros Ho (sent & last & (H1 & H2 & H3 & H4) & H5) Hw Hp.
  exists sent, (Some o). split; [|intros p [= <-]; split; [done|by exists evs]].
  unfold delivered_of. rewrite Hw, Hp. simpl option_list. split_and!; [done|done| |].
  - destruct last as [p|]; simpl in H3, H4.
    + destruct (H5 p eq_refl) as [_ [l0 ->]]. apply sublist_app; [|done].
      apply sublist_app_inv_r in H3. by apply sublist_inserts_r.
    + rewrite app_nil_r in H3. by apply sublist_app.
  - destruct last as [p|]; simpl in H3, H4.
    + destruct (H5 p eq_refl) as [Hpp [l0 ->]]. rewrite <- app_assoc. simpl app.
      rewrite collapse_replace by done.
      destruct (collapse_last l0 p o) as (k & E1 & E2); [congruence|]. rewrite E1 in H4. rewrite E2.
      by eapply sublist_snoc.
    + rewrite app_nil_r in H4. etransitivity; [apply collapse_le|]. by apply sublist_app.
Qed.

Lemma track_other w0 evs c c' o : is_pointer o = false -> track w0 evs c ->
  ic_pending c' = None -> wire_out c' = wire_out c ++ default [] (ic_pending c) ++ json_line o ->
  track w0 (evs ++ [o]) c'.
Proof.
  intros Ho (sent & last & (H1 & H2 & H3 & H4) & H5) Hp Hw.
  exists ((sent ++ option_list last) ++ [o]), None. split; [|done].
  unfold delivered_of. rewrite Hw, Hp, H2, H1. simpl option_list. rewrite app_nil_r.
  split_and!; [|done|by apply sublist_app|rewrite collapse_other by done; by apply sublist_app].
  rewrite lines_snoc. destruct last as [p|]; cbn.
  - by rewrite lines_snoc, <- !app_assoc.
  - by rewrite app_nil_r, <- !app_assoc.
Qed.

Lemma track_submit w0 evs c c' o : track w0 evs c -> submits o c c' -> track w0 (evs ++ [o]) c'.
Proof.
  intros Ht Hs. unfold submits in Hs. destruct (is_pointer o) eqn:Ho.
  - destruct Hs as (c1 & H1 & H2 & H3). eapply track_quiet; [|exact H3]. by eapply track_pointer.
  - destruct Hs as [H1 H2]. by eapply track_other.
Qed.

Lemma run_ops_ok ops q : queue_ok q -> queue_ok (run_ops ops q).
Proof.
  revert q. induction ops as [|o ops IH]; intros q Hq; [done|]. apply IH.
  exact (proj1 (run_op_effect 0 o q Hq)).
Qed.

Lemma run_ops_track cid ops w0 evs q c :
  queue_ok q -> (forall c0, aget cid (q_clients q) = Some c0 -> track w0 evs c0) ->
  aget cid (q_clients (run_ops ops q)) = Some c -> track w0 (evs ++ events_of cid ops) c.
Proof.
  revert q evs. induction ops as [|o ops IH]; intros q evs Hq Ht Hc; simpl in Hc.
  - unfold events_of. simpl. rewrite app_nil_r. by apply Ht.
  - destruct (run_op_effect cid o q Hq) as [Hq' He].
    unfold events_of. simpl. rewrite app_assoc. eapply IH; [exact Hq'| |exact Hc].
    intros c1 Hc1. unfold changes in He. rewrite Hc1 in He.
    destruct (aget cid (q_clients q)) as [c0|] eqn:E0; [|done].
    destruct (He (proj2 Hq cid c0 E0)) as [_ Hr]. specialize (Ht c0 eq_refl).
    destruct o as [i obj|i| |i|i r|i]; simpl in *; rewrite ?app_nil_r; try (by eapply track_quiet).
    destruct (i =? cid); [by eapply track_submit|]. rewrite app_nil_r. by eapply track_quiet.
Qed.

(** C21: whatever the service does with its clients' queues (sends to this client
    and others, partial and refused writes, pointer deadlines, reads, drops), a
    client still connected has been given, in order and each at most once,
    records submitted to it, with at most one pointer state waiting; every
    record that is not a pointer state is there, and a pointer state is missing
    only when the very next record submitted was a newer pointer state. *)
Theorem records_delivered cid ops q c0 c :
  queue_ok q -> aget cid (q_clients q) = Some c0 -> ic_pending c0 = None ->
  aget cid (q_clients (run_ops ops q)) = Some c ->
  exists sent last, delivered_of (wire_out c0) (events_of cid ops) c sent last.
Proof.
  intros Hq Hc0 Hp Hc.
  destruct (run_ops_track cid ops (wire_out c0) [] q c Hq) as (sent & last & H & _); [|done|by exists sent, last].
  intros c1 Hc1. assert (c1 = c0) as -> by congruence. exists [], None. split; [|done].
  split_and!; [by rewrite app_nil_r|done|done|done].
Qed.

(** In every state the queues reach, a client's unsent output is at most one
    mebibyte, its buffer with the consumed prefix at most 64 KiB more, and what
    it has sent without a newline at most 64 KiB. *)
Theorem queues_bounded ops q cid c :
  queue_ok q -> aget cid (q_clients (run_ops ops q)) = Some c ->
  0 <= zlen (ic_outbuf c) - ic_off c <= CLIENTOUTBUFLIMIT /\
  zlen (ic_outbuf c) <= CLIENTOUTBUFLIMIT + CLIENTFLUSHBYTES /\ zlen (ic_rx c) <= CLIENTINBUFLIMIT.
Proof.
  intros Hq Hc. destruct (proj2 (run_ops_ok ops q Hq) cid c Hc) as [H1 H2 H3 H4 H5 H6].
  split_and!; try done. destruct (ic_outbuf c) eqn:E; [rewrite H3 by done; done|].
  specialize (H2 ltac:(discriminate)). lia.
Qed.

(** A record that is not a pointer state, submitted to a client with nothing
    pending, is refused exactly when the unsent output and the record exceed the
    limit, and then the client is dropped; otherwise the client stays, with the
    record appended. *)
Theorem overload_drops cid obj q c :
  queue_ok q -> aget cid (q_clients q) = Some c -> ic_pending c = None -> is_pointer obj = false ->
  if CLIENTOUTBUFLIMIT <? zlen (ic_outbuf c) - ic_off c + zlen (json_line obj)
  then sendjson cid obj q = (dropclient cid q, false)
  else exists q' c', sendjson cid obj q = (q', true) /\ aget cid (q_clients q') = Some c' /\
    wire_out c' = wire_out c ++ json_line obj.
Proof.
  intros Hq Hc Hp Ho. pose proof (proj2 Hq cid c Hc) as Hok.
  assert (Hm : materializeclientpointer cid true None q = (q, false))
    by (unfold materializeclientpointer; by rewrite Hc, Hp).
  pose proof (append_spec cid (json_line obj) q c Hc (json_line_nonempty obj)) as Ha.
  unfold sendjson. rewrite Hc, Ho, Hm, Hc.
  destruct (appendclientoutput cid (json_line obj) q) as [q1 []] eqn:Ea.
  - destruct Ha as (c1 & E & Hne & Hp1 & Hw). destruct (Hw Hok) as (Hok1 & Hw1 & Hl).
    rewrite (proj2 (Z.ltb_ge _ _)) by lia. cbn [negb]. rewrite E, aget_aset_eq.
    pose proof (update_quietly cid q1) as Hu. unfold updateclientevents in *. rewrite E, aget_aset_eq in *.
    assert (Hm1 : materializeclientpointer cid false None q1 = (q1, false))
      by (unfold materializeclientpointer; by rewrite E, aget_aset_eq, Hp1, Hp).
    rewrite Hm1, E, aget_aset_eq. destruct (Bool.eqb _ _).
    + exists q1, c1. by rewrite E, aget_aset_eq.
    + unfold look. destruct (qe_modify _ _).
      * eexists _, _. split; [done|]. rewrite clients_put. cbn [q_clients]. rewrite E, aget_aset_eq. by split.
      * eexists _, c1. split; [done|]. cbn [q_clients]. by rewrite E, aget_aset_eq.
  - destruct Ha as [-> Hl]. rewrite (proj2 (Z.ltb_lt _ _)) by auto. done.
Qed.

(** Progress of the input service's output: while the kernel takes bytes, flushing
    passes deliver what is queued. *)
(** A kernel that takes at least one byte of every block offered. *)
Definition accepting (e : qenv) : Prop := forall n, exists k, qe_send e n = SSent k /\ 0 < k.

(** The pending pointer record, if any, fits an empty queue. *)
Definition pending_fits (c : iclient) : Prop :=
  match ic_pending c with Some p => zlen p <= CLIENTOUTBUFLIMIT | None => True end.

Definition unsent (c : iclient) : Z := zlen (ic_outbuf c) - ic_off c.

Lemma compact_facts c : ic_outbuf c = [] -> ic_off c = 0 -> compact c = c.
Proof. intros H1 H2. unfold compact. by rewrite H2. Qed.

(** Committing the pending pointer to an empty queue keeps the client. *)
Lemma materialize_keeps cid q c :
  aget cid (q_clients q) = Some c -> ic_outbuf c = [] -> ic_off c = 0 -> pending_fits c ->
  let q' := (materializeclientpointer cid false None q).1 in
  q_env q' = q_env q /\
  exists c', aget cid (q_clients q') = Some c' /\ ic_sent c' = ic_sent c /\ pending_fits c'.
Proof.
  intros Hc Hnil Hoff Hf. unfold materializeclientpointer. rewrite Hc.
  destruct (ic_pending c) as [p|] eqn:Ep; [|by eauto].
  unfold pending_fits in Hf. rewrite Ep in Hf. unfold look. cbv beta iota zeta.
  set (q1 := mkqueue _ _ _ _ _). destruct (_ && _); [split; [done|]; exists c; unfold pending_fits; by rewrite Ep|].
  unfold appendclientoutput. rewrite clients_put, aget_aset_eq.
  destruct p as [|x p].
  { cbn [negb]. rewrite clients_put, aget_aset_eq. cbn [fst]. split; [done|]. rewrite clients_put, aget_aset_eq. by eexists. }
  rewrite compact_facts by done. cbn [ic_outbuf ic_off set_pending]. rewrite Hnil, Hoff. change (zlen (@nil Z)) with 0.
  rewrite (proj2 (Z.ltb_ge _ _)) by lia. cbn [negb set_peak q_clients].
  rewrite !clients_put, !aget_aset_eq. cbn [fst]. split; [done|].
  rewrite clients_put, aget_aset_eq. by eexists.
Qed.

(** One pass sends its budget, or everything that was queued. *)
Lemma flush_loop_progress fuel cid budget q c :
  keys_ok q -> accepting (q_env q) -> aget cid (q_clients q) = Some c -> client_ok c -> pending_fits c ->
  0 <= budget < Z.of_nat fuel ->
  let q' := flush_loop fuel cid budget q in
  q_env q' = q_env q /\ exists c', aget cid (q_clients q') = Some c' /\ pending_fits c' /\
    zlen (ic_sent c) + Z.min budget (unsent c) <= zlen (ic_sent c').
Proof.
  revert budget q c. induction fuel as [|fuel IH]; intros budget q c Hk Hacc Hc Hok Hf Hb; [lia|]. cbn [flush_loop].
  destruct (budget <=? 0) eqn:Eb; [split; [done|]; exists c; split_and!; [done|done|lia]|].
  rewrite Hc. cbv zeta. set (q1 := if bool_decide _ then _ else q).
  assert (H1 : keys_ok q1 /\ q_env q1 = q_env q /\ exists c1, aget cid (q_clients q1) = Some c1 /\ client_ok c1 /\
    ic_sent c1 = ic_sent c /\ pending_fits c1 /\ (ic_outbuf c <> [] -> c1 = c)).
  { unfold q1. destruct (bool_decide_reflect (ic_outbuf c = [])) as [Hnil|Hne]; [|by eauto 10].
    destruct (materialize_keeps cid q c Hc Hnil (co_empty _ Hok Hnil) Hf) as (He & c1 & E1 & Hs & Hf1).
    destruct (materialize_quietly cid false None q Hk) as [Hk1 Hch]. specialize (Hch cid).
    unfold changes in Hch. rewrite Hc, E1 in Hch. split_and!; [done|done|]. exists c1. by split_and!; [|apply Hch| | |]. }
  destruct H1 as (Hk1 & He1 & c1 & E1 & Hok1 & Hs1 & Hf1 & Hsame). rewrite E1.
  destruct (bool_decide_reflect (ic_outbuf c1 = [])) as [Hnil|Hne].
  { split; [done|]. exists c1. split_and!; [done|done|]. rewrite Hs1.
    assert (unsent c <= 0); [|lia]. unfold unsent. destruct (ic_outbuf c) eqn:Ec; [rewrite (co_empty _ Hok) by done; done|].
    rewrite Hsame in Hnil by done. congruence. }
  unfold look. cbv beta iota zeta. set (q2 := mkqueue _ _ _ _ _). rewrite He1.
  destruct (Hacc (q_tick q1)) as (k & -> & Hk0).
  pose proof (co_off _ Hok1) as Ho. pose proof (co_rest _ Hok1 Hne) as Hr.
  unfold zslice. replace (ic_off c1 + budget - ic_off c1) with budget by lia.
  set (chunk := ztake budget (zdrop (ic_off c1) (ic_outbuf c1))).
  assert (Hch : zlen chunk = Z.min budget (unsent c1)).
  { unfold chunk, unsent. rewrite zlen_take, zlen_drop by lia. lia. }
  unfold unsent in Hch. set (sent := Z.min k (zlen chunk)).
  assert (Hsent : 0 < sent <= zlen chunk) by (unfold sent; lia).
  rewrite (proj2 (Z.leb_gt sent 0)) by lia.
  assert (Hst : ztake sent chunk = ztake sent (zdrop (ic_off c1) (ic_outbuf c1))).
  { unfold chunk, ztake. rewrite take_take. f_equal. lia. }
  rewrite Hst. cbn [ic_outbuf set_sent]. pose proof (take_sent c1 sent Hok1 Hne) as Ht. cbv zeta in Ht. destruct Ht as [Hok' _]; [lia|].
  set (c' := if zlen (ic_outbuf c1) <=? _ then _ else _) in *.
  assert (Hp' : ic_pending c' = ic_pending c1) by (unfold c'; by destruct (zlen (ic_outbuf c1) <=? _)).
  assert (Hs' : zlen (ic_sent c') = zlen (ic_sent c) + sent).
  { assert (ic_sent c' = ic_sent c1 ++ ztake sent (zdrop (ic_off c1) (ic_outbuf c1))) as ->
      by (unfold c'; by destruct (zlen (ic_outbuf c1) <=? _)).
    rewrite zlen_app, zlen_take, zlen_drop, Hs1 by lia. lia. }
  assert (Hu : unsent c1 - sent <= unsent c').
  { unfold c', unsent. destruct (zlen (ic_outbuf c1) <=? _) eqn:El; simpl; [|lia]. change (zlen (@nil Z)) with 0. lia. }
  destruct (IH (budget - sent) (put cid c' q2) c') as (He & c2 & E2 & Hf2 & Hle).
  - unfold keys_ok. rewrite clients_put. by apply aset_NoDup.
  - simpl. by rewrite He1.
  - rewrite clients_put. apply aget_aset_eq.
  - done.
  - unfold pending_fits. by rewrite Hp'.
  - lia.
  - split; [by rewrite He|]. exists c2. split_and!; [done|done|].
    assert (unsent c <= Z.max 0 (unsent c1)); [|unfold unsent in *; lia].
    destruct (ic_outbuf c) eqn:Ec; [|rewrite <- Hsame by done; lia].
    unfold unsent. rewrite Ec, (co_empty _ Hok) by done. change (zlen (@nil Z)) with 0. lia.
Qed.

Lemma flush_queue_ok cid q : queue_ok q -> queue_ok (flushclient cid q).
Proof. intros Hq. exact (proj1 (run_op_effect cid (OFlush cid) q Hq)). Qed.

(** The output of a client only grows. *)
Lemma flush_wire cid q c c' : queue_ok q -> aget cid (q_clients q) = Some c ->
  aget cid (q_clients (flushclient cid q)) = Some c' -> wire_out c `prefix_of` wire_out c'.
Proof.
  intros Hq Hc Hc'. pose proof (proj2 (run_op_effect cid (OFlush cid) q Hq)) as H.
  change (run_op q (OFlush cid)) with (flushclient cid q) in H. unfold changes, op_effect in H.
  rewrite Hc, Hc' in H. destruct (H (proj2 Hq cid c Hc)) as [_ [[-> _]|(p & _ & _ & ->)]]; [done|by exists p].
Qed.

Definition passes (n : nat) (cid : Z) (q : queue) : queue := Nat.iter n (flushclient cid) q.

Lemma passes_progress n cid q c :
  queue_ok q -> accepting (q_env q) -> aget cid (q_clients q) = Some c -> pending_fits c ->
  exists c', aget cid (q_clients (passes n cid q)) = Some c' /\ pending_fits c' /\ queue_ok (passes n cid q) /\
    q_env (passes n cid q) = q_env q /\ wire_out c `prefix_of` wire_out c' /\
    zlen (ic_sent c) + Z.min (Z.of_nat n * CLIENTFLUSHBYTES) (unsent c) <= zlen (ic_sent c').
Proof.
  intros Hq Ha Hc Hf. induction n as [|n (c1 & H1 & Hf1 & Hq1 & He1 & Hw1 & Hl1)].
  { exists c. cbn [passes Nat.iter]. split_and!; [done|done|done|done|done|lia]. }
  change (passes (S n) cid q) with (flushclient cid (passes n cid q)).
  set (q1 := passes n cid q) in *. pose proof (proj2 Hq1 cid c1 H1) as Hok1.
  assert (Hb : 0 <= CLIENTFLUSHBYTES < Z.of_nat (S (Z.to_nat CLIENTFLUSHBYTES))) by (unfold CLIENTFLUSHBYTES; lia).
  destruct (flush_loop_progress (S (Z.to_nat CLIENTFLUSHBYTES)) cid CLIENTFLUSHBYTES q1 c1 ltac:(apply Hq1)
    ltac:(by rewrite He1) H1 Hok1 Hf1 Hb) as (He2 & c2 & H2 & Hf2 & Hl2). cbv zeta in He2, H2. change (flush_loop _ _ _ q1) with (flushclient cid q1) in H2, He2.
  pose proof (flush_wire cid q1 c1 c2 Hq1 H1 H2) as Hw2.
  exists c2. split_and!; [done|done|by apply flush_queue_ok|congruence|by etransitivity|].
  assert (Hlw : forall d, client_ok d -> zlen (wire_out d) = zlen (ic_sent d) + unsent d).
  { intros d Hd. unfold wire_out, unsent. rewrite zlen_app, zlen_drop by apply Hd.
    destruct (ic_outbuf d) eqn:Ed; [rewrite (co_empty _ Hd) by done; done|].
    pose proof (co_rest _ Hd ltac:(by rewrite Ed)). rewrite Ed in *. lia. }
  apply prefix_length in Hw1. pose proof (Hlw c (proj2 Hq cid c Hc)) as G1. pose proof (Hlw c1 Hok1) as G2.
  unfold zlen in *. lia.
Qed.

(** C22: while the kernel takes at least one byte of every block it is offered, a
    client's queued output is delivered: after enough flushing passes, one per
    64 KiB, the client is still connected and has received everything that was
    queued for it, in order. *)
Theorem output_drains n cid q c :
  queue_ok q -> accepting (q_env q) -> aget cid (q_clients q) = Some c -> pending_fits c ->
  unsent c <= Z.of_nat n * CLIENTFLUSHBYTES ->
  exists c', aget cid (q_clients (passes n cid q)) = Some c' /\ wire_out c `prefix_of` ic_sent c'.
Proof.
  intros Hq Ha Hc Hf Hn. destruct (passes_progress n cid q c Hq Ha Hc Hf) as (c' & H1 & _ & Hq' & _ & [r Hw] & Hl).
  exists c'. split; [done|]. pose proof (proj2 Hq cid c Hc) as Hok.
  assert (Hlen : zlen (wire_out c) <= zlen (ic_sent c')).
  { unfold wire_out, unsent in *. rewrite zlen_app, zlen_drop by apply Hok.
    destruct (ic_outbuf c) eqn:Ec; [rewrite (co_empty _ Hok) in * by done; change (zlen (@nil Z)) with 0 in *; lia|].
    pose proof (co_rest _ Hok ltac:(by rewrite Ec)). rewrite Ec in *. lia. }
  unfold wire_out at 1 in Hw. apply (f_equal (ztake (zlen (wire_out c)))) in Hw.
  rewrite (ztake_app_exact _ (wire_out c)) in Hw by done. rewrite <- Hw.
  unfold ztake. unfold zlen in *. rewrite take_app_le by lia.
  exists (drop (Z.to_nat (Z.of_nat (List.length (wire_out c)))) (ic_sent c')). by rewrite take_drop.
Qed.

(** ** Witnesses *)

#[local] Existing Instance ascii_unicode.

(** A client with four bytes waiting and a kernel that takes three at a time. *)
Definition demo_client : iclient := mkic [] [1; 2; 3; 4] 0 None fzero [] true fzero [].
Definition demo_env : qenv := mkqenv (fun _ => fzero) (fun _ => 0) (fun _ => SSent 3) (fun _ => true) (fun _ => true).
Definition demo_queue : queue := mkqueue [(7, demo_client)] demo_env 0 0 0.
Definition motion (x : Z) : pyval :=
  pobj [("op", PStr (lit "EVENT")); ("kind", PStr (lit "pointer")); ("x", PInt x)]%string.
Definition press : pyval := pobj [("op", PStr (lit "EVENT")); ("kind", PStr (lit "button"))]%string.

Lemma demo_queue_ok : queue_ok demo_queue.
Proof.
  split; [repeat constructor; set_solver|]. intros cid c. simpl. destruct (decide (cid = 7)); [|done].
  intros [= <-]. split; simpl; unfold zlen; simpl; lia || done.
Qed.

Lemma output_drains_witness : exists c', aget 7 (q_clients (passes 1 7 demo_queue)) = Some c' /\ [1; 2; 3; 4] `prefix_of` ic_sent c'.
Proof.
  apply (output_drains 1 7 demo_queue demo_client); [exact demo_queue_ok| |done|done|by vm_compute].
  intros n. by exists 3.
Defined.

Lemma records_delivered_witness :
  exists c sent last, aget 7 (q_clients (run_ops [OSend 7 (motion 1); OSend 7 (motion 2); OSend 7 press; OFlush 7] demo_queue)) = Some c /\
    delivered_of [1; 2; 3; 4] [motion 1; motion 2; press] c sent last.
Proof.
  eexists. edestruct (records_delivered 7 [OSend 7 (motion 1); OSend 7 (motion 2); OSend 7 press; OFlush 7] demo_queue demo_client)
    as (sent & last & H); [exact demo_queue_ok|done|done|vm_compute; reflexivity|].
  exists sent, last. split; [by vm_compute|exact H].
Defined.

Lemma queues_bounded_witness :
  exists c, aget 7 (q_clients (run_ops [OSend 7 press] demo_queue)) = Some c /\ zlen (ic_outbuf c) - ic_off c <= CLIENTOUTBUFLIMIT.
Proof.
  eexists. split; [by vm_compute|].
  eapply (queues_bounded [OSend 7 press] demo_queue 7); [exact demo_queue_ok|vm_compute; reflexivity].
Defined.

Lemma overload_drops_witness : exists q' c', sendjson 7 press demo_queue = (q', true) /\
  aget 7 (q_clients q') = Some c' /\ wire_out c' = wire_out demo_client ++ json_line press.
Proof. exact (overload_drops 7 press demo_queue demo_client demo_queue_ok eq_refl eq_refl eq_refl). Defined.
