(* ===== verification/InputKeys.v ===== *)
(** The keyboard of the input service (inputserver.py): key tables and aliases,
    modifier state, key names, characters and key events. *)

From stdpp Require Import base list strings.
From Stdlib Require Import ZArith Lia Bool String.
From S2P Require Import Prelude Assoc PyFloat PyText PyVal PyJson Exchange.
Open Scope Z_scope.

(** ** Tables *)

Definition KEYCODES : list (Z * pystr) :=
  [(1, lit "ESC"); (15, lit "TAB"); (58, lit "CAPSLOCK"); (42, lit "LSHIFT"); (54, lit "RSHIFT");
    (29, lit "LCTRL"); (97, lit "RCTRL"); (56, lit "LALT"); (100, lit "RALT"); (125, lit "LWIN");
    (126, lit "RWIN"); (139, lit "APPS"); (28, lit "ENTER"); (14, lit "BACKSPACE");
    (57, lit "SPACE"); (102, lit "HOME"); (107, lit "END"); (104, lit "PGUP"); (109, lit "PGDN");
    (110, lit "INS"); (111, lit "DELETE"); (103, lit "UP"); (108, lit "DOWN"); (105, lit "LEFT");
    (106, lit "RIGHT"); (99, lit "PRTSCR"); (119, lit "PAUSE"); (70, lit "SCROLLLOCK");
    (69, lit "NUMLOCK"); (59, lit "F1"); (60, lit "F2"); (61, lit "F3"); (62, lit "F4");
    (63, lit "F5"); (64, lit "F6"); (65, lit "F7"); (66, lit "F8"); (67, lit "F9"); (68, lit "F10");
    (87, lit "F11"); (88, lit "F12"); (183, lit "F13"); (184, lit "F14"); (185, lit "F15");
    (186, lit "F16"); (187, lit "F17"); (188, lit "F18"); (189, lit "F19"); (190, lit "F20");
    (191, lit "F21"); (192, lit "F22"); (193, lit "F23"); (194, lit "F24"); (82, lit "NUMPAD0");
    (79, lit "NUMPAD1"); (80, lit "NUMPAD2"); (81, lit "NUMPAD3"); (75, lit "NUMPAD4");
    (76, lit "NUMPAD5"); (77, lit "NUMPAD6"); (71, lit "NUMPAD7"); (72, lit "NUMPAD8");
    (73, lit "NUMPAD9"); (83, lit "NUMPADDOT"); (78, lit "NUMPADPLUS"); (74, lit "NUMPADMINUS");
    (55, lit "NUMPADMUL"); (98, lit "NUMPADDIV"); (96, lit "NUMPADENTER"); (117, lit "NUMPADEQUAL");
    (118, lit "NUMPADPLUSMINUS"); (121, lit "NUMPADCOMMA"); (95, lit "NUMPADJPCOMMA");
    (179, lit "NUMPADLPAREN"); (180, lit "NUMPADRPAREN"); (113, lit "MUTE"); (114, lit "VOLDOWN");
    (115, lit "VOLUP"); (164, lit "PLAYPAUSE"); (200, lit "PLAYPAUSE"); (201, lit "PLAYPAUSE");
    (207, lit "PLAYPAUSE"); (166, lit "STOP"); (163, lit "NEXT"); (165, lit "PREV");
    (167, lit "RECORD"); (168, lit "REWIND"); (208, lit "FASTFORWARD"); (150, lit "BROWSER");
    (172, lit "HOMEPAGE"); (173, lit "REFRESH"); (158, lit "BROWSERBACK");
    (159, lit "BROWSERFORWARD"); (217, lit "SEARCH"); (155, lit "MAIL"); (157, lit "MYCOMPUTER");
    (140, lit "CALC"); (142, lit "SLEEP"); (143, lit "WAKE"); (116, lit "POWER");
    (210, lit "PRINT"); (234, lit "SAVE"); (134, lit "OPEN"); (133, lit "COPY"); (135, lit "PASTE");
    (137, lit "CUT"); (131, lit "UNDO"); (182, lit "REDO"); (136, lit "FIND"); (138, lit "HELP");
    (224, lit "BRIGHTDOWN"); (225, lit "BRIGHTUP"); (228, lit "KBDLITTOGGLE");
    (229, lit "KBDLITDOWN"); (230, lit "KBDLITUP"); (240, lit "UNKNOWN")].

Definition KEYLETTERS : list (Z * pystr) :=
  [(30, lit "A"); (48, lit "B"); (46, lit "C"); (32, lit "D"); (18, lit "E"); (33, lit "F");
    (34, lit "G"); (35, lit "H"); (23, lit "I"); (36, lit "J"); (37, lit "K"); (38, lit "L");
    (50, lit "M"); (49, lit "N"); (24, lit "O"); (25, lit "P"); (16, lit "Q"); (19, lit "R");
    (31, lit "S"); (20, lit "T"); (22, lit "U"); (47, lit "V"); (17, lit "W"); (45, lit "X");
    (21, lit "Y"); (44, lit "Z")].

Definition KEYPRINTABLE : list (Z * pystr) :=
  [(2, lit "1"); (3, lit "2"); (4, lit "3"); (5, lit "4"); (6, lit "5"); (7, lit "6"); (8, lit "7");
    (9, lit "8"); (10, lit "9"); (11, lit "0"); (12, lit "-"); (13, lit "="); (26, lit "[");
    (27, lit "]"); (43, lit "\"); (39, lit ";"); (40, lit "'"); (41, lit "`"); (51, lit ",");
    (52, lit "."); (53, lit "/")].

Definition SHIFTED : list (pystr * pystr) :=
  [(lit "1", lit "!"); (lit "2", lit "@"); (lit "3", lit "#"); (lit "4", lit "$");
    (lit "5", lit "%"); (lit "6", lit "^"); (lit "7", lit "&"); (lit "8", lit "*");
    (lit "9", lit "("); (lit "0", lit ")"); (lit "-", lit "_"); (lit "=", lit "+");
    (lit "[", lit "{"); (lit "]", lit "}"); (lit "\", lit "|"); (lit ";", lit ":"); (lit "'", [34]);
    (lit ",", lit "<"); (lit ".", lit ">"); (lit "/", lit "?"); (lit "`", lit "~")].

Definition ALIASGROUPS : list (pystr * list pystr) :=
  [(lit "ESC", [lit "ESC"; lit "ESCAPE"; lit "VK_ESCAPE"; lit "<ESC>"; lit "<ESCAPE>"]);
    (lit "ENTER", [lit "ENTER"; lit "RETURN"; lit "VK_RETURN"; lit "<ENTER>"; lit "<RETURN>"]);
    (lit "TAB", [lit "TAB"; lit "VK_TAB"; lit "<TAB>"]);
    (lit "BACKSPACE", [lit "BACKSPACE"; lit "BKSP"; lit "VK_BACK"; lit "<BACKSPACE>"]);
    (lit "SPACE", [lit "SPACE"; lit "SPACEBAR"; lit "VK_SPACE"; lit "<SPACE>"]);
    (lit "DELETE", [lit "DELETE"; lit "DEL"; lit "VK_DELETE"; lit "<DEL>"; lit "<DELETE>"]);
    (lit "INS", [lit "INS"; lit "INSERT"; lit "VK_INSERT"; lit "<INS>"; lit "<INSERT>"]);
    (lit "HOME", [lit "HOME"; lit "VK_HOME"; lit "<HOME>"]);
    (lit "END", [lit "END"; lit "VK_END"; lit "<END>"]);
    (lit "PGUP", [lit "PGUP"; lit "PAGEUP"; lit "PRIOR"; lit "VK_PRIOR"; lit "<PGUP>"]);
    (lit "PGDN", [lit "PGDN"; lit "PAGEDOWN"; lit "NEXT"; lit "VK_NEXT"; lit "<PGDN>"]);
    (lit "UP", [lit "UP"; lit "ARROWUP"; lit "VK_UP"; lit "<UP>"]);
    (lit "DOWN", [lit "DOWN"; lit "ARROWDOWN"; lit "VK_DOWN"; lit "<DOWN>"]);
    (lit "LEFT", [lit "LEFT"; lit "ARROWLEFT"; lit "VK_LEFT"; lit "<LEFT>"]);
    (lit "RIGHT", [lit "RIGHT"; lit "ARROWRIGHT"; lit "VK_RIGHT"; lit "<RIGHT>"]);
    (lit "LSHIFT", [lit "LSHIFT"; lit "LEFTSHIFT"]);
    (lit "RSHIFT", [lit "RSHIFT"; lit "RIGHTSHIFT"]);
    (lit "LCTRL", [lit "LCTRL"; lit "LEFTCTRL"; lit "LCONTROL"; lit "LEFTCONTROL"]);
    (lit "RCTRL", [lit "RCTRL"; lit "RIGHTCTRL"; lit "RCONTROL"; lit "RIGHTCONTROL"]);
    (lit "LALT", [lit "LALT"; lit "LEFTALT"]);
    (lit "RALT", [lit "RALT"; lit "RIGHTALT"; lit "ALTGR"; lit "RIGHTALTGR"]);
    (lit "LWIN", [lit "LWIN"; lit "LEFTWIN"; lit "LGUI"; lit "LEFTMETA"; lit "LEFTSUPER"]);
    (lit "RWIN", [lit "RWIN"; lit "RIGHTWIN"; lit "RGUI"; lit "RIGHTMETA"; lit "RIGHTSUPER"]);
    (lit "APPS", [lit "APPS"; lit "MENU"; lit "CONTEXT"; lit "CONTEXTMENU"; lit "VK_APPS"]);
    (lit "CAPSLOCK", [lit "CAPSLOCK"; lit "CAPS"; lit "VK_CAPITAL"]);
    (lit "NUMLOCK", [lit "NUMLOCK"; lit "VK_NUMLOCK"]);
    (lit "SCROLLLOCK", [lit "SCROLLLOCK"; lit "SCROLL"; lit "VK_SCROLL"]);
    (lit "PRTSCR", [lit "PRTSCR"; lit "PRTSC"; lit "PRINTSCREEN"; lit "VK_SNAPSHOT"]);
    (lit "PAUSE", [lit "PAUSE"; lit "BREAK"; lit "VK_PAUSE"])].

Definition KEY_LEFTSHIFT : Z := 42.
Definition KEY_RIGHTSHIFT : Z := 54.
Definition KEY_LEFTCTRL : Z := 29.
Definition KEY_RIGHTCTRL : Z := 97.
Definition KEY_LEFTALT : Z := 56.
Definition KEY_RIGHTALT : Z := 100.
Definition KEY_LEFTMETA : Z := 125.
Definition KEY_RIGHTMETA : Z := 126.
Definition KEY_CAPSLOCK : Z := 58.
Definition KEY_NUMLOCK : Z := 69.
Definition KEY_SCROLLLOCK : Z := 70.

(** ** Aliases *)

Section Keys.
Context {U : PyUnicode}.

(** The assignments of the alias loops, in their order: a later one wins. *)
Definition alias_entries : list (pystr * pystr) :=
  List.concat (List.map (fun g => List.map (fun n => (uc_upper n, g.1)) g.2) ALIASGROUPS) ++
  List.map (fun e => (uc_upper e.2, e.2)) KEYLETTERS ++
  List.concat (List.map (fun e => [(e.2, e.2); (uc_upper e.2, e.2)]) KEYPRINTABLE) ++
  List.map (fun e => (e.2, e.2)) SHIFTED ++
  List.concat (List.map (fun i => let f := lit "F" ++ int_str (Z.of_nat i) in
    [(f, f); (lit "VK_" ++ f, f)]) (seq 1 24)).

Definition ALIASES : list (pystr * pystr) :=
  fold_left (fun d e => aset e.1 e.2 d) alias_entries [].

Definition normkey (ref : pystr) : option pystr :=
  match ref with
  | [] => None
  | _ => aget (strip (uc_upper ref)) ALIASES
  end.

(** ** Modifiers *)

Record mods : Type := mkmods {
  m_lshift : bool; m_rshift : bool; m_lctrl : bool; m_rctrl : bool; m_lalt : bool; m_ralt : bool;
  m_lwin : bool; m_rwin : bool; m_caps : bool; m_num : bool; m_scroll : bool }.

Definition mods0 : mods := mkmods false false false false false false false false false false false.

(** The combined state a record carries. *)
Record modview : Type := mkmodview {
  mv_shift : bool; mv_ctrl : bool; mv_alt : bool; mv_win : bool; mv_caps : bool; mv_num : bool; mv_scroll : bool }.

Definition modstate (m : mods) : modview :=
  mkmodview (m_lshift m || m_rshift m) (m_lctrl m || m_rctrl m) (m_lalt m || m_ralt m)
    (m_lwin m || m_rwin m) (m_caps m) (m_num m) (m_scroll m).

Definition modstate_dict (v : modview) : pyval := pobj
  [("shift", PBool (mv_shift v)); ("ctrl", PBool (mv_ctrl v)); ("alt", PBool (mv_alt v));
   ("win", PBool (mv_win v)); ("caps", PBool (mv_caps v)); ("num", PBool (mv_num v));
   ("scroll", PBool (mv_scroll v))]%string.

(** A press ([1]) toggles a lock; any non-zero value (a press or a repeat) holds a
    modifier. *)
Definition updatemods (code value : Z) (m : mods) : mods :=
  let '(mkmods ls rs lc rc la ra lw rw ca nu sc) := m in
  let pressed := negb (value =? 0) in
  if code =? KEY_LEFTSHIFT then mkmods pressed rs lc rc la ra lw rw ca nu sc
  else if code =? KEY_RIGHTSHIFT then mkmods ls pressed lc rc la ra lw rw ca nu sc
  else if code =? KEY_LEFTCTRL then mkmods ls rs pressed rc la ra lw rw ca nu sc
  else if code =? KEY_RIGHTCTRL then mkmods ls rs lc pressed la ra lw rw ca nu sc
  else if code =? KEY_LEFTALT then mkmods ls rs lc rc pressed ra lw rw ca nu sc
  else if code =? KEY_RIGHTALT then mkmods ls rs lc rc la pressed lw rw ca nu sc
  else if code =? KEY_LEFTMETA then mkmods ls rs lc rc la ra pressed rw ca nu sc
  else if code =? KEY_RIGHTMETA then mkmods ls rs lc rc la ra lw pressed ca nu sc
  else if (code =? KEY_CAPSLOCK) && (value =? 1) then mkmods ls rs lc rc la ra lw rw (negb ca) nu sc
  else if (code =? KEY_NUMLOCK) && (value =? 1) then mkmods ls rs lc rc la ra lw rw ca (negb nu) sc
  else if (code =? KEY_SCROLLLOCK) && (value =? 1) then mkmods ls rs lc rc la ra lw rw ca nu (negb sc)
  else m.

(** ** Names and characters *)

Definition keyname (code : Z) : pystr :=
  match aget code KEYCODES with
  | Some n => n
  | None =>
      match aget code KEYLETTERS with
      | Some n => n
      | None =>
          match aget code KEYPRINTABLE with
          | Some n => n
          | None => lit "KEY_" ++ int_str code
          end
      end
  end.

(** The names are those of [keyname], whose one-character names are ASCII. *)
Definition keychar (name : pystr) (v : modview) : option pystr :=
  match name with
  | [] => None
  | _ =>
      if (zlen name =? 1) && forallb ascii_alpha name then
        let ch := uc_lower name in
        let ch := if mv_caps v then uc_upper ch else ch in
        Some (if mv_shift v then uc_upper ch else ch)
      else if existsb (fun e => bool_decide (e.2 = name)) KEYPRINTABLE then
        Some (if mv_shift v then default name (aget name SHIFTED) else name)
      else if bool_decide (name = lit "SPACE") then Some (lit " ")
      else None
  end.

(** ** Events *)

Definition keystate (value : Z) : pystr :=
  if value =? 0 then lit "up" else if value =? 1 then lit "down" else lit "repeat".

(** The record of a key event, with the modifiers after it. *)
Definition keyevent (code value : Z) (m : mods) : mods * pydict :=
  let m := updatemods code value m in
  (m, pdict
    [("op", PStr (lit "EVENT")); ("kind", PStr (lit "key")); ("code", PInt code);
     ("key", PStr (keyname code)); ("state", PStr (keystate value));
     ("mods", modstate_dict (modstate m))]%string).

Definition textevent (ch : pystr) (v : modview) : pydict := pdict
  [("op", PStr (lit "EVENT")); ("kind", PStr (lit "text")); ("text", PStr ch);
   ("mods", modstate_dict v)]%string.

(** The character of a key press, when no shortcut modifier is held. *)
Definition keytext (code value : Z) (m : mods) : option pystr :=
  let v := modstate m in
  if negb (value =? 1) then None
  else if mv_ctrl v || mv_alt v then None
  else match keychar (keyname code) v with Some ((_ :: _) as ch) => Some ch | _ => None end.
End Keys.
