(* ===== verification/InputPointer.v ===== *)
(** The pointer of the input service (inputserver.py): speed scaling with a carried
    remainder, absolute devices, high-resolution wheels, clamping to the screen,
    and the saved position. *)

From stdpp Require Import base list strings.
From Stdlib Require Import ZArith Lia Bool String.
From S2P Require Import Prelude Assoc PyFloat FloatFacts PyText PyVal PyJson Exchange PyStr.
Open Scope Z_scope.

(** ** Event codes *)

Definition EV_KEY : Z := 1.
Definition EV_REL : Z := 2.
Definition EV_ABS : Z := 3.
Definition REL_X : Z := 0.
Definition REL_Y : Z := 1.
Definition REL_HWHEEL : Z := 6.
Definition REL_WHEEL : Z := 8.
Definition REL_WHEELHI : Z := 11.
Definition REL_HWHEELHI : Z := 12.
Definition ABS_X : Z := 0.
Definition ABS_Y : Z := 1.
Definition ABS_MT_POSITION_X : Z := 53.
Definition ABS_MT_POSITION_Y : Z := 54.
Definition BTN_LEFT : Z := 272.
Definition BTN_TOUCH : Z := 330.
Definition BTN_STYLUS : Z := 331.
Definition BTN_STYLUS2 : Z := 332.

(** BTN_LEFT, RIGHT, MIDDLE, SIDE, EXTRA, FORWARD and BACK. *)
Definition plain_buttons : list Z := [272; 273; 274; 275; 276; 277; 278].

(** ** State *)

(** [_MOUSEABS]: not set, the ranges probed when the device was opened, or the
    flag [emitmouse] stores. *)
Inductive mouseabs : Type := MNone | MFlag (b : bool) | MRange (xmin xmax ymin ymax : Z).

Definition abs_truthy (a : mouseabs) : bool :=
  match a with MNone => false | MFlag b => b | MRange _ _ _ _ => true end.

(** The screen, the pointer, the wheel totals and their high-resolution
    remainders, the last absolute coordinates, the speed and its remainders, the
    descriptors of the movement, button and wheel devices, and whether the
    position is to be saved. *)
Record ptr : Type := mkptr {
  p_w : Z; p_h : Z; p_x : Z; p_y : Z;
  p_scrollx : Z; p_scrolly : Z; p_hix : Z; p_hiy : Z;
  p_lastx : option Z; p_lasty : option Z;
  p_speed : pyfloat; p_remx : pyfloat; p_remy : pyfloat;
  p_abs : mouseabs; p_hasleft : bool;
  p_fd : option Z; p_btnfd : option Z; p_wheelfd : option Z;
  p_dirty : bool }.

Definition set_screen (w h : Z) (p : ptr) : ptr :=
  mkptr w h (p_x p) (p_y p) (p_scrollx p) (p_scrolly p) (p_hix p) (p_hiy p) (p_lastx p) (p_lasty p)
    (p_speed p) (p_remx p) (p_remy p) (p_abs p) (p_hasleft p) (p_fd p) (p_btnfd p) (p_wheelfd p) (p_dirty p).
Definition set_pos (x y : Z) (p : ptr) : ptr :=
  mkptr (p_w p) (p_h p) x y (p_scrollx p) (p_scrolly p) (p_hix p) (p_hiy p) (p_lastx p) (p_lasty p)
    (p_speed p) (p_remx p) (p_remy p) (p_abs p) (p_hasleft p) (p_fd p) (p_btnfd p) (p_wheelfd p) (p_dirty p).
Definition set_scroll (x y : Z) (p : ptr) : ptr :=
  mkptr (p_w p) (p_h p) (p_x p) (p_y p) x y (p_hix p) (p_hiy p) (p_lastx p) (p_lasty p)
    (p_speed p) (p_remx p) (p_remy p) (p_abs p) (p_hasleft p) (p_fd p) (p_btnfd p) (p_wheelfd p) (p_dirty p).
Definition set_hi (x y : Z) (p : ptr) : ptr :=
  mkptr (p_w p) (p_h p) (p_x p) (p_y p) (p_scrollx p) (p_scrolly p) x y (p_lastx p) (p_lasty p)
    (p_speed p) (p_remx p) (p_remy p) (p_abs p) (p_hasleft p) (p_fd p) (p_btnfd p) (p_wheelfd p) (p_dirty p).
Definition set_last (x y : option Z) (p : ptr) : ptr :=
  mkptr (p_w p) (p_h p) (p_x p) (p_y p) (p_scrollx p) (p_scrolly p) (p_hix p) (p_hiy p) x y
    (p_speed p) (p_remx p) (p_remy p) (p_abs p) (p_hasleft p) (p_fd p) (p_btnfd p) (p_wheelfd p) (p_dirty p).
Definition set_speed (s x y : pyfloat) (p : ptr) : ptr :=
  mkptr (p_w p) (p_h p) (p_x p) (p_y p) (p_scrollx p) (p_scrolly p) (p_hix p) (p_hiy p) (p_lastx p) (p_lasty p)
    s x y (p_abs p) (p_hasleft p) (p_fd p) (p_btnfd p) (p_wheelfd p) (p_dirty p).
Definition set_abs (a : mouseabs) (p : ptr) : ptr :=
  mkptr (p_w p) (p_h p) (p_x p) (p_y p) (p_scrollx p) (p_scrolly p) (p_hix p) (p_hiy p) (p_lastx p) (p_lasty p)
    (p_speed p) (p_remx p) (p_remy p) a (p_hasleft p) (p_fd p) (p_btnfd p) (p_wheelfd p) (p_dirty p).
Definition set_posdirty (b : bool) (p : ptr) : ptr :=
  mkptr (p_w p) (p_h p) (p_x p) (p_y p) (p_scrollx p) (p_scrolly p) (p_hix p) (p_hiy p) (p_lastx p) (p_lasty p)
    (p_speed p) (p_remx p) (p_remy p) (p_abs p) (p_hasleft p) (p_fd p) (p_btnfd p) (p_wheelfd p) b.

(** An exception leaves the assignments made before it. *)
Definition PM (A : Type) : Type := ptr -> ptr * res A.
#[export] Instance pm_ret : MRet PM := fun A a p => (p, Ok a).
#[export] Instance pm_bind : MBind PM := fun A B f m p =>
  match m p with (p', Ok a) => f a p' | (p', Exc e) => (p', Exc e) end.
Definition pget {A} (f : ptr -> A) : PM A := fun p => (p, Ok (f p)).
Definition pset (f : ptr -> ptr) : PM unit := fun p => (f p, Ok tt).
Definition plift {A} (r : res A) : PM A := fun p => (p, r).

Section Pointer.
Context {U : PyUnicode}.

(** ** Speed *)

Definition normalizedpointerspeed (value : pyval) : res pyfloat :=
  speed ← match py_float value with
          | Exc TypeError | Exc ValueError => Ok fone
          | r => r
          end;
  let speed := if negb (feqb speed speed) then fone else speed in
  Ok (fmax2 (fdecimal 25 (-2)) (fmin2 (fdecimal 20 (-1)) speed)).

Definition scalepointerdelta (delta : Z) (speed remainder : pyfloat) : res (Z * pyfloat) :=
  d ← float_of_int delta;
  s ← normalizedpointerspeed (PFloat speed);
  let scaled := fadd (fmul d s) remainder in
  movement ← int_of_float scaled;
  m ← float_of_int movement;
  Ok (movement, fsub scaled m).

(** ** The screen *)

Definition clamppointer (p : ptr) : ptr :=
  let x := if p_x p <? 0 then 0 else p_x p in
  let y := if p_y p <? 0 then 0 else p_y p in
  let x := if negb (p_w p =? 0) && (p_w p - 1 <? x) then p_w p - 1 else x in
  let y := if negb (p_h p =? 0) && (p_h p - 1 <? y) then p_h p - 1 else y in
  set_pos x y p.

Definition schedulepointerpossave (p : ptr) : ptr := set_posdirty true p.

(** ** Devices *)

Definition mapbutton (hasleft : bool) (code : Z) : option Z :=
  if code =? BTN_TOUCH then (if hasleft then None else Some BTN_LEFT)
  else if (code =? BTN_STYLUS) || (code =? BTN_STYLUS2) then Some BTN_LEFT
  else if existsb (Z.eqb code) plain_buttons then Some code
  else None.

(** One event of a batch: descriptor, type, code and value. *)
Record mev : Type := mkmev { e_fd : Z; e_type : Z; e_code : Z; e_value : Z }.

(** What [emitmouse] gathers from a batch. *)
Record agg : Type := mkagg {
  g_dx : Z; g_dy : Z; g_absx : option Z; g_absy : option Z;
  g_buttons : list (Z * pystr); g_sx : Z; g_sy : Z }.
Definition agg0 : agg := mkagg 0 0 None None [] 0 0.

(** A high-resolution wheel event: whole notches of 120 units and the rest. *)
Definition hires (value acc scroll : Z) : res (Z * Z) :=
  let acc := acc + value in
  if (120 <=? acc) || (acc <=? -120) then
    q ← int_truediv acc 120;
    step ← int_of_float q;
    Ok (acc - step * 120, scroll + step)
  else Ok (acc, scroll).

Definition fd_is (fd : option Z) (z : Z) : bool := match fd with Some f => z =? f | None => false end.

Definition rel_event (movefd wheelfd : option Z) (e : mev) (g : agg) : PM agg :=
  let code := e_code e in
  let value := e_value e in
  let '(mkagg dx dy ax ay bs sx sy) := g in
  if ((code =? REL_X) || (code =? REL_Y)) && negb (fd_is movefd (e_fd e)) then mret g
  else if ((code =? REL_WHEEL) || (code =? REL_HWHEEL) || (code =? REL_WHEELHI) || (code =? REL_HWHEELHI))
          && negb (fd_is wheelfd (e_fd e)) then mret g
  else if code =? REL_X then mret (mkagg (dx + value) dy ax ay bs sx sy)
  else if code =? REL_Y then mret (mkagg dx (dy + value) ax ay bs sx sy)
  else if code =? REL_HWHEEL then mret (mkagg dx dy ax ay bs (sx + value) sy)
  else if code =? REL_WHEEL then mret (mkagg dx dy ax ay bs sx (sy + value))
  else if code =? REL_HWHEELHI then
    acc ← pget p_hix;
    pset (fun p => set_hi (acc + value) (p_hiy p) p);;
    r ← plift (hires value acc sx);
    pset (fun p => set_hi r.1 (p_hiy p) p);;
    mret (mkagg dx dy ax ay bs r.2 sy)
  else if code =? REL_WHEELHI then
    acc ← pget p_hiy;
    pset (fun p => set_hi (p_hix p) (acc + value) p);;
    r ← plift (hires value acc sy);
    pset (fun p => set_hi (p_hix p) r.1 p);;
    mret (mkagg dx dy ax ay bs sx r.2)
  else mret g.

Definition abs_event (movefd : option Z) (e : mev) (g : agg) : agg :=
  let '(mkagg dx dy ax ay bs sx sy) := g in
  if negb (fd_is movefd (e_fd e)) then g
  else if (e_code e =? ABS_X) || (e_code e =? ABS_MT_POSITION_X) then mkagg dx dy (Some (e_value e)) ay bs sx sy
  else if (e_code e =? ABS_Y) || (e_code e =? ABS_MT_POSITION_Y) then mkagg dx dy ax (Some (e_value e)) bs sx sy
  else g.

Definition key_event (hasleft : bool) (btnfd : option Z) (e : mev) (g : agg) : agg :=
  let '(mkagg dx dy ax ay bs sx sy) := g in
  if negb (fd_is btnfd (e_fd e)) then g
  else
    match mapbutton hasleft (e_code e) with
    | Some b =>
        if e_value e =? 1 then mkagg dx dy ax ay (bs ++ [(b, lit "down")]) sx sy
        else if e_value e =? 0 then mkagg dx dy ax ay (bs ++ [(b, lit "up")]) sx sy
        else g
    | None => g
    end.

Fixpoint gather (hasleft : bool) (movefd btnfd wheelfd : option Z) (evs : list mev) (g : agg) : PM agg :=
  match evs with
  | [] => mret g
  | e :: evs' =>
      g ← (if e_type e =? EV_REL then rel_event movefd wheelfd e g
           else if e_type e =? EV_ABS then mret (abs_event movefd e g)
           else if e_type e =? EV_KEY then mret (key_event hasleft btnfd e g)
           else mret g);
      gather hasleft movefd btnfd wheelfd evs' g
  end.

(** The ranges of the absolute device, as far as they are known. *)
Definition mouse_range (a : mouseabs) : Z * Z * Z * Z :=
  match a with MRange x0 x1 y0 y1 => (x0, x1, y0, y1) | _ => (0, 65535, 0, 65535) end.

(** The clipped ratio of a coordinate in its range; [None]: no coordinate yet. *)
Definition abs_ratio (v : option Z) (lo hi : Z) : res pyfloat :=
  match v with
  | None => Exc TypeError
  | Some v =>
      n ← float_of_int (v - lo);
      d ← float_of_int (if hi - lo <=? 0 then 1 else hi - lo);
      r ← fdiv n d;
      Ok r
  end.

Definition clip01 (r : pyfloat) : pyfloat :=
  let r := if flt r fzero then fzero else r in
  if fgt r fone then fone else r.

Definition screen_at (r : pyfloat) (size : Z) : res Z :=
  s ← float_of_int (size - 1);
  int_of_float (fmul r s).

(** An absolute position: both coordinates, the one the batch did not bring taken
    from the last batch. *)
Definition move_absolute (absx absy : option Z) : PM unit :=
  pset (fun p => set_last (match absx with Some _ => absx | None => p_lastx p end)
                   (match absy with Some _ => absy | None => p_lasty p end) p);;
  lx ← pget p_lastx;
  ly ← pget p_lasty;
  a ← pget p_abs;
  let '(xmin, xmax, ymin, ymax) := mouse_range a in
  xr ← plift (abs_ratio lx xmin xmax);
  yr ← plift (abs_ratio ly ymin ymax);
  w ← pget p_w;
  x ← plift (screen_at (clip01 xr) w);
  pset (fun p => set_pos x (p_y p) p);;
  h ← pget p_h;
  y ← plift (screen_at (clip01 yr) h);
  pset (fun p => set_pos (p_x p) y p).

(** A relative movement, scaled; the movement made. *)
Definition move_relative (dx dy : Z) : PM (Z * Z) :=
  if negb (dx =? 0) || negb (dy =? 0) then
    s ← pget p_speed;
    rx ← pget p_remx;
    x ← plift (scalepointerdelta dx s rx);
    pset (fun p => set_speed (p_speed p) x.2 (p_remy p) p);;
    s ← pget p_speed;
    ry ← pget p_remy;
    y ← plift (scalepointerdelta dy s ry);
    pset (fun p => set_speed (p_speed p) (p_remx p) y.2 p);;
    mret (x.1, y.1)
  else mret (0, 0).

(** The movement of a batch: whether the pointer moved, by how much, and whether
    the position was absolute. *)
Definition move (g : agg) : PM (bool * Z * Z * bool) :=
  r ← (match g_absx g, g_absy g with
       | None, None =>
           d ← move_relative (g_dx g) (g_dy g);
           let '(dx, dy) := d in
           if negb (dx =? 0) || negb (dy =? 0) then
             pset (fun p => set_pos (p_x p + dx) (p_y p + dy) p);; mret (true, dx, dy, false)
           else mret (false, dx, dy, false)
       | _, _ => move_absolute (g_absx g) (g_absy g);; mret (true, 0, 0, true)
       end);
  let '(moved, _, _, _) := r in
  (if moved : bool then pset clamppointer else mret tt);;
  mret r.

(** ** The saved position *)

(** [s.split(',')] *)
Definition split_comma (s : pystr) : list pystr := split_on 44 s.

(** [file]: the text of the position file, [None] when it is missing or cannot be
    read.  The horizontal coordinate is assigned before the other is read. *)
Definition loadpointerpos (file : option pystr) (p : ptr) : ptr :=
  match file with
  | None => p
  | Some txt =>
      match split_comma (strip txt) with
      | [a; b] =>
          match int_of_str a with
          | Exc _ => p
          | Ok x =>
              let p := set_pos x (p_y p) p in
              match int_of_str b with
              | Exc _ => p
              | Ok y => clamppointer (set_pos x y p)
              end
          end
      | _ => p
      end
  end.

Definition postext (p : ptr) : pystr := int_str (p_x p) ++ [44] ++ int_str (p_y p).
End Pointer.
