(* ===== verification/InputServer.v ===== *)
(** The input service (inputserver.py): requests of the window server, events of
    the keyboard and the pointer turned into records and broadcast, and one turn
    of the main loop. *)

From stdpp Require Import base list strings.
From Stdlib Require Import ZArith Lia Bool String.
From S2P Require Import Prelude Assoc PyFloat FloatFacts PyText PyVal PyJson Exchange InputQueue InputKeys InputPointer.
Open Scope Z_scope.

(** The queues, the modifiers, the pointer, the file of the saved position and the
    time of its last writing ([POINTERSAVELAST]). *)
Record inp : Type := mkinp { i_q : queue; i_mods : mods; i_ptr : ptr; i_file : option pystr; i_savelast : pyfloat }.

Definition set_q (q : queue) (i : inp) : inp := mkinp q (i_mods i) (i_ptr i) (i_file i) (i_savelast i).
Definition set_mods (m : mods) (i : inp) : inp := mkinp (i_q i) m (i_ptr i) (i_file i) (i_savelast i).
Definition set_ptr (p : ptr) (i : inp) : inp := mkinp (i_q i) (i_mods i) p (i_file i) (i_savelast i).
Definition set_file (f : option pystr) (i : inp) : inp := mkinp (i_q i) (i_mods i) (i_ptr i) f (i_savelast i).
Definition set_savelast (t : pyfloat) (i : inp) : inp := mkinp (i_q i) (i_mods i) (i_ptr i) (i_file i) t.

Definition RAWINPUTSUBSCRIPTIONS : list pystr :=
  [lit "pointer"; lit "button"; lit "scroll"; lit "key"; lit "text"].

Section InputServer.
Context {U : PyUnicode}.
(** The order in which a set of strings is listed. *)
Context (set_order : list pystr -> list pystr).

(** ** Identity *)

(** The check is repeated every half second; [qe_alive] is what it finds. *)
Definition rawinputclientalive (cid : Z) (q : queue) : queue * bool :=
  match aget cid (q_clients q) with
  | None => (q, false)
  | Some c =>
      let '(q, now) := look qe_mono q in
      if flt now (ic_check c) then (q, true)
      else
        let '(q, alive) := look qe_alive q in
        (put cid (set_check (fadd now (fdecimal 5 (-1))) c) q, alive)
  end.

(** ** Broadcasting *)

(** The record, stamped once, for every client that subscribed to its kind. *)
Fixpoint broadcast_to (cids : list Z) (ev : pydict) (kind : pystr) (q : queue) : queue :=
  match cids with
  | [] => q
  | cid :: cids' =>
      let '(q, alive) := rawinputclientalive cid q in
      let q :=
        if negb alive then dropclient cid q
        else
          match aget cid (q_clients q) with
          | Some c => if existsb (str_eqb kind) (ic_subs c) then (sendjson cid (PDict ev) q).1 else q
          | None => q
          end in
      broadcast_to cids' ev kind q
  end.

Definition stamp : string := "source_monotonic_ns".

Definition broadcastevent (ev : pydict) (kind : string) (q : queue) : queue :=
  let '(q, ev) :=
    if dict_mem (lit stamp) ev then (q, ev)
    else let '(q, ns) := look qe_ns q in (q, dict_set (lit stamp) (PInt ns) ev) in
  broadcast_to (List.map fst (q_clients q)) ev (lit kind) q.

(** ** Requests *)

Definition err (reason : pystr) : pyval :=
  pobj [("op", PStr (lit "ERROR")); ("reason", PStr reason)]%string.

Definition reply (cid : Z) (obj : pyval) (i : inp) : inp := set_q (sendjson cid obj (i_q i)).1 i.

(** The set of the requested types, or why it is refused. *)
Definition requested_types (msg : pydict) : pystr + list pystr :=
  match dict_get_def (lit "types") (PList []) msg with
  | PList l =>
      let req := remove_dups (List.map py_str l) in
      if forallb (fun t => bool_decide (t ∈ RAWINPUTSUBSCRIPTIONS)) req then inr req
      else inl (lit "unsupported raw input subscription")
  | _ => inl (lit "types must be list")
  end.

Definition ok_subs (subs : list pystr) : pyval :=
  pobj [("op", PStr (lit "OK")); ("subs", PList (List.map PStr (set_order subs)))]%string.

(** The current position, sent to a new subscriber. *)
Definition sync_event (p : ptr) (ns : Z) : pyval := pobj
  [("op", PStr (lit "EVENT")); ("kind", PStr (lit "pointer")); ("x", PInt (p_x p)); ("y", PInt (p_y p));
   ("dx", PInt 0); ("dy", PInt 0); ("abs", PBool (abs_truthy (p_abs p))); ("sync", PBool true);
   ("source_monotonic_ns", PInt ns)]%string.

Definition handle_subscribe (cid : Z) (msg : pydict) (i : inp) : inp :=
  match requested_types msg with
  | inl reason => reply cid (err reason) i
  | inr req =>
      match aget cid (q_clients (i_q i)) with
      | None => i
      | Some c =>
          let i := set_q (put cid (set_subs req c) (i_q i)) i in
          let i := if existsb (str_eqb (lit "pointer")) req
                   then let '(q, ns) := look qe_ns (i_q i) in
                        set_q (sendjson cid (sync_event (i_ptr i) ns) q).1 i
                   else i in
          reply cid (ok_subs req) i
      end
  end.

Definition applysubscriptions (cid : Z) (msg : pydict) (i : inp) : inp :=
  match aget cid (q_clients (i_q i)) with
  | None => i
  | Some c =>
      match requested_types msg with
      | inl reason => reply cid (err reason) i
      | inr req => reply cid (ok_subs req) (set_q (put cid (set_subs req c) (i_q i)) i)
      end
  end.

(** The pointer on a screen of the given size. *)
Definition resize (w h : Z) (p : ptr) : ptr :=
  let w := if w <? 1 then 1 else w in
  let h := if h <? 1 then 1 else h in
  let x := if p_x p <? 0 then 0 else p_x p in
  let y := if p_y p <? 0 then 0 else p_y p in
  let x := if w <=? x then w - 1 else x in
  let y := if h <=? y then h - 1 else y in
  schedulepointerpossave (set_last None None (set_pos x y (set_screen w h p))).

Definition handle_fbsize (cid : Z) (msg : pydict) (i : inp) : inp :=
  match (w ← py_int (dict_get_def (lit "w") (PInt (p_w (i_ptr i))) msg);
         h ← py_int (dict_get_def (lit "h") (PInt (p_h (i_ptr i))) msg);
         Ok (w, h)) with
  | Exc _ => reply cid (err (lit "bad fbsize")) i
  | Ok (w, h) =>
      let p := resize w h (i_ptr i) in
      reply cid (pobj [("op", PStr (lit "OK")); ("fbsize", PList [PInt (p_w p); PInt (p_h p)])]%string)
        (set_ptr p i)
  end.

Definition handle_speed (cid : Z) (msg : pydict) (i : inp) : inp :=
  match normalizedpointerspeed (dict_get_def (lit "speed") (PFloat fone) msg) with
  | Exc _ => reply cid (err (lit "int too large to convert to float")) i
  | Ok s =>
      reply cid (pobj [("op", PStr (lit "OK")); ("pointer_speed", PFloat s)]%string)
        (set_ptr (set_speed s fzero fzero (i_ptr i)) i)
  end.

(** A document that is not an object has no [get]: the exception leaves the
    function. *)
Definition handleline (cid : Z) (line : pystr) (i : inp) : inp * res unit :=
  let '(q, alive) := rawinputclientalive cid (i_q i) in
  let i := set_q q i in
  if negb alive then (set_q (dropclient cid q) i, Ok tt)
  else
    match json_loads line with
    | Exc _ => (reply cid (err (lit "invalid json")) i, Ok tt)
    | Ok (PDict msg) =>
        let op := dict_get_def (lit "op") PNone msg in
        let is_op s := match op with PStr t => str_eqb t (lit s) | _ => false end in
        (if is_op "HELLO"%string then
           reply cid (pobj [("op", PStr (lit "WELCOME")); ("id", PInt cid)]%string) i
         else if is_op "SUBSCRIBE"%string then handle_subscribe cid msg i
         else if is_op "FB_SIZE"%string then handle_fbsize cid msg i
         else if is_op "POINTER_SPEED_SET"%string then handle_speed cid msg i
         else reply cid (err (lit "unknown op")) i, Ok tt)
    | Ok _ => (i, Exc AttributeError)
    end.

(** ** Keyboard *)

(** A raw device event: type, code and value. *)
Definition kev : Type := Z * Z * Z.

Definition emit_key (e : kev) (i : inp) : inp :=
  let '(etype, code, value) := e in
  if negb (etype =? EV_KEY) then i
  else
    let '(m, ev) := keyevent code value (i_mods i) in
    let i := set_mods m i in
    let i := set_q (broadcastevent ev "key" (i_q i)) i in
    match keytext code value m with
    | Some ch => set_q (broadcastevent (textevent ch (modstate m)) "text" (i_q i)) i
    | None => i
    end.

Definition emitkeys (evs : list kev) (i : inp) : inp := fold_left (fun i e => emit_key e i) evs i.

(** ** Pointer *)

Definition pointer_event (dx dy : Z) (absflag : bool) (ns : Z) (i : inp) : pydict := pdict
  [("op", PStr (lit "EVENT")); ("kind", PStr (lit "pointer")); ("x", PInt (p_x (i_ptr i)));
   ("y", PInt (p_y (i_ptr i))); ("dx", PInt dx); ("dy", PInt dy); ("abs", PBool absflag);
   ("mods", modstate_dict (modstate (i_mods i))); ("source_monotonic_ns", PInt ns)]%string.

Definition button_event (b : Z * pystr) (i : inp) : pydict := pdict
  [("op", PStr (lit "EVENT")); ("kind", PStr (lit "button")); ("button", PInt b.1); ("state", PStr b.2);
   ("x", PInt (p_x (i_ptr i))); ("y", PInt (p_y (i_ptr i)));
   ("mods", modstate_dict (modstate (i_mods i)))]%string.

Definition scroll_event (dx dy : Z) (i : inp) : pydict := pdict
  [("op", PStr (lit "EVENT")); ("kind", PStr (lit "scroll")); ("x", PInt (p_x (i_ptr i)));
   ("y", PInt (p_y (i_ptr i))); ("dx", PInt dx); ("dy", PInt dy);
   ("mods", modstate_dict (modstate (i_mods i)))]%string.

(** What a batch comes to, before anything is sent. *)
Definition batch (evs : list mev) : PM (agg * (bool * Z * Z * bool)) :=
  hasleft ← pget p_hasleft;
  movefd ← pget p_fd;
  btnfd ← pget (fun p => match p_btnfd p with Some f => Some f | None => p_fd p end);
  wheelfd ← pget (fun p => match p_wheelfd p with Some f => Some f | None => p_fd p end);
  g ← gather hasleft movefd btnfd wheelfd evs agg0;
  r ← move g;
  mret (g, r).

(** The exception a batch raises is caught and logged; nothing of the batch is
    sent then. *)
Definition emitmouse (evs : list mev) (i : inp) : inp :=
  let '(p, r) := batch evs (i_ptr i) in
  let i := set_ptr p i in
  match r with
  | Exc _ => i
  | Ok (g, (moved, dx, dy, absflag)) =>
      let i := if moved then
                 let '(q, ns) := look qe_ns (i_q i) in
                 let i := set_q (broadcastevent (pointer_event dx dy absflag ns i) "pointer" q) i in
                 set_ptr (schedulepointerpossave (i_ptr i)) i
               else i in
      let i := fold_left (fun i b => set_q (broadcastevent (button_event b i) "button" (i_q i)) i)
                 (g_buttons g) i in
      let i := if negb (g_sx g =? 0) || negb (g_sy g =? 0) then
                 let i := set_ptr (set_scroll (p_scrollx (i_ptr i) + g_sx g) (p_scrolly (i_ptr i) + g_sy g)
                                     (i_ptr i)) i in
                 set_q (broadcastevent (scroll_event (g_sx g) (g_sy g) i) "scroll" (i_q i)) i
               else i in
      set_ptr (set_abs (MFlag absflag) (i_ptr i)) i
  end.

(** ** The saved position *)

Definition POINTERSAVEINTERVAL : pyfloat := fdecimal 25 (-2).

(** Writing the file: done, not opened, or cut off after some characters. *)
Inductive write_result : Type := Written | NotOpened | CutOff (kept : nat).

Definition savepointerpos (force : bool) (w : write_result) (i : inp) : inp :=
  if negb (p_dirty (i_ptr i)) && negb force then i
  else
    let '(q, now) := look qe_mono (i_q i) in
    let i := set_q q i in
    if negb force && flt (fsub now (i_savelast i)) POINTERSAVEINTERVAL then i
    else
      match w with
      | NotOpened => i
      | CutOff kept => set_file (Some (take kept (postext (i_ptr i)))) i
      | Written => set_ptr (set_posdirty false (i_ptr i)) (set_savelast now (set_file (Some (postext (i_ptr i))) i))
      end.

(** ** The main loop *)

Fixpoint handle_lines (cid : Z) (lines : list pystr) (i : inp) : inp * res unit :=
  match lines with
  | [] => (i, Ok tt)
  | l :: lines' =>
      match handleline cid l i with
      | (i, Ok _) => handle_lines cid lines' i
      | (i, Exc e) => (i, Exc e)
      end
  end.

(** A ready client: read, write, and the selector's mask.  An exception drops it. *)
Definition serve_client (cid : Z) (read : option recv_result) (write : bool) (i : inp) : inp :=
  let '(i, r) :=
    match read with
    | Some d => let '(q, lines) := recvlines cid d (i_q i) in handle_lines cid lines (set_q q i)
    | None => (i, Ok tt)
    end in
  match r with
  | Exc _ => set_q (dropclient cid (i_q i)) i
  | Ok _ =>
      let i := if write then set_q (flushclient cid (i_q i)) i else i in
      set_q (updateclientevents cid (i_q i)) i
  end.

(** The last step of a turn: the output queued by the devices is sent at once. *)
Fixpoint flush_all (cids : list Z) (q : queue) : queue :=
  match cids with
  | [] => q
  | cid :: cids' =>
      flush_all cids'
        (match aget cid (q_clients q) with
         | Some c => if bool_decide (ic_outbuf c = []) then q else updateclientevents cid (flushclient cid q)
         | None => q
         end)
  end.

(** What one turn finds ready: connections, clients, and device batches. *)
Inductive ready_obj : Type :=
| RAccept (conn : option (Z * bool))
| RClient (cid : Z) (read : option recv_result) (write : bool).

(** The devices are open: the turn's last step, [handlereconnects], opens those that
    are not, and is not modelled. *)
Definition turn (ready : list ready_obj) (kbd : list kev) (media : list (list kev)) (mouse : list mev) (save : write_result)
    (i : inp) : inp :=
  let i := set_q (flushclientpointers (i_q i)) i in
  let i := set_q (nextclientpointertimeout (fdecimal 1 (-2)) (i_q i)).1 i in
  let i := fold_left (fun i r => match r with
             | RAccept conn => set_q (acceptclient conn (i_q i)) i
             | RClient cid d w => serve_client cid d w i
             end) ready i in
  let i := emitkeys kbd i in
  let i := fold_left (fun i evs => emitkeys evs i) media i in
  let i := match mouse with [] => i | _ => emitmouse mouse i end in
  let i := set_q (flushclientpointers (i_q i)) i in
  let i := set_q (flush_all (List.map fst (q_clients (i_q i))) (i_q i)) i in
  savepointerpos false save i.
End InputServer.
