(* ===== verification/InputSpec.v ===== *)
(** The properties of the input service: modifier state, typed text, wheel
    notches, the pointer's position on the screen, its saved form, and what
    absolute devices run into. *)

From stdpp Require Import base list strings.
From Stdlib Require Import ZArith Lia Bool String SpecFloat.
From S2P Require Import Prelude Assoc PyFloat FloatFacts PyText PyVal PyJson Exchange ExchangeStore InputQueue.
From S2P Require Import InputQueueSpec InputKeys InputPointer InputServer.
Open Scope Z_scope.

(** ** Modifiers *)

(** The last value of a key in a history, and the number of its presses. *)
Definition last_value (code : Z) (evs : list (Z * Z)) : Z :=
  fold_left (fun v e => if e.1 =? code then e.2 else v) evs 0.
Definition held (evs : list (Z * Z)) (code : Z) : bool := negb (last_value code evs =? 0).
Definition presses (evs : list (Z * Z)) (code : Z) : Z :=
  zlen (List.filter (fun e => (e.1 =? code) && (e.2 =? 1)) evs).
Definition toggled (evs : list (Z * Z)) (code : Z) : bool := Z.odd (presses evs code).

Lemma held_snoc evs e code : held (evs ++ [e]) code = if e.1 =? code then negb (e.2 =? 0) else held evs code.
Proof. unfold held, last_value. rewrite fold_left_app. simpl. by destruct (e.1 =? code). Qed.

Lemma toggled_snoc evs e code :
  toggled (evs ++ [e]) code = if (e.1 =? code) && (e.2 =? 1) then negb (toggled evs code) else toggled evs code.
Proof.
  unfold toggled, presses. rewrite List.filter_app, zlen_app. simpl. destruct (_ && _).
  - change (zlen [e]) with 1. by rewrite Z.odd_add, xorb_true_r.
  - change (zlen (@nil (Z * Z))) with 0. by rewrite Z.add_0_r.
Qed.

(** After any history of key events the modifier state is: a modifier key is
    down exactly when its last event was not a release, and a lock is on exactly
    when its key was pressed an odd number of times (repeats do not count). *)
Theorem modifiers_history (evs : list (Z * Z)) :
  fold_left (fun m e => updatemods e.1 e.2 m) evs mods0 =
  mkmods (held evs KEY_LEFTSHIFT) (held evs KEY_RIGHTSHIFT) (held evs KEY_LEFTCTRL) (held evs KEY_RIGHTCTRL)
    (held evs KEY_LEFTALT) (held evs KEY_RIGHTALT) (held evs KEY_LEFTMETA) (held evs KEY_RIGHTMETA)
    (toggled evs KEY_CAPSLOCK) (toggled evs KEY_NUMLOCK) (toggled evs KEY_SCROLLLOCK).
Proof.
  induction evs as [|[c v] evs IH] using rev_ind; [done|].
  rewrite fold_left_app, IH. rewrite !held_snoc, !toggled_snoc. simpl fold_left. cbn [fst snd]. unfold updatemods.
  repeat match goal with
    |- context [c =? ?k] => destruct (Z.eqb_spec c k); [subst c; simpl; by destruct (v =? 1)|]
  end.
  done.
Qed.

(** ** Typed text *)

Section Text.
Context {U : PyUnicode} {L : PyUnicodeLaws U}.

(** What a key types: a letter in the case of shift or caps lock, a symbol shifted
    by shift only. *)
Definition types_letter (n : pystr) (v : modview) : pystr :=
  if mv_caps v || mv_shift v then n else ascii_lower n.
Definition types_symbol (n : pystr) (v : modview) : pystr :=
  if mv_shift v then default n (aget n SHIFTED) else n.

Definition expected_text (code : Z) (v : modview) : option pystr :=
  match aget code KEYCODES with
  | Some n => if bool_decide (n = lit "SPACE") then Some (lit " ") else None
  | None =>
      match aget code KEYLETTERS with
      | Some n => Some (types_letter n v)
      | None => (fun n => types_symbol n v) <$> aget code KEYPRINTABLE
      end
  end.

(** The law of the character mappings on a letter of the tables. *)
Lemma letter_case n : n ∈ List.map snd KEYLETTERS ->
  uc_lower n = ascii_lower n /\ uc_upper (ascii_lower n) = n /\ uc_upper n = n.
Proof.
  intros Hn. assert (H : forallb (fun n => forallb is_ascii n && forallb is_ascii (ascii_lower n) &&
    str_eqb (ascii_upper (ascii_lower n)) n && str_eqb (ascii_upper n) n) (List.map snd KEYLETTERS) = true) by reflexivity.
  rewrite forallb_forall in H. apply list_elem_of_In in Hn. specialize (H n Hn).
  apply andb_true_iff in H as [H H4]. apply andb_true_iff in H as [H H3]. apply andb_true_iff in H as [H1 H2].
  apply str_eqb_eq in H3, H4. rewrite uc_lower_ascii, !uc_upper_ascii by done. done.
Qed.

Lemma aget_snd {V} (k : Z) (d : list (Z * V)) v : aget k d = Some v -> v ∈ List.map snd d.
Proof.
  intros H%aget_In. apply list_elem_of_In, in_map_iff. exists (k, v). split; [done|by apply list_elem_of_In].
Qed.

Definition is_letter_name (n : pystr) : bool := (zlen n =? 1) && forallb ascii_alpha n.
Definition is_symbol_name (n : pystr) : bool := existsb (fun e => bool_decide (e.2 = n)) KEYPRINTABLE.

Lemma keychar_cases n v : n <> [] ->
  keychar n v = if is_letter_name n then
      let ch := if mv_caps v then uc_upper (uc_lower n) else uc_lower n in
      Some (if mv_shift v then uc_upper ch else ch)
    else if is_symbol_name n then Some (types_symbol n v)
    else if bool_decide (n = lit "SPACE") then Some (lit " ") else None.
Proof. by destruct n. Qed.

Lemma table_names (P : pystr -> bool) (t : list (Z * pystr)) code n :
  forallb P (List.map snd t) = true -> aget code t = Some n -> P n = true.
Proof. intros H Hn%aget_snd%list_elem_of_In. rewrite forallb_forall in H. by apply H. Qed.

Lemma named_key code n : aget code KEYCODES = Some n ->
  n <> [] /\ is_letter_name n = false /\ is_symbol_name n = false.
Proof.
  intros H. assert (Hp : negb (bool_decide (n = [])) && negb (is_letter_name n) && negb (is_symbol_name n) = true)
    by (refine (table_names (fun n => negb (bool_decide (n = [])) && negb (is_letter_name n) && negb (is_symbol_name n)) KEYCODES code n _ H); by vm_compute).
  apply andb_true_iff in Hp as [Hp H3]. apply andb_true_iff in Hp as [H1 H2].
  apply negb_true_iff in H1, H2, H3. by apply bool_decide_eq_false in H1.
Qed.

Lemma letter_key code n : aget code KEYLETTERS = Some n -> n <> [] /\ is_letter_name n = true.
Proof.
  intros H. assert (Hp : negb (bool_decide (n = [])) && is_letter_name n = true)
    by (refine (table_names (fun n => negb (bool_decide (n = [])) && is_letter_name n) KEYLETTERS code n _ H); by vm_compute).
  apply andb_true_iff in Hp as [H1 H2]. apply negb_true_iff in H1. by apply bool_decide_eq_false in H1.
Qed.

Lemma symbol_key code n v : aget code KEYPRINTABLE = Some n ->
  n <> [] /\ is_letter_name n = false /\ is_symbol_name n = true /\ types_symbol n v <> [].
Proof.
  intros H. assert (Hp : negb (bool_decide (n = [])) && negb (is_letter_name n) && is_symbol_name n &&
    negb (bool_decide (default n (aget n SHIFTED) = [])) = true)
    by (refine (table_names (fun n => negb (bool_decide (n = [])) && negb (is_letter_name n) && is_symbol_name n &&
    negb (bool_decide (default n (aget n SHIFTED) = []))) KEYPRINTABLE code n _ H); by vm_compute).
  apply andb_true_iff in Hp as [Hp H4]. apply andb_true_iff in Hp as [Hp H3].
  apply andb_true_iff in Hp as [H1 H2]. apply negb_true_iff in H1, H2, H4.
  apply bool_decide_eq_false in H1, H4. unfold types_symbol. by destruct (mv_shift v).
Qed.

(** A code without a name types nothing. *)
Lemma other_key code v : keychar (lit "KEY_" ++ int_str code) v = None.
Proof.
  set (n := lit "KEY_" ++ int_str code). rewrite keychar_cases by done.
  assert (Hl : (zlen n =? 1) = false).
  { apply Z.eqb_neq. unfold n. rewrite zlen_app. change (zlen (lit "KEY_")) with 4.
    pose proof (zlen_nonneg (int_str code)). lia. }
  unfold is_letter_name. rewrite Hl. cbn [andb].
  assert (Hs : is_symbol_name n = false).
  { destruct (is_symbol_name n) eqn:E; [|done]. unfold is_symbol_name in E.
    apply existsb_exists in E as ([k x] & Hin & Hx). apply bool_decide_eq_true in Hx. simpl in Hx. subst x.
    assert (H : forallb (fun e => zlen e.2 =? 1) KEYPRINTABLE = true) by reflexivity.
    rewrite forallb_forall in H. specialize (H _ Hin). assert (Ht : (zlen n =? 1) = true) by exact H.
    rewrite Hl in Ht. discriminate Ht. }
  rewrite Hs. by rewrite bool_decide_eq_false_2 by (unfold n; intros H; discriminate H).
Qed.

(** Only a press types, and only without ctrl and alt: a letter key types its
    letter, in upper case when shift is held or caps lock is on; a symbol key its
    symbol, shifted when shift is held; space a space; every other key, known or
    not, nothing. *)
Theorem typed_text code value m :
  keytext code value m =
  if (value =? 1) && negb (mv_ctrl (modstate m) || mv_alt (modstate m))
  then expected_text code (modstate m) else None.
Proof.
  unfold keytext. set (v := modstate m). destruct (value =? 1); [|done]. cbn [negb andb].
  destruct (mv_ctrl v || mv_alt v); [done|]. cbn [negb]. unfold keyname, expected_text.
  destruct (aget code KEYCODES) as [n|] eqn:E1.
  - destruct (named_key code n E1) as (H1 & H2 & H3). rewrite keychar_cases, H2, H3 by done.
    by destruct (bool_decide _).
  - destruct (aget code KEYLETTERS) as [n|] eqn:E2.
    + destruct (letter_key code n E2) as [H1 H2]. rewrite keychar_cases, H2 by done. cbv zeta.
      destruct (letter_case n) as (G1 & G2 & G3); [by eapply aget_snd|]. rewrite G1, G2.
      unfold types_letter. destruct n as [|c n]; [done|].
      destruct (mv_caps v), (mv_shift v); cbn [orb]; by rewrite ?G2, ?G3.
    + destruct (aget code KEYPRINTABLE) as [n|] eqn:E3; [|by rewrite other_key].
      destruct (symbol_key code n v E3) as (H1 & H2 & H3 & H4). rewrite keychar_cases, H2, H3 by done.
      cbn [fmap option_fmap option_map]. by destruct (types_symbol n v).
Qed.
End Text.

(** ** Wheels *)

Lemma hires_spec value acc scroll a' s' :
  hires value acc scroll = Ok (a', s') -> a' + 120 * s' = acc + value + 120 * scroll.
Proof.
  unfold hires. destruct (_ || _); [|intros [= <- <-]; lia].
  destruct (int_truediv _ _) as [q|]; [|done]. cbn [mbind res_bind].
  destruct (int_of_float q) as [step|]; [|done]. cbn [mbind res_bind]. intros [= <- <-]. lia.
Qed.

(** The units, 120 to the notch, an event brings to a wheel. *)
Definition wheel_units (wheelfd : option Z) (notch hi : Z) (e : mev) : Z :=
  if (e_type e =? EV_REL) && fd_is wheelfd (e_fd e) then
    if e_code e =? notch then 120 * e_value e else if e_code e =? hi then e_value e else 0
  else 0.
Definition units (wheelfd : option Z) (notch hi : Z) (evs : list mev) : Z :=
  fold_right (fun e n => wheel_units wheelfd notch hi e + n) 0 evs.

Lemma pm_bind_ok {A B} (m : PM A) (k : A -> PM B) p p' b :
  (m ≫= k) p = (p', Ok b) -> exists p1 a, m p = (p1, Ok a) /\ k a p1 = (p', Ok b).
Proof.
  unfold mbind, pm_bind. destruct (m p) as [p1 [a|e]]; [|discriminate]. intros H. by exists p1, a.
Qed.

Lemma rel_wheel movefd wheelfd e g p p' g' : e_type e = EV_REL ->
  rel_event movefd wheelfd e g p = (p', Ok g') ->
  120 * g_sx g' + p_hix p' = 120 * g_sx g + p_hix p + wheel_units wheelfd REL_HWHEEL REL_HWHEELHI e /\
  120 * g_sy g' + p_hiy p' = 120 * g_sy g + p_hiy p + wheel_units wheelfd REL_WHEEL REL_WHEELHI e.
Proof.
  intros Ht. unfold wheel_units. rewrite Ht. cbn [Z.eqb EV_REL Pos.eqb andb]. unfold rel_event.
  destruct g as [dx dy ax ay bs sx sy]. destruct e as [fd ty code value]. cbn [e_fd e_code e_value].
  unfold REL_X, REL_Y, REL_WHEEL, REL_HWHEEL, REL_WHEELHI, REL_HWHEELHI.
  destruct (((code =? 0) || (code =? 1)) && negb (fd_is movefd fd)) eqn:E1.
  { intros [= <- <-]. cbn [g_sx g_sy]. destruct (fd_is wheelfd fd); [|lia].
    apply andb_true_iff in E1 as [E1 _]. split_if; lia. }
  destruct (_ && negb (fd_is wheelfd fd)) eqn:E2.
  { intros [= <- <-]. cbn [g_sx g_sy]. apply andb_true_iff in E2 as [_ E2]. destruct (fd_is wheelfd fd); [done|lia]. }
  destruct (fd_is wheelfd fd) eqn:Ew.
  2:{ rewrite andb_true_r in E2. rewrite !orb_false_iff in E2. destruct E2 as [[[-> ->] ->] ->].
      split_if; intros [= <- <-]; cbn [g_sx g_sy]; lia. }
  clear E1 E2. destruct (code =? 0) eqn:C0; [intros [= <- <-]; cbn [g_sx g_sy]; split_if; lia|].
  destruct (code =? 1) eqn:C1; [intros [= <- <-]; cbn [g_sx g_sy]; split_if; lia|].
  destruct (code =? 6) eqn:C6; [intros [= <- <-]; cbn [g_sx g_sy]; split_if; lia|].
  destruct (code =? 8) eqn:C8; [intros [= <- <-]; cbn [g_sx g_sy]; split_if; lia|].
  destruct (code =? 12) eqn:C12; [|destruct (code =? 11) eqn:C11; [|intros [= <- <-]; cbn [g_sx g_sy]; lia]].
  - intros (p1 & a & [= <- <-] & H)%pm_bind_ok. apply pm_bind_ok in H as (p2 & [] & [= <-] & H).
    apply pm_bind_ok in H as (p3 & r & H3 & H). unfold plift in H3. injection H3 as <- H3.
    apply pm_bind_ok in H as (p4 & [] & [= <-] & [= <- <-]). destruct r as [a' s']. apply hires_spec in H3.
    simpl. split_if; lia.
  - intros (p1 & a & [= <- <-] & H)%pm_bind_ok. apply pm_bind_ok in H as (p2 & [] & [= <-] & H).
    apply pm_bind_ok in H as (p3 & r & H3 & H). unfold plift in H3. injection H3 as <- H3.
    apply pm_bind_ok in H as (p4 & [] & [= <-] & [= <- <-]). destruct r as [a' s']. apply hires_spec in H3.
    simpl. split_if; lia.
Qed.

(** However a batch mixes whole notches and high-resolution units, of both
    wheels and with events of other devices between, no wheel movement is lost or
    made up: the notches reported, 120 units each, and the remainder kept for the
    next batch add up to the old remainder and the units received. *)
Theorem wheel_conserved hasleft movefd btnfd wheelfd evs g p p' g' :
  gather hasleft movefd btnfd wheelfd evs g p = (p', Ok g') ->
  120 * g_sx g' + p_hix p' = 120 * g_sx g + p_hix p + units wheelfd REL_HWHEEL REL_HWHEELHI evs /\
  120 * g_sy g' + p_hiy p' = 120 * g_sy g + p_hiy p + units wheelfd REL_WHEEL REL_WHEELHI evs.
Proof.
  revert g p. induction evs as [|e evs IH]; intros g p; cbn [gather units fold_right].
  { intros [= <- <-]. lia. }
  intros (p1 & g1 & H1 & H)%pm_bind_ok. apply IH in H.
  assert (Hs : 120 * g_sx g1 + p_hix p1 = 120 * g_sx g + p_hix p + wheel_units wheelfd REL_HWHEEL REL_HWHEELHI e /\
               120 * g_sy g1 + p_hiy p1 = 120 * g_sy g + p_hiy p + wheel_units wheelfd REL_WHEEL REL_WHEELHI e).
  { destruct (e_type e =? EV_REL) eqn:Et; [apply Z.eqb_eq in Et; by eapply rel_wheel|].
    unfold wheel_units. rewrite Et. cbn [andb]. destruct (e_type e =? EV_ABS).
    - injection H1 as <- <-. destruct g as [dx dy ax ay bs sx sy]. unfold abs_event. split_if; simpl; lia.
    - destruct (e_type e =? EV_KEY); injection H1 as <- <-; [|lia]. destruct g as [dx dy ax ay bs sx sy].
      unfold key_event. destruct (negb _); [simpl; lia|]. destruct (mapbutton _ _); [split_if|]; simpl; lia. }
  fold (units wheelfd REL_HWHEEL REL_HWHEELHI evs) in *. fold (units wheelfd REL_WHEEL REL_WHEELHI evs) in *. lia.
Qed.

(** ** The pointer on the screen *)

Definition on_screen (p : ptr) : Prop :=
  1 <= p_w p /\ 1 <= p_h p /\ 0 <= p_x p < p_w p /\ 0 <= p_y p < p_h p.

Definition s32 (z : Z) : Prop := - 2 ^ 31 <= z < 2 ^ 31.
Definition s32o (z : option Z) : Prop := match z with Some v => s32 v | None => True end.

(** A screen of at most [2^31] pixels a side, and 32-bit device coordinates. *)
Record ptr_ok (p : ptr) : Prop := {
  po_screen : on_screen p;
  po_w : p_w p <= 2 ^ 31;
  po_h : p_h p <= 2 ^ 31;
  po_lastx : s32o (p_lastx p);
  po_lasty : s32o (p_lasty p);
  po_range : let '(x0, x1, y0, y1) := mouse_range (p_abs p) in s32 x0 /\ s32 x1 /\ s32 y0 /\ s32 y1 }.

Definition mev_ok (e : mev) : Prop := s32 (e_value e).
Definition agg_ok (g : agg) : Prop := s32o (g_absx g) /\ s32o (g_absy g).

(** A change of the high-resolution remainders only. *)
Definition same_ptr (p p' : ptr) : Prop := exists x y, p' = set_hi x y p.

Lemma same_ptr_refl p : same_ptr p p.
Proof. exists (p_hix p), (p_hiy p). by destruct p. Qed.

Lemma same_ptr_trans p1 p2 p3 : same_ptr p1 p2 -> same_ptr p2 p3 -> same_ptr p1 p3.
Proof. intros (x & y & ->) (x' & y' & ->). by exists x', y'. Qed.

Lemma same_ptr_ok p p' : same_ptr p p' -> ptr_ok p -> ptr_ok p'.
Proof. by intros (x & y & ->) []. Qed.

Lemma rel_same movefd wheelfd e g p :
  agg_ok g -> let '(p', r) := rel_event movefd wheelfd e g p in
  same_ptr p p' /\ match r with Ok g' => agg_ok g' | Exc _ => True end.
Proof.
  intros Hg. unfold rel_event. destruct g as [dx dy ax ay bs sx sy]. unfold agg_ok in *. cbn [g_absx g_absy] in Hg.
  repeat match goal with |- context [if ?b then _ else _] => destruct b end;
    cbn [mret pm_ret]; try (split; [apply same_ptr_refl|exact Hg]).
  - unfold mbind, pm_bind, pget, pset, plift. cbn [fst snd].
    destruct (hires _ _ _); (split; [by eexists _, _|done]).
  - unfold mbind, pm_bind, pget, pset, plift. cbn [fst snd].
    destruct (hires _ _ _); (split; [by eexists _, _|done]).
Qed.

Lemma gather_same hasleft movefd btnfd wheelfd evs g p :
  Forall mev_ok evs -> agg_ok g ->
  let '(p', r) := gather hasleft movefd btnfd wheelfd evs g p in
  same_ptr p p' /\ match r with Ok g' => agg_ok g' | Exc _ => True end.
Proof.
  intros Hevs. revert g p. induction Hevs as [|e evs He Hevs IH]; intros g p Hg; cbn [gather].
  { split; [apply same_ptr_refl|done]. }
  unfold mbind, pm_bind. set (m := if e_type e =? EV_REL then _ else _).
  assert (Hm : let '(p', r) := m p in same_ptr p p' /\ match r with Ok g' => agg_ok g' | Exc _ => True end).
  { unfold m. destruct (e_type e =? EV_REL); [by apply rel_same|]. destruct (e_type e =? EV_ABS).
    - split; [apply same_ptr_refl|]. unfold mev_ok in He. destruct g, Hg. unfold abs_event. split_if; by split.
    - destruct (e_type e =? EV_KEY); (split; [apply same_ptr_refl|]); [|done]. destruct g, Hg.
      unfold key_event. destruct (negb _); [by split|]. destruct (mapbutton _ _); [split_if|]; by split. }
  destruct (m p) as [p1 [g1|e1]]; destruct Hm as [H1 H2]; [|by split].
  specialize (IH g1 p1 H2). destruct (gather _ _ _ _ evs g1 p1) as [p2 r2]. destruct IH as [H3 H4].
  split; [by eapply same_ptr_trans|done].
Qed.

Lemma clamp_on_screen p : 1 <= p_w p -> 1 <= p_h p -> on_screen (clamppointer p).
Proof.
  intros Hw Hh. unfold on_screen, clamppointer. cbv zeta. cbn [p_w p_h p_x p_y set_pos].
  split; [done|]. split; [done|]. split; split_if; lia.
Qed.

Lemma clamp_ok p p0 : ptr_ok p -> p_w p0 = p_w p -> p_h p0 = p_h p -> s32o (p_lastx p0) -> s32o (p_lasty p0) ->
  p_abs p0 = p_abs p -> ptr_ok (clamppointer p0).
Proof.
  intros [(H1 & H2 & _) H3 H4 H5 H6 H7] Ew Eh Hx Hy Ea.
  split; cbn [p_w p_h p_lastx p_lasty p_abs clamppointer set_pos]; rewrite ?Ew, ?Eh, ?Ea; try done.
  apply clamp_on_screen; lia.
Qed.

(** The position of a bounded coordinate can always be computed. *)
Lemma abs_ratio_clip v lo hi r : s32 v -> s32 lo -> s32 hi -> abs_ratio (Some v) lo hi = Ok r -> unit_gain (clip01 r).
Proof.
  unfold s32, abs_ratio. intros Hv Hlo Hhi Hr.
  destruct (float_of_int_total (v - lo)) as (n & Hn & Ha); [unfold BIG; lia|]. rewrite Hn in Hr.
  cbn [mbind res_bind] in Hr. set (den := if hi - lo <=? 0 then 1 else hi - lo) in *.
  assert (Hden : 1 <= den <= 2 ^ 32) by (unfold den; destruct (hi - lo <=? 0) eqn:E; lia).
  destruct (float_of_sample den) as [[E _]|(s & m & e & E & He & Hm & Hs)]; [lia|lia|].
  rewrite E in Hr. cbn [mbind res_bind] in Hr.
  assert (0 < 2 ^ (- e)) by (apply Z.pow_pos_nonneg; lia).
  destruct (div_ge1_absle (Z.abs (v - lo)) n s m e) as (q & Hq & Hqa); [unfold BIG; lia|done|done|nia|].
  rewrite Hq in Hr. injection Hr as <-. exact (clipped_unit _ _ Hqa (div_mag _ _ _ _ _ _ Ha Hq)).
Qed.

Lemma screen_at_total g size : unit_gain g -> 1 <= size <= 2 ^ 31 -> exists z, screen_at g size = Ok z.
Proof.
  intros Hg Hs. unfold screen_at. destruct (float_of_int_total (size - 1)) as (f & Hf & Ha); [unfold BIG; lia|].
  rewrite Hf. cbn [mbind res_bind].
  destruct (int_of_absle (1 * Z.abs (size - 1)) (fmul g f)) as (z & Hz & _); [|by exists z].
  apply mul_absle; [lia|lia|unfold BIG; lia|by apply unit_gain_absle|done].
Qed.

(** Off the screen perhaps, but one clamp away from being well formed. *)
Definition near (p p' : ptr) : Prop :=
  p_w p' = p_w p /\ p_h p' = p_h p /\ p_abs p' = p_abs p /\ s32o (p_lastx p') /\ s32o (p_lasty p').

Lemma near_clamp p p' : ptr_ok p -> near p p' -> ptr_ok (clamppointer p').
Proof. intros Hp (H1 & H2 & H3 & H4 & H5). by eapply clamp_ok. Qed.

Lemma move_absolute_ok absx absy p : ptr_ok p -> s32o absx -> s32o absy ->
  let '(p', r) := move_absolute absx absy p in
  match r with Ok _ => near p p' | Exc _ => ptr_ok p' end.
Proof.
  intros Hp Hx Hy. unfold move_absolute. unfold mbind, pm_bind, pset, pget, plift. cbv beta iota.
  set (p1 := set_last _ _ p).
  assert (Hp1 : ptr_ok p1).
  { destruct Hp as [H1 H2 H3 H4 H5 H6]. split; try done; unfold p1; simpl; [by destruct absx|by destruct absy]. }
  change (p_abs p1) with (p_abs p). pose proof (po_range _ Hp) as Hr.
  destruct (mouse_range (p_abs p)) as [[[x0 x1] y0] y1]. destruct Hr as (Hx0 & Hx1 & Hy0 & Hy1).
  destruct (abs_ratio (p_lastx p1) x0 x1) as [xr|]; [|done].
  destruct (abs_ratio (p_lasty p1) y0 y1) as [yr|] eqn:Ey; [|done].
  destruct (screen_at (clip01 xr) (p_w p1)) as [x|]; [|done]. cbv beta iota.
  destruct (p_lasty p1) as [ly|] eqn:El; [|done].
  assert (Hly : s32 ly) by (pose proof (po_lasty _ Hp1) as H; by rewrite El in H).
  pose proof (abs_ratio_clip ly y0 y1 yr Hly Hy0 Hy1 Ey) as Hu.
  destruct (screen_at_total (clip01 yr) (p_h (set_pos x (p_y p1) p1)) Hu) as (y & ->).
  { pose proof (po_screen _ Hp1) as (_ & H & _). pose proof (po_h _ Hp1). simpl in *. lia. }
  unfold near. simpl. split_and!; [done|done|done|exact (po_lastx _ Hp1)|exact (po_lasty _ Hp1)].
Qed.

Section Batches.
Context {U : PyUnicode}.

Lemma move_relative_same dx dy p :
  let '(p', r) := move_relative dx dy p in exists sx rx ry, p' = set_speed sx rx ry p.
Proof.
  assert (Hid : p = set_speed (p_speed p) (p_remx p) (p_remy p) p) by (by destruct p).
  unfold move_relative, mbind, pm_bind, pset, pget, plift. destruct (_ || _); [|by eexists _, _, _].
  destruct (scalepointerdelta dx _ _) as [[x ex]|]; [|by eexists _, _, _]. cbv beta iota.
  destruct (scalepointerdelta dy _ _) as [[y ey]|]; simpl; by eexists _, _, _.
Qed.

Lemma set_speed_ok s x y p : ptr_ok p -> ptr_ok (set_speed s x y p).
Proof. by intros []. Qed.

Lemma move_ok g p : ptr_ok p -> agg_ok g -> ptr_ok (move g p).1.
Proof.
  intros Hp [Hx Hy]. unfold move.
  assert (Habs : forall a b, s32o a -> s32o b -> ptr_ok ((r ← (move_absolute a b;; mret (true, 0, 0, true));
      let '(moved, _, _, _) := r in (if moved : bool then pset clamppointer else mret tt);; mret r) p).1).
  { intros a b Ha Hb. pose proof (move_absolute_ok a b p Hp Ha Hb) as H.
    unfold mbind, pm_bind. destruct (move_absolute a b p) as [p' [u|e]]; [|done]. simpl. by eapply near_clamp. }
  destruct (g_absx g) as [ax|]; [by apply Habs|]. destruct (g_absy g) as [ay|]; [by apply Habs|].
  clear Habs. pose proof (move_relative_same (g_dx g) (g_dy g) p) as Hm.
  unfold mbind, pm_bind. destruct (move_relative _ _ p) as [p1 [[dx dy]|e]];
    destruct Hm as (s & rx & ry & ->); [|by apply set_speed_ok].
  destruct (negb (dx =? 0) || negb (dy =? 0)); [|by apply set_speed_ok].
  unfold pset, mret, pm_ret. cbv beta iota. cbn [fst].
  apply (near_clamp p); [done|]. destruct Hp as [H1 H2 H3 H4 H5 H6]. by repeat split.
Qed.

Lemma batch_ok evs p : ptr_ok p -> Forall mev_ok evs -> ptr_ok (batch evs p).1.
Proof.
  intros Hp Hevs. unfold batch. unfold mbind at 1 2 3 4, pm_bind at 1 2 3 4. unfold pget at 1 2 3 4. cbv beta iota.
  set (btnfd := match p_btnfd p with Some _ => _ | None => _ end).
  set (wheelfd := match p_wheelfd p with Some _ => _ | None => _ end).
  pose proof (gather_same (p_hasleft p) (p_fd p) btnfd wheelfd evs agg0 p Hevs ltac:(done)) as Hg.
  unfold mbind, pm_bind. destruct (gather _ _ _ _ _ _ p) as [p1 [g|e]]; destruct Hg as [H1 H2];
    [|by eapply same_ptr_ok].
  pose proof (move_ok g p1 (same_ptr_ok _ _ H1 Hp) H2) as Hm. by destruct (move g p1) as [p2 [r|e]].
Qed.
End Batches.
