(* ===== verification/InputRunSpec.v ===== *)
(** The pointer over whole turns of the input service: it stays on the screen, its
    saved form reads back, and what absolute devices lose. *)

From stdpp Require Import base list strings.
From Stdlib Require Import ZArith Lia Bool String.
From S2P Require Import Prelude Assoc PyFloat FloatFacts PyText PyVal PyJson Exchange PyStr ExchangeStore InputQueue.
From S2P Require Import InputKeys InputPointer InputServer InputSpec.
Open Scope Z_scope.

(** ** The pointer's invariant *)

(** On every screen of at most [2^31] pixels a side the pointer is on the screen. *)
Record ptr_inv (p : ptr) : Prop := {
  pi_w : 1 <= p_w p;
  pi_h : 1 <= p_h p;
  pi_lastx : s32o (p_lastx p);
  pi_lasty : s32o (p_lasty p);
  pi_range : let '(x0, x1, y0, y1) := mouse_range (p_abs p) in s32 x0 /\ s32 x1 /\ s32 y0 /\ s32 y1;
  pi_screen : p_w p <= 2 ^ 31 -> p_h p <= 2 ^ 31 -> on_screen p }.

(** What one turn finds: ready objects, keyboard, media keys and mouse batches, and
    how the writing of the position ends. *)
Record turn_in : Type := mkturn {
  t_ready : list ready_obj; t_kbd : list kev; t_media : list (list kev); t_mouse : list mev; t_save : write_result }.

Section Runs.
Context {U : PyUnicode}.
Context (set_order : list pystr -> list pystr).

Lemma ptr_ok_inv p : p_w p <= 2 ^ 31 -> p_h p <= 2 ^ 31 -> ptr_inv p -> ptr_ok p.
Proof. intros Hw Hh [H1 H2 H3 H4 H5 H6]. by split; auto. Qed.

Lemma near_refl p : s32o (p_lastx p) -> s32o (p_lasty p) -> near p p.
Proof. by repeat split. Qed.

Lemma near_trans p1 p2 p3 : near p1 p2 -> near p2 p3 -> near p1 p3.
Proof. unfold near. intros (?&?&?&?&?) (?&?&?&?&?). split_and!; congruence || done. Qed.

Lemma near_set_pos x y p : s32o (p_lastx p) -> s32o (p_lasty p) -> near p (set_pos x y p).
Proof. by repeat split. Qed.

Lemma near_same p p' : s32o (p_lastx p) -> s32o (p_lasty p) -> same_ptr p p' -> near p p'.
Proof. intros Hx Hy (x & y & ->). by repeat split. Qed.

Lemma move_absolute_near absx absy p :
  s32o (p_lastx p) -> s32o (p_lasty p) -> s32o absx -> s32o absy -> near p (move_absolute absx absy p).1.
Proof.
  intros Hx Hy Hax Hay. unfold move_absolute, mbind, pm_bind, pset, pget, plift. cbv beta iota.
  set (p1 := set_last _ _ p).
  assert (H1 : near p p1) by (unfold p1; repeat split; [by destruct absx|by destruct absy]).
  assert (Hs : forall x y, near p (set_pos x y p1)).
  { intros x y. eapply near_trans; [exact H1|]. apply near_set_pos; apply H1. }
  destruct (mouse_range _) as [[[x0 x1] y0] y1].
  destruct (abs_ratio (p_lastx p1) _ _); [|exact H1]. destruct (abs_ratio (p_lasty p1) _ _); [|exact H1].
  destruct (screen_at _ (p_w p1)); [|exact H1]. destruct (screen_at _ (p_h _)); apply Hs.
Qed.

Lemma move_near g p : s32o (p_lastx p) -> s32o (p_lasty p) -> agg_ok g -> near p (move g p).1.
Proof.
  intros Hx Hy [Hax Hay]. unfold move.
  assert (Habs : forall a b, s32o a -> s32o b -> near p ((r ← (move_absolute a b;; mret (true, 0, 0, true));
      let '(moved, _, _, _) := r in (if moved : bool then pset clamppointer else mret tt);; mret r) p).1).
  { intros a b Ha Hb. pose proof (move_absolute_near a b p Hx Hy Ha Hb) as H.
    unfold mbind, pm_bind. destruct (move_absolute a b p) as [p' [u|e]]; [|done]. simpl.
    eapply near_trans; [exact H|]. apply near_set_pos; apply H. }
  destruct (g_absx g) as [ax|]; [by apply Habs|]. destruct (g_absy g) as [ay|]; [by apply Habs|].
  clear Habs. pose proof (move_relative_same (g_dx g) (g_dy g) p) as Hm.
  unfold mbind, pm_bind. destruct (move_relative _ _ p) as [p1 [[dx dy]|e]];
    destruct Hm as (s & rx & ry & ->); [|by repeat split].
  destruct (negb (dx =? 0) || negb (dy =? 0)); by repeat split.
Qed.

Lemma batch_near evs p : s32o (p_lastx p) -> s32o (p_lasty p) -> Forall mev_ok evs -> near p (batch evs p).1.
Proof.
  intros Hx Hy Hevs. unfold batch. unfold mbind at 1 2 3 4, pm_bind at 1 2 3 4. unfold pget at 1 2 3 4. cbv beta iota.
  set (btnfd := match p_btnfd p with Some _ => _ | None => _ end).
  set (wheelfd := match p_wheelfd p with Some _ => _ | None => _ end).
  pose proof (gather_same (p_hasleft p) (p_fd p) btnfd wheelfd evs agg0 p Hevs ltac:(done)) as Hg.
  unfold mbind, pm_bind. destruct (gather _ _ _ _ _ _ p) as [p1 [g|e]]; destruct Hg as [H1 H2];
    [|by apply near_same]. apply near_same in H1; [|done|done].
  pose proof (move_near g p1 ltac:(apply H1) ltac:(apply H1) H2) as Hm.
  destruct (move g p1) as [p2 [r|e]]; by eapply near_trans.
Qed.

Lemma batch_inv evs p : ptr_inv p -> Forall mev_ok evs -> ptr_inv (batch evs p).1.
Proof.
  intros Hp Hevs. destruct (batch_near evs p (pi_lastx _ Hp) (pi_lasty _ Hp) Hevs) as (Hw & Hh & Ha & Hx & Hy).
  split; rewrite ?Hw, ?Hh, ?Ha; try apply Hp; try done.
  intros Hw2 Hh2. by apply batch_ok; [apply ptr_ok_inv|].
Qed.

(** ** Handlers *)

(** Changes that leave the screen, the position and the devices alone. *)
Definition idle (p p' : ptr) : Prop :=
  p_w p' = p_w p /\ p_h p' = p_h p /\ p_x p' = p_x p /\ p_y p' = p_y p /\
  p_lastx p' = p_lastx p /\ p_lasty p' = p_lasty p /\ p_abs p' = p_abs p.

Lemma idle_inv p p' : idle p p' -> ptr_inv p -> ptr_inv p'.
Proof.
  intros (Hw & Hh & Hx & Hy & Hlx & Hly & Ha) [H1 H2 H3 H4 H5 H6].
  split; unfold on_screen in *; rewrite ?Hw, ?Hh, ?Hx, ?Hy, ?Hlx, ?Hly, ?Ha; done.
Qed.

Lemma resize_inv w h p : ptr_inv p -> ptr_inv (resize w h p).
Proof.
  intros [H1 H2 H3 H4 H5 H6]. unfold resize, schedulepointerpossave. cbv zeta.
  split; unfold on_screen; cbn [p_w p_h p_x p_y p_lastx p_lasty p_abs set_posdirty set_last set_pos set_screen]; try done.
  - split_if; lia.
  - split_if; lia.
  - intros _ _. split_and!; split_if; lia.
Qed.

Lemma emitmouse_ptr evs i : i_ptr (emitmouse evs i) =
  match batch evs (i_ptr i) with
  | (p, Exc _) => p
  | (p, Ok (g, (moved, _, _, absflag))) =>
      let p := if moved then schedulepointerpossave p else p in
      set_abs (MFlag absflag)
        (if negb (g_sx g =? 0) || negb (g_sy g =? 0)
         then set_scroll (p_scrollx p + g_sx g) (p_scrolly p + g_sy g) p else p)
  end.
Proof.
  unfold emitmouse. destruct (batch evs (i_ptr i)) as [p [[g [[[moved dx] dy] b]]|e]]; [|done].
  assert (Hf : forall bs i0, i_ptr (fold_left (fun i b => set_q (broadcastevent (button_event b i) "button" (i_q i)) i) bs i0) = i_ptr i0).
  { intros bs. induction bs as [|b' bs IH]; intros i0; simpl; [done|]. by rewrite IH. }
  destruct moved; destruct (negb (g_sx g =? 0) || negb (g_sy g =? 0));
    cbn [i_ptr set_ptr set_q look]; rewrite !Hf; done.
Qed.

Lemma emitmouse_inv evs i : ptr_inv (i_ptr i) -> Forall mev_ok evs -> ptr_inv (i_ptr (emitmouse evs i)).
Proof.
  intros Hi Hevs. rewrite emitmouse_ptr. pose proof (batch_inv evs _ Hi Hevs) as Hb.
  destruct (batch evs (i_ptr i)) as [p [[g [[[moved dx] dy] b]]|e]]; [|done]. cbv zeta.
  assert (H : forall p' f, idle p p' -> ptr_inv (set_abs (MFlag f) p')).
  { intros p' f Hp'. destruct (idle_inv p p' Hp' Hb) as [H1 H2 H3 H4 _ H6]. by split. }
  apply H. by destruct moved; destruct (negb _ || negb _).
Qed.

(** A request changes the pointer only by resizing the screen or setting the speed. *)
Lemma handleline_inv cid line i : ptr_inv (i_ptr i) -> ptr_inv (i_ptr (handleline set_order cid line i).1).
Proof.
  intros Hi. unfold handleline. destruct (rawinputclientalive cid (i_q i)) as [q alive].
  destruct (negb alive); [done|]. destruct (json_loads line) as [v|]; [|done].
  destruct v as [| | | | | |msg]; try done. cbn [fst].
  repeat match goal with |- context [if ?b then _ else _] => destruct b end; try done.
  - unfold handle_subscribe. destruct (requested_types msg) as [r|req]; [done|].
    destruct (aget cid _); [|done]. by destruct (existsb _ req).
  - unfold handle_fbsize. destruct (_ ← _; _) as [[w h]|]; [|done]. by apply resize_inv.
  - unfold handle_speed. destruct (normalizedpointerspeed _) as [s|]; [|done]. by eapply idle_inv; [|exact Hi].
Qed.

Lemma handle_lines_inv cid lines i : ptr_inv (i_ptr i) -> ptr_inv (i_ptr (handle_lines set_order cid lines i).1).
Proof.
  revert i. induction lines as [|l lines IH]; intros i Hi; [done|]. simpl.
  pose proof (handleline_inv cid l i Hi) as H. destruct (handleline set_order cid l i) as [i' [u|e]]; [|done].
  by apply IH.
Qed.

Lemma serve_client_inv cid read write i : ptr_inv (i_ptr i) -> ptr_inv (i_ptr (serve_client set_order cid read write i)).
Proof.
  intros Hi. unfold serve_client. destruct read as [d|].
  - destruct (recvlines cid d (i_q i)) as [q lines].
    pose proof (handle_lines_inv cid lines (set_q q i) Hi) as H.
    destruct (handle_lines set_order cid lines (set_q q i)) as [i' [u|e]]; [by destruct write|done].
  - by destruct write.
Qed.

Lemma emitkeys_ptr evs i : i_ptr (emitkeys evs i) = i_ptr i.
Proof.
  unfold emitkeys. revert i. induction evs as [|[[et c] v] evs IH]; intros i; simpl; [done|]. rewrite IH.
  unfold emit_key. destruct (negb _); [done|]. unfold keyevent. cbv beta iota zeta. by destruct (keytext _ _ _).
Qed.

Lemma savepointerpos_inv force w i : ptr_inv (i_ptr i) -> ptr_inv (i_ptr (savepointerpos force w i)).
Proof.
  intros H. unfold savepointerpos, look. destruct (_ && _); [done|]. destruct (_ && _); [done|].
  destruct w; [|done..]. destruct H. by constructor.
Qed.

Lemma turn_inv t i : ptr_inv (i_ptr i) -> Forall mev_ok (t_mouse t) ->
  ptr_inv (i_ptr (turn set_order (t_ready t) (t_kbd t) (t_media t) (t_mouse t) (t_save t) i)).
Proof.
  intros Hi Hm. unfold turn. cbv zeta. apply savepointerpos_inv. cbn [i_ptr set_q].
  set (i1 := fold_left _ (t_ready t) _).
  assert (H1 : ptr_inv (i_ptr i1)).
  { unfold i1. clear i1. match goal with |- context [fold_left _ _ ?i0] => assert (H0 : ptr_inv (i_ptr i0)) by done; revert H0; generalize i0 end.
    clear i Hi Hm.
    induction (t_ready t) as [|r rs IH]; intros i0 Hi0; simpl; [done|]. apply IH.
    destruct r as [conn|cid read write]; [done|by apply serve_client_inv]. }
  set (i2 := fold_left _ (t_media t) _).
  assert (H2 : i_ptr i2 = i_ptr i1).
  { unfold i2. rewrite <- (emitkeys_ptr (t_kbd t) i1). generalize (emitkeys (t_kbd t) i1).
    induction (t_media t) as [|m ms IH]; intros i0; simpl; [done|]. by rewrite IH, emitkeys_ptr. }
  assert (H3 : ptr_inv (i_ptr i2)) by (by rewrite H2).
  destruct (t_mouse t) as [|e evs]; [done|]. by apply emitmouse_inv.
Qed.

Definition run_turns (ts : list turn_in) (i : inp) : inp :=
  fold_left (fun i t => turn set_order (t_ready t) (t_kbd t) (t_media t) (t_mouse t) (t_save t) i) ts i.

(** C35: through any sequence of turns of the main loop, with any requests of the
    window server (screen sizes and speeds included) and any 32-bit device
    events, the pointer is on the screen whenever the screen has at most [2^31]
    pixels a side. *)
Theorem pointer_on_screen ts i :
  ptr_inv (i_ptr i) -> Forall (fun t => Forall mev_ok (t_mouse t)) ts ->
  p_w (i_ptr (run_turns ts i)) <= 2 ^ 31 -> p_h (i_ptr (run_turns ts i)) <= 2 ^ 31 ->
  on_screen (i_ptr (run_turns ts i)).
Proof.
  intros Hi Hts. assert (H : ptr_inv (i_ptr (run_turns ts i))); [|apply H].
  unfold run_turns. revert i Hi. induction Hts as [|t ts Ht _ IH]; intros i Hi; simpl; [done|].
  by apply IH, turn_inv.
Qed.
End Runs.

(** ** Absolute devices *)

(** A batch that is sent replaces the ranges probed when the device was opened
    by a flag, so from the next batch on the default range [0..65535] is used
    whatever the device reports. *)
Theorem calibration_lost {U : PyUnicode} evs i :
  is_ok (batch evs (i_ptr i)).2 = true ->
  mouse_range (p_abs (i_ptr (emitmouse evs i))) = (0, 65535, 0, 65535).
Proof.
  intros H. rewrite emitmouse_ptr. destruct (batch evs (i_ptr i)) as [p [[g [[[moved dx] dy] b]]|e]]; [|done].
  done.
Qed.

Definition sets_y (movefd : option Z) (e : mev) : bool :=
  (e_type e =? EV_ABS) && fd_is movefd (e_fd e) && ((e_code e =? ABS_Y) || (e_code e =? ABS_MT_POSITION_Y)).
Definition sets_x (movefd : option Z) (e : mev) : bool :=
  (e_type e =? EV_ABS) && fd_is movefd (e_fd e) && ((e_code e =? ABS_X) || (e_code e =? ABS_MT_POSITION_X)).

Lemma rel_ptr movefd wheelfd e g p : same_ptr p (rel_event movefd wheelfd e g p).1.
Proof.
  unfold rel_event. destruct g as [dx dy ax ay bs sx sy].
  repeat match goal with |- context [if ?b then _ else _] => destruct b end; try apply same_ptr_refl.
  all: unfold mbind, pm_bind, pget, pset, plift; cbn [fst snd]; destruct (hires _ _ _); by eexists _, _.
Qed.

Lemma rel_axes movefd wheelfd e g p p' g' : rel_event movefd wheelfd e g p = (p', Ok g') ->
  g_absx g' = g_absx g /\ g_absy g' = g_absy g.
Proof.
  unfold rel_event. destruct g as [dx dy ax ay bs sx sy].
  repeat match goal with |- context [if ?b then _ else _] => destruct b end;
    try (intros [= _ <-]; done).
  all: unfold mbind, pm_bind, pget, pset, plift; cbn [fst snd]; destruct (hires _ _ _); intros [= _ <-]; done.
Qed.

(** Only the events of the movement device on an axis set that coordinate. *)
Lemma gather_axes hasleft movefd btnfd wheelfd evs g p p' g' :
  existsb (sets_y movefd) evs = false -> gather hasleft movefd btnfd wheelfd evs g p = (p', Ok g') ->
  g_absy g' = g_absy g /\ (existsb (sets_x movefd) evs = true \/ g_absx g <> None -> g_absx g' <> None).
Proof.
  revert g p. induction evs as [|e evs IH]; intros g p Hy; simpl in Hy; cbn [gather].
  { intros [= <- <-]. split; [done|]. by intros [|]. }
  apply orb_false_iff in Hy as [He Hy]. unfold mbind, pm_bind. set (m := if e_type e =? EV_REL then _ else _).
  assert (Hm : forall p1 g1, m p = (p1, Ok g1) ->
    g_absy g1 = g_absy g /\ (sets_x movefd e = true \/ g_absx g <> None -> g_absx g1 <> None)).
  { intros p1 g1. unfold m. destruct (e_type e =? EV_REL) eqn:Er.
    - intros H%rel_axes. destruct H as [-> ->]. split; [done|]. intros [Hx|]; [|done].
      unfold sets_x in Hx. apply Z.eqb_eq in Er. by rewrite Er in Hx.
    - destruct (e_type e =? EV_ABS) eqn:Ea.
      + intros [= <- <-]. unfold sets_y in He. unfold sets_x. rewrite Ea in *. cbn [andb] in *.
        destruct g as [dx dy ax ay bs sx sy]. unfold abs_event.
        destruct (fd_is movefd (e_fd e)); cbn [negb andb] in *; [|split; [done|by intros [|]]].
        destruct ((e_code e =? ABS_X) || (e_code e =? ABS_MT_POSITION_X)); [done|].
        rewrite He. split; [done|by intros [|]].
      + assert (Hx : sets_x movefd e = false) by (unfold sets_x; by rewrite Ea).
        rewrite Hx. destruct (e_type e =? EV_KEY); intros [= <- <-]; [|split; [done|by intros [|]]].
        destruct g as [dx dy ax ay bs sx sy]. unfold key_event.
        destruct (negb _); [|destruct (mapbutton _ _); [split_if|]]; (split; [done|by intros [|]]). }
  destruct (m p) as [p1 [g1|]] eqn:Em; [|done]. destruct (Hm p1 g1 eq_refl) as [H1 H2].
  intros Hg. destruct (IH g1 p1 Hy Hg) as [H3 H4]. split; [congruence|].
  simpl existsb. intros [H%orb_true_iff|H]; apply H4; [destruct H|]; auto.
Qed.

Lemma gather_ptr hasleft movefd btnfd wheelfd evs g p :
  same_ptr p (gather hasleft movefd btnfd wheelfd evs g p).1.
Proof.
  revert g p. induction evs as [|e evs IH]; intros g p; cbn [gather]; [apply same_ptr_refl|].
  unfold mbind, pm_bind. set (m := if e_type e =? EV_REL then _ else _).
  assert (Hm : same_ptr p (m p).1).
  { unfold m. destruct (e_type e =? EV_REL); [apply rel_ptr|].
    by destruct (e_type e =? EV_ABS); [|destruct (e_type e =? EV_KEY)]; apply same_ptr_refl. }
  destruct (m p) as [p1 [g1|e1]]; [|done]. by eapply same_ptr_trans.
Qed.

(** While no vertical coordinate is known, a batch whose absolute movement is
    horizontal only is lost as a whole: no record of it is sent, button presses
    and wheel notches included, and the pointer stays. *)
Theorem single_axis_lost {U : PyUnicode} evs i :
  p_lasty (i_ptr i) = None -> existsb (sets_y (p_fd (i_ptr i))) evs = false ->
  existsb (sets_x (p_fd (i_ptr i))) evs = true ->
  i_q (emitmouse evs i) = i_q i /\
  p_x (i_ptr (emitmouse evs i)) = p_x (i_ptr i) /\ p_y (i_ptr (emitmouse evs i)) = p_y (i_ptr i).
Proof.
  intros Hl Hy Hx. set (p := i_ptr i) in *.
  assert (H : exists p' e, batch evs p = (p', Exc e) /\ p_x p' = p_x p /\ p_y p' = p_y p).
  2:{ destruct H as (p' & e & H & H1 & H2). unfold emitmouse. fold p. by rewrite H. }
  unfold batch. unfold mbind at 1 2 3 4, pm_bind at 1 2 3 4. unfold pget at 1 2 3 4. cbv beta iota.
  set (btnfd := match p_btnfd p with Some _ => _ | None => _ end).
  set (wheelfd := match p_wheelfd p with Some _ => _ | None => _ end).
  pose proof (gather_axes (p_hasleft p) (p_fd p) btnfd wheelfd evs agg0 p) as Ha.
  pose proof (gather_ptr (p_hasleft p) (p_fd p) btnfd wheelfd evs agg0 p) as Hs.
  unfold mbind, pm_bind. destruct (gather _ _ _ _ _ _ p) as [p1 [g|e]]; cbn [fst] in Hs; destruct Hs as (x & y & ->);
    [|by exists (set_hi x y p), e].
  destruct (Ha _ g Hy eq_refl) as [H1 H2]. specialize (H2 (or_introl Hx)).
  unfold move. rewrite H1. destruct (g_absx g) as [ax|]; [|done].
  unfold move_absolute, mbind, pm_bind, pset, pget, plift. cbv beta iota. cbn [p_lasty set_last set_hi g_absy agg0].
  rewrite Hl. destruct (mouse_range _) as [[[x0 x1] y0] y1].
  destruct (abs_ratio (p_lastx _) x0 x1); (eexists _, _; by split_and!).
Qed.

(** ** The saved position *)

Lemma int_str_no_comma z : lacks 44 (int_str z).
Proof. unfold lacks. eapply Forall_impl; [apply int_str_chars|]. unfold is_digit_char. intros c [->|H]; lia. Qed.

(** Reading the position file back on the screen it was written for gives the
    saved position, whatever the pointer was before. *)
Theorem pointerpos_roundtrip {U : PyUnicode} {L : PyUnicodeLaws U} p q :
  on_screen p -> p_w p <= 2 ^ 31 -> p_h p <= 2 ^ 31 -> p_w q = p_w p -> p_h q = p_h p ->
  loadpointerpos (Some (postext p)) q = set_pos (p_x p) (p_y p) q.
Proof.
  intros (H1 & H2 & H3 & H4) Hw Hh Ew Eh. unfold loadpointerpos, postext.
  rewrite strip_unspaced.
  2:{ unfold unspaced. rewrite !Forall_app. split_and!; try apply int_str_unspaced. by repeat constructor. }
  change ([44] ++ int_str (p_y p)) with (44 :: int_str (p_y p)).
  unfold split_comma. rewrite split_on_cons, split_on_lacks by apply int_str_no_comma.
  rewrite !int_of_int_str by (apply nat_str_length; lia).
  unfold clamppointer, set_pos. cbn [p_w p_h p_x p_y]. rewrite Ew, Eh.
  assert ((p_x p <? 0) = false) as -> by lia. assert ((p_y p <? 0) = false) as -> by lia.
  assert ((p_w p - 1 <? p_x p) = false) as -> by lia. assert ((p_h p - 1 <? p_y p) = false) as -> by lia.
  by rewrite !andb_false_r.
Qed.

(** A position file whose second number cannot be read still moves the
    pointer: the first one is assigned before the second is parsed, and it is not
    clamped to the screen. *)
Theorem partial_position {U : PyUnicode} {L : PyUnicodeLaws U} x junk p :
  zlen (nat_str (Z.abs x)) <= max_str_digits -> unspaced junk -> lacks 44 junk ->
  int_of_str junk = Exc ValueError ->
  loadpointerpos (Some (int_str x ++ 44 :: junk)) p = set_pos x (p_y p) p.
Proof.
  intros Hl Hj Hc He. unfold loadpointerpos. rewrite strip_unspaced.
  2:{ unfold unspaced. rewrite Forall_app. split; [apply int_str_unspaced|]. by constructor. }
  unfold split_comma. rewrite split_on_cons, split_on_lacks by (done || apply int_str_no_comma). by rewrite int_of_int_str, He.
Qed.

(** ** Witnesses *)

#[local] Existing Instance ascii_unicode.
#[local] Existing Instance ascii_unicode_laws.

(** A tablet with ranges [0..4095], on a full-HD screen. *)
Definition demo_ptr : ptr :=
  mkptr 1920 1080 10 20 0 0 0 0 None None fone fzero fzero (MRange 0 4095 0 4095) true (Some 5) None None false.
Definition demo_env : qenv := mkqenv (fun _ => fzero) (fun n => Z.of_nat n) (fun _ => SSent 100) (fun _ => true) (fun _ => true).
Definition demo_inp : inp := mkinp (mkqueue [] demo_env 0 0 0) mods0 demo_ptr None fzero.
Definition corner : list mev := [mkmev 5 3 0 4095; mkmev 5 3 1 4095].
Definition sideways : list mev := [mkmev 5 1 272 1; mkmev 5 3 0 100].

Lemma demo_inv : ptr_inv demo_ptr.
Proof. split; simpl; unfold s32, on_screen; simpl; try done; lia. Qed.

Lemma pointer_on_screen_witness :
  on_screen (i_ptr (run_turns id [mkturn [] [] [] corner Written; mkturn [] [] [] corner Written] demo_inp)).
Proof.
  apply (pointer_on_screen id); [exact demo_inv| |vm_compute; discriminate|vm_compute; discriminate].
  repeat constructor; unfold mev_ok, s32; simpl; lia.
Defined.

(** The same corner, touched twice, is the corner of the screen only once. *)
Lemma calibration_lost_witness :
  mouse_range (p_abs (i_ptr (emitmouse corner demo_inp))) = (0, 65535, 0, 65535) /\
  p_x (i_ptr (emitmouse corner demo_inp)) = 1919 /\ p_x (i_ptr (emitmouse corner (emitmouse corner demo_inp))) = 119.
Proof. split; [apply (calibration_lost corner demo_inp); by vm_compute|]. by vm_compute. Defined.

Lemma single_axis_lost_witness : i_q (emitmouse sideways demo_inp) = i_q demo_inp.
Proof. apply (single_axis_lost sideways demo_inp); by vm_compute. Defined.

Lemma pointerpos_roundtrip_witness :
  loadpointerpos (Some (lit "10,20")) (set_pos 0 0 demo_ptr) = demo_ptr.
Proof.
  apply (pointerpos_roundtrip demo_ptr (set_pos 0 0 demo_ptr)); unfold on_screen; simpl; lia.
Defined.

Lemma partial_position_witness : loadpointerpos (Some (lit "5000,abc")) demo_ptr = set_pos 5000 20 demo_ptr.
Proof.
  apply (partial_position 5000 (lit "abc") demo_ptr); [by vm_compute|repeat constructor|repeat constructor; discriminate|done].
Defined.

Lemma wheel_conserved_witness :
  120 * 1 + 30 = 120 * 0 + 0 + units (Some 5) REL_WHEEL REL_WHEELHI [mkmev 5 2 11 90; mkmev 5 2 11 60].
Proof.
  assert (E : gather true (Some 5) (Some 5) (Some 5) [mkmev 5 2 11 90; mkmev 5 2 11 60] agg0 demo_ptr =
    (set_hi 0 30 demo_ptr, Ok (mkagg 0 0 None None [] 0 1))) by (by vm_compute).
  exact (proj2 (wheel_conserved _ _ _ _ _ _ _ _ _ E)).
Defined.

Lemma typed_text_witness : keytext 30 1 (updatemods 42 1 mods0) = Some (lit "A").
Proof. rewrite (typed_text 30 1 (updatemods 42 1 mods0)). by vm_compute. Defined.
