(* ===== verification/Dns.v ===== *)
(** DNS in the network service (network.py): names and their compression, queries,
    validation of responses, answers, and the resolver. *)

From stdpp Require Import base list strings.
From Stdlib Require Import ZArith Lia Bool String.
From S2P Require Import Prelude PyFloat PyText PyVal PyStr.
Open Scope Z_scope.

(** The [idna] codec needs the Unicode tables beyond ASCII; on ASCII text it only
    checks the lengths of the labels. *)
Class PyIdna : Type := { idna_encode : pystr -> res bytes }.

Definition idna_ascii (s : pystr) : res bytes :=
  let labels := split_on 46 s in
  if forallb (fun l => (0 <? zlen l) && (zlen l <? 64)) (removelast labels) && (zlen (List.last labels []) <? 64)
  then Ok s else Exc UnicodeError.

Class PyIdnaLaws (I : PyIdna) : Prop := {
  idna_encode_ascii s : s <> [] -> forallb is_ascii s = true -> idna_encode s = idna_ascii s }.

(** A concrete codec: text outside ASCII is refused. *)
Definition ascii_idna : PyIdna := {|
  idna_encode s := if forallb is_ascii s then idna_ascii s else Exc UnicodeError |}.

Lemma ascii_idna_laws : PyIdnaLaws ascii_idna.
Proof. split. simpl. intros s _ H. by rewrite H. Qed.

Definition DNSMAXRESP : Z := 4096.

(** ** Names *)

Definition label_ok (l : pystr) : bool :=
  match l with
  | [] => false
  | c :: _ => (zlen l <=? 63) && ascii_alnum c && ascii_alnum (List.last l 0)
              && forallb (fun x => ascii_alnum x || (x =? 45)) l
  end.

Definition normalizednshost {I : PyIdna} (host : pystr) : res pystr :=
  let value := rstrip_char 46 (strip host) in
  if (zlen value =? 0) || (253 <? zlen value) then Exc ValueError
  else
    match idna_encode value with
    | Exc UnicodeError => Exc ValueError
    | Exc e => Exc e
    | Ok b =>
        if negb (forallb is_ascii b) then Exc ValueError
        else
          let value := ascii_lower b in
          if 253 <? zlen value then Exc ValueError
          else if forallb label_ok (split_on 46 value) then Ok value
          else Exc ValueError
    end.

(** The question's name on the wire. *)
Definition qname (host : pystr) : bytes := flat_map (fun part => zlen part :: part) (split_on 46 host) ++ [0].

(** [ident]: the sixteen random bits; any error gives an empty packet. *)
Definition makednspacket {I : PyIdna} (ident : Z) (host : pystr) : bytes :=
  match normalizednshost host with
  | Exc _ => []
  | Ok host =>
      flat_map pack_u16be [ident; 256; 1; 0; 0; 0] ++ qname host ++ flat_map pack_u16be [1; 1]
  end.

(** One name is read from [cursor] on; [ret] is where the caller goes on.  [None]:
    out of fuel. *)
Fixpoint name_loop (fuel : nat) (packet : bytes) (cursor : Z) (ret : option Z) (labels : list pystr)
    (visited : list Z) (jumps : Z) : option (res (pystr * Z)) :=
  match fuel with
  | O => None
  | S fuel =>
      if (cursor <? 0) || (zlen packet <=? cursor) then Some (Exc ValueError)
      else
        let length := znth packet cursor in
        if length =? 0 then
          Some (Ok (join_with [46] labels, match ret with None => cursor + 1 | Some r => r end))
        else if Z.land length 192 =? 192 then
          if zlen packet <=? cursor + 1 then Some (Exc ValueError)
          else
            let pointer := Z.lor (Z.shiftl (Z.land length 63) 8) (znth packet (cursor + 1)) in
            if (zlen packet <=? pointer) || existsb (Z.eqb pointer) visited then Some (Exc ValueError)
            else if 32 <? jumps + 1 then Some (Exc ValueError)
            else
              name_loop fuel packet pointer (match ret with None => Some (cursor + 2) | Some r => Some r end)
                labels (pointer :: visited) (jumps + 1)
        else if negb (Z.land length 192 =? 0) || (63 <? length) then Some (Exc ValueError)
        else
          let cursor := cursor + 1 in
          let stop := cursor + length in
          if (length =? 0) || (zlen packet <? stop) then Some (Exc ValueError)
          else
            let label := zslice packet cursor stop in
            if negb (forallb is_ascii label) then Some (Exc ValueError)
            else
              let labels := labels ++ [ascii_lower label] in
              if 253 <? zlen (join_with [46] labels) then Some (Exc ValueError)
              else name_loop fuel packet stop ret labels visited jumps
  end.

(** Thirty-two jumps, and between two of them at most one pass over the packet. *)
Definition name_fuel (packet : bytes) : nat := Z.to_nat (33 * (zlen packet + 2) + 1).

Definition parsednsname (packet : bytes) (offset : Z) : res (pystr * Z) :=
  default (Exc RuntimeError) (name_loop (name_fuel packet) packet offset None [] [] 0).

Definition parsename (data : bytes) (offset : Z) : pystr * Z := catch (parsednsname data offset) ([], offset).

(** ** Packets *)

Record question : Type := mkq { q_ident : Z; q_name : pystr; q_type : Z; q_class : Z }.

#[export] Instance question_eq_dec : EqDecision question.
Proof. solve_decision. Defined.

Definition u16_at (packet : bytes) (i : Z) : Z := unpack_u16be (zslice packet i (i + 2)).
Definition u32_at (packet : bytes) (i : Z) : Z := unpack_u32be (zslice packet i (i + 4)).

Definition dnsquestion (packet : bytes) : res question :=
  if zlen packet <? 12 then Exc ValueError
  else if negb (Z.land (u16_at packet 2) 32768 =? 0) || negb (u16_at packet 4 =? 1)
       || negb (u16_at packet 6 =? 0) || negb (u16_at packet 8 =? 0) || negb (u16_at packet 10 =? 0)
  then Exc ValueError
  else
    r ← parsednsname packet 12;
    let '(name, offset) := r in
    if negb (offset + 4 =? zlen packet) then Exc ValueError
    else Ok (mkq (u16_at packet 0) name (u16_at packet offset) (u16_at packet (offset + 2))).

Inductive section : Type := Answer | Authority | Additional.

#[export] Instance section_eq_dec : EqDecision section.
Proof. solve_decision. Defined.

(** A resource record: its data are [rr_len] bytes at [rr_off]. *)
Record rr : Type := mkrr {
  rr_section : section; rr_owner : pystr; rr_type : Z; rr_class : Z; rr_ttl : Z; rr_off : Z; rr_len : Z }.

Fixpoint read_records (count : nat) (sec : section) (data : bytes) (offset : Z) (acc : list rr) : res (list rr * Z) :=
  match count with
  | O => Ok (acc, offset)
  | S count =>
      r ← parsednsname data offset;
      let '(owner, offset) := r in
      if zlen data <? offset + 10 then Exc ValueError
      else
        let rdlength := u16_at data (offset + 8) in
        let rec := mkrr sec owner (u16_at data offset) (u16_at data (offset + 2)) (u32_at data (offset + 4))
                     (offset + 10) rdlength in
        let offset := offset + 10 + rdlength in
        if zlen data <? offset then Exc ValueError
        else read_records count sec data offset (acc ++ [rec])
  end.

(** The response code, the question and the records of a response; when the query
    is given, the response must carry its identifier and its question. *)
Definition dnsresponsemetadata (data : bytes) (query : option bytes) : res (Z * question * list rr) :=
  if (zlen data <? 12) || (DNSMAXRESP <? zlen data) then Exc ValueError
  else
    let flags := u16_at data 2 in
    let ancount := u16_at data 6 in
    let nscount := u16_at data 8 in
    let arcount := u16_at data 10 in
    if (Z.land flags 32768 =? 0) || negb (Z.land (Z.shiftr flags 11) 15 =? 0) || negb (Z.land flags 512 =? 0)
    then Exc ValueError
    else if negb (u16_at data 4 =? 1) || (256 <? ancount + nscount + arcount) then Exc ValueError
    else
      r ← parsednsname data 12;
      let '(name, offset) := r in
      if zlen data <? offset + 4 then Exc ValueError
      else
        let q := mkq (u16_at data 0) name (u16_at data offset) (u16_at data (offset + 2)) in
        expected ← match query with None => Ok q | Some query => dnsquestion query end;
        if negb (bool_decide (q = expected)) then Exc ValueError
        else
          r1 ← read_records (Z.to_nat ancount) Answer data (offset + 4) [];
          r2 ← read_records (Z.to_nat nscount) Authority data r1.2 r1.1;
          r3 ← read_records (Z.to_nat arcount) Additional data r2.2 r2.1;
          if negb (r3.2 =? zlen data) then Exc ValueError
          else Ok (Z.land flags 15, q, r3.1).

Definition validatednsresponse (data query : bytes) : bool := is_ok (dnsresponsemetadata data (Some query)).

(** ** Answers *)

Definition mem (n : pystr) (l : list pystr) : bool := existsb (str_eqb n) l.

(** One pass over the records: the aliases of accepted names become accepted. *)
Fixpoint cname_pass (data : bytes) (rs : list rr) (accepted : list pystr) (changed : bool) : res (list pystr * bool) :=
  match rs with
  | [] => Ok (accepted, changed)
  | r :: rs =>
      if negb (bool_decide (rr_section r = Answer)) || negb (rr_class r =? 1) || negb (rr_type r =? 5)
         || negb (mem (rr_owner r) accepted)
      then cname_pass data rs accepted changed
      else
        a ← parsednsname data (rr_off r);
        if negb (a.2 =? rr_off r + rr_len r) || bool_decide (a.1 = []) then Exc ValueError
        else if mem a.1 accepted then cname_pass data rs accepted changed
        else cname_pass data rs (accepted ++ [a.1]) true
  end.

Fixpoint cname_rounds (rounds : nat) (data : bytes) (rs : list rr) (accepted : list pystr) : res (list pystr) :=
  match rounds with
  | O => Ok accepted
  | S rounds =>
      r ← cname_pass data rs accepted false;
      if r.2 : bool then cname_rounds rounds data rs r.1 else Ok r.1
  end.

Definition is_answer (accepted : list pystr) (r : rr) : bool :=
  bool_decide (rr_section r = Answer) && mem (rr_owner r) accepted && (rr_type r =? 1) && (rr_class r =? 1)
  && (rr_len r =? 4).

(** The first address record of an accepted name; any error gives no address. *)
Definition parsednsanswer (data : bytes) (query : option bytes) : pystr :=
  catch (m ← dnsresponsemetadata data query;
         let '(rcode, q, rs) := m in
         if negb (rcode =? 0) || negb (q_type q =? 1) || negb (q_class q =? 1) then Ok []
         else
           accepted ← cname_rounds (List.length rs + 1) data rs [q_name q];
           match List.find (is_answer accepted) rs with
           | Some r => inet_ntoa (zslice data (rr_off r) (rr_off r + rr_len r))
           | None => Ok []
           end) [].

(** ** The resolver *)

Section Resolver.
Context {I : PyIdna} {U : PyUnicode}.

(** [inet_pton s]: whether [s] is an IPv4 literal; [inet_aton s]: whether the C
    library takes [s] as an address; [recv turn s]: the datagrams that arrive from
    server [s], asked as number [turn] of the list, before the deadline, [None] when
    the socket cannot be used. *)
Context (inet_pton inet_aton : pystr -> bool) (recv : nat -> pystr -> option (list bytes)).

(** The loop over the servers, a socket for each. *)
Fixpoint ask_servers (turn : nat) (packet : bytes) (servers : list pystr) : bytes :=
  match servers with
  | [] => []
  | ns :: servers =>
      if negb (inet_pton ns) then ask_servers (S turn) packet servers
      else
        match recv turn ns with
        | None => ask_servers (S turn) packet servers
        | Some l =>
            match List.find (fun d => validatednsresponse d packet) (List.map (ztake DNSMAXRESP) l) with
            | Some data => data
            | None => ask_servers (S turn) packet servers
            end
        end
  end.

Definition senddns (packet : bytes) (servers : list pystr) : bytes :=
  match packet with [] => [] | _ => ask_servers 0 packet servers end.

(** The server a line of the configuration names. *)
Definition nameserver_of (line : pystr) : list pystr :=
  let line := strip line in
  if bool_decide (line = []) || starts_with [35] line then []
  else match words line with
       | w :: v :: _ => if str_eqb (uc_lower w) (lit "nameserver") then [v] else []
       | _ => []
       end.

(** [conf]: the text of the configuration file. *)
Definition loaddns (conf : option pystr) : list pystr :=
  match conf with None => [] | Some txt => flat_map nameserver_of (file_lines txt) end.

(** [Exc OSError] is [socket.gaierror]. *)
Definition resolvename (conf : option pystr) (ident : Z) (host : pystr) : res pystr :=
  if inet_aton host then Ok host
  else
    match loaddns conf with
    | [] => Exc OSError
    | servers =>
        let packet := makednspacket ident host in
        if bool_decide (packet = []) then Exc OSError
        else
          let data := senddns packet servers in
          if bool_decide (data = []) then Exc OSError
          else
            let ip := parsednsanswer data (Some packet) in
            if bool_decide (ip = []) then Exc OSError else Ok ip
    end.
End Resolver.
