(* ===== verification/DnsSpec.v ===== *)
(** The names and queries of the resolver: reading a name always ends, within the
    packet; canonical names; and the round trip of a question. *)

From stdpp Require Import base list strings.
From Stdlib Require Import ZArith Lia Bool String.
From S2P Require Import Prelude PyFloat PyText PyVal PyStr Dns.
Open Scope Z_scope.

(** The outermost conditional of the goal. *)
Ltac step_if E := match goal with |- context [if ?b then _ else _] => destruct b eqn:E end.

(** ** Reading a name *)

Lemma znth_byte packet i : bytes_ok packet -> 0 <= znth packet i < 256.
Proof.
  intros Hb. unfold znth. destruct (nth_in_or_default (Z.to_nat i) packet 0) as [H| ->]; [|lia].
  unfold bytes_ok in Hb. rewrite List.Forall_forall in Hb. by apply Hb.
Qed.

Lemma land_byte_bound a b n : 0 <= a -> 0 <= b < 2 ^ n -> 0 <= n -> 0 <= Z.land a b < 2 ^ n.
Proof.
  intros Ha Hb Hn. split; [apply Z.land_nonneg; lia|].
  rewrite <- (Z.mod_small b (2 ^ n)) by lia. rewrite <- Z.land_ones, Z.land_assoc, Z.land_ones by done.
  apply Z.mod_pos_bound. lia.
Qed.

(** What reading a name may give: a name of at most 253 characters and an offset
    further on in the packet, or [ValueError]. *)
Definition name_result (packet : bytes) (cursor : Z) (ret : option Z) (r : res (pystr * Z)) : Prop :=
  match r with
  | Ok (name, o) => zlen name <= 253 /\ match ret with Some r0 => o = r0 | None => cursor < o <= zlen packet end
  | Exc e => e = ValueError
  end.

Lemma name_loop_total fuel packet cursor ret labels visited jumps :
  bytes_ok packet -> 0 <= jumps <= 32 -> zlen (join_with [46] labels) <= 253 ->
  (32 - jumps) * (zlen packet + 2) + (zlen packet - cursor) < Z.of_nat fuel -> cursor <= zlen packet ->
  exists r, name_loop fuel packet cursor ret labels visited jumps = Some r /\ name_result packet cursor ret r.
Proof.
  intros Hb. revert cursor ret labels visited jumps.
  induction fuel as [|fuel IH]; intros cursor ret labels visited jumps Hj Hl Hf Hc.
  { pose proof (zlen_nonneg packet). nia. }
  cbn [name_loop]. step_if E1; [by exists (Exc ValueError)|]. apply orb_false_iff in E1 as [E1 E2].
  pose proof (znth_byte packet cursor Hb) as Hlen. set (len := znth packet cursor) in *.
  destruct (len =? 0) eqn:E3.
  { eexists. split; [done|]. split; [done|]. destruct ret; [done|]. lia. }
  destruct (Z.land len 192 =? 192) eqn:E4.
  { destruct (zlen packet <=? cursor + 1) eqn:E5; [by exists (Exc ValueError)|].
    set (pointer := Z.lor _ _). step_if E6; [by exists (Exc ValueError)|].
    apply orb_false_iff in E6 as [E6 _]. destruct (32 <? jumps + 1) eqn:E7; [by exists (Exc ValueError)|].
    assert (0 <= pointer).
    { apply Z.lor_nonneg. split; [|pose proof (znth_byte packet (cursor + 1) Hb); lia]. apply Z.shiftl_nonneg.
      apply Z.land_nonneg. lia. }
    destruct (IH pointer (match ret with None => Some (cursor + 2) | Some r => Some r end) labels
      (pointer :: visited) (jumps + 1)) as (r & -> & Hr); [lia|done|nia|lia|]. exists r. split; [done|].
    destruct r as [[n o]|e]; [|done]. destruct Hr as [Hn Ho]. split; [done|]. destruct ret; [done|]. lia. }
  step_if E5; [by exists (Exc ValueError)|]. cbv zeta.
  step_if E6; [by exists (Exc ValueError)|]. apply orb_false_iff in E6 as [_ E6].
  step_if E6'; [by exists (Exc ValueError)|].
  step_if E7; [by exists (Exc ValueError)|].
  destruct (IH (cursor + 1 + len) ret (labels ++ [ascii_lower (zslice packet (cursor + 1) (cursor + 1 + len))])
    visited jumps) as (r & -> & Hr); [lia|lia|lia|lia|]. exists r. split; [done|].
  destruct r as [[n o]|e]; [|done]. destruct Hr as [Hn Ho]. split; [done|]. destruct ret; [done|]. lia.
Qed.

Lemma name_loop_more fuel k packet cursor ret labels visited jumps r :
  name_loop fuel packet cursor ret labels visited jumps = Some r ->
  name_loop (fuel + k) packet cursor ret labels visited jumps = Some r.
Proof.
  revert cursor ret labels visited jumps. induction fuel as [|fuel IH]; intros cursor ret labels visited jumps; [done|].
  cbn [Nat.add name_loop]. repeat match goal with |- context [if ?b then _ else _] => destruct b end; auto.
Qed.

Lemma parsednsname_loop packet offset k : bytes_ok packet ->
  name_loop (name_fuel packet + k) packet offset None [] [] 0 = Some (parsednsname packet offset) /\
  name_result packet offset None (parsednsname packet offset).
Proof.
  intros Hb. pose proof (zlen_nonneg packet) as H0.
  destruct (Z_lt_le_dec offset 0) as [Hneg|Hpos]; [|destruct (Z_lt_le_dec (zlen packet) offset) as [Hbig|Hle]].
  1, 2: assert (E : forall f, name_loop (S f) packet offset None [] [] 0 = Some (Exc ValueError)) by
      (intros f; cbn [name_loop]; destruct (_ || _) eqn:E; [done|apply orb_false_iff in E as [? ?]; lia]);
    assert (Ef : exists f, name_fuel packet = S f) by
      (unfold name_fuel; exists (Z.to_nat (33 * (zlen packet + 2))); rewrite <- Z2Nat.inj_succ by lia; f_equal; lia);
    destruct Ef as [f Ef]; unfold parsednsname; rewrite Ef; cbn [Nat.add]; rewrite !E; done.
  destruct (name_loop_total (name_fuel packet) packet offset None [] [] 0 Hb) as (r & Hr & Hres);
    [lia|done|unfold name_fuel; lia|done|].
  unfold parsednsname. rewrite Hr. simpl. split; [by apply name_loop_more|done].
Qed.

(** Reading a name ends whatever the packet holds, compression loops included:
    the fuel is enough, and the result is a name of at most 253 characters with
    an offset further on inside the packet, or [ValueError]. *)
Theorem parsednsname_total packet offset fuel :
  bytes_ok packet -> (name_fuel packet <= fuel)%nat ->
  name_loop fuel packet offset None [] [] 0 = Some (parsednsname packet offset) /\
  match parsednsname packet offset with
  | Ok (name, next) => zlen name <= 253 /\ offset < next <= zlen packet
  | Exc e => e = ValueError
  end.
Proof.
  intros Hb Hf. destruct (parsednsname_loop packet offset (fuel - name_fuel packet) Hb) as [H1 H2].
  replace (name_fuel packet + (fuel - name_fuel packet))%nat with fuel in H1 by lia. by split.
Qed.

(** ** Names on the wire *)

(** A label as it is sent: not empty, at most 63 lower-case ASCII characters. *)
Definition wire_label (l : pystr) : Prop :=
  l <> [] /\ zlen l <= 63 /\ forallb is_ascii l = true /\ ascii_lower l = l.

Definition labels_wire (ws : list pystr) : bytes := flat_map (fun part => zlen part :: part) ws.

Lemma znth_app pre x post : znth (pre ++ x :: post) (zlen pre) = x.
Proof. unfold znth, zlen. rewrite Nat2Z.id, app_nth2 by lia. by rewrite Nat.sub_diag. Qed.

Lemma land_192 len : 0 < len <= 63 -> Z.land len 192 = 0.
Proof.
  intros H. assert (Hall : forallb (fun n => Z.land (Z.of_nat n) 192 =? 0) (seq 0 64) = true) by (by vm_compute).
  rewrite forallb_forall in Hall. specialize (Hall (Z.to_nat len)). rewrite in_seq, Z2Nat.id in Hall by lia. lia.
Qed.

Lemma join_snoc_length labels w : zlen (join_with [46] labels) <= zlen (join_with [46] (labels ++ [w])).
Proof.
  induction labels as [|l labels IH]; [apply zlen_nonneg|]. destruct labels as [|l2 labels].
  - cbn [app]. rewrite (join_cons [46] l [w]) by done. simpl join_with at 1. rewrite zlen_app.
    pose proof (zlen_nonneg ([46] ++ join_with [46] [w])). lia.
  - cbn [app] in *. rewrite !(join_cons [46] l) by done. rewrite !zlen_app in *. lia.
Qed.

Lemma join_app_length labels ws : zlen (join_with [46] labels) <= zlen (join_with [46] (labels ++ ws)).
Proof.
  revert labels. induction ws as [|w ws IH]; intros labels; [rewrite app_nil_r; lia|].
  etransitivity; [apply (join_snoc_length labels w)|]. replace (labels ++ w :: ws) with ((labels ++ [w]) ++ ws)
    by (by rewrite <- app_assoc). apply IH.
Qed.

(** Reading the labels of an uncompressed name. *)
Lemma name_loop_labels ws fuel pre post ret labels visited jumps :
  Forall wire_label ws -> zlen (join_with [46] (labels ++ ws)) <= 253 ->
  name_loop (List.length ws + S fuel) (pre ++ labels_wire ws ++ 0 :: post) (zlen pre) ret labels visited jumps =
  Some (Ok (join_with [46] (labels ++ ws), match ret with None => zlen pre + zlen (labels_wire ws) + 1 | Some r => r end)).
Proof.
  intros Hws. revert pre labels. induction Hws as [|w ws (Hne & Hlen & Ha & Hlow) _ IH]; intros pre labels Hl.
  - cbn [List.length Nat.add name_loop labels_wire flat_map app]. rewrite (proj2 (Z.ltb_ge _ _)) by apply zlen_nonneg.
    rewrite zlen_app, zlen_cons, znth_app, app_nil_r. pose proof (zlen_nonneg post).
    rewrite (proj2 (Z.leb_gt _ _)) by lia. change (zlen (@nil Z)) with 0. cbn [orb Z.eqb]. by rewrite Z.add_0_r.
  - cbn [List.length Nat.add name_loop]. set (packet := pre ++ labels_wire (w :: ws) ++ 0 :: post).
    assert (Hp : packet = pre ++ zlen w :: (w ++ labels_wire ws ++ 0 :: post))
      by (unfold packet; simpl; by rewrite <- app_assoc).
    assert (0 < zlen w) by (destruct w; [done|]; rewrite zlen_cons; pose proof (zlen_nonneg w); lia).
    assert (Hz : zlen packet = zlen pre + 1 + zlen w + zlen (labels_wire ws) + 1 + zlen post)
      by (rewrite Hp, !zlen_app, !zlen_cons, !zlen_app, zlen_cons; lia).
    pose proof (zlen_nonneg pre). pose proof (zlen_nonneg (labels_wire ws)). pose proof (zlen_nonneg post).
    rewrite (proj2 (Z.ltb_ge _ _)), (proj2 (Z.leb_gt _ _)) by lia. cbn [orb].
    assert (znth packet (zlen pre) = zlen w) as -> by (rewrite Hp; apply znth_app).
    rewrite (proj2 (Z.eqb_neq _ 0)) by lia. rewrite land_192 by lia. cbn [Z.eqb negb orb].
    rewrite (proj2 (Z.ltb_ge 63 _)) by lia. cbv zeta. rewrite (proj2 (Z.ltb_ge _ _)) by lia. cbn [orb].
    assert (Hs : zslice packet (zlen pre + 1) (zlen pre + 1 + zlen w) = w).
    { rewrite Hp. change (pre ++ zlen w :: w ++ labels_wire ws ++ 0 :: post) with
        (pre ++ [zlen w] ++ w ++ labels_wire ws ++ 0 :: post). rewrite app_assoc.
      apply zslice_app_mid; rewrite zlen_app; change (zlen [zlen w]) with 1; lia. }
    rewrite Hs, Ha, Hlow. cbn [negb].
    assert (Hassoc : labels ++ w :: ws = (labels ++ [w]) ++ ws) by (by rewrite <- app_assoc).
    rewrite Hassoc in Hl |- *. pose proof (join_app_length (labels ++ [w]) ws).
    rewrite (proj2 (Z.ltb_ge _ _)) by lia.
    specialize (IH (pre ++ zlen w :: w) (labels ++ [w]) Hl). rewrite zlen_app, zlen_cons in IH.
    assert (Hp2 : (pre ++ zlen w :: w) ++ labels_wire ws ++ 0 :: post = packet)
      by (rewrite Hp, <- app_assoc; done).
    rewrite Hp2 in IH. replace (zlen pre + 1 + zlen w) with (zlen pre + (1 + zlen w)) by lia. rewrite IH.
    do 2 f_equal. f_equal. destruct ret; [done|]. simpl labels_wire. rewrite zlen_cons, zlen_app.
    fold (labels_wire ws). lia.
Qed.

Lemma labels_wire_length ws : Z.of_nat (List.length ws) <= zlen (labels_wire ws).
Proof.
  induction ws as [|w ws IH]; simpl; [done|]. rewrite zlen_cons, zlen_app. fold (labels_wire ws).
  pose proof (zlen_nonneg w). lia.
Qed.

Lemma parse_labels ws pre post : Forall wire_label ws -> zlen (join_with [46] ws) <= 253 ->
  parsednsname (pre ++ labels_wire ws ++ 0 :: post) (zlen pre) =
  Ok (join_with [46] ws, zlen pre + zlen (labels_wire ws) + 1).
Proof.
  intros Hws Hl. unfold parsednsname. set (packet := pre ++ _).
  assert (Hf : exists f, name_fuel packet = (List.length ws + S f)%nat).
  { exists (name_fuel packet - List.length ws - 1)%nat.
    assert (Z.of_nat (List.length ws) + 1 <= Z.of_nat (name_fuel packet)); [|lia].
    unfold name_fuel. pose proof (labels_wire_length ws). pose proof (zlen_nonneg pre). pose proof (zlen_nonneg post).
    rewrite Z2Nat.id; unfold packet; rewrite !zlen_app, zlen_cons; lia. }
  destruct Hf as [f ->]. pose proof (name_loop_labels ws f pre post None [] [] 0 Hws Hl) as H.
  fold packet in H. cbn [app] in H. by rewrite H.
Qed.

(** ** Canonical names *)

(** A host name in canonical form. *)
Definition host_ok (v : pystr) : Prop :=
  1 <= zlen v <= 253 /\ ascii_lower v = v /\ Forall (fun l => label_ok l = true) (split_on 46 v).

Lemma alnum_ascii c : ascii_alnum c || (c =? 45) = true -> is_ascii c = true.
Proof. unfold ascii_alnum, ascii_alpha, ascii_digit, is_ascii. lia. Qed.

Lemma label_ascii l : label_ok l = true -> forallb is_ascii l = true /\ zlen l <= 63 /\ l <> [].
Proof.
  unfold label_ok. destruct l as [|c l]; [done|]. intros H. apply andb_true_iff in H as [H1 H2].
  split; [|split; [lia|done]]. apply forallb_forall. intros x Hx. rewrite forallb_forall in H2. by apply alnum_ascii, H2.
Qed.

Lemma lower1_idem c : ascii_lower1 (ascii_lower1 c) = ascii_lower1 c.
Proof. unfold ascii_lower1. split_if; lia. Qed.

Lemma lower_idem s : ascii_lower (ascii_lower s) = ascii_lower s.
Proof. unfold ascii_lower. rewrite map_map. apply map_ext. apply lower1_idem. Qed.

Lemma normalized_ok {I : PyIdna} host v : normalizednshost host = Ok v -> host_ok v.
Proof.
  unfold normalizednshost. step_if E1; [done|]. destruct (idna_encode _) as [b|[]]; try done.
  step_if E4; [done|]. cbv zeta. step_if E2; [done|].
  step_if E3; [|done]. intros [= <-]. split; [|split; [apply lower_idem|]].
  - split; [|lia]. destruct b as [|c b]; [done|]. simpl. rewrite zlen_cons. pose proof (zlen_nonneg (ascii_lower b)).
    unfold ascii_lower in *. lia.
  - apply List.Forall_forall. by apply forallb_forall.
Qed.

Lemma split_lower v : ascii_lower v = v -> Forall (fun l => ascii_lower l = l) (split_on 46 v).
Proof.
  intros Hv. assert (H : Forall (fun c => ascii_lower1 c = c) v).
  { clear -Hv. induction v as [|c v IH]; [constructor|]. injection Hv as H1 H2. by constructor; [|apply IH]. }
  apply (split_on_Forall _ 46) in H. eapply Forall_impl; [exact H|].
  intros l Hl. induction Hl as [|c l Hc _ IH]; [done|]. simpl. by rewrite Hc, IH.
Qed.

Lemma host_labels v : host_ok v -> Forall wire_label (split_on 46 v).
Proof.
  intros (_ & Hlow & Hl). pose proof (split_lower v Hlow) as H2. rewrite List.Forall_forall in *.
  intros l Hin. destruct (label_ascii l (Hl l Hin)) as (H3 & H4 & H5). by split_and!; auto.
Qed.

(** ** Questions *)

Lemma u16_at_app pre v post : 0 <= v < 65536 -> u16_at (pre ++ pack_u16be v ++ post) (zlen pre) = v.
Proof.
  intros Hv. unfold u16_at. rewrite zslice_app_mid; [|done|by unfold pack_u16be; zlen_lia].
  rewrite <- (app_nil_r (pack_u16be v)). by apply unpack_pack_u16be.
Qed.

Definition header (ident flags qd an ns ar : Z) : bytes := flat_map pack_u16be [ident; flags; qd; an; ns; ar].

Lemma u16_header i v (vs : list Z) rest : Forall (fun v => 0 <= v < 65536) vs -> vs !! i = Some v ->
  u16_at (flat_map pack_u16be vs ++ rest) (2 * Z.of_nat i) = v.
Proof.
  intros Hvs Hi. assert (Hlen : forall l, zlen (flat_map pack_u16be l) = 2 * Z.of_nat (List.length l)).
  { induction l as [|x l IH]; [done|]. cbn [flat_map]. rewrite zlen_app, IH. unfold pack_u16be. zlen_lia. }
  pose proof (take_drop_middle vs i v Hi) as E. rewrite <- E, flat_map_app. cbn [flat_map].
  rewrite <- !app_assoc. replace (2 * Z.of_nat i) with (zlen (flat_map pack_u16be (take i vs))).
  - apply u16_at_app. rewrite Forall_lookup in Hvs. by eapply Hvs.
  - rewrite Hlen, length_take. apply lookup_lt_Some in Hi. lia.
Qed.

(** The packet of a host is its question. *)
Lemma question_packet {I : PyIdna} ident host name : normalizednshost host = Ok name -> 0 <= ident < 65536 ->
  dnsquestion (makednspacket ident host) = Ok (mkq ident name 1 1).
Proof.
  intros Hn Hid. pose proof (normalized_ok _ _ Hn) as Hok. pose proof (host_labels _ Hok) as Hw.
  unfold makednspacket. rewrite Hn. unfold qname. fold (labels_wire (split_on 46 name)).
  set (lw := labels_wire (split_on 46 name)). set (hd := flat_map pack_u16be [ident; 256; 1; 0; 0; 0]).
  set (tl := flat_map pack_u16be [1; 1]). set (packet := hd ++ (lw ++ [0]) ++ tl).
  assert (Hp : packet = hd ++ lw ++ 0 :: tl) by (unfold packet; by rewrite <- app_assoc).
  assert (Hlen : zlen packet = 12 + zlen lw + 5).
  { rewrite Hp, !zlen_app, zlen_cons. change (zlen hd) with 12. change (zlen tl) with 4. lia. }
  pose proof (zlen_nonneg lw) as H0.
  assert (Hu : forall i v, [ident; 256; 1; 0; 0; 0] !! i = Some v -> u16_at packet (2 * Z.of_nat i) = v).
  { intros i v Hi. apply u16_header; [|done]. repeat constructor; lia. }
  assert (Hq : forall i v, [1; 1] !! i = Some v -> u16_at packet (12 + zlen lw + 1 + 2 * Z.of_nat i) = v).
  { intros i v Hi. unfold u16_at, zslice. rewrite <- (zdrop_zdrop (2 * Z.of_nat i)) by lia.
    assert (zdrop (12 + zlen lw + 1) packet = tl) as ->.
    { unfold packet. rewrite app_assoc. apply zdrop_app_exact. rewrite !zlen_app. change (zlen hd) with 12.
      change (zlen [0]) with 1. lia. }
    replace (12 + zlen lw + 1 + 2 * Z.of_nat i + 2 - (12 + zlen lw + 1 + 2 * Z.of_nat i)) with 2 by lia.
    destruct i as [|[|]]; [by injection Hi as <-|by injection Hi as <-|done]. }
  unfold dnsquestion. rewrite (proj2 (Z.ltb_ge _ _)) by lia.
  change 2 with (2 * Z.of_nat 1) at 1. change 4 with (2 * Z.of_nat 2) at 1. change 6 with (2 * Z.of_nat 3).
  change 8 with (2 * Z.of_nat 4). change 10 with (2 * Z.of_nat 5).
  rewrite (Hu 1%nat 256), (Hu 2%nat 1), (Hu 3%nat 0), (Hu 4%nat 0), (Hu 5%nat 0) by done. cbn [negb orb Z.eqb].
  change (Z.land 256 32768 =? 0) with true. cbn [negb orb].
  change 12 with (zlen hd). rewrite Hp at 1. unfold lw. rewrite parse_labels by (done || (rewrite join_split; apply Hok)).
  cbn [mbind res_bind]. rewrite join_split. fold lw. change (zlen hd) with 12.
  rewrite (proj2 (Z.eqb_eq _ _)) by lia. cbn [negb].
  pose proof (Hq 0%nat 1 eq_refl) as Q0. pose proof (Hq 1%nat 1 eq_refl) as Q1. pose proof (Hu 0%nat ident eq_refl) as U0.
  replace (12 + zlen lw + 1 + 2 * Z.of_nat 0) with (12 + zlen lw + 1) in Q0 by lia.
  change (2 * Z.of_nat 1) with 2 in Q1. change (2 * Z.of_nat 0) with 0 in U0. by rewrite Q0, Q1, U0.
Qed.

(** The packet built for a host name carries exactly the question asked: the
    canonical name, type A and class IN, under the identifier drawn for it. *)
Theorem dns_question_roundtrip {I : PyIdna} ident host :
  0 <= ident < 65536 ->
  match normalizednshost host with
  | Ok name => dnsquestion (makednspacket ident host) = Ok (mkq ident name 1 1)
  | Exc _ => makednspacket ident host = []
  end.
Proof.
  intros Hid. destruct (normalizednshost host) as [name|e] eqn:E; [by apply question_packet|].
  unfold makednspacket. by rewrite E.
Qed.

Lemma Forall_join (P : Z -> Prop) sep ws : Forall (Forall P) ws -> P sep -> Forall P (join_with [sep] ws).
Proof.
  intros Hws Hs. induction Hws as [|w ws Hw Hws IH]; [constructor|]. destruct ws as [|w2 ws]; [done|].
  rewrite join_cons by done. apply Forall_app. split; [done|]. by constructor.
Qed.

Lemma last_join (ws : list pystr) w : w <> [] -> List.last (join_with [46] (ws ++ [w])) 0 = List.last w 0.
Proof.
  intros Hw. assert (Hne : forall l : list pystr, l ++ [w] <> []) by (by intros []).
  assert (Hj : forall l : list pystr, join_with [46] (l ++ [w]) <> []).
  { intros [|x l]; [done|]. cbn [app]. rewrite join_cons by done. by destruct x. }
  assert (Hl : forall (a b : list Z), b <> [] -> List.last (a ++ b) 0 = List.last b 0).
  { intros a b Hb. induction a as [|x a IH]; [done|]. cbn [app]. rewrite <- IH. simpl.
    destruct (a ++ b) eqn:E; [|done]. by apply app_eq_nil in E as [_ ?]. }
  induction ws as [|x ws IH]; [done|]. cbn [app]. rewrite join_cons, Hl by done.
  by rewrite (Hl [46]) by done.
Qed.

Lemma host_chars v : host_ok v -> Forall (fun c => ascii_alnum c || (c =? 45) || (c =? 46) = true) v.
Proof.
  intros (_ & _ & Hl). rewrite <- (join_split 46 v). apply Forall_join; [|done].
  rewrite List.Forall_forall in *. intros l Hin. specialize (Hl l Hin). unfold label_ok in Hl.
  destruct l as [|c l]; [done|]. apply andb_true_iff in Hl as [_ Hl]. rewrite forallb_forall in Hl.
  apply List.Forall_forall. intros x Hx. by rewrite Hl.
Qed.

(** A name accepted for a query is a host name in canonical form: at most 253
    lower-case characters, labels of at most 63 letters, digits and inner
    hyphens; and normalising it again changes nothing. *)
Theorem normalizednshost_canonical {I : PyIdna} {L : PyIdnaLaws I} host v :
  normalizednshost host = Ok v -> host_ok v /\ normalizednshost v = Ok v.
Proof.
  intros Hn. pose proof (normalized_ok _ _ Hn) as Hok. split; [done|].
  pose proof (host_chars v Hok) as Hc. destruct Hok as ([H1 H2] & Hlow & Hl).
  assert (Hascii : forallb is_ascii v = true).
  { apply forallb_forall. rewrite List.Forall_forall in Hc. intros x Hx. specialize (Hc x Hx).
    unfold ascii_alnum, ascii_alpha, ascii_digit, is_ascii in *. lia. }
  assert (Hs : strip v = v).
  { apply strip_unspaced. eapply Forall_impl; [exact Hc|]. intros c H. cbv beta in H.
    unfold ascii_alnum, ascii_alpha, ascii_digit, is_space in *. lia. }
  assert (Hne : v <> []) by (by intros ->).
  assert (Hr : rstrip_char 46 v = v).
  { apply rstrip_keeps; [done|]. rewrite <- (join_split 46 v).
    destruct (exists_last (split_on_nonempty 46 v)) as (ws & w & E). rewrite E in Hl |- *.
    apply Forall_app in Hl as [_ Hw]. apply Forall_cons in Hw as [Hw _]. destruct w as [|c w]; [discriminate Hw|]. unfold label_ok in Hw.
    rewrite last_join by done. apply andb_true_iff in Hw as [Hw _]. apply andb_true_iff in Hw as [_ Hw].
    unfold ascii_alnum, ascii_alpha, ascii_digit in Hw. lia. }
  unfold normalizednshost. rewrite Hs, Hr. rewrite (proj2 (Z.eqb_neq (zlen v) 0)), (proj2 (Z.ltb_ge 253 (zlen v))) by lia. cbn [orb].
  rewrite idna_encode_ascii by done. unfold idna_ascii.
  assert (Hshort : Forall (fun l => 0 < zlen l < 64) (split_on 46 v)).
  { eapply Forall_impl; [exact Hl|]. intros l Hlab. destruct (label_ascii l Hlab) as (_ & ? & ?).
    destruct l; [done|]. rewrite zlen_cons in *. pose proof (zlen_nonneg l). lia. }
  destruct (exists_last (split_on_nonempty 46 v)) as (ws & w & E).
  assert (Hif : forallb (fun l => (0 <? zlen l) && (zlen l <? 64)) (removelast (split_on 46 v))
    && (zlen (List.last (split_on 46 v) []) <? 64) = true).
  { rewrite E, removelast_last, last_last in *. apply Forall_app in Hshort as [G1 G2]. apply Forall_cons in G2 as [G2 _].
    apply andb_true_iff. split; [|lia]. apply forallb_forall. rewrite List.Forall_forall in G1.
    intros x Hx. specialize (G1 x Hx). lia. }
  rewrite Hif, Hascii. cbn [negb]. cbv zeta. rewrite Hlow, (proj2 (Z.ltb_ge _ _)) by lia.
  assert (forallb label_ok (split_on 46 v) = true) as ->; [|done].
  apply forallb_forall. by rewrite List.Forall_forall in Hl.
Qed.

(** The answers of the resolver: the records of a response lie inside it, an address
    is taken only from a record the question leads to, and what is resolved was
    asked for. *)
(** ** Responses *)

(** The records follow one another from [pos] to [stop], each with a name and ten
    bytes of header before its data. *)
Fixpoint laid_out (pos : Z) (rs : list rr) (stop : Z) : Prop :=
  match rs with
  | [] => pos = stop
  | r :: rs => pos + 11 <= rr_off r /\ 0 <= rr_len r < 65536 /\ laid_out (rr_off r + rr_len r) rs stop
  end.

Lemma laid_out_le pos rs stop : laid_out pos rs stop -> pos <= stop.
Proof.
  revert pos. induction rs as [|r rs IH]; intros pos; simpl; [lia|]. intros (H1 & H2 & H3). apply IH in H3. lia.
Qed.

Lemma laid_out_app pos rs1 mid rs2 stop : laid_out pos rs1 mid -> laid_out mid rs2 stop -> laid_out pos (rs1 ++ rs2) stop.
Proof.
  revert pos. induction rs1 as [|r rs1 IH]; intros pos; simpl; [by intros ->|]. intros (H1 & H2 & H3) H4. eauto.
Qed.

Lemma laid_out_In pos rs stop r : laid_out pos rs stop -> In r rs -> pos + 11 <= rr_off r /\ 0 <= rr_len r /\ rr_off r + rr_len r <= stop.
Proof.
  revert pos. induction rs as [|r0 rs IH]; intros pos; simpl; [done|]. intros (H1 & H2 & H3) [<-|Hin].
  - apply laid_out_le in H3. lia.
  - destruct (IH _ H3 Hin). lia.
Qed.

Lemma u16_range data i : bytes_ok data -> 0 <= u16_at data i < 65536.
Proof.
  intros Hb. unfold u16_at. assert (Hs : bytes_ok (zslice data i (i + 2))) by (by apply Forall_take, Forall_drop).
  pose proof (znth_byte _ 0 Hs). pose proof (znth_byte _ 1 Hs). unfold unpack_u16be.
  rewrite lor_shiftl_add by lia. lia.
Qed.

Lemma read_records_spec count sec data offset acc rs next : bytes_ok data ->
  read_records count sec data offset acc = Ok (rs, next) ->
  exists new, rs = acc ++ new /\ List.length new = count /\ laid_out offset new next /\
    Forall (fun r => rr_section r = sec) new /\ (count = 0%nat \/ next <= zlen data).
Proof.
  intros Hb. revert offset acc. induction count as [|count IH]; intros offset acc; cbn [read_records].
  { intros [= <- <-]. exists []. rewrite app_nil_r. split_and!; try done; by left. }
  destruct (parsednsname data offset) as [[owner off]|e] eqn:En; [|done]. cbn [mbind res_bind].
  destruct (parsednsname_loop data offset 0 Hb) as [_ Hname]. rewrite En in Hname. destruct Hname as [_ Ho].
  step_if E1; [done|]. cbv zeta. step_if E2; [done|]. intros H. apply IH in H as (new & -> & Hlen & Hl & Hs & Hn).
  pose proof (u16_range data (off + 8) Hb).
  eexists (_ :: new). rewrite <- app_assoc. split; [done|]. split; [by rewrite <- Hlen|].
  split; [simpl; split; [lia|split; [lia|done]]|]. split; [by constructor|]. right.
  destruct Hn as [->|]; [|done]. destruct new; [|done]. simpl in Hl. lia.
Qed.

(** An accepted response carries the identifier and the question of the query,
    at most 256 records, all of them inside the packet, one after another, and
    nothing after the last. *)
Theorem response_sound data query rcode q rs :
  bytes_ok data -> dnsresponsemetadata data (Some query) = Ok (rcode, q, rs) ->
  dnsquestion query = Ok q /\ u16_at data 0 = q_ident q /\ 0 <= rcode < 16 /\ zlen rs <= 256 /\
  laid_out (match parsednsname data 12 with Ok (_, o) => o + 4 | _ => 0 end) rs (zlen data).
Proof.
  intros Hb. unfold dnsresponsemetadata. step_if E1; [done|]. cbv zeta. step_if E2; [done|]. step_if E3; [done|].
  destruct (parsednsname data 12) as [[name offset]|e]; [|done]. cbn [mbind res_bind].
  step_if E4; [done|]. destruct (dnsquestion query) as [q0|e] eqn:Eq; [|done]. cbn [mbind res_bind].
  step_if E5; [done|]. apply negb_false_iff, bool_decide_eq_true in E5 as <-.
  destruct (read_records _ Answer _ _ _) as [[r1 o1]|e] eqn:R1; [|done]. cbn [mbind res_bind fst snd].
  destruct (read_records _ Authority _ _ _) as [[r2 o2]|e] eqn:R2; [|done]. cbn [mbind res_bind fst snd].
  destruct (read_records _ Additional _ _ _) as [[r3 o3]|e] eqn:R3; [|done]. cbn [mbind res_bind fst snd].
  step_if E6; [done|]. intros [= <- <- <-].
  apply read_records_spec in R1 as (n1 & -> & L1 & O1 & _); [|done].
  apply read_records_spec in R2 as (n2 & -> & L2 & O2 & _); [|done].
  apply read_records_spec in R3 as (n3 & -> & L3 & O3 & _); [|done].
  pose proof (u16_range data 6 Hb). pose proof (u16_range data 8 Hb). pose proof (u16_range data 10 Hb).
  pose proof (u16_range data 2 Hb). apply orb_false_iff in E3 as [_ E3].
  split; [done|]. split; [done|]. split; [by apply (land_byte_bound _ 15 4); lia|]. split.
  - unfold zlen. rewrite !length_app, L1, L2, L3. simpl List.length. lia.
  - apply negb_false_iff, Z.eqb_eq in E6 as <-. cbn [app]. eapply laid_out_app; [|done].
    by eapply laid_out_app.
Qed.

(** ** Aliases *)

Lemma mem_In n l : mem n l = true <-> In n l.
Proof.
  unfold mem. rewrite existsb_exists. split.
  - intros (x & Hx & He). apply str_eqb_eq in He as ->. done.
  - intros H. exists n. split; [done|apply str_eqb_refl].
Qed.

Section Answers.
Context (data : bytes) (rs : list rr) (asked : pystr).

Definition is_alias (r : rr) : Prop := rr_section r = Answer /\ rr_class r = 1 /\ rr_type r = 5.

(** The names the question leads to through the aliases of the answer section. *)
Inductive anchored : pystr -> Prop :=
| anchored_asked : anchored asked
| anchored_alias r alias : In r rs -> is_alias r -> anchored (rr_owner r) ->
    parsednsname data (rr_off r) = Ok (alias, rr_off r + rr_len r) -> anchored alias.

(** An address record for a name the question leads to. *)
Definition qualifies (r : rr) : Prop :=
  rr_section r = Answer /\ rr_type r = 1 /\ rr_class r = 1 /\ rr_len r = 4 /\ anchored (rr_owner r).

(** Every alias record that is followed holds exactly one name. *)
Definition aliases_ok : Prop :=
  forall r, In r rs -> is_alias r -> anchored (rr_owner r) ->
    exists alias, alias <> [] /\ parsednsname data (rr_off r) = Ok (alias, rr_off r + rr_len r).

Definition alias_test (r : rr) (accepted : list pystr) : bool :=
  negb (bool_decide (rr_section r = Answer)) || negb (rr_class r =? 1) || negb (rr_type r =? 5)
  || negb (mem (rr_owner r) accepted).

Lemma alias_test_false r accepted : alias_test r accepted = false <-> is_alias r /\ In (rr_owner r) accepted.
Proof.
  unfold alias_test, is_alias. rewrite !orb_false_iff, !negb_false_iff, bool_decide_eq_true, !Z.eqb_eq, mem_In. tauto.
Qed.

(** One pass keeps to anchored names, adds no name twice, and when it changes
    nothing has no alias left to add. *)
Lemma cname_pass_spec l accepted changed accepted' changed' :
  incl l rs -> (forall n, In n accepted -> anchored n) -> NoDup accepted ->
  cname_pass data l accepted changed = Ok (accepted', changed') ->
  exists new, accepted' = accepted ++ new /\ NoDup accepted' /\ (forall n, In n accepted' -> anchored n) /\
    changed' = changed || bool_decide (new <> []) /\
    (new = [] -> forall r alias, In r l -> is_alias r -> In (rr_owner r) accepted ->
      parsednsname data (rr_off r) = Ok (alias, rr_off r + rr_len r) -> In alias accepted).
Proof.
  revert accepted changed. induction l as [|r l IH]; intros accepted changed Hl Ha Hnd; cbn [cname_pass].
  { intros [= <- <-]. exists []. rewrite app_nil_r. split_and!; try done. by rewrite orb_false_r. }
  apply incl_cons_inv in Hl as [Hr Hl]. fold (alias_test r accepted). destruct (alias_test r accepted) eqn:Et.
  { intros H. destruct (IH _ _ Hl Ha Hnd H) as (new & H1 & H2 & H3 & H4 & H5). exists new. split_and!; try done.
    intros Hn r0 alias [<-|Hin] Hal Ho Hp; [|by eapply H5].
    assert (alias_test r accepted = false) by (by apply alias_test_false). congruence. }
  apply alias_test_false in Et as [Hal Ho].
  destruct (parsednsname data (rr_off r)) as [[alias e]|] eqn:Ep; [|done]. cbn [mbind res_bind fst snd].
  step_if E1; [done|]. apply orb_false_iff in E1 as [E1 E2]. apply negb_false_iff, Z.eqb_eq in E1 as ->.
  step_if E3; intros H.
  - apply mem_In in E3. destruct (IH _ _ Hl Ha Hnd H) as (new & H1 & H2 & H3 & H4 & H5). exists new. split_and!; try done.
    intros Hn r0 alias0 [<-|Hin] Hal0 Ho0 Hp; [congruence|by eapply H5].
  - assert (Hni : ~ In alias accepted) by (rewrite <- mem_In; congruence).
    destruct (IH (accepted ++ [alias]) true Hl) as (new & H1 & H2 & H3 & H4 & H5); [| |done|].
    + intros n [Hn|[<-|[]]]%in_app_iff; [by apply Ha|]. eapply anchored_alias; [done|done|by apply Ha|done].
    + apply NoDup_app. split_and!; [done| |apply NoDup_singleton]. intros x Hx%list_elem_of_In ->%list_elem_of_singleton. done.
    + exists (alias :: new). rewrite H1, <- app_assoc. split; [done|]. rewrite H1, <- app_assoc in H2. rewrite H1 in H3.
      split; [done|]. split; [by rewrite <- app_assoc in H3|]. split; [by rewrite H4, orb_true_r|done].
Qed.

Definition alias_of (r : rr) : pystr := match parsednsname data (rr_off r) with Ok (a, _) => a | Exc _ => [] end.

Lemma anchored_bound n : anchored n -> In n (asked :: List.map alias_of rs).
Proof.
  intros [|r alias Hr _ _ Hp]; [by left|]. right. apply in_map_iff. exists r. split; [|done]. unfold alias_of. by rewrite Hp.
Qed.

(** The rounds reach every anchored name. *)
Lemma cname_rounds_spec rounds accepted accepted' :
  In asked accepted -> (forall n, In n accepted -> anchored n) -> NoDup accepted ->
  (List.length rs + 1 < rounds + List.length accepted)%nat ->
  cname_rounds rounds data rs accepted = Ok accepted' -> forall n, In n accepted' <-> anchored n.
Proof.
  revert accepted. induction rounds as [|rounds IH]; intros accepted Hq Ha Hnd Hlen; cbn [cname_rounds].
  { assert (List.length accepted <= List.length (asked :: List.map alias_of rs))%nat.
    { apply NoDup_incl_length; [by apply NoDup_ListNoDup|]. intros n Hn. by apply anchored_bound, Ha. }
    simpl in *. rewrite length_map in *. lia. }
  destruct (cname_pass data rs accepted false) as [[acc changed]|] eqn:Ep; [|done]. cbn [mbind res_bind fst snd].
  destruct (cname_pass_spec _ _ _ _ _ (incl_refl rs) Ha Hnd Ep) as (new & -> & Hnd' & Ha' & -> & Hc).
  cbn [orb]. destruct (bool_decide_reflect (new <> [])) as [Hne|Hnil].
  - apply IH; [apply in_app_iff; by left|done|done|]. rewrite length_app. destruct new; [done|]. simpl. lia.
  - intros [= <-] n. destruct new as [|x new]; [|by exfalso; apply Hnil]. rewrite app_nil_r.
    split; [apply Ha|]. induction 1 as [|r alias Hr Hal _ IHo Hp]; [done|]. by eapply (Hc eq_refl).
Qed.

(** Well-formed aliases never stop the rounds. *)
Lemma cname_pass_ok l accepted changed : aliases_ok -> incl l rs -> (forall n, In n accepted -> anchored n) ->
  is_ok (cname_pass data l accepted changed) = true.
Proof.
  intros Hok. revert accepted changed. induction l as [|r l IH]; intros accepted changed Hl Ha; cbn [cname_pass]; [done|].
  apply incl_cons_inv in Hl as [Hr Hl]. fold (alias_test r accepted). destruct (alias_test r accepted) eqn:Et; [by apply IH|].
  apply alias_test_false in Et as [Hal Ho]. destruct (Hok r Hr Hal (Ha _ Ho)) as (alias & Hne & Hp). rewrite Hp.
  cbn [mbind res_bind fst snd]. rewrite Z.eqb_refl, bool_decide_eq_false_2 by done. cbn [negb orb].
  step_if E; apply IH; try done. intros n [Hn|[<-|[]]]%in_app_iff; [by apply Ha|].
  eapply anchored_alias; [done|done|by apply Ha|done].
Qed.

Lemma cname_rounds_ok rounds accepted : aliases_ok -> (forall n, In n accepted -> anchored n) -> NoDup accepted ->
  is_ok (cname_rounds rounds data rs accepted) = true.
Proof.
  intros Hok. revert accepted. induction rounds as [|rounds IH]; intros accepted Ha Hnd; cbn [cname_rounds]; [done|].
  pose proof (cname_pass_ok rs accepted false Hok (incl_refl rs) Ha) as Hp.
  destruct (cname_pass data rs accepted false) as [[acc changed]|] eqn:Ep; [|done]. cbn [mbind res_bind fst snd].
  destruct (cname_pass_spec _ _ _ _ _ (incl_refl rs) Ha Hnd Ep) as (new & _ & Hnd' & Ha' & _).
  destruct changed; [by apply IH|done].
Qed.

Lemma is_answer_qualifies accepted r : (forall n, In n accepted <-> anchored n) ->
  is_answer accepted r = true <-> qualifies r.
Proof.
  intros Ha. unfold is_answer, qualifies. rewrite !andb_true_iff, bool_decide_eq_true, !Z.eqb_eq, mem_In, Ha. tauto.
Qed.
End Answers.

Lemma find_first {A} (p : A -> bool) l :
  match List.find p l with
  | Some x => exists pre post, l = pre ++ x :: post /\ p x = true /\ Forall (fun y => p y = false) pre
  | None => Forall (fun y => p y = false) l
  end.
Proof.
  induction l as [|y l IH]; simpl; [constructor|]. destruct (p y) eqn:E; [by exists [], l|].
  destruct (List.find p l) as [x|]; [|by constructor]. destruct IH as (pre & post & -> & H1 & H2).
  exists (y :: pre), post. split_and!; [done|done|by constructor].
Qed.

Definition address (data : bytes) (r : rr) : res pystr := inet_ntoa (zslice data (rr_off r) (rr_off r + rr_len r)).

(** The answer: the address of the first qualifying record, or none. *)
Lemma answer_spec data query rcode q rs :
  dnsresponsemetadata data query = Ok (rcode, q, rs) -> rcode = 0 -> q_type q = 1 -> q_class q = 1 ->
  (exists pre r post, rs = pre ++ r :: post /\ qualifies data rs (q_name q) r /\
     Forall (fun r' => ~ qualifies data rs (q_name q) r') pre /\
     parsednsanswer data query = catch (address data r) []) \/
  parsednsanswer data query = [] /\
    (aliases_ok data rs (q_name q) -> Forall (fun r => ~ qualifies data rs (q_name q) r) rs).
Proof.
  intros Hm -> Ht Hc. unfold parsednsanswer. rewrite Hm. cbn [mbind res_bind]. rewrite Ht, Hc. cbn [Z.eqb negb orb].
  assert (Ha0 : forall n, In n [q_name q] -> anchored data rs (q_name q) n) by (intros n [<-|[]]; constructor).
  pose proof (NoDup_singleton (q_name q)) as Hnd.
  pose proof (cname_rounds_ok data rs (q_name q) (List.length rs + 1) [q_name q]) as Hok.
  destruct (cname_rounds _ data rs [q_name q]) as [accepted|e] eqn:Er; cbn [mbind res_bind].
  - pose proof (cname_rounds_spec data rs (q_name q) (List.length rs + 1) [q_name q] accepted (or_introl eq_refl) Ha0 Hnd ltac:(simpl; lia) Er) as Ha.
    pose proof (find_first (is_answer accepted) rs) as Hf.
    assert (Hno : forall l, Forall (fun y => is_answer accepted y = false) l -> Forall (fun r => ~ qualifies data rs (q_name q) r) l).
    { intros l Hl. eapply Forall_impl; [exact Hl|]. intros r Hr Hqr. apply (is_answer_qualifies data rs (q_name q) accepted) in Hqr; [|done].
      cbv beta in Hr. congruence. }
    destruct (List.find _ rs) as [r|]; [left|right; auto].
    destruct Hf as (pre & post & Hrs & Hr & Hpre). exists pre, r, post. split_and!; [done| |by apply Hno|done].
    by apply (is_answer_qualifies data rs (q_name q) accepted).
  - right. split; [done|]. intros Hal. specialize (Hok Hal Ha0 Hnd). done.
Qed.

(** The answer of a well-formed response is the address of its first A record,
    in the answer section, for a name the question leads to through aliases of
    the answer section; and there is no answer when there is no such record.
    Records of any other section, class or owner are never used. *)
Theorem answer_anchored data query q rs :
  dnsresponsemetadata data query = Ok (0, q, rs) -> q_type q = 1 -> q_class q = 1 ->
  aliases_ok data rs (q_name q) ->
  (exists pre r post, rs = pre ++ r :: post /\ qualifies data rs (q_name q) r /\
     Forall (fun r' => ~ qualifies data rs (q_name q) r') pre /\
     parsednsanswer data query = catch (address data r) []) \/
  (Forall (fun r => ~ qualifies data rs (q_name q) r) rs /\ parsednsanswer data query = []).
Proof.
  intros Hm Ht Hc Hal. destruct (answer_spec data query 0 q rs Hm eq_refl Ht Hc) as [H|[H1 H2]]; [by left|right].
  by split; [apply H2|].
Qed.

(** ** The resolver *)

Section Resolver.
Context {I : PyIdna} {U : PyUnicode}.
Context (inet_pton inet_aton : pystr -> bool) (recv : nat -> pystr -> option (list bytes)).

Lemma asked_validated packet servers : forall turn, let data := ask_servers inet_pton recv turn packet servers in data <> [] ->
  exists k ns l, servers !! k = Some ns /\ inet_pton ns = true /\ recv (turn + k)%nat ns = Some l /\
    In data (List.map (ztake DNSMAXRESP) l) /\ validatednsresponse data packet = true.
Proof.
  induction servers as [|ns servers IH]; intros turn; cbn [ask_servers]; [done|]. cbv zeta.
  assert (Hlater : ask_servers inet_pton recv (S turn) packet servers <> [] ->
    exists k ns0 l, (ns :: servers) !! k = Some ns0 /\ inet_pton ns0 = true /\ recv (turn + k)%nat ns0 = Some l /\
      In (ask_servers inet_pton recv (S turn) packet servers) (List.map (ztake DNSMAXRESP) l) /\
      validatednsresponse (ask_servers inet_pton recv (S turn) packet servers) packet = true).
  { intros Hne. destruct (IH (S turn) Hne) as (k & ns0 & l & H1 & H2 & H3 & H4). exists (S k), ns0, l.
    split_and!; [done|done|by rewrite <- plus_n_Sm|apply H4..]. }
  destruct (inet_pton ns) eqn:Ep; [|done]. cbn [negb]. destruct (recv turn ns) as [l|] eqn:Er; [|done].
  destruct (List.find _ _) as [d|] eqn:Ef; [|done]. intros _. apply find_some in Ef as [Hin Hv].
  exists 0%nat, ns, l. rewrite Nat.add_0_r. by split_and!.
Qed.

Lemma senddns_validated packet servers data : senddns inet_pton recv packet servers = data -> data <> [] ->
  exists k ns l, servers !! k = Some ns /\ inet_pton ns = true /\ recv k ns = Some l /\ In data (List.map (ztake DNSMAXRESP) l) /\
    validatednsresponse data packet = true.
Proof. intros <-. unfold senddns. destruct packet; [done|]. apply asked_validated. Qed.

Lemma validated_meta data packet q0 : validatednsresponse data packet = true -> dnsquestion packet = Ok q0 ->
  exists rcode rs, dnsresponsemetadata data (Some packet) = Ok (rcode, q0, rs).
Proof.
  unfold validatednsresponse. intros Hv Hq. unfold dnsresponsemetadata in *. cbv zeta in *.
  step_if E1; [done|]. step_if E2; [done|]. step_if E3; [done|].
  destruct (parsednsname data 12) as [[name offset]|]; [|done]. cbn [mbind res_bind] in *.
  step_if E4; [done|]. rewrite Hq in *. cbn [mbind res_bind] in *. step_if E5; [done|].
  apply negb_false_iff, bool_decide_eq_true in E5. rewrite E5 in *.
  destruct (read_records _ Answer _ _ _) as [[r1 o1]|]; [|done]. cbn [mbind res_bind fst snd] in *.
  destruct (read_records _ Authority _ _ _) as [[r2 o2]|]; [|done]. cbn [mbind res_bind fst snd] in *.
  destruct (read_records _ Additional _ _ _) as [[r3 o3]|]; [|done]. cbn [mbind res_bind fst snd] in *.
  step_if E6; [done|]. by eexists _, _.
Qed.

Lemma dns_question_packet ident host : 0 <= ident < 65536 -> makednspacket ident host <> [] ->
  exists name, normalizednshost host = Ok name /\ dnsquestion (makednspacket ident host) = Ok (mkq ident name 1 1).
Proof.
  intros Hid Hp. unfold makednspacket in Hp. destruct (normalizednshost host) as [name|] eqn:E; [|done].
  exists name. split; [done|]. by apply question_packet.
Qed.

(** C17: an address the resolver returns for a host that is not an address literal
    was sent by a configured server in answer to this very question: the response
    carries the identifier and the canonical name of the query, reports no error,
    and the address is that of its first qualifying record. *)
Theorem resolved_is_anchored conf ident host ip :
  0 <= ident < 65536 -> inet_aton host = false ->
  resolvename inet_pton inet_aton recv conf ident host = Ok ip ->
  exists name k ns l data rs r, normalizednshost host = Ok name /\
    loaddns conf !! k = Some ns /\ recv k ns = Some l /\ In data (List.map (ztake DNSMAXRESP) l) /\
    dnsresponsemetadata data (Some (makednspacket ident host)) = Ok (0, mkq ident name 1 1, rs) /\
    In r rs /\ qualifies data rs name r /\ address data r = Ok ip.
Proof.
  intros Hid Hlit. unfold resolvename. rewrite Hlit. destruct (loaddns conf) as [|s ss] eqn:Es; [done|]. rewrite <- Es. cbv zeta.
  destruct (bool_decide_reflect (makednspacket ident host = [])) as [|Hp]; [done|].
  set (data := senddns _ _ _ _). destruct (bool_decide_reflect (data = [])) as [|Hd]; [done|].
  destruct (bool_decide_reflect (parsednsanswer data (Some (makednspacket ident host)) = [])) as [|Hi]; [done|]. intros [= <-].
  pose proof (dns_question_packet ident host Hid Hp) as (name & Hn & Hq).
  destruct (senddns_validated _ _ _ eq_refl Hd) as (k & ns & l & H1 & _ & H2 & H3 & H4).
  fold data in H3, H4. destruct (validated_meta _ _ _ H4 Hq) as (rcode & rs & Hm).
  assert (Hr : rcode = 0).
  { destruct (Z.eq_dec rcode 0) as [|Hne]; [done|]. exfalso. apply Hi. unfold parsednsanswer. rewrite Hm.
    cbn [mbind res_bind]. by rewrite (proj2 (Z.eqb_neq _ _)). }
  subst rcode. exists name, k, ns, l, data, rs.
  destruct (answer_spec _ _ _ _ _ Hm eq_refl eq_refl eq_refl) as [(pre & r & post & Hrs & Hqual & _ & Ha)|[He _]]; [|done].
  exists r. split_and!; try done; [rewrite Hrs; apply in_app_iff; right; by left|].
  rewrite Ha in Hi |- *. by destruct (address data r).
Qed.
End Resolver.

(** ** Witnesses *)

#[local] Existing Instance ascii_idna.
#[local] Existing Instance ascii_idna_laws.
#[local] Existing Instance ascii_unicode.

(** A query for [example.com], answered by an alias and the alias's address. *)
Definition demo_host : pystr := lit "Example.com.".
Definition demo_query : bytes := makednspacket 4660 demo_host.
Definition demo_response : bytes :=
  flat_map pack_u16be [4660; 33152; 1; 2; 0; 0] ++ zdrop 12 demo_query
  ++ [192; 12; 0; 5; 0; 1; 0; 0; 0; 60; 0; 4; 1; 119; 192; 12]
  ++ [192; 41; 0; 1; 0; 1; 0; 0; 0; 60; 0; 4; 10; 0; 0; 7].
Definition demo_alias : rr := mkrr Answer (lit "example.com") 5 1 60 41 4.
Definition demo_address : rr := mkrr Answer (lit "w.example.com") 1 1 60 57 4.
Definition demo_question : question := mkq 4660 (lit "example.com") 1 1.

(** A name that points at itself. *)
Definition demo_loop : bytes := [3; 97; 98; 99; 192; 0].

Lemma demo_bytes_ok l : forallb (fun b => (0 <=? b) && (b <? 256)) l = true -> bytes_ok l.
Proof.
  intros H. apply List.Forall_forall. rewrite forallb_forall in H. intros b Hb. specialize (H b Hb). unfold is_byte. lia.
Qed.

Lemma demo_meta : dnsresponsemetadata demo_response (Some demo_query) = Ok (0, demo_question, [demo_alias; demo_address]).
Proof. by vm_compute. Qed.

Lemma parsednsname_total_witness : name_loop (name_fuel demo_loop) demo_loop 0 None [] [] 0 = Some (Exc ValueError).
Proof.
  exact (proj1 (parsednsname_total demo_loop 0 (name_fuel demo_loop) (demo_bytes_ok demo_loop eq_refl) (le_n _))).
Defined.

Lemma dns_question_roundtrip_witness : dnsquestion demo_query = Ok demo_question.
Proof. exact (dns_question_roundtrip 4660 demo_host ltac:(lia)). Defined.

Lemma normalizednshost_canonical_witness : host_ok (lit "example.com") /\ normalizednshost (lit "example.com") = Ok (lit "example.com").
Proof. exact (normalizednshost_canonical demo_host (lit "example.com") eq_refl). Defined.

Lemma response_sound_witness : dnsquestion demo_query = Ok demo_question /\ laid_out 29 [demo_alias; demo_address] (zlen demo_response).
Proof.
  pose proof (response_sound demo_response demo_query 0 demo_question _ (demo_bytes_ok demo_response eq_refl) demo_meta) as (H & _ & _ & _ & H').
  split; [exact H|exact H'].
Defined.

Lemma answer_anchored_witness : parsednsanswer demo_response (Some demo_query) = lit "10.0.0.7" /\
  exists r, qualifies demo_response [demo_alias; demo_address] (lit "example.com") r.
Proof.
  assert (Hal : aliases_ok demo_response [demo_alias; demo_address] (lit "example.com")).
  { intros r [<-|[<-|[]]] Hr _; [|by destruct Hr as (_ & _ & Hr)]. exists (lit "w.example.com"). split; [done|by vm_compute]. }
  destruct (answer_anchored demo_response (Some demo_query) demo_question _ demo_meta eq_refl eq_refl Hal)
    as [(pre & r & post & _ & Hq & _)|[_ He]].
  - split; [by vm_compute|by exists r].
  - exfalso. assert (Hc : parsednsanswer demo_response (Some demo_query) = lit "10.0.0.7") by (by vm_compute). rewrite Hc in He. discriminate He.
Defined.

Definition demo_recv (turn : nat) (ns : pystr) : option (list bytes) := Some [demo_query; demo_response].

Lemma resolved_is_anchored_witness :
  exists name k ns, normalizednshost demo_host = Ok name /\ loaddns (Some (lit "nameserver 10.0.0.1")) !! k = Some ns /\
    resolvename (fun _ => true) (fun _ => false) demo_recv (Some (lit "nameserver 10.0.0.1")) 4660 demo_host = Ok (lit "10.0.0.7").
Proof.
  assert (H : resolvename (fun _ => true) (fun _ => false) demo_recv (Some (lit "nameserver 10.0.0.1")) 4660 demo_host
    = Ok (lit "10.0.0.7")) by (by vm_compute).
  destruct (resolved_is_anchored (fun _ => true) (fun _ => false) demo_recv _ 4660 demo_host (lit "10.0.0.7") ltac:(lia) eq_refl H)
    as (name & k & ns & _ & _ & _ & _ & H1 & H2 & _).
  exists name, k, ns. exact (conj H1 (conj H2 H)).
Defined.
