(* ===== verification/Dhcp.v ===== *)
(** DHCP in the network service (network.py): packets, replies taken from the link
    layer, options, the offer, the request and the lease that is applied. *)

From stdpp Require Import base list strings.
From Stdlib Require Import ZArith Lia Bool String.
From S2P Require Import Prelude Assoc PyFloat PyText PyVal PyStr Dns.
Open Scope Z_scope.

Definition DHCPSERVERPORT : Z := 67.
Definition DHCPCLIENTPORT : Z := 68.
Definition DHCPMAGIC : bytes := [99; 130; 83; 99].

(** ** Hardware addresses *)

Section Hardware.
Context {U : PyUnicode}.

Definition hex_value (c : Z) : option Z :=
  match uc_decimal c with
  | Some d => Some d
  | None => if (97 <=? c) && (c <=? 102) then Some (c - 87) else if (65 <=? c) && (c <=? 70) then Some (c - 55) else None
  end.

(** Hexadecimal digits with single underscores between them. *)
Fixpoint hex_digits_val (after_digit : bool) (v : Z) (s : pystr) : option Z :=
  match s with
  | [] => if after_digit then Some v else None
  | c :: s' =>
      match hex_value c with
      | Some d => hex_digits_val true (v * 16 + d) s'
      | None => if (c =? 95) && after_digit then hex_digits_val false v s' else None
      end
  end.

(** [int(s, 16)]: white space, a sign and a [0x] prefix are accepted. *)
Definition int_of_hex (s : pystr) : res Z :=
  let '(neg, body) := split_sign (strip s) in
  let digits :=
    match body with
    | z :: x :: rest =>
        if (z =? 48) && ((x =? 120) || (x =? 88)) then
          match rest with u :: rest' => if u =? 95 then hex_digits_val false 0 rest' else hex_digits_val false 0 rest | [] => None end
        else hex_digits_val false 0 body
    | _ => hex_digits_val false 0 body
    end in
  match digits with Some v => Ok (if neg then - v else v) | None => Exc ValueError end.

Fixpoint hex_bytes (l : list pystr) : res bytes :=
  match l with
  | [] => Ok []
  | s :: l => v ← int_of_hex s; if (v <? 0) || (255 <? v) then Exc ValueError else r ← hex_bytes l; Ok (v :: r)
  end.

(** [bytes(int(value, 16) for value in mac.split(':'))] *)
Definition hardware (mac : pystr) : res bytes := hex_bytes (split_on 58 mac).
End Hardware.

(** ** Packets *)

Section Packets.
Context {U : PyUnicode}.
(** [inet_aton]: the C library's reading of an address. *)
Context (inet_aton : pystr -> res bytes).

Definition bootp (hw : bytes) (xid : Z) (broadcast : bool) : bytes :=
  [1; 1; 6; 0] ++ pack_u32be xid ++ pack_u16be 0 ++ pack_u16be (if broadcast then 32768 else 0)
  ++ zreplicate 16 0 ++ (hw ++ zreplicate 10 0) ++ zreplicate 192 0 ++ DHCPMAGIC.

Definition dhcpbasepacket (mac : pystr) (xid : Z) (broadcast : bool) : res bytes :=
  hw ← hardware mac;
  if negb (zlen hw =? 6) then Exc ValueError
  else if (xid <? 0) || (4294967295 <? xid) then Exc StructError
  else Ok (bootp hw xid broadcast).

Definition padbootp (packet : bytes) : bytes :=
  if zlen packet <? 300 then packet ++ zreplicate (300 - zlen packet) 0 else packet.

(** Option 61, the client identifier; 57, the largest message; 55, what is asked. *)
Definition common_options (hw : bytes) : bytes :=
  [61; 7; 1] ++ hw ++ [57; 2; 2; 64] ++ [55; 8; 1; 3; 6; 15; 28; 51; 58; 59] ++ [255].

Definition dhcpdiscoverpacket (mac : pystr) (xid : Z) : res bytes :=
  hw ← hardware mac;
  packet ← dhcpbasepacket mac xid true;
  Ok (padbootp (packet ++ [53; 1; 1] ++ common_options hw)).

Definition dhcprequestpacket (mac : pystr) (xid : Z) (yiaddr server : pystr) (broadcast : bool) : res bytes :=
  hw ← hardware mac;
  packet ← dhcpbasepacket mac xid broadcast;
  y ← inet_aton yiaddr;
  s ← inet_aton server;
  Ok (padbootp (packet ++ [53; 1; 3] ++ ([50; 4] ++ y) ++ ([54; 4] ++ s) ++ common_options hw)).
End Packets.

(** ** Replies from the link layer *)

(** At most [n] 802.1Q tags are skipped; [None]: the frame ends within a tag. *)
Fixpoint skip_tags (n : nat) (packet : bytes) (offset ethertype : Z) : option (Z * Z) :=
  match n with
  | O => Some (offset, ethertype)
  | S n =>
      if negb ((ethertype =? 33024) || (ethertype =? 34984)) then Some (offset, ethertype)
      else if zlen packet <? offset + 4 then None
      else skip_tags n packet (offset + 4) (u16_at packet (offset + 2))
  end.

Definition dhcpframepayload (packet : bytes) : option (bytes * (res pystr * Z)) :=
  if zlen packet <? 42 then None
  else
    match skip_tags 2 packet 14 (u16_at packet 12) with
    | None => None
    | Some (offset, ethertype) =>
        if negb (ethertype =? 2048) || (zlen packet <? offset + 20) then None
        else
          let versionihl := znth packet offset in
          if negb (Z.shiftr versionihl 4 =? 4) then None
          else
            let ipheader := Z.land versionihl 15 * 4 in
            if (ipheader <? 20) || (zlen packet <? offset + ipheader + 8) then None
            else if negb (znth packet (offset + 9) =? 17) then None
            else if negb (Z.land (u16_at packet (offset + 6)) 8191 =? 0) then None
            else
              let source := inet_ntoa (zslice packet (offset + 12) (offset + 16)) in
              let udp := offset + ipheader in
              let sourceport := u16_at packet udp in
              let destinationport := u16_at packet (udp + 2) in
              let udplength := u16_at packet (udp + 4) in
              if negb (sourceport =? DHCPSERVERPORT) || negb (destinationport =? DHCPCLIENTPORT) || (udplength <? 8) then None
              else
                let stop := Z.min (zlen packet) (udp + udplength) in
                match zslice packet (udp + 8) stop with
                | [] => None
                | payload => Some (payload, (source, sourceport))
                end
    end.

(** ** Options *)

Abbreviation dhcp_options := (list (Z * bytes)).

(** [result.setdefault(code, value)] *)
Definition setdefault (code : Z) (value : bytes) (d : dhcp_options) : dhcp_options :=
  match aget code d with Some _ => d | None => aset code value d end.

(** Every turn but the last goes on at least one byte, so the length is fuel
    enough. *)
Fixpoint options_loop (fuel : nat) (options : bytes) (offset : Z) (result : dhcp_options) : dhcp_options :=
  match fuel with
  | O => result
  | S fuel =>
      if zlen options <=? offset then result
      else
        let code := znth options offset in
        if code =? 255 then result
        else if code =? 0 then options_loop fuel options (offset + 1) result
        else if zlen options <=? offset + 1 then result
        else
          let length := znth options (offset + 1) in
          let stop := offset + 2 + length in
          if zlen options <? stop then result
          else options_loop fuel options stop (setdefault code (zslice options (offset + 2) stop) result)
  end.

Definition parsedhcpoptions (packet : bytes) : dhcp_options :=
  if (zlen packet <? 240) || negb (bool_decide (zslice packet 236 240 = DHCPMAGIC)) then []
  else let options := zdrop 240 packet in options_loop (S (List.length options)) options 0 [].

(** ** The offer *)

(** Addresses of an option's value, in groups of four bytes, without repetition. *)
Fixpoint nameservers (fuel : nat) (value : bytes) (known : list pystr) : res (list pystr) :=
  match fuel with
  | O => Ok known
  | S fuel =>
      if zlen value <? 4 then Ok known
      else
        ns ← inet_ntoa (ztake 4 value);
        nameservers fuel (zdrop 4 value) (if existsb (str_eqb ns) known then known else known ++ [ns])
  end.

Record offered : Type := mkoff { of_router : option pystr; of_server : option pystr; of_dns : list pystr }.

Definition first_address (known : option pystr) (value : bytes) : res (option pystr) :=
  match known with
  | Some a => Ok (Some a)
  | None => if 4 <=? zlen value then a ← inet_ntoa (ztake 4 value); Ok (Some a) else Ok None
  end.

(** What one option adds to the offer. *)
Definition offer_option (code : Z) (value : bytes) (o : offered) : res offered :=
  router ← (if code =? 3 then first_address (of_router o) value else Ok (of_router o));
  server ← (if code =? 54 then first_address (of_server o) value else Ok (of_server o));
  dns ← (if (code =? 6) && (4 <=? zlen value) then nameservers (List.length value) value (of_dns o) else Ok (of_dns o));
  Ok (mkoff router server dns).

Fixpoint offer_loop (fuel : nat) (opts : bytes) (i : Z) (o : offered) : res offered :=
  match fuel with
  | O => Ok o
  | S fuel =>
      if zlen opts <=? i then Ok o
      else
        let code := znth opts i in
        if code =? 255 then Ok o
        else if code =? 0 then offer_loop fuel opts (i + 1) o
        else if zlen opts <=? i + 1 then Ok o
        else
          let length := znth opts (i + 1) in
          if zlen opts <? i + 2 + length then Ok o
          else
            o ← offer_option code (zslice opts (i + 2) (i + 2 + length)) o;
            offer_loop fuel opts (i + 2 + length) o
  end.

Record offer : Type := mkoffer {
  f_yiaddr : pystr; f_router : option pystr; f_server : option pystr; f_dns : list pystr; f_xid : Z }.

(** [rx]: the datagram received, [None] when the wait times out; also the options
    kept for later. *)
Definition dhcptransaction (xid : Z) (rx : option bytes) : res (option offer) * dhcp_options :=
  match rx with
  | None => (Ok None, [])
  | Some data =>
      let data := ztake 1024 data in
      (if zlen data <? 8 then Exc StructError
       else
         yiaddr ← inet_ntoa (zslice data 16 20);
         let opts := zdrop 240 data in
         o ← offer_loop (S (List.length opts)) opts 0 (mkoff None None []);
         Ok (Some (mkoffer yiaddr (of_router o) (of_server o) (of_dns o) xid)),
       parsedhcpoptions data)
  end.

(** ** The request *)

(** A datagram on the UDP socket, or a frame seen by the link-layer listener. *)
Inductive arrival : Type := Udp (data : bytes) | Frame (frame : bytes).

Definition received (a : arrival) : option bytes :=
  match a with
  | Udp data => Some (ztake 2048 data)
  | Frame frame => fst <$> dhcpframepayload (ztake 65535 frame)
  end.

(** [LASTDHCPOPTIONS.update(options)] *)
Definition update (last options : dhcp_options) : dhcp_options := fold_left (fun d kv => aset kv.1 kv.2 d) options last.

(** Replies are taken until one is an ACK or a NAK; [None]: the mode's time is
    over. *)
Fixpoint ack_loop (xid : Z) (hw : bytes) (replies : list arrival) (last : dhcp_options) : option (bool * dhcp_options) :=
  match replies with
  | [] => None
  | a :: replies =>
      match received a with
      | None => ack_loop xid hw replies last
      | Some data =>
          if zlen data <? 240 then ack_loop xid hw replies last
          else if negb (u32_at data 4 =? xid) || negb (bool_decide (zslice data 28 34 = hw)) then ack_loop xid hw replies last
          else
            let options := parsedhcpoptions data in
            let messagetype := ztake 1 (default [0] (aget 53 options)) in
            if bool_decide (messagetype = [5]) then Some (true, update last options)
            else if bool_decide (messagetype = [6]) then Some (false, last)
            else ack_loop xid hw replies last
      end
  end.

Section Lease.
Context {U : PyUnicode}.
Context (inet_aton : pystr -> res bytes).

(** [modes]: what arrives while the broadcast mode and the direct mode wait. *)
Definition dhcprequest (mac : pystr) (xid : Z) (yiaddr server : pystr) (modes : list arrival * list arrival)
    (last : dhcp_options) : res (bool * dhcp_options) :=
  hw ← hardware mac;
  Ok (catch
    (_ ← dhcprequestpacket inet_aton mac xid yiaddr server true;
     match ack_loop xid hw modes.1 last with
     | Some r => Ok r
     | None =>
         _ ← dhcprequestpacket inet_aton mac xid yiaddr server false;
         Ok (default (false, last) (ack_loop xid hw modes.2 last))
     end) (false, last)).

Record lease : Type := mklease {
  l_address : pystr; l_router : pystr; l_server : option pystr; l_dns : list pystr; l_options : dhcp_options }.

(** Up to three transactions, until one offers an address and a router. *)
Fixpoint attempts (l : list (Z * option bytes)) (last : option offer * dhcp_options) : res (option offer * dhcp_options) :=
  match l with
  | [] => Ok last
  | (xid, rx) :: l =>
      let '(r, options) := dhcptransaction xid rx in
      r ← r;
      match r with
      | Some o => if bool_decide (f_router o <> None) then Ok (Some o, options) else attempts l (Some o, options)
      | None => attempts l (None, options)
      end
  end.

(** [mac]: the hardware address of the interface, once it is up.  The lease that is
    applied, if any. *)
Definition configdhcp (mac : option pystr) (tries : list (Z * option bytes)) (modes : list arrival * list arrival) :
    res (option lease) :=
  match mac with
  | None => Ok None
  | Some mac =>
      (** The discover packet is built, and can fail, before each wait. *)
      _ ← dhcpdiscoverpacket mac 1;
      r ← attempts (take 3 tries) (None, []);
      let '(o, last) := r in
      match o with
      | None => Ok None
      | Some o =>
          match f_router o with
          | None => Ok None
          | Some router =>
              match f_server o with
              | None => Ok (Some (mklease (f_yiaddr o) router None (f_dns o) last))
              | Some server =>
                  r ← dhcprequest mac (f_xid o) (f_yiaddr o) server modes last;
                  if r.1 : bool then Ok (Some (mklease (f_yiaddr o) router (Some server) (f_dns o) r.2)) else Ok None
              end
          end
      end
  end.
End Lease.
