(* ===== verification/DhcpSpec.v ===== *)
(** The DHCP client: options read back as they were written, frames give their
    payload, an acknowledgement is authenticated and an offer is not. *)

From stdpp Require Import base list strings.
From Stdlib Require Import ZArith Lia Bool String.
From S2P Require Import Prelude Assoc PyFloat PyText PyVal PyStr Dns DnsSpec Dhcp.
Open Scope Z_scope.

(** ** Options *)

Definition encode_options (opts : dhcp_options) : bytes := flat_map (fun o => o.1 :: zlen o.2 :: o.2) opts.

(** Codes 0 and 255 are padding and the end; a length is one byte. *)
Definition option_ok (o : Z * bytes) : Prop := 1 <= o.1 <= 254 /\ zlen o.2 <= 255.

(** The first value of every code, in order of appearance. *)
Definition first_values (opts : dhcp_options) : dhcp_options :=
  fold_left (fun d o => setdefault o.1 o.2 d) opts [].

(** A loop over the options takes them one by one. *)
Lemma option_at pre c v post : znth (pre ++ c :: zlen v :: v ++ post) (zlen pre) = c /\
  znth (pre ++ c :: zlen v :: v ++ post) (zlen pre + 1) = zlen v /\
  zslice (pre ++ c :: zlen v :: v ++ post) (zlen pre + 2) (zlen pre + 2 + zlen v) = v.
Proof.
  split; [apply znth_app|]. split.
  - replace (pre ++ c :: zlen v :: v ++ post) with ((pre ++ [c]) ++ zlen v :: v ++ post) by (by rewrite <- app_assoc).
    replace (zlen pre + 1) with (zlen (pre ++ [c])) by (rewrite zlen_app; done). apply znth_app.
  - replace (pre ++ c :: zlen v :: v ++ post) with ((pre ++ [c; zlen v]) ++ v ++ post) by (by rewrite <- app_assoc).
    apply zslice_app_mid; rewrite zlen_app; change (zlen [c; zlen v]) with 2; lia.
Qed.

Lemma options_loop_encode opts fuel pre post acc : Forall option_ok opts ->
  options_loop (List.length opts + S fuel) (pre ++ encode_options opts ++ 255 :: post) (zlen pre) acc =
  fold_left (fun d o => setdefault o.1 o.2 d) opts acc.
Proof.
  intros Hok. revert pre acc. induction Hok as [|[c v] opts [Hc Hv] _ IH]; intros pre acc.
  - cbn [List.length Nat.add options_loop encode_options flat_map app fold_left].
    rewrite zlen_app, zlen_cons, znth_app. pose proof (zlen_nonneg post).
    rewrite (proj2 (Z.leb_gt _ _)) by lia. done.
  - cbn [List.length Nat.add options_loop fold_left fst snd] in *.
    set (rest := encode_options opts ++ 255 :: post).
    assert (E : encode_options ((c, v) :: opts) ++ 255 :: post = c :: zlen v :: v ++ rest)
      by (unfold rest; simpl; by rewrite <- app_assoc).
    rewrite E. destruct (option_at pre c v rest) as (H1 & H2 & H3). rewrite H1, H2.
    pose proof (zlen_nonneg v). pose proof (zlen_nonneg rest). pose proof (zlen_nonneg pre).
    assert (Hz : zlen (pre ++ c :: zlen v :: v ++ rest) = zlen pre + 2 + zlen v + zlen rest)
      by (rewrite zlen_app, !zlen_cons, zlen_app; lia).
    rewrite Hz, !(proj2 (Z.leb_gt _ _)) by lia. rewrite !(proj2 (Z.eqb_neq _ _)) by lia. cbv zeta.
    rewrite (proj2 (Z.ltb_ge _ _)), H3 by lia.
    specialize (IH (pre ++ c :: zlen v :: v)). rewrite zlen_app, !zlen_cons in IH.
    replace (zlen pre + 2 + zlen v) with (zlen pre + (1 + (1 + zlen v))) by lia.
    replace (pre ++ c :: zlen v :: v ++ rest) with ((pre ++ c :: zlen v :: v) ++ encode_options opts ++ 255 :: post)
      by (rewrite <- app_assoc; done). apply IH.
Qed.

Lemma encode_options_length opts : Z.of_nat (List.length opts) <= zlen (encode_options opts).
Proof.
  induction opts as [|o opts IH]; [done|].
  change (encode_options (o :: opts)) with (o.1 :: zlen o.2 :: o.2 ++ encode_options opts).
  rewrite !zlen_cons, zlen_app. pose proof (zlen_nonneg o.2). cbn [List.length]. lia.
Qed.

Lemma parsed_encoded base opts post : zlen base = 240 -> zslice base 236 240 = DHCPMAGIC -> Forall option_ok opts ->
  parsedhcpoptions (base ++ encode_options opts ++ 255 :: post) = first_values opts.
Proof.
  intros Hb Hm Hok. unfold parsedhcpoptions. pose proof (zlen_nonneg (encode_options opts ++ 255 :: post)).
  rewrite zlen_app, (proj2 (Z.ltb_ge _ _)) by lia.
  assert (zslice (base ++ encode_options opts ++ 255 :: post) 236 240 = zslice base 236 240) as ->.
  { unfold zslice, ztake, zdrop. unfold zlen in Hb. rewrite drop_app_le, take_app_le; [done| |lia].
    rewrite length_drop. lia. }
  rewrite Hm, bool_decide_eq_true_2 by done. cbn [orb negb]. rewrite zdrop_app_exact by done. cbv zeta.
  assert (Hf : exists f, S (List.length (encode_options opts ++ 255 :: post)) = (List.length opts + S f)%nat).
  { pose proof (encode_options_length opts). rewrite length_app. unfold zlen in *.
    exists (List.length (encode_options opts) + List.length (255%Z :: post) - List.length opts)%nat. lia. }
  destruct Hf as [f ->]. exact (options_loop_encode opts f [] post [] Hok).
Qed.

(** The options of a packet, written one after another and ended by 255, are
    read back with the first value of every code; what follows the end is
    ignored. *)
Theorem dhcp_options_roundtrip base opts post code :
  zlen base = 240 -> zslice base 236 240 = DHCPMAGIC -> Forall option_ok opts ->
  aget code (parsedhcpoptions (base ++ encode_options opts ++ 255 :: post)) = snd <$> List.find (fun o => o.1 =? code) opts.
Proof.
  intros Hb Hm Hok. rewrite parsed_encoded by done. unfold first_values. clear.
  assert (H : forall d, aget code (fold_left (fun d o => setdefault o.1 o.2 d) opts d) =
    match aget code d with Some v => Some v | None => snd <$> List.find (fun o => o.1 =? code) opts end).
  { induction opts as [|[c v] opts IH]; intros d; simpl; [by destruct (aget code d)|]. rewrite IH. unfold setdefault. simpl.
    destruct (Z.eqb_spec c code) as [->|Hne].
    - destruct (aget code d) eqn:E; [by rewrite E|]. by rewrite aget_aset_eq.
    - destruct (aget c d); [done|]. by rewrite aget_aset_ne. }
  apply (H []).
Qed.

(** ** Packets *)

Lemma hex_bytes_range {U : PyUnicode} l hw : hex_bytes l = Ok hw -> bytes_ok hw.
Proof.
  revert hw. induction l as [|s l IH]; intros hw; simpl; [by intros [= <-]; constructor|].
  destruct (int_of_hex s) as [v|]; [|done]. cbn [mbind res_bind]. step_if E; [done|].
  destruct (hex_bytes l) as [r|]; [|done]. cbn [mbind res_bind]. intros [= <-]. constructor; [unfold is_byte; lia|].
  by apply IH.
Qed.

Lemma bootp_fields hw xid bc : zlen hw = 6 -> 0 <= xid < 4294967296 ->
  zlen (bootp hw xid bc) = 240 /\ zslice (bootp hw xid bc) 236 240 = DHCPMAGIC /\
  forall post, u32_at (bootp hw xid bc ++ post) 4 = xid /\ zslice (bootp hw xid bc ++ post) 28 34 = hw.
Proof.
  intros Hhw Hx. unfold bootp. set (fl := pack_u16be (if bc then 32768 else 0)).
  assert (Hfl : zlen fl = 2) by (unfold fl, pack_u16be; zlen_lia).
  assert (Hp : zlen (pack_u32be xid) = 4) by (unfold pack_u32be; zlen_lia).
  split; [|split].
  - rewrite !zlen_app, !zlen_replicate, Hfl, Hp, Hhw. unfold DHCPMAGIC. done.
  - replace (_ ++ _) with (([1; 1; 6; 0] ++ pack_u32be xid ++ pack_u16be 0 ++ fl ++ zreplicate 16 0 ++ (hw ++ zreplicate 10 0) ++ zreplicate 192 0) ++ DHCPMAGIC ++ [])
      by (by rewrite app_nil_r, <- !app_assoc).
    apply zslice_app_mid; rewrite !zlen_app, !zlen_replicate, Hfl, Hp, Hhw; done.
  - intros post. split.
    + unfold u32_at. rewrite <- !app_assoc. rewrite zslice_app_mid; [|done|by rewrite Hp].
      rewrite <- (app_nil_r (pack_u32be xid)). by apply unpack_pack_u32be.
    + replace (_ ++ post) with (([1; 1; 6; 0] ++ pack_u32be xid ++ pack_u16be 0 ++ fl ++ zreplicate 16 0) ++ hw ++
        (zreplicate 10 0 ++ zreplicate 192 0 ++ DHCPMAGIC ++ post)) by (by rewrite <- !app_assoc).
      apply zslice_app_mid; rewrite !zlen_app, !zlen_replicate, Hfl, Hp; [done|rewrite Hhw; done].
Qed.

Section Requests.
Context {U : PyUnicode}.
(** What the code relies on: an address read by the C library has four bytes. *)
Context (inet_aton : pystr -> res bytes) (inet_aton_len : forall s b, inet_aton s = Ok b -> zlen b = 4).

Definition request_options (hw y s : bytes) : dhcp_options :=
  [(53, [3]); (50, y); (54, s); (61, 1 :: hw); (57, [2; 64]); (55, [1; 3; 6; 15; 28; 51; 58; 59])].

(** The request packet has at least 300 bytes, carries the transaction
    identifier and the hardware address where a server looks for them, and its
    options read back as the message type, the address asked for, the server
    chosen and the client's identifier. *)
Theorem dhcp_request_packet mac xid yiaddr server broadcast packet :
  dhcprequestpacket inet_aton mac xid yiaddr server broadcast = Ok packet ->
  exists hw y s, hardware mac = Ok hw /\ inet_aton yiaddr = Ok y /\ inet_aton server = Ok s /\
    300 <= zlen packet /\ u32_at packet 4 = xid /\ zslice packet 28 34 = hw /\
    parsedhcpoptions packet = request_options hw y s.
Proof using inet_aton_len.
  unfold dhcprequestpacket, dhcpbasepacket. destruct (hardware mac) as [hw|] eqn:Eh; [|done]. cbn [mbind res_bind].
  step_if E1; [done|]. step_if E2; [done|]. cbn [mbind res_bind].
  destruct (inet_aton yiaddr) as [y|] eqn:Ey; [|done]. cbn [mbind res_bind].
  destruct (inet_aton server) as [s|] eqn:Es; [|done]. cbn [mbind res_bind]. intros Hpk.
  assert (packet = padbootp (bootp hw xid broadcast ++ [53; 1; 3] ++ ([50; 4] ++ y) ++ ([54; 4] ++ s) ++ common_options hw))
    as -> by congruence. clear Hpk.
  exists hw, y, s. split; [done|]. split; [done|]. split; [done|].
  apply negb_false_iff, Z.eqb_eq in E1. pose proof (inet_aton_len _ _ Ey) as Hy. pose proof (inet_aton_len _ _ Es) as Hs.
  destruct (bootp_fields hw xid broadcast E1 ltac:(lia)) as (H1 & H2 & H3).
  set (base := bootp hw xid broadcast) in *.
  assert (Hpad : exists post, padbootp (base ++ [53; 1; 3] ++ ([50; 4] ++ y) ++ ([54; 4] ++ s) ++ common_options hw) =
    base ++ encode_options (request_options hw y s) ++ 255 :: post).
  { assert (Henc : base ++ [53; 1; 3] ++ ([50; 4] ++ y) ++ ([54; 4] ++ s) ++ common_options hw =
      base ++ encode_options (request_options hw y s) ++ [255]).
    { unfold request_options, encode_options, common_options. cbn [flat_map fst snd]. rewrite (zlen_cons 1 hw), Hy, Hs, E1.
      change (zlen [3]) with 1. change (zlen [2; 64]) with 2. change (zlen [1; 3; 6; 15; 28; 51; 58; 59]) with 8.
      change (1 + 6) with 7. repeat (cbn [app]; rewrite <- ?app_assoc). cbn [app]. reflexivity. }
    rewrite Henc. unfold padbootp. destruct (_ <? 300); [|by exists []].
    eexists. rewrite <- !app_assoc. done. }
  split.
  { unfold padbootp. step_if E3; [|lia]. rewrite zlen_app, zlen_replicate. lia. }
  destruct Hpad as [post Hpad]. rewrite Hpad. destruct (H3 (encode_options (request_options hw y s) ++ 255 :: post)) as [H4 H5].
  split; [done|]. split; [done|]. rewrite parsed_encoded; [done|done|done|].
  repeat constructor; simpl; try lia; rewrite ?zlen_cons, ?Hy, ?Hs, ?E1; done.
Qed.
End Requests.

(** ** Frames *)

(** Reading past a prefix. *)
Lemma zslice_past (pre r : bytes) a b : 0 <= a -> zslice (pre ++ r) (zlen pre + a) (zlen pre + b) = zslice r a b.
Proof.
  intros Ha. unfold zslice, zdrop, zlen. replace (Z.of_nat (List.length pre) + b - (Z.of_nat (List.length pre) + a)) with (b - a) by lia.
  rewrite drop_app_ge by lia. do 2 f_equal. lia.
Qed.

Lemma znth_past pre r i : 0 <= i -> znth (pre ++ r) (zlen pre + i) = znth r i.
Proof. intros Hi. unfold znth, zlen. rewrite app_nth2 by lia. f_equal. lia. Qed.

Lemma u16_past pre r i : 0 <= i -> u16_at (pre ++ r) (zlen pre + i) = u16_at r i.
Proof. intros Hi. unfold u16_at. replace (zlen pre + i + 2) with (zlen pre + (i + 2)) by lia. by rewrite zslice_past. Qed.

(** 802.1Q tags: a type and the tag's value. *)
Definition tag_ok (t : Z * Z) : Prop := (t.1 = 33024 \/ t.1 = 34984) /\ 0 <= t.2 < 65536.
Definition tags_wire (tags : list (Z * Z)) : bytes := flat_map (fun t => pack_u16be t.1 ++ pack_u16be t.2) tags.

Lemma tags_wire_length tags : zlen (tags_wire tags) = 4 * Z.of_nat (List.length tags).
Proof.
  induction tags as [|t tags IH]; [done|]. unfold tags_wire in *. cbn [flat_map]. rewrite !zlen_app, IH.
  unfold pack_u16be. zlen_lia.
Qed.

Lemma u16_pack v post : 0 <= v < 65536 -> u16_at (pack_u16be v ++ post) 0 = v.
Proof. intros Hv. exact (u16_at_app [] v post Hv). Qed.

Lemma skip_tags_spec n tags pre post : (List.length tags <= n)%nat -> Forall tag_ok tags ->
  let packet := pre ++ tags_wire tags ++ pack_u16be 2048 ++ post in
  skip_tags n packet (zlen pre + 2) (u16_at packet (zlen pre + 0)) = Some (zlen pre + zlen (tags_wire tags) + 2, 2048).
Proof.
  intros Hn Htags. cbv zeta. revert n pre Hn. induction Htags as [|[t v] tags [Ht Hv] _ IH]; intros n pre Hn.
  - rewrite u16_past by done. cbn [tags_wire flat_map app]. rewrite u16_pack by lia. change (zlen (@nil Z)) with 0.
    rewrite Z.add_0_r. by destruct n.
  - destruct n as [|n]; [simpl in Hn; lia|]. rewrite u16_past by done.
    assert (E : tags_wire ((t, v) :: tags) ++ pack_u16be 2048 ++ post =
      pack_u16be t ++ pack_u16be v ++ tags_wire tags ++ pack_u16be 2048 ++ post)
      by (unfold tags_wire; cbn [flat_map fst snd]; by rewrite <- !app_assoc).
    cbn [fst snd] in Ht, Hv. rewrite E, u16_pack by lia. cbn [skip_tags].
    assert ((t =? 33024) || (t =? 34984) = true) as -> by lia. cbn [negb].
    assert (Hl : forall x, zlen (pack_u16be x) = 2) by done.
    pose proof (zlen_nonneg (tags_wire tags)). pose proof (zlen_nonneg post). pose proof (zlen_nonneg pre).
    rewrite (proj2 (Z.ltb_ge _ _)) by (rewrite !zlen_app, !Hl; lia).
    specialize (IH n (pre ++ pack_u16be t ++ pack_u16be v) ltac:(simpl in Hn; lia)).
    rewrite !zlen_app, !Hl in IH. rewrite <- !app_assoc in IH.
    replace (zlen pre + 2 + 4) with (zlen pre + (2 + 2) + 2) by lia.
    replace (zlen pre + 2 + 2) with (zlen pre + (2 + 2) + 0) by lia. rewrite IH.
    unfold tags_wire at 2. cbn [flat_map fst snd]. fold (tags_wire tags). rewrite !zlen_app, !Hl. do 2 f_equal. lia.
Qed.

(** An IPv4 header of [ihl] words: no fragment, UDP, from [src]. *)
Definition ip_header (ihl tos l1 l2 i1 i2 frag ttl c1 c2 : Z) (src rest : bytes) : bytes :=
  [64 + ihl; tos; l1; l2; i1; i2] ++ pack_u16be frag ++ [ttl; 17; c1; c2] ++ src ++ rest.

Lemma ip_fields ihl tos l1 l2 i1 i2 frag ttl c1 c2 src rest post : 0 <= frag < 65536 -> zlen src = 4 ->
  let r := ip_header ihl tos l1 l2 i1 i2 frag ttl c1 c2 src rest ++ post in
  znth r 0 = 64 + ihl /\ znth r 9 = 17 /\ u16_at r 6 = frag /\ zslice r 12 16 = src.
Proof.
  intros Hf Hs. cbv zeta. unfold ip_header. split; [done|]. split; [done|]. split.
  - rewrite <- !app_assoc. exact (u16_at_app [64 + ihl; tos; l1; l2; i1; i2] frag _ Hf).
  - replace (_ ++ post) with (([64 + ihl; tos; l1; l2; i1; i2] ++ pack_u16be frag ++ [ttl; 17; c1; c2]) ++ src ++ (rest ++ post))
      by (by rewrite <- !app_assoc). apply zslice_app_mid; rewrite !zlen_app; [done|rewrite Hs; done].
Qed.

Definition udp_header (len c1 c2 : Z) : bytes := pack_u16be 67 ++ pack_u16be 68 ++ pack_u16be len ++ [c1; c2].

Lemma ihl_nibbles ihl : 5 <= ihl <= 15 -> Z.shiftr (64 + ihl) 4 = 4 /\ Z.land (64 + ihl) 15 = ihl.
Proof.
  intros H. assert (Hall : forallb (fun n => (Z.shiftr (64 + Z.of_nat n) 4 =? 4) && (Z.land (64 + Z.of_nat n) 15 =? Z.of_nat n)) (seq 5 11) = true)
    by (by vm_compute).
  rewrite forallb_forall in Hall. specialize (Hall (Z.to_nat ihl)). rewrite in_seq, Z2Nat.id in Hall by lia. lia.
Qed.

(** An Ethernet frame, with up to two VLAN tags, that carries an unfragmented
    IPv4 datagram from the DHCP server port to the client port gives exactly the
    UDP payload, without the IP options before it or the frame's padding after
    it, and the sender's address. *)
Theorem frame_payload macs tags ihl tos l1 l2 i1 i2 frag ttl c1 c2 src rest k1 k2 payload padding :
  zlen macs = 12 -> (List.length tags <= 2)%nat -> Forall tag_ok tags -> 5 <= ihl <= 15 -> 0 <= frag < 65536 ->
  Z.land frag 8191 = 0 -> zlen src = 4 -> zlen rest = ihl * 4 - 16 -> payload <> [] -> zlen payload + 8 < 65536 ->
  dhcpframepayload (macs ++ tags_wire tags ++ pack_u16be 2048 ++
    ip_header ihl tos l1 l2 i1 i2 frag ttl c1 c2 src rest ++ udp_header (zlen payload + 8) k1 k2 ++ payload ++ padding) =
  Some (payload, (inet_ntoa src, 67)).
Proof.
  intros Hm Hn Ht Hihl Hf Hfr Hs Hr Hne Hp. set (udp := udp_header _ k1 k2).
  set (ip := ip_header ihl tos l1 l2 i1 i2 frag ttl c1 c2 src rest).
  assert (Hip : zlen ip = ihl * 4).
  { unfold ip, ip_header. rewrite !zlen_app, Hs, Hr. change (zlen (pack_u16be frag)) with 2.
    change (zlen [64 + ihl; tos; l1; l2; i1; i2]) with 6. change (zlen [ttl; 17; c1; c2]) with 4. lia. }
  assert (Hudp : zlen udp = 8) by done.
  pose proof (tags_wire_length tags) as Htl. pose proof (zlen_nonneg payload). pose proof (zlen_nonneg padding).
  set (after := ip ++ udp ++ payload ++ padding). set (packet := macs ++ tags_wire tags ++ pack_u16be 2048 ++ after).
  assert (Hafter : zlen after = ihl * 4 + 8 + zlen payload + zlen padding) by (unfold after; rewrite !zlen_app; lia).
  set (pre := macs ++ tags_wire tags ++ pack_u16be 2048).
  assert (Hpre : zlen pre = 14 + zlen (tags_wire tags)).
  { unfold pre. rewrite !zlen_app, Hm. change (zlen (pack_u16be 2048)) with 2. lia. }
  assert (Epk : packet = pre ++ after) by (unfold packet, pre; by rewrite <- !app_assoc).
  assert (Hz : zlen packet = zlen pre + zlen after) by (rewrite Epk; apply zlen_app).
  unfold dhcpframepayload. rewrite (proj2 (Z.ltb_ge _ _)) by lia.
  pose proof (skip_tags_spec 2 tags macs after Hn Ht) as Hskip. cbv zeta in Hskip. fold packet in Hskip.
  rewrite Hm in Hskip. change (12 + 0) with 12 in Hskip. change (12 + 2) with 14 in Hskip. rewrite Hskip.
  replace (12 + zlen (tags_wire tags) + 2) with (zlen pre + 0) by lia. rewrite Z.eqb_refl. cbn [negb orb].
  rewrite (proj2 (Z.ltb_ge _ _)) by lia.
  destruct (ip_fields ihl tos l1 l2 i1 i2 frag ttl c1 c2 src rest (udp ++ payload ++ padding) Hf Hs) as (F0 & F9 & F6 & F12).
  fold ip in F0, F9, F6, F12. fold after in F0, F9, F6, F12.
  destruct (ihl_nibbles ihl Hihl) as [N1 N2].
  replace (zlen pre + 0 + 9) with (zlen pre + 9) by lia. replace (zlen pre + 0 + 6) with (zlen pre + 6) by lia.
  replace (zlen pre + 0 + 12) with (zlen pre + 12) by lia. replace (zlen pre + 0 + 16) with (zlen pre + 16) by lia.
  assert (B0 : znth packet (zlen pre + 0) = 64 + ihl) by (rewrite Epk, znth_past by lia; exact F0).
  assert (B9 : znth packet (zlen pre + 9) = 17) by (rewrite Epk, znth_past by lia; exact F9).
  assert (B6 : u16_at packet (zlen pre + 6) = frag) by (rewrite Epk, u16_past by lia; exact F6).
  assert (B12 : zslice packet (zlen pre + 12) (zlen pre + 16) = src) by (rewrite Epk, zslice_past by lia; exact F12).
  cbv zeta. rewrite B0, B9, B6, B12, N1, N2, Hfr. cbn [Z.eqb negb].
  change (4 =? 4) with true. change (17 =? 17) with true. change (0 =? 0) with true. cbn [negb].
  rewrite (proj2 (Z.ltb_ge (ihl * 4) 20)), (proj2 (Z.ltb_ge (zlen packet) _)) by lia. cbn [orb].
  assert (Hu : forall i, 0 <= i -> u16_at packet (zlen pre + 0 + ihl * 4 + i) = u16_at (udp ++ payload ++ padding) i).
  { intros i Hi. rewrite Epk. unfold after. rewrite app_assoc. replace (zlen pre + 0 + ihl * 4 + i) with (zlen (pre ++ ip) + i)
      by (rewrite zlen_app; lia). by apply u16_past. }
  pose proof (Hu 0 ltac:(lia)) as U0. rewrite Z.add_0_r in U0. rewrite U0, (Hu 2), (Hu 4) by lia.
  assert (Q0 : u16_at (udp ++ payload ++ padding) 0 = 67) by (by apply u16_pack).
  assert (Q2 : u16_at (udp ++ payload ++ padding) 2 = 68) by done.
  assert (Q4 : u16_at (udp ++ payload ++ padding) 4 = zlen payload + 8).
  { unfold udp, udp_header. rewrite <- !app_assoc. change (pack_u16be 67 ++ pack_u16be 68 ++ ?x) with ((pack_u16be 67 ++ pack_u16be 68) ++ x).
    rewrite app_assoc. exact (u16_at_app (pack_u16be 67 ++ pack_u16be 68) (zlen payload + 8) _ ltac:(lia)). }
  rewrite Q0, Q2, Q4. change (67 =? DHCPSERVERPORT) with true. change (68 =? DHCPCLIENTPORT) with true. cbn [negb orb].
  rewrite (proj2 (Z.ltb_ge _ _)) by lia. rewrite Z.min_r by lia.
  assert (Hpay : zslice packet (zlen pre + 0 + ihl * 4 + 8) (zlen pre + 0 + ihl * 4 + (zlen payload + 8)) = payload).
  { rewrite Epk. unfold after. replace (pre ++ ip ++ udp ++ payload ++ padding) with ((pre ++ ip ++ udp) ++ payload ++ padding)
      by (by rewrite <- !app_assoc). apply zslice_app_mid; rewrite !zlen_app; lia. }
  rewrite Hpay. destruct payload as [|x payload]; [done|]. done.
Qed.

(** ** Acknowledgements *)

(** A reply to this transaction of this interface, acknowledging it. *)
Definition acknowledges (xid : Z) (hw data : bytes) : Prop :=
  240 <= zlen data /\ u32_at data 4 = xid /\ zslice data 28 34 = hw /\
  exists v, aget 53 (parsedhcpoptions data) = Some v /\ ztake 1 v = [5].

Lemma ack_loop_true xid hw replies last last' : ack_loop xid hw replies last = Some (true, last') ->
  exists a data, In a replies /\ received a = Some data /\ acknowledges xid hw data /\ last' = update last (parsedhcpoptions data).
Proof.
  induction replies as [|a replies IH]; simpl; [done|].
  assert (Hlater : ack_loop xid hw replies last = Some (true, last') -> exists a0 data, (a = a0 \/ In a0 replies) /\
    received a0 = Some data /\ acknowledges xid hw data /\ last' = update last (parsedhcpoptions data)).
  { intros H. destruct (IH H) as (a0 & data & H1 & H2). exists a0, data. split; [by right|done]. }
  destruct (received a) as [data|] eqn:Er; [|done]. step_if E1; [done|]. step_if E2; [done|]. cbv zeta.
  apply orb_false_iff in E2 as [E2 E3]. apply negb_false_iff, Z.eqb_eq in E2. apply negb_false_iff, bool_decide_eq_true in E3.
  destruct (bool_decide_reflect (ztake 1 (default [0] (aget 53 (parsedhcpoptions data))) = [5])) as [H5|_].
  - intros [= <-]. exists a, data. split; [by left|]. split; [done|]. split; [|done]. split; [lia|]. split; [done|]. split; [done|].
    destruct (aget 53 (parsedhcpoptions data)) as [v|]; [by exists v|done].
  - by destruct (bool_decide _).
Qed.

Section Leases.
Context {U : PyUnicode}.
Context (inet_aton : pystr -> res bytes).

Lemma request_true mac xid yiaddr server modes last last' :
  dhcprequest inet_aton mac xid yiaddr server modes last = Ok (true, last') ->
  exists hw a data, hardware mac = Ok hw /\ In a (modes.1 ++ modes.2) /\ received a = Some data /\ acknowledges xid hw data /\
    last' = update last (parsedhcpoptions data).
Proof.
  unfold dhcprequest. destruct (hardware mac) as [hw|]; [|done]. cbn [mbind res_bind].
  destruct (dhcprequestpacket _ _ _ _ _ true) as [pk1|]; [|done]. cbn [mbind res_bind].
  destruct (ack_loop xid hw modes.1 last) as [[ok l]|] eqn:E1.
  - intros [= -> ->]. apply ack_loop_true in E1 as (a & data & H1 & H2). exists hw, a, data.
    split; [done|]. split; [apply in_app_iff; by left|done].
  - destruct (dhcprequestpacket _ _ _ _ _ false) as [pk2|]; [|done]. cbn [mbind res_bind catch].
    destruct (ack_loop xid hw modes.2 last) as [[ok l]|] eqn:E2; [|done]. intros [= -> ->].
    apply ack_loop_true in E2 as (a & data & H1 & H2). exists hw, a, data.
    split; [done|]. split; [apply in_app_iff; by right|done].
Qed.

(** The lease comes from an offer that was received. *)
Lemma attempts_offer l last o options : attempts l last = Ok (Some o, options) ->
  last = (Some o, options) \/ exists xid data, In (xid, Some data) l /\ f_xid o = xid /\ dhcptransaction xid (Some data) = (Ok (Some o), options).
Proof.
  revert last. induction l as [|[xid rx] l IH]; intros last; simpl; [intros [= ->]; by left|].
  destruct (dhcptransaction xid rx) as [r opts] eqn:Et. destruct r as [r|]; [|done]. cbn [mbind res_bind].
  assert (Hthis : forall o' , r = Some o' -> exists data, rx = Some data /\ f_xid o' = xid).
  { intros o' ->. destruct rx as [data|]; [|done]. exists data. split; [done|]. unfold dhcptransaction in Et. cbv zeta in Et.
    destruct (zlen _ <? 8); [done|]. destruct (inet_ntoa _) as [y|]; [|done]. cbn [mbind res_bind] in Et.
    destruct (offer_loop _ _ _ _); [|done]. cbn [mbind res_bind] in Et. by injection Et as <- _. }
  assert (Hrec : forall last0, (forall o' opts', last0 = (Some o', opts') -> r = Some o' /\ opts' = opts) ->
    attempts l last0 = Ok (Some o, options) -> last = (Some o, options) \/
    exists xid0 data, (((xid, rx) = (xid0, Some data)) \/ In (xid0, Some data) l) /\ f_xid o = xid0 /\
      dhcptransaction xid0 (Some data) = (Ok (Some o), options)).
  { intros last0 Hl H. right. destruct (IH last0 H) as [E|(xid0 & data & H1 & H2)].
    - destruct (Hl _ _ E) as [Hr ->]. destruct (Hthis o Hr) as (data & Hrx & Hx). subst rx r. exists xid, data.
      split; [by left|]. split; [done|]. exact Et.
    - exists xid0, data. split; [by right|done]. }
  destruct r as [o'|]; [|apply Hrec; done]. destruct (bool_decide _).
  - intros [= <- <-]. right. destruct (Hthis o' eq_refl) as (data & -> & Hx). exists xid, data. split; [by left|done].
  - apply Hrec. by intros o2 opts2 [= -> ->].
Qed.

(** C18: when the offer names its server, the address is applied only after an
    acknowledgement that carries the transaction identifier of the offer's
    exchange and the hardware address of the interface; when it names none, it
    is applied unconfirmed.  Either way it was offered together with a router. *)
Theorem lease_acknowledged mac tries modes l :
  configdhcp inet_aton (Some mac) tries modes = Ok (Some l) ->
  exists xid data o options, In (xid, Some data) tries /\ dhcptransaction xid (Some data) = (Ok (Some o), options) /\
    l_address l = f_yiaddr o /\ f_router o = Some (l_router l) /\ f_server o = l_server l /\
    match l_server l with
    | Some _ => exists hw a reply, hardware mac = Ok hw /\ In a (modes.1 ++ modes.2) /\ received a = Some reply /\
        acknowledges xid hw reply /\ l_options l = update options (parsedhcpoptions reply)
    | None => l_options l = options
    end.
Proof.
  unfold configdhcp. destruct (dhcpdiscoverpacket mac 1) as [pk|]; [|done]. cbn [mbind res_bind].
  destruct (attempts (take 3 tries) (None, [])) as [[o last]|] eqn:Ea; [|done]. cbn [mbind res_bind].
  destruct o as [o|]; [|done]. destruct (attempts_offer _ _ _ _ Ea) as [|(xid & data & Hin & Hx & Ht)]; [done|].
  assert (Hin' : In (xid, Some data) tries) by (rewrite <- (take_drop 3 tries); apply in_app_iff; by left).
  destruct (f_router o) as [router|] eqn:Er; [|done]. destruct (f_server o) as [server|] eqn:Es.
  - destruct (dhcprequest _ _ _ _ _ _ _) as [[ok last']|] eqn:Eq; [|done]. cbn [mbind res_bind fst snd].
    destruct ok; [|done]. intros [= <-]. exists xid, data, o, last. cbn [l_address l_router l_server l_options].
    split_and!; try done. rewrite Hx in Eq. apply request_true in Eq as (hw & a & reply & H1 & H2 & H3 & H4 & H5).
    by exists hw, a, reply.
  - intros [= <-]. exists xid, data, o, last. by split_and!.
Qed.
End Leases.

(** An offer is taken from whatever datagram arrives first: nothing of the
    first sixteen bytes is looked at, neither that it is a reply nor that it
    carries the transaction identifier that was sent. *)
Theorem offer_unauthenticated xid head1 head2 rest :
  zlen head1 = 16 -> zlen head2 = 16 -> zlen rest <= 1008 ->
  (dhcptransaction xid (Some (head1 ++ rest))).1 = (dhcptransaction xid (Some (head2 ++ rest))).1.
Proof.
  intros H1 H2 Hr. pose proof (zlen_nonneg rest) as H0. cbn [dhcptransaction fst].
  assert (H : forall h, zlen h = 16 -> ztake 1024 (h ++ rest) = h ++ rest /\ zlen (h ++ rest) = 16 + zlen rest /\
    (forall n, 16 <= n -> zdrop n (h ++ rest) = zdrop (n - 16) rest)).
  { intros h Hh. assert (Hl : zlen (h ++ rest) = 16 + zlen rest) by (rewrite zlen_app; lia).
    split; [apply ztake_all; lia|]. split; [done|]. intros n Hn. unfold zdrop, zlen in *.
    rewrite drop_app_ge by lia. f_equal. lia. }
  destruct (H head1 H1) as (-> & E1 & D1). destruct (H head2 H2) as (-> & E2 & D2).
  rewrite E1, E2. unfold zslice. by rewrite (D1 16), (D2 16), (D1 240), (D2 240) by lia.
Qed.

(** ** Witnesses *)

#[local] Existing Instance ascii_unicode.

Definition demo_mac : pystr := lit "02:00:00:00:00:0a".
Definition demo_hw : bytes := [2; 0; 0; 0; 0; 10].
Definition demo_aton (s : pystr) : res bytes := Ok [10; 0; 2; 15].
Definition demo_reply (kind : Z) : bytes :=
  ztake 16 (bootp demo_hw 7 true) ++ [10; 0; 2; 15] ++ zdrop 20 (bootp demo_hw 7 true)
  ++ encode_options [(53, [kind]); (3, [10; 0; 2; 2]); (54, [10; 0; 2; 3])] ++ [255].

Lemma dhcp_options_roundtrip_witness :
  aget 53 (parsedhcpoptions (bootp demo_hw 7 true ++ encode_options [(53, [2]); (53, [5])] ++ 255 :: [1; 2])) = Some [2].
Proof.
  apply (dhcp_options_roundtrip (bootp demo_hw 7 true) [(53, [2]); (53, [5])] [1; 2] 53); [done|done|].
  repeat constructor; simpl; try lia; done.
Defined.

Lemma dhcp_request_packet_witness : exists packet hw y s,
  dhcprequestpacket demo_aton demo_mac 7 (lit "10.0.2.15") (lit "10.0.2.3") true = Ok packet /\
  u32_at packet 4 = 7 /\ parsedhcpoptions packet = request_options hw y s.
Proof.
  eexists. destruct (dhcp_request_packet demo_aton (fun s b H => ltac:(by injection H as <-)) demo_mac 7
    (lit "10.0.2.15") (lit "10.0.2.3") true _ ltac:(vm_compute; reflexivity)) as (hw & y & s & _ & _ & _ & _ & H1 & _ & H2).
  exists hw, y, s. split; [vm_compute; reflexivity|]. split; [exact H1|exact H2].
Defined.

Lemma lease_acknowledged_witness : exists l reply,
  configdhcp demo_aton (Some demo_mac) [(7, Some (demo_reply 2))] ([Udp (demo_reply 5)], []) = Ok (Some l) /\
  l_address l = lit "10.0.2.15" /\ acknowledges 7 demo_hw reply.
Proof.
  assert (H : exists l, configdhcp demo_aton (Some demo_mac) [(7, Some (demo_reply 2))] ([Udp (demo_reply 5)], []) = Ok (Some l) /\
    l_address l = lit "10.0.2.15" /\ l_server l = Some (lit "10.0.2.3")) by (eexists; vm_compute; done).
  destruct H as (l & Hl & Ha & Hs).
  destruct (lease_acknowledged demo_aton demo_mac _ _ l Hl) as (xid & data & o & options & Hin & _ & _ & _ & _ & Hserver).
  rewrite Hs in Hserver. destruct Hserver as (hw & a & reply & Hhw & _ & _ & Hack & _). exists l, reply.
  split; [exact Hl|]. split; [exact Ha|]. destruct Hin as [[= <- _]|[]].
  assert (E : hardware demo_mac = Ok demo_hw) by (by vm_compute). rewrite E in Hhw. injection Hhw as <-. exact Hack.
Defined.

Lemma offer_unauthenticated_witness :
  (dhcptransaction 7 (Some (zreplicate 16 0 ++ zdrop 16 (demo_reply 2)))).1 = (dhcptransaction 7 (Some (demo_reply 2))).1.
Proof.
  change (demo_reply 2) with (ztake 16 (demo_reply 2) ++ zdrop 16 (demo_reply 2)) at 2.
  apply (offer_unauthenticated 7 (zreplicate 16 0) (ztake 16 (demo_reply 2)) (zdrop 16 (demo_reply 2))); [done|done|by vm_compute].
Defined.

Lemma frame_payload_witness :
  dhcpframepayload (zreplicate 12 2 ++ tags_wire [(33024, 5)] ++ pack_u16be 2048 ++
    ip_header 5 0 0 0 0 0 16384 64 0 0 [10; 0; 2; 3] [255; 255; 255; 255] ++ udp_header (zlen [1; 2; 3] + 8) 0 0 ++ [1; 2; 3] ++ [0; 0])
  = Some ([1; 2; 3], (inet_ntoa [10; 0; 2; 3], 67)).
Proof.
  apply (frame_payload (zreplicate 12 2) [(33024, 5)] 5 0 0 0 0 0 16384 64 0 0 [10; 0; 2; 3] [255; 255; 255; 255] 0 0 [1; 2; 3] [0; 0]);
    try done; simpl; try lia. repeat constructor; simpl; lia || by left.
Defined.
