(* ===== verification/NetConfig.v ===== *)
(** Configuration in the network service (network.py): settings files, the text
    given to the wireless engine, the DNS configuration a lease writes, scan
    results, and which interface is configured. *)

From stdpp Require Import base list strings.
From Stdlib Require Import ZArith Lia Bool String.
From S2P Require Import Prelude Assoc PyFloat PyText PyVal PyStr Dns.
Open Scope Z_scope.

(** ** Settings files *)

Abbreviation settings := (list (pystr * pystr)).

(** [s.split(sep, 1)] of a text that holds [sep]. *)
Definition split_once (sep : Z) (s : pystr) : pystr * pystr :=
  let '(a, b) := break_at (Z.eqb sep) s in (a, match b with [] => [] | _ :: b => b end).

(** [conf]: the text of the file, [None] when it cannot be read. *)
Definition getconfig (conf : option pystr) : settings :=
  match conf with
  | None => []
  | Some txt =>
      fold_left (fun d l => let '(k, v) := split_once 61 (strip l) in aset k v d)
        (List.filter (fun l => has_char 61 l && negb (starts_with [35] l)) (file_lines txt)) []
  end.

Section Settings.
Context {U : PyUnicode}.

(** [str(config.get(key) or default).strip().lower()] *)
Definition setting (key dflt : string) (config : settings) : pystr :=
  let v := match aget (lit key) config with Some ((_ :: _) as v) => v | _ => lit dflt end in
  uc_lower (strip v).

Definition interface_char (c : Z) : bool :=
  ascii_alnum c || (c =? 95) || (c =? 46) || (c =? 58) || (c =? 45).

Record hostsettings : Type := mkhost { h_firewall : pystr; h_dns : pystr; h_interface : pystr }.

Definition hostnetworksettings (conf : option pystr) : hostsettings :=
  let config := getconfig conf in
  let firewall := setting "firewall" "protected" config in
  let firewall := if str_eqb firewall (lit "protected") || str_eqb firewall (lit "open") then firewall else lit "protected" in
  let dns := setting "dns" "automatic" config in
  let dns := if str_eqb dns (lit "automatic") || str_eqb dns (lit "manual") then dns else lit "automatic" in
  let interface := strip (match aget (lit "interface") config with Some ((_ :: _) as v) => v | _ => [] end) in
  let interface := if forallb interface_char interface && (zlen interface <=? 15) then interface else [] in
  mkhost firewall dns interface.

(** ** The wireless engine's configuration *)

(** [s.replace(c, r)] for a one-character [c]. *)
Definition replace_char (c : Z) (r : pystr) (s : pystr) : pystr := flat_map (fun x => if x =? c then r else [x]) s.

Definition quoted (value : pystr) : pystr := [34] ++ replace_char 34 [92; 34] (replace_char 92 [92; 92] value) ++ [34].

Definition breaks_line (s : pystr) : bool := has_char 0 s || has_char 10 s || has_char 13 s.

(** [str(settings.get(key, dflt))] *)
Definition field (key dflt : string) (s : settings) : pystr := match aget (lit key) s with Some v => v | None => lit dflt end.

Definition config_head : list pystr :=
  [lit "ctrl_interface=/.ephemeral/network/control"; lit "update_config=0"; lit "network={"].

Definition is_one_of (s : pystr) (l : list string) : bool := existsb (fun x => str_eqb s (lit x)) l.

(** The passphrase, when its encoded length and its characters are acceptable. *)
Definition passphrase_ok (passphrase : pystr) : res bool :=
  b ← utf8_encode passphrase;
  Ok (negb ((zlen b <? 8) || (63 <? zlen b) || breaks_line passphrase)).

(** The lines of the authentication; [None]: the settings are refused. *)
Definition auth_lines (security passphrase : pystr) : res (option (list pystr)) :=
  if is_one_of security ["open"; "none"]%string then Ok (Some [lit "    key_mgmt=NONE"])
  else if is_one_of security ["wpa3"; "sae"]%string then
    ok ← passphrase_ok passphrase;
    Ok (if ok : bool then Some [lit "    key_mgmt=SAE"; lit "    sae_password=" ++ quoted passphrase; lit "    ieee80211w=2"] else None)
  else if is_one_of security ["wpa2"; "wpa"; "psk"]%string then
    ok ← passphrase_ok passphrase;
    Ok (if ok : bool then Some [lit "    key_mgmt=WPA-PSK"; lit "    psk=" ++ quoted passphrase; lit "    ieee80211w=1"] else None)
  else Ok None.

Definition wirelessconfigurationtext (s : settings) : res (option pystr) :=
  let ssid := strip (field "ssid" "" s) in
  let security := uc_lower (strip (field "security" "wpa2" s)) in
  let passphrase := field "passphrase" "" s in
  match ssid with
  | [] => Ok None
  | _ =>
      b ← utf8_encode ssid;
      if (32 <? zlen b) || has_char 61 ssid || breaks_line ssid then Ok None
      else
        auth ← auth_lines security passphrase;
        match auth with
        | None => Ok None
        | Some auth => Ok (Some (join_with [10] (config_head ++ [lit "    ssid=" ++ quoted ssid] ++ auth ++ [lit "}"; []])))
        end
  end.

(** ** DNS servers *)

Definition dnsserversforlease (router : pystr) (servers : list pystr) (isvirtualbox : bool) : list pystr :=
  if isvirtualbox && str_eqb router (lit "10.0.2.2") && negb (mem (lit "10.0.2.3") servers)
  then lit "10.0.2.3" :: servers else servers.

Section Lease.
(** [inet_aton]: the C library's reading of an address. *)
Context (inet_aton : pystr -> res bytes).

(** Canonical addresses, without repetition; what is not an address is skipped. *)
Definition validated_servers (servers : list pystr) : list pystr :=
  fold_left (fun validated server =>
    match (b ← inet_aton server; inet_ntoa b) with
    | Ok value => if mem value validated then validated else validated ++ [value]
    | Exc _ => validated
    end) servers [].

Definition dns_payload (servers : list pystr) : pystr :=
  List.concat (List.map (fun server => lit "nameserver " ++ server ++ [10]) (take 3 servers))
  ++ lit "options timeout:2 attempts:3" ++ [10].

(** The new text of the configuration file, [None] when it is left alone;
    [writable]: whether writing it succeeds. *)
Definition configuredns (servers : list pystr) (writable : bool) : option pystr :=
  match validated_servers servers with
  | [] => None
  | validated => if writable then Some (dns_payload validated) else None
  end.

Definition applyleasedns (router : pystr) (dnsservers : list pystr) (automatic isvirtualbox writable : bool) : option pystr :=
  if negb automatic then None else configuredns (dnsserversforlease router dnsservers isvirtualbox) writable.
End Lease.

(** ** Connections *)

Definition connectiontype (wireless : bool) (iface : pystr) : pystr :=
  let lowered := uc_lower (strip iface) in
  let begins l := existsb (fun p => starts_with (lit p) lowered) l in
  if wireless then lit "wi-fi"
  else if begins ["ww"; "ppp"; "rmnet"; "cdc-wdm"]%string then lit "mobile"
  else if begins ["bnep"; "bt"]%string then lit "bluetooth"
  else if begins ["tun"; "tap"; "wg"]%string then lit "vpn"
  else if begins ["usb"; "rndis"]%string then lit "usb"
  else lit "ethernet".

Definition wirelesssecurity (flags : pystr) : pystr :=
  let upper := uc_upper flags in
  let has p := has_sub (lit p) upper in
  if has "SAE"%string || has "WPA3"%string then lit "wpa3"
  else if has "WPA"%string || has "RSN"%string || has "PSK"%string then lit "wpa2"
  else lit "open".

(** [' '.join(decoded.split()).strip()] of the printable characters of a DHCP
    option. *)
Definition dhcpoptiontext (options : list (Z * bytes)) (code : Z) : pystr :=
  let value := default [] (aget code options) in
  let decoded := List.filter (fun c => negb (c =? 0)) (utf8_decode_replace value) in
  strip (join_with [32] (words (List.filter uc_printable decoded))).
End Settings.

(** ** Which interface *)

Record link : Type := mklink { k_name : pystr; k_wireless : bool; k_carrier : bool; k_oper : pystr }.

Definition linkready (l : link) : bool :=
  if k_wireless l then k_carrier l && str_eqb (ascii_upper (k_oper l)) (lit "UP") else k_carrier l.

(** [state]: whether the published state says connected, and its interface. *)
Definition usablecurrentinterface (state : bool * pystr) (links : list link) : pystr :=
  if negb state.1 then []
  else match List.find (fun l => str_eqb (k_name l) state.2 && linkready l) links with Some _ => state.2 | None => [] end.

Definition configuredinterface (preferred : pystr) (links : list link) : option link :=
  match preferred with [] => None | _ => List.find (fun l => str_eqb (k_name l) preferred) links end.

Definition readywirelessinterface (links candidates : list link) : option pystr :=
  k_name <$> List.find (fun l => mem (k_name l) (List.map k_name candidates) && linkready l) links.

(** What [main] does before it waits: leave everything alone, configure an
    interface, or start waiting for one. *)
Inductive choice : Type := Keep | Configure (iface : pystr) | Wait.

Definition wired_ready (links : list link) : list link := List.filter (fun l => negb (k_wireless l) && linkready l) links.

Definition keeps (current : pystr) (links : list link) (preferredlink : option link) : bool :=
  let preferred := match preferredlink with Some l => k_name l | None => [] end in
  let currentlink := List.find (fun l => str_eqb (k_name l) current) links in
  let preferredready := match preferredlink with Some l => linkready l | None => false end in
  let has_preferred := negb (bool_decide (preferred = [])) in
  if bool_decide (current = []) then false
  else
    (has_preferred && negb (str_eqb current preferred) && negb preferredready)
    || ((negb has_preferred || str_eqb current preferred)
        && match currentlink with
           | Some l => has_preferred || negb (k_wireless l) || bool_decide (wired_ready links = [])
           | None => false
           end).

Definition choose (force : bool) (state : bool * pystr) (preferred : pystr) (links : list link) : choice :=
  let current := usablecurrentinterface state links in
  let preferredlink := configuredinterface preferred links in
  if negb force && keeps current links preferredlink then Keep
  else
    let ready := match preferredlink with
                 | Some l => if linkready l then k_name l else []
                 | None => []
                 end in
    match ready with
    | _ :: _ => Configure ready
    | [] => match wired_ready links with l :: _ => match k_name l with [] => Wait | n => Configure n end | [] => Wait end
    end.
