(* ===== verification/NetConfigSpec.v ===== *)
(** The configuration of the network service: nothing a user enters breaks out of
    its line in the wireless engine's configuration, the servers of a lease are
    the ones the resolver asks, and Ethernet is preferred. *)

From stdpp Require Import base list strings.
From Stdlib Require Import ZArith Lia Bool String.
From S2P Require Import Prelude Assoc PyFloat PyText PyVal PyStr Dns NetConfig.
Open Scope Z_scope.

(** ** Text on one line *)

Lemma has_char_lacks c s : has_char c s = false -> lacks c s.
Proof.
  intros H. apply List.Forall_forall. intros x Hx ->. assert (has_char c s = true); [|congruence].
  apply existsb_exists. exists c. split; [done|apply Z.eqb_refl].
Qed.

Lemma replace_lacks c x r s : lacks c r -> lacks c s -> lacks c (replace_char x r s).
Proof.
  intros Hr Hs. unfold replace_char. induction Hs as [|y s Hy _ IH]; [constructor|]. cbn [flat_map].
  apply Forall_app. split; [|done]. destruct (y =? x); [done|by repeat constructor].
Qed.

Lemma quoted_lacks v : lacks 10 v -> lacks 10 (quoted v).
Proof.
  intros Hv. unfold quoted. apply Forall_app. split; [by repeat constructor|]. apply Forall_app.
  split; [|by repeat constructor]. apply replace_lacks; [by repeat constructor|].
  apply replace_lacks; [by repeat constructor|done].
Qed.

(** ** The wireless engine's configuration *)

Section Wireless.
Context {U : PyUnicode}.

(** A value between [lo] and [hi] bytes long on one line. *)
Definition acceptable (lo hi : Z) (v : pystr) : Prop :=
  (exists b, utf8_encode v = Ok b /\ lo <= zlen b <= hi) /\ lacks 0 v /\ lacks 10 v /\ lacks 13 v.

(** The lines of the authentication for a kind of security and a passphrase. *)
Inductive auth_for (security passphrase : pystr) : list pystr -> Prop :=
  | auth_open : security ∈ [lit "open"; lit "none"] -> auth_for security passphrase [lit "    key_mgmt=NONE"]
  | auth_sae : security ∈ [lit "wpa3"; lit "sae"] -> acceptable 8 63 passphrase ->
      auth_for security passphrase
        [lit "    key_mgmt=SAE"; lit "    sae_password=" ++ quoted passphrase; lit "    ieee80211w=2"]
  | auth_psk : security ∈ [lit "wpa2"; lit "wpa"; lit "psk"] -> acceptable 8 63 passphrase ->
      auth_for security passphrase
        [lit "    key_mgmt=WPA-PSK"; lit "    psk=" ++ quoted passphrase; lit "    ieee80211w=1"].

Lemma has_char_spec c s : has_char c s = false <-> lacks c s.
Proof.
  split; [apply has_char_lacks|]. intros H. destruct (has_char c s) eqn:E; [|done]. exfalso.
  apply existsb_exists in E as (x & Hx & E). unfold lacks in H. rewrite List.Forall_forall in H. apply (H x Hx). lia.
Qed.

Lemma breaks_line_spec s : breaks_line s = false <-> lacks 0 s /\ lacks 10 s /\ lacks 13 s.
Proof. unfold breaks_line. rewrite !orb_false_iff, !has_char_spec. tauto. Qed.

Lemma passphrase_spec p : passphrase_ok p = Ok true <-> acceptable 8 63 p.
Proof.
  unfold passphrase_ok, acceptable. destruct (utf8_encode p) as [b|e]; cbn [mbind res_bind].
  - rewrite <- breaks_line_spec. split.
    + intros [= H]. apply negb_true_iff, orb_false_iff in H as [H ->]. split; [|done]. exists b. split; [done|lia].
    + intros [(b' & [= <-] & Hb) ->]. by rewrite !(proj2 (Z.ltb_ge _ _)) by lia.
  - split; [done|]. by intros [(b & ? & _) _].
Qed.

Lemma is_one_of_spec s l : is_one_of s l = true <-> s ∈ List.map lit l.
Proof.
  unfold is_one_of. rewrite existsb_exists, list_elem_of_In, in_map_iff. split.
  - intros (x & Hx & E). apply str_eqb_eq in E as ->. by exists x.
  - intros (x & <- & Hx). exists x. split; [done|]. by apply str_eqb_eq.
Qed.

(** The kinds of security have no name in common. *)
Lemma security_disjoint s l l' : is_one_of s l = true -> forallb (fun x => negb (is_one_of (lit x) l')) l = true ->
  is_one_of s l' = false.
Proof.
  intros H F. apply is_one_of_spec, list_elem_of_In, in_map_iff in H as (x & <- & Hx).
  rewrite forallb_forall in F. by apply negb_true_iff, F.
Qed.

Lemma auth_lines_spec security p auth : auth_lines security p = Ok (Some auth) <-> auth_for security p auth.
Proof.
  unfold auth_lines. split.
  - assert (Got : forall l (x : list pystr), (ok ← passphrase_ok p; Ok (if ok : bool then Some x else None)) = Ok (Some auth) ->
      is_one_of security l = true -> security ∈ List.map lit l /\ acceptable 8 63 p /\ auth = x).
    { intros l x. destruct (passphrase_ok p) as [[]|] eqn:E; try done. cbn [mbind res_bind]. intros E2 E1.
      split_and!; [by apply is_one_of_spec|by apply passphrase_spec|congruence]. }
    destruct (is_one_of security ["open"; "none"]%string) eqn:E1; [intros [= <-]; constructor; by apply is_one_of_spec in E1|].
    destruct (is_one_of security ["wpa3"; "sae"]%string) eqn:E2.
    { intros H. destruct (Got _ _ H E2) as (H1 & H2 & ->). by apply auth_sae. }
    destruct (is_one_of security ["wpa2"; "wpa"; "psk"]%string) eqn:E3; [|discriminate].
    intros H. destruct (Got _ _ H E3) as (H1 & H2 & ->). by apply auth_psk.
  - intros [H|H Hp|H Hp].
    + by rewrite (proj2 (is_one_of_spec _ ["open"; "none"]%string) H).
    + apply (is_one_of_spec _ ["wpa3"; "sae"]%string) in H. rewrite (security_disjoint _ _ ["open"; "none"]%string H eq_refl), H.
      by rewrite (proj2 (passphrase_spec p) Hp).
    + apply (is_one_of_spec _ ["wpa2"; "wpa"; "psk"]%string) in H. rewrite (security_disjoint _ _ ["open"; "none"]%string H eq_refl).
      rewrite (security_disjoint _ _ ["wpa3"; "sae"]%string H eq_refl), H.
      by rewrite (proj2 (passphrase_spec p) Hp).
Qed.

Lemma labelled_lacks l p : lacks 10 l -> lacks 10 p -> lacks 10 (l ++ quoted p).
Proof. intros Hl Hp. apply Forall_app. split; [done|by apply quoted_lacks]. Qed.

Lemma lit_lacks c (s : string) : forallb (fun x => negb (x =? c)) (lit s) = true -> lacks c (lit s).
Proof. rewrite forallb_forall. intros H. apply List.Forall_forall. intros x Hx ->. specialize (H c Hx). by rewrite Z.eqb_refl in H. Qed.

Lemma auth_for_lacks security p auth : auth_for security p auth -> Forall (lacks 10) auth.
Proof.
  intros [|? (_ & _ & Hp & _)|? (_ & _ & Hp & _)]; repeat (constructor; [by apply lit_lacks|]).
  - constructor.
  - constructor; [by apply labelled_lacks; [apply lit_lacks|]|]. constructor; [by apply lit_lacks|constructor].
  - constructor; [by apply labelled_lacks; [apply lit_lacks|]|]. constructor; [by apply lit_lacks|constructor].
Qed.

(** The lines of the text for a network. *)
Definition network_lines (ssid : pystr) (auth : list pystr) : list pystr :=
  config_head ++ [lit "    ssid=" ++ quoted ssid] ++ auth ++ [lit "}"; []].

Lemma config_text s ssid passphrase security : ssid = strip (field "ssid" "" s) -> passphrase = field "passphrase" "" s ->
  security = uc_lower (strip (field "security" "wpa2" s)) -> forall txt,
  wirelessconfigurationtext s = Ok (Some txt) <->
  exists auth, (ssid <> [] /\ acceptable 0 32 ssid /\ lacks 61 ssid) /\ auth_for security passphrase auth /\
    txt = join_with [10] (network_lines ssid auth).
Proof.
  intros Es Ep Ec txt. unfold wirelessconfigurationtext. rewrite <- Es, <- Ep, <- Ec. cbv zeta. unfold acceptable.
  setoid_rewrite <- breaks_line_spec. setoid_rewrite <- has_char_spec. destruct ssid as [|c ssid']; [split; [done|by intros (? & (? & _) & _)]|].
  set (ssid := c :: ssid') in *. destruct (utf8_encode ssid) as [b|e]; cbn [mbind res_bind].
  2: { split; [done|]. by intros (? & (_ & [(b & ? & _) _] & _) & _). }
  pose proof (zlen_nonneg b) as Hb. split.
  - destruct ((32 <? zlen b) || has_char 61 ssid || breaks_line ssid) eqn:E; [done|].
    apply orb_false_iff in E as [E E3]. apply orb_false_iff in E as [E1 E2].
    destruct (auth_lines _ _) as [[auth|]|] eqn:Ea; try done. cbn [mbind res_bind]. intros [= <-]. exists auth.
    apply auth_lines_spec in Ea. split_and!; try done. exists b. split; [done|lia].
  - intros (auth & (_ & [(b' & [= <-] & Hl) E3] & E2) & Ha & ->). apply auth_lines_spec in Ha.
    rewrite E2, E3, Ha. rewrite (proj2 (Z.ltb_ge _ _)) by lia. done.
Qed.

(** C19: the wireless engine, which runs as root, is given a text exactly for
    settings with a network name of at most 32 bytes and without [=], a known kind
    of security and, unless that is none, a passphrase of 8 to 63 bytes, neither
    name nor passphrase with a null character or a line break; and the lines of
    the text are then those of the template for that kind of security, with the
    name and the passphrase of the settings inside their quotes, each on the line
    of its own setting: nothing in the settings adds a line. *)
Theorem wireless_config_lines s lines :
  let ssid := strip (field "ssid" "" s) in
  let security := uc_lower (strip (field "security" "wpa2" s)) in
  let passphrase := field "passphrase" "" s in
  (exists txt, wirelessconfigurationtext s = Ok (Some txt) /\ split_on 10 txt = lines) <->
  (exists auth, (ssid <> [] /\ acceptable 0 32 ssid /\ lacks 61 ssid) /\ auth_for security passphrase auth /\
     lines = network_lines ssid auth).
Proof.
  intros ssid security passphrase. pose proof (config_text s ssid passphrase security eq_refl eq_refl eq_refl) as Ht.
  assert (Hs : forall auth, lacks 10 ssid -> auth_for security passphrase auth ->
    split_on 10 (join_with [10] (network_lines ssid auth)) = network_lines ssid auth).
  { intros auth Hl Ha. unfold network_lines. apply split_join; [done|]. rewrite !Forall_app. split_and!.
    - repeat (constructor; [by apply lit_lacks|]). constructor.
    - constructor; [|constructor]. apply labelled_lacks; [by apply lit_lacks|done].
    - by eapply auth_for_lacks.
    - constructor; [by apply lit_lacks|]. repeat constructor. }
  split.
  - intros (txt & (auth & Hn & Ha & ->)%Ht & <-). exists auth. split_and!; [apply Hn..|done|]. apply Hs; [apply Hn|done].
  - intros (auth & Hn & Ha & ->). exists (join_with [10] (network_lines ssid auth)).
    split; [apply Ht; by exists auth|]. apply Hs; [apply Hn|done].
Qed.
End Wireless.

(** ** DNS servers *)

(** A word without spaces, not a comment. *)
Definition plain_word (s : pystr) : Prop := s <> [] /\ unspaced s.

Lemma dotted_plain b s : inet_ntoa b = Ok s -> plain_word s.
Proof.
  unfold inet_ntoa. destruct (zlen b =? 4) eqn:E; [|done]. intros [= <-]. destruct b as [|x b]; [done|].
  split.
  - simpl. intros H. assert (Hi : int_str x <> []).
    { unfold int_str. destruct (x <? 0) eqn:Ex; [done|]. by destruct (nat_str_digits x) as (_ & ? & _); [lia|]. }
    destruct b; [done|]. by apply app_eq_nil in H as [? _].
  - unfold unspaced. assert (Hall : Forall (Forall (fun c => is_space c = false)) (List.map int_str (x :: b))).
    { apply List.Forall_forall. intros y Hy. apply in_map_iff in Hy as (z & <- & _). apply int_str_unspaced. }
    revert Hall. generalize (List.map int_str (x :: b)). induction l as [|w ws IH]; [constructor|].
    intros [Hw Hws]%Forall_cons. destruct ws as [|w2 ws]; [done|]. rewrite join_cons by done.
    apply Forall_app. split; [done|]. constructor; [done|by apply IH].
Qed.

Lemma validated_plain inet_aton servers : Forall plain_word (validated_servers inet_aton servers).
Proof.
  unfold validated_servers. set (f := fun (validated : list pystr) (server : pystr) => _).
  assert (H : forall acc, Forall plain_word acc -> Forall plain_word (fold_left f servers acc)); [|by apply H].
  induction servers as [|s servers IH]; intros acc Hacc; simpl; [done|]. apply IH. unfold f.
  destruct (inet_aton s) as [b|]; cbn [mbind res_bind]; [|done]. destruct (inet_ntoa b) as [v|] eqn:E; [|done].
  destruct (mem v acc); [done|]. apply Forall_app. split; [done|]. apply Forall_cons. split; [by eapply dotted_plain|constructor].
Qed.

Lemma unspaced_lacks c s : is_space c = true -> unspaced s -> lacks c s.
Proof. intros Hc Hs. eapply Forall_impl; [exact Hs|]. intros x Hx ->. cbv beta in Hx. congruence. Qed.

Lemma universal_lacks s : lacks 13 s -> universal s = s.
Proof.
  induction 1 as [|c s Hc _ IH]; simpl; [done|]. rewrite (proj2 (Z.eqb_neq _ _)) by done. by rewrite IH.
Qed.

(** The lines of a text made of lines. *)
Lemma file_lines_concat ls : Forall (lacks 10) ls -> Forall (lacks 13) ls ->
  file_lines (List.concat (List.map (fun l => l ++ [10]) ls)) = ls.
Proof.
  intros H10 H13. unfold file_lines. set (txt := List.concat _).
  assert (H : split_on 10 txt = ls ++ [[]]).
  { unfold txt. clear H13 txt. induction H10 as [|l ls Hl _ IH]; [done|]. cbn [List.map List.concat].
    rewrite <- app_assoc. cbn [app]. rewrite split_on_cons by done. by rewrite IH. }
  rewrite universal_lacks.
  - rewrite H, rev_app_distr. cbn [rev app]. by rewrite rev_involutive.
  - unfold txt. clear H10 H txt. induction H13 as [|l ls Hl _ IH]; [constructor|]. cbn [List.map List.concat].
    apply Forall_app. split; [|done]. apply Forall_app. split; [done|by repeat constructor].
Qed.

Section Servers.
Context {U : PyUnicode} {L : PyUnicodeLaws U}.

Lemma server_line s : plain_word s ->
  words (strip (lit "nameserver " ++ s)) = [lit "nameserver"; s] /\ strip (lit "nameserver " ++ s) <> [] /\
  starts_with [35] (strip (lit "nameserver " ++ s)) = false.
Proof.
  intros [Hne Hs]. assert (E : strip (lit "nameserver " ++ s) = lit "nameserver " ++ s).
  { unfold strip. change (lstrip_if is_space (lit "nameserver " ++ s)) with (lit "nameserver " ++ s).
    apply rstrip_keeps; [done|]. rewrite last_app_ne by done. by apply (last_Forall (fun c => is_space c = false)). }
  rewrite E. split; [|done]. change (lit "nameserver " ++ s) with (lit "nameserver" ++ 32 :: s).
  rewrite words_unspaced; [|by repeat constructor|done|by intros c s' [= <- _]]. f_equal.
  change (words (32 :: s)) with (words s). rewrite <- (app_nil_r s) at 1. by rewrite words_unspaced.
Qed.

Lemma nameserver_line s : plain_word s -> nameserver_of (lit "nameserver " ++ s) = [s].
Proof.
  intros Hp. destruct (server_line s Hp) as (H1 & H2 & H3). unfold nameserver_of. rewrite H1, H3.
  rewrite bool_decide_eq_false_2 by done. cbn [orb]. by rewrite uc_lower_ascii.
Qed.

Definition options_line : pystr := lit "options timeout:2 attempts:3".

Lemma options_ignored : nameserver_of options_line = [].
Proof.
  unfold nameserver_of. change (words (strip options_line)) with [lit "options"; lit "timeout:2"; lit "attempts:3"].
  cbn [bool_decide]. rewrite uc_lower_ascii by done. by destruct (_ || _).
Qed.

Lemma spaced_lacks c s : is_space c = true -> c <> 32 ->
  forallb (fun x => negb (is_space x) || (x =? 32)) s = true -> lacks c s.
Proof.
  intros Hc Hn H. rewrite forallb_forall in H. apply List.Forall_forall. intros x Hx ->. specialize (H c Hx).
  rewrite Hc in H. cbn [negb orb] in H. lia.
Qed.

Lemma loaddns_payload servers : Forall plain_word servers -> loaddns (Some (dns_payload servers)) = take 3 servers.
Proof.
  intros Hs. apply (Forall_take _ 3) in Hs. unfold loaddns, dns_payload. set (l := take 3 servers) in *.
  change (lit "options timeout:2 attempts:3") with options_line.
  set (ls := List.map (fun server => lit "nameserver " ++ server) l ++ [options_line]).
  assert (E : List.concat (List.map (fun server => lit "nameserver " ++ server ++ [10]) l) ++ options_line ++ [10] =
    List.concat (List.map (fun x => x ++ [10]) ls)).
  { unfold ls. rewrite map_app, concat_app. f_equal. by rewrite map_map. }
  assert (Hlacks : forall c, is_space c = true -> c <> 32 -> Forall (lacks c) ls).
  { intros c Hc Hn. apply Forall_app. split.
    - apply Forall_map. eapply Forall_impl; [exact Hs|]. intros s [_ H]. apply Forall_app.
      split; [by apply spaced_lacks|by apply unspaced_lacks].
    - constructor; [|constructor]. by apply spaced_lacks. }
  rewrite E, file_lines_concat by (by apply Hlacks). unfold ls. rewrite flat_map_app. simpl flat_map at 2.
  rewrite options_ignored, !app_nil_r. clear -Hs L. induction Hs as [|s l Hp _ IH]; [done|].
  cbn [List.map flat_map]. by rewrite nameserver_line, IH.
Qed.

(** The configuration a lease writes makes the resolver ask exactly the first
    three servers of the lease that are addresses, in canonical form and in
    order, whatever text the lease carries as servers. *)
Theorem lease_dns_roundtrip inet_aton router servers isvirtualbox conf :
  applyleasedns inet_aton router servers true isvirtualbox true = Some conf ->
  loaddns (Some conf) = take 3 (validated_servers inet_aton (dnsserversforlease router servers isvirtualbox)).
Proof.
  unfold applyleasedns, configuredns. cbn [negb]. intros H.
  rewrite <- (loaddns_payload _ (validated_plain inet_aton (dnsserversforlease router servers isvirtualbox))).
  destruct (validated_servers _ _); [done|]. by injection H as <-.
Qed.
End Servers.

(** ** Which interface *)

Definition wired (l : link) : Prop := k_wireless l = false.

Lemma find_name links n : str_eqb n [] = false ->
  usablecurrentinterface (true, n) links = n <-> exists l, In l links /\ k_name l = n /\ linkready l = true.
Proof.
  intros Hn. unfold usablecurrentinterface. cbn [fst snd negb].
  destruct (List.find _ links) as [l|] eqn:E.
  - apply find_some in E as [Hin H]. apply andb_true_iff in H as [H1%str_eqb_eq H2]. split; [|done]. by exists l.
  - split; [intros <-; by rewrite str_eqb_refl in Hn|]. intros (l & Hin & Hl & Hr).
    pose proof (find_none _ _ E l Hin) as H. cbv beta in H. by rewrite Hl, str_eqb_refl, Hr in H.
Qed.

(** With no preferred interface, the service leaves a working connection alone
    unless it is wireless while a wired link is ready; otherwise it configures
    the first wired link that is ready, and waits when there is none. *)
Theorem wired_first links state current :
  current = usablecurrentinterface state links ->
  Forall (fun l => k_name l <> []) links ->
  choose false state [] links =
    match List.find (fun l => str_eqb (k_name l) current) links, wired_ready links with
    | Some l, w :: _ => if k_wireless l then Configure (k_name w) else Keep
    | Some _, [] => Keep
    | None, w :: _ => Configure (k_name w)
    | None, [] => Wait
    end.
Proof.
  intros Hc Hne. unfold choose. rewrite <- Hc. cbn [configuredinterface]. unfold keeps.
  cbn [negb andb]. change (bool_decide (([] : pystr) = [])) with true. cbn [negb andb orb].
  assert (Hw : forall w ws, wired_ready links = w :: ws -> k_name w <> []).
  { intros w ws E. assert (Hin : In w (wired_ready links)) by (rewrite E; by left). unfold wired_ready in Hin.
    apply filter_In in Hin as [Hin _]. rewrite List.Forall_forall in Hne. by apply Hne. }
  assert (Hgo : forall A (x y : A), match wired_ready links with
      | l :: _ => match k_name l with [] => Wait | n => Configure n end | [] => Wait end =
    match wired_ready links with w :: _ => Configure (k_name w) | [] => Wait end).
  { intros _ _ _. destruct (wired_ready links) as [|w ws] eqn:E; [done|]. specialize (Hw w ws eq_refl).
    by destruct (k_name w). }
  rewrite (Hgo unit tt tt). clear Hgo Hw.
  destruct (bool_decide_reflect (current = [])) as [->|Hcur].
  - destruct (List.find _ links) as [l|] eqn:E; [|done]. apply find_some in E as [Hin H%str_eqb_eq].
    rewrite List.Forall_forall in Hne. by destruct (Hne l Hin).
  - destruct (List.find _ links) as [l|]; [|by destruct (wired_ready links)].
    destruct (wired_ready links) as [|w ws]; [rewrite bool_decide_eq_true_2 by done; by rewrite !orb_true_r|].
    rewrite bool_decide_eq_false_2 by done. rewrite orb_false_r. by destruct (k_wireless l).
Qed.

(** ** Witnesses *)

#[local] Existing Instance ascii_unicode.
#[local] Existing Instance ascii_unicode_laws.

(** A passphrase that tries to close its quotes. *)
Definition demo_settings : settings :=
  [(lit "ssid", lit "home"); (lit "passphrase", lit "secret" ++ [34] ++ lit " psk=x")].

Lemma wireless_config_lines_witness : exists txt auth, wirelessconfigurationtext demo_settings = Ok (Some txt) /\
  split_on 10 txt = network_lines (lit "home") auth /\ auth_for (lit "wpa2") (field "passphrase" "" demo_settings) auth.
Proof.
  assert (H : exists txt, wirelessconfigurationtext demo_settings = Ok (Some txt)) by (eexists; vm_compute; reflexivity).
  destruct H as [txt H].
  destruct (proj1 (wireless_config_lines demo_settings (split_on 10 txt)) (ex_intro _ txt (conj H eq_refl))) as (auth & _ & Ha & Hl).
  exists txt, auth. split; [exact H|split; [exact Hl|exact Ha]].
Defined.

Definition demo_lease_aton (s : pystr) : res bytes :=
  if str_eqb s (lit "bad") then Exc OSError else Ok [10; 0; 0; zlen s].

Lemma lease_dns_roundtrip_witness : exists conf,
  applyleasedns demo_lease_aton (lit "10.0.2.2") [lit "a"; lit "bad"; lit "b"] true true true = Some conf /\
  loaddns (Some conf) = [lit "10.0.0.8"; lit "10.0.0.1"].
Proof.
  assert (H : exists conf, applyleasedns demo_lease_aton (lit "10.0.2.2") [lit "a"; lit "bad"; lit "b"] true true true = Some conf)
    by (eexists; vm_compute; reflexivity).
  destruct H as [conf H]. exists conf. split; [exact H|].
  exact (lease_dns_roundtrip demo_lease_aton (lit "10.0.2.2") [lit "a"; lit "bad"; lit "b"] true conf H).
Defined.

Definition demo_links : list link := [mklink (lit "wlan0") true true (lit "UP"); mklink (lit "eth0") false true (lit "UP")].

Lemma wired_first_witness : choose false (true, lit "wlan0") [] demo_links = Configure (lit "eth0").
Proof. apply (wired_first demo_links (true, lit "wlan0") (lit "wlan0")); [done|repeat constructor; done]. Defined.
