(* ===== verification/PyFs.v ===== *)
(** The [os] calls of the broker on a POSIX file system.

    The file system is a graph of inodes; a directory maps names to inodes, so a
    descriptor stays valid when the name it was opened by moves.  Every call goes
    through [syscall]: the environment decides, call by call, whether it fails
    with an [OSError] or moves fewer bytes than asked for, so a theorem over all
    environments covers every point at which the program can be cut off.

    [os.close] is taken not to fail; [w_open] counts the descriptors that are
    open.  What [fsync] guarantees after a power failure is not modelled. *)

From stdpp Require Import base list gmap option.
From Stdlib Require Import ZArith Lia Bool String.
From S2P Require Import Prelude PyFloat PyText.
Open Scope Z_scope.

(** ** State *)

Abbreviation ino := nat.

Inductive kind : Type :=
| KFile (data : bytes)
| KDir (entries : gmap pystr ino)
| KLink
| KSpecial.

Record inode : Type := mkinode { i_kind : kind; i_mode : Z; i_uid : Z; i_gid : Z }.

Record world : Type := mkworld {
  w_nodes : gmap ino inode;
  w_tick : nat;      (** calls made so far *)
  w_open : Z }.      (** open descriptors *)

(** What the environment does with a call. *)
Inductive fault : Type :=
| NoFault
| Fails            (** the call raises [OSError] *)
| Short (n : Z).   (** a read or write moves at most [n] bytes *)

Class Os : Type := {
  os_fault : nat -> fault;
  os_clock : nat -> pyfloat;            (** [time.time()] *)
  os_entropy : nat -> nat -> bytes;     (** [os.urandom(n)], [secrets] *)
  os_pid : Z;
  os_euid : Z;
  os_egid : Z;
  os_umask : Z;
  os_cwd : pystr }.

(** What the code relies on: the random source gives the number of bytes asked
    for. *)
Class OsLaws (O : Os) : Prop := {
  os_entropy_len k n : List.length (os_entropy k n) = n;
  os_entropy_bytes k n : bytes_ok (os_entropy k n) }.

(** An environment in which no call fails. *)
Definition calm (O : Os) : Prop := forall n, os_fault n = NoFault.

(** ** The monad: state that survives an exception *)

Definition IO (A : Type) : Type := world -> res A * world.

#[export] Instance io_ret : MRet IO := fun A a w => (Ok a, w).
#[export] Instance io_bind : MBind IO := fun A B f m w =>
  match m w with
  | (Ok a, w') => f a w'
  | (Exc e, w') => (Exc e, w')
  end.

Definition raise {A} (e : exn) : IO A := fun w => (Exc e, w).
Definition lift {A} (r : res A) : IO A := fun w => (r, w).

(** [if not b: raise e]. *)
Definition guard_io (b : bool) (e : exn) : IO unit := if b then mret tt else raise e.

(** [try: m  except: h].  The handler raises again what it does not catch. *)
Definition try_io {A} (m : IO A) (h : exn -> IO A) : IO A := fun w =>
  match m w with
  | (Ok a, w') => (Ok a, w')
  | (Exc e, w') => h e w'
  end.

(** [try: m  finally: f].  An exception of the finaliser replaces the outcome. *)
Definition finally {A} (m : IO A) (f : IO unit) : IO A := fun w =>
  let '(r, w1) := m w in
  match f w1 with
  | (Ok _, w2) => (r, w2)
  | (Exc e, w2) => (Exc e, w2)
  end.

(** [try: m  except Exception: f; raise]. *)
Definition on_error {A} (m : IO A) (f : IO unit) : IO A :=
  try_io m (fun e => f ;; raise e).

(** [FileNotFoundError] and its siblings are [OSError]s; [UnicodeError] and
    [JSONDecodeError] are [ValueError]s. *)
Definition is_oserror (e : exn) : bool :=
  match e with
  | OSError | FileNotFoundError | FileExistsError | NotADirectoryError | IsADirectoryError | PermissionError => true
  | _ => false
  end.
Definition is_valueerror (e : exn) : bool :=
  match e with ValueError | UnicodeError | JSONDecodeError => true | _ => false end.

(** ** Inodes *)

Definition set_nodes (f : gmap ino inode -> gmap ino inode) (w : world) : world :=
  mkworld (f (w_nodes w)) (w_tick w) (w_open w).
Definition step_tick (w : world) : world := mkworld (w_nodes w) (S (w_tick w)) (w_open w).
Definition add_open (n : Z) (w : world) : world := mkworld (w_nodes w) (w_tick w) (w_open w + n).
Definition set_kind (k : kind) (n : inode) : inode := mkinode k (i_mode n) (i_uid n) (i_gid n).
Definition set_mode (m : Z) (n : inode) : inode := mkinode (i_kind n) m (i_uid n) (i_gid n).
Definition set_owner (u g : Z) (n : inode) : inode := mkinode (i_kind n) (i_mode n) u g.

Definition root_ino : ino := 0%nat.

(** The entries of the directory [d]. *)
Definition entries (w : world) (d : ino) : option (gmap pystr ino) :=
  match w_nodes w !! d with
  | Some n => match i_kind n with KDir es => Some es | _ => None end
  | None => None
  end.

Definition child (w : world) (d : ino) (name : pystr) : option ino :=
  es ← entries w d; es !! name.

Definition kind_of (w : world) (i : ino) : option kind := i_kind <$> w_nodes w !! i.

Definition is_dir (k : kind) : bool := match k with KDir _ => true | _ => false end.
Definition isreg (n : inode) : bool := match i_kind n with KFile _ => true | _ => false end.
Definition isdir (n : inode) : bool := is_dir (i_kind n).
Definition st_size (n : inode) : Z := match i_kind n with KFile d => zlen d | _ => 0 end.

(** The directory a path leads to, no link being followed. *)
Fixpoint reach (w : world) (d : ino) (comps : list pystr) : option ino :=
  match comps with
  | [] => Some d
  | c :: rest =>
      i ← child w d c;
      n ← w_nodes w !! i;
      if isdir n then reach w i rest else None
  end.

(** Change the entry [name] of the directory [d]. *)
Definition put_entry (d : ino) (name : pystr) (i : option ino) (w : world) : world :=
  match w_nodes w !! d, entries w d with
  | Some n, Some es =>
      set_nodes (insert d (set_kind (KDir (partial_alter (fun _ => i) name es)) n)) w
  | _, _ => w
  end.

Definition fresh_ino (w : world) : ino := fresh (dom (w_nodes w) : gset ino).

Section Calls.
Context {OS : Os}.

Definition syscall {A} (f : fault -> world -> res A * world) : IO A := fun w =>
  match os_fault (w_tick w) with
  | Fails => (Exc OSError, step_tick w)
  | x => f x (step_tick w)
  end.

(** A call on the entry [name] of [d]. *)
Definition at_entry {A} (d : ino) (name : pystr) (w : world)
    (found : ino -> inode -> res A * world) (missing : res A * world) : res A * world :=
  match child w d name with
  | Some i => match w_nodes w !! i with Some n => found i n | None => (Exc OSError, w) end
  | None => match entries w d with Some _ => missing | None => (Exc NotADirectoryError, w) end
  end.

Definition new_node (k : kind) (mode : Z) : inode :=
  mkinode k (Z.land mode (Z.lnot os_umask)) os_euid os_egid.

(** Create [name] in [d]. *)
Definition create_at (d : ino) (name : pystr) (k : kind) (mode : Z) (w : world) : world :=
  put_entry d name (Some (fresh_ino w)) (set_nodes (insert (fresh_ino w) (new_node k mode)) w).

Definition opened (i : ino) (w : world) : res ino * world := (Ok i, add_open 1 w).

(** [os.open("/", O_RDONLY | O_DIRECTORY)]. *)
Definition os_open_root : IO ino := syscall (fun _ w => opened root_ino w).

(** [os.mkdir(name, mode, dir_fd=d)]. *)
Definition os_mkdir (d : ino) (name : pystr) (mode : Z) : IO unit := syscall (fun _ w =>
  at_entry d name w (fun _ _ => (Exc FileExistsError, w)) (Ok tt, create_at d name (KDir ∅) mode w)).

(** [os.open(name, O_RDONLY | O_DIRECTORY | O_NOFOLLOW, dir_fd=d)]. *)
Definition os_open_dir (d : ino) (name : pystr) : IO ino := syscall (fun _ w =>
  at_entry d name w
    (fun i n => if isdir n then opened i w else (Exc NotADirectoryError, w))
    (Exc FileNotFoundError, w)).

(** [os.open(name, O_WRONLY | O_CREAT | O_EXCL | O_NOFOLLOW, mode, dir_fd=d)]. *)
Definition os_open_excl (d : ino) (name : pystr) (mode : Z) : IO ino := syscall (fun _ w =>
  at_entry d name w (fun _ _ => (Exc FileExistsError, w))
    (opened (fresh_ino w) (create_at d name (KFile []) mode w))).

(** [os.open(name, O_RDONLY | O_NOFOLLOW, dir_fd=d)]. *)
Definition os_open_read (d : ino) (name : pystr) : IO ino := syscall (fun _ w =>
  at_entry d name w
    (fun i n => match i_kind n with KLink => (Exc OSError, w) | _ => opened i w end)
    (Exc FileNotFoundError, w)).

(** [os.open(name, O_RDWR | O_CREAT | O_NOFOLLOW, mode, dir_fd=d)]. *)
Definition os_open_rw (d : ino) (name : pystr) (mode : Z) : IO ino := syscall (fun _ w =>
  at_entry d name w
    (fun i n => match i_kind n with
                | KLink => (Exc OSError, w)
                | KDir _ => (Exc IsADirectoryError, w)
                | _ => opened i w
                end)
    (opened (fresh_ino w) (create_at d name (KFile []) mode w))).

Definition os_close (i : ino) : IO unit := fun w => (Ok tt, add_open (-1) w).

Definition on_inode {A} (i : ino) (f : inode -> world -> res A * world) (w : world) : res A * world :=
  match w_nodes w !! i with Some n => f n w | None => (Exc OSError, w) end.

Definition os_fchmod (i : ino) (mode : Z) : IO unit := syscall (fun _ =>
  on_inode i (fun n w => (Ok tt, set_nodes (insert i (set_mode mode n)) w))).
Definition os_fchown (i : ino) (uid gid : Z) : IO unit := syscall (fun _ =>
  on_inode i (fun n w => (Ok tt, set_nodes (insert i (set_owner uid gid n)) w))).
Definition os_fstat (i : ino) : IO inode := syscall (fun _ => on_inode i (fun n w => (Ok n, w))).
Definition os_fsync (i : ino) : IO unit := syscall (fun _ => on_inode i (fun _ w => (Ok tt, w))).

(** [fcntl.flock(fd, LOCK_EX)] and [LOCK_UN]; waiting for the lock is no step. *)
Definition os_flock (i : ino) : IO unit := syscall (fun _ => on_inode i (fun _ w => (Ok tt, w))).

(** [os.stat(name, dir_fd=d, follow_symlinks=False)]. *)
Definition os_lstat (d : ino) (name : pystr) : IO inode := syscall (fun _ w =>
  at_entry d name w (fun _ n => (Ok n, w)) (Exc FileNotFoundError, w)).

(** [os.read(fd, n)] with the file offset [off]: some bytes while there are any. *)
Definition os_read (i : ino) (off n : Z) : IO bytes := syscall (fun x =>
  on_inode i (fun nd w =>
    match i_kind nd with
    | KFile data =>
        let n := match x with Short k => Z.max 1 (Z.min k n) | _ => n end in
        (Ok (zslice data off (off + n)), w)
    | KDir _ => (Exc IsADirectoryError, w)
    | _ => (Exc OSError, w)
    end)).

(** A write of [data] at the end of the file, how much of it was written: at least
    [least] bytes. *)
Definition os_write_least (least : Z) (i : ino) (d : bytes) : IO Z := syscall (fun x =>
  on_inode i (fun nd w =>
    match i_kind nd with
    | KFile old =>
        let n := match x with Short k => Z.max least (Z.min k (zlen d)) | _ => zlen d end in
        (Ok n, set_nodes (insert i (set_kind (KFile (old ++ ztake n d)) nd)) w)
    | _ => (Exc OSError, w)
    end)).

(** [os.write(fd, data)]. *)
Definition os_write : ino -> bytes -> IO Z := os_write_least 0.

(** [os.replace] and [os.rename] inside one directory. *)
Definition os_rename (d : ino) (src dst : pystr) : IO unit := syscall (fun _ w =>
  at_entry d src w
    (fun i n =>
      let moved := (Ok tt, put_entry d src None (put_entry d dst (Some i) w)) in
      at_entry d dst w
        (fun i' n' =>
          if bool_decide (i = i') then (Ok tt, w)
          else match isdir n, i_kind n' with
               | true, KDir es => if bool_decide (es = ∅) then moved else (Exc OSError, w)
               | true, _ => (Exc NotADirectoryError, w)
               | false, KDir _ => (Exc IsADirectoryError, w)
               | false, _ => moved
               end)
        moved)
    (Exc FileNotFoundError, w)).

(** [os.unlink(name, dir_fd=d)]. *)
Definition os_unlink (d : ino) (name : pystr) : IO unit := syscall (fun _ w =>
  at_entry d name w
    (fun _ n => if isdir n then (Exc IsADirectoryError, w) else (Ok tt, put_entry d name None w))
    (Exc FileNotFoundError, w)).

Definition os_rmdir (d : ino) (name : pystr) : IO unit := syscall (fun _ w =>
  at_entry d name w
    (fun _ n => match i_kind n with
                | KDir es => if bool_decide (es = ∅) then (Ok tt, put_entry d name None w) else (Exc OSError, w)
                | _ => (Exc NotADirectoryError, w)
                end)
    (Exc FileNotFoundError, w)).

(** [os.listdir(fd)]. *)
Definition os_listdir (d : ino) : IO (list pystr) := syscall (fun _ w =>
  match entries w d with
  | Some es => (Ok (List.map fst (map_to_list es)), w)
  | None => (Exc NotADirectoryError, w)
  end).

(** [shutil.rmtree] of the directory [name]; [fuel] bounds the depth. *)
Fixpoint rmtree_at (fuel : nat) (d : ino) (name : pystr) : IO unit :=
  match fuel with
  | O => raise OSError
  | S fuel =>
      c ← os_open_dir d name;
      finally
        (names ← os_listdir c;
         (fix each (l : list pystr) : IO unit :=
            match l with
            | [] => mret tt
            | x :: l' =>
                n ← os_lstat c x;
                (if isdir n then rmtree_at fuel c x else os_unlink c x) ;;
                each l'
            end) names)
        (os_close c) ;;
      os_rmdir d name
  end.

(** Directories are nested at most as deep as there are inodes. *)
Definition rmtree (d : ino) (name : pystr) : IO unit := fun w =>
  rmtree_at (S (size (w_nodes w))) d name w.

(** The same on a path: [name] in the directory [comps] leads to. *)
Definition rmtree_path (comps : list pystr) (name : pystr) : IO unit := fun w =>
  match reach w root_ino comps with
  | Some d => rmtree d name w
  | None => (Exc FileNotFoundError, w)
  end.

(** [time.time()], [os.urandom(n)]. *)
Definition os_time : IO pyfloat := fun w => (Ok (os_clock (w_tick w)), step_tick w).
Definition os_urandom (n : nat) : IO bytes := fun w => (Ok (os_entropy (w_tick w) n), step_tick w).

End Calls.
