(* ===== verification/PyPath.v ===== *)
(** Paths ([os.path]) and the parts of text the broker takes apart: [partition],
    [split] at the first separator, [splitlines], [str.replace]. *)

From stdpp Require Import base list.
From Stdlib Require Import ZArith Lia Bool String.
From S2P Require Import Prelude PyText PyVal PyStr.
Open Scope Z_scope.

(** ** Text *)

(** [s.partition(c)] for a one-character separator: head, found, tail. *)
Definition partition (c : Z) (s : pystr) : pystr * bool * pystr :=
  match break_at (Z.eqb c) s with
  | (a, []) => (a, false, [])
  | (a, _ :: b) => (a, true, b)
  end.

(** [a, b = s.split(c, 1)]: a missing separator leaves one part to unpack. *)
Definition split1 (c : Z) (s : pystr) : res (pystr * pystr) :=
  match partition c s with
  | (a, true, b) => Ok (a, b)
  | _ => Exc ValueError
  end.

(** The line boundaries of [str.splitlines]. *)
Definition is_linesep (c : Z) : bool :=
  ((10 <=? c) && (c <=? 13)) || ((28 <=? c) && (c <=? 30)) || (c =? 133) || (c =? 8232) || (c =? 8233).

Fixpoint splitlines_acc (line : pystr) (s : pystr) : list pystr :=
  match s with
  | [] => match line with [] => [] | _ => [rev line] end
  | c :: s' =>
      if is_linesep c then
        rev line ::
        match s' with
        | d :: s'' => if (c =? 13) && (d =? 10) then splitlines_acc [] s'' else splitlines_acc [] s'
        | [] => []
        end
      else splitlines_acc (c :: line) s'
  end.
Definition splitlines (s : pystr) : list pystr := splitlines_acc [] s.

Definition ends_with (p s : pystr) : bool := starts_with (rev p) (rev s).

(** [s.replace(CRLF, LF)]. *)
Fixpoint crlf_to_lf (s : pystr) : pystr :=
  match s with
  | [] => []
  | c :: s' =>
      match s' with
      | d :: s'' => if (c =? 13) && (d =? 10) then 10 :: crlf_to_lf s'' else c :: crlf_to_lf s'
      | [] => [c]
      end
  end.

(** ** Paths *)

(** [os.path.join(a, b)]. *)
Definition path_join (a b : pystr) : pystr :=
  if starts_with [47] b then b
  else match a with
       | [] => b
       | _ => if List.last a 0 =? 47 then a ++ b else a ++ [47] ++ b
       end.

(** [os.path.normpath] after the leading slashes: [..] drops the component
    before it. *)
Fixpoint norm_comps (acc : list pystr) (cs : list pystr) : list pystr :=
  match cs with
  | [] => rev acc
  | c :: cs' =>
      if str_eqb c [] || str_eqb c (lit ".") then norm_comps acc cs'
      else if str_eqb c (lit "..") then norm_comps (tl acc) cs'
      else norm_comps (c :: acc) cs'
  end.

(** [os.path.abspath(path)] as its components; an absolute path is named by them
    whether it starts with one slash or two. *)
Definition abs_comps (cwd path : pystr) : list pystr :=
  norm_comps [] (split_on 47 (path_join cwd path)).

(** [os.path.split(os.path.abspath(path))]: the parent and the last component,
    empty for the root. *)
Definition split_path (cs : list pystr) : list pystr * pystr :=
  match rev cs with
  | [] => ([], [])
  | name :: up => (rev up, name)
  end.

Lemma split_path_snoc dir name : split_path (dir ++ [name]) = (dir, name).
Proof. unfold split_path. rewrite rev_app_distr. simpl. by rewrite rev_involutive. Qed.

(** ** Facts about text *)

Lemma break_at_app p a c s : Forall (fun x => p x = false) a -> p c = true -> break_at p (a ++ c :: s) = (a, c :: s).
Proof. intros Ha Hc. induction Ha as [|x a Hx Ha IH]; simpl; [by rewrite Hc|]. by rewrite Hx, IH. Qed.

Lemma break_at_inv p s a b : break_at p s = (a, b) -> s = a ++ b.
Proof.
  revert a b. induction s as [|c s IH]; intros a b; simpl; [by intros [= <- <-]|].
  destruct (p c); [by intros [= <- <-]|]. destruct (break_at p s) as [a' b']. intros [= <- <-].
  simpl. f_equal. by apply IH.
Qed.

Lemma break_at_stop p s a z b : break_at p s = (a, z :: b) -> p z = true.
Proof.
  revert a. induction s as [|c s IH]; intros a; simpl; [done|].
  destruct (p c) eqn:E; [by intros [= _ <- _]|]. destruct (break_at p s) as [a' b'] eqn:E2.
  intros [= _ ->]. by eapply IH.
Qed.

Lemma partition_found c a s : Forall (fun x => x <> c) a -> partition c (a ++ c :: s) = (a, true, s).
Proof.
  intros Ha. unfold partition. rewrite (break_at_app _ a c s); [done| |apply Z.eqb_refl].
  revert Ha. apply List.Forall_impl. intros x Hx. lia.
Qed.

Lemma partition_inv c s a f b : partition c s = (a, f, b) -> s = a ++ (if f : bool then c :: b else []) /\ (f = false -> b = []).
Proof.
  unfold partition. destruct (break_at _ s) as [x y] eqn:E. pose proof (break_at_inv _ _ _ _ E) as ->.
  assert (Hy : forall z y', y = z :: y' -> z = c).
  { intros z y' ->. apply break_at_stop in E. lia. }
  destruct y as [|z y]; intros [= <- <- <-]; [by rewrite app_nil_r|]. by rewrite (Hy z y eq_refl).
Qed.

Lemma split1_found c a s : Forall (fun x => x <> c) a -> split1 c (a ++ c :: s) = Ok (a, s).
Proof. intros Ha. unfold split1. by rewrite partition_found. Qed.

Lemma splitlines_acc_line acc a c s : Forall (fun x => is_linesep x = false) a -> is_linesep c = true -> c <> 13 ->
  splitlines_acc acc (a ++ c :: s) = rev (rev a ++ acc) :: splitlines_acc [] s.
Proof.
  intros Ha Hc Hn. revert acc. induction Ha as [|x a Hx Ha IH]; intros acc; cbn [app splitlines_acc].
  - rewrite Hc. cbn [rev app]. f_equal. destruct s as [|d s]; [done|]. by destruct (c =? 13) eqn:E; [lia|].
  - rewrite Hx, IH. cbn [rev]. by rewrite <- app_assoc.
Qed.

(** The lines of a text whose lines end in newlines. *)
Lemma splitlines_line a s : Forall (fun x => is_linesep x = false) a -> splitlines (a ++ 10 :: s) = a :: splitlines s.
Proof. intros Ha. unfold splitlines. rewrite splitlines_acc_line by done. by rewrite app_nil_r, rev_involutive. Qed.

Lemma utf8_ascii s : forallb is_ascii s = true -> utf8_encode s = Ok s /\ utf8_decode s = Ok s.
Proof.
  intros Ha.
  assert (He : utf8_encode s = Ok s).
  { unfold utf8_encode. assert (existsb is_surrogate s = false /\ flat_map utf8_char s = s) as [-> ->]; [|done].
    induction s as [|c s IH]; [done|]. cbn [forallb] in Ha. apply andb_true_iff in Ha as [Hc Hs].
    destruct (IH Hs) as [E1 E2]. cbn [existsb flat_map]. rewrite E1, E2. unfold is_ascii in Hc.
    unfold is_surrogate, utf8_char. split; [lia|]. by destruct (c <? 128) eqn:E; [|lia]. }
  split; [done|]. apply utf8_roundtrip; [|done].
  apply forallb_forall. intros c Hc. pose proof (proj1 (forallb_forall _ _) Ha c Hc) as H. unfold is_ascii in H.
  unfold is_scalar, is_surrogate. lia.
Qed.
