(* ===== verification/PyDecimal.v ===== *)
(** Numbers of the language's [decimal] module: finite decimals with a sign, a
    coefficient and an exponent, arithmetic rounded half to even at a precision,
    [normalize], the two formats the calculator uses, and how a number is read from
    text.

    The context is the default one of the language: exponents between [EMIN] and
    [EMAX], and the traps [InvalidOperation], [DivisionByZero] and [Overflow]; a
    number too small is rounded to the smallest exponent or to zero.  Infinities
    and NaNs are left out: no text without letters other than [e] denotes one, and
    no operation without a trap gives one. *)

From stdpp Require Import base option list.
From Stdlib Require Import ZArith Lia Bool String.
From S2P Require Import Prelude PyFloat PyText PyVal PyStr.
Open Scope Z_scope.

Record decimal := mkdec { d_neg : bool; d_int : Z; d_exp : Z }.

#[export] Instance decimal_eq_dec : EqDecision decimal.
Proof. solve_decision. Defined.

Definition EMAX : Z := 999999.
Definition EMIN : Z := -999999.
Definition etiny (prec : Z) : Z := EMIN - prec + 1.
Definition etop (prec : Z) : Z := EMAX - prec + 1.

(** [len(self._int)]: the number of digits of the coefficient, 1 for zero. *)
Definition ndigits (n : Z) : Z := zlen (nat_str n).

(** [n / d] rounded to an integer, half to even. *)
Definition half_even (n d : Z) : Z :=
  let q := n / d in
  let r := n mod d in
  if 2 * r <? d then q else if d <? 2 * r then q + 1 else if Z.even q then q else q + 1.

(** [self._fix(context)]: rounded to [prec] digits within the exponents. *)
Definition fix_dec (prec : Z) (d : decimal) : res decimal :=
  if d_int d =? 0 then Ok (mkdec (d_neg d) 0 (Z.min (Z.max (d_exp d) (etiny prec)) EMAX))
  else
    let exp_min := ndigits (d_int d) + d_exp d - prec in
    if etop prec <? exp_min then Exc DecimalOverflow
    else
      let exp_min := Z.max exp_min (etiny prec) in
      if d_exp d <? exp_min then
        let c := half_even (d_int d) (10 ^ (exp_min - d_exp d)) in
        let '(c, exp_min) := if prec <? ndigits c then (c / 10, exp_min + 1) else (c, exp_min) in
        if etop prec <? exp_min then Exc DecimalOverflow else Ok (mkdec (d_neg d) c exp_min)
      else Ok d.

(** The coefficient with its sign, at a smaller exponent. *)
Definition signed (d : decimal) : Z := if d_neg d then - d_int d else d_int d.
Definition at_exp (d : decimal) (e : Z) : Z := signed d * 10 ^ (d_exp d - e).

Definition is_zero (d : decimal) : bool := d_int d =? 0.
Definition dneg (d : decimal) : decimal := mkdec (negb (d_neg d)) (d_int d) (d_exp d).

Definition dadd (prec : Z) (a b : decimal) : res decimal :=
  let e := Z.min (d_exp a) (d_exp b) in
  let s := at_exp a e + at_exp b e in
  let neg := if s =? 0 then is_zero a && is_zero b && d_neg a && d_neg b else s <? 0 in
  fix_dec prec (mkdec neg (Z.abs s) e).

Definition dsub (prec : Z) (a b : decimal) : res decimal := dadd prec a (dneg b).

Definition dmul (prec : Z) (a b : decimal) : res decimal :=
  fix_dec prec (mkdec (xorb (d_neg a) (d_neg b)) (d_int a * d_int b) (d_exp a + d_exp b)).

(** Trailing zeros are dropped until the exponent is [limit]. *)
Fixpoint drop_zeros (fuel : nat) (limit c e : Z) : Z * Z :=
  match fuel with
  | O => (c, e)
  | S fuel => if (e <? limit) && (c mod 10 =? 0) then drop_zeros fuel limit (c / 10) (e + 1) else (c, e)
  end.

(** Division by a number that is not zero: enough digits of the quotient, the last
    one made odd or not a multiple of five when digits are missing; an exact
    quotient is brought near the ideal exponent. *)
Definition ddiv (prec : Z) (a b : decimal) : res decimal :=
  let neg := xorb (d_neg a) (d_neg b) in
  let ideal := d_exp a - d_exp b in
  if is_zero b then Exc (if is_zero a then InvalidOperation else DivisionByZero)
  else if is_zero a then fix_dec prec (mkdec neg 0 ideal)
  else
    let shift := ndigits (d_int b) - ndigits (d_int a) + prec + 1 in
    let num := if 0 <=? shift then d_int a * 10 ^ shift else d_int a in
    let den := if 0 <=? shift then d_int b else d_int b * 10 ^ (- shift) in
    let coeff := num / den in
    let exp := ideal - shift in
    let '(coeff, exp) :=
      if num mod den =? 0 then drop_zeros (Z.to_nat (ndigits coeff)) ideal coeff exp
      else (if coeff mod 5 =? 0 then coeff + 1 else coeff, exp) in
    fix_dec prec (mkdec neg coeff exp).

(** [self.normalize()]. *)
Definition normalize (prec : Z) (d : decimal) : res decimal :=
  d ← fix_dec prec d;
  if is_zero d then Ok (mkdec (d_neg d) 0 0)
  else
    let '(c, e) := drop_zeros (Z.to_nat (ndigits (d_int d))) EMAX (d_int d) (d_exp d) in
    Ok (mkdec (d_neg d) c e).

Definition sign_text (neg : bool) : pystr := if neg then [45] else [].

(** [format(d, 'f')]. *)
Definition format_f (d : decimal) : pystr :=
  let ds := nat_str (d_int d) in
  let dotplace := d_exp d + zlen ds in
  sign_text (d_neg d) ++
  (if dotplace <? 0 then lit "0." ++ zeros (- dotplace) ++ ds
   else if zlen ds <=? dotplace then ds ++ zeros (dotplace - zlen ds)
   else (match ztake dotplace ds with [] => lit "0" | ip => ip end) ++ lit "." ++ zdrop dotplace ds).

(** The exponent of the first digit. *)
Definition adjusted (d : decimal) : Z := d_exp d + ndigits (d_int d) - 1.

(** [d._rescale(e, ROUND_HALF_EVEN)]. *)
Definition rescale (e : Z) (d : decimal) : decimal :=
  if e <=? d_exp d then mkdec (d_neg d) (d_int d * 10 ^ (d_exp d - e)) e
  else mkdec (d_neg d) (half_even (d_int d) (10 ^ (e - d_exp d))) e.

(** [d._round(places)]: so many digits, of a number that is not zero. *)
Definition round_digits (places : Z) (d : decimal) : decimal :=
  let ans := rescale (adjusted d + 1 - places) d in
  if adjusted ans =? adjusted d then ans else rescale (adjusted ans + 1 - places) ans.

(** [format(d, f'.{places}E').split('E', 1)] of a number that is not zero: the
    coefficient and the exponent, as the integer whose text it is. *)
Definition format_E (places : Z) (d : decimal) : pystr * Z :=
  let r := round_digits (places + 1) d in
  let ds := nat_str (d_int r) in
  (sign_text (d_neg r) ++ ztake 1 ds ++ lit "." ++ zdrop 1 ds, adjusted r).

(** [Decimal(text)] for text without white space and without letters other than
    [e]: a sign, digits with at most one point, and an exponent. *)
Definition all_digits (s : pystr) : bool := forallb ascii_digit s.

Fixpoint split_first (sep : Z) (s : pystr) : pystr * option pystr :=
  match s with
  | [] => ([], None)
  | c :: s' => if c =? sep then ([], Some s')
               else let '(a, b) := split_first sep s' in (c :: a, b)
  end.

Definition exponent_of (s : option pystr) : option Z :=
  match s with
  | None => Some 0
  | Some s =>
      let '(neg, ds) := split_sign s in
      if all_digits ds && negb (bool_decide (ds = [])) then Some (if neg : bool then - digits_val ds else digits_val ds)
      else None
  end.

Definition dec_of_str (s : pystr) : res decimal :=
  let '(neg, body) := split_sign s in
  let '(mantissa, ex) := split_first 101 body in
  let '(ip, fp) := split_first 46 mantissa in
  let frac := match fp with Some f => f | None => [] end in
  match exponent_of ex with
  | Some e =>
      if all_digits ip && all_digits frac && negb (bool_decide (ip ++ frac = []))
      then Ok (mkdec neg (digits_val (ip ++ frac)) (e - zlen frac))
      else Exc InvalidOperation
  | None => Exc InvalidOperation
  end.

(** ** Digits *)

Lemma pow10_pos k : 0 < 10 ^ k \/ k < 0.
Proof. destruct (Z.ltb_spec k 0); [by right|left]. by apply Z.pow_pos_nonneg. Qed.

Lemma pow10_gt k : 0 <= k -> 0 < 10 ^ k.
Proof. intros. by apply Z.pow_pos_nonneg. Qed.

Lemma fold_digits ds v : fold_left (fun a c => a * 10 + (c - 48)) ds v = v * 10 ^ zlen ds + digits_val ds.
Proof.
  revert v. induction ds as [|c ds IH]; intros v; cbn [fold_left digits_val].
  - change (digits_val []) with 0. change (zlen (@nil Z)) with 0. lia.
  - rewrite IH. change (digits_val (c :: ds)) with (fold_left (fun a c => a * 10 + (c - 48)) ds (0 * 10 + (c - 48))).
    rewrite (IH (0 * 10 + (c - 48))), zlen_cons, Z.pow_add_r by (try lia; apply zlen_nonneg). lia.
Qed.

Lemma digits_val_app a b : digits_val (a ++ b) = digits_val a * 10 ^ zlen b + digits_val b.
Proof. unfold digits_val at 1. rewrite fold_left_app. apply fold_digits. Qed.

Lemma digits_val_cons c ds : digits_val (c :: ds) = (c - 48) * 10 ^ zlen ds + digits_val ds.
Proof. change (c :: ds) with ([c] ++ ds). rewrite digits_val_app. f_equal. Qed.

Lemma digits_val_bounds ds : Forall is_digit_char ds -> 0 <= digits_val ds < 10 ^ zlen ds.
Proof.
  induction 1 as [|c ds Hc _ IH]; [change (digits_val []) with 0; change (zlen (@nil Z)) with 0; lia|].
  rewrite digits_val_cons, zlen_cons, Z.pow_add_r by (try lia; apply zlen_nonneg).
  unfold is_digit_char in Hc. nia.
Qed.

Lemma digits_val_lower c ds : is_digit_char c -> c <> 48 -> Forall is_digit_char ds ->
  10 ^ zlen ds <= digits_val (c :: ds).
Proof.
  intros Hc Hne H. rewrite digits_val_cons. pose proof (digits_val_bounds ds H). unfold is_digit_char in Hc. nia.
Qed.

Lemma digits_val_inj a b : Forall is_digit_char a -> Forall is_digit_char b -> zlen a = zlen b ->
  digits_val a = digits_val b -> a = b.
Proof.
  intros Ha. revert b. induction Ha as [|c a Hc Ha IH]; intros [|c' b] Hb Hl E;
    autorewrite with zlen in Hl; try done; [pose proof (zlen_nonneg b); lia|pose proof (zlen_nonneg a); lia|].
  apply Forall_cons in Hb as [Hc' Hb]. rewrite !digits_val_cons in E.
  assert (Hl' : zlen a = zlen b) by lia. rewrite Hl' in E.
  pose proof (digits_val_bounds a Ha) as Ba. pose proof (digits_val_bounds b Hb) as Bb. rewrite Hl' in Ba.
  unfold is_digit_char in *. assert (c = c') as -> by nia. f_equal. apply IH; [done..|lia].
Qed.

(** The digits of a number have no leading zero, and determine it. *)
Lemma nat_str_hd n : 0 < n -> exists c ds, nat_str n = c :: ds /\ is_digit_char c /\ c <> 48 /\ Forall is_digit_char ds.
Proof.
  intros Hn. destruct (nat_str_spec n ltac:(lia)) as (ds & -> & H & Hne & Hv & Hh). destruct ds as [|c ds]; [done|].
  apply Forall_cons in H as [Hc H]. exists c, ds. split_and!; try done. intros ->. specialize (Hh eq_refl).
  injection Hh as ->. change (digits_val [48]) with 0 in Hv. lia.
Qed.

Lemma ndigits_pos n : 0 <= n -> 1 <= ndigits n.
Proof.
  intros H. unfold ndigits. destruct (nat_str_digits n H) as (_ & Hne & _). destruct (nat_str n); [done|].
  rewrite zlen_cons. pose proof (zlen_nonneg l). lia.
Qed.

Lemma ndigits_spec n : 0 < n -> 10 ^ (ndigits n - 1) <= n < 10 ^ ndigits n.
Proof.
  intros H. unfold ndigits. destruct (nat_str_digits n ltac:(lia)) as (Hd & _ & Hv).
  destruct (nat_str_hd n H) as (c & ds & E & Hc & Hne & Hds).
  pose proof (digits_val_bounds _ Hd). rewrite Hv in *. split; [|lia].
  rewrite E, zlen_cons. replace (1 + zlen ds - 1) with (zlen ds) by lia. rewrite <- Hv, E. by apply digits_val_lower.
Qed.

Lemma ndigits_upper n : 0 <= n -> n < 10 ^ ndigits n.
Proof.
  intros H. destruct (Z.eq_dec n 0) as [->|]; [done|]. apply ndigits_spec. lia.
Qed.

Lemma ndigits_unique n k : 10 ^ (k - 1) <= n < 10 ^ k -> 1 <= k -> ndigits n = k.
Proof.
  intros H Hk. pose proof (pow10_gt (k - 1) ltac:(lia)).
  pose proof (ndigits_spec n ltac:(lia)) as S. pose proof (ndigits_pos n ltac:(lia)).
  destruct (Z.lt_trichotomy (ndigits n) k) as [L|[E|L]]; [|done|].
  - pose proof (Z.pow_le_mono_r 10 (ndigits n) (k - 1) ltac:(lia) ltac:(lia)). lia.
  - pose proof (Z.pow_le_mono_r 10 k (ndigits n - 1) ltac:(lia) ltac:(lia)). lia.
Qed.

Lemma ndigits_le n k : 0 <= n < 10 ^ k -> 1 <= k -> ndigits n <= k.
Proof.
  intros H Hk. destruct (Z.eq_dec n 0) as [->|]; [change (ndigits 0) with 1; lia|].
  pose proof (ndigits_spec n ltac:(lia)). destruct (Z.le_gt_cases (ndigits n) k) as [|L]; [done|].
  pose proof (Z.pow_le_mono_r 10 k (ndigits n - 1) ltac:(lia) ltac:(lia)). lia.
Qed.

Lemma ndigits_mul10 n k : 0 < n -> 0 <= k -> ndigits (n * 10 ^ k) = ndigits n + k.
Proof.
  intros H Hk. pose proof (ndigits_spec n H). pose proof (ndigits_pos n ltac:(lia)). pose proof (pow10_gt k Hk).
  apply ndigits_unique; [|lia]. replace (ndigits n + k - 1) with ((ndigits n - 1) + k) by lia.
  rewrite !Z.pow_add_r by lia. nia.
Qed.

Lemma nat_str_unique ds : Forall is_digit_char ds -> ds <> [] -> (hd 0 ds = 48 -> ds = [48]) -> nat_str (digits_val ds) = ds.
Proof.
  intros Hd Hne Hh. pose proof (digits_val_bounds ds Hd) as B. destruct ds as [|c ds]; [done|].
  apply Forall_cons in Hd as Hd'. destruct Hd' as [Hc Hds].
  destruct (decide (c = 48)) as [->|Hc0]; [rewrite (Hh eq_refl); reflexivity|].
  pose proof (digits_val_lower c ds Hc Hc0 Hds) as L. pose proof (zlen_nonneg ds). pose proof (pow10_gt (zlen ds) ltac:(lia)).
  destruct (nat_str_digits (digits_val (c :: ds)) ltac:(lia)) as (H1 & H2 & H3).
  apply digits_val_inj; try done. change (ndigits (digits_val (c :: ds)) = zlen (c :: ds)).
  apply ndigits_unique; rewrite zlen_cons; [|lia]. replace (1 + zlen ds - 1) with (zlen ds) by lia. rewrite zlen_cons in B. lia.
Qed.

Lemma zeros_digits k : Forall is_digit_char (zeros k) /\ digits_val (zeros k) = 0 /\ (0 <= k -> zlen (zeros k) = k).
Proof.
  unfold zeros, zreplicate. split; [apply Forall_replicate; unfold is_digit_char; lia|].
  split; [|intros; unfold zlen; rewrite length_replicate; lia].
  induction (Z.to_nat k) as [|n IH]; [done|]. cbn [replicate]. rewrite digits_val_cons, IH. lia.
Qed.

Lemma nat_str_mul10 n k : 0 < n -> 0 <= k -> nat_str (n * 10 ^ k) = nat_str n ++ zeros k.
Proof.
  intros H Hk. destruct (nat_str_digits n ltac:(lia)) as (H1 & H2 & H3). destruct (zeros_digits k) as (Z1 & Z2 & Z3).
  destruct (nat_str_hd n H) as (c & ds & E & Hc & Hne & Hds).
  rewrite <- (nat_str_unique (nat_str n ++ zeros k)).
  - f_equal. rewrite digits_val_app, H3, Z2, Z3 by done. lia.
  - by apply Forall_app.
  - by destruct (nat_str n).
  - rewrite E. cbn. intros ->. done.
Qed.

(** ** Rounding *)

Lemma half_even_spec n d : 0 < d -> 2 * Z.abs (half_even n d * d - n) <= d.
Proof.
  intros Hd. unfold half_even. pose proof (Z.div_mod n d ltac:(lia)). pose proof (Z.mod_pos_bound n d Hd).
  split_if; nia.
Qed.

Lemma half_even_exact n d : 0 < d -> n mod d = 0 -> half_even n d = n / d.
Proof. intros Hd H. unfold half_even. rewrite H. change (2 * 0) with 0. by rewrite (proj2 (Z.ltb_lt 0 d) Hd). Qed.

Lemma half_even_bounds n d : 0 < d -> n / d <= half_even n d <= n / d + 1.
Proof. intros Hd. unfold half_even. split_if; lia. Qed.

(** A coefficient is not negative. *)
Definition dec_ok (d : decimal) : Prop := 0 <= d_int d.

(** [r] is [d] rounded: at a larger exponent, by at most half of its last digit. *)
Definition rounded (d r : decimal) : Prop :=
  d_neg r = d_neg d /\
  (d_int d = 0 /\ d_int r = 0 \/
   d_exp d <= d_exp r /\ 2 * Z.abs (d_int r * 10 ^ (d_exp r - d_exp d) - d_int d) <= 10 ^ (d_exp r - d_exp d)).

Lemma rounded_refl d : rounded d d.
Proof.
  split; [done|]. right. split; [lia|]. rewrite Z.sub_diag. change (10 ^ 0) with 1. rewrite Z.mul_1_r, Z.sub_diag. cbn. lia.
Qed.

(** What rounding to [prec] digits gives. *)
Record fixed (prec : Z) (d r : decimal) : Prop := {
  fx_ok : dec_ok r;
  fx_rounded : rounded d r;
  fx_digits : ndigits (d_int r) <= prec;
  fx_exact : r = d \/ is_zero d = true \/ prec < ndigits (d_int d) \/ d_exp d < etiny prec;
  fx_full : d_exp d < d_exp r -> d_int d <> 0 -> etiny prec <= ndigits (d_int d) + d_exp d - prec -> ndigits (d_int r) = prec }.

Lemma mod10_pow prec : 1 <= prec -> 10 ^ prec / 10 = 10 ^ (prec - 1).
Proof.
  intros. replace prec with (prec - 1 + 1) at 1 by lia. rewrite Z.pow_add_r by lia. change (10 ^ 1) with 10.
  apply Z.div_mul. lia.
Qed.

(** The digits left when those below [10^k] are rounded away. *)
Lemma half_even_digits c k prec : 0 < c -> 0 <= k -> 1 <= prec -> ndigits c - k <= prec ->
  let q := half_even c (10 ^ k) in
  0 <= q <= 10 ^ prec /\ (ndigits c - k = prec -> 10 ^ (prec - 1) <= q).
Proof.
  intros Hc Hk Hp Hd q. pose proof (ndigits_spec c Hc) as S. pose proof (pow10_gt k Hk) as P.
  pose proof (half_even_bounds c (10 ^ k) P) as B. fold q in B. pose proof (Z.div_pos c (10 ^ k) ltac:(lia) P).
  assert (c < 10 ^ prec * 10 ^ k) as L.
  { rewrite <- Z.pow_add_r by lia. pose proof (Z.pow_le_mono_r 10 (ndigits c) (prec + k) ltac:(lia) ltac:(lia)). lia. }
  pose proof (Z.div_lt_upper_bound c (10 ^ k) (10 ^ prec) ltac:(lia) ltac:(lia)).
  split; [lia|]. intros E. assert (10 ^ (prec - 1) * 10 ^ k <= c).
  { rewrite <- Z.pow_add_r by lia. replace (prec - 1 + k) with (ndigits c - 1) by lia. lia. }
  pose proof (Z.div_le_lower_bound c (10 ^ k) (10 ^ (prec - 1)) ltac:(lia) ltac:(lia)). lia.
Qed.

Lemma fix_dec_spec prec d r : 1 <= prec -> dec_ok d -> fix_dec prec d = Ok r -> fixed prec d r.
Proof.
  unfold dec_ok. intros Hp Hd. unfold fix_dec. destruct (d_int d =? 0) eqn:E0.
  { intros [= <-]. apply Z.eqb_eq in E0. split; cbn [d_int d_exp d_neg]; try done; try lia.
    - split; [done|]. by left.
    - right. left. unfold is_zero. by rewrite E0. }
  apply Z.eqb_neq in E0. destruct (etop prec <? _) eqn:E1; [done|]. set (m := Z.max _ _).
  destruct (d_exp d <? m) eqn:E2.
  2:{ intros [= <-]. apply Z.ltb_ge in E2. split; [done|apply rounded_refl| |by left|lia].
      destruct (Z.le_gt_cases (ndigits (d_int d)) prec); [done|]. unfold m in E2. lia. }
  apply Z.ltb_lt in E2. set (q := half_even _ _).
  destruct (half_even_digits (d_int d) (m - d_exp d) prec ltac:(lia) ltac:(lia) Hp ltac:(unfold m; lia)) as [Hq Hfull].
  fold q in Hq, Hfull. pose proof (pow10_gt (m - d_exp d) ltac:(lia)) as P.
  pose proof (half_even_spec (d_int d) (10 ^ (m - d_exp d)) P) as HS. fold q in HS.
  assert (Hex : is_zero d = true \/ prec < ndigits (d_int d) \/ d_exp d < etiny prec) by (unfold m in E2; lia).
  destruct (prec <? ndigits q) eqn:E3.
  - assert (q = 10 ^ prec) as Eq.
    { apply Z.ltb_lt in E3. destruct (Z.eq_dec q (10 ^ prec)); [done|]. pose proof (ndigits_le q prec ltac:(lia) Hp). lia. }
    rewrite Eq, mod10_pow by done. destruct (etop prec <? m + 1); [done|]. intros [= <-].
    assert (HP : ndigits (10 ^ (prec - 1)) = prec).
    { apply ndigits_unique; [|done]. split; [lia|]. apply Z.pow_lt_mono_r; lia. }
    split; cbn [d_int d_exp d_neg]; [apply Z.lt_le_incl, pow10_gt; lia| |lia|by right|lia].
    split; [done|]. right. cbn [d_int d_exp d_neg]. split; [lia|]. replace (m + 1 - d_exp d) with (1 + (m - d_exp d)) by lia.
    rewrite Z.pow_add_r by lia. change (10 ^ 1) with 10. rewrite Eq in HS.
    replace prec with (prec - 1 + 1) in HS by lia. rewrite (Z.pow_add_r 10 (prec - 1) 1) in HS by lia.
    change (10 ^ 1) with 10 in HS.
    replace (10 ^ (prec - 1) * (10 * 10 ^ (m - d_exp d))) with (10 ^ (prec - 1) * 10 * 10 ^ (m - d_exp d)) by ring. lia.
  - destruct (etop prec <? m); [done|]. intros [= <-]. apply Z.ltb_ge in E3.
    split; cbn [d_int d_exp d_neg]; [unfold dec_ok; cbn [d_int]; lia| |done|by right|].
    { split; [done|]. right. cbn [d_int d_exp d_neg]. split; [lia|done]. }
    intros _ _ Ht. assert (ndigits (d_int d) - (m - d_exp d) = prec) by (unfold m in *; lia).
    apply ndigits_unique; [|done]. split; [by apply Hfull|]. pose proof (ndigits_upper q ltac:(lia)).
    pose proof (Z.pow_le_mono_r 10 (ndigits q) prec ltac:(lia) E3). lia.
Qed.

(** ** Arithmetic is exact up to half of the last digit *)

(** [r] is [x * 10^e] up to half a unit of its last digit; it keeps the exponent, and
    is exact then, if the digits of [x] fit the precision. *)
Definition nearest (prec x e : Z) (r : decimal) : Prop :=
  (x = 0 \/ e <= d_exp r) /\ 2 * Z.abs (signed r * 10 ^ (d_exp r - e) - x) <= 10 ^ (d_exp r - e) /\
  (x <> 0 -> ndigits (Z.abs x) <= prec -> etiny prec <= e -> d_exp r = e).

Lemma abs_signed d : dec_ok d -> Z.abs (signed d) = d_int d.
Proof. unfold dec_ok, signed. destruct (d_neg d); lia. Qed.

Lemma fix_nearest prec d r : 1 <= prec -> dec_ok d -> fix_dec prec d = Ok r ->
  dec_ok r /\ ndigits (d_int r) <= prec /\ nearest prec (signed d) (d_exp d) r.
Proof.
  intros Hp Hd [H1 [Hn H2] H3 H4 _]%fix_dec_spec; try done. split_and!; try done. unfold nearest. rewrite abs_signed by done.
  split; [|split].
  - destruct H2 as [[E _]|[H2 _]]; [left|by right]. unfold signed. rewrite E. by destruct (d_neg d).
  - unfold signed. rewrite Hn. destruct H2 as [[-> ->]|[_ H2]].
    + pose proof (Z.pow_nonneg 10 (d_exp r - d_exp d)). destruct (d_neg d); cbn; lia.
    + destruct (d_neg d); [|done]. rewrite <- Z.abs_opp. replace (- _) with (d_int r * 10 ^ (d_exp r - d_exp d) - d_int d) by ring. done.
  - intros Hs Hl He. destruct H4 as [->|[H4|[H4|H4]]]; [done| |lia|lia]. exfalso. apply Hs. unfold is_zero in H4. apply Z.eqb_eq in H4.
    unfold signed. rewrite H4. by destruct (d_neg d).
Qed.

Lemma dadd_nearest prec a b r : 1 <= prec -> dadd prec a b = Ok r ->
  let e := Z.min (d_exp a) (d_exp b) in
  dec_ok r /\ ndigits (d_int r) <= prec /\ nearest prec (at_exp a e + at_exp b e) e r.
Proof.
  intros Hp H e. unfold dadd in H. fold e in H. set (s := at_exp a e + at_exp b e) in *.
  apply fix_nearest in H as (H1 & H2 & H3); [|done|unfold dec_ok; cbn; lia]. split_and!; try done.
  cbn [d_exp] in H3. replace (signed _) with s in H3; [done|]. unfold signed. cbn. destruct (s =? 0) eqn:E; [|destruct (s <? 0) eqn:E2; lia].
  apply Z.eqb_eq in E as ->. by destruct (is_zero a && is_zero b && d_neg a && d_neg b).
Qed.

Lemma signed_dneg b : signed (dneg b) = - signed b.
Proof. unfold signed, dneg. cbn. destruct (d_neg b); cbn; lia. Qed.

Lemma dsub_nearest prec a b r : 1 <= prec -> dsub prec a b = Ok r ->
  let e := Z.min (d_exp a) (d_exp b) in
  dec_ok r /\ ndigits (d_int r) <= prec /\ nearest prec (at_exp a e - at_exp b e) e r.
Proof.
  intros Hp H. apply dadd_nearest in H; [|done]. cbn zeta in *. unfold at_exp in *. rewrite signed_dneg in H. cbn [d_exp dneg] in H.
  replace (signed a * _ - _) with (signed a * 10 ^ (d_exp a - Z.min (d_exp a) (d_exp b)) +
    - signed b * 10 ^ (d_exp b - Z.min (d_exp a) (d_exp b))) by ring. done.
Qed.

Lemma dmul_nearest prec a b r : 1 <= prec -> dec_ok a -> dec_ok b -> dmul prec a b = Ok r ->
  dec_ok r /\ ndigits (d_int r) <= prec /\ nearest prec (signed a * signed b) (d_exp a + d_exp b) r.
Proof.
  unfold dec_ok. intros Hp Ha Hb H. unfold dmul in H. apply fix_nearest in H as (H1 & H2 & H3); [|done|unfold dec_ok; cbn; nia].
  split_and!; try done. cbn [d_exp] in H3. replace (signed a * signed b) with (signed (mkdec (xorb (d_neg a) (d_neg b)) (d_int a * d_int b) (d_exp a + d_exp b))); [done|].
  unfold signed. cbn. destruct (d_neg a), (d_neg b); cbn; ring.
Qed.

(** The sticky digit: rounding [coeff], made no multiple of five when digits of
    [n / d] are missing, is rounding the quotient itself. *)
Lemma sticky n d R k : 0 < d -> 0 < k -> n mod d <> 0 ->
  let c := n / d in
  let c' := if c mod 5 =? 0 then c + 1 else c in
  2 * Z.abs (R * 10 ^ k - c') <= 10 ^ k -> 2 * Z.abs (R * 10 ^ k * d - n) <= d * 10 ^ k.
Proof.
  intros Hd Hk Hm c c' H. pose proof (Z.div_mod n d ltac:(lia)) as E. fold c in E. pose proof (Z.mod_pos_bound n d Hd) as B.
  assert (exists t, 10 ^ k = 10 * t) as [t Et].
  { exists (10 ^ (k - 1)). replace k with (1 + (k - 1)) at 1 by lia. rewrite Z.pow_add_r by lia. done. }
  assert (c' mod 5 <> 0) as H5.
  { unfold c'. destruct (c mod 5 =? 0) eqn:E5; [|by apply Z.eqb_neq in E5]. apply Z.eqb_eq in E5.
    rewrite <- Zplus_mod_idemp_l, E5. done. }
  assert (Hs : 2 * Z.abs (R * 10 ^ k - c') <= 10 ^ k - 2).
  { rewrite Et in *. assert (Z.abs (R * (10 * t) - c') <> 5 * t); [|lia].
    intros A. apply H5. assert (c' = (2 * R * t - t) * 5 \/ c' = (2 * R * t + t) * 5) as [-> | ->] by lia; apply Z.mod_mul; lia. }
  assert (Hc : Z.abs (c' * d - n) <= d) by (unfold c'; split_if; nia).
  assert (Z.abs (R * 10 ^ k * d - n) <= Z.abs (R * 10 ^ k - c') * d + Z.abs (c' * d - n)).
  { replace (R * 10 ^ k * d - n) with ((R * 10 ^ k - c') * d + (c' * d - n)) by ring.
    pose proof (Z.abs_triangle ((R * 10 ^ k - c') * d) (c' * d - n)) as T.
    by rewrite (Z.abs_mul _ d), (Z.abs_eq d) in T by lia. }
  nia.
Qed.

Lemma drop_zeros_spec fuel limit c e : 0 <= c -> exists k, 0 <= k /\
  c = (drop_zeros fuel limit c e).1 * 10 ^ k /\ (drop_zeros fuel limit c e).2 = e + k /\
  0 <= (drop_zeros fuel limit c e).1 /\ (e <= limit -> e + k <= limit) /\ (limit <= e -> k = 0).
Proof.
  revert c e. induction fuel as [|fuel IH]; intros c e Hc; cbn [drop_zeros].
  { exists 0. cbn. split_and!; lia. }
  destruct ((e <? limit) && (c mod 10 =? 0)) eqn:E; [|exists 0; cbn; split_and!; lia].
  apply andb_true_iff in E as [E1 E2]. apply Z.ltb_lt in E1. apply Z.eqb_eq in E2.
  destruct (IH (c / 10) (e + 1) ltac:(apply Z.div_pos; lia)) as (k & Hk & H1 & H2 & H3 & H4 & H5).
  exists (1 + k). split; [lia|]. split; [|split_and!; try done; try lia].
  rewrite Z.pow_add_r by lia. change (10 ^ 1) with 10. pose proof (Z.div_mod c 10 ltac:(lia)). lia.
Qed.

(** [r] is the quotient up to half a unit of its last digit. *)
Definition nearest_quotient (a b r : decimal) : Prop :=
  let e := Z.min (d_exp r) (d_exp a - d_exp b) in
  2 * Z.abs (signed r * 10 ^ (d_exp r - e) * signed b - signed a * 10 ^ (d_exp a - d_exp b - e)) <=
    Z.abs (signed b) * 10 ^ (d_exp r - e).

(** Scaling the comparison that division is about. *)
Lemma quotient_scale A B R n d exp er ideal : exp <= er ->
  (exp <= ideal -> n = A * 10 ^ (ideal - exp) /\ d = B) ->
  (ideal < exp -> n = A /\ d = B * 10 ^ (exp - ideal)) ->
  2 * Z.abs (R * 10 ^ (er - exp) * d - n) <= d * 10 ^ (er - exp) ->
  let e := Z.min er ideal in
  2 * Z.abs (R * 10 ^ (er - e) * B - A * 10 ^ (ideal - e)) <= B * 10 ^ (er - e).
Proof.
  intros Hle H1 H2 H e. destruct (Z.le_gt_cases exp ideal) as [C|C].
  - destruct (H1 C) as [-> ->]. pose proof (pow10_gt (e - exp) ltac:(lia)) as G.
    replace (er - exp) with ((er - e) + (e - exp)) in H by lia. replace (ideal - exp) with ((ideal - e) + (e - exp)) in H by lia.
    rewrite !Z.pow_add_r in H by lia. set (g := 10 ^ (e - exp)) in *.
    replace (R * _ * B - _) with ((R * 10 ^ (er - e) * B - A * 10 ^ (ideal - e)) * g) in H by ring.
    rewrite Z.abs_mul, (Z.abs_eq g) in H by lia. nia.
  - destruct (H2 ltac:(lia)) as [-> ->]. assert (e = ideal) as -> by lia. rewrite Z.sub_diag. change (10 ^ 0) with 1.
    replace (er - ideal) with ((er - exp) + (exp - ideal)) by lia. rewrite Z.pow_add_r by lia.
    replace (R * (10 ^ (er - exp) * 10 ^ (exp - ideal)) * B - A * 1) with (R * 10 ^ (er - exp) * (B * 10 ^ (exp - ideal)) - A) by ring.
    replace (B * (10 ^ (er - exp) * 10 ^ (exp - ideal))) with (B * 10 ^ (exp - ideal) * 10 ^ (er - exp)) by ring. done.
Qed.

(** The numbers that are divided, and the digits of their quotient. *)
Lemma quotient_digits prec a b : 1 <= prec -> 0 < a -> 0 < b ->
  let shift := ndigits b - ndigits a + prec + 1 in
  let num := if 0 <=? shift then a * 10 ^ shift else a in
  let den := if 0 <=? shift then b else b * 10 ^ (- shift) in
  0 < num /\ 0 < den /\ prec < ndigits (num / den).
Proof.
  intros Hp Ha Hb shift num den.
  pose proof (ndigits_spec a Ha) as Sa. pose proof (ndigits_spec b Hb) as Sb.
  pose proof (ndigits_pos a ltac:(lia)). pose proof (ndigits_pos b ltac:(lia)).
  assert (0 < num /\ 0 < den /\ den * 10 ^ prec <= num) as (N & De & L).
  { unfold num, den. destruct (0 <=? shift) eqn:E.
    - pose proof (pow10_gt shift ltac:(lia)). split_and!; [nia|done|].
      assert (10 ^ (ndigits b) * 10 ^ prec = 10 ^ (ndigits a - 1) * 10 ^ shift) as P by (rewrite <- !Z.pow_add_r by lia; f_equal; lia).
      pose proof (pow10_gt prec ltac:(lia)). nia.
    - pose proof (pow10_gt (- shift) ltac:(lia)). split_and!; [done|nia|].
      assert (10 ^ (ndigits b) * 10 ^ (- shift) * 10 ^ prec = 10 ^ (ndigits a - 1)) as P by (rewrite <- !Z.pow_add_r by lia; f_equal; lia).
      pose proof (pow10_gt prec ltac:(lia)). nia. }
  split_and!; try done. pose proof (Z.div_le_lower_bound num den (10 ^ prec) De ltac:(lia)) as Q.
  pose proof (ndigits_upper (num / den) ltac:(pose proof (pow10_gt prec ltac:(lia)); lia)) as Up.
  destruct (Z.le_gt_cases (ndigits (num / den)) prec) as [C|C]; [|lia].
  pose proof (Z.pow_le_mono_r 10 (ndigits (num / den)) prec ltac:(lia) C). lia.
Qed.

Lemma signed_quotient a b r : d_neg r = xorb (d_neg a) (d_neg b) -> dec_ok a -> dec_ok b ->
  (let e := Z.min (d_exp r) (d_exp a - d_exp b) in
   2 * Z.abs (d_int r * 10 ^ (d_exp r - e) * d_int b - d_int a * 10 ^ (d_exp a - d_exp b - e)) <=
    d_int b * 10 ^ (d_exp r - e)) -> nearest_quotient a b r.
Proof.
  unfold nearest_quotient, signed, dec_ok. intros -> Ha Hb H. cbn zeta in *. set (x := 10 ^ (d_exp r - _)) in *. set (y := 10 ^ (d_exp a - _ - _)) in *.
  destruct (d_neg a), (d_neg b); cbn [xorb]; rewrite ?Z.abs_opp, (Z.abs_eq (d_int b)) by done; try exact H.
  - replace (d_int r * x * - d_int b - - d_int a * y) with (- (d_int r * x * d_int b - d_int a * y)) by ring. by rewrite Z.abs_opp.
  - replace (- d_int r * x * d_int b - - d_int a * y) with (- (d_int r * x * d_int b - d_int a * y)) by ring. by rewrite Z.abs_opp.
  - replace (- d_int r * x * - d_int b - d_int a * y) with (d_int r * x * d_int b - d_int a * y) by ring. done.
Qed.

Lemma ddiv_nearest prec a b r : 1 <= prec -> dec_ok a -> dec_ok b -> ddiv prec a b = Ok r ->
  dec_ok r /\ ndigits (d_int r) <= prec /\ nearest_quotient a b r.
Proof.
  intros Hp Ha Hb. unfold ddiv. destruct (is_zero b) eqn:Zb; [done|]. unfold is_zero in Zb. apply Z.eqb_neq in Zb.
  destruct (is_zero a) eqn:Za; unfold is_zero in Za.
  { apply Z.eqb_eq in Za. intros H. apply fix_dec_spec in H as [H1 [H2 H3] H4 _ _]; [|done|unfold dec_ok; cbn; lia].
    split_and!; [done..|]. apply signed_quotient; [done..|]. cbn zeta. rewrite Za.
    assert (d_int r = 0) as ->. { cbn in H3. destruct H3 as [[_ H3]|[H5 H3]]; [done|]. pose proof (pow10_gt (d_exp r - (d_exp a - d_exp b)) ltac:(lia)). unfold dec_ok in H1. nia. }
    cbn. unfold dec_ok in Hb. pose proof (Z.pow_nonneg 10 (d_exp r - Z.min (d_exp r) (d_exp a - d_exp b)) ltac:(lia)). nia. }
  apply Z.eqb_neq in Za. unfold dec_ok in Ha, Hb.
  destruct (quotient_digits prec (d_int a) (d_int b) Hp ltac:(lia) ltac:(lia)) as (Hn & Hd & Hq). cbn zeta.
  set (ideal := d_exp a - d_exp b) in *. set (shift := ndigits (d_int b) - _ + prec + 1) in *.
  set (n := if 0 <=? shift then _ else d_int a) in *. set (d := if 0 <=? shift then d_int b else _) in *.
  pose proof (Z.div_pos n d ltac:(lia) Hd) as Hc.
  assert (S1 : ideal - shift <= ideal -> n = d_int a * 10 ^ (ideal - (ideal - shift)) /\ d = d_int b).
  { intros C. unfold n, d. rewrite (proj2 (Z.leb_le 0 shift)) by lia. split; [do 2 f_equal; lia|done]. }
  assert (S2 : ideal < ideal - shift -> n = d_int a /\ d = d_int b * 10 ^ (ideal - shift - ideal)).
  { intros C. unfold n, d. rewrite (proj2 (Z.leb_gt 0 shift)) by lia. split; [done|do 2 f_equal; lia]. }
  destruct (n mod d =? 0) eqn:Em.
  - (* exact *)
    apply Z.eqb_eq in Em. destruct (drop_zeros_spec (Z.to_nat (ndigits (n / d))) ideal (n / d) (ideal - shift) Hc) as (k & Hk & D1 & D2 & D3 & _ & _).
    destruct (drop_zeros _ _ _ _) as [c e]. cbn [fst snd] in *. intros H.
    apply fix_dec_spec in H as [H1 [H2 H3] H4 _ _]; [|done|done]. split_and!; try done. cbn [d_int d_exp d_neg] in *.
    apply signed_quotient; [done..|]. pose proof (Z.div_mod n d ltac:(lia)) as En. rewrite Em, Z.add_0_r in En.
    assert (0 < c) by (pose proof (Z.pow_nonneg 10 k); destruct (Z.eq_dec c 0) as [->|]; nia).
    destruct H3 as [[? _]|[He H3]]; [lia|]. fold ideal.
    apply (quotient_scale _ _ _ n d (ideal - shift)); [lia|done|done|].
    replace (d_exp r - (ideal - shift)) with ((d_exp r - e) + k) by lia. rewrite Z.pow_add_r by lia.
    pose proof (pow10_gt k Hk). rewrite En, D1.
    replace (d_int r * (10 ^ (d_exp r - e) * 10 ^ k) * d - d * (c * 10 ^ k)) with ((d_int r * 10 ^ (d_exp r - e) - c) * (d * 10 ^ k)) by ring.
    rewrite Z.abs_mul, (Z.abs_eq (d * _)) by nia. nia.
  - (* digits are missing *)
    apply Z.eqb_neq in Em. set (c' := if n / d mod 5 =? 0 then _ else _) in *. intros H.
    assert (Hc' : n / d <= c' <= n / d + 1) by (unfold c'; split_if; lia).
    apply fix_dec_spec in H as [H1 [H2 H3] H4 _ _]; [|done|unfold dec_ok; cbn; lia]. split_and!; try done.
    cbn [d_int d_exp d_neg] in *. apply signed_quotient; [done..|]. fold ideal.
    assert (ndigits c' <= prec -> False) as Hbig.
    { intros C. pose proof (ndigits_upper c' ltac:(lia)). pose proof (ndigits_upper (n / d) Hc).
      assert (ndigits (n / d) <= prec); [|lia]. apply ndigits_le; [|done].
      pose proof (Z.pow_le_mono_r 10 (ndigits c') prec ltac:(lia) C). lia. }
    destruct H3 as [[H3 H5]|[He H3]]; [exfalso; apply Hbig; rewrite H3; change (ndigits 0) with 1; lia|].
    assert (0 < d_exp r - (ideal - shift)).
    { destruct (Z.eq_dec (d_exp r) (ideal - shift)) as [Ee|]; [|lia]. exfalso. rewrite Ee, Z.sub_diag in H3. change (10 ^ 0) with 1 in H3.
      apply Hbig. replace c' with (d_int r) by lia. done. }
    apply (quotient_scale _ _ _ n d (ideal - shift)); [lia|done|done|].
    by apply sticky.
Qed.
