(* ===== verification/Calculator.v ===== *)
(** The calculator ([calculator/calculator.py]): the state behind its display, the
    operations of its keys ([press]), the layout of its buttons and the messages
    that become key presses.

    [calc] is the state of the program; a function that can raise keeps the
    assignments made before, as in the monad [C].  Text is shown and read back
    through decimals ([PyDecimal]).  [window] is what the program knows of its window
    and its connection: messages arrive as lines of JSON, and the turns of the
    program ([initapp], [pulse], [main]) take what the socket and the settings file
    give from the environment.  Drawing is not modelled: [paint] only clears the flag,
    and managed graphics is taken not to be available. *)

From stdpp Require Import base option list.
From Stdlib Require Import ZArith Lia Bool String.
From S2P Require Import Prelude PyFloat PyText PyVal PyStr PyJson Exchange PyDecimal.
Open Scope Z_scope.

(** [str.isdigit] of one character. *)
Class Digits : Type := { isdigit : Z -> bool }.

(** What the code relies on: among the ASCII characters the digits are the decimal
    ones. *)
Class DigitsLaws (D : Digits) : Prop := {
  isdigit_ascii c : is_ascii c = true -> isdigit c = ascii_digit c }.

(** ** State *)

Record calc := mkcalc {
  DISPLAY : pystr; EXPRESSION : pystr;
  ACCUMULATOR : option decimal; PENDING : option pystr;
  LASTOPERATOR : option pystr; LASTOPERAND : option decimal;
  NEWINPUT : bool; ERROR : pystr;
  REDRAW : bool; HOVERBUTTON : option pystr }.

Definition initial : calc := mkcalc (lit "0") [] None None None None true [] true None.

Definition set_DISPLAY v s := mkcalc v (EXPRESSION s) (ACCUMULATOR s) (PENDING s) (LASTOPERATOR s) (LASTOPERAND s) (NEWINPUT s) (ERROR s) (REDRAW s) (HOVERBUTTON s).
Definition set_EXPRESSION v s := mkcalc (DISPLAY s) v (ACCUMULATOR s) (PENDING s) (LASTOPERATOR s) (LASTOPERAND s) (NEWINPUT s) (ERROR s) (REDRAW s) (HOVERBUTTON s).
Definition set_ACCUMULATOR v s := mkcalc (DISPLAY s) (EXPRESSION s) v (PENDING s) (LASTOPERATOR s) (LASTOPERAND s) (NEWINPUT s) (ERROR s) (REDRAW s) (HOVERBUTTON s).
Definition set_PENDING v s := mkcalc (DISPLAY s) (EXPRESSION s) (ACCUMULATOR s) v (LASTOPERATOR s) (LASTOPERAND s) (NEWINPUT s) (ERROR s) (REDRAW s) (HOVERBUTTON s).
Definition set_LASTOPERATOR v s := mkcalc (DISPLAY s) (EXPRESSION s) (ACCUMULATOR s) (PENDING s) v (LASTOPERAND s) (NEWINPUT s) (ERROR s) (REDRAW s) (HOVERBUTTON s).
Definition set_LASTOPERAND v s := mkcalc (DISPLAY s) (EXPRESSION s) (ACCUMULATOR s) (PENDING s) (LASTOPERATOR s) v (NEWINPUT s) (ERROR s) (REDRAW s) (HOVERBUTTON s).
Definition set_NEWINPUT v s := mkcalc (DISPLAY s) (EXPRESSION s) (ACCUMULATOR s) (PENDING s) (LASTOPERATOR s) (LASTOPERAND s) v (ERROR s) (REDRAW s) (HOVERBUTTON s).
Definition set_REDRAW v s := mkcalc (DISPLAY s) (EXPRESSION s) (ACCUMULATOR s) (PENDING s) (LASTOPERATOR s) (LASTOPERAND s) (NEWINPUT s) (ERROR s) v (HOVERBUTTON s).
Definition set_HOVERBUTTON v s := mkcalc (DISPLAY s) (EXPRESSION s) (ACCUMULATOR s) (PENDING s) (LASTOPERATOR s) (LASTOPERAND s) (NEWINPUT s) (ERROR s) (REDRAW s) v.

Definition MAXINPUTDIGITS : Z := 16.
Definition MAXDISPLAYCHARS : Z := 18.

(** The characters of the operators as they are shown. *)
Definition MINUS_SIGN : Z := 8722.
Definition TIMES : Z := 215.
Definition DIVIDED : Z := 247.
Definition OPERATORS : list (pystr * pystr) :=
  [(lit "+", lit "+"); (lit "-", [MINUS_SIGN]); (lit "*", [TIMES]); (lit "/", [DIVIDED])].

Fixpoint operator_sign_in (l : list (pystr * pystr)) (operator : pystr) : option pystr :=
  match l with
  | [] => None
  | (k, v) :: l => if str_eqb operator k then Some v else operator_sign_in l operator
  end.
Definition operator_sign : pystr -> option pystr := operator_sign_in OPERATORS.

(** ** The monad *)

Definition C (A : Type) : Type := calc -> res A * calc.

#[export] Instance c_ret : MRet C := fun A a s => (Ok a, s).
#[export] Instance c_bind : MBind C := fun A B f m s =>
  match m s with
  | (Ok a, s') => f a s'
  | (Exc e, s') => (Exc e, s')
  end.

Definition cget {A} (f : calc -> A) : C A := fun s => (Ok (f s), s).
Definition cset (f : calc -> calc) : C unit := fun s => (Ok tt, f s).
Definition craise {A} (e : exn) : C A := fun s => (Exc e, s).
Definition clift {A} (r : res A) : C A := fun s => (r, s).

(** ** Numbers as they are shown *)

(** [Decimal(x)] of a variable that may be [None], which raises [TypeError]. *)
Definition decimal_of (d : option decimal) : res decimal :=
  match d with Some d => Ok d | None => Exc TypeError end.

Definition has_error (s : calc) : bool := negb (str_eqb (ERROR s) []).

Definition currentvalue : C decimal :=
  s ← cget (fun s => s);
  if has_error s || str_eqb (DISPLAY s) (lit "error") then craise InvalidOperation
  else clift (dec_of_str (DISPLAY s)).

(** [text.rstrip('0').rstrip('.')]. *)
Definition rstrip_zeros (text : pystr) : pystr := rstrip_char 46 (rstrip_char 48 text).

Definition plain_text (normal : decimal) : pystr :=
  let plain := format_f normal in
  let plain := if has_char 46 plain then rstrip_zeros plain else plain in
  if str_eqb plain [] || str_eqb plain (lit "-0") then lit "0" else plain.

(** The scientific form with so many places, without trailing zeros. *)
Definition compact_text (places : Z) (value : decimal) : pystr :=
  let '(coefficient, exponent) := format_E places value in
  rstrip_zeros coefficient ++ lit "e" ++ int_str exponent.

Fixpoint first_compact (places : nat) (value : decimal) : res pystr :=
  match places with
  | O => Exc InvalidOperation
  | S n =>
      let compact := compact_text (Z.of_nat places) value in
      if zlen compact <=? MAXDISPLAYCHARS then Ok compact else first_compact n value
  end.

(** The default precision of the language. *)
Definition default_prec : Z := 28.

Definition formatnumber (value : decimal) : res pystr :=
  if is_zero value then Ok (lit "0")
  else
    normal ← normalize default_prec value;
    let plain := plain_text normal in
    if zlen plain <=? MAXDISPLAYCHARS then Ok plain else first_compact 10 value.

Definition cformat (value : option decimal) : C pystr := clift (v ← decimal_of value; formatnumber v).

(** ** Operations *)

Definition seterror (message : pystr) (s : calc) : calc :=
  mkcalc (lit "error") (ztake 64 message) None None None None true (ztake 64 message) (REDRAW s) (HOVERBUTTON s).

Definition clearall (s : calc) : calc :=
  mkcalc (lit "0") [] None None None None true [] (REDRAW s) (HOVERBUTTON s).

Definition is_none {A} (o : option A) : bool := match o with None => true | Some _ => false end.

Definition beginentry (s : calc) : calc :=
  if is_none (PENDING s) && NEWINPUT s
  then set_LASTOPERAND None (set_LASTOPERATOR None (set_EXPRESSION [] s)) else s.

(** [if ERROR: clearall()]. *)
Definition recover (s : calc) : calc := if has_error s then clearall s else s.

Section Input.
Context {D : Digits}.

Definition digit_count (text : pystr) : Z := zlen (List.filter isdigit text).

Definition inputdigit (digit : pystr) (s : calc) : calc :=
  if negb (has_sub digit (lit "0123456789")) then s
  else
    let s := beginentry (recover s) in
    if NEWINPUT s then set_NEWINPUT false (set_DISPLAY digit s)
    else if MAXINPUTDIGITS <=? digit_count (DISPLAY s) then s
    else if str_eqb (DISPLAY s) (lit "0") then set_DISPLAY digit s
    else if str_eqb (DISPLAY s) (lit "-0") then set_DISPLAY (lit "-" ++ digit) s
    else set_DISPLAY (DISPLAY s ++ digit) s.

End Input.

(** ['e' in DISPLAY.lower()]: the display has no letters but [e] and [error]. *)
Definition inputdecimal (s : calc) : calc :=
  let s := beginentry (recover s) in
  if NEWINPUT s then set_NEWINPUT false (set_DISPLAY (lit "0.") s)
  else if negb (has_char 46 (DISPLAY s)) && negb (has_char 101 (ascii_lower (DISPLAY s)))
  then set_DISPLAY (DISPLAY s ++ lit ".") s
  else s.

Definition backspace (s : calc) : calc :=
  if has_error s then clearall s
  else if NEWINPUT s then s
  else
    let d := removelast (DISPLAY s) in
    set_DISPLAY (if str_eqb d [] || str_eqb d (lit "-") || str_eqb d (lit "-0") then lit "0" else d) s.

Definition togglesign (s : calc) : calc :=
  if has_error s then clearall s
  else
    let s := beginentry s in
    if NEWINPUT s && negb (is_none (PENDING s)) then set_NEWINPUT false (set_DISPLAY (lit "-0") s)
    else
      let d := DISPLAY s in
      set_NEWINPUT false (set_DISPLAY (if starts_with (lit "-") d then zdrop 1 d else lit "-" ++ d) s).

(** The precision inside [localcontext()]. *)
Definition work_prec : Z := 40.

Definition applyoperation (left : decimal) (operator : pystr) (right : decimal) : res decimal :=
  if str_eqb operator (lit "+") then dadd work_prec left right
  else if str_eqb operator (lit "-") then dsub work_prec left right
  else if str_eqb operator (lit "*") then dmul work_prec left right
  else if str_eqb operator (lit "/") then
    if is_zero right then Exc DivisionByZero else ddiv work_prec left right
  else Exc InvalidOperation.

(** [OPERATORS[operator]]. *)
Definition sign_of (operator : pystr) : res pystr :=
  match operator_sign operator with Some c => Ok c | None => Exc KeyError end.

Definition chooseoperator (operator : pystr) : C unit :=
  match operator_sign operator with
  | None => mret tt
  | Some sign =>
      s ← cget (fun s => s);
      if has_error s then mret tt
      else if negb (is_none (PENDING s)) && NEWINPUT s then
        cset (set_PENDING (Some operator)) ;;
        t ← cformat (ACCUMULATOR s);
        cset (set_EXPRESSION (t ++ lit " " ++ sign))
      else
        value ← currentvalue;
        value ← match PENDING s, ACCUMULATOR s with
                | Some p, Some a =>
                    v ← clift (applyoperation a p value);
                    t ← clift (formatnumber v);
                    cset (set_DISPLAY t) ;;
                    mret v
                | _, _ => mret value
                end;
        cset (set_ACCUMULATOR (Some value)) ;;
        cset (set_PENDING (Some operator)) ;;
        cset (set_LASTOPERATOR None) ;;
        cset (set_LASTOPERAND None) ;;
        cset (set_NEWINPUT true) ;;
        t ← cformat (Some value);
        cset (set_EXPRESSION (t ++ lit " " ++ sign))
  end.

Definition hundred : decimal := mkdec false 100 0.

(** [PENDING in ('+', '-')]. *)
Definition additive (pending : option pystr) : bool :=
  match pending with Some p => str_eqb p (lit "+") || str_eqb p (lit "-") | None => false end.

Definition percent : C unit :=
  s ← cget (fun s => s);
  if has_error s then mret tt
  else
    value ← currentvalue;
    value ← (match additive (PENDING s), ACCUMULATOR s with
             | true, Some a => p ← clift (dmul work_prec a value); clift (ddiv work_prec p hundred)
             | _, _ => clift (ddiv work_prec value hundred)
             end);
    t ← clift (formatnumber value);
    cset (set_DISPLAY t) ;;
    cset (set_NEWINPUT false).

(** The text of a calculation: operands, the operator between them, [=]. *)
Definition calculation (left : decimal) (operator : pystr) (right : decimal) : C unit :=
  l ← clift (formatnumber left);
  sign ← clift (sign_of operator);
  r ← clift (formatnumber right);
  cset (set_EXPRESSION (l ++ lit " " ++ sign ++ lit " " ++ r ++ lit " =")).

Definition equals : C unit :=
  s ← cget (fun s => s);
  if has_error s then mret tt
  else match PENDING s with
  | Some operator =>
      left ← match ACCUMULATOR s with Some a => mret a | None => currentvalue end;
      right ← (if NEWINPUT s then mret left else currentvalue);
      result ← clift (applyoperation left operator right);
      calculation left operator right ;;
      cset (set_LASTOPERATOR (Some operator)) ;;
      cset (set_LASTOPERAND (Some right)) ;;
      cset (set_PENDING None) ;;
      cset (set_ACCUMULATOR None) ;;
      t ← clift (formatnumber result);
      cset (set_DISPLAY t) ;;
      cset (set_NEWINPUT true)
  | None =>
      match LASTOPERATOR s, LASTOPERAND s with
      | Some operator, Some operand =>
          left ← currentvalue;
          result ← clift (applyoperation left operator operand);
          calculation left operator operand ;;
          t ← clift (formatnumber result);
          cset (set_DISPLAY t) ;;
          cset (set_NEWINPUT true)
      | _, _ => mret tt
      end
  end.

Definition redraw : C unit := cset (set_REDRAW true).

(** The exceptions the two [except] clauses of [press] catch. *)
Definition arithmetic_error (e : exn) : bool :=
  match e with
  | InvalidOperation | DecimalOverflow | OverflowError | ZeroDivisionError => true
  | ValueError | UnicodeError | JSONDecodeError => true
  | _ => false
  end.

Section Press.
Context {D : Digits}.

Definition act (action : pystr) : C unit :=
  if starts_with (lit "digit:") action then cset (inputdigit (zdrop 6 action))
  else if str_eqb action (lit "decimal") then cset inputdecimal
  else if str_eqb action (lit "clear") then cset clearall
  else if str_eqb action (lit "backspace") then cset backspace
  else if str_eqb action (lit "sign") then cset togglesign
  else if str_eqb action (lit "percent") then percent
  else if starts_with (lit "operator:") action then chooseoperator (zdrop 9 action)
  else if str_eqb action (lit "equals") then equals
  else mret tt.

Definition press (action : pystr) : C unit := fun s =>
  match act action s with
  | (Ok _, s') => redraw s'
  | (Exc DivisionByZero, s') => redraw (seterror (lit "cannot divide by zero") s')
  | (Exc e, s') => if arithmetic_error e then redraw (seterror (lit "calculation error") s') else (Exc e, s')
  end.

Fixpoint presses (actions : list pystr) : C unit :=
  match actions with
  | [] => mret tt
  | a :: l => press a ;; presses l
  end.

End Press.

(** ** Layout *)

Record layout := mklayout { WINW : Z; WINH : Z; PAD : Z; GAP : Z; DISPLAYH : Z }.

(** [scale(value)]: rounded, at least 1; the value itself when the scale is not a
    finite number. *)
Definition scale (uiscale : pyfloat) (value : Z) : Z :=
  match (v ← float_of_int value; int_round (fmul v uiscale)) with
  | Ok n => Z.max 1 n
  | Exc _ => Z.max 1 value
  end.

(** The measures of [applyscale] at a scale. *)
Definition scaled (uiscale : pyfloat) (l : layout) : layout :=
  mklayout (WINW l) (WINH l) (scale uiscale 12) (scale uiscale 7) (scale uiscale 142).

Record rect := mkrect { r_x : Z; r_y : Z; r_w : Z; r_h : Z }.

Definition pointin (x y : Z) (r : rect) : bool :=
  (r_x r <=? x) && (x <? r_x r + r_w r) && (r_y r <=? y) && (y <? r_y r + r_h r).

Definition displayrect (l : layout) : rect :=
  mkrect (PAD l) (PAD l) (Z.max 1 (WINW l - PAD l * 2)) (Z.min (Z.max 1 (DISPLAYH l)) (Z.max 1 (WINH l - PAD l * 2))).

(** The columns or rows: [count] tracks of [size] from [start] with gaps, the last
    one up to [stop]. *)
Fixpoint tracks (count : nat) (start size gap stop : Z) : list (Z * Z) :=
  match count with
  | O => []
  | S O => [(start, Z.max 1 (stop - start))]
  | S n => (start, size) :: tracks n (start + size + gap) size gap stop
  end.

Definition columns (l : layout) : list (Z * Z) :=
  let availablewidth := Z.max 4 (WINW l - PAD l * 2 - GAP l * 3) in
  tracks 4 (PAD l) (Z.max 1 (availablewidth / 4)) (GAP l) (WINW l - PAD l).

Definition rows (l : layout) : list (Z * Z) :=
  let display := displayrect l in
  let top := r_y display + r_h display + GAP l in
  let bottom := Z.max (top + 5) (WINH l - PAD l) in
  let availableheight := Z.max 5 (bottom - top - GAP l * 4) in
  tracks 5 top (Z.max 1 (availableheight / 5)) (GAP l) bottom.

(** Action, row, first column, columns spanned. *)
Definition definitions : list (pystr * nat * nat * nat) :=
  [(lit "clear", 0, 0, 1); (lit "sign", 0, 1, 1); (lit "percent", 0, 2, 1); (lit "operator:/", 0, 3, 1);
   (lit "digit:7", 1, 0, 1); (lit "digit:8", 1, 1, 1); (lit "digit:9", 1, 2, 1); (lit "operator:*", 1, 3, 1);
   (lit "digit:4", 2, 0, 1); (lit "digit:5", 2, 1, 1); (lit "digit:6", 2, 2, 1); (lit "operator:-", 2, 3, 1);
   (lit "digit:1", 3, 0, 1); (lit "digit:2", 3, 1, 1); (lit "digit:3", 3, 2, 1); (lit "operator:+", 3, 3, 1);
   (lit "digit:0", 4, 0, 2); (lit "decimal", 4, 2, 1); (lit "equals", 4, 3, 1)]%nat.

Definition track (l : list (Z * Z)) (i : nat) : Z * Z := nth i l (0, 0).

Definition button_rect (l : layout) (row column span : nat) : rect :=
  let x := (track (columns l) column).1 in
  let '(y, height) := track (rows l) row in
  let last := track (columns l) (column + span - 1) in
  mkrect x y (Z.max 1 (last.1 + last.2 - x)) height.

Definition buttons (l : layout) : list (pystr * rect) :=
  List.map (fun '(action, row, column, span) => (action, button_rect l row column span)) definitions.

Definition buttonat (l : layout) (x y : Z) : option pystr :=
  match List.find (fun b => pointin x y b.2) (buttons l) with
  | Some b => Some b.1
  | None => None
  end.

(** ** Messages *)

Section Messages.
Context {U : PyUnicode} {D : Digits}.

(** [key in (...)], for the names that press the same key. *)
Definition one_of (names : list pystr) (key : pystr) : bool := bool_decide (key ∈ names).

Definition key_action (key : pystr) : option pystr :=
  if one_of [lit "ENTER"; lit "RETURN"; lit "KPENTER"] key then Some (lit "equals")
  else if str_eqb key (lit "BACKSPACE") then Some (lit "backspace")
  else if one_of [lit "DELETE"; lit "ESC"; lit "CLEAR"] key then Some (lit "clear")
  else if one_of [lit "DECIMAL"; lit "KPDECIMAL"] key then Some (lit "decimal")
  else if one_of [lit "ADD"; lit "KPADD"] key then Some (lit "operator:+")
  else if one_of [lit "SUBTRACT"; lit "KPSUBTRACT"] key then Some (lit "operator:-")
  else if one_of [lit "MULTIPLY"; lit "KPMULTIPLY"] key then Some (lit "operator:*")
  else if one_of [lit "DIVIDE"; lit "KPDIVIDE"] key then Some (lit "operator:/")
  else if starts_with (lit "NUM") key && forallb isdigit (zdrop 3 key) && (zlen (zdrop 3 key) =? 1)
  then Some (lit "digit:" ++ zdrop 3 key)
  else None.

Definition press_if (action : option pystr) : C unit :=
  match action with Some a => press a | None => mret tt end.

Definition keyinput (message : pydict) : C unit :=
  let state := uc_lower (py_str (dict_get_def (lit "state") (PStr (lit "down")) message)) in
  if negb (one_of [lit "down"; lit "repeat"] state) then mret tt
  else press_if (key_action (uc_upper (py_str (dict_get_def (lit "key") (PStr []) message)))).

Definition text_action (c : Z) : option pystr :=
  if has_char c (lit "0123456789") then Some (lit "digit:" ++ [c])
  else if has_char c (lit ".,") then Some (lit "decimal")
  else if c =? 43 then Some (lit "operator:+")
  else if c =? 45 then Some (lit "operator:-")
  else if (c =? 42) || (c =? 120) || (c =? 88) || (c =? TIMES) then Some (lit "operator:*")
  else if (c =? 47) || (c =? DIVIDED) then Some (lit "operator:/")
  else if (c =? 61) || (c =? 13) || (c =? 10) then Some (lit "equals")
  else if c =? 37 then Some (lit "percent")
  else None.

Fixpoint type_text (text : pystr) : C unit :=
  match text with
  | [] => mret tt
  | c :: text => press_if (text_action c) ;; type_text text
  end.

Definition textinput (message : pydict) : C unit :=
  type_text (py_str (dict_get_def (lit "text") (PStr []) message)).

(** The button under the position of a message; the second coordinate is looked at
    only when a button has the first one. *)
Definition message_button (l : layout) (message : pydict) : res (option pystr) :=
  x ← py_int (dict_get_def (lit "x") (PInt 0) message);
  if existsb (fun b => (r_x b.2 <=? x) && (x <? r_x b.2 + r_w b.2)) (buttons l) then
    y ← py_int (dict_get_def (lit "y") (PInt 0) message);
    Ok (buttonat l x y)
  else Ok None.

Definition pointermotion (l : layout) (message : pydict) : C unit :=
  action ← clift (message_button l message);
  hover ← cget HOVERBUTTON;
  if bool_decide (action = hover) then mret tt
  else cset (set_HOVERBUTTON action) ;; redraw.

Definition pointerbutton (l : layout) (message : pydict) : C unit :=
  let pressed :=
    match dict_get_def (lit "pressed") PNone message with
    | PNone => str_eqb (uc_lower (py_str (dict_get_def (lit "state") (PStr (lit "down")) message))) (lit "down")
    | v => truthy v
    end in
  if negb pressed then mret tt
  else
    button ← clift (py_int (dict_get_def (lit "button") (PInt 1) message));
    if negb (button =? 1) then mret tt
    else
      action ← clift (message_button l message);
      press_if action.

(** The window is resized. *)
Definition resized (message : pydict) (l : layout) : res layout :=
  w ← py_int (dict_get_def (lit "w") (PInt (WINW l)) message);
  h ← py_int (dict_get_def (lit "h") (PInt (WINH l)) message);
  Ok (mklayout (Z.max 1 w) (Z.max 1 h) (PAD l) (GAP l) (DISPLAYH l)).

(** The window gets or loses the focus. *)
Definition focus (message : pydict) : C unit :=
  let focused := truthy (dict_get_def (lit "focused") (dict_get_def (lit "value") (PBool true) message) message) in
  hover ← cget HOVERBUTTON;
  if negb focused && negb (is_none hover) then cset (set_HOVERBUTTON None) ;; redraw else mret tt.

(** ** The window *)

Record window := mkwindow {
  w_layout : layout; UISCALE : pyfloat; SCREENW : Z; SCREENH : Z; WINID : pyval; BUF : pyval;
  NEEDWINDOW : bool; RUNNING : bool; FOCUSED : bool; INBUF : bytes; OUTBUF : bytes }.

Definition one : pyfloat := fratio 1 1.
Definition half : pyfloat := fratio 1 2.
Definition three : pyfloat := fratio 3 1.

Definition first_window : window :=
  mkwindow (mklayout 420 590 12 7 142) one 0 0 PNone PNone true true true [] [].

Definition set_layout v w := mkwindow v (UISCALE w) (SCREENW w) (SCREENH w) (WINID w) (BUF w) (NEEDWINDOW w) (RUNNING w) (FOCUSED w) (INBUF w) (OUTBUF w).
Definition set_UISCALE v w := mkwindow (w_layout w) v (SCREENW w) (SCREENH w) (WINID w) (BUF w) (NEEDWINDOW w) (RUNNING w) (FOCUSED w) (INBUF w) (OUTBUF w).
Definition set_screen v v' w := mkwindow (w_layout w) (UISCALE w) v v' (WINID w) (BUF w) (NEEDWINDOW w) (RUNNING w) (FOCUSED w) (INBUF w) (OUTBUF w).
Definition set_WINID v w := mkwindow (w_layout w) (UISCALE w) (SCREENW w) (SCREENH w) v (BUF w) (NEEDWINDOW w) (RUNNING w) (FOCUSED w) (INBUF w) (OUTBUF w).
Definition set_BUF v w := mkwindow (w_layout w) (UISCALE w) (SCREENW w) (SCREENH w) (WINID w) v (NEEDWINDOW w) (RUNNING w) (FOCUSED w) (INBUF w) (OUTBUF w).
Definition set_NEEDWINDOW v w := mkwindow (w_layout w) (UISCALE w) (SCREENW w) (SCREENH w) (WINID w) (BUF w) v (RUNNING w) (FOCUSED w) (INBUF w) (OUTBUF w).
Definition set_RUNNING v w := mkwindow (w_layout w) (UISCALE w) (SCREENW w) (SCREENH w) (WINID w) (BUF w) (NEEDWINDOW w) v (FOCUSED w) (INBUF w) (OUTBUF w).
Definition set_FOCUSED v w := mkwindow (w_layout w) (UISCALE w) (SCREENW w) (SCREENH w) (WINID w) (BUF w) (NEEDWINDOW w) (RUNNING w) v (INBUF w) (OUTBUF w).
Definition set_INBUF v w := mkwindow (w_layout w) (UISCALE w) (SCREENW w) (SCREENH w) (WINID w) (BUF w) (NEEDWINDOW w) (RUNNING w) (FOCUSED w) v (OUTBUF w).
Definition set_OUTBUF v w := mkwindow (w_layout w) (UISCALE w) (SCREENW w) (SCREENH w) (WINID w) (BUF w) (NEEDWINDOW w) (RUNNING w) (FOCUSED w) (INBUF w) v.

(** [uiscalefactor]: [stored] is the number the settings file holds, or how reading
    it failed. *)
Definition uiscalefactor (stored : res pyfloat) : pyfloat := fmax2 half (fmin2 three (catch stored one)).

(** [displayuiscale] for the desktop of 1920 by 1080. *)
Definition displayuiscale (width height : Z) (preference : pyfloat) : pyfloat :=
  let preference := fmax2 half (fmin2 three preference) in
  catch
    (width ← float_of_int width;
     height ← float_of_int height;
     if fle width fzero || fle height fzero then mret preference
     else
       x ← fdiv width (fratio 1920 1);
       y ← fdiv height (fratio 1080 1);
       mret (fmax2 half (fmin2 three (fmul (fmin2 x y) preference))))
    one.

Definition applyscale (stored : res pyfloat) (w : window) : window :=
  let w := set_UISCALE (displayuiscale (SCREENW w) (SCREENH w) (uiscalefactor stored)) w in
  set_layout (scaled (UISCALE w) (w_layout w)) w.

Definition sendws (message : pydict) (w : window) : window :=
  match utf8_encode (json_dumps j_compact (PDict message)) with
  | Ok data => set_OUTBUF (OUTBUF w ++ data ++ [10]) w
  | Exc _ => w
  end.

(** [sent] is what [send] gives: bytes taken, or an exception. *)
Definition flushws (sent : res Z) (w : window) : window :=
  match OUTBUF w, sent with
  | _ :: _, Ok n => set_OUTBUF (zdrop n (OUTBUF w)) w
  | _, _ => w
  end.

(** A message of the program with its operation. *)
Definition request (operation : string) (fields : list (string * pyval)) : pydict :=
  (lit "op", PStr (lit operation)) :: List.map (fun '(k, v) => (lit k, v)) fields.

Section Window.
Context (pid : Z).

Definition createwindow (w : window) : window :=
  sendws (request "CREATE_WINDOW"
    [("role", PStr (lit "window")); ("title", PStr (lit "calculator")); ("current", PStr (lit "calculator"));
     ("path", PStr (lit "/the one/build/calculator/calculator.py"));
     ("w", PInt (scale (UISCALE w) 420)); ("h", PInt (scale (UISCALE w) 590));
     ("x", PInt 140); ("y", PInt 80); ("pid", PInt pid)]%string) w.

Definition mapwindow (w : window) : window := sendws (request "MAP" [("winid", WINID w)]%string) w.

(** [if NEEDWINDOW]. *)
Definition needwindow (w : window) : window :=
  if NEEDWINDOW w then createwindow (set_NEEDWINDOW false w) else w.

(** The size of the screen in a [WELCOME]. *)
Definition framebuffer (message : pydict) : res (Z * Z) :=
  match dict_get_def (lit "fb") (PDict []) message with
  | PDict fb =>
      w ← py_int (dict_get_def (lit "w") (PInt 0) fb);
      h ← py_int (dict_get_def (lit "h") (PInt 0) fb);
      mret (w, h)
  | _ => Exc AttributeError
  end.

Definition operation_of (message : pydict) : pystr := py_str (dict_get_def (lit "op") (PStr []) message).

(** [graphicsresponse], with [managedresponse] for graphics that are not available:
    the numbers of the response are converted, what it says is not used, and the
    window is drawn again. *)
Definition or_zero (v : pyval) : pyval := if truthy v then v else PInt 0.

Definition graphicsresponse (message : pydict) : C unit :=
  let operation := operation_of message in
  (if str_eqb operation (lit "GRAPHICS_COMMITTED") || str_eqb operation (lit "GRAPHICS_CLEARED") then
     clift (py_int (or_zero (dict_get_def (lit "generation") (PInt 0) message))) ;;
     clift (py_int (or_zero (dict_get_def (lit "frame_sequence") (PInt 0) message))) ;;
     mret tt
   else mret tt) ;;
  redraw.

(** The other operations about graphics and unknown ones change nothing. *)
Definition handlews (stored : res pyfloat) (message : pydict) (w : window) : C window :=
  let operation := operation_of message in
  if str_eqb operation (lit "GRAPHICS_COMMITTED") || str_eqb operation (lit "GRAPHICS_CLEARED") then
    graphicsresponse message ;; mret w
  else if str_eqb operation (lit "WELCOME") then
    fb ← clift (framebuffer message);
    mret (needwindow (applyscale stored (set_screen fb.1 fb.2 w)))
  else if str_eqb operation (lit "FB_SIZE") then
    sw ← clift (py_int (dict_get_def (lit "w") (PInt (SCREENW w)) message));
    sh ← clift (py_int (dict_get_def (lit "h") (PInt (SCREENH w)) message));
    redraw ;;
    mret (needwindow (applyscale stored (set_screen sw sh w)))
  else if str_eqb operation (lit "WINDOW_CREATED") then
    winid ← clift (py_int (dict_get_def (lit "winid") PNone message));
    l ← clift (resized message (w_layout w));
    redraw ;;
    mret (set_layout l (set_BUF (dict_get_def (lit "buffer") PNone message) (set_WINID (PInt winid) w)))
  else if str_eqb operation (lit "WINDOW_MAPPED") then redraw ;; mret w
  else if str_eqb operation (lit "RESIZED") then
    l ← clift (resized message (w_layout w));
    redraw ;;
    mret (set_layout l (set_BUF (dict_get_def (lit "buffer") (BUF w) message) w))
  else if str_eqb operation (lit "FOCUS") then
    focus message ;;
    mret (set_FOCUSED (truthy (dict_get_def (lit "focused") (dict_get_def (lit "value") (PBool true) message) message)) w)
  else if str_eqb operation (lit "CLOSE") then
    mret (sendws (request "CLOSE_ACK" [("pid", PInt pid)]%string) (set_RUNNING false w))
  else if str_eqb operation (lit "ERROR") then
    (if starts_with (lit "graphics_") (py_str (dict_get_def (lit "code") (PStr []) message))
     then graphicsresponse message else mret tt) ;;
    mret w
  else mret w.

(** What one message does: [handlews], and the dispatch of the input in [pulse]. *)
Definition pulse_message (stored : res pyfloat) (message : pydict) (w : window) : C window :=
  w ← handlews stored message w;
  let operation := operation_of message in
  (if str_eqb operation (lit "KEY") then keyinput message
   else if str_eqb operation (lit "TEXT") then textinput message
   else if str_eqb operation (lit "POINTER_MOTION") then pointermotion (w_layout w) message
   else if str_eqb operation (lit "POINTER_BUTTON") then pointerbutton (w_layout w) message
   else mret tt) ;;
  mret w.

(** A loop over the messages of one read; [message.get] of anything but a dict
    raises. *)
Fixpoint each_message (f : pydict -> window -> C window) (messages : list pyval) (w : window) : C window :=
  match messages with
  | [] => mret w
  | PDict m :: messages => w ← f m w; each_message f messages w
  | _ :: _ => craise AttributeError
  end.

Definition pulses (stored : res pyfloat) : list pyval -> window -> C window := each_message (pulse_message stored).

(** The messages of the lines of the buffer, and what is left of the buffer: a line
    that is no message ends the reading behind itself. *)
Fixpoint parse_lines (lines : list bytes) (rest : bytes) : res (list pyval) * bytes :=
  match lines with
  | [] => (Ok [], rest)
  | line :: lines =>
      match bstrip line with
      | [] => parse_lines lines rest
      | _ =>
          match (t ← utf8_decode line; json_loads t) with
          | Exc e => (Exc e, flat_map (fun l => l ++ [10]) lines ++ rest)
          | Ok v => let '(vs, remaining) := parse_lines lines rest in (vs ≫= (fun vs => Ok (v :: vs)), remaining)
          end
      end
  end.

(** [recvws]: a closed connection raises too. *)
Definition recvws (r : recv_result) (w : window) : res (list pyval) * window :=
  match r with
  | RWouldBlock => (Ok [], w)
  | RError | RData [] => (Exc OSError, w)
  | RData data =>
      let '(lines, rest) := frames (INBUF w ++ data) in
      let '(messages, remaining) := parse_lines lines rest in
      (messages, set_INBUF remaining w)
  end.

(** What a turn finds: the settings file, the socket ready to read or to write, and
    what [send] gives at the end of the turn. *)
Record turn := mkturn {
  t_stored : res pyfloat; t_read : option recv_result; t_write : option (res Z); t_flush : res Z }.

Definition flush_ready (t : turn) (w : window) : window :=
  match t_write t with Some sent => flushws sent w | None => w end.

Definition paint (w : window) : C unit :=
  s ← cget (fun s => s);
  if negb (REDRAW s) || negb (truthy (BUF w)) || (WINW (w_layout w) <? 1) || (WINH (w_layout w) <? 1) then mret tt
  else cset (set_REDRAW false).

Definition pulse (t : turn) (w : window) : C window :=
  let finish w := paint w ;; mret (flushws (t_flush t) (flush_ready t w)) in
  match t_read t with
  | None => finish w
  | Some r =>
      match recvws r w with
      | (Exc _, w) => mret (set_RUNNING false w)
      | (Ok messages, w) => w ← pulses (t_stored t) messages w; finish w
      end
  end.

Fixpoint main_loop (turns : list turn) (w : window) : C window :=
  match turns with
  | [] => mret w
  | t :: turns => if RUNNING w then w ← pulse t w; main_loop turns w else mret w
  end.

(** The loop of [initapp] until the window is there; the turns that are left. *)
Fixpoint await_window (turns : list turn) (w : window) : C (window * list turn) :=
  match turns with
  | [] => mret (w, [])
  | t :: turns' =>
      if RUNNING w && (match WINID w with PNone => true | _ => false end) then
        w ← match t_read t with
            | None => mret w
            | Some r =>
                match recvws r w with
                | (Exc e, _) => craise e
                | (Ok messages, w) => each_message (handlews (t_stored t)) messages w
                end
            end;
        await_window turns' (flushws (t_flush t) (flush_ready t w))
      else mret (w, turns)
  end.

(** [initapp] after [connectws]; [sent] and [sent'] are what the two sends at its
    end give. *)
Definition initapp (turns : list turn) (sent sent' : res Z) (w : window) : C (window * list turn) :=
  let w := sendws (request "SUBSCRIBE" [("types", PList [PStr (lit "fbsize")])]%string) (sendws (request "HELLO" []) w) in
  out ← await_window turns (set_NEEDWINDOW true w);
  paint out.1 ;;
  let w := mapwindow (flushws sent out.1) in
  let w := sendws (request "RAISE" [("winid", WINID w)]%string) w in
  let w := sendws (request "FOCUS_SET" [("winid", WINID w)]%string) w in
  mret (flushws sent' w, out.2).

Definition main (turns : list turn) (sent sent' last : res Z) : C window :=
  out ← initapp turns sent sent' first_window;
  w ← main_loop out.2 out.1;
  mret (flushws last w).

End Window.

Definition buttonactive (s : calc) (action : pystr) : bool :=
  starts_with (lit "operator:") action && bool_decide (PENDING s = Some (zdrop 9 action)) && NEWINPUT s.

End Messages.
