(* ===== verification/CalculatorSpec.v ===== *)
(** What makes the calculator correct: its state is always in order, a sequence of
    keys evaluates its operations from left to right, the arithmetic is exact up to
    half of the fortieth digit, the number shown is the number meant up to the digits
    that fit, and every button is found under its own points only. *)

From stdpp Require Import base option list sets.
From Stdlib Require Import ZArith Lia Bool String.
From S2P Require Import Prelude PyFloat PyText PyVal PyStr PyJson Exchange PyDecimal Calculator.
Open Scope Z_scope.

(** ** The texts of numbers *)

(** Sign, integer part, fraction and exponent of a text, the exponent with its own
    sign and perhaps without digits while it is edited. *)
Record form := mkform { f_neg : bool; f_int : pystr; f_frac : option pystr; f_exp : option (bool * pystr) }.

Definition frac_text (o : option pystr) : pystr := match o with Some s => 46 :: s | None => [] end.
Definition exp_text (o : option (bool * pystr)) : pystr :=
  match o with Some (neg, ds) => 101 :: sign_text neg ++ ds | None => [] end.
Definition text_of (f : form) : pystr :=
  sign_text (f_neg f) ++ f_int f ++ frac_text (f_frac f) ++ exp_text (f_exp f).

Definition frac_digits (o : option pystr) : pystr := match o with Some s => s | None => [] end.
Definition exp_digits (o : option (bool * pystr)) : pystr := match o with Some (_, ds) => ds | None => [] end.

Record form_ok (f : form) : Prop := {
  fo_int : Forall is_digit_char (f_int f);
  fo_ne : f_int f <> [];
  fo_frac : Forall is_digit_char (frac_digits (f_frac f));
  fo_exp : Forall is_digit_char (exp_digits (f_exp f)) }.

(** The exponent has digits if it is there. *)
Definition is_number (f : form) : Prop := match f_exp f with Some (_, []) => False | _ => True end.

Definition exp_value (o : option (bool * pystr)) : Z :=
  match o with Some (neg, ds) => if neg then - digits_val ds else digits_val ds | None => 0 end.

Definition form_value (f : form) : decimal :=
  mkdec (f_neg f) (digits_val (f_int f ++ frac_digits (f_frac f))) (exp_value (f_exp f) - zlen (frac_digits (f_frac f))).

Lemma all_digits_spec s : all_digits s = true <-> Forall is_digit_char s.
Proof.
  unfold all_digits. rewrite forallb_forall, Forall_forall. setoid_rewrite list_elem_of_In. unfold ascii_digit, is_digit_char.
  split; intros H c Hc; specialize (H c Hc); lia.
Qed.

Lemma split_first_digits sep s rest : Forall is_digit_char s -> (sep < 48 \/ 57 < sep) ->
  split_first sep (s ++ sep :: rest) = (s, Some rest) /\ split_first sep s = (s, None).
Proof.
  intros H Hs. induction H as [|c s Hc _ [IH1 IH2]]; cbn [app split_first]; [by rewrite Z.eqb_refl|].
  unfold is_digit_char in Hc. rewrite (proj2 (Z.eqb_neq c sep)) by lia. by rewrite IH1, IH2.
Qed.

Lemma split_first_app sep a b : Forall (fun c => c <> sep) a ->
  split_first sep (a ++ b) = (a ++ (split_first sep b).1, (split_first sep b).2).
Proof.
  induction 1 as [|c a Hc _ IH]; cbn [app split_first]; [by destruct (split_first sep b)|].
  rewrite (proj2 (Z.eqb_neq c sep)) by done. by rewrite IH.
Qed.

Lemma digits_lack sep s : Forall is_digit_char s -> (sep < 48 \/ 57 < sep) -> Forall (fun c => c <> sep) s.
Proof. intros H Hs. eapply Forall_impl; [exact H|]. unfold is_digit_char. intros; lia. Qed.

Lemma split_sign_text neg ds : Forall is_digit_char ds -> split_sign (sign_text neg ++ ds) = (neg, ds).
Proof. intros H. destruct neg; [reflexivity|]. by apply split_sign_digits. Qed.

Lemma split_sign_body neg ds rest : Forall is_digit_char ds -> ds <> [] ->
  split_sign (sign_text neg ++ ds ++ rest) = (neg, ds ++ rest).
Proof.
  intros H Hne. destruct neg; [reflexivity|]. destruct H as [|c ds Hc _]; [done|]. unfold is_digit_char in Hc. cbn.
  by rewrite !(proj2 (Z.eqb_neq _ _)) by lia.
Qed.

(** A text is taken apart into its parts. *)
Lemma split_text f : form_ok f ->
  let mantissa := f_int f ++ frac_text (f_frac f) in
  split_sign (text_of f) = (f_neg f, mantissa ++ exp_text (f_exp f)) /\
  split_first 101 (mantissa ++ exp_text (f_exp f)) =
    (mantissa, match f_exp f with Some (neg, ds) => Some (sign_text neg ++ ds) | None => None end) /\
  split_first 46 mantissa = (f_int f, f_frac f).
Proof.
  intros [Hi Hne Hf He] mantissa. split; [|split].
  - unfold text_of, mantissa. rewrite split_sign_body by done. by rewrite <- app_assoc.
  - rewrite split_first_app; [by destruct (f_exp f) as [[neg ds]|]; cbn; rewrite app_nil_r|].
    apply Forall_app. split; [apply digits_lack; [done|lia]|]. destruct (f_frac f); cbn; [|done].
    apply Forall_cons. split; [done|]. apply digits_lack; [done|lia].
  - unfold mantissa. rewrite split_first_app by (apply digits_lack; [done|lia]).
    by destruct (f_frac f); cbn; rewrite app_nil_r.
Qed.

(** A text of a number reads back as its value; one whose exponent has lost its
    digits is no number. *)
Lemma dec_of_text f : form_ok f ->
  (is_number f -> dec_of_str (text_of f) = Ok (form_value f)) /\
  (~ is_number f -> dec_of_str (text_of f) = Exc InvalidOperation).
Proof.
  intros Hok. destruct (split_text f Hok) as (E1 & E2 & E3). destruct Hok as [Hi Hne Hf He].
  unfold dec_of_str. rewrite E1, E2, E3. change (match f_frac f with Some f0 => f0 | None => [] end) with (frac_digits (f_frac f)).
  rewrite (proj2 (all_digits_spec _) Hi), (proj2 (all_digits_spec _) Hf). rewrite bool_decide_eq_false_2 by (by destruct (f_int f)).
  unfold is_number, form_value. destruct (f_exp f) as [[neg ds]|]; [|done]. cbn in He. unfold exponent_of.
  rewrite split_sign_text, (proj2 (all_digits_spec ds) He) by done.
  destruct ds; [by split; [intros []|]|]. by rewrite bool_decide_eq_false_2.
Qed.

(** ** Plain text *)

(** The same number, perhaps with another exponent. *)
Definition same_value (a b : decimal) : Prop :=
  let e := Z.min (d_exp a) (d_exp b) in at_exp a e = at_exp b e.

Lemma same_value_sym a b : same_value a b -> same_value b a.
Proof. unfold same_value. by rewrite Z.min_comm. Qed.

Lemma same_value_shift a b k : 0 <= k -> d_neg a = d_neg b -> d_int a = d_int b * 10 ^ k -> d_exp a = d_exp b - k ->
  same_value a b.
Proof.
  intros Hk Hn Hi He. unfold same_value, at_exp, signed. rewrite Hn, Hi, He.
  rewrite (Z.min_l (d_exp b - k) (d_exp b)), Z.sub_diag by lia.
  replace (d_exp b - (d_exp b - k)) with k by lia. change (10 ^ 0) with 1. destruct (d_neg b); lia.
Qed.

Lemma same_value_zero a b : d_int a = 0 -> d_int b = 0 -> same_value a b.
Proof. intros Ha Hb. unfold same_value, at_exp, signed. rewrite Ha, Hb. by destruct (d_neg a), (d_neg b). Qed.

Lemma rstrip_zeros_tail ds : exists k, 0 <= k /\ ds = rstrip_char 48 ds ++ zeros k /\ zlen (rstrip_char 48 ds) + k = zlen ds.
Proof.
  unfold rstrip_char, rstrip_if. rewrite <- (rev_involutive ds). generalize (rev ds) as l. clear ds. intros l. rewrite rev_involutive.
  induction l as [|c l IH]; cbn [lstrip_if]; [by exists 0|]. destruct (48 =? c) eqn:E.
  - apply Z.eqb_eq in E as <-. destruct IH as (k & Hk & IH & L). exists (k + 1). split; [lia|]. cbn [rev].
    split; [|rewrite zlen_app; change (zlen [48]) with 1; lia]. rewrite IH at 1. rewrite <- app_assoc. f_equal. unfold zeros, zreplicate.
    rewrite Z2Nat.inj_add, replicate_add by lia. done.
  - exists 0. split; [lia|]. change (zeros 0) with (@nil Z). rewrite app_nil_r. split; [done|lia].
Qed.

Lemma rstrip_if_app p a b : (forall c, p c = true -> In c b -> False) -> b <> [] -> rstrip_if p (a ++ b) = a ++ b.
Proof.
  intros H Hne. destruct (exists_last Hne) as (b' & c & ->). apply rstrip_keeps; [by destruct a, b'|].
  rewrite app_assoc, last_last. destruct (p c) eqn:E; [|done]. exfalso. apply (H c E). apply in_or_app. right. by left.
Qed.

Lemma rstrip_snoc c a : rstrip_char c (a ++ [c]) = rstrip_char c a.
Proof. unfold rstrip_char, rstrip_if. rewrite rev_app_distr. cbn. by rewrite Z.eqb_refl. Qed.

Lemma rstrip_snoc_keep c x a : x <> c -> rstrip_char c (a ++ [x]) = a ++ [x].
Proof. intros H. unfold rstrip_char, rstrip_if. rewrite rev_app_distr. cbn. rewrite (proj2 (Z.eqb_neq c x)) by done. cbn. by rewrite rev_involutive. Qed.

Lemma rstrip_replicate c n a : rstrip_char c (a ++ replicate n c) = rstrip_char c a.
Proof.
  revert a. induction n as [|n IH]; intros a; [by rewrite app_nil_r|]. cbn [replicate].
  change (c :: replicate n c) with ([c] ++ replicate n c). rewrite app_assoc, IH. apply rstrip_snoc.
Qed.

Lemma rstrip_last c s : rstrip_char c s = [] \/ exists a x, rstrip_char c s = a ++ [x] /\ x <> c.
Proof.
  induction s as [|x s IH] using rev_ind; [by left|]. destruct (Z.eq_dec x c) as [->|Hx].
  - by rewrite rstrip_snoc.
  - right. exists s, x. by rewrite rstrip_snoc_keep.
Qed.

(** Zeros at the end of a fraction, then a point without a fraction. *)
Lemma rstrip_zeros_frac a s : (exists b x, a = b ++ [x] /\ x <> 46) -> Forall is_digit_char s ->
  rstrip_zeros (a ++ 46 :: s) = a ++ frac_text (match rstrip_char 48 s with [] => None | s' => Some s' end).
Proof.
  intros (b & x & -> & Hx) Hs. unfold rstrip_zeros. destruct (rstrip_zeros_tail s) as (k & Hk & E & _).
  rewrite E at 1. unfold zeros, zreplicate. change (46 :: rstrip_char 48 s ++ replicate (Z.to_nat k) 48) with (([46] ++ rstrip_char 48 s) ++ replicate (Z.to_nat k) 48).
  rewrite app_assoc, rstrip_replicate. destruct (rstrip_last 48 s) as [E0|(a' & y & E0 & Hy)]; rewrite E0.
  - rewrite app_nil_r, rstrip_snoc_keep by done. rewrite rstrip_snoc, rstrip_snoc_keep by done. cbn. by rewrite app_nil_r.
  - rewrite !app_assoc, rstrip_snoc_keep by done. rewrite rstrip_snoc_keep.
    + rewrite <- !app_assoc. by destruct a'.
    + rewrite E, E0 in Hs. apply Forall_app in Hs as [Hs _]. apply Forall_app in Hs as [_ Hs]. rewrite Forall_singleton in Hs.
      unfold is_digit_char in Hs. lia.
Qed.

(** The parts of [format(r, 'f')], and without the zeros at the end. *)
Definition plain_parts (r : decimal) : pystr * option pystr :=
  let ds := nat_str (d_int r) in
  let dotplace := d_exp r + zlen ds in
  if dotplace <? 0 then (lit "0", Some (zeros (- dotplace) ++ ds))
  else if zlen ds <=? dotplace then (ds ++ zeros (dotplace - zlen ds), None)
  else (match ztake dotplace ds with [] => lit "0" | ip => ip end, Some (zdrop dotplace ds)).

Definition trim (frac : option pystr) : option pystr :=
  match frac with Some s => match rstrip_char 48 s with [] => None | s' => Some s' end | None => None end.

Definition plain_form (r : decimal) : form :=
  mkform (d_neg r) (plain_parts r).1 (trim (plain_parts r).2) None.

Lemma Forall_ztake {P : Z -> Prop} n s : Forall P s -> Forall P (ztake n s) /\ Forall P (zdrop n s).
Proof. intros H. apply Forall_app. by rewrite ztake_zdrop. Qed.

Lemma trim_digits frac : Forall is_digit_char (frac_digits frac) -> Forall is_digit_char (frac_digits (trim frac)).
Proof.
  destruct frac as [s|]; [|done]. cbn. intros H. destruct (rstrip_zeros_tail s) as (k & _ & E & _). rewrite E in H.
  apply Forall_app in H as [H _]. by destruct (rstrip_char 48 s).
Qed.

Lemma plain_parts_ok r : dec_ok r ->
  Forall is_digit_char (plain_parts r).1 /\ (plain_parts r).1 <> [] /\ Forall is_digit_char (frac_digits (plain_parts r).2) /\
  format_f r = sign_text (d_neg r) ++ (plain_parts r).1 ++ frac_text (plain_parts r).2.
Proof.
  intros Hr. unfold plain_parts, format_f. destruct (nat_str_digits (d_int r) Hr) as (Hd & Hne & _).
  set (ds := nat_str (d_int r)) in *. set (dp := d_exp r + zlen ds).
  assert (Forall is_digit_char (lit "0")) by (change (lit "0") with [48]; repeat constructor; lia).
  destruct (dp <? 0) eqn:E1; [|destruct (zlen ds <=? dp) eqn:E2]; cbn [fst snd frac_digits frac_text].
  - split_and!; [done|done| |done]. apply Forall_app. split; [apply zeros_digits|done].
  - split_and!; [|by destruct ds|done|by rewrite app_nil_r]. apply Forall_app. split; [done|apply zeros_digits].
  - destruct (Forall_ztake dp ds Hd) as [T1 T2]. split_and!; [by destruct (ztake dp ds)|by destruct (ztake dp ds)|done|done].
Qed.

Lemma plain_form_ok r : dec_ok r -> form_ok (plain_form r).
Proof. intros (H1 & H2 & H3 & _)%plain_parts_ok. split; cbn; try done. by apply trim_digits. Qed.

Lemma has_char_digits c ds : Forall is_digit_char ds -> (c < 48 \/ 57 < c) -> has_char c ds = false.
Proof.
  intros H Hc. unfold has_char. destruct (existsb (Z.eqb c) ds) eqn:E; [|done]. apply existsb_exists in E as (x & Hx & E).
  apply Z.eqb_eq in E as <-. rewrite Forall_forall in H. apply list_elem_of_In in Hx. specialize (H _ Hx). unfold is_digit_char in H. lia.
Qed.

Lemma last_digit a : Forall is_digit_char a -> a <> [] -> forall s, exists b x, s ++ a = b ++ [x] /\ is_digit_char x.
Proof.
  intros H Hne s. destruct (exists_last Hne) as (b & x & ->). exists (s ++ b), x. rewrite app_assoc. split; [done|].
  apply Forall_app in H as [_ H]. by rewrite Forall_singleton in H.
Qed.

Lemma format_f_stripped r : dec_ok r ->
  (if has_char 46 (format_f r) then rstrip_zeros (format_f r) else format_f r) = text_of (plain_form r).
Proof.
  intros Hr. destruct (plain_parts_ok r Hr) as (H1 & H2 & H3 & ->). unfold text_of, plain_form. cbn [f_neg f_int f_frac f_exp exp_text].
  rewrite app_nil_r. destruct (plain_parts r) as [ip [s|]]; cbn [fst snd frac_text frac_digits trim] in *.
  - assert (has_char 46 (sign_text (d_neg r) ++ ip ++ 46 :: s) = true) as ->.
    { unfold has_char. apply existsb_exists. exists 46. split; [|done]. apply in_or_app. right. apply in_or_app. right. by left. }
    rewrite app_assoc. rewrite rstrip_zeros_frac; [by rewrite <- app_assoc| |done].
    destruct (last_digit ip H1 H2 (sign_text (d_neg r))) as (b & x & -> & Hx). exists b, x. split; [done|]. unfold is_digit_char in Hx. lia.
  - rewrite app_nil_r. assert (has_char 46 (sign_text (d_neg r) ++ ip) = false) as ->; [|done].
    destruct (d_neg r); cbn; by apply has_char_digits; [|lia].
Qed.

Lemma digits_val_zeros k s : digits_val (zeros k ++ s) = digits_val s.
Proof. rewrite digits_val_app. destruct (zeros_digits k) as (_ & -> & _). lia. Qed.

(** Trimming zeros off a fraction leaves the value. *)
Lemma trim_value neg ip frac ex : exists k, 0 <= k /\
  digits_val (ip ++ frac_digits frac) = digits_val (ip ++ frac_digits (trim frac)) * 10 ^ k /\
  zlen (frac_digits frac) = zlen (frac_digits (trim frac)) + k /\
  same_value (form_value (mkform neg ip (trim frac) ex)) (form_value (mkform neg ip frac ex)).
Proof.
  assert (exists k, 0 <= k /\ digits_val (ip ++ frac_digits frac) = digits_val (ip ++ frac_digits (trim frac)) * 10 ^ k /\
    zlen (frac_digits frac) = zlen (frac_digits (trim frac)) + k) as (k & Hk & H1 & H2).
  { destruct frac as [s|]; [|exists 0; change (10 ^ 0) with 1; cbn [frac_digits trim]; split_and!; lia]. destruct (rstrip_zeros_tail s) as (k & Hk & E & L). exists k. cbn [frac_digits trim].
    assert (frac_digits match rstrip_char 48 s with [] => None | z :: s' => Some (z :: s') end = rstrip_char 48 s) as -> by (by destruct (rstrip_char 48 s)).
    split_and!; [done| |lia]. rewrite E at 1. rewrite app_assoc, digits_val_app. destruct (zeros_digits k) as (_ & -> & Z3). rewrite Z3 by done. lia. }
  exists k. split_and!; try done. unfold form_value. cbn [f_neg f_int f_frac f_exp].
  apply same_value_sym, (same_value_shift _ _ k); cbn [d_neg d_int d_exp]; [done..|lia].
Qed.

Lemma same_value_trans a b c : same_value a b -> same_value b c -> same_value a c.
Proof.
  unfold same_value, at_exp. intros H1 H2. set (m := Z.min (d_exp a) (Z.min (d_exp b) (d_exp c))).
  assert (S : forall x e, e <= d_exp x -> m <= e -> signed x * 10 ^ (d_exp x - m) = signed x * 10 ^ (d_exp x - e) * 10 ^ (e - m)).
  { intros x e E1 E2. rewrite <- Z.mul_assoc, <- Z.pow_add_r by lia. do 2 f_equal. lia. }
  assert (signed a * 10 ^ (d_exp a - m) = signed c * 10 ^ (d_exp c - m)) as H.
  { rewrite (S a (Z.min (d_exp a) (d_exp b))), H1, <- S, (S b (Z.min (d_exp b) (d_exp c))), H2, <- S by lia. done. }
  rewrite (S a (Z.min (d_exp a) (d_exp c))), (S c (Z.min (d_exp a) (d_exp c))) in H by lia.
  eapply Z.mul_reg_r; [|exact H]. pose proof (pow10_gt (Z.min (d_exp a) (d_exp c) - m) ltac:(lia)). lia.
Qed.

Lemma plain_form_value r : dec_ok r -> same_value (form_value (plain_form r)) r.
Proof.
  intros Hr. unfold plain_form. destruct (trim_value (d_neg r) (plain_parts r).1 (plain_parts r).2 None) as (_ & _ & _ & _ & H).
  eapply same_value_trans; [exact H|]. clear H. unfold form_value, plain_parts. cbn [f_neg f_int f_frac f_exp exp_value].
  destruct (nat_str_digits (d_int r) Hr) as (Hd & Hne & Hv). set (ds := nat_str (d_int r)) in *. set (dp := d_exp r + zlen ds).
  pose proof (zlen_nonneg ds).
  destruct (dp <? 0) eqn:E1; [|destruct (zlen ds <=? dp) eqn:E2]; cbn [fst snd frac_digits].
  - change (lit "0") with [48]. rewrite digits_val_app. change (digits_val [48]) with 0. rewrite digits_val_zeros, Hv, zlen_app.
    destruct (zeros_digits (- dp)) as (_ & _ & ->); [|lia]. apply (same_value_shift _ _ 0); cbn [d_neg d_int d_exp]; try done; lia.
  - rewrite app_nil_r, digits_val_app, Hv. destruct (zeros_digits (dp - zlen ds)) as (_ & -> & ->); [|lia].
    apply (same_value_shift _ _ (d_exp r)); cbn [d_neg d_int d_exp]; change (zlen (@nil Z)) with 0; try done; try lia.
    replace (dp - zlen ds) with (d_exp r) by lia. lia.
  - assert (digits_val (match ztake dp ds with [] => lit "0" | ip => ip end ++ zdrop dp ds) = d_int r) as ->.
    { rewrite <- Hv. destruct (ztake dp ds) eqn:E.
      - change (lit "0") with [48]. rewrite digits_val_app. change (digits_val [48]) with 0. pose proof (ztake_zdrop dp ds) as T. rewrite E in T. cbn in T. rewrite T. lia.
      - rewrite <- E. by rewrite ztake_zdrop. }
    rewrite zlen_drop by lia. apply (same_value_shift _ _ 0); cbn [d_neg d_int d_exp]; try done; lia.
Qed.

Lemma same_value_int a b : dec_ok a -> dec_ok b -> same_value a b -> (d_int a = 0 <-> d_int b = 0).
Proof.
  unfold same_value, at_exp, dec_ok. intros Ha Hb H. set (e := Z.min _ _) in *.
  pose proof (pow10_gt (d_exp a - e) ltac:(lia)). pose proof (pow10_gt (d_exp b - e) ltac:(lia)).
  unfold signed in H. destruct (d_neg a), (d_neg b); split; intros E; rewrite E in H; nia.
Qed.

Lemma form_value_ok f : form_ok f -> dec_ok (form_value f).
Proof. intros [H1 _ H2 _]. unfold dec_ok. cbn. apply digits_val_bounds. by apply Forall_app. Qed.

(** The plain text of a number that is not zero. *)
Lemma plain_text_form r : dec_ok r -> d_int r <> 0 -> plain_text r = text_of (plain_form r).
Proof.
  intros Hr H0. unfold plain_text. rewrite format_f_stripped by done. pose proof (plain_form_ok r Hr) as Hf.
  destruct (dec_of_text _ Hf) as [E _]. specialize (E I).
  assert (d_int (form_value (plain_form r)) <> 0) as Hv.
  { intros C. apply H0. apply (same_value_int (form_value (plain_form r)) r); [by apply form_value_ok|done|by apply plain_form_value|done]. }
  assert (N : forall s d, dec_of_str s = d -> (forall x, d = Ok x -> d_int x = 0) -> str_eqb (text_of (plain_form r)) s = false).
  { intros s d Es Hd. apply bool_decide_eq_false_2. intros Et. apply Hv. apply Hd. by rewrite <- Es, <- Et. }
  rewrite (N [] _ eq_refl), (N (lit "-0") _ eq_refl); [done| |]; vm_compute; by intros x [= <-].
Qed.

(** ** Rounded to some digits *)

(** [a] differs from [b] by at most the [n]-th part of [b]. *)
Definition rel_close (n : Z) (a b : decimal) : Prop :=
  let e := Z.min (d_exp a) (d_exp b) in n * Z.abs (at_exp a e - at_exp b e) <= Z.abs (at_exp b e).

Lemma abs_at_exp a e : dec_ok a -> Z.abs (at_exp a e) = d_int a * 10 ^ (d_exp a - e).
Proof.
  unfold at_exp, signed, dec_ok. intros H. pose proof (Z.pow_nonneg 10 (d_exp a - e) ltac:(lia)). destruct (d_neg a); nia.
Qed.

Lemma at_exp_diff a b e : d_neg a = d_neg b ->
  Z.abs (at_exp a e - at_exp b e) = Z.abs (d_int a * 10 ^ (d_exp a - e) - d_int b * 10 ^ (d_exp b - e)).
Proof. unfold at_exp, signed. intros ->. destruct (d_neg b); lia. Qed.

Lemma same_rel_close n a b : 0 <= n -> same_value a b -> rel_close n a b.
Proof. unfold same_value, rel_close. intros Hn ->. rewrite Z.sub_diag. cbn. lia. Qed.

Lemma rel_close_weaken n m a b : 0 <= m <= n -> rel_close n a b -> rel_close m a b.
Proof. unfold rel_close. intros H1 H2. cbn zeta in *. nia. Qed.

Lemma rel_scale n x y g : 0 < g -> n * Z.abs (x * g - y * g) <= Z.abs (y * g) <-> n * Z.abs (x - y) <= Z.abs y.
Proof.
  intros Hg. rewrite <- Z.mul_sub_distr_r, !Z.abs_mul, (Z.abs_eq g), Z.mul_assoc by lia. symmetry. by apply Z.mul_le_mono_pos_r.
Qed.

Lemma at_exp_lower x e m : m <= e -> e <= d_exp x -> at_exp x m = at_exp x e * 10 ^ (e - m).
Proof. intros H1 H2. unfold at_exp. rewrite <- Z.mul_assoc, <- Z.pow_add_r by lia. do 2 f_equal. lia. Qed.

Lemma rel_close_same n a a' b : same_value a' a -> rel_close n a b -> rel_close n a' b.
Proof.
  unfold same_value, rel_close. set (e := Z.min (d_exp a') (d_exp b)). set (e' := Z.min (d_exp a) (d_exp b)).
  set (e'' := Z.min (d_exp a') (d_exp a)). set (m := Z.min e (Z.min e' e'')).
  assert (m <= e /\ m <= e' /\ m <= e'' /\ e <= d_exp a' /\ e <= d_exp b /\ e' <= d_exp a /\ e' <= d_exp b /\ e'' <= d_exp a' /\ e'' <= d_exp a)
    as (M1 & M2 & M3 & L1 & L2 & L3 & L4 & L5 & L6) by lia.
  assert (Ha : at_exp a' e'' = at_exp a e'' -> at_exp a' m = at_exp a m).
  { intros E. by rewrite (at_exp_lower a' e'' m), (at_exp_lower a e'' m), E. }
  assert (P1 : 0 < 10 ^ (e - m)) by (apply pow10_gt; lia). assert (P2 : 0 < 10 ^ (e' - m)) by (apply pow10_gt; lia).
  clearbody e e' e'' m. intros H1 H2. apply Ha in H1. apply (rel_scale _ _ _ (10 ^ (e - m)) P1).
  rewrite <- !at_exp_lower by done. rewrite H1, (at_exp_lower a e' m), (at_exp_lower b e' m) by done. by apply rel_scale.
Qed.

Lemma adjusted_bounds v : 0 < d_int v -> forall m, m <= d_exp v ->
  10 ^ (adjusted v - m) <= d_int v * 10 ^ (d_exp v - m).
Proof.
  intros Hv m Hm. pose proof (ndigits_spec _ Hv) as S. pose proof (ndigits_pos (d_int v) ltac:(lia)).
  unfold adjusted. replace (d_exp v + ndigits (d_int v) - 1 - m) with ((ndigits (d_int v) - 1) + (d_exp v - m)) by lia.
  rewrite Z.pow_add_r by lia. pose proof (pow10_gt (d_exp v - m) ltac:(lia)). nia.
Qed.

Lemma rescale_up e v : e <= d_exp v -> 0 < d_int v -> ndigits (d_int (rescale e v)) = ndigits (d_int v) + (d_exp v - e).
Proof. intros He Hv. unfold rescale. rewrite (proj2 (Z.leb_le _ _)) by done. cbn. apply ndigits_mul10; lia. Qed.

(** [_round] leaves so many digits, and changes the number by at most half of the
    last one. *)
Lemma round_digits_spec places v : 1 <= places -> 0 < d_int v ->
  let r := round_digits places v in
  d_neg r = d_neg v /\ 0 < d_int r /\ ndigits (d_int r) = places /\ adjusted v <= adjusted r <= adjusted v + 1 /\
  rel_close (2 * 10 ^ (places - 1)) r v.
Proof.
  intros Hp Hv r. pose proof (ndigits_pos (d_int v) ltac:(lia)) as Nv. unfold round_digits in r. set (e0 := adjusted v + 1 - places) in *.
  destruct (Z.le_gt_cases e0 (d_exp v)) as [C|C].
  - (* padded *)
    pose proof (rescale_up e0 v C Hv) as Nr. assert (adjusted (rescale e0 v) = adjusted v) as Ea.
    { unfold adjusted. rewrite Nr. unfold rescale. rewrite (proj2 (Z.leb_le _ _)) by done. cbn [d_exp]. lia. }
    assert (r = rescale e0 v) as -> by (unfold r; by rewrite Ea, Z.eqb_refl).
    rewrite Ea. assert (ndigits (d_int (rescale e0 v)) = places) by (rewrite Nr; unfold e0, adjusted; lia).
    unfold rescale in *. rewrite (proj2 (Z.leb_le _ _)) in * by done. cbn [d_neg d_int] in *. pose proof (pow10_gt (d_exp v - e0) ltac:(lia)).
    split_and!; try done; try nia. apply same_rel_close; [pose proof (pow10_gt (places - 1) ltac:(lia)); lia|].
    apply (same_value_shift _ _ (d_exp v - e0)); cbn [d_neg d_int d_exp]; try done; lia.
  - set (k := e0 - d_exp v). set (q := half_even (d_int v) (10 ^ k)).
    assert (rescale e0 v = mkdec (d_neg v) q e0) as Er by (unfold rescale; by rewrite (proj2 (Z.leb_gt _ _)) by lia).
    assert (ndigits (d_int v) - k = places) as Ek by (unfold k, e0, adjusted; lia).
    destruct (half_even_digits (d_int v) k places Hv ltac:(lia) Hp ltac:(lia)) as [Q1 Q2]. specialize (Q2 Ek). fold q in Q1, Q2.
    pose proof (pow10_gt k ltac:(lia)) as Pk. pose proof (half_even_spec (d_int v) (10 ^ k) Pk) as Hh. fold q in Hh.
    pose proof (ndigits_spec _ Hv) as Sv. rewrite <- Ek in *. clear Ek.
    assert (Hrel : forall c j, 0 <= j -> c * 10 ^ j = q -> rel_close (2 * 10 ^ (ndigits (d_int v) - k - 1)) (mkdec (d_neg v) c (e0 + j)) v).
    { intros c j Hj Ec. unfold rel_close. rewrite at_exp_diff, abs_at_exp by (try done; unfold dec_ok; lia). cbn [d_int d_exp].
      rewrite (Z.min_r (e0 + j) (d_exp v)), Z.sub_diag by lia. change (10 ^ 0) with 1. rewrite Z.mul_1_r.
      replace (e0 + j - d_exp v) with (j + k) by lia. rewrite Z.pow_add_r, Z.mul_assoc, Ec by lia.
      pose proof (pow10_gt (ndigits (d_int v) - k - 1) ltac:(lia)).
      assert (10 ^ (ndigits (d_int v) - 1) = 10 ^ (ndigits (d_int v) - k - 1) * 10 ^ k) by (rewrite <- Z.pow_add_r by lia; f_equal; lia). nia. }
    destruct (Z.eq_dec q (10 ^ (ndigits (d_int v) - k))) as [Eq|Eq].
    + (* a carry into a new digit *)
      assert (Np : ndigits q = ndigits (d_int v) - k + 1).
      { apply ndigits_unique; [|lia]. rewrite Eq. replace (ndigits (d_int v) - k + 1 - 1) with (ndigits (d_int v) - k) by lia. split; [lia|]. apply Z.pow_lt_mono_r; lia. }
      assert (adjusted (rescale e0 v) = adjusted v + 1) as Ea by (rewrite Er; unfold adjusted; cbn [d_exp d_int]; rewrite Np; unfold k, adjusted; lia).
      assert (r = mkdec (d_neg v) (10 ^ (ndigits (d_int v) - k - 1)) (e0 + 1)) as ->.
      { unfold r. rewrite Ea. rewrite (proj2 (Z.eqb_neq _ _)) by lia. rewrite Er. unfold rescale. cbn [d_exp d_int d_neg].
        replace (adjusted v + 1 + 1 - places) with (e0 + 1) by (unfold e0; lia).
        rewrite (proj2 (Z.leb_gt _ _)) by lia. replace (e0 + 1 - e0) with 1 by lia. change (10 ^ 1) with 10. f_equal.
        rewrite Eq, half_even_exact; [by apply mod10_pow; lia|lia|].
        replace (ndigits (d_int v) - k) with (ndigits (d_int v) - k - 1 + 1) by lia. rewrite Z.pow_add_r by lia. by apply Z.mod_mul. }
      assert (N1 : ndigits (10 ^ (ndigits (d_int v) - k - 1)) = ndigits (d_int v) - k).
      { apply ndigits_unique; [|lia]. split; [lia|]. apply Z.pow_lt_mono_r; lia. }
      split_and!; cbn [d_neg d_int]; try done; [apply pow10_gt; lia|unfold adjusted; cbn [d_exp d_int]; lia|unfold adjusted; cbn [d_exp d_int]; lia|].
      apply Hrel; [lia|]. change (10 ^ 1) with 10. rewrite Eq. replace (ndigits (d_int v) - k) with (ndigits (d_int v) - k - 1 + 1) at 2 by lia.
      rewrite Z.pow_add_r by lia. done.
    + assert (Np : ndigits q = ndigits (d_int v) - k) by (apply ndigits_unique; lia).
      assert (adjusted (rescale e0 v) = adjusted v) as Ea by (rewrite Er; unfold adjusted; cbn [d_exp d_int]; rewrite Np; unfold k, adjusted; lia).
      assert (r = mkdec (d_neg v) q e0) as -> by (unfold r; by rewrite Ea, Z.eqb_refl).
      rewrite Er in Ea. rewrite Ea. pose proof (pow10_gt (ndigits (d_int v) - k - 1) ltac:(lia)).
      split_and!; cbn [d_neg d_int]; try done; try lia.
      replace e0 with (e0 + 0) by lia. apply Hrel; [lia|]. change (10 ^ 0) with 1. lia.
Qed.

(** ** [formatnumber] *)

(** The scientific form: a digit, the other digits without zeros at the end, the
    exponent. *)
Definition compact_form (places : Z) (v : decimal) : form :=
  let r := round_digits (places + 1) v in
  let ds := nat_str (d_int r) in
  mkform (d_neg r) (ztake 1 ds) (trim (Some (zdrop 1 ds))) (Some (adjusted r <? 0, nat_str (Z.abs (adjusted r)))).

Lemma compact_form_ok places v : 0 <= places -> 0 < d_int v -> form_ok (compact_form places v) /\ is_number (compact_form places v).
Proof.
  intros Hp Hv. destruct (round_digits_spec (places + 1) v ltac:(lia) Hv) as (_ & Hr & _). unfold compact_form.
  set (r := round_digits _ v) in *. destruct (nat_str_digits (d_int r) ltac:(lia)) as (Hd & Hne & _).
  destruct (Forall_ztake 1 _ Hd) as [T1 T2]. destruct (nat_str_digits (Z.abs (adjusted r)) ltac:(lia)) as (He & Hen & _).
  split; [split; cbn|]; try done.
  - by destruct (nat_str (d_int r)).
  - by apply (trim_digits (Some _)).
  - unfold is_number. cbn. by destruct (nat_str (Z.abs (adjusted r))).
Qed.

Lemma compact_text_form places v : 0 <= places -> 0 < d_int v -> compact_text places v = text_of (compact_form places v).
Proof.
  intros Hp Hv. destruct (compact_form_ok places v Hp Hv) as [[H1 H2 _ _] _]. unfold compact_text, format_E.
  destruct (round_digits_spec (places + 1) v ltac:(lia) Hv) as (_ & Hr & _). unfold compact_form in *. set (r := round_digits _ v) in *.
  cbn [f_int] in *. destruct (nat_str_digits (d_int r) ltac:(lia)) as (Hd & _ & _). set (ds := nat_str (d_int r)) in *.
  rewrite (app_assoc (sign_text (d_neg r))). change (lit "." ++ zdrop 1 ds) with (46 :: zdrop 1 ds). rewrite rstrip_zeros_frac; [|..|by apply Forall_ztake].
  - unfold text_of. cbn [f_neg f_int f_frac f_exp trim exp_text]. rewrite <- !app_assoc. do 4 f_equal.
    unfold int_str, sign_text. destruct (adjusted r <? 0) eqn:E; [|by rewrite Z.abs_eq by lia]. by rewrite Z.abs_neq by lia.
  - destruct (last_digit _ H1 H2 (sign_text (d_neg r))) as (b & x & -> & Hx). exists b, x. split; [done|]. unfold is_digit_char in Hx. lia.
Qed.

Lemma compact_form_value places v : 1 <= places -> 0 < d_int v ->
  rel_close (2 * 10 ^ places) (form_value (compact_form places v)) v.
Proof.
  intros Hp Hv. destruct (round_digits_spec (places + 1) v ltac:(lia) Hv) as (Hn & Hr & Nr & _ & Hc).
  replace (places + 1 - 1) with places in Hc by lia. unfold compact_form. set (r := round_digits _ v) in *.
  eapply rel_close_same; [|exact Hc]. clear Hc.
  destruct (nat_str_digits (d_int r) ltac:(lia)) as (Hd & Hne & Hv'). set (ds := nat_str (d_int r)) in *.
  destruct (trim_value (d_neg r) (ztake 1 ds) (Some (zdrop 1 ds)) (Some (adjusted r <? 0, nat_str (Z.abs (adjusted r))))) as (_ & _ & _ & _ & H).
  eapply same_value_trans; [exact H|]. clear H. unfold form_value. cbn [f_neg f_int f_frac f_exp frac_digits exp_value].
  rewrite ztake_zdrop, Hv', zlen_drop by lia.
  destruct (nat_str_digits (Z.abs (adjusted r)) ltac:(lia)) as (_ & _ & ->).
  assert (zlen ds = places + 1) as -> by exact Nr.
  apply (same_value_shift _ _ 0); cbn [d_neg d_int d_exp]; [done|done|change (10 ^ 0) with 1; lia|].
  unfold adjusted in *. rewrite Nr in *. destruct (d_exp r + (places + 1) - 1 <? 0) eqn:E; lia.
Qed.

Lemma zlen_sign_text b : 0 <= zlen (sign_text b) <= 1.
Proof. destruct b; [change (zlen (sign_text true)) with 1|change (zlen (sign_text false)) with 0]; lia. Qed.

Lemma trim_len frac : zlen (frac_digits (trim frac)) <= zlen (frac_digits frac) /\
  zlen (frac_text (trim frac)) <= 1 + zlen (frac_digits (trim frac)).
Proof.
  split; [|destruct (trim frac); cbn [frac_text frac_digits]; autorewrite with zlen; lia].
  destruct frac as [s|]; [|done]. cbn. destruct (rstrip_zeros_tail s) as (k & Hk & _ & E). destruct (rstrip_char 48 s); cbn [frac_digits]; lia.
Qed.

(** Six places always fit when the exponent has at most seven digits. *)
Lemma compact_fits v : 0 < d_int v -> Z.abs (adjusted v) + 1 < 10 ^ 7 -> zlen (compact_text 6 v) <= MAXDISPLAYCHARS.
Proof.
  intros Hv Ha. rewrite compact_text_form by lia. destruct (round_digits_spec (6 + 1) v ltac:(lia) Hv) as (_ & Hr & Nr & Ar & _).
  unfold compact_form, text_of. set (r := round_digits _ v) in *. cbn [f_neg f_int f_frac f_exp exp_text].
  rewrite !zlen_app, zlen_cons, zlen_app, zlen_take by lia.
  pose proof (zlen_sign_text (d_neg r)). pose proof (zlen_sign_text (adjusted r <? 0)).
  destruct (trim_len (Some (zdrop 1 (nat_str (d_int r))))) as [T1 T2]. cbn [frac_digits] in T1. rewrite zlen_drop in T1 by lia.
  assert (zlen (nat_str (d_int r)) = 7) as E by exact Nr. rewrite E in *.
  pose proof (ndigits_le (Z.abs (adjusted r)) 7 ltac:(lia) ltac:(lia)) as L. unfold ndigits in L. unfold MAXDISPLAYCHARS. lia.
Qed.

Lemma first_compact_spec n v t : 0 < d_int v -> first_compact n v = Ok t ->
  exists places, (1 <= places <= n)%nat /\ t = text_of (compact_form (Z.of_nat places) v) /\ zlen t <= MAXDISPLAYCHARS /\
    (forall k, (places < k <= n)%nat -> MAXDISPLAYCHARS < zlen (compact_text (Z.of_nat k) v)).
Proof.
  intros Hv. induction n as [|n IH]; [done|]. intros H. cbn [first_compact] in H. destruct (_ <=? _) eqn:E in H.
  - injection H as <-. apply Z.leb_le in E. exists (S n). rewrite compact_text_form in * by lia. split_and!; try done; try lia.
  - apply Z.leb_gt in E. destruct (IH H) as (p & H1 & H2 & H3 & H4). exists p. split_and!; try done; try lia.
    intros k Hk. destruct (decide (k = S n)) as [->|]; [done|]. apply H4. lia.
Qed.

Lemma first_compact_ok n v : zlen (compact_text 6 v) <= MAXDISPLAYCHARS -> (6 <= n)%nat -> exists t, first_compact n v = Ok t.
Proof.
  intros H. induction 1 as [|n Hn IH].
  - cbn [first_compact]. change (Z.of_nat 6) with 6. rewrite (proj2 (Z.leb_le _ _) H). by eexists.
  - cbn [first_compact]. destruct (_ <=? _); [by eexists|done].
Qed.

(** [normalize]: rounded to 28 digits, and the zeros dropped. *)
Lemma normalize_spec prec v r : 1 <= prec -> dec_ok v -> normalize prec v = Ok r ->
  exists w, fixed prec v w /\ dec_ok r /\ same_value r w.
Proof.
  intros Hp Hv H. unfold normalize in H. destruct (fix_dec prec v) as [w|] eqn:Ew; [|done]. cbn [mbind res_bind] in H.
  pose proof (fix_dec_spec _ _ _ Hp Hv Ew) as F. exists w. split; [done|]. destruct F as [Hw _ _ _ _].
  unfold is_zero in H. destruct (d_int w =? 0) eqn:E0.
  { injection H as <-. apply Z.eqb_eq in E0. split; [done|]. by apply same_value_zero. }
  destruct (drop_zeros_spec (Z.to_nat (ndigits (d_int w))) EMAX (d_int w) (d_exp w) Hw) as (k & Hk & D1 & D2 & D3 & _).
  destruct (drop_zeros _ _ _ _) as [c e]. cbn [fst snd] in *. injection H as <-. split; [done|].
  apply same_value_sym, (same_value_shift _ _ k); cbn [d_neg d_int d_exp]; [done|done|done|lia].
Qed.

(** The number that is written down, and the error it makes. *)
Lemma formatnumber_forms v t : dec_ok v -> formatnumber v = Ok t ->
  zlen t <= MAXDISPLAYCHARS /\
  (t = lit "0" /\ (d_int v = 0 \/ exists r, normalize default_prec v = Ok r /\ d_int r = 0) \/
   0 < d_int v /\ exists r, normalize default_prec v = Ok r /\ dec_ok r /\ d_int r <> 0 /\
     (t = text_of (plain_form r) \/
      exists places, (1 <= places <= 10)%nat /\ t = text_of (compact_form (Z.of_nat places) v) /\
        (forall k, (places < k <= 10)%nat -> MAXDISPLAYCHARS < zlen (compact_text (Z.of_nat k) v)))).
Proof.
  unfold dec_ok. intros Hv H. unfold formatnumber, is_zero in H. destruct (d_int v =? 0) eqn:E0.
  { injection H as <-. apply Z.eqb_eq in E0. split; [done|]. left. split; [done|by left]. }
  apply Z.eqb_neq in E0. destruct (normalize default_prec v) as [r|] eqn:En; [|done]. cbn [mbind res_bind] in H.
  destruct (normalize_spec default_prec v r ltac:(done) Hv En) as (w & _ & Hr & _).
  destruct (Z.eq_dec (d_int r) 0) as [Hr0|Hr0].
  { assert (plain_text r = lit "0") as Ep.
    { unfold normalize in En. destruct (fix_dec default_prec v) as [w'|] eqn:Ef; [|done]. cbn [mbind res_bind] in En. unfold is_zero in En.
      destruct (d_int w' =? 0) eqn:Ew; [injection En as <-; by destruct (d_neg w')|]. apply Z.eqb_neq in Ew. exfalso.
      destruct (fix_dec_spec default_prec v w' ltac:(done) Hv Ef) as [Hw _ _ _ _].
      destruct (drop_zeros_spec (Z.to_nat (ndigits (d_int w'))) EMAX (d_int w') (d_exp w') Hw) as (k & Hk & D1 & _).
      destruct (drop_zeros _ _ _ _) as [c e]. cbn [fst] in D1. injection En as <-. cbn in Hr0. subst c. lia. }
    rewrite Ep in H. cbn in H. injection H as <-. split; [done|]. left. split; [done|]. right. by exists r. }
  rewrite plain_text_form in H by done. destruct (zlen (text_of (plain_form r)) <=? MAXDISPLAYCHARS) eqn:E.
  - injection H as <-. apply Z.leb_le in E. split; [done|]. right. split; [lia|]. exists r. split_and!; try done. by left.
  - destruct (first_compact_spec 10 v t ltac:(lia) H) as (p & H1 & H2 & H3 & H4). split; [done|]. right. split; [lia|].
    exists r. split_and!; try done. right. by exists p.
Qed.

(** A number in the range of the exponents is normalised without an error, by at
    most the 10^27-th part. *)
Lemma normalize_ok v : 0 < d_int v -> EMIN <= adjusted v < EMAX ->
  exists r w, normalize default_prec v = Ok r /\ fixed default_prec v w /\ dec_ok r /\ same_value r w /\
    rel_close (10 ^ 27) r v /\ (ndigits (d_int v) <= 28 -> same_value r v).
Proof.
  intros Hv Ha. unfold default_prec in *. pose proof (ndigits_pos (d_int v) ltac:(lia)) as Nv.
  assert (exists w, fix_dec 28 v = Ok w) as [w Ew].
  { unfold fix_dec. rewrite (proj2 (Z.eqb_neq _ _)) by lia. unfold etop, etiny, adjusted, EMAX, EMIN in *.
    rewrite (proj2 (Z.ltb_ge _ _)) by lia. destruct (_ <? Z.max _ _); [|by eexists]. set (c := half_even _ _).
    destruct (28 <? ndigits c); rewrite (proj2 (Z.ltb_ge _ _)) by lia; by eexists. }
  assert (exists r, normalize 28 v = Ok r) as [r Er].
  { unfold normalize. rewrite Ew. cbn [mbind res_bind]. destruct (is_zero w); [by eexists|]. destruct (drop_zeros _ _ _ _); by eexists. }
  destruct (normalize_spec 28 v r ltac:(done) ltac:(unfold dec_ok; lia) Er) as (w' & F & Hr & Hs).
  exists r, w'. split_and!; try done.
  - eapply rel_close_same; [exact Hs|]. destruct F as [Hw [Hn HR] Hd He Hf]. destruct HR as [[? _]|[Hle HR]]; [lia|].
    unfold rel_close. rewrite at_exp_diff, abs_at_exp by (try done; unfold dec_ok; lia). rewrite (Z.min_r (d_exp w') (d_exp v)), Z.sub_diag by lia.
    change (10 ^ 0) with 1. rewrite Z.mul_1_r. set (k := d_exp w' - d_exp v) in *. destruct (Z.eq_dec k 0) as [K|K].
    { rewrite K in *. change (10 ^ 0) with 1 in *. lia. }
    assert (N : ndigits (d_int w') = 28) by (apply Hf; [lia|lia|unfold etiny, adjusted, EMIN in *; lia]).
    assert (0 < d_int w') by (destruct (Z.eq_dec (d_int w') 0) as [E|]; [rewrite E in N; done|unfold dec_ok in Hw; lia]).
    pose proof (ndigits_spec (d_int w') ltac:(lia)) as S. rewrite N in S. change (10 ^ (28 - 1)) with (10 ^ 27) in S.
    pose proof (pow10_gt k ltac:(lia)). set (T := 10 ^ 27) in *. assert (2 < T) by (unfold T; lia). clearbody T.
    assert (T * 10 ^ k <= d_int w' * 10 ^ k) by (apply Z.mul_le_mono_nonneg_r; lia). nia.
  - intros H28. eapply same_value_trans; [exact Hs|]. destruct (fx_exact _ _ _ F) as [E|[E|[E|E]]].
    + rewrite E. unfold same_value. done.
    + unfold is_zero in E. lia.
    + lia.
    + unfold etiny, adjusted, EMIN in *. lia.
Qed.

(** The text of a number and what it reads back as. *)
Lemma format_accurate v : dec_ok v -> EMIN <= adjusted v < EMAX ->
  exists t d, formatnumber v = Ok t /\ zlen t <= MAXDISPLAYCHARS /\ dec_of_str t = Ok d /\
    rel_close 2000000 d v /\ (ndigits (d_int v) <= 28 -> has_char 101 t = false -> same_value d v).
Proof.
  intros Hv Ha. destruct (Z.eq_dec (d_int v) 0) as [E0|E0].
  { exists (lit "0"), (mkdec false 0 0). unfold formatnumber, is_zero. rewrite E0. cbn [Z.eqb].
    assert (same_value (mkdec false 0 0) v) by (by apply same_value_zero). split_and!; try done. by apply same_rel_close. }
  unfold dec_ok in Hv. destruct (normalize_ok v ltac:(lia) Ha) as (r & w & En & F & Hr & Hs & Hc & Hx).
  assert (Hr0 : d_int r <> 0).
  { intros C. unfold rel_close in Hc. set (e := Z.min _ _) in Hc. rewrite <- (Z.abs_opp (_ - _)) in Hc.
    assert (at_exp r e = 0) as E by (unfold at_exp, signed; rewrite C; by destruct (d_neg r)). rewrite E in Hc.
    replace (- (0 - at_exp v e)) with (at_exp v e) in Hc by ring. rewrite abs_at_exp in Hc by done.
    pose proof (pow10_gt (d_exp v - e) ltac:(lia)). nia. }
  assert (exists t, formatnumber v = Ok t) as [t Et].
  { unfold formatnumber. unfold is_zero. rewrite (proj2 (Z.eqb_neq _ _) E0), En. cbn [mbind res_bind].
    destruct (_ <=? _); [by eexists|]. apply first_compact_ok; [|lia]. apply compact_fits; [lia|]. unfold EMIN, EMAX in Ha. lia. }
  destruct (formatnumber_forms v t Hv Et) as [Hl [(_ & [?|(r' & En' & ?)])|(_ & r' & En' & _ & _ & Ht)]]; [done| |].
  { rewrite En in En'. injection En' as <-. done. }
  rewrite En in En'. injection En' as <-. destruct Ht as [->|(p & Hp & -> & Hmax)].
  - pose proof (plain_form_ok r Hr) as Hf. exists (text_of (plain_form r)), (form_value (plain_form r)).
    destruct (dec_of_text _ Hf) as [Ed _]. specialize (Ed I). pose proof (plain_form_value r Hr) as Hpv. split_and!; try done.
    + eapply rel_close_same; [exact Hpv|]. eapply rel_close_weaken; [|exact Hc]. lia.
    + intros H28 _. eapply same_value_trans; [exact Hpv|]. by apply Hx.
  - destruct (compact_form_ok (Z.of_nat p) v ltac:(lia) ltac:(lia)) as [Hf Hn]. destruct (dec_of_text _ Hf) as [Ed _]. specialize (Ed Hn).
    eexists _, _. split; [exact Et|]. split; [done|]. split; [exact Ed|]. split.
    + eapply rel_close_weaken; [|apply compact_form_value; lia].
      assert (6 <= Z.of_nat p).
      { destruct (Z.le_gt_cases 6 (Z.of_nat p)) as [|C]; [done|]. specialize (Hmax 6%nat ltac:(lia)). change (Z.of_nat 6) with 6 in Hmax.
        pose proof (compact_fits v ltac:(lia) ltac:(unfold EMIN, EMAX in Ha; lia)). lia. }
      pose proof (Z.pow_le_mono_r 10 6 (Z.of_nat p) ltac:(lia) ltac:(done)). lia.
    + intros _ C. exfalso. assert (has_char 101 (text_of (compact_form (Z.of_nat p) v)) = true); [|congruence].
      unfold has_char, text_of, compact_form. cbn [f_exp exp_text]. apply existsb_exists. exists 101. split; [|done].
      repeat (apply in_or_app; right). by left.
Qed.

(** C27: a number within the range of the exponents is shown in at most 18
    characters, and the text reads back as the number up to one part in two
    millions; as the number itself if it has at most 28 digits and no exponent is
    shown. *)
Theorem display_accurate v : dec_ok v -> EMIN <= adjusted v < EMAX ->
  exists t d, formatnumber v = Ok t /\ zlen t <= MAXDISPLAYCHARS /\ dec_of_str t = Ok d /\
    rel_close 2000000 d v /\ (ndigits (d_int v) <= 28 -> has_char 101 t = false -> same_value d v).
Proof. apply format_accurate. Qed.

(** C28: the result of an operation has at most 40 digits and is the exact sum,
    difference, product or quotient up to half a unit of its last digit; sums,
    differences and products of at most 40 digits are exact. *)
Theorem operation_rounded left operator right r : dec_ok left -> dec_ok right ->
  applyoperation left operator right = Ok r ->
  dec_ok r /\ ndigits (d_int r) <= work_prec /\
  let e := Z.min (d_exp left) (d_exp right) in
  (operator = lit "+" /\ nearest work_prec (at_exp left e + at_exp right e) e r \/
   operator = lit "-" /\ nearest work_prec (at_exp left e - at_exp right e) e r \/
   operator = lit "*" /\ nearest work_prec (signed left * signed right) (d_exp left + d_exp right) r \/
   operator = lit "/" /\ d_int right <> 0 /\ nearest_quotient left right r).
Proof.
  intros Hl Hr. unfold applyoperation. destruct (str_eqb operator (lit "+")) eqn:E1.
  { intros (H1 & H2 & H3)%dadd_nearest; [|done]. split_and!; try done. left. split; [by apply str_eqb_eq|done]. }
  destruct (str_eqb operator (lit "-")) eqn:E2.
  { intros (H1 & H2 & H3)%dsub_nearest; [|done]. split_and!; try done. right. left. split; [by apply str_eqb_eq|done]. }
  destruct (str_eqb operator (lit "*")) eqn:E3.
  { intros (H1 & H2 & H3)%dmul_nearest; [|done..]. split_and!; try done. right. right. left. split; [by apply str_eqb_eq|done]. }
  destruct (str_eqb operator (lit "/")) eqn:E4; [|done]. destruct (is_zero right) eqn:E5; [done|].
  intros (H1 & H2 & H3)%ddiv_nearest; [|done..]. split_and!; try done. right. right. right.
  split; [by apply str_eqb_eq|]. split; [|done]. unfold is_zero in E5. lia.
Qed.

(** ** The state is in order *)

(** How many digits a text may have. *)
Definition form_digits (f : form) : Z := zlen (f_int f) + zlen (frac_digits (f_frac f)) + zlen (exp_digits (f_exp f)).
Definition bounded (f : form) : Prop :=
  form_digits f <= 16 \/ (form_digits f <= 18 /\ f_exp f = None) \/ (form_digits f <= 17 /\ f_frac f = None).

Lemma text_len f : zlen (text_of f) = zlen (sign_text (f_neg f)) + form_digits f +
  match f_frac f with Some _ => 1 | None => 0 end + match f_exp f with Some (n, _) => 1 + zlen (sign_text n) | None => 0 end.
Proof.
  unfold text_of, form_digits. destruct (f_frac f) as [s|], (f_exp f) as [[n ds]|]; cbn [frac_text frac_digits exp_text exp_digits];
    autorewrite with zlen; lia.
Qed.

Lemma bounded_len f : bounded f -> zlen (text_of f) <= 20.
Proof.
  intros H. rewrite text_len. pose proof (zlen_sign_text (f_neg f)). destruct H as [H|[[H ->]|[H ->]]].
  - destruct (f_frac f), (f_exp f) as [[n ?]|]; try pose proof (zlen_sign_text n); lia.
  - destruct (f_frac f); lia.
  - destruct (f_exp f) as [[n ?]|]; try pose proof (zlen_sign_text n); lia.
Qed.

Lemma len_bounded f : zlen (text_of f) <= 18 -> bounded f.
Proof.
  rewrite text_len. pose proof (zlen_sign_text (f_neg f)). unfold bounded.
  destruct (f_frac f) eqn:E1, (f_exp f) as [[n ?]|] eqn:E2; try pose proof (zlen_sign_text n); intros.
  - left. lia.
  - right. left. split; [lia|done].
  - right. right. split; [lia|done].
  - right. left. split; [lia|done].
Qed.

(** A text that can be on the display, one that is a number on its own. *)
Definition shown (t : pystr) : Prop := exists f, form_ok f /\ bounded f /\ t = text_of f.
Definition shown_number (t : pystr) : Prop := exists f, form_ok f /\ bounded f /\ is_number f /\ t = text_of f.

Lemma shown_number_shown t : shown_number t -> shown t.
Proof. intros (f & H1 & H2 & _ & ->). by exists f. Qed.

Lemma formatnumber_shown v t : dec_ok v -> formatnumber v = Ok t -> shown_number t /\ zlen t <= 18.
Proof.
  intros Hv H. destruct (formatnumber_forms v t Hv H) as [Hl Hf]. split; [|done]. unfold MAXDISPLAYCHARS in Hl.
  destruct Hf as [[-> _]|(Hp & r & _ & Hr & _ & [->|(p & Hp' & -> & _)])].
  - exists (mkform false (lit "0") None None). split_and!; try done. + split; cbn; try done. change (lit "0") with [48]. repeat constructor; lia. + by left.
  - exists (plain_form r). split_and!; try done; [by apply plain_form_ok|by apply len_bounded].
  - destruct (compact_form_ok (Z.of_nat p) v ltac:(lia) Hp) as [F1 F2]. eexists. split_and!; [exact F1|by apply len_bounded|exact F2|done].
Qed.

Definition operation (p : pystr) : Prop := is_Some (operator_sign p).

Record wf (s : calc) : Prop := {
  wf_display : has_error s = false -> shown (DISPLAY s) /\ (NEWINPUT s = true -> shown_number (DISPLAY s));
  wf_error : has_error s = true -> DISPLAY s = lit "error" /\ NEWINPUT s = true /\ PENDING s = None /\ LASTOPERATOR s = None;
  wf_pending : match PENDING s, ACCUMULATOR s with
               | Some p, Some a => operation p /\ dec_ok a | None, None => True | _, _ => False end;
  wf_last : match LASTOPERATOR s, LASTOPERAND s with
            | Some p, Some a => operation p /\ dec_ok a | None, None => True | _, _ => False end;
  wf_expression : zlen (EXPRESSION s) <= 64 }.

Ltac calc_cbn := cbn [DISPLAY EXPRESSION ACCUMULATOR PENDING LASTOPERATOR LASTOPERAND NEWINPUT ERROR REDRAW HOVERBUTTON has_error
  clearall seterror set_DISPLAY set_EXPRESSION set_ACCUMULATOR set_PENDING set_LASTOPERATOR set_LASTOPERAND set_NEWINPUT set_REDRAW
  set_HOVERBUTTON].

Lemma shown_zero : shown_number (lit "0").
Proof.
  exists (mkform false (lit "0") None None). split_and!; try done. + split; cbn; try done. change (lit "0") with [48]. repeat constructor; lia. + by left.
Qed.

Lemma clearall_wf s : wf (clearall s) /\ has_error (clearall s) = false.
Proof.
  split; [|done]. split; calc_cbn; try done.
  split; [|intros _]; [apply shown_number_shown|]; apply shown_zero.
Qed.

Lemma seterror_wf m s : m <> [] -> wf (seterror m s).
Proof.
  intros Hm. assert (has_error (seterror m s) = true) as He.
  { unfold has_error. calc_cbn. destruct m; [done|]. done. }
  split; rewrite ?He; try done. calc_cbn. rewrite zlen_take; lia.
Qed.

Lemma recover_wf s : wf s -> wf (recover s) /\ has_error (recover s) = false.
Proof. intros H. unfold recover. destruct (has_error s) eqn:E; [apply clearall_wf|done]. Qed.

Lemma beginentry_wf s : wf s -> wf (beginentry s) /\ has_error (beginentry s) = has_error s /\ DISPLAY (beginentry s) = DISPLAY s /\
  NEWINPUT (beginentry s) = NEWINPUT s /\ PENDING (beginentry s) = PENDING s.
Proof.
  intros [H1 H2 H3 H4 H5]. unfold beginentry. destruct (is_none (PENDING s) && NEWINPUT s); [|done].
  split; [|done]. split; calc_cbn; try done. intros E. destruct (H2 E) as (? & ? & ? & ?). done. 
Qed.

(** A new text is put on the display, and more input follows. *)
Lemma typed_wf s t : wf s -> has_error s = false -> shown t -> wf (set_NEWINPUT false (set_DISPLAY t s)).
Proof. intros [H1 H2 H3 H4 H5] He Ht. split; calc_cbn; try done. intros E. unfold has_error in *. cbn in E. congruence. Qed.

Lemma typing_wf s t : wf s -> has_error s = false -> NEWINPUT s = false -> shown t -> wf (set_DISPLAY t s).
Proof.
  intros [H1 H2 H3 H4 H5] He Hn Ht. split; calc_cbn; try done; [|intros E; unfold has_error in *; cbn in E; congruence].
  intros _. split; [done|]. by rewrite Hn.
Qed.

(** ** Typing *)

Section Typing.
Context {D : Digits} {DL : DigitsLaws D}.

Definition add_digit (f : form) (c : Z) : form :=
  match f_exp f, f_frac f with
  | Some (n, ds), _ => mkform (f_neg f) (f_int f) (f_frac f) (Some (n, ds ++ [c]))
  | None, Some s => mkform (f_neg f) (f_int f) (Some (s ++ [c])) None
  | None, None => mkform (f_neg f) (f_int f ++ [c]) None None
  end.

Lemma add_digit_spec f c : form_ok f -> is_digit_char c ->
  form_ok (add_digit f c) /\ text_of (add_digit f c) = text_of f ++ [c] /\ form_digits (add_digit f c) = form_digits f + 1.
Proof.
  intros [H1 H2 H3 H4] Hc. assert (S : forall ds, Forall is_digit_char ds -> Forall is_digit_char (ds ++ [c])).
  { intros ds Hd. apply Forall_app. split; [done|]. by apply Forall_cons. }
  unfold add_digit, form_digits, text_of. destruct (f_exp f) as [[n ds]|] eqn:E1; [|destruct (f_frac f) as [s|] eqn:E2];
    cbn [f_neg f_int f_frac f_exp frac_text frac_digits exp_text exp_digits] in *.
  - split; [split; cbn; auto|]. split; [by rewrite <- !app_assoc, <- !app_comm_cons, <- !app_assoc|]. autorewrite with zlen. lia.
  - split; [split; cbn; auto|]. rewrite !app_nil_r. split; [by rewrite <- ?app_assoc, <- ?app_comm_cons, <- ?app_assoc|]. autorewrite with zlen. lia.
  - split; [split; cbn; auto; by destruct (f_int f)|]. rewrite !app_nil_r. split; [by rewrite <- ?app_assoc|]. autorewrite with zlen. lia.
Qed.

Lemma digit_count_app a b : digit_count (a ++ b) = digit_count a + digit_count b.
Proof. unfold digit_count. by rewrite List.filter_app, zlen_app. Qed.

Lemma isdigit_of c : is_ascii c = true -> isdigit c = ascii_digit c.
Proof. apply isdigit_ascii. Qed.

Lemma digit_count_digits ds : Forall is_digit_char ds -> digit_count ds = zlen ds.
Proof.
  induction 1 as [|c ds Hc _ IH]; [done|]. change (c :: ds) with ([c] ++ ds). rewrite digit_count_app, IH, zlen_app. f_equal.
  unfold digit_count. cbn. unfold is_digit_char in Hc. rewrite isdigit_of by (unfold is_ascii; lia).
  assert (ascii_digit c = true) as -> by (unfold ascii_digit; lia). done.
Qed.

Lemma digit_count_sign b : digit_count (sign_text b) = 0.
Proof. destruct b; [|done]. unfold digit_count. cbn. by rewrite isdigit_of. Qed.

Lemma digit_count_cons c s : is_ascii c = true -> ascii_digit c = false -> digit_count (c :: s) = digit_count s.
Proof. intros H1 H2. unfold digit_count. cbn. by rewrite isdigit_of, H2. Qed.

Lemma digit_count_text f : form_ok f -> digit_count (text_of f) = form_digits f.
Proof.
  intros [H1 H2 H3 H4]. unfold text_of, form_digits. rewrite !digit_count_app, digit_count_sign, digit_count_digits by done.
  destruct (f_frac f) as [s|], (f_exp f) as [[n ds]|]; cbn [frac_text frac_digits exp_text exp_digits] in *;
    rewrite ?digit_count_cons, ?digit_count_app, ?digit_count_sign, ?digit_count_digits by done;
    change (digit_count []) with 0; autorewrite with zlen; lia.
Qed.

Lemma shown_single neg c : is_digit_char c -> shown_number (sign_text neg ++ [c]).
Proof.
  intros Hc. exists (mkform neg [c] None None). split_and!; try done; [|by left].
  split; cbn; try done. by apply Forall_cons.
Qed.

(** The digits the keys give. *)
Lemma typed_digit digit : zlen digit = 1 -> has_sub digit (lit "0123456789") = true -> exists c, digit = [c] /\ is_digit_char c.
Proof.
  intros Hl. destruct digit as [|c [|c' digit]]; autorewrite with zlen in Hl; [lia| |pose proof (zlen_nonneg digit); lia].
  intros H. exists c. split; [done|]. unfold is_digit_char. change (lit "0123456789") with [48; 49; 50; 51; 52; 53; 54; 55; 56; 57] in H.
  cbn [has_sub starts_with] in H. repeat (apply orb_true_iff in H as [H|H]; [|]); try (apply andb_true_iff in H as [H _]); try lia.
Qed.

Lemma inputdigit_wf digit s : wf s -> zlen digit = 1 -> wf (inputdigit digit s).
Proof.
  intros H Hl. unfold inputdigit. destruct (has_sub digit _) eqn:E; [|done]. cbn [negb].
  destruct (typed_digit digit Hl E) as (c & -> & Hc). destruct (recover_wf s H) as [H1 He1].
  destruct (beginentry_wf _ H1) as (H2 & He2 & Ed & En & _). rewrite He1 in He2. set (s' := beginentry (recover s)) in *.
  destruct (NEWINPUT s') eqn:N; [apply typed_wf; try done; by apply shown_number_shown, (shown_single false)|].
  destruct (wf_display _ H2 He2) as [(f & Hf & Hb & Et) _]. rewrite Et, (digit_count_text f Hf).
  destruct (MAXINPUTDIGITS <=? form_digits f) eqn:Em; [done|]. unfold MAXINPUTDIGITS in Em.
  destruct (str_eqb _ (lit "0")); [apply typing_wf; try done; by apply shown_number_shown, (shown_single false)|].
  destruct (str_eqb _ (lit "-0")); [apply typing_wf; try done; by apply shown_number_shown, (shown_single true)|].
  apply typing_wf; try done. destruct (add_digit_spec f c Hf Hc) as (F1 & F2 & F3). exists (add_digit f c). split_and!; [done|left; lia|done].
Qed.

Lemma text_chars f : form_ok f -> Forall (fun c => is_digit_char c \/ c = 45 \/ c = 46 \/ c = 101) (text_of f).
Proof.
  intros [H1 H2 H3 H4]. assert (S : forall ds, Forall is_digit_char ds -> Forall (fun c => is_digit_char c \/ c = 45 \/ c = 46 \/ c = 101) ds).
  { intros ds Hd. eapply Forall_impl; [exact Hd|]. auto. }
  assert (G : forall b, Forall (fun c => is_digit_char c \/ c = 45 \/ c = 46 \/ c = 101) (sign_text b)).
  { intros []; [apply Forall_cons; split; auto|done]. }
  unfold text_of. rewrite !Forall_app. split_and!; auto.
  - destruct (f_frac f); [|done]. cbn in *. apply Forall_cons. auto.
  - destruct (f_exp f) as [[n ds]|]; [|done]. cbn in *. apply Forall_cons. split; [auto|]. apply Forall_app. auto.
Qed.

Lemma text_lower f : form_ok f -> ascii_lower (text_of f) = text_of f.
Proof.
  intros H%text_chars. unfold ascii_lower. induction H as [|c l Hc _ IH]; [done|]. cbn. f_equal; [|done].
  unfold ascii_lower1, is_digit_char in *. split_if; lia.
Qed.

Lemma has_char_app c a b : has_char c (a ++ b) = has_char c a || has_char c b.
Proof. unfold has_char. apply existsb_app. Qed.

Lemma has_char_cons c x s : has_char c (x :: s) = (c =? x) || has_char c s.
Proof. done. Qed.

Lemma has_char_sign c b : c <> 45 -> has_char c (sign_text b) = false.
Proof. intros H. destruct b; [|done]. cbn [sign_text]. rewrite has_char_cons. by rewrite (proj2 (Z.eqb_neq _ _)). Qed.

Lemma text_marks f : form_ok f -> has_char 46 (text_of f) = negb (is_none (f_frac f)) /\ has_char 101 (text_of f) = negb (is_none (f_exp f)).
Proof.
  intros [H1 H2 H3 H4]. unfold text_of. rewrite !has_char_app, !(has_char_digits _ (f_int f)), !has_char_sign by (done || lia).
  assert (forall c, (c < 48 \/ 57 < c) -> c <> 45 -> has_char c (frac_text (f_frac f)) = negb (is_none (f_frac f)) && (c =? 46) /\
    has_char c (exp_text (f_exp f)) = negb (is_none (f_exp f)) && (c =? 101)) as S.
  { intros c Hc Hc'. destruct (f_frac f) as [s|], (f_exp f) as [[n ds]|]; cbn [frac_text exp_text frac_digits exp_digits is_none negb andb] in *;
      rewrite ?has_char_cons, ?has_char_app, ?has_char_sign, ?(has_char_digits c) by done; cbn [orb]; by rewrite ?orb_false_r. }
  destruct (S 46) as [-> ->]; [lia|lia|]. destruct (S 101) as [-> ->]; [lia|lia|]. cbn. rewrite !andb_true_r, !andb_false_r, ?orb_false_r. done.
Qed.

Lemma inputdecimal_wf s : wf s -> wf (inputdecimal s).
Proof.
  intros H. unfold inputdecimal. destruct (recover_wf s H) as [H1 He1].
  destruct (beginentry_wf _ H1) as (H2 & He2 & Ed & En & _). rewrite He1 in He2. set (s' := beginentry (recover s)) in *.
  destruct (NEWINPUT s') eqn:N.
  { apply typed_wf; try done. exists (mkform false (lit "0") (Some []) None). split_and!; try done; [|by left].
    split; cbn; try done. change (lit "0") with [48]. repeat constructor; lia. }
  destruct (wf_display _ H2 He2) as [(f & Hf & Hb & Et) _]. rewrite Et, (text_lower f Hf). destruct (text_marks f Hf) as [M1 M2]. rewrite M1, M2.
  destruct (f_frac f) eqn:E1; [done|]. destruct (f_exp f) eqn:E2; [done|]. cbn [is_none negb andb]. apply typing_wf; try done.
  exists (mkform (f_neg f) (f_int f) (Some []) None). destruct Hf as [F1 F2 F3 F4]. split_and!.
  - by split.
  - unfold bounded, form_digits in *. cbn [f_int f_frac f_exp frac_digits exp_digits] in *. rewrite E1, E2 in Hb. cbn [frac_digits exp_digits] in Hb.
    destruct Hb as [Hb|[[Hb _]|[Hb _]]]; [left; lia|right; left; split; [lia|done]..].
  - unfold text_of. rewrite E1, E2. cbn [f_neg f_int f_frac f_exp frac_text exp_text]. by rewrite !app_nil_r, <- !app_assoc.
Qed.

Lemma removelast_snoc (a : pystr) c : removelast (a ++ [c]) = a.
Proof. apply removelast_last. Qed.

(** Without its last character a text is still one that can be shown, or nothing but
    a sign. *)
Lemma drop_last f : form_ok f -> bounded f ->
  removelast (text_of f) = sign_text (f_neg f) \/
  exists g, form_ok g /\ bounded g /\ removelast (text_of f) = text_of g.
Proof.
  intros [H1 H2 H3 H4] Hb. unfold bounded, form_digits in Hb. destruct (f_exp f) as [[n ds]|] eqn:E1.
  - right. cbn [exp_digits] in *. destruct (decide (ds = [])) as [->|Hd].
    + exists (mkform (f_neg f) (f_int f) (f_frac f) (if n then Some (false, []) else None)). split; [by destruct n|].
      split; [|unfold text_of; rewrite E1; destruct n; cbn [f_neg f_int f_frac f_exp exp_text sign_text app];
        rewrite ?app_nil_r, !app_assoc; [change [101; 45] with ([101] ++ [45]); rewrite app_assoc|]; apply removelast_snoc].
      unfold bounded, form_digits. cbn [f_neg f_int f_frac f_exp]. destruct n; cbn [exp_digits]; autorewrite with zlen in *.
      * destruct Hb as [Hb|[[_ Hb]|Hb]]; [by left|done|by right; right].
      * destruct Hb as [Hb|[[_ Hb]|[Hb _]]]; [by left|done|right; left; split; [lia|done]].
    + destruct (exists_last Hd) as (ds' & c & ->). exists (mkform (f_neg f) (f_int f) (f_frac f) (Some (n, ds'))).
      apply Forall_app in H4 as [H4 _]. split; [by split|]. split.
      * unfold bounded, form_digits. cbn [f_neg f_int f_frac f_exp exp_digits]. autorewrite with zlen in *.
        destruct Hb as [Hb|[[_ Hb]|[Hb Hb']]]; [left; lia|done|right; right; split; [lia|done]].
      * unfold text_of. rewrite E1. cbn [f_neg f_int f_frac f_exp exp_text]. rewrite !app_comm_cons, !app_assoc. apply removelast_snoc.
  - destruct (f_frac f) as [s|] eqn:E2; cbn [frac_digits exp_digits] in *.
    + right. destruct (decide (s = [])) as [->|Hs].
      * exists (mkform (f_neg f) (f_int f) None None). split; [by split|]. split.
        -- unfold bounded, form_digits. cbn [f_neg f_int f_frac f_exp frac_digits exp_digits].
           autorewrite with zlen in *. destruct Hb as [Hb|[[Hb _]|[Hb _]]]; [left; lia|right; left; split; [lia|done]..].
        -- unfold text_of. rewrite E1, E2. cbn [f_neg f_int f_frac f_exp frac_text exp_text]. rewrite !app_nil_r, !app_assoc. apply removelast_snoc.
      * destruct (exists_last Hs) as (s' & c & ->). exists (mkform (f_neg f) (f_int f) (Some s') None).
        apply Forall_app in H3 as [H3 _]. split; [by split|]. split.
        -- unfold bounded, form_digits. cbn [f_neg f_int f_frac f_exp frac_digits exp_digits]. autorewrite with zlen in *.
           destruct Hb as [Hb|[[Hb _]|[Hb Hb']]]; [left; lia|right; left; split; [lia|done]|done].
        -- unfold text_of. rewrite E1, E2. cbn [f_neg f_int f_frac f_exp frac_text exp_text]. rewrite !app_nil_r, !app_comm_cons, !app_assoc. apply removelast_snoc.
    + destruct (exists_last H2) as (i & c & E3). rewrite E3 in *. apply Forall_app in H1 as [H1 _].
      assert (removelast (text_of f) = sign_text (f_neg f) ++ i) as ->.
      { unfold text_of. rewrite E1, E2, E3. cbn [frac_text exp_text]. rewrite !app_nil_r, app_assoc. apply removelast_snoc. }
      destruct (decide (i = [])) as [->|Hi]; [left; by rewrite app_nil_r|]. right. exists (mkform (f_neg f) i None None). split; [by split|]. split.
      * unfold bounded, form_digits. cbn [f_neg f_int f_frac f_exp frac_digits exp_digits]. autorewrite with zlen in *.
        destruct Hb as [Hb|[[Hb _]|[Hb _]]]; [left; lia|right; left; split; [lia|done]..].
      * unfold text_of. cbn [f_neg f_int f_frac f_exp frac_text exp_text]. by rewrite !app_nil_r.
Qed.

Lemma backspace_wf s : wf s -> wf (backspace s).
Proof.
  intros H. unfold backspace. destruct (has_error s) eqn:He; [apply clearall_wf|]. destruct (NEWINPUT s) eqn:N; [done|].
  apply typing_wf; try done. destruct (wf_display _ H He) as [(f & Hf & Hb & ->) _].
  destruct (str_eqb _ [] || _ || _) eqn:E; [apply shown_number_shown, shown_zero|].
  destruct (drop_last f Hf Hb) as [E'|(g & Hg & Hbg & ->)]; [|by exists g]. rewrite E' in E. by destruct (f_neg f).
Qed.

Lemma togglesign_wf s : wf s -> wf (togglesign s).
Proof.
  intros H. unfold togglesign. destruct (has_error s) eqn:He; [apply clearall_wf|].
  destruct (beginentry_wf _ H) as (H2 & He2 & Ed & En & Ep). rewrite He in He2. set (s' := beginentry s) in *.
  destruct (NEWINPUT s' && negb (is_none (PENDING s'))).
  { apply typed_wf; try done. apply shown_number_shown, (shown_single true 48). unfold is_digit_char. lia. }
  apply typed_wf; try done. destruct (wf_display _ H2 He2) as [(f & Hf & Hb & ->) _].
  exists (mkform (negb (f_neg f)) (f_int f) (f_frac f) (f_exp f)). destruct Hf as [F1 F2 F3 F4]. split_and!; [by split|done|].
  unfold text_of. cbn [f_neg f_int f_frac f_exp]. destruct (f_neg f); [done|]. cbn [negb sign_text app].
  destruct F1 as [|c i Hc _]; [done|]. unfold is_digit_char in Hc. cbn [app]. change (lit "-") with [45]. cbn [starts_with app].
  by rewrite (proj2 (Z.eqb_neq _ _)) by lia.
Qed.

(** ** Operations that may raise *)

(** The exceptions [press] catches. *)
Definition caught (e : exn) : Prop := e = DivisionByZero \/ arithmetic_error e = true.

(** From [s], [m] ends with a value and state that satisfy [Q], or raises an
    exception that is caught. *)
Definition ends {A} (m : C A) (s : calc) (Q : A -> calc -> Prop) : Prop :=
  match m s with (Ok a, s') => Q a s' | (Exc e, _) => caught e end.

Lemma ends_ret {A} (a : A) s (Q : A -> calc -> Prop) : Q a s -> ends (mret a) s Q.
Proof. done. Qed.

Lemma ends_bind {A B} (m : C A) (k : A -> C B) s Q : ends m s (fun a s' => ends (k a) s' Q) -> ends (m ≫= k) s Q.
Proof. unfold ends, mbind, c_bind. by destruct (m s) as [[a|e] s']. Qed.

Lemma ends_weaken {A} (m : C A) s (P Q : A -> calc -> Prop) : ends m s P -> (forall a s', P a s' -> Q a s') -> ends m s Q.
Proof. unfold ends. destruct (m s) as [[a|e] s']; auto. Qed.

Lemma ends_cset f s (Q : unit -> calc -> Prop) : Q tt (f s) -> ends (cset f) s Q.
Proof. done. Qed.

Lemma ends_cget {A} (f : calc -> A) s (Q : A -> calc -> Prop) : Q (f s) s -> ends (cget f) s Q.
Proof. done. Qed.

Lemma ends_clift {A} (r : res A) s (Q : A -> calc -> Prop) : (forall a, r = Ok a -> Q a s) -> (forall e, r = Exc e -> caught e) -> ends (clift r) s Q.
Proof. intros H1 H2. unfold ends, clift. destruct r; auto. Qed.

Lemma fix_caught prec d e : fix_dec prec d = Exc e -> caught e.
Proof.
  unfold fix_dec. destruct (_ =? 0); [done|]. destruct (_ <? _); [intros [= <-]; by right|]. destruct (_ <? _); [|done].
  destruct (_ <? ndigits _); destruct (_ <? _); try done; intros [= <-]; by right.
Qed.

Lemma ddiv_caught prec a b e : ddiv prec a b = Exc e -> caught e.
Proof.
  unfold ddiv. destruct (is_zero b); [destruct (is_zero a); intros [= <-]; [by right|by left]|].
  destruct (is_zero a); [apply fix_caught|]. cbn zeta. destruct (if _ =? 0 then _ else _). apply fix_caught.
Qed.

Lemma applyoperation_caught a p b e : applyoperation a p b = Exc e -> caught e.
Proof.
  unfold applyoperation. destruct (str_eqb p (lit "+")); [apply fix_caught|]. destruct (str_eqb p (lit "-")); [apply fix_caught|].
  destruct (str_eqb p (lit "*")); [apply fix_caught|]. destruct (str_eqb p (lit "/")); [|intros [= <-]; by right].
  destruct (is_zero b); [intros [= <-]; by left|apply ddiv_caught].
Qed.

Lemma first_compact_caught n v e : first_compact n v = Exc e -> caught e.
Proof. induction n as [|n IH]; cbn [first_compact]; [intros [= <-]; by right|]. by destruct (_ <=? _). Qed.

Lemma formatnumber_caught v e : formatnumber v = Exc e -> caught e.
Proof.
  unfold formatnumber. destruct (is_zero v); [done|]. destruct (normalize default_prec v) as [r|e'] eqn:En; cbn [mbind res_bind].
  - destruct (_ <=? _); [done|apply first_compact_caught].
  - intros [= <-]. unfold normalize in En. destruct (fix_dec default_prec v) as [w|] eqn:Ew; cbn [mbind res_bind] in En.
    + destruct (is_zero w); [done|]. by destruct (drop_zeros _ _ _ _).
    + injection En as <-. by eapply fix_caught.
Qed.

Lemma dec_of_str_caught t e : dec_of_str t = Exc e -> caught e.
Proof.
  unfold dec_of_str. destruct (split_sign t). destruct (split_first 101 _). destruct (split_first 46 _).
  destruct (exponent_of _); [|intros [= <-]; by right]. destruct (_ && _); [done|intros [= <-]; by right].
Qed.

Lemma dec_of_str_ok t d : dec_of_str t = Ok d -> dec_ok d.
Proof.
  unfold dec_of_str, dec_ok. destruct (split_sign t). destruct (split_first 101 _). destruct (split_first 46 _) as [ip fp].
  destruct (exponent_of _); [|done]. destruct (_ && _) eqn:E; [|done]. intros [= <-]. cbn.
  apply andb_true_iff in E as [[E1 E2]%andb_true_iff _]. apply digits_val_bounds. apply Forall_app. by rewrite !all_digits_spec in *.
Qed.

Lemma applyoperation_ok a p b r : dec_ok a -> dec_ok b -> applyoperation a p b = Ok r -> dec_ok r.
Proof.
  intros Ha Hb. unfold applyoperation. destruct (str_eqb p (lit "+")); [by intros []%dadd_nearest|].
  destruct (str_eqb p (lit "-")); [by intros []%dsub_nearest|]. destruct (str_eqb p (lit "*")); [by intros []%dmul_nearest|].
  destruct (str_eqb p (lit "/")); [|done]. destruct (is_zero b); [done|]. by intros []%ddiv_nearest.
Qed.

Lemma ends_format v s (Q : pystr -> calc -> Prop) : dec_ok v ->
  (forall t, formatnumber v = Ok t -> shown_number t -> zlen t <= 18 -> Q t s) -> ends (clift (formatnumber v)) s Q.
Proof.
  intros Hv H. apply ends_clift; [|apply formatnumber_caught]. intros t Et. destruct (formatnumber_shown v t Hv Et). by apply H.
Qed.

Lemma ends_operation a p b s (Q : decimal -> calc -> Prop) : dec_ok a -> dec_ok b ->
  (forall r, applyoperation a p b = Ok r -> dec_ok r -> Q r s) -> ends (clift (applyoperation a p b)) s Q.
Proof.
  intros Ha Hb H. apply ends_clift; [|apply applyoperation_caught]. intros r Er. apply H; [done|]. by apply (applyoperation_ok a p b).
Qed.

Lemma ends_current s (Q : decimal -> calc -> Prop) : wf s ->
  (forall d, dec_ok d -> shown_number (DISPLAY s) -> dec_of_str (DISPLAY s) = Ok d -> Q d s) -> ends currentvalue s Q.
Proof.
  intros Hw H. unfold currentvalue. apply ends_bind, ends_cget. destruct (has_error s) eqn:He; [by right|]. cbn [orb].
  destruct (str_eqb _ _); [by right|]. apply ends_clift; [|apply dec_of_str_caught]. intros d Ed. apply H; [by eapply dec_of_str_ok| |done].
  destruct (wf_display _ Hw He) as [(f & Hf & Hb & Et) _]. exists f. split_and!; try done.
  destruct (dec_of_text f Hf) as [_ Hn]. rewrite Et in Ed. unfold is_number in *. destruct (f_exp f) as [[n [|]]|]; try done.
  rewrite Hn in Ed by auto. done.
Qed.

Lemma operation_sign p : operation p -> exists c, operator_sign p = Some c /\ zlen c = 1.
Proof.
  intros [c Hc]. exists c. split; [done|]. unfold operator_sign, OPERATORS in Hc. cbn [operator_sign_in] in Hc.
  repeat (destruct (str_eqb p _); [by injection Hc as <-|]). done.
Qed.

Lemma expression_len t c : zlen t <= 18 -> zlen c = 1 -> zlen (t ++ lit " " ++ c) <= 64.
Proof. intros. rewrite !zlen_app. change (zlen (lit " ")) with 1. lia. Qed.

(** The result of an operation is shown. *)
Lemma result_wf s t b : wf s -> has_error s = false -> shown_number t -> wf (set_NEWINPUT b (set_DISPLAY t s)).
Proof.
  intros [H1 H2 H3 H4 H5] He Ht. split; calc_cbn; try done; [|intros E; unfold has_error in *; cbn in E; congruence].
  intros _. split; [by apply shown_number_shown|done].
Qed.

Lemma chooseoperator_ends operator s : wf s -> ends (chooseoperator operator) s (fun _ s' => wf s').
Proof.
  intros H. unfold chooseoperator. destruct (operator_sign operator) as [sign|] eqn:Eo; [|by apply ends_ret].
  assert (operation operator) as Hop by (by exists sign). destruct (operation_sign _ Hop) as (c & Ec & Hc). rewrite Eo in Ec. injection Ec as <-.
  apply ends_bind, ends_cget. destruct (has_error s) eqn:He; [by apply ends_ret|].
  assert (T : forall d t, dec_ok d -> shown_number t -> ends
    (cset (set_ACCUMULATOR (Some d));; cset (set_PENDING (Some operator));; cset (set_LASTOPERATOR None);; cset (set_LASTOPERAND None);;
     cset (set_NEWINPUT true);; (x ← cformat (Some d); cset (set_EXPRESSION (x ++ lit " " ++ sign)))) (set_DISPLAY t s) (fun _ s' => wf s')).
  { intros d t Hd Ht. do 5 apply ends_bind, ends_cset. unfold cformat. cbn [decimal_of mbind res_bind]. apply ends_bind, ends_format; [done|].
    intros x _ _ Hx. apply ends_cset. split; calc_cbn; try done; [|intros E; change (has_error s = true) in E; congruence|by apply expression_len].
    intros _. split; [by apply shown_number_shown|done]. }
  assert (Same : set_DISPLAY (DISPLAY s) s = s) by (by destruct s).
  pose proof H as [H1 H2 H3 H4 H5]. destruct (PENDING s) as [p|] eqn:Ep, (ACCUMULATOR s) as [a|] eqn:Ea; try done; cbn [is_none negb andb].
  - destruct H3 as [Hp Ha]. destruct (NEWINPUT s) eqn:En.
    + apply ends_bind, ends_cset, ends_bind. unfold cformat. cbn [decimal_of mbind res_bind]. apply ends_format; [done|]. intros t _ _ Ht.
      apply ends_cset. split; calc_cbn; try done; [by rewrite En|by intros E; destruct (H2 E) as (_ & _ & ? & _)|by rewrite Ea|by apply expression_len].
    + apply ends_bind, ends_current; [done|]. intros d Hd _ _. apply ends_bind, ends_bind, ends_operation; try done. intros r _ Hr.
      apply ends_bind, ends_format; [done|]. intros t _ Hs Ht. apply ends_bind, ends_cset, ends_ret. by apply T.
  - apply ends_bind, ends_current; [done|]. intros d Hd Hn _. apply ends_bind, ends_ret. rewrite <- Same at 1. by apply T.
Qed.

Lemma dmul_ok a b r : dec_ok a -> dec_ok b -> dmul work_prec a b = Ok r -> dec_ok r.
Proof. intros Ha Hb H. apply (applyoperation_ok a (lit "*") b); done. Qed.

Lemma ddiv_ok a b r : dec_ok a -> dec_ok b -> ddiv work_prec a b = Ok r -> dec_ok r.
Proof. intros Ha Hb H. by apply ddiv_nearest in H as []. Qed.

Lemma percent_ends s : wf s -> ends percent s (fun _ s' => wf s').
Proof.
  intros H. unfold percent. apply ends_bind, ends_cget. destruct (has_error s) eqn:He; [by apply ends_ret|].
  apply ends_bind, ends_current; [done|]. intros d Hd _ _. apply ends_bind.
  assert (R : forall v, dec_ok v -> ends (t ← clift (formatnumber v); cset (set_DISPLAY t);; cset (set_NEWINPUT false)) s (fun _ s' => wf s')).
  { intros v Hv. apply ends_bind, ends_format; [done|]. intros t _ Ht _. apply ends_bind, ends_cset, ends_cset. by apply result_wf. }
  assert (Div : forall x, dec_ok x -> ends (clift (ddiv work_prec x hundred)) s
    (fun v s' => ends (t ← clift (formatnumber v); cset (set_DISPLAY t);; cset (set_NEWINPUT false)) s' (fun _ s'' => wf s''))).
  { intros x Hx. apply ends_clift; [|apply ddiv_caught]. intros r Er. apply R. by eapply ddiv_ok; [exact Hx| |exact Er]. }
  pose proof (wf_pending _ H) as H3. destruct (additive (PENDING s)); [|by apply Div]. destruct (ACCUMULATOR s) as [a|]; [|by apply Div].
  destruct (PENDING s); [|done]. destruct H3 as [_ Ha]. apply ends_bind, ends_clift; [|apply fix_caught].
  intros r Er. apply Div. by eapply dmul_ok; [exact Ha|exact Hd|].
Qed.

Lemma ends_calculation a p b s (Q : unit -> calc -> Prop) : dec_ok a -> dec_ok b -> operation p ->
  (forall t, zlen t <= 64 -> Q tt (set_EXPRESSION t s)) -> ends (calculation a p b) s Q.
Proof.
  intros Ha Hb Hp H. destruct (operation_sign p Hp) as (c & Ec & Hc). unfold calculation. apply ends_bind, ends_format; [done|]. intros l _ _ Hl.
  apply ends_bind, ends_clift; [|unfold sign_of; by rewrite Ec]. intros c'. unfold sign_of. rewrite Ec. intros [= <-].
  apply ends_bind, ends_format; [done|]. intros r _ _ Hr. apply ends_cset, H. rewrite !zlen_app.
  change (zlen (lit " ")) with 1. change (zlen (lit " =")) with 2. lia.
Qed.

Lemma equals_ends s : wf s -> ends equals s (fun _ s' => wf s').
Proof.
  intros H. unfold equals. apply ends_bind, ends_cget. destruct (has_error s) eqn:He; [by apply ends_ret|].
  pose proof H as [H1 H2 H3 H4 H5].
  destruct (PENDING s) as [p|] eqn:Ep; [destruct (ACCUMULATOR s) as [a|] eqn:Ea; [|done]; destruct H3 as [Hp Ha]|].
  - apply ends_bind, ends_ret.
    apply ends_bind, (ends_weaken _ _ (fun b s' => s' = s /\ dec_ok b)).
    { destruct (NEWINPUT s); [by apply ends_ret|]. by apply ends_current. }
    intros b ? [-> Hb]. apply ends_bind, ends_operation; try done. intros r _ Hr. apply ends_bind, ends_calculation; try done. intros x Hx.
    do 4 apply ends_bind, ends_cset. apply ends_bind, ends_format; [done|]. intros t _ Ht _. apply ends_bind, ends_cset, ends_cset.
    split; calc_cbn; try done; [|intros E; change (has_error s = true) in E; congruence]. intros _. split; [by apply shown_number_shown|done].
  - destruct (LASTOPERATOR s) as [p|] eqn:El; [|by apply ends_ret]. destruct (LASTOPERAND s) as [b|] eqn:Eb; [|done]. destruct H4 as [Hp Hb].
    apply ends_bind, ends_current; [done|]. intros a Ha _ _. apply ends_bind, ends_operation; try done. intros r _ Hr.
    apply ends_bind, ends_calculation; try done. intros x Hx. apply ends_bind, ends_format; [done|]. intros t _ Ht _. apply ends_bind, ends_cset, ends_cset.
    split; calc_cbn; try done; [|intros E; change (has_error s = true) in E; congruence|by rewrite Ep|by rewrite El, Eb].
    intros _. split; [by apply shown_number_shown|done].
Qed.

(** The keys of the program give one digit at a time. *)
Definition pressable (action : pystr) : Prop := starts_with (lit "digit:") action = true -> zlen action = 7.

Lemma act_ends action s : wf s -> pressable action -> ends (act action) s (fun _ s' => wf s').
Proof.
  intros H Hp. unfold act. destruct (starts_with _ action) eqn:E.
  { apply ends_cset, inputdigit_wf; [done|]. rewrite zlen_drop, (Hp E) by lia. done. }
  destruct (str_eqb _ _); [by apply ends_cset, inputdecimal_wf|]. destruct (str_eqb _ _); [by apply ends_cset, clearall_wf|].
  destruct (str_eqb _ _); [by apply ends_cset, backspace_wf|]. destruct (str_eqb _ _); [by apply ends_cset, togglesign_wf|].
  destruct (str_eqb _ _); [by apply percent_ends|]. destruct (starts_with (lit "operator:") action); [by apply chooseoperator_ends|].
  destruct (str_eqb _ _); [by apply equals_ends|by apply ends_ret].
Qed.

Lemma redraw_wf s : wf s -> wf (set_REDRAW true s).
Proof. intros [H1 H2 H3 H4 H5]. by split. Qed.

Lemma hover_wf h s : wf s -> wf (set_HOVERBUTTON h s).
Proof. intros [H1 H2 H3 H4 H5]. by split. Qed.

(** A key press always comes back, and leaves the state in order. *)
Lemma press_wf action s : wf s -> pressable action -> exists s', press action s = (Ok tt, s') /\ wf s'.
Proof.
  intros H Hp. pose proof (act_ends action s H Hp) as He. unfold ends in He. unfold press. destruct (act action s) as [[[]|e] s'].
  - eexists. split; [done|]. by apply redraw_wf.
  - destruct He as [->|He]; [eexists; split; [done|]; by apply redraw_wf, seterror_wf|].
    destruct e; try done; cbn [arithmetic_error]; (eexists; split; [done|]; by apply redraw_wf, seterror_wf).
Qed.

Lemma presses_wf actions s : wf s -> Forall pressable actions -> exists s', presses actions s = (Ok tt, s') /\ wf s'.
Proof.
  intros H Ha. revert s H. induction Ha as [|a actions Hp _ IH]; intros s H; [by exists s|].
  destruct (press_wf a s H Hp) as (s1 & E1 & H1). destruct (IH s1 H1) as (s2 & E2 & H2). exists s2. split; [|done].
  cbn [presses]. unfold mbind, c_bind. by rewrite E1.
Qed.

Context {U : PyUnicode}.

Lemma text_action_pressable c a : text_action c = Some a -> pressable a.
Proof.
  unfold text_action. destruct (has_char c (lit "0123456789")); [by intros [= <-]|].
  repeat (match goal with |- context [if ?b then _ else _] => destruct b end; [by intros [= <-]|]). done.
Qed.

Lemma key_action_pressable key a : key_action key = Some a -> pressable a.
Proof.
  unfold key_action. repeat (match goal with |- context [if ?b then Some (lit _) else _] => destruct b end; [by intros [= <-]|]).
  destruct (_ && _) eqn:E; [|done]. apply andb_true_iff in E as [_ E%Z.eqb_eq]. intros H _. assert (a = lit "digit:" ++ zdrop 3 key) as -> by congruence.
  rewrite zlen_app, E. done.
Qed.

Lemma button_pressable l x y a : buttonat l x y = Some a -> pressable a.
Proof.
  unfold buttonat. destruct (List.find _ _) as [b|] eqn:E; [|done]. intros [= <-]. apply find_some in E as [E _].
  unfold buttons in E. apply in_map_iff in E as ([[[a r] c] n] & <- & E). cbn [fst].
  assert (G : Forall (fun d => pressable d.1.1.1) definitions) by (repeat constructor; done).
  rewrite Forall_forall in G. apply (G (a, r, c, n)). by apply list_elem_of_In.
Qed.

(** [m] returns and keeps the state in order; keeps it in order even if it raises. *)
Definition fine {A} (m : C A) (s : calc) : Prop := exists a s', m s = (Ok a, s') /\ wf s'.

Lemma press_if_fine a s : wf s -> (forall x, a = Some x -> pressable x) -> exists s', press_if a s = (Ok tt, s') /\ wf s'.
Proof. intros H Ha. destruct a as [a|]; [|by exists s]. apply press_wf; [done|]. by apply Ha. Qed.

Lemma type_text_fine text s : wf s -> exists s', type_text text s = (Ok tt, s') /\ wf s'.
Proof.
  revert s. induction text as [|c text IH]; intros s H; [by exists s|].
  destruct (press_if_fine (text_action c) s H (text_action_pressable c)) as (s1 & E1 & H1).
  destruct (IH s1 H1) as (s2 & E2 & H2). exists s2. split; [|done]. cbn [type_text]. unfold mbind, c_bind. by rewrite E1.
Qed.

Lemma keyinput_fine m s : wf s -> exists s', keyinput m s = (Ok tt, s') /\ wf s'.
Proof. intros H. unfold keyinput. destruct (negb _); [by exists s|]. apply press_if_fine; [done|]. apply key_action_pressable. Qed.

Lemma focus_fine m s : wf s -> exists s', focus m s = (Ok tt, s') /\ wf s'.
Proof.
  intros H. unfold focus, mbind, c_bind, cget. destruct (negb _ && _); [|by exists s]. eexists. split; [done|]. by apply redraw_wf, hover_wf.
Qed.

(** [m] keeps the state in order whether it returns or raises. *)
Definition orderly {A} (m : C A) : Prop := forall s, wf s -> wf (m s).2.
(** It also returns. *)
Definition quiet {A} (m : C A) : Prop := forall s, wf s -> wf (m s).2 /\ is_ok (m s).1 = true.

Lemma quiet_orderly {A} (m : C A) : quiet m -> orderly m.
Proof. intros H s Hs. by apply H. Qed.

Lemma orderly_ret {A} (a : A) : orderly (mret a).
Proof. by intros s. Qed.

Lemma orderly_bind {A B} (m : C A) (k : A -> C B) : orderly m -> (forall a, orderly (k a)) -> orderly (m ≫= k).
Proof. intros Hm Hk s Hs. unfold mbind, c_bind. specialize (Hm s Hs). destruct (m s) as [[a|e] s']; [by apply Hk|done]. Qed.

Lemma orderly_clift {A} (r : res A) : orderly (clift r).
Proof. by intros s. Qed.

Lemma orderly_cget {A} (f : calc -> A) : orderly (cget f).
Proof. by intros s. Qed.

Lemma quiet_bind {A B} (m : C A) (k : A -> C B) : quiet m -> (forall a, quiet (k a)) -> quiet (m ≫= k).
Proof. intros Hm Hk s Hs. unfold mbind, c_bind. specialize (Hm s Hs). destruct (m s) as [[a|e] s']; destruct Hm; [by apply Hk|done]. Qed.

Lemma quiet_ret {A} (a : A) : quiet (mret a).
Proof. by intros s. Qed.

Lemma quiet_redraw : quiet redraw.
Proof. intros s H. split; [by apply redraw_wf|done]. Qed.

Lemma quiet_of {A} (m : C A) : (forall s, wf s -> exists a s', m s = (Ok a, s') /\ wf s') -> quiet m.
Proof. intros H s Hs. destruct (H s Hs) as (a & s' & -> & H'). done. Qed.

Lemma quiet_keyinput m : quiet (keyinput m).
Proof. apply quiet_of. intros s H. destruct (keyinput_fine m s H) as (s' & H'). by exists tt, s'. Qed.

Lemma quiet_textinput m : quiet (textinput m).
Proof. apply quiet_of. intros s H. unfold textinput. destruct (type_text_fine (py_str (dict_get_def (lit "text") (PStr []) m)) s H) as (s' & H'). by exists tt, s'. Qed.

Lemma quiet_focus m : quiet (focus m).
Proof. apply quiet_of. intros s H. destruct (focus_fine m s H) as (s' & H'). by exists tt, s'. Qed.

Lemma orderly_pointermotion l m : orderly (pointermotion l m).
Proof.
  apply orderly_bind; [apply orderly_clift|]. intros a. apply orderly_bind; [apply orderly_cget|]. intros h. case_bool_decide; [apply orderly_ret|].
  apply orderly_bind; [|intros _; apply quiet_orderly, quiet_redraw]. intros s Hw. by apply hover_wf.
Qed.

Lemma orderly_pointerbutton l m : orderly (pointerbutton l m).
Proof.
  intros s H. unfold pointerbutton. destruct (negb _); [done|]. unfold mbind, c_bind, clift. destruct (py_int _) as [b|]; [|done].
  destruct (negb _); [done|]. destruct (message_button l m) as [a|] eqn:Em; [|done].
  destruct (press_if_fine a s H) as (s' & E & H'); [|by rewrite E]. intros x ->. unfold message_button in Em.
  destruct (py_int (dict_get_def (lit "x") (PInt 0) m)) as [px|]; cbn [mbind res_bind] in Em; [|done]. destruct (existsb _ _); [|done].
  destruct (py_int (dict_get_def (lit "y") (PInt 0) m)) as [py|]; cbn [mbind res_bind] in Em; [|done]. injection Em as Em. by eapply button_pressable.
Qed.

(** The messages that are no dicts, or whose numbers are converted, may raise. *)
Definition converts (m : pyval) : bool :=
  match m with
  | PDict m => bool_decide (operation_of m ∈ List.map lit
      ["WELCOME"; "FB_SIZE"; "WINDOW_CREATED"; "RESIZED"; "POINTER_MOTION"; "POINTER_BUTTON"; "GRAPHICS_COMMITTED";
       "GRAPHICS_CLEARED"]%string)
  | _ => true
  end.

Create HintDb orderly.
Hint Resolve orderly_ret orderly_clift orderly_pointermotion orderly_pointerbutton quiet_ret quiet_redraw quiet_keyinput quiet_textinput quiet_focus : orderly.
Hint Extern 1 (orderly _) => apply quiet_orderly : orderly.
Hint Extern 2 (orderly (_ ≫= _)) => (apply orderly_bind; [|intros ?]) : orderly.
Hint Extern 2 (quiet (_ ≫= _)) => (apply quiet_bind; [|intros ?]) : orderly.

Section Messages.
Context (pid : Z).

Lemma orderly_graphicsresponse m : orderly (graphicsresponse m).
Proof. unfold graphicsresponse. cbv zeta. case_match; auto 10 with orderly. Qed.

(** About graphics that failed, there is nothing to convert. *)
Lemma quiet_graphicsresponse m : str_eqb (operation_of m) (lit "GRAPHICS_COMMITTED") = false ->
  str_eqb (operation_of m) (lit "GRAPHICS_CLEARED") = false -> quiet (graphicsresponse m).
Proof. intros E1 E2. unfold graphicsresponse. cbv zeta. rewrite E1, E2. cbn [orb]. auto with orderly. Qed.

Hint Resolve orderly_graphicsresponse quiet_graphicsresponse : orderly.

Lemma handlews_wf stored m w : orderly (handlews pid stored m w).
Proof. unfold handlews. repeat case_match; auto 10 with orderly. Qed.

Lemma pulse_message_wf stored m w : orderly (pulse_message pid stored m w).
Proof.
  apply orderly_bind; [apply handlews_wf|]. intros w'. apply orderly_bind; [|intros _; auto with orderly]. repeat case_match; auto with orderly.
Qed.

(** Tell an operation that is not converted from the others. *)
Lemma operation_differs (x : string) (l : list string) op : bool_decide (op ∈ List.map lit l) = false -> existsb (String.eqb x) l = true -> str_eqb op (lit x) = false.
Proof.
  intros Hn%bool_decide_eq_false Hx. destruct (str_eqb op (lit x)) eqn:E; [|done]. destruct Hn. apply str_eqb_eq in E as ->.
  apply existsb_exists in Hx as (y & Hy & ->%String.eqb_eq). by apply list_elem_of_In, in_map.
Qed.

Lemma pulse_message_returns stored m w : converts (PDict m) = false -> quiet (pulse_message pid stored m w).
Proof.
  intros H. unfold converts in H. pose proof (quiet_graphicsresponse m (operation_differs "GRAPHICS_COMMITTED" _ _ H eq_refl)
    (operation_differs "GRAPHICS_CLEARED" _ _ H eq_refl)) as Hg.
  unfold pulse_message, handlews. cbv zeta. set (op := operation_of m) in *.
  repeat match goal with |- context [str_eqb op (lit ?x)] => rewrite (operation_differs x _ op H eq_refl) end.
  cbn [orb]. cbv iota. repeat case_match; auto 10 with orderly.
Qed.

Lemma each_message_wf f messages w : (forall m w, orderly (f m w)) -> orderly (each_message f messages w).
Proof.
  intros Hf. revert w. induction messages as [|m messages IH]; intros w; [apply orderly_ret|]. destruct m; try (by intros ?). apply orderly_bind; [apply Hf|done].
Qed.

Lemma pulses_return stored messages w : Forall (fun m => converts m = false) messages -> quiet (pulses pid stored messages w).
Proof.
  intros H. revert w. induction H as [|m messages Hm _ IH]; intros w; [apply quiet_ret|]. destruct m; try done. apply quiet_bind; [by apply pulse_message_returns|done].
Qed.

Lemma paint_wf w : orderly (paint w).
Proof.
  apply orderly_bind; [apply orderly_cget|]. intros s. case_match; [apply orderly_ret|]. intros s' [H1 H2 H3 H4 H5]. by split.
Qed.

Lemma pulse_wf t w : orderly (pulse pid t w).
Proof.
  unfold pulse. set (finish := fun w => _). assert (F : forall w, orderly (finish w)).
  { intros w'. apply orderly_bind; [apply paint_wf|intros _; apply orderly_ret]. }
  destruct (t_read t) as [r|]; [|apply F]. destruct (recvws r w) as [[messages|e] w']; [|apply orderly_ret].
  apply orderly_bind; [|done]. apply each_message_wf. intros. apply pulse_message_wf.
Qed.

Lemma main_loop_wf turns w : orderly (main_loop pid turns w).
Proof. revert w. induction turns as [|t turns IH]; intros w; cbn [main_loop]; [apply orderly_ret|]. case_match; [apply orderly_bind; [apply pulse_wf|done]|apply orderly_ret]. Qed.

Lemma await_window_wf turns w : orderly (await_window pid turns w).
Proof.
  revert w. induction turns as [|t turns IH]; intros w; cbn [await_window]; [apply orderly_ret|]. case_match; [|apply orderly_ret].
  apply orderly_bind; [|done]. destruct (t_read t) as [r|]; [|apply orderly_ret]. destruct (recvws r w) as [[messages|e] w']; [|by intros s].
  apply each_message_wf. intros. apply handlews_wf.
Qed.

Lemma main_wf turns sent sent' last : orderly (main pid turns sent sent' last).
Proof.
  apply orderly_bind; [|intros out; apply orderly_bind; [apply main_loop_wf|intros; apply orderly_ret]].
  apply orderly_bind; [apply await_window_wf|]. intros out. apply orderly_bind; [apply paint_wf|intros _; apply orderly_ret].
Qed.

(** C26: whatever the window server sends, cut into reads anyhow, the state of the
    calculator is in order when the program stops or is looked at: the display is a
    number being typed, a number, or [error] with a message; at most 20 characters
    are shown; a pending operation has its operand; and no key, text or other message
    without numbers of its own makes the program raise there. *)
Theorem calculator_invariant turns sent sent' last :
  let s := (main pid turns sent sent' last initial).2 in
  wf s /\ zlen (DISPLAY s) <= 20 /\
  forall stored messages w, Forall (fun m => converts m = false) messages -> is_ok (pulses pid stored messages w s).1 = true.
Proof.
  assert (G : wf (main pid turns sent sent' last initial).2) by (apply main_wf; by destruct (clearall_wf initial)).
  cbn zeta. split_and!; [done| |intros; by apply pulses_return]. destruct (has_error (main pid turns sent sent' last initial).2) eqn:He.
  - by destruct (wf_error _ G He) as [-> _].
  - destruct (wf_display _ G He) as [(f & _ & Hb & ->) _]. by apply bounded_len.
Qed.

Lemma c_bind_Ok {A B} (m : C A) (k : A -> C B) s b s' : (m ≫= k) s = (Ok b, s') -> exists a s1, m s = (Ok a, s1) /\ k a s1 = (Ok b, s').
Proof. unfold mbind, c_bind. destruct (m s) as [[a|e] s1]; [by exists a, s1|done]. Qed.

(** Once the window is asked for, it is not asked for again: messages only add
    answers to [CLOSE] to what is sent. *)
Definition close_ack : pydict := request "CLOSE_ACK" [("pid", PInt pid)]%string.

Inductive acks : window -> window -> Prop :=
| acks_same w w' : OUTBUF w' = OUTBUF w -> NEEDWINDOW w' = NEEDWINDOW w -> acks w w'
| acks_ack w w' w'' : acks w w' -> OUTBUF w'' = OUTBUF (sendws close_ack w') -> NEEDWINDOW w'' = NEEDWINDOW w' -> acks w w''.

Lemma sendws_NEEDWINDOW m w : NEEDWINDOW (sendws m w) = NEEDWINDOW w.
Proof. unfold sendws. by case_match. Qed.

Lemma sendws_OUTBUF m w w' : OUTBUF w = OUTBUF w' -> OUTBUF (sendws m w) = OUTBUF (sendws m w').
Proof. intros E. unfold sendws. case_match; [|done]. cbn. by rewrite E. Qed.

Lemma acks_trans w w' w'' : acks w w' -> acks w' w'' -> acks w w''.
Proof.
  intros H H'. revert H. induction H' as [a b E1 E2|a b c _ IH E1 E2]; intros H; [|eapply acks_ack; [by apply IH|done..]].
  destruct H as [w b' E3 E4|w x b' H E3 E4]; [apply acks_same; congruence|]. eapply acks_ack; [done|congruence..].
Qed.

Lemma acks_NEEDWINDOW w w' : acks w w' -> NEEDWINDOW w' = NEEDWINDOW w.
Proof. induction 1; congruence. Qed.

Lemma handlews_acks stored m w s w' s' : NEEDWINDOW w = false -> handlews pid stored m w s = (Ok w', s') -> acks w w'.
Proof.
  intros Hn. unfold handlews, needwindow, applyscale. cbn [NEEDWINDOW set_layout set_UISCALE set_screen].
  rewrite Hn. repeat (case_match; [unfold mbind, c_bind, clift, redraw, cset, mret, c_ret, focus, cget|]); try (intros [= <- <-]);
    repeat case_match; intros; simplify_eq/=; try by apply acks_same.
  eapply acks_ack; [by apply (acks_same w w)|..]; [by apply sendws_OUTBUF|by rewrite sendws_NEEDWINDOW].
Qed.

Lemma pulses_acks stored messages w s w' s' : NEEDWINDOW w = false -> pulses pid stored messages w s = (Ok w', s') -> acks w w'.
Proof.
  revert w s. induction messages as [|m messages IH]; intros w s Hn; [intros [= <- <-]; by apply acks_same|]. destruct m as [| | | | | |m]; try done.
  intros (w1 & s1 & (w2 & s2 & E & (? & s3 & _ & F)%c_bind_Ok)%c_bind_Ok & H)%c_bind_Ok. injection F as -> <-.
  pose proof (handlews_acks _ _ _ _ _ _ Hn E) as A. eapply acks_trans; [done|]. eapply IH; [|done]. by rewrite (acks_NEEDWINDOW _ _ A).
Qed.

End Messages.

End Typing.

(** ** Keys evaluate from left to right *)

Section Evaluation.
Context {D : Digits} {DL : DigitsLaws D}.

(** An operand as it is typed: digits, perhaps with a point, without a leading zero
    too many, at most 16 digits. *)
Record literal (f : form) : Prop := {
  li_ok : form_ok f; li_neg : f_neg f = false; li_exp : f_exp f = None;
  li_zero : hd 0 (f_int f) = 48 -> f_int f = [48];
  li_digits : form_digits f <= MAXINPUTDIGITS }.

Definition keys_of_operator (p : pystr) : Prop := p = lit "+" \/ p = lit "-" \/ p = lit "*" \/ p = lit "/".

(** The reference: one operation after the other, each shown. *)
Fixpoint evaluate (v : decimal) (l : list (pystr * form)) : res decimal :=
  match l with
  | [] => Ok v
  | (p, f) :: l => r ← applyoperation v p (form_value f); _ ← formatnumber r; evaluate r l
  end.

(** The text that is typed. *)
Definition typed (a : form) (l : list (pystr * form)) : pystr := text_of a ++ List.concat (List.map (fun x => x.1 ++ text_of x.2) l).

(** The state while an operand is typed over a pending operation. *)
Record entering (d : pystr) (acc : option decimal) (pending : option pystr) (s : calc) : Prop := {
  en_display : DISPLAY s = d; en_acc : ACCUMULATOR s = acc; en_pending : PENDING s = pending;
  en_new : NEWINPUT s = false; en_error : ERROR s = [] }.

(** The state when the next operand may start. *)
Record ready (acc : option decimal) (pending : option pystr) (s : calc) : Prop := {
  re_acc : ACCUMULATOR s = acc; re_pending : PENDING s = pending; re_new : NEWINPUT s = true; re_error : ERROR s = [] }.

Lemma press_run a s s' : act a s = (Ok tt, s') -> press a s = (Ok tt, set_REDRAW true s').
Proof. intros H. unfold press. by rewrite H. Qed.

Lemma type_text_app x y s s' : type_text x s = (Ok tt, s') -> type_text (x ++ y) s = type_text y s'.
Proof.
  revert s. induction x as [|c x IH]; intros s H; [by injection H as ->|]. cbn [app type_text] in *. unfold mbind, c_bind in *.
  destruct (press_if (text_action c) s) as [[[]|e] s1]; [by apply IH|done].
Qed.

Lemma type_text_one c a s s' : text_action c = Some a -> act a s = (Ok tt, s') -> type_text [c] s = (Ok tt, set_REDRAW true s').
Proof. intros Hc H. cbn [type_text]. rewrite Hc. unfold mbind, c_bind. cbn [press_if]. by rewrite (press_run a s s' H). Qed.

Lemma digit_action c : is_digit_char c -> text_action c = Some (lit "digit:" ++ [c]) /\
  forall s, act (lit "digit:" ++ [c]) s = (Ok tt, inputdigit [c] s) /\ has_sub [c] (lit "0123456789") = true.
Proof.
  unfold is_digit_char. intros H. assert (c = 48 \/ c = 49 \/ c = 50 \/ c = 51 \/ c = 52 \/ c = 53 \/ c = 54 \/ c = 55 \/ c = 56 \/ c = 57) as C by lia.
  repeat destruct C as [->|C]; try (subst c); by split.
Qed.

Lemma type_first c s acc pending : is_digit_char c -> ready acc pending s ->
  exists s', type_text [c] s = (Ok tt, s') /\ entering [c] acc pending s'.
Proof.
  intros Hc [H1 H2 H3 H4]. destruct (digit_action c Hc) as [Ha Hi]. destruct (Hi s) as [Hact Hs].
  eexists. split; [by eapply type_text_one|]. unfold inputdigit, recover, has_error. rewrite Hs, H4. cbn [negb str_eqb].
  change (str_eqb [] []) with true. cbn [negb]. unfold beginentry. rewrite H2, H3. destruct pending; cbn [is_none andb];
    calc_cbn; rewrite ?H3; by split.
Qed.

Lemma type_more c d s acc pending : is_digit_char c -> entering d acc pending s ->
  digit_count d < MAXINPUTDIGITS -> d <> lit "0" -> d <> lit "-0" ->
  exists s', type_text [c] s = (Ok tt, s') /\ entering (d ++ [c]) acc pending s'.
Proof.
  intros Hc [H0 H1 H2 H3 H4] Hd N1 N2. destruct (digit_action c Hc) as [Ha Hi]. destruct (Hi s) as [Hact Hs].
  eexists. split; [by eapply type_text_one|]. unfold inputdigit, recover, has_error. rewrite Hs, H4.
  change (str_eqb [] []) with true. cbn [negb]. unfold beginentry. rewrite H3, andb_false_r, H3, H0.
  rewrite (proj2 (Z.leb_gt _ _)) by done. unfold str_eqb. rewrite !bool_decide_eq_false_2 by done. by split; calc_cbn.
Qed.

Lemma type_point d s acc pending : entering d acc pending s -> has_char 46 d = false -> has_char 101 (ascii_lower d) = false ->
  exists s', type_text [46] s = (Ok tt, s') /\ entering (d ++ [46]) acc pending s'.
Proof.
  intros [H0 H1 H2 H3 H4] N1 N2. eexists. split; [by eapply (type_text_one 46 (lit "decimal"))|].
  unfold inputdecimal, recover, has_error. rewrite H4. change (str_eqb [] []) with true. cbn [negb].
  unfold beginentry. rewrite H3, andb_false_r, H3, H0, N1, N2. by split; calc_cbn.
Qed.

(** More digits of an operand. *)
Lemma type_digits ds d s acc pending : Forall is_digit_char ds -> entering d acc pending s ->
  digit_count d + zlen ds <= MAXINPUTDIGITS -> d <> [] -> (ds = [] \/ d <> lit "0") -> (forall x, d <> 45 :: x) ->
  exists s', type_text ds s = (Ok tt, s') /\ entering (d ++ ds) acc pending s'.
Proof.
  intros H. revert d s. induction H as [|c ds Hc H IH]; intros d s He Hl Hne H0 Hneg; [exists s; by rewrite app_nil_r|].
  rewrite zlen_cons in Hl. pose proof (zlen_nonneg ds). destruct H0 as [|H0]; [done|].
  destruct (type_more c d s acc pending Hc He) as (s1 & E1 & He1); [lia|done|by apply (Hneg [48])|].
  destruct (IH (d ++ [c]) s1 He1) as (s2 & E2 & He2).
  - rewrite digit_count_app, (digit_count_digits [c]) by (by apply Forall_cons). change (zlen [c]) with 1. lia.
  - by destruct d.
  - right. destruct d as [|x [|y d]]; [done|done|done].
  - intros x E. destruct d as [|y d]; [done|]. injection E as -> E. by apply (Hneg d).
  - exists s2. change (c :: ds) with ([c] ++ ds). rewrite (type_text_app [c] ds s s1 E1). split; [done|]. by rewrite app_assoc.
Qed.

(** A whole operand. *)
Lemma type_literal f s acc pending : literal f -> ready acc pending s ->
  exists s', type_text (text_of f) s = (Ok tt, s') /\ entering (text_of f) acc pending s'.
Proof.
  intros [[H1 H2 H3 H4] Hn He Hz Hd] Hr. unfold text_of, form_digits in *. rewrite Hn, He in *. cbn [sign_text exp_text exp_digits app] in *.
  rewrite app_nil_r. change (zlen (@nil Z)) with 0 in Hd. destruct (f_int f) as [|c ip]; [done|]. apply Forall_cons in H1 as [Hc Hip]. rewrite zlen_cons in Hd.
  pose proof (zlen_nonneg ip). pose proof (zlen_nonneg (frac_digits (f_frac f))).
  assert (C1 : digit_count [c] = 1) by (rewrite digit_count_digits by (by apply Forall_cons); done).
  destruct (type_first c s acc pending Hc Hr) as (s1 & E1 & He1).
  destruct (type_digits ip [c] s1 acc pending Hip He1) as (s2 & E2 & He2); [lia|done| |intros x E; injection E as ->; unfold is_digit_char in Hc; lia|].
  { destruct (decide (c = 48)) as [->|Hc0]; [left; specialize (Hz eq_refl); by injection Hz|right; intros E; injection E as ->; done]. }
  assert (E12 : type_text (c :: ip) s = (Ok tt, s2)) by (change (c :: ip) with ([c] ++ ip); by rewrite (type_text_app [c] ip s s1 E1)).
  change ([c] ++ ip) with (c :: ip) in He2.
  destruct (f_frac f) as [fs|]; [|cbn [frac_text]; rewrite app_nil_r; by exists s2]. cbn [frac_text frac_digits] in *.
  assert (Hci : Forall is_digit_char (c :: ip)) by (by apply Forall_cons).
  assert (Low : ascii_lower (c :: ip) = c :: ip).
  { pose proof (text_lower (mkform false (c :: ip) None None)) as L. unfold text_of in L. cbn [f_neg f_int f_frac f_exp sign_text frac_text exp_text app] in L.
    rewrite !app_nil_r in L. apply L. by split. }
  destruct (type_point (c :: ip) s2 acc pending He2) as (s3 & E3 & He3); [apply has_char_digits; [done|lia]|rewrite Low; apply has_char_digits; [done|lia]|].
  destruct (type_digits fs ((c :: ip) ++ [46]) s3 acc pending H3 He3) as (s4 & E4 & He4).
  - rewrite digit_count_app, (digit_count_digits (c :: ip)), zlen_cons by done. rewrite (digit_count_cons 46 []) by done. change (digit_count []) with 0. lia.
  - done.
  - right. intros E. cbn in E. injection E as _ E. by destruct ip.
  - intros x E. injection E as -> _. unfold is_digit_char in Hc. lia.
  - exists s4. rewrite (type_text_app (c :: ip) (46 :: fs) s s2 E12). change (46 :: fs) with ([46] ++ fs).
    rewrite (type_text_app [46] fs s2 s3 E3). split; [done|]. by rewrite <- app_assoc in He4.
Qed.

Lemma literal_value f : literal f -> dec_of_str (text_of f) = Ok (form_value f) /\ dec_ok (form_value f) /\
  exists t, formatnumber (form_value f) = Ok t.
Proof.
  intros [Hok Hn He _ Hd]. destruct (dec_of_text f Hok) as [E _]. split; [apply E; unfold is_number; by rewrite He|].
  pose proof (form_value_ok f Hok) as Hv. split; [done|].
  destruct (Z.eq_dec (d_int (form_value f)) 0) as [E0|E0]; [exists (lit "0"); unfold formatnumber, is_zero; by rewrite E0|].
  destruct (format_accurate (form_value f) Hv) as (t & _ & Et & _); [|by exists t].
  unfold adjusted. pose proof (ndigits_pos (d_int (form_value f)) Hv). pose proof (fo_int f Hok). pose proof (fo_frac f Hok).
  assert (ndigits (d_int (form_value f)) <= 16).
  { apply ndigits_le; [|lia]. cbn [d_int form_value]. destruct (digits_val_bounds (f_int f ++ frac_digits (f_frac f))) as [B1 B2]; [by apply Forall_app|].
    split; [done|]. unfold form_digits, MAXINPUTDIGITS in Hd. pose proof (zlen_nonneg (exp_digits (f_exp f))).
    pose proof (Z.pow_le_mono_r 10 (zlen (f_int f ++ frac_digits (f_frac f))) 16 ltac:(lia) ltac:(rewrite zlen_app; lia)). lia. }
  assert (-16 <= d_exp (form_value f) <= 0).
  { cbn [d_exp form_value]. rewrite He. cbn [exp_value]. unfold form_digits, MAXINPUTDIGITS in Hd. pose proof (zlen_nonneg (exp_digits (f_exp f))).
    pose proof (zlen_nonneg (f_int f)). pose proof (zlen_nonneg (frac_digits (f_frac f))). lia. }
  unfold EMIN, EMAX. lia.
Qed.

(** The operator keys. *)
Lemma operator_action p : keys_of_operator p -> exists c sign, p = [c] /\ text_action c = Some (lit "operator:" ++ p) /\
  operator_sign p = Some sign /\ (forall s, act (lit "operator:" ++ p) s = chooseoperator p s).
Proof. intros [->|[->|[->| ->]]]; do 2 eexists; by split_and!. Qed.

(** An operator after the first operand, and after a further one. *)
Lemma choose_first p f s : keys_of_operator p -> literal f -> entering (text_of f) None None s ->
  exists s', type_text p s = (Ok tt, s') /\ ready (Some (form_value f)) (Some p) s'.
Proof.
  intros Hp Hf [H0 H1 H2 H3 H4]. destruct (operator_action p Hp) as (c & sign & -> & Ht & Hs & Ha). destruct (literal_value f Hf) as (Ev & Hv & t & Et).
  eexists. split; [eapply type_text_one; [exact Ht|]|].
  - rewrite Ha. unfold chooseoperator. rewrite Hs. unfold mbind, c_bind, cget, has_error. rewrite H4. change (str_eqb [] []) with true. cbn [negb].
    rewrite H2. cbn [is_none negb andb]. unfold currentvalue, mbind, c_bind, cget, has_error. rewrite H4. change (str_eqb [] []) with true. cbn [negb orb].
    rewrite H0. assert (str_eqb (text_of f) (lit "error") = false) as ->.
    { apply bool_decide_eq_false_2. intros E. rewrite E in Ev. by vm_compute in Ev. }
    unfold clift. rewrite Ev. unfold mret, c_ret, cset, cformat, clift. cbn [decimal_of mbind res_bind]. rewrite Et. reflexivity.
  - by split; calc_cbn.
Qed.

Lemma choose_next p q f v r s : keys_of_operator p -> literal f -> entering (text_of f) (Some v) (Some q) s ->
  applyoperation v q (form_value f) = Ok r -> is_ok (formatnumber r) = true ->
  exists s', type_text p s = (Ok tt, s') /\ ready (Some r) (Some p) s'.
Proof.
  intros Hp Hf [H0 H1 H2 H3 H4] Er Hok. destruct (operator_action p Hp) as (c & sign & -> & Ht & Hs & Ha). destruct (literal_value f Hf) as (Ev & Hv & _).
  destruct (formatnumber r) as [t|] eqn:Et; [|done].
  eexists. split; [eapply type_text_one; [exact Ht|]|].
  - rewrite Ha. unfold chooseoperator. rewrite Hs. unfold mbind, c_bind, cget, has_error. rewrite H4. change (str_eqb [] []) with true. cbn [negb].
    rewrite H2, H3. cbn [is_none negb andb]. unfold currentvalue, mbind, c_bind, cget, has_error. rewrite H4. change (str_eqb [] []) with true. cbn [negb orb].
    rewrite H0. assert (str_eqb (text_of f) (lit "error") = false) as ->.
    { apply bool_decide_eq_false_2. intros E. rewrite E in Ev. by vm_compute in Ev. }
    unfold clift. rewrite Ev, H1, Er, Et. unfold mret, c_ret, cset, cformat, clift. cbn [decimal_of mbind res_bind]. rewrite Et. reflexivity.
  - by split; calc_cbn.
Qed.

Definition step_ok (x : pystr * form) : Prop := keys_of_operator x.1 /\ literal x.2.

Lemma type_chain l : forall v q f s u p g, ready (Some v) (Some q) s -> literal f -> Forall step_ok l ->
  evaluate v (removelast ((q, f) :: l)) = Ok u -> List.last ((q, f) :: l) (p, g) = (p, g) ->
  exists s', type_text (text_of f ++ List.concat (List.map (fun x => x.1 ++ text_of x.2) l)) s = (Ok tt, s') /\
    entering (text_of g) (Some u) (Some p) s'.
Proof.
  induction l as [|[q' f'] l IH]; intros v q f s u p g Hr Hf Hl He Hlast; destruct (type_literal f s _ _ Hf Hr) as (s1 & E1 & H1).
  - cbn [removelast evaluate] in He. injection He as ->. cbn [List.last] in Hlast. injection Hlast as -> ->.
    exists s1. cbn [List.map List.concat]. by rewrite app_nil_r.
  - apply Forall_cons in Hl as [[Hq Hf'] Hl]. cbn [fst snd] in *. change (removelast ((q, f) :: (q', f') :: l)) with ((q, f) :: removelast ((q', f') :: l)) in He.
    cbn [evaluate] in He. destruct (applyoperation v q (form_value f)) as [r|] eqn:Er; [|done]. cbn [mbind res_bind] in He.
    destruct (formatnumber r) as [t|] eqn:Et; [|done]. cbn [mbind res_bind] in He.
    destruct (choose_next q' q f v r s1 Hq Hf H1 Er) as (s2 & E2 & H2); [by rewrite Et|].
    destruct (IH r q' f' s2 u p g H2 Hf' Hl He Hlast) as (s3 & E3 & H3). exists s3. split; [|done].
    cbn [List.map List.concat fst snd]. rewrite (type_text_app _ _ _ _ E1), <- app_assoc, (type_text_app _ _ _ _ E2). done.
Qed.

(** What [=] shows for the last operation. *)
Definition shows_outcome (r : res pystr) (s : calc) : Prop :=
  match r with
  | Ok t => DISPLAY s = t /\ ERROR s = []
  | Exc DivisionByZero => DISPLAY s = lit "error" /\ ERROR s = lit "cannot divide by zero"
  | Exc _ => DISPLAY s = lit "error" /\ ERROR s = lit "calculation error"
  end.

Lemma equals_shows u p g s : keys_of_operator p -> literal g -> is_ok (formatnumber u) = true -> entering (text_of g) (Some u) (Some p) s ->
  exists s', type_text (lit "=") s = (Ok tt, s') /\ NEWINPUT s' = true /\ PENDING s' = None /\
    shows_outcome (r ← applyoperation u p (form_value g); formatnumber r) s'.
Proof.
  intros Hp Hg Hu [H0 H1 H2 H3 H4]. destruct (operator_action p Hp) as (c & sign & -> & _ & Hs & _). destruct (literal_value g Hg) as (Ev & Hv & t & Et).
  destruct (formatnumber u) as [tu|] eqn:Eu; [|done].
  change (lit "=") with [61]. cbn [type_text]. change (text_action 61) with (Some (lit "equals")). cbn [press_if].
  assert (forall r, press (lit "equals") s = (Ok tt, r) -> (press (lit "equals");; mret tt) s = (Ok tt, r)) as Hm.
  { intros r E. unfold mbind, c_bind. by rewrite E. }
  assert (equals s = (match applyoperation u [c] (form_value g) with Ok r => calculation u [c] (form_value g) ;; cset (set_LASTOPERATOR (Some [c])) ;;
      cset (set_LASTOPERAND (Some (form_value g))) ;; cset (set_PENDING None) ;; cset (set_ACCUMULATOR None) ;;
      (t ← clift (formatnumber r); cset (set_DISPLAY t) ;; cset (set_NEWINPUT true)) | Exc e => craise e end) s) as Eq.
  { unfold equals. unfold mbind, c_bind, cget, has_error. rewrite H4. change (str_eqb [] []) with true. cbn [negb].
    rewrite H2, H1. unfold mret, c_ret. rewrite H3. unfold currentvalue, mbind, c_bind, cget, has_error. rewrite H4. change (str_eqb [] []) with true. cbn [negb orb].
    rewrite H0. assert (str_eqb (text_of g) (lit "error") = false) as ->.
    { apply bool_decide_eq_false_2. intros E. rewrite E in Ev. by vm_compute in Ev. }
    unfold clift. rewrite Ev. by destruct (applyoperation u [c] (form_value g)). }
  assert (Ea : act (lit "equals") s = equals s) by reflexivity. unfold press in *. rewrite Ea, Eq in *.
  destruct (applyoperation u [c] (form_value g)) as [r|e] eqn:Er.
  - cbn [mbind res_bind]. unfold calculation, sign_of in *. rewrite Hs in *. unfold mbind, c_bind, clift, cset in *. rewrite Eu, Et in *.
    destruct (formatnumber r) as [tr|e] eqn:Etr.
    + eexists. split; [apply Hm; reflexivity|]. by split_and!.
    + pose proof (formatnumber_caught r e Etr) as [->|Hc].
      * eexists. split; [apply Hm; reflexivity|]. by split_and!.
      * destruct e; try done; (eexists; split; [apply Hm; reflexivity|]; by split_and!).
  - cbn [mbind res_bind]. pose proof (applyoperation_caught u [c] (form_value g) e Er) as [->|Hc].
    + eexists. split; [apply Hm; reflexivity|]. by split_and!.
    + destruct e; try done; (eexists; split; [apply Hm; reflexivity|]; by split_and!).
Qed.

(** C25: typing operands of at most 16 digits with operators between them and [=]
    applies the operators from left to right in decimal arithmetic of 40 digits and
    shows the result, or the error of the last operation. *)
Theorem keys_evaluate a l p g u : literal a -> Forall step_ok (l ++ [(p, g)]) -> evaluate (form_value a) l = Ok u ->
  exists s, type_text (typed a (l ++ [(p, g)]) ++ lit "=") initial = (Ok tt, s) /\
    shows_outcome (r ← applyoperation u p (form_value g); formatnumber r) s.
Proof.
  intros Ha Hl He. destruct (type_literal a initial None None Ha) as (s1 & E1 & H1); [by split|].
  assert (Hu : is_ok (formatnumber u) = true).
  { assert (G : forall v, is_ok (formatnumber v) = true -> evaluate v l = Ok u -> is_ok (formatnumber u) = true).
    { clear -l. induction l as [|[q f] l IH]; intros v Hv E; [by injection E as <-|]. cbn [evaluate] in E.
      destruct (applyoperation v q (form_value f)) as [r|]; [|done]. cbn [mbind res_bind] in E.
      destruct (formatnumber r) eqn:Er; [|done]. cbn [mbind res_bind] in E. apply (IH r); [by rewrite Er|done]. }
    destruct (literal_value a Ha) as (_ & _ & t & Et). apply (G (form_value a)); [by rewrite Et|done]. }
  assert (Hg : step_ok (p, g)) by (rewrite Forall_forall in Hl; apply Hl, elem_of_app; right; by apply list_elem_of_singleton).
  assert (exists q f l', l ++ [(p, g)] = (q, f) :: l') as (q & f & l' & El) by (destruct l as [|[q f] l]; eauto).
  rewrite El in Hl. apply Forall_cons in Hl as [[Hq Hf] Hl]. cbn [fst snd] in *.
  destruct (choose_first q a s1 Hq Ha H1) as (s2 & E2 & H2).
  destruct (type_chain l' (form_value a) q f s2 u p g H2 Hf Hl) as (s3 & E3 & H3).
  { rewrite <- El, removelast_last. done. } { by rewrite <- El, last_last. }
  destruct Hg as [Hp Hg]. destruct (equals_shows u p g s3 Hp Hg Hu H3) as (s4 & E4 & _ & _ & H4). exists s4. split; [|done].
  unfold typed. rewrite El. cbn [List.map List.concat fst snd]. rewrite <- !app_assoc, (type_text_app _ _ _ _ E1), (type_text_app _ _ _ _ E2), app_assoc.
  by rewrite (type_text_app _ _ _ _ E3).
Qed.

End Evaluation.

(** ** The buttons *)

(** The tracks of columns and rows follow each other with gaps. *)
Lemma tracks_spec n start size gap stop : 1 <= size -> 0 <= gap ->
  List.length (tracks n start size gap stop) = n /\
  (forall i, (i < n)%nat -> start <= (track (tracks n start size gap stop) i).1 /\ 1 <= (track (tracks n start size gap stop) i).2) /\
  (forall i j, (i < j < n)%nat -> (track (tracks n start size gap stop) i).1 + (track (tracks n start size gap stop) i).2 + gap <=
     (track (tracks n start size gap stop) j).1) /\
  (start + Z.of_nat n * size + (Z.of_nat n - 1) * gap <= stop -> forall i, (i < n)%nat ->
     (track (tracks n start size gap stop) i).1 + (track (tracks n start size gap stop) i).2 <= stop).
Proof.
  intros Hs Hg. revert start. induction n as [|[|n] IH]; intros start; [split_and!; try done; intros; lia| |].
  - cbn [tracks List.length]. unfold track. split_and!; [done|intros [|i] Hi; cbn [nth fst snd]; lia|intros; lia|intros Hfit [|i] Hi; cbn [nth fst snd]; lia].
  - destruct (IH (start + size + gap)) as (L & I1 & I2 & I3). cbn [tracks List.length] in *. unfold track in *. split_and!; [lia| | |].
    + intros [|i] Hi; [cbn [nth fst snd]; lia|]. specialize (I1 i ltac:(lia)). cbn [nth]. lia.
    + intros [|i] [|j] Hij; try lia; cbn [nth].
      * specialize (I1 j ltac:(lia)). cbn [fst snd]. lia.
      * apply I2. lia.
    + intros Hfit [|i] Hi; [cbn [nth fst snd]; nia|]. apply I3; [|lia]. nia.
Qed.

Lemma columns_spec l : 0 <= GAP l ->
  (forall i, (i < 4)%nat -> PAD l <= (track (columns l) i).1 /\ 1 <= (track (columns l) i).2) /\
  (forall i j, (i < j < 4)%nat -> (track (columns l) i).1 + (track (columns l) i).2 + GAP l <= (track (columns l) j).1) /\
  (PAD l * 2 + GAP l * 3 + 4 <= WINW l -> forall i, (i < 4)%nat -> (track (columns l) i).1 + (track (columns l) i).2 <= WINW l - PAD l).
Proof.
  intros Hg. unfold columns. set (aw := Z.max 4 _). destruct (tracks_spec 4 (PAD l) (Z.max 1 (aw / 4)) (GAP l) (WINW l - PAD l) ltac:(lia) Hg) as (_ & T1 & T2 & T3).
  split; [exact T1|]. split; [exact T2|]. intros Hw. apply T3. change (Z.of_nat 4) with 4.
  pose proof (Z.mul_div_le aw 4 ltac:(lia)). lia.
Qed.

Lemma rows_spec l : 0 <= GAP l -> let top := PAD l + r_h (displayrect l) + GAP l in
  (forall i, (i < 5)%nat -> top <= (track (rows l) i).1 /\ 1 <= (track (rows l) i).2) /\
  (forall i j, (i < j < 5)%nat -> (track (rows l) i).1 + (track (rows l) i).2 + GAP l <= (track (rows l) j).1) /\
  (top + GAP l * 4 + 5 <= WINH l - PAD l -> forall i, (i < 5)%nat -> (track (rows l) i).1 + (track (rows l) i).2 <= WINH l - PAD l).
Proof.
  intros Hg top. unfold rows. change (r_y (displayrect l) + r_h (displayrect l) + GAP l) with top.
  set (bottom := Z.max (top + 5) (WINH l - PAD l)). set (ah := Z.max 5 _).
  destruct (tracks_spec 5 top (Z.max 1 (ah / 5)) (GAP l) bottom ltac:(lia) Hg) as (_ & T1 & T2 & T3).
  split; [exact T1|]. split; [exact T2|]. intros Hh. assert (bottom = WINH l - PAD l) as Eb by (unfold bottom; lia). rewrite <- Eb. apply T3.
  change (Z.of_nat 5) with 5. pose proof (Z.mul_div_le ah 5 ltac:(lia)). lia.
Qed.

(** The cells of two buttons overlap only if they are the same button. *)
Definition cells_overlap (d d' : pystr * nat * nat * nat) : bool :=
  let '(_, r, c, n) := d in let '(_, r', c', n') := d' in
  (r =? r')%nat && negb (c + n <=? c')%nat && negb (c' + n' <=? c)%nat.

Lemma definitions_cells d : d ∈ definitions -> let '(_, r, c, n) := d in (r < 5 /\ 1 <= n /\ c + n <= 4)%nat /\
  forall d', d' ∈ definitions -> cells_overlap d d' = true -> d' = d.
Proof.
  intros Hd.
  assert (G : forallb (fun d => let '(_, r, c, n) := d in (r <? 5)%nat && (1 <=? n)%nat && (c + n <=? 4)%nat &&
    forallb (fun d' => negb (cells_overlap d d') || bool_decide (d' = d)) definitions) definitions = true) by reflexivity.
  rewrite forallb_forall in G. apply list_elem_of_In in Hd. specialize (G d Hd). destruct d as [[[a r] c] n].
  apply andb_true_iff in G as [[[G1%Nat.ltb_lt G3%Nat.leb_le]%andb_true_iff G4%Nat.leb_le]%andb_true_iff G2]. split; [done|]. intros d' Hd' Ho. rewrite forallb_forall in G2. apply list_elem_of_In in Hd'.
  specialize (G2 d' Hd'). rewrite Ho in G2. cbn [negb orb] in G2. by apply bool_decide_eq_true in G2.
Qed.

Definition defined_button (l : layout) (d : pystr * nat * nat * nat) : pystr * rect :=
  let '(a, r, c, n) := d in (a, button_rect l r c n).

(** Where a button is: from its first column to the end of its last. *)
Lemma button_rect_spec l r c n : 0 <= GAP l -> (r < 5)%nat -> (1 <= n)%nat -> (c + n <= 4)%nat ->
  let b := button_rect l r c n in
  r_x b = (track (columns l) c).1 /\ r_x b + r_w b = (track (columns l) (c + n - 1)).1 + (track (columns l) (c + n - 1)).2 /\
  r_y b = (track (rows l) r).1 /\ r_h b = (track (rows l) r).2.
Proof.
  intros Hg Hr Hn Hc. unfold button_rect. destruct (columns_spec l Hg) as (C1 & C2 & _).
  destruct (track (rows l) r) as [y h]. cbn [r_x r_w r_y r_h fst snd]. split_and!; try done.
  pose proof (C1 (c + n - 1)%nat ltac:(lia)). destruct (decide (n = 1%nat)) as [->|Hn1].
  - replace (c + 1 - 1)%nat with c in * by lia. lia.
  - pose proof (C2 c (c + n - 1)%nat ltac:(lia)). pose proof (C1 c ltac:(lia)). lia.
Qed.

Lemma find_unique {A} (p : A -> bool) l x : x ∈ l -> p x = true -> (forall y, y ∈ l -> p y = true -> y = x) -> List.find p l = Some x.
Proof.
  intros Hx Hp Hu. destruct (List.find p l) as [y|] eqn:E.
  - apply find_some in E as [Hy Py]. f_equal. apply Hu; [by apply list_elem_of_In|done].
  - apply list_elem_of_In in Hx. by rewrite (find_none p l E x Hx) in Hp.
Qed.

(** C29: for any size of the window, a point of a button is a point of no other: the
    button found there is that one; and when the window has room, the buttons lie
    below the display and inside the margins. *)
Theorem button_found l x y action r : 0 <= GAP l -> (action, r) ∈ buttons l ->
  (pointin x y r = true -> buttonat l x y = Some action) /\
  (PAD l * 2 + GAP l * 3 + 4 <= WINW l -> PAD l + r_h (displayrect l) + GAP l * 5 + 5 <= WINH l - PAD l ->
   PAD l <= r_x r /\ r_x r + r_w r <= WINW l - PAD l /\
   PAD l + r_h (displayrect l) + GAP l <= r_y r /\ r_y r + r_h r <= WINH l - PAD l).
Proof.
  intros Hg Hb. assert (Eb : buttons l = List.map (defined_button l) definitions) by reflexivity.
  rewrite Eb in Hb. apply list_elem_of_In, in_map_iff in Hb as (d & Ed & Hd). apply list_elem_of_In in Hd.
  pose proof (definitions_cells d Hd) as Hc. destruct d as [[[a i] c] n]. destruct Hc as [(Hi & Hn & Hcn) Hu]. cbn [defined_button] in Ed. injection Ed as -> <-.
  destruct (button_rect_spec l i c n Hg Hi Hn Hcn) as (X1 & X2 & Y1 & Y2). destruct (columns_spec l Hg) as (C1 & C2 & C3). destruct (rows_spec l Hg) as (R1 & R2 & R3).
  cbn zeta in *. split.
  - intros Hp. unfold buttonat. rewrite (find_unique _ _ (action, button_rect l i c n)); [done| |done|].
    + rewrite Eb. apply list_elem_of_In, in_map_iff. exists (action, i, c, n). by rewrite <- list_elem_of_In.
    + intros b Hb Hpb. rewrite Eb in Hb. apply list_elem_of_In, in_map_iff in Hb as (d' & <- & Hd'). apply list_elem_of_In in Hd'.
      pose proof (definitions_cells d' Hd') as Hc'. destruct d' as [[[a' i'] c'] n']. destruct Hc' as [(Hi' & Hn' & Hcn') _]. cbn [defined_button] in *. cbn [snd] in Hpb.
      destruct (button_rect_spec l i' c' n' Hg Hi' Hn' Hcn') as (X1' & X2' & Y1' & Y2').
      assert ((a', i', c', n') = (action, i, c, n)) as [= -> -> -> ->]; [|done]. apply Hu; [done|]. unfold cells_overlap, pointin in *.
      apply andb_true_iff. split; [apply andb_true_iff; split|].
      * apply Nat.eqb_eq. destruct (Nat.lt_trichotomy i i') as [Hlt|[E|Hlt]]; [specialize (R2 i i' ltac:(lia)); lia|done|specialize (R2 i' i ltac:(lia)); lia].
      * apply negb_true_iff, Nat.leb_gt. destruct (Nat.le_gt_cases (c + n) c') as [Hle|]; [|lia]. specialize (C2 (c + n - 1)%nat c' ltac:(lia)). lia.
      * apply negb_true_iff, Nat.leb_gt. destruct (Nat.le_gt_cases (c' + n') c) as [Hle|]; [|lia]. specialize (C2 (c' + n' - 1)%nat c ltac:(lia)). lia.
  - intros Hw Hh. pose proof (C1 c ltac:(lia)). pose proof (C3 Hw (c + n - 1)%nat ltac:(lia)). pose proof (R1 i Hi). pose proof (R3 ltac:(lia) i Hi). lia.
Qed.

(** ** Instances *)

Definition ascii_digits : Digits := {| isdigit := ascii_digit |}.
Lemma ascii_digits_laws : DigitsLaws ascii_digits.
Proof. by split. Qed.

(** One third at 40 digits. *)
Definition third : decimal := mkdec false 3333333333333333333333333333333333333333 (-40).

Lemma display_accurate_witness :
  exists t d, formatnumber third = Ok t /\ zlen t <= MAXDISPLAYCHARS /\ dec_of_str t = Ok d /\
    rel_close 2000000 d third /\ (ndigits (d_int third) <= 28 -> has_char 101 t = false -> same_value d third).
Proof. apply (display_accurate third); [unfold dec_ok; cbn; lia|vm_compute; split; [discriminate|reflexivity]]. Defined.

Lemma operation_rounded_witness :
  let one := mkdec false 1 0 in let three := mkdec false 3 0 in
  dec_ok third /\ ndigits (d_int third) <= work_prec /\ let e := Z.min (d_exp one) (d_exp three) in
  (lit "/" = lit "+" /\ nearest work_prec (at_exp one e + at_exp three e) e third \/
   lit "/" = lit "-" /\ nearest work_prec (at_exp one e - at_exp three e) e third \/
   lit "/" = lit "*" /\ nearest work_prec (signed one * signed three) (d_exp one + d_exp three) third \/
   lit "/" = lit "/" /\ d_int three <> 0 /\ nearest_quotient one three third).
Proof.
  exact (operation_rounded (mkdec false 1 0) (lit "/") (mkdec false 3 0) third ltac:(unfold dec_ok; cbn; lia) ltac:(unfold dec_ok; cbn; lia)
    ltac:(vm_compute; reflexivity)).
Defined.

Definition base_layout : layout := w_layout first_window.

(** A session: the screen is announced, the window is there (a message cut between
    two reads), the keys that come in the same read as the window are dropped, and
    then a sum is typed. *)
Definition wire (messages : list pydict) : bytes := flat_map (fun m => json_dumps j_compact (PDict m) ++ [10]) messages.
Definition some_messages : bytes := wire
  [request "WELCOME" [("fb", PDict [(lit "w", PInt 3840); (lit "h", PInt 2160)])];
   request "WINDOW_CREATED" [("winid", PInt 7); ("buffer", PStr (lit "pixels")); ("w", PInt 840); ("h", PInt 1180)];
   request "KEY" [("key", PStr (lit "NUM7"))]; request "TEXT" [("text", PStr (lit "+5="))]]%string.
Definition some_turns : list turn :=
  [mkturn (Ok one) (Some (RData (ztake 150 some_messages))) (Some (Ok 3)) (Exc OSError);
   mkturn (Exc FileNotFoundError) (Some (RData (zdrop 150 some_messages))) None (Ok 1);
   mkturn (Ok one) (Some (RData (wire [request "TEXT" [("text", PStr (lit "7+5="))]]%string))) None (Ok 1)].

Lemma calculator_invariant_witness :
  let s := (main (U := ascii_unicode) (D := ascii_digits) 42 some_turns (Ok 0) (Ok 10) (Ok 1000) initial).2 in
  DISPLAY s = lit "12" /\ zlen (DISPLAY s) <= 20 /\
  is_ok (pulses (U := ascii_unicode) (D := ascii_digits) 42 (Ok one) [PDict (request "TEXT" [("text", PStr (lit "/0="))]%string)] first_window s).1 = true.
Proof.
  split; [vm_compute; reflexivity|].
  destruct (@calculator_invariant ascii_digits ascii_digits_laws ascii_unicode 42 some_turns (Ok 0) (Ok 10) (Ok 1000)) as (_ & H1 & H2).
  split; [exact H1|]. apply H2. apply Forall_cons. split; [vm_compute; reflexivity|by apply Forall_nil].
Defined.

(** A screen of twice the size doubles the measures; the window is asked for once. *)
Example session_scaled :
  let out := main (U := ascii_unicode) (D := ascii_digits) 42 some_turns (Ok 0) (Ok 0) (Exc OSError) initial in
  match out.1 with
  | Ok w => w_layout w = mklayout 840 1180 24 14 284 /\ WINID w = PInt 7 /\ NEEDWINDOW w = false
  | Exc _ => False
  end.
Proof. vm_compute. repeat split; reflexivity. Qed.

Definition operand (ip : string) (fp : option string) : form := mkform false (lit ip) (option_map lit fp) None.

Lemma operand_literal ip fp : forallb ascii_digit (lit ip) = true -> forallb ascii_digit (frac_digits (option_map lit fp)) = true ->
  lit ip <> [] -> (hd 0 (lit ip) = 48 -> lit ip = [48]) -> zlen (lit ip) + zlen (frac_digits (option_map lit fp)) <= 16 -> literal (operand ip fp).
Proof.
  intros H1%all_digits_spec H2%all_digits_spec H3 H4 H5. split; try done; try by split.
  unfold form_digits, operand, MAXINPUTDIGITS. cbn [f_int f_frac f_exp exp_digits]. change (zlen (@nil Z)) with 0. lia.
Qed.

Lemma keys_evaluate_witness :
  exists s, type_text (D := ascii_digits) (lit "12.5+3*4=") initial = (Ok tt, s) /\ shows_outcome (Ok (lit "62")) s.
Proof.
  refine (@keys_evaluate ascii_digits ascii_digits_laws (operand "12" (Some "5"%string)) [(lit "+", operand "3" None)] (lit "*") (operand "4" None)
    (mkdec false 155 (-1)) _ _ _).
  - apply operand_literal; vm_compute; try discriminate; reflexivity.
  - cbn [app]. apply Forall_cons. split; [split; [by left|apply operand_literal; vm_compute; try discriminate; reflexivity]|].
    apply Forall_cons. split; [split; [right; right; by left|apply operand_literal; vm_compute; try discriminate; reflexivity]|]. by apply Forall_nil.
  - vm_compute. reflexivity.
Defined.

Lemma button_found_witness :
  let r := button_rect base_layout 4 0 2 in
  (pointin 20 560 r = true -> buttonat base_layout 20 560 = Some (lit "digit:0")) /\
  (PAD base_layout * 2 + GAP base_layout * 3 + 4 <= WINW base_layout ->
   PAD base_layout + r_h (displayrect base_layout) + GAP base_layout * 5 + 5 <= WINH base_layout - PAD base_layout ->
   PAD base_layout <= r_x r /\ r_x r + r_w r <= WINW base_layout - PAD base_layout /\
   PAD base_layout + r_h (displayrect base_layout) + GAP base_layout <= r_y r /\ r_y r + r_h r <= WINH base_layout - PAD base_layout).
Proof.
  refine (button_found base_layout 20 560 (lit "digit:0") (button_rect base_layout 4 0 2) _ _); [cbn; lia|].
  apply list_elem_of_In. vm_compute. do 16 right. by left.
Defined.

(** A number in scientific form stays open for digits after the sign key or the
    percent key: they are added to the exponent. *)
Example exponent_typed :
  DISPLAY (presses (D := ascii_digits) (List.map lit ["digit:1"; "operator:/"; "digit:3"; "equals"; "sign"; "digit:5"]%string) initial).2 =
  lit "-3.3333333333e-15".
Proof. vm_compute. reflexivity. Qed.

(** The next operation starts from the text that is shown, not from the result. *)
Example shown_then_used :
  DISPLAY (type_text (D := ascii_digits) (lit "1/3*3=") initial).2 = lit "1" /\
  DISPLAY (type_text (D := ascii_digits) (lit "1/3=*3=") initial).2 = lit "0.99999999999".
Proof. vm_compute. split; reflexivity. Qed.
