(* ===== verification/PyB64.v ===== *)
(** Unpadded URL-safe base64 ([base64.urlsafe_b64encode] without its [=], and
    [base64.b64decode] with the alphabet [-_]) and hexadecimal text. *)

From stdpp Require Import base list.
From Stdlib Require Import ZArith Lia Bool String.
From S2P Require Import Prelude PyText PyVal PyJson.
Open Scope Z_scope.

(** ** Base64 *)

(** The character of a value below 64, and the value of a character. *)
Definition b64_char (n : Z) : Z :=
  if n <? 26 then 65 + n else if n <? 52 then 71 + n else if n <? 62 then n - 4
  else if n =? 62 then 45 else 95.
Definition b64_val (c : Z) : option Z :=
  if (65 <=? c) && (c <=? 90) then Some (c - 65)
  else if (97 <=? c) && (c <=? 122) then Some (c - 71)
  else if (48 <=? c) && (c <=? 57) then Some (c + 4)
  else if c =? 45 then Some 62
  else if c =? 95 then Some 63
  else None.

Fixpoint b64_encode (l : bytes) : pystr :=
  match l with
  | a :: b :: c :: r =>
      b64_char (Z.shiftr a 2) ::
      b64_char (Z.lor (Z.shiftl (Z.land a 3) 4) (Z.shiftr b 4)) ::
      b64_char (Z.lor (Z.shiftl (Z.land b 15) 2) (Z.shiftr c 6)) ::
      b64_char (Z.land c 63) :: b64_encode r
  | [a; b] =>
      [b64_char (Z.shiftr a 2); b64_char (Z.lor (Z.shiftl (Z.land a 3) 4) (Z.shiftr b 4));
       b64_char (Z.shiftl (Z.land b 15) 2)]
  | [a] => [b64_char (Z.shiftr a 2); b64_char (Z.shiftl (Z.land a 3) 4)]
  | [] => []
  end.

(** [base64.b64decode(v + '=' * (-len(v) % 4), altchars=b'-_', validate=True)]
    of text from the alphabet: a last group of one character, which three [=]
    cannot pad, is an error; the bits that do not fill a byte are dropped. *)
Fixpoint b64_decode (s : pystr) : res bytes :=
  match s with
  | [] => Ok []
  | a :: s1 =>
      match s1 with
      | [] => Exc ValueError
      | b :: s2 =>
          match b64_val a, b64_val b with
          | Some x, Some y =>
              let b0 := Z.lor (Z.shiftl x 2) (Z.shiftr y 4) in
              match s2 with
              | [] => Ok [b0]
              | c :: s3 =>
                  match b64_val c with
                  | Some z =>
                      let b1 := Z.lor (Z.shiftl (Z.land y 15) 4) (Z.shiftr z 2) in
                      match s3 with
                      | [] => Ok [b0; b1]
                      | d :: s4 =>
                          match b64_val d with
                          | Some t =>
                              let b2 := Z.lor (Z.shiftl (Z.land z 3) 6) t in
                              r ← b64_decode s4; Ok (b0 :: b1 :: b2 :: r)
                          | None => Exc ValueError
                          end
                      end
                  | None => Exc ValueError
                  end
              end
          | _, _ => Exc ValueError
          end
      end
  end.

(** ** Hexadecimal *)

(** [b.hex()]. *)
Definition hex_of (l : bytes) : pystr := flat_map (fun b => [hex_digit (b / 16); hex_digit (b mod 16)]) l.

(** [bytes.fromhex(s)] of text without white space. *)
Fixpoint from_hex (s : pystr) : res bytes :=
  match s with
  | [] => Ok []
  | a :: s1 =>
      match s1 with
      | b :: s2 =>
          match hex_val a, hex_val b with
          | Some x, Some y => r ← from_hex s2; Ok (16 * x + y :: r)
          | _, _ => Exc ValueError
          end
      | [] => Exc ValueError
      end
  end.

(** ** The round trip *)

Definition b64_alpha (c : Z) : bool := match b64_val c with Some _ => true | None => false end.

Lemma b64_val_char n : 0 <= n < 64 -> b64_val (b64_char n) = Some n.
Proof. intros. unfold b64_val, b64_char. split_if; try lia; f_equal; lia. Qed.

Lemma b64_char_alpha n : 0 <= n < 64 -> b64_alpha (b64_char n) = true.
Proof. intros H. unfold b64_alpha. by rewrite b64_val_char. Qed.

(** The 6-bit values of a group, with quotients and remainders for the bit
    operations. *)
Lemma land_low v n : 0 <= n -> Z.land v (Z.ones n) = v mod 2 ^ n.
Proof. intros. by apply Z.land_ones. Qed.

Ltac bits_to_arith :=
  change 3 with (Z.ones 2) in *; change 15 with (Z.ones 4) in *; change 63 with (Z.ones 6) in *;
  rewrite ?land_low, ?Z.shiftr_div_pow2 by lia;
  change (Z.ones 2) with 3 in *; change (Z.ones 4) with 15 in *; change (Z.ones 6) with 63 in *;
  change (2 ^ 2) with 4; change (2 ^ 4) with 16; change (2 ^ 6) with 64.

Lemma sextet1 a : is_byte a -> Z.shiftr a 2 = a / 4 /\ 0 <= a / 4 < 64.
Proof. unfold is_byte. intros. bits_to_arith. split; [done|]. split; [apply Z.div_pos|apply Z.div_lt_upper_bound]; lia. Qed.

Lemma sextet2 a b : is_byte b ->
  Z.lor (Z.shiftl (Z.land a 3) 4) (Z.shiftr b 4) = a mod 4 * 16 + b / 16 /\ 0 <= a mod 4 * 16 + b / 16 < 64.
Proof.
  unfold is_byte. intros. bits_to_arith.
  assert (0 <= b / 16 < 16) by (split; [apply Z.div_pos|apply Z.div_lt_upper_bound]; lia).
  pose proof (Z.mod_pos_bound a 4 ltac:(lia)). rewrite lor_shiftl_add by (simpl; lia). simpl. lia.
Qed.

Lemma sextet3 b c : is_byte c ->
  Z.lor (Z.shiftl (Z.land b 15) 2) (Z.shiftr c 6) = b mod 16 * 4 + c / 64 /\ 0 <= b mod 16 * 4 + c / 64 < 64.
Proof.
  unfold is_byte. intros. bits_to_arith.
  assert (0 <= c / 64 < 4) by (split; [apply Z.div_pos|apply Z.div_lt_upper_bound]; lia).
  pose proof (Z.mod_pos_bound b 16 ltac:(lia)). rewrite lor_shiftl_add by (simpl; lia). simpl. lia.
Qed.

Lemma sextet4 c : Z.land c 63 = c mod 64 /\ 0 <= c mod 64 < 64.
Proof. bits_to_arith. split; [done|]. apply Z.mod_pos_bound. lia. Qed.

Lemma is_byte_0 : is_byte 0.
Proof. unfold is_byte. lia. Qed.

(** A short last group is the group with zero bytes after it. *)
Lemma sextet2_last a : Z.shiftl (Z.land a 3) 4 = a mod 4 * 16 /\ 0 <= a mod 4 * 16 < 64.
Proof.
  destruct (sextet2 a 0 is_byte_0) as [H1 H2]. rewrite Z.shiftr_0_l, Z.lor_0_r in H1.
  change (0 / 16) with 0 in *. lia.
Qed.

Lemma sextet3_last b : Z.shiftl (Z.land b 15) 2 = b mod 16 * 4 /\ 0 <= b mod 16 * 4 < 64.
Proof.
  destruct (sextet3 b 0 is_byte_0) as [H1 H2]. rewrite Z.shiftr_0_l, Z.lor_0_r in H1.
  change (0 / 64) with 0 in *. lia.
Qed.

(** The bytes back from the 6-bit values. *)
Lemma octet1 a v : 0 <= v < 16 -> Z.lor (Z.shiftl (a / 4) 2) (Z.shiftr (a mod 4 * 16 + v) 4) = a.
Proof.
  intros. bits_to_arith. rewrite Z.div_add_l, (Z.div_small v 16), Z.add_0_r by lia.
  pose proof (Z.mod_pos_bound a 4 ltac:(lia)). rewrite lor_shiftl_add by (simpl; lia).
  pose proof (Z.div_mod a 4 ltac:(lia)). simpl. lia.
Qed.

Lemma octet2 a b v : 0 <= b < 256 -> 0 <= v < 4 ->
  Z.lor (Z.shiftl (Z.land (a mod 4 * 16 + b / 16) 15) 4) (Z.shiftr (b mod 16 * 4 + v) 2) = b.
Proof.
  intros Hb Hv. bits_to_arith. rewrite Z.div_add_l, (Z.div_small v 4), Z.add_0_r by lia.
  rewrite Z.add_comm, Z_mod_plus_full.
  assert (0 <= b / 16 < 16) by (split; [apply Z.div_pos|apply Z.div_lt_upper_bound]; lia).
  rewrite (Z.mod_small (b / 16)) by lia.
  pose proof (Z.mod_pos_bound b 16 ltac:(lia)). rewrite lor_shiftl_add by (simpl; lia).
  pose proof (Z.div_mod b 16 ltac:(lia)). simpl. lia.
Qed.

Lemma octet3 b c : 0 <= c < 256 -> Z.lor (Z.shiftl (Z.land (b mod 16 * 4 + c / 64) 3) 6) (c mod 64) = c.
Proof.
  intros Hc. bits_to_arith. rewrite Z.add_comm, Z_mod_plus_full.
  assert (0 <= c / 64 < 4) by (split; [apply Z.div_pos|apply Z.div_lt_upper_bound]; lia).
  rewrite (Z.mod_small (c / 64)) by lia.
  pose proof (Z.mod_pos_bound c 64 ltac:(lia)). rewrite lor_shiftl_add by (simpl; lia).
  pose proof (Z.div_mod c 64 ltac:(lia)). simpl. lia.
Qed.

(** Induction three bytes at a time. *)
Lemma bytes_ind3 (P : bytes -> Prop) :
  P [] -> (forall a, P [a]) -> (forall a b, P [a; b]) ->
  (forall a b c r, P r -> P (a :: b :: c :: r)) -> forall l, P l.
Proof. intros H0 H1 H2 H3. fix IH 1. intros [|a [|b [|c r]]]; [done|apply H1|apply H2|apply H3, IH]. Qed.

Lemma b64_roundtrip l : bytes_ok l -> b64_decode (b64_encode l) = Ok l.
Proof.
  induction l as [|a|a b|a b c r IH] using bytes_ind3; intros Hl; [done| | |].
  - apply Forall_cons in Hl as [Ha _]. cbn [b64_encode b64_decode].
    destruct (sextet1 a Ha) as [-> H1], (sextet2_last a) as [-> H2]. rewrite !b64_val_char by done.
    pose proof (octet1 a 0 ltac:(lia)) as E. rewrite Z.add_0_r in E. by rewrite E.
  - apply Forall_cons in Hl as [Ha [Hb _]%Forall_cons].
    cbn [b64_encode b64_decode].
    destruct (sextet1 a Ha) as [-> H1], (sextet2 a b Hb) as [-> H2], (sextet3_last b) as [-> H3].
    rewrite !b64_val_char by done.
    pose proof (octet2 a b 0 Hb ltac:(lia)) as E. rewrite Z.add_0_r in E.
    assert (0 <= b / 16 < 16) by (split; [apply Z.div_pos|apply Z.div_lt_upper_bound]; unfold is_byte in *; lia).
    by rewrite E, octet1.
  - apply Forall_cons in Hl as [Ha [Hb [Hc Hl]%Forall_cons]%Forall_cons].
    cbn [b64_encode b64_decode].
    destruct (sextet1 a Ha) as [-> H1], (sextet2 a b Hb) as [-> H2], (sextet3 b c Hc) as [-> H3],
      (sextet4 c) as [-> H4].
    rewrite !b64_val_char, IH by done. unfold is_byte in *.
    assert (0 <= b / 16 < 16) by (split; [apply Z.div_pos|apply Z.div_lt_upper_bound]; lia).
    assert (0 <= c / 64 < 4) by (split; [apply Z.div_pos|apply Z.div_lt_upper_bound]; lia).
    by rewrite octet1, octet2, octet3.
Qed.

Lemma b64_encode_alpha l : bytes_ok l -> Forall (fun c => b64_alpha c = true) (b64_encode l).
Proof.
  induction l as [|a|a b|a b c r IH] using bytes_ind3; intros Hl; cbn [b64_encode].
  - constructor.
  - apply Forall_cons in Hl as [Ha _]. destruct (sextet1 a Ha) as [-> H1], (sextet2_last a) as [-> H2].
    repeat constructor; by apply b64_char_alpha.
  - apply Forall_cons in Hl as [Ha [Hb _]%Forall_cons].
    destruct (sextet1 a Ha) as [-> H1], (sextet2 a b Hb) as [-> H2], (sextet3_last b) as [-> H3].
    repeat constructor; by apply b64_char_alpha.
  - apply Forall_cons in Hl as [Ha [Hb [Hc Hl]%Forall_cons]%Forall_cons].
    destruct (sextet1 a Ha) as [-> H1], (sextet2 a b Hb) as [-> H2], (sextet3 b c Hc) as [-> H3],
      (sextet4 c) as [-> H4].
    repeat (constructor; [by apply b64_char_alpha|]). by apply IH.
Qed.

(** Text length: four characters for each group of three bytes. *)
Lemma b64_encode_length l : 3 * zlen (b64_encode l) <= 4 * zlen l + 2 /\ 4 * zlen l <= 3 * zlen (b64_encode l).
Proof.
  induction l as [|a|a b|a b c r IH] using bytes_ind3; cbn [b64_encode]; unfold zlen in *; cbn [List.length]; lia.
Qed.

(** Every alphabet character is a printable ASCII letter, digit, [-] or [_]. *)
Lemma b64_alpha_char c : b64_alpha c = true ->
  c = 45 \/ c = 95 \/ ascii_alnum c = true.
Proof. unfold b64_alpha, b64_val, ascii_alnum, ascii_alpha, ascii_digit. split_if; lia. Qed.

(** ** Hexadecimal *)

Lemma hex_roundtrip l : bytes_ok l -> from_hex (hex_of l) = Ok l.
Proof.
  unfold hex_of. induction 1 as [|b l Hb Hl IH]; [done|]. unfold is_byte in Hb.
  cbn [flat_map app from_hex]. rewrite !hex_val_digit, IH.
  - cbn [mbind res_bind]. pose proof (Z.div_mod b 16 ltac:(lia)). do 2 f_equal. lia.
  - apply Z.mod_pos_bound. lia.
  - split; [apply Z.div_pos|apply Z.div_lt_upper_bound]; lia.
Qed.
