(* ===== verification/Credential.v ===== *)
(** Names, passwords and stored hashes of the broker
    ([broker/broker.py], [canonicalize_username] to [password_needs_upgrade]).

    The key derivation functions are C code outside the repository (libargon2,
    OpenSSL), and so is the Unicode database behind NFKC: they are the class
    [Kdf], with the facts the code relies on in [KdfLaws]. *)

From stdpp Require Import base list option.
From Stdlib Require Import ZArith Lia Bool String.
From S2P Require Import Prelude PyText PyVal PyJson PyStr PyFs PyPath PyB64.
Open Scope Z_scope.

(** ** Constants *)

Definition MIN_NEW_PASSWORD_CHARS : Z := 4.
Definition MAX_PASSWORD_CHARS : Z := 32.
Definition MAX_PASSWORD_BYTES : Z := 128.
Definition MAX_CREDENTIAL_BYTES : Z := 4096.
Definition ARGON2_TIME_COST : Z := 3.
Definition ARGON2_MEMORY_KIB : Z := 65536.
Definition ARGON2_PARALLELISM : Z := 1.
Definition ARGON2_HASH_BYTES : Z := 32.
Definition ARGON2_SALT_BYTES : nat := 16.
Definition ARGON2_TIME_BOUNDS : Z * Z := (2, 6).
Definition ARGON2_MEMORY_BOUNDS : Z * Z := (32768, 262144).
Definition ARGON2_PARALLELISM_BOUNDS : Z * Z := (1, 4).
Definition SCRYPT_N : Z := 32768.
Definition SCRYPT_R : Z := 8.
Definition SCRYPT_P : Z := 1.
Definition SCRYPT_N_BOUNDS : Z * Z := (16384, 65536).
Definition SCRYPT_P_BOUNDS : Z * Z := (1, 2).
Definition LEGACY_PBKDF2_ALGORITHM : pystr := lit "sha256".
Definition LEGACY_PBKDF2_ITERATIONS : Z := 100000.

(** ** The patterns, as the whole-string matches the code makes *)

Definition between (lo hi : Z) (s : pystr) : bool := (lo <=? zlen s) && (zlen s <=? hi).

(** [[A-Za-z0-9][A-Za-z0-9._-]{0,31}] *)
Definition name_char (c : Z) : bool := ascii_alnum c || (c =? 46) || (c =? 95) || (c =? 45).
Definition _USERNAME_RE (s : pystr) : bool :=
  match s with
  | c :: s' => ascii_alnum c && forallb name_char s' && (zlen s' <=? 31)
  | [] => false
  end.
(** [[A-Za-z0-9_-]{43}] *)
Definition _TOKEN_RE (s : pystr) : bool := forallb b64_alpha s && (zlen s =? 43).
(** [[A-Za-z0-9_-]+] *)
Definition _B64_RE (s : pystr) : bool := forallb b64_alpha s && (1 <=? zlen s).
Definition is_hex (c : Z) : bool := match hex_val c with Some _ => true | None => false end.
Definition _HEX_32_RE (s : pystr) : bool := forallb is_hex s && (zlen s =? 32).
Definition _HEX_64_RE (s : pystr) : bool := forallb is_hex s && (zlen s =? 64).
(** [[a-z][a-z0-9.-]{0,63}] *)
Definition ascii_low (c : Z) : bool := (97 <=? c) && (c <=? 122).
Definition _SERVICE_RE (s : pystr) : bool :=
  match s with
  | c :: s' => ascii_low c
      && forallb (fun c => ascii_low c || ascii_digit c || (c =? 46) || (c =? 45)) s' && (zlen s' <=? 63)
  | [] => false
  end.

(** ** Code outside the repository *)

Class Kdf : Type := {
  nfkc : pystr -> pystr;                          (** [unicodedata.normalize("NFKC", s)] *)
  (** [argon2id_hash_raw]: time, memory, lanes, password, salt; status and
      output.  [None] when no library can be loaded. *)
  argon2id_hash_raw : option (Z -> Z -> Z -> bytes -> bytes -> Z * bytes);
  (** [hashlib.scrypt]: password, salt, n, r, p; it can raise. *)
  scrypt : bytes -> bytes -> Z -> Z -> Z -> res bytes;
  (** [hashlib.pbkdf2_hmac("sha256", ...)]: password, salt, iterations. *)
  pbkdf2_hmac : bytes -> bytes -> Z -> bytes;
  (** [hashlib.sha256(b).hexdigest()]. *)
  sha256hex : bytes -> pystr }.

(** The code relies on: NFKC leaves ASCII text alone; the functions return the
    32 bytes asked for; a SHA-256 digest is 64 lower-case hexadecimal digits. *)
Definition digest_ok (d : bytes) : Prop := bytes_ok d /\ zlen d = 32.
Definition is_lower_hex (c : Z) : bool := ascii_digit c || ((97 <=? c) && (c <=? 102)).
Class KdfLaws (K : Kdf) : Prop := {
  nfkc_ascii s : forallb is_ascii s = true -> nfkc s = s;
  argon2id_digest f t m p pw salt : argon2id_hash_raw = Some f -> digest_ok (f t m p pw salt).2;
  scrypt_digest pw salt n r p d : scrypt pw salt n r p = Ok d -> digest_ok d;
  sha256hex_text b : forallb is_lower_hex (sha256hex b) = true /\ zlen (sha256hex b) = 64 }.

Section Credential.
Context {K : Kdf}.

(** ** Names and passwords *)

Definition canonicalize_username (value : pyval) : res pystr :=
  match value with
  | PStr s =>
      let value := strip (nfkc s) in
      if negb (_USERNAME_RE value) then Exc ValueError else Ok value
  | _ => Exc ValueError
  end.

Definition _password_bytes (allow_short : bool) (password : pyval) : res bytes :=
  match password with
  | PStr s =>
      if has_char 0 s then Exc ValueError
      else if MAX_PASSWORD_CHARS <? zlen s then Exc ValueError
      else if negb allow_short && (zlen s <? MIN_NEW_PASSWORD_CHARS) then Exc ValueError
      else
        encoded ← utf8_encode s;
        if MAX_PASSWORD_BYTES <? zlen encoded then Exc ValueError else Ok encoded
  | _ => Exc ValueError
  end.

Definition validate_new_password (password : pyval) : res Z :=
  data ← _password_bytes false password; Ok (zlen data).

(** ** Fields *)

Definition _encode_b64 (data : bytes) : pystr := b64_encode data.

Definition _decode_b64 (value : pystr) (minimum maximum : Z) : res bytes :=
  if negb (_B64_RE value) then Exc ValueError
  else if (maximum + 2) / 3 * 4 <? zlen value then Exc ValueError
  else
    decoded ← b64_decode value;
    if negb ((minimum <=? zlen decoded) && (zlen decoded <=? maximum)) then Exc ValueError
    else if negb (str_eqb (_encode_b64 decoded) value) then Exc ValueError
    else Ok decoded.

Definition _bounded_integer (value : pystr) (bounds : Z * Z) : res Z :=
  if negb (forallb is_ascii value) || negb (forallb ascii_digit value && (1 <=? zlen value)) then Exc ValueError
  else if zlen (int_str bounds.2) <? zlen value then Exc ValueError
  else
    let number := digits_val value in
    if negb ((bounds.1 <=? number) && (number <=? bounds.2)) then Exc ValueError else Ok number.

(** ** Stored hashes *)

Inductive parsed : Type :=
| Argon2id (memory time parallelism : Z) (salt digest : bytes)
| Scrypt (n r parallelism : Z) (salt digest : bytes).

Definition argon2id_available : bool :=
  match argon2id_hash_raw with Some _ => true | None => false end.

Definition _argon2id (password salt : bytes) (time_cost memory_kib parallelism : Z) : res bytes :=
  match argon2id_hash_raw with
  | None => Exc AuthenticationError
  | Some f =>
      let '(result, output) := f time_cost memory_kib parallelism password salt in
      if negb (result =? 0) then Exc AuthenticationError else Ok output
  end.

(** [item.partition("=")[0]] and [[2]]. *)
Definition field_name (item : pystr) : pystr := (partition 61 item).1.1.
Definition field_value (item : pystr) : pystr := (partition 61 item).2.

Definition _parse_current_hash (stored : pyval) : res parsed :=
  match stored with
  | PStr s =>
      if (512 <? zlen s) || negb (forallb is_ascii s) then Exc ValueError
      else
        match split_on 36 s with
        | [p0; p1; p2; v0; v1; v2; v3; v4] =>
            let names := List.map field_name [v0; v1; v2; v3; v4] in
            if negb (str_eqb p0 (lit "t1auth")) || negb (str_eqb p1 (lit "v=1")) then Exc ValueError
            else if str_eqb p2 (lit "kdf=argon2id") then
              if negb (bool_decide (names = [lit "m"; lit "t"; lit "p"; lit "salt"; lit "hash"])) then Exc ValueError
              else
                memory ← _bounded_integer (field_value v0) ARGON2_MEMORY_BOUNDS;
                time_cost ← _bounded_integer (field_value v1) ARGON2_TIME_BOUNDS;
                parallelism ← _bounded_integer (field_value v2) ARGON2_PARALLELISM_BOUNDS;
                salt ← _decode_b64 (field_value v3) 16 32;
                digest ← _decode_b64 (field_value v4) ARGON2_HASH_BYTES ARGON2_HASH_BYTES;
                Ok (Argon2id memory time_cost parallelism salt digest)
            else if str_eqb p2 (lit "kdf=scrypt") then
              if negb (bool_decide (names = [lit "n"; lit "r"; lit "p"; lit "salt"; lit "hash"])) then Exc ValueError
              else
                n ← _bounded_integer (field_value v0) SCRYPT_N_BOUNDS;
                if negb (Z.land n (n - 1) =? 0) then Exc ValueError
                else
                  r ← _bounded_integer (field_value v1) (SCRYPT_R, SCRYPT_R);
                  parallelism ← _bounded_integer (field_value v2) SCRYPT_P_BOUNDS;
                  salt ← _decode_b64 (field_value v3) 16 32;
                  digest ← _decode_b64 (field_value v4) 32 32;
                  Ok (Scrypt n r parallelism salt digest)
            else Exc ValueError
        | _ => Exc ValueError
        end
  | _ => Exc ValueError
  end.

Definition _parse_legacy_hash (stored : pyval) : res (bytes * bytes) :=
  match stored with
  | PStr s =>
      if negb (zlen s =? 111) || negb (forallb is_ascii s) then Exc ValueError
      else
        match split_on 36 s with
        | [algorithm; iterations; salt_hex; digest_hex] =>
            if negb (str_eqb algorithm LEGACY_PBKDF2_ALGORITHM) then Exc ValueError
            else if negb (str_eqb iterations (int_str LEGACY_PBKDF2_ITERATIONS)) then Exc ValueError
            else if negb (_HEX_32_RE salt_hex) || negb (_HEX_64_RE digest_hex) then Exc ValueError
            else
              salt ← from_hex salt_hex;
              digest ← from_hex digest_hex;
              Ok (salt, digest)
        | _ => Exc ValueError
        end
  | _ => Exc ValueError
  end.

(** [stored.startswith("t1auth$")]; on another type it is an [AttributeError]. *)
Definition has_current_prefix (stored : pyval) : res bool :=
  match stored with PStr s => Ok (starts_with (lit "t1auth$") s) | _ => Exc AttributeError end.

Definition validate_stored_hash (stored : pyval) : bool :=
  is_ok (current ← has_current_prefix stored;
         if current : bool then _parse_current_hash stored ;; Ok tt
         else _parse_legacy_hash stored ;; Ok tt).

Definition argon2_text (salt digest : bytes) : pystr :=
  lit "t1auth$v=1$kdf=argon2id$m=" ++ int_str ARGON2_MEMORY_KIB ++ lit "$t=" ++ int_str ARGON2_TIME_COST
  ++ lit "$p=" ++ int_str ARGON2_PARALLELISM ++ lit "$salt=" ++ _encode_b64 salt ++ lit "$hash=" ++ _encode_b64 digest.

Definition scrypt_text (salt digest : bytes) : pystr :=
  lit "t1auth$v=1$kdf=scrypt$n=" ++ int_str SCRYPT_N ++ lit "$r=" ++ int_str SCRYPT_R
  ++ lit "$p=" ++ int_str SCRYPT_P ++ lit "$salt=" ++ _encode_b64 salt ++ lit "$hash=" ++ _encode_b64 digest.

Definition hash_password {OS : Os} (password : pyval) : IO pystr :=
  encoded ← lift (_password_bytes false password);
  salt ← os_urandom ARGON2_SALT_BYTES;
  if argon2id_available then
    digest ← lift (_argon2id encoded salt ARGON2_TIME_COST ARGON2_MEMORY_KIB ARGON2_PARALLELISM);
    mret (argon2_text salt digest)
  else
    digest ← lift (scrypt encoded salt SCRYPT_N SCRYPT_R SCRYPT_P);
    mret (scrypt_text salt digest).

(** [hmac.compare_digest(a, b)] *)
Definition compare_digest (a b : bytes) : bool := bool_decide (a = b).

(** The body of the [try]. *)
Definition verify_body (password stored : pyval) : res bool :=
  encoded ← _password_bytes true password;
  current ← has_current_prefix stored;
  if current : bool then
    p ← _parse_current_hash stored;
    match p with
    | Argon2id memory time parallelism salt digest =>
        actual ← _argon2id encoded salt time memory parallelism; Ok (compare_digest actual digest)
    | Scrypt n r parallelism salt digest =>
        actual ← scrypt encoded salt n r parallelism; Ok (compare_digest actual digest)
    end
  else
    '(salt, expected) ← _parse_legacy_hash stored;
    Ok (compare_digest (pbkdf2_hmac encoded salt LEGACY_PBKDF2_ITERATIONS) expected).

(** [except (AuthenticationError, AttributeError, TypeError, ValueError): return False] *)
Definition verify_caught (e : exn) : bool :=
  match e with AuthenticationError | AttributeError | TypeError => true | _ => is_valueerror e end.

Definition verify_password (password stored : pyval) : res bool :=
  match verify_body password stored with
  | Exc e => if verify_caught e then Ok false else Exc e
  | r => r
  end.

Definition password_needs_upgrade (stored : pyval) : bool :=
  match _parse_current_hash stored with
  | Exc _ => validate_stored_hash stored
  | Ok (Argon2id memory time parallelism _ _) =>
      negb (memory =? ARGON2_MEMORY_KIB) || negb (time =? ARGON2_TIME_COST)
      || negb (parallelism =? ARGON2_PARALLELISM)
  | Ok (Scrypt n r parallelism _ _) =>
      argon2id_available ||
      (negb (n =? SCRYPT_N) || negb (r =? SCRYPT_R) || negb (parallelism =? SCRYPT_P))
  end.

End Credential.
