(* ===== verification/CredentialSpec.v ===== *)
(** What makes the credentials of the broker correct: names are canonical,
    stored hashes parse to bounded parameters and only from their canonical form,
    a new hash verifies its password and asks for no upgrade. *)

From stdpp Require Import base option list.
From Stdlib Require Import ZArith Lia Bool String.
From S2P Require Import Prelude PyText PyVal PyJson PyStr PyFs PyPath PyB64 Credential.
Open Scope Z_scope.

(** Take a successful parse apart. *)
Ltac parse_steps H :=
  repeat match type of H with
  | (?m ≫= _) = Ok _ => let E := fresh "E" in destruct m eqn:E; [cbn [mbind res_bind] in H|done]
  | (if ?b then _ else _) = Ok _ => let E := fresh "E" in destruct b eqn:E; try done
  end.

Section Spec.
Context {K : Kdf} {L : KdfLaws K}.

(** ** Fields *)

Lemma b64_alpha_ascii c : b64_alpha c = true -> is_ascii c = true /\ c <> 36 /\ c <> 61.
Proof.
  intros [->|[->|H]]%b64_alpha_char; [by vm_compute| by vm_compute|].
  unfold is_ascii, ascii_alnum, ascii_alpha, ascii_digit in *. lia.
Qed.

Lemma encoded_regex d : bytes_ok d -> 1 <= zlen d -> _B64_RE (_encode_b64 d) = true.
Proof.
  intros Hd Hl. unfold _B64_RE, _encode_b64. apply andb_true_iff. split.
  - apply forallb_forall. intros c Hc. pose proof (b64_encode_alpha d Hd) as H.
    rewrite List.Forall_forall in H. by apply H.
  - pose proof (b64_encode_length d). lia.
Qed.

(** The base64 fields accept exactly the canonical encodings of byte strings of
    the lengths asked for. *)
Lemma decode_b64_encode d lo hi :
  bytes_ok d -> 1 <= zlen d -> lo <= zlen d <= hi -> _decode_b64 (_encode_b64 d) lo hi = Ok d.
Proof.
  intros Hd H1 Hl. unfold _decode_b64. rewrite encoded_regex by done. cbn [negb].
  pose proof (b64_encode_length d) as [Hu _].
  destruct (_ <? _) eqn:E.
  { exfalso. unfold _encode_b64 in E. pose proof (Z.div_mod (hi + 2) 3 ltac:(lia)).
    pose proof (Z.mod_pos_bound (hi + 2) 3 ltac:(lia)). lia. }
  unfold _encode_b64 at 1. rewrite b64_roundtrip by done. cbn [mbind res_bind].
  rewrite str_eqb_refl. destruct (_ && _) eqn:E2; [done|lia].
Qed.

Lemma decode_b64_inv v lo hi d : _decode_b64 v lo hi = Ok d -> v = _encode_b64 d /\ lo <= zlen d <= hi.
Proof.
  unfold _decode_b64. destruct (_B64_RE v); [|done]. cbn [negb].
  destruct (_ <? _); [done|]. destruct (b64_decode v) as [x|]; [|done]. cbn [mbind res_bind].
  destruct (_ && _) eqn:E; [|done]. cbn [negb].
  destruct (str_eqb _ v) eqn:E2; [|done]. cbn [negb]. apply str_eqb_eq in E2.
  intros [= <-]. split; [done|lia].
Qed.

Lemma b64_val_range c x : b64_val c = Some x -> 0 <= x < 64.
Proof. unfold b64_val. intros H. split_if_in H; simplify_eq; lia. Qed.

(** ** Names *)

Lemma name_char_facts c : name_char c = true ->
  is_ascii c = true /\ is_space c = false /\ c <> 47 /\ c <> 58 /\ c <> 92 /\ c <> 0 /\ c <> 61 /\ is_linesep c = false.
Proof.
  unfold name_char, ascii_alnum, ascii_alpha, ascii_digit. intros H.
  assert (Hc : c = 45 \/ c = 46 \/ c = 95 \/ 48 <= c <= 57 \/ 65 <= c <= 90 \/ 97 <= c <= 122) by lia.
  unfold is_ascii, is_space, is_linesep. repeat split; lia.
Qed.

Lemma username_chars u : _USERNAME_RE u = true -> Forall (fun c => name_char c = true) u.
Proof.
  destruct u as [|c u]; [done|]. simpl. intros [[Hc Hu]%andb_true_iff _]%andb_true_iff.
  constructor; [unfold name_char; by rewrite Hc|]. apply List.Forall_forall. intros x Hx.
  by apply (proj1 (forallb_forall _ _) Hu).
Qed.

Lemma username_fixed u : _USERNAME_RE u = true -> canonicalize_username (PStr u) = Ok u.
Proof.
  intros Hu. pose proof (username_chars u Hu) as Hc. unfold canonicalize_username.
  rewrite nfkc_ascii.
  - rewrite strip_unspaced; [by rewrite Hu|].
    revert Hc. apply List.Forall_impl. intros c Hn. by destruct (name_char_facts c Hn) as (_ & ? & _).
  - apply forallb_forall. rewrite List.Forall_forall in Hc. intros c Hx.
    by destruct (name_char_facts c (Hc c Hx)) as (? & _).
Qed.

Lemma canonicalize_inv v u : canonicalize_username v = Ok u -> _USERNAME_RE u = true.
Proof.
  unfold canonicalize_username. destruct v; try done. destruct (_USERNAME_RE _) eqn:E; [|done].
  by intros [= <-].
Qed.

(** An accepted user name is in canonical form (accepting it again gives the
    same name), has 1 to 32 characters and starts with a letter or digit; it is
    therefore never a dot name, and holds no separator of a path, of the
    credential line or of a recovery record. *)
Theorem username_canonical v u : canonicalize_username v = Ok u ->
  canonicalize_username (PStr u) = Ok u /\ 1 <= zlen u <= 32 /\ ascii_alnum (hd 0 u) = true /\
  Forall (fun c => name_char c = true /\ c <> 47 /\ c <> 58 /\ c <> 92 /\ c <> 0 /\ c <> 61) u.
Proof.
  intros Hv%canonicalize_inv. split; [by apply username_fixed|].
  pose proof (username_chars u Hv) as Hc.
  assert (Hl : 1 <= zlen u <= 32 /\ ascii_alnum (hd 0 u) = true).
  { destruct u as [|c u]; [done|]. simpl in Hv. apply andb_true_iff in Hv as [[? ?]%andb_true_iff ?].
    rewrite zlen_cons. pose proof (zlen_nonneg u). split; [lia|done]. }
  destruct Hl. do 2 (split; [done|]). revert Hc. apply List.Forall_impl. intros c Hn.
  destruct (name_char_facts c Hn) as (? & ? & ? & ? & ? & ? & ? & ?). done.
Qed.

(** ** Passwords *)

Lemma utf8_char_length c : zlen (utf8_char c) <= 4.
Proof. unfold utf8_char. split_if; unfold zlen; simpl; lia. Qed.

Lemma utf8_flat_length s : zlen (flat_map utf8_char s) <= 4 * zlen s.
Proof.
  induction s as [|c s IH]; cbn [flat_map]; [unfold zlen; simpl; lia|].
  rewrite zlen_app, zlen_cons. pose proof (utf8_char_length c). lia.
Qed.

Lemma password_bytes_inv short v b : _password_bytes short v = Ok b ->
  exists s, v = PStr s /\ utf8_encode s = Ok b /\ zlen s <= MAX_PASSWORD_CHARS /\ has_char 0 s = false /\
    (short = false -> MIN_NEW_PASSWORD_CHARS <= zlen s).
Proof.
  unfold _password_bytes. destruct v as [| | | |s| |]; try done.
  destruct (has_char 0 s) eqn:E0; [done|]. destruct (_ <? zlen s) eqn:E1; [done|].
  destruct (_ && _) eqn:E2; [done|]. destruct (utf8_encode s) as [e|] eqn:E3; [|done]. cbn [mbind res_bind].
  destruct (_ <? zlen e); [done|]. intros [= <-]. exists s. repeat split; try done; [lia|].
  intros ->. unfold MIN_NEW_PASSWORD_CHARS in *. simpl in E2. lia.
Qed.

(** A password that satisfies the policy for a new one is also accepted for
    verification, with the same bytes. *)
Lemma password_bytes_short v b : _password_bytes false v = Ok b -> _password_bytes true v = Ok b.
Proof.
  unfold _password_bytes. destruct v as [| | | |s| |]; try done.
  destruct (has_char 0 s); [done|]. destruct (_ <? zlen s); [done|]. cbn [negb andb].
  by destruct (_ <? _).
Qed.

(** Every text of at most 32 characters without a null character or a
    surrogate is an acceptable password to verify: its encoding never exceeds the
    byte limit. *)
Theorem password_bytes_total s :
  zlen s <= MAX_PASSWORD_CHARS -> has_char 0 s = false -> forallb is_scalar s = true ->
  exists b, _password_bytes true (PStr s) = Ok b /\ zlen b <= MAX_PASSWORD_BYTES /\ utf8_decode b = Ok s.
Proof.
  intros Hl H0 Hs. unfold _password_bytes. rewrite H0.
  rewrite (proj2 (Z.ltb_ge MAX_PASSWORD_CHARS (zlen s))) by done. cbn [negb andb].
  pose proof (utf8_encode_scalar s Hs) as He. rewrite He. cbn [mbind res_bind].
  assert (Hb : zlen (utf8_encode_replace s) <= MAX_PASSWORD_BYTES).
  { unfold utf8_encode in He. destruct (existsb _ s); [done|]. injection He as <-.
    pose proof (utf8_flat_length s). unfold MAX_PASSWORD_CHARS, MAX_PASSWORD_BYTES in *. lia. }
  exists (utf8_encode_replace s).
  rewrite (proj2 (Z.ltb_ge MAX_PASSWORD_BYTES _) Hb).
  split; [done|]. split; [done|]. by apply utf8_roundtrip.
Qed.

(** ** Stored hashes *)

Lemma bounded_integer_range v b n : _bounded_integer v b = Ok n -> b.1 <= n <= b.2.
Proof.
  unfold _bounded_integer. destruct (_ || _); [done|]. destruct (_ <? _); [done|].
  destruct (_ && _) eqn:E; [|done]. intros [= <-]. lia.
Qed.

(** The parameters a stored hash can ask for. *)
Definition policy (p : parsed) : Prop :=
  match p with
  | Argon2id memory time parallelism salt digest =>
      32768 <= memory <= 262144 /\ 2 <= time <= 6 /\ 1 <= parallelism <= 4 /\
      16 <= zlen salt <= 32 /\ zlen digest = 32
  | Scrypt n r parallelism salt digest =>
      (n = 16384 \/ n = 32768 \/ n = 65536) /\ r = 8 /\ 1 <= parallelism <= 2 /\
      16 <= zlen salt <= 32 /\ zlen digest = 32
  end.

Lemma power_of_two n : 16384 <= n <= 65536 -> Z.land n (n - 1) = 0 -> n = 16384 \/ n = 32768 \/ n = 65536.
Proof.
  intros Hn Hl.
  assert (H : exists k, n = 2 ^ k /\ 14 <= k <= 16).
  { exists (Z.log2 n). pose proof (Z.log2_spec n ltac:(lia)) as [Hlo Hhi].
    assert (14 <= Z.log2 n <= 16).
    { pose proof (Z.log2_le_mono 16384 n ltac:(lia)). pose proof (Z.log2_le_mono n 65536 ltac:(lia)).
      change (Z.log2 16384) with 14 in *. change (Z.log2 65536) with 16 in *. lia. }
    split; [|done]. destruct (Z.eq_dec n (2 ^ Z.log2 n)) as [|Hne]; [done|exfalso].
    assert (Hb : Z.testbit (Z.land n (n - 1)) (Z.log2 n) = true).
    { rewrite Z.land_spec, Z.bit_log2 by lia.
      replace (Z.log2 n) with (Z.log2 (n - 1)); [by rewrite Z.bit_log2 by lia|].
      apply Z.log2_unique; lia. }
    by rewrite Hl, Z.bits_0 in Hb. }
  destruct H as (k & -> & Hk). assert (k = 14 \/ k = 15 \/ k = 16) as [->|[->| ->]] by lia; simpl; lia.
Qed.

(** Whatever a credential file holds, a hash that parses asks for memory,
    time and parallelism inside the fixed policy, so verifying a password is
    bounded work; salt and digest have the lengths of the format. *)
Theorem parsed_within_policy v p : _parse_current_hash v = Ok p -> policy p.
Proof.
  unfold _parse_current_hash. destruct v as [| | | |s| |]; try done. intros H.
  destruct (_ || _); [done|].
  destruct (split_on 36 s) as [|p0 [|p1 [|p2 [|v0 [|v1 [|v2 [|v3 [|v4 [|]]]]]]]]]; try done.
  parse_steps H.
  all: repeat match goal with
    | E : _bounded_integer _ _ = Ok _ |- _ => apply bounded_integer_range in E; simpl in E
    | E : _decode_b64 _ _ _ = Ok _ |- _ => apply decode_b64_inv in E as [_ E]
    end.
  all: injection H as <-; unfold ARGON2_HASH_BYTES, SCRYPT_R in *; simpl.
  - repeat split; lia.
  - split; [apply power_of_two; [lia|]|repeat split; lia].
    match goal with E : negb (Z.land _ _ =? 0) = false |- _ => apply negb_false_iff, Z.eqb_eq in E; done end.
Qed.

(** *** Texts the broker writes *)

Definition salt_ok (salt : bytes) : Prop := bytes_ok salt /\ zlen salt = 16.

Lemma encoded_plain d : bytes_ok d -> Forall (fun c => is_ascii c = true /\ c <> 36 /\ c <> 61) (_encode_b64 d).
Proof. intros Hd. pose proof (b64_encode_alpha d Hd) as H. revert H. apply List.Forall_impl, b64_alpha_ascii. Qed.

Lemma forallb_lit {A} (p : A -> bool) s : forallb p s = true -> Forall (fun c => p c = true) s.
Proof. intros H. apply List.Forall_forall. by apply forallb_forall. Qed.

Lemma lit_forallb {A} (p : A -> bool) s : Forall (fun c => p c = true) s -> forallb p s = true.
Proof. intros H. apply forallb_forall. by apply List.Forall_forall. Qed.

(** The eight fields of a stored hash that ends in a salt and a digest. *)
Lemma fields_of (pre : list pystr) salt digest :
  forallb (forallb (fun c => is_ascii c && negb (c =? 36))) pre = true ->
  bytes_ok salt -> bytes_ok digest ->
  let s := join_with [36] (pre ++ [lit "salt=" ++ _encode_b64 salt; lit "hash=" ++ _encode_b64 digest]) in
  split_on 36 s = pre ++ [lit "salt=" ++ _encode_b64 salt; lit "hash=" ++ _encode_b64 digest] /\
  forallb is_ascii s = true.
Proof.
  intros Hp Hs Hd s.
  set (fs := pre ++ _) in *.
  assert (Hf : Forall (Forall (fun c => is_ascii c = true /\ c <> 36)) fs).
  { unfold fs. apply Forall_app. split.
    - apply forallb_lit in Hp. revert Hp. apply List.Forall_impl. intros w Hw%forallb_lit.
      revert Hw. apply List.Forall_impl. intros c [? ?]%andb_true_iff. split; [done|lia].
    - assert (He : forall d, bytes_ok d -> Forall (fun c => is_ascii c = true /\ c <> 36) (_encode_b64 d)).
      { intros d Hd'. eapply List.Forall_impl; [|by apply encoded_plain]. simpl. tauto. }
      apply Forall_cons_2; [|apply Forall_cons_2; [|done]]; apply Forall_app_2; first [by repeat constructor|by apply He]. }
  split.
  - apply split_join; [by destruct pre|]. revert Hf. apply List.Forall_impl. intros w.
    apply List.Forall_impl. tauto.
  - apply lit_forallb. unfold s.
    clear -Hf. induction fs as [|w fs IH]; [constructor|].
    apply Forall_cons in Hf as [Hw Hf]. assert (Hw' : Forall (fun c => is_ascii c = true) w).
    { revert Hw. apply List.Forall_impl. tauto. }
    destruct fs as [|w' fs]; [exact Hw'|]. rewrite join_with_cons. apply Forall_app. split; [done|].
    constructor; [done|]. by apply IH.
Qed.

Lemma encoded_short d n : zlen d <= n -> zlen (_encode_b64 d) <= 2 * n + 1.
Proof. unfold _encode_b64. pose proof (b64_encode_length d). pose proof (zlen_nonneg d). lia. Qed.

(** Reading back a text with the fields of the format. *)
Lemma parse_written pre salt digest :
  forallb (forallb (fun c => is_ascii c && negb (c =? 36))) pre = true ->
  zlen (join_with [36] pre) <= 200 -> List.length pre = 6%nat ->
  salt_ok salt -> digest_ok digest ->
  _parse_current_hash
    (PStr (join_with [36] (pre ++ [lit "salt=" ++ _encode_b64 salt; lit "hash=" ++ _encode_b64 digest]))) =
  match pre with
  | [p0; p1; p2; v0; v1; v2] =>
      let names := List.map field_name [v0; v1; v2] ++ [lit "salt"; lit "hash"] in
      if negb (str_eqb p0 (lit "t1auth")) || negb (str_eqb p1 (lit "v=1")) then Exc ValueError
      else if str_eqb p2 (lit "kdf=argon2id") then
        if negb (bool_decide (names = [lit "m"; lit "t"; lit "p"; lit "salt"; lit "hash"])) then Exc ValueError
        else
          memory ← _bounded_integer (field_value v0) ARGON2_MEMORY_BOUNDS;
          time_cost ← _bounded_integer (field_value v1) ARGON2_TIME_BOUNDS;
          parallelism ← _bounded_integer (field_value v2) ARGON2_PARALLELISM_BOUNDS;
          Ok (Argon2id memory time_cost parallelism salt digest)
      else if str_eqb p2 (lit "kdf=scrypt") then
        if negb (bool_decide (names = [lit "n"; lit "r"; lit "p"; lit "salt"; lit "hash"])) then Exc ValueError
        else
          n ← _bounded_integer (field_value v0) SCRYPT_N_BOUNDS;
          if negb (Z.land n (n - 1) =? 0) then Exc ValueError
          else
            r ← _bounded_integer (field_value v1) (SCRYPT_R, SCRYPT_R);
            parallelism ← _bounded_integer (field_value v2) SCRYPT_P_BOUNDS;
            Ok (Scrypt n r parallelism salt digest)
      else Exc ValueError
  | _ => Exc ValueError
  end.
Proof.
  intros Hp Hl Hn [Hs Hsl] [Hd Hdl].
  destruct (fields_of pre salt digest Hp Hs Hd) as [Hsplit Hascii].
  unfold _parse_current_hash. rewrite Hascii, Hsplit.
  assert (Hlen : zlen (join_with [36] (pre ++ [lit "salt=" ++ _encode_b64 salt; lit "hash=" ++ _encode_b64 digest])) <= 512).
  { destruct pre as [|p0 [|p1 [|p2 [|v0 [|v1 [|v2 [|]]]]]]]; try done. cbn [app join_with] in *.
    pose proof (encoded_short salt 32 ltac:(lia)). pose proof (encoded_short digest 32 ltac:(lia)).
    unfold zlen in *. repeat (rewrite !length_app in Hl || cbn [List.length] in Hl).
    repeat (rewrite !length_app || cbn [List.length]).
    change (List.length (lit "salt=")) with 5%nat. change (List.length (lit "hash=")) with 5%nat. lia. }
  rewrite (proj2 (Z.ltb_ge 512 _) Hlen). cbn [negb orb].
  destruct pre as [|p0 [|p1 [|p2 [|v0 [|v1 [|v2 [|]]]]]]]; try done. cbn [app].
  change (field_value (lit "salt=" ++ _encode_b64 salt)) with (_encode_b64 salt).
  change (field_value (lit "hash=" ++ _encode_b64 digest)) with (_encode_b64 digest).
  unfold ARGON2_HASH_BYTES. rewrite !decode_b64_encode by (done || lia). done.
Qed.

Lemma parse_argon2_text salt digest : salt_ok salt -> digest_ok digest ->
  _parse_current_hash (PStr (argon2_text salt digest)) =
  Ok (Argon2id ARGON2_MEMORY_KIB ARGON2_TIME_COST ARGON2_PARALLELISM salt digest).
Proof.
  intros Hs Hd.
  change (argon2_text salt digest) with (join_with [36]
    ([lit "t1auth"; lit "v=1"; lit "kdf=argon2id"; lit "m=65536"; lit "t=3"; lit "p=1"] ++
     [lit "salt=" ++ _encode_b64 salt; lit "hash=" ++ _encode_b64 digest])).
  rewrite parse_written; [vm_compute; reflexivity|by vm_compute|by vm_compute|done|done|done].
Qed.

Lemma parse_scrypt_text salt digest : salt_ok salt -> digest_ok digest ->
  _parse_current_hash (PStr (scrypt_text salt digest)) = Ok (Scrypt SCRYPT_N SCRYPT_R SCRYPT_P salt digest).
Proof.
  intros Hs Hd.
  change (scrypt_text salt digest) with (join_with [36]
    ([lit "t1auth"; lit "v=1"; lit "kdf=scrypt"; lit "n=32768"; lit "r=8"; lit "p=1"] ++
     [lit "salt=" ++ _encode_b64 salt; lit "hash=" ++ _encode_b64 digest])).
  rewrite parse_written; [vm_compute; reflexivity|by vm_compute|by vm_compute|done|done|done].
Qed.

(** What [hash_password] gives: a text of the preferred function and the digest
    it computed. *)
Lemma hash_password_inv {OS : Os} {OL : OsLaws OS} pw w stored w' :
  hash_password pw w = (Ok stored, w') ->
  exists encoded salt digest,
    _password_bytes false pw = Ok encoded /\ salt_ok salt /\ digest_ok digest /\
    ((argon2id_available = true /\ stored = argon2_text salt digest /\
      _argon2id encoded salt ARGON2_TIME_COST ARGON2_MEMORY_KIB ARGON2_PARALLELISM = Ok digest) \/
     (argon2id_available = false /\ stored = scrypt_text salt digest /\
      scrypt encoded salt SCRYPT_N SCRYPT_R SCRYPT_P = Ok digest)).
Proof.
  unfold hash_password, lift, os_urandom, mbind, io_bind, mret, io_ret.
  destruct (_password_bytes false pw) as [enc|]; [|done].
  set (salt := os_entropy _ _). assert (Hs : salt_ok salt).
  { split; [apply os_entropy_bytes|]. unfold zlen, salt. by rewrite os_entropy_len. }
  destruct argon2id_available eqn:Ea.
  - destruct (_argon2id enc salt _ _ _) as [d|] eqn:Ed; [|done]. intros [= <- <-].
    exists enc, salt, d. split; [done|]. split; [done|]. split; [|by left].
    unfold _argon2id in Ed. destruct argon2id_hash_raw as [f|] eqn:Ef; [|done].
    pose proof (argon2id_digest f ARGON2_TIME_COST ARGON2_MEMORY_KIB ARGON2_PARALLELISM enc salt Ef) as Hd.
    destruct (f _ _ _ _ _) as [st out]. by destruct (negb _); simplify_eq.
  - destruct (scrypt enc salt _ _ _) as [d|] eqn:Ed; [|done]. intros [= <- <-].
    exists enc, salt, d. split; [done|]. split; [done|]. split; [by apply scrypt_digest in Ed|by right].
Qed.

(** A hash the broker writes for a password is a valid stored hash, verifies
    that password, and is of the current policy, so a login does not rewrite it. *)
Theorem hash_then_verify {OS : Os} {OL : OsLaws OS} pw w stored w' :
  hash_password pw w = (Ok stored, w') ->
  validate_stored_hash (PStr stored) = true /\ verify_password pw (PStr stored) = Ok true /\
  password_needs_upgrade (PStr stored) = false.
Proof.
  intros (enc & salt & d & He & Hs & Hd & H)%hash_password_inv.
  apply password_bytes_short in He.
  unfold validate_stored_hash, verify_password, verify_body, password_needs_upgrade. rewrite He.
  destruct H as [(Ha & -> & Hk)|(Ha & -> & Hk)].
  - rewrite parse_argon2_text by done.
    change (has_current_prefix (PStr (argon2_text salt d))) with (Ok true : res bool).
    cbn [mbind res_bind is_ok]. rewrite Hk. cbn [mbind res_bind].
    unfold compare_digest. rewrite bool_decide_eq_true_2 by done. done.
  - rewrite parse_scrypt_text by done.
    change (has_current_prefix (PStr (scrypt_text salt d))) with (Ok true : res bool).
    cbn [mbind res_bind is_ok]. rewrite Hk. cbn [mbind res_bind]. rewrite Ha.
    unfold compare_digest. rewrite bool_decide_eq_true_2 by done. done.
Qed.

(** The digest a stored hash demands of a password. *)
Definition derived (pw : bytes) (p : parsed) : res bytes :=
  match p with
  | Argon2id memory time parallelism salt _ => _argon2id pw salt time memory parallelism
  | Scrypt n r parallelism salt _ => scrypt pw salt n r parallelism
  end.
Definition digest_of (p : parsed) : bytes :=
  match p with Argon2id _ _ _ _ d | Scrypt _ _ _ _ d => d end.

(** A password is accepted against a current hash only when it is a text the
    policy allows, the hash parses, and the function the hash names, with its
    parameters and salt, gives exactly the stored digest; against an old hash, when
    PBKDF2 gives the digest in the file. *)
Theorem verify_only_matching pw stored :
  verify_password pw (PStr stored) = Ok true <->
  exists encoded, _password_bytes true pw = Ok encoded /\
    if starts_with (lit "t1auth$") stored
    then exists p, _parse_current_hash (PStr stored) = Ok p /\ derived encoded p = Ok (digest_of p)
    else exists salt digest, _parse_legacy_hash (PStr stored) = Ok (salt, digest) /\
           pbkdf2_hmac encoded salt LEGACY_PBKDF2_ITERATIONS = digest.
Proof.
  unfold verify_password, verify_body. destruct (_password_bytes true pw) as [enc|e]; cbn [mbind res_bind].
  2: { split; [by destruct (verify_caught e)|]. by intros (? & ? & _). }
  cbn [has_current_prefix]. destruct (starts_with _ stored); cbn [mbind res_bind].
  - destruct (_parse_current_hash _) as [p|e]; cbn [mbind res_bind].
    2: { split; [by destruct (verify_caught e)|]. by intros (? & _ & ? & ? & _). }
    assert (Hd : forall r d, match (actual ← r; Ok (compare_digest actual d)) with
        | Exc e => if verify_caught e then Ok false else Exc e | x => x end = Ok true <-> r = Ok d).
    { intros [a|e] d; cbn [mbind res_bind]; unfold compare_digest.
      - destruct (bool_decide_reflect (a = d)) as [->|]; split; congruence.
      - destruct (verify_caught e); split; congruence. }
    destruct p as [m t p s d|n r p s d]; rewrite Hd; split.
    1, 3: intros H; exists enc; (split; [done|]); eexists; (split; [done|]); exact H.
    all: intros (? & [= <-] & ? & [= <-] & H); exact H.
  - destruct (_parse_legacy_hash _) as [[salt d]|e]; cbn [mbind res_bind].
    2: { split; [by destruct (verify_caught e)|]. by intros (? & _ & ? & ? & ? & _). }
    unfold compare_digest. destruct (bool_decide_reflect (pbkdf2_hmac enc salt LEGACY_PBKDF2_ITERATIONS = d)).
    + split; [|done]. intros _. by eauto 10.
    + split; [done|]. by intros (? & [= <-] & ? & ? & [= <- <-] & ?).
Qed.

End Spec.
