(* ===== verification/BrokerFiles.v ===== *)
(** Files of the broker ([broker/broker.py], [_safe_component] to
    [ensure_user_tree]): directories opened without following links, atomic
    writes, bounded reads, service secrets and the credential file.  The code
    models the POSIX branches; paths are component lists ([PyPath.abs_comps]). *)

From stdpp Require Import base option list.
From Stdlib Require Import ZArith Lia Bool String.
From S2P Require Import Prelude PyText PyVal PyStr PyFs PyPath PyB64 Credential.
Open Scope Z_scope.

Definition MAX_SERVICE_SECRET_BYTES : Z := 4096.

Definition _safe_component (component : pystr) : bool :=
  negb (bool_decide (component ∈ [[]; lit "."; lit ".."])) &&
  negb (has_char 47 component) && negb (has_char 92 component) && negb (has_char 0 component).

(** [stat.S_IMODE] bits of the octal constants in the code. *)
Definition mode_600 : Z := 384.
Definition mode_700 : Z := 448.
Definition mode_755 : Z := 493.
Definition mode_077 : Z := 63.

Section Files.
Context {OS : Os} {K : Kdf}.

Definition comps_of (path : pystr) : list pystr := abs_comps os_cwd path.

(** ** Directories *)

(** [try: m  except FileExistsError: pass]: whether [m] went through. *)
Definition tolerate_exists (m : IO unit) : IO bool :=
  try_io (m ;; mret true) (fun e => if bool_decide (e = FileExistsError) then mret false else raise e).

(** One turn of the loop: the child of [d], which is closed whatever happens. *)
Definition open_step (create : bool) (mode : Z) (d : ino) (component : pystr) : IO (ino * bool) :=
  r ← on_error
    (guard_io (_safe_component component) AuthenticationError ;;
     made ← (if create then tolerate_exists (os_mkdir d component mode) else mret false);
     c ← os_open_dir d component;
     mret (c, made))
    (os_close d);
  os_close d ;;
  mret r.

Fixpoint open_components (create : bool) (final_mode : option Z) (d : ino) (final_created : bool)
    (comps : list pystr) : IO (ino * bool) :=
  match comps with
  | [] => mret (d, final_created)
  | component :: rest =>
      let mode := match rest, final_mode with [], Some m => m | _, _ => mode_755 end in
      '(c, made) ← open_step create mode d component;
      open_components create final_mode c made rest
  end.

(** The mode and the owner of a final directory the code asked for. *)
Definition settle_metadata (d : ino) (mode : Z) (set : bool) : IO unit :=
  (if set then os_fchmod d mode else mret tt) ;;
  status ← os_fstat d;
  guard_io (isdir status && (i_uid status =? os_euid) && (i_gid status =? os_egid)
            && (i_mode status =? mode)) AuthenticationError.

Definition _open_secure_directory (create : bool) (final_mode : option Z) (repair_existing : bool)
    (comps : list pystr) : IO ino :=
  r0 ← os_open_root;
  '(d, final_created) ← open_components create final_mode r0 false comps;
  match final_mode, comps with
  | Some mode, _ :: _ =>
      if create then
        on_error (settle_metadata d mode (final_created || repair_existing)) (os_close d) ;;
        mret d
      else mret d
  | _, _ => mret d
  end.

Definition _open_child_directory (parent : ino) (component : pystr) (create : bool) (mode : Z) : IO ino :=
  guard_io (_safe_component component) AuthenticationError ;;
  (if create then tolerate_exists (os_mkdir parent component mode) ;; mret tt else mret tt) ;;
  c ← os_open_dir parent component;
  (if create then os_fchmod c mode else mret tt) ;;
  mret c.

(** ** Atomic writes and bounded reads *)

(** [while view:]; every turn writes at least one byte. *)
Fixpoint write_all (fuel : nat) (fd : ino) (view : bytes) : IO unit :=
  match view with
  | [] => mret tt
  | _ =>
      match fuel with
      | O => raise RuntimeError
      | S fuel =>
          written ← os_write fd view;
          (if written <=? 0 then raise AuthenticationError else mret tt) ;;
          write_all fuel fd (zdrop written view)
      end
  end.

(** [f".{name}.{os.getpid()}.{secrets.token_hex(8)}.new"] *)
Definition temporary_name (name : pystr) (token : bytes) : pystr :=
  lit "." ++ name ++ lit "." ++ int_str os_pid ++ lit "." ++ hex_of token ++ lit ".new".

Definition unlink_if_there (d : ino) (name : pystr) : IO unit :=
  try_io (os_unlink d name) (fun e => if bool_decide (e = FileNotFoundError) then mret tt else raise e).

Definition _atomic_write_at (directory : ino) (name : pystr) (data : bytes) (mode : Z) : IO unit :=
  guard_io (_safe_component name) AuthenticationError ;;
  token ← os_urandom 8;
  let temporary := temporary_name name token in
  finally
    (fd ← os_open_excl directory temporary mode;
     finally
       (os_fchmod fd mode ;;
        write_all (List.length data) fd data ;;
        os_fsync fd)
       (os_close fd) ;;
     os_rename directory temporary name ;;
     os_fsync directory)
    (unlink_if_there directory temporary).

(** [while remaining:]; a chunk has at least one byte. *)
Fixpoint read_chunks (fuel : nat) (fd : ino) (off remaining : Z) : IO bytes :=
  match fuel with
  | O => mret []
  | S fuel =>
      if remaining =? 0 then mret []
      else
        chunk ← os_read fd off (Z.min remaining 4096);
        match chunk with
        | [] => mret []
        | _ =>
            rest ← read_chunks fuel fd (off + zlen chunk) (remaining - zlen chunk);
            mret (chunk ++ rest)
        end
  end.

Definition _read_regular_at (directory : ino) (name : pystr) (maximum : Z) : IO (bytes * inode) :=
  guard_io (_safe_component name) AuthenticationError ;;
  fd ← os_open_read directory name;
  finally
    (metadata ← os_fstat fd;
     guard_io (isreg metadata && (st_size metadata <=? maximum)) AuthenticationError ;;
     data ← read_chunks (Z.to_nat (maximum + 1)) fd 0 (maximum + 1);
     guard_io (zlen data <=? maximum) AuthenticationError ;;
     mret (data, metadata))
    (os_close fd).

Definition ensure_private_file (path : pystr) : IO unit :=
  let '(parent, name) := split_path (comps_of path) in
  directory ← _open_secure_directory true (Some mode_700) true parent;
  finally
    (fd ← try_io (os_open_excl directory name mode_600)
            (fun e => if bool_decide (e = FileExistsError) then os_open_read directory name else raise e);
     finally
       (status ← os_fstat fd;
        guard_io (isreg status) AuthenticationError ;;
        os_fchmod fd mode_600)
       (os_close fd))
    (os_close directory).

(** ** Service secrets *)

Definition _service_secret_name (service : pyval) : res pystr :=
  match service with
  | PStr s => if _SERVICE_RE s then Ok (s ++ lit ".secret") else Exc ValueError
  | _ => Exc ValueError
  end.

(** The argument [secret]: text, bytes, or something else. *)
Inductive secret_arg : Type := SecretStr (s : pystr) | SecretBytes (b : bytes) | SecretOther.

Definition secret_bytes (secret : secret_arg) : res bytes :=
  raw ← match secret with
        | SecretStr s => b ← utf8_encode s; Ok (Some b)
        | SecretBytes b => Ok (Some b)
        | SecretOther => Ok None
        end;
  match raw with
  | Some b =>
      if negb ((1 <=? zlen b) && (zlen b <=? MAX_SERVICE_SECRET_BYTES)) || has_char 0 b then Exc ValueError
      else Ok b
  | None => Exc ValueError
  end.

Definition store_service_secret (service : pyval) (secret : secret_arg) (directory : pystr) : IO unit :=
  name ← lift (_service_secret_name service);
  secret ← lift (secret_bytes secret);
  d ← _open_secure_directory true (Some mode_700) false (comps_of directory);
  finally (_atomic_write_at d name secret mode_600) (os_close d).

Definition load_service_secret (service : pyval) (directory : pystr) : IO bytes :=
  name ← lift (_service_secret_name service);
  d ← _open_secure_directory false None false (comps_of directory);
  '(secret, metadata) ← finally (_read_regular_at d name MAX_SERVICE_SECRET_BYTES) (os_close d);
  guard_io (negb (negb (Z.land (i_mode metadata) mode_077 =? 0) || (zlen secret =? 0) || has_char 0 secret))
    AuthenticationError ;;
  mret secret.

Definition delete_service_secret (service : pyval) (directory : pystr) : IO unit :=
  name ← lift (_service_secret_name service);
  d ← _open_secure_directory false None false (comps_of directory);
  finally (os_unlink d name ;; os_fsync d) (os_close d).

(** ** The credential file *)

Definition credential_line (username stored : pystr) : pystr := username ++ lit ":" ++ stored ++ [10].

Definition atomic_write_credentials (path : list pystr) (username : pyval) (stored_hash : pystr) : IO unit :=
  username ← lift (canonicalize_username username);
  guard_io (validate_stored_hash (PStr stored_hash)) ValueError ;;
  let '(parent, name) := split_path path in
  directory ← _open_secure_directory true (Some mode_700) false parent;
  finally
    (payload ← lift (utf8_encode (credential_line username stored_hash));
     _atomic_write_at directory name payload mode_600)
    (os_close directory).

(** The text of the file, taken apart; any failure is a malformed file. *)
Definition parse_credentials (data : bytes) : res (pystr * pystr) :=
  let fields :=
    text ← utf8_decode data;
    match splitlines text with
    | [] => Exc IndexError
    | first :: _ =>
        '(username, stored) ← split1 58 first;
        username ← canonicalize_username (PStr username);
        Ok (username, stored)
    end in
  match fields with
  | Ok (username, stored) =>
      if validate_stored_hash (PStr stored) then Ok (username, stored) else Exc AuthenticationError
  | Exc e => if bool_decide (e = IndexError) || is_valueerror e then Exc AuthenticationError else Exc e
  end.

Definition read_credentials (path : list pystr) : IO (pystr * pystr) :=
  let '(parent, name) := split_path path in
  directory ← _open_secure_directory false None false parent;
  '(data, _) ← finally (_read_regular_at directory name MAX_CREDENTIAL_BYTES) (os_close directory);
  lift (parse_credentials data).

(** ** Home trees *)

(** One component: the child is made, the parent closed, the owner set. *)
Definition ensure_component (owner : option (Z * Z)) (mode : Z) (d : ino) (component : pystr) : IO ino :=
  c ← on_error (_open_child_directory d component true mode) (os_close d);
  os_close d ;;
  match owner with
  | Some (uid, gid) => on_error (os_fchown c uid gid ;; os_fchmod c mode) (os_close c)
  | None => mret tt
  end ;;
  mret c.

Fixpoint ensure_parts (owner : option (Z * Z)) (mode : Z) (d : ino) (parts : list pystr) : IO unit :=
  match parts with
  | [] => os_close d
  | p :: rest => c ← ensure_component owner mode d p; ensure_parts owner mode c rest
  end.

(** [os.dup(base)] gives another descriptor of the same directory. *)
Definition os_dup (d : ino) : IO ino := syscall (fun _ w => opened d w).

Definition _ensure_tree_at (base : ino) (parts : list pystr) (mode : Z) (owner : option (Z * Z)) : IO unit :=
  d ← os_dup base;
  ensure_parts owner mode d parts.

(** The trees of a home. *)
Definition home_trees : list (list pystr) :=
  [[lit "flash"; lit "books"]; [lit "flash"; lit "music"]; [lit "flash"; lit "images"];
   [lit "flash"; lit "downloads"]; [lit "flash"; lit "videos"]; [lit "expanse"];
   [lit "reference"; lit "identity"]].

Fixpoint each_io {A} (f : A -> IO unit) (l : list A) : IO unit :=
  match l with [] => mret tt | x :: l' => f x ;; each_io f l' end.

(** The owner of a home: both numbers or neither, and unprivileged. *)
Definition home_owner (owner_uid owner_gid : option Z) : res (option (Z * Z)) :=
  match owner_uid, owner_gid with
  | None, None => Ok None
  | Some u, Some g => if (u <? 1) || (g <? 1) then Exc ValueError else Ok (Some (u, g))
  | _, _ => Exc ValueError
  end.

Definition ensure_user_tree (home_base : list pystr) (username : pyval) (owner_uid owner_gid : option Z)
    : IO pystr :=
  owner ← lift (home_owner owner_uid owner_gid);
  username ← lift (canonicalize_username username);
  base ← _open_secure_directory true (Some mode_755) false home_base;
  finally
    (user ← _open_child_directory base username true mode_700;
     finally
       (match owner with
        | Some (u, g) => os_fchown user u g ;; os_fchmod user mode_700
        | None => mret tt
        end ;;
        each_io (fun relative => _ensure_tree_at user relative mode_700 owner) home_trees)
       (os_close user))
    (os_close base) ;;
  mret username.

End Files.
