(* ===== verification/Limiter.v ===== *)
(** The attempt limiter of the broker ([broker/broker.py], [AttemptLimiter]): an
    exponential backoff kept in a JSON file.  The lock of [_locked] serialises the
    operations of different processes, so one operation is one transition of the
    file system. *)

From stdpp Require Import base option list.
From Stdlib Require Import ZArith Lia Bool String.
From S2P Require Import Prelude PyFloat PyText PyVal PyJson PyStr PyFs PyPath Credential BrokerFiles.
Open Scope Z_scope.

(** ** [json.dumps(..., sort_keys=True)] *)

(** Strings compare by code points. *)
Fixpoint str_leb (a b : pystr) : bool :=
  match a, b with
  | [], _ => true
  | _ :: _, [] => false
  | x :: a', y :: b' => if x =? y then str_leb a' b' else x <? y
  end.

Fixpoint insert_key (kv : pystr * pyval) (d : pydict) : pydict :=
  match d with
  | [] => [kv]
  | kv' :: d' => if str_leb kv.1 kv'.1 then kv :: d else kv' :: insert_key kv d'
  end.

Fixpoint sort_keys (v : pyval) : pyval :=
  match v with
  | PList l => PList (List.map sort_keys l)
  | PDict d => PDict (fold_right insert_key [] (List.map (fun kv => (kv.1, sort_keys kv.2)) d))
  | _ => v
  end.

(** ** Python values *)

(** [v == 1]. *)
Definition eq_one (v : pyval) : bool :=
  match v with
  | PInt z => z =? 1
  | PBool b => b
  | PFloat f => feqb f (fround 1 0)
  | _ => false
  end.

(** [v.get(key, default)] on a value that may not be a dict. *)
Definition get_attr (v : pyval) (key : pystr) (dflt : pyval) : res pyval :=
  match v with PDict d => Ok (dict_get_def key dflt d) | _ => Exc AttributeError end.

(** [d.pop(key, None)]. *)
Definition dict_del (k : pystr) (d : pydict) : pydict := List.filter (fun kv => negb (str_eqb k kv.1)) d.

Definition MAX_STATE_BYTES : Z := 32768.
Definition MAX_ENTRIES : Z := 64.
Definition DAY : pyfloat := fround 86400 0.
Definition MAX_DELAY : pyfloat := fround 30 0.

Section Limiter.
Context {U : PyUnicode} {OS : Os} {K : Kdf}.

(** [with self._locked() as (directory, name):] *)
Definition _locked {A} (path : list pystr) (body : ino -> pystr -> IO A) : IO A :=
  let '(parent, name) := split_path path in
  directory ← _open_secure_directory true (Some mode_700) false parent;
  lock ← os_open_rw directory (lit "." ++ name ++ lit ".lock") mode_600;
  os_fchmod lock mode_600 ;;
  finally (os_flock lock ;; body directory name) (os_flock lock ;; os_close lock ;; os_close directory).

Definition _key (principal scope : pystr) : res pystr :=
  b ← utf8_encode (scope ++ [0] ++ principal); Ok (sha256hex b).

Definition empty_state : pydict := [(lit "version", PInt 1); (lit "entries", PDict [])].

(** The checks on a decoded state: the document and its entries. *)
Definition check_state (v : pyval) : res (pydict * pydict) :=
  match v with
  | PDict d =>
      match dict_get (lit "version") d, dict_get (lit "entries") d with
      | Some ver, Some (PDict es) =>
          if negb (eq_one ver) || (MAX_ENTRIES <? zlen es) then Exc AuthenticationError else Ok (d, es)
      | _, _ => Exc AuthenticationError
      end
  | _ => Exc AuthenticationError
  end.

Definition decode_state (raw : bytes) : res (pydict * pydict) :=
  match utf8_decode raw ≫= json_loads with
  | Exc UnicodeError | Exc JSONDecodeError => Exc AuthenticationError
  | Exc e => Exc e
  | Ok v => check_state v
  end.

Definition _load (directory : ino) (name : pystr) : IO (pydict * pydict) :=
  found ← try_io ('(raw, metadata) ← _read_regular_at directory name MAX_STATE_BYTES;
                  mret (Some (raw, metadata)))
    (fun e => if bool_decide (e = FileNotFoundError) then mret None else raise e);
  match found with
  | None => mret (empty_state, [])
  | Some (raw, metadata) =>
      guard_io (Z.land (i_mode metadata) mode_077 =? 0) AuthenticationError ;;
      lift (decode_state raw)
  end.

Definition state_text (state : pydict) : bytes := json_dumps j_compact (sort_keys (PDict state)) ++ [10].

Definition _write (directory : ino) (name : pystr) (state : pydict) : IO unit :=
  _atomic_write_at directory name (state_text state) mode_600.

(** [try: ... except (TypeError, ValueError): raise AuthenticationError] *)
Definition as_invalid {A} (also_attr : bool) (r : res A) : res A :=
  match r with
  | Exc e =>
      if is_valueerror e || bool_decide (e = TypeError) || (also_attr && bool_decide (e = AttributeError))
      then Exc AuthenticationError else Exc e
  | Ok a => Ok a
  end.

(** What an entry says: the end of the pause and the failures so far. *)
Definition read_entry (entry : pyval) : res (pyfloat * Z) :=
  b ← get_attr entry (lit "blocked_until") (PFloat fzero);
  b ← py_float b;
  f ← get_attr entry (lit "failures") (PInt 0);
  f ← py_int f;
  Ok (b, f).

(** [float(2 ** (failures - 1))] cut off at thirty seconds. *)
Definition backoff (failures : Z) : pyfloat := fmin2 (fround (2 ^ (failures - 1)) 0) MAX_DELAY.

(** [for old_key, old_entry in list(entries.items()):] *)
Fixpoint prune (now : pyfloat) (todo entries : pydict) : res pydict :=
  match todo with
  | [] => Ok entries
  | (k, v) :: todo' =>
      last ← as_invalid true (x ← get_attr v (lit "last") (PFloat now); py_float x);
      prune now todo' (if fgt (fsub now last) DAY then dict_del k entries else entries)
  end.

(** The new entry and the decision, from the entries of the file. *)
Definition decide_attempt (now : pyfloat) (key : pystr) (entries : pydict)
    : res ((bool * pyfloat) * option pydict) :=
  '(blocked_until, failures) ← as_invalid false (read_entry (dict_get_def key (PDict []) entries));
  if fgt blocked_until now then
    let left := fsub blocked_until now in
    Ok ((false, fmin2 left MAX_DELAY), None)
  else
    let failures := Z.min (Z.max failures 0 + 1) 10 in
    let delay := backoff failures in
    let entry := PDict [(lit "failures", PInt failures); (lit "blocked_until", PFloat (fadd now delay));
                        (lit "last", PFloat now)] in
    let entries := dict_set key entry entries in
    entries ← prune now entries entries;
    Ok ((true, delay), Some entries).

(** [float(time.time() if now is None else now)] *)
Definition now_float (now : option pyval) : IO pyfloat :=
  match now with None => os_time | Some v => lift (py_float v) end.

Definition reserve (path : list pystr) (principal scope : pystr) (now : option pyval) : IO (bool * pyfloat) :=
  now ← now_float now;
  key ← lift (_key principal scope);
  _locked path (fun directory name =>
    '(state, entries) ← _load directory name;
    '(answer, changed) ← lift (decide_attempt now key entries);
    match changed with
    | None => mret answer
    | Some entries =>
        _write directory name (dict_set (lit "entries") (PDict entries) state) ;;
        mret answer
    end).

Definition success (path : list pystr) (principal scope : pystr) : IO unit :=
  key ← lift (_key principal scope);
  _locked path (fun directory name =>
    '(state, entries) ← _load directory name;
    if dict_mem key entries
    then _write directory name (dict_set (lit "entries") (PDict (dict_del key entries)) state)
    else mret tt).

End Limiter.
