(* ===== verification/Broker.v ===== *)
(** The operations of the broker ([broker/broker.py]): login, recovery
    authorizations, and changes of the account. *)

From stdpp Require Import base option list.
From Stdlib Require Import ZArith Lia Bool String.
From S2P Require Import Prelude PyFloat PyText PyVal PyJson PyStr PyFs PyPath PyB64 Credential BrokerFiles Limiter.
Open Scope Z_scope.

Definition MAX_AUTHORIZATION_TTL_SECONDS : Z := 900.
Definition RECOVERY_ACTIONS : list pystr := [lit "reset"; lit "reinstall"].
Definition MAX_RECORD_BYTES : Z := 512.
Definition LAST_EXPIRY : Z := 4102444800.

Record AuthenticationResult : Type := mkauth {
  ok : bool;
  username : pystr;
  retry_after : pyfloat;
  migrated : bool;
  error : pystr }.

Record IssuedAuthorization : Type := mkissued { authentication : AuthenticationResult; token : pystr }.

(** [type(error).__name__]; the model has one exception for the encoding and the
    decoding errors of Unicode. *)
Definition exn_name (e : exn) : pystr :=
  match e with
  | TypeError => lit "TypeError" | ValueError => lit "ValueError" | OverflowError => lit "OverflowError"
  | ZeroDivisionError => lit "ZeroDivisionError" | KeyError => lit "KeyError" | IndexError => lit "IndexError"
  | AttributeError => lit "AttributeError" | StructError => lit "error" | UnicodeError => lit "UnicodeError"
  | JSONDecodeError => lit "JSONDecodeError" | OSError => lit "OSError"
  | FileNotFoundError => lit "FileNotFoundError" | FileExistsError => lit "FileExistsError"
  | NotADirectoryError => lit "NotADirectoryError" | IsADirectoryError => lit "IsADirectoryError"
  | RuntimeError => lit "RuntimeError" | AudioProtocolError => lit "AudioProtocolError"
  | AuthenticationError => lit "AuthenticationError" | PermissionError => lit "PermissionError"
  | LookupError => lit "LookupError" | InvalidOperation => lit "InvalidOperation"
  | DivisionByZero => lit "DivisionByZero" | DecimalOverflow => lit "Overflow"
  end.

Section Broker.
Context {U : PyUnicode} {OS : Os} {K : Kdf}.

(** ** Login *)

Definition denied (user : pystr) (delay : pyfloat) (why : string) : AuthenticationResult :=
  mkauth false user delay false (lit why).

Definition migrate_hash (master_file : list pystr) (user : pystr) (password : pyval) : IO AuthenticationResult :=
  try_io
    (replacement ← hash_password password;
     atomic_write_credentials master_file (PStr user) replacement ;;
     mret (mkauth true user fzero true []))
    (fun _ => mret (mkauth true user fzero false (lit "migration-failed"))).

Definition authenticate_body (master_file : list pystr) (password : pyval) (scope : pystr)
    (rate_path : list pystr) (now : option pyval) (migrate : bool) : IO AuthenticationResult :=
  '(user, stored) ← read_credentials master_file;
  '(allowed, delay) ← reserve rate_path user scope now;
  if negb allowed then mret (denied user delay "rate-limited")
  else
    valid ← lift (verify_password password (PStr stored));
    if negb valid then mret (denied user delay "invalid-credential")
    else
      success rate_path user scope ;;
      if migrate && password_needs_upgrade (PStr stored) then migrate_hash master_file user password
      else mret (mkauth true user fzero false []).

Definition authenticate_master (master_file : list pystr) (password : pyval) (scope : pystr)
    (rate_path : list pystr) (now : option pyval) (migrate : bool) : IO AuthenticationResult :=
  try_io (authenticate_body master_file password scope rate_path now migrate)
    (fun e => mret (mkauth false [] fzero false (exn_name e))).

(** ** Recovery authorizations *)

Definition _validate_token (token : pyval) : res pystr :=
  match token with
  | PStr s => if _TOKEN_RE s then Ok s else Exc ValueError
  | _ => Exc ValueError
  end.

Definition _token_name (token : pyval) : res pystr :=
  s ← _validate_token token;
  b ← utf8_encode s;
  Ok (sha256hex b).

Definition _recovery_directory (master_file : list pystr) : list pystr :=
  (split_path master_file).1 ++ [lit "recovery authorizations"].

Definition record_text (action : pystr) (expires : Z) (subject : pystr) : pystr :=
  lit "format=1" ++ [10] ++ lit "action=" ++ action ++ [10] ++ lit "expires=" ++ int_str expires ++ [10]
  ++ lit "subject=" ++ subject ++ [10].

(** [int(time.time() if now is None else now)] *)
Definition now_int (now : option pyval) : IO Z :=
  match now with
  | None => t ← os_time; lift (int_of_float t)
  | Some v => lift (py_int v)
  end.

(** [s.encode("ascii")], [b.decode("ascii")] *)
Definition ascii_encode (s : pystr) : res bytes := if forallb is_ascii s then Ok s else Exc UnicodeError.
Definition ascii_decode (b : bytes) : res pystr := if forallb is_ascii b then Ok b else Exc UnicodeError.

Definition issue_recovery_authorization (master_file : list pystr) (password : pyval) (action : pystr)
    (ttl : pyval) (rate_path : list pystr) (now : option pyval) : IO IssuedAuthorization :=
  guard_io (bool_decide (action ∈ RECOVERY_ACTIONS)) ValueError ;;
  result ← authenticate_master master_file password (lit "recovery:" ++ action) rate_path None true;
  if negb (ok result) then mret (mkissued result [])
  else
    ttl ← lift (py_int ttl);
    guard_io ((30 <=? ttl) && (ttl <=? MAX_AUTHORIZATION_TTL_SECONDS)) ValueError ;;
    now ← now_int now;
    seed ← os_urandom 32;
    let token := _encode_b64 seed in
    name ← lift (_token_name (PStr token));
    body ← lift (ascii_encode (record_text action (now + ttl) (username result)));
    directory ← _open_secure_directory true (Some mode_700) false (_recovery_directory master_file);
    finally (_atomic_write_at directory name body mode_600) (os_close directory) ;;
    mret (mkissued result token).

(** [for line in raw.decode("ascii").splitlines(): ...]: [None] on a repeated key. *)
Fixpoint record_values (acc : list (pystr * pystr)) (lines : list pystr) : res (option (list (pystr * pystr))) :=
  match lines with
  | [] => Ok (Some acc)
  | line :: lines' =>
      '(key, value) ← split1 61 line;
      if bool_decide (key ∈ List.map fst acc) then Ok None
      else record_values (acc ++ [(key, value)]) lines'
  end.

Fixpoint field (key : pystr) (values : list (pystr * pystr)) : pystr :=
  match values with
  | [] => []
  | (k, v) :: rest => if str_eqb k key then v else field key rest
  end.

Definition record_keys : list pystr := [lit "format"; lit "action"; lit "expires"; lit "subject"].

(** [set(values) == {...}]; the keys are distinct. *)
Definition same_keys (values : list (pystr * pystr)) : bool :=
  (zlen values =? 4) && forallb (fun k => bool_decide (k ∈ List.map fst values)) record_keys.

(** The checks on a record: its expiry and subject, or [None] when it is refused
    by value. *)
Definition check_record (raw : bytes) (action : pystr) : res (option (Z * pystr)) :=
  text ← ascii_decode raw;
  values ← record_values [] (splitlines text);
  match values with
  | None => Ok None
  | Some values =>
      if negb (same_keys values) then Ok None
      else if negb (str_eqb (field (lit "format") values) (lit "1"))
              || negb (str_eqb (field (lit "action") values) action) then Ok None
      else
        canonicalize_username (PStr (field (lit "subject") values)) ;;
        expires ← _bounded_integer (field (lit "expires") values) (1, LAST_EXPIRY);
        Ok (Some (expires, field (lit "subject") values))
  end.

(** [except (AuthenticationError, FileNotFoundError, OSError, TypeError, ValueError, UnicodeError)] *)
Definition refusal (e : exn) : bool :=
  is_oserror e || is_valueerror e || bool_decide (e = AuthenticationError) || bool_decide (e = TypeError).

(** Open the directory, read at most [MAX_RECORD_BYTES], close. *)
Definition read_record (master_file : list pystr) (name : pystr) : IO (bytes * inode) :=
  directory ← _open_secure_directory false None false (_recovery_directory master_file);
  finally (_read_regular_at directory name MAX_RECORD_BYTES) (os_close directory).

Definition validate_recovery_authorization (master_file : list pystr) (token : pyval) (action : pystr)
    (now : option pyval) : IO bool :=
  try_io
    (if negb (bool_decide (action ∈ RECOVERY_ACTIONS)) then mret false
     else
       name ← lift (_token_name token);
       '(raw, metadata) ← read_record master_file name;
       if negb (Z.land (i_mode metadata) mode_077 =? 0) then mret false
       else
         checked ← lift (check_record raw action);
         match checked with
         | None => mret false
         | Some (expires, _) =>
             now ← now_int now;
             mret ((now <? expires) && (expires <=? now + MAX_AUTHORIZATION_TTL_SECONDS))
         end)
    (fun e => if refusal e then mret false else raise e).

(** The boot identity: a version 1 to 5 UUID in lower case. *)
Definition hex_run (lo : pystr) (n : Z) : bool := forallb is_lower_hex lo && (zlen lo =? n).
Definition boot_id_ok (s : pystr) : bool :=
  match split_on 45 s with
  | [a; b; c; d; e] =>
      hex_run a 8 && hex_run b 4 && hex_run c 4 && hex_run d 4 && hex_run e 12 &&
      match c, d with
      | v :: _, r :: _ => ((49 <=? v) && (v <=? 53)) && bool_decide (r ∈ [56; 57; 97; 98])
      | _, _ => false
      end
  | _ => false
  end.

Definition upgraded_text (action : pystr) (expires : Z) (subject boot : pystr) : pystr :=
  lit "format=2" ++ [10] ++ lit "action=" ++ action ++ [10] ++ lit "expires=" ++ int_str expires ++ [10]
  ++ lit "subject=" ++ subject ++ [10] ++ lit "origin_boot_id=" ++ boot ++ [10].

Definition recovery_authorization_digest (master_file : list pystr) (token : pyval) (action : pystr)
    (now : option pyval) (origin_boot_id : option pyval) : IO pystr :=
  valid ← validate_recovery_authorization master_file token action now;
  guard_io valid AuthenticationError ;;
  digest ← lift (_token_name token);
  match origin_boot_id with
  | None => mret digest
  | Some v =>
      let boot := uc_lower (strip (py_str v)) in
      guard_io (boot_id_ok boot) ValueError ;;
      directory ← _open_secure_directory false None false (_recovery_directory master_file);
      finally
        ('(raw, metadata) ← _read_regular_at directory digest MAX_RECORD_BYTES;
         guard_io (Z.land (i_mode metadata) mode_077 =? 0) AuthenticationError ;;
         checked ← lift (check_record raw action);
         match checked with
         | None => raise AuthenticationError
         | Some (expires, subject) =>
             current ← now_int now;
             guard_io ((current <? expires) && (expires <=? current + MAX_AUTHORIZATION_TTL_SECONDS))
               AuthenticationError ;;
             upgraded ← lift (ascii_encode (upgraded_text action expires subject boot));
             _atomic_write_at directory digest upgraded mode_600
         end)
        (os_close directory) ;;
      mret digest
  end.

(** ** The account *)

(** [root/the one/master/master.txt] and [root/master]. *)
Definition master_path (root : list pystr) : list pystr := root ++ [lit "the one"; lit "master"; lit "master.txt"].
Definition homes_path (root : list pystr) : list pystr := root ++ [lit "master"].

(** Open and close the root directory: it must be reachable without links. *)
Definition check_root (root : list pystr) : IO unit :=
  d ← _open_secure_directory false None false root; os_close d.

Definition provision_user (root : pystr) (username password : pyval) (owner_uid owner_gid : option Z)
    : IO pystr :=
  let root := comps_of root in
  check_root root ;;
  username ← lift (canonicalize_username username);
  stored ← hash_password password;
  ensure_user_tree (homes_path root) (PStr username) owner_uid owner_gid ;;
  atomic_write_credentials (master_path root) (PStr username) stored ;;
  mret username.

(** Open the home to see that it is a directory. *)
Definition check_home (base : ino) (user : pystr) : IO unit :=
  home ← _open_child_directory base user false mode_700;
  finally (status ← os_fstat home; guard_io (isdir status) AuthenticationError) (os_close home).

Definition move_home (home_base : list pystr) (old new : pystr) : IO unit :=
  base ← _open_secure_directory false None false home_base;
  finally
    (check_home base old ;;
     taken ← try_io (os_lstat base new ;; mret true)
       (fun e => if bool_decide (e = FileNotFoundError) then mret false else raise e);
     guard_io (negb taken) AuthenticationError ;;
     os_rename base old new ;;
     os_fsync base)
    (os_close base).

Definition restore_home (home_base : list pystr) (old new : pystr) : IO unit :=
  base ← _open_secure_directory false None false home_base;
  finally (os_rename base new old ;; os_fsync base) (os_close base).

(** The old name, the new name, and whether the password changed. *)
Definition change_user (root : pystr) (current_password username : pyval) (new_password : pystr)
    : IO (pystr * pystr * bool) :=
  let root := comps_of root in
  check_root root ;;
  '(old_username, old_hash) ← read_credentials (master_path root);
  valid ← lift (verify_password current_password (PStr old_hash));
  guard_io valid AuthenticationError ;;
  username ← lift (canonicalize_username username);
  let password_changed := negb (bool_decide (new_password = [])) in
  replacement ← (if password_changed then hash_password (PStr new_password) else mret old_hash);
  let moved := negb (str_eqb username old_username) in
  (if moved then move_home (homes_path root) old_username username else mret tt) ;;
  on_error (atomic_write_credentials (master_path root) (PStr username) replacement)
    (if moved then restore_home (homes_path root) old_username username else mret tt) ;;
  mret (old_username, username, password_changed).

(** The name a removed home waits under. *)
Definition quarantine_name (token : bytes) : pystr := lit ".removed-" ++ hex_of token.

(** Take the credential away, or put the home back. *)
Definition unlink_credential (base : ino) (master_file : list pystr) (quarantine active : pystr) : IO unit :=
  let '(parent, name) := split_path master_file in
  credentials ← _open_secure_directory false None false parent;
  finally
    (on_error (os_unlink credentials name ;; os_fsync credentials)
       (os_rename base quarantine active ;; os_fsync base))
    (os_close credentials).

Definition remove_user (root : pystr) (current_password username : pyval) : IO pystr :=
  let root := comps_of root in
  check_root root ;;
  '(active_username, stored) ← read_credentials (master_path root);
  username ← lift (canonicalize_username username);
  guard_io (str_eqb username active_username) AuthenticationError ;;
  valid ← lift (verify_password current_password (PStr stored));
  guard_io valid AuthenticationError ;;
  token ← os_urandom 12;
  let quarantine := quarantine_name token in
  base ← _open_secure_directory false None false (homes_path root);
  finally
    (check_home base active_username ;;
     os_rename base active_username quarantine ;;
     os_fsync base ;;
     unlink_credential base (master_path root) quarantine active_username)
    (os_close base) ;;
  try_io (rmtree_path (homes_path root) quarantine) (fun _ => raise AuthenticationError) ;;
  mret active_username.

(** ** Passwords on standard input *)

(** [sys.stdin.read(n)] of the text [input]. *)
Definition _read_password_stdin (input : pystr) : res pystr :=
  let value := ztake (MAX_PASSWORD_CHARS + 3) input in
  let value :=
    if ends_with [13; 10] value then ztake (zlen value - 2) value
    else if ends_with [10] value then ztake (zlen value - 1) value
    else value in
  if has_char 10 value || has_char 13 value then Exc ValueError else Ok value.

Definition _read_password_lines (count : Z) (input : pystr) : res (list pystr) :=
  if (count <? 1) || (2 <? count) then Exc ValueError
  else
    let value := ztake ((MAX_PASSWORD_CHARS + 3) * count) input in
    let value := crlf_to_lf value in
    let value := if ends_with [10] value then ztake (zlen value - 1) value else value in
    let lines := split_on 10 value in
    if negb (zlen lines =? count) || existsb (has_char 13) lines then Exc ValueError else Ok lines.

(** ** The command line

    [argparse] is the language's own; the commands are its result, with the
    defaults of the options.  A run gives the exit status and what is printed. *)
Inductive command : Type :=
| CanonicalizeUsername (name : pystr)
| HashPassword
| ProvisionUser (root name : pystr)
| ChangeUser (root name : pystr) (change_password : bool)
| RemoveUser (root name : pystr)
| IssueRecovery (master_file action : pystr) (ttl : Z)
| VerifyRecovery (master_file action : pystr).

Record printed : Type := mkprinted { status : Z; stdout : pystr; stderr : pystr }.

Definition say (s : pystr) : printed := mkprinted 0 (s ++ [10]) [].

Definition ATTEMPT_STATE_FILE : pystr := lit "/.ephemeral/authentication/attempts.json".

(** [f"... {int(retry_after + 0.999)} seconds"] *)
Definition denial (r : AuthenticationResult) : res pystr :=
  if truthy (PFloat (retry_after r)) then
    n ← int_of_float (fadd (retry_after r) (fdecimal 999 (-3)));
    Ok (lit "authorization denied; retry after " ++ int_str n ++ lit " seconds")
  else Ok (lit "authorization denied").

Definition cli_command (c : command) (input : pystr) : IO printed :=
  match c with
  | CanonicalizeUsername name => u ← lift (canonicalize_username (PStr name)); mret (say u)
  | HashPassword =>
      pw ← lift (_read_password_stdin input);
      h ← hash_password (PStr pw);
      mret (say h)
  | ProvisionUser root name =>
      pw ← lift (_read_password_stdin input);
      u ← provision_user root (PStr name) (PStr pw) (Some 1000) (Some 1000);
      mret (say u)
  | ChangeUser root name change_password =>
      passwords ← lift (_read_password_lines (if change_password then 2 else 1) input);
      '(old, new, changed) ← change_user root (PStr (nth 0 passwords [])) (PStr name)
                               (if change_password then nth 1 passwords [] else []);
      mret (say (json_dumps j_compact (sort_keys (PDict
        [(lit "old_username", PStr old); (lit "username", PStr new); (lit "password_changed", PBool changed)]))))
  | RemoveUser root name =>
      passwords ← lift (_read_password_lines 1 input);
      u ← remove_user root (PStr (nth 0 passwords [])) (PStr name);
      mret (say u)
  | IssueRecovery master_file action ttl =>
      pw ← lift (_read_password_stdin input);
      issued ← issue_recovery_authorization (comps_of master_file) (PStr pw) action (PInt ttl)
                 (comps_of ATTEMPT_STATE_FILE) None;
      if negb (ok (authentication issued)) then
        text ← lift (denial (authentication issued));
        mret (mkprinted 1 [] (text ++ [10]))
      else mret (say (token issued))
  | VerifyRecovery master_file action =>
      digest ← recovery_authorization_digest (comps_of master_file) (PStr (strip (ztake 128 input))) action None None;
      mret (say digest)
  end.

Definition _cli (c : command) (input : pystr) : IO printed :=
  try_io (cli_command c input)
    (fun e => mret (mkprinted 1 [] (lit "authentication broker failed: " ++ exn_name e ++ [10]))).

End Broker.
