(* ===== verification/PyFsFacts.v ===== *)
(** Reasoning about programs over the file system: how a successful program ran,
    what every program leaves alone ([keeps]), and what the calls do. *)

From stdpp Require Import base gmap list.
From Stdlib Require Import ZArith Lia Bool String.
From S2P Require Import Prelude PyFloat PyText PyFs PyPath.
Open Scope Z_scope.

(** ** How a successful program ran *)

Section Inversion.
Context {A B : Type}.
Implicit Types (w : world).

Lemma io_bind_Ok (m : IO A) (f : A -> IO B) w b w' :
  (m ≫= f) w = (Ok b, w') -> exists a w1, m w = (Ok a, w1) /\ f a w1 = (Ok b, w').
Proof. unfold mbind, io_bind. destruct (m w) as [[a|e] w1]; [eauto|done]. Qed.

Lemma io_bind_run (m : IO A) (f : A -> IO B) w a w1 :
  m w = (Ok a, w1) -> (m ≫= f) w = f a w1.
Proof. unfold mbind, io_bind. by intros ->. Qed.

Lemma io_bind_exc (m : IO A) (f : A -> IO B) w e w1 :
  m w = (Exc e, w1) -> (m ≫= f) w = (Exc e, w1).
Proof. unfold mbind, io_bind. by intros ->. Qed.

Lemma io_bind_inv (m : IO A) (f : A -> IO B) w r w' : (m ≫= f) w = (r, w') ->
  (exists a w1, m w = (Ok a, w1) /\ f a w1 = (r, w')) \/ (exists e, m w = (Exc e, w') /\ r = Exc e).
Proof.
  unfold mbind, io_bind. destruct (m w) as [[a|e] w1]; [by left; exists a, w1|]. intros [= <- <-]. right. by exists e.
Qed.

Lemma lift_Ok (r : res A) w a w' : lift r w = (Ok a, w') -> r = Ok a /\ w' = w.
Proof. unfold lift. intros H. split; congruence. Qed.

Lemma guard_io_Ok b e w u w' : guard_io b e w = (Ok u, w') -> b = true /\ w' = w.
Proof. unfold guard_io, mret, io_ret, raise. destruct b; [|done]. intros H. split; congruence. Qed.

Lemma finally_Ok (m : IO A) f w a w' :
  finally m f w = (Ok a, w') -> exists u w1, m w = (Ok a, w1) /\ f w1 = (Ok u, w').
Proof.
  unfold finally. destruct (m w) as [r w1]. destruct (f w1) as [[u|e] w2] eqn:E; [|done].
  intros [= -> ->]. eauto.
Qed.

Lemma try_io_Ok (m : IO A) h w a w' :
  try_io m h w = (Ok a, w') ->
  m w = (Ok a, w') \/ exists e w1, m w = (Exc e, w1) /\ h e w1 = (Ok a, w').
Proof. unfold try_io. destruct (m w) as [[x|e] w1]; [|eauto]. intros [= -> ->]. by left. Qed.

Lemma on_error_Ok (m : IO A) f w a w' : on_error m f w = (Ok a, w') -> m w = (Ok a, w').
Proof.
  unfold on_error. intros [H|(e & w1 & _ & H)]%try_io_Ok; [done|].
  apply (fun H => H) in H. unfold mbind, io_bind, raise in H. by destruct (f w1) as [[]].
Qed.

Lemma ret_Ok (x : A) w a w' : (mret x : IO A) w = (Ok a, w') -> a = x /\ w' = w.
Proof. unfold mret, io_ret. intros H. split; congruence. Qed.

End Inversion.

(** Take a successful run apart, one step at a time. *)
Ltac io_step H :=
  lazymatch type of H with
  | (_ ≫= _) _ = (Ok _, _) =>
      let a := fresh "a" in let w := fresh "w" in let H1 := fresh "H" in
      apply io_bind_Ok in H as (a & w & H1 & H)
  | finally _ _ _ = (Ok _, _) =>
      let u := fresh "u" in let w := fresh "w" in let H1 := fresh "H" in
      apply finally_Ok in H as (u & w & H1 & H)
  | on_error _ _ _ = (Ok _, _) => apply on_error_Ok in H
  | lift _ _ = (Ok _, _) => let E := fresh "E" in apply lift_Ok in H as [E ->]
  | guard_io _ _ _ = (Ok _, _) => let E := fresh "E" in apply guard_io_Ok in H as [E ->]
  | (mret _) _ = (Ok _, _) => let E := fresh "E" in apply ret_Ok in H as [E ->]
  end.

(** ** Programs that respect a relation between worlds *)

Section Preserve.
Context (R : world -> world -> Prop) {HR : PreOrder R}.

Definition pres {A} (m : IO A) : Prop := forall w, R w (m w).2.

Lemma io_pres_run {A} (m : IO A) w r w' : pres m -> m w = (r, w') -> R w w'.
Proof. intros H E. specialize (H w). by rewrite E in H. Qed.

Lemma io_pres_ret {A} (a : A) : pres (mret a).
Proof. intros w. reflexivity. Qed.
Lemma io_pres_raise {A} e : pres (raise e : IO A).
Proof. intros w. reflexivity. Qed.
Lemma io_pres_lift {A} (r : res A) : pres (lift r).
Proof. intros w. reflexivity. Qed.
Lemma io_pres_guard b e : pres (guard_io b e).
Proof. unfold guard_io. destruct b; [apply io_pres_ret|apply io_pres_raise]. Qed.
Lemma io_pres_bind {A B} (m : IO A) (f : A -> IO B) : pres m -> (forall a, pres (f a)) -> pres (m ≫= f).
Proof.
  intros Hm Hf w. specialize (Hm w). unfold mbind, io_bind.
  destruct (m w) as [[a|e] w1]; [|done]. etransitivity; [exact Hm|apply Hf].
Qed.
Lemma io_pres_try {A} (m : IO A) h : pres m -> (forall e, pres (h e)) -> pres (try_io m h).
Proof.
  intros Hm Hh w. specialize (Hm w). unfold try_io.
  destruct (m w) as [[a|e] w1]; [done|]. etransitivity; [exact Hm|apply Hh].
Qed.
Lemma io_pres_finally {A} (m : IO A) f : pres m -> pres f -> pres (finally m f).
Proof.
  intros Hm Hf w. specialize (Hm w). unfold finally. destruct (m w) as [r w1].
  specialize (Hf w1). destruct (f w1) as [[u|e] w2]; etransitivity; eauto.
Qed.
Lemma io_pres_on_error {A} (m : IO A) f : pres m -> pres f -> pres (on_error m f).
Proof. intros Hm Hf. apply io_pres_try; [done|]. intros e. apply io_pres_bind; [done|]. intros. apply io_pres_raise. Qed.
End Preserve.

(** Split a goal [pres R m] along the program; what remains are its calls. *)
Ltac pres_step :=
  lazymatch goal with
  | |- pres _ (mret _) => apply io_pres_ret; typeclasses eauto
  | |- pres _ (raise _) => apply io_pres_raise; typeclasses eauto
  | |- pres _ (lift _) => apply io_pres_lift; typeclasses eauto
  | |- pres _ (guard_io _ _) => apply io_pres_guard; typeclasses eauto
  | |- pres _ (_ ≫= _) => apply io_pres_bind; [typeclasses eauto| |intros ?]
  | |- pres _ (try_io _ _) => apply io_pres_try; [typeclasses eauto| |intros ?]
  | |- pres _ (finally _ _) => apply io_pres_finally; [typeclasses eauto| |]
  | |- pres _ (on_error _ _) => apply io_pres_on_error; [typeclasses eauto| |]
  | |- pres _ (if ?b then _ else _) => destruct b
  | |- pres _ (match ?x with _ => _ end) => destruct x
  end.

(** ** Inodes and entries *)

Lemma child_entries w d n : child w d n = match entries w d with Some es => es !! n | None => None end.
Proof. unfold child. by destruct (entries w d). Qed.

Lemma entries_node w d es : entries w d = Some es <-> exists n, w_nodes w !! d = Some n /\ i_kind n = KDir es.
Proof.
  unfold entries. destruct (w_nodes w !! d) as [n|].
  - destruct (i_kind n) eqn:E; split; try done.
    + by intros (? & [= <-] & ?); congruence.
    + intros [= <-]. eauto.
    + intros (? & [= <-] & ?). congruence.
    + by intros (? & [= <-] & ?); congruence.
    + by intros (? & [= <-] & ?); congruence.
  - split; [done|]. by intros (? & ? & _).
Qed.

Lemma child_tick w d n : child (step_tick w) d n = child w d n.
Proof. done. Qed.
Lemma child_open k w d n : child (add_open k w) d n = child w d n.
Proof. done. Qed.

(** Changing an inode that is no directory, or its mode, keeps the entries. *)
Lemma entries_insert w i n d :
  (forall es, i_kind n <> KDir es) -> entries w i = None ->
  entries (set_nodes (insert i n) w) d = entries w d.
Proof.
  intros Hn Hi. unfold entries in *. simpl. destruct (decide (i = d)) as [->|Hne].
  - rewrite lookup_insert_eq. destruct (i_kind n) as [|es| |] eqn:E; try done. by destruct (Hn es).
  - by rewrite lookup_insert_ne.
Qed.

Lemma entries_same_kind w i n n' d :
  w_nodes w !! i = Some n -> i_kind n' = i_kind n ->
  entries (set_nodes (insert i n') w) d = entries w d.
Proof.
  intros Hi Hk. unfold entries. simpl. destruct (decide (i = d)) as [->|Hne].
  - by rewrite lookup_insert_eq, Hi, Hk.
  - by rewrite lookup_insert_ne.
Qed.

Lemma put_entry_nodes w d n v i : i <> d -> w_nodes (put_entry d n v w) !! i = w_nodes w !! i.
Proof.
  intros Hne. unfold put_entry. destruct (w_nodes w !! d); [|done]. destruct (entries w d); [|done].
  simpl. by rewrite lookup_insert_ne.
Qed.

Lemma put_entry_dir w d n v es : entries w d = Some es ->
  entries (put_entry d n v w) d = Some (partial_alter (fun _ => v) n es).
Proof.
  intros He. pose proof (proj1 (entries_node w d es) He) as (nd & Hn & _). unfold put_entry. rewrite He, Hn.
  unfold entries. simpl. by rewrite lookup_insert_eq.
Qed.

Lemma put_entry_attrs w d n v nd : w_nodes w !! d = Some nd ->
  exists nd', w_nodes (put_entry d n v w) !! d = Some nd' /\ is_dir (i_kind nd') = is_dir (i_kind nd) /\
    i_mode nd' = i_mode nd /\ i_uid nd' = i_uid nd /\ i_gid nd' = i_gid nd.
Proof.
  intros Hn. unfold put_entry. rewrite Hn. unfold entries. rewrite Hn.
  destruct (i_kind nd) eqn:E; simpl; rewrite ?lookup_insert_eq, ?Hn; eauto.
  1, 3, 4: exists nd; rewrite E; done.
  eexists. by split.
Qed.

Lemma child_put_entry w d n v es d' n' : entries w d = Some es ->
  child (put_entry d n v w) d' n' = if bool_decide (d' = d /\ n' = n) then v else child w d' n'.
Proof.
  intros He. rewrite !child_entries. destruct (decide (d' = d)) as [->|Hd].
  - rewrite (put_entry_dir w d n v es He), He. destruct (decide (n' = n)) as [->|Hn].
    + rewrite bool_decide_eq_true_2 by done. apply lookup_partial_alter_eq.
    + rewrite bool_decide_eq_false_2 by tauto. by apply lookup_partial_alter_ne.
  - rewrite bool_decide_eq_false_2 by tauto. unfold entries. by rewrite put_entry_nodes.
Qed.

Lemma fresh_ino_new w : w_nodes w !! fresh_ino w = None.
Proof. apply (not_elem_of_dom (D := gset ino)). unfold fresh_ino. apply (is_fresh (dom (w_nodes w) : gset ino)). Qed.

Lemma child_create w d n k mode es d' n' `{OS : Os} :
  entries w d = Some es -> (forall es, k = KDir es -> es = ∅) ->
  child (create_at d n k mode w) d' n' =
  if bool_decide (d' = d /\ n' = n) then Some (fresh_ino w) else child w d' n'.
Proof.
  intros He Hk. unfold create_at. set (w1 := set_nodes _ w).
  assert (Hc : forall d', d' <> fresh_ino w -> entries w1 d' = entries w d').
  { intros d2 Hd2. unfold entries, w1. simpl. by rewrite lookup_insert_ne. }
  assert (Hd : d <> fresh_ino w).
  { intros ->. apply entries_node in He as (? & He & _). by rewrite fresh_ino_new in He. }
  rewrite (child_put_entry w1 d n _ es) by (by rewrite Hc).
  destruct (bool_decide_reflect (d' = d /\ n' = n)) as [|Hne]; [done|].
  destruct (decide (d' = fresh_ino w)) as [->|Hf]; [|by rewrite !child_entries, Hc].
  rewrite !child_entries. unfold entries, w1. simpl. rewrite lookup_insert_eq, fresh_ino_new. simpl.
  destruct k as [|es'| |]; try done. by rewrite (Hk es' eq_refl).
Qed.

Lemma create_nodes w d n k mode i nd `{OS : Os} :
  w_nodes w !! i = Some nd -> i <> d -> w_nodes (create_at d n k mode w) !! i = Some nd.
Proof.
  intros Hi Hne. unfold create_at. rewrite put_entry_nodes by done. simpl.
  rewrite lookup_insert_ne; [done|]. intros <-. by rewrite fresh_ino_new in Hi.
Qed.

Lemma create_new_node w d n k mode `{OS : Os} : w_nodes w !! d <> None ->
  w_nodes (create_at d n k mode w) !! fresh_ino w = Some (new_node k mode).
Proof.
  intros Hd. unfold create_at. rewrite put_entry_nodes; [simpl; by rewrite lookup_insert_eq|].
  intros <-. by rewrite fresh_ino_new in Hd.
Qed.

(** ** What a program leaves alone

    [N] tells the names a program may replace or remove.  Everything else stays:
    directories, entries under other names, the content of files that exist, and
    their privacy. *)

Definition private (n : inode) : Prop := Z.land (i_mode n) 63 = 0.

Record keeps (N : pystr -> Prop) (w w' : world) : Prop := {
  keeps_node i n : w_nodes w !! i = Some n ->
    exists n', w_nodes w' !! i = Some n' /\ is_dir (i_kind n') = is_dir (i_kind n) /\
      (is_dir (i_kind n) = false -> i_kind n' = i_kind n /\ (private n -> private n'));
  keeps_child d x i n : child w d x = Some i -> w_nodes w !! i = Some n ->
    ~ N x \/ is_dir (i_kind n) = true -> child w' d x = Some i }.

#[export] Instance keeps_preorder N : PreOrder (keeps N).
Proof.
  split.
  - intros w. split; [|done]. intros i n Hi. exists n. done.
  - intros w1 w2 w3 [Hn1 Hc1] [Hn2 Hc2]. split.
    + intros i n Hi. destruct (Hn1 i n Hi) as (n' & Hi' & Hd & Hk).
      destruct (Hn2 i n' Hi') as (n'' & Hi'' & Hd' & Hk'). exists n''.
      split; [done|]. split; [congruence|]. intros Hf. destruct (Hk Hf) as [E1 P1].
      destruct (Hk' ltac:(congruence)) as [E2 P2]. split; [congruence|tauto].
    + intros d x i n Hx Hi Hor. destruct (Hn1 i n Hi) as (n' & Hi' & Hd & _).
      eapply Hc2; [by eapply Hc1|exact Hi'|]. by rewrite Hd.
Qed.

Lemma keeps_mono (N N' : pystr -> Prop) w w' : (forall x, N x -> N' x) -> keeps N w w' -> keeps N' w w'.
Proof.
  intros HN [H1 H2]. split; [done|]. intros d x i n Hx Hi Ho. eapply H2; [done..|]. destruct Ho; auto.
Qed.

(** Only the clock and the descriptors change. *)
Lemma keeps_same_nodes N w w' : w_nodes w' = w_nodes w -> keeps N w w'.
Proof.
  intros E. split.
  - intros i n Hi. exists n. rewrite E. done.
  - intros d x i n Hx _ _. unfold child, entries in *. by rewrite E.
Qed.

Lemma keeps_set_node N w i n n' : w_nodes w !! i = Some n -> i_kind n' = i_kind n ->
  (is_dir (i_kind n) = false -> private n -> private n') ->
  keeps N w (set_nodes (insert i n') w).
Proof.
  intros Hi Hk Hp. split.
  - intros j m Hj. simpl. destruct (decide (i = j)) as [->|Hne].
    + rewrite lookup_insert_eq. exists n'. simplify_eq. rewrite Hk. split; [done|]. split; [done|]. auto.
    + rewrite lookup_insert_ne by done. by exists m.
  - intros d x j m Hx _ _. rewrite !child_entries in *. by rewrite (entries_same_kind w i n n').
Qed.

Lemma keeps_create N w d x k mode es `{OS : Os} : entries w d = Some es -> child w d x = None ->
  (forall es, k = KDir es -> es = ∅) -> keeps N w (create_at d x k mode w).
Proof.
  intros He Hx Hk. split.
  - intros i n Hi. destruct (decide (i = d)) as [->|Hne].
    + unfold create_at.
      destruct (put_entry_attrs (set_nodes (insert (fresh_ino w) (new_node k mode)) w) d x
        (Some (fresh_ino w)) n) as (n' & E1 & E2 & E3 & _).
      { simpl. rewrite lookup_insert_ne; [done|]. intros <-. by rewrite fresh_ino_new in Hi. }
      exists n'. split; [done|]. split; [done|].
      apply entries_node in He as (n2 & Hn2 & Hkd). simplify_eq. by rewrite Hkd.
    + exists n. split; [by apply create_nodes|]. done.
  - intros d' x' i n Hc _ _. rewrite (child_create w d x k mode es) by done.
    destruct (bool_decide_reflect (d' = d /\ x' = x)) as [[-> ->]|]; [congruence|done].
Qed.

(** Removing an entry that is no directory, under a name of [N]. *)
Lemma keeps_remove (N : pystr -> Prop) w d x i n :
  child w d x = Some i -> w_nodes w !! i = Some n -> is_dir (i_kind n) = false -> N x ->
  keeps N w (put_entry d x None w).
Proof.
  intros Hc Hi Hd HN.
  destruct (entries w d) as [es|] eqn:He; [|by rewrite child_entries, He in Hc].
  split.
  - intros j m Hj. destruct (decide (j = d)) as [->|Hne].
    + destruct (put_entry_attrs w d x None m Hj) as (m' & E1 & E2 & E3 & _).
      exists m'. split; [done|]. split; [done|].
      apply entries_node in He as (n2 & Hn2 & Hkd). simplify_eq. by rewrite Hkd.
    + exists m. by rewrite put_entry_nodes.
  - intros d' x' j m Hc' Hj Ho. rewrite (child_put_entry w d x None es) by done.
    destruct (bool_decide_reflect (d' = d /\ x' = x)) as [[-> ->]|]; [|done].
    simplify_eq. destruct Ho; [done|congruence].
Qed.

Section Calls.
Context {OS : Os}.

(** A call either fails or acts on a world one call later. *)
Lemma syscall_Ok {A} f w (a : A) w' :
  syscall f w = (Ok a, w') -> exists x, x <> Fails /\ f x (step_tick w) = (Ok a, w').
Proof. unfold syscall. destruct (os_fault _) eqn:E; intros H; [|done|]; eexists; (split; [|exact H]); done. Qed.

Lemma syscall_calm {A} (f : fault -> world -> res A * world) w :
  calm OS -> syscall f w = f NoFault (step_tick w).
Proof. intros Hc. unfold syscall. by rewrite Hc. Qed.

Section Keeps.
Context (N : pystr -> Prop).
Local Abbreviation kept := (pres (keeps N)).

Lemma kept_syscall {A} (f : fault -> world -> res A * world) :
  (forall x w, keeps N w (f x w).2) -> kept (syscall f).
Proof.
  intros Hf w. transitivity (step_tick w); [by apply keeps_same_nodes|].
  unfold syscall. destruct (os_fault _); [apply Hf|done|apply Hf].
Qed.

(** A call on an entry: what it does with an inode it finds, or to a directory
    that lacks the name. *)
Lemma kept_entry {A} d x w (found : ino -> inode -> res A * world) missing :
  (forall i n, child w d x = Some i -> w_nodes w !! i = Some n -> keeps N w (found i n).2) ->
  (forall es, entries w d = Some es -> child w d x = None -> keeps N w missing.2) ->
  keeps N w (at_entry d x w found missing).2.
Proof.
  intros Hf Hm. unfold at_entry. destruct (child w d x) as [i|] eqn:Hc.
  - destruct (w_nodes w !! i) as [n|] eqn:Hi; [by apply Hf|done].
  - destruct (entries w d) as [es|] eqn:He; [by eapply Hm|done].
Qed.

Lemma kept_inode {A} i w (f : inode -> world -> res A * world) :
  (forall n, w_nodes w !! i = Some n -> keeps N w (f n w).2) -> keeps N w (on_inode i f w).2.
Proof. intros Hf. unfold on_inode. destruct (w_nodes w !! i) as [n|] eqn:E; [by apply Hf|done]. Qed.

Lemma kept_opened i w : keeps N w (opened i w).2.
Proof. by apply keeps_same_nodes. Qed.

Lemma kept_open_root : kept os_open_root.
Proof. apply kept_syscall. intros. apply kept_opened. Qed.
Lemma kept_mkdir d x mode : kept (os_mkdir d x mode).
Proof.
  apply kept_syscall. intros f w. apply kept_entry; [done|]. intros es He Hc.
  apply (keeps_create N w d x (KDir ∅) mode es He Hc). intros es' H. congruence.
Qed.
Lemma kept_open_dir d x : kept (os_open_dir d x).
Proof. apply kept_syscall. intros f w. apply kept_entry; [|done]. intros i n _ _. destruct (isdir n); [apply kept_opened|done]. Qed.
Lemma kept_open_excl d x mode : kept (os_open_excl d x mode).
Proof.
  apply kept_syscall. intros f w. apply kept_entry; [done|]. intros es He Hc. simpl.
  etransitivity; [by eapply (keeps_create N w d x (KFile []) mode)|by apply keeps_same_nodes].
Qed.
Lemma kept_open_read d x : kept (os_open_read d x).
Proof. apply kept_syscall. intros f w. apply kept_entry; [|done]. intros i n _ _. destruct (i_kind n); apply kept_opened || done. Qed.
Lemma kept_open_rw d x mode : kept (os_open_rw d x mode).
Proof.
  apply kept_syscall. intros f w. apply kept_entry.
  - intros i n _ _. destruct (i_kind n); apply kept_opened || done.
  - intros es He Hc. simpl.
    etransitivity; [by eapply (keeps_create N w d x (KFile []) mode)|by apply keeps_same_nodes].
Qed.
Lemma kept_close i : kept (os_close i).
Proof. intros w. by apply keeps_same_nodes. Qed.
Lemma kept_fchmod i mode : Z.land mode 63 = 0 -> kept (os_fchmod i mode).
Proof.
  intros Hm. apply kept_syscall. intros f w. apply kept_inode. intros n Hn.
  by apply (keeps_set_node N w i n).
Qed.
Lemma kept_fchown i u g : kept (os_fchown i u g).
Proof. apply kept_syscall. intros f w. apply kept_inode. intros n Hn. by apply (keeps_set_node N w i n). Qed.
Lemma kept_fstat i : kept (os_fstat i).
Proof. apply kept_syscall. intros f w. by apply kept_inode. Qed.
Lemma kept_fsync i : kept (os_fsync i).
Proof. apply kept_syscall. intros f w. by apply kept_inode. Qed.
Lemma kept_flock i : kept (os_flock i).
Proof. apply kept_syscall. intros f w. by apply kept_inode. Qed.
Lemma kept_lstat d x : kept (os_lstat d x).
Proof. apply kept_syscall. intros f w. by apply kept_entry. Qed.
Lemma kept_read i off n : kept (os_read i off n).
Proof. apply kept_syscall. intros f w. apply kept_inode. intros nd _. destruct (i_kind nd); reflexivity. Qed.
Lemma kept_unlink d x : N x -> kept (os_unlink d x).
Proof.
  intros HN. apply kept_syscall. intros f w. apply kept_entry; [|done]. intros i n Hc Hi.
  destruct (isdir n) eqn:E; [done|]. by eapply keeps_remove.
Qed.
Lemma kept_time : kept os_time.
Proof. intros w. by apply keeps_same_nodes. Qed.
Lemma kept_urandom n : kept (os_urandom n).
Proof. intros w. by apply keeps_same_nodes. Qed.

End Keeps.
End Calls.

Create HintDb kept.
#[export] Hint Resolve kept_open_root kept_mkdir kept_open_dir kept_open_excl kept_open_read kept_open_rw
  kept_close kept_fchown kept_fstat kept_fsync kept_flock kept_lstat kept_read kept_time kept_urandom : kept.

(** Prove that a program made of such calls keeps the rest. *)
Ltac kept := repeat (pres_step || (progress eauto with kept)).

(** ** Triples with an outcome for each exception

    [hoare P m Q E]: from a world with [P], [m] returns a value in a world with
    [Q], or raises in a world with [E]. *)
Definition hoare {A} (P : world -> Prop) (m : IO A) (Q : A -> world -> Prop) (E : exn -> world -> Prop) : Prop :=
  forall w, P w -> match m w with (Ok a, w') => Q a w' | (Exc e, w') => E e w' end.

Section Hoare.
Context {A B : Type}.
Implicit Types (P : world -> Prop) (E : exn -> world -> Prop).

Lemma io_hoare_bind P (m : IO A) (f : A -> IO B) Q R E :
  hoare P m Q E -> (forall a, hoare (Q a) (f a) R E) -> hoare P (m ≫= f) R E.
Proof.
  intros Hm Hf w HP. specialize (Hm w HP). unfold mbind, io_bind.
  destruct (m w) as [[a|e] w1]; [by apply Hf|done].
Qed.

Lemma io_hoare_conseq P P' (m : IO A) Q Q' E E' :
  hoare P' m Q' E' -> (forall w, P w -> P' w) -> (forall a w, Q' a w -> Q a w) -> (forall e w, E' e w -> E e w) ->
  hoare P m Q E.
Proof.
  intros H HP HQ HE w Hw. specialize (H w (HP w Hw)). destruct (m w) as [[a|e] w1]; auto.
Qed.

Lemma io_hoare_ret P (a : A) (Q : A -> world -> Prop) E : (forall w, P w -> Q a w) -> hoare P (mret a) Q E.
Proof. intros H w Hw. by apply H. Qed.

Lemma io_hoare_raise P e (Q : A -> world -> Prop) E : (forall w, P w -> E e w) -> hoare P (raise e) Q E.
Proof. intros H w Hw. by apply H. Qed.

Lemma io_hoare_finally P (m : IO A) f Q E Q' E' :
  hoare P m Q E ->
  (forall a, hoare (Q a) f (fun _ => Q' a) E') -> (forall e, hoare (E e) f (fun _ => E' e) E') ->
  hoare P (finally m f) Q' E'.
Proof.
  intros Hm Hq He w Hw. specialize (Hm w Hw). unfold finally. destruct (m w) as [[a|e] w1].
  - specialize (Hq a w1 Hm). by destruct (f w1) as [[u|e] w2].
  - specialize (He e w1 Hm). by destruct (f w1) as [[u|e'] w2].
Qed.

Lemma io_hoare_try P (m : IO A) h Q E E' :
  hoare P m Q E -> (forall e, hoare (E e) (h e) Q E') -> hoare P (try_io m h) Q E'.
Proof. intros Hm Hh w Hw. specialize (Hm w Hw). unfold try_io. destruct (m w) as [[a|e] w1]; [done|by apply Hh]. Qed.

End Hoare.

(** ** The exceptions a program can raise *)

Definition raises (P : exn -> Prop) {A} (m : IO A) : Prop := forall w e w', m w = (Exc e, w') -> P e.

Section Raises.
Context (P : exn -> Prop) {A B : Type}.

Lemma raises_ret (a : A) : raises P (mret a : IO A).
Proof. by intros w e w'. Qed.
Lemma raises_guard b e : P e -> raises P (guard_io b e).
Proof. intros He w e' w'. unfold guard_io, raise. destruct b; [done|]. by intros [= <- _]. Qed.
Lemma raises_raise e : P e -> raises P (raise e : IO A).
Proof. intros He w e' w'. by intros [= <- _]. Qed.
Lemma raises_bind (m : IO A) (f : A -> IO B) : raises P m -> (forall a, raises P (f a)) -> raises P (m ≫= f).
Proof.
  intros Hm Hf w e w'. unfold mbind, io_bind. destruct (m w) as [[a|e1] w1] eqn:E; [by apply Hf|].
  intros [= <- <-]. by eapply Hm.
Qed.
Lemma raises_finally (m : IO A) f : raises P m -> raises P f -> raises P (finally m f).
Proof.
  intros Hm Hf w e w'. unfold finally. destruct (m w) as [r w1] eqn:E. destruct (f w1) as [[u|e2] w2] eqn:E2.
  - intros [= -> <-]. by eapply Hm.
  - intros [= <- <-]. by eapply Hf.
Qed.
End Raises.

Lemma io_bind_exc_inv {A B} (m : IO A) (f : A -> IO B) w e w' :
  (m ≫= f) w = (Exc e, w') -> m w = (Exc e, w') \/ exists a w1, m w = (Ok a, w1) /\ f a w1 = (Exc e, w').
Proof. unfold mbind, io_bind. destruct (m w) as [[a|e1] w1]; [eauto|]. intros [= -> ->]. by left. Qed.
