(* ===== verification/BrokerReadSpec.v ===== *)
(** Reading files: which inode a path names ([reach], [file_at]), that a read
    gives the whole content of that file whatever the pieces the system returns it
    in, and that reading changes nothing. *)

From stdpp Require Import base gmap option list.
From Stdlib Require Import ZArith Lia Bool String.
From S2P Require Import Prelude PyText PyVal PyFs PyPath Credential BrokerFiles PyFsFacts.
Open Scope Z_scope.

(** ** The inode a path names, no link being followed *)

Definition file_at (w : world) (path : list pystr) : option inode :=
  d ← reach w root_ino (split_path path).1;
  i ← child w d (split_path path).2;
  w_nodes w !! i.

(** The file at [path] is a regular file with the content [data]. *)
Definition has_file (w : world) (path : list pystr) (data : bytes) : Prop :=
  exists n, file_at w path = Some n /\ i_kind n = KFile data.

Lemma reach_nodes w w' d comps : w_nodes w' = w_nodes w -> reach w' d comps = reach w d comps.
Proof.
  intros E. revert d. induction comps as [|c rest IH]; intros d; [done|]. simpl.
  unfold child, entries. rewrite E. destruct (match w_nodes w !! d with Some _ => _ | None => _ end) as [es|]; [|done].
  simpl. destruct (es !! c) as [i|]; [|done]. simpl. destruct (w_nodes w !! i) as [n|]; [|done]. simpl.
  by destruct (isdir n).
Qed.

Lemma child_nodes w w' d x : w_nodes w' = w_nodes w -> child w' d x = child w d x.
Proof. intros E. unfold child, entries. by rewrite E. Qed.

Lemma reach_keeps N w w' d comps e : keeps N w w' -> reach w d comps = Some e -> reach w' d comps = Some e.
Proof.
  intros Hk. revert d. induction comps as [|c rest IH]; intros d; [done|]. simpl.
  destruct (child w d c) as [i|] eqn:Hc; [|done]. simpl.
  destruct (w_nodes w !! i) as [n|] eqn:Hi; [|done]. simpl. destruct (isdir n) eqn:Hd; [|done].
  rewrite (keeps_child N w w' Hk d c i n Hc Hi (or_intror Hd)). simpl.
  destruct (keeps_node N w w' Hk i n Hi) as (n' & -> & Hd' & _). simpl.
  unfold isdir in *. rewrite Hd', Hd. apply IH.
Qed.

Lemma reach_dir w d comps e c : reach w d (comps ++ [c]) = Some e ->
  exists n, w_nodes w !! e = Some n /\ isdir n = true.
Proof.
  revert d. induction comps as [|x rest IH]; intros d; simpl.
  - destruct (child w d c) as [i|]; [|done]. simpl. destruct (w_nodes w !! i) as [n|] eqn:Hi; [|done]. simpl.
    destruct (isdir n) eqn:E; [|done]. intros [= <-]. eauto.
  - destruct (child w d x) as [i|]; [|done]. simpl. destruct (w_nodes w !! i) as [n|]; [|done]. simpl.
    destruct (isdir n); [|done]. apply IH.
Qed.

(** ** Nothing but the clock changes *)

Definition same_nodes (w w' : world) : Prop := w_nodes w' = w_nodes w.

#[export] Instance same_nodes_preorder : PreOrder same_nodes.
Proof. split; [done|]. intros w1 w2 w3 H1 H2. unfold same_nodes in *. congruence. Qed.

Lemma same_keeps N w w' : same_nodes w w' -> keeps N w w'.
Proof. apply keeps_same_nodes. Qed.

Section Reads.
Context {OS : Os}.

Lemma still_syscall {A} (f : fault -> world -> res A * world) :
  (forall x w, same_nodes w (f x w).2) -> pres same_nodes (syscall f).
Proof.
  intros Hf w. transitivity (step_tick w); [done|].
  unfold syscall. destruct (os_fault _); [apply Hf|done|apply Hf].
Qed.

Lemma still_entry {A} d x w (found : ino -> inode -> res A * world) missing :
  (forall i n, same_nodes w (found i n).2) -> same_nodes w missing.2 ->
  same_nodes w (at_entry d x w found missing).2.
Proof.
  intros Hf Hm. unfold at_entry. destruct (child w d x) as [i|]; [|by destruct (entries w d)].
  destruct (w_nodes w !! i); [apply Hf|done].
Qed.

Lemma still_inode {A} i w (f : inode -> world -> res A * world) :
  (forall n, same_nodes w (f n w).2) -> same_nodes w (on_inode i f w).2.
Proof. intros Hf. unfold on_inode. destruct (w_nodes w !! i); [apply Hf|done]. Qed.

Lemma still_open_root : pres same_nodes os_open_root.
Proof. by apply still_syscall. Qed.
Lemma still_open_dir d x : pres same_nodes (os_open_dir d x).
Proof. apply still_syscall. intros f w. apply still_entry; [|done]. intros i n. by destruct (isdir n). Qed.
Lemma still_open_read d x : pres same_nodes (os_open_read d x).
Proof. apply still_syscall. intros f w. apply still_entry; [|done]. intros i n. by destruct (i_kind n). Qed.
Lemma still_close i : pres same_nodes (os_close i).
Proof. by intros w. Qed.
Lemma still_fstat i : pres same_nodes (os_fstat i).
Proof. apply still_syscall. intros f w. by apply still_inode. Qed.
Lemma still_lstat d x : pres same_nodes (os_lstat d x).
Proof. apply still_syscall. intros f w. by apply still_entry. Qed.
Lemma still_fsync i : pres same_nodes (os_fsync i).
Proof. apply still_syscall. intros f w. by apply still_inode. Qed.
Lemma still_flock i : pres same_nodes (os_flock i).
Proof. apply still_syscall. intros f w. by apply still_inode. Qed.
Lemma still_read i off n : pres same_nodes (os_read i off n).
Proof. apply still_syscall. intros f w. apply still_inode. intros nd. by destruct (i_kind nd). Qed.
Lemma still_time : pres same_nodes os_time.
Proof. by intros w. Qed.
Lemma still_urandom n : pres same_nodes (os_urandom n).
Proof. by intros w. Qed.

End Reads.

Create HintDb still.
#[export] Hint Resolve still_open_root still_open_dir still_open_read still_close still_fstat still_lstat
  still_fsync still_flock still_read still_time still_urandom : still.
Ltac still := repeat (pres_step || (progress eauto with still)).

(** ** Directories *)

Section Directories.
Context {OS : Os} {K : Kdf}.

Lemma os_open_dir_Ok d x w i w' : os_open_dir d x w = (Ok i, w') ->
  same_nodes w w' /\ child w d x = Some i /\ exists n, w_nodes w !! i = Some n /\ isdir n = true.
Proof.
  intros H. split; [eapply io_pres_run; [apply still_open_dir|exact H]|].
  apply syscall_Ok in H as (f & _ & H). unfold at_entry in H. rewrite child_tick in H.
  destruct (child w d x) as [j|]; [|by destruct (entries _ d)]. simpl in H.
  destruct (w_nodes w !! j) as [n|] eqn:Hj; [|done]. destruct (isdir n) eqn:E; [|done].
  injection H as <- <-. eauto.
Qed.

Lemma open_step_keeps create mode d c : pres (keeps (fun _ => False)) (open_step create mode d c).
Proof. unfold open_step, tolerate_exists. kept. Qed.

Lemma open_step_still mode d c : pres same_nodes (open_step false mode d c).
Proof. unfold open_step. still. Qed.

Lemma open_step_Ok create mode d c w i m w' : open_step create mode d c w = (Ok (i, m), w') ->
  child w' d c = Some i /\ _safe_component c = true /\ exists n, w_nodes w' !! i = Some n /\ isdir n = true.
Proof.
  unfold open_step. intros H. apply io_bind_Ok in H as ([i' m'] & w1 & H1 & H).
  apply on_error_Ok in H1. apply io_bind_Ok in H1 as (u & w2 & H2 & H1). apply guard_io_Ok in H2 as [Hsafe ->].
  apply io_bind_Ok in H1 as (made & w3 & _ & H1). apply io_bind_Ok in H1 as (j & w4 & Hopen & H1).
  apply ret_Ok in H1 as [Hj ->]. apply io_bind_Ok in H as (v & w5 & Hclose & H). apply ret_Ok in H as [E ->].
  simplify_eq. apply os_open_dir_Ok in Hopen as (Hs & Hc & n & Hn & Hd).
  assert (Hw : w_nodes w5 = w_nodes w3) by (injection Hclose as _ <-; exact Hs).
  rewrite (child_nodes w3 w5) by done. rewrite Hw. eauto.
Qed.

Lemma open_components_keeps create fm d b comps : pres (keeps (fun _ => False)) (open_components create fm d b comps).
Proof.
  revert d b. induction comps as [|c rest IH]; intros d b; simpl; [kept|].
  apply io_pres_bind; [typeclasses eauto|apply open_step_keeps|]. intros [i m]. apply IH.
Qed.

Lemma open_components_still fm d b comps : pres same_nodes (open_components false fm d b comps).
Proof.
  revert d b. induction comps as [|c rest IH]; intros d b; simpl; [still|].
  apply io_pres_bind; [typeclasses eauto|apply open_step_still|]. intros [i m]. apply IH.
Qed.

Lemma open_components_Ok create fm d b comps w e b' w' :
  open_components create fm d b comps w = (Ok (e, b'), w') ->
  reach w' d comps = Some e /\ forallb _safe_component comps = true.
Proof.
  revert d b w. induction comps as [|c rest IH]; intros d b w H; simpl in H.
  - apply ret_Ok in H as [E ->]. simplify_eq. done.
  - apply io_bind_Ok in H as ([i m] & w1 & Hstep & H).
    pose proof (io_pres_run _ _ _ _ _ (open_components_keeps create fm i m rest) H) as Hk.
    apply open_step_Ok in Hstep as (Hc & Hsafe & n & Hn & Hd). apply IH in H as [Hr Hs].
    destruct (keeps_node _ _ _ Hk i n Hn) as (n' & Hn' & Hd' & _). cbn [reach forallb].
    rewrite (keeps_child _ _ _ Hk d c i n Hc Hn (or_intror Hd)). cbn [mbind option_bind].
    rewrite Hn'. cbn [mbind option_bind]. unfold isdir in *. by rewrite Hd', Hd, Hsafe.
Qed.

Lemma secure_directory_still fm repair comps : pres same_nodes (_open_secure_directory false fm repair comps).
Proof.
  unfold _open_secure_directory. apply io_pres_bind; [typeclasses eauto|still|]. intros r.
  apply io_pres_bind; [typeclasses eauto|apply open_components_still|]. intros [d b]. still.
Qed.

Lemma settle_keeps d mode b w : (exists n, w_nodes w !! d = Some n /\ isdir n = true) ->
  keeps (fun _ => False) w (settle_metadata d mode b w).2.
Proof.
  intros (n & Hn & Hd). unfold settle_metadata, mbind at 1, io_bind at 1.
  assert (Hf : keeps (fun _ => False) w ((if b then os_fchmod d mode else mret tt) w).2).
  { destruct b; [|done]. transitivity (step_tick w); [by apply keeps_same_nodes|].
    unfold os_fchmod, syscall. destruct (os_fault _); [|done|];
      (apply kept_inode; intros nd Hnd; apply (keeps_set_node _ _ _ nd); [done|done|];
       simpl in Hnd; simplify_eq; unfold isdir in Hd; congruence). }
  destruct ((if b then os_fchmod d mode else mret tt) w) as [[u|e] w1]; [|done]. simpl in Hf.
  etransitivity; [exact Hf|].
  assert (Hp : pres (keeps (fun _ => False)) (status ← os_fstat d;
    guard_io (isdir status && (i_uid status =? os_euid) && (i_gid status =? os_egid)
            && (i_mode status =? mode)) AuthenticationError)) by kept.
  apply Hp.
Qed.

(** The directory opened is the one the path names, and nothing that existed is
    disturbed on any path. *)
Lemma secure_directory_run create fm repair comps w r w' :
  _open_secure_directory create fm repair comps w = (r, w') ->
  keeps (fun _ => False) w w' /\
  forall d, r = Ok d -> reach w' root_ino comps = Some d /\ forallb _safe_component comps = true.
Proof.
  unfold _open_secure_directory. unfold mbind at 1, io_bind at 1.
  pose proof (kept_open_root (fun _ => False) w) as Hroot.
  destruct (os_open_root w) as [[r0|e] w1] eqn:Er; [|intros [= <- <-]; done].
  assert (r0 = root_ino) as ->.
  { apply syscall_Ok in Er as (f & _ & Er). unfold opened in Er. congruence. }
  simpl in Hroot. unfold mbind at 1, io_bind at 1.
  pose proof (open_components_keeps create fm root_ino false comps w1) as Hc.
  destruct (open_components create fm root_ino false comps w1) as [[[d b]|e] w2] eqn:Eo; simpl in Hc;
    [|intros [= <- <-]; split; [by etransitivity|done]].
  assert (Hk : keeps (fun _ => False) w w2) by by etransitivity.
  apply open_components_Ok in Eo as [Hr Hs].
  assert (Hplain : (r, w') = (Ok d, w2) -> keeps (fun _ => False) w w' /\
    forall d, r = Ok d -> reach w' root_ino comps = Some d /\ forallb _safe_component comps = true).
  { intros [= -> ->]. split; [done|]. by intros ? [= <-]. }
  destruct fm as [mode|]; [|by intros H; apply Hplain].
  destruct comps as [|c comps]; [by intros H; apply Hplain|].
  destruct create; [|by intros H; apply Hplain].
  assert (Hdir : exists n, w_nodes w2 !! d = Some n /\ isdir n = true).
  { destruct (exists_last (l := c :: comps) ltac:(done)) as (pre & x & E). rewrite E in Hr. by eapply reach_dir. }
  pose proof (settle_keeps d mode (b || repair) w2 Hdir) as Hmeta.
  unfold mbind at 1, io_bind at 1, on_error, try_io.
  destruct (settle_metadata d mode (b || repair) w2) as [[u|e] w3]; simpl in Hmeta; intros [= <- <-].
  - assert (keeps (fun _ => False) w w3) by (transitivity w2; done). split; [done|].
    intros ? [= <-]. split; [|done]. by apply (reach_keeps _ _ _ _ _ _ Hmeta).
  - split; [|done]. etransitivity; [exact Hk|]. etransitivity; [exact Hmeta|]. by apply keeps_same_nodes.
Qed.

Lemma secure_directory_kept N create fm repair comps : pres (keeps N) (_open_secure_directory create fm repair comps).
Proof.
  intros w. destruct (_open_secure_directory create fm repair comps w) as [r w'] eqn:E.
  apply secure_directory_run in E as [Hk _]. by eapply keeps_mono; [|exact Hk].
Qed.

(** With no failing call, an existing directory is found. *)
Lemma secure_directory_found repair comps w d :
  calm OS -> reach w root_ino comps = Some d -> forallb _safe_component comps = true ->
  exists w', _open_secure_directory false None repair comps w = (Ok d, w') /\ same_nodes w w'.
Proof.
  intros Hc Hr Hs. unfold _open_secure_directory, os_open_root.
  rewrite (io_bind_run _ _ w root_ino (add_open 1 (step_tick w))) by (by rewrite syscall_calm).
  assert (H : forall d0 b w0, reach w0 d0 comps = Some d -> exists b' w',
    open_components false None d0 b comps w0 = (Ok (d, b'), w') /\ same_nodes w0 w').
  { clear w Hr. induction comps as [|c rest IH]; intros d0 b w0 Hr.
    - simpl in Hr. exists b, w0. by simplify_eq.
    - cbn [reach] in Hr. destruct (child w0 d0 c) as [i|] eqn:Hch; [|done]. cbn [mbind option_bind] in Hr.
      destruct (w_nodes w0 !! i) as [n|] eqn:Hn; [|done]. cbn [mbind option_bind] in Hr.
      destruct (isdir n) eqn:Hd; [|done]. cbn [forallb] in Hs. apply andb_true_iff in Hs as [Hs1 Hs2].
      cbn [open_components].
      assert (Hstep : open_step false (match rest with [] => mode_755 | _ => mode_755 end) d0 c w0 =
        (Ok (i, false), add_open (-1) (add_open 1 (step_tick w0)))).
      { unfold open_step, on_error, try_io, mbind, io_bind, guard_io. rewrite Hs1.
        unfold mret, io_ret. unfold os_open_dir. rewrite syscall_calm by done.
        unfold at_entry. rewrite child_tick, Hch. simpl. by rewrite Hn, Hd. }
      destruct (IH Hs2 i false (add_open (-1) (add_open 1 (step_tick w0)))) as (b' & w' & E & Hw).
      { by rewrite (reach_nodes w0). }
      exists b', w'. split; [|by transitivity (add_open (-1) (add_open 1 (step_tick w0)))].
      destruct rest; rewrite (io_bind_run _ _ _ _ _ Hstep); exact E. }
  destruct (H root_ino false (add_open 1 (step_tick w))) as (b' & w' & E & Hw); [by rewrite (reach_nodes w)|].
  exists w'. split; [|by transitivity (add_open 1 (step_tick w))].
  rewrite (io_bind_run _ _ _ (d, b') w') by done. done.
Qed.

(** ** Files *)

Lemma os_read_Ok i off n w bs w' nd data : 0 < n ->
  os_read i off n w = (Ok bs, w') -> w_nodes w !! i = Some nd -> i_kind nd = KFile data ->
  exists k, 1 <= k <= n /\ bs = zslice data off (off + k).
Proof.
  intros Hn H Hi Hk. apply syscall_Ok in H as (f & Hf & H). unfold on_inode in H. simpl in H. rewrite Hi, Hk in H.
  destruct f as [| |k]; [|done|]; injection H as <- _; [by exists n; split; [lia|]|].
  exists (Z.max 1 (Z.min k n)). split; [lia|done].
Qed.

Lemma zslice_split {A} (l : list A) a k n : 0 <= a -> 0 <= k <= n ->
  zslice l a (a + n) = zslice l a (a + k) ++ zslice l (a + k) (a + n).
Proof.
  intros Ha Hk. unfold zslice, ztake, zdrop.
  replace (Z.to_nat (a + n - a)) with (Z.to_nat k + Z.to_nat (n - k))%nat by lia.
  replace (Z.to_nat (a + k - a)) with (Z.to_nat k) by lia.
  replace (Z.to_nat (a + n - (a + k))) with (Z.to_nat (n - k)) by lia.
  rewrite Z2Nat.inj_add, <- drop_drop by lia. by rewrite take_take_drop.
Qed.

Lemma zslice_clip {A} (l : list A) a k : 0 <= a -> 0 <= k ->
  zslice l a (a + k) = zslice l a (a + zlen (zslice l a (a + k))) /\ zlen (zslice l a (a + k)) <= k.
Proof.
  intros Ha Hk.
  assert (Hs : forall j, zslice l a (a + j) = take (Z.to_nat j) (zdrop a l)).
  { intros j. unfold zslice, ztake. by rewrite Z.add_simpl_l. }
  rewrite (Hs (zlen _)), (Hs k). unfold zlen. rewrite length_take.
  split; [|lia]. destruct (Nat.le_ge_cases (Z.to_nat k) (List.length (zdrop a l))).
  - f_equal. lia.
  - rewrite !take_ge; [done|lia|lia].
Qed.

Lemma read_chunks_still fuel i off rem : pres same_nodes (read_chunks fuel i off rem).
Proof. revert off rem. induction fuel as [|fuel IH]; intros off rem; simpl; still. Qed.

(** Whatever the pieces, a bounded read gives the bytes of the file up to the
    bound. *)
Lemma read_chunks_Ok fuel i off rem w bs w' nd data :
  0 <= off -> 0 <= rem <= Z.of_nat fuel ->
  read_chunks fuel i off rem w = (Ok bs, w') -> w_nodes w !! i = Some nd -> i_kind nd = KFile data ->
  bs = zslice data off (off + rem).
Proof.
  revert off rem w bs. induction fuel as [|fuel IH]; intros off rem w bs Ho Hr H Hi Hk.
  - simpl in H. apply ret_Ok in H as [-> ->]. replace rem with 0 by lia.
    unfold zslice. by rewrite Z.add_0_r, Z.sub_diag.
  - cbn [read_chunks] in H. destruct (rem =? 0) eqn:E.
    { apply ret_Ok in H as [-> ->]. apply Z.eqb_eq in E as ->. unfold zslice. by rewrite Z.add_0_r, Z.sub_diag. }
    apply io_bind_Ok in H as (chunk & w1 & Hread & H).
    pose proof (io_pres_run _ _ _ _ _ (still_read _ _ _) Hread) as Hs. unfold same_nodes in Hs.
    pose proof (os_read_Ok i off (Z.min rem 4096) w chunk w1 nd data ltac:(lia) Hread Hi Hk) as (k & Hkb & Hc).
    destruct (zslice_clip data off k ltac:(lia) ltac:(lia)) as [Hclip Hle]. rewrite <- Hc in Hclip, Hle.
    destruct chunk as [|c chunk].
    + apply ret_Ok in H as [-> ->]. rewrite (zslice_split data off k rem) by lia. rewrite <- Hc.
      symmetry. apply nil_length_inv.
      assert (Hd : zdrop off data = []).
      { unfold zslice in Hc. destruct (zdrop off data) as [|x l] eqn:Ed; [done|]. exfalso.
        unfold ztake in Hc. rewrite Z.add_simpl_l in Hc. destruct (Z.to_nat k) eqn:Ek; [lia|done]. }
      rewrite app_nil_l. unfold zslice, zdrop. rewrite Z2Nat.inj_add, <- drop_drop by lia.
      fold (zdrop off data). rewrite Hd. unfold ztake. by rewrite drop_nil, take_nil.
    + set (ch := c :: chunk) in *. assert (Hpos : 1 <= zlen ch) by (unfold ch; rewrite zlen_cons; pose proof (zlen_nonneg chunk); lia).
      apply io_bind_Ok in H as (rest & w2 & Hrest & H). apply ret_Ok in H as [-> ->].
      apply IH in Hrest as ->; [|lia|lia|by rewrite Hs|done].
      rewrite (zslice_split data off (zlen ch) rem) by lia. rewrite <- Hclip.
      do 2 f_equal. lia.
Qed.

Lemma read_chunks_calm fuel i off rem w nd data :
  calm OS -> w_nodes w !! i = Some nd -> i_kind nd = KFile data ->
  exists bs w', read_chunks fuel i off rem w = (Ok bs, w').
Proof.
  intros Hc. revert off rem w. induction fuel as [|fuel IH]; intros off rem w Hi Hk; [by eexists _, _|].
  cbn [read_chunks]. destruct (rem =? 0); [by eexists _, _|].
  assert (Hr : exists b, os_read i off (Z.min rem 4096) w = (Ok b, step_tick w)).
  { unfold os_read. rewrite syscall_calm by done. unfold on_inode. simpl. rewrite Hi, Hk. eauto. }
  destruct Hr as (b & Hr). rewrite (io_bind_run _ _ _ _ _ Hr). destruct b as [|x b]; [by eexists _, _|].
  destruct (IH (off + zlen (x :: b)) (rem - zlen (x :: b)) (step_tick w) Hi Hk) as (bs & w' & E).
  rewrite (io_bind_run _ _ _ _ _ E). by eexists _, _.
Qed.

Lemma read_regular_still d x m : pres same_nodes (_read_regular_at d x m).
Proof. unfold _read_regular_at. still. apply read_chunks_still. Qed.

Lemma os_open_read_Ok d x w i w' : os_open_read d x w = (Ok i, w') ->
  child w d x = Some i /\ exists n, w_nodes w !! i = Some n.
Proof.
  intros H. apply syscall_Ok in H as (f & _ & H). unfold at_entry in H. rewrite child_tick in H.
  destruct (child w d x) as [j|]; [|by destruct (entries _ d)]. simpl in H.
  destruct (w_nodes w !! j) as [n|] eqn:Hj; [|done].
  destruct (i_kind n); try done; injection H as <- <-; eauto.
Qed.

Lemma os_fstat_Ok i w n w' : os_fstat i w = (Ok n, w') -> w_nodes w !! i = Some n.
Proof.
  intros H. apply syscall_Ok in H as (f & _ & H). unfold on_inode in H. simpl in H.
  destruct (w_nodes w !! i); [|done]. congruence.
Qed.

Lemma zslice_all {A} (l : list A) n : zlen l <= n -> zslice l 0 (0 + n) = l.
Proof. intros H. unfold zslice. rewrite zdrop_0. apply ztake_all. lia. Qed.

(** A read that succeeds gives the whole content of the regular file the name
    stands for. *)
Lemma read_regular_Ok d x m w data n w' : 0 <= m ->
  _read_regular_at d x m w = (Ok (data, n), w') ->
  exists i, child w d x = Some i /\ w_nodes w !! i = Some n /\ i_kind n = KFile data /\ zlen data <= m /\
    _safe_component x = true.
Proof.
  intros Hm H. unfold _read_regular_at in H.
  apply io_bind_Ok in H as (u & w1 & Hg & H). apply guard_io_Ok in Hg as [Hsafe ->].
  apply io_bind_Ok in H as (i & w2 & Hopen & H).
  pose proof (io_pres_run _ _ _ _ _ (still_open_read d x) Hopen) as H12. unfold same_nodes in H12.
  apply os_open_read_Ok in Hopen as (Hc & n0 & Hn0).
  apply finally_Ok in H as (u' & w3 & H & _).
  apply io_bind_Ok in H as (meta & w4 & Hstat & H).
  pose proof (io_pres_run _ _ _ _ _ (still_fstat i) Hstat) as H24. unfold same_nodes in H24.
  apply os_fstat_Ok in Hstat. apply io_bind_Ok in H as (u2 & w5 & Hg & H). apply guard_io_Ok in Hg as [Hreg ->].
  apply io_bind_Ok in H as (bs & w6 & Hread & H).
  apply io_bind_Ok in H as (u3 & w7 & Hg & H). apply guard_io_Ok in Hg as [Hlen ->].
  apply ret_Ok in H as [E ->]. injection E as <- <-.
  apply andb_true_iff in Hreg as [Hreg Hsize]. unfold isreg in Hreg. unfold st_size in Hsize.
  destruct (i_kind n) as [content| | |] eqn:Hk; try done.
  rewrite H12 in Hstat. exists i.
  eapply read_chunks_Ok in Hread; [|done|lia|by rewrite H24, H12|exact Hk].
  rewrite zslice_all in Hread by lia. subst data. split_and!; try done. lia.
Qed.

Lemma read_regular_found d x m w i n data :
  calm OS -> 0 <= m -> child w d x = Some i -> w_nodes w !! i = Some n -> i_kind n = KFile data ->
  zlen data <= m -> _safe_component x = true ->
  exists w', _read_regular_at d x m w = (Ok (data, n), w') /\ same_nodes w w'.
Proof.
  intros Hcalm Hm Hc Hi Hk Hl Hs. set (w1 := add_open 1 (step_tick w)).
  assert (Hopen : os_open_read d x w = (Ok i, w1)).
  { unfold os_open_read. rewrite syscall_calm by done. unfold at_entry. rewrite child_tick, Hc. simpl. by rewrite Hi, Hk. }
  assert (Hstat : os_fstat i w1 = (Ok n, step_tick w1)).
  { unfold os_fstat. rewrite syscall_calm by done. unfold on_inode. simpl. by rewrite Hi. }
  destruct (read_chunks_calm (Z.to_nat (m + 1)) i 0 (m + 1) (step_tick w1) n data Hcalm Hi Hk) as (bs & w2 & Hread).
  pose proof (io_pres_run _ _ _ _ _ (read_chunks_still _ _ _ _) Hread) as Hsame.
  assert (bs = data) as ->.
  { eapply read_chunks_Ok in Hread; [|done|lia|exact Hi|exact Hk]. by rewrite zslice_all in Hread by lia. }
  exists (add_open (-1) w2). split; [|exact Hsame].
  unfold _read_regular_at. rewrite Hs. rewrite (io_bind_run (guard_io true _) _ w tt w) by done.
  rewrite (io_bind_run _ _ _ _ _ Hopen). unfold finally.
  rewrite (io_bind_run _ _ _ _ _ Hstat). unfold isreg, st_size. rewrite Hk.
  rewrite (proj2 (Z.leb_le (zlen data) m) Hl). rewrite (io_bind_run (guard_io _ _) _ (step_tick w1) tt (step_tick w1)) by done.
  rewrite (io_bind_run _ _ _ _ _ Hread). by rewrite (proj2 (Z.leb_le (zlen data) m) Hl).
Qed.

(** A bounded read reports a missing file only when the name is missing. *)
Definition not_fnf (e : exn) : Prop := e <> FileNotFoundError.

Lemma os_read_not_fnf i off n : raises not_fnf (os_read i off n).
Proof.
  intros w e w'. unfold os_read, syscall, on_inode, not_fnf.
  destruct (os_fault _) as [| |k]; [|by intros [= <- _]|];
    (destruct (w_nodes _ !! i) as [nd|]; [|by intros [= <- _]]; destruct (i_kind nd); by intros [= <- _]).
Qed.

Lemma read_chunks_not_fnf fuel fd off rem : raises not_fnf (read_chunks fuel fd off rem).
Proof.
  revert off rem. induction fuel as [|fuel IH]; intros off rem; cbn [read_chunks]; [apply raises_ret|].
  destruct (rem =? 0); [apply raises_ret|]. apply raises_bind; [apply os_read_not_fnf|].
  intros [|c chunk]; [apply raises_ret|]. apply raises_bind; [apply IH|]. intros rest. apply raises_ret.
Qed.

Lemma read_regular_missing d x m w w' :
  _read_regular_at d x m w = (Exc FileNotFoundError, w') -> child w d x = None.
Proof.
  unfold _read_regular_at, guard_io. destruct (_safe_component x); [|done].
  unfold mbind at 1, io_bind at 1, mret, io_ret. unfold mbind at 1, io_bind at 1.
  destruct (os_open_read d x w) as [[fd|e] w1] eqn:Eo.
  - intros H. exfalso. revert H.
    assert (Hr : raises not_fnf (finally
      (metadata ← os_fstat fd;
       guard_io (isreg metadata && (st_size metadata <=? m)) AuthenticationError ;;
       data ← read_chunks (Z.to_nat (m + 1)) fd 0 (m + 1);
       guard_io (zlen data <=? m) AuthenticationError ;;
       mret (data, metadata))
      (os_close fd))).
    { apply raises_finally; [|by intros ?]. apply raises_bind.
      { intros w2 e w3. unfold os_fstat, syscall, on_inode.
        destruct (os_fault _); [|by intros [= <- _]|]; (destruct (w_nodes _ !! fd); by intros [= <- _]). }
      intros meta. apply raises_bind; [by apply raises_guard|]. intros _. apply raises_bind.
      { apply read_chunks_not_fnf. }
      intros data. apply raises_bind; [by apply raises_guard|]. intros _. apply raises_ret. }
    intros H. by apply (Hr w1 _ _ H).
  - intros [= -> <-]. unfold os_open_read, syscall, at_entry in Eo.
    destruct (os_fault _); [|done|]; rewrite child_tick in Eo;
      (destruct (child w d x) as [i|]; [|done]; destruct (w_nodes _ !! i) as [nd|]; [|done]; by destruct (i_kind nd)).
Qed.

End Directories.
