(* ===== verification/BrokerWriteSpec.v ===== *)
(** [_atomic_write_at] in every environment: whichever call fails, the name
    stands for what it stood for before or for a complete new file, and nothing
    else changes. *)

From stdpp Require Import base gmap option list.
From Stdlib Require Import ZArith Lia Bool String.
From S2P Require Import Prelude PyText PyVal PyFs PyPath PyB64 Credential BrokerFiles PyFsFacts BrokerReadSpec.
Open Scope Z_scope.

(** The inode [i] is a regular file with this content and mode. *)
Definition file_is (w : world) (i : ino) (data : bytes) (mode : Z) : Prop :=
  exists n, w_nodes w !! i = Some n /\ i_kind n = KFile data /\ i_mode n = mode.

Section Write.
Context {OS : Os} {K : Kdf}.

Section Phases.
Context (w0 : world) (d : ino) (x t : pystr) (data : bytes) (mode : Z).
Hypothesis x_not_t : x <> t.
Hypothesis d_is_dir : exists es, entries w0 d = Some es.

(** What stays as it was in [w0]: inodes other than the directory, the other
    entries, and directories even under the two names. *)
Record base (w : world) : Prop := {
  b_nodes i n : i <> d -> w_nodes w0 !! i = Some n -> w_nodes w !! i = Some n;
  b_dir : exists n0 n, w_nodes w0 !! d = Some n0 /\ w_nodes w !! d = Some n /\
    isdir n0 = true /\ isdir n = true /\ i_mode n = i_mode n0;
  b_other y : y <> x -> y <> t -> child w d y = child w0 d y;
  b_kept y i n : child w0 d y = Some i -> w_nodes w0 !! i = Some n -> isdir n = true -> child w d y = Some i }.

Definition old (w : world) : Prop := child w d x = child w0 d x.
Definition new (w : world) : Prop := exists i, child w d x = Some i /\ w_nodes w0 !! i = None /\ file_is w i data mode.
Definition temp (i : ino) (c : bytes) (m : Z) (w : world) : Prop :=
  child w d t = Some i /\ w_nodes w0 !! i = None /\ file_is w i c m.

(** The outcome, whether the call raised or not. *)
Definition settled (w : world) : Prop := base w /\ (old w \/ new w).

Lemma base_nodes w w' : w_nodes w' = w_nodes w -> base w -> base w'.
Proof.
  intros E [H1 H2 H3 H4]. split.
  - intros i n. rewrite E. apply H1.
  - rewrite E. exact H2.
  - intros y. rewrite (child_nodes w w') by done. apply H3.
  - intros y i n. rewrite (child_nodes w w') by done. apply H4.
Qed.
Lemma old_nodes w w' : w_nodes w' = w_nodes w -> old w -> old w'.
Proof. intros E. unfold old. by rewrite (child_nodes w w'). Qed.
Lemma new_nodes w w' : w_nodes w' = w_nodes w -> new w -> new w'.
Proof. intros E. unfold new, file_is. rewrite (child_nodes w w') by done. by rewrite E. Qed.
Lemma temp_nodes w w' i c m : w_nodes w' = w_nodes w -> temp i c m w -> temp i c m w'.
Proof. intros E. unfold temp, file_is. rewrite (child_nodes w w') by done. by rewrite E. Qed.
Lemma settled_nodes w w' : w_nodes w' = w_nodes w -> settled w -> settled w'.
Proof.
  intros E [Hb [Ho|Hn]]; (split; [exact (base_nodes w _ E Hb)|]); [left; exact (old_nodes w _ E Ho)|right; exact (new_nodes w _ E Hn)].
Qed.

Lemma start_settled w : w_nodes w = w_nodes w0 -> base w /\ old w.
Proof.
  intros E. split; [|by apply child_nodes]. destruct d_is_dir as (es & (n & Hn & Hk)%entries_node). split.
  - intros i m. by rewrite E.
  - exists n, n. rewrite E. unfold isdir. rewrite Hk. done.
  - intros y _ _. by apply child_nodes.
  - intros y i m Hc _ _. by rewrite (child_nodes w0 w).
Qed.

Lemma base_entries w : base w -> exists es, entries w d = Some es.
Proof.
  intros [_ (n0 & n & _ & Hn & _ & Hd & _) _ _]. unfold isdir in Hd.
  destruct (i_kind n) as [|es| |] eqn:E; try done. exists es. apply entries_node. eauto.
Qed.

(** A call that changes no inode keeps every phase. *)
Lemma phase_still {A} (P : world -> Prop) (m : IO A) :
  (forall w w', w_nodes w' = w_nodes w -> P w -> P w') -> pres same_nodes m ->
  hoare P m (fun _ => P) (fun _ => P).
Proof. intros HP Hm w Hw. specialize (Hm w). destruct (m w) as [[a|e] w1]; by eapply HP. Qed.

Definition held i (w : world) : Prop := base w /\ old w /\ temp i data mode w.

Lemma still_held {A} i (m : IO A) : pres same_nodes m -> hoare (held i) m (fun _ => held i) (fun _ => held i).
Proof.
  apply phase_still. intros w w' E (Hb & Ho & Ht).
  split; [by apply (base_nodes w)|]. split; [by apply (old_nodes w)|by apply (temp_nodes w)].
Qed.
Lemma still_unset {A} (m : IO A) : pres same_nodes m ->
  hoare (fun w => base w /\ old w) m (fun _ w => base w /\ old w) (fun _ w => base w /\ old w).
Proof.
  apply (phase_still (fun w => base w /\ old w)). intros w w' E [Hb Ho].
  split; [by apply (base_nodes w)|by apply (old_nodes w)].
Qed.
Lemma still_set {A} (m : IO A) : pres same_nodes m ->
  hoare (fun w => base w /\ new w) m (fun _ w => base w /\ new w) (fun _ w => base w /\ new w).
Proof.
  apply (phase_still (fun w => base w /\ new w)). intros w w' E [Hb Hn].
  split; [by apply (base_nodes w)|by apply (new_nodes w)].
Qed.

(** Changing an inode that [w0] does not have, by a kind that is a file's. *)
Lemma set_fresh_node w i n c m : base w -> old w -> temp i c m w -> (forall es, i_kind n <> KDir es) ->
  let w' := set_nodes (insert i n) w in
  base w' /\ old w' /\ child w' d t = Some i /\ w_nodes w' !! i = Some n.
Proof.
  intros Hb Ho (Hc & Hnew & n1 & Hn1 & Hk1 & _) Hkd w'.
  assert (He : forall d', entries w' d' = entries w d').
  { intros d'. apply entries_insert; [done|]. destruct (entries w i) eqn:E; [|done].
    apply entries_node in E as (n2 & E & ?). congruence. }
  assert (Hch : forall d' y, child w' d' y = child w d' y) by (intros; by rewrite !child_entries, He).
  assert (Hid : i <> d).
  { intros ->. destruct d_is_dir as (es & (n2 & Hn2 & _)%entries_node). congruence. }
  unfold old. rewrite !Hch. split; [|split; [done|split; [done|simpl; by rewrite lookup_insert_eq]]].
  destruct Hb as [H1 H2 H3 H4]. split.
  - intros j nj Hj Hnj. simpl. rewrite lookup_insert_ne by congruence. by apply H1.
  - destruct H2 as (n0 & n' & ? & ? & ?). exists n0, n'. simpl. by rewrite lookup_insert_ne.
  - intros y. rewrite Hch. apply H3.
  - intros y j nj. rewrite Hch. apply H4.
Qed.

Lemma open_excl_phase m :
  hoare (fun w => w_nodes w = w_nodes w0) (os_open_excl d t m)
    (fun i w => base w /\ old w /\ exists m', temp i [] m' w)
    (fun _ w => base w /\ old w).
Proof.
  intros w E. unfold os_open_excl, syscall.
  assert (Hstart : forall w', w_nodes w' = w_nodes w -> base w' /\ old w') by (intros; apply start_settled; congruence).
  assert (Hrun : forall f : fault, match at_entry d t (step_tick w) (fun _ _ => (Exc FileExistsError, step_tick w))
      (opened (fresh_ino (step_tick w)) (create_at d t (KFile []) m (step_tick w))) with
    | (Ok i, w') => base w' /\ old w' /\ exists m', temp i [] m' w'
    | (Exc _, w') => base w' /\ old w' end).
  { intros _. unfold at_entry. destruct (child (step_tick w) d t) as [j|] eqn:Hc.
    { by destruct (w_nodes (step_tick w) !! j); apply Hstart. }
    destruct (entries (step_tick w) d) as [es|] eqn:He; [|by apply Hstart].
    simpl. set (wt := step_tick w) in *. set (wn := create_at d t (KFile []) m wt).
    assert (Hnew : w_nodes w0 !! fresh_ino wt = None) by (rewrite <- E; exact (fresh_ino_new wt)).
    assert (Hch : forall d' y, child (add_open 1 wn) d' y =
      if bool_decide (d' = d /\ y = t) then Some (fresh_ino wt) else child wt d' y).
    { intros d' y. rewrite child_open. unfold wn. by rewrite (child_create wt d t _ m es). }
    destruct (Hstart wt eq_refl) as [Hb Ho]. apply entries_node in He as (nd & Hnd & Hkd).
    split; [|split].
    - destruct Hb as [H1 H2 H3 H4]. split.
      + intros i n Hi Hn. apply create_nodes; [|done]. by apply H1.
      + destruct (put_entry_attrs (set_nodes (insert (fresh_ino wt) (new_node (KFile []) m)) wt) d t
          (Some (fresh_ino wt)) nd) as (n' & E1 & E2 & E3 & _).
        { simpl. rewrite lookup_insert_ne; [done|]. intros <-. by rewrite fresh_ino_new in Hnd. }
        destruct H2 as (n0 & n1 & Hn0 & Hn1 & Hd0 & Hd1 & Hm). exists n0, n'. simplify_eq.
        split; [done|]. split; [exact E1|]. unfold isdir in *. rewrite E2, E3. done.
      + intros y Hx Ht. rewrite Hch, bool_decide_eq_false_2 by tauto. by apply child_nodes.
      + intros y i n Hy Hi Hd. rewrite Hch. rewrite bool_decide_eq_false_2; [by rewrite (child_nodes w0 wt)|].
        intros [_ ->]. rewrite (child_nodes w0 wt) in Hc by done. congruence.
    - unfold old. rewrite Hch, bool_decide_eq_false_2 by tauto. by apply child_nodes.
    - eexists. split; [by rewrite Hch, bool_decide_eq_true_2|]. split; [done|].
      eexists. split; [apply create_new_node; congruence|]. done. }
  destruct (os_fault (w_tick w)); [apply (Hrun NoFault)|by apply Hstart|apply (Hrun NoFault)].
Qed.

Lemma fchmod_phase i c :
  hoare (fun w => base w /\ old w /\ exists m, temp i c m w) (os_fchmod i mode)
    (fun _ w => base w /\ old w /\ temp i c mode w) (fun _ w => base w /\ old w).
Proof.
  intros w (Hb & Ho & m & Ht). pose proof Ht as (_ & Hnew & n & Hn & Hk & _). unfold os_fchmod, syscall.
  assert (Hrun : match on_inode i (fun n w => (Ok tt, set_nodes (insert i (set_mode mode n)) w)) (step_tick w) with
    | (Ok _, w') => base w' /\ old w' /\ temp i c mode w' | (Exc _, w') => base w' /\ old w' end).
  { unfold on_inode. simpl. rewrite Hn.
    destruct (set_fresh_node (step_tick w) i (set_mode mode n) c m) as (H1 & H2 & H3 & H4);
      [exact (base_nodes w (step_tick w) eq_refl Hb)|exact (old_nodes w (step_tick w) eq_refl Ho)|exact (temp_nodes w (step_tick w) _ _ _ eq_refl Ht)|simpl; congruence|].
    split; [done|]. split; [done|]. split; [done|]. split; [done|]. eexists. split; [exact H4|]. done. }
  destruct (os_fault (w_tick w)); [exact Hrun|split; [exact (base_nodes w (step_tick w) eq_refl Hb)|exact (old_nodes w (step_tick w) eq_refl Ho)]|exact Hrun].
Qed.

Lemma os_write_least_phase least i c v : least <= zlen v -> 0 <= least ->
  hoare (fun w => base w /\ old w /\ temp i c mode w) (os_write_least least i v)
    (fun k w => base w /\ old w /\ least <= k <= zlen v /\ temp i (c ++ ztake k v) mode w)
    (fun _ w => base w /\ old w).
Proof.
  intros Hv Hl w (Hb & Ho & Ht). pose proof Ht as (_ & Hnew & n & Hn & Hk & Hm). unfold os_write_least, syscall.
  pose proof (zlen_nonneg v) as Hz.
  assert (Hrun : forall k, least <= k <= zlen v ->
    let w' := set_nodes (insert i (set_kind (KFile (c ++ ztake k v)) n)) (step_tick w) in
    base w' /\ old w' /\ least <= k <= zlen v /\ temp i (c ++ ztake k v) mode w').
  { intros k Hkb. destruct (set_fresh_node (step_tick w) i (set_kind (KFile (c ++ ztake k v)) n) c mode)
      as (H1 & H2 & H3 & H4); [exact (base_nodes w (step_tick w) eq_refl Hb)|exact (old_nodes w (step_tick w) eq_refl Ho)|exact (temp_nodes w (step_tick w) _ _ _ eq_refl Ht)|done|].
    do 3 (split; [done|]). split; [done|]. split; [done|]. eexists. split; [exact H4|]. by simpl. }
  unfold on_inode. simpl. rewrite Hn, Hk. destruct (os_fault (w_tick w)) as [| |k]; simpl.
  - apply Hrun. lia.
  - split; [exact (base_nodes w (step_tick w) eq_refl Hb)|exact (old_nodes w (step_tick w) eq_refl Ho)].
  - apply Hrun. lia.
Qed.

Lemma write_all_phase fuel i c v : (List.length v <= fuel)%nat ->
  hoare (fun w => base w /\ old w /\ temp i c mode w) (write_all fuel i v)
    (fun _ w => base w /\ old w /\ temp i (c ++ v) mode w) (fun _ w => base w /\ old w).
Proof.
  revert c v. induction fuel as [|fuel IH]; intros c v Hf.
  - destruct v; [|simpl in Hf; lia]. simpl. apply io_hoare_ret. by rewrite app_nil_r.
  - destruct v as [|b v]; simpl write_all; [apply io_hoare_ret; by rewrite app_nil_r|].
    eapply io_hoare_bind; [apply (os_write_least_phase 0); [apply zlen_nonneg|done]|]. intros k. simpl.
    destruct (k <=? 0) eqn:E.
    { intros w Hw. simpl. tauto. }
    intros w (Hb & Ho & Hk & Ht).
    specialize (IH (c ++ ztake k (b :: v)) (zdrop k (b :: v))).
    rewrite <- app_assoc, ztake_zdrop in IH. unfold mbind, io_bind, mret, io_ret.
    apply IH; [|done]. unfold zdrop. rewrite length_drop. simpl in *. lia.
Qed.

(** Nothing reached the directory entry, or the whole file did. *)
Lemma rename_phase i :
  hoare (fun w => base w /\ old w /\ temp i data mode w) (os_rename d t x)
    (fun _ w => base w /\ new w) (fun _ w => base w /\ old w).
Proof.
  intros w (Hb & Ho & Ht). unfold os_rename, syscall.
  assert (Hbt : base (step_tick w) /\ old (step_tick w)) by (split; [exact (base_nodes w (step_tick w) eq_refl Hb)|exact (old_nodes w (step_tick w) eq_refl Ho)]).
  pose proof Ht as (Hc & Hnew & n & Hn & Hk & Hm).
  destruct (base_entries w Hb) as (es & He).
  assert (Hid : i <> d).
  { intros ->. apply entries_node in He as (n2 & Hn2 & ?). congruence. }
  set (wt := step_tick w) in *.
  assert (Hmoved : (forall i' n', child w d x = Some i' -> w_nodes w !! i' = Some n' -> isdir n' = false) ->
    let w' := put_entry d t None (put_entry d x (Some i) wt) in base w' /\ new w').
  { intros Hnd w'.
    assert (Hch : forall y, child w' d y = if bool_decide (y = t) then None
      else if bool_decide (y = x) then Some i else child w d y).
    { intros y. unfold w'. rewrite (child_put_entry _ d t None _ d y (put_entry_dir wt d x (Some i) es He)).
      rewrite (child_put_entry wt d x (Some i) es) by done.
      destruct (bool_decide_reflect (y = t)) as [->|]; [by rewrite bool_decide_eq_true_2|].
      rewrite bool_decide_eq_false_2 by tauto. by destruct (bool_decide_reflect (y = x)) as [->|];
        [rewrite bool_decide_eq_true_2|rewrite bool_decide_eq_false_2 by tauto]. }
    assert (Hnode : forall j, j <> d -> w_nodes w' !! j = w_nodes w !! j)
      by (intros j Hj; unfold w'; by rewrite !put_entry_nodes).
    destruct Hb as [H1 H2 H3 H4]. split; [split|].
    - intros j nj Hj Hnj. rewrite Hnode by done. by apply H1.
    - destruct H2 as (n0 & n1 & Hn0 & Hn1 & Hd0 & Hd1 & Hm1).
      destruct (put_entry_attrs wt d x (Some i) n1 Hn1) as (n2 & E1 & E2 & E3 & _).
      destruct (put_entry_attrs _ d t None n2 E1) as (n3 & F1 & F2 & F3 & _).
      exists n0, n3. unfold isdir in *. rewrite F2, F3, E2, E3. done.
    - intros y Hx Ht'. rewrite Hch, !bool_decide_eq_false_2 by done. by apply H3.
    - intros y j nj Hy Hj Hd. rewrite Hch.
      pose proof (H4 y j nj Hy Hj Hd) as Hcur.
      assert (Hjd : w_nodes w !! j = Some nj \/ j = d).
      { destruct (decide (j = d)); [by right|left; by apply H1]. }
      destruct (bool_decide_reflect (y = t)) as [->|].
      { rewrite Hc in Hcur. injection Hcur as <-. destruct Hjd as [Hjd|]; [congruence|done]. }
      destruct (bool_decide_reflect (y = x)) as [->|]; [|done]. exfalso.
      destruct Hjd as [Hjd| ->]; [by rewrite (Hnd j nj Hcur Hjd) in Hd|].
      destruct H2 as (m0 & m1 & _ & Hm1 & _ & Hd1 & _). by rewrite (Hnd d m1 Hcur Hm1) in Hd1.
    - exists i. rewrite Hch, bool_decide_eq_false_2, bool_decide_eq_true_2 by done.
      split; [done|]. split; [done|]. exists n. by rewrite Hnode. }
  assert (Hrun : match at_entry d t wt
    (fun i n =>
      let moved := (Ok tt, put_entry d t None (put_entry d x (Some i) wt)) in
      at_entry d x wt
        (fun i' n' =>
          if bool_decide (i = i') then (Ok tt, wt)
          else match isdir n, i_kind n' with
               | true, KDir es => if bool_decide (es = ∅) then moved else (Exc OSError, wt)
               | true, _ => (Exc NotADirectoryError, wt)
               | false, KDir _ => (Exc IsADirectoryError, wt)
               | false, _ => moved
               end)
        moved)
    (Exc FileNotFoundError, wt) with
    | (Ok _, w') => base w' /\ new w' | (Exc _, w') => base w' /\ old w' end).
  { unfold at_entry at 1. unfold wt at 1. rewrite child_tick, Hc. simpl. rewrite Hn.
    unfold isdir at 1. rewrite Hk. cbn [is_dir]. unfold at_entry.
    destruct (child wt d x) as [i'|] eqn:Hx.
    - destruct (w_nodes wt !! i') as [n'|] eqn:Hi'; [|done].
      destruct (bool_decide_reflect (i = i')) as [<-|Hne].
      + split; [apply Hbt|]. exists i. split; [done|]. split; [done|]. by exists n.
      + destruct (i_kind n') eqn:Hk'; try done; apply Hmoved; intros j nj Hj Hnj;
          unfold wt in Hx, Hi'; rewrite child_tick in Hx; simpl in Hi'; simplify_eq; unfold isdir; by rewrite Hk'.
    - destruct (entries wt d) eqn:Hd; [|done]. apply Hmoved. intros j nj Hj. unfold wt in Hx. rewrite child_tick in Hx. congruence. }
  destruct (os_fault (w_tick w)); [exact Hrun|done|exact Hrun].
Qed.

(** Facts about the entry [x] and about inodes other than the directory. *)
Definition about_entry (Q : world -> Prop) : Prop := forall w w',
  child w' d x = child w d x -> (forall i, i <> d -> w_nodes w' !! i = w_nodes w !! i) ->
  (exists es, entries w d = Some es) -> Q w -> Q w'.

Lemma about_old : about_entry old.
Proof. intros w w' Hc _ _ Ho. unfold old. by rewrite Hc. Qed.

Lemma about_new : about_entry new.
Proof.
  intros w w' Hc Hn (es & He) (i & Hi & Hnew & n & Hin & Hk & Hm). exists i. rewrite Hc.
  split; [done|]. split; [done|]. exists n. rewrite Hn; [done|]. intros ->.
  apply entries_node in He as (n2 & Hn2 & ?). congruence.
Qed.

Lemma about_tick Q w : about_entry Q -> base w -> Q w -> Q (step_tick w).
Proof. intros HQ Hb. apply HQ; [done|done|by apply base_entries]. Qed.

(** Removing the temporary name disturbs nothing. *)
Lemma os_unlink_phase (Q : world -> Prop) : about_entry Q ->
  hoare (fun w => base w /\ Q w) (os_unlink d t) (fun _ w => base w /\ Q w) (fun _ w => base w /\ Q w).
Proof.
  intros HQ w [Hb0 HQ0]. unfold os_unlink, syscall.
  pose proof (base_nodes w (step_tick w) eq_refl Hb0) as Hb.
  pose proof (about_tick Q w HQ Hb0 HQ0) as Hq. clear Hb0 HQ0.
  set (wt := step_tick w) in *.
  assert (Hrun : match at_entry d t wt
      (fun _ n => if isdir n then (Exc IsADirectoryError, wt) else (Ok tt, put_entry d t None wt))
      (Exc FileNotFoundError, wt) with (Ok _, w') => base w' /\ Q w' | (Exc _, w') => base w' /\ Q w' end).
  { unfold at_entry. destruct (child wt d t) as [i|] eqn:Hc; [|by destruct (entries wt d)].
    destruct (w_nodes wt !! i) as [n|] eqn:Hi; [|done]. destruct (isdir n) eqn:Hd; [done|].
    destruct (base_entries wt Hb) as (es & He).
    assert (Hch : forall y, child (put_entry d t None wt) d y = if bool_decide (y = t) then None else child wt d y).
    { intros y. rewrite (child_put_entry wt d t None es) by done.
      by destruct (bool_decide_reflect (y = t)) as [->|];
        [rewrite bool_decide_eq_true_2|rewrite bool_decide_eq_false_2 by tauto]. }
    split.
    2: { apply (HQ wt); [by rewrite Hch, bool_decide_eq_false_2|intros j Hj; by apply put_entry_nodes|eauto|done]. }
    destruct Hb as [H1 H2 H3 H4]. split.
    - intros j nj Hj Hnj. rewrite put_entry_nodes by done. by apply H1.
    - destruct H2 as (n0 & n1 & Hn0 & Hn1 & Hd0 & Hd1 & Hm1).
      destruct (put_entry_attrs wt d t None n1 Hn1) as (n2 & E1 & E2 & E3 & _).
      exists n0, n2. unfold isdir in *. rewrite E2, E3. done.
    - intros y Hx Ht. rewrite Hch, bool_decide_eq_false_2 by done. by apply H3.
    - intros y j nj Hy Hj Hdj. rewrite Hch. pose proof (H4 y j nj Hy Hj Hdj) as Hcur.
      destruct (bool_decide_reflect (y = t)) as [->|]; [|done]. exfalso. rewrite Hc in Hcur. injection Hcur as ->.
      destruct (decide (j = d)) as [->|Hjd].
      + destruct H2 as (m0 & m1 & _ & Hm1 & _ & Hd1 & _). congruence.
      + rewrite (H1 j nj Hjd Hj) in Hi. congruence. }
  destruct (os_fault (w_tick w)); [exact Hrun|done|exact Hrun].
Qed.

Lemma unlink_phase (Q : world -> Prop) : about_entry Q ->
  hoare (fun w => base w /\ Q w) (unlink_if_there d t) (fun _ w => base w /\ Q w) (fun _ w => base w /\ Q w).
Proof.
  intros HQ. apply io_hoare_try with (E := fun _ w => base w /\ Q w); [by apply os_unlink_phase|].
  intros e. destruct (bool_decide _); [by apply io_hoare_ret|by apply io_hoare_raise].
Qed.

Lemma unlink_settled : hoare settled (unlink_if_there d t) (fun _ => settled) (fun _ => settled).
Proof.
  intros w [Hb [Ho|Hn]].
  - pose proof (unlink_phase old about_old w (conj Hb Ho)) as H.
    destruct (unlink_if_there d t w) as [[u|e] w']; destruct H; (split; [done|by left]).
  - pose proof (unlink_phase new about_new w (conj Hb Hn)) as H.
    destruct (unlink_if_there d t w) as [[u|e] w']; destruct H; (split; [done|by right]).
Qed.

End Phases.
(** ** The whole write *)

(** The entry [x] of [d] is a complete regular file. *)
Definition written (w : world) (d : ino) (x : pystr) (data : bytes) (mode : Z) : Prop :=
  exists i, child w d x = Some i /\ file_is w i data mode.

Lemma temporary_differs name token : name <> temporary_name name token.
Proof.
  intros E. assert (H : zlen name = zlen (temporary_name name token)) by congruence.
  unfold temporary_name in H. rewrite !zlen_app in H.
  change (zlen (lit ".")) with 1 in H. pose proof (zlen_nonneg (int_str os_pid)).
  pose proof (zlen_nonneg (hex_of token)). pose proof (zlen_nonneg (lit ".new")). lia.
Qed.

Lemma temporary_dotted name token : hd 0 (temporary_name name token) = 46.
Proof. done. Qed.

(** The file is filled and synchronised under its temporary name. *)
Lemma fill_phase w0 d x t data mode fd m0 :
  (exists es, entries w0 d = Some es) ->
  hoare (fun w => base w0 d x t w /\ old w0 d x w /\ temp w0 d t fd [] m0 w)
    (finally (os_fchmod fd mode ;; write_all (List.length data) fd data ;; os_fsync fd) (os_close fd))
    (fun _ => held w0 d x t data mode fd) (fun _ w => base w0 d x t w /\ old w0 d x w).
Proof.
  intros Hd.
  apply io_hoare_finally with (Q := fun _ => held w0 d x t data mode fd) (E := fun _ w => base w0 d x t w /\ old w0 d x w).
  - eapply io_hoare_bind.
    { eapply io_hoare_conseq; [by apply (fchmod_phase w0 d x t mode Hd fd [])| |intros u w H; exact H|done].
      intros w (Hb & Ho & Ht). by eauto. }
    intros u. eapply io_hoare_bind.
    { by apply (write_all_phase w0 d x t mode Hd (List.length data) fd [] data). }
    intros u2. eapply io_hoare_conseq; [by apply (still_held w0 d x t data mode fd), still_fsync|done|done|].
    intros e w (Hb & Ho & _). done.
  - intros u. eapply io_hoare_conseq; [by apply (still_held w0 d x t data mode fd), still_close|done|done|].
    intros e w (Hb & Ho & _). done.
  - intros e. apply still_unset, still_close.
Qed.

Lemma write_body_phase w0 d x t data mode :
  x <> t -> (exists es, entries w0 d = Some es) ->
  hoare (fun w => w_nodes w = w_nodes w0)
    (finally
      (fd ← os_open_excl d t mode;
       finally (os_fchmod fd mode ;; write_all (List.length data) fd data ;; os_fsync fd) (os_close fd) ;;
       os_rename d t x ;;
       os_fsync d)
      (unlink_if_there d t))
    (fun _ w => base w0 d x t w /\ new w0 d x data mode w)
    (fun _ w => settled w0 d x t data mode w).
Proof.
  intros Hne Hd.
  assert (Hold : forall w, base w0 d x t w /\ old w0 d x w -> settled w0 d x t data mode w)
    by (intros w [Hb Ho]; split; [done|by left]).
  assert (Hnew : forall w, base w0 d x t w /\ new w0 d x data mode w -> settled w0 d x t data mode w)
    by (intros w [Hb Hn]; split; [done|by right]).
  apply io_hoare_finally with (Q := fun _ w => base w0 d x t w /\ new w0 d x data mode w)
    (E := fun _ w => settled w0 d x t data mode w).
  - eapply io_hoare_bind.
    { eapply io_hoare_conseq; [apply (open_excl_phase w0 d x t Hne Hd mode)|done|intros fd w H; exact H|].
      intros e w. apply Hold. }
    intros fd. apply io_hoare_bind with (Q := fun _ => held w0 d x t data mode fd).
    { intros w (Hb & Ho & m0 & Ht).
      pose proof (fill_phase w0 d x t data mode fd m0 Hd w (conj Hb (conj Ho Ht))) as H.
      destruct (finally _ _ w) as [[u|e] w']; [done|by apply Hold]. }
    intros u. eapply io_hoare_bind.
    { eapply io_hoare_conseq; [by apply (rename_phase w0 d x t data mode Hne fd)|done|intros v w H; exact H|].
      intros e w. apply Hold. }
    intros v. eapply io_hoare_conseq; [by apply (still_set w0 d x t data mode), still_fsync|done|done|].
    intros e w. apply Hnew.
  - intros u. eapply io_hoare_conseq.
    { apply (unlink_phase w0 d x t Hne (new w0 d x data mode) (about_new w0 d x data mode)). }
    { done. } { done. } { intros e w. apply Hnew. }
  - intros e. apply (unlink_settled w0 d x t data mode Hne).
Qed.

(** The temporary name the write of [name] uses from the world [w]. *)
Definition temporary_at (name : pystr) (w : world) : pystr := temporary_name name (os_entropy (w_tick w) 8).

Lemma atomic_write_run d name data mode w r w' : (exists es, entries w d = Some es) ->
  _atomic_write_at d name data mode w = (r, w') ->
  (r = Exc AuthenticationError /\ w' = w /\ _safe_component name = false) \/
  (_safe_component name = true /\ base w d name (temporary_at name w) w' /\
   match r with
   | Ok _ => new w d name data mode w'
   | Exc _ => old w d name w' \/ new w d name data mode w'
   end).
Proof.
  intros Hd. unfold _atomic_write_at, guard_io. destruct (_safe_component name) eqn:Hs.
  2: { unfold mbind, io_bind, raise. intros [= <- <-]. by left. }
  unfold mbind at 1, io_bind at 1, mret, io_ret. unfold mbind at 1, io_bind at 1, os_urandom.
  fold (temporary_at name w). intros E. right. split; [done|].
  pose proof (write_body_phase w d name (temporary_at name w) data mode (temporary_differs _ _) Hd (step_tick w) eq_refl) as H.
  rewrite E in H. destruct r as [u|e]; simpl in H; [done|exact H].
Qed.

(** C38: an atomic write is all or nothing in every environment: wherever a call
    fails or a write comes up short, the name afterwards stands for what it stood
    for before or for a complete new file with the wanted content and mode, after
    success the latter; no other inode and no other entry of the directory but the
    temporary name has changed. *)
Theorem atomic_write_all_or_nothing d name data mode w r w' : (exists es, entries w d = Some es) ->
  _atomic_write_at d name data mode w = (r, w') ->
  (child w' d name = child w d name \/ written w' d name data mode) /\
  (r = Ok tt -> written w' d name data mode) /\
  (forall i n, i <> d -> w_nodes w !! i = Some n -> w_nodes w' !! i = Some n) /\
  (forall y, y <> name -> y <> temporary_at name w -> child w' d y = child w d y).
Proof.
  intros Hd E. destruct (atomic_write_run d name data mode w r w' Hd E) as [(-> & -> & _)|(_ & Hb & Hr)].
  { split; [by left|]. done. }
  assert (Hw : new w d name data mode w' -> written w' d name data mode).
  { intros (i & Hi & _ & Hf). exists i. done. }
  split; [|split; [|split]].
  - destruct r; [right; auto|destruct Hr; [by left|right; auto]].
  - intros ->. auto.
  - apply (b_nodes _ _ _ _ _ Hb).
  - intros y Hx Ht. by apply (b_other _ _ _ _ _ Hb).
Qed.

(** Programs that never write but under temporary names and [name]. *)
Lemma base_keeps (N : pystr -> Prop) w d x t w' : base w d x t w' -> N x -> N t -> keeps N w w'.
Proof.
  intros [H1 H2 H3 H4] Hx Ht.
  assert (Hnode : forall i n, w_nodes w !! i = Some n -> exists n', w_nodes w' !! i = Some n' /\
    is_dir (i_kind n') = is_dir (i_kind n) /\ (is_dir (i_kind n) = false -> n' = n)).
  { intros i n Hi. destruct (decide (i = d)) as [->|Hne]; [|exists n; split; [by apply H1|done]].
    destruct H2 as (n0 & n1 & Hn0 & Hn1 & Hd0 & Hd1 & _). simplify_eq. unfold isdir in *.
    exists n1. split; [done|]. split; congruence. }
  split.
  - intros i n Hi. destruct (Hnode i n Hi) as (n' & ? & ? & Heq). exists n'. split; [done|]. split; [done|].
    intros Hf. by rewrite (Heq Hf).
  - intros d' y i n Hc Hi Ho. destruct (decide (d' = d)) as [->|Hne].
    + destruct Ho as [Ho|Hd]; [|by eapply H4].
      rewrite H3; [done|by intros ->|by intros ->].
    + unfold child, entries in *. destruct (w_nodes w !! d') as [m|] eqn:Em; [|done]. by rewrite (H1 d' m Hne Em).
Qed.

(** A directory descriptor that is none: the calls fail and change nothing. *)
Lemma atomic_write_no_dir d name data mode w : entries w d = None ->
  same_nodes w (_atomic_write_at d name data mode w).2.
Proof.
  intros Hd.
  assert (Hop : forall A (f : fault -> world -> res A * world) wi,
    w_nodes wi = w_nodes w -> (forall x w1, w_nodes w1 = w_nodes w -> exists e, f x w1 = (Exc e, w1)) ->
    exists e w2, syscall f wi = (Exc e, w2) /\ w_nodes w2 = w_nodes w).
  { intros A f wi Hi Hf. unfold syscall.
    destruct (Hf NoFault (step_tick wi) Hi) as (e1 & E1). destruct (os_fault (w_tick wi)) as [| |k]; [by eauto|by eauto|].
    destruct (Hf (Short k) (step_tick wi) Hi) as (e2 & E2). eauto. }
  assert (Hent : forall A t w1 (found : ino -> inode -> res A * world) missing,
    w_nodes w1 = w_nodes w -> at_entry d t w1 found missing = (Exc NotADirectoryError, w1)).
  { intros A t w1 found missing E. unfold at_entry.
    assert (entries w1 d = None) as He by (unfold entries in *; by rewrite E).
    by rewrite child_entries, He. }
  unfold _atomic_write_at, guard_io. destruct (_safe_component name); [|done].
  unfold mbind at 1, io_bind at 1, mret, io_ret. unfold mbind at 1, io_bind at 1, os_urandom.
  set (t := temporary_name name _). unfold finally.
  destruct (Hop _ _ (step_tick w) eq_refl (fun x w1 E => ex_intro _ _ (Hent ino t w1 (fun _ _ => (Exc FileExistsError, w1))
    (opened (fresh_ino w1) (create_at d t (KFile []) mode w1)) E))) as (e & w2 & E2 & Hw2).
  fold (os_open_excl d t mode) in E2. rewrite (io_bind_exc _ _ _ _ _ E2).
  unfold unlink_if_there, try_io.
  destruct (Hop _ _ w2 Hw2 (fun x w1 E => ex_intro _ _ (Hent unit t w1
    (fun _ n => if isdir n then (Exc IsADirectoryError, w1) else (Ok tt, put_entry d t None w1))
    (Exc FileNotFoundError, w1) E))) as (e3 & w3 & E3 & Hw3).
  fold (os_unlink d t) in E3. rewrite E3. by destruct (bool_decide _).
Qed.

Lemma atomic_write_kept (N : pystr -> Prop) d name data mode :
  N name -> (forall y, hd 0 y = 46 -> N y) -> pres (keeps N) (_atomic_write_at d name data mode).
Proof.
  intros Hn Hdot w. destruct (entries w d) as [es|] eqn:Hd; [|by apply same_keeps, atomic_write_no_dir].
  destruct (_atomic_write_at d name data mode w) as [r w'] eqn:E.
  destruct (atomic_write_run d name data mode w r w' ltac:(eauto) E) as [(_ & -> & _)|(_ & Hb & _)]; [done|].
  apply (base_keeps N w d name (temporary_at name w) w' Hb Hn). by apply Hdot.
Qed.

End Write.
