(* ===== verification/BrokerStoreSpec.v ===== *)
(** The credential file: what a successful write leaves is what every later read
    finds, and reads are exact. *)

From stdpp Require Import base gmap option list.
From Stdlib Require Import ZArith Lia Bool String.
From S2P Require Import Prelude PyText PyVal PyJson PyStr PyFs PyPath PyB64 Credential CredentialSpec BrokerFiles.
From S2P Require Import PyFsFacts BrokerReadSpec BrokerWriteSpec.
Open Scope Z_scope.

(** ** Stored hashes are one line of plain text *)

Definition plain (c : Z) : Prop := is_ascii c = true /\ is_linesep c = false.

Lemma plain_lit s : forallb (fun c => is_ascii c && negb (is_linesep c)) s = true -> Forall plain s.
Proof. intros H%forallb_lit. revert H. apply List.Forall_impl. intros c [? ?%negb_true_iff]%andb_true_iff. done. Qed.

Lemma plain_b64 c : b64_alpha c = true -> plain c.
Proof.
  intros [->|[->|H]]%b64_alpha_char; [done|done|]. unfold plain, is_ascii, is_linesep, ascii_alnum, ascii_alpha, ascii_digit in *.
  split; lia.
Qed.

Lemma plain_digit c : ascii_digit c = true -> plain c.
Proof. unfold ascii_digit, plain, is_ascii, is_linesep. intros. split; lia. Qed.

Lemma plain_hex c : is_hex c = true -> plain c.
Proof.
  unfold is_hex, hex_val. intros H. unfold plain, is_ascii, is_linesep.
  assert (48 <= c <= 57 \/ 97 <= c <= 102 \/ 65 <= c <= 70) by (split_if_in H; try done; lia). split; lia.
Qed.

Section Store.
Context {K : Kdf} {L : KdfLaws K}.

Lemma plain_field item name : field_name item = name -> Forall plain name -> Forall plain (field_value item) -> Forall plain item.
Proof.
  unfold field_name, field_value. destruct (partition 61 item) as [[a f] b] eqn:E. cbn [fst snd].
  intros <- Ha Hb. apply partition_inv in E as [-> _]. apply Forall_app. split; [done|].
  destruct f; [|done]. by constructor.
Qed.

Lemma plain_bounded v b n : _bounded_integer v b = Ok n -> Forall plain v.
Proof.
  unfold _bounded_integer. destruct (forallb is_ascii v); [|done]. cbn [negb orb].
  destruct (forallb ascii_digit v) eqn:E; [|done]. intros _. apply forallb_lit in E. revert E.
  apply List.Forall_impl, plain_digit.
Qed.

Lemma plain_decoded v lo hi d : _decode_b64 v lo hi = Ok d -> Forall plain v.
Proof.
  unfold _decode_b64, _B64_RE. destruct (forallb b64_alpha v) eqn:E; [|done]. intros _.
  apply forallb_lit in E. revert E. apply List.Forall_impl, plain_b64.
Qed.

Lemma plain_joined parts : Forall (Forall plain) parts -> Forall plain (join_with [36] parts).
Proof.
  induction 1 as [|w ws Hw Hws IH]; [constructor|]. destruct ws as [|w' ws]; [done|].
  rewrite join_with_cons. apply Forall_app. split; [done|]. by constructor.
Qed.

(** A valid stored hash is short and holds no line break. *)
Lemma valid_hash_plain h : validate_stored_hash (PStr h) = true -> Forall plain h /\ zlen h <= 512.
Proof.
  unfold validate_stored_hash. cbn [has_current_prefix mbind res_bind]. destruct (starts_with _ h).
  - destruct (_parse_current_hash (PStr h)) as [p|] eqn:E; [|done]. intros _. revert E.
    unfold _parse_current_hash. intros H. destruct ((512 <? zlen h) || _) eqn:El; [done|].
    split; [|lia]. rewrite <- (join_split 36 h).
    destruct (split_on 36 h) as [|p0 [|p1 [|p2 [|v0 [|v1 [|v2 [|v3 [|v4 [|]]]]]]]]]; try done.
    apply plain_joined. parse_steps H.
    all: repeat match goal with
      | E : negb _ = false |- _ => apply negb_false_iff in E
      | E : (negb _ || negb _) = false |- _ =>
          apply orb_false_iff in E as [?%negb_false_iff%str_eqb_eq ?%negb_false_iff%str_eqb_eq]
      | E : str_eqb _ _ = true |- _ => apply str_eqb_eq in E
      | E : bool_decide _ = true |- _ => apply bool_decide_eq_true in E; injection E as ?N0 ?N1 ?N2 ?N3 ?N4
      | E : _bounded_integer _ _ = Ok _ |- _ => apply plain_bounded in E
      | E : _decode_b64 _ _ _ = Ok _ |- _ => apply plain_decoded in E
      end.
    all: subst p0 p1 p2; repeat (apply Forall_cons; split); try done; try by apply plain_lit.
    all: by (eapply plain_field; [eassumption|by apply plain_lit|done]).
  - destruct (_parse_legacy_hash (PStr h)) as [p|] eqn:E; [|done]. intros _. revert E.
    unfold _parse_legacy_hash. intros H. destruct (negb (zlen h =? 111) || _) eqn:El; [done|].
    split; [|lia]. rewrite <- (join_split 36 h).
    destruct (split_on 36 h) as [|p0 [|p1 [|p2 [|p3 [|]]]]]; try done. apply plain_joined.
    destruct (str_eqb p0 _) eqn:E0; [|done]. destruct (str_eqb p1 _) eqn:E1; [|done]. cbn [negb] in H.
    destruct (_HEX_32_RE p2) eqn:E2; [|done]. destruct (_HEX_64_RE p3) eqn:E3; [|done].
    apply str_eqb_eq in E0 as ->. apply str_eqb_eq in E1 as ->.
    unfold _HEX_32_RE, _HEX_64_RE in *. apply andb_true_iff in E2 as [E2 _], E3 as [E3 _].
    apply forallb_lit in E2, E3. do 2 (apply Forall_cons_2; [by apply plain_lit|]).
    apply Forall_cons_2; [|apply Forall_cons_2; [|done]]; (eapply List.Forall_impl; [apply plain_hex|done]).
Qed.

(** The line written is read back as the name and the hash. *)
Lemma parse_credential_line u h : _USERNAME_RE u = true -> validate_stored_hash (PStr h) = true ->
  exists payload, utf8_encode (credential_line u h) = Ok payload /\ zlen payload <= MAX_CREDENTIAL_BYTES /\
    parse_credentials payload = Ok (u, h).
Proof.
  intros Hu Hv. destruct (valid_hash_plain h Hv) as [Hh Hl]. pose proof (username_chars u Hu) as Hc.
  assert (Hup : Forall plain u).
  { revert Hc. apply List.Forall_impl. intros c Hn. destruct (name_char_facts c Hn) as (? & _ & _ & _ & _ & _ & _ & ?). done. }
  assert (Ha : forallb is_ascii (credential_line u h) = true).
  { apply lit_forallb. unfold credential_line. rewrite !Forall_app. repeat split; try by repeat constructor.
    1: eapply List.Forall_impl; [|exact Hup]. 2: eapply List.Forall_impl; [|exact Hh].
    all: by intros c [? ?]. }
  destruct (utf8_ascii _ Ha) as [He Hd]. exists (credential_line u h). split; [done|]. split.
  - destruct (username_canonical (PStr u) u (username_fixed u Hu)) as (_ & Hlu & _).
    unfold credential_line, MAX_CREDENTIAL_BYTES. rewrite !zlen_app. change (zlen (lit ":")) with 1. change (zlen [10]) with 1. lia.
  - unfold parse_credentials. rewrite Hd. cbn [mbind res_bind]. unfold credential_line.
    replace (u ++ lit ":" ++ h ++ [10]) with ((u ++ 58 :: h) ++ 10 :: []) by (by rewrite <- app_assoc).
    rewrite splitlines_line.
    + rewrite split1_found.
      { cbn [mbind res_bind]. rewrite username_fixed by done. cbn [mbind res_bind]. by rewrite Hv. }
      revert Hc. apply List.Forall_impl. intros c Hn. by destruct (name_char_facts c Hn) as (_ & _ & _ & ? & _).
    + apply Forall_app. split; [eapply List.Forall_impl; [|exact Hup]; by intros c [? ?]|].
      constructor; [done|]. eapply List.Forall_impl; [|exact Hh]. by intros c [? ?].
Qed.

(** ** Reading and writing the credential file *)

(** A path of safe components. *)
Definition path_ok (path : list pystr) : Prop :=
  forallb _safe_component (split_path path).1 = true /\ _safe_component (split_path path).2 = true.

(** The file at [path] is a regular file with this content, small enough to be
    read. *)
Definition readable (w : world) (path : list pystr) (m : Z) (data : bytes) (n : inode) : Prop :=
  path_ok path /\ file_at w path = Some n /\ i_kind n = KFile data /\ zlen data <= m.

(** The account the file names. *)
Definition has_account (w : world) (path : list pystr) (u h : pystr) : Prop :=
  exists data n, readable w path MAX_CREDENTIAL_BYTES data n /\ parse_credentials data = Ok (u, h).

Lemma file_at_nodes w w' path : w_nodes w' = w_nodes w -> file_at w' path = file_at w path.
Proof.
  intros E. unfold file_at. rewrite (reach_nodes w w') by done.
  destruct (reach w root_ino _) as [d|]; [|done]. simpl. by rewrite (child_nodes w w'), E.
Qed.

(** A file under a name that is not [N] stays what it is. *)
Lemma file_at_keeps (N : pystr -> Prop) w w' path n data :
  keeps N w w' -> file_at w path = Some n -> i_kind n = KFile data -> ~ N (split_path path).2 ->
  exists n', file_at w' path = Some n' /\ i_kind n' = KFile data /\ (private n -> private n').
Proof.
  intros Hk Hf Hd HN. unfold file_at in *.
  destruct (reach w root_ino _) as [d|] eqn:Hr; [|done]. cbn [mbind option_bind] in Hf.
  rewrite (reach_keeps _ _ _ _ _ _ Hk Hr). cbn [mbind option_bind].
  destruct (child w d _) as [i|] eqn:Hc; [|done]. cbn [mbind option_bind] in Hf.
  rewrite (keeps_child _ _ _ Hk d _ i n Hc Hf (or_introl HN)). cbn [mbind option_bind].
  destruct (keeps_node _ _ _ Hk i n Hf) as (n' & Hn' & Hdir & Hrest). exists n'. split; [done|].
  rewrite Hd in Hrest. by apply Hrest.
Qed.

Lemma has_account_keeps (N : pystr -> Prop) w w' path u h :
  keeps N w w' -> ~ N (split_path path).2 -> has_account w path u h -> has_account w' path u h.
Proof.
  intros Hk HN (data & n & (Hp & Hf & Hd & Hl) & Hparse).
  destruct (file_at_keeps N w w' path n data Hk Hf Hd HN) as (n' & Hf' & Hd' & _).
  exists data, n'. done.
Qed.

Lemma has_account_unique w path u h u' h' : has_account w path u h -> has_account w path u' h' -> u = u' /\ h = h'.
Proof.
  intros (d1 & n1 & (_ & Hf1 & Hd1 & _) & H1) (d2 & n2 & (_ & Hf2 & Hd2 & _) & H2).
  rewrite Hf1 in Hf2. injection Hf2 as <-. rewrite Hd1 in Hd2. injection Hd2 as <-.
  rewrite H1 in H2. by injection H2 as <- <-.
Qed.

Section Reading.
Context {OS : Os}.

Lemma read_credentials_still path : pres same_nodes (read_credentials path).
Proof.
  unfold read_credentials. destruct (split_path path) as [parent name].
  apply io_pres_bind; [typeclasses eauto|apply secure_directory_still|]. intros d.
  apply io_pres_bind; [typeclasses eauto| |intros [data n]; still].
  apply io_pres_finally; [typeclasses eauto|apply read_regular_still|still].
Qed.

Lemma read_credentials_Ok path w u h w' : read_credentials path w = (Ok (u, h), w') -> has_account w path u h.
Proof.
  unfold read_credentials. destruct (split_path path) as [parent name] eqn:Ep. intros H.
  apply io_bind_Ok in H as (d & w1 & Hdir & H).
  pose proof (io_pres_run _ _ _ _ _ (secure_directory_still None false parent) Hdir) as Hs.
  apply secure_directory_run in Hdir as [_ Hdir]. destruct (Hdir d eq_refl) as [Hr Hsafe].
  apply io_bind_Ok in H as ([data n] & w2 & H1 & H). apply finally_Ok in H1 as (v & w3 & H1 & _).
  apply lift_Ok in H as [Hparse _].
  apply read_regular_Ok in H1 as (i & Hc & Hi & Hk & Hl & Hx); [|done].
  exists data, n. split; [|done]. unfold readable, path_ok, file_at. rewrite Ep. cbn [fst snd].
  rewrite <- (reach_nodes w w1) by done. rewrite Hr. cbn [mbind option_bind].
  rewrite <- (child_nodes w w1), Hc by done. cbn [mbind option_bind]. rewrite <- Hs. done.
Qed.

Lemma read_credentials_found path w u h : calm OS -> has_account w path u h ->
  exists w', read_credentials path w = (Ok (u, h), w') /\ same_nodes w w'.
Proof.
  intros Hc (data & n & ([Hp Hx] & Hf & Hk & Hl) & Hparse).
  unfold read_credentials, file_at in *. destruct (split_path path) as [parent name]. cbn [fst snd] in *.
  destruct (reach w root_ino parent) as [d|] eqn:Hr; [|done]. cbn [mbind option_bind] in Hf.
  destruct (child w d name) as [i|] eqn:Hch; [|done]. cbn [mbind option_bind] in Hf.
  destruct (secure_directory_found false parent w d Hc Hr Hp) as (w1 & E1 & H1).
  rewrite (io_bind_run _ _ _ _ _ E1).
  destruct (read_regular_found d name MAX_CREDENTIAL_BYTES w1 i n data) as (w2 & E2 & H2); try done.
  { by rewrite (child_nodes w w1). } { by rewrite H1. }
  exists (add_open (-1) w2). split; [|by transitivity w1; [|transitivity w2]].
  rewrite (io_bind_run _ _ w1 (data, n) (add_open (-1) w2)); [unfold lift; by rewrite Hparse|].
  unfold finally. by rewrite E2.
Qed.

(** The name of the file and the temporary names. *)
Definition touches (path : list pystr) (y : pystr) : Prop := y = (split_path path).2 \/ hd 0 y = 46.

Lemma write_credentials_kept path u h : pres (keeps (touches path)) (atomic_write_credentials path u h).
Proof.
  unfold atomic_write_credentials, touches. destruct (split_path path) as [parent name]. cbn [fst snd].
  pres_step; [pres_step|]. pres_step; [pres_step|].
  pres_step; [apply secure_directory_kept|]. pres_step; [|kept].
  pres_step; [pres_step|]. apply atomic_write_kept; tauto.
Qed.

Lemma atomic_write_Ok_dir d x data mode w w' : _atomic_write_at d x data mode w = (Ok tt, w') ->
  exists es, entries w d = Some es.
Proof.
  unfold _atomic_write_at. intros H. apply io_bind_Ok in H as (u & w1 & Hg & H). apply guard_io_Ok in Hg as [_ ->].
  apply io_bind_Ok in H as (t & w2 & Hu & H). injection Hu as <- <-. apply finally_Ok in H as (v & w3 & H & _).
  apply io_bind_Ok in H as (fd & w4 & Hopen & _). apply syscall_Ok in Hopen as (f & _ & Hopen).
  unfold at_entry in Hopen. rewrite child_entries in Hopen.
  change (entries (step_tick (step_tick w)) d) with (entries w d) in Hopen. destruct (entries w d); [eauto|done].
Qed.

(** A write that succeeds, at a path opened before it. *)
Lemma written_file path d x data w w' :
  split_path path = ((split_path path).1, x) ->
  reach w root_ino (split_path path).1 = Some d -> forallb _safe_component (split_path path).1 = true ->
  finally (_atomic_write_at d x data mode_600) (os_close d) w = (Ok tt, w') ->
  path_ok path /\ exists n, file_at w' path = Some n /\ i_kind n = KFile data /\ i_mode n = mode_600.
Proof.
  intros Ep Hr Hs H. apply finally_Ok in H as (u & w2 & H & Hclose).
  assert (Hn : w_nodes w' = w_nodes w2) by by injection Hclose as _ <-.
  destruct (atomic_write_Ok_dir _ _ _ _ _ _ H) as (es & Hes).
  assert (Hk : keeps (fun y => y = x \/ hd 0 y = 46) w w2).
  { eapply io_pres_run; [apply (atomic_write_kept (fun y => y = x \/ hd 0 y = 46)); tauto|exact H]. }
  destruct (atomic_write_run d x data mode_600 w (Ok tt) w2 ltac:(eauto) H) as [(? & _)|(Hx & _ & Hnew)]; [done|].
  destruct Hnew as (i & Hi & _ & n & Hnn & Hkind & Hmode).
  split; [split; [done|by rewrite Ep]|]. exists n. split; [|done].
  unfold file_at. rewrite (reach_nodes w2 w') by done. rewrite (reach_keeps _ _ _ _ _ _ Hk Hr).
  cbn [mbind option_bind]. rewrite Ep. cbn [snd]. rewrite (child_nodes w2 w'), Hi by done. cbn [mbind option_bind].
  by rewrite Hn.
Qed.

Lemma write_credentials_Ok path v h w w' : atomic_write_credentials path v h w = (Ok tt, w') ->
  exists u, canonicalize_username v = Ok u /\ validate_stored_hash (PStr h) = true /\ has_account w' path u h.
Proof.
  intros H. unfold atomic_write_credentials in H.
  apply io_bind_Ok in H as (u & w1 & Hu & H). apply lift_Ok in Hu as [Hu ->].
  apply io_bind_Ok in H as (g & w2 & Hg & H). apply guard_io_Ok in Hg as [Hv ->].
  destruct (split_path path) as [parent name] eqn:Ep.
  apply io_bind_Ok in H as (d & w3 & Hdir & H). apply secure_directory_run in Hdir as [_ Hdir].
  destruct (Hdir d eq_refl) as [Hr Hs]. clear Hdir.
  destruct (parse_credential_line u h (canonicalize_inv v u Hu) Hv) as (payload & He & Hl & Hp).
  assert (H' : finally (_atomic_write_at d name payload mode_600) (os_close d) w3 = (Ok tt, w')).
  { rewrite <- H. unfold finally. rewrite (io_bind_run (lift (utf8_encode (credential_line u h))) _ w3 payload w3); [done|].
    unfold lift. by rewrite He. }
  apply (written_file path) in H' as [Hpath (n & Hf & Hk & _)]; [|by rewrite Ep|by rewrite Ep|by rewrite Ep].
  exists u. split; [done|]. split; [done|]. by exists payload, n.
Qed.

End Reading.

(** After a credential write that reports success, in whatever environment it
    ran, every reader without failures of its own gets exactly the canonical name
    and the hash that were written. *)
Theorem credentials_roundtrip (O1 O2 : Os) path v h w w' :
  @atomic_write_credentials O1 K path v h w = (Ok tt, w') -> calm O2 ->
  exists u w2, canonicalize_username v = Ok u /\ @read_credentials O2 K path w' = (Ok (u, h), w2).
Proof.
  intros (u & Hu & _ & Ha)%write_credentials_Ok Hcalm.
  destruct (@read_credentials_found O2 path w' u h Hcalm Ha) as (w4 & E & _). by exists u, w4.
Qed.

End Store.
