(* ===== verification/LimiterSpec.v ===== *)
(** The text of the limiter's state: sorting keys loses nothing, the state written
    is read back, and what a reservation writes for its own key is what the next
    one reads. *)

From stdpp Require Import base option list.
From Stdlib Require Import ZArith Lia Bool String SpecFloat.
From stdpp Require Import base gmap option list.
From S2P Require Import Prelude PyFloat PyText PyVal PyJson PyStr PyFs PyPath Credential BrokerFiles Limiter PyFsFacts.
From S2P Require Import BrokerReadSpec BrokerWriteSpec BrokerStoreSpec.
Open Scope Z_scope.

(** ** Sorting *)

Lemma insert_key_perm kv d : insert_key kv d ≡ₚ kv :: d.
Proof.
  induction d as [|kv' d IH]; simpl; [done|]. destruct (str_leb _ _); [done|].
  rewrite IH. apply Permutation_swap.
Qed.

Definition sort_values (d : pydict) : pydict := List.map (fun kv => (kv.1, sort_keys kv.2)) d.
Definition sort_dict (d : pydict) : pydict := fold_right insert_key [] (sort_values d).

Lemma sort_keys_dict d : sort_keys (PDict d) = PDict (sort_dict d).
Proof. done. Qed.

Lemma sort_dict_perm d : sort_dict d ≡ₚ sort_values d.
Proof.
  unfold sort_dict. induction (sort_values d) as [|kv l IH]; simpl; [done|].
  rewrite insert_key_perm. by apply Permutation_skip.
Qed.

Lemma sort_values_keys d : List.map fst (sort_values d) = List.map fst d.
Proof. unfold sort_values. rewrite map_map. done. Qed.

Lemma sort_dict_keys d : List.map fst (sort_dict d) ≡ₚ List.map fst d.
Proof. rewrite (Permutation_map fst (sort_dict_perm d)). by rewrite sort_values_keys. Qed.

Lemma dict_get_elem k v d : dict_get k d = Some v -> (k, v) ∈ d.
Proof.
  induction d as [|[k' v'] d IH]; simpl; [done|]. destruct (str_eqb k k') eqn:E.
  - apply str_eqb_eq in E as ->. intros [= ->]. apply list_elem_of_here.
  - intros H. apply list_elem_of_further, IH, H.
Qed.

Lemma dict_get_nodup k v d : NoDup (List.map fst d) -> (k, v) ∈ d -> dict_get k d = Some v.
Proof.
  induction d as [|[k' v'] d IH]; simpl; intros Hnd Hin; [by apply elem_of_nil in Hin|].
  apply NoDup_cons in Hnd as [Hk Hnd]. apply elem_of_cons in Hin as [E|Hin].
  - simplify_eq. by rewrite str_eqb_refl.
  - destruct (str_eqb k k') eqn:E; [|by apply IH]. apply str_eqb_eq in E as ->. exfalso. apply Hk.
    apply list_elem_of_fmap. by exists (k', v).
Qed.

Lemma dict_get_absent k d : dict_get k d = None <-> k ∉ List.map fst d.
Proof.
  induction d as [|[k' v'] d IH]; simpl; [split; [intros _; apply not_elem_of_nil|done]|].
  rewrite not_elem_of_cons. destruct (str_eqb k k') eqn:E.
  - apply str_eqb_eq in E as ->. split; [done|tauto].
  - rewrite IH. split; [|tauto]. intros H. split; [|done]. intros ->. by rewrite str_eqb_refl in E.
Qed.

(** Look-ups in the sorted dict. *)
Lemma dict_get_sort k d : NoDup (List.map fst d) -> dict_get k (sort_dict d) = option_map sort_keys (dict_get k d).
Proof.
  intros Hnd.
  assert (Hnd' : NoDup (List.map fst (sort_dict d))) by by rewrite sort_dict_keys.
  destruct (dict_get k d) as [v|] eqn:E; simpl.
  - apply dict_get_nodup; [done|]. rewrite sort_dict_perm. apply dict_get_elem in E.
    unfold sort_values. apply list_elem_of_fmap. by exists (k, v).
  - apply dict_get_absent in E. apply dict_get_absent. by rewrite sort_dict_keys.
Qed.

Lemma forallb_perm {A} (p : A -> bool) l l' : l ≡ₚ l' -> forallb p l = forallb p l'.
Proof. induction 1; simpl; try congruence. by rewrite !andb_assoc, (andb_comm (p x)). Qed.

Lemma json_ok_sort v : json_ok v = true -> json_ok (sort_keys v) = true.
Proof.
  induction v as [|b|z|f|s|l IH|d IH] using pyval_ind'; intros Hv; try done.
  - cbn [sort_keys json_ok] in *. apply forallb_forall. intros x Hx.
    apply List.in_map_iff in Hx as (y & <- & Hy). rewrite List.Forall_forall in IH. apply IH; [done|].
    by apply (proj1 (forallb_forall _ _) Hv).
  - rewrite sort_keys_dict. cbn [json_ok] in *. apply andb_true_iff in Hv as [Hv Hnd%bool_decide_eq_true].
    apply andb_true_iff. split; [|apply bool_decide_eq_true; by rewrite sort_dict_keys].
    rewrite (forallb_perm _ _ _ (sort_dict_perm d)). apply forallb_forall. intros [k v] Hx.
    apply List.in_map_iff in Hx as ([k' v'] & E & Hy). cbn [fst snd] in E. injection E as <- <-.
    pose proof (proj1 (forallb_forall _ _) Hv (k', v') Hy) as H. cbn [fst snd] in *.
    apply andb_true_iff in H as [Hk Hj]. rewrite Hk. rewrite List.Forall_forall in IH.
    by apply (IH (k', v') Hy).
Qed.

(** ** ASCII text *)

Lemma ascii_join sep l : Forall (fun c => is_ascii c = true) sep -> Forall (Forall (fun c => is_ascii c = true)) l ->
  Forall (fun c => is_ascii c = true) (join_with sep l).
Proof.
  intros Hs. induction 1 as [|x l Hx Hl IH]; [constructor|]. destruct l as [|y l]; [done|].
  rewrite join_with_cons. by repeat (apply Forall_app; split).
Qed.

Lemma ascii_check s : forallb is_ascii s = true -> Forall (fun c => is_ascii c = true) s.
Proof. intros H. apply List.Forall_forall. by apply forallb_forall. Qed.

Lemma ascii_u_escape n : Forall (fun c => is_ascii c = true) (u_escape n).
Proof.
  unfold u_escape. apply Forall_cons_2; [done|]. apply Forall_cons_2; [done|]. cbn [hex_pad].
  repeat apply Forall_cons_2; [..|done].
  all: match goal with |- is_ascii (hex_digit (?x mod 16)) = true =>
    pose proof (hex_digit_range (x mod 16) ltac:(apply Z.mod_pos_bound; lia)) end; unfold is_ascii; lia.
Qed.

Lemma ascii_escape c : is_scalar c = true -> Forall (fun c => is_ascii c = true) (json_escape true c).
Proof.
  intros Hc%is_scalar_spec. unfold json_escape.
  split_if; try apply ascii_u_escape; try by apply ascii_check.
  - apply Forall_app. split; apply ascii_u_escape.
  - apply Forall_cons_2; [unfold is_ascii; lia|done].
Qed.

Lemma ascii_json_str s : forallb is_scalar s = true -> Forall (fun c => is_ascii c = true) (json_str true s).
Proof.
  intros Hs. unfold json_str. apply Forall_cons_2; [done|]. apply Forall_app. split; [|by apply ascii_check].
  induction s as [|c s IH]; cbn [flat_map forallb] in *; [done|].
  apply andb_true_iff in Hs as [Hc Hs]. apply Forall_app. split; [by apply ascii_escape|by apply IH].
Qed.

(** [json.dumps] with [ensure_ascii] and compact separators. *)
Lemma ascii_dumps v : json_ok v = true -> Forall (fun c => is_ascii c = true) (json_dumps j_compact v).
Proof.
  induction v as [|b|z|f|s|l IH|d IH] using pyval_ind'; intros Hv; cbn [json_dumps].
  - by apply ascii_check.
  - destruct b; by apply ascii_check.
  - pose proof (int_str_chars z) as H. revert H. apply List.Forall_impl. intros c Hc. unfold is_digit_char in Hc. unfold is_ascii. lia.
  - destruct (float_text_spec f Hv) as (Ha & _). apply ascii_check. apply forallb_forall. intros c Hc.
    pose proof (proj1 (forallb_forall _ _) Ha c Hc) as H. cbv beta in H. unfold is_ascii. lia.
  - by apply ascii_json_str.
  - apply Forall_cons_2; [done|]. apply Forall_app. split; [|by apply ascii_check].
    apply ascii_join; [by apply ascii_check|]. simpl in Hv.
    induction IH as [|x l Hx Hl IHl]; cbn [List.map forallb] in *; [constructor|].
    apply andb_true_iff in Hv as [? ?]. constructor; auto.
  - apply Forall_cons_2; [done|]. apply Forall_app. split; [|by apply ascii_check].
    apply ascii_join; [by apply ascii_check|]. simpl in Hv. apply andb_true_iff in Hv as [Hv _].
    induction IH as [|x d Hx Hd IHd]; cbn [List.map forallb] in *; [constructor|].
    apply andb_true_iff in Hv as [Hx' Hd']. apply andb_true_iff in Hx' as [Hxk Hxv].
    constructor; [|auto]. apply Forall_app. split; [by apply ascii_json_str|].
    apply Forall_app. split; [by apply ascii_check|auto].
Qed.

(** ** The state that is written and read back *)

Section State.
Context {U : PyUnicode} {K : Kdf} {L : KdfLaws K}.

(** A state as the limiter makes it. *)
Record state_ok (state entries : pydict) : Prop := {
  so_json : json_ok (PDict state) = true;
  so_version : dict_get (lit "version") state = Some (PInt 1);
  so_entries : dict_get (lit "entries") state = Some (PDict entries) }.

Lemma state_ok_nodup state entries : state_ok state entries -> NoDup (List.map fst state).
Proof. intros [H _ _]. cbn [json_ok] in H. by apply andb_true_iff in H as [_ H%bool_decide_eq_true]. Qed.

Lemma json_ok_get d k v : json_ok (PDict d) = true -> dict_get k d = Some v -> json_ok v = true.
Proof.
  cbn [json_ok]. intros [H _]%andb_true_iff Hg. apply dict_get_elem, list_elem_of_In in Hg.
  pose proof (proj1 (forallb_forall _ _) H _ Hg) as E. by apply andb_true_iff in E as [_ E].
Qed.

Lemma json_ok_nodup d : json_ok (PDict d) = true -> NoDup (List.map fst d).
Proof. cbn [json_ok]. intros H. by apply andb_true_iff in H as [_ H%bool_decide_eq_true]. Qed.

(** Reading the file back gives the sorted state, unless it holds more entries
    than the reader accepts. *)
Lemma decode_state_text state entries : state_ok state entries ->
  decode_state (state_text state) =
  if MAX_ENTRIES <? zlen entries then Exc AuthenticationError else Ok (sort_dict state, sort_dict entries).
Proof.
  intros Hok. pose proof (so_json _ _ Hok) as Hj. pose proof (json_ok_sort _ Hj) as Hs. unfold decode_state, state_text.
  assert (Ha : forallb is_ascii (json_dumps j_compact (sort_keys (PDict state)) ++ [10]) = true).
  { apply forallb_forall. apply List.Forall_forall. apply Forall_app. split; [by apply ascii_dumps|by apply ascii_check]. }
  destruct (utf8_ascii _ Ha) as [_ ->]. cbn [mbind res_bind]. rewrite json_roundtrip_nl by auto with t1os.
  rewrite sort_keys_dict. cbn [check_state].
  pose proof (state_ok_nodup _ _ Hok) as Hnd.
  rewrite !dict_get_sort, (so_version _ _ Hok), (so_entries _ _ Hok) by done. cbn [option_map sort_keys].
  fold (sort_values entries). fold (sort_dict entries). cbn [eq_one].
  replace (zlen (sort_dict entries)) with (zlen entries); [done|].
  unfold zlen. rewrite (Permutation_length (sort_dict_perm entries)). unfold sort_values. by rewrite length_map.
Qed.

End State.

(** The attempt limiter keeps its promise: an attempt that is allowed is on record
    before it is allowed, whatever fails, and until its pause is over no further
    attempt is allowed, whichever process asks. *)
(** ** Dicts *)

Lemma json_ok_set d k v : json_ok (PDict d) = true -> forallb is_scalar k = true -> json_ok v = true ->
  json_ok (PDict (dict_set k v d)) = true.
Proof.
  cbn [json_ok]. rewrite !andb_true_iff, !bool_decide_eq_true. intros [Hv Hnd] Hk Hj.
  induction d as [|[k' v'] d IH]; cbn [dict_set forallb List.map fst snd] in *.
  - rewrite Hk, Hj. split; [done|]. apply NoDup_singleton.
  - apply andb_true_iff in Hv as [Hv' Hv]. apply NoDup_cons in Hnd as [Hnin Hnd].
    destruct (str_eqb k k') eqn:E.
    + apply str_eqb_eq in E as ->. cbn [forallb List.map fst snd]. rewrite Hk, Hj, Hv. split; [done|]. by apply NoDup_cons.
    + cbn [forallb List.map fst snd]. rewrite Hv'. destruct (IH Hv Hnd) as [H1 H2]. rewrite H1. split; [done|].
      apply NoDup_cons. split; [|done]. intros Hin. apply Hnin.
      assert (Hin' : forall x, x ∈ List.map fst (dict_set k v d) -> x = k \/ x ∈ List.map fst d).
      { clear. induction d as [|[k2 v2] d IH]; cbn [dict_set List.map fst]; intros x.
        - intros H. apply elem_of_cons in H as [->|H]; auto.
        - destruct (str_eqb k k2) eqn:E; cbn [List.map fst]; rewrite !elem_of_cons.
          + apply str_eqb_eq in E as ->. tauto.
          + intros [->|H]; [auto|]. destruct (IH x H); auto. }
      destruct (Hin' k' Hin) as [->|]; [by rewrite str_eqb_refl in E|done].
Qed.

Lemma dict_get_del_ne k k' d : k <> k' -> dict_get k (dict_del k' d) = dict_get k d.
Proof.
  intros Hne. induction d as [|[k2 v2] d IH]; cbn [dict_del List.filter fst]; [done|]. fold (dict_del k' d).
  destruct (str_eqb k' k2) eqn:E; cbn [negb dict_get]; [|by rewrite IH].
  apply str_eqb_eq in E as <-. destruct (str_eqb k k') eqn:E2; [by apply str_eqb_eq in E2|done].
Qed.

Lemma json_ok_del d k : json_ok (PDict d) = true -> json_ok (PDict (dict_del k d)) = true.
Proof.
  cbn [json_ok]. rewrite !andb_true_iff, !bool_decide_eq_true. intros [Hv Hnd]. split.
  - apply forallb_forall. intros x [Hx _]%List.filter_In. by apply (proj1 (forallb_forall _ _) Hv).
  - induction d as [|[k2 v2] d IH]; [done|]. cbn [forallb List.map fst] in *. apply andb_true_iff in Hv as [_ Hv].
    apply NoDup_cons in Hnd as [Hnin Hnd]. cbn [dict_del List.filter fst].
    fold (dict_del k d). destruct (negb (str_eqb k k2)); [|by apply IH]. cbn [List.map fst]. apply NoDup_cons. split; [|by apply IH].
    intros Hin. apply Hnin. apply list_elem_of_fmap in Hin as ([a b] & -> & Hin). apply list_elem_of_fmap.
    exists (a, b). split; [done|]. apply list_elem_of_In. apply list_elem_of_In, List.filter_In in Hin. tauto.
Qed.

(** ** The decision *)

(** A float never lies a day before itself. *)
Lemma age_zero f : fgt (fsub f f) DAY = false.
Proof.
  destruct f as [s|s| |s m e]; [by destruct s|by destruct s|done|].
  unfold fsub, SFsub. rewrite Z.min_id, Z.sub_diag. by destruct s.
Qed.

Section Decision.
Context {U : PyUnicode} {K : Kdf} {L : KdfLaws K}.

Definition entry_of (failures : Z) (until last : pyfloat) : pyval :=
  PDict [(lit "failures", PInt failures); (lit "blocked_until", PFloat until); (lit "last", PFloat last)].

(** Reading an entry the limiter wrote, before or after sorting. *)
Lemma read_entry_of f until last : read_entry (entry_of f until last) = Ok (until, f).
Proof. done. Qed.
Lemma read_entry_sorted f until last : read_entry (sort_keys (entry_of f until last)) = Ok (until, f).
Proof. done. Qed.

(** Pruning: what is left was there, and the entry just made stays. *)
(** When an entry was made. *)
Definition entry_last (now : pyfloat) (v : pyval) : res pyfloat :=
  as_invalid true (x ← get_attr v (lit "last") (PFloat now); py_float x).

Lemma prune_kept now key todo es es' :
  prune now todo es = Ok es' -> json_ok (PDict es) = true ->
  (forall v, (key, v) ∈ todo -> exists last, entry_last now v = Ok last /\ fgt (fsub now last) DAY = false) ->
  json_ok (PDict es') = true /\ dict_get key es' = dict_get key es.
Proof.
  revert es. induction todo as [|[k v] todo IH]; intros es H Hj Hkey; cbn [prune] in H; [by injection H as <-|].
  fold (entry_last now v) in H. destruct (entry_last now v) as [last|] eqn:El; [|done]. cbn [mbind res_bind] in H.
  assert (Hkey' : forall v0, (key, v0) ∈ todo -> exists last, entry_last now v0 = Ok last /\ fgt (fsub now last) DAY = false).
  { intros v0 Hv0. apply Hkey. by apply list_elem_of_further. }
  destruct (fgt (fsub now last) DAY) eqn:E; [|by apply IH].
  destruct (IH _ H (json_ok_del _ _ Hj) Hkey') as [H1 H2]. split; [done|]. rewrite H2.
  apply dict_get_del_ne. intros ->.
  destruct (Hkey v (list_elem_of_here _ _)) as (last' & E1 & E2). congruence.
Qed.

Definition good_time (now delay : pyfloat) : Prop := float_text_ok now = true /\ float_text_ok (fadd now delay) = true.

(** The attempts an entry counts. *)
Definition failures_of (entries : pydict) (key : pystr) : Z :=
  match read_entry (dict_get_def key (PDict []) entries) with Ok (_, f) => f | Exc _ => 0 end.

Lemma entry_json f until last : 1 <= f <= 10 -> float_text_ok last = true -> float_text_ok until = true ->
  json_ok (entry_of f until last) = true.
Proof.
  intros Hf Hl Hu. assert (Hi : json_ok (PInt f) = true).
  { assert (f = 1 \/ f = 2 \/ f = 3 \/ f = 4 \/ f = 5 \/ f = 6 \/ f = 7 \/ f = 8 \/ f = 9 \/ f = 10) as Hc by lia.
    repeat destruct Hc as [->|Hc]; try by vm_compute. subst; by vm_compute. }
  unfold entry_of. cbn [json_ok forallb fst snd] in *. rewrite Hi, Hl, Hu. done.
Qed.

Lemma decide_allowed now key es d es' :
  decide_attempt now key es = Ok ((true, d), Some es') -> json_ok (PDict es) = true ->
  forallb is_scalar key = true -> good_time now d ->
  exists f, f = Z.min (Z.max (failures_of es key) 0 + 1) 10 /\ d = backoff f /\
    json_ok (PDict es') = true /\ dict_get key es' = Some (entry_of f (fadd now d) now).
Proof.
  unfold decide_attempt, failures_of. intros H Hj Hk [Hnow Hend].
  destruct (read_entry _) as [[b f0]|e]; [|cbn in H; by destruct (is_valueerror e || _ || _)].
  cbn [as_invalid mbind res_bind] in H. destruct (fgt b now); [done|].
  set (f := Z.min (Z.max f0 0 + 1) 10) in *. destruct (prune now _ _) as [es2|] eqn:Ep; [|done].
  cbn [mbind res_bind] in H. injection H as <- <-. exists f. split; [done|]. split; [done|].
  change (PDict [(lit "failures", PInt f); (lit "blocked_until", PFloat (fadd now (backoff f))); (lit "last", PFloat now)])
    with (entry_of f (fadd now (backoff f)) now) in Ep.
  assert (He : json_ok (entry_of f (fadd now (backoff f)) now) = true) by (apply entry_json; [lia|done|done]).
  eapply (prune_kept now key) in Ep as [H1 H2]; [|by apply json_ok_set|].
  - split; [done|]. by rewrite H2, dict_get_set_eq.
  - intros v Hv. apply dict_get_nodup in Hv; [|eapply json_ok_nodup, json_ok_set; done].
    rewrite dict_get_set_eq in Hv. injection Hv as <-. exists now. split; [done|apply age_zero].
Qed.

(** An entry as it is made, or with its fields sorted once it went through the
    file. *)
Definition is_entry (e : pyval) (f : Z) (until last : pyfloat) : Prop :=
  e = entry_of f until last \/ e = sort_keys (entry_of f until last).

Lemma is_entry_sorted e f until last : is_entry e f until last -> sort_keys e = sort_keys (entry_of f until last).
Proof. by intros [->| ->]. Qed.

Lemma is_entry_last now e f until last : is_entry e f until last -> entry_last now e = Ok last.
Proof. by intros [->| ->]. Qed.

(** A clock that can be trusted with an entry: its times can be written, and it is
    not a day later. *)
Definition good_clock (now last : pyfloat) : Prop :=
  fgt (fsub now last) DAY = false /\ forall f, 1 <= f <= 10 -> good_time now (backoff f).

(** An attempt of somebody else keeps the entry. *)
Lemma decide_other now key other es answer es' e f until last :
  decide_attempt now other es = Ok (answer, Some es') -> json_ok (PDict es) = true -> forallb is_scalar other = true ->
  good_clock now last -> other <> key -> dict_get key es = Some e -> is_entry e f until last ->
  json_ok (PDict es') = true /\ dict_get key es' = Some e.
Proof.
  unfold decide_attempt. intros H Hj Hk [Hage Hgood] Hne Hg He.
  destruct (as_invalid false _) as [[b f0]|]; [|done]. cbn [mbind res_bind] in H. destruct (fgt b now); [done|].
  set (f1 := Z.min (Z.max f0 0 + 1) 10) in *. destruct (Hgood f1 ltac:(lia)) as [Hnow Hend].
  destruct (prune now _ _) as [es2|] eqn:Ep; [|done]. cbn [mbind res_bind] in H. injection H as <- <-.
  change (PDict [(lit "failures", PInt f1); (lit "blocked_until", PFloat (fadd now (backoff f1))); (lit "last", PFloat now)])
    with (entry_of f1 (fadd now (backoff f1)) now) in Ep.
  assert (Hn : json_ok (entry_of f1 (fadd now (backoff f1)) now) = true) by (apply entry_json; [lia|done|done]).
  eapply (prune_kept now key) in Ep as [H1 H2]; [|by apply json_ok_set|].
  - split; [done|]. rewrite H2. by rewrite dict_get_set_ne.
  - intros v Hv. apply dict_get_nodup in Hv; [|eapply json_ok_nodup, json_ok_set; done].
    rewrite dict_get_set_ne in Hv by done. rewrite Hg in Hv. injection Hv as <-. exists last. split; [by eapply is_entry_last|done].
Qed.

Lemma decide_blocked now key es f until last :
  dict_get key es = Some (sort_keys (entry_of f until last)) -> fgt until now = true ->
  decide_attempt now key es = Ok ((false, fmin2 (fsub until now) MAX_DELAY), None).
Proof.
  intros Hg Hb. unfold decide_attempt, dict_get_def. rewrite Hg, read_entry_sorted. cbn [as_invalid mbind res_bind].
  by rewrite Hb.
Qed.

End Decision.

(** ** Files that were there before *)

(** Every entry names an inode. *)
Definition closed (w : world) : Prop := forall d x i, child w d x = Some i -> exists n, w_nodes w !! i = Some n.

(** Between the two worlds no file has appeared under the name [x]. *)
Definition no_new (x : pystr) (w w' : world) : Prop := closed w ->
  closed w' /\ forall d i n data, child w' d x = Some i -> w_nodes w' !! i = Some n -> i_kind n = KFile data ->
    child w d x = Some i /\ exists n0, w_nodes w !! i = Some n0 /\ i_kind n0 = KFile data.

#[export] Instance no_new_preorder x : PreOrder (no_new x).
Proof.
  split.
  - intros w Hc. split; [done|]. eauto.
  - intros w1 w2 w3 H1 H2 Hc. destruct (H1 Hc) as [Hc2 Hb2], (H2 Hc2) as [Hc3 Hb3]. split; [done|].
    intros d i n data Hch Hi Hk. destruct (Hb3 d i n data Hch Hi Hk) as (Hch2 & n2 & Hi2 & Hk2). by eapply Hb2.
Qed.

Lemma no_new_same x w w' : same_nodes w w' -> no_new x w w'.
Proof.
  unfold same_nodes. intros E Hc. split.
  - intros d y i. rewrite (child_nodes w w') by done. rewrite E. apply Hc.
  - intros d i n data. rewrite (child_nodes w w') by done. rewrite E. eauto.
Qed.

Lemma no_new_set x w i n n' : w_nodes w !! i = Some n -> i_kind n' = i_kind n ->
  no_new x w (set_nodes (insert i n') w).
Proof.
  intros Hi Hk Hc. set (w' := set_nodes _ w).
  assert (Hch : forall d y, child w' d y = child w d y).
  { intros d y. rewrite !child_entries. unfold w'. by rewrite (entries_same_kind w i n n'). }
  split.
  - intros d y j Hj. rewrite Hch in Hj. simpl. destruct (decide (i = j)) as [->|Hne].
    + rewrite lookup_insert_eq. eauto.
    + rewrite lookup_insert_ne by done. by eapply Hc.
  - intros d j m data Hj Hm Hkm. rewrite Hch in Hj. split; [done|]. simpl in Hm.
    destruct (decide (i = j)) as [->|Hne].
    + rewrite lookup_insert_eq in Hm. injection Hm as <-. exists n. split; [done|]. congruence.
    + rewrite lookup_insert_ne in Hm by done. eauto.
Qed.

Lemma no_new_create x w d y k mode es `{OS : Os} : entries w d = Some es -> child w d y = None ->
  (forall es, k = KDir es -> es = ∅) -> y <> x \/ is_dir k = true ->
  no_new x w (create_at d y k mode w).
Proof.
  intros He Hy0 Hk Hy Hc.
  assert (Hch : forall d' y', child (create_at d y k mode w) d' y' =
    if bool_decide (d' = d /\ y' = y) then Some (fresh_ino w) else child w d' y')
    by (intros; by apply (child_create w d y k mode es)).
  assert (Hnew : w_nodes (create_at d y k mode w) !! fresh_ino w = Some (new_node k mode)).
  { apply create_new_node. apply entries_node in He as (n & Hn & _). by rewrite Hn. }
  pose proof (keeps_create (fun _ => False) w d y k mode es He Hy0 Hk) as Hkeep. split.
  - intros d' y' j Hj. rewrite Hch in Hj. destruct (bool_decide _); [injection Hj as <-; eauto|].
    destruct (Hc d' y' j Hj) as (n & Hn). destruct (keeps_node _ _ _ Hkeep j n Hn) as (n' & Hn' & _). eauto.
  - intros d' i n data Hj Hi Hkn. rewrite Hch in Hj.
    destruct (bool_decide_reflect (d' = d /\ x = y)) as [[-> ->]|].
    + injection Hj as <-. rewrite Hnew in Hi. injection Hi as <-. simpl in Hkn. subst k. by destruct Hy.
    + split; [done|]. destruct (Hc d' x i Hj) as (m & Hm). exists m. split; [done|].
      destruct (keeps_node _ _ _ Hkeep i m Hm) as (n' & Hn' & Hd & Hrest). simplify_eq.
      destruct (is_dir (i_kind m)) eqn:E; [by rewrite Hkn in Hd|]. by destruct (Hrest eq_refl) as [<- _].
Qed.

Section Calls.
Context {OS : Os}.

Lemma no_new_syscall {A} x (f : fault -> world -> res A * world) :
  (forall y w, no_new x w (f y w).2) -> pres (no_new x) (syscall f).
Proof.
  intros Hf w. transitivity (step_tick w); [by apply no_new_same|].
  unfold syscall. destruct (os_fault _); [apply Hf|done|apply Hf].
Qed.

Lemma no_new_entry {A} x d y w (found : ino -> inode -> res A * world) missing :
  (forall i n, no_new x w (found i n).2) ->
  (forall es, entries w d = Some es -> child w d y = None -> no_new x w missing.2) ->
  no_new x w (at_entry d y w found missing).2.
Proof.
  intros Hf Hm. unfold at_entry. destruct (child w d y) as [i|] eqn:Hc.
  - destruct (w_nodes w !! i) as [n|] eqn:Hi; [by apply Hf|done].
  - destruct (entries w d) as [es|] eqn:He; [by eapply Hm|done].
Qed.

Lemma no_new_still {A} x (m : IO A) : pres same_nodes m -> pres (no_new x) m.
Proof. intros H w. apply no_new_same, H. Qed.

Lemma no_new_mkdir x d y mode : pres (no_new x) (os_mkdir d y mode).
Proof.
  apply no_new_syscall. intros f w. apply no_new_entry; [done|]. intros es He Hc.
  apply (no_new_create x w d y (KDir ∅) mode es He Hc); [|by right]. intros es' H. congruence.
Qed.

Lemma no_new_open_rw x d y mode : y <> x -> pres (no_new x) (os_open_rw d y mode).
Proof.
  intros Hy. apply no_new_syscall. intros f w. apply no_new_entry.
  - intros i n. destruct (i_kind n); done || by apply no_new_same.
  - intros es He Hc. simpl.
    etransitivity; [by apply (no_new_create x w d y (KFile []) mode es He Hc); [|left]|by apply no_new_same].
Qed.

Lemma no_new_fchmod x i mode : pres (no_new x) (os_fchmod i mode).
Proof.
  apply no_new_syscall. intros f w. unfold on_inode. destruct (w_nodes w !! i) as [n|] eqn:E; [|done].
  by apply (no_new_set x w i n).
Qed.

Lemma no_new_open_root x : pres (no_new x) os_open_root.
Proof. apply no_new_still, still_open_root. Qed.
Lemma no_new_open_dir x d y : pres (no_new x) (os_open_dir d y).
Proof. apply no_new_still, still_open_dir. Qed.
Lemma no_new_close x i : pres (no_new x) (os_close i).
Proof. apply no_new_still, still_close. Qed.
Lemma no_new_fstat x i : pres (no_new x) (os_fstat i).
Proof. apply no_new_still, still_fstat. Qed.

End Calls.

#[export] Hint Resolve no_new_mkdir no_new_fchmod no_new_open_root no_new_open_dir no_new_close no_new_fstat : kept.

Lemma secure_directory_no_new {OS : Os} x create fm repair comps :
  pres (no_new x) (_open_secure_directory create fm repair comps).
Proof.
  unfold _open_secure_directory. pres_step; [kept|].
  assert (H : forall cs d b, pres (no_new x) (open_components create fm d b cs)).
  { induction cs as [|c cs IH]; intros d b; cbn [open_components]; [kept|].
    pres_step; [unfold open_step, tolerate_exists; kept|]. destruct a0 as [i m]. apply IH. }
  pres_step; [apply H|]. unfold settle_metadata. kept.
Qed.

(** ** One operation on the file *)

Section Limiter.
Context {U : PyUnicode} {K : Kdf} {L : KdfLaws K}.

(** The limiter's file holds this state. *)
Definition limits (w : world) (path : list pystr) (st es : pydict) : Prop :=
  state_ok st es /\ exists n, file_at w path = Some n /\ i_kind n = KFile (state_text st) /\ private n.

(** No file, or one the limiter wrote. *)
Definition clean (w : world) (path : list pystr) : Prop :=
  closed w /\ forall d i n data, child w d (split_path path).2 = Some i -> w_nodes w !! i = Some n ->
    i_kind n = KFile data -> exists st es, data = state_text st /\ state_ok st es.

Section Operations.
Context {OS : Os}.

Lemma lock_name_differs (x : pystr) : lit "." ++ x ++ lit ".lock" <> x.
Proof.
  intros E. assert (H : zlen (lit "." ++ x ++ lit ".lock") = zlen x) by by rewrite E.
  rewrite !zlen_app in H. change (zlen (lit ".")) with 1 in H. change (zlen (lit ".lock")) with 5 in H. lia.
Qed.

(** The body runs in the directory of the path; before it nothing that existed
    has changed and no file has appeared. *)
Lemma locked_Ok {A} path (body : ino -> pystr -> IO A) w a w' :
  _locked path body w = (Ok a, w') ->
  exists d w1 w2, body d (split_path path).2 w1 = (Ok a, w2) /\ w_nodes w' = w_nodes w2 /\
    reach w1 root_ino (split_path path).1 = Some d /\ forallb _safe_component (split_path path).1 = true /\
    keeps (fun _ => False) w w1 /\ no_new (split_path path).2 w w1.
Proof.
  unfold _locked. destruct (split_path path) as [parent x]. cbn [fst snd]. intros H.
  apply io_bind_Ok in H as (d & w1 & Hdir & H).
  pose proof (io_pres_run _ _ _ _ _ (secure_directory_no_new x true (Some mode_700) false parent) Hdir) as Hn1.
  apply secure_directory_run in Hdir as [Hk1 Hdir]. destruct (Hdir d eq_refl) as [Hr Hs].
  apply io_bind_Ok in H as (lock & w2 & Hopen & H).
  pose proof (io_pres_run _ _ _ _ _ (no_new_open_rw x d _ mode_600 (lock_name_differs x)) Hopen) as Hn2.
  pose proof (io_pres_run _ _ _ _ _ (kept_open_rw (fun _ => False) d _ mode_600) Hopen) as Hk2.
  apply io_bind_Ok in H as (u & w3 & Hmod & H).
  pose proof (io_pres_run _ _ _ _ _ (no_new_fchmod x lock mode_600) Hmod) as Hn3.
  pose proof (io_pres_run _ _ _ _ _ (kept_fchmod (fun _ => False) lock mode_600 eq_refl) Hmod) as Hk3.
  apply finally_Ok in H as (v & w4 & H & Hclose).
  apply io_bind_Ok in H as (u2 & w5 & Hlock & H). pose proof (io_pres_run _ _ _ _ _ (still_flock lock) Hlock) as Hs5.
  exists d, w5, w4. assert (Hk13 : keeps (fun _ => False) w1 w5) by (transitivity w2; [done|transitivity w3; [done|by apply same_keeps]]).
  split; [done|]. split; [change (same_nodes w4 w'); refine (io_pres_run _ _ _ _ _ _ Hclose); still|]. split; [by eapply reach_keeps|].
  split; [done|]. split; [by transitivity w1|].
  transitivity w1; [done|transitivity w2; [done|transitivity w3; [done|by apply no_new_same]]].
Qed.

(** A run under the lock, whatever its outcome. *)
Lemma locked_run {A} path (body : ino -> pystr -> IO A) w r w' :
  _locked path body w = (r, w') ->
  exists w1, keeps (fun _ => False) w w1 /\
    ((same_nodes w1 w' /\ exists e, r = Exc e) \/
     exists d w2 rb, reach w1 root_ino (split_path path).1 = Some d /\ body d (split_path path).2 w1 = (rb, w2) /\
       same_nodes w2 w' /\ (r = rb \/ exists e, r = Exc e)).
Proof.
  unfold _locked. destruct (split_path path) as [parent x]. cbn [fst snd]. intros H.
  destruct (@_open_secure_directory _ true (Some mode_700) false parent w) as [[d|e] w1] eqn:E1;
    pose proof E1 as [Hk1 Hr]%secure_directory_run.
  2: { rewrite (io_bind_exc _ _ _ _ _ E1) in H. injection H as <- <-. exists w1. split; [done|]. left. split; [done|by eexists]. }
  destruct (Hr d eq_refl) as [Hreach _]. rewrite (io_bind_run _ _ _ _ _ E1) in H.
  destruct (@os_open_rw _ d (lit "." ++ x ++ lit ".lock") mode_600 w1) as [[lock|e] w2] eqn:E2;
    pose proof (io_pres_run _ _ _ _ _ (kept_open_rw (fun _ => False) d _ mode_600) E2) as Hk2.
  2: { rewrite (io_bind_exc _ _ _ _ _ E2) in H. injection H as <- <-. exists w2. split; [by transitivity w1|]. left. split; [done|by eexists]. }
  rewrite (io_bind_run _ _ _ _ _ E2) in H.
  destruct (@os_fchmod _ lock mode_600 w2) as [[u|e] w3] eqn:E3;
    pose proof (io_pres_run _ _ _ _ _ (kept_fchmod (fun _ => False) lock mode_600 eq_refl) E3) as Hk3;
    assert (Hk : keeps (fun _ => False) w1 w3) by (by transitivity w2).
  2: { rewrite (io_bind_exc _ _ _ _ _ E3) in H. injection H as <- <-. exists w3. split; [by transitivity w1|].
       left. split; [done|by eexists]. }
  rewrite (io_bind_run _ _ _ _ _ E3) in H. unfold finally in H.
  destruct ((@os_flock _ lock ;; body d x) w3) as [rb w4] eqn:E4.
  destruct ((@os_flock _ lock ;; @os_close lock ;; @os_close d) w4) as [rc w5] eqn:E5.
  assert (Hs5 : same_nodes w4 w5) by (refine (io_pres_run _ _ _ _ _ _ E5); still).
  destruct (@os_flock _ lock w3) as [[u2|e2] w6] eqn:E6; pose proof (io_pres_run _ _ _ _ _ (still_flock lock) E6) as Hs6.
  - rewrite (io_bind_run _ _ _ _ _ E6) in E4. exists w6. split; [transitivity w1; [done|]; transitivity w3; [done|by apply same_keeps]|].
    right. exists d, w4, rb. split; [eapply reach_keeps; [|exact Hreach]; transitivity w3; [exact Hk|by apply same_keeps]|].
    split; [done|]. destruct rc; injection H as <- <-; (split; [done|]); [by left|right; by eexists].
  - rewrite (io_bind_exc _ _ _ _ _ E6) in E4. injection E4 as <- <-. exists w3. split; [by transitivity w1|]. left.
    destruct rc; injection H as <- <-; (split; [by transitivity w6|by eexists]).
Qed.

(** What [_load] can give. *)
Lemma load_Ok d x w st es w' : _load d x w = (Ok (st, es), w') ->
  same_nodes w w' /\
  ((exists i n data, child w d x = Some i /\ w_nodes w !! i = Some n /\ i_kind n = KFile data /\
      private n /\ decode_state data = Ok (st, es)) \/
   (child w d x = None /\ st = empty_state /\ es = [])).
Proof.
  intros H. assert (Hs : pres same_nodes (_load d x)).
  { unfold _load. apply io_pres_bind; [typeclasses eauto| |intros [[raw meta]|]; still].
    apply io_pres_try; [typeclasses eauto| |intros e; still].
    apply io_pres_bind; [typeclasses eauto|apply read_regular_still|intros [raw meta]; still]. }
  split; [by eapply io_pres_run|]. unfold _load in H.
  apply io_bind_Ok in H as (found & w1 & Hf & H). apply try_io_Ok in Hf as [Hf|(e & w2 & Hf & Hh)].
  - apply io_bind_Ok in Hf as ([raw meta] & w2 & Hr & Hf). apply ret_Ok in Hf as [-> ->].
    apply io_bind_Ok in H as (u & w3 & Hg & H). apply guard_io_Ok in Hg as [Hp ->]. apply lift_Ok in H as [Hd _].
    apply read_regular_Ok in Hr as (i & Hc & Hi & Hk & _); [|done].
    left. exists i, meta, raw. unfold private. split_and!; try done. by apply Z.eqb_eq.
  - destruct (bool_decide_reflect (e = FileNotFoundError)) as [->|]; [|done].
    apply ret_Ok in Hh as [-> ->]. apply ret_Ok in H as [E ->]. right. split; [|by simplify_eq].
    apply io_bind_exc_inv in Hf as [Hf|(p & w3 & _ & Hf)]; [by apply read_regular_missing in Hf|].
    by destruct p.
Qed.

Lemma limits_of_load d x w st es w' :
  _load d x w = (Ok (st, es), w') ->
  (forall i n data, child w d x = Some i -> w_nodes w !! i = Some n -> i_kind n = KFile data ->
     exists st0 es0, data = state_text st0 /\ state_ok st0 es0) ->
  state_ok st es.
Proof.
  intros H Hclean. apply load_Ok in H as [_ [(i & n & data & Hc & Hi & Hk & _ & Hd)|(_ & -> & ->)]].
  2: { by split. }
  destruct (Hclean i n data Hc Hi Hk) as (st0 & es0 & -> & Hok).
  rewrite (decode_state_text st0 es0 Hok) in Hd. destruct (_ <? _); [done|]. injection Hd as <- <-.
  pose proof (state_ok_nodup _ _ Hok) as Hnd. split.
  - by apply (json_ok_sort _ (so_json _ _ Hok)).
  - by rewrite dict_get_sort, (so_version _ _ Hok).
  - by rewrite dict_get_sort, (so_entries _ _ Hok).
Qed.

Lemma state_ok_update st es es' : state_ok st es -> json_ok (PDict es') = true ->
  state_ok (dict_set (lit "entries") (PDict es') st) es'.
Proof.
  intros [H1 H2 H3] Hj. split.
  - by apply json_ok_set.
  - rewrite dict_get_set_ne; [done|]. by vm_compute.
  - apply dict_get_set_eq.
Qed.

Lemma state_ok_entries st es : state_ok st es -> json_ok (PDict es) = true.
Proof. intros [H1 _ H3]. by eapply json_ok_get. Qed.

(** The new state is in place when [_write] reports success. *)
Lemma write_Ok path d st es w w' : state_ok st es ->
  reach w root_ino (split_path path).1 = Some d -> forallb _safe_component (split_path path).1 = true ->
  _write d (split_path path).2 st w = (Ok tt, w') -> limits w' path st es.
Proof.
  intros Hok Hr Hs H. unfold _write in H.
  assert (H' : finally (_atomic_write_at d (split_path path).2 (state_text st) mode_600) (os_close d) w =
    (Ok tt, add_open (-1) w')) by (unfold finally; by rewrite H).
  apply (written_file path) in H' as [_ (n & Hf & Hk & Hm)]; [|by destruct (split_path path)|done|done].
  split; [done|]. exists n. split; [|split; [done|]].
  - by rewrite <- (file_at_nodes w' (add_open (-1) w')).
  - unfold private. by rewrite Hm.
Qed.

Lemma key_scalar principal scope key : _key principal scope = Ok key -> forallb is_scalar key = true.
Proof.
  unfold _key. destruct (utf8_encode _) as [b|]; [|done]. intros [= <-].
  destruct (sha256hex_text b) as [H _]. apply forallb_forall. intros c Hc.
  pose proof (proj1 (forallb_forall _ _) H c Hc) as E. unfold is_lower_hex, ascii_digit in E.
  unfold is_scalar, is_surrogate. lia.
Qed.

(** An allowed attempt: the state before it, and the record left. *)
Lemma reserve_allowed path principal scope now w t w0 d w' :
  now_float now w = (Ok t, w0) -> reserve path principal scope now w = (Ok (true, d), w') -> good_time t d ->
  clean w path \/ (exists st es, limits w path st es) ->
  exists key es f st' es', _key principal scope = Ok key /\
    (forall st0 es0, limits w path st0 es0 -> es = sort_dict es0) /\
    f = Z.min (Z.max (failures_of es key) 0 + 1) 10 /\ d = backoff f /\
    limits w' path st' es' /\ dict_get key es' = Some (entry_of f (fadd t d) t).
Proof.
  intros Hnow H Hgood Hpre. unfold reserve in H. rewrite (io_bind_run _ _ _ _ _ Hnow) in H.
  assert (Hw0 : same_nodes w w0).
  { destruct now as [v|]; simpl in Hnow; [by apply lift_Ok in Hnow as [_ ->]|by injection Hnow as _ <-]. }
  apply io_bind_Ok in H as (key & w1 & Hkey & H). apply lift_Ok in Hkey as [Hkey ->].
  apply locked_Ok in H as (dir & w1 & w2 & H & Hw' & Hr & Hs & Hk & Hn).
  apply io_bind_Ok in H as ([st es] & w3 & Hload & H).
  assert (Hfile : forall st0 es0, limits w path st0 es0 -> exists i n, child w1 dir (split_path path).2 = Some i /\
    w_nodes w1 !! i = Some n /\ i_kind n = KFile (state_text st0)).
  { intros st0 es0 (_ & n & Hf & Hkn & _). rewrite <- (file_at_nodes w w0) in Hf by done.
    destruct (file_at_keeps _ w0 w1 path n _ Hk Hf Hkn) as (n' & Hf' & Hk' & _); [tauto|].
    unfold file_at in Hf'. rewrite Hr in Hf'. cbn [mbind option_bind] in Hf'.
    destruct (child w1 dir _) as [i|] eqn:Hc; [|done]. exists i, n'. done. }
  assert (Hok : state_ok st es /\ forall st0 es0, limits w path st0 es0 -> es = sort_dict es0).
  { split.
    - apply (limits_of_load _ _ _ _ _ _ Hload). intros i n data Hc Hi Hkn. destruct Hpre as [[Hcl Hpre]|(st0 & es0 & Hl)].
      + assert (Hcl0 : closed w0).
        { intros d' y j Hj. rewrite (child_nodes w w0) in Hj by done. rewrite Hw0. by eapply Hcl. }
        destruct (proj2 (Hn Hcl0) dir i n data Hc Hi Hkn) as (Hc0 & n0 & Hn0 & Hk0).
        rewrite (child_nodes w w0) in Hc0 by done. rewrite Hw0 in Hn0. by eapply Hpre.
      + pose proof Hl as (Hok0 & _). destruct (Hfile st0 es0 Hl) as (i' & n' & Hc' & Hi' & Hk').
        simplify_eq. exists st0, es0. split; [congruence|done].
    - intros st0 es0 Hl. pose proof Hl as (Hok0 & _). destruct (Hfile st0 es0 Hl) as (i' & n' & Hc' & Hi' & Hk').
      apply load_Ok in Hload as [_ [(i & n & data & Hc & Hi & Hkn & _ & Hd)|(Hc & _)]]; [|congruence].
      simplify_eq. rewrite Hk' in Hkn. injection Hkn as <-. rewrite (decode_state_text _ _ Hok0) in Hd.
      destruct (_ <? _); [done|]. by injection Hd as _ <-. }
  destruct Hok as [Hok Hes].
  apply io_bind_Ok in H as ([answer changed] & w4 & Hdec & H). apply lift_Ok in Hdec as [Hdec ->].
  assert (Hload3 : same_nodes w1 w3) by by apply load_Ok in Hload as [? _].
  assert (exists es', changed = Some es' /\ answer = (true, d)) as (es' & -> & ->).
  { revert Hdec. unfold decide_attempt.
    destruct (as_invalid false _) as [[b f]|]; [|done]. cbn [mbind res_bind].
    destruct (fgt b t) eqn:Eb.
    - intros [= <- <-]. apply ret_Ok in H as [E _]. done.
    - destruct (prune _ _ _) as [e2|]; [|done]. cbn [mbind res_bind]. intros [= <- <-].
      apply io_bind_Ok in H as (u & w5 & _ & H). apply ret_Ok in H as [E _]. eauto. }
  apply io_bind_Ok in H as (u & w5 & Hwrite & H). apply ret_Ok in H as [_ ->]. destruct u.
  destruct (decide_allowed t key es d es' Hdec (state_ok_entries _ _ Hok) (key_scalar _ _ _ Hkey) Hgood)
    as (f & Hf & Hd & Hj & Hg).
  exists key, es, f, (dict_set (lit "entries") (PDict es') st), es'. split_and!; try done.
  eapply write_Ok in Hwrite; [|by apply (state_ok_update st es)|by rewrite (reach_nodes w1 w3)|done].
  destruct Hwrite as (? & n & Hfa & ? & ?). split; [done|]. exists n. rewrite <- (file_at_nodes w5 w') in Hfa by done. done.
Qed.

(** While the pause of an entry lasts, no attempt is allowed. *)
Lemma reserve_blocked path principal scope now w t w0 key st es e f until last r w' :
  now_float now w = (Ok t, w0) -> limits w path st es -> _key principal scope = Ok key ->
  dict_get key es = Some e -> is_entry e f until last -> fgt until t = true ->
  reserve path principal scope now w = (r, w') ->
  forall a d, r = Ok (a, d) -> a = false /\ d = fmin2 (fsub until t) MAX_DELAY.
Proof.
  intros Hnow (Hok & n & Hf & Hk & Hp) Hkey Hg He Hb H a d ->. unfold reserve in H. rewrite (io_bind_run _ _ _ _ _ Hnow) in H.
  assert (Hw0 : same_nodes w w0).
  { destruct now as [v|]; simpl in Hnow; [by apply lift_Ok in Hnow as [_ ->]|by injection Hnow as _ <-]. }
  apply io_bind_Ok in H as (key' & w1 & Hkey' & H). apply lift_Ok in Hkey' as [Hkey' ->].
  rewrite Hkey in Hkey'. injection Hkey' as <-.
  apply locked_Ok in H as (dir & w1 & w2 & H & _ & Hr & Hs & Hkeep & _).
  apply io_bind_Ok in H as ([st1 es1] & w3 & Hload & H).
  rewrite <- (file_at_nodes w w0) in Hf by done.
  destruct (file_at_keeps _ w0 w1 path n _ Hkeep Hf Hk) as (n' & Hf' & Hk' & _); [tauto|].
  unfold file_at in Hf'. rewrite Hr in Hf'. cbn [mbind option_bind] in Hf'.
  apply load_Ok in Hload as [_ [(i & n2 & data & Hc & Hi & Hkn & _ & Hd)|(Hc & _)]]; [|by rewrite Hc in Hf'].
  rewrite Hc in Hf'. cbn [mbind option_bind] in Hf'. rewrite Hi in Hf'. injection Hf' as ->.
  rewrite Hk' in Hkn. injection Hkn as <-. rewrite (decode_state_text _ _ Hok) in Hd.
  destruct (_ <? _); [done|]. injection Hd as <- <-.
  rewrite (decide_blocked t key (sort_dict es) f until last) in H; [| |done].
  - apply io_bind_Ok in H as ([answer changed] & w4 & Hdec & H). apply lift_Ok in Hdec as [Hdec ->].
    injection Hdec as <- <-. apply ret_Ok in H as [E _]. by simplify_eq.
  - rewrite dict_get_sort; [|apply json_ok_nodup, (state_ok_entries st es Hok)]. rewrite Hg. cbn [option_map]. by rewrite (is_entry_sorted _ _ _ _ He).
Qed.

(** The write of a state, whatever its outcome: the file holds the old one or the
    new one. *)
Lemma write_run path d st es st' es' w r w' : limits w path st es -> state_ok st' es' ->
  reach w root_ino (split_path path).1 = Some d ->
  _write d (split_path path).2 st' w = (r, w') -> limits w' path st es \/ limits w' path st' es'.
Proof.
  intros Hl Hok' Hr H. unfold _write in H. set (x := (split_path path).2) in *.
  destruct (entries w d) as [es0|] eqn:Hd.
  2: { left. pose proof (atomic_write_no_dir d x (state_text st') mode_600 w Hd) as Hs. rewrite H in Hs. cbn [snd] in Hs.
       destruct Hl as (Hok & n & Hf & Hk & Hp). split; [done|]. exists n. by rewrite (file_at_nodes w w'). }
  assert (Hk : keeps (fun y => y = x \/ hd 0 y = 46) w w').
  { eapply io_pres_run; [apply (atomic_write_kept (fun y => y = x \/ hd 0 y = 46)); tauto|exact H]. }
  pose proof (reach_keeps _ _ _ _ _ _ Hk Hr) as Hr'.
  assert (Hnew : new w d x (state_text st') mode_600 w' -> limits w' path st' es').
  { intros (i & Hi & _ & n & Hn & Hkind & Hmode). split; [done|]. exists n. unfold file_at. rewrite Hr'. cbn [mbind option_bind].
    fold x. rewrite Hi. cbn [mbind option_bind]. split; [done|]. split; [done|]. unfold private. by rewrite Hmode. }
  assert (Hold : base w d x (temporary_at x w) w' -> old w d x w' -> limits w' path st es).
  { intros B O. destruct Hl as (Hok & n & Hf & Hkn & Hp). split; [done|]. exists n. unfold file_at in *. rewrite Hr in Hf. rewrite Hr'.
    cbn [mbind option_bind] in *. fold x in Hf |- *. unfold old in O. rewrite O. destruct (child w d x) as [i|]; [|done].
    cbn [mbind option_bind] in *. split; [|done]. apply (b_nodes _ _ _ _ _ B); [|done]. intros ->.
    unfold entries in Hd. rewrite Hf in Hd. cbn in Hd. by rewrite Hkn in Hd. }
  destruct (atomic_write_run d x (state_text st') mode_600 w r w' ltac:(eauto) H) as [(_ & -> & _)|(_ & B & O)]; [by left|].
  destruct r as [u|e]; [right; by apply Hnew|]. destruct O as [O|O]; [left; by apply Hold|right; by apply Hnew].
Qed.

(** The limiter's file holds this entry. *)
Definition holds (w : world) (path : list pystr) (key : pystr) (f : Z) (until last : pyfloat) : Prop :=
  exists st es e, limits w path st es /\ dict_get key es = Some e /\ is_entry e f until last.

Lemma holds_nodes w w' path key f until last : w_nodes w' = w_nodes w -> holds w path key f until last -> holds w' path key f until last.
Proof.
  intros E (st & es & e & (Hok & n & Hf & H) & He). exists st, es, e. split; [|done]. split; [done|]. exists n. by rewrite (file_at_nodes w w').
Qed.

Lemma limits_keeps_all w w' path st es : keeps (fun _ => False) w w' -> limits w path st es -> limits w' path st es.
Proof.
  intros Hk (Hok & n & Hf & Hkn & Hp). split; [done|]. destruct (file_at_keeps _ w w' path n _ Hk Hf Hkn) as (n' & ? & ? & ?); [tauto|].
  exists n'. auto.
Qed.

Lemma locked_ext {A} path (body body' : ino -> pystr -> IO A) w :
  (forall d x w, body d x w = body' d x w) -> _locked path body w = _locked path body' w.
Proof.
  intros H. unfold _locked. destruct (split_path path) as [parent name]. unfold mbind, io_bind, finally.
  repeat (match goal with |- match ?m with _ => _ end = _ => destruct m as [[?|?] ?]; [|done] end).
  match goal with |- context [os_flock ?l ?w] => destruct (os_flock l w) as [[?|?] ?]; [|done] end. by rewrite H.
Qed.

Lemma load_still d x : pres same_nodes (_load d x).
Proof.
  unfold _load. apply io_pres_bind; [typeclasses eauto| |intros [[raw meta]|]; still].
  apply io_pres_try; [typeclasses eauto| |intros e0; still].
  apply io_pres_bind; [typeclasses eauto|apply read_regular_still|intros [raw meta]; still].
Qed.

(** What is loaded is what the file holds, sorted. *)
Lemma limits_loaded path d st es st1 es1 w w' : limits w path st es -> reach w root_ino (split_path path).1 = Some d ->
  _load d (split_path path).2 w = (Ok (st1, es1), w') -> st1 = sort_dict st /\ es1 = sort_dict es.
Proof.
  intros (Hok & n & Hf & Hkn & _) Hr El. unfold file_at in Hf. rewrite Hr in Hf. cbn [mbind option_bind] in Hf.
  apply load_Ok in El as [_ [(i & n2 & data & Hc & Hi & Hkn2 & _ & Hd)|(Hc & _)]]; [|by rewrite Hc in Hf].
  rewrite Hc in Hf. cbn [mbind option_bind] in Hf. rewrite Hi in Hf. injection Hf as ->.
  rewrite Hkn in Hkn2. injection Hkn2 as <-. rewrite (decode_state_text _ _ Hok) in Hd.
  destruct (_ <? _); [done|]. by injection Hd as <- <-.
Qed.

Lemma state_ok_sort st es : state_ok st es -> state_ok (sort_dict st) (sort_dict es).
Proof.
  intros Hok. pose proof (state_ok_nodup _ _ Hok) as Hnd. split.
  - by apply (json_ok_sort _ (so_json _ _ Hok)).
  - by rewrite dict_get_sort, (so_version _ _ Hok).
  - by rewrite dict_get_sort, (so_entries _ _ Hok).
Qed.

(** An operation on the file: it loads the state and may write other entries. *)
Definition entries_operation {A} (body : pydict -> res (A * option pydict)) (d : ino) (x : pystr) : IO A :=
  '(state, entries) ← _load d x;
  '(answer, changed) ← lift (body entries);
  match changed with
  | None => mret answer
  | Some entries => _write d x (dict_set (lit "entries") (PDict entries) state) ;; mret answer
  end.

Lemma operation_keeps {A} path key f until last (body : pydict -> res (A * option pydict)) w r w' :
  (forall es e a es', body es = Ok (a, Some es') -> json_ok (PDict es) = true ->
     dict_get key es = Some e -> is_entry e f until last -> json_ok (PDict es') = true /\ dict_get key es' = Some e) ->
  holds w path key f until last -> _locked path (entries_operation body) w = (r, w') -> holds w' path key f until last.
Proof.
  intros Hbody (st & es & e & Hl & Hg & He) H.
  apply locked_run in H as (w1 & Hk & [[Hs _]|(d & w2 & rb & Hr & H & Hs & _)]);
    (eapply holds_nodes; [exact Hs|]); pose proof (limits_keeps_all _ _ _ _ _ Hk Hl) as Hl1; [by exists st, es, e|].
  assert (Hold : forall w3, same_nodes w1 w3 -> holds w3 path key f until last).
  { intros w3 E. apply (holds_nodes w1); [exact E|]. by exists st, es, e. }
  unfold entries_operation in H.
  destruct (_load d (split_path path).2 w1) as [[[st1 es1]|e1] w3] eqn:El; pose proof (io_pres_run _ _ _ _ _ (load_still _ _) El) as Hs3.
  2: { rewrite (io_bind_exc _ _ _ _ _ El) in H. injection H as <- <-. by apply Hold. }
  rewrite (io_bind_run _ _ _ _ _ El) in H. destruct (limits_loaded _ _ _ _ _ _ _ _ Hl1 Hr El) as [-> ->].
  destruct Hl1 as (Hok & n & Hf & Hn). pose proof (state_ok_sort _ _ Hok) as Hok1.
  assert (Hg1 : dict_get key (sort_dict es) = Some (sort_keys e)).
  { rewrite dict_get_sort by apply json_ok_nodup, (state_ok_entries _ _ Hok). by rewrite Hg. }
  assert (He1 : is_entry (sort_keys e) f until last) by (right; by apply is_entry_sorted).
  destruct (body (sort_dict es)) as [[a [es'|]]|e1] eqn:Eb; unfold lift in H; cbn [mbind io_bind mret io_ret] in H;
    [|by injection H as _ <-; apply Hold..].
  destruct (Hbody _ _ _ _ Eb (state_ok_entries _ _ Hok1) Hg1 He1) as [Hj Hg'].
  destruct (_write d (split_path path).2 (dict_set (lit "entries") (PDict es') (sort_dict st)) w3) as [rw w5] eqn:Ew.
  assert (w2 = w5) as ->.
  { unfold mbind, io_bind in H. rewrite Ew in H. by destruct rw; injection H. }
  destruct (write_run path d st es (dict_set (lit "entries") (PDict es') (sort_dict st)) es' w3 rw w5) as [Hl2|Hl2]; [|by eapply state_ok_update|by rewrite (reach_nodes w1 w3)|exact Ew| |].
  - split; [done|]. exists n. by rewrite (file_at_nodes w1 w3).
  - by exists st, es, e.
  - by exists (dict_set (lit "entries") (PDict es') (sort_dict st)), es', (sort_keys e).
Qed.

(** An attempt or a success of another principal or scope keeps the entry. *)
Lemma other_reserve path p s now key f until last w r w' :
  holds w path key f until last -> _key p s <> Ok key ->
  (forall t w0, now_float now w = (Ok t, w0) -> good_clock t last) ->
  reserve path p s now w = (r, w') -> holds w' path key f until last.
Proof.
  intros Hh Hne Hclock H. unfold reserve in H.
  assert (Hw0 : pres same_nodes (now_float now)).
  { unfold now_float. destruct now; still. }
  destruct (now_float now w) as [[t|e] w0] eqn:En; pose proof (io_pres_run _ _ _ _ _ Hw0 En) as Hs.
  2: { rewrite (io_bind_exc _ _ _ _ _ En) in H. injection H as <- <-. by eapply holds_nodes. }
  rewrite (io_bind_run _ _ _ _ _ En) in H. pose proof (Hclock _ _ eq_refl) as Hc.
  destruct (_key p s) as [other|e] eqn:Ek; [|injection H as <- <-; by eapply holds_nodes].
  assert (Hk : other <> key) by congruence.
  eapply (operation_keeps path key f until last (decide_attempt t other)); [|by eapply holds_nodes|exact H].
  intros es e a es' Hd Hj Hg He. eapply decide_other; [exact Hd|done|by eapply key_scalar|done|done|exact Hg|exact He].
Qed.

Lemma other_success path p s key f until last w r w' :
  holds w path key f until last -> _key p s <> Ok key -> success path p s w = (r, w') -> holds w' path key f until last.
Proof.
  intros Hh Hne H. unfold success in H. destruct (_key p s) as [other|e] eqn:Ek; [|by injection H as <- <-].
  assert (Hk : other <> key) by congruence.
  eapply (operation_keeps path key f until last (fun es => Ok (tt, if dict_mem other es then Some (dict_del other es) else None)));
    [|exact Hh|].
  - intros es e a es' [= <- E] Hj Hg He. destruct (dict_mem other es); [|done]. injection E as <-.
    split; [by apply json_ok_del|]. by rewrite dict_get_del_ne.
  - rewrite <- H. change (@mbind IO _ pystr unit) with (@io_bind pystr unit). unfold io_bind at 1, lift. apply locked_ext. intros d x w0.
    unfold entries_operation, mbind, io_bind, lift. destruct (_load d x w0) as [[[st es]|e] w1]; [|done].
    destruct (dict_mem other es); [|done]. by destruct (_write _ _ _ _) as [[[]|?] ?].
Qed.

End Operations.
(** Other programs may do what they like under other names. *)
Definition others (path : list pystr) : world -> world -> Prop := keeps (fun y => y <> (split_path path).2).

Lemma limits_others path w w' st es : limits w path st es -> others path w w' -> limits w' path st es.
Proof.
  intros (Hok & n & Hf & Hk & Hp) Hkeep. split; [done|].
  destruct (file_at_keeps _ w w' path n _ Hkeep Hf Hk) as (n' & Hf' & Hk' & Hp'); [tauto|]. exists n'. auto.
Qed.

(** What may happen while an entry made at the time [last] for a principal and scope
    is in the file: anything under other names, and attempts and successes of others
    in any process and environment, whose calls may fail; not a success of that
    principal and scope, which deletes the entry. *)
Inductive meanwhile (path : list pystr) (principal scope : pystr) (last : pyfloat) : world -> world -> Prop :=
| mw_start w : meanwhile path principal scope last w w
| mw_others w w1 w2 : meanwhile path principal scope last w w1 -> others path w1 w2 -> meanwhile path principal scope last w w2
| mw_reserve (O : Os) p s now w w1 r w2 :
    meanwhile path principal scope last w w1 -> _key p s <> _key principal scope ->
    (forall t w0, @now_float _ O now w1 = (Ok t, w0) -> good_clock t last) ->
    @reserve _ O _ path p s now w1 = (r, w2) -> meanwhile path principal scope last w w2
| mw_success (O : Os) p s w w1 r w2 :
    meanwhile path principal scope last w w1 -> _key p s <> _key principal scope ->
    @success O _ path p s w1 = (r, w2) -> meanwhile path principal scope last w w2.

Lemma meanwhile_holds path principal scope last w w' key f until :
  _key principal scope = Ok key -> meanwhile path principal scope last w w' ->
  holds w path key f until last -> holds w' path key f until last.
Proof.
  intros Hkey. induction 1 as [w|w w1 w2 _ IH Ho|O p s now w w1 r w2 _ IH Hne Hc H|O p s w w1 r w2 _ IH Hne H]; intros Hh; [done|..].
  - destruct (IH Hh) as (st & es & e & Hl & He). exists st, es, e. split; [by eapply limits_others|done].
  - eapply (other_reserve (OS := O)); [by apply IH|by rewrite <- Hkey|exact Hc|exact H].
  - eapply (other_success (OS := O)); [by apply IH|by rewrite <- Hkey|exact H].
Qed.

(** An allowed attempt starts a pause that no process can cut short: until it is
    over, the same principal and scope is never allowed another attempt, whichever
    calls fail in either process and whatever others do meanwhile. *)
Lemma attempts_are_spaced (O1 O2 : Os) path principal scope now1 now2 w w0 w1 w2 w3 t1 t2 d r w4 :
  clean w path -> good_time t1 d ->
  @now_float _ O1 now1 w = (Ok t1, w0) -> @reserve _ O1 _ path principal scope now1 w = (Ok (true, d), w1) ->
  meanwhile path principal scope t1 w1 w2 ->
  @now_float _ O2 now2 w2 = (Ok t2, w3) -> fgt (fadd t1 d) t2 = true ->
  @reserve _ O2 _ path principal scope now2 w2 = (r, w4) ->
  forall a d2, r = Ok (a, d2) -> a = false.
Proof.
  intros Hclean Hgood Hn1 H1 Hother Hn2 Hlt H2 a d2 ->.
  destruct (reserve_allowed path principal scope now1 w t1 w0 d w1 Hn1 H1 Hgood (or_introl Hclean))
    as (key & es & f & st' & es' & Hkey & _ & _ & _ & Hl & Hg).
  destruct (meanwhile_holds _ _ _ _ _ _ _ f (fadd t1 d) Hkey Hother) as (st2 & es2 & e & Hl2 & Hg2 & He); [exists st', es', (entry_of f (fadd t1 d) t1); by split_and!; [..|left]|].
  eapply reserve_blocked; [exact Hn2|exact Hl2|exact Hkey|exact Hg2|exact He|exact Hlt|exact H2|done].
Qed.







End Limiter.
