(* ===== verification/LoginSpec.v ===== *)
(** Login: who gets in, what a login can do to the account, and how failing
    attempts slow the next ones down, in every environment. *)

From stdpp Require Import base gmap option list.
From Stdlib Require Import ZArith Lia Bool String SpecFloat.
From S2P Require Import Prelude PyFloat PyText PyVal PyJson PyFs PyPath Credential CredentialSpec BrokerFiles Limiter.
From S2P Require Import Broker PyFsFacts BrokerReadSpec BrokerWriteSpec BrokerStoreSpec LimiterSpec.
Open Scope Z_scope.

Section Login.
Context {U : PyUnicode} {K : Kdf} {L : KdfLaws K}.

(** ** The credential file is replaced as a whole or not at all *)

Section Write.
Context {OS : Os}.

(** What [_atomic_write_at] leaves at a path through an open directory. *)
Lemma replaced_file path d data w r w' n old :
  reach w root_ino (split_path path).1 = Some d -> file_at w path = Some n -> i_kind n = KFile old ->
  _atomic_write_at d (split_path path).2 data mode_600 w = (r, w') ->
  file_at w' path = Some n \/ exists n', file_at w' path = Some n' /\ i_kind n' = KFile data.
Proof.
  intros Hr Hf Hk H. unfold file_at in Hf |- *. rewrite Hr in Hf. cbn [mbind option_bind] in Hf.
  destruct (child w d _) as [i|] eqn:Hc; [|done]. cbn [mbind option_bind] in Hf.
  destruct (entries w d) as [es|] eqn:He; [|by rewrite child_entries, He in Hc].
  destruct (atomic_write_run d _ data mode_600 w r w' ltac:(eauto) H) as [(_ & -> & _)|(_ & Hb & Hout)].
  { left. rewrite Hr. cbn [mbind option_bind]. by rewrite Hc. }
  assert (Hkeep : keeps (fun _ => True) w w') by (by eapply base_keeps).
  rewrite (reach_keeps _ _ _ _ _ _ Hkeep Hr). cbn [mbind option_bind].
  assert (Hcase : BrokerWriteSpec.old w d (split_path path).2 w' \/ new w d (split_path path).2 data mode_600 w')
    by (destruct r; tauto).
  destruct Hcase as [Hold|(j & Hj & _ & m & Hm & Hkind & _)].
  - left. unfold BrokerWriteSpec.old in Hold. rewrite Hold, Hc. cbn [mbind option_bind].
    apply (b_nodes _ _ _ _ _ Hb); [|done]. intros ->.
    apply entries_node in He as (nd & Hnd & Hkd). congruence.
  - right. exists m. rewrite Hj. done.
Qed.

(** Writing the credentials, whatever fails: the old account or the new one. *)
Lemma write_credentials_run path v h' w r w' u h :
  has_account w path u h -> atomic_write_credentials path v h' w = (r, w') ->
  has_account w' path u h \/ exists u', canonicalize_username v = Ok u' /\ has_account w' path u' h'.
Proof.
  intros Ha H. unfold atomic_write_credentials in H.
  destruct (canonicalize_username v) as [u'|e] eqn:Hu; [|injection H as _ <-; by left].
  rewrite (io_bind_run _ _ w u' w) in H by done.
  destruct (validate_stored_hash (PStr h')) eqn:Hv; [|injection H as _ <-; by left].
  rewrite (io_bind_run _ _ w tt w) in H by done. destruct (split_path path) as [parent name] eqn:Ep.
  destruct (_open_secure_directory true (Some mode_700) false parent w) as [[d|e] w1] eqn:Hdir;
    pose proof Hdir as [Hk1 Hd]%secure_directory_run.
  2: { rewrite (io_bind_exc _ _ _ _ _ Hdir) in H. injection H as _ <-. left.
       eapply has_account_keeps; [exact Hk1|tauto|done]. }
  destruct (Hd d eq_refl) as [Hr Hs]. rewrite (io_bind_run _ _ _ _ _ Hdir) in H.
  destruct (parse_credential_line u' h' (canonicalize_inv v u' Hu) Hv) as (payload & He & Hl & Hp).
  unfold finally in H. rewrite (io_bind_run _ _ w1 payload w1) in H by (unfold lift; by rewrite He).
  destruct (_atomic_write_at d name payload mode_600 w1) as [r2 w2] eqn:Hw. cbn in H. injection H as _ <-.
  assert (Ha1 : has_account w1 path u h) by (eapply has_account_keeps; [exact Hk1|tauto|done]).
  destruct Ha1 as (old & n & (Hpath & Hf & Hkn & Hlen) & Hparse).
  assert (Hcase := fun H1 H2 => replaced_file path d payload w1 r2 w2 n old H1 Hf Hkn H2).
  rewrite Ep in Hcase. cbn [fst snd] in Hcase. specialize (Hcase Hr Hw).
  rewrite <- (file_at_nodes w2 (add_open (-1) w2)) in Hcase by done.
  destruct Hcase as [Hf'|(n' & Hf' & Hk')].
  - left. by exists old, n.
  - right. exists u'. split; [done|]. by exists payload, n'.
Qed.

(** ** The limiter keeps to its own names *)

Lemma locked_kept {A} path (body : ino -> pystr -> IO A) :
  (forall d, pres (keeps (touches path)) (body d (split_path path).2)) ->
  pres (keeps (touches path)) (_locked path body).
Proof.
  unfold _locked, touches. destruct (split_path path) as [parent name]. cbn [fst snd]. intros Hbody.
  pres_step; [apply secure_directory_kept|]. pres_step; [kept|]. pres_step; [by apply kept_fchmod|].
  pres_step; [pres_step; [kept|apply Hbody]|kept].
Qed.

Lemma still_kept {A} (N : pystr -> Prop) (m : IO A) : pres same_nodes m -> pres (keeps N) m.
Proof. intros H w. apply same_keeps, H. Qed.

Lemma write_state_kept path d st : pres (keeps (touches path)) (_write d (split_path path).2 st).
Proof. apply atomic_write_kept; unfold touches; tauto. Qed.

Lemma reserve_kept path principal scope now : pres (keeps (touches path)) (reserve path principal scope now).
Proof.
  unfold reserve. pres_step; [destruct now; simpl; kept|]. pres_step; [pres_step|].
  apply locked_kept. intros d. pres_step; [apply still_kept, load_still|]. destruct a1 as [st es].
  pres_step; [pres_step|]. destruct a1 as [answer [es'|]]; [|pres_step].
  pres_step; [apply write_state_kept|pres_step].
Qed.

Lemma success_kept path principal scope : pres (keeps (touches path)) (success path principal scope).
Proof.
  unfold success. pres_step; [pres_step|]. apply locked_kept. intros d.
  pres_step; [apply still_kept, load_still|]. destruct a0 as [st es].
  destruct (dict_mem _ _); [apply write_state_kept|pres_step].
Qed.

(** ** One login *)

(** The account after a rehash: the same one, or with a new hash of the password. *)
Definition rehashed (w' : world) (path : list pystr) (u h : pystr) (password : pyval) : Prop :=
  has_account w' path u h \/
  exists h' wa wb, hash_password password wa = (Ok h', wb) /\ has_account w' path u h'.

Lemma migrate_run path u h password w r w' : has_account w path u h -> _USERNAME_RE u = true ->
  migrate_hash path u password w = (r, w') ->
  rehashed w' path u h password /\ exists m e, r = Ok (mkauth true u fzero m e).
Proof.
  intros Ha Hu H. unfold migrate_hash, try_io in H.
  assert (Hh : same_nodes w (hash_password password w).2).
  { eapply (io_pres_run same_nodes); [|apply surjective_pairing]. unfold hash_password. still. }
  destruct (hash_password password w) as [[h'|e] w1] eqn:Eh; cbn [snd] in Hh.
  2: { rewrite (io_bind_exc _ _ _ _ _ Eh) in H. injection H as <- <-. split; [|eauto].
       left. eapply (has_account_keeps (fun _ => False)); [by apply same_keeps|tauto|done]. }
  rewrite (io_bind_run _ _ _ _ _ Eh) in H.
  assert (Ha1 : has_account w1 path u h) by (eapply (has_account_keeps (fun _ => False)); [by apply same_keeps|tauto|done]).
  destruct (atomic_write_credentials path (PStr u) h' w1) as [r2 w2] eqn:Ew.
  assert (rehashed w2 path u h password) as Hre.
  { destruct (write_credentials_run path _ h' w1 r2 w2 u h Ha1 Ew) as [?|(u' & Hu' & Hacc)]; [by left|].
    right. rewrite username_fixed in Hu' by done. injection Hu' as <-. by exists h', w, w1. }
  destruct r2 as [t|e].
  - rewrite (io_bind_run _ _ _ _ _ Ew) in H. injection H as <- <-. split; [done|eauto].
  - rewrite (io_bind_exc _ _ _ _ _ Ew) in H. injection H as <- <-. split; [done|eauto].
Qed.

(** The name in the file is canonical. *)
Lemma has_account_name w path u h : has_account w path u h -> _USERNAME_RE u = true.
Proof.
  intros (data & n & _ & H). unfold parse_credentials in H.
  destruct (utf8_decode data) as [text|e]; cbn [mbind res_bind] in H; [|by destruct (_ || _)].
  destruct (splitlines text) as [|first rest]; [done|].
  destruct (split1 58 first) as [[v s]|e]; cbn [mbind res_bind] in H; [|by destruct (_ || _)].
  destruct (canonicalize_username (PStr v)) as [u'|e] eqn:E; cbn [mbind res_bind] in H; [|by destruct (_ || _)].
  destruct (validate_stored_hash _); [|done]. injection H as <- <-. by eapply canonicalize_inv.
Qed.

(** The run of the body: what was read, what the limiter said, and the outcome. *)
Inductive login (master : list pystr) (password : pyval) (scope : pystr) (rate : list pystr)
    (now : option pyval) (migrate : bool) (w : world) (a : AuthenticationResult) (w' : world) : Prop :=
| login_limited u h delay w1 :
    has_account w master u h -> same_nodes w w1 ->
    reserve rate u scope now w1 = (Ok (false, delay), w') -> a = denied u delay "rate-limited" ->
    login master password scope rate now migrate w a w'
| login_wrong u h delay w1 :
    has_account w master u h -> same_nodes w w1 ->
    reserve rate u scope now w1 = (Ok (true, delay), w') -> verify_password password (PStr h) = Ok false ->
    a = denied u delay "invalid-credential" ->
    login master password scope rate now migrate w a w'
| login_right u h delay w1 w2 w3 m e :
    has_account w master u h -> same_nodes w w1 ->
    reserve rate u scope now w1 = (Ok (true, delay), w2) -> verify_password password (PStr h) = Ok true ->
    success rate u scope w2 = (Ok tt, w3) ->
    (if migrate && password_needs_upgrade (PStr h) then migrate_hash master u password w3 = (Ok a, w')
     else a = mkauth true u fzero false [] /\ w' = w3) ->
    a = mkauth true u fzero m e ->
    login master password scope rate now migrate w a w'
| login_failed :
    ok a = false -> username a = [] -> error a <> lit "invalid-credential" ->
    login master password scope rate now migrate w a w'.

Lemma exn_name_other e : exn_name e <> lit "invalid-credential".
Proof. by destruct e. Qed.

Lemma authenticate_run master password scope rate now migrate w r w' :
  authenticate_master master password scope rate now migrate w = (r, w') ->
  exists a, r = Ok a /\ login master password scope rate now migrate w a w'.
Proof.
  intros H. unfold authenticate_master, try_io in H.
  destruct (authenticate_body _ _ _ _ _ _ w) as [[a|e] w1] eqn:Eb.
  2: { injection H as <- <-. eexists. split; [done|]. apply login_failed; [done|done|apply exn_name_other]. }
  injection H as <- <-. exists a. split; [done|]. unfold authenticate_body in Eb.
  apply io_bind_Ok in Eb as ([u h] & w2 & Hread & H).
  pose proof (io_pres_run _ _ _ _ _ (read_credentials_still master) Hread) as Hs.
  pose proof (read_credentials_Ok _ _ _ _ _ Hread) as Ha.
  apply io_bind_Ok in H as ([allowed delay] & w3 & Hres & H).
  destruct allowed; cbn [negb] in H.
  2: { apply ret_Ok in H as [-> ->]. by eapply login_limited. }
  apply io_bind_Ok in H as (valid & w4 & Hv & H). apply lift_Ok in Hv as [Hv ->].
  destruct valid; cbn [negb] in H.
  2: { apply ret_Ok in H as [-> ->]. by eapply login_wrong. }
  apply io_bind_Ok in H as ([] & w5 & Hsuc & H).
  destruct (migrate && password_needs_upgrade (PStr h)) eqn:Em.
  - pose proof H as Hm. assert (exists m e, a = mkauth true u fzero m e) as (m & e & ->).
    { unfold migrate_hash in H. apply try_io_Ok in H as [H|(e & w6 & _ & H)]; [|apply ret_Ok in H as [-> _]; eauto].
      apply io_bind_Ok in H as (h' & w6 & _ & H). apply io_bind_Ok in H as (t & w7 & _ & H).
      apply ret_Ok in H as [-> _]. eauto. }
    eapply login_right; try done. by rewrite Em.
  - apply ret_Ok in H as [-> ->]. eapply login_right; try done. by rewrite Em.
Qed.

(** C40: a login always answers, and it answers yes only after the limiter had
    allowed the attempt and the password had been checked against the hash that the
    credential file names for that user. *)
Theorem login_sound master password scope rate now migrate w r w' :
  authenticate_master master password scope rate now migrate w = (r, w') ->
  exists a, r = Ok a /\ (ok a = true ->
    exists h delay w1 w2, has_account w master (username a) h /\ same_nodes w w1 /\
      reserve rate (username a) scope now w1 = (Ok (true, delay), w2) /\
      verify_password password (PStr h) = Ok true).
Proof.
  intros (a & -> & H)%authenticate_run. exists a. split; [done|]. intros Hok.
  destruct H as [u h delay w1 _ _ _ ->|u h delay w1 _ _ _ _ ->|u h delay w1 w2 w3 m e ? ? ? ? _ _ ->|Hf _ _]; try done.
  - by exists h, delay, w1, w2.
  - congruence.
Qed.

(** C9: no login loses the account: wherever it fails, the credential file then
    names the same user with the hash it had or, if the password was right, with a
    fresh hash of the same password. *)
Theorem login_keeps_account master password scope rate now migrate w r w' u h :
  ~ touches rate (split_path master).2 -> has_account w master u h ->
  authenticate_master master password scope rate now migrate w = (r, w') ->
  has_account w' master u h \/
  (verify_password password (PStr h) = Ok true /\ rehashed w' master u h password).
Proof.
  intros Hname Ha H.
  assert (Hkept : forall w1, keeps (touches rate) w w1 -> has_account w1 master u h)
    by (intros w1 Hk; by eapply has_account_keeps).
  unfold authenticate_master, try_io in H.
  destruct (authenticate_body _ _ _ _ _ _ w) as [r0 w0] eqn:Eb.
  assert (w' = w0) as -> by (destruct r0; by injection H as _ <-). clear H. unfold authenticate_body in Eb.
  destruct (read_credentials master w) as [[[u1 h1]|e] w1] eqn:Hread;
    pose proof (io_pres_run _ _ _ _ _ (read_credentials_still master) Hread) as Hs.
  2: { rewrite (io_bind_exc _ _ _ _ _ Hread) in Eb. injection Eb as _ <-. left. by apply Hkept, same_keeps. }
  destruct (has_account_unique _ _ _ _ _ _ Ha (read_credentials_Ok _ _ _ _ _ Hread)) as [<- <-].
  rewrite (io_bind_run _ _ _ _ _ Hread) in Eb.
  destruct (reserve rate u scope now w1) as [[[allowed delay]|e] w2] eqn:Hres;
    pose proof (io_pres_run _ _ _ _ _ (reserve_kept rate u scope now) Hres) as Hk2;
    assert (Hk : keeps (touches rate) w w2) by (by transitivity w1; [apply same_keeps|]).
  2: { rewrite (io_bind_exc _ _ _ _ _ Hres) in Eb. injection Eb as _ <-. left. by apply Hkept. }
  rewrite (io_bind_run _ _ _ _ _ Hres) in Eb. destruct allowed; cbn [negb] in Eb.
  2: { injection Eb as _ <-. left. by apply Hkept. }
  destruct (verify_password password (PStr h)) as [[|]|e] eqn:Hv.
  2, 3: injection Eb as _ <-; left; by apply Hkept.
  rewrite (io_bind_run _ _ w2 true w2) in Eb by done. cbn [negb] in Eb.
  destruct (success rate u scope w2) as [[t|e] w3] eqn:Hsuc;
    pose proof (io_pres_run _ _ _ _ _ (success_kept rate u scope) Hsuc) as Hk3;
    assert (Hk' : keeps (touches rate) w w3) by (by transitivity w2).
  2: { rewrite (io_bind_exc _ _ _ _ _ Hsuc) in Eb. injection Eb as _ <-. left. by apply Hkept. }
  rewrite (io_bind_run _ _ _ _ _ Hsuc) in Eb. destruct (migrate && _).
  - right. split; [done|]. destruct (migrate_run master u h password w3 r0 w0) as [? _]; [by apply Hkept| |done|done].
    by eapply has_account_name.
  - left. injection Eb as _ <-. by apply Hkept.
Qed.

End Write.

(** ** Failing logins *)

(** What the clock of a login can say. *)
Definition reads (O : Os) (now : option pyval) (t : pyfloat) : Prop :=
  match now with Some v => py_float v = Ok t | None => exists k, @os_clock O k = t end.

Lemma now_float_run (O : Os) now w :
  (exists t w0, @now_float _ O now w = (Ok t, w0) /\ reads O now t) \/ exists e, @now_float _ O now w = (Exc e, w).
Proof.
  destruct now as [v|]; simpl.
  - unfold lift. destruct (py_float v) as [t|e] eqn:E; [left; by exists t, w|right; by exists e].
  - left. exists (os_clock (w_tick w)), (step_tick w). split; [done|]. by exists (w_tick w).
Qed.

Lemma reserve_now (O : Os) path principal scope now w a w' :
  @reserve _ O _ path principal scope now w = (Ok a, w') ->
  exists t w0, @now_float _ O now w = (Ok t, w0) /\ reads O now t.
Proof.
  intros H. destruct (now_float_run O now w) as [?|(e & E)]; [done|].
  unfold reserve in H. by rewrite (io_bind_exc _ _ _ _ _ E) in H.
Qed.

Lemma clean_nodes w w' path : same_nodes w w' -> clean w path -> clean w' path.
Proof.
  unfold same_nodes. intros E [Hc Hf]. split.
  - intros d x i. rewrite (child_nodes w w') by done. rewrite E. apply Hc.
  - intros d i n data. rewrite (child_nodes w w') by done. rewrite E. apply Hf.
Qed.

(** C8: a failing login starts a pause of the length it reports, and during that
    pause the right password does not help: as long as only others use the limiter
    in between (each attempt and success of theirs, complete or cut off anywhere),
    every further login of that user and scope, in whatever process and environment,
    is refused. *)
Theorem login_throttled (O1 O2 : Os) master pw1 pw2 scope rate now1 now2 migrate1 migrate2 w a1 w1 w2 h2 a2 w3 :
  clean w rate -> @authenticate_master _ O1 _ master pw1 scope rate now1 migrate1 w = (Ok a1, w1) ->
  ok a1 = false -> error a1 = lit "invalid-credential" ->
  exists t1, reads O1 now1 t1 /\
    (good_time t1 (retry_after a1) -> meanwhile rate (username a1) scope t1 w1 w2 -> has_account w2 master (username a1) h2 ->
     (forall t2, reads O2 now2 t2 -> fgt (fadd t1 (retry_after a1)) t2 = true) ->
     @authenticate_master _ O2 _ master pw2 scope rate now2 migrate2 w2 = (Ok a2, w3) -> ok a2 = false).
Proof.
  intros Hclean (a & [= <-] & H1)%(@authenticate_run O1) Hno Herr.
  destruct H1 as [u h delay wr _ _ _ ->|u h delay wr Ha1 Hs1 Hr1 _ ->|u h delay wr wq wz m e _ _ _ _ _ _ ->|_ _ Hne];
    [done| |done|done].
  destruct (reserve_now O1 _ _ _ _ _ _ _ Hr1) as (t1 & w0 & Hn1 & Hread1). exists t1. split; [done|].
  cbn [retry_after username] in *. intros Hgood Hother Ha2 Hpause (a & [= <-] & H2)%(@authenticate_run O2).
  assert (Hblock : forall u' h' wr2 w4 b delay2, has_account w2 master u' h' -> same_nodes w2 wr2 ->
    @reserve _ O2 _ rate u' scope now2 wr2 = (Ok (b, delay2), w4) -> b = false).
  { intros u' h' wr2 w4 b delay2 Ha Hs Hr.
    destruct (has_account_unique _ _ _ _ _ _ Ha2 Ha) as [<- <-].
    destruct (reserve_now O2 _ _ _ _ _ _ _ Hr) as (t2 & w5 & Hn2 & Hread2).
    eapply (attempts_are_spaced O1 O2); [exact (clean_nodes _ _ _ Hs1 Hclean)|exact Hgood|exact Hn1|exact Hr1|
      eapply mw_others; [exact Hother|by apply same_keeps]|exact Hn2|by apply Hpause|exact Hr|done]. }
  destruct H2 as [? ? ? ? _ _ _ ->|? ? ? ? _ _ _ _ ->|? ? ? ? ? ? ? ? Ha Hs Hr _ _ _ ->|? _ _]; try done.
  by pose proof (Hblock _ _ _ _ _ _ Ha Hs Hr).
Qed.

(** Once the limiter's file holds more than 64 entries, every further attempt
    is refused by an error, whoever asks and whenever, and the file stays what it
    is: the lock-out does not end by itself. *)
Theorem limiter_lockout (O : Os) path st es principal scope now w r w' :
  limits w path st es -> MAX_ENTRIES < zlen es ->
  @reserve _ O _ path principal scope now w = (r, w') ->
  (exists e, r = Exc e) /\ limits w' path st es.
Proof.
  intros Hl Hmany H.
  assert (Hstay : forall w1, keeps (fun _ => False) w w1 -> limits w1 path st es).
  { intros w1 Hk. eapply limits_others; [done|]. by eapply keeps_mono; [|exact Hk]. }
  unfold reserve in H. destruct (now_float_run O now w) as [(t & w0 & En & _)|(e & En)].
  2: { rewrite (io_bind_exc _ _ _ _ _ En) in H. injection H as <- <-. split; [by eexists|done]. }
  assert (Hs0 : same_nodes w w0) by (destruct now; simpl in En; by injection En as _ <-).
  rewrite (io_bind_run _ _ _ _ _ En) in H. destruct (_key principal scope) as [key|e].
  2: { injection H as <- <-. split; [by eexists|]. by apply Hstay, same_keeps. }
  rewrite (io_bind_run _ _ w0 key w0) in H by done.
  apply locked_run in H as (w1 & Hk & H).
  assert (Hk1 : keeps (fun _ => False) w w1) by (transitivity w0; [by apply same_keeps|done]).
  pose proof (Hstay w1 Hk1) as (Hok & n & Hf & Hkn & _).
  assert (Hend : forall w2, same_nodes w1 w2 -> limits w2 path st es).
  { intros w2 Hs. apply Hstay. transitivity w1; [done|by apply same_keeps]. }
  destruct H as [[Hs [e ->]]|(d & w2 & rb & Hr & H & Hs & Hor)]; [split; [by eexists|by apply Hend]|].
  destruct (_load d (split_path path).2 w1) as [[[st1 es1]|e] w3] eqn:El.
  - exfalso. unfold file_at in Hf. rewrite Hr in Hf. cbn [mbind option_bind] in Hf.
    apply load_Ok in El as [_ [(i & m & data & Hc & Hi & Hkm & _ & Hd)|(Hc & _)]]; [|by rewrite Hc in Hf].
    rewrite Hc in Hf. cbn [mbind option_bind] in Hf. rewrite Hi in Hf. injection Hf as ->.
    rewrite Hkn in Hkm. injection Hkm as <-. rewrite (decode_state_text _ _ Hok) in Hd.
    by rewrite (proj2 (Z.ltb_lt _ _) Hmany) in Hd.
  - pose proof (io_pres_run _ _ _ _ _ (load_still d (split_path path).2) El) as Hs3.
    rewrite (io_bind_exc _ _ _ _ _ El) in H. injection H as <- <-.
    split; [destruct Hor as [->|[e2 ->]]; by eexists|]. apply Hend. by transitivity w3.
Qed.

End Login.
