(* ===== verification/RecoverySpec.v ===== *)
(** Recovery authorizations: what is issued is what can be redeemed, for one
    action, until it expires, once. *)

From stdpp Require Import base gmap option list.
From Stdlib Require Import ZArith Lia Bool String.
From S2P Require Import Prelude PyFloat PyText PyVal PyJson PyStr PyFs PyPath Credential CredentialSpec BrokerFiles.
From S2P Require Import Limiter Broker PyFsFacts BrokerReadSpec BrokerWriteSpec BrokerStoreSpec LoginSpec.
Open Scope Z_scope.

(** ** The text of a record *)

Lemma dec_digits_bound fuel k n acc : 0 <= n < 10 ^ Z.of_nat (S k) ->
  zlen (dec_digits fuel n acc) <= Z.of_nat (S k) + zlen acc.
Proof.
  revert k n acc. induction fuel as [|fuel IH]; intros k n acc Hn; cbn [dec_digits]; [lia|].
  destruct (n <? 10) eqn:E; [rewrite zlen_cons; lia|]. destruct k as [|k]; [change (10 ^ Z.of_nat 1) with 10 in Hn; lia|].
  etransitivity; [apply (IH k)|rewrite zlen_cons; lia].
  replace (Z.of_nat (S (S k))) with (1 + Z.of_nat (S k)) in Hn by lia. rewrite Z.pow_add_r in Hn by lia.
  split; [apply Z.div_pos; lia|apply Z.div_lt_upper_bound; lia].
Qed.

Lemma plain_lines (ls : list pystr) : Forall (Forall plain) ls ->
  splitlines (flat_map (fun l => l ++ [10]) ls) = ls.
Proof.
  induction 1 as [|l ls Hl Hls IH]; cbn [flat_map]; [done|]. rewrite <- app_assoc. change ([10] ++ ?x) with (10 :: x).
  rewrite splitlines_line, IH; [done|]. revert Hl. apply List.Forall_impl. by intros c [_ ?].
Qed.

Lemma plain_ascii s : Forall plain s -> forallb is_ascii s = true.
Proof. intros H. apply lit_forallb. revert H. apply List.Forall_impl. by intros c [? _]. Qed.

Lemma plain_ascii_lines (ls : list pystr) : Forall (Forall plain) ls ->
  forallb is_ascii (flat_map (fun l => l ++ [10]) ls) = true.
Proof.
  induction 1 as [|l ls Hl Hls IH]; cbn [flat_map]; [done|].
  by rewrite !forallb_app, plain_ascii, IH.
Qed.

Section Recovery.
Context {U : PyUnicode} {K : Kdf} {L : KdfLaws K}.

Lemma plain_username u : _USERNAME_RE u = true -> Forall plain u.
Proof.
  intros Hu. pose proof (username_chars u Hu) as Hc. revert Hc. apply List.Forall_impl. intros c Hn.
  by destruct (name_char_facts c Hn) as (? & _ & _ & _ & _ & _ & _ & ?).
Qed.

Lemma plain_int n : 0 <= n -> Forall plain (int_str n).
Proof.
  intros Hn. unfold int_str. rewrite (proj2 (Z.ltb_ge n 0)) by done. destruct (nat_str_digits n Hn) as (H & _).
  revert H. apply List.Forall_impl. unfold is_digit_char, plain, is_ascii, is_linesep. intros c Hc. split; lia.
Qed.

(** The bounded reading of a number that was printed. *)
Lemma bounded_integer_printed lo hi n k : lo <= n <= hi -> 0 <= n -> hi < 10 ^ Z.of_nat (S k) ->
  Z.of_nat (S k) <= zlen (int_str hi) -> _bounded_integer (int_str n) (lo, hi) = Ok n.
Proof.
  intros Hb Hn Hhi Hk. unfold _bounded_integer. cbn [fst snd].
  assert (Hl : zlen (int_str n) <= Z.of_nat (S k)).
  { unfold int_str. rewrite (proj2 (Z.ltb_ge n 0)) by done. unfold nat_str.
    pose proof (dec_digits_bound (Z.to_nat (Z.log2 n) + 1) k n [] ltac:(lia)). change (zlen []) with 0 in *. lia. }
  rewrite (plain_ascii (int_str n)) by by apply plain_int. cbn [negb orb].
  rewrite (proj2 (Z.ltb_ge (zlen (int_str hi)) (zlen (int_str n)))) by lia.
  revert Hl. unfold int_str at 1 2 3 4 5 6. rewrite (proj2 (Z.ltb_ge n 0)) by done. intros Hl.
  destruct (nat_str_digits n Hn) as (Hd & Hne & ->).
  assert (forallb ascii_digit (nat_str n) = true) as ->.
  { apply lit_forallb. revert Hd. apply List.Forall_impl. unfold is_digit_char, ascii_digit. intros c Hc. lia. }
  assert (1 <=? zlen (nat_str n) = true) as ->.
  { destruct (nat_str n) as [|c s]; [done|]. rewrite zlen_cons. pose proof (zlen_nonneg s). lia. }
  cbn [andb negb]. by rewrite (proj2 (Z.leb_le lo n)), (proj2 (Z.leb_le n hi)) by lia.
Qed.

Lemma record_values_step acc key v rest : Forall (fun x => x <> 61) key -> bool_decide (key ∈ List.map fst acc) = false ->
  record_values acc ((key ++ lit "=" ++ v) :: rest) = record_values (acc ++ [(key, v)]) rest.
Proof.
  intros H Hk. cbn [record_values]. change (lit "=" ++ v) with (61 :: v). rewrite split1_found by done.
  cbn [mbind res_bind]. by rewrite Hk.
Qed.

Lemma plain_action action : action ∈ RECOVERY_ACTIONS -> Forall plain action.
Proof.
  unfold RECOVERY_ACTIONS. intros Ha. apply elem_of_cons in Ha as [->|Ha]; [by apply plain_lit|].
  apply list_elem_of_singleton in Ha as ->. by apply plain_lit.
Qed.

(** The fields of a text made of [key=value] lines. *)
Definition record_lines (fields : list (pystr * pystr)) : list pystr := List.map (fun kv => kv.1 ++ lit "=" ++ kv.2) fields.
Definition record_of (fields : list (pystr * pystr)) : pystr := flat_map (fun l => l ++ [10]) (record_lines fields).

Lemma record_of_values (fields : list (pystr * pystr)) :
  Forall (fun kv => Forall plain kv.1 /\ Forall plain kv.2 /\ Forall (fun x => x <> 61) kv.1) fields ->
  NoDup (List.map fst fields) ->
  ascii_decode (record_of fields) = Ok (record_of fields) /\
  record_values [] (splitlines (record_of fields)) = Ok (Some fields).
Proof.
  intros Hf Hnd.
  assert (Hp : Forall (Forall plain) (record_lines fields)).
  { clear Hnd. induction Hf as [|[k v] fs (Hk & Hv & _) Hfs IH]; [constructor|]. apply Forall_cons_2; [|done].
    cbn [fst snd] in *. rewrite !Forall_app. split; [done|]. split; [by apply plain_lit|done]. }
  split.
  - unfold ascii_decode, record_of. rewrite plain_ascii_lines; done.
  - unfold record_of. rewrite plain_lines by done. unfold record_lines.
    assert (H : forall acc, NoDup (List.map fst (acc ++ fields)) ->
      record_values acc (List.map (fun kv => kv.1 ++ lit "=" ++ kv.2) fields) = Ok (Some (acc ++ fields))).
    { clear Hnd Hp. induction Hf as [|[k v] fs (_ & _ & Hk) Hfs IH]; intros acc Hnd; [by rewrite app_nil_r|].
      cbn [List.map fst snd] in *. rewrite record_values_step; [|done|].
      - rewrite IH; by rewrite <- app_assoc.
      - apply bool_decide_eq_false_2. intros Hin. rewrite map_app in Hnd. apply NoDup_app in Hnd as (_ & Hd & _).
        apply (Hd k Hin). cbn [List.map fst]. apply list_elem_of_here. }
    by rewrite H.
Qed.

Definition record_fields (action : pystr) (expires : Z) (subject : pystr) : list (pystr * pystr) :=
  [(lit "format", lit "1"); (lit "action", action); (lit "expires", int_str expires); (lit "subject", subject)].

Lemma record_fields_ok action expires subject :
  action ∈ RECOVERY_ACTIONS -> 0 <= expires -> _USERNAME_RE subject = true ->
  Forall (fun kv => Forall plain kv.1 /\ Forall plain kv.2 /\ Forall (fun x => x <> 61) kv.1)
    (record_fields action expires subject).
Proof.
  intros Ha He Hu. unfold record_fields.
  repeat apply Forall_cons_2; cbn [fst snd]; try apply Forall_nil_2; split; try (by apply plain_lit); split;
    try (by repeat constructor).
  - by apply plain_action.
  - by apply plain_int.
  - by apply plain_username.
Qed.

Lemma record_text_of action expires subject : record_text action expires subject = record_of (record_fields action expires subject).
Proof. unfold record_text, record_of, record_lines. cbn. rewrite ?app_nil_r. by rewrite <- ?app_assoc. Qed.

(** A record reads back, for its own action only. *)
Lemma check_record_text action expires subject action2 :
  action ∈ RECOVERY_ACTIONS -> 1 <= expires <= LAST_EXPIRY -> _USERNAME_RE subject = true ->
  check_record (record_text action expires subject) action2 =
  Ok (if str_eqb action action2 then Some (expires, subject) else None).
Proof.
  intros Ha He Hu. rewrite record_text_of.
  destruct (record_of_values _ (record_fields_ok action expires subject Ha ltac:(lia) Hu)) as [Hd Hv].
  { by apply (bool_decide_eq_true_1 (NoDup _)); vm_compute. }
  unfold check_record. rewrite Hd. cbn [mbind res_bind]. rewrite Hv. cbn [mbind res_bind].
  change (same_keys (record_fields action expires subject)) with true. cbn [negb].
  change (field (lit "format") (record_fields action expires subject)) with (lit "1").
  change (field (lit "action") (record_fields action expires subject)) with action.
  change (field (lit "subject") (record_fields action expires subject)) with subject.
  change (field (lit "expires") (record_fields action expires subject)) with (int_str expires).
  change (str_eqb (lit "1") (lit "1")) with true. cbn [negb orb].
  destruct (str_eqb action action2); [|done]. cbn [negb].
  rewrite username_fixed by done. cbn [mbind res_bind].
  by rewrite (bounded_integer_printed 1 LAST_EXPIRY expires 9) by (done || lia).
Qed.

(** ** The file of a record *)

(** The record [text] is in place under the digest [name]. *)
Definition has_record (w : world) (master : list pystr) (name : pystr) (text : bytes) : Prop :=
  forallb _safe_component (_recovery_directory master) = true /\ _safe_component name = true /\
  exists n, file_at w (_recovery_directory master ++ [name]) = Some n /\ i_kind n = KFile text /\ i_mode n = mode_600.

Lemma file_at_snoc w dir name : file_at w (dir ++ [name]) =
  (d ← reach w root_ino dir; i ← child w d name; w_nodes w !! i).
Proof. unfold file_at. by rewrite split_path_snoc. Qed.

(** What the clock says, in whole seconds. *)
Definition reads_int (O : Os) (now : option pyval) (t : Z) : Prop :=
  match now with Some v => py_int v = Ok t | None => exists k, int_of_float (@os_clock O k) = Ok t end.

Section Operations.
Context {OS : Os}.

Lemma now_int_Ok now w t w' : now_int now w = (Ok t, w') -> reads_int OS now t /\ same_nodes w w'.
Proof.
  destruct now as [v|]; simpl.
  - by intros [? ->]%lift_Ok.
  - intros [? ->]%lift_Ok. split; [by exists (w_tick w)|done].
Qed.

Lemma record_written master dir name text w w' :
  reach w root_ino (_recovery_directory master) = Some dir ->
  forallb _safe_component (_recovery_directory master) = true ->
  finally (_atomic_write_at dir name text mode_600) (os_close dir) w = (Ok tt, w') ->
  has_record w' master name text.
Proof.
  intros Hr Hs H.
  apply (written_file (_recovery_directory master ++ [name])) in H as [[_ Hn] Hf];
    rewrite ?split_path_snoc in *; done.
Qed.

(** What a successful issue leaves behind. *)
Lemma issue_Ok master pw action ttl rate now w issued w' :
  issue_recovery_authorization master pw action ttl rate now w = (Ok issued, w') ->
  ok (authentication issued) = true ->
  action ∈ RECOVERY_ACTIONS /\ _USERNAME_RE (username (authentication issued)) = true /\
  exists t s name, reads_int OS now t /\ py_int ttl = Ok s /\ 30 <= s <= MAX_AUTHORIZATION_TTL_SECONDS /\
    _token_name (PStr (token issued)) = Ok name /\
    has_record w' master name (record_text action (t + s) (username (authentication issued))).
Proof.
  intros H Hok. unfold issue_recovery_authorization in H. io_step H. apply guard_io_Ok in H0 as [Ha ->].
  apply bool_decide_eq_true in Ha. split; [done|].
  apply io_bind_Ok in H as (res & w1 & Hauth & H). apply authenticate_run in Hauth as (r & [= <-] & Hlogin).
  destruct (ok res) eqn:Er; cbn [negb] in H; [|apply ret_Ok in H as [-> _]; cbn [authentication] in Hok; congruence].
  assert (Hu : _USERNAME_RE (username res) = true).
  { destruct Hlogin as [? ? ? ? _ _ _ ->|? ? ? ? _ _ _ _ ->|u h ? ? ? ? ? ? Hacc _ _ _ _ _ ->|? _ _]; try done; [|congruence].
    by eapply has_account_name. }
  apply io_bind_Ok in H as (s & w2 & Hs & H). apply lift_Ok in Hs as [Hs ->].
  apply io_bind_Ok in H as (g & w2 & Hg & H). apply guard_io_Ok in Hg as [Hb ->].
  apply io_bind_Ok in H as (t & w2 & Ht & H). apply now_int_Ok in Ht as [Ht _].
  apply io_bind_Ok in H as (seed & w3 & _ & H).
  apply io_bind_Ok in H as (name & w4 & Hname & H). apply lift_Ok in Hname as [Hname ->].
  apply io_bind_Ok in H as (body & w4 & Hbody & H). apply lift_Ok in Hbody as [Hbody ->].
  apply io_bind_Ok in H as (dir & w4 & Hdir & H). apply secure_directory_run in Hdir as [_ Hdir].
  destruct (Hdir dir eq_refl) as [Hr Hsafe].
  apply io_bind_Ok in H as ([] & w5 & Hw & H). apply ret_Ok in H as [-> ->].
  cbn [authentication token]. split; [done|]. exists t, s, name. split; [done|]. split; [done|]. split; [lia|].
  split; [done|]. unfold ascii_encode in Hbody. destruct (forallb _ _); [|done]. injection Hbody as <-.
  by apply (record_written master dir name _ w4 w5).
Qed.

(** A record that can be read is the one in place. *)
Lemma read_record_Ok master name w raw n w' : read_record master name w = (Ok (raw, n), w') ->
  same_nodes w w' /\ file_at w (_recovery_directory master ++ [name]) = Some n /\ i_kind n = KFile raw.
Proof.
  intros H. assert (Hs : pres same_nodes (read_record master name)).
  { unfold read_record. pres_step; [apply secure_directory_still|]. pres_step; [apply read_regular_still|still]. }
  split; [by eapply io_pres_run|]. unfold read_record in H.
  apply io_bind_Ok in H as (d & w1 & Hdir & H).
  pose proof (io_pres_run _ _ _ _ _ (secure_directory_still None false _) Hdir) as Hs1.
  apply secure_directory_run in Hdir as [_ Hdir]. destruct (Hdir d eq_refl) as [Hr _].
  apply finally_Ok in H as (u & w2 & H & _). apply read_regular_Ok in H as (i & Hc & Hi & Hk & _); [|done].
  split; [|done]. rewrite file_at_snoc, <- (reach_nodes w w1) by done. rewrite Hr. cbn [mbind option_bind].
  rewrite <- (child_nodes w w1), Hc by done. cbn [mbind option_bind]. by rewrite <- Hs1.
Qed.

Lemma read_record_found master name text w : calm OS -> has_record w master name text -> zlen text <= MAX_RECORD_BYTES ->
  exists n w', read_record master name w = (Ok (text, n), w') /\ same_nodes w w' /\ i_mode n = mode_600.
Proof.
  intros Hc (Hs & Hx & n & Hf & Hk & Hm) Hl. rewrite file_at_snoc in Hf.
  destruct (reach w root_ino _) as [d|] eqn:Hr; [|done]. cbn [mbind option_bind] in Hf.
  destruct (child w d name) as [i|] eqn:Hch; [|done]. cbn [mbind option_bind] in Hf.
  destruct (secure_directory_found false _ w d Hc Hr Hs) as (w1 & E1 & H1).
  destruct (read_regular_found d name MAX_RECORD_BYTES w1 i n text) as (w2 & E2 & H2); try done.
  { by rewrite (child_nodes w w1). } { by rewrite H1. }
  exists n, (add_open (-1) w2). split; [|split; [by transitivity w1; [|transitivity w2]|done]].
  unfold read_record. rewrite (io_bind_run _ _ _ _ _ E1). unfold finally. by rewrite E2.
Qed.

(** The answer of a validation that reads the record [text] at the time [t]. *)
Definition verdict (text : bytes) (action : pystr) (t : Z) : res bool :=
  match check_record text action with
  | Ok (Some (expires, _)) => Ok ((t <? expires) && (expires <=? t + MAX_AUTHORIZATION_TTL_SECONDS))
  | Ok None => Ok false
  | Exc e => if refusal e then Ok false else Exc e
  end.

Lemma validate_found master tok name text action v t w : calm OS ->
  has_record w master name text -> zlen text <= MAX_RECORD_BYTES -> _token_name tok = Ok name ->
  action ∈ RECOVERY_ACTIONS -> py_int v = Ok t ->
  exists w', validate_recovery_authorization master tok action (Some v) w = (verdict text action t, w').
Proof.
  intros Hc Hrec Hl Hn Ha Ht. unfold validate_recovery_authorization, try_io.
  rewrite bool_decide_eq_true_2 by done. cbn [negb]. rewrite (io_bind_run _ _ w name w) by by rewrite Hn.
  destruct (read_record_found master name text w Hc Hrec Hl) as (n & w1 & E & _ & Hm).
  rewrite (io_bind_run _ _ _ _ _ E). rewrite Hm. change (negb (Z.land mode_600 mode_077 =? 0)) with false. cbv iota.
  unfold verdict. destruct (check_record text action) as [[[expires subject]|]|e].
  - rewrite (io_bind_run _ _ w1 (Some (expires, subject)) w1) by done. cbv iota.
    rewrite (io_bind_run _ _ w1 t w1) by (simpl; unfold lift; by rewrite Ht). by eexists.
  - rewrite (io_bind_run _ _ w1 None w1) by done. by eexists.
  - rewrite (io_bind_exc _ _ w1 e w1) by done. destruct (refusal e); by eexists.
Qed.

(** A validation says yes only to a record in place that has the format. *)
Lemma validate_true master tok action now w w' :
  validate_recovery_authorization master tok action now w = (Ok true, w') ->
  action ∈ RECOVERY_ACTIONS /\ same_nodes w w' /\
  exists name n raw expires subject t, _token_name tok = Ok name /\
    file_at w (_recovery_directory master ++ [name]) = Some n /\ i_kind n = KFile raw /\
    check_record raw action = Ok (Some (expires, subject)) /\ reads_int OS now t /\
    t < expires <= t + MAX_AUTHORIZATION_TTL_SECONDS.
Proof.
  unfold validate_recovery_authorization. intros [H|(e & w1 & _ & H)]%try_io_Ok.
  2: { by destruct (refusal e). }
  destruct (bool_decide_reflect (action ∈ RECOVERY_ACTIONS)) as [Ha|]; cbn [negb] in H; [|done]. split; [done|].
  apply io_bind_Ok in H as (name & w1 & Hn & H). apply lift_Ok in Hn as [Hn ->].
  apply io_bind_Ok in H as ([raw n] & w1 & Hr & H). apply read_record_Ok in Hr as (Hs & Hf & Hk).
  destruct (negb _); [done|]. apply io_bind_Ok in H as (checked & w2 & Hc & H). apply lift_Ok in Hc as [Hc ->].
  destruct checked as [[expires subject]|]; [|done].
  apply io_bind_Ok in H as (t & w2 & Ht & H). apply now_int_Ok in Ht as [Ht Hs2].
  apply ret_Ok in H as [Hb ->]. symmetry in Hb. apply andb_true_iff in Hb as [Hb1 Hb2].
  split; [by transitivity w1|]. exists name, n, raw, expires, subject, t. repeat split; try done; lia.
Qed.

End Operations.

Lemma record_text_short action expires subject : action ∈ RECOVERY_ACTIONS -> 1 <= expires <= LAST_EXPIRY ->
  _USERNAME_RE subject = true -> zlen (record_text action expires subject) <= MAX_RECORD_BYTES.
Proof.
  intros Ha He Hu. destruct (username_canonical (PStr subject) subject (username_fixed subject Hu)) as (_ & Hlu & _).
  assert (zlen (int_str expires) <= 10).
  { unfold int_str. rewrite (proj2 (Z.ltb_ge expires 0)) by lia. unfold nat_str, LAST_EXPIRY in *.
    apply (dec_digits_bound (Z.to_nat (Z.log2 expires) + 1) 9 expires []). lia. }
  assert (zlen action <= 9).
  { unfold RECOVERY_ACTIONS in Ha. apply elem_of_cons in Ha as [->|Ha]; [by vm_compute|].
    apply list_elem_of_singleton in Ha as ->. by vm_compute. }
  unfold record_text, MAX_RECORD_BYTES. rewrite !zlen_app.
  change (zlen (lit "format=1")) with 8. change (zlen (lit "action=")) with 7. change (zlen (lit "expires=")) with 8.
  change (zlen (lit "subject=")) with 8. change (zlen [10]) with 1. lia.
Qed.

(** A token that was issued is redeemed for the action it was issued for, from
    the moment it was issued until it expires, by any reader whose calls do not
    fail, and for the other action never. *)
Theorem recovery_roundtrip (O1 O2 : Os) master pw action ttl rate now w issued w' :
  @issue_recovery_authorization _ O1 _ master pw action ttl rate now w = (Ok issued, w') ->
  ok (authentication issued) = true -> calm O2 ->
  exists t s, reads_int O1 now t /\ py_int ttl = Ok s /\ 30 <= s <= 900 /\
    (1 <= t + s <= LAST_EXPIRY -> forall action2 v t2, action2 ∈ RECOVERY_ACTIONS -> py_int v = Ok t2 ->
     exists w2, @validate_recovery_authorization _ O2 _ master (PStr (token issued)) action2 (Some v) w' =
       (Ok (str_eqb action action2 && ((t2 <? t + s) && (t + s <=? t2 + 900))), w2)).
Proof.
  intros H Hok Hcalm. destruct (@issue_Ok O1 _ _ _ _ _ _ _ _ _ H Hok) as (Ha & Hu & t & s & name & Ht & Hs & Hb & Hn & Hrec).
  exists t, s. split; [done|]. split; [done|]. split; [done|]. intros He action2 v t2 Ha2 Hv.
  destruct (@validate_found O2 master (PStr (token issued)) name _ action2 v t2 w' Hcalm Hrec) as (w2 & E); try done.
  { by apply record_text_short. }
  exists w2. rewrite E. unfold verdict. rewrite check_record_text by done. by destruct (str_eqb action action2).
Qed.

(** ** Redeemed records *)

Lemma splitlines_acc_plain s acc : Forall plain acc -> forallb is_ascii s = true -> Forall (Forall plain) (splitlines_acc acc s).
Proof.
  revert acc. induction s as [s IH] using (induction_ltof1 _ (@List.length Z)); unfold ltof in IH.
  intros acc Ha Hs. destruct s as [|c s]; cbn [splitlines_acc].
  - destruct acc as [|x acc]; [constructor|]. apply Forall_cons_2; [by apply Forall_rev|constructor].
  - cbn [forallb] in Hs. apply andb_true_iff in Hs as [Hc Hs]. destruct (is_linesep c) eqn:E.
    + apply Forall_cons_2; [by apply Forall_rev|].
      destruct s as [|d s]; [constructor|].
      destruct ((c =? 13) && (d =? 10)); (apply IH; [simpl; lia|constructor|]); [|done].
      cbn [forallb] in Hs. by apply andb_true_iff in Hs as [_ Hs].
    + apply IH; [simpl; lia| |done]. by apply Forall_cons_2.
Qed.

Definition plain_fields (values : list (pystr * pystr)) : Prop := Forall (fun kv => Forall plain kv.2) values.

Lemma record_values_plain lines acc values : Forall (Forall plain) lines -> plain_fields acc ->
  record_values acc lines = Ok (Some values) -> plain_fields values.
Proof.
  revert acc. induction lines as [|l ls IH]; intros acc Hl Ha H; cbn [record_values] in H; [by injection H as <-|].
  unfold split1 in H. destruct (partition 61 l) as [[k f] v] eqn:E. destruct f; [|done]. cbn [mbind res_bind] in H.
  destruct (bool_decide _); [done|]. apply partition_inv in E as [-> _].
  apply Forall_cons in Hl as [Hl Hls]. apply Forall_app in Hl as [_ Hv]. apply Forall_cons in Hv as [_ Hv].
  eapply IH; [done| |exact H]. apply Forall_app. split; [done|]. apply Forall_cons_2; [done|constructor].
Qed.

Lemma field_plain key values : plain_fields values -> Forall plain (field key values).
Proof. induction 1 as [|[k v] vs Hv Hvs IH]; cbn [field]; [constructor|]. by destruct (str_eqb k key). Qed.

(** What an accepted record says. *)
Lemma check_record_inv raw action expires subject : check_record raw action = Ok (Some (expires, subject)) ->
  1 <= expires <= LAST_EXPIRY /\ Forall plain subject.
Proof.
  unfold check_record, ascii_decode. destruct (forallb is_ascii raw) eqn:Ha; [|done]. cbn [mbind res_bind].
  destruct (record_values [] (splitlines raw)) as [[values|]|] eqn:Ev; [|done|done]. cbn [mbind res_bind].
  destruct (negb (same_keys values)); [done|]. destruct (_ || _); [done|].
  destruct (canonicalize_username _); [|done]. cbn [mbind res_bind].
  destruct (_bounded_integer _ _) as [n|] eqn:En; [|done]. cbn [mbind res_bind]. intros [= <- <-].
  apply bounded_integer_range in En. split; [exact En|]. apply field_plain.
  eapply record_values_plain; [|constructor|exact Ev]. by apply splitlines_acc_plain.
Qed.

Lemma boot_id_plain boot : boot_id_ok boot = true -> Forall plain boot.
Proof.
  intros H. rewrite <- (join_split 45 boot). unfold boot_id_ok, hex_run in H.
  destruct (split_on 45 boot) as [|a [|b [|c [|d [|e [|]]]]]]; try done.
  assert (Hh : forall s, forallb is_lower_hex s = true -> Forall plain s).
  { intros s Hs%forallb_lit. revert Hs. apply List.Forall_impl. unfold is_lower_hex, ascii_digit, plain, is_ascii, is_linesep.
    intros x Hx. split; lia. }
  repeat (apply andb_true_iff in H as [H ?H]).
  repeat match goal with E : (_ && _) = true |- _ => apply andb_true_iff in E as [? _] end.
  assert (H45 : plain 45) by done.
  cbn [join_with]. repeat (apply Forall_app; split); try (by apply Hh); by repeat constructor.
Qed.

(** An upgraded record is no record for a validation. *)
Lemma check_upgraded action expires subject boot action2 :
  action ∈ RECOVERY_ACTIONS -> 0 <= expires -> Forall plain subject -> Forall plain boot ->
  check_record (upgraded_text action expires subject boot) action2 = Ok None.
Proof.
  intros Ha He Hu Hb.
  set (fields := [(lit "format", lit "2"); (lit "action", action); (lit "expires", int_str expires); (lit "subject", subject);
                  (lit "origin_boot_id", boot)]).
  assert (Et : upgraded_text action expires subject boot = record_of fields).
  { unfold upgraded_text, record_of, record_lines, fields. cbn. rewrite ?app_nil_r. by rewrite <- ?app_assoc. }
  assert (Hf : Forall (fun kv => Forall plain kv.1 /\ Forall plain kv.2 /\ Forall (fun x => x <> 61) kv.1) fields).
  { unfold fields. repeat apply Forall_cons_2; cbn [fst snd]; try apply Forall_nil_2; split; try (by apply plain_lit); split;
      try (by repeat constructor); (by apply plain_action) || (by apply plain_int) || done. }
  destruct (record_of_values fields Hf) as [Hd Hv].
  { by apply (bool_decide_eq_true_1 (NoDup _)); vm_compute. }
  unfold check_record. rewrite Et, Hd. cbn [mbind res_bind]. rewrite Hv. done.
Qed.

(** What a redeemed authorization leaves in place of the record. *)
Lemma digest_Ok (O : Os) master tok action now boot w d w' :
  @recovery_authorization_digest _ O _ master tok action now (Some boot) w = (Ok d, w') ->
  _token_name tok = Ok d /\ action ∈ RECOVERY_ACTIONS /\
  exists expires subject, 0 <= expires /\ Forall plain subject /\
    boot_id_ok (uc_lower (strip (py_str boot))) = true /\
    has_record w' master d (upgraded_text action expires subject (uc_lower (strip (py_str boot)))).
Proof.
  intros H. unfold recovery_authorization_digest in H.
  apply io_bind_Ok in H as (valid & w1 & Hval & H).
  apply io_bind_Ok in H as (g & w2 & Hg & H). apply guard_io_Ok in Hg as [-> ->].
  apply validate_true in Hval as (Ha & _ & _).
  apply io_bind_Ok in H as (digest & w2 & Hd & H). apply lift_Ok in Hd as [Hd ->].
  apply io_bind_Ok in H as (g2 & w2 & Hg & H). apply guard_io_Ok in Hg as [Hboot ->].
  apply io_bind_Ok in H as (dir & w2 & Hdir & H). apply secure_directory_run in Hdir as [_ Hdir].
  destruct (Hdir dir eq_refl) as [Hr Hs].
  apply io_bind_Ok in H as ([] & w3 & Hfin & H). apply ret_Ok in H as [-> ->].
  split; [done|]. split; [done|]. apply finally_Ok in Hfin as (u & w4 & H & Hclose).
  apply io_bind_Ok in H as ([raw n] & w5 & Hread & H).
  pose proof (io_pres_run _ _ _ _ _ (read_regular_still dir digest MAX_RECORD_BYTES) Hread) as Hs5.
  apply io_bind_Ok in H as (g3 & w6 & Hg & H). apply guard_io_Ok in Hg as [_ ->].
  apply io_bind_Ok in H as (checked & w6 & Hc & H). apply lift_Ok in Hc as [Hc ->].
  destruct checked as [[expires subject]|]; [|done].
  apply io_bind_Ok in H as (t & w6 & Ht & H). apply now_int_Ok in Ht as [_ Hs6].
  apply io_bind_Ok in H as (g4 & w7 & Hg & H). apply guard_io_Ok in Hg as [_ ->].
  apply io_bind_Ok in H as (text & w7 & Htext & H). apply lift_Ok in Htext as [Htext ->].
  apply check_record_inv in Hc as [He Hsub]. exists expires, subject. split; [lia|]. split; [done|]. split; [done|].
  unfold ascii_encode in Htext. case_match; [|done]. injection Htext as <-.
  apply (@record_written O master dir digest _ w6 w3); [|done|unfold finally; by rewrite H, Hclose].
  by rewrite (reach_nodes w2 w6) by by transitivity (w_nodes w5).
Qed.

(** C10: an authorization is redeemed once: after its digest was handed out for a
    boot, no validation of the token says yes again, for any action, at any time
    and in any environment, as long as nobody writes over the record. *)
Theorem recovery_redeemed_once (O1 O2 : Os) (N : pystr -> Prop) master tok action now boot w d w1 w2 action2 now2 r w3 :
  @recovery_authorization_digest _ O1 _ master tok action now (Some boot) w = (Ok d, w1) ->
  keeps N w1 w2 -> ~ N d ->
  @validate_recovery_authorization _ O2 _ master tok action2 now2 w2 = (r, w3) -> r <> Ok true.
Proof.
  intros H Hk HN H2 ->. apply digest_Ok in H as (Hname & Ha & e & s & He & Hs & Hb & _ & _ & n & Hf & Hkn & _).
  apply (@validate_true O2) in H2 as (_ & _ & name & n2 & raw & e2 & s2 & t & Hn & Hf2 & Hk2 & Hc & _).
  rewrite Hname in Hn. injection Hn as <-.
  destruct (file_at_keeps N w1 w2 _ n _ Hk Hf Hkn) as (n' & Hf' & Hk' & _); [by rewrite split_path_snoc|].
  rewrite Hf' in Hf2. injection Hf2 as <-. rewrite Hk' in Hk2. injection Hk2 as <-.
  rewrite check_upgraded in Hc; [done|done|done|done|by apply boot_id_plain].
Qed.

End Recovery.

(** Service secrets: what is stored is what is loaded, privately, and what is
    deleted is gone. *)
Section Secrets.
Context {U : PyUnicode} {K : Kdf}.

Lemma secret_bytes_inv s b : secret_bytes s = Ok b ->
  1 <= zlen b <= MAX_SERVICE_SECRET_BYTES /\ has_char 0 b = false.
Proof.
  unfold secret_bytes. destruct (match s with SecretStr _ => _ | _ => _ end) as [[r|]|]; [|done|done].
  cbn [mbind res_bind]. destruct (negb _ || _) eqn:E; [done|]. intros [= <-].
  apply orb_false_iff in E as [E ->]. apply negb_false_iff in E. split; [lia|done].
Qed.

(** The secret of a service is in place. *)
Lemma store_secret_Ok (O : Os) service secret directory w w' :
  @store_service_secret O service secret directory w = (Ok tt, w') ->
  exists name b, _service_secret_name service = Ok name /\ secret_bytes secret = Ok b /\
    path_ok (@comps_of O directory ++ [name]) /\
    exists n, file_at w' (@comps_of O directory ++ [name]) = Some n /\ i_kind n = KFile b /\ i_mode n = mode_600.
Proof.
  intros H. unfold store_service_secret in H.
  apply io_bind_Ok in H as (name & w1 & Hn & H). apply lift_Ok in Hn as [Hn ->].
  apply io_bind_Ok in H as (b & w1 & Hb & H). apply lift_Ok in Hb as [Hb ->].
  apply io_bind_Ok in H as (d & w1 & Hdir & H). apply secure_directory_run in Hdir as [_ Hdir].
  destruct (Hdir d eq_refl) as [Hr Hs]. exists name, b. split; [done|]. split; [done|].
  apply (written_file (@comps_of O directory ++ [name])) in H; rewrite ?split_path_snoc in *; done.
Qed.

(** A service secret that was stored is loaded back byte for byte by any later
    reader whose calls do not fail and that resolves the directory in the same way,
    whatever calls failed or came up short while it was stored, and whatever other
    programs did under other names. *)
Theorem secret_roundtrip (O1 O2 : Os) (N : pystr -> Prop) service secret directory w w1 w2 name :
  @store_service_secret O1 service secret directory w = (Ok tt, w1) ->
  _service_secret_name service = Ok name -> keeps N w1 w2 -> ~ N name ->
  calm O2 -> @comps_of O1 directory = @comps_of O2 directory ->
  exists b w3, secret_bytes secret = Ok b /\ @load_service_secret O2 service directory w2 = (Ok b, w3).
Proof.
  intros (name' & b & Hn' & Hb & [Hp Hx] & n & Hf & Hk & Hm)%store_secret_Ok Hn Hkeep HN Hcalm Ecwd.
  rewrite Hn in Hn'. injection Hn' as <-. rewrite Ecwd in *.
  destruct (file_at_keeps N w1 w2 _ n b Hkeep Hf Hk) as (n2 & Hf2 & Hk2 & Hpriv); [by rewrite split_path_snoc|].
  rewrite split_path_snoc in Hp, Hx. cbn [fst snd] in *. rewrite file_at_snoc in Hf2.
  destruct (reach w2 root_ino _) as [d|] eqn:Hr; [|done]. cbn [mbind option_bind] in Hf2.
  destruct (child w2 d name) as [i|] eqn:Hc; [|done]. cbn [mbind option_bind] in Hf2.
  destruct (secret_bytes_inv _ _ Hb) as [Hlen Hnul].
  destruct (@secure_directory_found O2 false (@comps_of O2 directory) w2 d Hcalm Hr Hp) as (w3 & E3 & H3).
  destruct (@read_regular_found O2 d name MAX_SERVICE_SECRET_BYTES w3 i n2 b) as (w4 & E4 & H4); try done; try lia.
  { by rewrite (child_nodes w2 w3). } { by rewrite H3. }
  exists b, (add_open (-1) w4). split; [done|]. unfold load_service_secret.
  rewrite (io_bind_run _ _ w2 name w2) by (unfold lift; by rewrite Hn). rewrite (io_bind_run _ _ _ _ _ E3).
  rewrite (io_bind_run _ _ w3 (b, n2) (add_open (-1) w4)) by (unfold finally; by rewrite E4).
  assert (Hpn : Z.land (i_mode n2) mode_077 = 0) by (apply Hpriv; unfold private; by rewrite Hm).
  rewrite Hpn, Hnul. rewrite (proj2 (Z.eqb_neq (zlen b) 0)) by lia. done.
Qed.

End Secrets.
