(* ===== verification/AccountSpec.v ===== *)
(** Changes of the account: whatever fails while a user is renamed, rehashed or
    removed, the credential file names the old account or the new one, and the home
    follows a change that succeeded. *)

From stdpp Require Import base gmap option list.
From Stdlib Require Import ZArith Lia Bool String.
From S2P Require Import Prelude PyFloat PyText PyVal PyJson PyFs PyPath Credential CredentialSpec BrokerFiles Broker.
From S2P Require Import PyFsFacts BrokerReadSpec BrokerWriteSpec BrokerStoreSpec LoginSpec.
Open Scope Z_scope.

(** ** Programs that rearrange one directory *)

(** The directories a name is looked up in along a path. *)
Fixpoint looks (w : world) (d : ino) (comps : list pystr) : list ino :=
  match comps with
  | [] => []
  | c :: rest => d :: match child w d c with Some i => looks w i rest | None => [] end
  end.

(** As [keeps], but for the entries of the directory [d0]. *)
Record rearranges (N : pystr -> Prop) (d0 : ino) (w w' : world) : Prop := {
  re_node i n : w_nodes w !! i = Some n ->
    exists n', w_nodes w' !! i = Some n' /\ is_dir (i_kind n') = is_dir (i_kind n) /\
      (is_dir (i_kind n) = false -> i_kind n' = i_kind n);
  re_child d x i n : d <> d0 -> child w d x = Some i -> w_nodes w !! i = Some n ->
    ~ N x \/ is_dir (i_kind n) = true -> child w' d x = Some i }.

#[export] Instance rearranges_preorder N d0 : PreOrder (rearranges N d0).
Proof.
  split.
  - intros w. split; [|done]. intros i n Hi. by exists n.
  - intros w1 w2 w3 [Hn1 Hc1] [Hn2 Hc2]. split.
    + intros i n Hi. destruct (Hn1 i n Hi) as (n' & Hi' & Hd & Hk).
      destruct (Hn2 i n' Hi') as (n'' & Hi'' & Hd' & Hk'). exists n''.
      split; [done|]. split; [congruence|]. intros Hf. rewrite Hk' by congruence. by apply Hk.
    + intros d x i n Hne Hx Hi Hor. destruct (Hn1 i n Hi) as (n' & Hi' & Hd & _).
      eapply Hc2; [done|by eapply Hc1|exact Hi'|]. by rewrite Hd.
Qed.

Lemma keeps_rearranges N d0 w w' : keeps N w w' -> rearranges N d0 w w'.
Proof.
  intros [H1 H2]. split.
  - intros i n Hi. destruct (H1 i n Hi) as (n' & ? & ? & Hk). exists n'. split; [done|]. split; [done|].
    intros Hd. by apply Hk.
  - intros d x i n _. apply H2.
Qed.

Lemma put_entry_rearranges N d0 x v w : rearranges N d0 w (put_entry d0 x v w).
Proof.
  split.
  - intros i n Hi. destruct (decide (i = d0)) as [->|Hne].
    + destruct (put_entry_attrs w d0 x v n Hi) as (n' & Hn' & Hd & _). exists n'. split; [done|]. split; [done|].
      intros Hf. unfold put_entry in Hn'. rewrite Hi in Hn'. unfold entries in Hn'. rewrite Hi in Hn'.
      by destruct (i_kind n) eqn:Ek; [congruence|discriminate Hf|congruence|congruence].
    + exists n. by rewrite put_entry_nodes.
  - intros d y i n Hne Hc _ _. unfold child, entries in *. by rewrite put_entry_nodes by done.
Qed.

Lemma reach_rearranges N d0 w w' d comps e : rearranges N d0 w w' -> d0 ∉ looks w d comps ->
  reach w d comps = Some e -> reach w' d comps = Some e /\ looks w' d comps = looks w d comps.
Proof.
  intros Hk. revert d. induction comps as [|c rest IH]; intros d Hn H; simpl in *; [done|].
  destruct (child w d c) as [i|] eqn:Hc; [|done]. cbn [mbind option_bind] in H.
  destruct (w_nodes w !! i) as [n|] eqn:Hi; [|done]. cbn [mbind option_bind] in H.
  destruct (isdir n) eqn:Hd; [|done]. apply not_elem_of_cons in Hn as [Hne Hn].
  rewrite (re_child _ _ _ _ Hk d c i n (not_eq_sym Hne) Hc Hi (or_intror Hd)). cbn [mbind option_bind].
  destruct (re_node _ _ _ _ Hk i n Hi) as (n' & -> & Hd' & _). cbn [mbind option_bind].
  unfold isdir in *. rewrite Hd', Hd. destruct (IH i Hn H) as [-> ->]. done.
Qed.

Lemma looks_nodes w w' d comps : w_nodes w' = w_nodes w -> looks w' d comps = looks w d comps.
Proof.
  intros E. revert d. induction comps as [|c rest IH]; intros d; simpl; [done|].
  rewrite (child_nodes w w') by done. destruct (child w d c); [|done]. by rewrite IH.
Qed.

(** The directory [d0] is no part of the way to the file. *)
Definition apart (w : world) (path : list pystr) (d0 : ino) : Prop :=
  d0 ∉ looks w root_ino (split_path path).1 /\
  forall d, reach w root_ino (split_path path).1 = Some d -> d <> d0.

Section Account.
Context {U : PyUnicode} {K : Kdf} {L : KdfLaws K}.

Lemma has_account_rearranges N d0 w w' path u h : rearranges N d0 w w' -> apart w path d0 ->
  ~ N (split_path path).2 -> has_account w path u h -> has_account w' path u h /\ apart w' path d0.
Proof.
  intros Hk [Hl Hp] HN (data & n & (Hok & Hf & Hd & Hlen) & Hparse). unfold file_at in Hf.
  destruct (reach w root_ino _) as [d|] eqn:Hr; [|done]. cbn [mbind option_bind] in Hf.
  destruct (reach_rearranges N d0 w w' root_ino _ d Hk Hl Hr) as [Hr' Hl'].
  destruct (child w d _) as [i|] eqn:Hc; [|done]. cbn [mbind option_bind] in Hf.
  pose proof (re_child _ _ _ _ Hk d _ i n (Hp d eq_refl) Hc Hf (or_introl HN)) as Hc'.
  destruct (re_node _ _ _ _ Hk i n Hf) as (n' & Hn' & _ & Hkind). rewrite Hd in Hkind. split.
  - exists data, n'. split; [|done]. split; [done|]. split; [|split; [by apply Hkind|done]].
    unfold file_at. rewrite Hr'. cbn [mbind option_bind]. by rewrite Hc'.
  - split; [by rewrite Hl'|]. rewrite Hr'. intros d2 [= <-]. by apply Hp.
Qed.

(** ** Moving a home *)

Section Operations.
Context {OS : Os}.

Lemma rename_rearranges N d src dst : pres (rearranges N d) (os_rename d src dst).
Proof.
  intros w. unfold os_rename, syscall. destruct (os_fault _); try (by apply keeps_rearranges, keeps_same_nodes).
  all: transitivity (step_tick w); [by apply keeps_rearranges, keeps_same_nodes|].
  all: unfold at_entry; repeat case_match; simpl; try done.
  all: (etransitivity; [apply put_entry_rearranges|apply put_entry_rearranges]).
Qed.

(** A home that was moved to a free name. *)
Lemma rename_Ok d src dst w w' : src <> dst -> child w d dst = None -> os_rename d src dst w = (Ok tt, w') ->
  exists i n, child w d src = Some i /\ w_nodes w !! i = Some n /\
    child w' d dst = Some i /\ child w' d src = None.
Proof.
  intros Hne Hnone H. unfold os_rename in H. apply syscall_Ok in H as (f & _ & H). unfold at_entry in H.
  rewrite !child_tick in H. rewrite Hnone in H. destruct (child w d src) as [i|] eqn:Hc.
  2: { by destruct (entries (step_tick w) d). }
  change (w_nodes (step_tick w)) with (w_nodes w) in H. destruct (w_nodes w !! i) as [n|] eqn:Hi; [|done].
  assert (exists es, entries w d = Some es) as [es He].
  { rewrite child_entries in Hc. destruct (entries w d); [eauto|done]. }
  change (entries (step_tick w) d) with (entries w d) in H. rewrite He in H. injection H as <-.
  exists i, n. split; [done|]. split; [done|].
  assert (He' : entries (put_entry d dst (Some i) (step_tick w)) d = Some (partial_alter (fun _ => Some i) dst es)).
  { by apply put_entry_dir. }
  rewrite !(child_put_entry _ d src None _ _ _ He'). rewrite !(child_put_entry _ d dst (Some i) es) by done.
  rewrite (bool_decide_eq_false_2 (d = d /\ dst = src)) by (intros [_ ->]; done).
  rewrite !bool_decide_eq_true_2 by done. done.
Qed.

(** The base directory is opened, and only the rename changes anything. *)
Lemma on_base_run {A} N homes (body : ino -> IO A) w r w' d0 :
  (forall d, reach w root_ino homes = Some d -> d = d0) -> (forall d, pres (rearranges N d) (body d)) ->
  (base ← _open_secure_directory false None false homes; finally (body base) (os_close base)) w = (r, w') ->
  rearranges N d0 w w'.
Proof.
  intros Hd0 Hbody H.
  destruct (_open_secure_directory false None false homes w) as [[d|e] w1] eqn:Hdir;
    pose proof (io_pres_run _ _ _ _ _ (secure_directory_still None false homes) Hdir) as Hs.
  2: { rewrite (io_bind_exc _ _ _ _ _ Hdir) in H. injection H as _ <-. by apply keeps_rearranges, same_keeps. }
  pose proof Hdir as [_ Hr]%secure_directory_run. destruct (Hr d eq_refl) as [Hreach _].
  rewrite (reach_nodes w w1) in Hreach by done. apply Hd0 in Hreach as <-.
  rewrite (io_bind_run _ _ _ _ _ Hdir) in H. transitivity w1; [by apply keeps_rearranges, same_keeps|].
  eapply (io_pres_run (rearranges N d)); [|exact H]. apply io_pres_finally; [typeclasses eauto|apply Hbody|].
  intros w2. by apply keeps_rearranges, keeps_same_nodes.
Qed.

Lemma still_rearranges {A} N d (m : IO A) : pres same_nodes m -> pres (rearranges N d) m.
Proof. intros H w. apply keeps_rearranges, same_keeps, H. Qed.

Lemma check_home_still base user : pres same_nodes (check_home base user).
Proof. unfold check_home, _open_child_directory. still. Qed.

Lemma move_home_run N homes old new w r w' d0 :
  (forall d, reach w root_ino homes = Some d -> d = d0) -> move_home homes old new w = (r, w') ->
  rearranges N d0 w w'.
Proof.
  intros Hd0. apply on_base_run; [done|]. intros d.
  pres_step; [apply still_rearranges, check_home_still|]. pres_step; [apply still_rearranges; still|].
  pres_step; [pres_step|]. pres_step; [apply rename_rearranges|apply still_rearranges; still].
Qed.

Lemma restore_home_run N homes old new w r w' d0 :
  (forall d, reach w root_ino homes = Some d -> d = d0) -> restore_home homes old new w = (r, w') ->
  rearranges N d0 w w'.
Proof.
  intros Hd0. apply on_base_run; [done|]. intros d. pres_step; [apply rename_rearranges|apply still_rearranges; still].
Qed.

Lemma check_home_Ok base user w u w' : check_home base user w = (Ok u, w') ->
  exists i n, child w base user = Some i /\ w_nodes w !! i = Some n /\ isdir n = true.
Proof.
  intros H. unfold check_home in H. apply io_bind_Ok in H as (home & w1 & H1 & _).
  unfold _open_child_directory in H1. apply io_bind_Ok in H1 as (g & w2 & Hg & H1). apply guard_io_Ok in Hg as [_ ->].
  apply io_bind_Ok in H1 as (g2 & w2 & Hg & H1). apply ret_Ok in Hg as [_ ->].
  apply io_bind_Ok in H1 as (c & w2 & Hopen & _). apply os_open_dir_Ok in Hopen as (_ & ? & n & ?). by exists c, n.
Qed.

Lemma lstat_missing d x w w' : os_lstat d x w = (Exc FileNotFoundError, w') -> child w d x = None.
Proof.
  unfold os_lstat, syscall, at_entry. rewrite child_tick.
  destruct (os_fault _); try done; (destruct (child w d x) as [i|]; [|done]); by destruct (w_nodes _ !! i).
Qed.

Lemma move_home_Ok homes old new w u w' : old <> new -> move_home homes old new w = (Ok u, w') ->
  exists d0 i n, reach w root_ino homes = Some d0 /\ child w d0 old = Some i /\ w_nodes w !! i = Some n /\
    isdir n = true /\ child w' d0 new = Some i.
Proof.
  intros Hne H. unfold move_home in H. apply io_bind_Ok in H as (d & w1 & Hdir & H).
  pose proof (io_pres_run _ _ _ _ _ (secure_directory_still None false homes) Hdir) as Hs.
  apply secure_directory_run in Hdir as [_ Hr]. destruct (Hr d eq_refl) as [Hreach _].
  rewrite (reach_nodes w w1) in Hreach by done. apply finally_Ok in H as (v & w2 & H & Hclose).
  apply io_bind_Ok in H as (c & w3 & Hcheck & H).
  pose proof (io_pres_run _ _ _ _ _ (check_home_still d old) Hcheck) as Hs3. apply check_home_Ok in Hcheck as (i & n & Hc & Hi & Hdirn).
  apply io_bind_Ok in H as (taken & w4 & Htaken & H).
  apply io_bind_Ok in H as (g & w5 & Hg & H). apply guard_io_Ok in Hg as [Hfree ->].
  apply negb_true_iff in Hfree as ->.
  assert (same_nodes w3 w4 /\ child w3 d new = None) as [Hs4 Hnone].
  { split; [refine (io_pres_run _ _ _ _ _ _ Htaken); still|].
    apply try_io_Ok in Htaken as [Ht|(e & w5 & Ht & Hh)].
    - by apply io_bind_Ok in Ht as (st & w5 & _ & Ht).
    - destruct (bool_decide_reflect (e = FileNotFoundError)) as [->|]; [|done].
      apply io_bind_exc_inv in Ht as [Ht|(st & w6 & _ & Ht)]; [by eapply lstat_missing|done]. }
  apply io_bind_Ok in H as ([] & w5 & Hren & H).
  assert (Hs5 : same_nodes w5 w2) by (refine (io_pres_run _ _ _ _ _ _ H); still).
  apply rename_Ok in Hren as (j & m & Hj & Hm & Hnew & _); [|done|by rewrite (child_nodes w3 w4)].
  assert (Hall : same_nodes w w4) by (transitivity w1; [done|by transitivity w3]).
  rewrite (child_nodes w w4) in Hj by done. rewrite (child_nodes w w1) in Hc by done. rewrite Hs in Hi. simplify_eq.
  eexists d, _, n. split_and!; try done. rewrite (child_nodes w5 w'); [done|].
  by injection Hclose as _ <-.
Qed.

(** ** Changing the user *)

(** The homes are out of the way of the credential file. *)
Definition way (w : world) (root : list pystr) (d0 : ino) : Prop :=
  reach w root_ino (homes_path root) = Some d0 /\ apart w (master_path root) d0 /\
  d0 ∉ looks w root_ino (homes_path root).

Definition placed (w : world) (root : list pystr) (u h : pystr) : Prop :=
  has_account w (master_path root) u h /\
  forall d0, reach w root_ino (homes_path root) = Some d0 -> way w root d0.

Lemma placed_still w w' root u h : same_nodes w w' -> placed w root u h -> placed w' root u h.
Proof.
  intros Hs [Ha Hp]. split.
  - eapply (has_account_keeps (fun _ => False)); [by apply same_keeps|tauto|done].
  - intros d0. rewrite (reach_nodes w w') by done. intros Hr. destruct (Hp d0 Hr) as (_ & [H1 H2] & H3).
    unfold way, apart. rewrite !(looks_nodes w w'), !(reach_nodes w w') by done. done.
Qed.

Lemma account_reach w path u h : has_account w path u h -> exists d, reach w root_ino (split_path path).1 = Some d.
Proof.
  intros (data & n & (_ & Hf & _) & _). unfold file_at in Hf. destruct (reach w root_ino _) as [d|]; [eauto|done].
Qed.

Lemma way_rearranges N w w' root u h d0 : rearranges N d0 w w' -> has_account w (master_path root) u h ->
  way w root d0 -> way w' root d0.
Proof.
  intros Hre [d Hd]%account_reach (Hr & [Hl Hp] & Hh).
  destruct (reach_rearranges N d0 w w' root_ino _ d Hre Hl Hd) as [Hd' Hl'].
  destruct (reach_rearranges N d0 w w' root_ino _ d0 Hre Hh Hr) as [Hr' Hh'].
  split; [done|]. split; [|by rewrite Hh']. split; [by rewrite Hl'|]. rewrite Hd'. intros e [= <-]. by apply Hp.
Qed.

Lemma check_root_still root : pres same_nodes (check_root root).
Proof. unfold check_root. pres_step; [apply secure_directory_still|still]. Qed.

Lemma hash_password_still pw : pres same_nodes (hash_password pw).
Proof. unfold hash_password. still. Qed.

(** The write of the new account and what follows when it fails. *)
Lemma replace_account_run root u h new (moved : bool) h' w r w' :
  has_account w (master_path root) u h -> (moved = true -> exists d0, way w root d0) -> _USERNAME_RE new = true ->
  on_error (atomic_write_credentials (master_path root) (PStr new) h')
    (if moved then restore_home (homes_path root) u new else mret tt) w = (r, w') ->
  has_account w' (master_path root) u h \/ has_account w' (master_path root) new h'.
Proof.
  intros Ha Hm Hnew H. unfold on_error, try_io in H.
  destruct (atomic_write_credentials _ _ h' w) as [r1 w1] eqn:Ew.
  assert (Hor : has_account w1 (master_path root) u h \/ has_account w1 (master_path root) new h').
  { destruct (write_credentials_run _ _ h' w _ w1 u h Ha Ew) as [?|(u' & Hu' & Hn)]; [by left|].
    rewrite username_fixed in Hu' by done. injection Hu' as <-. by right. }
  destruct r1 as [t|e]; [by injection H as _ <-|].
  destruct moved; [|by injection H as _ <-]. destruct (Hm eq_refl) as (d0 & Hw).
  pose proof (io_pres_run _ _ _ _ _ (write_credentials_kept (master_path root) (PStr new) h') Ew) as Hkeep.
  pose proof (way_rearranges _ _ _ _ _ _ _ (keeps_rearranges _ d0 _ _ Hkeep) Ha Hw) as (Hr1 & Hap1 & _).
  destruct (restore_home (homes_path root) u new w1) as [r2 w2] eqn:Er.
  assert (w' = w2) as ->.
  { unfold mbind, io_bind in H. rewrite Er in H. by destruct r2; injection H as _ <-. }
  assert (Hre : rearranges (fun _ => False) d0 w1 w2).
  { eapply restore_home_run; [|exact Er]. rewrite Hr1. by intros d [= <-]. }
  destruct Hor as [Hx|Hx]; [left|right];
    by destruct (has_account_rearranges _ d0 w1 w2 (master_path root) _ _ Hre Hap1 (fun x => x) Hx).
Qed.

(** The file names the old account, or the new one after the password was
    checked. *)
Definition old_or_new (w' : world) (root : list pystr) (u h : pystr) (current username : pyval) : Prop :=
  has_account w' (master_path root) u h \/
  (verify_password current (PStr h) = Ok true /\
   exists new h', canonicalize_username username = Ok new /\ has_account w' (master_path root) new h').

(** What a change that reports success has done. *)
Definition changed_user (w w' : world) (root : list pystr) (u h : pystr) (current username : pyval)
    (new_password : pystr) (result : pystr * pystr * bool) : Prop :=
  let '(old, new, changed) := result in
  old = u /\ canonicalize_username username = Ok new /\ verify_password current (PStr h) = Ok true /\
  changed = negb (bool_decide (new_password = [])) /\
  (exists h', has_account w' (master_path root) new h' /\
     if changed then exists wa wb, hash_password (PStr new_password) wa = (Ok h', wb) else h' = h) /\
  (new = u \/ exists d0 i, reach w root_ino (homes_path root) = Some d0 /\
     child w d0 u = Some i /\ child w' d0 new = Some i).

(** The home is moved when the name changes. *)
Lemma move_part root u h new w r w' : placed w root u h ->
  (if negb (str_eqb new u) then move_home (homes_path root) u new else mret tt) w = (r, w') ->
  has_account w' (master_path root) u h /\
  (r = Ok tt -> negb (str_eqb new u) = true -> exists d0 i n, way w' root d0 /\
     reach w root_ino (homes_path root) = Some d0 /\ child w d0 u = Some i /\ child w' d0 new = Some i /\
     w_nodes w' !! i = Some n /\ isdir n = true).
Proof.
  intros [Ha Hp] H. destruct (str_eqb new u) eqn:E; cbn [negb] in *; [injection H as <- <-; done|].
  assert (Hor : exists d0, (forall d, reach w root_ino (homes_path root) = Some d -> d = d0) /\
    (reach w root_ino (homes_path root) = Some d0 \/ reach w root_ino (homes_path root) = None)).
  { destruct (reach w root_ino (homes_path root)) as [d|]; [exists d; split; [by intros ? [= <-]|by left]|].
    exists (fresh_ino w). split; [done|by right]. }
  destruct Hor as (d0 & Huniq & Hor).
  pose proof (move_home_run (fun _ => False) _ _ _ _ _ _ d0 Huniq H) as Hre. destruct Hor as [Hr|Hr].
  - pose proof (Hp d0 Hr) as Hw. split.
    + by destruct (has_account_rearranges _ d0 w w' (master_path root) u h Hre (proj1 (proj2 Hw)) (fun x => x) Ha).
    + intros -> _. pose proof (way_rearranges _ _ _ _ _ _ _ Hre Ha Hw) as Hw'.
      apply move_home_Ok in H as (d & i & n & Hd & Hc & Hi & Hn & Hc'); [|intros ->; by rewrite str_eqb_refl in E].
      rewrite Hr in Hd. injection Hd as <-. destruct (re_node _ _ _ _ Hre i n Hi) as (n' & Hn' & Hdir & _).
      exists d0, i, n'. unfold isdir in *. rewrite Hdir. done.
  - destruct (_open_secure_directory false None false (homes_path root) w) as [[d|e] w1] eqn:Hdir.
    { exfalso. pose proof (io_pres_run _ _ _ _ _ (secure_directory_still None false _) Hdir) as Hs.
      apply secure_directory_run in Hdir as [_ Hd]. destruct (Hd d eq_refl) as [Hx _].
      rewrite (reach_nodes w w1) in Hx by done. congruence. }
    unfold move_home in H. rewrite (io_bind_exc _ _ _ _ _ Hdir) in H. injection H as <- <-. split; [|done].
    eapply (has_account_keeps (fun _ => False)); [|tauto|done].
    by apply same_keeps, (io_pres_run _ _ _ _ _ (secure_directory_still None false _) Hdir).
Qed.

(** C7: a change of user or password is all or nothing for the account: wherever it
    fails, the credential file names the old user with the old hash or, once the
    current password was checked, the new user with a valid hash; when it reports
    success, the current password was right, the file names the new user with the
    old hash or a hash of the new password, and the home is under the new name. *)
Theorem change_user_outcome root current username new_password w r w' u h :
  placed w (comps_of root) u h ->
  change_user root current username new_password w = (r, w') ->
  match r with
  | Ok result => changed_user w w' (comps_of root) u h current username new_password result
  | Exc _ => old_or_new w' (comps_of root) u h current username
  end.
Proof.
  intros Hp H. unfold change_user in H. set (rt := comps_of root) in *.
  destruct (check_root rt w) as [[t|e] w1] eqn:E1;
    pose proof (placed_still _ _ rt u h (io_pres_run _ _ _ _ _ (check_root_still rt) E1) Hp) as Hp1.
  2: { rewrite (io_bind_exc _ _ _ _ _ E1) in H. injection H as <- <-. left. apply Hp1. }
  rewrite (io_bind_run _ _ _ _ _ E1) in H.
  destruct (read_credentials (master_path rt) w1) as [[[u1 h1]|e] w2] eqn:E2;
    pose proof (io_pres_run _ _ _ _ _ (read_credentials_still _) E2) as Hs2;
    pose proof (placed_still _ _ rt u h Hs2 Hp1) as Hp2.
  2: { rewrite (io_bind_exc _ _ _ _ _ E2) in H. injection H as <- <-. left. apply Hp2. }
  destruct (has_account_unique _ _ _ _ _ _ (proj1 Hp1) (read_credentials_Ok _ _ _ _ _ E2)) as [<- <-].
  rewrite (io_bind_run _ _ _ _ _ E2) in H.
  destruct (verify_password current (PStr h)) as [[|]|e] eqn:Hv.
  2, 3: injection H as <- <-; left; apply Hp2.
  rewrite (io_bind_run _ _ w2 true w2), (io_bind_run _ _ w2 tt w2) in H by done.
  destruct (canonicalize_username username) as [new|e] eqn:Hu; [|injection H as <- <-; left; apply Hp2].
  rewrite (io_bind_run _ _ w2 new w2) in H by done.
  destruct ((if negb (bool_decide (new_password = [])) then hash_password (PStr new_password) else mret h) w2)
    as [[h'|e] w3] eqn:E3;
    (assert (Hs3 : same_nodes w2 w3)
      by (destruct (negb _); [exact (io_pres_run _ _ _ _ _ (hash_password_still _) E3)|by injection E3 as _ <-]));
    pose proof (placed_still _ _ rt u h Hs3 Hp2) as Hp3.
  2: { rewrite (io_bind_exc _ _ _ _ _ E3) in H. injection H as <- <-. left. apply Hp3. }
  rewrite (io_bind_run _ _ _ _ _ E3) in H.
  destruct ((if negb (str_eqb new u) then move_home (homes_path rt) u new else mret tt) w3) as [r4 w4] eqn:E4.
  destruct (move_part rt u h new w3 r4 w4 Hp3 E4) as [Ha4 Hmoved].
  destruct r4 as [[]|e].
  2: { rewrite (io_bind_exc _ _ _ _ _ E4) in H. injection H as <- <-. by left. }
  rewrite (io_bind_run _ _ _ _ _ E4) in H. specialize (Hmoved eq_refl).
  destruct (on_error (atomic_write_credentials (master_path rt) (PStr new) h')
    (if negb (str_eqb new u) then restore_home (homes_path rt) u new else mret tt) w4) as [r5 w5] eqn:E5.
  assert (Hend := replace_account_run rt u h new _ h' w4 r5 w5 Ha4
    ltac:(intros Hm; destruct (Hmoved Hm) as (d0 & i & n & ? & _); by exists d0) (canonicalize_inv _ _ Hu) E5).
  destruct r5 as [t5|e].
  2: { rewrite (io_bind_exc _ _ _ _ _ E5) in H. injection H as <- <-. destruct Hend; [by left|].
       right. split; [done|]. by exists new, h'. }
  rewrite (io_bind_run _ _ _ _ _ E5) in H. injection H as <- <-. apply on_error_Ok in E5.
  pose proof (io_pres_run _ _ _ _ _ (write_credentials_kept _ _ _) E5) as Hkeep. destruct t5.
  apply write_credentials_Ok in E5 as (u' & Hu' & _ & Hnew).
  rewrite username_fixed in Hu' by by eapply canonicalize_inv. injection Hu' as <-.
  assert (Hs : same_nodes w w3) by (transitivity w1; [exact (io_pres_run _ _ _ _ _ (check_root_still rt) E1)|by transitivity w2]).
  do 4 (split; [done|]). split.
  - exists h'. split; [done|]. destruct (negb (bool_decide _)); [by exists w2, w3|by injection E3 as <- _].
  - destruct (str_eqb new u) eqn:En; [left; by apply str_eqb_eq|right].
    destruct (Hmoved eq_refl) as (d0 & i & n & _ & Hr & Hc & Hc' & Hi & Hn). exists d0, i.
    rewrite <- (reach_nodes w w3), <- (child_nodes w w3) by done. split; [done|]. split; [done|].
    eapply keeps_child; [exact Hkeep|exact Hc'|exact Hi|by right].
Qed.

End Operations.
End Account.
