(* ===== verification/RemovalSpec.v ===== *)
(** Removing the user: the credential goes before the home does, and nothing that
    fails on the way leaves a third outcome for the account. *)

From stdpp Require Import base gmap option list.
From Stdlib Require Import ZArith Lia Bool String.
From S2P Require Import Prelude PyFloat PyText PyVal PyJson PyFs PyPath Credential CredentialSpec BrokerFiles Broker.
From S2P Require Import PyFsFacts BrokerReadSpec BrokerWriteSpec BrokerStoreSpec LoginSpec AccountSpec.
Open Scope Z_scope.

(** ** Programs that only take entries away *)

Record shrinks (w w' : world) : Prop := {
  sh_node i n' : w_nodes w' !! i = Some n' -> exists n, w_nodes w !! i = Some n /\ isdir n = isdir n';
  sh_child d x i : child w' d x = Some i -> child w d x = Some i }.

#[export] Instance shrinks_preorder : PreOrder shrinks.
Proof.
  split.
  - intros w. split; [|done]. intros i n Hi. by exists n.
  - intros w1 w2 w3 [Hn1 Hc1] [Hn2 Hc2]. split; [|auto].
    intros i n Hi. destruct (Hn2 i n Hi) as (n2 & Hi2 & <-). by apply Hn1.
Qed.

Lemma same_shrinks w w' : same_nodes w w' -> shrinks w w'.
Proof.
  intros E. split; [|intros d x i; by rewrite (child_nodes w w')]. intros i n. rewrite E. by exists n.
Qed.

Lemma remove_entry_shrinks d x w : shrinks w (put_entry d x None w).
Proof.
  destruct (entries w d) as [es|] eqn:He.
  - split.
    + intros i n' Hi. destruct (decide (i = d)) as [->|Hne]; [|exists n'; by rewrite put_entry_nodes in Hi].
      apply entries_node in He as (n & Hn & Hk). exists n. split; [done|].
      destruct (put_entry_attrs w d x None n Hn) as (m & Hm & Hd & _). unfold isdir. congruence.
    + intros d' y i. rewrite (child_put_entry w d x None es) by done. by destruct (bool_decide _).
  - unfold put_entry. rewrite He. by destruct (w_nodes w !! d).
Qed.

Lemma reach_shrinks w w' d comps e : shrinks w w' -> reach w' d comps = Some e -> reach w d comps = Some e.
Proof.
  intros Hs. revert d. induction comps as [|c rest IH]; intros d H; simpl in *; [done|].
  destruct (child w' d c) as [i|] eqn:Hc; [|done]. cbn [mbind option_bind] in H.
  destruct (w_nodes w' !! i) as [n|] eqn:Hi; [|done]. cbn [mbind option_bind] in H.
  rewrite (sh_child _ _ Hs d c i Hc). cbn [mbind option_bind].
  destruct (sh_node _ _ Hs i n Hi) as (m & -> & Hd). cbn [mbind option_bind]. rewrite Hd.
  destruct (isdir n); [by apply IH|done].
Qed.

Lemma file_at_shrinks w w' path : shrinks w w' -> file_at w path = None -> file_at w' path = None.
Proof.
  intros Hs Hf. destruct (file_at w' path) as [n|] eqn:E; [|done]. exfalso. unfold file_at in *.
  destruct (reach w' root_ino _) as [d|] eqn:Hr; [|done]. cbn [mbind option_bind] in E.
  destruct (child w' d _) as [i|] eqn:Hc; [|done]. cbn [mbind option_bind] in E.
  rewrite (reach_shrinks w w' _ _ _ Hs Hr) in Hf. cbn [mbind option_bind] in Hf.
  rewrite (sh_child _ _ Hs d _ i Hc) in Hf. cbn [mbind option_bind] in Hf.
  destruct (sh_node _ _ Hs i n E) as (m & Hm & _). congruence.
Qed.

Lemma io_bind_assoc_run {A B C} (m : IO A) (f : IO B) (g : IO C) w a w1 :
  m w = (Ok a, w1) -> ((m ;; f) ;; g) w = (f ;; g) w1.
Proof. unfold mbind, io_bind. by intros ->. Qed.

Lemma raise_not_Ok {A} (m : IO unit) e w (a : A) w' : (m ;; raise e) w <> (Ok a, w').
Proof. unfold mbind, io_bind, raise. by destruct (m w) as [[|] ?]. Qed.

Section Removal.
Context {U : PyUnicode} {K : Kdf} {L : KdfLaws K} {OS : Os}.

Lemma shrinks_syscall {A} (f : fault -> world -> res A * world) :
  (forall x w, shrinks w (f x w).2) -> pres shrinks (syscall f).
Proof.
  intros Hf w. transitivity (step_tick w); [by apply same_shrinks|].
  unfold syscall. destruct (os_fault _); [apply Hf|done|apply Hf].
Qed.

Lemma shrinks_unlink d x : pres shrinks (os_unlink d x).
Proof. apply shrinks_syscall. intros _ w. unfold at_entry. repeat case_match; try done. apply remove_entry_shrinks. Qed.
Lemma shrinks_rmdir d x : pres shrinks (os_rmdir d x).
Proof. apply shrinks_syscall. intros _ w. unfold at_entry. repeat case_match; try done. apply remove_entry_shrinks. Qed.
Lemma shrinks_listdir d : pres shrinks (os_listdir d).
Proof. apply shrinks_syscall. intros _ w. by case_match. Qed.
Lemma shrinks_still {A} (m : IO A) : pres same_nodes m -> pres shrinks m.
Proof. intros H w. apply same_shrinks, H. Qed.

Lemma rmtree_shrinks d x : pres shrinks (rmtree d x).
Proof.
  intros w. unfold rmtree. generalize (S (size (w_nodes w))) as fuel. intros fuel. revert d x w.
  assert (H : forall d x, pres shrinks (rmtree_at fuel d x)); [|intros d x w; apply H].
  induction fuel as [|fuel IH]; intros d x; cbn [rmtree_at]; [apply io_pres_raise; typeclasses eauto|].
  apply io_pres_bind; [typeclasses eauto|apply shrinks_still; still|]. intros c.
  apply io_pres_bind; [typeclasses eauto| |intros; apply shrinks_rmdir].
  apply io_pres_finally; [typeclasses eauto| |apply shrinks_still; still].
  apply io_pres_bind; [typeclasses eauto|apply shrinks_listdir|]. intros names.
  induction names as [|y names IHn]; [apply io_pres_ret; typeclasses eauto|].
  apply io_pres_bind; [typeclasses eauto|apply shrinks_still; still|]. intros n.
  apply io_pres_bind; [typeclasses eauto| |intros; apply IHn].
  destruct (isdir n); [apply IH|apply shrinks_unlink].
Qed.

Lemma rmtree_path_shrinks comps x : pres shrinks (rmtree_path comps x).
Proof. intros w. unfold rmtree_path. destruct (reach w root_ino comps); [apply rmtree_shrinks|done]. Qed.

(** ** The credential file is gone *)

Definition removed (w : world) (path : list pystr) : Prop :=
  exists d, reach w root_ino (split_path path).1 = Some d /\ child w d (split_path path).2 = None.

Lemma removed_file w path : removed w path -> file_at w path = None.
Proof. intros (d & Hr & Hc). unfold file_at. rewrite Hr. cbn [mbind option_bind]. by rewrite Hc. Qed.

Lemma removed_nodes w w' path : same_nodes w w' -> removed w path -> removed w' path.
Proof. intros Hs (d & Hr & Hc). exists d. by rewrite (reach_nodes w w'), (child_nodes w w'). Qed.

Lemma os_unlink_run d x w r w' : os_unlink d x w = (r, w') ->
  match r with
  | Ok _ => child w' d x = None /\ keeps (fun y => y = x) w w'
  | Exc _ => same_nodes w w'
  end.
Proof.
  intros H. pose proof (io_pres_run _ _ _ _ _ (kept_unlink (fun y => y = x) d x eq_refl) H) as Hk.
  unfold os_unlink, syscall in H. destruct (os_fault _); [|by injection H as <- <-|].
  all: unfold at_entry in H; rewrite child_tick in H; destruct (child w d x) as [i|] eqn:Hc;
    [|by destruct (entries _ d); injection H as <- <-].
  all: destruct (w_nodes (step_tick w) !! i) as [m|]; [|by injection H as <- <-].
  all: destruct (isdir m); [by injection H as <- <-|]; injection H as <- <-; split; [|done].
  all: rewrite child_entries in Hc; destruct (entries w d) as [es|] eqn:He; [|done].
  all: rewrite (child_put_entry _ d x None es) by done; by rewrite bool_decide_eq_true_2.
Qed.

(** A rename elsewhere brings nothing back. *)
Lemma removed_rename w d0 src dst r w' path : apart w path d0 -> removed w path ->
  os_rename d0 src dst w = (r, w') -> removed w' path /\ apart w' path d0.
Proof.
  intros [Hl Hp] (d & Hr & Hc) H.
  pose proof (io_pres_run _ _ _ _ _ (rename_rearranges (fun _ => True) d0 src dst) H) as Hre.
  destruct (reach_rearranges _ d0 w w' root_ino _ d Hre Hl Hr) as [Hr' Hl'].
  assert (Hother : child w' d (split_path path).2 = child w d (split_path path).2).
  { pose proof (Hp d Hr) as Hne. clear -H Hne. unfold os_rename, syscall in H.
    destruct (os_fault _); [|by injection H as _ <-|].
    all: unfold at_entry in H; repeat case_match; injection H as _ <-; try done.
    all: unfold child, PyFs.entries; by rewrite !put_entry_nodes by done. }
  split; [exists d; by rewrite Hr', Hother|]. split; [by rewrite Hl'|]. rewrite Hr'. intros e [= <-]. by apply Hp.
Qed.

(** The account is what it was, or its file is gone. *)
Definition kept_or_removed (w : world) (path : list pystr) (u h : pystr) (d0 : ino) : Prop :=
  apart w path d0 /\ (has_account w path u h \/ removed w path).

Lemma apart_nodes w w' path d0 : same_nodes w w' -> apart w path d0 -> apart w' path d0.
Proof. intros Hs [H1 H2]. unfold apart. by rewrite (looks_nodes w w'), (reach_nodes w w'). Qed.

Lemma kept_or_removed_nodes w w' path u h d0 : same_nodes w w' ->
  kept_or_removed w path u h d0 -> kept_or_removed w' path u h d0.
Proof.
  intros Hs [Ha Hor]. split; [by apply (apart_nodes w)|]. destruct Hor as [H|H]; [left|right; by apply (removed_nodes w)].
  eapply (has_account_keeps (fun _ => False)); [by apply same_keeps|tauto|done].
Qed.

Lemma kept_or_removed_rename w d0 src dst r w' path u h :
  kept_or_removed w path u h d0 -> os_rename d0 src dst w = (r, w') -> kept_or_removed w' path u h d0.
Proof.
  intros [Hap [Ha|Hr]] H.
  - pose proof (io_pres_run _ _ _ _ _ (rename_rearranges (fun _ => False) d0 src dst) H) as Hre.
    destruct (has_account_rearranges _ d0 w w' path u h Hre Hap (fun x => x) Ha) as [? ?]. split; [done|by left].
  - destruct (removed_rename w d0 src dst r w' path Hap Hr H) as [? ?]. split; [done|by right].
Qed.

(** The restoring rename and its [fsync]. *)
Lemma restore_run {A} (e : exn) w d0 src dst (r : res A) w' path u h : kept_or_removed w path u h d0 ->
  ((os_rename d0 src dst ;; os_fsync d0) ;; raise e) w = (r, w') -> kept_or_removed w' path u h d0.
Proof.
  intros Hk H. destruct (os_rename d0 src dst w) as [r1 w1] eqn:E1.
  pose proof (kept_or_removed_rename _ _ _ _ _ _ _ _ _ Hk E1) as Hk1. destruct r1 as [[]|e1].
  - destruct (os_fsync d0 w1) as [r2 w2] eqn:E2.
    assert (w' = w2) as ->.
    { rewrite (io_bind_assoc_run _ _ _ _ _ _ E1) in H. unfold mbind, io_bind in H. rewrite E2 in H. by destruct r2; injection H. }
    apply (kept_or_removed_nodes w1); [|done]. exact (io_pres_run _ _ _ _ _ (still_fsync d0) E2).
  - assert (w' = w1) as ->; [|done]. unfold mbind, io_bind in H. rewrite E1 in H. by injection H.
Qed.

Lemma unlink_credential_run w d0 path q a r w' u h : has_account w path u h -> apart w path d0 ->
  unlink_credential d0 path q a w = (r, w') ->
  kept_or_removed w' path u h d0 /\ (r = Ok tt -> removed w' path).
Proof.
  intros Ha Hap H. unfold unlink_credential in H. destruct (split_path path) as [parent name] eqn:Ep.
  destruct (_open_secure_directory false None false parent w) as [[d|e] w1] eqn:Hdir;
    pose proof (io_pres_run _ _ _ _ _ (secure_directory_still None false parent) Hdir) as Hs;
    pose proof (kept_or_removed_nodes w w1 path u h d0 Hs (conj Hap (or_introl Ha))) as Hk1.
  2: { rewrite (io_bind_exc _ _ _ _ _ Hdir) in H. injection H as <- <-. done. }
  pose proof Hdir as [_ Hr]%secure_directory_run. destruct (Hr d eq_refl) as [Hreach _].
  rewrite (io_bind_run _ _ _ _ _ Hdir) in H. unfold finally in H.
  destruct (on_error (os_unlink d name ;; os_fsync d) (os_rename d0 q a ;; os_fsync d0) w1) as [r2 w2] eqn:E2.
  cbn in H. injection H as <- <-.
  assert (Hgoal : kept_or_removed w2 path u h d0 /\ (r2 = Ok tt -> removed w2 path)).
  2: { split; [apply (kept_or_removed_nodes w2); [done|apply Hgoal]|].
       intros E. apply (removed_nodes w2); [done|by apply Hgoal]. }
  clear Ha Hap Hs Hdir Hr w. unfold on_error, try_io in E2.
  destruct (os_unlink d name w1) as [ru wu] eqn:Eu. pose proof (os_unlink_run _ _ _ _ _ Eu) as Hu.
  destruct ru as [[]|eu].
  - destruct Hu as [Hnone Hkeep]. rewrite (io_bind_run _ _ _ _ _ Eu) in E2.
    destruct Hk1 as [[Hl Hp] _].
    assert (Hru : removed wu path) by (exists d; rewrite Ep; split; [by eapply reach_keeps|done]).
    assert (Hku : kept_or_removed wu path u h d0).
    { split; [|by right]. rewrite Ep in *. cbn [fst snd] in *.
      destruct (reach_rearranges _ d0 w1 wu root_ino parent d (keeps_rearranges _ d0 _ _ Hkeep) Hl Hreach) as [Hr' Hl'].
      unfold apart. rewrite Ep. cbn [fst]. rewrite Hl', Hr'. split; [done|]. intros x [= <-]. by apply Hp. }
    destruct (os_fsync d wu) as [rf wf] eqn:Ef. pose proof (io_pres_run _ _ _ _ _ (still_fsync d) Ef) as Hsf.
    pose proof (kept_or_removed_nodes _ _ _ _ _ _ Hsf Hku) as Hkf. destruct rf as [[]|ef].
    + injection E2 as <- <-. split; [done|]. intros _. by apply (removed_nodes wu).
    + split; [by eapply restore_run|]. intros ->. by apply raise_not_Ok in E2.
  - rewrite (io_bind_exc _ _ _ _ _ Eu) in E2. split; [|intros ->; by apply raise_not_Ok in E2].
    eapply restore_run; [|exact E2]. by apply (kept_or_removed_nodes w1).
Qed.

(** The home is set aside, then the credential goes. *)
Lemma removal_part root u h d0 q w r w' :
  has_account w (master_path root) u h -> way w root d0 ->
  finally (check_home d0 u ;; os_rename d0 u q ;; os_fsync d0 ;; unlink_credential d0 (master_path root) q u)
    (os_close d0) w = (r, w') ->
  kept_or_removed w' (master_path root) u h d0 /\ (r = Ok tt -> removed w' (master_path root)).
Proof.
  intros Ha (_ & Hap & _) H. unfold finally in H.
  match type of H with (let '(r, w1) := ?m w in _) = _ => destruct (m w) as [r1 w1] eqn:E end.
  cbn in H. injection H as <- <-.
  assert (Hgoal : kept_or_removed w1 (master_path root) u h d0 /\ (r1 = Ok tt -> removed w1 (master_path root))).
  2: { split; [apply (kept_or_removed_nodes w1); [done|apply Hgoal]|].
       intros Er. apply (removed_nodes w1); [done|by apply Hgoal]. }
  assert (Hk : kept_or_removed w (master_path root) u h d0) by (split; [done|by left]).
  destruct (check_home d0 u w) as [[t|e] w2] eqn:E2;
    pose proof (io_pres_run _ _ _ _ _ (check_home_still d0 u) E2) as Hs2;
    pose proof (kept_or_removed_nodes _ _ _ _ _ _ Hs2 Hk) as Hk2.
  2: { rewrite (io_bind_exc _ _ _ _ _ E2) in E. by injection E as <- <-. }
  rewrite (io_bind_run _ _ _ _ _ E2) in E.
  destruct (os_rename d0 u q w2) as [r3 w3] eqn:E3.
  pose proof (io_pres_run _ _ _ _ _ (rename_rearranges (fun _ => False) d0 u q) E3) as Hre.
  destruct (has_account_rearranges _ d0 w2 w3 (master_path root) u h Hre (proj1 Hk2) (fun x => x)) as [Ha3 Hap3].
  { by eapply (has_account_keeps (fun _ => False)); [apply same_keeps; exact Hs2|tauto|]. }
  destruct r3 as [[]|e].
  2: { rewrite (io_bind_exc _ _ _ _ _ E3) in E. injection E as <- <-. split; [|done]. split; [done|by left]. }
  rewrite (io_bind_run _ _ _ _ _ E3) in E.
  destruct (os_fsync d0 w3) as [[t2|e] w4] eqn:E4; pose proof (io_pres_run _ _ _ _ _ (still_fsync d0) E4) as Hs4;
    pose proof (kept_or_removed_nodes _ _ _ _ _ _ Hs4 (conj Hap3 (or_introl Ha3))) as Hk4.
  2: { rewrite (io_bind_exc _ _ _ _ _ E4) in E. by injection E as <- <-. }
  rewrite (io_bind_run _ _ _ _ _ E4) in E. eapply unlink_credential_run; [|apply Hk4|exact E].
  eapply (has_account_keeps (fun _ => False)); [by apply same_keeps|tauto|done].
Qed.

(** C31: removing the user ends in one of two ways for the account: the credential
    file is as it was, or it is gone and the right password had been given for the
    active name; after success it is gone.  No failure, of the home's move, of the
    file's removal, of a restoring step or in the middle of the home's deletion,
    leaves a third. *)
Theorem remove_user_outcome root current username w r w' u h :
  placed w (comps_of root) u h -> remove_user root current username w = (r, w') ->
  let checked := canonicalize_username username = Ok u /\ verify_password current (PStr h) = Ok true in
  let gone := file_at w' (master_path (comps_of root)) = None in
  match r with
  | Ok x => x = u /\ checked /\ gone
  | Exc _ => has_account w' (master_path (comps_of root)) u h \/ (checked /\ gone)
  end.
Proof.
  intros Hp H. unfold remove_user in H. set (rt := comps_of root) in *. cbv zeta.
  destruct (check_root rt w) as [[t|e] w1] eqn:E1;
    pose proof (placed_still _ _ rt u h (io_pres_run _ _ _ _ _ (check_root_still rt) E1) Hp) as Hp1.
  2: { rewrite (io_bind_exc _ _ _ _ _ E1) in H. injection H as <- <-. left. apply Hp1. }
  rewrite (io_bind_run _ _ _ _ _ E1) in H.
  destruct (read_credentials (master_path rt) w1) as [[[u1 h1]|e] w2] eqn:E2;
    pose proof (placed_still _ _ rt u h (io_pres_run _ _ _ _ _ (read_credentials_still _) E2) Hp1) as Hp2.
  2: { rewrite (io_bind_exc _ _ _ _ _ E2) in H. injection H as <- <-. left. apply Hp2. }
  destruct (has_account_unique _ _ _ _ _ _ (proj1 Hp1) (read_credentials_Ok _ _ _ _ _ E2)) as [<- <-].
  rewrite (io_bind_run _ _ _ _ _ E2) in H.
  destruct (canonicalize_username username) as [u2|e] eqn:Hu; [|injection H as <- <-; left; apply Hp2].
  rewrite (io_bind_run _ _ w2 u2 w2) in H by done.
  destruct (str_eqb u2 u) eqn:Eu; [apply str_eqb_eq in Eu as ->|injection H as <- <-; left; apply Hp2].
  rewrite (io_bind_run _ _ w2 tt w2) in H by done.
  destruct (verify_password current (PStr h)) as [[|]|e] eqn:Hv; [|injection H as <- <-; left; apply Hp2..].
  rewrite (io_bind_run _ _ w2 true w2), (io_bind_run _ _ w2 tt w2) in H by done.
  destruct (os_urandom 12 w2) as [rt3 w3] eqn:E3.
  pose proof (placed_still _ _ rt u h (io_pres_run _ _ _ _ _ (still_urandom 12) E3) Hp2) as Hp3.
  injection E3 as <- Ew3. rewrite (io_bind_run _ _ w2 (os_entropy (w_tick w2) 12) w3) in H by (by rewrite <- Ew3).
  set (q := quarantine_name _) in H. clear Ew3 E1 E2 Hp Hp1 Hp2.
  destruct (_open_secure_directory false None false (homes_path rt) w3) as [[d0|e] w4] eqn:Hdir;
    pose proof (placed_still _ _ rt u h (io_pres_run _ _ _ _ _ (secure_directory_still None false _) Hdir) Hp3) as Hp4.
  2: { rewrite (io_bind_exc _ _ _ _ _ Hdir) in H. injection H as <- <-. left. apply Hp4. }
  rewrite (io_bind_run _ _ _ _ _ Hdir) in H. apply secure_directory_run in Hdir as [_ Hr].
  destruct (Hr d0 eq_refl) as [Hreach _]. clear Hr.
  match type of H with (?m ≫= _) w4 = _ => destruct (m w4) as [r5 w5] eqn:E5 end.
  destruct (removal_part rt u h d0 q w4 r5 w5 (proj1 Hp4) (proj2 Hp4 d0 Hreach) E5) as [[_ Hor] Hok].
  destruct r5 as [[]|e].
  - rewrite (io_bind_run _ _ _ _ _ E5) in H. specialize (Hok eq_refl).
    match type of H with (?m ≫= _) w5 = _ => destruct (m w5) as [r6 w6] eqn:E6 end.
    assert (Hgone : file_at w6 (master_path rt) = None).
    { apply (file_at_shrinks w5); [|by apply removed_file].
      refine (io_pres_run _ _ _ _ _ _ E6). pres_step; [apply rmtree_path_shrinks|pres_step]. }
    destruct r6 as [[]|e].
    + rewrite (io_bind_run _ _ _ _ _ E6) in H. injection H as <- <-. done.
    + rewrite (io_bind_exc _ _ _ _ _ E6) in H. injection H as <- <-. right. done.
  - rewrite (io_bind_exc _ _ _ _ _ E5) in H. injection H as <- <-. destruct Hor as [?|?]; [by left|right].
    split; [done|]. by apply removed_file.
Qed.

End Removal.
