(* ===== verification/LeakSpec.v ===== *)
(** Descriptors: how many a program leaves open, when it succeeds and when it
    raises, in every environment. *)

From stdpp Require Import base gmap option list.
From Stdlib Require Import ZArith Lia Bool String.
From S2P Require Import Prelude PyFloat PyText PyVal PyFs PyPath Credential BrokerFiles Limiter Broker PyFsFacts.
Open Scope Z_scope.

(** [m] leaves [k] more descriptors open when it returns, and [e] more when it
    raises. *)
Definition opens (k e : Z) {A} (m : IO A) : Prop := forall w,
  match m w with
  | (Ok _, w') => w_open w' = w_open w + k
  | (Exc _, w') => w_open w' = w_open w + e
  end.

Section Rules.
Context {A B : Type}.

Lemma opens_ret e (a : A) : opens 0 e (mret a).
Proof. intros w. simpl. lia. Qed.
Lemma opens_raise k x : opens k 0 (raise x : IO A).
Proof. intros w. simpl. lia. Qed.
Lemma opens_lift (r : res A) : opens 0 0 (lift r).
Proof. intros w. unfold lift. destruct r; lia. Qed.
Lemma opens_guard b x : opens 0 0 (guard_io b x).
Proof. intros w. unfold guard_io. destruct b; simpl; lia. Qed.

Lemma opens_bind k k' e (m : IO A) (f : A -> IO B) :
  opens k e m -> (forall a, opens k' (e - k) (f a)) -> opens (k + k') e (m ≫= f).
Proof.
  intros Hm Hf w. specialize (Hm w). unfold mbind, io_bind. destruct (m w) as [[a|x] w1]; [|done].
  specialize (Hf a w1). destruct (f a w1) as [[b|x] w2]; lia.
Qed.

(** A finaliser that does not raise, and one that opens and closes nothing. *)
Lemma opens_finally_close k e d i (m : IO A) `{OS : Os} :
  d = k -> opens d e m -> opens (k - 1) (e - 1) (finally m (os_close i)).
Proof. intros -> Hm w. specialize (Hm w). unfold finally. destruct (m w) as [[a|x] w1]; simpl; lia. Qed.

Lemma opens_finally (m : IO A) f : opens 0 0 m -> opens 0 0 f -> opens 0 0 (finally m f).
Proof.
  intros Hm Hf w. specialize (Hm w). unfold finally. destruct (m w) as [[a|x] w1];
    specialize (Hf w1); destruct (f w1) as [[u|y] w2]; lia.
Qed.

Lemma opens_try k e e' (m : IO A) h : opens k e m -> (forall x, opens (k - e) (e' - e) (h x)) -> opens k e' (try_io m h).
Proof.
  intros Hm Hh w. specialize (Hm w). unfold try_io. destruct (m w) as [[a|x] w1]; [done|].
  specialize (Hh x w1). destruct (h x w1) as [[b|y] w2]; lia.
Qed.

End Rules.

Lemma opens_on_error {A} k e d (m : IO A) f : opens k e m -> opens d d f -> opens k (e + d) (on_error m f).
Proof.
  intros Hm Hf. eapply opens_try; [exact Hm|]. intros x w. specialize (Hf w). unfold mbind, io_bind, raise.
  destruct (f w) as [[u|y] w1]; lia.
Qed.

Section Calls.
Context {OS : Os} {U : PyUnicode} {K : Kdf}.

Lemma opens_close e i : opens (-1) e (os_close i).
Proof. intros w. simpl. lia. Qed.

(** A call that opens [k] descriptors when it succeeds. *)
Lemma opens_syscall {A} k (f : fault -> world -> res A * world) : (forall x, opens k 0 (f x)) -> opens k 0 (syscall f).
Proof.
  intros Hf w. unfold syscall. destruct (os_fault (w_tick w)); [apply (Hf NoFault (step_tick w))|simpl; lia|apply (Hf (Short n) (step_tick w))].
Qed.

Lemma opens_entry {A} k d x (found : ino -> inode -> IO A) (missing : IO A) :
  (forall i n, opens k 0 (found i n)) -> opens k 0 missing ->
  opens k 0 (fun w => at_entry d x w (fun i n => found i n w) (missing w)).
Proof.
  intros Hf Hm w. unfold at_entry. destruct (child w d x) as [i|].
  - destruct (w_nodes w !! i) as [n|]; [apply Hf|lia].
  - destruct (entries w d); [apply Hm|lia].
Qed.

Lemma opens_inode {A} k i (f : inode -> IO A) : (forall n, opens k 0 (f n)) -> opens k 0 (on_inode i f).
Proof. intros Hf w. unfold on_inode. destruct (w_nodes w !! i) as [n|]; [apply Hf|lia]. Qed.

Lemma put_entry_open d x v w : w_open (put_entry d x v w) = w_open w.
Proof. unfold put_entry. destruct (w_nodes w !! d); [|done]. by destruct (entries w d). Qed.
Lemma create_open d x k mode w : w_open (create_at d x k mode w) = w_open w.
Proof. unfold create_at. by rewrite put_entry_open. Qed.

Ltac entry := apply opens_syscall; intros ? w; unfold at_entry, on_inode, opened; repeat case_match;
  cbn [w_open add_open set_nodes]; rewrite ?create_open, ?put_entry_open; simplify_eq; cbn [w_open add_open set_nodes];
  rewrite ?create_open, ?put_entry_open; lia.

Lemma opens_open_root : opens 1 0 os_open_root. Proof. entry. Qed.
Lemma opens_open_dir d x : opens 1 0 (os_open_dir d x). Proof. entry. Qed.
Lemma opens_open_read d x : opens 1 0 (os_open_read d x). Proof. entry. Qed.
Lemma opens_open_excl d x m : opens 1 0 (os_open_excl d x m). Proof. entry. Qed.
Lemma opens_open_rw d x m : opens 1 0 (os_open_rw d x m). Proof. entry. Qed.
Lemma opens_mkdir d x m : opens 0 0 (os_mkdir d x m). Proof. entry. Qed.
Lemma opens_fchmod i m : opens 0 0 (os_fchmod i m). Proof. entry. Qed.
Lemma opens_fchown i u g : opens 0 0 (os_fchown i u g). Proof. entry. Qed.
Lemma opens_fstat i : opens 0 0 (os_fstat i). Proof. entry. Qed.
Lemma opens_fsync i : opens 0 0 (os_fsync i). Proof. entry. Qed.
Lemma opens_flock i : opens 0 0 (os_flock i). Proof. entry. Qed.
Lemma opens_lstat d x : opens 0 0 (os_lstat d x). Proof. entry. Qed.
Lemma opens_read i o n : opens 0 0 (os_read i o n). Proof. entry. Qed.
Lemma opens_write i d : opens 0 0 (os_write i d). Proof. entry. Qed.
Lemma opens_rename d x y : opens 0 0 (os_rename d x y). Proof. entry. Qed.
Lemma opens_unlink d x : opens 0 0 (os_unlink d x). Proof. entry. Qed.
Lemma opens_rmdir d x : opens 0 0 (os_rmdir d x). Proof. entry. Qed.
Lemma opens_listdir d : opens 0 0 (os_listdir d). Proof. entry. Qed.
Lemma opens_time : opens 0 0 os_time. Proof. intros w. simpl. lia. Qed.
Lemma opens_urandom n : opens 0 0 (os_urandom n). Proof. intros w. simpl. lia. Qed.

End Calls.

Create HintDb opens.
#[export] Hint Resolve opens_mkdir opens_fchmod opens_fchown opens_fstat opens_fsync opens_flock opens_lstat opens_read
  opens_write opens_rename opens_unlink opens_rmdir opens_listdir opens_time opens_urandom : opens.

(** Programs made of calls that open nothing. *)
Ltac znorm :=
  lazymatch goal with
  | |- @opens ?k ?e ?A ?m =>
      let k' := eval vm_compute in k in let e' := eval vm_compute in e in change (@opens k' e' A m)
  end.
Ltac even_step :=
  znorm; lazymatch goal with
  | |- opens 0 0 (mret _) => apply opens_ret
  | |- opens 0 0 (raise _) => apply opens_raise
  | |- opens 0 0 (lift _) => apply opens_lift
  | |- opens 0 0 (guard_io _ _) => apply opens_guard
  | |- opens 0 0 (_ ≫= _) => apply (opens_bind 0 0 0); [|intros ?]
  | |- opens 0 0 (try_io _ _) => apply (opens_try 0 0 0); [|intros ?]
  | |- opens 0 0 (on_error _ _) => apply (opens_on_error 0 0 0)
  | |- opens 0 0 (finally _ _) => apply opens_finally
  | |- opens 0 0 (if ?b then _ else _) => destruct b
  | |- opens 0 0 (match ?x with _ => _ end) => destruct x
  end.
Ltac even := repeat (even_step || (znorm; progress eauto with opens)).

Section Broker.
Context {OS : Os} {U : PyUnicode} {K : Kdf}.

(** Open something, then a program that closes it. *)
Lemma opens_with {A B} (m : IO A) (f : A -> IO B) : opens 1 0 m -> (forall a, opens (-1) (-1) (f a)) -> opens 0 0 (m ≫= f).
Proof. intros Hm Hf. apply (opens_bind 1 (-1) 0); [exact Hm|exact Hf]. Qed.

(** Use a descriptor, close it whatever happens. *)
Lemma opens_use {A} i (m : IO A) : opens 0 0 m -> opens (-1) (-1) (finally m (os_close i)).
Proof. intros H. by apply (opens_finally_close 0 0 0). Qed.

Lemma secure_directory_opens create fm repair comps : opens 1 0 (_open_secure_directory create fm repair comps).
Proof.
  unfold _open_secure_directory. apply (opens_bind 1 0 0); [apply opens_open_root|]. intros d0.
  apply (opens_bind 0 0 (0 - 1)).
  - generalize false. intros b. revert d0 b. induction comps as [|c rest IH]; intros d b; cbn [open_components].
    { apply opens_ret. }
    apply (opens_bind 0 0 (0 - 1)); [|intros [i m]; apply IH].
    unfold open_step. apply (opens_bind 1 (-1) (0 - 1)).
    + apply (opens_on_error 1 0 (-1)); [|apply opens_close].
      apply (opens_bind 0 1 0); [apply opens_guard|intros _].
      apply (opens_bind 0 1 0); [destruct create; unfold tolerate_exists; even|intros made].
      apply (opens_bind 1 0 0); [apply opens_open_dir|intros i; apply opens_ret].
    + intros r. apply (opens_bind (-1) 0 (0 - 1 - 1)); [apply opens_close|intros _; apply opens_ret].
  - intros [d final_created]. destruct fm as [mode|]; [|apply opens_ret]. destruct comps; [apply opens_ret|].
    destruct create; [|apply opens_ret]. apply (opens_bind 0 0 (0 - 1)); [|intros _; apply opens_ret].
    apply (opens_on_error 0 0 (-1)); [unfold settle_metadata; even|apply opens_close].
Qed.

Lemma read_chunks_even fuel fd off rem : opens 0 0 (read_chunks fuel fd off rem).
Proof. revert off rem. induction fuel as [|fuel IH]; intros off rem; cbn [read_chunks]; even. Qed.

Lemma write_all_even fuel fd data : opens 0 0 (write_all fuel fd data).
Proof. revert data. induction fuel as [|fuel IH]; intros [|b v]; cbn [write_all]; even. Qed.

Lemma read_regular_even d x m : opens 0 0 (_read_regular_at d x m).
Proof.
  unfold _read_regular_at. even_step; [even|]. apply opens_with; [apply opens_open_read|]. intros fd.
  apply opens_use. even_step; [even|]. even_step; [even|]. even_step; [|even].
  apply read_chunks_even.
Qed.

Lemma atomic_write_even d x data m : opens 0 0 (_atomic_write_at d x data m).
Proof.
  unfold _atomic_write_at, unlink_if_there. even_step; [even|]. even_step; [even|]. even_step; [|even].
  match goal with |- opens 0 0 (?a ≫= ?f) => change (opens (1 + -1) 0 (a ≫= f)) end.
  apply (opens_bind 1 (-1) 0); [apply opens_open_excl|]. intros fd.
  apply (opens_bind (-1) 0 (0 - 1)); [|intros _; even].
  apply opens_use. even_step; [even|]. even_step; [|even].
  apply write_all_even.
Qed.

End Broker.

#[export] Hint Resolve secure_directory_opens opens_open_dir : openers.
#[export] Hint Resolve read_regular_even atomic_write_even : opens.

(** Open a directory, use it, close it. *)
Ltac used := apply opens_with; [first [apply secure_directory_opens|apply opens_open_dir]|intros ?; apply opens_use].

Section Operations.
Context {OS : Os} {U : PyUnicode} {K : Kdf}.

Lemma read_credentials_even path : opens 0 0 (read_credentials path).
Proof.
  unfold read_credentials. destruct (split_path path) as [parent name].
  apply opens_with; [apply secure_directory_opens|]. intros d.
  apply (opens_bind (-1) 0 (-1)); [by apply opens_use; even|]. intros [data n]. even.
Qed.

Lemma write_credentials_even path u h : opens 0 0 (atomic_write_credentials path u h).
Proof.
  unfold atomic_write_credentials. destruct (split_path path) as [parent name]. even_step; [even|]. even_step; [even|].
  used. even.
Qed.

Lemma read_record_even master name : opens 0 0 (read_record master name).
Proof. unfold read_record. used. even. Qed.

Lemma now_int_even now : opens 0 0 (now_int now).
Proof. unfold now_int. even. Qed.

Lemma validate_even master tok action now : opens 0 0 (validate_recovery_authorization master tok action now).
Proof. unfold validate_recovery_authorization. pose proof now_int_even. pose proof read_record_even. even. Qed.

Lemma digest_even master tok action now b : opens 0 0 (recovery_authorization_digest master tok action now b).
Proof.
  unfold recovery_authorization_digest. pose proof now_int_even. even_step; [apply validate_even|]. even_step; [even|].
  even_step; [even|]. destruct b as [v|]; [|even]. cbv zeta. even_step; [even|].
  apply opens_with; [apply secure_directory_opens|]. intros dir.
  apply (opens_bind (-1) 0 (-1)); [apply opens_use; even|intros; even].
Qed.

Lemma store_secret_even service secret directory : opens 0 0 (store_service_secret service secret directory).
Proof. unfold store_service_secret. do 2 (even_step; [even|]). used. even. Qed.

Lemma load_secret_even service directory : opens 0 0 (load_service_secret service directory).
Proof.
  unfold load_service_secret. even_step; [even|]. apply opens_with; [apply secure_directory_opens|]. intros d.
  apply (opens_bind (-1) 0 (-1)); [by apply opens_use; even|]. intros [data n]. even.
Qed.

Lemma delete_secret_even service directory : opens 0 0 (delete_service_secret service directory).
Proof. unfold delete_service_secret. even_step; [even|]. used. even. Qed.

Lemma check_root_even root : opens 0 0 (check_root root).
Proof.
  unfold check_root. apply opens_with; [apply secure_directory_opens|]. intros d. apply opens_close.
Qed.

Lemma check_home_even base user : opens 0 0 (check_home base user).
Proof.
  unfold check_home. apply opens_with; [|intros; apply opens_use; even]. unfold _open_child_directory.
  do 2 (apply (opens_bind 0 1 0); [even|intros _]). apply (opens_bind 1 0 0); [apply opens_open_dir|intros c].
  apply (opens_bind 0 0 (0 - 1)); intros; apply opens_ret.
Qed.

Lemma hash_password_even pw : opens 0 0 (hash_password pw).
Proof. unfold hash_password. even. Qed.

Lemma move_home_even homes old new : opens 0 0 (move_home homes old new).
Proof. unfold move_home. pose proof check_home_even. used. even. Qed.

Lemma restore_home_even homes old new : opens 0 0 (restore_home homes old new).
Proof. unfold restore_home. used. even. Qed.

Lemma unlink_credential_even base path q a : opens 0 0 (unlink_credential base path q a).
Proof. unfold unlink_credential. destruct (split_path path). used. even. Qed.

Lemma rmtree_at_even fuel d x : opens 0 0 (rmtree_at fuel d x).
Proof.
  revert d x. induction fuel as [|fuel IH]; intros d x; cbn [rmtree_at]; [even|].
  apply (opens_bind 1 (-1) 0); [apply opens_open_dir|]. intros c.
  apply (opens_bind (-1) 0 (0 - 1)); [|intros; even].
  apply opens_use. even_step; [even|]. induction a as [|y names IHn]; [even|].
  even_step; [even|]. even_step; [even|exact IHn].
Qed.

Lemma rmtree_path_even comps x : opens 0 0 (rmtree_path comps x).
Proof.
  intros w. unfold rmtree_path, rmtree. destruct (reach w root_ino comps) as [d|]; [apply rmtree_at_even|simpl; lia].
Qed.

End Operations.

#[export] Hint Resolve read_credentials_even write_credentials_even validate_even check_root_even hash_password_even
  move_home_even restore_home_even unlink_credential_even check_home_even rmtree_path_even : opens.

Section Leaks.
Context {OS : Os} {U : PyUnicode} {K : Kdf}.

(** Reading and writing the credentials, changing and removing the user, using
    recovery authorizations and service secrets leave as many descriptors open as
    there were, whether they succeed or raise and wherever a call fails. *)
Theorem descriptors_balanced path root current username new_password stored master tok action now b service secret directory :
  opens 0 0 (read_credentials path) /\ opens 0 0 (atomic_write_credentials path username stored) /\
  opens 0 0 (change_user root current username new_password) /\ opens 0 0 (remove_user root current username) /\
  opens 0 0 (validate_recovery_authorization master tok action now) /\
  opens 0 0 (recovery_authorization_digest master tok action now b) /\
  opens 0 0 (store_service_secret service secret directory) /\ opens 0 0 (load_service_secret service directory) /\
  opens 0 0 (delete_service_secret service directory).
Proof.
  split_and!; eauto using digest_even, store_secret_even, load_secret_even, delete_secret_even with opens.
  - unfold change_user. even.
  - unfold remove_user. do 2 (even_step; [even|]). destruct a0 as [u h]. do 5 (even_step; [even|]). cbv zeta.
    apply opens_with; [apply secure_directory_opens|]. intros base.
    apply (opens_bind (-1) 0 (-1)); [apply opens_use; even|intros; even].
Qed.

End Leaks.
