(* ===== verification/BrokerDemo.v ===== *)
(** The broker at work: a small file system, a key derivation and an environment
    that satisfy the assumptions, and the theorems applied to runs on them. *)

From stdpp Require Import base gmap option list.
From Stdlib Require Import ZArith Lia Bool String SpecFloat.
From S2P Require Import Prelude PyFloat PyText PyVal PyJson PyStr PyFs PyPath PyB64 Credential CredentialSpec.
From S2P Require Import BrokerFiles Limiter Broker PyFsFacts BrokerReadSpec BrokerWriteSpec BrokerStoreSpec LimiterSpec.
From S2P Require Import LoginSpec RecoverySpec AccountSpec RemovalSpec.
Open Scope Z_scope.

(** ** Instances *)

(** The first 32 values as bytes, padded. *)
Definition toy_digest (b : bytes) : bytes :=
  List.map (fun c => c mod 256) (take 32 (b ++ repeat 0 32)).

#[local] Instance toy_kdf : Kdf := {|
  nfkc := fun s => s;
  argon2id_hash_raw := Some (fun t m p pw salt => (0, toy_digest (pw ++ salt)));
  scrypt := fun pw salt n r p => Ok (toy_digest (pw ++ salt));
  pbkdf2_hmac := fun pw salt n => toy_digest (pw ++ salt);
  sha256hex := fun b => hex_of (toy_digest b) |}.

Lemma toy_digest_ok b : digest_ok (toy_digest b).
Proof.
  split.
  - unfold toy_digest, bytes_ok. apply List.Forall_forall. intros x (y & <- & _)%List.in_map_iff.
    apply Z.mod_pos_bound. lia.
  - unfold toy_digest, zlen. rewrite length_map, length_take, length_app, repeat_length. lia.
Qed.

#[local] Existing Instance ascii_unicode.

#[local] Instance toy_os : Os := {|
  os_fault := fun _ => NoFault; os_clock := fun _ => fround 1000 0; os_entropy := fun k n => repeat (Z.of_nat k mod 256) n;
  os_pid := 7; os_euid := 0; os_egid := 0; os_umask := 18; os_cwd := [47] |}.

Definition dir_node (es : gmap pystr ino) : inode := mkinode (KDir es) mode_700 0 0.

Definition bob_hash : pystr := argon2_text (repeat 9 16) (toy_digest (lit "open sesame" ++ repeat 9 16)).

(** [/the one/master/master.txt] and the home [/master/bob]. *)
Definition toy_world : world := mkworld
  (list_to_map [
    (0%nat, dir_node (list_to_map [(lit "the one", 1%nat); (lit "master", 4%nat)]));
    (1%nat, dir_node (list_to_map [(lit "master", 2%nat)]));
    (2%nat, dir_node (list_to_map [(lit "master.txt", 3%nat)]));
    (3%nat, mkinode (KFile (credential_line (lit "bob") bob_hash)) mode_600 0 0);
    (4%nat, dir_node (list_to_map [(lit "bob", 5%nat)]));
    (5%nat, dir_node ∅)]) 0 0.

Definition toy_rate : list pystr := [lit "state"; lit "attempts.json"].

Lemma hex_of_text l : bytes_ok l -> forallb is_lower_hex (hex_of l) = true /\ zlen (hex_of l) = 2 * zlen l.
Proof.
  induction 1 as [|b l Hb Hl [IH1 IH2]]; [done|]. unfold is_byte in Hb.
  assert (Hd : forall n, 0 <= n < 16 -> is_lower_hex (hex_digit n) = true).
  { intros n Hn. unfold hex_digit, is_lower_hex, ascii_digit. destruct (n <? 10) eqn:E; lia. }
  change (hex_of (b :: l)) with ([hex_digit (b / 16); hex_digit (b mod 16)] ++ hex_of l). split.
  - rewrite forallb_app, IH1. cbn [forallb]. rewrite !Hd; [done|apply Z.mod_pos_bound; lia|].
    split; [apply Z.div_pos; lia|apply Z.div_lt_upper_bound; lia].
  - rewrite zlen_app, IH2, !zlen_cons. change (zlen []) with 0. lia.
Qed.

#[local] Instance toy_kdf_laws : KdfLaws toy_kdf.
Proof.
  split; simpl.
  - done.
  - intros f t m p pw salt [= <-]. apply toy_digest_ok.
  - intros pw salt n r p d [= <-]. apply toy_digest_ok.
  - intros b. destruct (toy_digest_ok b) as [Hb Hl]. destruct (hex_of_text _ Hb) as [H1 H2]. split; [done|]. lia.
Qed.

#[local] Instance toy_os_laws : OsLaws toy_os.
Proof.
  split; simpl.
  - intros k n. apply repeat_length.
  - intros k n. apply List.Forall_forall. intros x ->%repeat_spec. apply Z.mod_pos_bound. lia.
Qed.

Lemma toy_calm : calm toy_os.
Proof. done. Qed.

(** The same environment, but the call number [k] fails. *)
Definition failing_at (k : nat) : Os := {|
  os_fault := fun n => if Nat.eqb n k then Fails else NoFault;
  os_clock := fun _ => fround 1000 0; os_entropy := fun k n => repeat (Z.of_nat k mod 256) n;
  os_pid := 7; os_euid := 0; os_egid := 0; os_umask := 18; os_cwd := [47] |}.

(** A run whose outcome is known. *)
Lemma ran {A} (m : IO A) w r : (m w).1 = r -> m w = (r, (m w).2).
Proof. intros <-. apply surjective_pairing. Qed.

Lemma ran_at {A} (m : IO A) w r w' : (m w).1 = r -> w' = (m w).2 -> m w = (r, w').
Proof. intros <- ->. apply surjective_pairing. Qed.

Ltac run H m w r := assert (H : m w = (r, (m w).2)) by (apply ran_at; [vm_compute; reflexivity|reflexivity]).

Lemma toy_path_ok : path_ok (master_path []).
Proof. by split; vm_compute. Qed.

Lemma toy_account : has_account toy_world (master_path []) (lit "bob") bob_hash.
Proof.
  exists (credential_line (lit "bob") bob_hash), (mkinode (KFile (credential_line (lit "bob") bob_hash)) mode_600 0 0).
  split; [|by vm_compute]. split; [apply toy_path_ok|]. split; [by vm_compute|]. split; [done|]. by vm_compute.
Qed.

Lemma toy_placed : placed toy_world [] (lit "bob") bob_hash.
Proof.
  split; [apply toy_account|]. intros d0 H. vm_compute in H. injection H as <-.
  split; [by vm_compute|]. split; [split|].
  - by apply (bool_decide_eq_true_1 (_ ∉ _)); vm_compute.
  - intros d H. vm_compute in H. by injection H as <-.
  - by apply (bool_decide_eq_true_1 (_ ∉ _)); vm_compute.
Qed.

(** A check for [closed], and for the absence of a name. *)
Definition all_entries (P : pystr -> ino -> bool) (w : world) : bool :=
  forallb (fun kv => match i_kind kv.2 with
    | KDir es => forallb (fun xi => P xi.1 xi.2) (map_to_list es)
    | _ => true end) (map_to_list (w_nodes w)).

Lemma all_entries_child P w d x i : all_entries P w = true -> child w d x = Some i -> P x i = true.
Proof.
  intros H Hc. rewrite child_entries in Hc. destruct (entries w d) as [es|] eqn:He; [|done].
  apply entries_node in He as (n & Hn & Hk).
  pose proof (proj1 (forallb_forall _ _) H (d, n)) as Hd. cbn [snd] in Hd. rewrite Hk in Hd.
  apply elem_of_map_to_list in Hn. apply list_elem_of_In in Hn. specialize (Hd Hn).
  apply elem_of_map_to_list in Hc. apply list_elem_of_In in Hc. exact (proj1 (forallb_forall _ _) Hd (x, i) Hc).
Qed.

Lemma toy_clean : clean toy_world toy_rate.
Proof.
  assert (H : all_entries (fun x i => bool_decide (is_Some (w_nodes toy_world !! i)) && negb (str_eqb x (lit "attempts.json")))
    toy_world = true) by by vm_compute.
  split.
  - intros d x i Hc. apply (all_entries_child _ _ _ _ _ H) in Hc. apply andb_true_iff in Hc as [Hc _].
    by apply bool_decide_eq_true in Hc.
  - intros d i n data Hc. apply (all_entries_child _ _ _ _ _ H) in Hc. apply andb_true_iff in Hc as [_ Hc].
    by vm_compute in Hc.
Qed.

(** ** Credentials *)

Lemma username_canonical_witness :
  canonicalize_username (PStr (lit " bob ")) = Ok (lit "bob") /\
  canonicalize_username (PStr (lit "bob")) = Ok (lit "bob").
Proof.
  assert (H : canonicalize_username (PStr (lit " bob ")) = Ok (lit "bob")) by by vm_compute.
  split; [exact H|]. apply (username_canonical _ _ H).
Defined.

Lemma parsed_within_policy_witness :
  policy (Argon2id 65536 3 1 (repeat 9 16) (toy_digest (lit "open sesame" ++ repeat 9 16))).
Proof. apply (parsed_within_policy (PStr bob_hash)). vm_compute. reflexivity. Defined.

Definition hash_made : pystr := match (hash_password (PStr (lit "open sesame")) toy_world).1 with Ok h => h | _ => [] end.

Lemma hash_then_verify_witness :
  validate_stored_hash (PStr hash_made) = true /\ verify_password (PStr (lit "open sesame")) (PStr hash_made) = Ok true.
Proof.
  run H (hash_password (PStr (lit "open sesame"))) toy_world (Ok hash_made : res pystr).
  destruct (hash_then_verify (PStr (lit "open sesame")) toy_world hash_made _ H) as (H1 & H2 & _). exact (conj H1 H2).
Defined.

(** The rename of the write fails: the old file is still there. *)
Lemma atomic_write_all_or_nothing_witness :
  let w' := (@_atomic_write_at (failing_at 5) 2%nat (lit "master.txt") (lit "text") mode_600 toy_world).2 in
  child w' 2%nat (lit "master.txt") = child toy_world 2%nat (lit "master.txt") \/
  written w' 2%nat (lit "master.txt") (lit "text") mode_600.
Proof.
  assert (H : exists es, entries toy_world 2%nat = Some es) by (eexists; vm_compute; reflexivity).
  exact (proj1 (@atomic_write_all_or_nothing (failing_at 5) 2%nat _ _ _ _ _ _ H (surjective_pairing _))).
Defined.

Lemma credentials_roundtrip_witness :
  exists w2, read_credentials (master_path [])
    (atomic_write_credentials (master_path []) (PStr (lit " alice ")) bob_hash toy_world).2 = (Ok (lit "alice", bob_hash), w2).
Proof.
  run H (atomic_write_credentials (master_path []) (PStr (lit " alice ")) bob_hash) toy_world (Ok tt : res unit).
  destruct (credentials_roundtrip toy_os toy_os _ _ _ _ _ H toy_calm) as (u & w2 & Hu & Hr).
  exists w2. replace (lit "alice") with u; [exact Hr|]. vm_compute in Hu. injection Hu as <-. reflexivity.
Defined.

(** ** The limiter *)

Definition attempt (t : Z) : IO (bool * pyfloat) := reserve toy_rate (lit "bob") (lit "lock") (Some (PInt t)).
Definition seconds (n : Z) : pyfloat := fround n 0.

(** Alice tries in between. *)
Definition alice_at (t : Z) (w : world) : world := (reserve toy_rate (lit "alice") (lit "lock") (Some (PInt t)) w).2.

Lemma toy_clock t last : fgt (fsub (seconds t) (seconds last)) DAY = false ->
  forallb (fun f => float_text_ok (fadd (seconds t) (backoff f))) [1; 2; 3; 4; 5; 6; 7; 8; 9; 10] = true ->
  float_text_ok (seconds t) = true -> good_clock (seconds t) (seconds last).
Proof.
  intros H1 H2 H3. split; [done|]. intros f Hf. split; [done|]. rewrite forallb_forall in H2. apply H2. cbn. lia.
Qed.

Lemma toy_meanwhile t w : py_float (PInt t) = Ok (seconds t) -> good_clock (seconds t) (seconds 100) -> meanwhile toy_rate (lit "bob") (lit "lock") (seconds 100) w (alice_at t w).
Proof.
  intros Ht H. eapply (mw_reserve _ _ _ _ toy_os (lit "alice") (lit "lock") (Some (PInt t))); [apply mw_start|vm_compute; discriminate| |apply surjective_pairing].
  intros t' w0 Hn. unfold now_float, lift in Hn. rewrite Ht in Hn. injection Hn as <- _. exact H.
Qed.




(** ** Login *)

Definition login_with (O : Os) (pw : string) (t : Z) (w : world) : res AuthenticationResult * world :=
  @authenticate_master _ O _ (master_path []) (PStr (lit pw)) (lit "lock") toy_rate (Some (PInt t)) true w.

Lemma login_sound_witness :
  exists h, has_account toy_world (master_path []) (lit "bob") h /\
    verify_password (PStr (lit "open sesame")) (PStr h) = Ok true.
Proof.
  assert (H : login_with toy_os "open sesame" 100 toy_world =
    (Ok (mkauth true (lit "bob") fzero false []), (login_with toy_os "open sesame" 100 toy_world).2))
    by (apply ran_at; [vm_compute; reflexivity|reflexivity]).
  destruct (login_sound (OS := toy_os) _ _ _ _ _ _ _ _ _ H) as (a & Ha & Hs).
  injection Ha as <-. destruct (Hs eq_refl) as (h & _ & _ & _ & Hacc & _ & _ & Hv). exists h. exact (conj Hacc Hv).
Defined.

Lemma toy_untouched : ~ touches toy_rate (split_path (master_path [])).2.
Proof. unfold touches. vm_compute. intros [H|H]; discriminate. Qed.

Lemma login_keeps_account_witness :
  let w' := (login_with (failing_at 20) "wrong" 100 toy_world).2 in
  has_account w' (master_path []) (lit "bob") bob_hash \/
  (verify_password (PStr (lit "wrong")) (PStr bob_hash) = Ok true /\
   rehashed (OS := failing_at 20) w' (master_path []) (lit "bob") bob_hash (PStr (lit "wrong"))).
Proof.
  exact (login_keeps_account (OS := failing_at 20) _ _ _ _ _ _ _ _ _ _ _ toy_untouched toy_account (surjective_pairing _)).
Defined.

Definition after_wrong : world := (login_with toy_os "wrong" 100 toy_world).2.
Definition refused (why : string) : AuthenticationResult := denied (lit "bob") (seconds 1) why.

Definition after_alice : world := alice_at 100 after_wrong.

Lemma account_after_alice : has_account after_alice (master_path []) (lit "bob") bob_hash.
Proof.
  exists (credential_line (lit "bob") bob_hash), (mkinode (KFile (credential_line (lit "bob") bob_hash)) mode_600 0 0).
  split; [|by vm_compute]. split; [apply toy_path_ok|]. split; [by vm_compute|]. split; [done|]. by vm_compute.
Qed.

(** The right password, while the pause lasts and after an attempt of another user. *)
Lemma login_throttled_witness :
  login_with toy_os "open sesame" 100 after_alice =
    (Ok (refused "rate-limited"), (login_with toy_os "open sesame" 100 after_alice).2) /\
  ok (refused "rate-limited") = false.
Proof.
  assert (H1 : login_with toy_os "wrong" 100 toy_world = (Ok (refused "invalid-credential"), after_wrong))
    by (apply ran_at; [vm_compute; reflexivity|reflexivity]).
  assert (H2 : login_with toy_os "open sesame" 100 after_alice =
    (Ok (refused "rate-limited"), (login_with toy_os "open sesame" 100 after_alice).2))
    by (apply ran_at; [vm_compute; reflexivity|reflexivity]).
  split; [exact H2|].
  destruct (login_throttled toy_os toy_os _ _ (PStr (lit "open sesame")) _ _ _ (Some (PInt 100)) _ true _ _ _ after_alice
    bob_hash (refused "rate-limited") (login_with toy_os "open sesame" 100 after_alice).2 toy_clean H1 eq_refl eq_refl) as (t1 & Ht & H).
  assert (t1 = seconds 100) as -> by (vm_compute in Ht; injection Ht as <-; reflexivity).
  apply H; [by split; vm_compute|apply toy_meanwhile; [by vm_compute|apply toy_clock; by vm_compute]|apply account_after_alice| |exact H2].
  intros t2 Ht2. assert (t2 = seconds 100) as -> by (vm_compute in Ht2; injection Ht2 as <-; reflexivity).
  vm_compute. reflexivity.
Defined.

(** A limiter file with 65 entries, which [_write] makes and [_load] refuses. *)
Definition full_entries : pydict :=
  List.map (fun k => (hex_of (toy_digest [Z.of_nat k]), entry_of 1 (seconds 101) (seconds 100))) (seq 0 65).
Definition full_state : pydict := [(lit "version", PInt 1); (lit "entries", PDict full_entries)].
Definition full_world : world := mkworld
  (list_to_map [
    (0%nat, dir_node (list_to_map [(lit "state", 1%nat)]));
    (1%nat, dir_node (list_to_map [(lit "attempts.json", 2%nat)]));
    (2%nat, mkinode (KFile (state_text full_state)) mode_600 0 0)]) 0 0.

Lemma full_limits : limits full_world toy_rate full_state full_entries.
Proof.
  split; [split; by vm_compute|]. exists (mkinode (KFile (state_text full_state)) mode_600 0 0).
  split; [by vm_compute|]. split; [reflexivity|]. by vm_compute.
Qed.

(** The limiter itself makes the entry too many. *)
Example limiter_overflows :
  match decide_attempt (seconds 100) (lit "key") (take 64 full_entries) with
  | Ok ((true, _), Some es) => zlen es = 65
  | _ => False
  end.
Proof. by vm_compute. Qed.

Lemma limiter_lockout_witness : exists e, (attempt 100000 full_world).1 = Exc e.
Proof.
  assert (Hm : MAX_ENTRIES < zlen full_entries) by (vm_compute; reflexivity).
  exact (proj1 (limiter_lockout toy_os _ _ _ _ _ _ _ _ _ full_limits Hm (surjective_pairing (attempt 100000 full_world)))).
Defined.

(** ** Recovery *)

Definition issue_run : IO IssuedAuthorization :=
  issue_recovery_authorization (master_path []) (PStr (lit "open sesame")) (lit "reset") (PInt 300) toy_rate (Some (PInt 1000)).
Definition issued : IssuedAuthorization :=
  match (issue_run toy_world).1 with Ok i => i | Exc _ => mkissued (refused "") [] end.
Definition after_issue : world := (issue_run toy_world).2.

(** Redeemed 200 seconds later. *)
Lemma recovery_roundtrip_witness :
  exists w2, validate_recovery_authorization (master_path []) (PStr (token issued)) (lit "reset") (Some (PInt 1200))
    after_issue = (Ok true, w2).
Proof.
  assert (H : issue_run toy_world = (Ok issued, after_issue)) by (apply ran_at; [vm_compute; reflexivity|reflexivity]).
  assert (Hok : ok (authentication issued) = true) by (vm_compute; reflexivity).
  destruct (recovery_roundtrip toy_os toy_os _ _ _ _ _ _ _ _ _ H Hok toy_calm) as (t & s & Ht & Hs & _ & Hv).
  assert (t = 1000) as -> by (vm_compute in Ht; injection Ht as <-; reflexivity).
  assert (s = 300) as -> by (vm_compute in Hs; injection Hs as <-; reflexivity).
  refine (Hv _ (lit "reset") (PInt 1200) 1200 _ _).
  - split; vm_compute; discriminate.
  - apply (bool_decide_eq_true_1 (_ ∈ _)). vm_compute. reflexivity.
  - vm_compute. reflexivity.
Defined.

Definition boot : pyval := PStr (lit "0f8fad5b-d9cb-469f-a165-70867728950e").
Definition redeem_run : IO pystr :=
  recovery_authorization_digest (master_path []) (PStr (token issued)) (lit "reset") (Some (PInt 1200)) (Some boot).
Definition digest : pystr := match (redeem_run after_issue).1 with Ok d => d | Exc _ => [] end.

Lemma recovery_redeemed_once_witness :
  (validate_recovery_authorization (master_path []) (PStr (token issued)) (lit "reset") (Some (PInt 1201))
    (redeem_run after_issue).2).1 <> Ok true.
Proof.
  assert (H : redeem_run after_issue = (Ok digest, (redeem_run after_issue).2)) by (apply ran_at; [vm_compute; reflexivity|reflexivity]).
  exact (recovery_redeemed_once toy_os toy_os (fun _ => False) _ _ _ _ _ _ _ _ _ _ _ _ _ H
    (reflexivity _) (fun x => x) (surjective_pairing _)).
Defined.

(** ** The account *)

Lemma change_user_outcome_witness :
  let m := change_user (lit "/") (PStr (lit "open sesame")) (PStr (lit "alice")) [] in
  changed_user toy_world (m toy_world).2 [] (lit "bob") bob_hash (PStr (lit "open sesame")) (PStr (lit "alice")) []
    (lit "bob", lit "alice", false).
Proof.
  cbv zeta. set (m := change_user _ _ _ _).
  assert (H : m toy_world = (Ok (lit "bob", lit "alice", false), (m toy_world).2)) by (apply ran_at; [vm_compute; reflexivity|reflexivity]).
  exact (change_user_outcome (lit "/") _ _ _ _ _ _ _ _ toy_placed H).
Defined.

Lemma remove_user_outcome_witness :
  let m := remove_user (lit "/") (PStr (lit "open sesame")) (PStr (lit "bob")) in
  file_at (m toy_world).2 (master_path []) = None.
Proof.
  cbv zeta. set (m := remove_user _ _ _).
  assert (H : m toy_world = (Ok (lit "bob"), (m toy_world).2)) by (apply ran_at; [vm_compute; reflexivity|reflexivity]).
  exact (proj2 (proj2 (remove_user_outcome (lit "/") _ _ _ _ _ _ _ toy_placed H))).
Defined.

(** ** Service secrets *)

Lemma secret_roundtrip_witness :
  exists w3, load_service_secret (PStr (lit "mail")) (lit "/vault")
    (store_service_secret (PStr (lit "mail")) (SecretStr (lit "s3cret")) (lit "/vault") toy_world).2 = (Ok (lit "s3cret"), w3).
Proof.
  set (m := store_service_secret (PStr (lit "mail")) (SecretStr (lit "s3cret")) (lit "/vault")).
  assert (H : m toy_world = (Ok tt, (m toy_world).2)) by (apply ran_at; [vm_compute; reflexivity|reflexivity]).
  destruct (secret_roundtrip toy_os toy_os (fun _ => False) _ _ _ _ _ (m toy_world).2 (lit "mail.secret") H eq_refl
    (reflexivity _) (fun x => x) toy_calm eq_refl) as (b & w3 & Hb & Hl).
  exists w3. replace (lit "s3cret") with b; [exact Hl|]. vm_compute in Hb. injection Hb as <-. reflexivity.
Defined.
