(* ===== verification/WriteState.v ===== *)
(** The state of the text editor ([write/write.py]) and the monad its functions
    run in.

    The module's globals are grouped in records, one per concern, with the names
    of the source.  A function of the source is a computation [W A]: it reads and
    assigns the globals and ends with a value or an exception, and assignments
    made before an exception stay.  [time.monotonic] is a clock reading per call
    ([Clock]); the advance of a glyph comes from FreeType ([Font]): [None] when
    the face cannot load it. *)

From stdpp Require Import base option list gmap.
From Stdlib Require Import ZArith Lia Bool String.
From S2P Require Import Prelude PyFloat PyText.
Open Scope Z_scope.

Class Clock : Type := { mono : nat -> pyfloat }.
Class Font : Type := { glyph_advance : pystr -> Z -> Z -> option Z }.

(** A row of the screen: the columns [start, end) of a line. *)
Definition seg : Type := Z * Z.

(** The key of a cached wrapping: line, version, font size, width, font. *)
Definition wrapkey : Type := Z * Z * Z * Z * pystr.

(** An edit in the history: a dict in the source. *)
Record action : Type := mkaction {
  a_start : Z * Z;
  a_removed : pystr;
  a_inserted : pystr;
  a_before : Z * Z * Z * Z;
  a_after : Z * Z * Z * Z;
  a_beforerev : Z;
  a_afterrev : Z;
  a_bytes : Z;
  a_time : pyfloat }.

(** What a loaded file says of itself: identities, versions and format
    (encoding, byte order mark, newline). *)
Record metadata : Type := mkmetadata {
  m_ids : list Z;
  m_versions : list Z;
  m_format : option (pystr * bool * pystr) }.

(** What the user asked for when the document had unsaved changes. *)
Inductive daction : Type := DNew | DOpen | DExit | DOpenRecent (path : pystr).

(** The arguments of the worker thread, and what it leaves when it ends. *)
Inductive iojob : Type :=
| LoadJob (path : pystr)
| SaveJob (path : pystr) (lines : list pystr) (revision : Z) (encoding : pystr) (bom : bool) (newline : pystr).
Inductive ioresult : Type :=
| IoFailed (saving : bool) (message : pystr)
| IoLoaded (path : pystr) (lines : list pystr) (m : metadata)
| IoSaved (path : pystr) (revision : Z).

(** The dialog that is open, [DIALOG_ACTION] with what its payload holds, and the
    file picker that was asked for. *)
Inductive dialog : Type :=
| Confirm_unsaved (payload : daction) | Open_path | Save_path
| Find_text | Replace_find (all : bool) | Replace_with (all : bool) | Goto_line.
Inductive picker : Type := Pick_open | Pick_save.

(** The document: one string per line, with an identity and a version for each. *)
Record doc : Type := mkdoc {
  DOC_LINES : list pystr;
  DOC_LINE_IDS : list Z;
  DOC_LINE_VERSIONS : list Z;
  NEXT_LINE_ID : Z;
  DOCUMENT_REFLOW_ROW : option Z }.

(** Caret and selection. *)
Record caret : Type := mkcaret {
  CUR_ROW : Z;
  CUR_COL : Z;
  SEL_ACTIVE : bool;
  SEL_ANCHOR_ROW : Z;
  SEL_ANCHOR_COL : Z;
  SEL_ROW : Z;
  SEL_COL : Z }.

(** The scroll position, and how many rows the window shows. *)
Record view : Type := mkview {
  FIRST_VISIBLE_ROW : Z;
  FIRST_VISIBLE_X : Z;
  VISIBLE_LINES : Z;
  PENDING_SCROLL : Z }.

(** The word wrap index and its caches. *)
Record wrap : Type := mkwrap {
  WRAP_LAYOUT_KEY : option (Z * Z * pystr);
  WRAP_LINE_SEGMENTS : list (option (list seg));
  WRAP_LINE_COUNTS : list Z;
  WRAP_COUNT_TREE : list Z;
  WRAP_DIRTY_ROWS : gset Z;
  WRAP_REFLOW_FROM : option Z;
  WRAP_CACHE_KEY : option (option (Z * Z * pystr) * Z * Z * Z);
  WRAP_CACHE_SEGMENTS : list (Z * Z * Z);
  WRAP_LINE_CACHE : list (wrapkey * (list seg * Z));
  WRAP_LINE_CACHE_BYTES : Z;
  WRAP_LINES_MEASURED : Z }.

(** The index of line widths: a count per width and a heap of widths. *)
Record widths : Type := mkwidths {
  DOC_LINEW : list (option Z);
  DOC_MAXW : Z;
  DOC_MAXW_DIRTY : bool;
  DOC_WIDTH_COUNTS : list (Z * Z);
  DOC_WIDTH_HEAP : list Z;
  DOC_WIDTH_INDEX_ROW : Z;
  DOC_WIDTH_INDEX_ACTIVE : bool;
  DOC_FONTSTAMP : option Z }.

(** The undo history, newest action first, and the revisions. *)
Record hist : Type := mkhist {
  UNDO_STACK : list action;
  REDO_STACK : list action;
  UNDO_BYTES : Z;
  CURRENT_REVISION : Z;
  SAVED_REVISION : Z;
  NEXT_REVISION : Z;
  IS_DIRTY : bool }.

(** Settings and the geometry of the window. *)
Record conf : Type := mkconf {
  WORD_WRAP : bool;
  FONT_SIZE : Z;
  FONT_PATH : pystr;
  TAB_WIDTH : Z;
  TEXTTABWIDTH : Z;
  INDENT_USE_TABS : bool;
  OVERWRITE_MODE : bool;
  WIN_W : Z;
  WIN_H : Z;
  MARGIN_LEFT : Z;
  MARGIN_TOP : Z;
  STATUSBAR_HEIGHT : Z;
  SHOW_STATUSBAR : bool;
  SCROLLBAR_WIDTH : Z;
  HSCROLL_HEIGHT : Z;
  LINE_HEIGHT : Z;
  CURSOR_WIDTH : Z }.

(** Find and replace. *)
Record search : Type := mksearch {
  FIND_QUERY : pystr;
  REPLACE_QUERY : pystr;
  FIND_MATCH_CASE : bool }.

(** The file the document belongs to and its format. *)
Record file : Type := mkfile {
  FILE_PATH : option pystr;
  FILE_NAME : pystr;
  FILE_ENCODING : pystr;
  FILE_BOM : bool;
  FILE_NEWLINE : pystr }.

(** File work in the background, and what waits for it. *)
Record io : Type := mkio {
  APP_RUNNING : bool;
  FILE_IO_THREAD : option iojob;
  FILE_IO_RESULT : option ioresult;
  AFTER_SAVE_ACTION : option daction;
  PENDING_DESTRUCTIVE_ACTION : option daction;
  DIALOG : option dialog;
  PICKER_PENDING : option picker;
  WINDOW_OPEN : bool;
  PICKER_VERSION : Z;
  RECENT_FILES : list pystr;
  LAST_STATUS_MESSAGE : pystr }.

(** The editor. *)
Record wst : Type := mkwst {
  w_doc : doc;
  w_caret : caret;
  w_view : view;
  w_wrap : wrap;
  w_widths : widths;
  w_hist : hist;
  w_conf : conf;
  w_search : search;
  w_file : file;
  w_io : io;
  w_tick : nat }.

(** ** Assignments *)

Definition set_DOC_LINES (v : list pystr) (s : doc) : doc :=
  mkdoc v (DOC_LINE_IDS s) (DOC_LINE_VERSIONS s) (NEXT_LINE_ID s) (DOCUMENT_REFLOW_ROW s).
Definition set_DOC_LINE_IDS (v : list Z) (s : doc) : doc :=
  mkdoc (DOC_LINES s) v (DOC_LINE_VERSIONS s) (NEXT_LINE_ID s) (DOCUMENT_REFLOW_ROW s).
Definition set_DOC_LINE_VERSIONS (v : list Z) (s : doc) : doc :=
  mkdoc (DOC_LINES s) (DOC_LINE_IDS s) v (NEXT_LINE_ID s) (DOCUMENT_REFLOW_ROW s).
Definition set_NEXT_LINE_ID (v : Z) (s : doc) : doc :=
  mkdoc (DOC_LINES s) (DOC_LINE_IDS s) (DOC_LINE_VERSIONS s) v (DOCUMENT_REFLOW_ROW s).
Definition set_DOCUMENT_REFLOW_ROW (v : option Z) (s : doc) : doc :=
  mkdoc (DOC_LINES s) (DOC_LINE_IDS s) (DOC_LINE_VERSIONS s) (NEXT_LINE_ID s) v.

Definition set_CUR_ROW (v : Z) (s : caret) : caret :=
  mkcaret v (CUR_COL s) (SEL_ACTIVE s) (SEL_ANCHOR_ROW s) (SEL_ANCHOR_COL s) (SEL_ROW s)
    (SEL_COL s).
Definition set_CUR_COL (v : Z) (s : caret) : caret :=
  mkcaret (CUR_ROW s) v (SEL_ACTIVE s) (SEL_ANCHOR_ROW s) (SEL_ANCHOR_COL s) (SEL_ROW s)
    (SEL_COL s).
Definition set_SEL_ACTIVE (v : bool) (s : caret) : caret :=
  mkcaret (CUR_ROW s) (CUR_COL s) v (SEL_ANCHOR_ROW s) (SEL_ANCHOR_COL s) (SEL_ROW s)
    (SEL_COL s).
Definition set_SEL_ANCHOR_ROW (v : Z) (s : caret) : caret :=
  mkcaret (CUR_ROW s) (CUR_COL s) (SEL_ACTIVE s) v (SEL_ANCHOR_COL s) (SEL_ROW s) (SEL_COL s).
Definition set_SEL_ANCHOR_COL (v : Z) (s : caret) : caret :=
  mkcaret (CUR_ROW s) (CUR_COL s) (SEL_ACTIVE s) (SEL_ANCHOR_ROW s) v (SEL_ROW s) (SEL_COL s).
Definition set_SEL_ROW (v : Z) (s : caret) : caret :=
  mkcaret (CUR_ROW s) (CUR_COL s) (SEL_ACTIVE s) (SEL_ANCHOR_ROW s) (SEL_ANCHOR_COL s) v
    (SEL_COL s).
Definition set_SEL_COL (v : Z) (s : caret) : caret :=
  mkcaret (CUR_ROW s) (CUR_COL s) (SEL_ACTIVE s) (SEL_ANCHOR_ROW s) (SEL_ANCHOR_COL s)
    (SEL_ROW s) v.

Definition set_FIRST_VISIBLE_ROW (v : Z) (s : view) : view :=
  mkview v (FIRST_VISIBLE_X s) (VISIBLE_LINES s) (PENDING_SCROLL s).
Definition set_FIRST_VISIBLE_X (v : Z) (s : view) : view :=
  mkview (FIRST_VISIBLE_ROW s) v (VISIBLE_LINES s) (PENDING_SCROLL s).
Definition set_VISIBLE_LINES (v : Z) (s : view) : view :=
  mkview (FIRST_VISIBLE_ROW s) (FIRST_VISIBLE_X s) v (PENDING_SCROLL s).
Definition set_PENDING_SCROLL (v : Z) (s : view) : view :=
  mkview (FIRST_VISIBLE_ROW s) (FIRST_VISIBLE_X s) (VISIBLE_LINES s) v.

Definition set_WRAP_LAYOUT_KEY (v : option (Z * Z * pystr)) (s : wrap) : wrap :=
  mkwrap v (WRAP_LINE_SEGMENTS s) (WRAP_LINE_COUNTS s) (WRAP_COUNT_TREE s) (WRAP_DIRTY_ROWS s)
    (WRAP_REFLOW_FROM s) (WRAP_CACHE_KEY s) (WRAP_CACHE_SEGMENTS s) (WRAP_LINE_CACHE s)
    (WRAP_LINE_CACHE_BYTES s) (WRAP_LINES_MEASURED s).
Definition set_WRAP_LINE_SEGMENTS (v : list (option (list seg))) (s : wrap) : wrap :=
  mkwrap (WRAP_LAYOUT_KEY s) v (WRAP_LINE_COUNTS s) (WRAP_COUNT_TREE s) (WRAP_DIRTY_ROWS s)
    (WRAP_REFLOW_FROM s) (WRAP_CACHE_KEY s) (WRAP_CACHE_SEGMENTS s) (WRAP_LINE_CACHE s)
    (WRAP_LINE_CACHE_BYTES s) (WRAP_LINES_MEASURED s).
Definition set_WRAP_LINE_COUNTS (v : list Z) (s : wrap) : wrap :=
  mkwrap (WRAP_LAYOUT_KEY s) (WRAP_LINE_SEGMENTS s) v (WRAP_COUNT_TREE s) (WRAP_DIRTY_ROWS s)
    (WRAP_REFLOW_FROM s) (WRAP_CACHE_KEY s) (WRAP_CACHE_SEGMENTS s) (WRAP_LINE_CACHE s)
    (WRAP_LINE_CACHE_BYTES s) (WRAP_LINES_MEASURED s).
Definition set_WRAP_COUNT_TREE (v : list Z) (s : wrap) : wrap :=
  mkwrap (WRAP_LAYOUT_KEY s) (WRAP_LINE_SEGMENTS s) (WRAP_LINE_COUNTS s) v (WRAP_DIRTY_ROWS s)
    (WRAP_REFLOW_FROM s) (WRAP_CACHE_KEY s) (WRAP_CACHE_SEGMENTS s) (WRAP_LINE_CACHE s)
    (WRAP_LINE_CACHE_BYTES s) (WRAP_LINES_MEASURED s).
Definition set_WRAP_DIRTY_ROWS (v : gset Z) (s : wrap) : wrap :=
  mkwrap (WRAP_LAYOUT_KEY s) (WRAP_LINE_SEGMENTS s) (WRAP_LINE_COUNTS s) (WRAP_COUNT_TREE s) v
    (WRAP_REFLOW_FROM s) (WRAP_CACHE_KEY s) (WRAP_CACHE_SEGMENTS s) (WRAP_LINE_CACHE s)
    (WRAP_LINE_CACHE_BYTES s) (WRAP_LINES_MEASURED s).
Definition set_WRAP_REFLOW_FROM (v : option Z) (s : wrap) : wrap :=
  mkwrap (WRAP_LAYOUT_KEY s) (WRAP_LINE_SEGMENTS s) (WRAP_LINE_COUNTS s) (WRAP_COUNT_TREE s)
    (WRAP_DIRTY_ROWS s) v (WRAP_CACHE_KEY s) (WRAP_CACHE_SEGMENTS s) (WRAP_LINE_CACHE s)
    (WRAP_LINE_CACHE_BYTES s) (WRAP_LINES_MEASURED s).
Definition set_WRAP_CACHE_KEY (v : option (option (Z * Z * pystr) * Z * Z * Z)) (s : wrap) : wrap :=
  mkwrap (WRAP_LAYOUT_KEY s) (WRAP_LINE_SEGMENTS s) (WRAP_LINE_COUNTS s) (WRAP_COUNT_TREE s)
    (WRAP_DIRTY_ROWS s) (WRAP_REFLOW_FROM s) v (WRAP_CACHE_SEGMENTS s) (WRAP_LINE_CACHE s)
    (WRAP_LINE_CACHE_BYTES s) (WRAP_LINES_MEASURED s).
Definition set_WRAP_CACHE_SEGMENTS (v : list (Z * Z * Z)) (s : wrap) : wrap :=
  mkwrap (WRAP_LAYOUT_KEY s) (WRAP_LINE_SEGMENTS s) (WRAP_LINE_COUNTS s) (WRAP_COUNT_TREE s)
    (WRAP_DIRTY_ROWS s) (WRAP_REFLOW_FROM s) (WRAP_CACHE_KEY s) v (WRAP_LINE_CACHE s)
    (WRAP_LINE_CACHE_BYTES s) (WRAP_LINES_MEASURED s).
Definition set_WRAP_LINE_CACHE (v : list (wrapkey * (list seg * Z))) (s : wrap) : wrap :=
  mkwrap (WRAP_LAYOUT_KEY s) (WRAP_LINE_SEGMENTS s) (WRAP_LINE_COUNTS s) (WRAP_COUNT_TREE s)
    (WRAP_DIRTY_ROWS s) (WRAP_REFLOW_FROM s) (WRAP_CACHE_KEY s) (WRAP_CACHE_SEGMENTS s) v
    (WRAP_LINE_CACHE_BYTES s) (WRAP_LINES_MEASURED s).
Definition set_WRAP_LINE_CACHE_BYTES (v : Z) (s : wrap) : wrap :=
  mkwrap (WRAP_LAYOUT_KEY s) (WRAP_LINE_SEGMENTS s) (WRAP_LINE_COUNTS s) (WRAP_COUNT_TREE s)
    (WRAP_DIRTY_ROWS s) (WRAP_REFLOW_FROM s) (WRAP_CACHE_KEY s) (WRAP_CACHE_SEGMENTS s)
    (WRAP_LINE_CACHE s) v (WRAP_LINES_MEASURED s).
Definition set_WRAP_LINES_MEASURED (v : Z) (s : wrap) : wrap :=
  mkwrap (WRAP_LAYOUT_KEY s) (WRAP_LINE_SEGMENTS s) (WRAP_LINE_COUNTS s) (WRAP_COUNT_TREE s)
    (WRAP_DIRTY_ROWS s) (WRAP_REFLOW_FROM s) (WRAP_CACHE_KEY s) (WRAP_CACHE_SEGMENTS s)
    (WRAP_LINE_CACHE s) (WRAP_LINE_CACHE_BYTES s) v.

Definition set_DOC_LINEW (v : list (option Z)) (s : widths) : widths :=
  mkwidths v (DOC_MAXW s) (DOC_MAXW_DIRTY s) (DOC_WIDTH_COUNTS s) (DOC_WIDTH_HEAP s)
    (DOC_WIDTH_INDEX_ROW s) (DOC_WIDTH_INDEX_ACTIVE s) (DOC_FONTSTAMP s).
Definition set_DOC_MAXW (v : Z) (s : widths) : widths :=
  mkwidths (DOC_LINEW s) v (DOC_MAXW_DIRTY s) (DOC_WIDTH_COUNTS s) (DOC_WIDTH_HEAP s)
    (DOC_WIDTH_INDEX_ROW s) (DOC_WIDTH_INDEX_ACTIVE s) (DOC_FONTSTAMP s).
Definition set_DOC_MAXW_DIRTY (v : bool) (s : widths) : widths :=
  mkwidths (DOC_LINEW s) (DOC_MAXW s) v (DOC_WIDTH_COUNTS s) (DOC_WIDTH_HEAP s)
    (DOC_WIDTH_INDEX_ROW s) (DOC_WIDTH_INDEX_ACTIVE s) (DOC_FONTSTAMP s).
Definition set_DOC_WIDTH_COUNTS (v : list (Z * Z)) (s : widths) : widths :=
  mkwidths (DOC_LINEW s) (DOC_MAXW s) (DOC_MAXW_DIRTY s) v (DOC_WIDTH_HEAP s)
    (DOC_WIDTH_INDEX_ROW s) (DOC_WIDTH_INDEX_ACTIVE s) (DOC_FONTSTAMP s).
Definition set_DOC_WIDTH_HEAP (v : list Z) (s : widths) : widths :=
  mkwidths (DOC_LINEW s) (DOC_MAXW s) (DOC_MAXW_DIRTY s) (DOC_WIDTH_COUNTS s) v
    (DOC_WIDTH_INDEX_ROW s) (DOC_WIDTH_INDEX_ACTIVE s) (DOC_FONTSTAMP s).
Definition set_DOC_WIDTH_INDEX_ROW (v : Z) (s : widths) : widths :=
  mkwidths (DOC_LINEW s) (DOC_MAXW s) (DOC_MAXW_DIRTY s) (DOC_WIDTH_COUNTS s) (DOC_WIDTH_HEAP s)
    v (DOC_WIDTH_INDEX_ACTIVE s) (DOC_FONTSTAMP s).
Definition set_DOC_WIDTH_INDEX_ACTIVE (v : bool) (s : widths) : widths :=
  mkwidths (DOC_LINEW s) (DOC_MAXW s) (DOC_MAXW_DIRTY s) (DOC_WIDTH_COUNTS s) (DOC_WIDTH_HEAP s)
    (DOC_WIDTH_INDEX_ROW s) v (DOC_FONTSTAMP s).
Definition set_DOC_FONTSTAMP (v : option Z) (s : widths) : widths :=
  mkwidths (DOC_LINEW s) (DOC_MAXW s) (DOC_MAXW_DIRTY s) (DOC_WIDTH_COUNTS s) (DOC_WIDTH_HEAP s)
    (DOC_WIDTH_INDEX_ROW s) (DOC_WIDTH_INDEX_ACTIVE s) v.

Definition set_UNDO_STACK (v : list action) (s : hist) : hist :=
  mkhist v (REDO_STACK s) (UNDO_BYTES s) (CURRENT_REVISION s) (SAVED_REVISION s)
    (NEXT_REVISION s) (IS_DIRTY s).
Definition set_REDO_STACK (v : list action) (s : hist) : hist :=
  mkhist (UNDO_STACK s) v (UNDO_BYTES s) (CURRENT_REVISION s) (SAVED_REVISION s)
    (NEXT_REVISION s) (IS_DIRTY s).
Definition set_UNDO_BYTES (v : Z) (s : hist) : hist :=
  mkhist (UNDO_STACK s) (REDO_STACK s) v (CURRENT_REVISION s) (SAVED_REVISION s)
    (NEXT_REVISION s) (IS_DIRTY s).
Definition set_CURRENT_REVISION (v : Z) (s : hist) : hist :=
  mkhist (UNDO_STACK s) (REDO_STACK s) (UNDO_BYTES s) v (SAVED_REVISION s) (NEXT_REVISION s)
    (IS_DIRTY s).
Definition set_SAVED_REVISION (v : Z) (s : hist) : hist :=
  mkhist (UNDO_STACK s) (REDO_STACK s) (UNDO_BYTES s) (CURRENT_REVISION s) v (NEXT_REVISION s)
    (IS_DIRTY s).
Definition set_NEXT_REVISION (v : Z) (s : hist) : hist :=
  mkhist (UNDO_STACK s) (REDO_STACK s) (UNDO_BYTES s) (CURRENT_REVISION s) (SAVED_REVISION s) v
    (IS_DIRTY s).
Definition set_IS_DIRTY (v : bool) (s : hist) : hist :=
  mkhist (UNDO_STACK s) (REDO_STACK s) (UNDO_BYTES s) (CURRENT_REVISION s) (SAVED_REVISION s)
    (NEXT_REVISION s) v.

Definition set_WORD_WRAP (v : bool) (s : conf) : conf :=
  mkconf v (FONT_SIZE s) (FONT_PATH s) (TAB_WIDTH s) (TEXTTABWIDTH s) (INDENT_USE_TABS s)
    (OVERWRITE_MODE s) (WIN_W s) (WIN_H s) (MARGIN_LEFT s) (MARGIN_TOP s) (STATUSBAR_HEIGHT s)
    (SHOW_STATUSBAR s) (SCROLLBAR_WIDTH s) (HSCROLL_HEIGHT s) (LINE_HEIGHT s) (CURSOR_WIDTH s).
Definition set_FONT_SIZE (v : Z) (s : conf) : conf :=
  mkconf (WORD_WRAP s) v (FONT_PATH s) (TAB_WIDTH s) (TEXTTABWIDTH s) (INDENT_USE_TABS s)
    (OVERWRITE_MODE s) (WIN_W s) (WIN_H s) (MARGIN_LEFT s) (MARGIN_TOP s) (STATUSBAR_HEIGHT s)
    (SHOW_STATUSBAR s) (SCROLLBAR_WIDTH s) (HSCROLL_HEIGHT s) (LINE_HEIGHT s) (CURSOR_WIDTH s).
Definition set_FONT_PATH (v : pystr) (s : conf) : conf :=
  mkconf (WORD_WRAP s) (FONT_SIZE s) v (TAB_WIDTH s) (TEXTTABWIDTH s) (INDENT_USE_TABS s)
    (OVERWRITE_MODE s) (WIN_W s) (WIN_H s) (MARGIN_LEFT s) (MARGIN_TOP s) (STATUSBAR_HEIGHT s)
    (SHOW_STATUSBAR s) (SCROLLBAR_WIDTH s) (HSCROLL_HEIGHT s) (LINE_HEIGHT s) (CURSOR_WIDTH s).
Definition set_TAB_WIDTH (v : Z) (s : conf) : conf :=
  mkconf (WORD_WRAP s) (FONT_SIZE s) (FONT_PATH s) v (TEXTTABWIDTH s) (INDENT_USE_TABS s)
    (OVERWRITE_MODE s) (WIN_W s) (WIN_H s) (MARGIN_LEFT s) (MARGIN_TOP s) (STATUSBAR_HEIGHT s)
    (SHOW_STATUSBAR s) (SCROLLBAR_WIDTH s) (HSCROLL_HEIGHT s) (LINE_HEIGHT s) (CURSOR_WIDTH s).
Definition set_TEXTTABWIDTH (v : Z) (s : conf) : conf :=
  mkconf (WORD_WRAP s) (FONT_SIZE s) (FONT_PATH s) (TAB_WIDTH s) v (INDENT_USE_TABS s)
    (OVERWRITE_MODE s) (WIN_W s) (WIN_H s) (MARGIN_LEFT s) (MARGIN_TOP s) (STATUSBAR_HEIGHT s)
    (SHOW_STATUSBAR s) (SCROLLBAR_WIDTH s) (HSCROLL_HEIGHT s) (LINE_HEIGHT s) (CURSOR_WIDTH s).
Definition set_INDENT_USE_TABS (v : bool) (s : conf) : conf :=
  mkconf (WORD_WRAP s) (FONT_SIZE s) (FONT_PATH s) (TAB_WIDTH s) (TEXTTABWIDTH s) v
    (OVERWRITE_MODE s) (WIN_W s) (WIN_H s) (MARGIN_LEFT s) (MARGIN_TOP s) (STATUSBAR_HEIGHT s)
    (SHOW_STATUSBAR s) (SCROLLBAR_WIDTH s) (HSCROLL_HEIGHT s) (LINE_HEIGHT s) (CURSOR_WIDTH s).
Definition set_OVERWRITE_MODE (v : bool) (s : conf) : conf :=
  mkconf (WORD_WRAP s) (FONT_SIZE s) (FONT_PATH s) (TAB_WIDTH s) (TEXTTABWIDTH s)
    (INDENT_USE_TABS s) v (WIN_W s) (WIN_H s) (MARGIN_LEFT s) (MARGIN_TOP s) (STATUSBAR_HEIGHT s)
    (SHOW_STATUSBAR s) (SCROLLBAR_WIDTH s) (HSCROLL_HEIGHT s) (LINE_HEIGHT s) (CURSOR_WIDTH s).
Definition set_WIN_W (v : Z) (s : conf) : conf :=
  mkconf (WORD_WRAP s) (FONT_SIZE s) (FONT_PATH s) (TAB_WIDTH s) (TEXTTABWIDTH s)
    (INDENT_USE_TABS s) (OVERWRITE_MODE s) v (WIN_H s) (MARGIN_LEFT s) (MARGIN_TOP s)
    (STATUSBAR_HEIGHT s) (SHOW_STATUSBAR s) (SCROLLBAR_WIDTH s) (HSCROLL_HEIGHT s)
    (LINE_HEIGHT s) (CURSOR_WIDTH s).
Definition set_WIN_H (v : Z) (s : conf) : conf :=
  mkconf (WORD_WRAP s) (FONT_SIZE s) (FONT_PATH s) (TAB_WIDTH s) (TEXTTABWIDTH s)
    (INDENT_USE_TABS s) (OVERWRITE_MODE s) (WIN_W s) v (MARGIN_LEFT s) (MARGIN_TOP s)
    (STATUSBAR_HEIGHT s) (SHOW_STATUSBAR s) (SCROLLBAR_WIDTH s) (HSCROLL_HEIGHT s)
    (LINE_HEIGHT s) (CURSOR_WIDTH s).
Definition set_MARGIN_LEFT (v : Z) (s : conf) : conf :=
  mkconf (WORD_WRAP s) (FONT_SIZE s) (FONT_PATH s) (TAB_WIDTH s) (TEXTTABWIDTH s)
    (INDENT_USE_TABS s) (OVERWRITE_MODE s) (WIN_W s) (WIN_H s) v (MARGIN_TOP s)
    (STATUSBAR_HEIGHT s) (SHOW_STATUSBAR s) (SCROLLBAR_WIDTH s) (HSCROLL_HEIGHT s)
    (LINE_HEIGHT s) (CURSOR_WIDTH s).
Definition set_MARGIN_TOP (v : Z) (s : conf) : conf :=
  mkconf (WORD_WRAP s) (FONT_SIZE s) (FONT_PATH s) (TAB_WIDTH s) (TEXTTABWIDTH s)
    (INDENT_USE_TABS s) (OVERWRITE_MODE s) (WIN_W s) (WIN_H s) (MARGIN_LEFT s) v
    (STATUSBAR_HEIGHT s) (SHOW_STATUSBAR s) (SCROLLBAR_WIDTH s) (HSCROLL_HEIGHT s)
    (LINE_HEIGHT s) (CURSOR_WIDTH s).
Definition set_STATUSBAR_HEIGHT (v : Z) (s : conf) : conf :=
  mkconf (WORD_WRAP s) (FONT_SIZE s) (FONT_PATH s) (TAB_WIDTH s) (TEXTTABWIDTH s)
    (INDENT_USE_TABS s) (OVERWRITE_MODE s) (WIN_W s) (WIN_H s) (MARGIN_LEFT s) (MARGIN_TOP s) v
    (SHOW_STATUSBAR s) (SCROLLBAR_WIDTH s) (HSCROLL_HEIGHT s) (LINE_HEIGHT s) (CURSOR_WIDTH s).
Definition set_SHOW_STATUSBAR (v : bool) (s : conf) : conf :=
  mkconf (WORD_WRAP s) (FONT_SIZE s) (FONT_PATH s) (TAB_WIDTH s) (TEXTTABWIDTH s)
    (INDENT_USE_TABS s) (OVERWRITE_MODE s) (WIN_W s) (WIN_H s) (MARGIN_LEFT s) (MARGIN_TOP s)
    (STATUSBAR_HEIGHT s) v (SCROLLBAR_WIDTH s) (HSCROLL_HEIGHT s) (LINE_HEIGHT s)
    (CURSOR_WIDTH s).
Definition set_SCROLLBAR_WIDTH (v : Z) (s : conf) : conf :=
  mkconf (WORD_WRAP s) (FONT_SIZE s) (FONT_PATH s) (TAB_WIDTH s) (TEXTTABWIDTH s)
    (INDENT_USE_TABS s) (OVERWRITE_MODE s) (WIN_W s) (WIN_H s) (MARGIN_LEFT s) (MARGIN_TOP s)
    (STATUSBAR_HEIGHT s) (SHOW_STATUSBAR s) v (HSCROLL_HEIGHT s) (LINE_HEIGHT s)
    (CURSOR_WIDTH s).
Definition set_HSCROLL_HEIGHT (v : Z) (s : conf) : conf :=
  mkconf (WORD_WRAP s) (FONT_SIZE s) (FONT_PATH s) (TAB_WIDTH s) (TEXTTABWIDTH s)
    (INDENT_USE_TABS s) (OVERWRITE_MODE s) (WIN_W s) (WIN_H s) (MARGIN_LEFT s) (MARGIN_TOP s)
    (STATUSBAR_HEIGHT s) (SHOW_STATUSBAR s) (SCROLLBAR_WIDTH s) v (LINE_HEIGHT s)
    (CURSOR_WIDTH s).
Definition set_LINE_HEIGHT (v : Z) (s : conf) : conf :=
  mkconf (WORD_WRAP s) (FONT_SIZE s) (FONT_PATH s) (TAB_WIDTH s) (TEXTTABWIDTH s)
    (INDENT_USE_TABS s) (OVERWRITE_MODE s) (WIN_W s) (WIN_H s) (MARGIN_LEFT s) (MARGIN_TOP s)
    (STATUSBAR_HEIGHT s) (SHOW_STATUSBAR s) (SCROLLBAR_WIDTH s) (HSCROLL_HEIGHT s) v
    (CURSOR_WIDTH s).
Definition set_CURSOR_WIDTH (v : Z) (s : conf) : conf :=
  mkconf (WORD_WRAP s) (FONT_SIZE s) (FONT_PATH s) (TAB_WIDTH s) (TEXTTABWIDTH s)
    (INDENT_USE_TABS s) (OVERWRITE_MODE s) (WIN_W s) (WIN_H s) (MARGIN_LEFT s) (MARGIN_TOP s)
    (STATUSBAR_HEIGHT s) (SHOW_STATUSBAR s) (SCROLLBAR_WIDTH s) (HSCROLL_HEIGHT s)
    (LINE_HEIGHT s) v.

Definition set_FIND_QUERY (v : pystr) (s : search) : search :=
  mksearch v (REPLACE_QUERY s) (FIND_MATCH_CASE s).
Definition set_REPLACE_QUERY (v : pystr) (s : search) : search :=
  mksearch (FIND_QUERY s) v (FIND_MATCH_CASE s).
Definition set_FIND_MATCH_CASE (v : bool) (s : search) : search :=
  mksearch (FIND_QUERY s) (REPLACE_QUERY s) v.

Definition set_FILE_PATH (v : option pystr) (s : file) : file :=
  mkfile v (FILE_NAME s) (FILE_ENCODING s) (FILE_BOM s) (FILE_NEWLINE s).
Definition set_FILE_NAME (v : pystr) (s : file) : file :=
  mkfile (FILE_PATH s) v (FILE_ENCODING s) (FILE_BOM s) (FILE_NEWLINE s).
Definition set_FILE_ENCODING (v : pystr) (s : file) : file :=
  mkfile (FILE_PATH s) (FILE_NAME s) v (FILE_BOM s) (FILE_NEWLINE s).
Definition set_FILE_BOM (v : bool) (s : file) : file :=
  mkfile (FILE_PATH s) (FILE_NAME s) (FILE_ENCODING s) v (FILE_NEWLINE s).
Definition set_FILE_NEWLINE (v : pystr) (s : file) : file :=
  mkfile (FILE_PATH s) (FILE_NAME s) (FILE_ENCODING s) (FILE_BOM s) v.

Definition set_APP_RUNNING (v : bool) (s : io) : io :=
  mkio v (FILE_IO_THREAD s) (FILE_IO_RESULT s) (AFTER_SAVE_ACTION s)
    (PENDING_DESTRUCTIVE_ACTION s) (DIALOG s) (PICKER_PENDING s) (WINDOW_OPEN s)
    (PICKER_VERSION s) (RECENT_FILES s) (LAST_STATUS_MESSAGE s).
Definition set_FILE_IO_THREAD (v : option iojob) (s : io) : io :=
  mkio (APP_RUNNING s) v (FILE_IO_RESULT s) (AFTER_SAVE_ACTION s) (PENDING_DESTRUCTIVE_ACTION s)
    (DIALOG s) (PICKER_PENDING s) (WINDOW_OPEN s) (PICKER_VERSION s) (RECENT_FILES s)
    (LAST_STATUS_MESSAGE s).
Definition set_FILE_IO_RESULT (v : option ioresult) (s : io) : io :=
  mkio (APP_RUNNING s) (FILE_IO_THREAD s) v (AFTER_SAVE_ACTION s) (PENDING_DESTRUCTIVE_ACTION s)
    (DIALOG s) (PICKER_PENDING s) (WINDOW_OPEN s) (PICKER_VERSION s) (RECENT_FILES s)
    (LAST_STATUS_MESSAGE s).
Definition set_AFTER_SAVE_ACTION (v : option daction) (s : io) : io :=
  mkio (APP_RUNNING s) (FILE_IO_THREAD s) (FILE_IO_RESULT s) v (PENDING_DESTRUCTIVE_ACTION s)
    (DIALOG s) (PICKER_PENDING s) (WINDOW_OPEN s) (PICKER_VERSION s) (RECENT_FILES s)
    (LAST_STATUS_MESSAGE s).
Definition set_PENDING_DESTRUCTIVE_ACTION (v : option daction) (s : io) : io :=
  mkio (APP_RUNNING s) (FILE_IO_THREAD s) (FILE_IO_RESULT s) (AFTER_SAVE_ACTION s) v (DIALOG s)
    (PICKER_PENDING s) (WINDOW_OPEN s) (PICKER_VERSION s) (RECENT_FILES s)
    (LAST_STATUS_MESSAGE s).
Definition set_DIALOG (v : option dialog) (s : io) : io :=
  mkio (APP_RUNNING s) (FILE_IO_THREAD s) (FILE_IO_RESULT s) (AFTER_SAVE_ACTION s)
    (PENDING_DESTRUCTIVE_ACTION s) v (PICKER_PENDING s) (WINDOW_OPEN s) (PICKER_VERSION s)
    (RECENT_FILES s) (LAST_STATUS_MESSAGE s).
Definition set_PICKER_PENDING (v : option picker) (s : io) : io :=
  mkio (APP_RUNNING s) (FILE_IO_THREAD s) (FILE_IO_RESULT s) (AFTER_SAVE_ACTION s)
    (PENDING_DESTRUCTIVE_ACTION s) (DIALOG s) v (WINDOW_OPEN s) (PICKER_VERSION s)
    (RECENT_FILES s) (LAST_STATUS_MESSAGE s).
Definition set_WINDOW_OPEN (v : bool) (s : io) : io :=
  mkio (APP_RUNNING s) (FILE_IO_THREAD s) (FILE_IO_RESULT s) (AFTER_SAVE_ACTION s)
    (PENDING_DESTRUCTIVE_ACTION s) (DIALOG s) (PICKER_PENDING s) v (PICKER_VERSION s)
    (RECENT_FILES s) (LAST_STATUS_MESSAGE s).
Definition set_PICKER_VERSION (v : Z) (s : io) : io :=
  mkio (APP_RUNNING s) (FILE_IO_THREAD s) (FILE_IO_RESULT s) (AFTER_SAVE_ACTION s)
    (PENDING_DESTRUCTIVE_ACTION s) (DIALOG s) (PICKER_PENDING s) (WINDOW_OPEN s) v
    (RECENT_FILES s) (LAST_STATUS_MESSAGE s).
Definition set_RECENT_FILES (v : list pystr) (s : io) : io :=
  mkio (APP_RUNNING s) (FILE_IO_THREAD s) (FILE_IO_RESULT s) (AFTER_SAVE_ACTION s)
    (PENDING_DESTRUCTIVE_ACTION s) (DIALOG s) (PICKER_PENDING s) (WINDOW_OPEN s)
    (PICKER_VERSION s) v (LAST_STATUS_MESSAGE s).
Definition set_LAST_STATUS_MESSAGE (v : pystr) (s : io) : io :=
  mkio (APP_RUNNING s) (FILE_IO_THREAD s) (FILE_IO_RESULT s) (AFTER_SAVE_ACTION s)
    (PENDING_DESTRUCTIVE_ACTION s) (DIALOG s) (PICKER_PENDING s) (WINDOW_OPEN s)
    (PICKER_VERSION s) (RECENT_FILES s) v.

(** ** Updating one part of the state *)

Definition on_doc (f : doc -> doc) (s : wst) : wst :=
  mkwst (f (w_doc s)) (w_caret s) (w_view s) (w_wrap s) (w_widths s) (w_hist s) (w_conf s) (w_search s) (w_file s) (w_io s) (w_tick s).
Definition on_caret (f : caret -> caret) (s : wst) : wst :=
  mkwst (w_doc s) (f (w_caret s)) (w_view s) (w_wrap s) (w_widths s) (w_hist s) (w_conf s) (w_search s) (w_file s) (w_io s) (w_tick s).
Definition on_view (f : view -> view) (s : wst) : wst :=
  mkwst (w_doc s) (w_caret s) (f (w_view s)) (w_wrap s) (w_widths s) (w_hist s) (w_conf s) (w_search s) (w_file s) (w_io s) (w_tick s).
Definition on_wrap (f : wrap -> wrap) (s : wst) : wst :=
  mkwst (w_doc s) (w_caret s) (w_view s) (f (w_wrap s)) (w_widths s) (w_hist s) (w_conf s) (w_search s) (w_file s) (w_io s) (w_tick s).
Definition on_widths (f : widths -> widths) (s : wst) : wst :=
  mkwst (w_doc s) (w_caret s) (w_view s) (w_wrap s) (f (w_widths s)) (w_hist s) (w_conf s) (w_search s) (w_file s) (w_io s) (w_tick s).
Definition on_hist (f : hist -> hist) (s : wst) : wst :=
  mkwst (w_doc s) (w_caret s) (w_view s) (w_wrap s) (w_widths s) (f (w_hist s)) (w_conf s) (w_search s) (w_file s) (w_io s) (w_tick s).
Definition on_conf (f : conf -> conf) (s : wst) : wst :=
  mkwst (w_doc s) (w_caret s) (w_view s) (w_wrap s) (w_widths s) (w_hist s) (f (w_conf s)) (w_search s) (w_file s) (w_io s) (w_tick s).
Definition on_search (f : search -> search) (s : wst) : wst :=
  mkwst (w_doc s) (w_caret s) (w_view s) (w_wrap s) (w_widths s) (w_hist s) (w_conf s) (f (w_search s)) (w_file s) (w_io s) (w_tick s).
Definition on_file (f : file -> file) (s : wst) : wst :=
  mkwst (w_doc s) (w_caret s) (w_view s) (w_wrap s) (w_widths s) (w_hist s) (w_conf s) (w_search s) (f (w_file s)) (w_io s) (w_tick s).
Definition on_io (f : io -> io) (s : wst) : wst :=
  mkwst (w_doc s) (w_caret s) (w_view s) (w_wrap s) (w_widths s) (w_hist s) (w_conf s) (w_search s) (w_file s) (f (w_io s)) (w_tick s).
Definition on_tick (f : nat -> nat) (s : wst) : wst :=
  mkwst (w_doc s) (w_caret s) (w_view s) (w_wrap s) (w_widths s) (w_hist s) (w_conf s) (w_search s) (w_file s) (w_io s) (f (w_tick s)).

(** ** The monad *)

Definition W (A : Type) : Type := wst -> res A * wst.

#[export] Instance w_ret : MRet W := fun A a s => (Ok a, s).
#[export] Instance w_bind : MBind W := fun A B f m s =>
  match m s with
  | (Ok a, s') => f a s'
  | (Exc e, s') => (Exc e, s')
  end.

Definition raise_w {A} (e : exn) : W A := fun s => (Exc e, s).
Definition lift_w {A} (r : res A) : W A := fun s => (r, s).
Definition gets {A} (f : wst -> A) : W A := fun s => (Ok (f s), s).
Definition modify (f : wst -> wst) : W unit := fun s => (Ok tt, f s).
Definition skip : W unit := mret tt.

(** [try: m  except Exception: return a]. *)
Definition try_w {A} (m : W A) (a : A) : W A := fun s =>
  match m s with
  | (Ok x, s') => (Ok x, s')
  | (Exc _, s') => (Ok a, s')
  end.

Definition when (b : bool) (m : W unit) : W unit := if b then m else skip.

(** [time.monotonic()]. *)
Definition monotonic `{Clock} : W pyfloat := fun s => (Ok (mono (w_tick s)), on_tick S s).

(** ** Sequences *)

(** [l[i]]: a negative index counts from the end. *)
Definition pyidx {A} (l : list A) (i : Z) : res A :=
  let i := if i <? 0 then i + zlen l else i in
  if i <? 0 then Exc IndexError
  else match l !! Z.to_nat i with Some x => Ok x | None => Exc IndexError end.

(** [str.split('\n')] and [.join]. *)
Definition NL : Z := 10.
Definition CR : Z := 13.
Definition TAB : Z := 9.
Definition SPACE : Z := 32.

(** [text.replace('\r\n', '\n').replace('\r', '\n')]. *)
Fixpoint replace_crlf (s : pystr) : pystr :=
  match s with
  | [] => []
  | c :: s' =>
      if c =? CR then
        match s' with
        | d :: s'' => if d =? NL then NL :: replace_crlf s'' else CR :: replace_crlf s'
        | [] => [CR]
        end
      else c :: replace_crlf s'
  end.
Definition replace_cr (s : pystr) : pystr := List.map (fun c => if c =? CR then NL else c) s.
Definition normalise_newlines (s : pystr) : pystr := replace_cr (replace_crlf s).

(** Comparison of tuples of two integers. *)
Definition pos_ltb (a b : Z * Z) : bool := (a.1 <? b.1) || ((a.1 =? b.1) && (a.2 <? b.2)).
Definition pos_leb (a b : Z * Z) : bool := (a.1 <? b.1) || ((a.1 =? b.1) && (a.2 <=? b.2)).
