(* ===== verification/WriteText.v ===== *)
(** Text of the editor: text positions, columns and tabs, widths, and the break of
    a line into screen rows ([write/write.py], with [measuretext] and
    [measurelineadvances] of [graphics/graphics.py]; the caches of the latter are
    left out, they do not change what it returns). *)

From stdpp Require Import base option list.
From Stdlib Require Import ZArith Lia Bool.
From S2P Require Import Prelude PyText PyVal PyStr WriteState.
Open Scope Z_scope.

(** ** Characters *)

(** [str.isalnum] of one character. *)
Class Alnum : Type := { isalnum : Z -> bool }.

Section Words.
Context {AN : Alnum}.

Definition iswordchar (c : Z) : bool := isalnum c || (c =? 95) || (c =? 39).
Definition iswordcharacter (c : Z) : bool := isalnum c || (c =? 95).

End Words.

(** ** Positions *)

(** Where the caret stands after [text] was inserted at [(row, col)]. *)
Definition textpositionafter (row col : Z) (text : pystr) : Z * Z :=
  let chunks := split_on NL text in
  if zlen chunks =? 1 then (row, col + zlen (List.hd [] chunks))
  else (row + zlen chunks - 1, zlen (List.last chunks [])).

(** ** Tabs and widths *)

Section Tabs.
Context (TAB_WIDTH : Z).

(** [column + (TAB_WIDTH - column % TAB_WIDTH)] at a tab. *)
Fixpoint displaycolumn (text : pystr) (column : Z) : Z :=
  match text with
  | [] => column
  | c :: rest =>
      displaycolumn rest (if c =? TAB then column + (TAB_WIDTH - column mod TAB_WIDTH) else column + 1)
  end.

Fixpoint expanddisplaytabs (text : pystr) (column : Z) : pystr :=
  match text with
  | [] => []
  | c :: rest =>
      if c =? TAB then
        let count := TAB_WIDTH - column mod TAB_WIDTH in
        zreplicate count SPACE ++ expanddisplaytabs rest (column + count)
      else c :: expanddisplaytabs rest (column + 1)
  end.

(** How many characters an outdent takes from the start of a line. *)
Definition indentationremoval (line : pystr) : Z :=
  match line with
  | c :: _ =>
      if c =? TAB then 1
      else (fix count (n : nat) (l : pystr) : Z :=
              match n, l with
              | S n, d :: l' => if d =? SPACE then 1 + count n l' else 0
              | _, _ => 0
              end) (Z.to_nat TAB_WIDTH) line
  | [] => 0
  end.

End Tabs.

Section Measure.
Context {FT : Font}.

(** The sum of the glyph advances; 0 when a glyph cannot be loaded. *)
Definition measuretext (path : pystr) (text : pystr) (size : Z) : Z :=
  (fix sum (l : pystr) (width : Z) : Z :=
     match l with
     | [] => width
     | c :: l' =>
         match glyph_advance path size c with
         | Some a => sum l' (width + a)
         | None => 0
         end
     end) text 0.

(** The position after each character, a tab reaching to the next tab stop; no
    list when a glyph cannot be loaded.  Positions are kept as 32-bit unsigned
    integers. *)
Fixpoint advances_from (tabw : Z) (path : pystr) (size : Z) (text : pystr) (xpos visualcolumn : Z)
    : option (list Z) :=
  match text with
  | [] => Some []
  | ch :: rest =>
      a ← glyph_advance path size (if ch =? TAB then SPACE else ch);
      let spaces := if ch =? TAB then tabw - visualcolumn mod tabw else 1 in
      let xpos := xpos + a * spaces in
      l ← advances_from tabw path size rest xpos (visualcolumn + spaces);
      Some (Z.max 0 (Z.min 4294967295 xpos) :: l)
  end.

Definition measurelineadvances (TEXTTABWIDTH : Z) (text : pystr) (size : Z) (path : pystr) : list Z :=
  default [] (advances_from (Z.max 1 TEXTTABWIDTH) path size text 0 0).

End Measure.

(** ** Breaking a line *)

(** [bisect.bisect_right(a, x, lo=lo)] on [a[lo:hi]]. *)
Fixpoint bisect_loop (fuel : nat) (a : list Z) (x lo hi : Z) : Z :=
  match fuel with
  | O => lo
  | S fuel =>
      if lo <? hi then
        let mid := (lo + hi) / 2 in
        if x <? znth a mid then bisect_loop fuel a x lo mid else bisect_loop fuel a x (mid + 1) hi
      else lo
  end.
Definition bisect_right (a : list Z) (x lo : Z) : Z := bisect_loop (length a) a x lo (zlen a).

(** [while wordend > start and not line[wordend - 1].isspace(): wordend -= 1]. *)
Fixpoint word_end (fuel : nat) (line : pystr) (start wordend : Z) : Z :=
  match fuel with
  | O => wordend
  | S fuel =>
      if (start <? wordend) && negb (is_space (znth line (wordend - 1)))
      then word_end fuel line start (wordend - 1) else wordend
  end.

(** Where the row that starts at [start] ends. *)
Definition segment_end (line : pystr) (advances : list Z) (width start : Z) : Z :=
  let startx := if 0 <? start then znth advances (start - 1) else 0 in
  let cut := bisect_right advances (startx + width) start in
  let e := if cut <=? start then start + 1 else cut in
  if e <? zlen line then
    let w := word_end (length line) line start e in
    if start <? w then w else e
  else e.

Fixpoint segments_from (fuel : nat) (line : pystr) (advances : list Z) (width start : Z) : list seg :=
  match fuel with
  | O => []
  | S fuel =>
      if start <? zlen line then
        let e := segment_end line advances width start in
        (start, e) :: segments_from fuel line advances width e
      else []
  end.

(** The rows of a line, when they are not in the cache. *)
Definition line_segments (line : pystr) (advances : list Z) (width : Z) : list seg :=
  match line with
  | [] => [(0, 0)]
  | _ =>
      if zlen advances =? zlen line then
        match segments_from (length line) line advances width 0 with [] => [(0, 0)] | l => l end
      else [(0, zlen line)]
  end.

(** The segments follow one another from [a] to [b], none is empty. *)
Fixpoint covers (segs : list seg) (a b : Z) : Prop :=
  match segs with
  | [] => a = b
  | (s, e) :: rest => s = a /\ a < e /\ covers rest e b
  end.

(** ** Bisection *)

Definition ascending (l : list Z) : Prop :=
  forall i j, 0 <= i <= j -> j < zlen l -> znth l i <= znth l j.

Lemma bisect_bounds fuel a x : forall lo hi, lo <= hi -> lo <= bisect_loop fuel a x lo hi <= hi.
Proof.
  induction fuel as [|f IH]; intros lo hi H; cbn [bisect_loop]; [lia|]. destruct (lo <? hi) eqn:E; [|lia].
  pose proof (Z.div_mod (lo + hi) 2 ltac:(lia)). pose proof (Z.mod_pos_bound (lo + hi) 2 ltac:(lia)).
  destruct (x <? znth a ((lo + hi) / 2)); [specialize (IH lo ((lo + hi) / 2))|specialize (IH ((lo + hi) / 2 + 1) hi)]; lia.
Qed.

Lemma bisect_spec fuel a x : forall lo hi, ascending a -> 0 <= lo <= hi -> hi <= zlen a ->
  hi - lo <= Z.of_nat fuel ->
  let r := bisect_loop fuel a x lo hi in
  (forall i, lo <= i < r -> znth a i <= x) /\ (forall i, r <= i < hi -> x < znth a i).
Proof.
  induction fuel as [|f IH]; intros lo hi Ha Hlo Hhi Hf; cbn [bisect_loop]; [split; intros; lia|].
  destruct (lo <? hi) eqn:E; [|split; intros; lia].
  pose proof (Z.div_mod (lo + hi) 2 ltac:(lia)). pose proof (Z.mod_pos_bound (lo + hi) 2 ltac:(lia)).
  set (mid := (lo + hi) / 2) in *. destruct (x <? znth a mid) eqn:C.
  - destruct (IH lo mid) as [H1 H2]; [done|lia..|]. split; [done|]. intros i Hi.
    destruct (decide (i < mid)); [apply H2; lia|]. specialize (Ha mid i). lia.
  - destruct (IH (mid + 1) hi) as [H1 H2]; [done|lia..|]. split; [|done]. intros i Hi.
    destruct (decide (mid < i)); [apply H1; lia|]. specialize (Ha i mid). lia.
Qed.

Lemma bisect_right_spec a x lo : ascending a -> 0 <= lo <= zlen a ->
  lo <= bisect_right a x lo <= zlen a /\
  (forall i, lo <= i < bisect_right a x lo -> znth a i <= x) /\
  (forall i, bisect_right a x lo <= i < zlen a -> x < znth a i).
Proof.
  intros Ha Hlo. unfold bisect_right. split; [apply bisect_bounds; lia|].
  apply bisect_spec; [done|lia..|]. unfold zlen. lia.
Qed.

(** ** Word ends *)

Lemma word_end_spec fuel line start : forall e, start <= e -> e - start <= Z.of_nat fuel ->
  let w := word_end fuel line start e in
  start <= w <= e /\ (start < w -> is_space (znth line (w - 1)) = true) /\
  (forall i, w <= i < e -> is_space (znth line i) = false).
Proof.
  induction fuel as [|f IH]; intros e He Hf; cbn [word_end]; [split_and!; intros; lia|].
  destruct (start <? e) eqn:E; cbn [andb].
  - destruct (is_space (znth line (e - 1))) eqn:S; cbn [negb]; [split_and!; intros; lia || done|].
    destruct (IH (e - 1)) as (H1 & H2 & H3); [lia..|]. split_and!; [lia|lia|done|]. intros i Hi.
    destruct (decide (i = e - 1)) as [->|]; [done|]. apply H3. lia.
  - split_and!; intros; lia.
Qed.

(** ** Segments *)

Lemma segment_end_bounds line advances width start : zlen advances = zlen line -> 0 <= start < zlen line ->
  start < segment_end line advances width start <= zlen line.
Proof.
  intros Hl Hs. unfold segment_end. set (sx := if 0 <? start then _ else _).
  pose proof (bisect_bounds (length advances) advances (sx + width) start (zlen advances) ltac:(lia)) as B.
  fold (bisect_right advances (sx + width) start) in B. set (cut := bisect_right _ _ _) in *.
  set (e := if cut <=? start then start + 1 else cut). assert (He : start < e <= zlen line) by (unfold e; split_if; lia).
  destruct (word_end_spec (length line) line start e) as (H1 & _ & _); [lia|unfold zlen in *; lia|].
  split_if; lia.
Qed.

Lemma segments_cover fuel line advances width : zlen advances = zlen line -> forall start,
  0 <= start <= zlen line -> zlen line - start <= Z.of_nat fuel ->
  covers (segments_from fuel line advances width start) start (zlen line).
Proof.
  intros Hl. induction fuel as [|f IH]; intros start Hs Hf; cbn [segments_from covers]; [lia|].
  destruct (start <? zlen line) eqn:E; cbn [covers]; [|lia].
  pose proof (segment_end_bounds line advances width start Hl ltac:(lia)).
  split_and!; [done|lia|]. apply IH; lia.
Qed.

(** The rows of a line that is not empty cover it. *)
Lemma line_segments_cover line advances width : line <> [] -> covers (line_segments line advances width) 0 (zlen line).
Proof.
  intros Hne. unfold line_segments. destruct line as [|c line]; [done|]. set (l := c :: line).
  assert (0 < zlen l) by (unfold l; rewrite zlen_cons; pose proof (zlen_nonneg line); lia).
  destruct (Z.eqb_spec (zlen advances) (zlen l)) as [E|]; [|cbn; lia].
  pose proof (segments_cover (length l) l advances width E 0 ltac:(lia) ltac:(unfold zlen; lia)) as H1.
  destruct (segments_from (length l) l advances width 0) eqn:Es; [|done].
  cbn [covers] in H1. lia.
Qed.

Lemma line_segments_nonempty line advances width : line_segments line advances width <> [].
Proof.
  unfold line_segments. destruct line as [|c line]; [done|]. destruct (_ =? _); [|done].
  by destruct (segments_from _ _ _ _ _).
Qed.

(** A row from [start] to [stop] fits the width. *)
Definition fits (advances : list Z) (width start stop : Z) : Prop :=
  znth advances (stop - 1) - (if 0 <? start then znth advances (start - 1) else 0) <= width.

(** Where a row that starts at [start] must end: [full] is where the width is
    used up, at least one character on; the row ends there at the end of the
    line, otherwise behind the last white space before [full], or at [full] itself
    when there is none. *)
Definition row_breaks (line : pystr) (advances : list Z) (width : Z) (se : seg) : Prop :=
  let '(start, stop) := se in
  exists full, start < stop <= full /\ full <= zlen line /\
    (fits advances width start full \/ full = start + 1) /\
    (forall x, full < x <= zlen line -> ~ fits advances width start x) /\
    (stop = full \/ full < zlen line /\ is_space (znth line (stop - 1)) = true) /\
    (full < zlen line -> forall i, stop <= i < full -> is_space (znth line i) = false) /\
    (full < zlen line -> stop = full -> is_space (znth line (full - 1)) = true \/
       forall i, start <= i < full -> is_space (znth line i) = false).

Lemma segment_end_spec line advances width start : zlen advances = zlen line -> ascending advances ->
  0 <= start < zlen line -> row_breaks line advances width (start, segment_end line advances width start).
Proof.
  intros Hl Ha Hs. unfold row_breaks, fits, segment_end. set (sx := if 0 <? start then _ else _).
  destruct (bisect_right_spec advances (sx + width) start Ha ltac:(lia)) as (B & B1 & B2).
  set (cut := bisect_right _ _ _) in *. set (e := if cut <=? start then start + 1 else cut).
  assert (He : start < e <= zlen line) by (unfold e; split_if; lia).
  assert (Hfit : znth advances (e - 1) - sx <= width \/ e = start + 1).
  { unfold e. destruct (cut <=? start) eqn:E; [right; lia|left]. specialize (B1 (cut - 1)). lia. }
  assert (Hover : forall x, e < x <= zlen line -> ~ znth advances (x - 1) - sx <= width).
  { intros x Hx. specialize (B2 (x - 1)). unfold e in Hx. destruct (cut <=? start) eqn:E; lia. }
  destruct (word_end_spec (length line) line start e) as (H1 & H2 & H3); [lia|unfold zlen in *; lia|].
  set (w := word_end _ _ _ _) in *. exists e. destruct (e <? zlen line) eqn:E1; [destruct (start <? w) eqn:E2|].
  - specialize (H2 ltac:(lia)). split_and!; [lia..|done|done|right; split; [lia|done]|intros _; apply H3|].
    intros _ Hw. left. by rewrite <- Hw.
  - split_and!; [lia..|done|done|by left|intros; lia|]. intros _ _. right. intros i Hi. apply H3. lia.
  - split_and!; [lia..|done|done|by left|intros; lia|intros; lia].
Qed.

Lemma segments_spec fuel line advances width : zlen advances = zlen line -> ascending advances -> forall start,
  0 <= start -> Forall (row_breaks line advances width) (segments_from fuel line advances width start).
Proof.
  intros Hl Ha. induction fuel as [|f IH]; intros start Hs; cbn [segments_from]; [constructor|].
  destruct (start <? zlen line) eqn:E; [|constructor].
  pose proof (segment_end_bounds line advances width start Hl ltac:(lia)).
  constructor; [apply segment_end_spec; [done..|lia]|]. apply IH. lia.
Qed.

(** ** Advances *)

Section Advances.
Context {FT : Font}.

(** Glyphs do not advance to the left. *)
Class FontLaws : Prop := {
  advance_nonneg path size c a : glyph_advance path size c = Some a -> 0 <= a }.

Lemma advances_from_spec `{FontLaws} tabw path size text : 0 < tabw -> forall x v l, 0 <= v ->
  advances_from tabw path size text x v = Some l ->
  zlen l = zlen text /\ ascending l /\ forall i, 0 <= i < zlen l -> Z.max 0 (Z.min 4294967295 x) <= znth l i.
Proof.
  intros Ht. induction text as [|c text IH]; intros x v l Hv; cbn [advances_from].
  - intros [= <-]. split_and!; [done|intros i j; unfold zlen; cbn; lia|intros i; unfold zlen; cbn; lia].
  - destruct (glyph_advance path size (if c =? TAB then SPACE else c)) as [a|] eqn:Ga; [|done]. cbn.
    apply advance_nonneg in Ga. set (sp := if c =? TAB then tabw - v mod tabw else 1).
    pose proof (Z.mod_pos_bound v tabw Ht). assert (Hsp : 0 < sp) by (unfold sp; destruct (c =? TAB); lia).
    destruct (advances_from tabw path size text (x + a * sp) (v + sp)) as [l'|] eqn:E; [|done]. cbn. intros [= <-].
    destruct (IH (x + a * sp) (v + sp) l' ltac:(lia) E) as (H1 & H2 & H3). rewrite !zlen_cons, H1. assert (0 <= a * sp) by nia.
    pose proof (zlen_nonneg l'). pose proof (zlen_nonneg text).
    assert (N0 : forall y (k : list Z), znth (y :: k) 0 = y) by done.
    assert (NS : forall y (k : list Z) i, 0 < i -> znth (y :: k) i = znth k (i - 1)).
    { intros y k i Hi. unfold znth. replace (Z.to_nat i) with (S (Z.to_nat (i - 1))) by lia. done. }
    split_and!; [done| |].
    + intros i j Hij Hj. rewrite zlen_cons in Hj. destruct (decide (j = 0)) as [->|]; [by replace i with 0 by lia|].
      rewrite (NS _ _ j) by lia. destruct (decide (i = 0)) as [->|].
      * rewrite N0. specialize (H3 (j - 1)). lia.
      * rewrite NS by lia. apply H2; lia.
    + intros i Hi. destruct (decide (i = 0)) as [->|]; [rewrite N0; lia|]. rewrite NS by lia.
      specialize (H3 (i - 1)). lia.
Qed.

Lemma measurelineadvances_spec `{FontLaws} tabw text size path :
  ascending (measurelineadvances tabw text size path).
Proof.
  unfold measurelineadvances. destruct (advances_from _ _ _ _ _ _) as [l|] eqn:E; cbn.
  - apply advances_from_spec in E; [apply E|lia|lia].
  - intros i j. unfold zlen. cbn. lia.
Qed.

(** The characters whose glyphs the font has. *)
Definition measurable (path : pystr) (size : Z) (line : pystr) : Prop :=
  Forall (fun c => is_Some (glyph_advance path size (if c =? TAB then SPACE else c))) line.

Lemma advances_measurable tabw path size line : forall x v,
  measurable path size line <-> is_Some (advances_from tabw path size line x v).
Proof.
  unfold measurable. induction line as [|c line IH]; intros x v; cbn [advances_from]; [split; [by eexists|constructor]|].
  rewrite Forall_cons. destruct (glyph_advance path size (if c =? TAB then SPACE else c)) as [a|]; cbn.
  - rewrite (IH (x + a * (if c =? TAB then tabw - v mod tabw else 1)) (v + (if c =? TAB then tabw - v mod tabw else 1))).
    destruct (advances_from _ _ _ _ _ _); cbn; split; [by eexists|by split|by intros [_ [? ?]]|by intros [? ?]].
  - split; [by intros [[? ?] _]|by intros [? ?]].
Qed.

Lemma measurable_length `{FontLaws} tabw path size line : line <> [] ->
  measurable path size line <-> zlen (measurelineadvances tabw line size path) = zlen line.
Proof.
  intros Hne. unfold measurelineadvances. rewrite (advances_measurable (Z.max 1 tabw) path size line 0 0).
  destruct (advances_from _ _ _ _ _ _) as [l|] eqn:E; cbn.
  - apply advances_from_spec in E; [|lia..]. split; [intros _; apply E|by eexists].
  - split; [by intros [? ?]|]. destruct line as [|c line]; [done|]. intros Hl. exfalso. unfold zlen in Hl. cbn in Hl. lia.
Qed.

End Advances.
Arguments FontLaws FT : clear implicits.

(** ** The property *)

Section Property.
Context {FT : Font} {FL : FontLaws FT}.

(** C32: the rows [wrapline] computes for a line cover it from its first to its
    last character, in order and without empty rows (one empty row for an empty
    line, one row for a line with a character that cannot be measured). Otherwise
    each row ends exactly where it must: where the width is used up, though at
    least one character on, a row takes all that fits at the end of the line, and
    before it ends behind the last white space that fits, or, inside a word that
    fills the row, where the next character would not fit. *)
Theorem wrapline_partition tabw line size path width :
  let segs := line_segments line (measurelineadvances tabw line size path) width in
  (line = [] -> segs = [(0, 0)]) /\
  (line <> [] -> covers segs 0 (zlen line)) /\
  (line <> [] -> ~ measurable path size line -> segs = [(0, zlen line)]) /\
  (line <> [] -> measurable path size line ->
     Forall (row_breaks line (measurelineadvances tabw line size path) width) segs).
Proof.
  set (advances := measurelineadvances tabw line size path). intros segs. split_and!.
  - unfold segs. by intros ->.
  - intros Hne. by apply line_segments_cover.
  - intros Hne Hm. rewrite (measurable_length tabw) in Hm by done. fold advances in Hm. unfold segs, line_segments.
    destruct line; [done|]. by rewrite (proj2 (Z.eqb_neq _ _) Hm).
  - intros Hne Hl. rewrite (measurable_length tabw) in Hl by done. fold advances in Hl.
    unfold segs, line_segments. destruct line as [|c line]; [done|]. rewrite Hl, Z.eqb_refl.
    pose proof (segments_spec (length (c :: line)) (c :: line) advances width Hl (measurelineadvances_spec tabw _ _ _) 0 ltac:(lia)) as S.
    pose proof (segments_cover (length (c :: line)) (c :: line) advances width Hl 0) as C.
    destruct (segments_from _ _ _ _ _) as [|x l]; [|done]. exfalso.
    pose proof (zlen_nonneg line). rewrite zlen_cons in C. cbn [covers] in C. unfold zlen in *. simpl in C. lia.
Qed.

End Property.
