(* ===== verification/WriteFormat.v ===== *)
(** The file formats of the editor ([write/write.py]): how the encoding of a file
    is found from its first bytes, how its text falls into lines, and the bytes
    written for a document.  The codecs are those of the language. *)

From stdpp Require Import base option list.
From Stdlib Require Import ZArith Lia Bool String.
From S2P Require Import Prelude PyText PyStr PyPath WriteState.
Open Scope Z_scope.

(** ** Codecs *)

(** [codecs.BOM_*]. *)
Definition BOM_UTF8 : bytes := [239; 187; 191].
Definition BOM_UTF16_LE : bytes := [255; 254].
Definition BOM_UTF16_BE : bytes := [254; 255].
Definition BOM_UTF32_LE : bytes := [255; 254; 0; 0].
Definition BOM_UTF32_BE : bytes := [0; 0; 254; 255].

(** Whether no later byte can make these bytes wrong: the incremental UTF-8
    decoder with [final=False]. *)
Fixpoint utf8_prefix (l : bytes) : bool :=
  match l with
  | [] => true
  | b0 :: l1 =>
    if b0 <? 128 then utf8_prefix l1
    else if in_rng 194 223 b0 then
      match l1 with b1 :: l2 => is_cont b1 && utf8_prefix l2 | [] => true end
    else if in_rng 224 239 b0 then
      match l1 with
      | b1 :: l2 =>
        second3 b0 b1 && match l2 with b2 :: l3 => is_cont b2 && utf8_prefix l3 | [] => true end
      | [] => true
      end
    else if in_rng 240 244 b0 then
      match l1 with
      | b1 :: l2 =>
        second4 b0 b1 &&
        match l2 with
        | b2 :: l3 => is_cont b2 && match l3 with b3 :: l4 => is_cont b3 && utf8_prefix l4 | [] => true end
        | [] => true
        end
      | [] => true
      end
    else false
  end.

(** UTF-16 as 16-bit units, UTF-32 as 32-bit units. *)
Definition is_high (u : Z) : bool := in_rng 55296 56319 u.
Definition is_low (u : Z) : bool := in_rng 56320 57343 u.

Fixpoint utf16_chars (units : list Z) : res pystr :=
  match units with
  | [] => Ok []
  | u :: rest =>
      if is_high u then
        match rest with
        | v :: rest' =>
            if is_low v then s ← utf16_chars rest'; Ok ((65536 + (u - 55296) * 1024 + (v - 56320)) :: s)
            else Exc UnicodeError
        | [] => Exc UnicodeError
        end
      else if is_low u then Exc UnicodeError
      else s ← utf16_chars rest; Ok (u :: s)
  end.

Definition utf16_units (c : Z) : list Z :=
  if c <? 65536 then [c] else [55296 + (c - 65536) / 1024; 56320 + (c - 65536) mod 1024].

Fixpoint units16 (big : bool) (b : bytes) : res (list Z) :=
  match b with
  | [] => Ok []
  | [_] => Exc UnicodeError
  | x :: y :: b' => us ← units16 big b'; Ok ((if big then x * 256 + y else y * 256 + x) :: us)
  end.
Definition bytes16 (big : bool) (u : Z) : bytes :=
  if big then [u / 256; u mod 256] else [u mod 256; u / 256].

Fixpoint units32 (big : bool) (b : bytes) : res (list Z) :=
  match b with
  | [] => Ok []
  | w :: x :: y :: z :: b' =>
      us ← units32 big b';
      Ok ((if big then ((w * 256 + x) * 256 + y) * 256 + z else ((z * 256 + y) * 256 + x) * 256 + w) :: us)
  | _ => Exc UnicodeError
  end.
Definition bytes32 (big : bool) (u : Z) : bytes :=
  let l := [u / 16777216; (u / 65536) mod 256; (u / 256) mod 256; u mod 256] in if big then l else rev l.

Definition strict_chars (s : list Z) : res pystr := if forallb is_scalar s then Ok s else Exc UnicodeError.

(** [bytes.decode(name, errors='strict')] for the names [detectfileformatsample]
    gives; the codecs with a mark take the byte order from it and drop it. *)
Definition decode_strict (name : pystr) (b : bytes) : res pystr :=
  if str_eqb name (lit "utf-8") then utf8_decode b
  else if str_eqb name (lit "utf-8-sig") then
    utf8_decode (if starts_with BOM_UTF8 b then zdrop 3 b else b)
  else if str_eqb name (lit "utf-32") then
    us ← (if starts_with BOM_UTF32_BE b then units32 true (zdrop 4 b)
          else units32 false (if starts_with BOM_UTF32_LE b then zdrop 4 b else b));
    strict_chars us
  else if str_eqb name (lit "utf-16") then
    us ← (if starts_with BOM_UTF16_BE b then units16 true (zdrop 2 b)
          else units16 false (if starts_with BOM_UTF16_LE b then zdrop 2 b else b));
    utf16_chars us
  else if str_eqb name (lit "latin-1") then Ok b
  else Exc LookupError.

(** [str.encode(name, errors='strict')] for the names a document can have. *)
Definition encode_strict (name : pystr) (s : pystr) : res bytes :=
  if str_eqb name (lit "utf-8") then utf8_encode s
  else if existsb is_surrogate s && negb (str_eqb name (lit "latin-1")) then Exc UnicodeError
  else if str_eqb name (lit "utf-16-le") then Ok (flat_map (bytes16 false) (flat_map utf16_units s))
  else if str_eqb name (lit "utf-16-be") then Ok (flat_map (bytes16 true) (flat_map utf16_units s))
  else if str_eqb name (lit "utf-32-le") then Ok (flat_map (bytes32 false) s)
  else if str_eqb name (lit "utf-32-be") then Ok (flat_map (bytes32 true) s)
  else if str_eqb name (lit "latin-1") then
    if forallb (fun c => c <? 256) s then Ok s else Exc UnicodeError
  else Exc LookupError.

(** ** Reading *)

(** Encoding, byte order mark, and the codec to read with. *)
Definition detectfileformatsample (sample : bytes) : pystr * bool * pystr :=
  if starts_with BOM_UTF8 sample then (lit "utf-8", true, lit "utf-8-sig")
  else if starts_with BOM_UTF32_LE sample then (lit "utf-32-le", true, lit "utf-32")
  else if starts_with BOM_UTF32_BE sample then (lit "utf-32-be", true, lit "utf-32")
  else if starts_with BOM_UTF16_LE sample then (lit "utf-16-le", true, lit "utf-16")
  else if starts_with BOM_UTF16_BE sample then (lit "utf-16-be", true, lit "utf-16")
  else if utf8_prefix sample then (lit "utf-8", false, lit "utf-8")
  else (lit "latin-1", false, lit "latin-1").

(** Iterating over [io.StringIO(text, newline='')]: lines with their endings. *)
Fixpoint stream_values (line s : pystr) : list pystr :=
  match s with
  | [] => match line with [] => [] | _ => [rev line] end
  | c :: s' =>
      if c =? NL then rev (c :: line) :: stream_values [] s'
      else if c =? CR then
        match s' with
        | d :: s'' =>
            if d =? NL then rev (d :: c :: line) :: stream_values [] s''
            else rev (c :: line) :: stream_values [] s'
        | [] => [rev (c :: line)]
        end
      else stream_values (c :: line) s'
  end.

Definition filelineending (text : pystr) : pystr * pystr :=
  if ends_with [CR; NL] text then (ztake (zlen text - 2) text, [CR; NL])
  else if ends_with [NL] text then (ztake (zlen text - 1) text, [NL])
  else if ends_with [CR] text then (ztake (zlen text - 1) text, [CR])
  else (text, []).

(** [newlinecounts], in the order of the dict. *)
Definition newlines : list pystr := [[NL]; [CR; NL]; [CR]].
Definition newlinecount (endings : list pystr) (n : pystr) : Z := zlen (filter (fun e => e = n) endings).

(** The newline of the document: the first one of the file unless another is more
    frequent. *)
Definition payload_newline (endings : list pystr) : pystr :=
  let maximum := foldr Z.max 0 (List.map (newlinecount endings) newlines) in
  let newline := match filter (fun e => e <> []) endings with e :: _ => e | [] => [NL] end in
  if maximum =? 0 then newline else
  let candidates := filter (fun n => newlinecount endings n = maximum) newlines in
  if bool_decide (newline ∈ candidates) then newline else List.hd newline candidates.

(** Lines and newline of a text. *)
Definition text_lines (text : pystr) : list pystr * pystr :=
  let parts := List.map filelineending (stream_values [] text) in
  let lines := List.map fst parts in
  let endings := List.map snd parts in
  let lines := if bool_decide (List.last endings [] = []) then lines else lines ++ [[]] in
  (match lines with [] => [[]] | _ => lines end, payload_newline endings).

(** What [readfilepayload] makes of the bytes, detecting the encoding from the
    [sample]. *)
Definition parse_payload (sample payload : bytes) : res (list pystr * metadata) :=
  let '(encoding, bom, readencoding) := detectfileformatsample sample in
  text ← decode_strict readencoding payload;
  let '(lines, newline) := text_lines text in
  Ok (lines, mkmetadata (seqZ 1 (zlen lines)) (zreplicate (zlen lines) 0) (Some (encoding, bom, newline))).

(** ** Writing *)

Definition encodingbom (encoding : pystr) : bytes :=
  let name := ascii_lower encoding in
  if str_eqb name (lit "utf-8") then BOM_UTF8
  else if str_eqb name (lit "utf-16-le") then BOM_UTF16_LE
  else if str_eqb name (lit "utf-16-be") then BOM_UTF16_BE
  else if str_eqb name (lit "utf-32-le") then BOM_UTF32_LE
  else if str_eqb name (lit "utf-32-be") then BOM_UTF32_BE
  else [].

(** [newline if newline in (...) else '\n'], for a file loaded and a file
    written. *)
Definition known_newline (n : pystr) : pystr :=
  if bool_decide (n = [NL]) || bool_decide (n = [CR; NL]) || bool_decide (n = [CR]) then n else [NL].

(** The lines with the separator between them. *)
Fixpoint written_lines (codec separator : pystr) (lines : list pystr) : res bytes :=
  match lines with
  | [] => Ok []
  | value :: rest =>
      b ← encode_strict codec value;
      match rest with
      | [] => Ok b
      | _ =>
          sep ← encode_strict codec separator;
          more ← written_lines codec separator rest;
          Ok (b ++ sep ++ more)
      end
  end.

(** What [writefilesnapshotstream] writes. *)
Definition snapshot_bytes (lines : list pystr) (encoding : pystr) (bom : bool) (newline : pystr) : res bytes :=
  let codec := ascii_lower (match encoding with [] => lit "utf-8" | _ => encoding end) in
  b ← written_lines codec (known_newline newline) lines;
  Ok ((if bom then encodingbom codec else []) ++ b).
