(* ===== verification/WriteDisk.v ===== *)
(** Loading and saving on a file system ([write/write.py]): the session user, the
    paths a document may have, the bounded read and the atomic save.

    The kernel resolves a path through directories only: links have no target in
    this file system, so a path that leads through one names nothing.  A write
    moves at least one byte or fails, and what an exception leaves in the buffer
    of a stream reaches a file that is then removed. *)

From stdpp Require Import base option list gmap.
From Stdlib Require Import ZArith Lia Bool String.
From S2P Require Import Prelude PyText PyVal PyJson PyStr PyFs PyPath PyB64 WriteState WriteFormat.
Open Scope Z_scope.

Definition MAXDOCUMENTBYTES : Z := 64 * 1024 * 1024.
Definition SESSIONIDENTITYFILE : list pystr := [lit "the one"; lit "settings"; lit "session"; lit "identity.json"].
Definition SESSIONIDENTITYMAXBYTES : Z := 1024.

(** [SESSIONUSERNAME.fullmatch]. *)
Definition session_username (s : pystr) : bool :=
  match s with
  | c :: rest =>
      ascii_alnum c && forallb (fun d => ascii_alnum d || has_char d (lit "._-")) rest && (zlen rest <=? 31)
  | [] => false
  end.

Section Disk.
Context {OS : Os}.

(** ** Calls *)

(** [os.open(path, O_RDONLY)] and [os.open(path, O_RDONLY | O_DIRECTORY)]. *)
Definition os_open_file (comps : list pystr) : IO ino := syscall (fun _ w =>
  match comps with
  | [] => PyFs.opened root_ino w
  | _ =>
      let '(parent, name) := split_path comps in
      match reach w root_ino parent with
      | Some d => at_entry d name w
          (fun i n => match i_kind n with KLink => (Exc FileNotFoundError, w) | _ => PyFs.opened i w end)
          (Exc FileNotFoundError, w)
      | None => (Exc FileNotFoundError, w)
      end
  end).

Definition os_open_folder (comps : list pystr) : IO ino := syscall (fun _ w =>
  match reach w root_ino comps with
  | Some d => PyFs.opened d w
  | None => (Exc FileNotFoundError, w)
  end).

(** Reading blocks until the end of the file or the bound. *)
Fixpoint read_blocks (fuel : nat) (fd : ino) (off remaining : Z) : IO bytes :=
  match fuel with
  | O => mret []
  | S fuel =>
      if remaining =? 0 then mret []
      else
        block ← os_read fd off (Z.min (1024 * 1024) remaining);
        match block with
        | [] => mret []
        | _ =>
            rest ← read_blocks fuel fd (off + zlen block) (remaining - zlen block);
            mret (block ++ rest)
        end
  end.

(** [stream.flush()]: the buffer goes out in as many writes as it takes. *)
Fixpoint flush (fuel : nat) (fd : ino) (buffer : bytes) : IO unit :=
  match buffer, fuel with
  | [], _ | _, O => mret tt
  | _, S fuel => n ← os_write_least 1 fd buffer; flush fuel fd (zdrop n buffer)
  end.

(** ** The session user *)

Definition raises_runtime {A} (m : IO A) : IO A :=
  try_io m (fun e => if is_oserror e then raise RuntimeError else raise e).

Definition session_identity (raw : bytes) : res pystr :=
  match (s ← utf8_decode raw; json_loads s) with
  | Exc e => Exc (if is_valueerror e then RuntimeError else e)
  | Ok (PDict d) =>
      match dict_get (lit "format") d, dict_get (lit "username") d with
      | Some (PInt 1), Some (PStr name) =>
          if (zlen d =? 2) && session_username name then Ok name else Exc RuntimeError
      | _, _ => Exc RuntimeError
      end
  | Ok _ => Exc RuntimeError
  end.

Definition getusername : IO pystr :=
  raw ← raises_runtime
    (descriptor ← os_open_file SESSIONIDENTITYFILE;
     finally
       (metadata ← os_fstat descriptor;
        guard_io (isreg metadata && (i_uid metadata =? 0) && (i_gid metadata =? 1000)
                  && (Z.land (i_mode metadata) 4095 =? 416)) PermissionError ;;
        read_blocks (Z.to_nat (SESSIONIDENTITYMAXBYTES + 1)) descriptor 0 (SESSIONIDENTITYMAXBYTES + 1))
       (os_close descriptor));
  guard_io (zlen raw <=? SESSIONIDENTITYMAXBYTES) RuntimeError ;;
  lift (session_identity raw).

(** ** Paths *)

(** [os.path.normpath] of an absolute path: its components and its text, which
    keeps two leading slashes. *)
Definition path_comps (path : pystr) : list pystr := norm_comps [] (split_on 47 path).
Definition normpath (path : pystr) : pystr :=
  (if starts_with (lit "//") path && negb (starts_with (lit "///") path) then lit "//" else lit "/")
  ++ join_with [47] (path_comps path).

(** [not isinstance(value, str) or not value or NUL in value], and an absolute
    path. *)
Definition path_text (raw : pystr) : bool :=
  negb (str_eqb raw []) && negb (has_char 0 raw) && starts_with [47] raw.

(** The components below [root] of a path inside it. *)
Fixpoint below (root path : list pystr) : option (list pystr) :=
  match root, path with
  | [], _ => Some path
  | r :: root', p :: path' => if str_eqb r p then below root' path' else None
  | _ :: _, [] => None
  end.

(** Path, root and parts. *)
Definition usersavepath (raw : pystr) : IO (pystr * list pystr * list pystr) :=
  guard_io (path_text raw) PermissionError ;;
  username ← getusername;
  let root := [lit "master"; username] in
  match below root (path_comps raw) with
  | None | Some [] => raise PermissionError
  | Some parts => mret (normpath raw, root, parts)
  end.

Definition userreadpath (raw : pystr) : res pystr :=
  if path_text raw then Ok (normpath raw) else Exc PermissionError.

(** ** Saving *)

Definition validateduserdirectory (fd : ino) : IO unit :=
  metadata ← os_fstat fd;
  guard_io (os_euid =? 1000) PermissionError ;;
  guard_io (isdir metadata && (i_uid metadata =? 1000)) PermissionError ;;
  guard_io (Z.land (i_mode metadata) 18 =? 0) PermissionError.

(** From [d], which is closed, to the directory of the last part. *)
Fixpoint open_parts (d : ino) (parts : list pystr) : IO ino :=
  match parts with
  | component :: (_ :: _) as rest =>
      child ← on_error
        (child ← os_open_dir d component;
         on_error (validateduserdirectory child) (os_close child) ;;
         mret child)
        (os_close d);
      os_close d ;;
      open_parts child rest
  | _ => mret d
  end.

Definition openusersaveparent (raw : pystr) : IO (pystr * ino * pystr) :=
  '(path, root, parts) ← usersavepath raw;
  descriptor ← os_open_folder root;
  on_error (validateduserdirectory descriptor) (os_close descriptor) ;;
  parent ← open_parts descriptor parts;
  mret (path, parent, List.last parts []).

Definition validateusersavetarget (parentfd : ino) (name : pystr) : IO unit :=
  found ← try_io (n ← os_lstat parentfd name; mret (Some n))
            (fun e => if bool_decide (e = FileNotFoundError) then mret None else raise e);
  match found with
  | None => mret tt
  | Some metadata =>
      guard_io (isreg metadata) PermissionError ;;
      guard_io (i_uid metadata =? os_euid) PermissionError ;;
      guard_io (Z.land (i_mode metadata) 18 =? 0) PermissionError
  end.

Definition writefilesnapshotstream (fd : ino) (lines : list pystr) (encoding : pystr) (bom : bool) (newline : pystr) : IO unit :=
  data ← lift (snapshot_bytes lines encoding bom newline);
  flush (List.length data) fd data ;;
  os_fsync fd.

(** [f'.write-{os.getpid()}-{secrets.token_hex(16)}.tmp']. *)
Definition temporary_save (token : bytes) : pystr :=
  lit ".write-" ++ int_str os_pid ++ lit "-" ++ hex_of token ++ lit ".tmp".

(** The number of names a file has, [st_nlink] in what [os.fstat] tells of it: the
    entries of all directories that lead to it. *)
Definition names_in (i : ino) (n : inode) : Z :=
  match i_kind n with
  | KDir es => zlen (filter (fun e : pystr * ino => e.2 = i) (map_to_list es))
  | _ => 0
  end.
Definition st_nlink (w : world) (i : ino) : Z := foldr Z.add 0 (List.map (fun e : ino * inode => names_in i e.2) (map_to_list (w_nodes w))).
Definition links_of (i : ino) : IO Z := fun w => (Ok (st_nlink w i), w).

(** The temporary file filled, from its opening to its closing. *)
Definition fill_temporary (descriptor : ino) (lines : list pystr) (encoding : pystr) (bom : bool) (newline : pystr) : IO unit :=
  finally
    (metadata ← os_fstat descriptor;
     links ← links_of descriptor;
     guard_io (isreg metadata && (i_uid metadata =? os_euid) && (links =? 1)) PermissionError ;;
     writefilesnapshotstream descriptor lines encoding bom newline)
    (os_close descriptor).

Definition tolerate_oserror (m : IO unit) : IO unit := try_io m (fun e => if is_oserror e then mret tt else raise e).

Definition writeuserfilesnapshot (path : pystr) (lines : list pystr) (encoding : pystr) (bom : bool) (newline : pystr) : IO pystr :=
  '(canonical, parentfd, name) ← openusersaveparent path;
  token ← os_urandom 16;
  let temporary := temporary_save token in
  finally
    (validateusersavetarget parentfd name ;;
     descriptor ← os_open_excl parentfd temporary 384;
     on_error
       (fill_temporary descriptor lines encoding bom newline ;;
        validateusersavetarget parentfd name ;;
        os_rename parentfd temporary name)
       (tolerate_oserror (os_unlink parentfd temporary)) ;;
     os_fsync parentfd ;;
     mret canonical)
    (os_close parentfd).

(** ** Loading *)

(** The file does not change between the calls: the reads end after as many as it
    has bytes and one that finds the end. *)
Definition readfilepayload (requested : pystr) : IO (pystr * list pystr * metadata) :=
  path ← lift (userreadpath requested);
  descriptor ← os_open_file (path_comps path);
  finally
    (metadata ← os_fstat descriptor;
     guard_io (isreg metadata && (st_size metadata <=? MAXDOCUMENTBYTES)) PermissionError ;;
     sample ← os_read descriptor 0 65536;
     payload ← read_blocks (Z.to_nat (st_size metadata + 1)) descriptor 0 (MAXDOCUMENTBYTES + 1);
     guard_io (zlen payload <=? MAXDOCUMENTBYTES) PermissionError ;;
     '(lines, m) ← lift (parse_payload sample payload);
     mret (path, lines, m))
    (os_close descriptor).

(** ** The worker thread *)

(** The text of an exception, [str(e)]. *)
Context (error_text : exn -> pystr).

Definition fileloadworker (path : pystr) : IO ioresult :=
  try_io ('(path, lines, m) ← readfilepayload path; mret (IoLoaded path lines m))
    (fun e => mret (IoFailed false
       match e with
       | FileNotFoundError => lit "file not found"
       | PermissionError => lit "permission denied"
       | _ => lit "load error " ++ error_text e
       end)).

Definition filesaveworker (path : pystr) (lines : list pystr) (revision : Z) (encoding : pystr) (bom : bool) (newline : pystr)
    : IO ioresult :=
  try_io (path ← writeuserfilesnapshot path lines encoding bom newline; mret (IoSaved path revision))
    (fun e => mret (IoFailed true
       match e with
       | PermissionError => lit "permission denied"
       | _ => lit "save error " ++ error_text e
       end)).

(** What the thread does. *)
Definition worker (job : iojob) : IO ioresult :=
  match job with
  | LoadJob path => fileloadworker path
  | SaveJob path lines revision encoding bom newline => filesaveworker path lines revision encoding bom newline
  end.

End Disk.
