(* ===== verification/WriteTree.v ===== *)
(** The index of visual rows in the text editor ([write/write.py]): a binary
    indexed tree over the number of screen rows each line of the document takes.

    [tree] is [WRAP_COUNT_TREE] (its entry 0 is unused) and [counts] is
    [WRAP_LINE_COUNTS]; an entry of the tree that does not exist raises
    [IndexError].  The loops that climb or descend the tree take fuel; the tree's
    length is enough because the cursor moves at least by one. *)

From stdpp Require Import base option list.
From Stdlib Require Import ZArith Lia Bool.
From Stdlib Require Import ZArith Lia Bool Zwf.
From S2P Require Import Prelude.
Open Scope Z_scope.

(** [cursor & -cursor]. *)
Definition lowbit (cursor : Z) : Z := Z.land cursor (- cursor).

(** [max(1, int(value))]: a line takes at least one row. *)
Definition row_height (value : Z) : Z := Z.max 1 value.

(** [tree[cursor]]. *)
Definition tree_get (tree : list Z) (cursor : Z) : res Z :=
  if (0 <=? cursor) && (cursor <? zlen tree) then Ok (znth tree cursor) else Exc IndexError.

(** [while cursor < len(tree): tree[cursor] += delta; cursor += cursor & -cursor]. *)
Fixpoint climb (fuel : nat) (tree : list Z) (cursor delta : Z) : list Z :=
  match fuel with
  | O => tree
  | S fuel =>
      if cursor <? zlen tree then
        climb fuel (<[Z.to_nat cursor := znth tree cursor + delta]> tree)
          (cursor + lowbit cursor) delta
      else tree
  end.

(** The body of the outer loop of [wraptreebuild], for the counts that remain. *)
Fixpoint build_from (index : Z) (counts : list Z) (tree : list Z) : list Z :=
  match counts with
  | [] => tree
  | value :: rest =>
      build_from (index + 1) rest (climb (length tree) tree index (row_height value))
  end.

Definition wraptreebuild (counts : list Z) : list Z :=
  build_from 1 counts (zreplicate (zlen counts + 1) 0).

Definition wraptreeupdate (tree : list Z) (row delta : Z) : list Z :=
  climb (length tree) tree (row + 1) delta.

(** [while cursor > 0: total += tree[cursor]; cursor -= cursor & -cursor]. *)
Fixpoint descend (fuel : nat) (tree : list Z) (cursor total : Z) : res Z :=
  match fuel with
  | O => Ok total
  | S fuel =>
      if 0 <? cursor then
        v ← tree_get tree cursor;
        descend fuel tree (cursor - lowbit cursor) (total + v)
      else Ok total
  end.

Definition wraptreeprefix (counts tree : list Z) (row : Z) : res Z :=
  let cursor := Z.max 0 (Z.min (zlen counts) row) in
  descend (Z.to_nat cursor) tree cursor 0.

Definition wraptreetotal (counts tree : list Z) : res Z := wraptreeprefix counts tree (zlen counts).

(** [int.bit_length]. *)
Definition bit_length (n : Z) : Z := if n =? 0 then 0 else Z.log2 (Z.abs n) + 1.

(** The loop over [bit], from [2^k] down to 1. *)
Fixpoint seek (k : nat) (tree : list Z) (position accumulated target : Z) : Z :=
  let candidate := position + 2 ^ Z.of_nat k in
  let taken := (candidate <? zlen tree) && (accumulated + znth tree candidate <=? target) in
  let position' := if taken then candidate else position in
  let accumulated' := if taken then accumulated + znth tree candidate else accumulated in
  match k with
  | O => position'
  | S k => seek k tree position' accumulated' target
  end.

Definition wraptreefind (counts tree : list Z) (index : Z) : res Z :=
  match counts with
  | [] => Ok 0
  | _ =>
      total ← wraptreetotal counts tree;
      let target := Z.max 0 (Z.min (Z.max 0 (total - 1)) index) in
      let k := Z.to_nat (Z.max 0 (bit_length (zlen tree - 1) - 1)) in
      Ok (Z.min (zlen counts - 1) (seek k tree 0 0 target))
  end.

(** The binary indexed tree of the text editor refines the list of row heights:
    building, updating, prefix sums and the search by visual row. *)
(** ** The lowest set bit *)

Lemma lowbit_double n : lowbit (2 * n) = 2 * lowbit n.
Proof.
  unfold lowbit. replace (- (2 * n)) with (2 * - n) by lia.
  rewrite !(Z.mul_comm 2), <- !(Z.shiftl_mul_pow2 _ 1), Z.shiftl_land by lia. done.
Qed.

Lemma lowbit_odd n : lowbit (2 * n + 1) = 1.
Proof.
  unfold lowbit. replace (- (2 * n + 1)) with (2 * (- n - 1) + 1) by lia.
  apply Z.bits_inj'. intros i Hi. rewrite Z.land_spec.
  destruct (decide (i = 0)) as [->|].
  { rewrite !Z.testbit_odd_0. done. }
  rewrite (Z.bits_above_log2 1 i) by (simpl; lia).
  replace i with (Z.succ (i - 1)) by lia. rewrite !Z.testbit_odd_succ by lia.
  replace (- n - 1) with (Z.lnot n) by (unfold Z.lnot; lia).
  rewrite Z.lnot_spec by lia. apply andb_negb_r.
Qed.

(** A positive number is an odd multiple of its lowest set bit. *)
Lemma lowbit_form p : 0 < p -> exists a m, 0 <= a /\ 0 <= m /\ p = 2 ^ a * (2 * m + 1) /\ lowbit p = 2 ^ a.
Proof.
  revert p. apply (well_founded_induction (Zwf_well_founded 0) (fun p => 0 < p ->
    exists a m, 0 <= a /\ 0 <= m /\ p = 2 ^ a * (2 * m + 1) /\ lowbit p = 2 ^ a)).
  intros p IH Hp. destruct (Z.Even_or_Odd p) as [[q ->]|[q ->]].
  - destruct (IH q) as (a & m & Ha & Hm & E1 & E2); [unfold Zwf; lia|lia|].
    exists (a + 1), m. rewrite lowbit_double, E2, Z.pow_add_r by lia. split_and!; [lia..| |lia].
    rewrite E1 at 1. lia.
  - exists 0, q. rewrite lowbit_odd. split_and!; lia.
Qed.

Lemma lowbit_bounds p : 0 < p -> 0 < lowbit p <= p.
Proof.
  intros Hp. destruct (lowbit_form p Hp) as (a & m & Ha & Hm & E & ->).
  pose proof (Z.pow_pos_nonneg 2 a ltac:(lia) Ha). nia.
Qed.

Lemma pow2_split a b : 0 <= a <= b -> exists d, 0 < d /\ 2 ^ b = 2 ^ a * d.
Proof.
  intros H. exists (2 ^ (b - a)). split; [apply Z.pow_pos_nonneg; lia|].
  rewrite <- Z.pow_add_r by lia. f_equal. lia.
Qed.

Lemma mul_lt_cancel x a b : 0 < x -> x * a < x * b -> a < b.
Proof. intros Hx. apply Z.mul_lt_mono_pos_l, Hx. Qed.

Lemma lowbit_two p j : 0 < p -> 0 < j ->
  (exists x d m n, 0 < x /\ 0 < d /\ lowbit p = x /\ lowbit j = x * d /\ p = x * (2 * m + 1) /\ j - lowbit j = x * (2 * (n * d))) \/
  (exists y d m n, 0 < y /\ 0 < d /\ lowbit p = y * (2 * d) /\ lowbit j = y /\ p = y * (2 * (d * (2 * m + 1))) /\ j - lowbit j = y * (2 * n)).
Proof.
  intros Hp Hj. destruct (lowbit_form p Hp) as (a & m & Ha & Hm & E & El).
  destruct (lowbit_form j Hj) as (b & n & Hb & Hn & F & Fl).
  destruct (Z_le_gt_dec a b) as [H1|H1]; [left|right].
  - destruct (pow2_split a b) as (d & Hd & Ed); [lia|]. exists (2 ^ a), d, m, n.
    split_and!; [apply Z.pow_pos_nonneg; lia|done..|lia|done|]. rewrite Fl, F, Ed. lia.
  - destruct (pow2_split (b + 1) a) as (d & Hd & Ed); [lia|]. exists (2 ^ b), d, m, n.
    rewrite Z.pow_add_r in Ed by lia.
    split_and!; [apply Z.pow_pos_nonneg; lia|done|lia|done| |lia]. rewrite E, Ed. lia.
Qed.

(** Entry [j] of the tree sums the counts of the positions in
    [(j - lowbit j, j]].  The entries that contain a position [p] are met by
    climbing: none lies between [p] and the next cursor, and from there on the
    same entries contain both. *)
Lemma cover_gap p j : 0 < p -> p < j < p + lowbit p -> p <= j - lowbit j.
Proof.
  intros Hp Hj. destruct (lowbit_two p j) as [(x & d & m & n & Hx & Hd & E1 & E2 & Ep & Ej)|
    (y & d & m & n & Hy & Hd & E1 & E2 & Ep & Ej)]; [lia..| |].
  - exfalso. assert (J : j = x * (2 * (n * d) + d)) by lia.
    assert (2 * m + 1 < 2 * (n * d) + d) by (apply (mul_lt_cancel x); lia).
    assert (2 * (n * d) + d < 2 * m + 2) by (apply (mul_lt_cancel x); lia). lia.
  - assert (d * (2 * m + 1) * 2 < 2 * n + 1) by (apply (mul_lt_cancel y); lia).
    rewrite Ep, Ej. apply Z.mul_le_mono_nonneg_l; lia.
Qed.

Lemma cover_next p j : 0 < p -> p + lowbit p <= j ->
  (j - lowbit j < p + lowbit p <-> j - lowbit j < p).
Proof.
  intros Hp Hj. pose proof (lowbit_bounds p Hp). split; [|lia]. intros Hlt.
  destruct (lowbit_two p j) as [(x & d & m & n & Hx & Hd & E1 & E2 & Ep & Ej)|
    (y & d & m & n & Hy & Hd & E1 & E2 & Ep & Ej)]; [lia..| |].
  - assert (2 * (n * d) < 2 * m + 2) by (apply (mul_lt_cancel x); lia).
    rewrite Ep, Ej. apply Z.mul_lt_mono_pos_l; lia.
  - exfalso. assert (2 * n < 2 * (d * (2 * m + 1)) + 2 * d) by (apply (mul_lt_cancel y); lia).
    assert (y * (2 * n + 1) < y * (2 * (d * (2 * m + 1)) + 2 * d)) by (apply Z.mul_lt_mono_pos_l; lia). lia.
Qed.

(** ** Prefix sums *)

Definition zsum (l : list Z) : Z := foldr Z.add 0 l.

(** The rows taken by the first [k] lines. *)
Definition psum (vals : list Z) (k : Z) : Z := zsum (ztake k vals).

Lemma zsum_app l l' : zsum (l ++ l') = zsum l + zsum l'.
Proof. unfold zsum. induction l; simpl; lia. Qed.

Lemma zsum_nonneg l : Forall (fun v => 0 <= v) l -> 0 <= zsum l.
Proof. intros H. induction H; simpl; lia. Qed.

Lemma psum_0 vals : psum vals 0 = 0.
Proof. done. Qed.

Lemma psum_all vals k : zlen vals <= k -> psum vals k = zsum vals.
Proof. intros. unfold psum. by rewrite ztake_all. Qed.

Lemma psum_step vals k v : 0 <= k -> vals !! Z.to_nat k = Some v -> psum vals (k + 1) = psum vals k + v.
Proof.
  intros Hk Hv. unfold psum, ztake. replace (Z.to_nat (k + 1)) with (S (Z.to_nat k)) by lia.
  rewrite (take_S_r _ _ _ Hv), zsum_app. simpl. lia.
Qed.

Lemma psum_mono vals a b : Forall (fun v => 0 <= v) vals -> 0 <= a <= b -> psum vals a <= psum vals b.
Proof.
  intros Hv Hab. unfold psum, ztake. replace (take (Z.to_nat a) vals) with (take (Z.to_nat a) (take (Z.to_nat b) vals))
    by (rewrite take_take; f_equal; lia).
  rewrite <- (take_drop (Z.to_nat a) (take (Z.to_nat b) vals)) at 2. rewrite zsum_app.
  enough (0 <= zsum (drop (Z.to_nat a) (take (Z.to_nat b) vals))) by lia.
  apply zsum_nonneg, Forall_drop, Forall_take, Hv.
Qed.

(** Adding [d] at position [r] adds [d] to every longer prefix. *)
Lemma psum_insert vals r d k :
  0 <= r < zlen vals -> 0 <= k ->
  psum (<[Z.to_nat r := znth vals r + d]> vals) k = psum vals k + (if r <? k then d else 0).
Proof.
  intros Hr Hk. unfold psum, ztake, znth, zlen in *.
  destruct (lookup_lt_is_Some_2 vals (Z.to_nat r)) as [v Hv]; [lia|].
  rewrite (nth_lookup_Some _ _ _ _ Hv). split_if.
  - rewrite take_insert_lt by lia. rewrite insert_take_drop by (rewrite length_take; lia).
    rewrite <- (take_drop_middle (take (Z.to_nat k) vals) (Z.to_nat r) v) at 3
      by (rewrite lookup_take_lt by lia; done).
    rewrite !zsum_app. simpl. lia.
  - rewrite take_insert_ge by lia. lia.
Qed.

(** ** Updating *)

Lemma znth_insert (l : list Z) c v j : 0 <= c < zlen l -> 0 <= j ->
  znth (<[Z.to_nat c := v]> l) j = if j =? c then v else znth l j.
Proof.
  intros Hc Hj. unfold znth, zlen in *. rewrite !nth_lookup. destruct (Z.eqb_spec j c) as [->|Hne].
  - by rewrite list_lookup_insert_eq by lia.
  - by rewrite list_lookup_insert_ne by lia.
Qed.

Lemma climb_length fuel tree c d : zlen (climb fuel tree c d) = zlen tree.
Proof.
  revert tree c. induction fuel as [|f IH]; intros tree c; simpl; [done|]. split_if; [|done].
  rewrite IH. unfold zlen. by rewrite length_insert.
Qed.

Lemma climb_spec fuel tree p d j :
  0 < p -> zlen tree - p <= Z.of_nat fuel -> 1 <= j < zlen tree ->
  znth (climb fuel tree p d) j = znth tree j + (if (p <=? j) && (j - lowbit j <? p) then d else 0).
Proof.
  revert tree p. induction fuel as [|f IH]; intros tree p Hp Hf Hj; cbn [climb].
  { replace (p <=? j) with false by lia. simpl. lia. }
  pose proof (lowbit_bounds p Hp). pose proof (lowbit_bounds j ltac:(lia)).
  destruct (p <? zlen tree) eqn:E.
  - assert (L : zlen (<[Z.to_nat p := znth tree p + d]> tree) = zlen tree) by (unfold zlen; by rewrite length_insert).
    rewrite IH by lia. rewrite znth_insert by lia. destruct (Z.eqb_spec j p) as [->|Hne].
    { replace (p + lowbit p <=? p) with false by lia. rewrite Z.leb_refl.
      replace (p - lowbit p <? p) with true by lia. simpl. lia. }
    f_equal. f_equal. destruct (decide (j < p)) as [H1|H1].
    { replace (p + lowbit p <=? j) with false by lia. by replace (p <=? j) with false by lia. }
    replace (p <=? j) with true by lia. destruct (decide (j < p + lowbit p)) as [H2|H2].
    { replace (p + lowbit p <=? j) with false by lia. simpl.
      pose proof (cover_gap p j Hp). by replace (j - lowbit j <? p) with false by lia. }
    replace (p + lowbit p <=? j) with true by lia. simpl.
    pose proof (cover_next p j Hp ltac:(lia)).
    by replace (j - lowbit j <? p + lowbit p) with (j - lowbit j <? p) by lia.
  - replace (p <=? j) with false by lia. simpl. lia.
Qed.

(** The tree stands for the row heights [vals]. *)
Definition represents (vals tree : list Z) : Prop :=
  zlen tree = zlen vals + 1 /\
  forall j, 1 <= j <= zlen vals -> znth tree j = psum vals j - psum vals (j - lowbit j).

Lemma climb_represents fuel vals tree r d :
  represents vals tree -> 0 <= r < zlen vals -> zlen vals <= Z.of_nat fuel + r ->
  represents (<[Z.to_nat r := znth vals r + d]> vals) (climb fuel tree (r + 1) d).
Proof.
  intros [L R] Hr Hf. split.
  { rewrite climb_length, L. unfold zlen. by rewrite length_insert. }
  intros j Hj. replace (zlen (<[_:=_]> vals)) with (zlen vals) in Hj by (unfold zlen; by rewrite length_insert).
  pose proof (lowbit_bounds j ltac:(lia)).
  rewrite climb_spec by lia. rewrite R, !psum_insert by lia.
  replace (r + 1 <=? j) with (r <? j) by lia. replace (j - lowbit j <? r + 1) with (negb (r <? j - lowbit j)) by lia.
  destruct (r <? j) eqn:E1, (r <? j - lowbit j) eqn:E2; simpl; lia.
Qed.

Lemma wraptreeupdate_represents counts tree row count :
  represents counts tree -> 0 <= row < zlen counts ->
  represents (<[Z.to_nat row := count]> counts) (wraptreeupdate tree row (count - znth counts row)).
Proof.
  intros R Hr. replace count with (znth counts row + (count - znth counts row)) at 1 by lia.
  apply climb_represents; [done..|]. destruct R as [L _]. unfold zlen in *. lia.
Qed.

(** ** Building *)

Lemma build_from_represents counts : forall pre tree,
  represents (pre ++ zreplicate (zlen counts) 0) tree ->
  represents (pre ++ List.map row_height counts) (build_from (zlen pre + 1) counts tree).
Proof.
  induction counts as [|v counts IH]; intros pre tree R; cbn [build_from List.map]; [done|].
  pose proof (zlen_nonneg counts). pose proof (zlen_nonneg pre).
  replace (pre ++ row_height v :: List.map row_height counts)
    with ((pre ++ [row_height v]) ++ List.map row_height counts) by by rewrite <- app_assoc.
  replace (zlen pre + 1 + 1) with (zlen (pre ++ [row_height v]) + 1) by (rewrite zlen_app; unfold zlen; simpl; lia).
  apply IH. rewrite <- app_assoc. simpl.
  assert (E : zreplicate (zlen (v :: counts)) 0 = 0 :: zreplicate (zlen counts) 0).
  { unfold zreplicate, zlen. simpl length. by rewrite !Nat2Z.id. }
  rewrite E in R. assert (Hl : zlen (pre ++ 0 :: zreplicate (zlen counts) 0) = zlen pre + 1 + zlen counts).
  { rewrite zlen_app, zlen_cons, zlen_replicate. lia. }
  assert (Ep : Z.to_nat (zlen pre) = length pre) by (unfold zlen; lia).
  pose proof (climb_represents (length tree) _ _ (zlen pre) (row_height v) R) as C.
  unfold znth in C. rewrite Ep, nth_middle, insert_app_r_alt, Nat.sub_diag in C by lia. simpl in C.
  apply C; [lia|]. destruct R as [L _]. rewrite Hl in *. unfold zlen in *. lia.
Qed.

Lemma zsum_zeros n : zsum (replicate n 0) = 0.
Proof. induction n; simpl; lia. Qed.

Lemma psum_zeros n k : psum (zreplicate n 0) k = 0.
Proof. unfold psum, ztake, zreplicate. by rewrite take_replicate, zsum_zeros. Qed.

Lemma wraptreebuild_represents counts :
  represents (List.map row_height counts) (wraptreebuild counts).
Proof.
  apply (build_from_represents counts []). simpl. pose proof (zlen_nonneg counts). split.
  - rewrite !zlen_replicate. lia.
  - intros j Hj. rewrite !psum_zeros. unfold znth, zreplicate. rewrite nth_lookup, lookup_replicate_2; [done|].
    rewrite zlen_replicate in Hj. lia.
Qed.

(** ** Prefix sums *)

Lemma descend_spec fuel vals tree c total :
  represents vals tree -> 0 <= c <= zlen vals -> c <= Z.of_nat fuel ->
  descend fuel tree c total = Ok (total + psum vals c).
Proof.
  intros [L R]. revert c total. induction fuel as [|f IH]; intros c total Hc Hf; cbn [descend].
  { replace c with 0 by lia. by rewrite psum_0, Z.add_0_r. }
  destruct (0 <? c) eqn:E.
  - pose proof (lowbit_bounds c ltac:(lia)). unfold tree_get.
    replace ((0 <=? c) && (c <? zlen tree)) with true by lia. cbn [mbind res_bind].
    rewrite IH, R by lia. f_equal. lia.
  - replace c with 0 by lia. by rewrite psum_0, Z.add_0_r.
Qed.

Lemma wraptreeprefix_spec counts tree row :
  represents counts tree -> wraptreeprefix counts tree row = Ok (psum counts (Z.max 0 (Z.min (zlen counts) row))).
Proof.
  intros R. unfold wraptreeprefix. pose proof (zlen_nonneg counts).
  rewrite (descend_spec _ counts) by (done || lia). done.
Qed.

Lemma wraptreetotal_spec counts tree : represents counts tree -> wraptreetotal counts tree = Ok (zsum counts).
Proof.
  intros R. unfold wraptreetotal. rewrite wraptreeprefix_spec by done. pose proof (zlen_nonneg counts).
  rewrite psum_all by lia. done.
Qed.

(** ** Finding the line of a visual row *)

Lemma lowbit_pow2 k q : lowbit (2 ^ Z.of_nat k * (2 * q + 1)) = 2 ^ Z.of_nat k.
Proof.
  induction k as [|k IH]; [rewrite Z.mul_1_l; apply lowbit_odd|].
  rewrite Nat2Z.inj_succ, Z.pow_succ_r, <- Z.mul_assoc, lowbit_double, IH by lia. done.
Qed.

Definition lands (vals : list Z) (target r : Z) : Prop :=
  0 <= r <= zlen vals /\ psum vals r <= target /\ (r < zlen vals -> target < psum vals (r + 1)).

Lemma seek_spec vals tree target : represents vals tree ->
  forall k q, 0 <= q ->
  let p := 2 ^ (Z.of_nat k + 1) * q in
  p <= zlen vals -> psum vals p <= target ->
  (p + 2 ^ (Z.of_nat k + 1) <= zlen vals -> target < psum vals (p + 2 ^ (Z.of_nat k + 1))) ->
  lands vals target (seek k tree p (psum vals p) target).
Proof.
  intros [L R]. induction k as [|k IH]; intros q Hq p Hp Hacc Hup; subst p; cbn [seek].
  all: set (w := 2 ^ Z.of_nat _) in *.
  all: assert (Hw : 0 < w) by (apply Z.pow_pos_nonneg; lia).
  all: rewrite Z.pow_add_r, Z.pow_1_r in Hp, Hacc, Hup |- * by lia; fold w in Hp, Hacc, Hup |- *.
  all: assert (T : w * 2 * q + w <= zlen vals -> znth tree (w * 2 * q + w) =
         psum vals (w * 2 * q + w) - psum vals (w * 2 * q)).
  1, 3: intros Hle; rewrite R by lia; do 2 f_equal;
    replace (w * 2 * q + w) with (w * (2 * q + 1)) by lia; unfold w; rewrite lowbit_pow2; lia.
  - replace w with 1 in * by done.
    destruct (1 * 2 * q + 1 <? zlen tree) eqn:E1; cbn [andb].
    + rewrite T by lia. replace (psum vals (1 * 2 * q) + _) with (psum vals (1 * 2 * q + 1)) by lia.
      destruct (psum vals (1 * 2 * q + 1) <=? target) eqn:E2; unfold lands; split_and!; try lia.
      intros. replace (1 * 2 * q + 1 + 1) with (1 * 2 * q + 1 * 2) by lia. apply Hup. lia.
    + unfold lands. split_and!; lia.
  - assert (Ew : w = 2 ^ (Z.of_nat k + 1)) by (unfold w; f_equal; lia).
    destruct (w * 2 * q + w <? zlen tree) eqn:E1; cbn [andb].
    + rewrite T by lia. replace (psum vals (w * 2 * q) + _) with (psum vals (w * 2 * q + w)) by lia.
      destruct (psum vals (w * 2 * q + w) <=? target) eqn:E2.
      * replace (w * 2 * q + w) with (w * (2 * q + 1)) in * by lia. rewrite Ew. apply IH; rewrite <- ?Ew; try lia.
        intros. replace (w * (2 * q + 1) + w) with (w * 2 * q + w * 2) in * by lia. apply Hup. lia.
      * replace (w * 2 * q) with (w * (2 * q)) in * by lia. rewrite Ew. apply IH; rewrite <- ?Ew; lia.
    + replace (w * 2 * q) with (w * (2 * q)) in * by lia. rewrite Ew. apply IH; rewrite <- ?Ew; lia.
Qed.

Lemma wraptreefind_spec counts vals tree index :
  represents vals tree -> zlen vals = zlen counts -> vals <> [] -> Forall (fun v => 1 <= v) vals ->
  exists r, wraptreefind counts tree index = Ok r /\ 0 <= r < zlen vals /\
    psum vals r <= Z.max 0 (Z.min (zsum vals - 1) index) < psum vals (r + 1).
Proof.
  intros R Hlen Hne Hpos. pose proof R as [L _]. unfold wraptreefind.
  assert (Hn : 0 < zlen vals) by (destruct vals; [done|]; unfold zlen; simpl; lia).
  destruct counts as [|c0 cs]; [rewrite zlen_nil in Hlen; lia|]. set (counts := c0 :: cs) in *.
  unfold wraptreetotal, wraptreeprefix. pose proof (zlen_nonneg counts).
  replace (Z.max 0 (Z.min (zlen counts) (zlen counts))) with (zlen counts) by lia.
  rewrite (descend_spec _ vals) by (done || lia). rewrite Z.add_0_l, psum_all by lia. cbn [mbind res_bind].
  assert (Hs : 1 <= zsum vals).
  { destruct Hpos as [|v l Hv Hl]; [done|]. change (zsum (v :: l)) with (v + zsum l).
    enough (0 <= zsum l) by lia. apply zsum_nonneg. revert Hl.
    apply List.Forall_impl. lia. }
  replace (Z.max 0 (zsum vals - 1)) with (zsum vals - 1) by lia.
  set (t := Z.max 0 (Z.min (zsum vals - 1) index)).
  set (k := Z.to_nat (Z.max 0 (bit_length (zlen tree - 1) - 1))).
  assert (Hk : Z.of_nat k = Z.log2 (zlen vals)).
  { unfold k, bit_length. rewrite L, Z.add_simpl_r. replace (zlen vals =? 0) with false by lia.
    pose proof (Z.log2_nonneg (zlen vals)). rewrite Z.abs_eq by lia. lia. }
  destruct (seek_spec vals tree t R k 0) as (Hr & Hlo & Hhi); [lia|rewrite Z.mul_0_r; lia| | |].
  { rewrite Z.mul_0_r, psum_0. lia. }
  { rewrite Hk. pose proof (Z.log2_spec (zlen vals) Hn). unfold Z.succ in *. lia. }
  rewrite Z.mul_0_r, psum_0 in Hr, Hlo, Hhi. set (r := seek k tree 0 0 t) in *.
  assert (Hr' : r < zlen vals).
  { destruct (decide (r = zlen vals)) as [E|]; [|lia]. rewrite E, psum_all in Hlo by lia. lia. }
  exists r. split; [f_equal; lia|]. split; [lia|]. split; [done|]. by apply Hhi.
Qed.
