(* ===== verification/WriteWrap.v ===== *)
(** Line identities and the word wrap index of the editor ([write/write.py],
    [nextlineid] to [cursorvisualindex]).

    A line of the document has an identity and a version; the wrapping of a line
    is cached under both.  The index holds, per line, the rows it takes
    ([WRAP_LINE_SEGMENTS], [None] while it has to be computed), how many they are
    ([WRAP_LINE_COUNTS]) and a binary indexed tree over those
    ([WRAP_COUNT_TREE]). *)

From stdpp Require Import base option list gmap sorting.
From Stdlib Require Import ZArith Lia Bool.
From stdpp Require Import base option list.
From S2P Require Import Prelude Assoc PyFloat PyText PyStr WriteState WriteText WriteTree.
Open Scope Z_scope.

(** ** Caches *)

(** [invalidatewrapcache(drop_lines)]. *)
Definition invalidatewrapcache (drop_lines : bool) (w : wrap) : wrap :=
  let w := set_WRAP_CACHE_KEY None w in
  let w := set_WRAP_CACHE_SEGMENTS [] w in
  let w := set_WRAP_LAYOUT_KEY None w in
  let w := set_WRAP_REFLOW_FROM None w in
  let w := set_WRAP_DIRTY_ROWS ∅ w in
  if drop_lines then
    set_WRAP_COUNT_TREE [] (set_WRAP_LINE_COUNTS [] (set_WRAP_LINE_SEGMENTS [] w))
  else w.

#[export] Instance wrapkey_eq_dec : EqDecision wrapkey.
Proof. unfold wrapkey. solve_decision. Defined.

(** The [OrderedDict] of wrappings, oldest use first. *)
Definition cache : Type := list (wrapkey * (list seg * Z)).

Fixpoint cache_get (key : wrapkey) (c : cache) : option (list seg * Z) :=
  match c with
  | [] => None
  | (k, v) :: c' => if decide (k = key) then Some v else cache_get key c'
  end.

Definition cache_del (key : wrapkey) (c : cache) : cache :=
  List.filter (fun e => negb (bool_decide (e.1 = key))) c.

(** [while cache and bytes > limit: drop the oldest]. *)
Fixpoint cache_trim (c : cache) (bytes limit : Z) : cache * Z :=
  match c with
  | [] => ([], bytes)
  | (k, (segs, size)) :: c' =>
      if limit <? bytes then cache_trim c' (bytes - size) limit else (c, bytes)
  end.

Definition WRAP_LINE_CACHE_LIMIT : Z := 16 * 1024 * 1024.

Definition wrapcacheput (key : wrapkey) (segments : list seg) (line : pystr) (w : wrap) : wrap :=
  let size := Z.max 64 (zlen line + zlen segments * 24) in
  let bytes := match cache_get key (WRAP_LINE_CACHE w) with
               | Some previous => WRAP_LINE_CACHE_BYTES w - previous.2
               | None => WRAP_LINE_CACHE_BYTES w
               end in
  let c := cache_del key (WRAP_LINE_CACHE w) ++ [(key, (segments, size))] in
  let '(c, bytes) := cache_trim c (bytes + size) WRAP_LINE_CACHE_LIMIT in
  set_WRAP_LINE_CACHE_BYTES bytes (set_WRAP_LINE_CACHE c w).

(** ** Line identities *)

Definition nextlineid : W Z :=
  value ← gets (fun s => NEXT_LINE_ID (w_doc s));
  modify (on_doc (set_NEXT_LINE_ID (value + 1))) ;;
  mret value.

(** Fresh identities for all lines. *)
Definition reset_ids (d : doc) : doc :=
  let n := zlen (DOC_LINES d) in
  mkdoc (DOC_LINES d) (seqZ 1 n) (zreplicate n 0) (1 + n) None.

Definition documentmetadatareset : W unit :=
  modify (on_doc reset_ids) ;;
  modify (on_wrap (invalidatewrapcache true)).

Definition documentmetadataensure : W unit :=
  d ← gets w_doc;
  if (zlen (DOC_LINE_IDS d) =? zlen (DOC_LINES d)) && (zlen (DOC_LINE_VERSIONS d) =? zlen (DOC_LINES d))
  then skip else documentmetadatareset.

(** ** Wrapping *)

Section Wrapping.
Context {FT : Font}.

Definition wrapline (row width : Z) : W (list seg) :=
  documentmetadataensure ;;
  d ← gets w_doc;
  c ← gets w_conf;
  let row := Z.max 0 (Z.min (zlen (DOC_LINES d) - 1) row) in
  line ← lift_w (pyidx (DOC_LINES d) row);
  lineid ← lift_w (pyidx (DOC_LINE_IDS d) row);
  version ← lift_w (pyidx (DOC_LINE_VERSIONS d) row);
  let key := (lineid, version, FONT_SIZE c, width, FONT_PATH c) in
  w ← gets w_wrap;
  match cache_get key (WRAP_LINE_CACHE w) with
  | Some cached =>
      (* [move_to_end] *)
      modify (on_wrap (set_WRAP_LINE_CACHE (cache_del key (WRAP_LINE_CACHE w) ++ [(key, cached)]))) ;;
      mret cached.1
  | None =>
      modify (on_wrap (set_WRAP_LINES_MEASURED (WRAP_LINES_MEASURED w + 1))) ;;
      let segments := line_segments line
        (measurelineadvances (TEXTTABWIDTH c) line (FONT_SIZE c) (FONT_PATH c)) width in
      modify (on_wrap (wrapcacheput key segments line)) ;;
      mret segments
  end.

(** [viewportgeometry_noscrollbars]: origin and size of the text area. *)
Definition viewportgeometry_noscrollbars (c : conf) : Z * Z * Z * Z :=
  let bottom := if SHOW_STATUSBAR c then WIN_H c - STATUSBAR_HEIGHT c else WIN_H c in
  let bottom := if bottom <? 0 then 0 else bottom in
  let w := WIN_W c - MARGIN_LEFT c in
  let h := bottom - MARGIN_TOP c in
  (MARGIN_LEFT c, MARGIN_TOP c, if w <? 0 then 0 else w, if h <? 0 then 0 else h).

Definition wraplayoutwidth (c : conf) : Z :=
  let '(_, _, width, _) := viewportgeometry_noscrollbars c in
  Z.max 1 (width - SCROLLBAR_WIDTH c).

(** [sorted(WRAP_DIRTY_ROWS)]. *)
Definition sorted_rows (rows : gset Z) : list Z := merge_sort Z.le (elements rows).

(** One turn of the loop over the dirty rows. *)
Definition rewrap (fullbuild : bool) (width row : Z) : W unit :=
  d ← gets w_doc;
  w ← gets w_wrap;
  if (row <? 0) || (zlen (DOC_LINES d) <=? row) then skip else
  old ← lift_w (pyidx (WRAP_LINE_SEGMENTS w) row);
  match old with
  | Some _ => skip
  | None =>
      count ← lift_w (pyidx (WRAP_LINE_COUNTS w) row);
      let oldcount := Z.max 1 count in
      segments ← wrapline row width;
      let newcount := Z.max 1 (zlen segments) in
      modify (on_wrap (fun w => set_WRAP_LINE_SEGMENTS
        (<[Z.to_nat row := Some segments]> (WRAP_LINE_SEGMENTS w)) w)) ;;
      modify (on_wrap (fun w => set_WRAP_LINE_COUNTS
        (<[Z.to_nat row := newcount]> (WRAP_LINE_COUNTS w)) w)) ;;
      if newcount =? oldcount then skip else
        w ← gets w_wrap;
        visualstart ← lift_w (wraptreeprefix (WRAP_LINE_COUNTS w) (WRAP_COUNT_TREE w) row);
        modify (on_wrap (fun w => set_WRAP_COUNT_TREE
          (wraptreeupdate (WRAP_COUNT_TREE w) row (newcount - oldcount)) w)) ;;
        when (negb fullbuild)
          (modify (on_wrap (fun w => set_WRAP_REFLOW_FROM
             (Some (match WRAP_REFLOW_FROM w with
                    | None => visualstart
                    | Some from => Z.min from visualstart
                    end)) w)))
  end.

Fixpoint rewrap_rows (fullbuild : bool) (width : Z) (rows : list Z) : W unit :=
  match rows with
  | [] => skip
  | row :: rows => rewrap fullbuild width row ;; rewrap_rows fullbuild width rows
  end.

(** The index for lines that all have to be computed. *)
Definition fresh_index (layoutkey : Z * Z * pystr) (n : Z) (w : wrap) : wrap :=
  let w := set_WRAP_LAYOUT_KEY (Some layoutkey) w in
  let w := set_WRAP_LINE_SEGMENTS (zreplicate n None) w in
  let w := set_WRAP_LINE_COUNTS (zreplicate n 1) w in
  let w := set_WRAP_COUNT_TREE (wraptreebuild (WRAP_LINE_COUNTS w)) w in
  let w := set_WRAP_REFLOW_FROM None w in
  set_WRAP_DIRTY_ROWS (list_to_set (seqZ 0 n)) w.

Definition ensurewrapindex : W unit :=
  c ← gets w_conf;
  if negb (WORD_WRAP c) then skip else
  documentmetadataensure ;;
  let width := wraplayoutwidth c in
  let layoutkey := (FONT_SIZE c, width, FONT_PATH c) in
  d ← gets w_doc;
  w ← gets w_wrap;
  let n := zlen (DOC_LINES d) in
  let fullbuild := negb (bool_decide (WRAP_LAYOUT_KEY w = Some layoutkey))
    || negb (zlen (WRAP_LINE_SEGMENTS w) =? n) || negb (zlen (WRAP_LINE_COUNTS w) =? n) in
  when fullbuild (modify (on_wrap (fresh_index layoutkey n))) ;;
  w ← gets w_wrap;
  let dirtyrows := sorted_rows (WRAP_DIRTY_ROWS w) in
  modify (on_wrap (set_WRAP_DIRTY_ROWS ∅)) ;;
  rewrap_rows fullbuild width dirtyrows ;;
  modify (on_wrap (set_WRAP_CACHE_KEY None)) ;;
  modify (on_wrap (set_WRAP_CACHE_SEGMENTS [])).

(** The dirty rows after [removed] lines from [start] became [count] lines. *)
Definition shift_rows (start removed count : Z) (rows : gset Z) : gset Z :=
  list_to_set
    (flat_map (fun row =>
       if row <? start then [row]
       else if start + removed <=? row then [row - removed + count] else []) (elements rows)
     ++ seqZ start count).

Definition wrapmetadatareplace (start removed replacement_count : Z) : W unit :=
  let start := Z.max 0 start in
  let removed := Z.max 0 removed in
  let replacement_count := Z.max 1 replacement_count in
  d ← gets w_doc;
  w ← gets w_wrap;
  if negb (zlen (WRAP_LINE_SEGMENTS w) =? zlen (DOC_LINES d) - replacement_count + removed) then
    modify (on_wrap (invalidatewrapcache true))
  else
    let counts := WRAP_LINE_COUNTS w in
    visualstart ← lift_w (wraptreeprefix counts (WRAP_COUNT_TREE w) (Z.min start (zlen counts)));
    let oldcounts := zslice counts start (start + removed) in
    let same := removed =? replacement_count in
    let replacementcounts :=
      if same then oldcounts
      else List.hd 1 oldcounts :: zreplicate (replacement_count - 1) 1 in
    modify (on_wrap (fun w => set_WRAP_LINE_SEGMENTS
      (zsplice (WRAP_LINE_SEGMENTS w) start (start + removed) (zreplicate replacement_count None)) w)) ;;
    modify (on_wrap (set_WRAP_LINE_COUNTS (zsplice counts start (start + removed) replacementcounts))) ;;
    when (negb same) (modify (on_wrap (fun w => set_WRAP_COUNT_TREE (wraptreebuild (WRAP_LINE_COUNTS w)) w))) ;;
    modify (on_wrap (fun w => set_WRAP_DIRTY_ROWS
      (shift_rows start removed replacement_count (WRAP_DIRTY_ROWS w)) w)) ;;
    when (negb same)
      (modify (on_wrap (fun w => set_WRAP_REFLOW_FROM
         (Some (match WRAP_REFLOW_FROM w with
                | None => visualstart
                | Some from => Z.min from visualstart
                end)) w))).

(** ** Rows of the screen *)

(** The document with one row per line. *)
Definition unwrapped (lines : list pystr) : list (Z * Z * Z) :=
  imap (fun row line => (Z.of_nat row, 0, zlen line)) lines.

(** [values or [(0, 0)]]. *)
Definition rows_of (values : option (list seg)) : list seg :=
  match values with Some ((_ :: _) as l) => l | _ => [(0, 0)] end.

(** All rows in order, as the index has them. *)
Definition flat_rows (segments : list (option (list seg))) : list (Z * Z * Z) :=
  concat (imap (fun row values => List.map (fun se => (Z.of_nat row, se.1, se.2)) (rows_of values)) segments).

Definition or_zero (l : list (Z * Z * Z)) : list (Z * Z * Z) := match l with [] => [(0, 0, 0)] | _ => l end.

Definition wrapsegments : W (list (Z * Z * Z)) :=
  c ← gets w_conf;
  d ← gets w_doc;
  if negb (WORD_WRAP c) then mret (unwrapped (DOC_LINES d)) else
  r ← try_w
    (ensurewrapindex ;;
     s ← gets (fun s => s);
     let w := w_wrap s in
     total ← lift_w (wraptreetotal (WRAP_LINE_COUNTS w) (WRAP_COUNT_TREE w));
     let key := (WRAP_LAYOUT_KEY w, CURRENT_REVISION (w_hist s), zlen (DOC_LINES (w_doc s)), total) in
     if bool_decide (WRAP_CACHE_KEY w = Some key) then mret (Some (WRAP_CACHE_SEGMENTS w)) else
     modify (on_wrap (set_WRAP_CACHE_KEY (Some key))) ;;
     modify (on_wrap (set_WRAP_CACHE_SEGMENTS (or_zero (flat_rows (WRAP_LINE_SEGMENTS w))))) ;;
     mret (Some (or_zero (flat_rows (WRAP_LINE_SEGMENTS w))))) None;
  match r with
  | Some l => mret l
  | None => d ← gets w_doc; mret (or_zero (unwrapped (DOC_LINES d)))
  end.

Definition displaylinecount : W Z :=
  c ← gets w_conf;
  if negb (WORD_WRAP c) then gets (fun s => zlen (DOC_LINES (w_doc s))) else
  ensurewrapindex ;;
  w ← gets w_wrap;
  lift_w (wraptreetotal (WRAP_LINE_COUNTS w) (WRAP_COUNT_TREE w)).

Definition displaysegment (index : Z) : W (Z * Z * Z) :=
  c ← gets w_conf;
  d ← gets w_doc;
  if negb (WORD_WRAP c) then
    match DOC_LINES d with
    | [] => mret (0, 0, 0)
    | lines =>
        let row := Z.max 0 (Z.min (zlen lines - 1) index) in
        line ← lift_w (pyidx lines row);
        mret (row, 0, zlen line)
    end
  else
    ensurewrapindex ;;
    w ← gets w_wrap;
    let counts := WRAP_LINE_COUNTS w in
    let tree := WRAP_COUNT_TREE w in
    match counts with
    | [] => mret (0, 0, 0)
    | _ =>
        total ← lift_w (wraptreetotal counts tree);
        let index := Z.max 0 (Z.min (Z.max 0 (total - 1)) index) in
        row ← lift_w (wraptreefind counts tree index);
        before ← lift_w (wraptreeprefix counts tree row);
        values ← lift_w (pyidx (WRAP_LINE_SEGMENTS w) row);
        let values := rows_of values in
        se ← lift_w (pyidx values (Z.max 0 (Z.min (zlen values - 1) (index - before))));
        mret (row, se.1, se.2)
    end.

(** The row of [values] that shows the column. *)
Fixpoint local_row (values : list seg) (len col i last : Z) : Z :=
  match values with
  | [] => last
  | (_, e) :: rest =>
      if (col <? e) || ((col =? e) && (e =? len)) then i else local_row rest len col (i + 1) last
  end.

Definition cursorvisualindex (row col : Z) : W Z :=
  c ← gets w_conf;
  if negb (WORD_WRAP c) then mret row else
  ensurewrapindex ;;
  s ← gets (fun s => s);
  let lines := DOC_LINES (w_doc s) in
  let w := w_wrap s in
  match lines with
  | [] => mret 0
  | _ =>
      let row := Z.max 0 (Z.min (zlen lines - 1) row) in
      line ← lift_w (pyidx lines row);
      let col := Z.max 0 (Z.min (zlen line) col) in
      values ← lift_w (pyidx (WRAP_LINE_SEGMENTS w) row);
      let values := rows_of values in
      before ← lift_w (wraptreeprefix (WRAP_LINE_COUNTS w) (WRAP_COUNT_TREE w) row);
      mret (before + local_row values (zlen line) col 0 (zlen values - 1))
  end.

End Wrapping.

(** The index of line widths of the editor ([write/write.py], [docwidth*] and
    [maxlinewidth]).

    [DOC_WIDTH_COUNTS] counts the lines of each width, [DOC_WIDTH_HEAP] holds
    negated widths with the smallest first; a width whose count is gone stays in
    the heap until it reaches the top.  [heapq] keeps the least element at index
    0, the only one the code reads: the heap is a sorted list here.  The
    functions do not raise, so they are functions on [widths]. *)
(** ** [heapq] *)

Fixpoint heappush (x : Z) (h : list Z) : list Z :=
  match h with
  | [] => [x]
  | y :: h' => if x <=? y then x :: h else y :: heappush x h'
  end.

(** ** Counting *)

(** [counts[w] = counts.get(w, 0) + 1] and its inverse. *)
Definition count_add (width : Z) (counts : list (Z * Z)) : list (Z * Z) :=
  aset width (default 0 (aget width counts) + 1) counts.
Definition count_drop (width : Z) (counts : list (Z * Z)) : list (Z * Z) :=
  let remaining := default 0 (aget width counts) - 1 in
  if 0 <? remaining then aset width remaining counts else adel width counts.

Definition drop_width (width : option Z) (counts : list (Z * Z)) : list (Z * Z) :=
  match width with Some w => count_drop w counts | None => counts end.

Section Widths.
Context {FT : Font}.

Definition docwidthmeasure (c : conf) (line : pystr) : Z :=
  measuretext [] (expanddisplaytabs (TAB_WIDTH c) line 0) (FONT_SIZE c).

(** Record a width: its count and the heap. *)
Definition width_in (width : Z) (w : widths) : widths :=
  set_DOC_WIDTH_HEAP (heappush (- width) (DOC_WIDTH_HEAP w))
    (set_DOC_WIDTH_COUNTS (count_add width (DOC_WIDTH_COUNTS w)) w).

(** [while heap: if count of the top > 0: break; pop]. *)
Fixpoint settle (counts : list (Z * Z)) (h : list Z) : list Z :=
  match h with
  | [] => []
  | x :: h' => if 0 <? default 0 (aget (- x) counts) then h else settle counts h'
  end.

Definition docwidthmaximum (w : widths) : widths :=
  let h := settle (DOC_WIDTH_COUNTS w) (DOC_WIDTH_HEAP w) in
  set_DOC_MAXW_DIRTY false
    (set_DOC_MAXW (match h with x :: _ => - x | [] => 0 end) (set_DOC_WIDTH_HEAP h w)).

Definition docwidthreset (c : conf) (lines : list pystr) (w : widths) : widths :=
  let ws := List.map (docwidthmeasure c) lines in
  mkwidths (List.map Some ws) (foldl (fun m x => if m <? x then x else m) 0 ws) false
    (foldl (fun counts x => count_add x counts) [] ws)
    (foldl (fun h x => heappush (- x) h) [] ws) 0 false (Some (FONT_SIZE c)).

Definition docwidthbeginindex (c : conf) (lines : list pystr) (w : widths) : widths :=
  mkwidths (zreplicate (zlen lines) None) 0 false [] [] 0
    (match lines with [] => false | _ => true end) (Some (FONT_SIZE c)).

Definition docwidthindexline (c : conf) (lines : list pystr) (row : Z) (w : widths) : widths :=
  if (row <? 0) || (zlen lines <=? row) || (zlen (DOC_LINEW w) <=? row) then w else
  match DOC_LINEW w !! Z.to_nat row, lines !! Z.to_nat row with
  | Some None, Some line =>
      let width := docwidthmeasure c line in
      let w := set_DOC_LINEW (<[Z.to_nat row := Some width]> (DOC_LINEW w)) w in
      let w := width_in width w in
      set_DOC_MAXW (Z.max (DOC_MAXW w) width) w
  | _, _ => w
  end.

(** The loop of [docwidthindexstep]: [running] tells before each turn whether
    the deadline is still ahead; at most 128 turns. *)
Fixpoint index_lines (fuel : nat) (running : nat -> bool) (c : conf) (lines : list pystr) (w : widths) : widths :=
  match fuel with
  | O => w
  | S f =>
      if (DOC_WIDTH_INDEX_ROW w <? zlen lines) && running f then
        let w := docwidthindexline c lines (DOC_WIDTH_INDEX_ROW w) w in
        index_lines f running c lines (set_DOC_WIDTH_INDEX_ROW (DOC_WIDTH_INDEX_ROW w + 1) w)
      else w
  end.

Definition docwidthindexstep (running : nat -> bool) (available : Z) (c : conf) (lines : list pystr) (w : widths)
    : widths * bool :=
  if negb (DOC_WIDTH_INDEX_ACTIVE w) then (w, false) else
  let oldmaximum := DOC_MAXW w in
  let w := index_lines 128 running c lines w in
  let completed := zlen lines <=? DOC_WIDTH_INDEX_ROW w in
  let w := if completed then docwidthmaximum (set_DOC_WIDTH_INDEX_ACTIVE false w) else w in
  let oldneeded := available <? oldmaximum in
  let newneeded := available <? DOC_MAXW w in
  (w, negb (eqb oldneeded newneeded) || completed).

(** [docwidthreplace(start, removed, lines, widths)]: [doclines] is
    [DOC_LINES], in which the replacement already stands. *)
Definition docwidthreplace (c : conf) (doclines : list pystr) (start removed : Z)
    (lines : list pystr) (given : option (list Z)) (w : widths) : widths :=
  let start := Z.max 0 start in
  let removed := Z.max 0 removed in
  if negb (zlen (DOC_LINEW w) + zlen lines - removed =? zlen doclines) then docwidthreset c doclines w else
  let oldwidths := zslice (DOC_LINEW w) start (start + removed) in
  let w := set_DOC_WIDTH_COUNTS (foldl (fun counts x => drop_width x counts) (DOC_WIDTH_COUNTS w) oldwidths) w in
  let measured := List.map (docwidthmeasure c) lines in
  let replacementwidths :=
    match given with
    | None => measured
    | Some l => if zlen l =? zlen lines then List.map (Z.max 0) l else measured
    end in
  let w := set_DOC_LINEW (zsplice (DOC_LINEW w) start (start + removed) (List.map Some replacementwidths)) w in
  let w := if DOC_WIDTH_INDEX_ACTIVE w then set_DOC_WIDTH_INDEX_ROW (Z.min (DOC_WIDTH_INDEX_ROW w) start) w else w in
  docwidthmaximum (foldl (fun w x => width_in x w) w replacementwidths).

(** [docwidthsetline(row)]. *)
Definition docwidthsetline (c : conf) (lines : list pystr) (row : Z) (w : widths) : widths :=
  if (row <? 0) || (zlen lines <=? row) then w else
  if negb (zlen (DOC_LINEW w) =? zlen lines) then set_DOC_MAXW_DIRTY true w else
  match DOC_LINEW w !! Z.to_nat row, lines !! Z.to_nat row with
  | Some oldw, Some line =>
      let neww := docwidthmeasure c line in
      let w := set_DOC_LINEW (<[Z.to_nat row := Some neww]> (DOC_LINEW w)) w in
      let w := set_DOC_WIDTH_COUNTS (drop_width oldw (DOC_WIDTH_COUNTS w)) w in
      docwidthmaximum (width_in neww w)
  | _, _ => w
  end.

Definition maxlinewidth (c : conf) (lines : list pystr) (w : widths) : widths * Z :=
  let w := if bool_decide (DOC_FONTSTAMP w = Some (FONT_SIZE c)) then w
           else if DOC_WIDTH_INDEX_ACTIVE w then docwidthbeginindex c lines w
           else set_DOC_MAXW_DIRTY true w in
  let w := if DOC_MAXW_DIRTY w then docwidthreset c lines w else w in
  let w := if zlen (DOC_LINEW w) =? zlen lines then w else docwidthreset c lines w in
  (w, DOC_MAXW w).

End Widths.
