(* ===== verification/WriteEdit.v ===== *)
(** Caret, selection, editing and the undo history of the editor
    ([write/write.py]). *)

From stdpp Require Import base option list gmap.
From Stdlib Require Import ZArith Lia Bool String.
From S2P Require Import Prelude PyFloat PyText PyVal PyStr WriteState WriteText WriteFormat WriteTree WriteWrap.
Open Scope Z_scope.

(** [first[a:b]] with [a] and [b] not negative. *)
Abbreviation slice := zslice.

(** ** Caret and selection *)

(** [normalisecaret]: a position of the document; [(0, 0)] when there is no
    line. *)
Definition normalisecaret (lines : list pystr) (row col : Z) : Z * Z :=
  let row := if row <? 0 then 0 else row in
  let row := if zlen lines <=? row then zlen lines - 1 else row in
  match pyidx lines row with
  | Ok line =>
      let col := if col <? 0 then 0 else col in
      (row, if zlen line <? col then zlen line else col)
  | Exc _ => (0, 0)
  end.

Definition lines_of (s : wst) : list pystr := DOC_LINES (w_doc s).

Definition set_cursor (p : Z * Z) (c : caret) : caret := set_CUR_COL p.2 (set_CUR_ROW p.1 c).
Definition set_anchor (p : Z * Z) (c : caret) : caret := set_SEL_ANCHOR_COL p.2 (set_SEL_ANCHOR_ROW p.1 c).
Definition set_end (p : Z * Z) (c : caret) : caret := set_SEL_COL p.2 (set_SEL_ROW p.1 c).

Definition cursor (c : caret) : Z * Z := (CUR_ROW c, CUR_COL c).
Definition anchor (c : caret) : Z * Z := (SEL_ANCHOR_ROW c, SEL_ANCHOR_COL c).
Definition endpoint (c : caret) : Z * Z := (SEL_ROW c, SEL_COL c).

Definition clear_selection (c : caret) : caret :=
  set_end (cursor c) (set_anchor (cursor c) (set_SEL_ACTIVE false c)).
Definition clearselection : W unit := modify (on_caret clear_selection).

Definition setselectionanchor (row col : Z) : W unit :=
  modify (fun s =>
    let p := normalisecaret (lines_of s) row col in
    on_caret (fun c => set_SEL_ACTIVE false (set_end p (set_anchor p c))) s).

Definition updateselectionend (row col : Z) : W unit :=
  modify (fun s =>
    let p := normalisecaret (lines_of s) row col in
    on_caret (fun c => set_SEL_ACTIVE (negb (bool_decide (anchor c = p))) (set_end p c)) s).

(** [(sr, sc), (er, ec)] in order. *)
Definition selectionbounds (c : caret) : (Z * Z) * (Z * Z) :=
  if pos_leb (anchor c) (endpoint c) then (anchor c, endpoint c) else (endpoint c, anchor c).

Definition hasselection (c : caret) : bool :=
  SEL_ACTIVE c && negb (bool_decide ((selectionbounds c).1 = (selectionbounds c).2)).

Definition positioninselection (c : caret) (row col : Z) : bool :=
  let '((sr, sc), (er, ec)) := selectionbounds c in
  if negb (hasselection c) then false
  else if (row <? sr) || (er <? row) then false
  else if sr =? er then (row =? sr) && (sc <=? col) && (col <? ec)
  else if row =? sr then sc <=? col
  else if row =? er then col <? ec
  else true.

(** The text between two positions, [first] and [last] the lines they are in. *)
Definition between (lines : list pystr) (sr sc er ec : Z) (first last : pystr) : pystr :=
  if sr =? er then slice first sc ec
  else join_with [NL] ((zdrop sc first :: zslice lines (sr + 1) er) ++ [ztake ec last]).

(** [selectedtext]. *)
Definition clamp (n x : Z) : Z := let x := if x <? 0 then 0 else x in if n <? x then n else x.

Definition selectedtext (lines : list pystr) (c : caret) : pystr :=
  if negb (hasselection c) then [] else
  let '((sr, sc), (er, ec)) := selectionbounds c in
  let sr := if sr <? 0 then 0 else sr in
  let er := if er <? 0 then 0 else er in
  if zlen lines <=? sr then [] else
  let er := if zlen lines <=? er then zlen lines - 1 else er in
  match pyidx lines sr, pyidx lines er with
  | Ok first, Ok last => between lines sr (clamp (zlen first) sc) er (clamp (zlen last) ec) first last
  | _, _ => []
  end.

(** ** Editing *)

Section Editing.
Context {FT : Font} {CK : Clock}.

(** The lines that replace those of the edited range. *)
Definition replacement_lines (prefix suffix : pystr) (chunks : list pystr) : list pystr :=
  match chunks with
  | [] => [prefix ++ suffix]
  | [c] => [prefix ++ c ++ suffix]
  | c :: rest => (prefix ++ c) :: removelast rest ++ [List.last rest [] ++ suffix]
  end.

(** The width of a line edited in one place, when it follows from the old one. *)
Definition edited_width (c : conf) (w : widths) (n sr er : Z) (first removed : pystr) (chunks : list pystr)
    : option (list Z) :=
  match chunks with
  | [chunk] =>
      if (sr =? er) && (zlen (DOC_LINEW w) =? n) then
        match DOC_LINEW w !! Z.to_nat sr with
        | Some (Some oldwidth) =>
            if negb (has_char TAB first) && negb (has_char TAB chunk) then
              Some [Z.max 0 (oldwidth - docwidthmeasure c removed + docwidthmeasure c chunk)]
            else None
        | _ => None
        end
      else None
  | _ => None
  end.

(** [nextlineid()] [n] times. *)
Fixpoint fresh_ids (n : nat) : W (list Z) :=
  match n with
  | O => mret []
  | S n => i ← nextlineid; l ← fresh_ids n; mret (i :: l)
  end.

Definition editapply (sr sc er ec : Z) (text : pystr) : W (pystr * pystr) :=
  d ← gets w_doc;
  (match DOC_LINES d with
   | [] =>
       modify (on_doc (set_DOC_LINES [[]])) ;;
       documentmetadatareset ;;
       modify (fun s => on_widths (docwidthreset (w_conf s) (lines_of s)) s)
   | _ => skip
   end) ;;
  documentmetadataensure ;;
  d ← gets w_doc;
  let lines := DOC_LINES d in
  let start := normalisecaret lines sr sc in
  let stop := normalisecaret lines er ec in
  let '((sr, sc), (er, ec)) := if pos_ltb stop start then (stop, start) else (start, stop) in
  first ← lift_w (pyidx lines sr);
  last ← lift_w (pyidx lines er);
  let removed := between lines sr sc er ec first last in
  let inserted := normalise_newlines text in
  let chunks := split_on NL inserted in
  s ← gets (fun s => s);
  let widths := edited_width (w_conf s) (w_widths s) (zlen lines) sr er first removed chunks in
  let replacement := replacement_lines (ztake sc first) (zdrop ec last) chunks in
  preservedid ← (if sr <? zlen (DOC_LINE_IDS d) then lift_w (pyidx (DOC_LINE_IDS d) sr) else nextlineid);
  preservedversion ← (if sr <? zlen (DOC_LINE_VERSIONS d) then lift_w (pyidx (DOC_LINE_VERSIONS d) sr) else mret 0);
  newids ← fresh_ids (List.length replacement - 1);
  let removedcount := er - sr + 1 in
  modify (on_doc (fun d => set_DOC_LINES (zsplice (DOC_LINES d) sr (er + 1) replacement) d)) ;;
  modify (on_doc (fun d => set_DOC_LINE_IDS (zsplice (DOC_LINE_IDS d) sr (er + 1) (preservedid :: newids)) d)) ;;
  modify (on_doc (fun d => set_DOC_LINE_VERSIONS
    (zsplice (DOC_LINE_VERSIONS d) sr (er + 1) ((preservedversion + 1) :: List.map (fun _ => 0) newids)) d)) ;;
  wrapmetadatareplace sr removedcount (zlen replacement) ;;
  when (negb (removedcount =? zlen replacement))
    (modify (on_doc (fun d => set_DOCUMENT_REFLOW_ROW
       (Some (match DOCUMENT_REFLOW_ROW d with None => sr | Some r => Z.min r sr end)) d))) ;;
  modify (fun s => on_widths (docwidthreplace (w_conf s) (lines_of s) sr removedcount replacement widths) s) ;;
  modify (on_caret (set_cursor (textpositionafter sr sc inserted))) ;;
  clearselection ;;
  mret (removed, inserted).

(** ** History *)

Definition utf8_size (s : pystr) : Z := zlen (utf8_encode_replace s).
Definition historysize (removed inserted : pystr) : Z := utf8_size removed + utf8_size inserted + 256.

Definition historyreset : W unit :=
  modify (on_hist (fun _ => mkhist [] [] 0 0 0 1 false)).

Definition UNDO_LIMIT : nat := 200.
Definition UNDO_BYTE_LIMIT : Z := 16 * 1024 * 1024.

(** The oldest actions go while there are too many or too much text. *)
Fixpoint history_trim (fuel : nat) (h : hist) : hist :=
  match fuel with
  | O => h
  | S fuel =>
      match UNDO_STACK h with
      | [] => h
      | top :: rest =>
          if (UNDO_LIMIT <? List.length (UNDO_STACK h))%nat || (UNDO_BYTE_LIMIT <? UNDO_BYTES h) then
            let oldest := List.last rest top in
            history_trim fuel (set_UNDO_BYTES (UNDO_BYTES h - a_bytes oldest)
              (set_UNDO_STACK (removelast (UNDO_STACK h)) h))
          else h
      end
  end.

(** Typing goes on from the newest action: the conditions of [historypush]. *)
Definition one_second : pyfloat := fround 1 0.

Definition continues (saved : Z) (previous act : action) (now : pyfloat) : bool :=
  bool_decide (a_removed previous = []) && bool_decide (a_removed act = []) &&
  negb (has_char NL (a_inserted previous)) && negb (has_char NL (a_inserted act)) &&
  bool_decide (a_start act = textpositionafter (a_start previous).1 (a_start previous).2 (a_inserted previous)) &&
  (a_afterrev previous =? a_beforerev act) && negb (a_afterrev previous =? saved) &&
  fle (fsub now (a_time previous)) one_second.

(** The newest action with the text of [act] added. *)
Definition merged (previous act : action) (now : pyfloat) : action :=
  let inserted := a_inserted previous ++ a_inserted act in
  mkaction (a_start previous) (a_removed previous) inserted (a_before previous) (a_after act)
    (a_beforerev previous) (a_afterrev act) (historysize (a_removed previous) inserted) now.

Definition timed (act : action) (now : pyfloat) : action :=
  mkaction (a_start act) (a_removed act) (a_inserted act) (a_before act) (a_after act)
    (a_beforerev act) (a_afterrev act) (historysize (a_removed act) (a_inserted act)) now.

Definition push (act : action) (now : pyfloat) (h : hist) : hist :=
  let alone :=
    history_trim (S (List.length (UNDO_STACK h)))
      (set_REDO_STACK [] (set_UNDO_BYTES (UNDO_BYTES h + historysize (a_removed act) (a_inserted act))
        (set_UNDO_STACK (timed act now :: UNDO_STACK h) h))) in
  match UNDO_STACK h with
  | [] => alone
  | previous :: rest =>
      if continues (SAVED_REVISION h) previous act now then
        let m := merged previous act now in
        set_REDO_STACK [] (set_UNDO_BYTES (UNDO_BYTES h - a_bytes previous + a_bytes m)
          (set_UNDO_STACK (m :: rest) h))
      else alone
  end.

Definition historypush (act : action) : W unit :=
  now ← monotonic;
  modify (on_hist (push act now)).

(** Caret and scroll position. *)
Definition position (s : wst) : Z * Z * Z * Z :=
  (CUR_ROW (w_caret s), CUR_COL (w_caret s), FIRST_VISIBLE_ROW (w_view s), FIRST_VISIBLE_X (w_view s)).

Definition goto_position (p : Z * Z * Z * Z) : W unit :=
  let '(row, col, vrow, vx) := p in
  modify (on_caret (set_cursor (row, col))) ;;
  modify (on_view (fun v => set_FIRST_VISIBLE_X vx (set_FIRST_VISIBLE_ROW vrow v))).

Definition set_revision (r : Z) : W unit :=
  modify (on_hist (fun h => set_IS_DIRTY (negb (r =? SAVED_REVISION h)) (set_CURRENT_REVISION r h))).

Definition editreplace (sr sc er ec : Z) (text : pystr) : W bool :=
  before ← gets position;
  beforerev ← gets (fun s => CURRENT_REVISION (w_hist s));
  lines ← gets lines_of;
  let start := normalisecaret lines sr sc in
  let stop := normalisecaret lines er ec in
  let '(start, stop) := if pos_ltb stop start then (stop, start) else (start, stop) in
  r ← editapply start.1 start.2 stop.1 stop.2 text;
  let '(removed, inserted) := r in
  if bool_decide (removed = inserted) then mret false else
  afterrev ← gets (fun s => NEXT_REVISION (w_hist s));
  modify (on_hist (set_NEXT_REVISION (afterrev + 1))) ;;
  set_revision afterrev ;;
  after ← gets position;
  historypush (mkaction start removed inserted before after beforerev afterrev 0 fzero) ;;
  mret true.

Definition undo : W unit :=
  try_w
    (h ← gets w_hist;
     match UNDO_STACK h with
     | [] => skip
     | act :: rest =>
         modify (on_hist (set_UNDO_STACK rest)) ;;
         modify (on_hist (fun h => set_UNDO_BYTES (UNDO_BYTES h - a_bytes act) h)) ;;
         let '(sr, sc) := a_start act in
         let '(er, ec) := textpositionafter sr sc (a_inserted act) in
         editapply sr sc er ec (a_removed act) ;;
         goto_position (a_before act) ;;
         set_revision (a_beforerev act) ;;
         modify (on_hist (fun h => set_REDO_STACK (act :: REDO_STACK h) h)) ;;
         clearselection
     end) tt.

Definition redo : W unit :=
  try_w
    (h ← gets w_hist;
     match REDO_STACK h with
     | [] => skip
     | act :: rest =>
         modify (on_hist (set_REDO_STACK rest)) ;;
         let '(sr, sc) := a_start act in
         let '(er, ec) := textpositionafter sr sc (a_removed act) in
         editapply sr sc er ec (a_inserted act) ;;
         goto_position (a_after act) ;;
         set_revision (a_afterrev act) ;;
         modify (on_hist (fun h => set_UNDO_STACK (act :: UNDO_STACK h) h)) ;;
         modify (on_hist (fun h => set_UNDO_BYTES (UNDO_BYTES h + a_bytes act) h)) ;;
         clearselection
     end) tt.

(** ** Loading a document *)

Definition reset_view (v : view) : view := mkview 0 0 (VISIBLE_LINES v) 0.
Definition set_format (encoding : pystr) (bom : bool) (newline : pystr) (f : file) : file :=
  mkfile (FILE_PATH f) (FILE_NAME f) encoding bom newline.

Definition initialisedocument : W unit :=
  modify (on_doc (set_DOC_LINES [[]])) ;;
  documentmetadatareset ;;
  modify (on_caret (set_cursor (0, 0))) ;;
  modify (on_view reset_view) ;;
  modify (fun s => on_widths (docwidthreset (w_conf s) (lines_of s)) s) ;;
  historyreset ;;
  modify (on_file (fun _ => mkfile None (lit "untitled.txt") (lit "utf-8") false [NL])).

Definition loaddocumentfromlines (lines : list pystr) (lazy_widths : bool) (m : option metadata) : W unit :=
  let values := match lines with [] => [[]] | _ => lines end in
  modify (on_doc (set_DOC_LINES values)) ;;
  (match m with
   | Some m =>
       if (zlen (m_ids m) =? zlen values) && (zlen (m_versions m) =? zlen values) then
         modify (on_doc (fun d => mkdoc (DOC_LINES d) (m_ids m) (m_versions m)
           (foldr Z.max (List.hd 0 (m_ids m)) (m_ids m) + 1) None)) ;;
         modify (on_wrap (invalidatewrapcache true))
       else documentmetadatareset
   | None => documentmetadatareset
   end) ;;
  (match m with
   | Some (mkmetadata _ _ (Some (encoding, bom, newline))) =>
       modify (on_file (set_format encoding bom (known_newline newline)))
   | _ => skip
   end) ;;
  modify (on_view reset_view) ;;
  modify (fun s => on_widths ((if lazy_widths then docwidthbeginindex else docwidthreset) (w_conf s) (lines_of s)) s) ;;
  historyreset ;;
  modify (on_caret (set_cursor (0, 0))).

Definition loaddocumentfromtext (text : pystr) : W unit :=
  loaddocumentfromlines (split_on NL (normalise_newlines text)) false None.

(** [getdocumenttext]. *)
Definition getdocumenttext (lines : list pystr) : pystr := join_with [NL] lines.

End Editing.
