(* ===== verification/WriteView.v ===== *)
(** What the window of the editor shows ([write/write.py]): the text area, the
    scroll position, the caret kept in view, and where a click lands. *)

From stdpp Require Import base option list.
From Stdlib Require Import ZArith Lia Bool.
From S2P Require Import Prelude PyText PyStr WriteState WriteText WriteTree WriteWrap WriteEdit.
Open Scope Z_scope.

Section View.
Context {FT : Font}.

(** ** The text area *)

Definition widths_step {A} (f : conf -> list pystr -> widths -> widths * A) : W A :=
  s ← gets (fun s => s);
  let '(w, a) := f (w_conf s) (lines_of s) (w_widths s) in
  modify (on_widths (fun _ => w)) ;;
  mret a.

Definition verticalneeded : W bool :=
  v ← gets w_view;
  if VISIBLE_LINES v <=? 0 then mret false else
  try_w (n ← displaylinecount; mret (VISIBLE_LINES v <? n)) false.

Definition horizontalneeded : W bool :=
  c ← gets w_conf;
  if WORD_WRAP c then mret false else
  let '(_, _, vw, _) := viewportgeometry_noscrollbars c in
  if vw <=? 0 then mret false else
  content ← widths_step maxlinewidth;
  mret (vw <? content).

Definition viewportgeometry : W (Z * Z * Z * Z) :=
  c ← gets w_conf;
  h ← horizontalneeded;
  let bottom := if h : bool then WIN_H c - HSCROLL_HEIGHT c else WIN_H c in
  let bottom := if SHOW_STATUSBAR c then bottom - STATUSBAR_HEIGHT c else bottom in
  let bottom := if bottom <? 0 then 0 else bottom in
  v ← verticalneeded;
  let right := if v : bool then WIN_W c - SCROLLBAR_WIDTH c else WIN_W c in
  let right := if right <? 0 then 0 else right in
  let w := right - MARGIN_LEFT c in
  let h := bottom - MARGIN_TOP c in
  mret (MARGIN_LEFT c, MARGIN_TOP c, if w <? 0 then 0 else w, if h <? 0 then 0 else h).

(** ** Scrolling sideways *)

Definition clampxscroll : W unit :=
  c ← gets w_conf;
  if WORD_WRAP c then modify (on_view (set_FIRST_VISIBLE_X 0)) else
  g ← viewportgeometry;
  let '(_, _, vw, _) := g in
  if vw <=? 0 then modify (on_view (set_FIRST_VISIBLE_X 0)) else
  content ← widths_step maxlinewidth;
  let max_first := if content - vw <? 0 then 0 else content - vw in
  modify (on_view (fun v =>
    let x := if FIRST_VISIBLE_X v <? 0 then 0 else FIRST_VISIBLE_X v in
    set_FIRST_VISIBLE_X (if max_first <? x then max_first else x) v)).

(** [lineadvanceat(row, line, col, segment_start)]. *)
Definition lineadvanceat (c : conf) (line : pystr) (col segment_start : Z) : Z :=
  let col := Z.max 0 (Z.min (zlen line) col) in
  let segment_start := Z.max 0 (Z.min col segment_start) in
  if col <=? segment_start then 0 else
  let advances := measurelineadvances (TEXTTABWIDTH c) line (FONT_SIZE c) (FONT_PATH c) in
  if zlen advances =? zlen line then
    znth advances (col - 1) - (if 0 <? segment_start then znth advances (segment_start - 1) else 0)
  else measuretext (FONT_PATH c) (zslice line segment_start col) (FONT_SIZE c).

(** The caret's row and column moved into the document. *)
Definition clamp_row : W unit :=
  modify (fun s =>
    let n := zlen (lines_of s) in
    on_caret (fun c =>
      let row := if CUR_ROW c <? 0 then 0 else CUR_ROW c in
      set_CUR_ROW (if n <=? row then n - 1 else row) c) s).

Definition clamp_col (line : pystr) : W unit :=
  modify (on_caret (fun c =>
    let col := if CUR_COL c <? 0 then 0 else CUR_COL c in
    set_CUR_COL (if zlen line <? col then zlen line else col) c)).

(** [line = str(DOC_LINES[CUR_ROW])]. *)
Definition current_line : W pystr :=
  s ← gets (fun s => s);
  lift_w (pyidx (lines_of s) (CUR_ROW (w_caret s))).

Definition ensurecursorvisiblex : W unit :=
  try_w
    (c ← gets w_conf;
     if WORD_WRAP c then modify (on_view (set_FIRST_VISIBLE_X 0)) else
     g ← viewportgeometry;
     let '(_, _, vw, _) := g in
     if vw <=? 0 then modify (on_view (set_FIRST_VISIBLE_X 0)) else
     lines ← gets lines_of;
     match lines with
     | [] => modify (on_view (set_FIRST_VISIBLE_X 0))
     | _ =>
         clamp_row ;;
         line ← current_line;
         clamp_col line ;;
         col ← gets (fun s => CUR_COL (w_caret s));
         let cx := lineadvanceat c line col 0 in
         let room := Z.max 0 (vw - CURSOR_WIDTH c) in
         modify (on_view (fun v => set_FIRST_VISIBLE_X
           (if cx <? FIRST_VISIBLE_X v then cx
            else if FIRST_VISIBLE_X v + room <? cx then cx - room else FIRST_VISIBLE_X v) v)) ;;
         clampxscroll
     end) tt.

Definition scrollbyx (delta : Z) : W unit :=
  try_w
    (modify (on_view (fun v => set_FIRST_VISIBLE_X (FIRST_VISIBLE_X v + delta) v)) ;;
     clampxscroll) tt.

(** ** Scrolling up and down *)

Definition last_first_row (total visible : Z) : Z := if visible <? total then total - visible else 0.

(** The first row moved into [0 .. max_first]. *)
Definition bound_first (max_first row : Z) : Z :=
  let row := if row <? 0 then 0 else row in if max_first <? row then max_first else row.

Definition scrollbylines (delta : Z) : W unit :=
  try_w
    (s ← gets (fun s => s);
     let v := w_view s in
     if (VISIBLE_LINES v <=? 0) || (zlen (lines_of s) =? 0)
     then modify (on_view (set_FIRST_VISIBLE_ROW 0)) else
     total ← displaylinecount;
     modify (on_view (fun v => set_FIRST_VISIBLE_ROW
       (bound_first (last_first_row total (VISIBLE_LINES v)) (FIRST_VISIBLE_ROW v + delta)) v))) tt.

Definition ensurecursorvisible : W unit :=
  try_w
    (modify (on_view (set_PENDING_SCROLL 0)) ;;
     s ← gets (fun s => s);
     if VISIBLE_LINES (w_view s) <=? 0 then ensurecursorvisiblex else
     match lines_of s with
     | [] =>
         modify (on_caret (set_CUR_ROW 0)) ;;
         modify (on_view (set_FIRST_VISIBLE_ROW 0)) ;;
         ensurecursorvisiblex
     | _ =>
         clamp_row ;;
         c ← gets w_caret;
         cursorrow ← cursorvisualindex (CUR_ROW c) (CUR_COL c);
         total ← displaylinecount;
         modify (on_view (fun v =>
           let visible := VISIBLE_LINES v in
           let first := if cursorrow <? FIRST_VISIBLE_ROW v then cursorrow else FIRST_VISIBLE_ROW v in
           let bottom_row := first + visible - 1 in
           let first := if bottom_row <? cursorrow then cursorrow - visible + 1 else first in
           set_FIRST_VISIBLE_ROW (bound_first (last_first_row total visible) first) v)) ;;
         ensurecursorvisiblex
     end) tt.

(** The caret a page up or down: the row bounded, the column cut to its line. *)
Definition page_to (row : Z -> Z -> Z) : W unit :=
  modify (fun s => on_caret (set_CUR_ROW (row (CUR_ROW (w_caret s)) (VISIBLE_LINES (w_view s)))) s) ;;
  line ← current_line;
  modify (on_caret (fun c => set_CUR_COL (Z.min (CUR_COL c) (zlen line)) c)).

Definition pageup : W unit :=
  try_w
    (v ← gets w_view;
     if VISIBLE_LINES v <=? 0 then scrollbylines 0 else
     page_to (fun row visible => Z.max 0 (row - visible)) ;;
     scrollbylines (- VISIBLE_LINES v)) tt.

Definition pagedown : W unit :=
  try_w
    (v ← gets w_view;
     n ← gets (fun s => zlen (lines_of s));
     if VISIBLE_LINES v <=? 0 then scrollbylines 0 else
     page_to (fun row visible => Z.min (n - 1) (row + visible)) ;;
     scrollbylines (VISIBLE_LINES v)) tt.

(** The rows a window of the present size shows ([updatelayoutonresize]). *)
Definition updatelayoutonresize : W unit :=
  try_w
    (g ← viewportgeometry;
     let '(_, _, _, vh) := g in
     c ← gets w_conf;
     modify (on_view (set_VISIBLE_LINES
       (if vh <=? 0 then 0 else if 0 <? LINE_HEIGHT c then vh / LINE_HEIGHT c else 0))) ;;
     v ← gets w_view;
     max_first ← (if 0 <? VISIBLE_LINES v then
                    total ← displaylinecount; mret (last_first_row total (VISIBLE_LINES v))
                  else mret 0);
     modify (on_view (fun v =>
       let first := if max_first <? FIRST_VISIBLE_ROW v then max_first else FIRST_VISIBLE_ROW v in
       set_FIRST_VISIBLE_ROW (if first <? 0 then 0 else first) v)) ;;
     clampxscroll) tt.

(** ** Clicks *)

(** The least index whose advance reaches [x]; [col] when there is none. *)
Fixpoint hit_loop (fuel : nat) (advances : list Z) (x lo hi col : Z) : Z :=
  match fuel with
  | O => col
  | S fuel =>
      if lo <=? hi then
        let mid := (lo + hi) / 2 in
        if x <=? znth advances mid then hit_loop fuel advances x lo (mid - 1) mid
        else hit_loop fuel advances x (mid + 1) hi col
      else col
  end.

Definition pointtodocpos (x y : Z) : W (Z * Z) :=
  try_w
    (s ← gets (fun s => s);
     let c := w_conf s in
     let v := w_view s in
     match lines_of s with
     | [] => mret (0, 0)
     | lines =>
         let displayrow :=
           if y <? MARGIN_TOP c then FIRST_VISIBLE_ROW v
           else FIRST_VISIBLE_ROW v + (y - MARGIN_TOP c) / LINE_HEIGHT c in
         r ← (if WORD_WRAP c then
                g ← displaysegment displayrow;
                let '(row, segstart, segend) := g in mret (row, segstart, Some segend)
              else mret (displayrow, 0, None));
         let '(row, segstart, segend) := r in
         let row := if row <? 0 then 0 else row in
         let row := if zlen lines <=? row then zlen lines - 1 else row in
         line ← lift_w (pyidx lines row);
         let segend := default (zlen line) segend in
         let xdoc := x - MARGIN_LEFT c + (if WORD_WRAP c then 0 else FIRST_VISIBLE_X v) in
         let xdoc := if xdoc <? 0 then 0 else xdoc in
         let advances := measurelineadvances (TEXTTABWIDTH c) (zslice line segstart segend) (FONT_SIZE c) (FONT_PATH c) in
         match advances with
         | [] => mret (row, if xdoc <=? 0 then segstart else segend)
         | _ =>
             let col := hit_loop (S (length advances)) advances xdoc 0 (zlen advances - 1) (zlen advances) in
             mret (row, Z.min segend (segstart + col))
         end
     end) (0, 0).

End View.
