(* ===== verification/WriteOps.v ===== *)
(** The commands of the editor on the document ([write/write.py]): typing,
    deleting, moving by words and lines, indentation, the clipboard.

    [exset] and [exget] are the clipboard client: what they give is an argument
    (the outcome of [exset], the text [exget] found). *)

From stdpp Require Import base option list gmap.
From Stdlib Require Import ZArith Lia Bool.
From S2P Require Import Prelude PyFloat PyText PyVal PyStr WriteState WriteText WriteTree WriteWrap WriteEdit WriteView.
Open Scope Z_scope.

(** ** Words *)

Section Words.
Context {AN : Alnum}.

(** [while p(line[i]): i += 1]: the end of the run of [p] from [i]. *)
Fixpoint run_right (p : Z -> bool) (l : pystr) : Z :=
  match l with
  | [] => 0
  | c :: l' => if p c then 1 + run_right p l' else 0
  end.
Definition skip_right (p : Z -> bool) (line : pystr) (i : Z) : Z := i + run_right p (zdrop i line).

(** [while i > 0 and p(line[i - 1]): i -= 1]. *)
Definition skip_left (p : Z -> bool) (line : pystr) (i : Z) : Z := i - run_right p (rev (ztake i line)).

(** [not c.isspace() and iswordcharacter(c) == word]. *)
Definition same_kind (word : bool) (c : Z) : bool := negb (is_space c) && eqb (iswordcharacter c) word.

(** The previous word in a line, from a column above 0 or the end of the line. *)
Definition word_left (line : pystr) (col : Z) : Z :=
  let col := skip_left is_space line col in
  if 0 <? col then skip_left (same_kind (iswordcharacter (znth line (col - 1)))) line col else col.

Definition wordpositionleft (lines : list pystr) (row col : Z) : res (Z * Z) :=
  let '(row, col) := normalisecaret lines row col in
  if col =? 0 then
    if row =? 0 then Ok (0, 0)
    else line ← pyidx lines (row - 1); Ok (row - 1, word_left line (zlen line))
  else line ← pyidx lines row; Ok (row, word_left line col).

Definition wordpositionright (lines : list pystr) (row col : Z) : res (Z * Z) :=
  let '(row, col) := normalisecaret lines row col in
  line ← pyidx lines row;
  if zlen line <=? col then Ok (if zlen lines <=? row + 1 then (row, zlen line) else (row + 1, 0))
  else
    let col := skip_right (same_kind (iswordcharacter (znth line col))) line col in
    Ok (row, skip_right is_space line col).

End Words.

Section Ops.
Context {FT : Font} {CK : Clock} {AN : Alnum}.

(** A command that logs what it raises. *)
Definition logged (m : W unit) : W unit := try_w m tt.

(** [editreplace] as a statement. *)
Definition replace (sr sc er ec : Z) (text : pystr) : W unit := editreplace sr sc er ec text ;; skip.

(** ** Selection *)

Definition deleteselection : W unit := logged
  (c ← gets w_caret;
   if negb (hasselection c) then skip else
   let '((sr, sc), (er, ec)) := selectionbounds c in
   replace sr sc er ec []).

(** [replaceselectionwithtext] and [replaceselectionwithtextblock]. *)
Definition replaceselectionwithtext (text : pystr) : W unit := logged
  (c ← gets w_caret;
   let '((sr, sc), (er, ec)) := if hasselection c then selectionbounds c else (cursor c, cursor c) in
   replace sr sc er ec text).

Definition inserttextblock (text : pystr) : W unit := logged
  (c ← gets w_caret;
   replace (CUR_ROW c) (CUR_COL c) (CUR_ROW c) (CUR_COL c) text).

(** [editcopy]: what is handed to the clipboard, if anything. *)
Definition copied (s : wst) : option pystr :=
  if negb (hasselection (w_caret s)) then None
  else match selectedtext (lines_of s) (w_caret s) with [] => None | txt => Some txt end.

(** [editcut]; [exset] is the outcome of the call to the clipboard. *)
Definition editcut (exset : res unit) : W unit := logged
  (txt ← gets copied;
   match txt with
   | None => skip
   | Some _ => lift_w exset ;; deleteselection
   end).

(** [editpaste]; [data] is the text [exget] gave when it succeeded. *)
Definition editpaste (data : option pystr) : W unit := logged
  (match data with
   | None | Some [] => skip
   | Some txt => replaceselectionwithtext txt ;; clearselection ;; ensurecursorvisible
   end).

Definition editselectall : W unit := logged
  (lines ← gets lines_of;
   match lines with
   | [] => skip
   | _ =>
       let lastrow := zlen lines - 1 in
       lastline ← lift_w (pyidx lines lastrow);
       let p := (lastrow, zlen lastline) in
       modify (on_caret (fun c => set_cursor p (set_SEL_ACTIVE true (set_end p (set_anchor (0, 0) c))))) ;;
       ensurecursorvisible
   end).

(** A double and a triple click. *)
Definition select_span (row s e : Z) : W unit :=
  setselectionanchor row s ;; updateselectionend row e ;; modify (on_caret (set_cursor (row, e))).

Definition clamped_row (lines : list pystr) (row : Z) : Z :=
  let row := if row <? 0 then 0 else row in if zlen lines <=? row then zlen lines - 1 else row.

(** The column of the word a click on column [idx] means: the next one, else the
    previous one of the line. *)
Definition word_near (line : pystr) (idx : Z) : option Z :=
  if (0 <? zlen line) && (idx <? zlen line) && negb (iswordchar (znth line idx)) then
    let j := skip_right (fun c => negb (iswordchar c)) line idx in
    if j <? zlen line then Some j
    else
      let j := skip_left (fun c => negb (iswordchar c)) line idx - 1 in
      if 0 <=? j then Some j else None
  else Some idx.

Definition selectwordat (row col : Z) : W unit := logged
  (lines ← gets lines_of;
   match lines with
   | [] => skip
   | _ =>
       let row := clamped_row lines row in
       line ← lift_w (pyidx lines row);
       let col := clamp (zlen line) col in
       let idx := if (zlen line <=? col) && (0 <? zlen line) then zlen line - 1 else col in
       match word_near line idx with
       | None => setselectionanchor row col ;; updateselectionend row col
       | Some idx =>
           let s := skip_left iswordchar line idx in
           let e := skip_right iswordchar line idx in
           let e := if (e <? zlen line) && (znth line e =? SPACE) then e + 1 else e in
           select_span row s e
       end
   end).

Definition selectline (row : Z) : W unit := logged
  (lines ← gets lines_of;
   match lines with
   | [] => skip
   | _ =>
       let row := clamped_row lines row in
       line ← lift_w (pyidx lines row);
       select_span row 0 (zlen line)
   end).

(** ** Typing *)

(** The text Enter inserts: a newline and the indentation of the line. *)
Definition newlinevalue (lines : list pystr) (row col : Z) : pystr :=
  match pyidx lines row with
  | Ok line =>
      let col := Z.max 0 (Z.min (zlen line) col) in
      let limit := run_right (fun c => (c =? SPACE) || (c =? TAB)) line in
      NL :: ztake (Z.min limit col) line
  | Exc _ => [NL]
  end.

(** [normalisecaret(CUR_ROW, CUR_COL)]. *)
Definition caret_position : W (Z * Z) :=
  gets (fun s => normalisecaret (lines_of s) (CUR_ROW (w_caret s)) (CUR_COL (w_caret s))).

Definition handlenewline : W unit := logged
  (p ← caret_position;
   lines ← gets lines_of;
   replace p.1 p.2 p.1 p.2 (newlinevalue lines p.1 p.2)).

Definition insertcharacter (ch : pystr) : W unit := logged
  (if bool_decide (ch = [NL]) then handlenewline else
   p ← caret_position;
   s ← gets (fun s => s);
   line ← lift_w (if OVERWRITE_MODE (w_conf s) then pyidx (lines_of s) p.1 else Ok []);
   let endcol := if OVERWRITE_MODE (w_conf s) && (p.2 <? zlen line) then p.2 + 1 else p.2 in
   replace p.1 p.2 p.1 endcol ch).

Definition insertnewline : W unit := logged
  (c ← gets w_caret; replace (CUR_ROW c) (CUR_COL c) (CUR_ROW c) (CUR_COL c) [NL]).

Definition handlebackspace : W unit := logged
  (lines ← gets lines_of;
   match lines with
   | [] => skip
   | _ =>
       p ← caret_position;
       if (p.1 =? 0) && (p.2 =? 0) then skip
       else if 0 <? p.2 then replace p.1 (p.2 - 1) p.1 p.2 []
       else
         previous ← lift_w (pyidx lines (p.1 - 1));
         replace (p.1 - 1) (zlen previous) p.1 0 []
   end).

Definition handledelete : W unit := logged
  (lines ← gets lines_of;
   match lines with
   | [] => skip
   | _ =>
       p ← caret_position;
       line ← lift_w (pyidx lines p.1);
       if p.2 <? zlen line then replace p.1 p.2 p.1 (p.2 + 1) []
       else if p.1 + 1 <? zlen lines then replace p.1 p.2 (p.1 + 1) 0 []
       else skip
   end).

Definition deleteword (reverse : bool) : W unit := logged
  (s ← gets (fun s => s);
   let '(row, col) := cursor (w_caret s) in
   p ← lift_w ((if reverse then wordpositionleft else wordpositionright) (lines_of s) row col);
   if reverse then replace p.1 p.2 row col [] else replace row col p.1 p.2 []).

(** ** Lines *)

(** [selectedlinerange]: first and last selected line. *)
Definition selectedlinerange (lines : list pystr) (c : caret) : Z * Z :=
  if hasselection c then
    let '((sr, _), (er, ec)) := selectionbounds c in
    let last := if (sr <? er) && (ec =? 0) then er - 1 else er in
    (sr, Z.max sr last)
  else
    let row := (normalisecaret lines (CUR_ROW c) (CUR_COL c)).1 in (row, row).

(** Put the caret on the line [row], its column cut to the line. *)
Definition caret_to_line (row : Z) : W unit :=
  modify (on_caret (set_CUR_ROW row)) ;;
  line ← current_line;
  modify (on_caret (fun c => set_CUR_COL (Z.min (CUR_COL c) (zlen line)) c)).

Definition set_reflow (row : Z) : W unit := modify (on_doc (set_DOCUMENT_REFLOW_ROW (Some row))).

Definition duplicatelines : W bool := try_w
  (s ← gets (fun s => s);
   let lines := lines_of s in
   let '(first, last) := selectedlinerange lines (w_caret s) in
   lastline ← lift_w (pyidx lines last);
   let block := join_with [NL] (zslice lines first (last + 1)) in
   replace last (zlen lastline) last (zlen lastline) (NL :: block) ;;
   clearselection ;;
   caret_to_line (last + 1) ;;
   set_reflow first ;;
   mret true) false.

Definition deletelines : W bool := try_w
  (s ← gets (fun s => s);
   let lines := lines_of s in
   let '(first, last) := selectedlinerange lines (w_caret s) in
   (if (first =? 0) && (last =? zlen lines - 1) then
      lastline ← lift_w (pyidx lines last); replace 0 0 last (zlen lastline) []
    else if last + 1 <? zlen lines then replace first 0 (last + 1) 0 []
    else
      previous ← lift_w (pyidx lines (first - 1));
      lastline ← lift_w (pyidx lines last);
      replace (first - 1) (zlen previous) last (zlen lastline) []) ;;
   clearselection ;;
   n ← gets (fun s => zlen (lines_of s));
   caret_to_line (Z.min first (n - 1)) ;;
   set_reflow (Z.max 0 (first - 1)) ;;
   mret true) false.

(** ** Indentation *)

Definition indent_unit (c : conf) : pystr := if INDENT_USE_TABS c then [TAB] else zreplicate (TAB_WIDTH c) SPACE.

(** Where a position of an indented line goes. *)
Definition adjusted (c : conf) (outdent : bool) (removals : list Z) (sr lastrow : Z) (p : Z * Z) : Z * Z :=
  if (sr <=? p.1) && (p.1 <=? lastrow) then
    if outdent then (p.1, Z.max 0 (p.2 - znth removals (p.1 - sr)))
    else (p.1, p.2 + (if INDENT_USE_TABS c then 1 else TAB_WIDTH c))
  else p.

Definition handleindentation (outdent : bool) : W bool := try_w
  (s ← gets (fun s => s);
   let lines := lines_of s in
   let conf := w_conf s in
   let c := w_caret s in
   match lines with
   | [] => mret false
   | _ =>
       if negb (hasselection c) then
         let '(row, col) := normalisecaret lines (CUR_ROW c) (CUR_COL c) in
         line ← lift_w (pyidx lines row);
         if negb outdent then
           if INDENT_USE_TABS conf then editreplace row col row col [TAB]
           else
             let count := TAB_WIDTH conf - displaycolumn (TAB_WIDTH conf) (ztake col line) 0 mod TAB_WIDTH conf in
             editreplace row col row col (zreplicate count SPACE)
         else
           let count := indentationremoval (TAB_WIDTH conf) line in
           if count <=? 0 then mret false else
           replace row 0 row count [] ;;
           modify (on_caret (set_cursor (row, Z.max 0 (col - count)))) ;;
           set_reflow row ;;
           mret true
       else
         let '((sr, _), (er, ec)) := selectionbounds c in
         let lastrow := if (sr <? er) && (ec =? 0) then er - 1 else er in
         let lastrow := Z.max sr lastrow in
         lastline ← lift_w (pyidx lines lastrow);
         let block := zslice lines sr (lastrow + 1) in
         let removals := List.map (indentationremoval (TAB_WIDTH conf)) block in
         let replacement :=
           if outdent then List.map (fun line => zdrop (indentationremoval (TAB_WIDTH conf) line) line) block
           else List.map (fun line => indent_unit conf ++ line) block in
         if outdent && forallb (Z.eqb 0) removals then mret false else
         replace sr 0 lastrow (zlen lastline) (join_with [NL] replacement) ;;
         let adjust := adjusted conf outdent removals sr lastrow in
         modify (on_caret (fun c' =>
           let a := adjust (anchor c) in
           let e := adjust (endpoint c) in
           set_SEL_ACTIVE (negb (bool_decide (a = e)))
             (set_cursor (adjust (cursor c)) (set_end e (set_anchor a c'))))) ;;
         set_reflow sr ;;
         mret true
   end) false.

(** ** Case *)

Definition transformselection `{PyUnicode} (upper : bool) : W bool := try_w
  (s ← gets (fun s => s);
   let c := w_caret s in
   if negb (hasselection c) then mret false else
   let '((sr, sc), (er, ec)) := selectionbounds c in
   let value := selectedtext (lines_of s) c in
   let transformed := if upper then uc_upper value else uc_lower value in
   if bool_decide (transformed = value) then mret false else
   replace sr sc er ec transformed ;;
   setselectionanchor sr sc ;;
   let p := textpositionafter sr sc transformed in
   modify (on_caret (set_cursor p)) ;;
   updateselectionend p.1 p.2 ;;
   mret true) false.

(** ** Moving *)

(** [if not DOC_LINES]: an empty document gets one line. *)
Definition with_document (m : W unit) : W unit := logged
  (lines ← gets lines_of;
   match lines with
   | [] => modify (on_doc (set_DOC_LINES [[]])) ;; modify (on_caret (set_cursor (0, 0)))
   | _ => m
   end).

Definition movecursorleft : W unit := with_document
  (clamp_row ;;
   line ← current_line;
   clamp_col line ;;
   c ← gets w_caret;
   if 0 <? CUR_COL c then modify (on_caret (set_CUR_COL (CUR_COL c - 1)))
   else if 0 <? CUR_ROW c then
     modify (on_caret (set_CUR_ROW (CUR_ROW c - 1))) ;;
     prev_line ← current_line;
     modify (on_caret (set_CUR_COL (zlen prev_line)))
   else skip).

Definition movecursorright : W unit := with_document
  (clamp_row ;;
   line ← current_line;
   clamp_col line ;;
   s ← gets (fun s => s);
   let c := w_caret s in
   if CUR_COL c <? zlen line then modify (on_caret (set_CUR_COL (CUR_COL c + 1)))
   else if CUR_ROW c + 1 <? zlen (lines_of s) then
     modify (on_caret (set_cursor (CUR_ROW c + 1, 0)))
   else skip).

Definition movecursorup : W unit := with_document
  (c ← gets w_caret;
   when (0 <? CUR_ROW c) (modify (on_caret (set_CUR_ROW (CUR_ROW c - 1)))) ;;
   clamp_row ;;
   line ← current_line;
   clamp_col line).

Definition movecursordown : W unit := with_document
  (s ← gets (fun s => s);
   let row := CUR_ROW (w_caret s) in
   when (row + 1 <? zlen (lines_of s)) (modify (on_caret (set_CUR_ROW (row + 1)))) ;;
   clamp_row ;;
   line ← current_line;
   clamp_col line).

Definition movecursorhome : W unit := logged
  (s ← gets (fun s => s);
   let lines := lines_of s in
   line ← lift_w (pyidx lines (Z.max 0 (Z.min (zlen lines - 1) (CUR_ROW (w_caret s)))));
   let firsttext := run_right (fun c => (c =? SPACE) || (c =? TAB)) line in
   modify (on_caret (fun c => set_CUR_COL (if CUR_COL c =? firsttext then 0 else firsttext) c))).

Definition movecursorend : W unit := with_document
  (clamp_row ;;
   line ← current_line;
   modify (on_caret (set_CUR_COL (zlen line)))).

(** Not guarded: an exception would leave the caller. *)
Definition movecursorword (reverse : bool) : W unit :=
  s ← gets (fun s => s);
  let '(row, col) := cursor (w_caret s) in
  p ← lift_w ((if reverse then wordpositionleft else wordpositionright) (lines_of s) row col);
  modify (on_caret (set_cursor p)).

(** [gotoline]: [line] is the number the user typed, when it is one. *)
Definition gotoline (line : option Z) : W bool := try_w
  (match line with
   | None => mret false
   | Some n =>
       count ← gets (fun s => zlen (lines_of s));
       let row := Z.max 0 (Z.min (count - 1) (n - 1)) in
       modify (on_caret (set_cursor (row, 0))) ;;
       clearselection ;;
       ensurecursorvisible ;;
       mret true
   end) false.

End Ops.

(** Find and replace in the editor ([write/write.py], [findlineindex] to
    [replaceall]).  The messages of the status bar are left out. *)
(** ** [str.find] and [str.rfind] *)

(** The least index of [needle] in [s], counted from [i]. *)
Fixpoint find_from (needle s : pystr) (i : Z) : Z :=
  if starts_with needle s then i
  else match s with [] => -1 | _ :: s' => find_from needle s' (i + 1) end.

(** [haystack.find(needle, start)] for [start >= 0]. *)
Definition str_find (haystack needle : pystr) (start : Z) : Z :=
  if zlen haystack <? start then -1 else find_from needle (zdrop start haystack) start.

(** The greatest index, [best] when there is none. *)
Fixpoint rfind_from (needle s : pystr) (i best : Z) : Z :=
  let best := if starts_with needle s then i else best in
  match s with [] => best | _ :: s' => rfind_from needle s' (i + 1) best end.

(** [haystack.rfind(needle, 0, stop)] for [stop >= 0]. *)
Definition str_rfind (haystack needle : pystr) (stop : Z) : Z := rfind_from needle (ztake stop haystack) 0 (-1).

Section Find.
Context {FT : Font} {CK : Clock} {AN : Alnum} {UC : PyUnicode}.

Definition fold_case (matchcase : bool) (s : pystr) : pystr := if matchcase then s else uc_lower s.

Definition findlineindex (matchcase : bool) (line query : pystr) (start : Z) (reverse : bool) : Z :=
  let haystack := fold_case matchcase line in
  let needle := fold_case matchcase query in
  if reverse then str_rfind haystack needle (Z.max 0 start) else str_find haystack needle (Z.max 0 start).

Definition selectionmatches (s : wst) (query : pystr) : bool :=
  let m := FIND_MATCH_CASE (w_search s) in
  str_eqb (fold_case m (selectedtext (lines_of s) (w_caret s))) (fold_case m query).

(** The loop of [findnext] over the lines: the row and index found. *)
Fixpoint find_rows (n : nat) (offset : Z) (lines : list pystr) (matchcase reverse : bool) (value : pystr)
    (startrow startcol : Z) : res (option (Z * Z)) :=
  match n with
  | O => Ok None
  | S n =>
      let rows := zlen lines in
      let row := (if reverse then startrow - offset else startrow + offset) mod rows in
      line ← pyidx lines row;
      let boundary := if offset =? 0 then startcol else if reverse then zlen line + 1 else 0 in
      let index := findlineindex matchcase line value boundary reverse in
      if 0 <=? index then Ok (Some (row, index))
      else find_rows n (offset + 1) lines matchcase reverse value startrow startcol
  end.

Definition findnext (reverse : bool) (query : option pystr) : W bool := try_w
  (s ← gets (fun s => s);
   let value := default (FIND_QUERY (w_search s)) query in
   if bool_decide (value = []) then mret false else
   modify (on_search (set_FIND_QUERY value)) ;;
   s ← gets (fun s => s);
   let lines := lines_of s in
   let c := w_caret s in
   let start := normalisecaret lines (CUR_ROW c) (CUR_COL c) in
   let '(startrow, startcol) :=
     if hasselection c && selectionmatches s value then
       let '(b, e) := selectionbounds c in if reverse then b else e
     else start in
   r ← lift_w (find_rows (S (length lines)) 0 lines (FIND_MATCH_CASE (w_search s)) reverse value startrow startcol);
   match r with
   | Some (row, index) =>
       setselectionanchor row index ;;
       modify (on_caret (set_cursor (row, index + zlen value))) ;;
       updateselectionend row (index + zlen value) ;;
       ensurecursorvisible ;;
       mret true
   | None => clearselection ;; mret false
   end) false.

Definition replaceone : W bool := try_w
  (s ← gets (fun s => s);
   let query := FIND_QUERY (w_search s) in
   if bool_decide (query = []) then mret false else
   found ← (if hasselection (w_caret s) && selectionmatches s query then mret true else findnext false (Some query));
   if negb found then mret false else
   s ← gets (fun s => s);
   let '((sr, sc), (er, ec)) := selectionbounds (w_caret s) in
   let text := REPLACE_QUERY (w_search s) in
   replace sr sc er ec text ;;
   modify (on_caret (set_cursor (textpositionafter sr sc text))) ;;
   clearselection ;;
   findnext false (Some query) ;;
   mret true) false.

(** The loop over one line: [lowered] is searched for [needle], the parts are
    taken from [value], and each occurrence is taken to be [width] long. *)
Fixpoint replace_scan (fuel : nat) (lowered needle value repl : pystr) (width position : Z) : Z * pystr :=
  match fuel with
  | O => (0, zdrop position value)
  | S fuel =>
      let found := str_find lowered needle position in
      if found <? 0 then (0, zdrop position value)
      else
        let '(count, rest) := replace_scan fuel lowered needle value repl width (found + width) in
        (count + 1, zslice value position found ++ repl ++ rest)
  end.

(** How often the query occurs in a line, and the line with it replaced
    ([str.count] and [str.replace] when case matters). *)
Definition replace_line (matchcase : bool) (query repl value : pystr) : Z * pystr :=
  let lowered := fold_case matchcase value in
  replace_scan (S (length lowered)) lowered (fold_case matchcase query) value repl (zlen query) 0.

Definition replaceall : W Z := try_w
  (s ← gets (fun s => s);
   let f := w_search s in
   if bool_decide (FIND_QUERY f = []) then mret 0 else
   let lines := lines_of s in
   let results := List.map (replace_line (FIND_MATCH_CASE f) (FIND_QUERY f) (REPLACE_QUERY f)) lines in
   let total := foldr Z.add 0 (List.map fst results) in
   if negb (total =? 0) then
     lastline ← lift_w (pyidx lines (zlen lines - 1));
     replace 0 0 (zlen lines - 1) (zlen lastline) (join_with [NL] (List.map snd results)) ;;
     clearselection ;;
     mret total
   else mret total) 0.

End Find.
