(* ===== verification/WriteDocs.v ===== *)
(** Documents and files in the running editor ([write/write.py]): the background
    worker and its results, opening and saving, the questions asked before a
    document with unsaved changes is given up, and the events that lead there.

    A function here reads and changes the editor and the file system ([D]).  The
    worker thread shares nothing with the main loop but [FILE_IO_RESULT], under a
    lock, so its run is one step.  What the window server draws, the text of its
    questions, and the settings file that remembers recent documents are left
    out. *)

From stdpp Require Import base option list gmap.
From Stdlib Require Import ZArith Lia Bool String.
From S2P Require Import Prelude PyFloat PyText PyVal PyStr PyFs PyPath WriteState WriteText WriteFormat WriteDisk.
From S2P Require Import WriteWrap WriteEdit WriteView WriteOps.
Open Scope Z_scope.

(** ** Editor and file system *)

Definition D (A : Type) : Type := wst * world -> res A * (wst * world).

#[export] Instance d_ret : MRet D := fun A a s => (Ok a, s).
#[export] Instance d_bind : MBind D := fun A B f m s =>
  match m s with
  | (Ok a, s') => f a s'
  | (Exc e, s') => (Exc e, s')
  end.

Definition ed {A} (m : W A) : D A := fun s => let '(r, e) := m s.1 in (r, (e, s.2)).
Definition sys {A} (m : IO A) : D A := fun s => let '(r, w) := m s.2 in (r, (s.1, w)).

(** [try: m  except ...: h]. *)
Definition try_d {A} (m : D A) (h : exn -> D A) : D A := fun s =>
  match m s with
  | (Ok a, s') => (Ok a, s')
  | (Exc e, s') => h e s'
  end.

Definition get {A} (f : wst -> A) : D A := fun s => (Ok (f s.1), s).
Definition put (f : wst -> wst) : D unit := fun s => (Ok tt, (f s.1, s.2)).
Definition put_io (f : io -> io) : D unit := put (on_io f).

Definition setstatus (message : pystr) : D unit := put_io (set_LAST_STATUS_MESSAGE message).

(** [os.path.basename], [os.path.abspath]. *)
Definition basename (path : pystr) : pystr := List.last (split_on 47 path) [].

Definition RECENT_FILE_LIMIT : nat := 8.

Section Docs.
Context {FT : Font} {CK : Clock} {AN : Alnum} {UC : PyUnicode} {OS : Os}.
Context (error_text : exn -> pystr).

Definition abspath (path : pystr) : pystr :=
  normpath (if starts_with [47] path then path else os_cwd ++ [47] ++ path).

Definition addrecentfile (path : pystr) : D unit := put_io (fun f =>
  let value := abspath path in
  let others := filter (fun entry => abspath entry <> value) (RECENT_FILES f) in
  set_RECENT_FILES (take RECENT_FILE_LIMIT (value :: others)) f).

Definition set_path (path : option pystr) (name : pystr) (f : file) : file :=
  set_FILE_NAME name (set_FILE_PATH path f).

Definition canceldestructiveflow : D unit :=
  put_io (fun f => set_PENDING_DESTRUCTIVE_ACTION None (set_AFTER_SAVE_ACTION None f)).

(** ** Background file work *)

Definition is_load (job : iojob) : bool := match job with LoadJob _ => true | SaveJob _ _ _ _ _ _ => false end.

Definition startfileio (job : iojob) : D bool :=
  busy ← get (fun s => FILE_IO_THREAD (w_io s));
  match busy with
  | Some other => setstatus ((if is_load other then lit "load" else lit "save") ++ lit " in progress") ;; mret false
  | None =>
      put_io (set_FILE_IO_RESULT None) ;;
      setstatus (if is_load job then lit "loading" else lit "saving") ;;
      put_io (set_FILE_IO_THREAD (Some job)) ;;
      mret true
  end.

(** The worker runs to its end: [fileiocomplete]. *)
Definition run_worker : D unit :=
  f ← get w_io;
  match FILE_IO_THREAD f, FILE_IO_RESULT f with
  | Some job, None =>
      result ← sys (worker error_text job);
      put_io (set_FILE_IO_RESULT (Some result))
  | _, _ => mret tt
  end.

(** ** Opening *)

(** The document of a loaded file takes the place of the present one. *)
Definition show_loaded (path : pystr) (lines : list pystr) (m : metadata) : D unit :=
  ed (loaddocumentfromlines lines true (Some m)) ;;
  put (on_file (set_path (Some path) (if str_eqb path [] then lit "untitled.txt" else basename path))).

Definition load_status (e : exn) : pystr :=
  match e with
  | FileNotFoundError => lit "file not found"
  | PermissionError => lit "permission denied"
  | _ => lit "load error " ++ error_text e
  end.

Definition loaddocumentfromfile (path : pystr) : D unit :=
  try_d
    (if str_eqb path [] then setstatus (lit "invalid path")
     else
       running ← get (fun s => APP_RUNNING (w_io s));
       if running : bool then _ ← startfileio (LoadJob path); mret tt
       else
         '(_, lines, m) ← sys (readfilepayload path);
         ed (loaddocumentfromlines lines true (Some m)) ;;
         put (on_file (set_path (Some path) (basename path))) ;;
         addrecentfile path ;;
         put (on_hist (set_IS_DIRTY false)) ;;
         try_d (ed ensurecursorvisible) (fun _ => mret tt) ;;
         setstatus (lit "loaded"))
    (fun e => setstatus (load_status e)).

(** ** Questions *)

Definition opendialog (d : dialog) : D bool :=
  f ← get w_io;
  match DIALOG f with
  | Some _ => setstatus (lit "dialog already open") ;; mret false
  | None =>
      if WINDOW_OPEN f then put_io (set_DIALOG (Some d)) ;; mret true
      else setstatus (lit "dialog unavailable") ;; mret false
  end.

Definition startfilepicker (kind : picker) : D bool :=
  f ← get w_io;
  match PICKER_PENDING f with
  | Some _ => mret true
  | None =>
      if (PICKER_VERSION f <? 1) || negb (WINDOW_OPEN f) then mret false
      else put_io (set_PICKER_PENDING (Some kind)) ;; setstatus (lit "opening Array") ;; mret true
  end.

Definition startopenpathprompt : D unit :=
  picked ← startfilepicker Pick_open;
  if picked : bool then mret tt else _ ← opendialog Open_path; mret tt.

Definition startsavepathprompt : D unit :=
  picked ← startfilepicker Pick_save;
  if picked : bool then mret tt else _ ← opendialog Save_path; mret tt.

Definition performdestructiveaction (action : daction) : D bool :=
  try_d
    (match action with
     | DNew => ed initialisedocument ;; ed clearselection
     | DOpen => startopenpathprompt
     | DExit => put_io (set_APP_RUNNING false)
     | DOpenRecent path => loaddocumentfromfile path
     end ;; mret true)
    (fun _ => mret false).

Definition requestdestructiveaction (action : daction) : D bool :=
  dirty ← get (fun s => IS_DIRTY (w_hist s));
  if negb dirty then performdestructiveaction action
  else
    put_io (set_PENDING_DESTRUCTIVE_ACTION (Some action)) ;;
    opendialog (Confirm_unsaved action).

Definition completeaftersave : D bool :=
  s ← get (fun s => s);
  match AFTER_SAVE_ACTION (w_io s) with
  | Some action => if IS_DIRTY (w_hist s) then mret false else canceldestructiveflow ;; performdestructiveaction action
  | None => mret false
  end.

(** ** Saving *)

(** The document is the file's now. *)
Definition set_saved (h : hist) : hist := set_IS_DIRTY false (set_SAVED_REVISION (CURRENT_REVISION h) h).

(** Outside the main loop the file is written at once; then [started] is read,
    which no one assigned: a [NameError], after the document was marked saved. *)
Definition savedocumenttofile (path : pystr) : D bool :=
  try_d
    ('(p, _, _) ← sys (usersavepath path);
     s ← get (fun s => s);
     let f := w_file s in
     if APP_RUNNING (w_io s) then
       startfileio (SaveJob p (lines_of s) (CURRENT_REVISION (w_hist s)) (FILE_ENCODING f) (FILE_BOM f) (FILE_NEWLINE f))
     else
       written ← try_d
         (p ← sys (writeuserfilesnapshot p (lines_of s) (FILE_ENCODING f) (FILE_BOM f) (FILE_NEWLINE f)); mret (Some p))
         (fun e => setstatus (match e with
                              | PermissionError => lit "permission denied"
                              | _ => lit "error saving file " ++ error_text e
                              end) ;; mret None);
       match written with
       | None => mret false
       | Some p =>
           put (on_file (set_path (Some p) (basename p))) ;;
           addrecentfile p ;;
           put (on_hist set_saved) ;;
           setstatus (lit "save error name 'started' is not defined") ;;
           mret false
       end)
    (fun e => setstatus (lit "save error " ++ error_text e) ;; mret false).

Definition pollfileio : D bool :=
  result ← get (fun s => FILE_IO_RESULT (w_io s));
  put_io (set_FILE_IO_RESULT None) ;;
  match result with
  | None => mret false
  | Some result =>
      put_io (set_FILE_IO_THREAD None) ;;
      match result with
      | IoFailed saving message =>
          (if saving : bool then canceldestructiveflow else mret tt) ;;
          setstatus message ;;
          mret true
      | IoLoaded path lines m =>
          show_loaded path lines m ;;
          addrecentfile path ;;
          ed ensurecursorvisible ;;
          setstatus (lit "loaded") ;;
          mret true
      | IoSaved path revision =>
          name ← get (fun s => FILE_NAME (w_file s));
          put (on_file (set_path (Some path) (if str_eqb path [] then name else basename path))) ;;
          h ← get w_hist;
          (if CURRENT_REVISION h =? revision then put (on_hist set_saved) else canceldestructiveflow) ;;
          addrecentfile path ;;
          setstatus (lit "saved") ;;
          _ ← completeaftersave;
          mret true
      end
  end.

(** File, save: to the file the document has, or ask for one. *)
Definition save_command : D unit :=
  path ← get (fun s => FILE_PATH (w_file s));
  match path with
  | Some p => if str_eqb p [] then startsavepathprompt else _ ← savedocumenttofile p; mret tt
  | None => startsavepathprompt
  end.

(** ** Answers *)

Definition dialog_saves (d : dialog) : bool := match d with Confirm_unsaved _ | Save_path => true | _ => false end.

Definition handledialogresult (result value : pystr) : D bool :=
  d ← get (fun s => DIALOG (w_io s));
  match d with
  | None => mret false
  | Some action =>
      put_io (set_DIALOG None) ;;
      if str_eqb result (lit "cancel") then
        (if dialog_saves action then canceldestructiveflow else mret tt) ;;
        setstatus (lit "cancelled") ;;
        mret true
      else
        match action with
        | Confirm_unsaved payload =>
            (if str_eqb result (lit "discard") then
               put_io (set_PENDING_DESTRUCTIVE_ACTION None) ;;
               _ ← performdestructiveaction payload; mret tt
             else if str_eqb result (lit "save") then
               put_io (set_AFTER_SAVE_ACTION (Some payload)) ;;
               path ← get (fun s => FILE_PATH (w_file s));
               match path with
               | Some p =>
                   if str_eqb p [] then startsavepathprompt
                   else _ ← savedocumenttofile p; _ ← completeaftersave; mret tt
               | None => startsavepathprompt
               end
             else mret tt) ;;
            mret true
        | _ =>
            (if negb (str_eqb result (lit "ok")) then mret tt
             else
               match action with
               | Open_path => loaddocumentfromfile value
               | Save_path => _ ← savedocumenttofile value; _ ← completeaftersave; mret tt
               | Find_text => put (on_search (set_FIND_QUERY value)) ;; _ ← ed (findnext false (Some value)); mret tt
               | Replace_find all =>
                   put (on_search (set_FIND_QUERY value)) ;; _ ← opendialog (Replace_with all); mret tt
               | Replace_with all =>
                   put (on_search (set_REPLACE_QUERY value)) ;;
                   if all : bool then _ ← ed replaceall; mret tt else _ ← ed replaceone; mret tt
               | Goto_line =>
                   _ ← ed (gotoline (match int_of_str value with Ok n => Some n | Exc _ => None end)); mret tt
               | Confirm_unsaved _ => mret tt
               end) ;;
            mret true
        end
  end.

(** [os.path.isfile]. *)
Definition isfile (path : pystr) : IO bool :=
  try_io
    (n ← syscall (fun _ w => match
       (match path_comps path with
        | [] => w_nodes w !! root_ino
        | comps => d ← reach w root_ino (split_path comps).1; i ← child w d (split_path comps).2; w_nodes w !! i
        end) with
       | Some n => (Ok n, w)
       | None => (Exc FileNotFoundError, w)
       end);
     mret (isreg n))
    (fun e => if is_oserror e then mret false else raise e).

(** [path] is the first of the paths when the picker was accepted. *)
Definition handlepickerresult (path : option pystr) : D bool :=
  kind ← get (fun s => PICKER_PENDING (w_io s));
  match kind with
  | None => mret false
  | Some kind =>
      put_io (set_PICKER_PENDING None) ;;
      match path, kind with
      | None, _ =>
          waiting ← get (fun s => AFTER_SAVE_ACTION (w_io s));
          (match kind, waiting with Pick_save, Some _ => canceldestructiveflow | _, _ => mret tt end) ;;
          setstatus (lit "cancelled") ;;
          mret true
      | Some p, Pick_open =>
          there ← sys (isfile (abspath p));
          (if there : bool then loaddocumentfromfile (abspath p) else setstatus (lit "file not found")) ;;
          mret true
      | Some p, Pick_save => _ ← savedocumenttofile (abspath p); mret true
      end
  end.

(** The window server refuses a dialog or the picker. *)
Definition dialog_error : D unit :=
  d ← get (fun s => DIALOG (w_io s));
  match d with
  | None => mret tt
  | Some action =>
      put_io (set_DIALOG None) ;;
      (if dialog_saves action then canceldestructiveflow else mret tt) ;;
      setstatus (lit "dialog unavailable")
  end.

Definition picker_error : D unit :=
  f ← get w_io;
  match PICKER_PENDING f with
  | None => mret tt
  | Some kind =>
      (match kind, AFTER_SAVE_ACTION f with Pick_save, Some _ => canceldestructiveflow | _, _ => mret tt end) ;;
      put_io (set_PICKER_PENDING None) ;;
      setstatus (lit "Array picker unavailable")
  end.

End Docs.
