(* ===== verification/WriteEditSpec.v ===== *)
(** Reasoning about the editor: total correctness of a run ([runs]), and the
    document as one flat text with offsets in it. *)

From stdpp Require Import base option list gmap.
From Stdlib Require Import ZArith Lia Bool.
From S2P Require Import Prelude PyText PyVal PyStr WriteState WriteText WriteTree WriteWrap WriteEdit.
Open Scope Z_scope.

(** ** Runs *)

(** The computation ends without an exception, in a state and with a value that
    satisfy [Q]. *)
Definition runs {A} (m : W A) (s : wst) (Q : A -> wst -> Prop) : Prop :=
  match m s with (Ok a, s') => Q a s' | (Exc _, _) => False end.

Section Runs.
Context {A B : Type}.

Lemma runs_bind (m : W A) (f : A -> W B) s Q :
  runs m s (fun a s' => runs (f a) s' Q) -> runs (m ≫= f) s Q.
Proof. unfold runs, mbind, w_bind. by destruct (m s) as [[a|e] s']. Qed.

Lemma runs_ret (a : A) s (Q : A -> wst -> Prop) : Q a s -> runs (mret a) s Q.
Proof. done. Qed.

Lemma runs_gets (f : wst -> A) s (Q : A -> wst -> Prop) : Q (f s) s -> runs (gets f) s Q.
Proof. done. Qed.

Lemma runs_modify f s (Q : unit -> wst -> Prop) : Q tt (f s) -> runs (modify f) s Q.
Proof. done. Qed.

Lemma runs_lift (a : A) r s (Q : A -> wst -> Prop) : r = Ok a -> Q a s -> runs (lift_w r) s Q.
Proof. intros ->. done. Qed.

Lemma runs_mono (m : W A) s (Q Q' : A -> wst -> Prop) :
  runs m s Q -> (forall a s', Q a s' -> Q' a s') -> runs m s Q'.
Proof. unfold runs. destruct (m s) as [[a|e] s']; [|done]. intros H HQ. by apply HQ. Qed.

Lemma runs_try (m : W A) a s (Q : A -> wst -> Prop) : runs m s Q -> runs (try_w m a) s Q.
Proof. unfold runs, try_w. by destruct (m s) as [[x|e] s']. Qed.

Lemma runs_inv (m : W A) s (Q : A -> wst -> Prop) : runs m s Q -> exists a s', m s = (Ok a, s') /\ Q a s'.
Proof. unfold runs. destruct (m s) as [[a|e] s']; [eauto|done]. Qed.

Lemma runs_eq (m : W A) s a s' (Q : A -> wst -> Prop) : m s = (Ok a, s') -> Q a s' -> runs m s Q.
Proof. unfold runs. by intros ->. Qed.

(** The post-condition may use that the computation ended there. *)
Lemma runs_self (m : W A) s (Q : A -> wst -> Prop) : runs m s (fun a s' => m s = (Ok a, s') -> Q a s') -> runs m s Q.
Proof. unfold runs. destruct (m s) as [[a|e] s']; [|done]. intros H. by apply H. Qed.

Lemma runs_and (m : W A) s (Q Q' : A -> wst -> Prop) : runs m s Q -> runs m s Q' -> runs m s (fun a s' => Q a s' /\ Q' a s').
Proof. unfold runs. by destruct (m s) as [[a|e] s']. Qed.

End Runs.

(** Symbolic execution of the simple steps. *)
Ltac run_step :=
  lazymatch goal with
  | |- runs (_ ≫= _) _ _ => apply runs_bind
  | |- runs (mret _) _ _ => apply runs_ret
  | |- runs skip _ _ => apply runs_ret
  | |- runs (gets _) _ _ => apply runs_gets
  | |- runs (modify _) _ _ => apply runs_modify
  | |- runs (try_w _ _) _ _ => apply runs_try
  end.
Ltac run := repeat (run_step; cbv beta).

Lemma pyidx_Ok {A} (l : list A) i x : 0 <= i -> l !! Z.to_nat i = Some x -> pyidx l i = Ok x.
Proof. intros Hi Hx. unfold pyidx. replace (i <? 0) with false by lia. rewrite (proj2 (Z.ltb_ge i 0)), Hx by lia. done. Qed.

Lemma pyidx_inv {A} (l : list A) i x : 0 <= i -> pyidx l i = Ok x -> l !! Z.to_nat i = Some x.
Proof.
  unfold pyidx. intros Hi. replace (i <? 0) with false by lia. rewrite (proj2 (Z.ltb_ge i 0)) by lia.
  destruct (l !! Z.to_nat i); [|done]. by intros [= ->].
Qed.

Lemma lookup_zlen {A} (l : list A) i : 0 <= i < zlen l -> exists x, l !! Z.to_nat i = Some x.
Proof. intros H. apply lookup_lt_is_Some_2. unfold zlen in H. lia. Qed.

(** ** Flat text *)

(** The lines before a position, each with its newline, and the lines after it. *)
Definition heads (l : list pystr) : pystr := flat_map (fun x => x ++ [NL]) l.
Definition tails (l : list pystr) : pystr := flat_map (fun x => NL :: x) l.

Lemma heads_app a b : heads (a ++ b) = heads a ++ heads b.
Proof. apply flat_map_app. Qed.

Lemma join_tails x l : join_with [NL] (x :: l) = x ++ tails l.
Proof.
  revert x. induction l as [|y l IH]; intros x; [by rewrite app_nil_r|].
  rewrite join_cons by done. by rewrite IH.
Qed.

Lemma join_around a x b : join_with [NL] (a ++ x :: b) = heads a ++ x ++ tails b.
Proof.
  induction a as [|y a IH]; [apply join_tails|]. cbn [app].
  rewrite join_cons by (by destruct a). rewrite IH. simpl. by rewrite <- !app_assoc.
Qed.

Lemma join_mid a m b : m <> [] -> join_with [NL] (a ++ m ++ b) = heads a ++ join_with [NL] m ++ tails b.
Proof.
  destruct m as [|x m]; [done|]. intros _. cbn [app]. rewrite join_around, join_tails.
  unfold tails. by rewrite flat_map_app, <- app_assoc.
Qed.

Implicit Types p q : Z * Z.
Implicit Types lines : list pystr.

(** A position and its offset in the flat text. *)
Definition valid (lines : list pystr) (p : Z * Z) : Prop :=
  0 <= p.1 /\ exists line, lines !! Z.to_nat p.1 = Some line /\ 0 <= p.2 <= zlen line.

Definition offset (lines : list pystr) (p : Z * Z) : Z := zlen (heads (ztake p.1 lines)) + p.2.

Lemma valid_range lines p : valid lines p -> 0 <= p.1 < zlen lines.
Proof. intros (H & line & Hl & _). apply lookup_lt_Some in Hl. unfold zlen. lia. Qed.

Lemma split_at {A} (l : list A) i x : 0 <= i -> l !! Z.to_nat i = Some x -> l = ztake i l ++ x :: zdrop (i + 1) l.
Proof.
  intros Hi Hx. unfold ztake, zdrop. replace (Z.to_nat (i + 1)) with (S (Z.to_nat i)) by lia.
  symmetry. by apply take_drop_middle.
Qed.

Lemma text_at lines p line : 0 <= p.1 -> lines !! Z.to_nat p.1 = Some line ->
  join_with [NL] lines = heads (ztake p.1 lines) ++ line ++ tails (zdrop (p.1 + 1) lines).
Proof. intros Hp Hl. rewrite (split_at _ _ _ Hp Hl) at 1. apply join_around. Qed.

Lemma take_offset lines p line : 0 <= p.1 -> lines !! Z.to_nat p.1 = Some line -> 0 <= p.2 <= zlen line ->
  ztake (offset lines p) (join_with [NL] lines) = heads (ztake p.1 lines) ++ ztake p.2 line.
Proof.
  intros Hp Hl Hc. rewrite (text_at _ _ _ Hp Hl). unfold offset.
  rewrite <- (ztake_zdrop p.2 line) at 1. rewrite <- !app_assoc, app_assoc.
  apply ztake_app_exact. rewrite zlen_app, zlen_take by lia. lia.
Qed.

Lemma drop_offset lines p line : 0 <= p.1 -> lines !! Z.to_nat p.1 = Some line -> 0 <= p.2 <= zlen line ->
  zdrop (offset lines p) (join_with [NL] lines) = zdrop p.2 line ++ tails (zdrop (p.1 + 1) lines).
Proof.
  intros Hp Hl Hc. rewrite (text_at _ _ _ Hp Hl). unfold offset.
  rewrite <- (ztake_zdrop p.2 line) at 1. rewrite <- !app_assoc, app_assoc.
  apply zdrop_app_exact. rewrite zlen_app, zlen_take by lia. lia.
Qed.

Lemma offset_bounds lines p : valid lines p -> 0 <= offset lines p <= zlen (join_with [NL] lines).
Proof.
  intros (Hp & line & Hl & Hc). pose proof (zlen_nonneg (heads (ztake p.1 lines))).
  split; [unfold offset; lia|]. rewrite (text_at _ _ _ Hp Hl). unfold offset.
  rewrite !zlen_app. pose proof (zlen_nonneg (tails (zdrop (p.1 + 1) lines))). lia.
Qed.

(** ** Positions after a text *)

Definition advance (p : Z * Z) (c : Z) : Z * Z := if c =? NL then (p.1 + 1, 0) else (p.1, p.2 + 1).

Lemma textpositionafter_fold text : forall row col, textpositionafter row col text = foldl advance (row, col) text.
Proof.
  unfold textpositionafter. induction text as [|c text IH]; intros row col.
  - change (zlen (split_on NL [])) with 1. cbn. rewrite zlen_nil. f_equal. lia.
  - cbn [foldl split_on]. pose proof (split_on_nonempty NL text) as Hne. unfold advance at 2. cbn [fst snd].
    destruct (c =? NL) eqn:E.
    + rewrite <- IH. destruct (split_on NL text) as [|w ws]; [done|].
      change (List.last ([] :: w :: ws) []) with (List.last (w :: ws) []). rewrite (zlen_cons []), !zlen_cons.
      pose proof (zlen_nonneg ws). replace (1 + (1 + zlen ws) =? 1) with false by lia.
      destruct (1 + zlen ws =? 1) eqn:E2; [|f_equal; lia].
      destruct ws; [|rewrite zlen_cons in E2; pose proof (zlen_nonneg ws); lia]. cbn. rewrite zlen_nil. f_equal; lia.
    + rewrite <- IH. destruct (split_on NL text) as [|w ws]; [done|]. rewrite !zlen_cons.
      destruct (1 + zlen ws =? 1) eqn:E2; cbn [List.hd].
      * rewrite zlen_cons. f_equal. lia.
      * by destruct ws.
Qed.

Lemma textpositionafter_app row col u v :
  textpositionafter row col (u ++ v) =
  textpositionafter (textpositionafter row col u).1 (textpositionafter row col u).2 v.
Proof. rewrite !textpositionafter_fold, foldl_app. by destruct (foldl advance (row, col) u). Qed.

Lemma advance_plain text : forall row col, lacks NL text -> foldl advance (row, col) text = (row, col + zlen text).
Proof.
  induction text as [|c text IH]; intros row col H; simpl; [by rewrite Z.add_0_r|].
  apply Forall_cons in H as [Hc Ht]. unfold advance at 2. rewrite (proj2 (Z.eqb_neq _ _)) by done. simpl.
  rewrite IH, zlen_cons by done. f_equal. lia.
Qed.

Lemma advance_heads l : forall row, Forall (lacks NL) l -> foldl advance (row, 0) (heads l) = (row + zlen l, 0).
Proof.
  induction l as [|x l IH]; intros row H; simpl; [by rewrite Z.add_0_r|]. apply Forall_cons in H as [Hx Hl].
  rewrite !foldl_app, advance_plain by done. cbn [foldl].
  change (advance (row, 0 + zlen x) NL) with (row + 1, 0). rewrite IH, zlen_cons by done. f_equal. lia.
Qed.

(** The position of an offset: where one stands after the text before it. *)
Definition position_at (text : pystr) (k : Z) : Z * Z := textpositionafter 0 0 (ztake k text).

Lemma position_offset lines p : Forall (lacks NL) lines -> valid lines p ->
  position_at (join_with [NL] lines) (offset lines p) = p.
Proof.
  intros Hn (Hp & line & Hl & Hc). unfold position_at. rewrite (take_offset _ _ line), textpositionafter_fold by done.
  rewrite foldl_app, advance_heads by (by apply Forall_take).
  pose proof (lookup_lt_Some _ _ _ Hl). rewrite advance_plain.
  - rewrite zlen_take by done. unfold ztake, zlen. rewrite length_take. destruct p as [r c]. simpl in *.
    f_equal; unfold zlen in *; lia.
  - apply Forall_take. by apply (Forall_lookup_1 _ _ _ _ Hn Hl).
Qed.

(** Every offset is that of a position, and positions are ordered as their
    offsets. *)
Lemma position_step x l k : lacks NL x -> 0 <= k -> l <> [] ->
  position_at (join_with [NL] (x :: l)) (zlen x + 1 + k) =
  ((position_at (join_with [NL] l) k).1 + 1, (position_at (join_with [NL] l) k).2).
Proof.
  intros Hx Hk Hl. unfold position_at. rewrite join_cons by done. cbn [app]. pose proof (zlen_nonneg x).
  replace (ztake (zlen x + 1 + k) (x ++ NL :: join_with [NL] l)) with (x ++ NL :: ztake k (join_with [NL] l)).
  2: { unfold ztake. rewrite take_app_ge by (unfold zlen; lia).
       replace (Z.to_nat (zlen x + 1 + k) - length x)%nat with (S (Z.to_nat k)) by (unfold zlen; lia). done. }
  rewrite !textpositionafter_fold, foldl_app, advance_plain by done. cbn [foldl].
  change (advance (0, 0 + zlen x) NL) with (0 + 1, 0).
  assert (Shift : forall t r c, foldl advance (r + 1, c) t = ((foldl advance (r, c) t).1 + 1, (foldl advance (r, c) t).2)).
  { intros t. induction t as [|ch t IH]; intros r c; [done|]. cbn [foldl]. unfold advance at 2 4 6. cbn [fst snd].
    destruct (ch =? NL); apply IH. }
  apply Shift.
Qed.

Lemma position_first x l k : lacks NL x -> 0 <= k <= zlen x -> position_at (join_with [NL] (x :: l)) k = (0, k).
Proof.
  intros Hx Hk. unfold position_at. rewrite join_tails.
  assert (E : ztake k (x ++ tails l) = ztake k x) by (apply take_app_le; unfold zlen in Hk; lia).
  rewrite E, textpositionafter_fold, advance_plain by by apply Forall_take.
  rewrite zlen_take by lia. f_equal. lia.
Qed.

Lemma position_at_valid lines : Forall (lacks NL) lines -> lines <> [] -> forall k,
  0 <= k <= zlen (join_with [NL] lines) ->
  valid lines (position_at (join_with [NL] lines) k) /\ offset lines (position_at (join_with [NL] lines) k) = k.
Proof.
  induction lines as [|x l IH]; [done|]. intros Hn _ k Hk. apply Forall_cons in Hn as [Hx Hl].
  destruct (decide (k <= zlen x)) as [Hkx|Hkx].
  - rewrite position_first by (done || lia). split.
    + split; [done|]. exists x. split; [done|cbn; lia].
    + unfold offset. cbn [fst snd]. change (heads (ztake 0 (x :: l))) with (@nil Z). rewrite zlen_nil. lia.
  - assert (Hne : l <> []) by (intros ->; simpl in Hk; lia).
    rewrite join_cons, !zlen_app in Hk by done. change (zlen [NL]) with 1 in Hk.
    replace k with (zlen x + 1 + (k - zlen x - 1)) by lia. rewrite position_step by (done || lia).
    destruct (IH Hl Hne (k - zlen x - 1)) as [V O]; [lia|].
    set (p := position_at (join_with [NL] l) (k - zlen x - 1)) in *. pose proof (valid_range _ _ V) as Hr.
    destruct V as (Hp & line & Hli & Hc). replace (Z.to_nat (p.1 + 1)) with (S (Z.to_nat p.1)) by lia. split.
    + split; cbn [fst snd]; [lia|]. exists line. split; [|done]. by replace (Z.to_nat (p.1 + 1)) with (S (Z.to_nat p.1)) by lia.
    + unfold offset in *. cbn [fst snd]. unfold ztake in *. replace (Z.to_nat (p.1 + 1)) with (S (Z.to_nat p.1)) by lia.
      cbn [take heads flat_map]. fold (heads (take (Z.to_nat p.1) l)). rewrite !zlen_app. change (zlen [NL]) with 1. lia.
Qed.

Lemma offset_lt lines p q : valid lines p -> valid lines q -> p.1 < q.1 -> offset lines p < offset lines q.
Proof.
  intros (Hp & f & Hf & Hc) (Hq & l & Hl & Hd) Hlt. unfold offset.
  assert (E : ztake q.1 lines = ztake p.1 lines ++ f :: ztake (q.1 - p.1 - 1) (zdrop (p.1 + 1) lines)).
  { rewrite (split_at lines p.1 f) at 1 by done. pose proof (lookup_lt_Some _ _ _ Hf). unfold ztake, zdrop.
    rewrite take_app_ge by (rewrite length_take; lia). rewrite length_take. f_equal.
    replace (Z.to_nat q.1 - Z.to_nat p.1 `min` length lines)%nat with (S (Z.to_nat (q.1 - p.1 - 1))) by lia. done. }
  rewrite E, heads_app. cbn [heads flat_map]. fold (heads (ztake (q.1 - p.1 - 1) (zdrop (p.1 + 1) lines))).
  rewrite !zlen_app. change (zlen [NL]) with 1.
  pose proof (zlen_nonneg (heads (ztake (q.1 - p.1 - 1) (zdrop (p.1 + 1) lines)))). lia.
Qed.

Lemma offset_le lines p q : valid lines p -> valid lines q ->
  (pos_leb p q = true <-> offset lines p <= offset lines q).
Proof.
  intros Vp Vq. pose proof (offset_lt lines p q Vp Vq). pose proof (offset_lt lines q p Vq Vp). unfold pos_leb.
  destruct (Z.lt_trichotomy p.1 q.1) as [H1|[H1|H1]]; [split; lia| |split; lia].
  assert (offset lines q = offset lines p - p.2 + q.2) by (unfold offset; rewrite H1; lia). split; lia.
Qed.

(** What [editapply] does, as a run: the document, caret and indexes after it.
    The lines it leaves are the lines of the flat text with one slice
    replaced. *)

(** ** Well-formed documents *)

Definition clean (s : pystr) : Prop := lacks NL s /\ lacks CR s.

Record docwf (d : doc) : Prop := {
  wf_nonempty : DOC_LINES d <> [];
  wf_clean : Forall clean (DOC_LINES d);
  wf_ids : length (DOC_LINE_IDS d) = length (DOC_LINES d);
  wf_versions : length (DOC_LINE_VERSIONS d) = length (DOC_LINES d) }.

(** The tree stands for the counts (or both are empty). *)
Definition treewf (w : wrap) : Prop :=
  WRAP_LINE_COUNTS w = [] \/ represents (List.map row_height (WRAP_LINE_COUNTS w)) (WRAP_COUNT_TREE w).

Lemma clean_nl lines : Forall clean lines -> Forall (lacks NL) lines.
Proof. apply List.Forall_impl. by intros l [H _]. Qed.

(** ** Newlines *)

Lemma replace_crlf_clean s : lacks CR s -> replace_crlf s = s.
Proof.
  induction 1 as [|c s Hc _ IH]; simpl; [done|]. rewrite (proj2 (Z.eqb_neq _ _)) by done. by rewrite IH.
Qed.

Lemma normalise_lacks_cr s : lacks CR (normalise_newlines s).
Proof.
  unfold normalise_newlines, replace_cr. generalize (replace_crlf s). intros l. induction l as [|c l IH]; simpl; [constructor|].
  constructor; [|done]. destruct (Z.eqb_spec c CR); [by subst|done].
Qed.

Lemma normalise_clean s : lacks CR s -> normalise_newlines s = s.
Proof.
  intros H. unfold normalise_newlines. rewrite replace_crlf_clean by done. unfold replace_cr.
  induction H as [|c s Hc _ IH]; simpl; [done|]. rewrite (proj2 (Z.eqb_neq _ _)) by done. by rewrite IH.
Qed.

(** ** Positions *)

Lemma normalisecaret_valid lines row col : lines <> [] -> valid lines (normalisecaret lines row col).
Proof.
  intros Hne. unfold normalisecaret. set (r := if row <? 0 then 0 else row).
  set (r' := if zlen lines <=? r then zlen lines - 1 else r).
  assert (Hn : 0 < zlen lines) by (destruct lines; [done|]; rewrite zlen_cons; pose proof (zlen_nonneg lines); lia).
  assert (Hr : 0 <= r' < zlen lines) by (unfold r', r; split_if; lia).
  destruct (lookup_zlen lines r') as [line Hl]; [done|]. rewrite (pyidx_Ok _ _ line) by (lia || done).
  split; [simpl; lia|]. exists line. split; [done|]. simpl. pose proof (zlen_nonneg line). split_if; lia.
Qed.

Lemma normalisecaret_id lines p : valid lines p -> normalisecaret lines p.1 p.2 = p.
Proof.
  intros Hv. pose proof (valid_range _ _ Hv) as Hr. destruct Hv as (Hp & line & Hl & Hc). unfold normalisecaret.
  replace (p.1 <? 0) with false by lia. replace (zlen lines <=? p.1) with false by lia.
  rewrite (pyidx_Ok _ _ line) by done. replace (p.2 <? 0) with false by lia.
  replace (zlen line <? p.2) with false by lia. by destruct p.
Qed.

Lemma pos_ltb_ge p q : pos_ltb p q = false -> pos_leb q p = true.
Proof. unfold pos_ltb, pos_leb. lia. Qed.

(** ** Identities *)

Lemma nextlineid_run s (Q : Z -> wst -> Prop) :
  Q (NEXT_LINE_ID (w_doc s)) (on_doc (set_NEXT_LINE_ID (NEXT_LINE_ID (w_doc s) + 1)) s) -> runs nextlineid s Q.
Proof. intros HQ. unfold nextlineid. run. done. Qed.

Lemma fresh_ids_run n : forall s (Q : list Z -> wst -> Prop),
  Q (seqZ (NEXT_LINE_ID (w_doc s)) (Z.of_nat n))
    (on_doc (set_NEXT_LINE_ID (NEXT_LINE_ID (w_doc s) + Z.of_nat n)) s) -> runs (fresh_ids n) s Q.
Proof.
  induction n as [|n IH]; intros s Q HQ; cbn [fresh_ids].
  - run. rewrite Z.add_0_r in HQ. destruct s as [[] ? ? ? ? ? ? ? ? ? ?]. done.
  - run. apply nextlineid_run. run. apply IH. run.
    replace (Z.of_nat (S n)) with (Z.succ (Z.of_nat n)) in HQ by lia.
    rewrite seqZ_cons in HQ by lia. rewrite Z.pred_succ in HQ.
    replace (NEXT_LINE_ID (w_doc s) + Z.succ (Z.of_nat n)) with (NEXT_LINE_ID (w_doc s) + 1 + Z.of_nat n) in HQ by lia.
    replace (Z.succ (NEXT_LINE_ID (w_doc s))) with (NEXT_LINE_ID (w_doc s) + 1) in HQ by lia. exact HQ.
Qed.

(** ** The wrap index after an edit *)

Definition reflow (start : Z) (from : option Z) : option Z :=
  Some (match from with None => start | Some f => Z.min f start end).

(** [start] lines stay, [removed] lines become [count] lines still to be
    wrapped. *)
Definition replaced_index (start removed count : Z) (w : wrap) : wrap :=
  let same := removed =? count in
  let counts := WRAP_LINE_COUNTS w in
  let old := zslice counts start (start + removed) in
  let new := if same then old else List.hd 1 old :: zreplicate (count - 1) 1 in
  let counts' := zsplice counts start (start + removed) new in
  mkwrap (WRAP_LAYOUT_KEY w)
    (zsplice (WRAP_LINE_SEGMENTS w) start (start + removed) (zreplicate count None))
    counts'
    (if same then WRAP_COUNT_TREE w else wraptreebuild counts')
    (shift_rows start removed count (WRAP_DIRTY_ROWS w))
    (if same then WRAP_REFLOW_FROM w
     else reflow (psum (List.map row_height counts) (Z.max 0 (Z.min (zlen counts) start))) (WRAP_REFLOW_FROM w))
    (WRAP_CACHE_KEY w) (WRAP_CACHE_SEGMENTS w) (WRAP_LINE_CACHE w) (WRAP_LINE_CACHE_BYTES w) (WRAP_LINES_MEASURED w).

Definition index_after (n start removed count : Z) (w : wrap) : wrap :=
  if zlen (WRAP_LINE_SEGMENTS w) =? n - count + removed then replaced_index start removed count w
  else invalidatewrapcache true w.

Lemma map_zlen {A B} (f : A -> B) l : zlen (List.map f l) = zlen l.
Proof. unfold zlen. by rewrite length_map. Qed.

Lemma prefix_run w row : treewf w ->
  wraptreeprefix (WRAP_LINE_COUNTS w) (WRAP_COUNT_TREE w) row =
  Ok (psum (List.map row_height (WRAP_LINE_COUNTS w)) (Z.max 0 (Z.min (zlen (WRAP_LINE_COUNTS w)) row))).
Proof.
  intros [H|H].
  - rewrite H. unfold wraptreeprefix.
    replace (Z.max 0 (Z.min (zlen (@nil Z)) row)) with 0 by (change (zlen (@nil Z)) with 0; lia). done.
  - unfold wraptreeprefix. pose proof (zlen_nonneg (WRAP_LINE_COUNTS w)).
    rewrite (descend_spec _ _ _ _ _ H) by (rewrite ?map_zlen; lia). done.
Qed.

Lemma wrapmetadatareplace_run start removed count s (Q : unit -> wst -> Prop) :
  treewf (w_wrap s) -> 0 <= start -> 0 <= removed -> 1 <= count ->
  Q tt (on_wrap (index_after (zlen (lines_of s)) start removed count) s) ->
  runs (wrapmetadatareplace start removed count) s Q.
Proof.
  intros Ht H1 H2 H3 HQ. unfold wrapmetadatareplace. rewrite !Z.max_r by lia. run.
  unfold index_after, lines_of, on_wrap in HQ. destruct s as [d c v w ws h cf sr fl io tk]. cbn in *.
  destruct (zlen (WRAP_LINE_SEGMENTS w) =? zlen (DOC_LINES d) - count + removed); cbn [negb]; [|run; exact HQ].
  run. eapply runs_lift; [by apply prefix_run|]. cbv beta. run. unfold when. destruct (removed =? count) eqn:E; cbn [negb].
  all: run; unfold replaced_index in HQ; cbn in *; rewrite E in HQ.
  - exact HQ.
  - pose proof (zlen_nonneg (WRAP_LINE_COUNTS w)).
    replace (Z.min (zlen (WRAP_LINE_COUNTS w)) (Z.min start (zlen (WRAP_LINE_COUNTS w))))
      with (Z.min (zlen (WRAP_LINE_COUNTS w)) start) by lia. exact HQ.
Qed.

(** ** The lines of an edit *)

Lemma join_replacement prefix suffix inserted :
  join_with [NL] (replacement_lines prefix suffix (split_on NL inserted)) = prefix ++ inserted ++ suffix.
Proof.
  rewrite <- (join_split NL inserted) at 2. pose proof (split_on_nonempty NL inserted).
  destruct (split_on NL inserted) as [|w rest]; [done|]. destruct rest as [|x rest]; [done|].
  unfold replacement_lines. rewrite !join_tails. destruct (exists_last (l := x :: rest)) as (r & l & ->); [done|].
  rewrite removelast_last, last_last. unfold tails. rewrite !flat_map_app. simpl. by rewrite <- !app_assoc, !app_nil_r.
Qed.

Lemma replacement_nonempty prefix suffix chunks : replacement_lines prefix suffix chunks <> [].
Proof. by destruct chunks as [|c [|d chunks]]. Qed.

Lemma zdrop_slice {A} (l : list A) a b : 0 <= a <= b -> zdrop a l = zslice l a b ++ zdrop b l.
Proof.
  intros H. rewrite <- (ztake_zdrop (b - a) (zdrop a l)) at 1. f_equal. rewrite zdrop_zdrop by lia. f_equal. lia.
Qed.

Lemma zdrop_cons {A} (l : list A) i x : 0 <= i -> l !! Z.to_nat i = Some x -> zdrop i l = x :: zdrop (i + 1) l.
Proof. intros Hi Hx. unfold zdrop. replace (Z.to_nat (i + 1)) with (S (Z.to_nat i)) by lia. by apply drop_S. Qed.

(** The flat text around a range of positions. *)
Lemma range_flat lines p q first last :
  valid lines p -> valid lines q -> pos_leb p q = true ->
  lines !! Z.to_nat p.1 = Some first -> lines !! Z.to_nat q.1 = Some last ->
  let a := offset lines p in let b := offset lines q in let t := join_with [NL] lines in
  t = ztake a t ++ between lines p.1 p.2 q.1 q.2 first last ++ zdrop b t /\
  a + zlen (between lines p.1 p.2 q.1 q.2 first last) = b.
Proof.
  intros Vp Vq Hpq Hf Hl a b t. pose proof Vp as (Hp & f & Hf' & Hc). pose proof Vq as (Hq & l & Hl' & Hd).
  assert (f = first) as -> by congruence. assert (l = last) as -> by congruence. clear Hf' Hl'.
  assert (T : t = ztake a t ++ between lines p.1 p.2 q.1 q.2 first last ++ zdrop b t).
  { unfold a, b, t. rewrite (take_offset _ _ first), (drop_offset _ _ last) by done.
    unfold between. destruct (p.1 =? q.1) eqn:E.
    - assert (p.1 = q.1) as E' by lia. assert (first = last) as -> by congruence.
      rewrite (text_at lines p last) at 1 by done. rewrite E', <- !app_assoc. f_equal. rewrite !app_assoc. f_equal.
      rewrite <- app_assoc. rewrite <- (zdrop_slice last) by (unfold pos_leb in Hpq; lia).
      by rewrite ztake_zdrop.
    - assert (p.1 < q.1) by (unfold pos_leb in Hpq; lia).
      rewrite (split_at lines p.1 first) at 1 by done. rewrite (zdrop_slice lines (p.1 + 1) q.1) by lia.
      rewrite (zdrop_cons lines q.1 last) by done.
      rewrite join_around. cbn [app]. rewrite join_tails. rewrite <- (ztake_zdrop p.2 first) at 1.
      unfold tails. rewrite !flat_map_app. cbn [flat_map]. rewrite app_nil_r, <- !app_assoc. do 2 f_equal.
      f_equal. f_equal. cbn [app]. f_equal. by rewrite app_assoc, ztake_zdrop. }
  split; [exact T|]. pose proof (offset_bounds _ _ Vp). pose proof (offset_bounds _ _ Vq).
  apply (f_equal zlen) in T. rewrite !zlen_app, zlen_take, zlen_drop in T by lia. fold t in H, H0. lia.
Qed.

Lemma between_flat lines p q first last :
  valid lines p -> valid lines q -> pos_leb p q = true ->
  lines !! Z.to_nat p.1 = Some first -> lines !! Z.to_nat q.1 = Some last ->
  between lines p.1 p.2 q.1 q.2 first last = zslice (join_with [NL] lines) (offset lines p) (offset lines q).
Proof.
  intros Vp Vq Hpq Hf Hl. destruct (range_flat _ _ _ _ _ Vp Vq Hpq Hf Hl) as [T L].
  pose proof (offset_bounds _ _ Vp). rewrite T. symmetry. apply zslice_app_mid; [|]; rewrite zlen_take; lia.
Qed.

(** Replacing lines replaces a slice of the flat text. *)
Lemma splice_flat lines p q first last inserted :
  valid lines p -> valid lines q -> pos_leb p q = true ->
  lines !! Z.to_nat p.1 = Some first -> lines !! Z.to_nat q.1 = Some last ->
  let replacement := replacement_lines (ztake p.2 first) (zdrop q.2 last) (split_on NL inserted) in
  join_with [NL] (zsplice lines p.1 (q.1 + 1) replacement) =
  zsplice (join_with [NL] lines) (offset lines p) (offset lines q) inserted.
Proof.
  intros Vp Vq Hpq Hf Hl replacement. pose proof Vp as (Hp & f & Hf' & Hc). pose proof Vq as (Hq & l & Hl' & Hd).
  destruct (range_flat _ _ _ _ _ Vp Vq Hpq Hf Hl) as [_ L].
  pose proof (zlen_nonneg (between lines p.1 p.2 q.1 q.2 first last)).
  assert (f = first) as -> by congruence. assert (l = last) as -> by congruence.
  unfold zsplice. rewrite join_mid by apply replacement_nonempty. unfold replacement. rewrite join_replacement.
  rewrite !Z.max_r by (unfold pos_leb in Hpq; lia).
  rewrite (take_offset _ _ first), (drop_offset _ _ last) by done. by rewrite <- !app_assoc.
Qed.

Lemma replacement_clean prefix suffix chunks :
  clean prefix -> clean suffix -> Forall clean chunks -> Forall clean (replacement_lines prefix suffix chunks).
Proof.
  assert (App : forall a b, clean a -> clean b -> clean (a ++ b)).
  { intros a b [] []. split; by apply Forall_app. }
  intros Hp Hs Hc. unfold replacement_lines. destruct chunks as [|c rest]; [apply Forall_singleton; by apply App|].
  apply Forall_cons in Hc as [Hc Hr]. destruct rest as [|d rest]; [apply Forall_singleton; by repeat apply App|].
  constructor; [by apply App|]. destruct (exists_last (l := d :: rest)) as (r & l & E); [done|]. rewrite E in *.
  rewrite removelast_last, last_last. apply Forall_app in Hr as [Hr Hl]. apply Forall_app. split; [done|].
  apply Forall_singleton, App; [|done]. by apply Forall_cons in Hl as [Hl _].
Qed.

(** ** The state after an edit *)

Definition range_of lines (sr sc er ec : Z) : (Z * Z) * (Z * Z) :=
  let start := normalisecaret lines sr sc in
  let stop := normalisecaret lines er ec in
  if pos_ltb stop start then (stop, start) else (start, stop).

Definition line_at lines (r : Z) : pystr := default [] (lines !! Z.to_nat r).

(** The lines that replace those of the range [p], [q]. *)
Definition new_lines lines p q (inserted : pystr) : list pystr :=
  replacement_lines (ztake p.2 (line_at lines p.1)) (zdrop q.2 (line_at lines q.1)) (split_on NL inserted).

Definition removed_text lines p q : pystr :=
  between lines p.1 p.2 q.1 q.2 (line_at lines p.1) (line_at lines q.1).

Definition edited_doc (d : doc) p q (inserted : pystr) : doc :=
  let replacement := new_lines (DOC_LINES d) p q inserted in
  let n := zlen replacement - 1 in
  mkdoc (zsplice (DOC_LINES d) p.1 (q.1 + 1) replacement)
    (zsplice (DOC_LINE_IDS d) p.1 (q.1 + 1) (znth (DOC_LINE_IDS d) p.1 :: seqZ (NEXT_LINE_ID d) n))
    (zsplice (DOC_LINE_VERSIONS d) p.1 (q.1 + 1) (znth (DOC_LINE_VERSIONS d) p.1 + 1 :: zreplicate n 0))
    (NEXT_LINE_ID d + n)
    (if q.1 - p.1 + 1 =? n + 1 then DOCUMENT_REFLOW_ROW d
     else Some (match DOCUMENT_REFLOW_ROW d with None => p.1 | Some r => Z.min r p.1 end)).

Section Run.
Context {FT : Font}.

Definition edited_widths (s : wst) p q (inserted : pystr) : widths :=
  let lines := lines_of s in
  docwidthreplace (w_conf s) (DOC_LINES (edited_doc (w_doc s) p q inserted)) p.1 (q.1 - p.1 + 1)
    (new_lines lines p q inserted)
    (edited_width (w_conf s) (w_widths s) (zlen lines) p.1 q.1 (line_at lines p.1) (removed_text lines p q)
       (split_on NL inserted))
    (w_widths s).

Definition edited (s : wst) p q (inserted : pystr) : wst :=
  let d := edited_doc (w_doc s) p q inserted in
  mkwst d
    (clear_selection (set_cursor (textpositionafter p.1 p.2 inserted) (w_caret s)))
    (w_view s)
    (index_after (zlen (DOC_LINES d)) p.1 (q.1 - p.1 + 1) (zlen (new_lines (lines_of s) p q inserted)) (w_wrap s))
    (edited_widths s p q inserted)
    (w_hist s) (w_conf s) (w_search s) (w_file s) (w_io s) (w_tick s).

Lemma documentmetadataensure_run s (Q : unit -> wst -> Prop) :
  docwf (w_doc s) -> Q tt s -> runs documentmetadataensure s Q.
Proof.
  intros H HQ. unfold documentmetadataensure. run. unfold zlen. rewrite (wf_ids _ H), (wf_versions _ H).
  rewrite Z.eqb_refl. simpl. run. done.
Qed.

Lemma range_valid lines sr sc er ec : lines <> [] ->
  let '(p, q) := range_of lines sr sc er ec in valid lines p /\ valid lines q /\ pos_leb p q = true.
Proof.
  intros Hne. unfold range_of. pose proof (normalisecaret_valid lines sr sc Hne).
  pose proof (normalisecaret_valid lines er ec Hne). destruct (pos_ltb _ _) eqn:E; split_and!; try done.
  - unfold pos_ltb, pos_leb in *. lia.
  - by apply pos_ltb_ge.
Qed.

Lemma line_at_Some lines p : valid lines p -> lines !! Z.to_nat p.1 = Some (line_at lines p.1).
Proof. intros (_ & line & Hl & _). unfold line_at. by rewrite Hl. Qed.

Lemma map_zeros {A} (l : list A) : List.map (fun _ => 0) l = zreplicate (zlen l) 0.
Proof. unfold zreplicate, zlen. rewrite Nat2Z.id. induction l; simpl; congruence. Qed.

(** The assignments of [editapply]. *)
Lemma edit_tail s p q ins i v (Q : pystr * pystr -> wst -> Prop) :
  let lines := lines_of s in
  let repl := new_lines lines p q ins in
  treewf (w_wrap s) -> 0 <= p.1 -> p.1 <= q.1 ->
  DOC_LINE_IDS (w_doc s) !! Z.to_nat p.1 = Some i -> DOC_LINE_VERSIONS (w_doc s) !! Z.to_nat p.1 = Some v ->
  Q (removed_text lines p q, ins) (edited s p q ins) ->
  runs (newids ← fresh_ids (length repl - 1);
    modify (on_doc (fun d => set_DOC_LINES (zsplice (DOC_LINES d) p.1 (q.1 + 1) repl) d)) ;;
    modify (on_doc (fun d => set_DOC_LINE_IDS (zsplice (DOC_LINE_IDS d) p.1 (q.1 + 1) (i :: newids)) d)) ;;
    modify (on_doc (fun d => set_DOC_LINE_VERSIONS
      (zsplice (DOC_LINE_VERSIONS d) p.1 (q.1 + 1) ((v + 1) :: List.map (fun _ => 0) newids)) d)) ;;
    wrapmetadatareplace p.1 (q.1 - p.1 + 1) (zlen repl) ;;
    when (negb (q.1 - p.1 + 1 =? zlen repl))
      (modify (on_doc (fun d => set_DOCUMENT_REFLOW_ROW
         (Some (match DOCUMENT_REFLOW_ROW d with None => p.1 | Some r => Z.min r p.1 end)) d))) ;;
    modify (fun s0 => on_widths (docwidthreplace (w_conf s0) (lines_of s0) p.1 (q.1 - p.1 + 1) repl
      (edited_width (w_conf s) (w_widths s) (zlen lines) p.1 q.1 (line_at lines p.1) (removed_text lines p q)
         (split_on NL ins))) s0) ;;
    modify (on_caret (set_cursor (textpositionafter p.1 p.2 ins))) ;;
    clearselection ;;
    mret (removed_text lines p q, ins)) s Q.
Proof.
  intros lines repl Ht H0 H1 Hi Hv HQ. assert (Hr : 1 <= zlen repl).
  { pose proof (replacement_nonempty (ztake p.2 (line_at lines p.1)) (zdrop q.2 (line_at lines q.1)) (split_on NL ins)) as Hne.
    fold (new_lines lines p q ins) in Hne. unfold repl. destruct (new_lines lines p q ins) as [|x xs]; [done|].
    rewrite zlen_cons. pose proof (zlen_nonneg xs). lia. }
  run. apply fresh_ids_run. run. apply wrapmetadatareplace_run; [done|lia..|]. run.
  assert (En : Z.of_nat (length repl - 1) = zlen repl - 1) by (unfold zlen in *; lia). rewrite En.
  assert (Ev : List.map (fun _ => 0) (seqZ (NEXT_LINE_ID (w_doc s)) (zlen repl - 1)) = zreplicate (zlen repl - 1) 0).
  { rewrite map_zeros. f_equal. unfold zlen at 1. rewrite length_seqZ. lia. }
  unfold edited, edited_doc, edited_widths, lines_of, when, clearselection in *. fold lines in HQ |- *. fold repl in HQ |- *.
  unfold znth in HQ. rewrite (nth_lookup_Some _ _ _ _ Hi), (nth_lookup_Some _ _ _ _ Hv), <- Ev in HQ.
  replace (zlen repl - 1 + 1) with (zlen repl) in HQ by lia.
  destruct (q.1 - p.1 + 1 =? zlen repl); cbn [negb]; run; destruct s as [[] ? ? ? ? ? ? ? ? ? ?]; exact HQ.
Qed.

Lemma editapply_run sr sc er ec text s (Q : pystr * pystr -> wst -> Prop) :
  docwf (w_doc s) -> treewf (w_wrap s) ->
  (let '(p, q) := range_of (lines_of s) sr sc er ec in
   let inserted := normalise_newlines text in
   Q (removed_text (lines_of s) p q, inserted) (edited s p q inserted)) ->
  runs (editapply sr sc er ec text) s Q.
Proof.
  intros Hd Ht HQ. pose proof (range_valid (lines_of s) sr sc er ec (wf_nonempty _ Hd)) as Hr.
  unfold editapply. run. unfold lines_of in *. destruct (DOC_LINES (w_doc s)) as [|l0 ls] eqn:El; [by destruct (wf_nonempty _ Hd)|].
  run. apply documentmetadataensure_run; [done|]. run. rewrite El. rewrite <- El in *. unfold range_of in *.
  destruct (if pos_ltb _ _ then _ else _) as [p q]. destruct Hr as (Vp & Vq & Hpq).
  destruct p as [sr' sc'], q as [er' ec']. run.
  pose proof (valid_range _ _ Vp) as Rp. pose proof (valid_range _ _ Vq) as Rq. cbn [fst snd] in Rp, Rq.
  eapply runs_lift; [apply pyidx_Ok; [lia|exact (line_at_Some _ _ Vp)]|]. cbv beta. run.
  eapply runs_lift; [apply pyidx_Ok; [lia|exact (line_at_Some _ _ Vq)]|]. cbv beta. run. cbn [fst snd].
  set (ins := normalise_newlines text) in *.
  assert (Li : zlen (DOC_LINE_IDS (w_doc s)) = zlen (DOC_LINES (w_doc s))) by (unfold zlen; by rewrite (wf_ids _ Hd)).
  assert (Lv : zlen (DOC_LINE_VERSIONS (w_doc s)) = zlen (DOC_LINES (w_doc s))) by (unfold zlen; by rewrite (wf_versions _ Hd)).
  replace (sr' <? zlen (DOC_LINE_IDS (w_doc s))) with true by lia.
  replace (sr' <? zlen (DOC_LINE_VERSIONS (w_doc s))) with true by lia.
  destruct (lookup_zlen (DOC_LINE_IDS (w_doc s)) sr') as [i Hi]; [lia|].
  destruct (lookup_zlen (DOC_LINE_VERSIONS (w_doc s)) sr') as [v Hv]; [lia|].
  eapply runs_lift; [apply pyidx_Ok; [lia|exact Hi]|]. cbv beta. run.
  eapply runs_lift; [apply pyidx_Ok; [lia|exact Hv]|]. cbv beta.
  unfold pos_leb in Hpq. cbn [fst snd] in Hpq.
  exact (edit_tail s (sr', sc') (er', ec') ins i v Q Ht (proj1 Rp) ltac:(cbn; lia) Hi Hv HQ).
Qed.

(** ** The document stays well formed *)

Lemma zsplice_length {A} (l d : list A) a b : 0 <= a <= b -> b <= zlen l ->
  zlen (zsplice l a b d) = a + zlen d + (zlen l - b).
Proof. intros Ha Hb. unfold zsplice. rewrite Z.max_r by lia. rewrite !zlen_app, zlen_take, zlen_drop by lia. lia. Qed.

Lemma zsplice_same {A} (l : list A) a b : 0 <= a <= b -> zsplice l a b (zslice l a b) = l.
Proof. intros H. unfold zsplice. rewrite Z.max_r by lia. rewrite <- zdrop_slice by lia. apply ztake_zdrop. Qed.

Lemma zsplice_Forall {A} (P : A -> Prop) l a b d : Forall P l -> Forall P d -> Forall P (zsplice l a b d).
Proof. intros Hl Hd. unfold zsplice. rewrite !Forall_app. split_and!; [by apply Forall_take|done|by apply Forall_drop]. Qed.

Lemma zlen_seqZ a n : 0 <= n -> zlen (seqZ a n) = n.
Proof. intros H. unfold zlen. rewrite length_seqZ. lia. Qed.

Lemma clean_sub (l : pystr) n : clean l -> clean (ztake n l) /\ clean (zdrop n l).
Proof. intros []. split; split; (by apply Forall_take) || (by apply Forall_drop). Qed.

Lemma chunks_clean s : lacks CR s -> Forall clean (split_on NL s).
Proof.
  intros H. pose proof (split_on_words NL s) as H1. pose proof (split_on_Forall _ NL s H) as H2.
  apply Forall_forall. intros x Hx. split; [exact (proj1 (Forall_forall _ _) H1 x Hx)|exact (proj1 (Forall_forall _ _) H2 x Hx)].
Qed.

Lemma line_at_clean lines r : Forall clean lines -> clean (line_at lines r).
Proof.
  intros H. unfold line_at. destruct (lines !! Z.to_nat r) as [l|] eqn:E; [|by split; constructor].
  exact (Forall_lookup_1 _ _ _ _ H E).
Qed.

Lemma new_lines_len lines p q ins : 1 <= zlen (new_lines lines p q ins).
Proof.
  pose proof (replacement_nonempty (ztake p.2 (line_at lines p.1)) (zdrop q.2 (line_at lines q.1)) (split_on NL ins)) as Hne.
  unfold new_lines. destruct (replacement_lines _ _ _) as [|x xs]; [done|]. rewrite zlen_cons. pose proof (zlen_nonneg xs). lia.
Qed.

Lemma edited_docwf d p q ins :
  docwf d -> valid (DOC_LINES d) p -> valid (DOC_LINES d) q -> pos_leb p q = true -> lacks CR ins ->
  docwf (edited_doc d p q ins).
Proof.
  intros H Vp Vq Hpq Hi. pose proof (valid_range _ _ Vp). pose proof (valid_range _ _ Vq).
  assert (p.1 <= q.1) by (unfold pos_leb in Hpq; lia). pose proof (new_lines_len (DOC_LINES d) p q ins) as Hn.
  pose proof (wf_ids _ H) as Li. pose proof (wf_versions _ H) as Lv.
  assert (Z1 : zlen (DOC_LINE_IDS d) = zlen (DOC_LINES d)) by (unfold zlen; lia).
  assert (Z2 : zlen (DOC_LINE_VERSIONS d) = zlen (DOC_LINES d)) by (unfold zlen; lia).
  pose proof (clean_sub (line_at (DOC_LINES d) p.1) p.2 (line_at_clean _ _ (wf_clean _ H))).
  pose proof (clean_sub (line_at (DOC_LINES d) q.1) q.2 (line_at_clean _ _ (wf_clean _ H))).
  constructor; unfold edited_doc; cbn [DOC_LINES DOC_LINE_IDS DOC_LINE_VERSIONS].
  - intros E. apply (f_equal zlen) in E. rewrite zsplice_length, zlen_nil in E by lia. lia.
  - apply zsplice_Forall; [apply H|]. apply replacement_clean; [tauto|tauto|by apply chunks_clean].
  - apply Nat2Z.inj. change (zlen (zsplice (DOC_LINE_IDS d) p.1 (q.1 + 1)
      (znth (DOC_LINE_IDS d) p.1 :: seqZ (NEXT_LINE_ID d) (zlen (new_lines (DOC_LINES d) p q ins) - 1))) =
      zlen (zsplice (DOC_LINES d) p.1 (q.1 + 1) (new_lines (DOC_LINES d) p q ins))).
    rewrite !zsplice_length, zlen_cons, zlen_seqZ by lia. lia.
  - apply Nat2Z.inj. change (zlen (zsplice (DOC_LINE_VERSIONS d) p.1 (q.1 + 1)
      (znth (DOC_LINE_VERSIONS d) p.1 + 1 :: zreplicate (zlen (new_lines (DOC_LINES d) p q ins) - 1) 0)) =
      zlen (zsplice (DOC_LINES d) p.1 (q.1 + 1) (new_lines (DOC_LINES d) p q ins))).
    rewrite !zsplice_length, zlen_cons, zlen_replicate by lia. lia.
Qed.

Lemma index_after_treewf n start removed count w :
  0 <= start -> 0 <= removed -> treewf w -> treewf (index_after n start removed count w).
Proof.
  intros Hs Hr Ht. unfold index_after. destruct (_ =? _); [|by left]. unfold replaced_index, treewf.
  cbn [WRAP_LINE_COUNTS WRAP_COUNT_TREE]. destruct (removed =? count).
  - rewrite zsplice_same by lia. exact Ht.
  - right. apply wraptreebuild_represents.
Qed.

(** ** The flat text *)

Definition text_of (s : wst) : pystr := join_with [NL] (lines_of s).

Lemma edited_text s p q ins :
  docwf (w_doc s) -> valid (lines_of s) p -> valid (lines_of s) q -> pos_leb p q = true ->
  text_of (edited s p q ins) = zsplice (text_of s) (offset (lines_of s) p) (offset (lines_of s) q) ins /\
  removed_text (lines_of s) p q = zslice (text_of s) (offset (lines_of s) p) (offset (lines_of s) q).
Proof.
  intros H Vp Vq Hpq. split.
  - apply splice_flat; [done..|by apply line_at_Some|by apply line_at_Some].
  - apply between_flat; [done..|by apply line_at_Some|by apply line_at_Some].
Qed.

(** The lines of a document are determined by its text. *)
Lemma lines_text d d' : docwf d -> docwf d' ->
  join_with [NL] (DOC_LINES d) = join_with [NL] (DOC_LINES d') -> DOC_LINES d = DOC_LINES d'.
Proof.
  intros H H' E. rewrite <- (split_join NL (DOC_LINES d)), E by (apply H || by apply clean_nl, H).
  apply split_join; [apply H'|by apply clean_nl, H'].
Qed.

(** The caret after an edit stands behind the inserted text. *)
Lemma edited_position s p ins t :
  docwf (w_doc s) -> valid (lines_of s) p ->
  textpositionafter p.1 p.2 ins = position_at (ztake (offset (lines_of s) p) (text_of s) ++ ins ++ t)
    (offset (lines_of s) p + zlen ins).
Proof.
  intros H Vp. pose proof (offset_bounds _ _ Vp).
  rewrite <- (position_offset (lines_of s) p) at 1 2 by (apply clean_nl, H || done). unfold position_at.
  rewrite <- textpositionafter_app. f_equal. rewrite app_assoc. symmetry. apply ztake_app_exact.
  rewrite zlen_app, zlen_take; unfold text_of; lia.
Qed.

End Run.
