(* ===== verification/WriteFormatSpec.v ===== *)
(** File formats read back: a saved document is loaded as it was, and a file that
    is loaded and saved without a change keeps its bytes. *)

From stdpp Require Import base option list.
From Stdlib Require Import ZArith Lia Bool String.
From S2P Require Import Prelude PyText PyVal PyStr PyPath WriteState WriteFormat WriteEditSpec.
Open Scope Z_scope.

Implicit Types lines : list pystr.

(** ** UTF-8 *)

(** Case analysis of [utf8_scan] and [utf8_prefix]: the next bytes one by one. *)
Ltac utf8_cases :=
  repeat match goal with
  | |- context [match ?l with [] => _ | _ :: _ => _ end] => is_var l; destruct l
  | |- context [if ?b then _ else _] => destruct b eqn:?
  | H : context [match ?l with [] => _ | _ :: _ => _ end] |- _ => is_var l; destruct l
  | H : context [if ?b then _ else _] |- _ => destruct b eqn:?
  end.

Definition all_some (l : list (option Z)) (s : list Z) : Prop := l = List.map Some s.

Lemma all_some_cons c l s : all_some (Some c :: l) s -> exists s', s = c :: s' /\ all_some l s'.
Proof. unfold all_some. destruct s as [|d s]; [done|]. cbn. intros [= -> ->]. by exists s. Qed.

Lemma all_some_none l s : ~ all_some (None :: l) s.
Proof. unfold all_some. by destruct s. Qed.

Lemma utf8_decode_some b s : utf8_decode b = Ok s -> all_some (utf8_scan b) s.
Proof.
  unfold utf8_decode, utf8_decode_replace, all_some. generalize (utf8_scan b). intros l.
  destruct (existsb _ l) eqn:E; [done|]. intros [= <-].
  induction l as [|[c|] l IH]; [done| |done]. cbn in *. by rewrite <- IH.
Qed.

(** Characters back to their bytes, by the number of bytes. *)
Lemma char_two b0 b1 : in_rng 194 223 b0 = true -> is_cont b1 = true ->
  let c := (b0 - 192) * 64 + (b1 - 128) in is_scalar c = true /\ utf8_char c = [b0; b1].
Proof.
  intros H0 H1 c. assert (Hc : c = (b0 - 192) * 64 + (b1 - 128)) by done. clearbody c.
  unfold is_cont, in_rng, is_scalar, is_surrogate, utf8_char in *. split; [lia|]. split_if; try lia.
  f_equal; [|f_equal]; Z.div_mod_to_equations; lia.
Qed.

Lemma char_three b0 b1 b2 : in_rng 224 239 b0 = true -> second3 b0 b1 = true -> is_cont b2 = true ->
  let c := (b0 - 224) * 4096 + (b1 - 128) * 64 + (b2 - 128) in is_scalar c = true /\ utf8_char c = [b0; b1; b2].
Proof.
  intros H0 H1 H2 c. assert (Hc : c = (b0 - 224) * 4096 + (b1 - 128) * 64 + (b2 - 128)) by done. clearbody c.
  unfold second3, is_cont, in_rng, is_scalar, is_surrogate, utf8_char in *.
  assert (128 <= b1 <= 191) by (revert H1; split_if; lia).
  split; [revert H1; split_if; lia|]. assert (2048 <= c < 65536) by (revert H1; split_if; lia).
  split_if; try lia. f_equal; [|f_equal; [|f_equal]]; Z.div_mod_to_equations; lia.
Qed.

Lemma char_four b0 b1 b2 b3 : in_rng 240 244 b0 = true -> second4 b0 b1 = true -> is_cont b2 = true -> is_cont b3 = true ->
  let c := (b0 - 240) * 262144 + (b1 - 128) * 4096 + (b2 - 128) * 64 + (b3 - 128) in
  is_scalar c = true /\ utf8_char c = [b0; b1; b2; b3].
Proof.
  intros H0 H1 H2 H3 c. assert (Hc : c = (b0 - 240) * 262144 + (b1 - 128) * 4096 + (b2 - 128) * 64 + (b3 - 128)) by done. clearbody c.
  unfold second4, is_cont, in_rng, is_scalar, is_surrogate, utf8_char in *.
  assert (128 <= b1 <= 191) by (revert H1; split_if; lia).
  assert (65536 <= c <= 1114111) by (revert H1; split_if; lia). split; [lia|].
  split_if; try lia. f_equal; [|f_equal; [|f_equal; [|f_equal]]]; Z.div_mod_to_equations; lia.
Qed.

Lemma char_one b0 : is_byte b0 -> (b0 <? 128) = true -> is_scalar b0 = true /\ utf8_char b0 = [b0].
Proof.
  unfold is_byte, is_scalar, is_surrogate, utf8_char. intros H0 H1. split; [lia|]. by rewrite H1.
Qed.

(** The last step of the case analysis: the next character and the rest. *)
Ltac utf8_next Next Hs b0 :=
  first
    [ refine (Next _ [b0] _ Hs (proj1 (char_one _ _ _)) (proj2 (char_one _ _ _)) _ _); [done..|unfold bytes_ok; rewrite ?Forall_cons; tauto|cbn [List.length]; lia]
    | refine (Next _ [b0; _] _ Hs (proj1 (char_two _ _ _ _)) (proj2 (char_two _ _ _ _)) _ _); [done..|unfold bytes_ok; rewrite ?Forall_cons; tauto|cbn [List.length]; lia]
    | refine (Next _ [b0; _; _] _ Hs (proj1 (char_three _ _ _ _ _ _)) (proj2 (char_three _ _ _ _ _ _)) _ _);
      [done..|unfold bytes_ok; rewrite ?Forall_cons; tauto|cbn [List.length]; lia]
    | refine (Next _ [b0; _; _; _] _ Hs (proj1 (char_four _ _ _ _ _ _ _ _)) (proj2 (char_four _ _ _ _ _ _ _ _)) _ _);
      [done..|unfold bytes_ok; rewrite ?Forall_cons; tauto|cbn [List.length]; lia] ].

Lemma utf8_scan_inverse n : forall b s, (List.length b <= n)%nat -> bytes_ok b -> all_some (utf8_scan b) s ->
  forallb is_scalar s = true /\ flat_map utf8_char s = b /\ utf8_prefix b = true.
Proof.
  induction n as [|n IH]; intros b s Hn Hb.
  { destruct b; [|cbn in Hn; lia]. unfold all_some. by destruct s. }
  destruct b as [|b0 b]; [unfold all_some; by destruct s|]. apply Forall_cons in Hb as [H0 Hb].
  assert (Next : forall c k r, all_some (Some c :: utf8_scan r) s -> is_scalar c = true -> utf8_char c = k -> bytes_ok r ->
    (List.length r <= n)%nat -> forallb is_scalar s = true /\ flat_map utf8_char s = k ++ r /\ utf8_prefix r = true).
  { intros c k r (s' & -> & Hs)%all_some_cons Hc <- Hr Hl. destruct (IH r s' Hl Hr Hs) as (H1 & H2 & H3). cbn.
    by rewrite Hc, H1, H2. }
  cbn [utf8_scan utf8_prefix]. utf8_cases; intros Hs; try (by apply all_some_none in Hs);
    unfold bytes_ok in Hb; rewrite ?Forall_cons in Hb; cbn [List.length] in Hn.
  all: cbn [andb]; utf8_next Next Hs b0.
Qed.

Lemma utf8_prefix_app n : forall b r, (List.length b <= n)%nat -> utf8_prefix (b ++ r) = true -> utf8_prefix b = true.
Proof.
  induction n as [|n IH]; intros b r Hn; [by destruct b; [|cbn in Hn; lia]|].
  destruct b as [|b0 b]; [done|]. cbn [List.length app utf8_prefix] in *.
  assert (Drop : forall c b, (List.length b <= n)%nat -> c && utf8_prefix (b ++ r) = true -> c && utf8_prefix b = true).
  { intros c b' Hl [-> H']%andb_true_iff. by apply (IH _ r). }
  destruct (b0 <? 128); [apply IH; lia|]. destruct (in_rng 194 223 b0), (in_rng 224 239 b0), (in_rng 240 244 b0); try done.
  all: destruct b as [|b1 b]; [done|]; cbn [app List.length] in *.
  all: try (apply Drop; lia).
  all: intros [-> H']%andb_true_iff; revert H'; cbn [andb].
  all: destruct b as [|b2 b]; [done|]; cbn [app List.length] in *.
  all: try (apply Drop; lia).
  all: intros [-> H']%andb_true_iff; revert H'; cbn [andb].
  all: destruct b as [|b3 b]; [done|]; cbn [app List.length] in *.
  all: apply Drop; lia.
Qed.

Lemma utf8_bytes_ok s : forallb is_scalar s = true -> bytes_ok (utf8_encode_replace s).
Proof.
  induction s as [|c s IH]; [by constructor|]. cbn. intros [Hc Hs]%andb_true_iff. apply Forall_app. split; [|by apply IH].
  unfold is_scalar in Hc. destruct (is_surrogate c); [by rewrite andb_false_r in Hc|]. unfold utf8_char, is_byte.
  split_if; rewrite ?Forall_cons, Forall_nil; split_and?; try done; Z.div_mod_to_equations; lia.
Qed.

Lemma utf8_decode_inverse b s : bytes_ok b -> utf8_decode b = Ok s ->
  forallb is_scalar s = true /\ utf8_encode s = Ok b /\ utf8_prefix b = true.
Proof.
  intros Hb Hs. apply utf8_decode_some in Hs.
  destruct (utf8_scan_inverse (List.length b) b s ltac:(done) Hb Hs) as (H1 & H2 & H3). split_and!; [done| |done].
  rewrite utf8_encode_scalar by done. f_equal. rewrite <- H2. unfold utf8_encode_replace. clear -H1.
  induction s as [|c s IH]; [done|]. cbn in *. apply andb_true_iff in H1 as [Hc Hs]. rewrite (IH Hs). f_equal.
  unfold is_scalar in Hc. destruct (is_surrogate c); [|done]. by rewrite andb_false_r in Hc.
Qed.

Lemma utf8_prefix_take k b s : bytes_ok b -> utf8_decode b = Ok s -> utf8_prefix (ztake k b) = true.
Proof.
  intros Hb Hs. apply (utf8_prefix_app (List.length (ztake k b)) _ (zdrop k b)); [done|]. rewrite ztake_zdrop.
  by apply (utf8_decode_inverse b s).
Qed.

(** ** UTF-16 and UTF-32 *)

Definition unit16 (u : Z) : Prop := 0 <= u < 65536.
Definition unit32 (u : Z) : Prop := 0 <= u < 4294967296.

Lemma units16_bytes big us : Forall unit16 us -> units16 big (flat_map (bytes16 big) us) = Ok us.
Proof.
  induction 1 as [|u us Hu _ IH]; [done|]. unfold unit16 in Hu. cbn [flat_map]. unfold bytes16 at 1.
  destruct big; cbn [app units16]; rewrite IH; cbn; do 2 f_equal; Z.div_mod_to_equations; lia.
Qed.

Lemma bytes16_units n big : forall b us, (List.length b <= n)%nat -> bytes_ok b -> units16 big b = Ok us ->
  flat_map (bytes16 big) us = b /\ Forall unit16 us.
Proof.
  induction n as [|n IH]; intros b us Hn Hb.
  { destruct b; [|cbn in Hn; lia]. by intros [= <-]. }
  destruct b as [|x [|y b]]; [by intros [= <-]|done|]. cbn [units16]. apply Forall_cons in Hb as [Hx Hb].
  apply Forall_cons in Hb as [Hy Hb]. unfold is_byte in *. intros (us' & Hu & [= <-])%bind_Ok. cbn in Hn.
  destruct (IH b us' ltac:(lia) Hb Hu) as [H1 H2]. cbn [flat_map]. rewrite H1. split.
  - unfold bytes16. destruct big; cbn [app]; f_equal; [|f_equal| |f_equal]; Z.div_mod_to_equations; lia.
  - constructor; [|done]. unfold unit16. destruct big; lia.
Qed.

Lemma units32_bytes big us : Forall unit32 us -> units32 big (flat_map (bytes32 big) us) = Ok us.
Proof.
  induction 1 as [|u us Hu _ IH]; [done|]. unfold unit32 in Hu. cbn [flat_map]. unfold bytes32 at 1.
  destruct big; cbn [app rev units32]; rewrite IH; cbn; do 2 f_equal; Z.div_mod_to_equations; lia.
Qed.

Lemma bytes32_units n big : forall b us, (List.length b <= n)%nat -> bytes_ok b -> units32 big b = Ok us ->
  flat_map (bytes32 big) us = b /\ Forall unit32 us.
Proof.
  induction n as [|n IH]; intros b us Hn Hb.
  { destruct b; [|cbn in Hn; lia]. by intros [= <-]. }
  destruct b as [|w [|x [|y [|z b]]]]; [by intros [= <-]|done..|]. cbn [units32]. unfold bytes_ok in Hb.
  rewrite !Forall_cons in Hb. unfold is_byte in Hb. destruct Hb as (Hw & Hx & Hy & Hz & Hb).
  intros (us' & Hu & [= <-])%bind_Ok. cbn in Hn.
  destruct (IH b us' ltac:(lia) Hb Hu) as [H1 H2]. cbn [flat_map]. rewrite H1. split.
  - unfold bytes32. destruct big; cbn [app rev]; repeat (f_equal; [Z.div_mod_to_equations; lia|]); f_equal; Z.div_mod_to_equations; lia.
  - constructor; [|done]. unfold unit32. destruct big; lia.
Qed.

Lemma scalars_surrogate s : forallb is_scalar s = true -> existsb is_surrogate s = false.
Proof.
  intros H. apply not_true_iff_false. intros (c & Hc & Hs)%existsb_exists. rewrite forallb_forall in H.
  specialize (H c Hc). unfold is_scalar in H. by rewrite Hs, andb_false_r in H.
Qed.

Lemma utf16_chars_units s : forallb is_scalar s = true -> utf16_chars (flat_map utf16_units s) = Ok s.
Proof.
  induction s as [|c s IH]; [done|]. cbn [forallb flat_map]. intros [Hc Hs]%andb_true_iff.
  unfold utf16_units at 1. unfold is_scalar, is_surrogate in Hc. destruct (c <? 65536) eqn:E; cbn [app utf16_chars].
  - unfold is_high, is_low, in_rng. split_if; try lia. by rewrite IH.
  - replace (is_high _) with true by (unfold is_high, in_rng; Z.div_mod_to_equations; lia).
    replace (is_low _) with true by (unfold is_low, in_rng; Z.div_mod_to_equations; lia).
    rewrite IH by done. cbn. do 2 f_equal. Z.div_mod_to_equations. lia.
Qed.

Lemma utf16_units_chars n : forall us s, (List.length us <= n)%nat -> Forall unit16 us -> utf16_chars us = Ok s ->
  flat_map utf16_units s = us /\ forallb is_scalar s = true.
Proof.
  induction n as [|n IH]; intros us s Hn Hu.
  { destruct us; [|cbn in Hn; lia]. by intros [= <-]. }
  destruct us as [|u us]; [by intros [= <-]|]. apply Forall_cons in Hu as [H0 Hu]. cbn [utf16_chars List.length] in *.
  unfold unit16 in H0. destruct (is_high u) eqn:E1.
  - destruct us as [|v us]; [done|]. apply Forall_cons in Hu as [H1 Hu]. destruct (is_low v) eqn:E2; [|done].
    intros (s' & Hs & [= <-])%bind_Ok. cbn in Hn. destruct (IH us s' ltac:(lia) Hu Hs) as [H2 H3].
    unfold is_high, is_low, in_rng in *. cbn [flat_map forallb]. rewrite H2, H3. unfold utf16_units. split.
    + split_if; [lia|]. cbn [app]. f_equal; [|f_equal]; Z.div_mod_to_equations; lia.
    + unfold is_scalar, is_surrogate. lia.
  - destruct (is_low u) eqn:E2; [done|]. intros (s' & Hs & [= <-])%bind_Ok.
    destruct (IH us s' ltac:(lia) Hu Hs) as [H2 H3]. unfold is_high, is_low, in_rng in *. cbn [flat_map forallb].
    rewrite H2, H3. unfold utf16_units. split; [by split_if; [|lia]|]. unfold is_scalar, is_surrogate. lia.
Qed.

Lemma utf16_units_unit s : forallb is_scalar s = true -> Forall unit16 (flat_map utf16_units s).
Proof.
  induction s as [|c s IH]; [by constructor|]. cbn [forallb flat_map]. intros [Hc Hs]%andb_true_iff.
  apply Forall_app. split; [|by apply IH]. unfold utf16_units, unit16. unfold is_scalar in Hc.
  split_if; repeat constructor; Z.div_mod_to_equations; lia.
Qed.

Lemma scalars_unit32 s : forallb is_scalar s = true -> Forall unit32 s.
Proof.
  intros H. apply Forall_forall. intros c Hc. rewrite forallb_forall in H. apply list_elem_of_In, H in Hc.
  unfold is_scalar, unit32 in *. lia.
Qed.

(** ** Codecs *)

Definition codecs : list pystr :=
  [lit "utf-8"; lit "utf-16-le"; lit "utf-16-be"; lit "utf-32-le"; lit "utf-32-be"; lit "latin-1"].

(** Comparisons of codec names. *)
Ltac decide_names :=
  repeat match goal with
  | |- context [str_eqb ?a ?b] =>
      let v := eval vm_compute in (str_eqb a b) in change (str_eqb a b) with v; cbv iota; cbn [negb]
  end.

(** Encoding goes character by character. *)
Definition by_character (codec : pystr) (p : Z -> bool) (f : Z -> bytes) : Prop :=
  forall s, encode_strict codec s = if forallb p s then Ok (flat_map f s) else Exc UnicodeError.

Lemma forallb_negb s : forallb (fun c => negb (is_surrogate c)) s = negb (existsb is_surrogate s).
Proof. induction s as [|c s IH]; [done|]. cbn. rewrite IH. by destruct (is_surrogate c). Qed.

Lemma flat_map_single (s : list Z) : flat_map (fun c => [c]) s = s.
Proof. induction s as [|c s IH]; [done|]. cbn. by rewrite IH. Qed.

Lemma flat_map_flat_map {A B C} (f : A -> list B) (g : B -> list C) l :
  flat_map g (flat_map f l) = flat_map (fun x => flat_map g (f x)) l.
Proof. induction l as [|x l IH]; [done|]. cbn. by rewrite flat_map_app, IH. Qed.

Lemma encode_by_character codec : codec ∈ codecs -> exists p f, by_character codec p f.
Proof.
  unfold codecs. rewrite !elem_of_cons, elem_of_nil. unfold by_character.
  intros [->|[->|[->|[->|[->|[->|[]]]]]]].
  1: { exists (fun c => negb (is_surrogate c)), utf8_char. intros s. rewrite forallb_negb.
       unfold encode_strict. decide_names. unfold utf8_encode. by destruct (existsb _ s). }
  1, 2, 3, 4: eexists (fun c => negb (is_surrogate c)), _; intros s; rewrite forallb_negb; unfold encode_strict;
    decide_names; rewrite andb_true_r; destruct (existsb is_surrogate s); [done|];
    cbn [negb]; try rewrite flat_map_flat_map; reflexivity.
  exists (fun c => c <? 256), (fun c => [c]). intros s. rewrite flat_map_single. unfold encode_strict.
  decide_names. by rewrite andb_false_r.
Qed.

(** Lines are encoded as the text they make. *)
Lemma written_join codec sep lines : codec ∈ codecs -> lines <> [] ->
  written_lines codec sep lines = encode_strict codec (join_with sep lines).
Proof.
  intros (p & f & H)%encode_by_character Hl. induction lines as [|l [|l' lines] IH]; [done| |].
  - cbn. by destruct (encode_strict codec l).
  - rewrite join_cons by done. cbn [written_lines]. cbn [written_lines] in IH. rewrite IH by done.
    rewrite !H, !forallb_app, !flat_map_app. destruct (forallb p l); [|done]. cbn -[join_with].
    destruct (forallb p sep); [|done]. cbn -[join_with]. by destruct (forallb p (join_with sep (l' :: lines))).
Qed.

(** ** Reading what was encoded, and encoding what was read *)

Lemma starts_with_app p s : starts_with p s = true <-> exists r, s = p ++ r.
Proof.
  revert s. induction p as [|x p IH]; intros s; [split; [by exists s|done]|]. destruct s as [|y s]; cbn.
  - split; [done|]. by intros [r ?].
  - rewrite andb_true_iff, Z.eqb_eq, IH. split.
    + intros [-> [r ->]]. by exists r.
    + intros (r & [= -> ->]). split; [done|]. by exists r.
Qed.

Lemma starts_with_take p k b : starts_with p (ztake k b) = true -> exists r, b = p ++ r.
Proof.
  intros [r Hr]%starts_with_app. exists (r ++ zdrop k b). by rewrite app_assoc, <- Hr, ztake_zdrop.
Qed.

(** Code points. *)
Definition unicode (s : pystr) : Prop := Forall (fun c => 0 <= c <= 1114111) s.

Lemma unicode_scalars s : unicode s -> existsb is_surrogate s = false -> forallb is_scalar s = true.
Proof.
  intros Hu Hs. rewrite forallb_forall. intros c Hc.
  rewrite <- not_true_iff_false, existsb_exists in Hs. unfold unicode in Hu. rewrite Forall_forall in Hu.
  specialize (Hu c ltac:(by apply list_elem_of_In)). unfold is_scalar.
  destruct (is_surrogate c) eqn:E; [exfalso; apply Hs; by exists c|]. lia.
Qed.

Lemma scalars_unicode s : forallb is_scalar s = true -> unicode s.
Proof.
  rewrite forallb_forall. intros H. apply Forall_forall. intros c Hc%list_elem_of_In. specialize (H c Hc).
  unfold is_scalar in H. lia.
Qed.

(** The three things the detection gives together. *)
Definition formats : list (pystr * bool * pystr) :=
  [(lit "utf-8", true, lit "utf-8-sig"); (lit "utf-32-le", true, lit "utf-32"); (lit "utf-32-be", true, lit "utf-32");
   (lit "utf-16-le", true, lit "utf-16"); (lit "utf-16-be", true, lit "utf-16"); (lit "utf-8", false, lit "utf-8");
   (lit "latin-1", false, lit "latin-1")].

Definition mark (encoding : pystr) (bom : bool) : bytes := if bom then encodingbom encoding else [].

Lemma each_format (P : pystr -> bool -> pystr -> Prop) : Forall (fun f => P f.1.1 f.1.2 f.2) formats ->
  forall encoding bom read, (encoding, bom, read) ∈ formats -> P encoding bom read.
Proof. intros H encoding bom read Hf. rewrite Forall_forall in H. exact (H _ Hf). Qed.

(** The marks, and what a codec with a mark makes of them. *)
Ltac decide_marks :=
  repeat match goal with
  | |- context [mark ?e ?b] =>
      let v := eval vm_compute in (mark e b) in change (mark e b) with v; cbn [app]
  | |- context [starts_with ?p (?x :: ?l)] =>
      let v := eval vm_compute in (match p with y :: _ => x =? y | [] => true end) in
      lazymatch v with
      | false => change (starts_with p (x :: l)) with false
      | true => let r := eval cbn in (starts_with p (x :: l)) in change (starts_with p (x :: l)) with r
      end; cbv iota
  end.

Lemma detect_formats sample encoding bom read : detectfileformatsample sample = (encoding, bom, read) ->
  (encoding, bom, read) ∈ formats /\ starts_with (mark encoding bom) sample = true.
Proof.
  unfold detectfileformatsample. intros H.
  assert (Is : forall f, (if bool_decide (f ∈ formats) then true else false) = true ->
    starts_with (mark f.1.1 f.1.2) sample = true -> f = (encoding, bom, read) ->
    (encoding, bom, read) ∈ formats /\ starts_with (mark encoding bom) sample = true).
  { intros f Hf Hs ->. split; [|done]. by destruct (bool_decide_reflect ((encoding, bom, read) ∈ formats)). }
  repeat match type of H with context [starts_with ?p sample] => destruct (starts_with p sample) eqn:? end;
    [..|destruct (utf8_prefix sample)].
  all: eapply Is; [..|exact H]; [vm_compute; reflexivity|cbn [fst snd]; decide_marks; first [assumption|reflexivity]].
Qed.

Lemma unicode_utf8 s body : unicode s -> utf8_encode s = Ok body -> utf8_decode body = Ok s.
Proof.
  intros Hu He. eapply utf8_roundtrip; [|exact He]. apply unicode_scalars; [done|]. unfold utf8_encode in He.
  by destruct (existsb is_surrogate s).
Qed.

(** A codec with surrogates refused. *)
Lemma refused {A} s (r : res A) a : (if existsb is_surrogate s && true then Exc UnicodeError else r) = Ok a -> unicode s ->
  forallb is_scalar s = true /\ r = Ok a.
Proof. rewrite andb_true_r. destruct (existsb _ s) eqn:E; [done|]. intros -> Hu. split; [by apply unicode_scalars|done]. Qed.

Lemma decode_encoded encoding bom read s body : (encoding, bom, read) ∈ formats -> unicode s ->
  encode_strict encoding s = Ok body -> decode_strict read (mark encoding bom ++ body) = Ok s.
Proof.
  intros H Hu. revert encoding bom read H. refine (each_format _ _). unfold encode_strict, decode_strict, formats.
  repeat (apply Forall_cons_2; [cbn [fst snd]; decide_names; decide_marks|]); [..|constructor].
  - by apply unicode_utf8.
  - intros [Hs [= <-]]%refused; [|done]. change (zdrop 4 _) with (flat_map (bytes32 false) s).
    rewrite units32_bytes by by apply scalars_unit32. cbn. unfold strict_chars. by rewrite Hs.
  - intros [Hs [= <-]]%refused; [|done]. change (zdrop 4 _) with (flat_map (bytes32 true) s).
    rewrite units32_bytes by by apply scalars_unit32. cbn. unfold strict_chars. by rewrite Hs.
  - intros [Hs [= <-]]%refused; [|done]. change (zdrop 2 _) with (flat_map (bytes16 false) (flat_map utf16_units s)).
    rewrite units16_bytes by by apply utf16_units_unit. by apply utf16_chars_units.
  - intros [Hs [= <-]]%refused; [|done]. change (zdrop 2 _) with (flat_map (bytes16 true) (flat_map utf16_units s)).
    rewrite units16_bytes by by apply utf16_units_unit. by apply utf16_chars_units.
  - by apply unicode_utf8.
  - rewrite andb_false_r. destruct (forallb _ s); [|done]. by intros [= <-].
Qed.

(** A codec with surrogates refused accepts scalars. *)
Lemma accepted {A} s (r : A) : forallb is_scalar s = true ->
  (if existsb is_surrogate s && true then Exc UnicodeError else Ok r) = Ok r.
Proof. intros H. by rewrite scalars_surrogate. Qed.

Lemma strict_chars_Ok us s : strict_chars us = Ok s -> us = s /\ forallb is_scalar s = true.
Proof. unfold strict_chars. destruct (forallb _ us) eqn:E; [|done]. by intros [= <-]. Qed.

Lemma encode_decoded encoding bom read s body : (encoding, bom, read) ∈ formats -> bytes_ok body ->
  decode_strict read (mark encoding bom ++ body) = Ok s ->
  unicode s /\ encode_strict encoding s = Ok body.
Proof.
  intros H Hb. revert encoding bom read H. refine (each_format _ _). unfold encode_strict, decode_strict, formats.
  repeat (apply Forall_cons_2; [cbn [fst snd]; decide_names; decide_marks|]); [..|constructor].
  - change (zdrop 3 _) with body. intros Hs. apply utf8_decode_inverse in Hs as (H1 & H2 & _); [|done].
    split; [by apply scalars_unicode|done].
  - change (zdrop 4 _) with body. intros (us & Hu & Hs)%bind_Ok.
    apply strict_chars_Ok in Hs as [-> Hs].
    apply (bytes32_units (List.length body)) in Hu as [<- _]; [|done..].
    split; [by apply scalars_unicode|by apply accepted].
  - change (zdrop 4 _) with body. intros (us & Hu & Hs)%bind_Ok.
    apply strict_chars_Ok in Hs as [-> Hs].
    apply (bytes32_units (List.length body)) in Hu as [<- _]; [|done..].
    split; [by apply scalars_unicode|by apply accepted].
  - change (zdrop 2 _) with body. intros (us & Hu & Hs)%bind_Ok.
    apply (bytes16_units (List.length body)) in Hu as [<- Hr]; [|done..].
    apply (utf16_units_chars (List.length us)) in Hs as [<- Hs]; [|done..].
    split; [by apply scalars_unicode|by apply accepted].
  - change (zdrop 2 _) with body. intros (us & Hu & Hs)%bind_Ok.
    apply (bytes16_units (List.length body)) in Hu as [<- Hr]; [|done..].
    apply (utf16_units_chars (List.length us)) in Hs as [<- Hs]; [|done..].
    split; [by apply scalars_unicode|by apply accepted].
  - intros Hs. apply utf8_decode_inverse in Hs as (H1 & H2 & _); [|done]. split; [by apply scalars_unicode|done].
  - intros [= <-]. rewrite andb_false_r. unfold bytes_ok, is_byte in Hb. split.
    + unfold unicode. eapply Forall_impl; [exact Hb|]. cbn. lia.
    + replace (forallb _ body) with true; [done|]. symmetry. apply forallb_forall. intros c Hc%list_elem_of_In.
      rewrite Forall_forall in Hb. specialize (Hb c Hc). lia.
Qed.

(** ** Lines *)

Definition parts (text : pystr) : list (pystr * pystr) := List.map filelineending (stream_values [] text).

Lemma stream_values_clean l : clean l -> forall acc s, stream_values acc (l ++ s) = stream_values (rev l ++ acc) s.
Proof.
  intros [H1 H2]. unfold lacks, NL, CR in *. revert H1 H2.
  induction l as [|c l IH]; intros H1 H2 acc s; [done|]. apply Forall_cons in H1 as [? H1], H2 as [? H2].
  cbn [app stream_values]. unfold NL, CR. split_if; try lia. rewrite IH by done. cbn. by rewrite <- app_assoc.
Qed.

Lemma newlines_in e : e ∈ newlines <-> e = [NL] \/ e = [CR; NL] \/ e = [CR].
Proof. unfold newlines. rewrite !elem_of_cons, elem_of_nil. tauto. Qed.

Lemma ends_with_clean e l : e ∈ newlines -> clean l -> ends_with e l = false.
Proof.
  intros He [H1 H2]. unfold ends_with. destruct (starts_with (rev e) (rev l)) eqn:E; [|done].
  apply starts_with_app in E as [r Hr]. exfalso.
  assert (Hl : l = rev r ++ e) by (by rewrite <- (rev_involutive l), Hr, rev_app_distr, rev_involutive).
  unfold lacks in *. rewrite Hl in H1, H2. rewrite Forall_app in H1, H2.
  destruct H1 as [_ H1], H2 as [_ H2]. apply newlines_in in He. destruct He as [->|[->| ->]]; rewrite ?Forall_cons in H1, H2; tauto.
Qed.

Lemma ends_with_app l e : ends_with e (l ++ e) = true.
Proof. unfold ends_with. rewrite rev_app_distr. apply starts_with_app. by exists (rev l). Qed.

Lemma lineending_clean l : clean l -> filelineending l = (l, []).
Proof.
  intros H. unfold filelineending. rewrite !ends_with_clean; try done; apply newlines_in; tauto.
Qed.

Lemma lineending_cut l e : clean l -> e ∈ newlines -> filelineending (l ++ e) = (l, e).
Proof.
  intros H He. apply newlines_in in He. unfold filelineending.
  assert (No : forall c d, c <> d -> ends_with [c] (l ++ [d]) = false).
  { intros c d Hd. unfold ends_with. rewrite rev_app_distr. cbn. by replace (c =? d) with false by lia. }
  assert (Nl : forall x, (x = NL \/ x = CR) -> ends_with [CR; NL] (l ++ [x]) = false).
  { intros x Hx. unfold ends_with. rewrite rev_app_distr. destruct Hx as [->| ->]; [|done]. cbn -[Z.eqb].
    destruct H as [_ H]. destruct (rev l) as [|y k] eqn:E; [done|]. assert (Hy : In y l) by (apply in_rev; rewrite E; by left).
    apply list_elem_of_In in Hy. unfold lacks in H. rewrite Forall_forall in H. specialize (H y Hy).
    by rewrite (proj2 (Z.eqb_neq CR y)) by done. }
  assert (Cut : ztake (zlen (l ++ e) - zlen e) (l ++ e) = l) by (apply ztake_app_exact; rewrite zlen_app; lia).
  destruct He as [->|[->| ->]].
  - rewrite Nl by tauto. rewrite ends_with_app. f_equal. exact Cut.
  - rewrite ends_with_app. f_equal. exact Cut.
  - rewrite Nl by tauto. rewrite No by done. rewrite ends_with_app. f_equal. exact Cut.
Qed.

(** Where a first line ends. *)
Definition follows (e rest : pystr) : Prop := e = [CR] -> forall r, rest <> NL :: r.

Lemma parts_clean l : clean l -> parts l = match l with [] => [] | _ => [(l, [])] end.
Proof.
  intros H. unfold parts. rewrite <- (app_nil_r l) at 1. rewrite stream_values_clean by done. cbn [stream_values].
  rewrite app_nil_r. destruct (rev l) as [|x r] eqn:E.
  - by replace l with (@nil Z) by (by rewrite <- (rev_involutive l), E).
  - rewrite <- E, rev_involutive. cbn. rewrite lineending_clean by done. destruct l; [done|]. done.
Qed.

Lemma parts_cut l e rest : clean l -> e ∈ newlines -> follows e rest -> parts (l ++ e ++ rest) = (l, e) :: parts rest.
Proof.
  intros H He Hf. unfold parts. rewrite stream_values_clean by done. rewrite app_nil_r.
  assert (E : stream_values (rev l) (e ++ rest) = (l ++ e) :: stream_values [] rest).
  { apply newlines_in in He. destruct He as [->|[->| ->]]; cbn.
    - by rewrite rev_involutive.
    - rewrite rev_involutive. by rewrite <- app_assoc.
    - rewrite rev_involutive. destruct rest as [|d rest]; [done|]. destruct (Z.eqb_spec d NL) as [->|]; [|done].
      by destruct (Hf eq_refl rest). }
  rewrite E. cbn [List.map]. by rewrite lineending_cut.
Qed.

(** A text is one line, or a line, its ending, and the rest. *)
Lemma text_cut text : clean text \/ exists l e rest, text = l ++ e ++ rest /\ clean l /\ e ∈ newlines /\ follows e rest.
Proof.
  induction text as [|c text IH]; [by left; split; constructor|].
  destruct (decide (c = NL)) as [->|Hn].
  { right. exists [], [NL], text. split_and!; [done|by split; constructor|apply newlines_in; tauto|done]. }
  destruct (decide (c = CR)) as [->|Hc].
  { right. destruct text as [|d text].
    { exists [], [CR], []. split_and!; [done|by split; constructor|apply newlines_in; tauto|by intros _ r]. }
    destruct (decide (d = NL)) as [->|Hd].
    - exists [], [CR; NL], text. split_and!; [done|by split; constructor|apply newlines_in; tauto|done].
    - exists [], [CR], (d :: text). split_and!; [done|by split; constructor|apply newlines_in; tauto|].
      intros _ r [= ? _]. done. }
  destruct IH as [[H1 H2]|(l & e & rest & -> & [H1 H2] & He & Hf)].
  - left. split; by constructor.
  - right. exists (c :: l), e, rest. split_and!; [done| |done|done]. split; by constructor.
Qed.

Lemma text_ind (P : pystr -> Prop) : (forall l, clean l -> P l) ->
  (forall l e rest, clean l -> e ∈ newlines -> follows e rest -> P rest -> P (l ++ e ++ rest)) -> forall text, P text.
Proof.
  intros H1 H2 text. remember (List.length text) as n eqn:Hn. revert text Hn.
  induction n as [n IH] using (well_founded_induction lt_wf). intros text ->.
  destruct (text_cut text) as [Hc|(l & e & rest & -> & Hc & He & Hf)]; [by apply H1|].
  apply H2; [done..|]. eapply IH; [|done]. rewrite !length_app.
  assert (e <> []) by (apply newlines_in in He; intros ->; naive_solver). destruct e; [done|]. cbn. lia.
Qed.

Definition endings (text : pystr) : list pystr := List.map snd (parts text).

Lemma endings_cut l e rest : clean l -> e ∈ newlines -> follows e rest -> endings (l ++ e ++ rest) = e :: endings rest.
Proof. intros. unfold endings. by rewrite parts_cut. Qed.

Lemma endings_clean l : clean l -> Forall (fun e => e = []) (endings l).
Proof. intros H. unfold endings. rewrite parts_clean by done. destruct l; by repeat constructor. Qed.

Lemma text_lines_clean l : clean l -> (text_lines l).1 = [l].
Proof. intros H. unfold text_lines. fold (parts l). rewrite parts_clean by done. by destruct l. Qed.

Lemma newlines_ne e : e ∈ newlines -> e <> [].
Proof. intros H%newlines_in ->. naive_solver. Qed.

Lemma text_lines_cut l e rest : clean l -> e ∈ newlines -> follows e rest ->
  (text_lines (l ++ e ++ rest)).1 = l :: (text_lines rest).1.
Proof.
  intros H He Hf. unfold text_lines. fold (parts (l ++ e ++ rest)) (parts rest). rewrite parts_cut by done.
  cbn [List.map fst snd]. pose proof (newlines_ne e He). destruct (parts rest) as [|[l' e'] ps]; cbn.
  - by rewrite bool_decide_eq_false_2.
  - destruct (bool_decide _); done.
Qed.

(** The lines are those of the text with its line ends made newlines. *)
Lemma replace_crlf_app l s : lacks CR l -> replace_crlf (l ++ s) = l ++ replace_crlf s.
Proof.
  induction 1 as [|c l Hc _ IH]; [done|]. cbn. rewrite (proj2 (Z.eqb_neq c CR)) by done. by rewrite IH.
Qed.

Lemma replace_cr_lacks l : lacks CR l -> replace_cr l = l.
Proof.
  induction 1 as [|c l Hc _ IH]; [done|]. cbn. rewrite (proj2 (Z.eqb_neq c CR)) by done. unfold replace_cr in IH. by rewrite IH.
Qed.

Lemma normalise_cut l e rest : clean l -> e ∈ newlines -> follows e rest ->
  normalise_newlines (l ++ e ++ rest) = l ++ NL :: normalise_newlines rest.
Proof.
  intros [_ H] He%newlines_in Hf. unfold normalise_newlines. rewrite replace_crlf_app by done.
  unfold replace_cr. rewrite map_app. fold (replace_cr l). rewrite replace_cr_lacks by done. f_equal.
  destruct He as [->|[->| ->]]; [done|done|]. cbn. destruct rest as [|d rest]; [done|].
  destruct (Z.eqb_spec d NL) as [->|]; [by destruct (Hf eq_refl rest)|done].
Qed.

Lemma text_lines_split text : (text_lines text).1 = split_on NL (normalise_newlines text).
Proof.
  induction text as [l H|l e rest H He Hf IH] using text_ind.
  - rewrite text_lines_clean by done. rewrite normalise_clean by apply H. by rewrite split_on_lacks by apply H.
  - rewrite text_lines_cut, normalise_cut by done. rewrite split_on_cons by apply H. by rewrite IH.
Qed.

Lemma text_lines_good text : (text_lines text).1 <> [] /\ Forall clean (text_lines text).1.
Proof.
  induction text as [l H|l e rest H He Hf [IH1 IH2]] using text_ind.
  - rewrite text_lines_clean by done. split; [done|by constructor].
  - rewrite text_lines_cut by done. split; [done|by constructor].
Qed.

(** When all line ends are the same, the lines with it between them are the
    text. *)
Definition uniform (e : pystr) (text : pystr) : Prop := Forall (fun e' => e' = [] \/ e' = e) (endings text).

Lemma text_lines_join e text : uniform e text -> join_with e (text_lines text).1 = text.
Proof.
  unfold uniform. induction text as [l H|l e' rest H He Hf IH] using text_ind; intros Hu.
  - by rewrite text_lines_clean.
  - rewrite endings_cut in Hu by done. apply Forall_cons in Hu as [[->| ->] Hu]; [by destruct (newlines_ne [] He)|].
    rewrite text_lines_cut by done. rewrite join_cons by apply text_lines_good. by rewrite IH.
Qed.

Lemma join_follows e lines : Forall clean lines -> follows e (join_with e lines).
Proof.
  intros H -> r. destruct lines as [|l [|l' lines]]; [done|..]; apply Forall_cons in H as [[Hl _] _].
  - cbn [join_with]. intros ->. by apply Forall_cons in Hl as [Hl _].
  - rewrite join_cons by done. destruct l as [|c l]; [done|]. intros [= -> _]. by apply Forall_cons in Hl as [Hl _].
Qed.

(** Of a text made of lines. *)
Lemma join_lines e lines : e ∈ newlines -> lines <> [] -> Forall clean lines ->
  (text_lines (join_with e lines)).1 = lines /\ uniform e (join_with e lines) /\
  (e ∈ endings (join_with e lines) <-> (1 < List.length lines)%nat).
Proof.
  intros He. induction lines as [|l lines IH]; [done|]. intros _ H. apply Forall_cons in H as [Hl H].
  destruct lines as [|l' lines].
  - cbn [join_with]. split_and!; [by apply text_lines_clean| |].
    + eapply Forall_impl; [by apply endings_clean|]. by left.
    + split; [|cbn; lia]. intros Hi. pose proof (endings_clean l Hl) as Hc. rewrite Forall_forall in Hc.
      by destruct (newlines_ne e He), (Hc e Hi).
  - rewrite join_cons by done. pose proof (join_follows e (l' :: lines) H) as Hf.
    destruct (IH ltac:(done) H) as (H1 & H2 & H3). unfold uniform. rewrite endings_cut by done.
    rewrite text_lines_cut by done. split_and!; [by rewrite H1|constructor; [by right|done]|].
    split; [cbn; lia|]. intros _. by left.
Qed.

(** The newline found is the one all line ends agree on. *)
Lemma newlinecount_zero e n es : Forall (fun e' => e' = [] \/ e' = e) es -> n <> e -> n <> [] -> newlinecount es n = 0.
Proof.
  intros H H1 H2. unfold newlinecount. replace (filter _ es) with (@nil pystr); [done|]. symmetry.
  induction H as [|e' es He _ IH]; [done|]. rewrite filter_cons_False; [done|]. destruct He as [->| ->]; congruence.
Qed.

Lemma newlinecount_pos e es : e ∈ es -> 0 < newlinecount es e.
Proof.
  intros H. unfold newlinecount. destruct (filter _ es) as [|x l] eqn:E; [|rewrite zlen_cons; pose proof (zlen_nonneg l); lia].
  assert (Hi : e ∈ filter (fun e' => e' = e) es) by by apply list_elem_of_filter. rewrite E in Hi. by apply elem_of_nil in Hi.
Qed.

Lemma payload_newline_known es : Forall (fun e => e = [] \/ e ∈ newlines) es -> payload_newline es ∈ newlines.
Proof.
  intros H. unfold payload_newline. set (first := match filter _ es with e :: _ => e | [] => [NL] end).
  assert (Hf : first ∈ newlines).
  { unfold first. destruct (filter (fun e => e <> []) es) as [|x r] eqn:E; [apply newlines_in; tauto|].
    assert (Hx : x ∈ filter (fun e' => e' <> []) es) by (rewrite E; by left).
    apply list_elem_of_filter in Hx as [Hx1 Hx2]. rewrite Forall_forall in H. destruct (H x Hx2) as [->|?]; [by destruct Hx1|done]. }
  destruct (_ =? 0); [done|]. destruct (bool_decide _); [done|].
  destruct (filter (fun n => newlinecount es n = _) newlines) as [|n ns] eqn:En; [done|]. cbn.
  assert (Hx : n ∈ n :: ns) by by left. rewrite <- En in Hx. by apply list_elem_of_filter in Hx as [_ Hx].
Qed.

Lemma endings_known text : Forall (fun e => e = [] \/ e ∈ newlines) (endings text).
Proof.
  induction text as [l H|l e rest H He Hf IH] using text_ind.
  - eapply Forall_impl; [by apply endings_clean|]. by left.
  - rewrite endings_cut by done. constructor; [by right|done].
Qed.

Lemma payload_newline_uniform e es : e ∈ newlines -> Forall (fun e' => e' = [] \/ e' = e) es ->
  payload_newline es = if decide (e ∈ es) then e else [NL].
Proof.
  intros He H. unfold payload_newline. destruct (decide (e ∈ es)) as [Hi|Hi].
  - pose proof (newlinecount_pos e es Hi) as Hp.
    assert (Hm : foldr Z.max 0 (List.map (newlinecount es) newlines) = newlinecount es e).
    { assert (Z0 : forall n, n ∈ newlines -> n = e \/ newlinecount es n = 0).
      { intros n Hn. destruct (decide (n = e)); [by left|right]. eapply newlinecount_zero; [done..|by apply newlines_ne]. }
      pose proof (Z0 [NL] ltac:(apply newlines_in; tauto)). pose proof (Z0 [CR; NL] ltac:(apply newlines_in; tauto)).
      pose proof (Z0 [CR] ltac:(apply newlines_in; tauto)). apply newlines_in in He. cbn.
      destruct He as [->|[->| ->]]; intuition (try discriminate); lia. }
    rewrite Hm. replace (newlinecount es e =? 0) with false by lia. cbv zeta.
    assert (Hf : exists r, filter (fun e' => e' <> []) es = e :: r).
    { destruct (filter _ es) as [|x r] eqn:E.
      - assert (Hx : e ∈ filter (fun e' => e' <> []) es) by (apply list_elem_of_filter; split; [by apply newlines_ne|done]).
        rewrite E in Hx. by apply elem_of_nil in Hx.
      - assert (Hx : x ∈ filter (fun e' => e' <> []) es) by (rewrite E; by left).
        apply list_elem_of_filter in Hx as [Hx1 Hx2]. rewrite Forall_forall in H.
        destruct (H x Hx2) as [->| ->]; [done|by exists r]. }
    destruct Hf as [r ->]. rewrite bool_decide_eq_true_2; [done|]. apply list_elem_of_filter. by split.
  - assert (H0 : Forall (fun e' => e' = []) es).
    { apply Forall_forall. intros x Hx. rewrite Forall_forall in H. destruct (H x Hx) as [->| ->]; done. }
    assert (Z0 : forall n, n ∈ newlines -> newlinecount es n = 0).
    { intros n Hn. apply (newlinecount_zero []); [|by apply newlines_ne..]. eapply Forall_impl; [exact H0|]. by left. }
    cbn [newlines List.map foldr]. rewrite !Z0 by (apply newlines_in; tauto). cbn.
    replace (filter _ es) with (@nil pystr); [done|]. symmetry. clear -H0.
    induction H0 as [|x es Hx _ IH]; [done|]. rewrite filter_cons_False; [done|]. by intros [].
Qed.

(** ** Files *)

Definition loaded (encoding : pystr) (bom : bool) (newline : pystr) lines : list pystr * metadata :=
  (lines, mkmetadata (seqZ 1 (zlen lines)) (zreplicate (zlen lines) 0) (Some (encoding, bom, newline))).

Lemma format_codec : forall encoding bom read, (encoding, bom, read) ∈ formats ->
  encoding ∈ codecs /\ ascii_lower encoding = encoding /\ encoding <> [].
Proof.
  refine (each_format _ _). unfold formats.
  repeat (apply Forall_cons_2; [cbn [fst snd]; split_and!; [apply (bool_decide_unpack _); vm_compute; exact I|reflexivity|discriminate]|]).
  constructor.
Qed.

(** What is written for a document of a format that a file can have. *)
Lemma snapshot_text lines encoding bom read newline b : (encoding, bom, read) ∈ formats -> newline ∈ newlines -> lines <> [] ->
  snapshot_bytes lines encoding bom newline = Ok b <->
  exists body, b = mark encoding bom ++ body /\ encode_strict encoding (join_with newline lines) = Ok body.
Proof.
  intros Hf Hn Hl. destruct (format_codec _ _ _ Hf) as (Hc & Ha & He). unfold snapshot_bytes.
  replace (match encoding with [] => lit "utf-8" | _ => encoding end) with encoding by by destruct encoding.
  rewrite Ha. replace (known_newline newline) with newline.
  2: { unfold known_newline. apply newlines_in in Hn. by destruct Hn as [->|[->| ->]]. }
  rewrite written_join by done. unfold mark. split.
  - intros (body & Hb & [= <-])%bind_Ok. by exists body.
  - intros (body & -> & ->). done.
Qed.

Lemma join_unicode e lines : e ∈ newlines -> Forall unicode lines -> unicode (join_with e lines).
Proof.
  intros He H. assert (Hu : unicode e).
  { apply newlines_in in He. unfold unicode, NL, CR in *. destruct He as [->|[->| ->]]; repeat constructor; lia. }
  induction H as [|l lines Hl H IH]; [constructor|]. destruct lines as [|l' lines]; [done|].
  rewrite join_cons by done. unfold unicode in *. rewrite !Forall_app. done.
Qed.

Definition marks : list bytes := [BOM_UTF8; BOM_UTF32_LE; BOM_UTF32_BE; BOM_UTF16_LE; BOM_UTF16_BE].

(** The first bytes of a file of the format are recognised as such.  A mark
    decides; UTF-16 text that starts with a null character looks like UTF-32, text
    without mark that starts with U+FEFF like text with it, and a Latin-1 file
    must not begin like a mark, and its first 65,536 bytes must not be UTF-8 as
    well. *)
Definition recognised (encoding : pystr) (bom : bool) (text : pystr) : Prop :=
  encoding = lit "utf-8" /\ bom = true \/
  encoding = lit "utf-8" /\ bom = false /\ hd 0 text <> 65279 \/
  encoding = lit "utf-16-le" /\ bom = true /\ (text <> [] -> hd 0 text <> 0) \/
  (encoding = lit "utf-16-be" \/ encoding = lit "utf-32-le" \/ encoding = lit "utf-32-be") /\ bom = true \/
  encoding = lit "latin-1" /\ bom = false /\ Forall (fun m => starts_with m text = false) marks /\
    utf8_prefix (ztake 65536 text) = false.

Lemma recognised_format encoding bom text : recognised encoding bom text -> exists read, (encoding, bom, read) ∈ formats.
Proof.
  assert (Hf : forall f, bool_decide (f ∈ formats) = true -> exists read, (f.1.1, f.1.2, read) ∈ formats).
  { intros [[e b] r] H. exists r. by apply bool_decide_eq_true_1 in H. }
  intros [[-> ->]|[(-> & -> & Hn)|[(-> & -> & Hn)|[[[->|[->| ->]] ->]|(-> & -> & _ & Hl)]]]].
  - apply (Hf (lit "utf-8", true, lit "utf-8-sig")). vm_compute. reflexivity.
  - apply (Hf (lit "utf-8", false, lit "utf-8")). vm_compute. reflexivity.
  - apply (Hf (lit "utf-16-le", true, lit "utf-16")). vm_compute. reflexivity.
  - apply (Hf (lit "utf-16-be", true, lit "utf-16")). vm_compute. reflexivity.
  - apply (Hf (lit "utf-32-le", true, lit "utf-32")). vm_compute. reflexivity.
  - apply (Hf (lit "utf-32-be", true, lit "utf-32")). vm_compute. reflexivity.
  - apply (Hf (lit "latin-1", false, lit "latin-1")). vm_compute. reflexivity.
Qed.

Lemma ztake_front k (p r : bytes) : zlen p <= k -> exists r', ztake k (p ++ r) = p ++ r'.
Proof. intros H. unfold ztake. rewrite take_app_ge by (unfold zlen in H; lia). by eexists. Qed.

Lemma detect_marked p body found : zlen p <= 65536 ->
  (forall r, detectfileformatsample (p ++ r) = found) -> detectfileformatsample (ztake 65536 (p ++ body)) = found.
Proof. intros Hp H. destruct (ztake_front 65536 p body Hp) as [r ->]. apply H. Qed.

(** Text in UTF-8 without the mark. *)
Lemma detect_utf8 text body k : unicode text -> utf8_encode text = Ok body -> hd 0 text <> 65279 ->
  detectfileformatsample (ztake k body) = (lit "utf-8", false, lit "utf-8").
Proof.
  intros Hu He Hn. pose proof (unicode_utf8 _ _ Hu He) as Hd.
  assert (Hb : all_some (utf8_scan body) text) by by apply utf8_decode_some.
  assert (Hp : utf8_prefix (ztake k body) = true).
  { apply (utf8_prefix_app (List.length (ztake k body)) _ (zdrop k body)); [done|]. rewrite ztake_zdrop.
    assert (Hs : forallb is_scalar text = true).
    { apply unicode_scalars; [done|]. unfold utf8_encode in He. by destruct (existsb is_surrogate text). }
    rewrite utf8_encode_scalar in He by done. injection He as <-.
    assert (Hk : bytes_ok (utf8_encode_replace text)) by by apply utf8_bytes_ok.
    by apply (utf8_decode_inverse _ text). }
  unfold detectfileformatsample. rewrite Hp.
  assert (No : forall p, (forall r, utf8_prefix (p ++ r) = false) -> starts_with p (ztake k body) = false).
  { intros p Hf. destruct (starts_with p _) eqn:E; [|done]. apply starts_with_app in E as [r Hr]. rewrite Hr, Hf in Hp. done. }
  rewrite (No BOM_UTF32_LE), (No BOM_UTF32_BE), (No BOM_UTF16_LE), (No BOM_UTF16_BE) by done. destruct (starts_with BOM_UTF8 _) eqn:E; [|done]. exfalso.
  apply starts_with_take in E as [r Hr]. rewrite Hr in Hb. apply all_some_cons in Hb as (s & -> & _). by apply Hn.
Qed.

Lemma detect_utf16_le text k : unicode text -> (text <> [] -> hd 0 text <> 0) ->
  detectfileformatsample (ztake k (BOM_UTF16_LE ++ flat_map (bytes16 false) (flat_map utf16_units text))) =
    (lit "utf-16-le", true, lit "utf-16") \/ k < 4.
Proof.
  intros Hu H. destruct (decide (k < 4)); [by right|left]. destruct text as [|c text].
  { unfold ztake. rewrite take_ge by (cbn; lia). done. }
  specialize (H ltac:(done)). cbn [hd] in H. apply Forall_cons in Hu as [Hc _].
  assert (Hx : exists x y r, flat_map (bytes16 false) (flat_map utf16_units (c :: text)) = x :: y :: r /\ (x <> 0 \/ y <> 0)).
  { cbn [flat_map]. unfold utf16_units at 1. destruct (c <? 65536) eqn:E; cbn [app flat_map]; unfold bytes16 at 1;
      cbn [app]; do 3 eexists; (split; [reflexivity|]); Z.div_mod_to_equations; lia. }
  destruct Hx as (x & y & r & -> & Hxy). change (BOM_UTF16_LE ++ x :: y :: r) with ([255; 254; x; y] ++ r).
  destruct (ztake_front k [255; 254; x; y] r ltac:(unfold zlen; cbn; lia)) as [r' ->].
  assert (H32 : starts_with BOM_UTF32_LE ([255; 254; x; y] ++ r') = false).
  { destruct (starts_with _ _) eqn:E; [|done]. apply starts_with_app in E as [r0 [= -> -> _]]. lia. }
  unfold detectfileformatsample. by rewrite H32.
Qed.

(** Text in Latin-1: no mark, and not UTF-8. *)
Lemma detect_latin1 text k : Forall (fun m => starts_with m text = false) marks -> utf8_prefix (ztake k text) = false ->
  detectfileformatsample (ztake k text) = (lit "latin-1", false, lit "latin-1").
Proof.
  intros Hm Hu. assert (No : Forall (fun m => starts_with m (ztake k text) = false) marks).
  { eapply Forall_impl; [exact Hm|]. cbn. intros m H. destruct (starts_with m (ztake k text)) eqn:E; [|done].
    apply starts_with_take in E as [r Hr]. rewrite Hr in H. rewrite <- H. symmetry. apply starts_with_app. by exists r. }
  unfold marks in No. rewrite !Forall_cons in No. destruct No as (H1 & H2 & H3 & H4 & H5 & _).
  unfold detectfileformatsample. by rewrite H1, H2, H3, H4, H5, Hu.
Qed.

Lemma detect_recognised encoding bom text body : unicode text -> recognised encoding bom text ->
  encode_strict encoding text = Ok body ->
  exists read, detectfileformatsample (ztake 65536 (mark encoding bom ++ body)) = (encoding, bom, read).
Proof.
  intros Hu [[-> ->]|[(-> & -> & Hn)|[(-> & -> & Hn)|[[H ->]|(-> & -> & Hm & Hl)]]]].
  - intros _. eexists. decide_marks. by apply (detect_marked BOM_UTF8).
  - intros He. eexists. decide_marks. by eapply detect_utf8.
  - unfold encode_strict. decide_names. intros [Hs [= <-]]%refused; [|done]. eexists. decide_marks.
    by destruct (detect_utf16_le text 65536 Hu Hn) as [E|E]; [apply E|].
  - intros _. destruct H as [->|[->| ->]]; eexists; decide_marks.
    + by apply (detect_marked BOM_UTF16_BE).
    + by apply (detect_marked BOM_UTF32_LE).
    + by apply (detect_marked BOM_UTF32_BE).
  - unfold encode_strict. decide_names. rewrite andb_false_r. destruct (forallb _ text); [|done]. intros [= <-].
    eexists. decide_marks. by apply detect_latin1.
Qed.

(** A document that is saved and loaded again comes back line by line, with
    its encoding, its byte order mark and its line end (a document of one line has
    none to be found), if its format can be recognised. *)
Theorem saved_is_loaded lines encoding bom newline b :
  lines <> [] -> Forall clean lines -> Forall unicode lines -> newline ∈ newlines ->
  recognised encoding bom (join_with newline lines) ->
  snapshot_bytes lines encoding bom newline = Ok b ->
  parse_payload (ztake 65536 b) b = Ok (loaded encoding bom (if decide (1 < zlen lines) then newline else [NL]) lines).
Proof.
  intros Hne Hc Hu Hn Hr Hb. pose proof (join_unicode newline lines Hn Hu) as Hj.
  assert (Hf : exists read, (encoding, bom, read) ∈ formats) by by apply recognised_format in Hr.
  destruct Hf as [read0 Hf0]. apply (snapshot_text _ _ _ read0) in Hb as (body & -> & He); [|done..].
  destruct (detect_recognised _ _ _ _ Hj Hr He) as [read Hd]. destruct (detect_formats _ _ _ _ Hd) as [Hf _].
  unfold parse_payload. rewrite Hd, (decode_encoded _ _ _ _ _ Hf Hj He). cbn [mbind res_bind].
  destruct (join_lines newline lines Hn Hne Hc) as (H1 & H2 & H3).
  destruct (text_lines (join_with newline lines)) as [ls nl] eqn:El. cbn [fst] in H1. subst ls.
  assert (nl = if decide (1 < zlen lines) then newline else [NL]) as ->; [|done].
  change nl with (lines, nl).2. rewrite <- El. unfold text_lines. cbn [snd]. fold (parts (join_with newline lines)).
  fold (endings (join_with newline lines)). rewrite (payload_newline_uniform newline) by done. unfold zlen.
  destruct (decide (newline ∈ _)) as [Hi|Hi], (decide (1 < _)) as [Hl|Hl]; try done; exfalso; rewrite H3 in Hi; lia.
Qed.

(** C23: a file that is loaded, and whose line ends are all the same, is written
    byte for byte as it was when the document is saved unchanged. *)
Theorem loaded_is_saved b k lines m encoding bom newline :
  bytes_ok b -> parse_payload (ztake k b) b = Ok (lines, m) -> m_format m = Some (encoding, bom, newline) ->
  (forall text, decode_strict (detectfileformatsample (ztake k b)).2 b = Ok text -> uniform newline text) ->
  snapshot_bytes lines encoding bom newline = Ok b.
Proof.
  intros Hb Hp Hm Hu. unfold parse_payload in Hp. destruct (detectfileformatsample (ztake k b)) as [[e bm] read] eqn:Hd.
  destruct (detect_formats _ _ _ _ Hd) as [Hf Hs]. apply bind_Ok in Hp as (text & Ht & Hp). cbn [snd] in Hu.
  specialize (Hu text Ht). destruct (text_lines text) as [ls nl] eqn:El. injection Hp as <- <-. cbn in Hm.
  injection Hm as -> -> ->. apply starts_with_take in Hs as [body ->].
  assert (Hb' : bytes_ok body) by (unfold bytes_ok in *; rewrite Forall_app in Hb; tauto).
  destruct (encode_decoded _ _ _ _ _ Hf Hb' Ht) as [_ He].
  pose proof (text_lines_good text) as [Hg _]. pose proof (text_lines_join newline text Hu) as Hj. rewrite El in Hg, Hj.
  cbn [fst] in Hg, Hj. apply (snapshot_text _ _ _ read); [done| |done|exists body; by rewrite Hj].
  change newline with (ls, newline).2. rewrite <- El. apply payload_newline_known, endings_known.
Qed.
