(* ===== verification/WriteDiskSpec.v ===== *)
(** Saving is all or nothing and what was saved is loaded, in every environment. *)

From stdpp Require Import base option list gmap.
From Stdlib Require Import ZArith Lia Bool String.
From S2P Require Import Prelude PyText PyVal PyJson PyStr PyFs PyPath PyB64 PyFsFacts BrokerReadSpec BrokerWriteSpec.
From S2P Require Import WriteState WriteFormat WriteDisk WriteEditSpec WriteFormatSpec.
Open Scope Z_scope.

Implicit Types lines : list pystr.

(** ** Reading changes nothing *)

Section Still.
Context {OS : Os}.

Lemma still_open_file comps : pres same_nodes (os_open_file comps).
Proof.
  apply still_syscall. intros x w. destruct comps as [|c cs]; [done|]. destruct (split_path _) as [parent name].
  destruct (reach w root_ino parent) as [d|]; [|done]. apply still_entry; [|done]. intros i n. by destruct (i_kind n).
Qed.

Lemma still_open_folder comps : pres same_nodes (os_open_folder comps).
Proof. apply still_syscall. intros x w. by destruct (reach w root_ino comps). Qed.
#[local] Hint Resolve still_open_file still_open_folder : still.

Lemma read_blocks_still fuel fd off remaining : pres same_nodes (read_blocks fuel fd off remaining).
Proof. revert off remaining. induction fuel as [|fuel IH]; intros off remaining; simpl; still. Qed.
#[local] Hint Resolve read_blocks_still : still.

Lemma getusername_still : pres same_nodes getusername.
Proof. unfold getusername, raises_runtime. still. Qed.
#[local] Hint Resolve getusername_still : still.

Lemma usersavepath_still raw : pres same_nodes (usersavepath raw).
Proof. unfold usersavepath. still. Qed.

Lemma validateuserdirectory_still fd : pres same_nodes (validateduserdirectory fd).
Proof. unfold validateduserdirectory. still. Qed.

Lemma validateusersavetarget_still fd name : pres same_nodes (validateusersavetarget fd name).
Proof. unfold validateusersavetarget. still. Qed.
#[local] Hint Resolve usersavepath_still validateuserdirectory_still validateusersavetarget_still : still.

(** One step towards the directory of the last part. *)
Definition open_part (d : ino) (component : pystr) : IO ino :=
  on_error
    (child ← os_open_dir d component;
     on_error (validateduserdirectory child) (os_close child) ;;
     mret child)
    (os_close d).

Lemma open_parts_cons d c c' parts :
  open_parts d (c :: c' :: parts) = (child ← open_part d c; os_close d ;; open_parts child (c' :: parts)).
Proof. reflexivity. Qed.

Lemma open_part_still d c : pres same_nodes (open_part d c).
Proof. unfold open_part. still. Qed.
#[local] Hint Resolve open_part_still : still.

Lemma open_parts_still d parts : pres same_nodes (open_parts d parts).
Proof.
  revert d. induction parts as [|c parts IH]; intros d; [by apply io_pres_ret; typeclasses eauto|].
  destruct parts as [|c' parts]; [by apply io_pres_ret; typeclasses eauto|]. rewrite open_parts_cons. still.
Qed.
#[local] Hint Resolve open_parts_still : still.

Lemma openusersaveparent_still raw : pres same_nodes (openusersaveparent raw).
Proof. unfold openusersaveparent. still. Qed.

Lemma readfilepayload_still path : pres same_nodes (readfilepayload path).
Proof. unfold readfilepayload. still. Qed.

End Still.
#[export] Hint Resolve still_open_file still_open_folder read_blocks_still getusername_still usersavepath_still
  validateuserdirectory_still validateusersavetarget_still open_parts_still openusersaveparent_still : still.

(** ** Where a path leads *)

Lemma reach_app w d a b : reach w d (a ++ b) = (e ← reach w d a; reach w e b).
Proof.
  revert d. induction a as [|c a IH]; intros d; [done|]. cbn. destruct (child w d c) as [i|]; [|done]. cbn.
  destruct (w_nodes w !! i) as [n|]; [|done]. cbn. destruct (isdir n); [apply IH|done].
Qed.

Lemma below_app root path parts : below root path = Some parts -> path = root ++ parts.
Proof.
  revert path. induction root as [|r root IH]; intros path; [by intros [= ->]|]. destruct path as [|p path]; [done|].
  cbn. destruct (str_eqb r p) eqn:E; [|done]. apply str_eqb_eq in E as ->. intros H%IH. by rewrite H.
Qed.

Section Reach.
Context {OS : Os}.

Lemma os_open_folder_Ok comps w d w' : os_open_folder comps w = (Ok d, w') ->
  same_nodes w w' /\ reach w root_ino comps = Some d.
Proof.
  intros H. split; [eapply io_pres_run; [apply still_open_folder|exact H]|].
  apply syscall_Ok in H as (f & _ & H). rewrite (reach_nodes w) in H by done.
  destruct (reach w root_ino comps); [|done]. unfold PyFs.opened in H. congruence.
Qed.

Lemma open_part_Ok d c w i w' : open_part d c w = (Ok i, w') -> same_nodes w w' /\ reach w d [c] = Some i.
Proof.
  intros H. split; [eapply io_pres_run; [apply open_part_still|exact H]|]. unfold open_part in H. repeat io_step H. subst.
  apply os_open_dir_Ok in H0 as (_ & Hc & n & Hn & Hd). cbn. rewrite Hc. cbn. rewrite Hn. cbn. by rewrite Hd.
Qed.

Lemma open_parts_Ok parts : forall d w e w', open_parts d parts w = (Ok e, w') ->
  same_nodes w w' /\ reach w d (removelast parts) = Some e.
Proof.
  induction parts as [|c parts IH]; intros d w e w' H; [by apply ret_Ok in H as [-> ->]|].
  destruct parts as [|c' parts]; [by apply ret_Ok in H as [-> ->]|]. rewrite open_parts_cons in H.
  io_step H. io_step H. apply open_part_Ok in H0 as [S1 R1]. pose proof (io_pres_run _ _ _ _ _ (still_close _) H1) as S2.
  apply IH in H as [S3 R3]. split; [by unfold same_nodes in *; congruence|].
  change (removelast (c :: c' :: parts)) with ([c] ++ removelast (c' :: parts)). rewrite reach_app, R1. cbn.
  rewrite <- R3. symmetry. apply reach_nodes. unfold same_nodes in *. congruence.
Qed.

(** The parent directory of a path the user may save to. *)
Lemma openusersaveparent_Ok raw w p d name w' : openusersaveparent raw w = (Ok (p, d, name), w') ->
  same_nodes w w' /\ p = normpath raw /\ path_text raw = true /\
  exists parent, path_comps raw = parent ++ [name] /\ reach w root_ino parent = Some d /\ parent <> [].
Proof.
  intros H. split; [eapply io_pres_run; [apply openusersaveparent_still|exact H]|]. unfold openusersaveparent in H.
  io_step H. destruct a as [[path root] parts]. pose proof (io_pres_run _ _ _ _ _ (usersavepath_still _) H0) as S1.
  unfold usersavepath in H0. io_step H0. io_step H1. io_step H0. cbv zeta in H0.
  destruct (below _ (path_comps raw)) as [[|q qs]|] eqn:Eb; [done| |done]. apply ret_Ok in H0 as [[= -> -> ->] ->].
  apply below_app in Eb. io_step H. io_step H. io_step H. apply ret_Ok in H as [[= -> -> ->] ->].
  apply os_open_folder_Ok in H0 as [S2 R2]. pose proof (io_pres_run _ _ _ _ _ (validateuserdirectory_still _) (on_error_Ok _ _ _ _ _ H2)) as S3.
  apply open_parts_Ok in H3 as [S4 R4]. unfold same_nodes in *. split_and!; [done|done|].
  exists ([lit "master"; a0] ++ removelast (q :: qs)). split_and!; [|..|done].
  - rewrite Eb, <- app_assoc. f_equal. exact (app_removelast_last (l := q :: qs) [] ltac:(done)).
  - rewrite reach_app, <- (reach_nodes w w1), R2 by done. cbn [mbind option_bind].
    rewrite <- R4. symmetry. apply reach_nodes. congruence.
Qed.

(** ** The save *)

Section Phases.
Context (w0 : world) (d : ino) (x t : pystr) (data : bytes) (mode : Z).
Hypothesis x_not_t : x <> t.
Hypothesis d_is_dir : exists es, entries w0 d = Some es.

Lemma flush_phase fuel i c v : (List.length v <= fuel)%nat ->
  hoare (fun w => base w0 d x t w /\ old w0 d x w /\ temp w0 d t i c mode w) (flush fuel i v)
    (fun _ w => base w0 d x t w /\ old w0 d x w /\ temp w0 d t i (c ++ v) mode w)
    (fun _ w => base w0 d x t w /\ old w0 d x w).
Proof.
  revert c v. induction fuel as [|fuel IH]; intros c v Hf.
  - destruct v; [|cbn in Hf; lia]. apply io_hoare_ret. by rewrite app_nil_r.
  - destruct v as [|b v]; cbn [flush]; [apply io_hoare_ret; by rewrite app_nil_r|].
    eapply io_hoare_bind.
    { apply (os_write_least_phase w0 d x t mode d_is_dir 1 i c (b :: v)); [rewrite zlen_cons; pose proof (zlen_nonneg v); lia|done]. }
    intros k w (Hb & Ho & Hk & Ht).
    specialize (IH (c ++ ztake k (b :: v)) (zdrop k (b :: v))). rewrite <- app_assoc, ztake_zdrop in IH.
    apply IH; [|done]. unfold zdrop. rewrite length_drop. cbn in *. lia.
Qed.

(** The temporary file is filled and closed. *)
Lemma fill_temporary_phase lines encoding bom newline fd :
  snapshot_bytes lines encoding bom newline = Ok data \/ is_ok (snapshot_bytes lines encoding bom newline) = false ->
  hoare (fun w => base w0 d x t w /\ old w0 d x w /\ temp w0 d t fd [] mode w)
    (fill_temporary fd lines encoding bom newline)
    (fun _ w => snapshot_bytes lines encoding bom newline = Ok data /\ held w0 d x t data mode fd w)
    (fun _ w => base w0 d x t w /\ old w0 d x w).
Proof.
  intros Hdata. set (P := fun w => base w0 d x t w /\ old w0 d x w /\ temp w0 d t fd [] mode w).
  assert (Weak : forall e : exn, forall w, P w -> base w0 d x t w /\ old w0 d x w) by (intros e w (? & ? & _); done).
  apply io_hoare_finally with
    (Q := fun _ w => snapshot_bytes lines encoding bom newline = Ok data /\ held w0 d x t data mode fd w)
    (E := fun _ w => base w0 d x t w /\ old w0 d x w).
  - eapply (io_hoare_bind P _ _ (fun _ => P)).
    { eapply io_hoare_conseq; [apply (phase_still P)|done|done|exact Weak]; [|apply still_fstat].
      intros w w' E (Hb & Ho & Ht). split_and!; [by eapply base_nodes|by eapply old_nodes|by eapply temp_nodes]. }
    intros metadata. eapply (io_hoare_bind P _ _ (fun _ => P)); [by intros w Hw|].
    intros links. eapply (io_hoare_bind P _ _ (fun _ => P)).
    { destruct (_ && _); [by apply io_hoare_ret|]. by apply io_hoare_raise, (Weak PermissionError). }
    intros u. unfold writefilesnapshotstream. destruct Hdata as [Hd|Hd].
    2: { destruct (snapshot_bytes _ _ _ _) as [|e]; [done|]. apply (io_hoare_raise P e). exact (Weak e). }
    rewrite Hd. apply (io_hoare_bind P (lift (Ok data)) _ (fun v w => v = data /\ P w)); [by intros w Hw|].
    intros v. apply (io_hoare_bind _ _ _ (fun _ => held w0 d x t data mode fd)).
    { intros w [-> Hw]. exact (flush_phase (List.length data) fd [] data (Nat.le_refl _) w Hw). }
    intros u2. eapply io_hoare_conseq; [apply (still_held w0 d x t data mode fd), still_fsync|done|done|].
    intros e w (Hb & Ho & _). done.
  - intros u w [Hd Hh]. pose proof (still_held w0 d x t data mode fd (os_close fd) (still_close fd) w Hh) as H.
    destruct (os_close fd w) as [[[]|e] w']; [done|]. by destruct H as (? & ? & _).
  - intros e. apply still_unset, still_close.
Qed.

(** Filling the temporary file and giving it the name; when that fails it is
    removed. *)
Lemma replace_phase lines encoding bom newline fd :
  snapshot_bytes lines encoding bom newline = Ok data \/ is_ok (snapshot_bytes lines encoding bom newline) = false ->
  hoare (fun w => base w0 d x t w /\ old w0 d x w /\ temp w0 d t fd [] mode w)
    (on_error
       (fill_temporary fd lines encoding bom newline ;; validateusersavetarget d x ;; os_rename d t x)
       (tolerate_oserror (os_unlink d t)))
    (fun _ w => snapshot_bytes lines encoding bom newline = Ok data /\ base w0 d x t w /\ new w0 d x data mode w)
    (fun _ w => base w0 d x t w /\ old w0 d x w).
Proof.
  intros Hdata. unfold on_error.
  apply io_hoare_try with (E := fun _ w => base w0 d x t w /\ old w0 d x w).
  - eapply io_hoare_bind; [by apply fill_temporary_phase|]. intros u.
    set (P := fun w => snapshot_bytes lines encoding bom newline = Ok data /\ held w0 d x t data mode fd w).
    apply (io_hoare_bind P _ _ (fun _ => P)).
    + intros w [Hd Hh]. pose proof (still_held w0 d x t data mode fd _ (validateusersavetarget_still d x) w Hh) as H.
      destruct (validateusersavetarget d x w) as [[[]|e] w']; [done|]. by destruct H as (? & ? & _).
    + intros u2 w [Hd Hh]. pose proof (rename_phase w0 d x t data mode x_not_t fd w Hh) as H.
      by destruct (os_rename d t x w) as [[[]|e] w'].
  - intros e. apply (io_hoare_bind _ _ _ (fun _ w => base w0 d x t w /\ old w0 d x w)); [|intros u; by apply io_hoare_raise].
    unfold tolerate_oserror. apply io_hoare_try with (E := fun _ w => base w0 d x t w /\ old w0 d x w).
    + apply (os_unlink_phase w0 d x t x_not_t (old w0 d x)), about_old.
    + intros e'. destruct (is_oserror e'); [by apply io_hoare_ret|by apply io_hoare_raise].
Qed.

End Phases.

(** The entry [x] of [d] is a regular file with the content. *)
Definition holds (w : world) (d : ino) (x : pystr) (data : bytes) : Prop :=
  exists i n, child w d x = Some i /\ w_nodes w !! i = Some n /\ i_kind n = KFile data.

Lemma new_holds w0 d x data mode w : new w0 d x data mode w -> holds w d x data.
Proof. intros (i & Hi & _ & n & Hn & Hk & _). by exists i, n. Qed.

(** What a save leaves behind when it is done and when it raised. *)
Definition saved (w0 : world) (d : ino) (x t : pystr) (contents : res bytes) (w : world) : Prop :=
  base w0 d x t w /\ exists data, contents = Ok data /\ holds w d x data.
Definition saved_or_not (w0 : world) (d : ino) (x t : pystr) (contents : res bytes) (w : world) : Prop :=
  base w0 d x t w /\ (old w0 d x w \/ exists data, contents = Ok data /\ holds w d x data).

Lemma saved_nodes w0 d x t contents w w' : w_nodes w' = w_nodes w -> saved w0 d x t contents w -> saved w0 d x t contents w'.
Proof.
  intros E (Hb & data & Hd & i & n & Hi & Hn & Hk). split; [by eapply base_nodes|]. exists data. split; [done|].
  exists i, n. rewrite E, (child_nodes w w') by done. done.
Qed.

Lemma saved_or_not_nodes w0 d x t contents w w' : w_nodes w' = w_nodes w ->
  saved_or_not w0 d x t contents w -> saved_or_not w0 d x t contents w'.
Proof.
  intros E [Hb [Ho|Hn]].
  - split; [by eapply base_nodes|left; by eapply old_nodes].
  - destruct (saved_nodes w0 d x t contents w w' E (conj Hb Hn)) as [Hb' Hn']. split; [done|by right].
Qed.

Lemma save_phase w0 d x t lines encoding bom newline (canonical : pystr) : x <> t -> (exists es, entries w0 d = Some es) ->
  let contents := snapshot_bytes lines encoding bom newline in
  hoare (fun w => w_nodes w = w_nodes w0)
    (finally
       (validateusersavetarget d x ;;
        descriptor ← os_open_excl d t 384;
        on_error
          (fill_temporary descriptor lines encoding bom newline ;; validateusersavetarget d x ;; os_rename d t x)
          (tolerate_oserror (os_unlink d t)) ;;
        os_fsync d ;;
        mret canonical)
       (os_close d))
    (fun c w => c = canonical /\ saved w0 d x t contents w) (fun _ w => saved_or_not w0 d x t contents w).
Proof.
  intros Hne Hd contents.
  assert (Start : forall w, w_nodes w = w_nodes w0 -> saved_or_not w0 d x t contents w).
  { intros w E. destruct (start_settled w0 d x t Hd w E) as [Hb Ho]. split; [done|by left]. }
  assert (Some_new : forall w, saved w0 d x t contents w -> saved_or_not w0 d x t contents w).
  { intros w [Hb Hn]. split; [done|by right]. }
  apply io_hoare_finally with (Q := fun c w => c = canonical /\ saved w0 d x t contents w)
    (E := fun _ w => saved_or_not w0 d x t contents w).
  - apply (io_hoare_bind _ _ _ (fun _ w => w_nodes w = w_nodes w0)).
    { intros w E. pose proof (validateusersavetarget_still d x w) as S. unfold same_nodes in S.
      destruct (validateusersavetarget d x w) as [[[]|e] w']; cbn in S; [congruence|]. apply Start. congruence. }
    intros u. eapply io_hoare_bind.
    { eapply io_hoare_conseq; [apply (open_excl_phase w0 d x t Hne Hd 384)|done|intros fd w H; exact H|].
      intros e w [Hb Ho]. split; [done|by left]. }
    intros fd. apply (io_hoare_bind _ _ _ (fun _ => saved w0 d x t contents)).
    { set (data := match contents with Ok b => b | Exc _ => [] end).
      assert (Hdata : contents = Ok data \/ is_ok contents = false) by (unfold data; destruct contents; [by left|by right]).
      intros w (Hb & Ho & m & Ht).
      pose proof (replace_phase w0 d x t data m Hne Hd _ _ _ _ fd Hdata w (conj Hb (conj Ho Ht))) as H.
      destruct (on_error _ _ w) as [[[]|e] w']; destruct H as [H1 H2].
      - destruct H2 as [H2 H3]. split; [done|]. exists data. split; [done|by eapply new_holds].
      - split; [done|by left]. }
    intros u2. apply (io_hoare_bind _ _ _ (fun _ => saved w0 d x t contents)).
    { intros w Hs. pose proof (still_fsync d w) as S. destruct (os_fsync d w) as [[[]|e] w']; [by eapply saved_nodes|].
      by eapply Some_new, saved_nodes. }
    intros u3. apply io_hoare_ret. done.
  - intros c w [-> Hs]. pose proof (still_close d w) as S. destruct (os_close d w) as [[[]|e] w'].
    + split; [done|by eapply saved_nodes].
    + by eapply Some_new, saved_nodes.
  - intros e w Hs. pose proof (still_close d w) as S. destruct (os_close d w) as [[[]|e'] w']; by eapply saved_or_not_nodes.
Qed.

(** No entry of a directory leads nowhere. *)
Definition linked (w : world) : Prop := forall d x i, child w d x = Some i -> exists n, w_nodes w !! i = Some n.

Definition own_temporary (x : pystr) : bool := starts_with (lit ".write-") x.

Lemma temporary_own token : own_temporary (temporary_save token) = true.
Proof. apply starts_with_app. by eexists. Qed.

Lemma has_file_at w parent name d data : reach w root_ino parent = Some d ->
  has_file w (parent ++ [name]) data <-> holds w d name data.
Proof.
  intros Hr. unfold has_file, file_at. rewrite split_path_snoc. cbn [fst snd]. rewrite Hr. cbn [mbind option_bind]. split.
  - intros (n & Hn & Hk). destruct (child w d name) as [i|] eqn:Hc; [|done]. by exists i, n.
  - intros (i & n & Hc & Hn & Hk). exists n. by rewrite Hc.
Qed.

Lemma has_file_nodes w w' path data : w_nodes w' = w_nodes w -> has_file w path data -> has_file w' path data.
Proof.
  intros E (n & Hn & Hk). exists n. split; [|done]. unfold file_at in *. rewrite (reach_nodes w) by done.
  destruct (reach w root_ino _); [|done]. cbn in *. rewrite (child_nodes w) by done. by rewrite E.
Qed.

Section Save.
Context (path : pystr) lines (encoding : pystr) (bom : bool) (newline : pystr) (w : world).
Let contents := snapshot_bytes lines encoding bom newline.

(** How a save went: nothing changed, or what [save_phase] says. *)
Lemma save_run r w' : writeuserfilesnapshot path lines encoding bom newline w = (r, w') ->
  is_ok r = false /\ same_nodes w w' \/
  exists d parent name w1 t, path_text path = true /\ path_comps path = parent ++ [name] /\ reach w root_ino parent = Some d /\ parent <> [] /\
    w_nodes w1 = w_nodes w /\ own_temporary t = true /\
    (own_temporary name = false -> match r with
     | Ok p => p = normpath path /\ saved w1 d name t contents w'
     | Exc _ => saved_or_not w1 d name t contents w'
     end).
Proof.
  unfold writeuserfilesnapshot. intros H. apply io_bind_inv in H as [([[canonical d] name] & w1 & Eo & H)|(e & Eo & ->)].
  2: { left. split; [done|]. eapply io_pres_run; [apply openusersaveparent_still|exact Eo]. }
  apply openusersaveparent_Ok in Eo as (S1 & -> & Hpt & parent & Hp & Hr & Hne). right.
  apply io_bind_inv in H as [(token & w2 & Et & H)|(e & Et & ->)]; [|done].
  injection Et as <- <-. cbv zeta in H. set (t := temporary_save _) in H.
  exists d, parent, name, (step_tick w1), t. split_and!; [done..|by apply temporary_own|]. intros Hn.
  assert (Hd : exists es, entries (step_tick w1) d = Some es).
  { destruct parent as [|c parent _] using rev_ind; [done|]. apply reach_dir in Hr as (n & Hn1 & Hd).
    unfold isdir in Hd. destruct (i_kind n) as [|es| |] eqn:Ek; try done. exists es. apply entries_node.
    exists n. cbn. by rewrite S1. }
  assert (Hxt : name <> t) by (intros ->; unfold t in Hn; by rewrite temporary_own in Hn).
  pose proof (save_phase (step_tick w1) d name t lines encoding bom newline (normpath path) Hxt Hd (step_tick w1) eq_refl) as Hs.
  rewrite H in Hs. exact Hs.
Qed.

End Save.

(** A save leaves the old file or the new one. *)
Lemma save_whole path lines encoding bom newline w r w' :
  linked w -> own_temporary (split_path (path_comps path)).2 = false ->
  writeuserfilesnapshot path lines encoding bom newline w = (r, w') ->
  let contents := snapshot_bytes lines encoding bom newline in
  (forall p, r = Ok p -> p = normpath path /\ exists data, contents = Ok data /\ has_file w' (path_comps path) data) /\
  (forall data, has_file w (path_comps path) data ->
     exists data', has_file w' (path_comps path) data' /\ (data' = data \/ contents = Ok data')) /\
  (forall data', has_file w' (path_comps path) data' -> has_file w (path_comps path) data' \/ contents = Ok data') /\
  keeps (fun y => y = (split_path (path_comps path)).2 \/ own_temporary y = true) w w'.
Proof.
  intros Hl Hn H contents. apply save_run in H as [[Hok S]|(d & parent & name & w1 & t & _ & Hp & Hr & Hne & E1 & Ht & H)].
  { split_and!.
    - intros p ->. done.
    - intros data Hd. exists data. split; [by eapply has_file_nodes|by left].
    - intros data Hd. left. by eapply has_file_nodes.
    - by apply same_keeps. }
  rewrite Hp, split_path_snoc in *. cbn [snd] in *. specialize (H Hn). fold contents in H.
  assert (Hb : base w1 d name t w') by (destruct r; [by destruct H as [_ [Hb _]]|by destruct H as [Hb _]]).
  assert (Hs : saved_or_not w1 d name t contents w').
  { destruct r; [|done]. destruct H as [_ [_ Hs]]. split; [done|by right]. }
  assert (Hk : keeps (fun y => y = name \/ own_temporary y = true) w w').
  { transitivity w1; [by apply keeps_same_nodes|]. eapply base_keeps; [exact Hb|by left|by right]. }
  pose proof (reach_keeps _ _ _ _ _ _ Hk Hr) as Hr'.
  assert (Hdir : exists n, w_nodes w' !! d = Some n /\ isdir n = true).
  { destruct (b_dir _ _ _ _ _ Hb) as (n0 & n & _ & Hn' & _ & Hd & _). by exists n. }
  split_and!; [| | |done].
  - intros p ->. destruct H as [-> [_ (data & Hc & Hh)]]. split; [done|]. exists data. split; [done|].
    by apply (has_file_at w' parent name d data Hr').
  - intros data Hf. apply (has_file_at w parent name d data Hr) in Hf as (i & n & Hc & Hi & Hkd).
    destruct Hs as [_ [Ho|(data' & Hc' & Hh)]].
    + exists data. split; [|by left]. apply (has_file_at w' parent name d data Hr'). exists i, n.
      unfold old in Ho. rewrite Ho, (child_nodes w w1), <- Hc by done. split_and!; [done| |done].
      apply (b_nodes _ _ _ _ _ Hb); [|by rewrite E1]. intros ->.
      destruct parent as [|c parent _] using rev_ind; [done|]. apply reach_dir in Hr as (n1 & Hn1 & Hd1).
      rewrite Hi in Hn1. injection Hn1 as <-. unfold isdir in Hd1. by rewrite Hkd in Hd1.
    + exists data'. split; [by apply (has_file_at w' parent name d data' Hr')|by right].
  - intros data Hf. apply (has_file_at w' parent name d data Hr') in Hf as (i & n & Hc & Hi & Hkd).
    destruct Hs as [_ [Ho|(data' & Hc' & j & m & Hj & Hm & Hkm)]].
    + left. apply (has_file_at w parent name d data Hr). unfold old in Ho. rewrite Hc in Ho.
      rewrite (child_nodes w w1) in Ho by done. destruct (Hl _ _ _ (eq_sym Ho)) as [n0 Hn0]. exists i, n0. split_and!; [done|done|].
      destruct (decide (i = d)) as [->|Hid].
      * destruct Hdir as (n1 & Hn1 & Hd1). unfold isdir in Hd1. rewrite Hi in Hn1. injection Hn1 as <-. by rewrite Hkd in Hd1.
      * rewrite <- E1 in Hn0. pose proof (b_nodes _ _ _ _ _ Hb i n0 Hid Hn0) as Hn2. congruence.
    + right. rewrite Hc in Hj. injection Hj as <-. rewrite Hi in Hm. injection Hm as <-. congruence.
Qed.

(** C11: saving is all or nothing, whichever call fails: the path then holds what
    it held or the complete new text, after success the latter; and no other file
    is touched but those under the names of the editor's temporary files. *)
Theorem save_all_or_nothing path lines encoding bom newline w r w' :
  linked w -> own_temporary (split_path (path_comps path)).2 = false ->
  writeuserfilesnapshot path lines encoding bom newline w = (r, w') ->
  let contents := snapshot_bytes lines encoding bom newline in
  (forall p, r = Ok p -> p = normpath path /\ exists data, contents = Ok data /\ has_file w' (path_comps path) data) /\
  (forall data, has_file w (path_comps path) data ->
     exists data', has_file w' (path_comps path) data' /\ (data' = data \/ contents = Ok data')) /\
  (forall data', has_file w' (path_comps path) data' -> has_file w (path_comps path) data' \/ contents = Ok data') /\
  keeps (fun y => y = (split_path (path_comps path)).2 \/ own_temporary y = true) w w'.
Proof. apply save_whole. Qed.

End Reach.

(** ** Paths in normal form *)

Definition plain_comp (c : pystr) : Prop := lacks 47 c /\ c <> [] /\ c <> lit "." /\ c <> lit "..".

Lemma norm_comps_plain cs : forall acc, Forall (lacks 47) cs -> Forall plain_comp acc -> Forall plain_comp (norm_comps acc cs).
Proof.
  induction cs as [|c cs IH]; intros acc Hc Ha; cbn [norm_comps]; [by apply Forall_rev|].
  apply Forall_cons in Hc as [Hc Hcs]. destruct (str_eqb c []) eqn:E1; cbn [orb]; [by apply IH|].
  destruct (str_eqb c (lit ".")) eqn:E2; [by apply IH|]. destruct (str_eqb c (lit "..")) eqn:E3.
  - apply IH; [done|]. destruct acc; [done|]. by apply Forall_cons in Ha as [_ Ha].
  - apply IH; [done|]. constructor; [|done]. split_and!; [done|..]; intros ->; by rewrite str_eqb_refl in *.
Qed.

Lemma path_comps_plain path : Forall plain_comp (path_comps path).
Proof. apply norm_comps_plain; [apply split_on_words|constructor]. Qed.

Lemma str_eqb_ne a b : a <> b -> str_eqb a b = false.
Proof. intros H. unfold str_eqb. by apply bool_decide_eq_false_2. Qed.

Lemma norm_comps_id cs : forall acc, Forall plain_comp cs -> norm_comps acc cs = rev acc ++ cs.
Proof.
  induction cs as [|c cs IH]; intros acc H; cbn [norm_comps]; [by rewrite app_nil_r|].
  apply Forall_cons in H as [(H1 & H2 & H3 & H4) H]. rewrite !str_eqb_ne by done. cbn [orb].
  rewrite IH by done. cbn [rev]. by rewrite <- app_assoc.
Qed.

Lemma path_comps_slash path : path_comps (47 :: path) = path_comps path.
Proof. reflexivity. Qed.

Lemma path_comps_join cs : Forall plain_comp cs -> path_comps (join_with [47] cs) = cs.
Proof.
  intros H. unfold path_comps. destruct cs as [|c cs]; [done|]. rewrite split_join; [|done|].
  - by apply norm_comps_id.
  - eapply Forall_impl; [exact H|]. by intros x [Hx _].
Qed.

Lemma path_comps_norm path : path_comps (normpath path) = path_comps path.
Proof.
  unfold normpath. pose proof (path_comps_join _ (path_comps_plain path)) as H. destruct (_ && _).
  - change (lit "//" ++ ?s) with (47 :: 47 :: s). by rewrite !path_comps_slash.
  - change (lit "/" ++ ?s) with (47 :: s). by rewrite path_comps_slash.
Qed.

Lemma join_first cs : Forall plain_comp cs -> starts_with [47] (join_with [47] cs) = false.
Proof.
  intros H. destruct (starts_with _ _) eqn:E; [|done]. apply starts_with_app in E as [r Hr].
  destruct cs as [|c cs]; [done|]. apply Forall_cons in H as [(H1 & H2 & _) _]. destruct c as [|x c]; [done|].
  apply Forall_cons in H1 as [Hx _]. destruct cs; [|rewrite join_cons in Hr by done]; by injection Hr as ? _.
Qed.

Lemma normpath_idem path : normpath (normpath path) = normpath path.
Proof.
  unfold normpath at 1. rewrite path_comps_norm. pose proof (join_first _ (path_comps_plain path)) as H.
  unfold normpath. destruct (starts_with (lit "//") path && negb (starts_with (lit "///") path)).
  - change (starts_with (lit "//") (lit "//" ++ ?s)) with true.
    change (starts_with (lit "///") (lit "//" ++ ?s)) with (starts_with [47] s). by rewrite H.
  - change (starts_with (lit "//") (lit "/" ++ ?s)) with (starts_with [47] s). by rewrite H.
Qed.

Lemma norm_comps_in P cs : forall acc, Forall (Forall P) cs -> Forall (Forall P) acc -> Forall (Forall P) (norm_comps acc cs).
Proof.
  induction cs as [|c cs IH]; intros acc Hc Ha; cbn [norm_comps]; [by apply Forall_rev|].
  apply Forall_cons in Hc as [Hc Hcs]. destruct (_ || _); [by apply IH|]. destruct (str_eqb _ _).
  - apply IH; [done|]. destruct acc; [done|]. by apply Forall_cons in Ha as [_ Ha].
  - apply IH; [done|]. by constructor.
Qed.

Lemma join_in (P : Z -> Prop) sep ws : Forall P sep -> Forall (Forall P) ws -> Forall P (join_with sep ws).
Proof.
  intros Hs H. induction H as [|w ws Hw H IH]; [constructor|]. destruct ws; [done|]. rewrite join_cons by done.
  rewrite !Forall_app. done.
Qed.

Lemma has_char_false c s : has_char c s = false <-> Forall (fun x => x <> c) s.
Proof.
  unfold has_char. split.
  - intros H. apply Forall_forall. intros x Hx ->. apply list_elem_of_In in Hx.
    rewrite <- not_true_iff_false, existsb_exists in H. apply H. exists c. by rewrite Z.eqb_refl.
  - intros H. apply not_true_iff_false. intros (x & Hx & E)%existsb_exists. rewrite Forall_forall in H.
    apply Z.eqb_eq in E as <-. apply (H c); [by apply list_elem_of_In|done].
Qed.

Lemma path_text_norm path : path_text path = true -> path_text (normpath path) = true.
Proof.
  unfold path_text. rewrite !andb_true_iff, !negb_true_iff. intros [[_ H] _].
  assert (Hf : forall p, normpath path = 47 :: p -> has_char 0 (normpath path) = false ->
    (str_eqb (normpath path) [] = false /\ has_char 0 (normpath path) = false) /\ starts_with [47] (normpath path) = true).
  { intros p -> Hz. split_and!; [by apply str_eqb_ne|done|done]. }
  assert (Hz : has_char 0 (normpath path) = false).
  { apply has_char_false. apply has_char_false in H. unfold normpath. apply Forall_app. split.
    - destruct (_ && _); cbn; repeat constructor; lia.
    - apply join_in; [by repeat constructor|]. apply norm_comps_in; [by apply split_on_Forall|constructor]. }
  unfold normpath in Hf at 1. destruct (_ && _); by eapply Hf.
Qed.

(** ** Loading *)

Section Load.
Context {OS : Os}.

Lemma read_blocks_Ok fuel i : forall off rem w bs w' nd data,
  0 <= off <= zlen data -> zlen data - off < Z.of_nat fuel -> zlen data - off <= rem ->
  read_blocks fuel i off rem w = (Ok bs, w') -> w_nodes w !! i = Some nd -> i_kind nd = KFile data ->
  bs = zdrop off data.
Proof.
  induction fuel as [|fuel IH]; intros off rem w bs w' nd data Ho Hf Hr H Hi Hk; [lia|].
  cbn [read_blocks] in H. destruct (rem =? 0) eqn:E.
  { apply ret_Ok in H as [-> ->]. symmetry. apply zdrop_all. lia. }
  apply io_bind_Ok in H as (block & w1 & Hread & H).
  pose proof (io_pres_run _ _ _ _ _ (still_read _ _ _) Hread) as Hs. unfold same_nodes in Hs.
  destruct (os_read_Ok i off (Z.min (1024 * 1024) rem) w block w1 nd data ltac:(lia) Hread Hi Hk) as (k & Hkb & Hc).
  assert (Hsl : block = ztake k (zdrop off data)) by (rewrite Hc; unfold zslice; by rewrite Z.add_simpl_l).
  assert (Hlen : zlen block = Z.min k (zlen data - off)) by (rewrite Hsl, zlen_take, zlen_drop by lia; lia).
  destruct block as [|b block].
  - apply ret_Ok in H as [-> ->]. symmetry. apply zdrop_all. rewrite zlen_nil in Hlen. lia.
  - set (ch := b :: block) in *. assert (1 <= zlen ch) by (unfold ch; rewrite zlen_cons; pose proof (zlen_nonneg block); lia).
    apply io_bind_Ok in H as (rest & w2 & Hrest & H). apply ret_Ok in H as [-> ->].
    apply (IH _ _ _ _ _ nd data) in Hrest as ->; [|lia|lia|lia|by rewrite Hs|exact Hk].
    destruct (zslice_clip data off k ltac:(lia) ltac:(lia)) as [Hclip _]. rewrite <- Hc in Hclip.
    unfold zslice in Hclip. rewrite Z.add_simpl_l in Hclip. rewrite Hclip at 1. rewrite <- zdrop_zdrop by lia.
    apply ztake_zdrop.
Qed.

Lemma read_blocks_calm fuel i : forall off rem w nd data,
  calm OS -> w_nodes w !! i = Some nd -> i_kind nd = KFile data ->
  exists bs w', read_blocks fuel i off rem w = (Ok bs, w').
Proof.
  induction fuel as [|fuel IH]; intros off rem w nd data Hc Hi Hk; [by eexists _, _|].
  cbn [read_blocks]. destruct (rem =? 0); [by eexists _, _|].
  assert (Hr : exists b, os_read i off (Z.min (1024 * 1024) rem) w = (Ok b, step_tick w)).
  { unfold os_read. rewrite syscall_calm by done. unfold on_inode. simpl. rewrite Hi, Hk. eauto. }
  destruct Hr as (b & Hr). rewrite (io_bind_run _ _ _ _ _ Hr). destruct b as [|x b]; [by eexists _, _|].
  destruct (IH (off + zlen (x :: b)) (rem - zlen (x :: b)) (step_tick w) nd data Hc Hi Hk) as (bs & w' & E).
  rewrite (io_bind_run _ _ _ _ _ E). by eexists _, _.
Qed.

Lemma os_open_file_Ok comps w i w' : os_open_file comps w = (Ok i, w') ->
  same_nodes w w' /\ (comps = [] \/ exists n, file_at w comps = Some n /\ w_nodes w !! i = Some n).
Proof.
  intros H. split; [eapply io_pres_run; [apply still_open_file|exact H]|].
  apply syscall_Ok in H as (f & _ & H). destruct comps as [|c cs]; [by left|right].
  unfold file_at. destruct (split_path (c :: cs)) as [parent name]. cbn [fst snd].
  rewrite (reach_nodes w) in H by done. destruct (reach w root_ino parent) as [d|]; [|done]. cbn [mbind option_bind].
  unfold at_entry in H. rewrite child_tick in H. destruct (child w d name) as [j|]; [|by destruct (entries _ d)].
  cbn in H |- *. destruct (w_nodes w !! j) as [n|] eqn:Ej; [|done]. exists n.
  destruct (i_kind n); try done; by injection H as <- <-.
Qed.

(** What a load gives is made of the whole content of the file. *)
Lemma load_sound path w p lines m w' : readfilepayload path w = (Ok (p, lines, m), w') ->
  p = normpath path /\ path_text path = true /\
  exists data k, (path_comps path = [] \/ has_file w (path_comps path) data) /\ zlen data <= MAXDOCUMENTBYTES /\
    parse_payload (ztake k data) data = Ok (lines, m).
Proof.
  unfold readfilepayload. intros H. apply io_bind_Ok in H as (p0 & w0 & Hp & H). apply lift_Ok in Hp as [Hp ->].
  unfold userreadpath in Hp. destruct (path_text path) eqn:Ep; [|done]. injection Hp as <-.
  apply io_bind_Ok in H as (i & w1 & Hopen & H). rewrite path_comps_norm in Hopen. apply os_open_file_Ok in Hopen as [S1 Hf].
  apply finally_Ok in H as (u & w2 & H & _). apply io_bind_Ok in H as (n & w3 & Hstat & H).
  pose proof (io_pres_run _ _ _ _ _ (still_fstat _) Hstat) as S2. apply os_fstat_Ok in Hstat.
  apply io_bind_Ok in H as (u1 & w4 & Hg & H). apply guard_io_Ok in Hg as [Hg ->].
  apply andb_true_iff in Hg as [Hreg Hsize]. unfold isreg in Hreg.
  apply io_bind_Ok in H as (sample & w5 & Hsample & H).
  pose proof (io_pres_run _ _ _ _ _ (still_read _ _ _) Hsample) as S3.
  apply io_bind_Ok in H as (payload & w6 & Hread & H). apply io_bind_Ok in H as (u2 & w7 & Hg & H).
  apply guard_io_Ok in Hg as [Hlen ->]. apply io_bind_Ok in H as ([ls m0] & w8 & Hparse & H).
  apply lift_Ok in Hparse as [Hparse ->]. apply ret_Ok in H as [[= -> -> ->] ->]. unfold same_nodes in *.
  destruct (i_kind n) as [data| | |] eqn:Hk; try done.
  assert (Hst : st_size n = zlen data) by (unfold st_size; by rewrite Hk). rewrite Hst in Hsize, Hread.
  destruct (os_read_Ok i 0 65536 w3 sample w5 n data ltac:(lia) Hsample ltac:(by rewrite S2) Hk) as (k & _ & Hs).
  apply (read_blocks_Ok _ _ _ _ _ _ _ n data) in Hread; [|pose proof (zlen_nonneg data); lia..|by rewrite S3, S2|done].
  rewrite zdrop_0 in Hread. subst payload. split_and!; [done|done|]. exists data, k. split_and!; [|lia|].
  - destruct Hf as [Hf|(n' & Hf & Hn')]; [by left|right]. exists n'. split; [done|]. rewrite S1 in Hstat. congruence.
  - unfold zslice in Hs. rewrite zdrop_0, Z.add_simpl_l in Hs. by rewrite <- Hs.
Qed.

(** A file is loaded when no call fails and it can be read. *)
Lemma load_found path w data lines m : calm OS -> path_text path = true -> path_comps path <> [] ->
  has_file w (path_comps path) data -> zlen data <= MAXDOCUMENTBYTES ->
  parse_payload (ztake 65536 data) data = Ok (lines, m) ->
  exists w', readfilepayload path w = (Ok (normpath path, lines, m), w').
Proof.
  intros Hc Hp Hne (n & Hn & Hk) Hl Hparse. unfold readfilepayload, userreadpath. rewrite Hp.
  rewrite (io_bind_run (lift _) _ w (normpath path) w) by done. rewrite path_comps_norm.
  set (w1 := add_open 1 (step_tick w)).
  assert (Hi : exists i, w_nodes w !! i = Some n /\ os_open_file (path_comps path) w = (Ok i, w1)).
  { unfold os_open_file. rewrite syscall_calm by done. unfold file_at in Hn. destruct (path_comps path) as [|c cs]; [done|].
    destruct (split_path (c :: cs)) as [parent name]. cbn [fst snd] in Hn.
    rewrite (reach_nodes w) by done. destruct (reach w root_ino parent) as [d|]; [|done]. cbn in Hn.
    destruct (child w d name) as [i|] eqn:Ec; [|done]. cbn in Hn. exists i. split; [done|]. unfold at_entry.
    rewrite child_tick, Ec. cbn [w_nodes step_tick]. rewrite Hn. by rewrite Hk. }
  destruct Hi as (i & Hi & Hopen). rewrite (io_bind_run _ _ _ _ _ Hopen).
  assert (Hstat : os_fstat i w1 = (Ok n, step_tick w1)).
  { unfold os_fstat. rewrite syscall_calm by done. unfold on_inode. simpl. by rewrite Hi. }
  assert (Hsample : os_read i 0 65536 (step_tick w1) = (Ok (ztake 65536 data), step_tick (step_tick w1))).
  { unfold os_read. rewrite syscall_calm by done. unfold on_inode. simpl. rewrite Hi, Hk. unfold zslice. by rewrite zdrop_0, Z.add_simpl_l. }
  destruct (read_blocks_calm (Z.to_nat (zlen data + 1)) i 0 (MAXDOCUMENTBYTES + 1) (step_tick (step_tick w1)) n data Hc Hi Hk)
    as (bs & w2 & Hread).
  assert (bs = data) as ->.
  { eapply (read_blocks_Ok _ _ _ _ _ _ _ n data) in Hread; [|pose proof (zlen_nonneg data); lia..|done|done].
    by rewrite zdrop_0 in Hread. }
  exists (add_open (-1) w2). unfold finally. rewrite (io_bind_run _ _ _ _ _ Hstat). unfold isreg, st_size. rewrite Hk.
  rewrite (proj2 (Z.leb_le _ _) Hl). rewrite (io_bind_run (guard_io _ _) _ (step_tick w1) tt (step_tick w1)) by done.
  rewrite (io_bind_run _ _ _ _ _ Hsample), (io_bind_run _ _ _ _ _ Hread). rewrite (proj2 (Z.leb_le _ _) Hl).
  rewrite (io_bind_run (guard_io _ _) _ w2 tt w2) by done. rewrite Hparse. done.
Qed.

End Load.

(** C16: a document that was saved without an error, in whatever environment, is
    loaded again line by line with its encoding and byte order mark by any reader
    whose calls do not fail, and with its line end when it has more than one line
    (otherwise with LF), if its encoding can be recognised ([recognised]), the
    file is within the limit of a document and its name is not that of a temporary
    file of the editor. *)
Theorem saved_then_loaded (O1 O2 : Os) path lines encoding bom newline w p w' :
  calm O2 -> lines <> [] -> Forall clean lines -> Forall unicode lines -> newline ∈ newlines ->
  recognised encoding bom (join_with newline lines) ->
  linked w -> own_temporary (split_path (path_comps path)).2 = false ->
  writeuserfilesnapshot (OS := O1) path lines encoding bom newline w = (Ok p, w') ->
  (forall data, snapshot_bytes lines encoding bom newline = Ok data -> zlen data <= MAXDOCUMENTBYTES) ->
  exists w2, readfilepayload (OS := O2) p w' =
    (Ok (p, lines, (loaded encoding bom (if decide (1 < zlen lines) then newline else [NL]) lines).2), w2).
Proof.
  intros Hcalm Hne Hc Hu Hn Hr Hl Hown Hsave Hsize.
  destruct (save_whole _ _ _ _ _ _ _ _ Hl Hown Hsave) as [Hok _].
  destruct (Hok p eq_refl) as [-> (data & Hd & Hf)].
  destruct (save_run _ _ _ _ _ _ _ _ Hsave) as [[? _]|(d & parent & name & w1 & t & Hpt & Hp & _)]; [done|].
  pose proof (load_found (OS := O2) (normpath path) w' data) as L. rewrite normpath_idem in L.
  apply L; [done|by apply path_text_norm| | |by apply Hsize|].
  - rewrite path_comps_norm, Hp. by destruct parent.
  - by rewrite path_comps_norm.
  - by apply (saved_is_loaded lines encoding bom newline).
Qed.
