(* ===== verification/WriteWrapSpec.v ===== *)
(** The word wrap index of the editor: bringing it up to date never fails, and
    when the cache of wrapped lines belongs to the document the index holds the
    rows of every line. *)

From stdpp Require Import base option list gmap sorting.
From Stdlib Require Import ZArith Lia Bool.
From S2P Require Import Prelude PyText PyVal PyStr WriteState WriteText WriteTree WriteWrap WriteEdit WriteEditSpec.
Open Scope Z_scope.

Implicit Types lines : list pystr.

Section WrapSpec.
Context {FT : Font}.

(** ** What the index should hold *)

(** The rows of a line for a font and a width. *)
Definition wrapped (tab : Z) (line : pystr) (size width : Z) (path : pystr) : list seg :=
  line_segments line (measurelineadvances tab line size path) width.

(** The rows of a line in the present layout. *)
Definition rows_for (c : conf) (line : pystr) : list seg :=
  wrapped (TEXTTABWIDTH c) line (FONT_SIZE c) (wraplayoutwidth c) (FONT_PATH c).

(** A cached wrapping is right for the line that has its identity and version;
    identities still to be given out and versions to come are not cached. *)
Definition cache_entry_ok (tab : Z) (d : doc) (e : wrapkey * (list seg * Z)) : Prop :=
  let '((lineid, version, size, width, path), (segs, _)) := e in
  lineid < NEXT_LINE_ID d /\
  forall i line v, DOC_LINES d !! i = Some line -> DOC_LINE_IDS d !! i = Some lineid ->
    DOC_LINE_VERSIONS d !! i = Some v ->
    version <= v /\ (version = v -> segs = wrapped tab line size width path).

Definition cache_ok (c : conf) (d : doc) (w : wrap) : Prop :=
  Forall (cache_entry_ok (TEXTTABWIDTH c) d) (WRAP_LINE_CACHE w).

(** Lines have distinct identities, all given out. *)
Definition ids_ok (d : doc) : Prop :=
  NoDup (DOC_LINE_IDS d) /\ Forall (fun i => i < NEXT_LINE_ID d) (DOC_LINE_IDS d).

(** The entry of one line: its rows and their number, or still to be made. *)
Definition entry_ok (tab size width : Z) (path : pystr) (w : wrap) (todo : list Z) (i : nat) (line : pystr) : Prop :=
  match WRAP_LINE_SEGMENTS w !! i with
  | Some (Some segs) =>
      segs = wrapped tab line size width path /\ WRAP_LINE_COUNTS w !! i = Some (Z.max 1 (zlen segs))
  | Some None => Z.of_nat i ∈ todo
  | None => False
  end.

Definition entries_ok (tab size width : Z) (path : pystr) lines (w : wrap) (todo : list Z) : Prop :=
  forall i line, lines !! i = Some line -> entry_ok tab size width path w todo i line.

(** The index between updates. *)
Definition index_ok (c : conf) lines (w : wrap) : Prop :=
  zlen (WRAP_LINE_COUNTS w) = zlen (WRAP_LINE_SEGMENTS w) /\
  match WRAP_LAYOUT_KEY w with
  | None => True
  | Some (size, width, path) =>
      zlen (WRAP_LINE_SEGMENTS w) = zlen lines ->
      entries_ok (TEXTTABWIDTH c) size width path lines w (elements (WRAP_DIRTY_ROWS w))
  end.

Definition wrap_ok (c : conf) (d : doc) (w : wrap) : Prop :=
  ids_ok d /\ cache_ok c d w /\ index_ok c (DOC_LINES d) w.

(** The index of [n] lines, consistent in itself. *)
Record sized_index (n : Z) (w : wrap) : Prop := {
  si_segments : zlen (WRAP_LINE_SEGMENTS w) = n;
  si_counts : zlen (WRAP_LINE_COUNTS w) = n;
  si_tree : represents (List.map row_height (WRAP_LINE_COUNTS w)) (WRAP_COUNT_TREE w) }.

(** All rows of all lines. *)
Record indexed (c : conf) lines (w : wrap) : Prop := {
  ix_segments : WRAP_LINE_SEGMENTS w = List.map (fun line => Some (rows_for c line)) lines;
  ix_counts : WRAP_LINE_COUNTS w = List.map (fun line => Z.max 1 (zlen (rows_for c line))) lines }.

(** ** The cache *)

Lemma cache_get_In key : forall (l : cache) v, cache_get key l = Some v -> (key, v) ∈ l.
Proof.
  induction l as [|[k x] l IH]; intros v; cbn [cache_get]; [done|].
  destruct (decide (k = key)) as [->|]; [intros [= ->]; by left|]. intros H. right. by apply IH.
Qed.

Lemma cache_del_Forall (P : wrapkey * (list seg * Z) -> Prop) key l : Forall P l -> Forall P (cache_del key l).
Proof. intros H. apply List.Forall_forall. intros x Hx. apply filter_In in Hx as [Hx _]. by apply (proj1 (List.Forall_forall P l) H). Qed.

Lemma cache_trim_Forall (P : wrapkey * (list seg * Z) -> Prop) limit : forall (l : cache) bytes,
  Forall P l -> Forall P (cache_trim l bytes limit).1.
Proof.
  induction l as [|[k [segs size]] l IH]; intros bytes H; cbn [cache_trim]; [constructor|].
  destruct (limit <? bytes); [|done]. apply IH. by inversion H.
Qed.

Lemma wrapcacheput_ok (P : wrapkey * (list seg * Z) -> Prop) key segs line w :
  Forall P (WRAP_LINE_CACHE w) -> (forall n, P (key, (segs, n))) ->
  Forall P (WRAP_LINE_CACHE (wrapcacheput key segs line w)).
Proof.
  intros H HP. unfold wrapcacheput. destruct (cache_trim _ _ _) as [l b] eqn:E.
  change (Forall P l). replace l with (cache_trim (cache_del key (WRAP_LINE_CACHE w) ++
    [(key, (segs, Z.max 64 (zlen line + zlen segs * 24)))]) (match cache_get key (WRAP_LINE_CACHE w) with
               | Some previous => WRAP_LINE_CACHE_BYTES w - previous.2
               | None => WRAP_LINE_CACHE_BYTES w
               end + Z.max 64 (zlen line + zlen segs * 24)) WRAP_LINE_CACHE_LIMIT).1 by by rewrite E.
  apply cache_trim_Forall, Forall_app. split; [by apply cache_del_Forall|]. by apply Forall_singleton.
Qed.

(** The parts of the index that wrapping a line leaves alone. *)
Definition index_same (w w' : wrap) : Prop :=
  WRAP_LINE_SEGMENTS w' = WRAP_LINE_SEGMENTS w /\ WRAP_LINE_COUNTS w' = WRAP_LINE_COUNTS w /\
  WRAP_COUNT_TREE w' = WRAP_COUNT_TREE w /\ WRAP_LAYOUT_KEY w' = WRAP_LAYOUT_KEY w /\
  WRAP_DIRTY_ROWS w' = WRAP_DIRTY_ROWS w.

Definition set_wrap (w : wrap) (s : wst) : wst := on_wrap (fun _ => w) s.

Lemma set_wrap_same s : set_wrap (w_wrap s) s = s.
Proof. by destruct s. Qed.

Lemma wrapline_run row width line s (Q : list seg -> wst -> Prop) :
  docwf (w_doc s) -> 0 <= row -> lines_of s !! Z.to_nat row = Some line ->
  (forall segs w', index_same (w_wrap s) w' ->
     (ids_ok (w_doc s) -> cache_ok (w_conf s) (w_doc s) (w_wrap s) ->
      cache_ok (w_conf s) (w_doc s) w' /\
      segs = wrapped (TEXTTABWIDTH (w_conf s)) line (FONT_SIZE (w_conf s)) width (FONT_PATH (w_conf s))) ->
     Q segs (set_wrap w' s)) ->
  runs (wrapline row width) s Q.
Proof.
  intros Hd Hr Hl HQ. pose proof (lookup_lt_Some _ _ _ Hl) as Hlt. unfold lines_of in *.
  unfold wrapline. run. apply documentmetadataensure_run; [done|]. run.
  replace (Z.max 0 (Z.min (zlen (DOC_LINES (w_doc s)) - 1) row)) with row by (unfold zlen; lia).
  destruct (lookup_zlen (DOC_LINE_IDS (w_doc s)) row) as [i Hi]; [unfold zlen; rewrite (wf_ids _ Hd); lia|].
  destruct (lookup_zlen (DOC_LINE_VERSIONS (w_doc s)) row) as [v Hv]; [unfold zlen; rewrite (wf_versions _ Hd); lia|].
  eapply runs_lift; [by apply pyidx_Ok|]. cbv beta. run. eapply runs_lift; [by apply pyidx_Ok|]. cbv beta. run.
  eapply runs_lift; [by apply pyidx_Ok|]. cbv beta. run.
  set (key := (i, v, FONT_SIZE (w_conf s), width, FONT_PATH (w_conf s))).
  destruct (cache_get key (WRAP_LINE_CACHE (w_wrap s))) as [[segs n]|] eqn:E; run.
  - apply (HQ segs (set_WRAP_LINE_CACHE (cache_del key (WRAP_LINE_CACHE (w_wrap s)) ++ [(key, (segs, n))]) (w_wrap s)));
      [done|]. intros _ Hc. apply cache_get_In, list_elem_of_In in E.
    pose proof (proj1 (List.Forall_forall _ _) Hc _ E) as Ho. split.
    + apply Forall_app. split; [by apply cache_del_Forall|by apply Forall_singleton].
    + destruct Ho as [_ Ho]. by apply (Ho (Z.to_nat row) line v).
  - set (segs := line_segments line _ width).
    apply (HQ segs (wrapcacheput key segs line (set_WRAP_LINES_MEASURED (WRAP_LINES_MEASURED (w_wrap s) + 1) (w_wrap s)))).
    { unfold wrapcacheput. by destruct (cache_trim _ _ _). }
    intros [Hn Hf] Hc. split; [|done]. apply wrapcacheput_ok; [done|]. intros n. split.
    + exact (Forall_lookup_1 _ _ _ _ Hf Hi).
    + intros j l v' Hl' Hi' Hv'. assert (j = Z.to_nat row) as -> by (by eapply NoDup_lookup).
      assert (l = line) as -> by congruence. assert (v' = v) as -> by congruence. split; [lia|done].
Qed.

(** ** Bringing the index up to date *)

Lemma map_insert {A B} (f : A -> B) (l : list A) i x : List.map f (<[i := x]> l) = <[i := f x]> (List.map f l).
Proof. exact (list_fmap_insert f l i x). Qed.

Lemma zlen_insert {A} (l : list A) i x : zlen (<[i := x]> l) = zlen l.
Proof. unfold zlen. by rewrite length_insert. Qed.

Lemma row_height_id n : 1 <= n -> row_height n = n.
Proof. unfold row_height. lia. Qed.

Definition strong (s : wst) (w : wrap) : Prop := ids_ok (w_doc s) /\ cache_ok (w_conf s) (w_doc s) w.

Definition entries_now (s : wst) (w : wrap) (todo : list Z) : Prop :=
  entries_ok (TEXTTABWIDTH (w_conf s)) (FONT_SIZE (w_conf s)) (wraplayoutwidth (w_conf s)) (FONT_PATH (w_conf s))
    (lines_of s) w todo.

(** What a step of the update keeps and establishes. *)
Definition advances (s : wst) (w w' : wrap) (todo todo' : list Z) : Prop :=
  sized_index (zlen (lines_of s)) w' /\ WRAP_LAYOUT_KEY w' = WRAP_LAYOUT_KEY w /\
  WRAP_DIRTY_ROWS w' = WRAP_DIRTY_ROWS w /\
  (strong s w -> strong s w' /\ (entries_now s w todo -> entries_now s w' todo')).

Lemma entries_drop s w row todo : entries_now s w (row :: todo) ->
  (row < 0 \/ zlen (lines_of s) <= row \/ exists segs, WRAP_LINE_SEGMENTS w !! Z.to_nat row = Some (Some segs)) ->
  entries_now s w todo.
Proof.
  intros H Hr i line Hl. pose proof (lookup_lt_Some _ _ _ Hl). specialize (H i line Hl). unfold entry_ok in *.
  destruct (WRAP_LINE_SEGMENTS w !! i) as [[segs|]|] eqn:E; [done| |done].
  apply elem_of_cons in H as [H|H]; [|done]. exfalso. unfold zlen in *. destruct Hr as [Hr|[Hr|[segs Hs]]]; [lia..|].
  rewrite <- H, Nat2Z.id, E in Hs. done.
Qed.

Lemma entries_put s w row todo line segs count w' :
  lines_of s !! Z.to_nat row = Some line -> 0 <= row -> zlen (WRAP_LINE_COUNTS w) = zlen (lines_of s) ->
  segs = rows_for (w_conf s) line -> count = Z.max 1 (zlen segs) ->
  WRAP_LINE_SEGMENTS w' = <[Z.to_nat row := Some segs]> (WRAP_LINE_SEGMENTS w) ->
  WRAP_LINE_COUNTS w' = <[Z.to_nat row := count]> (WRAP_LINE_COUNTS w) ->
  entries_now s w (row :: todo) -> entries_now s w' todo.
Proof.
  intros Hl Hr Hc Hs Hn E1 E2 H i l Hi. pose proof (lookup_lt_Some _ _ _ Hl). specialize (H i l Hi). unfold entry_ok in *.
  rewrite E1, E2. destruct (decide (i = Z.to_nat row)) as [->|Hne].
  - assert (l = line) as -> by congruence. destruct (WRAP_LINE_SEGMENTS w !! Z.to_nat row) eqn:E; [|done].
    apply lookup_lt_Some in E. rewrite list_lookup_insert_eq by done.
    split; [done|]. rewrite list_lookup_insert_eq by (unfold zlen in *; lia). by rewrite Hn.
  - rewrite !list_lookup_insert_ne by done. destruct (WRAP_LINE_SEGMENTS w !! i) as [[x|]|] eqn:E; [done| |done].
    apply elem_of_cons in H as [H|H]; [lia|done].
Qed.

Lemma prefix_old n w row (counts : list Z) : sized_index n w -> zlen counts = n -> 0 <= row < n ->
  wraptreeprefix counts (WRAP_COUNT_TREE w) row = Ok (psum (List.map row_height (WRAP_LINE_COUNTS w)) row).
Proof.
  intros [_ Hc Ht] Hl Hr. unfold wraptreeprefix. replace (Z.max 0 (Z.min (zlen counts) row)) with row by lia.
  rewrite (descend_spec _ _ _ _ _ Ht) by (rewrite ?map_zlen; lia). done.
Qed.

Lemma rewrap_run fullbuild row todo s (Q : unit -> wst -> Prop) :
  docwf (w_doc s) -> sized_index (zlen (lines_of s)) (w_wrap s) ->
  (forall w', advances s (w_wrap s) w' (row :: todo) todo -> Q tt (set_wrap w' s)) ->
  runs (rewrap fullbuild (wraplayoutwidth (w_conf s)) row) s Q.
Proof.
  intros Hd Hi HQ. pose proof Hi as [S1 S2 S3]. unfold lines_of in *. unfold rewrap. run.
  assert (Skip : (row < 0 \/ zlen (lines_of s) <= row \/ exists segs, WRAP_LINE_SEGMENTS (w_wrap s) !! Z.to_nat row = Some (Some segs)) -> Q tt s).
  { intros H. rewrite <- (set_wrap_same s). apply HQ. split_and!; [done..|]. intros Hs. split; [done|].
    intros He. by eapply entries_drop. }
  destruct ((row <? 0) || (zlen (DOC_LINES (w_doc s)) <=? row)) eqn:Er; [run; apply Skip; unfold lines_of; lia|].
  run. destruct (lookup_zlen (WRAP_LINE_SEGMENTS (w_wrap s)) row) as [old Ho]; [lia|].
  destruct (lookup_zlen (WRAP_LINE_COUNTS (w_wrap s)) row) as [count Hc]; [lia|].
  destruct (lookup_zlen (DOC_LINES (w_doc s)) row) as [line Hl]; [lia|].
  eapply runs_lift; [apply pyidx_Ok; [lia|done]|]. cbv beta. destruct old as [segs|]; [run; apply Skip; eauto|].
  run. eapply runs_lift; [apply pyidx_Ok; [lia|done]|]. cbv beta. run.
  apply (wrapline_run _ _ line); [done|lia|done|]. intros segs w1 (I1 & I2 & I3 & I4 & I5) Hw. run.
  set (newcount := Z.max 1 (zlen segs)). set (n := zlen (DOC_LINES (w_doc s))) in *.
  assert (Si : sized_index n w1) by (constructor; rewrite ?I1, ?I2, ?I3; done).
  assert (Zc : znth (List.map row_height (WRAP_LINE_COUNTS w1)) row = row_height count).
  { unfold znth. apply nth_lookup_Some. rewrite I2, list_lookup_fmap, Hc. done. }
  assert (Rn : row_height newcount = newcount) by (apply row_height_id; lia).
  assert (Done : forall w2, WRAP_LINE_SEGMENTS w2 = <[Z.to_nat row := Some segs]> (WRAP_LINE_SEGMENTS w1) ->
    WRAP_LINE_COUNTS w2 = <[Z.to_nat row := newcount]> (WRAP_LINE_COUNTS w1) ->
    WRAP_LAYOUT_KEY w2 = WRAP_LAYOUT_KEY w1 -> WRAP_DIRTY_ROWS w2 = WRAP_DIRTY_ROWS w1 ->
    WRAP_LINE_CACHE w2 = WRAP_LINE_CACHE w1 ->
    represents (List.map row_height (WRAP_LINE_COUNTS w2)) (WRAP_COUNT_TREE w2) -> Q tt (set_wrap w2 s)).
  { intros w2 E1 E2 E3 E4 E5 Et. apply HQ. split_and!; [|congruence|congruence|].
    - constructor; [rewrite E1|rewrite E2|done]; rewrite zlen_insert, ?I1, ?I2; done.
    - intros Hs. destruct (Hw (proj1 Hs) (proj2 Hs)) as [Hw1 Hw2]. split.
      + split; [apply Hs|]. unfold cache_ok. by rewrite E5.
      + rewrite I1 in E1. rewrite I2 in E2. eapply entries_put; [done|lia|done|exact Hw2|reflexivity|done|done]. }
  change (row_height count) with (Z.max 1 count) in Zc.
  destruct (newcount =? Z.max 1 count) eqn:En; run.
  - apply Z.eqb_eq in En.
    apply (Done (set_WRAP_LINE_COUNTS (<[Z.to_nat row := newcount]> (WRAP_LINE_COUNTS w1))
      (set_WRAP_LINE_SEGMENTS (<[Z.to_nat row := Some segs]> (WRAP_LINE_SEGMENTS w1)) w1))); try done.
    cbn. rewrite map_insert, list_insert_id; [apply Si|]. rewrite I2, list_lookup_fmap, Hc. cbn. f_equal.
    rewrite Rn. unfold row_height. lia.
  - eapply runs_lift.
    { cbn. apply (prefix_old n); [done| |lia]. by rewrite zlen_insert, I2. }
    cbv beta. run.
    assert (Tr : represents (List.map row_height (<[Z.to_nat row := newcount]> (WRAP_LINE_COUNTS w1)))
      (wraptreeupdate (WRAP_COUNT_TREE w1) row (newcount - Z.max 1 count))).
    { rewrite map_insert, Rn, <- Zc. apply wraptreeupdate_represents; [apply Si|]. rewrite map_zlen, I2. lia. }
    destruct fullbuild; cbn [negb when]; run.
    + apply (Done (set_WRAP_COUNT_TREE (wraptreeupdate (WRAP_COUNT_TREE w1) row (newcount - Z.max 1 count))
        (set_WRAP_LINE_COUNTS (<[Z.to_nat row := newcount]> (WRAP_LINE_COUNTS w1))
        (set_WRAP_LINE_SEGMENTS (<[Z.to_nat row := Some segs]> (WRAP_LINE_SEGMENTS w1)) w1)))); done.
    + eapply (Done (set_WRAP_REFLOW_FROM _ (set_WRAP_COUNT_TREE (wraptreeupdate (WRAP_COUNT_TREE w1) row (newcount - Z.max 1 count))
        (set_WRAP_LINE_COUNTS (<[Z.to_nat row := newcount]> (WRAP_LINE_COUNTS w1))
        (set_WRAP_LINE_SEGMENTS (<[Z.to_nat row := Some segs]> (WRAP_LINE_SEGMENTS w1)) w1))))); done.
Qed.

Lemma rewrap_rows_run fullbuild rows : forall s (Q : unit -> wst -> Prop),
  docwf (w_doc s) -> sized_index (zlen (lines_of s)) (w_wrap s) ->
  (forall w', advances s (w_wrap s) w' rows [] -> Q tt (set_wrap w' s)) ->
  runs (rewrap_rows fullbuild (wraplayoutwidth (w_conf s)) rows) s Q.
Proof.
  induction rows as [|row rows IH]; intros s Q Hd Hi HQ; cbn [rewrap_rows].
  - run. rewrite <- (set_wrap_same s). apply HQ. by split_and!.
  - run. apply (rewrap_run _ _ rows); [done..|]. intros w1 (A1 & A2 & A3 & A4).
    apply (IH (set_wrap w1 s)); [done..|]. intros w2 (B1 & B2 & B3 & B4).
    apply (HQ w2). split_and!; [done|by rewrite B2|by rewrite B3|].
    intros Hs. destruct (A4 Hs) as [Hs1 He1]. destruct (B4 Hs1) as [Hs2 He2]. split; [done|].
    intros He. apply He2, He1, He.
Qed.

Lemma sorted_rows_elem x (rows : gset Z) : x ∈ sorted_rows rows <-> x ∈ elements rows.
Proof. unfold sorted_rows. by rewrite (merge_sort_Permutation Z.le (elements rows)). Qed.

Lemma entries_now_weaken s w todo todo' : (forall x, x ∈ todo -> x ∈ todo') -> entries_now s w todo -> entries_now s w todo'.
Proof.
  intros Ht H i line Hl. specialize (H i line Hl). unfold entry_ok in *.
  destruct (WRAP_LINE_SEGMENTS w !! i) as [[?|]|]; [done|by apply Ht|done].
Qed.

Lemma entries_indexed s w : entries_now s w [] -> sized_index (zlen (lines_of s)) w -> indexed (w_conf s) (lines_of s) w.
Proof.
  intros H [S1 S2 _]. assert (E : forall i line, lines_of s !! i = Some line ->
    WRAP_LINE_SEGMENTS w !! i = Some (Some (rows_for (w_conf s) line)) /\
    WRAP_LINE_COUNTS w !! i = Some (Z.max 1 (zlen (rows_for (w_conf s) line)))).
  { intros i line Hl. specialize (H i line Hl). unfold entry_ok in H.
    destruct (WRAP_LINE_SEGMENTS w !! i) as [[segs|]|]; [|by inversion H|done]. by destruct H as [-> ->]. }
  unfold zlen in *.
  split; apply list_eq; intros i; rewrite list_lookup_fmap; destruct (lines_of s !! i) as [line|] eqn:El;
    try (apply E in El as [E1 E2]; rewrite ?E1, ?E2; done); apply lookup_ge_None in El; apply lookup_ge_None; lia.
Qed.

Lemma fresh_sized key n w : 0 <= n -> sized_index n (fresh_index key n w).
Proof.
  intros Hn. constructor; cbn; [rewrite zlen_replicate; lia..|]. apply wraptreebuild_represents.
Qed.

Lemma fresh_entries s key w : entries_now s (fresh_index key (zlen (lines_of s)) w) (elements (WRAP_DIRTY_ROWS (fresh_index key (zlen (lines_of s)) w))).
Proof.
  intros i line Hl. pose proof (lookup_lt_Some _ _ _ Hl). unfold entry_ok. cbn. unfold zreplicate.
  rewrite lookup_replicate_2 by (unfold zlen; lia). apply elem_of_elements, elem_of_list_to_set, elem_of_seqZ.
  unfold zlen. lia.
Qed.

(** [ensurewrapindex] does not fail; with word wrap the index holds all lines
    after it, their rows when the cache belongs to the document. *)
Lemma ensurewrapindex_run s (Q : unit -> wst -> Prop) :
  docwf (w_doc s) -> treewf (w_wrap s) ->
  (forall w', treewf w' ->
     (if WORD_WRAP (w_conf s) then sized_index (zlen (lines_of s)) w' else w' = w_wrap s) ->
     (wrap_ok (w_conf s) (w_doc s) (w_wrap s) ->
      wrap_ok (w_conf s) (w_doc s) w' /\ (WORD_WRAP (w_conf s) = true -> indexed (w_conf s) (lines_of s) w')) ->
     Q tt (set_wrap w' s)) ->
  runs ensurewrapindex s Q.
Proof.
  intros Hd Ht HQ. unfold ensurewrapindex. run.
  destruct (WORD_WRAP (w_conf s)) eqn:Ew; cbn [negb]; [|run; rewrite <- (set_wrap_same s); by apply HQ].
  run. apply documentmetadataensure_run; [done|]. run.
  set (key := (FONT_SIZE (w_conf s), wraplayoutwidth (w_conf s), FONT_PATH (w_conf s))).
  change (DOC_LINES (w_doc s)) with (lines_of s). set (n := zlen (lines_of s)).
  set (fullbuild := negb (bool_decide _) || _ || _).
  assert (Hn : 0 <= n) by apply zlen_nonneg.
  assert (Step : forall w1, WRAP_LAYOUT_KEY w1 = Some key -> sized_index n w1 ->
    (wrap_ok (w_conf s) (w_doc s) (w_wrap s) -> cache_ok (w_conf s) (w_doc s) w1 /\ entries_now s w1 (elements (WRAP_DIRTY_ROWS w1))) ->
    runs (rewrap_rows fullbuild (wraplayoutwidth (w_conf s)) (sorted_rows (WRAP_DIRTY_ROWS w1)))
      (on_wrap (set_WRAP_DIRTY_ROWS ∅) (set_wrap w1 s))
      (fun _ s' => runs (modify (on_wrap (set_WRAP_CACHE_KEY None)) ;; modify (on_wrap (set_WRAP_CACHE_SEGMENTS []))) s' Q)).
  { intros w1 K1 Si Hs. set (s1 := on_wrap _ (set_wrap w1 s)).
    apply (rewrap_rows_run fullbuild (sorted_rows (WRAP_DIRTY_ROWS w1)) s1); [done|by destruct Si|].
    intros w2 (A1 & A2 & A3 & A4). run.
    apply (HQ (set_WRAP_CACHE_SEGMENTS [] (set_WRAP_CACHE_KEY None w2))).
    - right. apply A1.
    - destruct A1. by constructor.
    - intros Ho. destruct (Hs Ho) as [Hc He]. pose proof Ho as (Hids & _).
      destruct A4 as [Hs2 He2]; [by split|].
      assert (E : entries_now s w2 []).
      { apply He2. eapply entries_now_weaken; [|exact He]. intros x. by rewrite sorted_rows_elem. }
      split.
      + split; [done|]. split; [apply Hs2|]. split; [destruct A1 as [X Y _]; cbn; lia|]. cbn.
        rewrite A2. change (WRAP_LAYOUT_KEY (w_wrap s1)) with (WRAP_LAYOUT_KEY w1). rewrite K1. cbn. intros _.
        eapply (entries_now_weaken s w2); [|exact E]. intros x Hx. inversion Hx.
      + intros _. destruct (entries_indexed s w2 E A1) as [E1 E2]. by split. }
  destruct fullbuild eqn:Ef; unfold when; cbn [negb]; run.
  - apply (Step (fresh_index key n (w_wrap s))); [done|by apply fresh_sized|].
    intros (Hids & Hc & _). split; [exact Hc|]. apply fresh_entries.
  - subst fullbuild. rewrite !orb_false_iff, !negb_false_iff in Ef. destruct Ef as [[K E1] E2].
    apply bool_decide_eq_true in K. apply (Step (w_wrap s)); [done| |].
    + constructor; [lia|lia|]. destruct Ht as [Ht|Ht]; [|done]. exfalso. rewrite Ht, zlen_nil in E2.
      unfold n, lines_of in E2. pose proof (wf_nonempty _ Hd). destruct (DOC_LINES (w_doc s)) as [|x l]; [done|].
      rewrite zlen_cons in E2. pose proof (zlen_nonneg l). lia.
    + intros (Hids & Hc & Hi1 & Hi2). split; [done|]. rewrite K in Hi2. apply Hi2. fold (lines_of s). lia.
Qed.

(** ** An edit keeps the index in order *)

Lemma zsplice_lookup {A} (l d : list A) a b i : 0 <= a <= b -> b <= zlen l ->
  zsplice l a b d !! i =
  if decide (Z.of_nat i < a) then l !! i
  else if decide (Z.of_nat i < a + zlen d) then d !! (i - Z.to_nat a)%nat
  else l !! Z.to_nat (Z.of_nat i - zlen d - a + b).
Proof.
  intros Ha Hb. unfold zsplice, ztake, zdrop, zlen in *. rewrite Z.max_r by lia.
  assert (La : length (take (Z.to_nat a) l) = Z.to_nat a) by (rewrite length_take; lia).
  destruct (decide (Z.of_nat i < a)).
  { rewrite lookup_app_l by lia. apply lookup_take_lt. lia. }
  rewrite lookup_app_r, La by lia. destruct (decide _).
  { rewrite lookup_app_l by lia. done. }
  rewrite lookup_app_r by lia. rewrite lookup_drop. f_equal. lia.
Qed.

Section Edit.
Variables (d : doc) (p q : Z * Z) (ins : pystr).
Hypotheses (Hd : docwf d) (Hp : 0 <= p.1) (Hpq : p.1 <= q.1) (Hq : q.1 < zlen (DOC_LINES d)).

Let repl := new_lines (DOC_LINES d) p q ins.
Let n := zlen repl.
Let d' := edited_doc d p q ins.

(** Where the lines of the edited document come from. *)
Inductive origin (i : nat) : Prop :=
  | from_before : Z.of_nat i < p.1 ->
      DOC_LINES d' !! i = DOC_LINES d !! i -> DOC_LINE_IDS d' !! i = DOC_LINE_IDS d !! i ->
      DOC_LINE_VERSIONS d' !! i = DOC_LINE_VERSIONS d !! i -> origin i
  | from_first : i = Z.to_nat p.1 -> DOC_LINE_IDS d' !! i = DOC_LINE_IDS d !! i ->
      DOC_LINE_VERSIONS d' !! i = (fun v => v + 1) <$> DOC_LINE_VERSIONS d !! i -> origin i
  | from_new : p.1 < Z.of_nat i < p.1 + n ->
      DOC_LINE_IDS d' !! i = Some (NEXT_LINE_ID d + (Z.of_nat i - p.1 - 1)) -> origin i
  | from_after (j : nat) : p.1 + n <= Z.of_nat i -> Z.of_nat j = Z.of_nat i - n - p.1 + (q.1 + 1) ->
      DOC_LINES d' !! i = DOC_LINES d !! j -> DOC_LINE_IDS d' !! i = DOC_LINE_IDS d !! j ->
      DOC_LINE_VERSIONS d' !! i = DOC_LINE_VERSIONS d !! j -> origin i.

Lemma edit_origin i : origin i.
Proof.
  assert (L1 : zlen (DOC_LINE_IDS d) = zlen (DOC_LINES d)) by (unfold zlen; by rewrite (wf_ids _ Hd)).
  assert (L2 : zlen (DOC_LINE_VERSIONS d) = zlen (DOC_LINES d)) by (unfold zlen; by rewrite (wf_versions _ Hd)).
  pose proof (new_lines_len (DOC_LINES d) p q ins) as Hn. fold repl in Hn. fold n in Hn.
  assert (E1 : forall k, DOC_LINES d' !! k = zsplice (DOC_LINES d) p.1 (q.1 + 1) repl !! k) by done.
  assert (E2 : forall k, DOC_LINE_IDS d' !! k = zsplice (DOC_LINE_IDS d) p.1 (q.1 + 1) (znth (DOC_LINE_IDS d) p.1 :: seqZ (NEXT_LINE_ID d) (n - 1)) !! k) by done.
  assert (E3 : forall k, DOC_LINE_VERSIONS d' !! k = zsplice (DOC_LINE_VERSIONS d) p.1 (q.1 + 1) (znth (DOC_LINE_VERSIONS d) p.1 + 1 :: zreplicate (n - 1) 0) !! k) by done.
  specialize (E1 i). specialize (E2 i). specialize (E3 i). rewrite zsplice_lookup in E1 by lia. rewrite zsplice_lookup in E2 by lia. rewrite zsplice_lookup in E3 by lia. fold n in E1.
  rewrite zlen_cons, zlen_seqZ in E2 by lia. rewrite zlen_cons, zlen_replicate in E3.
  replace (1 + (n - 1)) with n in E2 by lia. replace (1 + Z.max 0 (n - 1)) with n in E3 by lia.
  destruct (decide (Z.of_nat i < p.1)); [by apply from_before|]. destruct (decide (Z.of_nat i < p.1 + n)).
  - destruct (decide (i = Z.to_nat p.1)) as [->|Hne].
    + rewrite Nat.sub_diag in E2, E3. cbn in E2, E3.
      destruct (lookup_zlen (DOC_LINE_IDS d) p.1) as [x Hx]; [lia|].
      destruct (lookup_zlen (DOC_LINE_VERSIONS d) p.1) as [v Hv]; [lia|].
      assert (Fx : znth (DOC_LINE_IDS d) p.1 = x) by by apply nth_lookup_Some.
      assert (Fv : znth (DOC_LINE_VERSIONS d) p.1 = v) by by apply nth_lookup_Some.
      apply from_first; [done|by rewrite Hx, <- Fx|rewrite Hv; cbn; by rewrite <- Fv].
    + apply from_new; [lia|]. rewrite E2. destruct (i - Z.to_nat p.1)%nat as [|k] eqn:Ek; [lia|]. cbn.
      rewrite lookup_seqZ_lt by lia. f_equal. lia.
  - apply (from_after i (Z.to_nat (Z.of_nat i - n - p.1 + (q.1 + 1)))); [lia|lia|done..].
Qed.

Lemma edit_ids_ok : ids_ok d -> ids_ok d'.
Proof.
  intros [Hn Hf]. pose proof (new_lines_len (DOC_LINES d) p q ins) as Hl. fold repl in Hl. fold n in Hl.
  assert (Lt : forall i x, DOC_LINE_IDS d !! i = Some x -> x < NEXT_LINE_ID d) by (intros i x; apply (Forall_lookup_1 _ _ _ _ Hf)).
  split.
  - apply NoDup_alt. intros i j x Hi Hj.
    destruct (edit_origin i) as [? _ Oi _| -> Oi _|? Oi|i' ? ? _ Oi _]; rewrite Oi in Hi;
    destruct (edit_origin j) as [? _ Oj _| -> Oj _|? Oj|j' ? ? _ Oj _]; rewrite Oj in Hj.
    all: try (pose proof (NoDup_lookup _ _ _ _ Hn Hi Hj); lia).
    all: try (apply Lt in Hi). all: try (apply Lt in Hj). all: simplify_eq; try done. all: lia.
  - apply Forall_lookup_2. intros i x Hi. change (NEXT_LINE_ID d') with (NEXT_LINE_ID d + (n - 1)).
    destruct (edit_origin i) as [? _ Oi _| -> Oi _|? Oi|i' ? ? _ Oi _]; rewrite Oi in Hi.
    all: try (apply Lt in Hi; lia). injection Hi as <-. lia.
Qed.

Lemma edit_cache_ok c w : ids_ok d -> cache_ok c d w -> cache_ok c d' w.
Proof.
  intros [_ Hf] H. pose proof (new_lines_len (DOC_LINES d) p q ins) as Hl. fold repl in Hl. fold n in Hl.
  eapply Forall_impl; [exact H|]. intros [[[[[lineid version] size] width] path] [segs b]] [H1 H2].
  split; [change (NEXT_LINE_ID d') with (NEXT_LINE_ID d + (n - 1)); lia|].
  intros i line v Hl' Hi Hv. destruct (edit_origin i) as [? O1 O2 O3| -> O2 O3|? O2|j ? ? O1 O2 O3].
  - rewrite O1 in Hl'. rewrite O2 in Hi. rewrite O3 in Hv. by apply (H2 i).
  - rewrite O2 in Hi. rewrite O3 in Hv. destruct (DOC_LINE_VERSIONS d !! Z.to_nat p.1) as [v0|] eqn:E; [|done].
    injection Hv as <-. destruct (lookup_zlen (DOC_LINES d) p.1) as [l0 E0]; [lia|].
    destruct (H2 _ _ _ E0 Hi E) as [H3 _]. split; [lia|]. intros ->. lia.
  - rewrite O2 in Hi. injection Hi as <-. lia.
  - rewrite O1 in Hl'. rewrite O2 in Hi. rewrite O3 in Hv. by apply (H2 j).
Qed.

Lemma shift_rows_elem start removed count (rows : gset Z) x : 0 <= removed ->
  x ∈ shift_rows start removed count rows <->
  (exists r, r ∈ rows /\ ((r < start /\ x = r) \/ (start + removed <= r /\ x = r - removed + count))) \/
  start <= x < start + count.
Proof.
  intros Hrm. unfold shift_rows. rewrite elem_of_list_to_set, elem_of_app, elem_of_seqZ. rewrite list_elem_of_In, in_flat_map.
  apply or_iff_compat_r. split; intros (r & Hr & Hx); exists r.
  - rewrite <- list_elem_of_In, elem_of_elements in Hr. split; [done|].
    destruct (r <? start) eqn:E1; [destruct Hx as [->|[]]; lia|]. destruct (start + removed <=? r) eqn:E2; [|done].
    destruct Hx as [<-|[]]. lia.
  - rewrite <- list_elem_of_In, elem_of_elements. split; [done|].
    destruct Hx as [[H ->]|[H ->]].
    + replace (r <? start) with true by lia. by left.
    + replace (r <? start) with false by lia. replace (start + removed <=? r) with true by lia. by left.
Qed.

Lemma edit_index_ok c w :
  index_ok c (DOC_LINES d) w -> index_ok c (DOC_LINES d') (index_after (zlen (DOC_LINES d')) p.1 (q.1 - p.1 + 1) n w).
Proof.
  intros [Hc Hi]. pose proof (new_lines_len (DOC_LINES d) p q ins) as Hl. fold repl in Hl. fold n in Hl.
  assert (Ln : zlen (DOC_LINES d') = zlen (DOC_LINES d) - (q.1 - p.1 + 1) + n).
  { change (DOC_LINES d') with (zsplice (DOC_LINES d) p.1 (q.1 + 1) repl). rewrite zsplice_length by lia. fold n. lia. }
  unfold index_after. destruct (Z.eqb_spec (zlen (WRAP_LINE_SEGMENTS w)) (zlen (DOC_LINES d') - n + (q.1 - p.1 + 1))) as [E|_];
    [|by split].
  assert (Es : zlen (WRAP_LINE_SEGMENTS w) = zlen (DOC_LINES d)) by lia. clear E.
  unfold replaced_index. replace (p.1 + (q.1 - p.1 + 1)) with (q.1 + 1) by lia.
  set (new := if q.1 - p.1 + 1 =? n then _ else _).
  assert (Hnew : zlen new = n).
  { unfold new. destruct (Z.eqb_spec (q.1 - p.1 + 1) n); [rewrite zlen_slice; lia|].
    rewrite zlen_cons, zlen_replicate. lia. }
  unfold index_ok. cbn [WRAP_LINE_COUNTS WRAP_LINE_SEGMENTS WRAP_LAYOUT_KEY WRAP_DIRTY_ROWS]. split.
  { rewrite !zsplice_length, Hnew, zlen_replicate by lia. lia. }
  destruct (WRAP_LAYOUT_KEY w) as [[[size width] path]|]; [|done]. intros _. specialize (Hi Es).
  intros i line Hline. unfold entry_ok. cbn [WRAP_LINE_COUNTS WRAP_LINE_SEGMENTS].
  rewrite !zsplice_lookup by lia. rewrite Hnew, zlen_replicate, Z.max_r by lia.
  assert (Dirt : forall x, (exists r, r ∈ WRAP_DIRTY_ROWS w /\ ((r < p.1 /\ x = r) \/
      (p.1 + (q.1 - p.1 + 1) <= r /\ x = r - (q.1 - p.1 + 1) + n))) \/ p.1 <= x < p.1 + n ->
      x ∈ elements (shift_rows p.1 (q.1 - p.1 + 1) n (WRAP_DIRTY_ROWS w))).
  { intros x Hx. apply elem_of_elements, shift_rows_elem; [lia|exact Hx]. }
  pose proof (edit_origin i) as O. destruct (decide (Z.of_nat i < p.1)).
  - assert (Hl0 : DOC_LINES d !! i = Some line) by (destruct O as [? O1 ? ?| ? ? ?|? ?|j ? ? ? ? ?]; [congruence|lia..]).
    specialize (Hi i line Hl0). unfold entry_ok in Hi.
    destruct (WRAP_LINE_SEGMENTS w !! i) as [[segs|]|]; [done| |done]. rewrite elem_of_elements in Hi.
    apply Dirt. left. exists (Z.of_nat i). split; [done|]. by left.
  - destruct (decide (Z.of_nat i < p.1 + n)).
    + unfold zreplicate. rewrite lookup_replicate_2 by lia. apply Dirt. right. lia.
    + set (j := Z.to_nat (Z.of_nat i - n - p.1 + (q.1 + 1))).
      assert (Hl0 : DOC_LINES d !! j = Some line).
      { destruct O as [? O1 ? ?| ? ? ?|? ?|j' ? ? O1 ? ?]; [lia|lia|lia|]. replace j with j' by lia. congruence. }
      specialize (Hi j line Hl0). unfold entry_ok in Hi.
      destruct (WRAP_LINE_SEGMENTS w !! j) as [[segs|]|]; [done| |done]. rewrite elem_of_elements in Hi.
      apply Dirt. left. exists (Z.of_nat j). split; [done|]. right. lia.
Qed.

Lemma edit_wrap_ok c w : wrap_ok c d w -> wrap_ok c d' (index_after (zlen (DOC_LINES d')) p.1 (q.1 - p.1 + 1) n w).
Proof.
  intros (H1 & H2 & H3). split; [by apply edit_ids_ok|]. split; [|by apply edit_index_ok].
  replace (WRAP_LINE_CACHE (index_after _ _ _ _ w)) with (WRAP_LINE_CACHE w) || idtac.
  pose proof (edit_cache_ok c w H1 H2) as H. unfold cache_ok in *. unfold index_after. by destruct (_ =? _).
Qed.

End Edit.

End WrapSpec.
