(* ===== verification/WriteViewSpec.v ===== *)
(** The rows on the screen: the index answers as a plain list of all rows would,
    and the caret is on the row the index gives for it. *)

From stdpp Require Import base option list gmap sorting.
From Stdlib Require Import ZArith Lia Bool.
From S2P Require Import Prelude PyText PyVal PyStr WriteState WriteText WriteTree WriteWrap WriteEdit WriteView.
From S2P Require Import WriteEditSpec WriteWrapSpec.
Open Scope Z_scope.

Implicit Types lines : list pystr.

(** ** Concatenated rows *)

Section Concat.
Context {A B : Type}.

Lemma map_lookup_Some (f : A -> B) l i x : l !! i = Some x -> List.map f l !! i = Some (f x).
Proof. intros H. pose proof (list_lookup_fmap f l i) as E. rewrite H in E. exact E. Qed.

Lemma concat_imap_lookup (l : list A) : forall (f : nat -> A -> list B) (g : A -> Z) (r : nat) (x : A) (j : nat),
  (forall k y, zlen (f k y) = g y) -> l !! r = Some x -> (j < length (f r x))%nat ->
  concat (imap f l) !! Z.to_nat (psum (List.map g l) (Z.of_nat r) + Z.of_nat j) = f r x !! j.
Proof.
  induction l as [|y l IH]; intros f g r x j Hg Hr Hj; [done|]. destruct r as [|r]; cbn in Hr.
  - injection Hr as ->. cbn [imap concat]. change (Z.of_nat 0) with 0. rewrite psum_0, lookup_app_l by lia. f_equal. lia.
  - cbn [imap concat List.map]. assert (P : psum (g y :: List.map g l) (Z.of_nat (S r)) = g y + psum (List.map g l) (Z.of_nat r)).
    { unfold psum, ztake. replace (Z.to_nat (Z.of_nat (S r))) with (S r) by lia. rewrite Nat2Z.id. done. }
    rewrite P. pose proof (Hg 0%nat y) as H0. unfold zlen in H0.
    assert (N : 0 <= psum (List.map g l) (Z.of_nat r)).
    { apply zsum_nonneg. unfold ztake. apply Forall_take, List.Forall_forall. intros v Hv.
      apply in_map_iff in Hv as (z & <- & _). rewrite <- (Hg 0%nat z). apply zlen_nonneg. }
    rewrite lookup_app_r by lia.
    change (f (S r) x !! j) with ((f ∘ S) r x !! j). rewrite <- (IH (f ∘ S) g r x j); [f_equal; lia|intros k z; apply Hg|done|done].
Qed.

Lemma concat_imap_length (l : list A) : forall (f : nat -> A -> list B) (g : A -> Z),
  (forall k y, zlen (f k y) = g y) -> zlen (concat (imap f l)) = zsum (List.map g l).
Proof.
  induction l as [|y l IH]; intros f g Hg; [done|]. cbn [imap concat List.map]. rewrite zlen_app, Hg, (IH (f ∘ S) g).
  - done.
  - intros k z. apply Hg.
Qed.

End Concat.

(** ** The column in its row *)

Lemma local_row_covers segs b col last : forall a i, covers segs a b -> a <= col <= b -> a < b ->
  exists (j : nat) s e, local_row segs b col i last = i + Z.of_nat j /\ segs !! j = Some (s, e) /\
    s <= col /\ (col < e \/ (col = e /\ e = b)).
Proof.
  induction segs as [|[s e] segs IH]; intros a i; cbn [covers local_row]; [lia|]. intros (-> & Hae & Hc) Hcol Hab.
  destruct ((col <? e) || ((col =? e) && (e =? b))) eqn:E.
  - exists 0%nat, a, e. split_and!; [lia|done|lia|lia].
  - assert (Heb : e < b).
    { destruct segs as [|[s' e'] segs]; cbn [covers] in Hc; [lia|]. destruct Hc as (-> & ? & Hc).
      assert (M : forall l x, covers l x b -> x <= b).
      { intros l. induction l as [|[u v] l IHl]; intros x; cbn [covers]; [lia|]. intros (-> & ? & Hx). apply IHl in Hx. lia. }
      apply M in Hc. lia. }
    destruct (IH e (i + 1) Hc) as (j & s' & e' & H1 & H2 & H3 & H4); [lia|lia|].
    exists (S j), s', e'. split_and!; [lia|done|lia|done].
Qed.

Section Rows.
Context {FT : Font}.

(** The reference: all rows of the screen from top to bottom. *)
Definition screen (c : conf) lines : list (Z * Z * Z) :=
  flat_rows (List.map (fun line => Some (rows_for c line)) lines).

Definition heights (c : conf) lines : list Z := List.map (fun line => zlen (rows_for c line)) lines.

Lemma rows_for_nonempty c line : rows_for c line <> [].
Proof. apply line_segments_nonempty. Qed.

Lemma rows_for_len c line : 1 <= zlen (rows_for c line).
Proof.
  pose proof (rows_for_nonempty c line). destruct (rows_for c line) as [|x l]; [done|]. rewrite zlen_cons.
  pose proof (zlen_nonneg l). lia.
Qed.

Lemma rows_of_for c line : rows_of (Some (rows_for c line)) = rows_for c line.
Proof. pose proof (rows_for_nonempty c line). unfold rows_of. by destruct (rows_for c line). Qed.

Lemma counts_heights c lines :
  List.map row_height (List.map (fun line => Z.max 1 (zlen (rows_for c line))) lines) = heights c lines.
Proof.
  unfold heights. rewrite List.map_map. apply List.map_ext. intros line. pose proof (rows_for_len c line).
  unfold row_height. lia.
Qed.

Lemma heights_pos c lines : Forall (fun v => 1 <= v) (heights c lines).
Proof. apply List.Forall_forall. intros v Hv. apply in_map_iff in Hv as (line & <- & _). apply rows_for_len. Qed.

Lemma heights_nonneg c lines : Forall (fun v => 0 <= v) (heights c lines).
Proof. eapply Forall_impl; [apply heights_pos|]. intros x Hx. cbn in Hx. lia. Qed.

(** The row [j] of the line [r] on the screen. *)
Lemma screen_lookup c lines (r j : nat) line se : lines !! r = Some line -> rows_for c line !! j = Some se ->
  screen c lines !! Z.to_nat (psum (heights c lines) (Z.of_nat r) + Z.of_nat j) = Some (Z.of_nat r, se.1, se.2).
Proof.
  intros Hl Hj. unfold screen, flat_rows.
  set (g := fun values => zlen (rows_of values)).
  set (f := fun (row : nat) values => List.map (fun se : seg => (Z.of_nat row, se.1, se.2)) (rows_of values)).
  replace (heights c lines) with (List.map g (List.map (fun line => Some (rows_for c line)) lines)).
  2: { unfold heights. rewrite List.map_map. apply List.map_ext. intros l. unfold g. by rewrite rows_of_for. }
  rewrite (concat_imap_lookup _ f g r (Some (rows_for c line)) j).
  - unfold f. rewrite rows_of_for. exact (map_lookup_Some _ _ _ _ Hj).
  - intros k y. unfold f, g. apply map_zlen.
  - exact (map_lookup_Some _ _ _ _ Hl).
  - unfold f. rewrite length_map, rows_of_for. by apply lookup_lt_Some in Hj.
Qed.

Lemma screen_length c lines : zlen (screen c lines) = zsum (heights c lines).
Proof.
  unfold screen, flat_rows. rewrite (concat_imap_length _ _ (fun values => zlen (rows_of values))).
  - unfold heights. rewrite List.map_map. f_equal. apply List.map_ext. intros line. by rewrite rows_of_for.
  - intros k y. apply map_zlen.
Qed.

(** ** The index answers as the reference *)

(** A document whose index and cache are its own. *)
Record wrapping (s : wst) : Prop := {
  wp_doc : docwf (w_doc s);
  wp_tree : treewf (w_wrap s);
  wp_index : wrap_ok (w_conf s) (w_doc s) (w_wrap s) }.

(** Only the index changed, and it stays in order. *)
Definition reindexed (s s' : wst) : Prop := exists w', s' = set_wrap w' s /\ wrapping s'.

Lemma ensure_indexed s (Q : unit -> wst -> Prop) : wrapping s -> WORD_WRAP (w_conf s) = true ->
  (forall w', wrapping (set_wrap w' s) -> indexed (w_conf s) (lines_of s) w' ->
     represents (heights (w_conf s) (lines_of s)) (WRAP_COUNT_TREE w') -> Q tt (set_wrap w' s)) ->
  runs ensurewrapindex s Q.
Proof.
  intros [H1 H2 H3] Hw HQ. apply ensurewrapindex_run; [done..|]. intros w' T S I. rewrite Hw in S.
  destruct (I H3) as [I1 I2]. specialize (I2 Hw). apply HQ; [by constructor|done|].
  destruct S as [_ _ S]. by rewrite (ix_counts _ _ _ I2), counts_heights in S.
Qed.

Lemma heights_nonempty c lines : lines <> [] -> heights c lines <> [] /\ 0 < zsum (heights c lines).
Proof.
  intros H. destruct lines as [|l lines]; [done|]. split; [done|].
  change (zsum (heights c (l :: lines))) with (zlen (rows_for c l) + zsum (heights c lines)). pose proof (rows_for_len c l).
  assert (0 <= zsum (heights c lines)); [|lia]. apply zsum_nonneg, heights_nonneg.
Qed.

Lemma displaysegment_run s index (Q : Z * Z * Z -> wst -> Prop) : wrapping s -> WORD_WRAP (w_conf s) = true ->
  (forall r s', screen (w_conf s) (lines_of s) !!
       Z.to_nat (Z.max 0 (Z.min (zlen (screen (w_conf s) (lines_of s)) - 1) index)) = Some r ->
     reindexed s s' -> Q r s') ->
  runs (displaysegment index) s Q.
Proof.
  intros H Hw HQ. unfold displaysegment. run. rewrite Hw. cbn [negb]. run. apply ensure_indexed; [done..|].
  intros w' H' [I1 I2] T. run. change (w_wrap (set_wrap w' s)) with w'.
  set (hs := heights (w_conf s) (lines_of s)) in *.
  destruct (heights_nonempty (w_conf s) (lines_of s) (wf_nonempty _ (wp_doc _ H))) as [Hne Hpos]. fold hs in Hne, Hpos.
  assert (Lc : zlen (WRAP_LINE_COUNTS w') = zlen hs) by (rewrite I2; unfold hs, heights; by rewrite !map_zlen).
  destruct (WRAP_LINE_COUNTS w') as [|c0 cs] eqn:Ec; [destruct hs; [done|]; rewrite zlen_cons, zlen_nil in Lc; pose proof (zlen_nonneg hs); lia|].
  cbv beta iota zeta. rewrite <- Ec in *. run. assert (Tot : wraptreetotal (WRAP_LINE_COUNTS w') (WRAP_COUNT_TREE w') = Ok (zsum hs)).
  { rewrite <- (wraptreetotal_spec _ _ T). unfold wraptreetotal, wraptreeprefix. by rewrite Lc. }
  eapply runs_lift; [exact Tot|]. cbv beta. rewrite screen_length in HQ. fold hs in HQ.
  set (k := Z.max 0 (Z.min (Z.max 0 (zsum hs - 1)) index)).
  replace (Z.max 0 (Z.min (zsum hs - 1) index)) with k in HQ by lia.
  destruct (wraptreefind_spec (WRAP_LINE_COUNTS w') hs (WRAP_COUNT_TREE w') k) as (r & Er & Hr & Hk);
    [done|by rewrite Lc|done|apply heights_pos|]. replace (Z.max 0 (Z.min (zsum hs - 1) k)) with k in Hk by lia.
  run. eapply runs_lift; [exact Er|]. cbv beta. run.
  eapply runs_lift; [unfold wraptreeprefix; rewrite Lc; exact (wraptreeprefix_spec _ _ r T)|]. cbv beta. run.
  replace (Z.max 0 (Z.min (zlen hs) r)) with r by lia.
  destruct (lookup_zlen (lines_of s) r) as [line Hl]; [unfold hs, heights in Hr; rewrite map_zlen in Hr; lia|].
  eapply runs_lift; [apply pyidx_Ok; [lia|rewrite I1; exact (map_lookup_Some _ _ _ _ Hl)]|]. cbv beta. run.
  rewrite rows_of_for. pose proof (rows_for_len (w_conf s) line).
  assert (Hs : hs !! Z.to_nat r = Some (zlen (rows_for (w_conf s) line))) by exact (map_lookup_Some _ _ _ _ Hl).
  rewrite (psum_step _ _ _ (proj1 Hr) Hs) in Hk.
  replace (Z.max 0 (Z.min (zlen (rows_for (w_conf s) line) - 1) (k - psum hs r))) with (k - psum hs r) by lia.
  destruct (lookup_zlen (rows_for (w_conf s) line) (k - psum hs r)) as [se Hse]; [lia|].
  eapply runs_lift; [apply pyidx_Ok; [lia|exact Hse]|]. cbv beta. run. apply HQ; [|by exists w'].
  pose proof (screen_lookup _ _ _ _ _ _ Hl Hse) as L. fold hs in L. rewrite !Z2Nat.id in L by lia.
  replace (psum hs r + (k - psum hs r)) with k in L by lia. exact L.
Qed.

Lemma displaylinecount_run s (Q : Z -> wst -> Prop) : wrapping s -> WORD_WRAP (w_conf s) = true ->
  (forall s', reindexed s s' -> Q (zlen (screen (w_conf s) (lines_of s))) s') -> runs displaylinecount s Q.
Proof.
  intros H Hw HQ. unfold displaylinecount. run. rewrite Hw. cbn [negb]. run. apply ensure_indexed; [done..|].
  intros w' H' [I1 I2] T. run. change (w_wrap (set_wrap w' s)) with w'. rewrite screen_length in HQ.
  eapply runs_lift; [|apply HQ; by exists w']. rewrite <- (wraptreetotal_spec _ _ T).
  unfold wraptreetotal, wraptreeprefix. rewrite I2. unfold heights. by rewrite !map_zlen.
Qed.

(** The row of the caret. *)
Definition shows (r : Z * Z * Z) (row col len : Z) : Prop :=
  r.1.1 = row /\ r.1.2 <= col /\ (col < r.2 \/ (col = r.2 /\ r.2 = len)).

Lemma local_row_for c line col : 0 <= col <= zlen line ->
  exists (j : nat) s e, local_row (rows_for c line) (zlen line) col 0 (zlen (rows_for c line) - 1) = Z.of_nat j /\
    rows_for c line !! j = Some (s, e) /\ s <= col /\ (col < e \/ (col = e /\ e = zlen line)).
Proof.
  intros Hc. destruct line as [|x line].
  - exists 0%nat, 0, 0. rewrite zlen_nil in *. assert (col = 0) as -> by lia. split_and!; [done|done|lia|lia].
  - destruct (local_row_covers (rows_for c (x :: line)) (zlen (x :: line)) col (zlen (rows_for c (x :: line)) - 1) 0 0)
      as (j & s & e & H1 & H2 & H3 & H4).
    + by apply line_segments_cover.
    + lia.
    + rewrite zlen_cons. pose proof (zlen_nonneg line). lia.
    + exists j, s, e. split_and!; [lia|done..].
Qed.

(** The row of a position on the screen. *)
Definition visual_row (c : conf) lines (p : Z * Z) : Z :=
  let line := line_at lines p.1 in
  psum (heights c lines) p.1 + local_row (rows_for c line) (zlen line) p.2 0 (zlen (rows_for c line) - 1).

Lemma cursorvisualindex_run s p (Q : Z -> wst -> Prop) : wrapping s -> WORD_WRAP (w_conf s) = true ->
  valid (lines_of s) p ->
  (forall r s', let k := visual_row (w_conf s) (lines_of s) p in
     0 <= k -> screen (w_conf s) (lines_of s) !! Z.to_nat k = Some r ->
     shows r p.1 p.2 (zlen (line_at (lines_of s) p.1)) -> reindexed s s' -> Q k s') ->
  runs (cursorvisualindex p.1 p.2) s Q.
Proof.
  intros H Hw Hv HQ. pose proof (valid_range _ _ Hv) as Hr. pose proof (line_at_Some _ _ Hv) as Hl.
  pose proof Hv as (_ & line & Hl' & Hc). assert (line = line_at (lines_of s) p.1) as -> by congruence.
  unfold cursorvisualindex. run. rewrite Hw. cbn [negb]. run. apply ensure_indexed; [done..|].
  intros w' H' [I1 I2] T. run. unfold lines_of in *. change (DOC_LINES (w_doc (set_wrap w' s))) with (DOC_LINES (w_doc s)).
  destruct (DOC_LINES (w_doc s)) as [|l0 ls] eqn:El; [done|]. cbv beta iota zeta. rewrite <- El in *. clear El l0 ls. run.
  fold (lines_of s) in *. set (line := line_at (lines_of s) p.1) in *.
  replace (Z.max 0 (Z.min (zlen (lines_of s) - 1) p.1)) with p.1 by lia.
  eapply runs_lift; [apply pyidx_Ok; [lia|exact Hl]|]. cbv beta. run.
  change (w_wrap (set_wrap w' s)) with w'.
  eapply runs_lift; [apply pyidx_Ok; [lia|rewrite I1; exact (map_lookup_Some _ _ _ _ Hl)]|]. cbv beta. run.
  set (hs := heights (w_conf s) (lines_of s)) in *.
  assert (Lc : zlen (WRAP_LINE_COUNTS w') = zlen hs) by (rewrite I2; unfold hs, heights; by rewrite !map_zlen).
  assert (Lh : zlen hs = zlen (lines_of s)) by apply map_zlen.
  eapply runs_lift; [unfold wraptreeprefix; rewrite Lc; exact (wraptreeprefix_spec _ _ p.1 T)|]. cbv beta. run.
  replace (Z.max 0 (Z.min (zlen hs) p.1)) with p.1 by lia. rewrite rows_of_for.
  replace (Z.max 0 (Z.min (zlen line) p.2)) with p.2 by lia.
  destruct (local_row_for (w_conf s) line p.2 Hc) as (j & b & e & E1 & E2 & E3 & E4).
  pose proof (screen_lookup _ _ _ _ _ _ Hl E2) as L. rewrite Z2Nat.id in L by lia. fold hs in L.
  assert (0 <= psum hs p.1).
  { apply zsum_nonneg. unfold ztake. apply Forall_take, heights_nonneg. }
  assert (Ek : visual_row (w_conf s) (lines_of s) p = psum hs p.1 + Z.of_nat j) by (unfold visual_row; fold line; by rewrite E1).
  apply (HQ (p.1, b, e)); rewrite ?Ek; [lia|exact L|split_and!; [done|done|exact E4]|by exists w'].
Qed.

End Rows.

(** The text area and the scroll position: working them out touches nothing but
    the indexes and the view, and the caret ends up on a visible row. *)
Section ViewSpec.
Context {FT : Font}.

(** ** Steps that do not touch the document *)

(** What the functions on the view need. *)
Record viewable (s : wst) : Prop := {
  vb_doc : docwf (w_doc s);
  vb_tree : treewf (w_wrap s) }.

(** Nothing but the view and the indexes changed, and the indexes are in order. *)
Record quiet (s s' : wst) : Prop := {
  q_doc : w_doc s' = w_doc s;
  q_caret : w_caret s' = w_caret s;
  q_hist : w_hist s' = w_hist s;
  q_conf : w_conf s' = w_conf s;
  q_search : w_search s' = w_search s;
  q_file : w_file s' = w_file s;
  q_io : w_io s' = w_io s;
  q_tick : w_tick s' = w_tick s;
  q_tree : treewf (w_wrap s');
  q_index : wrap_ok (w_conf s) (w_doc s) (w_wrap s) -> wrap_ok (w_conf s) (w_doc s) (w_wrap s') }.

(** The rows of the view stay. *)
Definition rows_same (v v' : view) : Prop :=
  FIRST_VISIBLE_ROW v' = FIRST_VISIBLE_ROW v /\ VISIBLE_LINES v' = VISIBLE_LINES v /\ PENDING_SCROLL v' = PENDING_SCROLL v.

Definition still (s s' : wst) : Prop := quiet s s' /\ rows_same (w_view s) (w_view s').

Lemma view_quiet_refl s : treewf (w_wrap s) -> quiet s s.
Proof. by constructor. Qed.

Lemma view_quiet_trans s s' s'' : quiet s s' -> quiet s' s'' -> quiet s s''.
Proof.
  intros [A1 A2 A3 A4 A5 A6 A7 A8 A9 A10] [B1 B2 B3 B4 B5 B6 B7 B8 B9 B10].
  constructor; try congruence. intros H. rewrite A4, A1 in B10. by apply B10, A10.
Qed.

Lemma quiet_viewable s s' : quiet s s' -> viewable s -> viewable s'.
Proof. intros [] []. constructor; [congruence|done]. Qed.

Lemma still_refl s : treewf (w_wrap s) -> still s s.
Proof. intros H. split; [by apply view_quiet_refl|done]. Qed.

Lemma still_trans s s' s'' : still s s' -> still s' s'' -> still s s''.
Proof.
  intros [A (R1 & R2 & R3)] [B (R4 & R5 & R6)]. split; [by eapply view_quiet_trans|].
  split_and!; congruence.
Qed.

Lemma still_view s f : treewf (w_wrap s) -> rows_same (w_view s) (f (w_view s)) -> still s (on_view f s).
Proof. intros Ht Hf. split; [by constructor|done]. Qed.

Lemma quiet_view s f : treewf (w_wrap s) -> quiet s (on_view f s).
Proof. intros Ht. by constructor. Qed.

Lemma quiet_lines s s' : quiet s s' -> lines_of s' = lines_of s.
Proof. intros []. unfold lines_of. congruence. Qed.

Lemma displaylinecount_still s (Q : Z -> wst -> Prop) : viewable s ->
  (forall n s', still s s' -> w_view s' = w_view s -> (WORD_WRAP (w_conf s) = false -> n = zlen (lines_of s)) -> Q n s') ->
  runs displaylinecount s Q.
Proof.
  intros [Hd Ht] HQ. unfold displaylinecount. run. destruct (WORD_WRAP (w_conf s)) eqn:Ew; cbn [negb].
  - run. apply ensurewrapindex_run; [done..|]. intros w' T S I. rewrite Ew in S. run.
    change (w_wrap (set_wrap w' s)) with w'. destruct S as [_ S2 S3].
    eapply runs_lift; [unfold wraptreetotal; apply prefix_run; by right|].
    apply HQ; [|done|done]. split; [|done]. constructor; try done. intros H. apply I, H.
  - run. apply HQ; [by apply still_refl|done|done].
Qed.

Lemma verticalneeded_still s (Q : bool -> wst -> Prop) : viewable s ->
  (forall b s', still s s' -> Q b s') -> runs verticalneeded s Q.
Proof.
  intros H HQ. unfold verticalneeded. run. destruct (VISIBLE_LINES (w_view s) <=? 0).
  - run. apply HQ, still_refl, H.
  - run. apply displaylinecount_still; [done|]. intros n s' Hs _ _. run. by apply HQ.
Qed.

Lemma widths_step_still {A} (f : conf -> list pystr -> widths -> widths * A) s (Q : A -> wst -> Prop) : viewable s ->
  (forall s', still s s' -> Q (f (w_conf s) (lines_of s) (w_widths s)).2 s') -> runs (widths_step f) s Q.
Proof.
  intros H HQ. unfold widths_step. run. destruct (f (w_conf s) (lines_of s) (w_widths s)) as [w a]. run.
  apply HQ. split; [|done]. constructor; try done. apply H.
Qed.

Lemma horizontalneeded_still s (Q : bool -> wst -> Prop) : viewable s ->
  (forall b s', still s s' -> Q b s') -> runs horizontalneeded s Q.
Proof.
  intros H HQ. unfold horizontalneeded. run. destruct (WORD_WRAP _); [run; apply HQ, still_refl, H|].
  destruct (viewportgeometry_noscrollbars _) as [[[? ?] vw] ?]. run. destruct (vw <=? 0); [run; apply HQ, still_refl, H|].
  run. apply widths_step_still; [done|]. intros s' Hs. run. by apply HQ.
Qed.

Lemma viewportgeometry_still s (Q : Z * Z * Z * Z -> wst -> Prop) : viewable s ->
  (forall g s', still s s' -> Q g s') -> runs viewportgeometry s Q.
Proof.
  intros H HQ. unfold viewportgeometry. run. apply horizontalneeded_still; [done|]. intros h s1 H1. run.
  apply verticalneeded_still; [eapply quiet_viewable; [apply H1|done]|]. intros v s2 H2. run.
  apply HQ. by eapply still_trans.
Qed.

Lemma clampxscroll_still s (Q : unit -> wst -> Prop) : viewable s -> (forall s', still s s' -> Q tt s') -> runs clampxscroll s Q.
Proof.
  intros H HQ. unfold clampxscroll. run. destruct (WORD_WRAP _).
  { run. apply HQ, still_view; [apply H|done]. }
  run. apply viewportgeometry_still; [done|]. intros [[[vx vy] vw] vh] s1 H1. run.
  assert (V1 : viewable s1) by (eapply quiet_viewable; [apply H1|done]).
  destruct (vw <=? 0); [run; apply HQ; eapply still_trans; [exact H1|apply still_view; [apply V1|done]]|].
  run. apply widths_step_still; [done|]. intros s2 H2. run. apply HQ.
  eapply still_trans; [exact H1|]. eapply still_trans; [exact H2|]. apply still_view; [|done].
  apply (quiet_viewable s1 s2); [apply H2|done].
Qed.

(** ** The caret *)

Definition caret_valid (s : wst) : Prop := valid (lines_of s) (cursor (w_caret s)).

(** The caret put elsewhere; nowhere else when it stood in the document. *)
Definition moved (s : wst) (p : Z * Z) : wst := on_caret (set_cursor p) s.
Definition pulled (s : wst) (p : Z * Z) : Prop := caret_valid s -> p = cursor (w_caret s).

Lemma moved_same s : moved s (cursor (w_caret s)) = s.
Proof. by destruct s as [? [] ? ? ? ? ? ? ? ? ?]. Qed.

Lemma clamp_row_run s (Q : unit -> wst -> Prop) : lines_of s <> [] ->
  (forall r, 0 <= r < zlen (lines_of s) -> (0 <= CUR_ROW (w_caret s) < zlen (lines_of s) -> r = CUR_ROW (w_caret s)) ->
     Q tt (on_caret (set_CUR_ROW r) s)) -> runs clamp_row s Q.
Proof.
  intros Hne HQ. unfold clamp_row. run. assert (0 < zlen (lines_of s)).
  { destruct (lines_of s) as [|l ls]; [done|]. rewrite zlen_cons. pose proof (zlen_nonneg ls). lia. }
  set (r := if zlen (lines_of s) <=? (if CUR_ROW (w_caret s) <? 0 then 0 else CUR_ROW (w_caret s))
    then zlen (lines_of s) - 1 else (if CUR_ROW (w_caret s) <? 0 then 0 else CUR_ROW (w_caret s))).
  apply (HQ r); unfold r; split_if; lia.
Qed.

Lemma clamp_col_run line s (Q : unit -> wst -> Prop) :
  (forall c, 0 <= c <= zlen line -> (0 <= CUR_COL (w_caret s) <= zlen line -> c = CUR_COL (w_caret s)) ->
     Q tt (on_caret (set_CUR_COL c) s)) -> runs (clamp_col line) s Q.
Proof.
  intros HQ. unfold clamp_col. run. pose proof (zlen_nonneg line).
  set (c := if zlen line <? (if CUR_COL (w_caret s) <? 0 then 0 else CUR_COL (w_caret s))
    then zlen line else (if CUR_COL (w_caret s) <? 0 then 0 else CUR_COL (w_caret s))).
  apply (HQ c); unfold c; split_if; lia.
Qed.

Lemma current_line_run s (Q : pystr -> wst -> Prop) : 0 <= CUR_ROW (w_caret s) < zlen (lines_of s) ->
  Q (line_at (lines_of s) (CUR_ROW (w_caret s))) s -> runs current_line s Q.
Proof.
  intros Hr HQ. unfold current_line. run. destruct (lookup_zlen (lines_of s) (CUR_ROW (w_caret s))) as [line Hl]; [done|].
  unfold line_at in HQ. rewrite Hl in HQ. eapply runs_lift; [apply pyidx_Ok; [lia|done]|exact HQ].
Qed.

(** Row and column brought into the document. *)
Lemma place_caret {A} (k : pystr -> W A) s (Q : A -> wst -> Prop) : lines_of s <> [] ->
  (forall p, valid (lines_of s) p -> pulled s p -> runs (k (line_at (lines_of s) p.1)) (moved s p) Q) ->
  runs (clamp_row ;; line ← current_line; clamp_col line ;; k line) s Q.
Proof.
  intros Hne Hk. run. apply clamp_row_run; [done|]. intros r Hr Er. run.
  apply current_line_run; [exact Hr|]. cbn [w_caret on_caret CUR_ROW set_CUR_ROW]. run. apply clamp_col_run.
  cbn [w_caret on_caret CUR_COL set_CUR_ROW]. change (lines_of (on_caret (set_CUR_ROW r) s)) with (lines_of s).
  intros c Hc Ec. destruct (lookup_zlen (lines_of s) r Hr) as [line Hl].
  assert (V : valid (lines_of s) (r, c)).
  { split; [cbn; lia|]. exists line. split; [done|]. unfold line_at in Hc. by rewrite Hl in Hc. }
  apply (Hk (r, c) V). intros Hv. pose proof (valid_range _ _ Hv) as Hr'. cbn [cursor fst] in Hr'. rewrite Er in * by done.
  unfold cursor. f_equal. apply Ec. destruct Hv as (_ & line' & Hl' & Hc'). cbn in Hl', Hc'. unfold line_at. by rewrite Hl'.
Qed.

(** As [quiet] and [still], with the caret brought into the document. *)
Definition calm (s s' : wst) : Prop := exists p, pulled s p /\ quiet (moved s p) s'.
Definition calmx (s s' : wst) : Prop := exists p, pulled s p /\ still (moved s p) s'.

Lemma quiet_calm s s' : quiet s s' -> calm s s'.
Proof. intros H. exists (cursor (w_caret s)). by rewrite moved_same. Qed.

Lemma still_calmx s s' : still s s' -> calmx s s'.
Proof. intros H. exists (cursor (w_caret s)). by rewrite moved_same. Qed.

Lemma calm_quiet s s' : calm s s' -> caret_valid s -> quiet s s'.
Proof. intros (p & Hp & H) Hv. rewrite Hp, moved_same in H by done. exact H. Qed.

Lemma calmx_still s s' : calmx s s' -> caret_valid s -> still s s'.
Proof. intros (p & Hp & H) Hv. rewrite Hp, moved_same in H by done. exact H. Qed.

Lemma quiet_moved s s' p : quiet s s' -> quiet (moved s p) (moved s' p).
Proof. intros []. constructor; try done. cbn. by rewrite q_caret0. Qed.

Lemma still_moved s s' p : still s s' -> still (moved s p) (moved s' p).
Proof. intros [H R]. split; [by apply quiet_moved|done]. Qed.

Lemma quiet_caret s s' : quiet s s' -> caret_valid s -> caret_valid s'.
Proof. intros H V. unfold caret_valid. by rewrite (quiet_lines _ _ H), (q_caret _ _ H). Qed.

Lemma quiet_pulled s s' p : quiet s s' -> pulled s' p -> pulled s p.
Proof. intros H Hp Hv. rewrite <- (q_caret _ _ H). apply Hp. by eapply quiet_caret. Qed.

Lemma quiet_calm_trans s s' s'' : quiet s s' -> calm s' s'' -> calm s s''.
Proof.
  intros H (p & Hp & H'). exists p. split; [by eapply quiet_pulled|]. eapply view_quiet_trans; [by apply quiet_moved|done].
Qed.

Lemma calm_quiet_trans s s' s'' : calm s s' -> quiet s' s'' -> calm s s''.
Proof. intros (p & Hp & H') H. exists p. split; [done|]. by eapply view_quiet_trans. Qed.

Lemma viewable_moved s p : viewable s -> viewable (moved s p).
Proof. by intros []. Qed.

Lemma ensurecursorvisiblex_calm s (Q : unit -> wst -> Prop) : viewable s ->
  (forall s', calmx s s' -> Q tt s') -> runs ensurecursorvisiblex s Q.
Proof.
  intros H HQ. unfold ensurecursorvisiblex. run. destruct (WORD_WRAP _).
  { run. apply HQ, still_calmx, still_view; [apply H|done]. }
  run. apply viewportgeometry_still; [done|]. intros [[[vx vy] vw] vh] s1 H1. run.
  assert (V1 : viewable s1) by (eapply quiet_viewable; [apply H1|done]).
  assert (Flat : forall f, rows_same (w_view s1) (f (w_view s1)) -> calmx s (on_view f s1)).
  { intros f Hf. apply still_calmx. eapply still_trans; [exact H1|]. apply still_view; [apply V1|done]. }
  destruct (vw <=? 0); [run; apply HQ, Flat; done|].
  run. destruct (lines_of s1) as [|l0 ls] eqn:El; [run; apply HQ, Flat; done|].
  apply (place_caret (fun line => col ← gets (fun s => CUR_COL (w_caret s)); _) s1); [by rewrite El|].
  intros p Vp Pp. run. apply clampxscroll_still; [by constructor; apply V1|]. intros s2 H2. apply HQ.
  exists p. split; [eapply quiet_pulled; [apply H1|done]|].
  eapply still_trans; [by apply still_moved|]. eapply still_trans; [|exact H2]. apply still_view; [apply V1|done].
Qed.

Lemma ensurecursorvisiblex_still s (Q : unit -> wst -> Prop) : viewable s -> caret_valid s ->
  (forall s', still s s' -> Q tt s') -> runs ensurecursorvisiblex s Q.
Proof. intros H Hv HQ. apply ensurecursorvisiblex_calm; [done|]. intros s' Hs. by apply HQ, calmx_still. Qed.

(** ** The caret in view *)

Lemma clamp_index n x : 0 < n -> 0 <= Z.max 0 (Z.min (n - 1) x) < n.
Proof. lia. Qed.

Lemma cursorvisualindex_still s row col (Q : Z -> wst -> Prop) : viewable s ->
  (forall k s', still s s' -> w_view s' = w_view s -> Q k s') -> runs (cursorvisualindex row col) s Q.
Proof.
  intros [Hd Ht] HQ. unfold cursorvisualindex. run. destruct (WORD_WRAP (w_conf s)) eqn:Ew; cbn [negb].
  2: { run. apply HQ; [by apply still_refl|done]. }
  run. apply ensurewrapindex_run; [done..|]. intros w' T S I. rewrite Ew in S. run.
  pose proof (wf_nonempty _ Hd) as Hne. unfold lines_of in *.
  change (DOC_LINES (w_doc (set_wrap w' s))) with (DOC_LINES (w_doc s)).
  destruct (DOC_LINES (w_doc s)) as [|l0 ls] eqn:El; [done|]. cbv beta iota zeta.
  assert (Hn : 0 < zlen (l0 :: ls)) by (rewrite zlen_cons; pose proof (zlen_nonneg ls); lia). rewrite <- El in *. run.
  pose proof (clamp_index _ row Hn) as Hr. set (r := Z.max 0 (Z.min (zlen (DOC_LINES (w_doc s)) - 1) row)) in *.
  destruct (lookup_zlen _ _ Hr) as [line Hl].
  eapply runs_lift; [apply pyidx_Ok; [lia|exact Hl]|]. cbv beta. run. change (w_wrap (set_wrap w' s)) with w'.
  destruct S as [S1 S2 S3]. destruct (lookup_zlen (WRAP_LINE_SEGMENTS w') r) as [values Hs]; [lia|].
  eapply runs_lift; [apply pyidx_Ok; [lia|exact Hs]|]. cbv beta. run.
  eapply runs_lift; [apply prefix_run; by right|]. cbv beta. run.
  apply HQ; [|done]. split; [|done]. constructor; try done. intros H. apply I, H.
Qed.

Lemma calm_moved s p s' : pulled s p -> calm (moved s p) s' -> calm s s'.
Proof.
  intros Hp (q & Hq & H). exists q. split; [|exact H]. intros Hv. specialize (Hp Hv). subst p.
  rewrite moved_same in Hq. by apply Hq.
Qed.

Lemma ensurecursorvisible_calm s (Q : unit -> wst -> Prop) : viewable s ->
  (forall s', calm s s' -> Q tt s') -> runs ensurecursorvisible s Q.
Proof.
  intros H HQ. unfold ensurecursorvisible. run. set (s1 := on_view _ s).
  assert (H1 : quiet s s1) by (apply quiet_view, H). assert (V1 : viewable s1) by by eapply quiet_viewable.
  assert (X : forall s', calmx s1 s' -> calm s s').
  { intros s' (p & Hp & [Hs _]). eapply quiet_calm_trans; [exact H1|]. by exists p. }
  destruct (VISIBLE_LINES (w_view s1) <=? 0).
  { apply ensurecursorvisiblex_calm; [done|]. intros s2 H2. by apply HQ, X. }
  destruct (lines_of s1) as [|l0 ls] eqn:El; [by destruct (wf_nonempty _ (vb_doc _ V1))|].
  run. apply clamp_row_run; [by rewrite El|]. intros r Hr Er. run.
  assert (P1 : pulled s1 (r, CUR_COL (w_caret s1))).
  { intros Hv. pose proof (valid_range _ _ Hv) as Hr'. unfold cursor. f_equal. by apply Er. }
  change (on_caret (set_CUR_ROW r) s1) with (moved s1 (r, CUR_COL (w_caret s1))). set (s2 := moved s1 _).
  apply cursorvisualindex_still; [by apply viewable_moved|]. intros k s3 [H3 _] _. run.
  assert (V3 : viewable s3) by (eapply quiet_viewable; [exact H3|by apply viewable_moved]).
  apply displaylinecount_still; [done|]. intros n s4 [H4 _] _ _. run.
  assert (V4 : viewable s4) by by eapply quiet_viewable.
  set (s5 := on_view _ s4). assert (H5 : quiet s4 s5) by (apply quiet_view, V4).
  apply ensurecursorvisiblex_calm; [by eapply quiet_viewable|]. intros s6 (p & Hp & [H6 _]). apply HQ.
  eapply quiet_calm_trans; [exact H1|]. eapply calm_moved; [exact P1|].
  eapply quiet_calm_trans; [exact H3|]. eapply quiet_calm_trans; [exact H4|]. eapply quiet_calm_trans; [exact H5|].
  by exists p.
Qed.

Lemma ensurecursorvisible_quiet s (Q : unit -> wst -> Prop) : viewable s -> caret_valid s ->
  (forall s', quiet s s' -> Q tt s') -> runs ensurecursorvisible s Q.
Proof. intros H Hv HQ. apply ensurecursorvisible_calm; [done|]. intros s' Hs. by apply HQ, calm_quiet. Qed.

(** ** Scrolling *)

Lemma scrollbylines_quiet s delta (Q : unit -> wst -> Prop) : viewable s -> (forall s', quiet s s' -> Q tt s') ->
  runs (scrollbylines delta) s Q.
Proof.
  intros H HQ. unfold scrollbylines. run. destruct (_ || _); [run; apply HQ, quiet_view, H|].
  run. apply displaylinecount_still; [done|]. intros n s1 [H1 _] _ _. run. apply HQ.
  eapply view_quiet_trans; [exact H1|]. apply quiet_view. by destruct (quiet_viewable _ _ H1 H).
Qed.

Lemma scrollbyx_quiet s delta (Q : unit -> wst -> Prop) : viewable s -> (forall s', quiet s s' -> Q tt s') ->
  runs (scrollbyx delta) s Q.
Proof.
  intros H HQ. unfold scrollbyx. apply runs_try. run. apply clampxscroll_still; [by destruct H|]. intros s' [H1 _]. apply HQ.
  eapply view_quiet_trans; [|exact H1]. apply quiet_view, H.
Qed.

Lemma updatelayoutonresize_quiet s (Q : unit -> wst -> Prop) : viewable s -> (forall s', quiet s s' -> Q tt s') ->
  runs updatelayoutonresize s Q.
Proof.
  intros H HQ. unfold updatelayoutonresize. run. apply viewportgeometry_still; [done|].
  intros [[[vx vy] vw] vh] s1 [H1 _]. run. set (s2 := on_view _ s1).
  assert (V1 : viewable s1) by by eapply quiet_viewable.
  assert (H2 : quiet s s2) by (eapply view_quiet_trans; [exact H1|apply quiet_view, V1]).
  assert (V2 : viewable s2) by by eapply quiet_viewable. run.
  assert (Last : forall m s3, quiet s s3 -> runs (modify (on_view (fun v =>
       let first := if m <? FIRST_VISIBLE_ROW v then m else FIRST_VISIBLE_ROW v in
       set_FIRST_VISIBLE_ROW (if first <? 0 then 0 else first) v)) ;; clampxscroll) s3 Q).
  { intros m s3 H3. assert (V3 : viewable s3) by by eapply quiet_viewable. run.
    apply clampxscroll_still; [by destruct V3|]. intros s4 [H4 _]. apply HQ.
    eapply view_quiet_trans; [exact H3|]. eapply view_quiet_trans; [|exact H4]. apply quiet_view, V3. }
  destruct (0 <? VISIBLE_LINES (w_view s2)).
  - run. apply displaylinecount_still; [done|]. intros n s3 [H3 _] _ _. run. apply Last. by eapply view_quiet_trans.
  - run. by apply Last.
Qed.

(** The number of rows, and the caret's one. *)
Definition total_rows (s : wst) : Z :=
  if WORD_WRAP (w_conf s) then zlen (screen (w_conf s) (lines_of s)) else zlen (lines_of s).

Definition caret_row (s : wst) : Z :=
  if WORD_WRAP (w_conf s) then visual_row (w_conf s) (lines_of s) (cursor (w_caret s)) else CUR_ROW (w_caret s).

Definition first_in_range (s : wst) : Prop :=
  0 <= FIRST_VISIBLE_ROW (w_view s) <= last_first_row (total_rows s) (VISIBLE_LINES (w_view s)).

Lemma reindexed_still s s' : reindexed s s' -> wrapping s' /\ still s s' /\ w_view s' = w_view s.
Proof.
  intros (w' & -> & H). split_and!; [done| |done]. destruct H. split; [|done]. by constructor.
Qed.

Lemma wrapping_viewable s : wrapping s -> viewable s.
Proof. intros []. by constructor. Qed.

Lemma still_wrapping s s' : still s s' -> wrapping s -> wrapping s'.
Proof. intros [[] _] []. constructor; [congruence|done|]. rewrite q_doc0, q_conf0. by apply q_index0. Qed.

Lemma caret_row_run s (Q : Z -> wst -> Prop) : wrapping s -> caret_valid s ->
  (forall s', wrapping s' -> still s s' -> w_view s' = w_view s -> 0 <= caret_row s < total_rows s -> Q (caret_row s) s') ->
  runs (cursorvisualindex (CUR_ROW (w_caret s)) (CUR_COL (w_caret s))) s Q.
Proof.
  intros H Hv HQ. unfold caret_row, total_rows in *. destruct (WORD_WRAP (w_conf s)) eqn:Ew.
  - apply (cursorvisualindex_run s (cursor (w_caret s))); [done..|]. intros r s' k Hk Hl _ Hr.
    destruct (reindexed_still _ _ Hr) as (? & ? & ?). apply HQ; [done..|]. apply lookup_lt_Some in Hl.
    unfold k in *. unfold zlen. lia.
  - unfold cursorvisualindex. run. rewrite Ew. cbn [negb]. run. apply HQ; [done| |done|].
    + apply still_refl, H.
    + pose proof (valid_range _ _ Hv) as Hr. exact Hr.
Qed.

Lemma total_rows_run s (Q : Z -> wst -> Prop) : wrapping s ->
  (forall s', wrapping s' -> still s s' -> w_view s' = w_view s -> Q (total_rows s) s') -> runs displaylinecount s Q.
Proof.
  intros H HQ. unfold total_rows in HQ. destruct (WORD_WRAP (w_conf s)) eqn:Ew.
  - apply displaylinecount_run; [done..|]. intros s' Hr. destruct (reindexed_still _ _ Hr) as (? & ? & ?). by apply HQ.
  - unfold displaylinecount. run. rewrite Ew. cbn [negb]. run. apply HQ; [done| |done]. apply still_refl, H.
Qed.

Lemma quiet_rows s s' : quiet s s' -> total_rows s' = total_rows s /\ caret_row s' = caret_row s.
Proof. intros H. unfold total_rows, caret_row. by rewrite (quiet_lines _ _ H), (q_caret _ _ H), (q_conf _ _ H). Qed.

(** C33: after [ensurecursorvisible] the row of the caret, as the index counts the
    rows of the screen, is one of the visible rows, and the scroll position is
    between the first row and the last full page; the document, the caret and
    the history are as before. *)
Theorem caret_in_view s : wrapping s -> caret_valid s -> 0 < VISIBLE_LINES (w_view s) ->
  runs ensurecursorvisible s (fun _ s' =>
    quiet s s' /\ first_in_range s' /\
    FIRST_VISIBLE_ROW (w_view s') <= caret_row s' < FIRST_VISIBLE_ROW (w_view s') + VISIBLE_LINES (w_view s')).
Proof.
  intros H Hv Hp. unfold ensurecursorvisible. run. set (s1 := on_view _ s).
  assert (H1 : quiet s s1) by (apply quiet_view, H).
  assert (W1 : wrapping s1) by (destruct H; by constructor). assert (C1 : caret_valid s1) by by eapply quiet_caret.
  change (VISIBLE_LINES (w_view s1)) with (VISIBLE_LINES (w_view s)). replace (VISIBLE_LINES (w_view s) <=? 0) with false by lia.
  destruct (lines_of s1) as [|l0 ls] eqn:El; [by destruct (wf_nonempty _ (wp_doc _ W1))|].
  run. apply clamp_row_run; [by rewrite El|]. intros r _ Er.
  assert (on_caret (set_CUR_ROW r) s1 = s1) as ->.
  { pose proof (valid_range _ _ C1) as Hr. rewrite Er by exact Hr. by destruct s1 as [? [] ? ? ? ? ? ? ? ? ?]. }
  run. apply caret_row_run; [done..|]. intros s2 W2 H2 E2 R2. run.
  apply total_rows_run; [done|]. intros s3 W3 H3 E3. run.
  pose proof (quiet_rows _ _ H1) as [T1 K1]. pose proof (quiet_rows _ _ (proj1 H2)) as [T2 K2].
  set (s4 := on_view _ s3). assert (V4 : viewable s4) by (split; apply W3).
  assert (Q4 : quiet s1 s4).
  { eapply view_quiet_trans; [apply H2|]. eapply view_quiet_trans; [apply H3|]. apply quiet_view, W3. }
  apply ensurecursorvisiblex_still; [done|by eapply quiet_caret|]. intros s5 [H5 (R5 & R6 & _)].
  assert (Q5 : quiet s s5) by (eapply view_quiet_trans; [exact H1|]; by eapply view_quiet_trans).
  split; [done|]. pose proof (quiet_rows _ _ Q5) as [T5 K5].
  assert (Ev : w_view s3 = set_PENDING_SCROLL 0 (w_view s)) by (rewrite E3, E2; done).
  assert (V5 : VISIBLE_LINES (w_view s5) = VISIBLE_LINES (w_view s)).
  { rewrite R6. change (VISIBLE_LINES (w_view s3) = VISIBLE_LINES (w_view s)). by rewrite Ev. }
  unfold first_in_range. rewrite R5, V5, T5, K5. unfold s4. cbn [w_view on_view FIRST_VISIBLE_ROW set_FIRST_VISIBLE_ROW].
  rewrite Ev, T2, K1, T1 in *. cbn [FIRST_VISIBLE_ROW VISIBLE_LINES set_PENDING_SCROLL].
  unfold bound_first, last_first_row. split_if; lia.
Qed.

End ViewSpec.
