(* ===== verification/WriteSession.v ===== *)
(** The undo history of the editor: undoing restores, redoing repeats, and a
    revision number stands for one text for as long as the document is open. *)

From stdpp Require Import base option list gmap.
From Stdlib Require Import ZArith Lia Bool.
From S2P Require Import Prelude PyFloat PyText PyVal PyStr WriteState WriteText WriteTree WriteWrap WriteEdit WriteView.
From S2P Require Import WriteOps WriteEditSpec WriteWrapSpec WriteViewSpec.
Open Scope Z_scope.

Implicit Types p q : Z * Z.
Implicit Types lines : list pystr.

Abbreviation joined := (join_with [NL]).

(** ** One slice of a list *)

Section Splice.
Context {A : Type}.
Implicit Types t d e : list A.

Lemma zdrop_mid n t d e : n = zlen t + zlen d -> zdrop n (t ++ d ++ e) = e.
Proof. intros ->. rewrite app_assoc. apply zdrop_app_exact. by rewrite zlen_app. Qed.

Lemma ztake_mid n t d e : n = zlen t + zlen d -> ztake n (t ++ d ++ e) = t ++ d.
Proof. intros ->. rewrite app_assoc. apply ztake_app_exact. by rewrite zlen_app. Qed.

Lemma zsplice_undo t a b d : 0 <= a <= b -> b <= zlen t ->
  zsplice (zsplice t a b d) a (a + zlen d) (zslice t a b) = t.
Proof.
  intros Ha Hb. pose proof (zlen_nonneg d). unfold zsplice at 1. rewrite Z.max_r by lia. unfold zsplice.
  rewrite Z.max_r by lia. rewrite ztake_app_exact by (rewrite zlen_take; lia).
  rewrite zdrop_mid by (rewrite zlen_take; lia). rewrite <- zdrop_slice by lia.
  apply ztake_zdrop.
Qed.

Lemma zslice_splice t a b d : 0 <= a <= b -> b <= zlen t -> zslice (zsplice t a b d) a (a + zlen d) = d.
Proof.
  intros Ha Hb. pose proof (zlen_nonneg d). unfold zsplice. rewrite Z.max_r by lia.
  apply zslice_app_mid; rewrite zlen_take; lia.
Qed.

Lemma ztake_splice t a b d : 0 <= a <= b -> b <= zlen t -> ztake a (zsplice t a b d) = ztake a t.
Proof. intros Ha Hb. unfold zsplice. apply ztake_app_exact. rewrite zlen_take; lia. Qed.

(** Inserting twice in a row is inserting once. *)
Lemma zsplice_insert t a d e : 0 <= a <= zlen t ->
  zsplice (zsplice t a a d) (a + zlen d) (a + zlen d) e = zsplice t a a (d ++ e).
Proof.
  intros Ha. pose proof (zlen_nonneg d). unfold zsplice. rewrite !Z.max_id.
  rewrite ztake_mid, zdrop_mid by (rewrite zlen_take; lia). by rewrite <- !app_assoc.
Qed.

End Splice.

(** ** Editing at an offset *)

Definition good_lines lines : Prop := lines <> [] /\ Forall clean lines.

Lemma good_nl lines : good_lines lines -> Forall (lacks NL) lines.
Proof. intros [_ H]. by apply clean_nl. Qed.

Lemma docwf_good d : docwf d -> good_lines (DOC_LINES d).
Proof. intros []. by split. Qed.

Lemma good_joined l l' : good_lines l -> good_lines l' -> joined l = joined l' -> l = l'.
Proof.
  intros H H' E. rewrite <- (split_join NL l), E by (apply H || by apply good_nl).
  apply split_join; [apply H'|by apply good_nl].
Qed.

(** What is asked of the caret, that it is a position of the document or
    nothing; whether the cache of wrapped lines is known to belong to the
    document; and whether the caret may be moved by a search. *)
Class Carets : Type := {
  caret_in : list pystr -> Z * Z -> Prop;
  caret_in_valid lines p : valid lines p -> caret_in lines p;
  own_index : Prop;
  searching : Prop }.

Section Apply.
Context {FT : Font} {CP : Carets}.

(** What the functions on the document rely on. *)
Record editwf (s : wst) : Prop := {
  ed_doc : docwf (w_doc s);
  ed_tree : treewf (w_wrap s);
  ed_index : own_index -> wrap_ok (w_conf s) (w_doc s) (w_wrap s) }.

Lemma edited_editwf s p q ins : editwf s -> valid (lines_of s) p -> valid (lines_of s) q -> pos_leb p q = true ->
  lacks CR ins -> editwf (edited s p q ins).
Proof.
  intros [Hd Ht Hi] Vp Vq Hpq Hc. pose proof (valid_range _ _ Vp). pose proof (valid_range _ _ Vq).
  assert (p.1 <= q.1) by (unfold pos_leb in Hpq; lia). split; [by apply edited_docwf|by apply index_after_treewf; [lia..|]|].
  intros Hx. unfold lines_of in *. apply edit_wrap_ok; [done|lia|lia|lia|by apply Hi].
Qed.

Lemma range_of_valid lines p q : valid lines p -> valid lines q -> pos_leb p q = true ->
  range_of lines p.1 p.2 q.1 q.2 = (p, q).
Proof.
  intros Vp Vq H. unfold range_of. rewrite !normalisecaret_id by done.
  replace (pos_ltb q p) with false; [done|]. unfold pos_ltb, pos_leb in *. lia.
Qed.

(** [editapply] between two offsets. *)
Lemma edit_at s a b text (Q : pystr * pystr -> wst -> Prop) :
  editwf s -> 0 <= a <= b -> b <= zlen (text_of s) ->
  let p := position_at (text_of s) a in
  let q := position_at (text_of s) b in
  let inserted := normalise_newlines text in
  (forall s', s' = edited s p q inserted ->
     editwf s' -> text_of s' = zsplice (text_of s) a b inserted ->
     cursor (w_caret s') = position_at (text_of s') (a + zlen inserted) ->
     Q (zslice (text_of s) a b, inserted) s') ->
  runs (editapply p.1 p.2 q.1 q.2 text) s Q.
Proof.
  intros Hs Ha Hb p q ins HQ. pose proof Hs as [Hd Ht _]. pose proof (docwf_good _ Hd) as Hg. pose proof (good_nl _ Hg) as Hn.
  destruct (position_at_valid _ Hn (proj1 Hg) a) as [Vp Op]; [unfold text_of, lines_of in *; lia|].
  destruct (position_at_valid _ Hn (proj1 Hg) b) as [Vq Oq]; [unfold text_of, lines_of in *; lia|].
  fold (lines_of s) (text_of s) in Vp, Vq, Op, Oq. fold p in Vp, Op. fold q in Vq, Oq.
  assert (Hpq : pos_leb p q = true) by (apply (offset_le (lines_of s)); [done|done|lia]).
  apply editapply_run; [done|done|]. rewrite range_of_valid by done. fold ins.
  destruct (edited_text s p q ins Hd Vp Vq Hpq) as [T R]. rewrite R. rewrite Op, Oq in *.
  apply HQ; [done| |done|].
  - apply edited_editwf; try done. apply normalise_lacks_cr.
  - rewrite T. unfold zsplice. rewrite Z.max_r by lia.
    transitivity (textpositionafter p.1 p.2 ins); [symmetry; apply surjective_pairing|].
    rewrite (edited_position s p ins (zdrop b (text_of s)) Hd Vp), Op. done.
Qed.

(** ** Actions *)

Definition caret_of (x : Z * Z * Z * Z) : Z * Z := (x.1.1.1, x.1.1.2).

(** The action leads from the lines [l0] to the lines [l1]. *)
Record applies (act : action) (l0 l1 : list pystr) : Prop := {
  ap_good0 : good_lines l0;
  ap_good1 : good_lines l1;
  ap_valid : valid l0 (a_start act);
  ap_fits : offset l0 (a_start act) + zlen (a_removed act) <= zlen (joined l0);
  ap_removed : zslice (joined l0) (offset l0 (a_start act)) (offset l0 (a_start act) + zlen (a_removed act)) = a_removed act;
  ap_text : joined l1 = zsplice (joined l0) (offset l0 (a_start act)) (offset l0 (a_start act) + zlen (a_removed act)) (a_inserted act);
  ap_clean : lacks CR (a_removed act) /\ lacks CR (a_inserted act);
  ap_before : caret_in l0 (caret_of (a_before act));
  ap_after : caret_in l1 (caret_of (a_after act)) }.

Lemma applies_start act l0 l1 : applies act l0 l1 ->
  let a := offset l0 (a_start act) in
  0 <= a /\ a + zlen (a_removed act) <= zlen (joined l0) /\ a + zlen (a_inserted act) <= zlen (joined l1) /\
  a_start act = position_at (joined l0) a /\ a_start act = position_at (joined l1) a /\
  textpositionafter (a_start act).1 (a_start act).2 (a_removed act) = position_at (joined l0) (a + zlen (a_removed act)) /\
  textpositionafter (a_start act).1 (a_start act).2 (a_inserted act) = position_at (joined l1) (a + zlen (a_inserted act)).
Proof.
  intros [G0 G1 V F R T C _ _] a. pose proof (offset_bounds _ _ V) as Hb. fold a in Hb, F, R, T.
  pose proof (zlen_nonneg (a_removed act)). pose proof (zlen_nonneg (a_inserted act)).
  assert (L1 : zlen (joined l1) = a + zlen (a_inserted act) + (zlen (joined l0) - (a + zlen (a_removed act)))).
  { rewrite T, zsplice_length by lia. done. }
  assert (P0 : a_start act = position_at (joined l0) a) by (symmetry; apply position_offset; [by apply good_nl|done]).
  assert (P1 : position_at (joined l1) a = position_at (joined l0) a).
  { unfold position_at. by rewrite T, ztake_splice by lia. }
  assert (Step : forall t x, 0 <= a -> a + zlen x <= zlen t -> zslice t a (a + zlen x) = x ->
    position_at t (a + zlen x) = textpositionafter (position_at t a).1 (position_at t a).2 x).
  { intros t x Ha Hx E. pose proof (zlen_nonneg x). unfold position_at. rewrite <- textpositionafter_app.
    f_equal. rewrite <- E at 2. rewrite <- (ztake_zdrop a t) at 1. unfold ztake, zslice, zdrop.
    rewrite take_app. unfold zlen in *. rewrite take_take, length_take. f_equal; [f_equal; lia|].
    unfold ztake. f_equal. lia. }
  split_and!; try lia.
  - done.
  - by rewrite P1.
  - rewrite P0. symmetry. apply Step; [lia|lia|done].
  - rewrite P0, <- P1. symmetry. apply Step; [lia|lia|]. rewrite T. apply zslice_splice; lia.
Qed.

(** [editapply] between two positions that are those of two offsets. *)
Lemma edit_between s p q a b text (Q : pystr * pystr -> wst -> Prop) :
  editwf s -> 0 <= a <= b -> b <= zlen (text_of s) ->
  p = position_at (text_of s) a -> q = position_at (text_of s) b -> lacks CR text ->
  (forall r s', editwf s' -> text_of s' = zsplice (text_of s) a b text -> s' = edited s p q text -> Q r s') ->
  runs (editapply p.1 p.2 q.1 q.2 text) s Q.
Proof.
  intros Hs Ha Hb -> -> Ht HQ. apply edit_at; [done..|]. rewrite normalise_clean by done.
  intros s' E W T _. by apply HQ.
Qed.

(** Undoing an action on the lines it led to gives the lines it started from. *)
Lemma undo_apply act l0 s (Q : pystr * pystr -> wst -> Prop) :
  editwf s -> applies act l0 (lines_of s) ->
  (forall r s', editwf s' -> lines_of s' = l0 ->
     (exists p q, s' = edited s p q (a_removed act)) -> Q r s') ->
  let e := textpositionafter (a_start act).1 (a_start act).2 (a_inserted act) in
  runs (editapply (a_start act).1 (a_start act).2 e.1 e.2 (a_removed act)) s Q.
Proof.
  intros Hs Ha HQ e. pose proof (applies_start _ _ _ Ha) as H. cbv zeta in H. fold e in H.
  pose proof (ap_text _ _ _ Ha) as T1. pose proof (ap_removed _ _ _ Ha) as R1.
  set (a := offset l0 (a_start act)) in *. destruct H as (H1 & H2 & H3 & _ & H4 & _ & H5).
  pose proof (zlen_nonneg (a_inserted act)). pose proof (zlen_nonneg (a_removed act)).
  apply (edit_between s _ _ a (a + zlen (a_inserted act))); [done|lia|done..|apply Ha|].
  intros r s' W T E. apply HQ; [done| |by eauto].
  apply good_joined; [apply docwf_good, W|apply Ha|]. fold (text_of s'). rewrite T. unfold text_of.
  pose proof (zsplice_undo (joined l0) a (a + zlen (a_removed act)) (a_inserted act) ltac:(lia) H2) as U.
  by rewrite R1, <- T1 in U.
Qed.

Lemma redo_apply act l1 s (Q : pystr * pystr -> wst -> Prop) :
  editwf s -> applies act (lines_of s) l1 ->
  (forall r s', editwf s' -> lines_of s' = l1 ->
     (exists p q, s' = edited s p q (a_inserted act)) -> Q r s') ->
  let e := textpositionafter (a_start act).1 (a_start act).2 (a_removed act) in
  runs (editapply (a_start act).1 (a_start act).2 e.1 e.2 (a_inserted act)) s Q.
Proof.
  intros Hs Ha HQ e. pose proof (applies_start _ _ _ Ha) as H. cbv zeta in H. fold e in H.
  pose proof (ap_text _ _ _ Ha) as T1.
  set (a := offset (lines_of s) (a_start act)) in *. destruct H as (H1 & H2 & H3 & H4 & _ & H5 & _).
  pose proof (zlen_nonneg (a_inserted act)). pose proof (zlen_nonneg (a_removed act)).
  apply (edit_between s _ _ a (a + zlen (a_removed act))); [done|lia|done..|apply Ha|].
  intros r s' W T E. apply HQ; [done| |by eauto].
  apply good_joined; [apply docwf_good, W|apply Ha|]. fold (text_of s'). by rewrite T, T1.
Qed.

End Apply.

(** ** The invariant of the history

    A timeline gives the lines of every revision number used so far.  The
    actions to be undone lead back through it from the current revision, those to
    be redone lead on. *)

Definition timeline : Type := Z -> list pystr.

Section History.
Context {FT : Font} {CP : Carets}.

Fixpoint undo_chain (M : timeline) (next rev : Z) (stack : list action) : Prop :=
  match stack with
  | [] => True
  | act :: rest =>
      a_afterrev act = rev /\ 0 <= a_beforerev act < next /\
      applies act (M (a_beforerev act)) (M rev) /\ undo_chain M next (a_beforerev act) rest
  end.

Fixpoint redo_chain (M : timeline) (next rev : Z) (stack : list action) : Prop :=
  match stack with
  | [] => True
  | act :: rest =>
      a_beforerev act = rev /\ 0 <= a_afterrev act < next /\
      applies act (M rev) (M (a_afterrev act)) /\ redo_chain M next (a_afterrev act) rest
  end.

Definition extends (M M' : timeline) (n : Z) : Prop := forall r, r < n -> M' r = M r.

Lemma extends_refl M n : extends M M n.
Proof. done. Qed.

Lemma extends_trans M M' M'' n n' : n <= n' -> extends M M' n -> extends M' M'' n' -> extends M M'' n.
Proof. intros Hn H H' r Hr. rewrite H' by lia. by apply H. Qed.

Lemma undo_chain_extend M M' n n' rev stack : rev < n -> n <= n' -> extends M M' n ->
  undo_chain M n rev stack -> undo_chain M' n' rev stack.
Proof.
  intros Hr Hn He. revert rev Hr. induction stack as [|act stack IH]; intros rev Hr; [done|].
  cbn. intros (H1 & H2 & H3 & H4). split_and!; [done|lia..| |].
  - rewrite !He by lia. done.
  - apply IH; [lia|done].
Qed.

Definition bytes_of (stack : list action) : Z := zsum (List.map a_bytes stack).
Lemma bytes_cons act l : bytes_of (act :: l) = a_bytes act + bytes_of l.
Proof. done. Qed.

Definition sized (act : action) : Prop := a_bytes act = historysize (a_removed act) (a_inserted act).

Record hist_inv (M : timeline) (s : wst) : Prop := {
  hi_edit : editwf s;
  hi_caret : caret_in (lines_of s) (cursor (w_caret s));
  hi_now : M (CURRENT_REVISION (w_hist s)) = lines_of s;
  hi_current : 0 <= CURRENT_REVISION (w_hist s) < NEXT_REVISION (w_hist s);
  hi_saved : 0 <= SAVED_REVISION (w_hist s) < NEXT_REVISION (w_hist s);
  hi_undo : undo_chain M (NEXT_REVISION (w_hist s)) (CURRENT_REVISION (w_hist s)) (UNDO_STACK (w_hist s));
  hi_redo : redo_chain M (NEXT_REVISION (w_hist s)) (CURRENT_REVISION (w_hist s)) (REDO_STACK (w_hist s));
  hi_dirty : IS_DIRTY (w_hist s) = negb (CURRENT_REVISION (w_hist s) =? SAVED_REVISION (w_hist s));
  hi_bytes : UNDO_BYTES (w_hist s) = bytes_of (UNDO_STACK (w_hist s));
  hi_sized : Forall sized (UNDO_STACK (w_hist s)) /\ Forall sized (REDO_STACK (w_hist s));
  hi_length : (length (UNDO_STACK (w_hist s)) + length (REDO_STACK (w_hist s)) <= UNDO_LIMIT)%nat }.

(** ** Pushing *)

Lemma removelast_take {A} (l : list A) : removelast l = take (length l - 1) l.
Proof. rewrite removelast_firstn_len. f_equal. lia. Qed.

Lemma bytes_removelast a l : bytes_of (removelast (a :: l)) = bytes_of (a :: l) - a_bytes (List.last l a).
Proof.
  assert (H : a :: l = removelast (a :: l) ++ [List.last l a]).
  { rewrite (app_removelast_last a (l := a :: l)) at 1 by done. f_equal. f_equal. by destruct l. }
  rewrite H at 2. unfold bytes_of. rewrite List.map_app, zsum_app. simpl. lia.
Qed.

Lemma history_trim_spec fuel : forall h,
  UNDO_BYTES h = bytes_of (UNDO_STACK h) -> (length (UNDO_STACK h) <= fuel)%nat ->
  exists k, (k <= length (UNDO_STACK h))%nat /\
    history_trim fuel h = set_UNDO_BYTES (bytes_of (take k (UNDO_STACK h))) (set_UNDO_STACK (take k (UNDO_STACK h)) h) /\
    (k <= UNDO_LIMIT)%nat /\ (k = 0%nat \/ bytes_of (take k (UNDO_STACK h)) <= UNDO_BYTE_LIMIT) /\
    (forall k', (k < k' <= length (UNDO_STACK h))%nat ->
       (UNDO_LIMIT < k')%nat \/ UNDO_BYTE_LIMIT < bytes_of (take k' (UNDO_STACK h))).
Proof.
  induction fuel as [|f IH]; intros h Hb Hf; cbn [history_trim].
  - destruct (UNDO_STACK h) as [|a l] eqn:E; [|simpl in Hf; lia]. exists 0%nat. split_and!; [lia| |lia|by left|simpl; lia].
    destruct h. simpl in *. by subst.
  - destruct (UNDO_STACK h) as [|a l] eqn:E.
    { exists 0%nat. split_and!; [simpl; lia| |lia|by left|simpl; lia]. destruct h. simpl in *. by subst. }
    destruct (_ || _) eqn:C.
    + destruct (IH (set_UNDO_BYTES (UNDO_BYTES h - a_bytes (List.last l a)) (set_UNDO_STACK (removelast (a :: l)) h)))
        as (k & Hk & Eq & L1 & L2 & L3).
      { cbn [UNDO_BYTES UNDO_STACK set_UNDO_BYTES set_UNDO_STACK]. rewrite Hb. symmetry. apply bytes_removelast. }
      { cbn [UNDO_STACK set_UNDO_BYTES set_UNDO_STACK]. rewrite removelast_take, length_take. simpl in *. lia. }
      cbn [UNDO_STACK set_UNDO_BYTES set_UNDO_STACK] in *. rewrite removelast_take in *. rewrite length_take in Hk.
      rewrite take_take in *. replace (k `min` (length (a :: l) - 1))%nat with k in * by (simpl in *; lia).
      exists k. split_and!; [simpl in *; lia|rewrite Eq; by destruct h|done|done|]. intros k' Hk'.
      destruct (decide (k' = length (a :: l))) as [->|Hne].
      * rewrite firstn_all. apply orb_true_iff in C as [C|C]; [left; by apply Nat.ltb_lt|right; rewrite <- Hb; lia].
      * specialize (L3 k'). rewrite length_take, take_take in L3. replace (k' `min` (length (a :: l) - 1))%nat with k' in L3 by lia.
        apply L3. lia.
    + exists (length (a :: l)). rewrite firstn_all. apply orb_false_iff in C as [C1 C2].
      split_and!; [done| |apply Nat.ltb_ge in C1; done|right; rewrite <- Hb; lia|lia].
      rewrite <- Hb, <- E. by destruct h.
Qed.

Lemma undo_chain_take M n k : forall rev stack, undo_chain M n rev stack -> undo_chain M n rev (take k stack).
Proof.
  induction k as [|k IH]; intros rev [|act stack]; try done. cbn. intros (H1 & H2 & H3 & H4). split_and!; [done|lia|lia|done|by apply IH].
Qed.

(** Typing on makes one action of two. *)
Lemma merged_applies prev act now l0 l1 l2 :
  applies prev l0 l1 -> applies act l1 l2 -> a_removed prev = [] -> a_removed act = [] ->
  a_start act = textpositionafter (a_start prev).1 (a_start prev).2 (a_inserted prev) ->
  applies (merged prev act now) l0 l2.
Proof.
  intros P Q Rp Ra S. pose proof (applies_start _ _ _ P) as H. cbv zeta in H.
  pose proof (ap_text _ _ _ P) as Tp. pose proof (ap_text _ _ _ Q) as Tq. rewrite Rp in *. rewrite Ra in *.
  set (a := offset l0 (a_start prev)) in *. rewrite zlen_nil, Z.add_0_r in *. destruct H as (H1 & H2 & H3 & _ & _ & _ & H5).
  pose proof (zlen_nonneg (a_inserted prev)).
  destruct (position_at_valid l1 (good_nl _ (ap_good1 _ _ _ P)) (proj1 (ap_good1 _ _ _ P)) (a + zlen (a_inserted prev)))
    as [_ O]; [lia|]. rewrite <- H5, <- S in O. rewrite O, Tp, zsplice_insert in Tq by lia.
  constructor; cbn [merged a_start a_removed a_inserted a_before a_after]; rewrite ?Rp, ?zlen_nil, ?Z.add_0_r.
  all: try apply P; try apply Q.
  - done.
  - unfold zslice. fold a. by rewrite Z.sub_diag.
  - done.
  - split; [constructor|]. apply Forall_app. split; [apply P|apply Q].
Qed.

(** The parts of the history that pushing leaves alone. *)
Definition same_revisions (h h' : hist) : Prop :=
  CURRENT_REVISION h' = CURRENT_REVISION h /\ SAVED_REVISION h' = SAVED_REVISION h /\
  NEXT_REVISION h' = NEXT_REVISION h /\ IS_DIRTY h' = IS_DIRTY h.

Lemma applies_timed act now l0 l1 : applies act l0 l1 -> applies (timed act now) l0 l1.
Proof. intros []. by constructor. Qed.

Lemma push_spec M n h act now :
  undo_chain M n (a_beforerev act) (UNDO_STACK h) -> 0 <= a_beforerev act < n ->
  applies act (M (a_beforerev act)) (M (a_afterrev act)) ->
  UNDO_BYTES h = bytes_of (UNDO_STACK h) -> Forall sized (UNDO_STACK h) ->
  (length (UNDO_STACK h) <= UNDO_LIMIT)%nat ->
  let h' := push act now h in
  undo_chain M n (a_afterrev act) (UNDO_STACK h') /\ REDO_STACK h' = [] /\ same_revisions h h' /\
  UNDO_BYTES h' = bytes_of (UNDO_STACK h') /\ Forall sized (UNDO_STACK h') /\
  (length (UNDO_STACK h') <= UNDO_LIMIT)%nat.
Proof.
  intros Hc Hb Ha Hy Hs Hl h'. set (t := timed act now).
  assert (Alone : forall h0, h0 = set_REDO_STACK [] (set_UNDO_BYTES
      (UNDO_BYTES h + historysize (a_removed act) (a_inserted act)) (set_UNDO_STACK (t :: UNDO_STACK h) h)) ->
    let h1 := history_trim (S (length (UNDO_STACK h))) h0 in
    undo_chain M n (a_afterrev act) (UNDO_STACK h1) /\ REDO_STACK h1 = [] /\ same_revisions h h1 /\
    UNDO_BYTES h1 = bytes_of (UNDO_STACK h1) /\ Forall sized (UNDO_STACK h1) /\ (length (UNDO_STACK h1) <= UNDO_LIMIT)%nat).
  { intros h0 E h1. assert (Es : UNDO_STACK h0 = t :: UNDO_STACK h) by by rewrite E.
    destruct (history_trim_spec (S (length (UNDO_STACK h))) h0) as (k & Hk & Et & L1 & _ & _).
    { rewrite Es, E, bytes_cons. cbn [UNDO_BYTES set_REDO_STACK set_UNDO_BYTES].
      change (a_bytes t) with (historysize (a_removed act) (a_inserted act)). lia. }
    { rewrite Es. simpl. lia. }
    unfold h1. rewrite Et, Es. cbn [UNDO_STACK REDO_STACK UNDO_BYTES set_UNDO_BYTES set_UNDO_STACK].
    split_and!; [|by rewrite E|by rewrite E|done| |].
    - apply undo_chain_take. cbn. split_and!; [done|lia|lia|by apply applies_timed|done].
    - apply Forall_take. constructor; [done|done].
    - rewrite length_take. lia. }
  unfold h', push. fold t. destruct (UNDO_STACK h) as [|previous rest] eqn:E; [by apply Alone|].
  destruct (continues (SAVED_REVISION h) previous act now) eqn:C; [|by apply Alone].
  unfold continues in C. repeat (apply andb_true_iff in C as [C ?]).
  repeat match goal with H : bool_decide _ = true |- _ => apply bool_decide_eq_true in H end.
  cbn [UNDO_STACK REDO_STACK UNDO_BYTES set_UNDO_BYTES set_UNDO_STACK set_REDO_STACK].
  destruct Hc as (C1 & C2 & C3 & C4). inversion Hs as [|? ? S1 S2]; subst.
  split_and!; [|done|done| |constructor; done|done].
  - cbn. split_and!; [done|lia|lia| |done]. rewrite C1 in C3 || idtac. by eapply merged_applies.
  - rewrite Hy, !bytes_cons. lia.
Qed.

End History.

(** ** The operations keep the invariant *)

Section Operations.
Context {FT : Font} {CK : Clock} {CP : Carets}.

(** [s] with another history and clock. *)
Definition with_hist (h : hist) (t : nat) (s : wst) : wst :=
  mkwst (w_doc s) (w_caret s) (w_view s) (w_wrap s) (w_widths s) h (w_conf s) (w_search s) (w_file s) (w_io s) t.

Lemma text_lacks_cr lines : Forall clean lines -> lacks CR (joined lines).
Proof.
  intros H. destruct H as [|x l [_ Hx] Hl]; [constructor|]. rewrite join_tails. apply Forall_app. split; [done|].
  induction Hl as [|y l [_ Hy] _ IH]; [constructor|]. cbn. constructor; [done|]. apply Forall_app. by split.
Qed.

Lemma edited_good s p q ins :
  editwf s -> valid (lines_of s) p -> valid (lines_of s) q -> pos_leb p q = true -> lacks CR ins ->
  editwf (edited s p q ins) /\ valid (lines_of (edited s p q ins)) (cursor (w_caret (edited s p q ins))) /\
  text_of (edited s p q ins) = zsplice (text_of s) (offset (lines_of s) p) (offset (lines_of s) q) ins /\
  cursor (w_caret (edited s p q ins)) =
    position_at (text_of (edited s p q ins)) (offset (lines_of s) p + zlen ins).
Proof.
  intros Hs Vp Vq Hpq Hi. pose proof Hs as [Hd Ht _].
  assert (W : editwf (edited s p q ins)) by by apply edited_editwf.
  pose proof (docwf_good _ (ed_doc _ W)) as G. destruct (edited_text s p q ins Hd Vp Vq Hpq) as [T _].
  pose proof (offset_bounds _ _ Vp). pose proof (offset_bounds _ _ Vq). pose proof (zlen_nonneg ins).
  pose proof (proj1 (offset_le _ _ _ Vp Vq) Hpq).
  assert (C : cursor (w_caret (edited s p q ins)) =
    position_at (text_of (edited s p q ins)) (offset (lines_of s) p + zlen ins)).
  { rewrite T. unfold zsplice. rewrite Z.max_r by lia. rewrite <- (edited_position s p ins _ Hd Vp).
    symmetry. apply surjective_pairing. }
  split_and!; [done| |done|done]. rewrite C. apply position_at_valid; [by apply good_nl|apply G|].
  fold (lines_of (edited s p q ins)). fold (text_of (edited s p q ins)). rewrite T, zsplice_length by (unfold text_of; lia).
  unfold text_of in *. lia.
Qed.

(** The action [editreplace] records. *)
Lemma edit_applies s p q ins before after b a :
  editwf s -> valid (lines_of s) p -> valid (lines_of s) q -> pos_leb p q = true -> lacks CR ins ->
  caret_in (lines_of s) (caret_of before) -> caret_in (lines_of (edited s p q ins)) (caret_of after) ->
  applies (mkaction p (removed_text (lines_of s) p q) ins before after b a 0 fzero)
    (lines_of s) (lines_of (edited s p q ins)).
Proof.
  intros Hs Vp Vq Hpq Hi Hb Ha. pose proof (ed_doc _ Hs) as Hd. destruct (edited_text s p q ins Hd Vp Vq Hpq) as [T R].
  destruct (edited_good s p q ins Hs Vp Vq Hpq Hi) as (W & _). pose proof (docwf_good _ Hd) as G.
  pose proof (offset_bounds _ _ Vp). pose proof (offset_bounds _ _ Vq). pose proof (proj1 (offset_le _ _ _ Vp Vq) Hpq).
  assert (L : offset (lines_of s) p + zlen (removed_text (lines_of s) p q) = offset (lines_of s) q).
  { rewrite R. unfold text_of. rewrite zlen_slice by lia. lia. }
  constructor; cbn [a_start a_removed a_inserted a_before a_after]; rewrite ?L; try done.
  - apply docwf_good, W.
  - lia.
  - split; [|done]. rewrite R. unfold zslice. apply Forall_take, Forall_drop, text_lacks_cr, G.
Qed.

(** The history with a new revision, and the action an edit records. *)
Definition revised (h : hist) : hist :=
  set_IS_DIRTY (negb (NEXT_REVISION h =? SAVED_REVISION h))
    (set_CURRENT_REVISION (NEXT_REVISION h) (set_NEXT_REVISION (NEXT_REVISION h + 1) h)).

Definition recorded (s : wst) p q (ins : pystr) : action :=
  mkaction p (removed_text (lines_of s) p q) ins (position s) (position (edited s p q ins))
    (CURRENT_REVISION (w_hist s)) (NEXT_REVISION (w_hist s)) 0 fzero.

Lemma editreplace_run M s sr sc er ec text (Q : bool -> wst -> Prop) :
  hist_inv M s ->
  (let '(p, q) := range_of (lines_of s) sr sc er ec in
   let ins := normalise_newlines text in
   let changed := negb (bool_decide (removed_text (lines_of s) p q = ins)) in
   valid (lines_of s) p -> valid (lines_of s) q -> pos_leb p q = true ->
   forall M' h t, hist_inv M' (with_hist h t (edited s p q ins)) ->
     extends M M' (NEXT_REVISION (w_hist s)) -> NEXT_REVISION (w_hist s) <= NEXT_REVISION h ->
     SAVED_REVISION h = SAVED_REVISION (w_hist s) ->
     (changed = true -> h = push (recorded s p q ins) (mono (w_tick s)) (revised (w_hist s)) /\
        CURRENT_REVISION h = NEXT_REVISION (w_hist s)) ->
     (changed = false -> h = w_hist s) ->
     Q changed (with_hist h t (edited s p q ins))) ->
  runs (editreplace sr sc er ec text) s Q.
Proof.
  intros I HQ. pose proof (hi_edit _ _ I) as Hs. pose proof (ed_doc _ Hs) as Hd.
  pose proof (range_valid (lines_of s) sr sc er ec (wf_nonempty _ Hd)) as Hr.
  unfold editreplace. run. fold (range_of (lines_of s) sr sc er ec).
  destruct (range_of (lines_of s) sr sc er ec) as [p q] eqn:Er. destruct Hr as (Vp & Vq & Hpq).
  set (ins := normalise_newlines text) in *. pose proof (normalise_lacks_cr text : lacks CR ins) as Hi.
  destruct (edited_good s p q ins Hs Vp Vq Hpq Hi) as (W & Vc & T & C).
  run. apply editapply_run; [done|apply Hs|]. rewrite range_of_valid by done. fold ins.
  set (e := edited s p q ins) in *. cbv zeta in HQ.
  cbv beta iota zeta.
  destruct (bool_decide _) eqn:Eb; cbn [negb] in HQ.
  - run. apply bool_decide_eq_true in Eb. assert (El : lines_of e = lines_of s).
    { apply good_joined; [apply docwf_good, W|by apply docwf_good|]. fold (text_of e) (text_of s). rewrite T.
      destruct (edited_text s p q ins Hd Vp Vq Hpq) as [_ R]. rewrite <- Eb, R.
      apply zsplice_same. pose proof (offset_bounds _ _ Vp). pose proof (proj1 (offset_le _ _ _ Vp Vq) Hpq). lia. }
    replace e with (with_hist (w_hist s) (w_tick s) e) by done.
    apply (HQ Vp Vq Hpq M); [|done|lia|done|done|done]. destruct I as [? ? H3 ? ? ? ? ? ? ? ?].
    constructor; try done; [by apply caret_in_valid|]. change (M (CURRENT_REVISION (w_hist s)) = lines_of e). by rewrite H3, El.
  - set (n := NEXT_REVISION (w_hist s)). set (M' := fun r => if r =? n then lines_of e else M r).
    set (act := mkaction p (removed_text (lines_of s) p q) ins (position s) (position e)
      (CURRENT_REVISION (w_hist s)) n 0 fzero).
    set (h1 := set_IS_DIRTY (negb (n =? SAVED_REVISION (w_hist s)))
      (set_CURRENT_REVISION n (set_NEXT_REVISION (n + 1) (w_hist s)))).
    set (now := mono (w_tick s)).
    enough (Q true (with_hist (push act now h1) (S (w_tick s)) e)) as HE by exact HE.
    assert (X : extends M M' n) by (intros r Hr; unfold M'; by rewrite (proj2 (Z.eqb_neq r n)) by lia).
    pose proof (hi_current _ _ I) as Hc. fold n in Hc. pose proof (hi_saved _ _ I) as Hsv. fold n in Hsv.
    assert (En : M' n = lines_of e) by (unfold M'; by rewrite Z.eqb_refl).
    assert (E0 : M' (CURRENT_REVISION (w_hist s)) = lines_of s) by (rewrite X by lia; apply I).
    assert (A : applies act (M' (a_beforerev act)) (M' (a_afterrev act))).
    { change (a_beforerev act) with (CURRENT_REVISION (w_hist s)). change (a_afterrev act) with n. rewrite E0, En.
      apply edit_applies; try done; [apply I|by apply caret_in_valid]. }
    destruct (push_spec M' (n + 1) h1 act now) as (P1 & P2 & (P3 & P4 & P5 & P6) & P7 & P8 & P9).
    { eapply undo_chain_extend; [..|exact (hi_undo _ _ I)]; fold n; [apply Hc|lia|done]. }
    { change (a_beforerev act) with (CURRENT_REVISION (w_hist s)). lia. }
    { done. }
    { apply I. }
    { apply I. }
    { pose proof (hi_length _ _ I). change (UNDO_STACK h1) with (UNDO_STACK (w_hist s)). lia. }
    change (CURRENT_REVISION h1) with n in P3. change (SAVED_REVISION h1) with (SAVED_REVISION (w_hist s)) in P4.
    change (NEXT_REVISION h1) with (n + 1) in P5.
    apply (HQ Vp Vq Hpq M'); [|done|rewrite P5; fold n; lia|done|done|done].
    constructor; cbn [w_hist with_hist w_doc w_caret]; rewrite ?P2, ?P3, ?P4, ?P5, ?P6; try done; try lia.
    + split; apply W.
    + by apply caret_in_valid.
    + simpl length. by rewrite Nat.add_0_r.
Qed.

(** What undoing and redoing leave alone. *)
Definition hist_frame (s s' : wst) : Prop :=
  w_conf s' = w_conf s /\ w_search s' = w_search s /\ w_file s' = w_file s /\ w_io s' = w_io s /\
  SAVED_REVISION (w_hist s') = SAVED_REVISION (w_hist s) /\ NEXT_REVISION (w_hist s') = NEXT_REVISION (w_hist s).

Lemma undo_run M s (Q : unit -> wst -> Prop) :
  hist_inv M s ->
  (forall s', hist_inv M s' -> hist_frame s s' ->
     match UNDO_STACK (w_hist s) with
     | [] => s' = s
     | act :: rest =>
         CURRENT_REVISION (w_hist s') = a_beforerev act /\ position s' = a_before act /\
         UNDO_STACK (w_hist s') = rest /\ REDO_STACK (w_hist s') = act :: REDO_STACK (w_hist s) /\
         SEL_ACTIVE (w_caret s') = false
     end -> Q tt s') ->
  runs undo s Q.
Proof.
  intros I HQ. pose proof (hi_undo _ _ I) as Hu. unfold undo. run.
  destruct (UNDO_STACK (w_hist s)) as [|act rest] eqn:E; [run; by apply HQ|].
  destruct Hu as (H1 & H2 & H3 & H4). rewrite H1 in H3 || idtac. run.
  set (s1 := on_hist _ (on_hist _ s)).
  pose proof (undo_apply act (M (a_beforerev act)) s1) as U.
  destruct (a_start act) as [sr sc]. cbv beta iota. cbn [fst snd] in U.
  destruct (textpositionafter sr sc (a_inserted act)) as [er ec]. cbv beta iota. cbn [fst snd] in U. run.
  apply U; [split; apply I|change (lines_of s1) with (lines_of s); rewrite <- (hi_now _ _ I); exact H3|].
  intros r s' W El (p & q & Es). run. unfold goto_position, set_revision, clearselection.
  destruct (a_before act) as [[[row col] vrow] vx] eqn:Eb. run.
  pose proof (ap_before _ _ _ H3) as Vb. rewrite Eb in Vb.
  pose proof (hi_current _ _ I). pose proof (hi_saved _ _ I). pose proof (hi_sized _ _ I) as [S1 S2].
  pose proof (hi_length _ _ I) as L. rewrite E in S1, L. inversion S1; subst.
  apply HQ; [|done|done]. constructor; cbn; try done.
  - split; apply W.
  - exact (eq_ind_r (fun l => caret_in l _) Vb El).
  - rewrite H1. split_and!; [done|lia|lia|exact H3|apply I].
  - rewrite (hi_bytes _ _ I), E, bytes_cons. unfold bytes_of, zsum. lia.
  - split; [done|by constructor].
  - simpl in *. lia.
Qed.

Lemma redo_run M s (Q : unit -> wst -> Prop) :
  hist_inv M s ->
  (forall s', hist_inv M s' -> hist_frame s s' ->
     match REDO_STACK (w_hist s) with
     | [] => s' = s
     | act :: rest =>
         CURRENT_REVISION (w_hist s') = a_afterrev act /\ position s' = a_after act /\
         REDO_STACK (w_hist s') = rest /\ UNDO_STACK (w_hist s') = act :: UNDO_STACK (w_hist s) /\
         SEL_ACTIVE (w_caret s') = false
     end -> Q tt s') ->
  runs redo s Q.
Proof.
  intros I HQ. pose proof (hi_redo _ _ I) as Hu. unfold redo. run.
  destruct (REDO_STACK (w_hist s)) as [|act rest] eqn:E; [run; by apply HQ|].
  destruct Hu as (H1 & H2 & H3 & H4). run.
  set (s1 := on_hist _ s).
  pose proof (redo_apply act (M (a_afterrev act)) s1) as U.
  destruct (a_start act) as [sr sc]. cbv beta iota. cbn [fst snd] in U.
  destruct (textpositionafter sr sc (a_removed act)) as [er ec]. cbv beta iota. cbn [fst snd] in U. run.
  apply U; [split; apply I|change (lines_of s1) with (lines_of s); rewrite <- (hi_now _ _ I); exact H3|].
  intros r s' W El (p & q & Es). run. unfold goto_position, set_revision, clearselection.
  destruct (a_after act) as [[[row col] vrow] vx] eqn:Eb. run.
  pose proof (ap_after _ _ _ H3) as Vb. rewrite Eb in Vb.
  pose proof (hi_current _ _ I). pose proof (hi_saved _ _ I). pose proof (hi_sized _ _ I) as [S1 S2].
  pose proof (hi_length _ _ I) as L. rewrite E in S2, L. inversion S2; subst.
  apply HQ; [|done|done]. constructor; cbn; try done.
  - split; apply W.
  - exact (eq_ind_r (fun l => caret_in l _) Vb El).
  - split_and!; [done|lia|lia|by rewrite H1|rewrite H1; apply I].
  - rewrite (hi_bytes _ _ I). unfold bytes_of, zsum. lia.
  - split; [by constructor|done].
  - simpl in *. lia.
Qed.

End Operations.

(** What every command of the editor keeps: the text behind each revision, the
    history, the selection, and the caret. *)

Section Session.
Context {FT : Font} {CK : Clock} {AN : Alnum} {UC : PyUnicode} {CP : Carets}.

(** Nothing is asked of the caret, or that it is in the document. *)
Definition lax : Prop := forall lines p, caret_in lines p.
Definition strict : Prop := forall lines p, caret_in lines p -> valid lines p.

(** Only a search that minds the case is sure to leave the caret in the
    document, and only a replacement without carriage returns. *)
Definition exact_search (f : search) : Prop := FIND_MATCH_CASE f = true /\ lacks CR (REPLACE_QUERY f).

(** Changing the case of text without carriage returns gives such text. *)
Definition case_lacks_cr : Prop := forall s, lacks CR s -> lacks CR (uc_upper s) /\ lacks CR (uc_lower s).

Definition selection_in lines (c : caret) : Prop :=
  SEL_ACTIVE c = true -> valid lines (anchor c) /\ valid lines (endpoint c).

Record session (M : timeline) (s : wst) : Prop := {
  ss_hist : hist_inv M s;
  ss_selection : selection_in (lines_of s) (w_caret s);
  ss_tab : 1 <= TAB_WIDTH (w_conf s);
  ss_carets : lax \/ strict /\ (searching -> exact_search (w_search s)) /\ case_lacks_cr }.

(** The session goes on from [s] to [s']: older revisions keep their texts. *)
Definition good (M : timeline) (s s' : wst) : Prop := exists M', session M' s' /\
  extends M M' (NEXT_REVISION (w_hist s)) /\ NEXT_REVISION (w_hist s) <= NEXT_REVISION (w_hist s') /\
  SAVED_REVISION (w_hist s') = SAVED_REVISION (w_hist s) /\ w_io s' = w_io s /\ w_file s' = w_file s.

(** Whatever happens, exceptions included. *)
Definition safe_at {A} (s : wst) (m : W A) : Prop := forall M, session M s -> good M s (m s).2.

Lemma session_good M s s' : session M s' -> w_hist s' = w_hist s -> w_io s' = w_io s -> w_file s' = w_file s -> good M s s'.
Proof. intros H E1 E2 E3. exists M. rewrite E1. split_and!; try done. Qed.

Lemma good_refl M s : session M s -> good M s s.
Proof. intros H. by apply session_good. Qed.

Lemma good_session M s s' : good M s s' -> exists M', session M' s'.
Proof. intros (M' & H & _). by exists M'. Qed.

Lemma good_bind {A} M s s' (m : W A) : good M s s' -> safe_at s' m -> good M s (m s').2.
Proof.
  intros (M1 & H1 & X1 & L1 & S1 & I1 & F1) H. destruct (H M1 H1) as (M2 & H2 & X2 & L2 & S2 & I2 & F2).
  exists M2. split_and!; [done|by eapply extends_trans|lia|congruence..].
Qed.

(** ** Rules *)

Lemma safe_bind {A B} s (m : W A) (k : A -> W B) :
  safe_at s m -> (forall a s', m s = (Ok a, s') -> safe_at s' (k a)) -> safe_at s (m ≫= k).
Proof.
  intros H Hk M I. specialize (H M I). unfold mbind, w_bind. destruct (m s) as [[a|e] s'] eqn:E; [|exact H].
  by apply good_bind; [exact H|apply Hk].
Qed.

Lemma safe_gets {A B} s (f : wst -> A) (k : A -> W B) : safe_at s (k (f s)) -> safe_at s (gets f ≫= k).
Proof. intros H. exact H. Qed.

Lemma safe_ret {A} s (a : A) : safe_at s (mret a).
Proof. intros M I. by apply good_refl. Qed.

Lemma safe_lift {A} s (r : res A) : safe_at s (lift_w r).
Proof. intros M I. by apply good_refl. Qed.

Lemma safe_try {A} s (m : W A) a : safe_at s m -> safe_at s (try_w m a).
Proof. intros H M I. specialize (H M I). unfold try_w. by destruct (m s) as [[]]. Qed.

Lemma safe_runs {A} s (m : W A) : (forall M, session M s -> runs m s (fun _ s' => good M s s')) -> safe_at s m.
Proof. intros H M I. specialize (H M I). unfold runs in H. by destruct (m s) as [[a|e] s']. Qed.

(** A first part that does not fail, and what is known after it. *)
Lemma safe_first {A B} s (m : W A) (k : A -> W B) :
  (forall M, session M s -> runs m s (fun a s' => good M s s' /\ safe_at s' (k a))) -> safe_at s (m ≫= k).
Proof.
  intros H M I. specialize (H M I). unfold runs in H. unfold mbind, w_bind.
  destruct (m s) as [[a|e] s']; [|done]. destruct H as [H1 H2]. by apply good_bind.
Qed.

Lemma safe_value {A B} s (r : res A) (k : A -> W B) : (forall a, r = Ok a -> safe_at s (k a)) -> safe_at s (lift_w r ≫= k).
Proof.
  intros H M I. unfold mbind, w_bind, lift_w. destruct r as [a|e]; [by apply H|]. by apply good_refl.
Qed.

(** ** Steps *)

Lemma session_viewable M s : session M s -> viewable s.
Proof. intros [[[]]]. by constructor. Qed.

Lemma session_nonempty M s : session M s -> lines_of s <> [].
Proof. intros H. apply (wf_nonempty _ (vb_doc _ (session_viewable _ _ H))). Qed.

Lemma safe_caret s f : (forall M, session M s -> caret_in (lines_of s) (cursor (f (w_caret s))) /\
  selection_in (lines_of s) (f (w_caret s))) -> safe_at s (modify (on_caret f)).
Proof.
  intros H M I. destruct (H M I) as [Hc Hs]. apply session_good; try done.
  destruct I as [[[]] ? ? ?]. constructor; [|done..]. by constructor.
Qed.

Lemma safe_moved s p : (forall M, session M s -> caret_in (lines_of s) p) -> safe_at s (modify (on_caret (set_cursor p))).
Proof.
  intros H. apply safe_caret. intros M I. split; [destruct p; by apply (H M)|]. apply I.
Qed.

Lemma safe_view s f : safe_at s (modify (on_view f)).
Proof.
  intros M I. apply session_good; try done. destruct I as [[[]] ? ? ?]. constructor; [|done..]. by constructor.
Qed.

Lemma safe_reflow s row : safe_at s (set_reflow row).
Proof.
  intros M I. apply session_good; try done. destruct I as [[[[] ] ? ? ? ? ? ? ? ? ? ?] ? ? ?].
  constructor; [|done..]. by constructor.
Qed.

Lemma quiet_session M s s' : quiet s s' -> session M s -> good M s s'.
Proof.
  intros [] [[[]] ? ? ?]. apply session_good; [|done..].
  assert (lines_of s' = lines_of s) as El by (unfold lines_of; by rewrite q_doc).
  constructor; rewrite ?El, ?q_caret, ?q_conf, ?q_search; try done.
  constructor; rewrite ?El, ?q_caret, ?q_hist; try done. constructor; rewrite ?q_doc, ?q_conf; [done..|].
  intros X. by apply q_index, ed_index.
Qed.

Lemma moved_session M s p : session M s -> caret_in (lines_of s) p -> session M (moved s p).
Proof.
  intros [[[]] ? ? ?] Hp. constructor; [|done..]. constructor; try done. by destruct p.
Qed.

Lemma calm_session M s s' : calm s s' -> session M s -> good M s s'.
Proof.
  intros (p & Hp & H) I. assert (C : caret_in (lines_of s) p).
  { destruct (ss_carets _ _ I) as [L|[S _]]; [apply L|]. rewrite Hp; [apply I|]. apply S, I. }
  pose proof (quiet_session M _ _ H (moved_session _ _ _ I C)) as (M' & G). by exists M'.
Qed.

Lemma safe_ensure s : safe_at s ensurecursorvisible.
Proof.
  apply safe_runs. intros M I. apply ensurecursorvisible_calm; [by eapply session_viewable|].
  intros s' H. by apply calm_session.
Qed.

Lemma safe_clear s : safe_at s clearselection.
Proof. apply safe_caret. intros M I. split; [apply I|done]. Qed.

Lemma safe_anchor s row col : safe_at s (setselectionanchor row col).
Proof. intros M I. apply session_good; try done. destruct I as [[[]] ? ? ?]. constructor; [|done..]. by constructor. Qed.

Lemma safe_end s row col : (forall M, session M s -> valid (lines_of s) (anchor (w_caret s))) -> safe_at s (updateselectionend row col).
Proof.
  intros H M I. apply session_good; try done. specialize (H M I). pose proof (session_nonempty _ _ I) as Hne.
  destruct I as [[[]] ? ? ?]. constructor; [by constructor| |done..]. intros _. split; [exact H|].
  unfold endpoint. cbn. rewrite <- surjective_pairing. by apply normalisecaret_valid.
Qed.

(** ** Edits *)

Lemma edited_caret s p q ins : SEL_ACTIVE (w_caret (edited s p q ins)) = false.
Proof. done. Qed.

(** What an edit between two positions leaves. *)
Lemma editreplace_good M s sr sc er ec text (Q : bool -> wst -> Prop) : session M s ->
  (let '(p, q) := range_of (lines_of s) sr sc er ec in
   valid (lines_of s) p -> valid (lines_of s) q -> pos_leb p q = true ->
   forall b s', good M s s' ->
     lines_of s' = zsplice (lines_of s) p.1 (q.1 + 1) (new_lines (lines_of s) p q (normalise_newlines text)) ->
     cursor (w_caret s') = textpositionafter p.1 p.2 (normalise_newlines text) ->
     w_conf s' = w_conf s -> w_search s' = w_search s -> Q b s') ->
  runs (editreplace sr sc er ec text) s Q.
Proof.
  intros [H1 H2 H3 H4] HQ. apply (editreplace_run M); [done|].
  destruct (range_of (lines_of s) sr sc er ec) as [p q]. intros ins changed Vp Vq Hpq M' h t Hi X L S _ _.
  apply HQ; try done; [|symmetry; apply surjective_pairing].
  exists M'. by split_and!.
Qed.

Lemma safe_editreplace s sr sc er ec text : safe_at s (editreplace sr sc er ec text).
Proof.
  apply safe_runs. intros M I. apply (editreplace_good M); [done|]. destruct (range_of _ _ _ _ _) as [p q]. by intros.
Qed.

Lemma safe_replace s sr sc er ec text : safe_at s (replace sr sc er ec text).
Proof. unfold replace. apply safe_bind; [apply safe_editreplace|]. intros. apply safe_ret. Qed.

End Session.
