(* ===== verification/WriteCommands.v ===== *)
(** Every command of the editor keeps the session: one lemma per command, and
    the commands as a type. *)

From stdpp Require Import base option list gmap.
From Stdlib Require Import ZArith Lia Bool.
From S2P Require Import Prelude PyFloat PyText PyVal PyStr WriteState WriteText WriteTree WriteWrap WriteEdit WriteView.
From S2P Require Import WriteOps WriteEditSpec WriteWrapSpec WriteViewSpec WriteSession.
Open Scope Z_scope.

Implicit Types p q : Z * Z.
Implicit Types lines : list pystr.

(** Symbolic execution for [safe_at]: the cases of a command, down to the steps
    that need an argument of their own. *)
Ltac safe_step :=
  lazymatch goal with
  | |- safe_at _ (logged _) => unfold logged
  | |- safe_at _ (try_w _ _) => apply safe_try
  | |- safe_at _ (mret _) => apply safe_ret
  | |- safe_at _ skip => apply safe_ret
  | |- safe_at _ (lift_w _) => apply safe_lift
  | |- safe_at _ (gets _ ≫= _) => apply safe_gets; cbv beta
  | |- safe_at _ (lift_w _ ≫= _) => apply safe_value; intros
  | |- safe_at _ (replace _ _ _ _ _) => apply safe_replace
  | |- safe_at _ (editreplace _ _ _ _ _) => apply safe_editreplace
  | |- safe_at _ clearselection => apply safe_clear
  | |- safe_at _ ensurecursorvisible => apply safe_ensure
  | |- safe_at _ (setselectionanchor _ _) => apply safe_anchor
  | |- safe_at _ (set_reflow _) => apply safe_reflow
  | |- safe_at _ (modify (on_view _)) => apply safe_view
  | |- safe_at _ (replace _ _ _ _ _ ≫= _) => apply safe_bind; [apply safe_replace|intros]
  | |- safe_at _ (clearselection ≫= _) => apply safe_bind; [apply safe_clear|intros]
  | |- safe_at _ (ensurecursorvisible ≫= _) => apply safe_bind; [apply safe_ensure|intros]
  | |- safe_at _ (set_reflow _ ≫= _) => apply safe_bind; [apply safe_reflow|intros]
  | |- safe_at _ (modify (on_view _) ≫= _) => apply safe_bind; [apply safe_view|intros]
  | |- safe_at _ (if ?b then _ else _) => destruct b eqn:?
  | |- safe_at _ (match ?x with _ => _ end) => destruct x eqn:?
  end.
Ltac safe := repeat (safe_step; cbv beta iota zeta).

Section Commands.
Context {FT : Font} {CK : Clock} {AN : Alnum} {UC : PyUnicode} {CP : Carets}.

(** ** Selection, clipboard *)

Lemma safe_deleteselection s : safe_at s deleteselection.
Proof. unfold deleteselection. safe. Qed.

Lemma safe_replaceselection s text : safe_at s (replaceselectionwithtext text).
Proof. unfold replaceselectionwithtext. safe. Qed.

Lemma safe_inserttextblock s text : safe_at s (inserttextblock text).
Proof. unfold inserttextblock. safe. Qed.

Lemma safe_editcut s exset : safe_at s (editcut exset).
Proof. unfold editcut. safe. apply safe_deleteselection. Qed.

Lemma safe_editpaste s data : safe_at s (editpaste data).
Proof. unfold editpaste. safe. apply safe_bind; [apply safe_replaceselection|]. intros. safe. Qed.

Lemma last_valid lines line : lines <> [] -> pyidx lines (zlen lines - 1) = Ok line ->
  valid lines (zlen lines - 1, zlen line) /\ valid lines (0, 0).
Proof.
  intros Hne H. assert (0 < zlen lines).
  { destruct lines as [|l ls]; [done|]. rewrite zlen_cons. pose proof (zlen_nonneg ls). lia. }
  apply pyidx_inv in H; [|lia]. pose proof (zlen_nonneg line). split.
  - split; [cbn; lia|]. exists line. split; [done|cbn; lia].
  - destruct lines as [|l ls]; [done|]. split; [done|]. exists l. split; [done|]. cbn. pose proof (zlen_nonneg l). lia.
Qed.

Lemma safe_editselectall s : safe_at s editselectall.
Proof.
  unfold editselectall. safe. rename H into Hl.
  assert (Hne : lines_of s <> []) by by rewrite Heql. rewrite <- Heql in Hl.
  destruct (last_valid _ _ Hne Hl) as [V1 V2]. rewrite Heql in V1, V2. apply safe_bind; [|intros; safe].
  apply safe_caret. intros M I. rewrite Heql. split; [by apply caret_in_valid|]. by intros _.
Qed.

(** A selection within one line. *)
Lemma safe_select_span s row b e line : lines_of s !! Z.to_nat row = Some line -> 0 <= row -> 0 <= e <= zlen line ->
  safe_at s (select_span row b e).
Proof.
  intros Hl Hr He. unfold select_span. assert (Hne : lines_of s <> []) by (intros E; by rewrite E in Hl).
  assert (V : valid (lines_of s) (normalisecaret (lines_of s) row b)) by by apply normalisecaret_valid.
  apply safe_bind; [apply safe_anchor|]. intros [] s1 [= <-]. apply safe_bind.
  - apply safe_end. intros _ _. unfold anchor. cbn. by rewrite <- surjective_pairing.
  - intros [] s2 [= <-]. apply safe_moved. intros _ _. apply caret_in_valid. split; [done|]. by exists line.
Qed.

Lemma clamped_row_range lines row : lines <> [] -> 0 <= clamped_row lines row < zlen lines.
Proof.
  intros Hne. unfold clamped_row. destruct lines as [|l ls]; [done|]. pose proof (zlen_nonneg ls). rewrite zlen_cons. split_if; lia.
Qed.

Lemma run_right_bounds f l : 0 <= run_right f l <= zlen l.
Proof. induction l as [|c l IH]; cbn; [done|]. rewrite zlen_cons. destruct (f c); lia. Qed.

Lemma skip_right_bounds f line i : 0 <= i <= zlen line -> i <= skip_right f line i <= zlen line.
Proof.
  intros H. unfold skip_right. pose proof (run_right_bounds f (zdrop i line)). rewrite zlen_drop in * by lia. lia.
Qed.

Lemma skip_left_bounds f line i : 0 <= i <= zlen line -> 0 <= skip_left f line i <= i.
Proof.
  intros H. unfold skip_left. pose proof (run_right_bounds f (rev (ztake i line))) as B.
  assert (zlen (rev (ztake i line)) = i) as E by (unfold zlen at 1; rewrite length_rev; fold (zlen (ztake i line)); rewrite zlen_take; lia).
  lia.
Qed.

Lemma word_near_bounds line idx j : 0 <= idx <= zlen line -> word_near line idx = Some j -> 0 <= j <= zlen line.
Proof.
  unfold word_near. intros H. pose proof (skip_right_bounds (fun c => negb (iswordchar c)) line idx H).
  pose proof (skip_left_bounds (fun c => negb (iswordchar c)) line idx H).
  destruct (_ && _); [|intros [= <-]; lia]. destruct (_ <? _) eqn:E; [intros [= <-]; lia|].
  destruct (0 <=? _) eqn:E2; [intros [= <-]; lia|done].
Qed.

Lemma clamp_bounds n x : 0 <= n -> 0 <= clamp n x <= n.
Proof. unfold clamp. intros H. split_if; lia. Qed.

Lemma safe_selectwordat s row col : safe_at s (selectwordat row col).
Proof.
  unfold selectwordat. safe_step. safe_step. safe_step. cbv beta. destruct (lines_of s) as [|l0 ls] eqn:El; [safe|].
  cbv beta iota zeta. rewrite <- El. assert (Hne : lines_of s <> []) by by rewrite El.
  pose proof (clamped_row_range _ row Hne) as Hr. set (r := clamped_row (lines_of s) row) in *.
  apply safe_value. intros line Hl. apply pyidx_inv in Hl; [|lia]. cbv beta.
  pose proof (zlen_nonneg line). pose proof (clamp_bounds (zlen line) col ltac:(lia)).
  set (idx := if _ && _ then _ else _). assert (Hi : 0 <= idx <= zlen line) by (unfold idx; split_if; lia).
  destruct (word_near line idx) as [j|] eqn:Ew.
  - apply word_near_bounds in Ew; [|done]. eapply safe_select_span; [exact Hl|lia|].
    pose proof (skip_right_bounds iswordchar line j ltac:(lia)). split_if; lia.
  - apply safe_bind; [apply safe_anchor|]. intros [] s1 [= <-]. apply safe_end. intros _ _.
    unfold anchor. cbn. rewrite <- surjective_pairing. by apply normalisecaret_valid.
Qed.

Lemma safe_selectline s row : safe_at s (selectline row).
Proof.
  unfold selectline. safe_step. safe_step. safe_step. cbv beta. destruct (lines_of s) as [|l0 ls] eqn:El; [safe|].
  cbv beta iota zeta. rewrite <- El. assert (Hne : lines_of s <> []) by by rewrite El.
  pose proof (clamped_row_range _ row Hne) as Hr. apply safe_value. intros line Hl. apply pyidx_inv in Hl; [|lia].
  pose proof (zlen_nonneg line). eapply safe_select_span; [exact Hl|lia|lia].
Qed.

(** ** Typing *)

Lemma safe_handlenewline s : safe_at s handlenewline.
Proof. unfold handlenewline, caret_position. safe. Qed.

Lemma safe_insertcharacter s ch : safe_at s (insertcharacter ch).
Proof. unfold insertcharacter, caret_position. safe. apply safe_handlenewline. Qed.

Lemma safe_insertnewline s : safe_at s insertnewline.
Proof. unfold insertnewline. safe. Qed.

Lemma safe_handlebackspace s : safe_at s handlebackspace.
Proof. unfold handlebackspace, caret_position. safe. Qed.

Lemma safe_handledelete s : safe_at s handledelete.
Proof. unfold handledelete, caret_position. safe. Qed.

Lemma safe_deleteword s b : safe_at s (deleteword b).
Proof. unfold deleteword, cursor. safe. Qed.

(** ** Moving *)

(** The two lines the commands on the caret begin with. *)
Lemma safe_place {A} s (k : pystr -> W A) :
  (forall p, lines_of s <> [] -> valid (lines_of s) p -> safe_at (moved s p) (k (line_at (lines_of s) p.1))) ->
  safe_at s (clamp_row ;; line ← current_line; clamp_col line ;; k line).
Proof.
  intros Hk M I. pose proof (session_nonempty _ _ I) as Hne.
  assert (R : runs (clamp_row ;; line ← current_line; clamp_col line ;; mret line) s
    (fun line s' => exists p, line = line_at (lines_of s) p.1 /\ valid (lines_of s) p /\ s' = moved s p)).
  { apply (place_caret (fun line => mret line)); [done|]. intros p Vp _. run. by exists p. }
  unfold runs, mbind, w_bind in *. destruct (clamp_row s) as [[[]|] s1]; [|done].
  destruct (current_line s1) as [[line|] s2]; [|done]. destruct (clamp_col line s2) as [[[]|] s3]; [|done].
  destruct R as (p & -> & Vp & ->). apply good_bind; [|by apply Hk].
  apply session_good; [|done..]. apply moved_session; [done|by apply caret_in_valid].
Qed.

Lemma safe_with_document s m : (lines_of s <> [] -> safe_at s m) -> safe_at s (with_document m).
Proof.
  intros H. unfold with_document. safe_step. safe_step. safe_step. cbv beta. destruct (lines_of s) as [|l0 ls] eqn:E.
  - intros M I. by destruct (session_nonempty _ _ I).
  - by apply H.
Qed.

(** A position of the document is one the caret may have. *)
Lemma safe_moved_valid s p : valid (lines_of s) p -> safe_at s (modify (on_caret (set_cursor p))).
Proof. intros V. apply safe_moved. intros _ _. by apply caret_in_valid. Qed.

Lemma safe_col s c : valid (lines_of s) (CUR_ROW (w_caret s), c) -> safe_at s (modify (on_caret (set_CUR_COL c))).
Proof. intros V. apply safe_caret. intros M I. split; [by apply caret_in_valid|apply I]. Qed.

Lemma valid_col lines row c c' : valid lines (row, c) -> 0 <= c' -> c' <= c -> valid lines (row, c').
Proof. intros (H & line & Hl & Hc) H1 H2. split; [done|]. exists line. cbn in *. split; [done|lia]. Qed.

Lemma valid_at lines row c : 0 <= row < zlen lines -> 0 <= c <= zlen (line_at lines row) -> valid lines (row, c).
Proof.
  intros Hr Hc. destruct (lookup_zlen lines row Hr) as [line Hl]. unfold line_at in Hc. rewrite Hl in Hc.
  split; [cbn; lia|]. by exists line.
Qed.

Lemma valid_parts lines p : valid lines p -> 0 <= p.1 < zlen lines /\ 0 <= p.2 <= zlen (line_at lines p.1).
Proof.
  intros V. pose proof (valid_range _ _ V). split; [done|]. destruct V as (_ & line & Hl & Hc). unfold line_at. by rewrite Hl.
Qed.

Lemma safe_movecursorleft s : safe_at s movecursorleft.
Proof.
  apply safe_with_document. intros Hne. apply (safe_place s (fun line => c ← gets w_caret; _)). intros p _ Vp.
  pose proof (valid_parts _ _ Vp) as [Hr Hc]. destruct p as [r c]. cbn [fst snd] in *. safe_step. cbn.
  destruct (0 <? c) eqn:E1.
  - apply safe_col. change (valid (lines_of s) (r, c - 1)). apply valid_at; lia.
  - destruct (0 <? r) eqn:E2; [|safe]. set (s1 := on_caret (set_CUR_ROW (r - 1)) (moved s (r, c))).
    assert (V : forall c', 0 <= c' <= zlen (line_at (lines_of s) (r - 1)) -> valid (lines_of s) (r - 1, c')).
    { intros c' Hc'. apply valid_at; lia. }
    apply safe_first. intros M I. run. split.
    + pose proof (zlen_nonneg (line_at (lines_of s) (r - 1))).
      replace (on_caret (set_CUR_ROW (r - 1)) (moved s (r, c))) with (moved (moved s (r, c)) (r - 1, c)) by done.
      apply session_good; [|done..]. apply moved_session; [done|]. apply caret_in_valid, V. lia.
    + apply safe_first. intros M' I'. apply current_line_run; [change (0 <= r - 1 < zlen (lines_of s)); lia|].
      split; [by apply good_refl|]. apply safe_col. apply V. split; [apply zlen_nonneg|reflexivity].
Qed.

Lemma safe_movecursorright s : safe_at s movecursorright.
Proof.
  apply safe_with_document. intros Hne. apply (safe_place s (fun line => s ← gets (fun s => s); _)). intros p _ Vp.
  pose proof (valid_parts _ _ Vp) as [Hr Hc]. destruct p as [r c]. cbn [fst snd] in *. safe_step. cbn.
  change (lines_of (moved s (r, c))) with (lines_of s).
  destruct (c <? zlen (line_at (lines_of s) r)) eqn:E1.
  - apply safe_col. change (valid (lines_of s) (r, c + 1)). apply valid_at; lia.
  - destruct (r + 1 <? zlen (lines_of s)) eqn:E2; [|safe]. apply safe_moved_valid.
    change (valid (lines_of s) (r + 1, 0)). apply valid_at; [lia|split; [done|apply zlen_nonneg]].
Qed.

(** The same from a caret that may be anywhere. *)
Lemma good_place M s q {A} (k : pystr -> W A) : session M s ->
  (forall p, lines_of s <> [] -> valid (lines_of s) p -> safe_at (moved s p) (k (line_at (lines_of s) p.1))) ->
  good M s ((clamp_row ;; line ← current_line; clamp_col line ;; k line) (moved s q)).2.
Proof.
  intros I Hk. pose proof (session_nonempty _ _ I) as Hne.
  assert (R : runs (clamp_row ;; line ← current_line; clamp_col line ;; mret line) (moved s q)
    (fun line s' => exists p, line = line_at (lines_of s) p.1 /\ valid (lines_of s) p /\ s' = moved s p)).
  { apply (place_caret (fun line => mret line)); [done|]. intros p Vp _. run. by exists p. }
  unfold runs, mbind, w_bind in *. destruct (clamp_row (moved s q)) as [[[]|] s1]; [|done].
  destruct (current_line s1) as [[line|] s2]; [|done]. destruct (clamp_col line s2) as [[[]|] s3]; [|done].
  destruct R as (p & -> & Vp & ->). apply good_bind; [|by apply Hk].
  apply session_good; [|done..]. apply moved_session; [done|by apply caret_in_valid].
Qed.

Lemma safe_step_row s row : safe_at s (modify (on_caret (set_CUR_ROW row)) ;; clamp_row ;; line ← current_line; clamp_col line).
Proof.
  intros M I. change (good M s ((clamp_row ;; line ← current_line; clamp_col line) (moved s (row, CUR_COL (w_caret s)))).2).
  assert (E : forall s, (clamp_row ;; line ← current_line; clamp_col line) s =
    (clamp_row ;; line ← current_line; clamp_col line ;; mret tt) s).
  { intros s0. unfold mbind, w_bind. destruct (clamp_row s0) as [[?|?] s1]; [|done]. destruct (current_line s1) as [[?|?] s2]; done. }
  rewrite E. apply (good_place M s _ (fun _ => mret tt) I). intros. apply safe_ret.
Qed.

Lemma safe_clamp s : safe_at s (clamp_row ;; line ← current_line; clamp_col line).
Proof.
  intros M I. pose proof (safe_step_row s (CUR_ROW (w_caret s)) M I) as H.
  change (good M s ((clamp_row ;; line ← current_line; clamp_col line) (moved s (cursor (w_caret s)))).2) in H.
  by rewrite moved_same in H.
Qed.

Lemma safe_movecursorup s : safe_at s movecursorup.
Proof.
  apply safe_with_document. intros Hne. safe_step. unfold when. destruct (0 <? _); [apply safe_step_row|].
  apply safe_bind; [apply safe_ret|]. intros [] s' [= <-]. apply safe_clamp.
Qed.

Lemma safe_movecursordown s : safe_at s movecursordown.
Proof.
  apply safe_with_document. intros Hne. safe_step. unfold when. cbv zeta. destruct (_ <? _); [apply safe_step_row|].
  apply safe_bind; [apply safe_ret|]. intros [] s' [= <-]. apply safe_clamp.
Qed.

Lemma session_caret M s : session M s -> lax \/ caret_valid s.
Proof. intros I. destruct (ss_carets _ _ I) as [H|[H _]]; [by left|right]. apply H, I. Qed.

(** A new column is right when it is in the line of a caret in the document. *)
Lemma safe_column s f : (forall r c, CUR_ROW (w_caret s) = r -> CUR_COL (w_caret s) = c -> valid (lines_of s) (r, c) ->
    0 <= f (w_caret s) <= zlen (line_at (lines_of s) r)) ->
  safe_at s (modify (on_caret (fun c => set_CUR_COL (f c) c))).
Proof.
  intros H. apply safe_caret. intros M I. split; [|apply I]. destruct (session_caret M s I) as [L|V]; [apply L|].
  apply caret_in_valid. pose proof (valid_parts _ _ V) as [Hr Hc].
  apply valid_at; [exact Hr|]. by apply (H _ (CUR_COL (w_caret s))).
Qed.

Lemma line_at_pyidx lines r line : 0 <= r -> pyidx lines r = Ok line -> line_at lines r = line.
Proof. intros Hr H. apply pyidx_inv in H; [|done]. unfold line_at. by rewrite H. Qed.

Lemma safe_movecursorhome s : safe_at s movecursorhome.
Proof.
  unfold movecursorhome. safe. rename a into line. apply safe_column. intros r c E1 E2 V.
  pose proof (valid_range _ _ V) as Hr. cbn [fst] in Hr. rewrite E1, E2 in *.
  replace (Z.max 0 (Z.min (zlen (lines_of s) - 1) r)) with r in H by lia. rewrite (line_at_pyidx _ r line) by (lia || done).
  pose proof (run_right_bounds (fun c => (c =? SPACE) || (c =? TAB)) line). split_if; lia.
Qed.

Lemma safe_movecursorend s : safe_at s movecursorend.
Proof.
  apply safe_with_document. intros Hne M I. unfold mbind at 1, w_bind at 1.
  assert (R : runs clamp_row s (fun _ s1 => exists r, 0 <= r < zlen (lines_of s) /\ s1 = moved s (r, CUR_COL (w_caret s)))).
  { apply clamp_row_run; [done|]. intros r Hr _. by exists r. }
  unfold runs in R. destruct (clamp_row s) as [[[]|] s1]; [|done]. destruct R as (r & Hr & ->).
  assert (R : runs (line ← current_line; modify (on_caret (set_CUR_COL (zlen line)))) (moved s (r, CUR_COL (w_caret s)))
    (fun _ s' => s' = moved s (r, zlen (line_at (lines_of s) r)))).
  { run. apply current_line_run; [exact Hr|]. run. done. }
  unfold runs in R. destruct ((line ← current_line; _) _) as [[[]|] s2]; [|done]. cbn in R |- *. subst s2.
  apply session_good; [|done..]. apply moved_session; [done|]. apply caret_in_valid, valid_at; [done|].
  split; [apply zlen_nonneg|done].
Qed.

(** *** Words *)

Lemma word_left_bounds line col : 0 <= col <= zlen line -> 0 <= word_left line col <= zlen line.
Proof.
  intros H. unfold word_left. pose proof (skip_left_bounds is_space line col H). set (c := skip_left is_space line col) in *.
  destruct (0 <? c); [|lia]. pose proof (skip_left_bounds (same_kind (iswordcharacter (znth line (c - 1)))) line c ltac:(lia)). lia.
Qed.

Lemma wordpositionleft_valid lines row col p : lines <> [] -> wordpositionleft lines row col = Ok p -> valid lines p.
Proof.
  intros Hne. unfold wordpositionleft. pose proof (normalisecaret_valid lines row col Hne) as V.
  destruct (normalisecaret lines row col) as [r c]. pose proof (valid_parts _ _ V) as [Hr Hc]. cbn [fst snd] in *.
  destruct (c =? 0) eqn:E1; [destruct (r =? 0) eqn:E2|].
  - intros [= <-]. assert (r = 0) as -> by lia. apply valid_at; lia.
  - destruct (pyidx lines (r - 1)) as [line|] eqn:E; [|done]. cbn. intros [= <-].
    pose proof (line_at_pyidx lines (r - 1) line ltac:(lia) E) as El. apply valid_at; [lia|]. rewrite El.
    apply word_left_bounds. pose proof (zlen_nonneg line). lia.
  - destruct (pyidx lines r) as [line|] eqn:E; [|done]. cbn. intros [= <-].
    pose proof (line_at_pyidx lines r line ltac:(lia) E) as El. rewrite El in Hc. apply valid_at; [lia|]. rewrite El.
    by apply word_left_bounds.
Qed.

Lemma wordpositionright_valid lines row col p : lines <> [] -> wordpositionright lines row col = Ok p -> valid lines p.
Proof.
  intros Hne. unfold wordpositionright. pose proof (normalisecaret_valid lines row col Hne) as V.
  destruct (normalisecaret lines row col) as [r c]. pose proof (valid_parts _ _ V) as [Hr Hc]. cbn [fst snd] in *.
  destruct (pyidx lines r) as [line|] eqn:E; [|done]. cbn.
  pose proof (line_at_pyidx lines r line ltac:(lia) E) as El. rewrite El in Hc. pose proof (zlen_nonneg line).
  destruct (zlen line <=? c) eqn:E1; [destruct (zlen lines <=? r + 1) eqn:E2|]; intros [= <-].
  - apply valid_at; [lia|]. rewrite El. lia.
  - apply valid_at; [lia|]. split; [done|apply zlen_nonneg].
  - set (c' := skip_right (same_kind _) line c). assert (c <= c' <= zlen line) by (apply skip_right_bounds; lia).
    apply valid_at; [lia|]. rewrite El. pose proof (skip_right_bounds is_space line c' ltac:(lia)). lia.
Qed.

Lemma safe_movecursorword s b : safe_at s (movecursorword b).
Proof.
  intros M I. pose proof (session_nonempty _ _ I) as Hne. revert M I. change (safe_at s (movecursorword b)).
  unfold movecursorword, cursor. safe_step. cbv beta iota zeta. apply safe_value. intros p Hp. apply safe_moved_valid.
  destruct b; [by apply (wordpositionleft_valid _ _ _ _ Hne) in Hp|by apply (wordpositionright_valid _ _ _ _ Hne) in Hp].
Qed.

(** *** Pages *)

Lemma safe_nonempty {A} s (m : W A) : (lines_of s <> [] -> safe_at s m) -> safe_at s m.
Proof. intros H M I. by apply H; [eapply session_nonempty|]. Qed.

Lemma safe_scrollbylines s d : safe_at s (scrollbylines d).
Proof.
  apply safe_runs. intros M I. apply scrollbylines_quiet; [by eapply session_viewable|]. intros s' H. by apply quiet_session.
Qed.

Lemma safe_scrollbyx s d : safe_at s (scrollbyx d).
Proof.
  apply safe_runs. intros M I. apply scrollbyx_quiet; [by eapply session_viewable|]. intros s' H. by apply quiet_session.
Qed.

Lemma safe_updatelayout s : safe_at s updatelayoutonresize.
Proof.
  apply safe_runs. intros M I. apply updatelayoutonresize_quiet; [by eapply session_viewable|]. intros s' H. by apply quiet_session.
Qed.

(** The caret put on a line, its column cut to it. *)
Lemma good_cut M s row (q : Z) : session M s -> 0 <= row < zlen (lines_of s) -> (lax \/ 0 <= q) ->
  good M s ((line ← current_line; modify (on_caret (fun c => set_CUR_COL (Z.min (CUR_COL c) (zlen line)) c)))
    (moved s (row, q))).2.
Proof.
  intros I Hr Hq.
  assert (R : runs (line ← current_line; modify (on_caret (fun c => set_CUR_COL (Z.min (CUR_COL c) (zlen line)) c)))
    (moved s (row, q)) (fun _ s' => s' = moved s (row, Z.min q (zlen (line_at (lines_of s) row))))).
  { run. apply current_line_run; [exact Hr|]. run. done. }
  unfold runs in R. destruct ((line ← current_line; _) _) as [[[]|] s2]; [|done]. cbn in R |- *. subst s2.
  apply session_good; [|done..]. apply moved_session; [done|]. destruct Hq as [L|Hq]; [apply L|].
  apply caret_in_valid, valid_at; [done|]. pose proof (zlen_nonneg (line_at (lines_of s) row)). lia.
Qed.

Lemma safe_page_to s (row : Z -> Z -> Z) :
  (forall r, 0 <= r < zlen (lines_of s) -> 0 <= row r (VISIBLE_LINES (w_view s)) < zlen (lines_of s)) -> safe_at s (page_to row).
Proof.
  intros Hrow M I. set (r' := row (CUR_ROW (w_caret s)) (VISIBLE_LINES (w_view s))).
  change (good M s ((line ← current_line; modify (on_caret (fun c => set_CUR_COL (Z.min (CUR_COL c) (zlen line)) c)))
    (moved s (r', CUR_COL (w_caret s)))).2).
  destruct (session_caret M s I) as [L|V].
  - assert (I' : session M (moved s (r', CUR_COL (w_caret s)))) by (apply moved_session; [done|apply L]).
    eapply (good_bind M s (moved s (r', CUR_COL (w_caret s)))); [by apply session_good|].
    apply safe_bind; [unfold current_line; safe|]. intros line s' _. apply safe_caret. intros M' I''. split; [apply L|apply I''].
  - pose proof (valid_parts _ _ V) as [Hr Hc]. apply good_cut; [done|by apply Hrow|right]. apply Hc.
Qed.

Lemma safe_pageup s : safe_at s pageup.
Proof.
  unfold pageup. safe_step. safe_step. destruct (_ <=? 0) eqn:E; [apply safe_scrollbylines|].
  apply safe_bind; [|intros; apply safe_scrollbylines]. apply safe_page_to. intros. lia.
Qed.

Lemma safe_pagedown s : safe_at s pagedown.
Proof.
  unfold pagedown. safe_step. safe_step. safe_step. destruct (_ <=? 0) eqn:E; [apply safe_scrollbylines|].
  apply safe_bind; [|intros; apply safe_scrollbylines]. apply safe_page_to. intros. lia.
Qed.

Lemma safe_gotoline s n : safe_at s (gotoline n).
Proof.
  apply safe_nonempty. intros Hne. unfold gotoline. safe_step. destruct n as [n|]; [|safe]. safe_step. cbv zeta.
  apply safe_bind; [|intros; safe]. apply safe_moved_valid.
  assert (0 < zlen (lines_of s)) by (destruct (lines_of s) as [|l ls]; [done|]; rewrite zlen_cons; pose proof (zlen_nonneg ls); lia).
  apply valid_at; [lia|]. split; [done|apply zlen_nonneg].
Qed.

(** ** Lines *)

Lemma safe_session {A} s (m : W A) : (forall M, session M s -> safe_at s m) -> safe_at s m.
Proof. intros H M I. by apply (H M I). Qed.

Lemma selection_bounds_valid lines c : selection_in lines c -> SEL_ACTIVE c = true ->
  valid lines (selectionbounds c).1 /\ valid lines (selectionbounds c).2 /\ pos_leb (selectionbounds c).1 (selectionbounds c).2 = true.
Proof.
  intros H A. destruct (H A) as [V1 V2]. unfold selectionbounds. destruct (pos_leb _ _) eqn:E; cbn [fst snd]; [done|].
  split_and!; [done..|]. unfold pos_leb in *. lia.
Qed.

Lemma hasselection_active c : hasselection c = true -> SEL_ACTIVE c = true.
Proof. unfold hasselection. by intros [H _]%andb_true_iff. Qed.

Lemma selectedlinerange_range M s : session M s ->
  let '(first, last) := selectedlinerange (lines_of s) (w_caret s) in 0 <= first <= last /\ last < zlen (lines_of s).
Proof.
  intros I. unfold selectedlinerange. destruct (hasselection (w_caret s)) eqn:E.
  - apply hasselection_active in E. destruct (selection_bounds_valid _ _ (ss_selection _ _ I) E) as (V1 & V2 & L).
    destruct (selectionbounds (w_caret s)) as [[sr sc] [er ec]]. cbn [fst snd] in *.
    pose proof (valid_range _ _ V1). pose proof (valid_range _ _ V2). unfold pos_leb in L. cbn [fst snd] in *.
    split_if; lia.
  - pose proof (normalisecaret_valid (lines_of s) (CUR_ROW (w_caret s)) (CUR_COL (w_caret s)) (session_nonempty _ _ I)) as V.
    pose proof (valid_range _ _ V). lia.
Qed.

Lemma safe_caret_to_line s row : 0 <= row < zlen (lines_of s) -> safe_at s (caret_to_line row).
Proof.
  intros Hr M I. change (good M s ((line ← current_line; modify (on_caret (fun c => set_CUR_COL (Z.min (CUR_COL c) (zlen line)) c)))
    (moved s (row, CUR_COL (w_caret s)))).2).
  apply good_cut; [done..|]. destruct (session_caret M s I) as [L|V]; [by left|right]. apply (valid_parts _ _ V).
Qed.

Lemma replace_good M s p q text (Q : unit -> wst -> Prop) : session M s ->
  valid (lines_of s) p -> valid (lines_of s) q -> pos_leb p q = true ->
  (forall s', good M s s' ->
     lines_of s' = zsplice (lines_of s) p.1 (q.1 + 1) (new_lines (lines_of s) p q (normalise_newlines text)) ->
     cursor (w_caret s') = textpositionafter p.1 p.2 (normalise_newlines text) ->
     w_conf s' = w_conf s -> w_search s' = w_search s -> Q tt s') ->
  runs (replace p.1 p.2 q.1 q.2 text) s Q.
Proof.
  intros I Vp Vq L HQ. unfold replace. run. apply (editreplace_good M); [done|]. rewrite range_of_valid by done.
  intros _ _ _ b s' G E1 E2 E3 E4. run. by apply HQ.
Qed.

Lemma replacement_len prefix suffix chunks : chunks <> [] -> zlen (replacement_lines prefix suffix chunks) = zlen chunks.
Proof.
  intros Hne. destruct chunks as [|c [|d rest]]; [done|done|]. cbn [replacement_lines].
  destruct (exists_last (l := d :: rest)) as (r & l & E); [done|]. rewrite E, removelast_last, !zlen_cons, !zlen_app. done.
Qed.

Lemma pos_leb_refl p : pos_leb p p = true.
Proof. unfold pos_leb. lia. Qed.

Lemma line_end_valid lines r line : 0 <= r -> pyidx lines r = Ok line -> valid lines (r, zlen line) /\ valid lines (r, 0).
Proof.
  intros Hr H. apply pyidx_inv in H; [|done]. pose proof (zlen_nonneg line).
  split; (split; [done|]; exists line; split; [done|cbn; lia]).
Qed.

Lemma safe_duplicatelines s : safe_at s duplicatelines.
Proof.
  unfold duplicatelines. apply safe_session. intros M0 I0. pose proof (selectedlinerange_range _ _ I0) as R.
  safe_step. safe_step. cbv zeta. destruct (selectedlinerange (lines_of s) (w_caret s)) as [first last].
  apply safe_value. intros lastline Hl. destruct (line_end_valid (lines_of s) last lastline ltac:(lia) Hl) as [V _].
  apply safe_first. intros M I. apply (replace_good M s (last, zlen lastline) (last, zlen lastline)); [done..|apply pos_leb_refl|].
  intros s' G El _ _ _. split; [done|]. cbn [fst snd] in El.
  apply safe_bind; [safe|]. intros [] s1 [= <-].
  apply safe_bind; [|intros; safe]. apply safe_caret_to_line. change (0 <= last + 1 < zlen (lines_of s')).
  pose proof (valid_range _ _ V) as Hv. cbn [fst] in Hv. rewrite El, zsplice_length by lia.
  assert (2 <= zlen (new_lines (lines_of s) (last, zlen lastline) (last, zlen lastline)
    (normalise_newlines (NL :: join_with [NL] (zslice (lines_of s) first (last + 1)))))); [|lia].
  unfold new_lines. rewrite replacement_len by apply split_on_nonempty.
  change (normalise_newlines (NL :: ?x)) with (NL :: normalise_newlines x). cbn [split_on]. rewrite Z.eqb_refl, zlen_cons.
  pose proof (split_on_nonempty NL (normalise_newlines (join_with [NL] (zslice (lines_of s) first (last + 1))))) as Hne.
  destruct (split_on NL _) as [|x l]; [done|]. rewrite zlen_cons. pose proof (zlen_nonneg l). lia.
Qed.

Lemma safe_deletelines s : safe_at s deletelines.
Proof.
  unfold deletelines. apply safe_session. intros M0 I0. pose proof (selectedlinerange_range _ _ I0) as R.
  safe_step. safe_step. cbv zeta. destruct (selectedlinerange (lines_of s) (w_caret s)) as [first last].
  apply safe_bind; [safe|]. intros [] s1 _. apply safe_bind; [safe|]. intros [] s2 _.
  safe_step. apply safe_nonempty. intros Hne. apply safe_bind; [|intros; safe]. apply safe_caret_to_line.
  destruct (lines_of s2) as [|l ls]; [done|]. rewrite zlen_cons. pose proof (zlen_nonneg ls). lia.
Qed.

(** ** Undo and redo *)

Lemma hist_session M s s' : session M s -> hist_inv M s' -> hist_frame s s' -> SEL_ACTIVE (w_caret s') = false -> good M s s'.
Proof.
  intros I H (E1 & E2 & E3 & E4 & E5 & E6) E. exists M. split; [|split_and!; [done|lia|done..]].
  destruct I. constructor; [done| |by rewrite E1|by rewrite E2]. intros A. congruence.
Qed.

Lemma safe_undo s : safe_at s undo.
Proof.
  apply safe_runs. intros M I. apply (undo_run M); [apply I|]. intros s' H F E.
  destruct (UNDO_STACK (w_hist s)); [subst s'; by apply good_refl|]. apply hist_session; [done..|apply E].
Qed.

Lemma safe_redo s : safe_at s redo.
Proof.
  apply safe_runs. intros M I. apply (redo_run M); [apply I|]. intros s' H F E.
  destruct (REDO_STACK (w_hist s)); [subst s'; by apply good_refl|]. apply hist_session; [done..|apply E].
Qed.

End Commands.

(** Indentation, case, find and replace keep the session. *)

(** ** Replacing whole lines *)

Lemma lacks_nl_joined l : Forall (lacks CR) l -> lacks CR (join_with [NL] l).
Proof.
  intros H. destruct H as [|x l Hx Hl]; [constructor|]. rewrite join_tails. apply Forall_app. split; [done|].
  induction Hl as [|y l Hy _ IH]; [constructor|]. cbn. constructor; [done|]. apply Forall_app. by split.
Qed.

(** From the start of a line to the end of another: the lines between give way
    to those of the text. *)
Lemma new_lines_block lines r r' line block : Forall clean block -> block <> [] ->
  lines !! Z.to_nat r' = Some line ->
  new_lines lines (r, 0) (r', zlen line) (normalise_newlines (join_with [NL] block)) = block.
Proof.
  intros Hb Hne Hl. rewrite normalise_clean.
  2: { apply lacks_nl_joined. eapply Forall_impl; [exact Hb|]. by intros x [_ H]. }
  unfold new_lines. cbn [fst snd]. rewrite split_join by (done || by apply clean_nl).
  assert (El : line_at lines r' = line) by (unfold line_at; by rewrite Hl). rewrite El.
  assert (zdrop (zlen line) line = []) as -> by (unfold zdrop, zlen; rewrite Nat2Z.id; by rewrite drop_all).
  change (ztake 0 (line_at lines r)) with (@nil Z). destruct block as [|c [|d rest]]; [done| |].
  - cbn. by rewrite app_nil_r.
  - cbn [replacement_lines app]. rewrite app_nil_r. f_equal. symmetry. by apply app_removelast_last.
Qed.

(** A block of lines changed line by line. *)
Section Block.
Variables (lines : list pystr) (sr lastrow : Z) (f : pystr -> pystr).
Hypotheses (H0 : 0 <= sr <= lastrow) (H1 : lastrow < zlen lines).

Let block := zslice lines sr (lastrow + 1).
Let lines' := zsplice lines sr (lastrow + 1) (List.map f block).

Lemma block_len : zlen block = lastrow + 1 - sr.
Proof. unfold block. rewrite zlen_slice; lia. Qed.

Lemma block_lookup i : sr <= i <= lastrow -> block !! Z.to_nat (i - sr) = lines !! Z.to_nat i.
Proof.
  intros Hi. unfold block, zslice. unfold ztake, zdrop. rewrite lookup_take_lt, lookup_drop by lia. f_equal. lia.
Qed.

Lemma block_inside i line : sr <= i <= lastrow -> lines !! Z.to_nat i = Some line -> lines' !! Z.to_nat i = Some (f line).
Proof.
  intros Hi Hl. unfold lines'. rewrite zsplice_lookup by lia. pose proof block_len as B.
  assert (E : zlen (List.map f block) = lastrow + 1 - sr) by (rewrite map_zlen; exact B). rewrite E.
  rewrite decide_False by lia. rewrite decide_True by lia.
  apply map_lookup_Some. replace (Z.to_nat i - Z.to_nat sr)%nat with (Z.to_nat (i - sr)) by lia.
  by rewrite block_lookup.
Qed.

Lemma block_outside i : 0 <= i -> i < sr \/ lastrow < i -> lines' !! Z.to_nat i = lines !! Z.to_nat i.
Proof.
  intros Hi Ho. unfold lines'. rewrite zsplice_lookup by lia. pose proof block_len as B.
  assert (E : zlen (List.map f block) = lastrow + 1 - sr) by (rewrite map_zlen; exact B). rewrite E.
  destruct (decide _); [done|]. rewrite decide_False by lia. f_equal. lia.
Qed.

(** A position whose column follows the change of its line. *)
Lemma block_position p p' : valid lines p -> p'.1 = p.1 ->
  (sr <= p.1 <= lastrow -> forall line, lines !! Z.to_nat p.1 = Some line -> 0 <= p.2 <= zlen line -> 0 <= p'.2 <= zlen (f line)) ->
  (p.1 < sr \/ lastrow < p.1 -> p' = p) -> valid lines' p'.
Proof.
  intros (Hr & line & Hl & Hc) E Hin Hout. split; [lia|]. rewrite E. destruct (decide (sr <= p.1 <= lastrow)) as [Hi|Hi].
  - exists (f line). split; [by apply block_inside|by apply Hin].
  - exists line. rewrite block_outside by lia. split; [done|]. rewrite Hout by lia. done.
Qed.

End Block.

(** ** Indentation *)

Section Blocks.
Context {FT : Font} {CK : Clock} {AN : Alnum} {UC : PyUnicode} {CP : Carets}.

Lemma indentationremoval_bounds tab line : 0 <= indentationremoval tab line <= zlen line.
Proof.
  unfold indentationremoval. destruct line as [|c l]; [done|].
  assert (G : forall n (k : pystr), 0 <= (fix count (n : nat) (l : pystr) : Z :=
              match n, l with
              | S n, d :: l' => if d =? SPACE then 1 + count n l' else 0
              | _, _ => 0
              end) n k <= zlen k).
  { intros n. induction n as [|n IH]; intros k; [split; [done|apply zlen_nonneg]|].
    destruct k as [|d k]; [done|]. specialize (IH k). rewrite zlen_cons. destruct (d =? SPACE); lia. }
  destruct (c =? TAB); [|apply G]. rewrite zlen_cons. pose proof (zlen_nonneg l). lia.
Qed.

Lemma indent_unit_len c : 1 <= TAB_WIDTH c -> zlen (indent_unit c) = (if INDENT_USE_TABS c then 1 else TAB_WIDTH c).
Proof. intros H. unfold indent_unit. destruct (INDENT_USE_TABS c); [done|]. rewrite zlen_replicate. lia. Qed.

Lemma indent_unit_clean c : clean (indent_unit c).
Proof.
  unfold indent_unit. destruct (INDENT_USE_TABS c); [split; by apply Forall_singleton|].
  split; apply Forall_replicate; done.
Qed.

(** What indenting does to a line. *)
Definition indented (c : conf) (outdent : bool) (line : pystr) : pystr :=
  if outdent then zdrop (indentationremoval (TAB_WIDTH c) line) line else indent_unit c ++ line.

Lemma indented_clean c outdent line : clean line -> clean (indented c outdent line).
Proof.
  intros H. unfold indented. destruct outdent; [by apply clean_sub|]. destruct (indent_unit_clean c), H.
  split; by apply Forall_app.
Qed.

Lemma indented_map c (outdent : bool) block :
  (if outdent then List.map (fun line => zdrop (indentationremoval (TAB_WIDTH c) line) line) block
   else List.map (fun line => indent_unit c ++ line) block) = List.map (indented c outdent) block.
Proof. by destruct outdent. Qed.

Lemma adjusted_valid c outdent lines sr lastrow p : 1 <= TAB_WIDTH c -> 0 <= sr <= lastrow -> lastrow < zlen lines ->
  valid lines p ->
  let block := zslice lines sr (lastrow + 1) in
  valid (zsplice lines sr (lastrow + 1) (List.map (indented c outdent) block))
    (adjusted c outdent (List.map (indentationremoval (TAB_WIDTH c)) block) sr lastrow p).
Proof.
  intros Ht Hs Hl V block. assert (Hp : 0 <= p.1) by apply V.
  assert (E : (adjusted c outdent (List.map (indentationremoval (TAB_WIDTH c)) block) sr lastrow p).1 = p.1).
  { unfold adjusted. destruct (_ && _); [|done]. by destruct outdent. }
  apply (block_position lines sr lastrow (indented c outdent) Hs Hl p); [done|done| |].
  - intros Hi line Hline Hc. unfold adjusted, indented. replace (_ && _) with true by lia.
    destruct outdent; cbn [snd].
    + assert (Er : znth (List.map (indentationremoval (TAB_WIDTH c)) block) (p.1 - sr) = indentationremoval (TAB_WIDTH c) line).
      { unfold znth. apply nth_lookup_Some, map_lookup_Some. unfold block. rewrite block_lookup by lia. done. }
      rewrite Er. pose proof (indentationremoval_bounds (TAB_WIDTH c) line). rewrite zlen_drop by lia. lia.
    + rewrite zlen_app, indent_unit_len by done. destruct (INDENT_USE_TABS c); lia.
  - intros Ho. unfold adjusted. by replace (_ && _) with false by lia.
Qed.

Lemma lines_clean M s : session M s -> Forall clean (lines_of s).
Proof. intros I. apply (wf_clean _ (vb_doc _ (session_viewable _ _ I))). Qed.

(** The range of lines indentation works on. *)
Definition indent_range (c : caret) : Z * Z :=
  let '((sr, _), (er, ec)) := selectionbounds c in
  (sr, Z.max sr (if (sr <? er) && (ec =? 0) then er - 1 else er)).

Lemma indent_range_valid M s : session M s -> hasselection (w_caret s) = true ->
  let '(sr, lastrow) := indent_range (w_caret s) in 0 <= sr <= lastrow /\ lastrow < zlen (lines_of s).
Proof.
  intros I E. pose proof (selectedlinerange_range _ _ I) as H. unfold selectedlinerange in H. rewrite E in H.
  unfold indent_range. by destruct (selectionbounds (w_caret s)) as [[sr sc] [er ec]].
Qed.

Lemma safe_indent_block s outdent sr lastrow lastline c (cf : conf) :
  c = w_caret s -> cf = w_conf s -> 0 <= sr <= lastrow -> lastrow < zlen (lines_of s) -> SEL_ACTIVE c = true ->
  lines_of s !! Z.to_nat lastrow = Some lastline ->
  let block := zslice (lines_of s) sr (lastrow + 1) in
  let removals := List.map (indentationremoval (TAB_WIDTH cf)) block in
  let adjust := adjusted cf outdent removals sr lastrow in
  safe_at s (replace sr 0 lastrow (zlen lastline) (join_with [NL] (List.map (indented cf outdent) block)) ;;
    modify (on_caret (fun c' =>
      let a := adjust (anchor c) in
      let e := adjust (endpoint c) in
      set_SEL_ACTIVE (negb (bool_decide (a = e))) (set_cursor (adjust (cursor c)) (set_end e (set_anchor a c'))))) ;;
    set_reflow sr ;; mret true).
Proof.
  intros -> -> Hs Hl A Hlast block removals adjust. apply safe_first. intros M I.
  assert (V1 : valid (lines_of s) (sr, 0)) by (apply valid_at; [lia|split; [done|apply zlen_nonneg]]).
  assert (V2 : valid (lines_of s) (lastrow, zlen lastline)).
  { split; [cbn; lia|]. exists lastline. split; [done|]. cbn. pose proof (zlen_nonneg lastline). lia. }
  assert (Bl : zlen block = lastrow + 1 - sr) by (unfold block; rewrite zlen_slice; lia).
  assert (Bc : Forall clean (List.map (indented (w_conf s) outdent) block)).
  { apply List.Forall_map. apply List.Forall_impl with (P := clean); [intros x; apply indented_clean|].
    unfold block, zslice. apply Forall_take, Forall_drop. by eapply lines_clean. }
  assert (Bn : List.map (indented (w_conf s) outdent) block <> []).
  { intros E. apply (f_equal zlen) in E. rewrite map_zlen, zlen_nil in E. lia. }
  apply (replace_good M s (sr, 0) (lastrow, zlen lastline)); [done..| |].
  { unfold pos_leb. cbn. pose proof (zlen_nonneg lastline). lia. }
  cbn [fst snd]. intros s' G El _ Ec _. rewrite new_lines_block in El by done. split; [done|].
  destruct (ss_selection _ _ I A) as [Va Ve].
  assert (T : 1 <= TAB_WIDTH (w_conf s)) by apply I.
  assert (Adj : forall p, valid (lines_of s) p -> valid (lines_of s') (adjust p)).
  { intros p Vp. rewrite El. by apply adjusted_valid. }
  apply safe_bind; [|intros; safe]. apply safe_caret. intros M' I'. split.
  - destruct (ss_carets _ _ I) as [L|[St _]]; [apply L|]. apply caret_in_valid.
    assert (Vc : valid (lines_of s) (cursor (w_caret s))) by (apply St, I). specialize (Adj _ Vc).
    unfold cursor at 1. cbn. by rewrite <- surjective_pairing.
  - intros _. unfold anchor, endpoint. cbn. rewrite <- !surjective_pairing. split; by apply Adj.
Qed.

Lemma safe_outdent_line s row col count line :
  0 <= count <= zlen line -> lines_of s !! Z.to_nat row = Some line -> valid (lines_of s) (row, col) ->
  safe_at s (replace row 0 row count [] ;; modify (on_caret (set_cursor (row, Z.max 0 (col - count)))) ;;
    set_reflow row ;; mret true).
Proof.
  intros Hc Hl V. pose proof (valid_parts _ _ V) as [Hr Hcol]. cbn [fst snd] in *. apply safe_first. intros M I.
  assert (El : line_at (lines_of s) row = line) by (unfold line_at; by rewrite Hl). rewrite El in Hcol.
  apply (replace_good M s (row, 0) (row, count)); [done|apply valid_at; rewrite ?El; lia..|unfold pos_leb; cbn; lia|].
  cbn [fst snd]. intros s' G Es _ _ _. split; [done|]. apply safe_bind; [|intros; safe]. apply safe_moved_valid.
  rewrite Es. change (normalise_newlines []) with (@nil Z). unfold new_lines. cbn [fst snd split_on replacement_lines]. rewrite El.
  split; [cbn; lia|]. exists (zdrop count line). split.
  - cbn [fst]. rewrite zsplice_lookup by lia. change (zlen [_]) with 1. rewrite decide_False by lia.
    rewrite decide_True by lia. by rewrite Nat.sub_diag.
  - cbn [snd]. rewrite zlen_drop by lia. lia.
Qed.

Lemma safe_handleindentation s outdent : safe_at s (handleindentation outdent).
Proof.
  unfold handleindentation. apply safe_session. intros M0 I0. safe_step. safe_step. cbv zeta.
  pose proof (session_nonempty _ _ I0) as Hne. destruct (lines_of s) as [|l0 ls] eqn:E0; [done|]. rewrite <- E0 in *. clear E0.
  destruct (hasselection (w_caret s)) eqn:Eh; cbn [negb].
  - pose proof (indent_range_valid _ _ I0 Eh) as R. unfold indent_range in R.
    destruct (selectionbounds (w_caret s)) as [[sr sc] [er ec]].
    set (lastrow := Z.max sr (if (sr <? er) && (ec =? 0) then er - 1 else er)) in *.
    apply safe_value. intros lastline Hl. apply pyidx_inv in Hl; [|lia]. rewrite indented_map.
    destruct (outdent && _); [safe|].
    apply safe_indent_block; [done|done|lia|lia|by apply hasselection_active|done].
  - pose proof (normalisecaret_valid (lines_of s) (CUR_ROW (w_caret s)) (CUR_COL (w_caret s)) Hne) as V.
    destruct (normalisecaret _ _ _) as [row col]. pose proof (valid_range _ _ V) as Hr. cbn [fst] in Hr.
    apply safe_value. intros line Hl. apply pyidx_inv in Hl; [|lia].
    destruct outdent; cbn [negb]; [|safe]. destruct (_ <=? 0) eqn:Ez; [safe|].
    apply (safe_outdent_line s row col _ line); [apply indentationremoval_bounds|done|done].
Qed.

(** ** Case *)

Lemma between_lacks_cr lines p q first last :
  Forall clean lines -> clean first -> clean last -> lacks CR (between lines p.1 p.2 q.1 q.2 first last).
Proof.
  intros Hl [_ Hf] [_ Hla]. unfold between. destruct (p.1 =? q.1).
  - unfold zslice. by apply Forall_take, Forall_drop.
  - apply lacks_nl_joined, Forall_app. split; [constructor|].
    + by apply Forall_drop.
    + unfold zslice. apply Forall_take, Forall_drop. eapply Forall_impl; [exact Hl|]. by intros x [_ H].
    + apply Forall_singleton. by apply Forall_take.
Qed.

Lemma selectedtext_lacks_cr lines c : Forall clean lines -> lacks CR (selectedtext lines c).
Proof.
  intros H. unfold selectedtext. destruct (negb _); [constructor|].
  destruct (selectionbounds c) as [[sr sc] [er ec]]. destruct (_ <=? _); [constructor|].
  set (a := if sr <? 0 then 0 else sr). set (b := if zlen lines <=? _ then _ else _).
  assert (L : forall i line, pyidx lines i = Ok line -> clean line).
  { intros i line. unfold pyidx. cbv zeta. set (j := if i <? 0 then _ else _). destruct (j <? 0); [done|].
    destruct (lines !! Z.to_nat j) eqn:E; [|done]. intros [= <-]. exact (Forall_lookup_1 _ _ _ _ H E). }
  destruct (pyidx lines a) as [first|] eqn:E1; [|constructor]. destruct (pyidx lines b) as [last|] eqn:E2; [|constructor].
  apply (between_lacks_cr lines (a, clamp (zlen first) sc) (b, clamp (zlen last) ec)); [done|by eapply L..].
Qed.

Lemma anchored s row col : lines_of s <> [] ->
  forall s1, s1 = (setselectionanchor row col s).2 -> valid (lines_of s1) (anchor (w_caret s1)) /\
    lines_of s1 = lines_of s /\ cursor (w_caret s1) = cursor (w_caret s).
Proof.
  intros Hne s1 ->. split_and!; [|done..]. unfold anchor. cbn. rewrite <- surjective_pairing.
  by apply normalisecaret_valid.
Qed.

(** An anchor, the caret, the other end. *)
Lemma safe_select_to {A} s row col p (k : unit -> W A) :
  caret_in (lines_of s) p -> (forall u s', safe_at s' (k u)) ->
  safe_at s (setselectionanchor row col ;; modify (on_caret (set_cursor p)) ;; u ← updateselectionend p.1 p.2; k u).
Proof.
  intros Hp Hk. apply safe_nonempty. intros Hne. apply safe_bind; [apply safe_anchor|]. intros [] s1 E1.
  destruct (anchored s row col Hne s1) as (V & El & _); [by rewrite E1|].
  apply safe_bind; [by apply safe_moved; rewrite El|]. intros [] s2 [= <-]. apply safe_bind; [|intros; apply Hk].
  apply safe_end. intros _ _. exact V.
Qed.

(** The caret behind a replaced selection, as the code works it out. *)
Lemma caret_after M s s' p text : good M s s' -> (lax \/ normalise_newlines text = text) ->
  cursor (w_caret s') = textpositionafter p.1 p.2 (normalise_newlines text) ->
  caret_in (lines_of s') (textpositionafter p.1 p.2 text).
Proof. intros (M' & I & _) [L|E] Ec; [apply L|]. rewrite E in Ec. rewrite <- Ec. apply I. Qed.

Lemma safe_transformselection s upper : safe_at s (transformselection upper).
Proof.
  unfold transformselection. apply safe_session. intros M0 I0. safe_step. safe_step. cbv zeta.
  destruct (hasselection (w_caret s)) eqn:Eh; cbn [negb]; [|safe]. apply hasselection_active in Eh.
  destruct (selection_bounds_valid _ _ (ss_selection _ _ I0) Eh) as (V1 & V2 & L).
  destruct (selectionbounds (w_caret s)) as [[sr sc] [er ec]]. cbn [fst snd] in V1, V2, L.
  set (value := selectedtext _ _). set (t := if upper then uc_upper value else uc_lower value).
  destruct (bool_decide (t = value)); [safe|]. apply safe_first. intros M I.
  apply (replace_good M s (sr, sc) (er, ec)); [done..|]. cbn [fst snd]. intros s' G El Ec _ _. split; [done|].
  apply (safe_select_to s' sr sc (textpositionafter sr sc t)); [|intros; safe].
  apply (caret_after M s s' (sr, sc) t); [done| |done].
  destruct (ss_carets _ _ I) as [La|(_ & _ & HC)]; [by left|right]. apply normalise_clean.
  pose proof (selectedtext_lacks_cr (lines_of s) (w_caret s) (lines_clean _ _ I)) as Hv.
  unfold t. destruct upper; by apply HC.
Qed.

(** ** Finding *)

Lemma starts_with_len needle : forall l, starts_with needle l = true -> zlen needle <= zlen l.
Proof.
  induction needle as [|a n IH]; intros l; [intros _; apply zlen_nonneg|].
  destruct l as [|b l]; [done|]. cbn. intros [_ H]%andb_true_iff. rewrite !zlen_cons. specialize (IH _ H). lia.
Qed.

Lemma find_from_bounds needle : forall l i, 0 <= i -> find_from needle l i < 0 \/
  i <= find_from needle l i /\ find_from needle l i - i + zlen needle <= zlen l.
Proof.
  induction l as [|c l IH]; intros i Hi; cbn [find_from].
  - destruct (starts_with needle []) eqn:E; [|lia]. apply starts_with_len in E. lia.
  - destruct (starts_with needle (c :: l)) eqn:E; [apply starts_with_len in E; lia|].
    destruct (IH (i + 1) ltac:(lia)); rewrite ?zlen_cons; lia.
Qed.

Lemma str_find_bounds hay needle start : 0 <= start -> str_find hay needle start < 0 \/
  start <= str_find hay needle start /\ str_find hay needle start + zlen needle <= zlen hay.
Proof.
  intros H. unfold str_find. destruct (zlen hay <? start) eqn:E; [lia|].
  pose proof (find_from_bounds needle (zdrop start hay) start H). rewrite zlen_drop in * by lia. lia.
Qed.

Lemma rfind_from_bounds needle : forall l i best, 0 <= i ->
  rfind_from needle l i best = best \/
  i <= rfind_from needle l i best /\ rfind_from needle l i best - i + zlen needle <= zlen l.
Proof.
  induction l as [|c l IH]; intros i best Hi; cbn [rfind_from].
  - destruct (starts_with needle []) eqn:E; [|by left]. apply starts_with_len in E. right. lia.
  - destruct (starts_with needle (c :: l)) eqn:E.
    + apply starts_with_len in E. destruct (IH (i + 1) i ltac:(lia)) as [->|]; rewrite zlen_cons in *; lia.
    + destruct (IH (i + 1) best ltac:(lia)) as [->|]; rewrite ?zlen_cons; lia.
Qed.

Lemma str_rfind_bounds hay needle stop : 0 <= stop -> str_rfind hay needle stop < 0 \/
  0 <= str_rfind hay needle stop /\ str_rfind hay needle stop + zlen needle <= zlen hay.
Proof.
  intros H. unfold str_rfind. pose proof (rfind_from_bounds needle (ztake stop hay) 0 (-1) ltac:(lia)).
  assert (zlen (ztake stop hay) <= zlen hay).
  { unfold ztake, zlen. rewrite length_take. lia. }
  lia.
Qed.

Lemma find_rows_found n lines reverse value startrow startcol : forall off row index,
  find_rows n off lines true reverse value startrow startcol = Ok (Some (row, index)) ->
  valid lines (row, index + zlen value).
Proof.
  induction n as [|n IH]; intros off row index; cbn [find_rows]; [done|].
  set (r := (if reverse then startrow - off else startrow + off) mod zlen lines).
  destruct (pyidx lines r) as [line|] eqn:El; [|done]. cbn.
  set (i := findlineindex true line value _ reverse). destruct (0 <=? i) eqn:E; [|apply IH]. intros [= <- <-].
  assert (Hr : 0 <= r).
  { unfold r. destruct lines as [|l0 ls].
    - exfalso. unfold pyidx in El. cbv zeta in El. rewrite lookup_nil in El. by destruct (_ <? 0) in El.
    - apply Z.mod_pos_bound. rewrite zlen_cons. pose proof (zlen_nonneg ls). lia. }
  apply pyidx_inv in El; [|done]. split; [done|]. exists line. split; [done|]. cbn [snd]. pose proof (zlen_nonneg value).
  unfold i, findlineindex, fold_case in *. destruct reverse.
  - destruct (str_rfind_bounds line value (Z.max 0 (if off =? 0 then startcol else zlen line + 1)) ltac:(lia)); lia.
  - destruct (str_find_bounds line value (Z.max 0 (if off =? 0 then startcol else 0)) ltac:(lia)); lia.
Qed.

Lemma session_query M s value : session M s -> session M (on_search (set_FIND_QUERY value) s).
Proof. intros [[[]] ? ? ?]. constructor; [|done..]. by constructor. Qed.

(** The selection a search leaves. *)
Definition selects (s : wst) : Prop := valid (lines_of s) (anchor (w_caret s)) /\ valid (lines_of s) (endpoint (w_caret s)).

Lemma calm_selects s s' : calm s s' -> selects s -> selects s'.
Proof.
  intros (p & _ & H) [V1 V2]. unfold selects, anchor, endpoint.
  rewrite (quiet_lines _ _ H), (q_caret _ _ H). by split.
Qed.

(** The part of [findnext] that selects what was found. *)
Lemma found_good M s row index p : session M s -> caret_in (lines_of s) p ->
  runs (setselectionanchor row index ;; modify (on_caret (set_cursor p)) ;; updateselectionend p.1 p.2 ;;
    ensurecursorvisible ;; mret true) s (fun _ s' => good M s s' /\ selects s').
Proof.
  intros I Hp. pose proof (session_nonempty _ _ I) as Hne. unfold setselectionanchor, updateselectionend. run.
  match goal with |- runs ensurecursorvisible ?x _ => set (s1 := x) end.
  assert (S1 : selects s1).
  { split; unfold anchor, endpoint; cbn; rewrite <- surjective_pairing; by apply normalisecaret_valid. }
  assert (I1 : session M s1).
  { destruct I as [[[]] ? ? ?]. constructor; [|by intros _|done..]. constructor; try done. by destruct p. }
  apply ensurecursorvisible_calm; [by eapply session_viewable|]. intros s2 H2. run.
  split; [|by eapply calm_selects]. pose proof (calm_session _ _ _ H2 I1) as (M2 & G). by exists M2.
Qed.

(** Exceptions under a handler. *)
Lemma runs_try_gets {A B} (f : wst -> A) (k : A -> W B) b s Q :
  runs (try_w (k (f s)) b) s Q -> runs (try_w (gets f ≫= k) b) s Q.
Proof. intros H. exact H. Qed.

Lemma runs_try_modify {B} f (k : unit -> W B) b s Q :
  runs (try_w (k tt) b) (f s) Q -> runs (try_w (modify f ≫= k) b) s Q.
Proof. intros H. exact H. Qed.

Lemma runs_try_lift {A B} (r : res A) (k : A -> W B) b s (Q : B -> wst -> Prop) :
  Q b s -> (forall a, r = Ok a -> runs (try_w (k a) b) s Q) -> runs (try_w (lift_w r ≫= k) b) s Q.
Proof.
  intros H0 H. unfold runs, try_w, mbind, w_bind, lift_w in *. destruct r as [a|e]; [by apply H|exact H0].
Qed.

(** [findnext] keeps the session; when it reports a hit there is a selection. *)
Lemma findnext_good M s reverse query : lax \/ searching -> session M s ->
  runs (findnext reverse query) s (fun b s' => good M s s' /\ (b = true -> selects s')).
Proof.
  intros Sr I. unfold findnext. apply runs_try_gets. cbv beta zeta. set (value := default (FIND_QUERY (w_search s)) query).
  destruct (bool_decide (value = [])); [run; split; [by apply good_refl|done]|].
  apply runs_try_modify, runs_try_gets. set (s1 := on_search _ s).
  assert (I1 : session M s1) by by apply session_query.
  assert (G1 : forall s', good M s1 s' -> good M s s') by (intros s' (M' & G); by exists M').
  set (start := if hasselection _ && selectionmatches _ _ then _ else _). destruct start as [startrow startcol].
  apply runs_try_lift; [split; [by apply G1, good_refl|done]|]. intros [[row index]|] Hf; apply runs_try.
  - eapply runs_mono; [apply (found_good M s1 row index (row, index + zlen value)); [done|]|].
    + destruct Sr as [L|Sr]; [apply L|]. destruct (ss_carets _ _ I1) as [L|(_ & [E _] & _)]; [apply L|exact Sr|].
      apply caret_in_valid. rewrite E in Hf. by eapply find_rows_found.
    + intros b s' [G S]. by split; [apply G1|].
  - eapply runs_mono with (Q := fun b s' => good M s1 s' /\ b = false).
    + pose proof (safe_clear s1 M I1) as G. unfold clearselection in *. run. by split.
    + intros b s' [G ->]. by split; [apply G1|].
Qed.

Lemma safe_findnext s reverse query : lax \/ searching -> safe_at s (findnext reverse query).
Proof. intros Sr. apply safe_runs. intros M I. eapply runs_mono; [by apply findnext_good|]. by intros b s' [G _]. Qed.

Lemma selects_bounds s : selects s -> valid (lines_of s) (selectionbounds (w_caret s)).1 /\
  valid (lines_of s) (selectionbounds (w_caret s)).2 /\
  pos_leb (selectionbounds (w_caret s)).1 (selectionbounds (w_caret s)).2 = true.
Proof.
  intros [V1 V2]. unfold selectionbounds. destruct (pos_leb _ _) eqn:E; cbn [fst snd]; [done|].
  split_and!; [done..|]. unfold pos_leb in *. lia.
Qed.

(** The replacement of one occurrence. *)
Lemma safe_replace_selection s query : lax \/ searching -> selects s ->
  safe_at s (s ← gets (fun s => s);
   let '((sr, sc), (er, ec)) := selectionbounds (w_caret s) in
   let text := REPLACE_QUERY (w_search s) in
   replace sr sc er ec text ;;
   modify (on_caret (set_cursor (textpositionafter sr sc text))) ;;
   clearselection ;;
   findnext false (Some query) ;;
   mret true).
Proof.
  intros Sr H. safe_step. destruct (selects_bounds _ H) as (V1 & V2 & L).
  destruct (selectionbounds (w_caret s)) as [[sr sc] [er ec]]. cbn [fst snd] in V1, V2, L. cbv zeta.
  apply safe_first. intros M I. apply (replace_good M s (sr, sc) (er, ec)); [done..|]. cbn [fst snd].
  intros s' G El Ec _ _. split; [done|]. apply safe_bind.
  - apply safe_moved. intros _ _. apply (caret_after M s s' (sr, sc) (REPLACE_QUERY (w_search s))); [done| |done].
    destruct Sr as [La|Sr]; [by left|]. destruct (ss_carets _ _ I) as [La|(_ & HR & _)]; [by left|right].
    by apply normalise_clean, HR.
  - intros [] s2 _. safe_step. apply safe_bind; [by apply safe_findnext|intros; safe].
Qed.

Lemma safe_replaceone s : lax \/ searching -> safe_at s replaceone.
Proof.
  intros Sr. unfold replaceone. apply safe_session. intros M0 I0. safe_step. safe_step. cbv zeta. set (query := FIND_QUERY (w_search s)).
  destruct (bool_decide (query = [])); [safe|]. apply safe_first. intros M I.
  destruct (hasselection (w_caret s) && selectionmatches s query) eqn:E.
  - run. split; [by apply good_refl|]. cbn [negb]. apply safe_replace_selection; [done|].
    apply andb_true_iff in E as [E _]. apply hasselection_active in E. apply (ss_selection _ _ I E).
  - eapply runs_mono; [by apply findnext_good|]. intros b s' [G S]. split; [done|].
    destruct b; cbn [negb]; [|safe]. by apply safe_replace_selection; [|apply S].
Qed.

Lemma safe_replaceall s : safe_at s replaceall.
Proof. unfold replaceall. safe. Qed.

End Blocks.
