(* ===== verification/WriteSessionSpec.v ===== *)
(** The editor over a whole session: what holds after any commands on an opened
    document. *)

From stdpp Require Import base option list gmap.
From Stdlib Require Import ZArith Lia Bool.
From S2P Require Import Prelude PyFloat PyText PyVal PyStr WriteState WriteText WriteTree WriteWrap WriteEdit WriteView.
From S2P Require Import WriteOps WriteEditSpec WriteWrapSpec WriteViewSpec WriteSession WriteCommands.
Open Scope Z_scope.

Implicit Types p q : Z * Z.
Implicit Types lines : list pystr.

(** The commands of the editor, with what the outside gives them. *)
Inductive command : Type :=
  | Type_character (ch : pystr) | Newline | Enter | Backspace | Delete | Delete_word (reverse : bool)
  | Delete_selection | Replace_selection (text : pystr) | Insert_block (text : pystr)
  | Cut (exset : res unit) | Paste (data : option pystr)
  | Select_all | Select_word (row col : Z) | Select_line (row : Z) | Clear_selection
  | Duplicate_lines | Delete_lines | Indent (outdent : bool) | Change_case (upper : bool)
  | Left_key | Right_key | Up_key | Down_key | Home_key | End_key | Word_key (reverse : bool)
  | Page_up | Page_down | Go_to_line (line : option Z)
  | Find (reverse : bool) (query : option pystr) | Replace_one | Replace_all
  | Undo | Redo
  | Scroll (rows : Z) | Scroll_x (delta : Z) | Show_cursor | Relayout.

Section Spec.
Context {FT : Font} {CK : Clock} {AN : Alnum} {UC : PyUnicode}.

Definition ignore {A} (m : W A) : W unit := m ;; skip.

Definition perform (c : command) : W unit :=
  match c with
  | Type_character ch => insertcharacter ch | Newline => insertnewline | Enter => handlenewline
  | Backspace => handlebackspace | Delete => handledelete | Delete_word b => deleteword b
  | Delete_selection => deleteselection | Replace_selection text => replaceselectionwithtext text
  | Insert_block text => inserttextblock text
  | Cut e => editcut e | Paste d => editpaste d
  | Select_all => editselectall | Select_word r c => selectwordat r c | Select_line r => selectline r
  | Clear_selection => clearselection
  | Duplicate_lines => ignore duplicatelines | Delete_lines => ignore deletelines
  | Indent b => ignore (handleindentation b) | Change_case b => ignore (transformselection b)
  | Left_key => movecursorleft | Right_key => movecursorright | Up_key => movecursorup | Down_key => movecursordown
  | Home_key => movecursorhome | End_key => movecursorend | Word_key b => movecursorword b
  | Page_up => pageup | Page_down => pagedown | Go_to_line n => ignore (gotoline n)
  | Find r q => ignore (findnext r q) | Replace_one => ignore replaceone | Replace_all => ignore replaceall
  | Undo => undo | Redo => redo
  | Scroll n => scrollbylines n | Scroll_x d => scrollbyx d | Show_cursor => ensurecursorvisible
  | Relayout => updatelayoutonresize
  end.

(** The state after some commands. *)
Definition performed (cs : list command) (s : wst) : wst := foldl (fun s c => (perform c s).2) s cs.

(** A document just opened. *)
Record opened (s : wst) : Prop := {
  op_doc : docwf (w_doc s);
  op_tree : treewf (w_wrap s);
  op_hist : w_hist s = mkhist [] [] 0 0 0 1 false;
  op_caret : cursor (w_caret s) = (0, 0);
  op_selection : SEL_ACTIVE (w_caret s) = false;
  op_tab : 1 <= TAB_WIDTH (w_conf s) }.

Section Carets.
Context {CP : Carets}.

Lemma safe_ignore {A} s (m : W A) : safe_at s m -> safe_at s (ignore m).
Proof. intros H. unfold ignore. apply safe_bind; [done|]. intros. apply safe_ret. Qed.

(** The commands that put the caret where a search ends. *)
Definition searches (c : command) : bool :=
  match c with Find _ _ | Replace_one => true | _ => false end.

Lemma safe_perform s c : lax \/ searching \/ searches c = false -> safe_at s (perform c).
Proof.
  intros Sr. assert (Sr' : searches c = true -> lax \/ searching) by (destruct Sr as [?|[?|E]]; [tauto..|by rewrite E]).
  clear Sr. destruct c; cbn [perform searches] in *.
  all: [> apply safe_insertcharacter | apply safe_insertnewline | apply safe_handlenewline | apply safe_handlebackspace
    | apply safe_handledelete | apply safe_deleteword | apply safe_deleteselection | apply safe_replaceselection
    | apply safe_inserttextblock | apply safe_editcut | apply safe_editpaste | apply safe_editselectall
    | apply safe_selectwordat | apply safe_selectline | apply safe_clear
    | apply safe_ignore, safe_duplicatelines | apply safe_ignore, safe_deletelines
    | apply safe_ignore, safe_handleindentation | apply safe_ignore, safe_transformselection
    | apply safe_movecursorleft | apply safe_movecursorright | apply safe_movecursorup | apply safe_movecursordown
    | apply safe_movecursorhome | apply safe_movecursorend | apply safe_movecursorword
    | apply safe_pageup | apply safe_pagedown | apply safe_ignore, safe_gotoline
    | apply safe_ignore, safe_findnext, Sr', eq_refl | apply safe_ignore, safe_replaceone, Sr', eq_refl | apply safe_ignore, safe_replaceall
    | apply safe_undo | apply safe_redo
    | apply safe_scrollbylines | apply safe_scrollbyx | apply safe_ensure | apply safe_updatelayout ].
Qed.

Lemma performed_good M s cs : lax \/ searching \/ forallb (fun c => negb (searches c)) cs = true ->
  session M s -> good M s (performed cs s).
Proof.
  revert M s. induction cs as [|c cs IH]; intros M s Sr I; [by apply good_refl|]. cbn in *. rewrite andb_true_iff, negb_true_iff in Sr.
  pose proof (safe_perform s c ltac:(tauto) M I) as (M1 & I1 & X1 & L1 & S1 & O1 & F1).
  destruct (IH M1 _ ltac:(tauto) I1) as (M2 & I2 & X2 & L2 & S2 & O2 & F2).
  exists M2. split_and!; [done|by eapply extends_trans|unfold performed in *; lia|unfold performed in *; congruence..].
Qed.

Lemma opened_session s : opened s -> lax \/ strict /\ (searching -> exact_search (w_search s)) /\ case_lacks_cr ->
  (own_index -> wrap_ok (w_conf s) (w_doc s) (w_wrap s)) -> session (fun _ => lines_of s) s.
Proof.
  intros [H1 H1' H2 H3 H4 H5] HC HW. constructor; [|intros A; congruence|done|done].
  constructor; rewrite ?H2; cbn; try done; try lia. rewrite H3. apply caret_in_valid.
  pose proof (wf_nonempty _ H1) as Hne. unfold lines_of. destruct (DOC_LINES (w_doc s)) as [|l ls]; [done|].
  split; [done|]. exists l. split; [done|]. cbn. pose proof (zlen_nonneg l). lia.
Qed.

End Carets.

(** The kinds of caret. *)
Definition any_caret : Carets :=
  {| caret_in := fun _ _ => True; caret_in_valid := fun _ _ _ => I; own_index := False; searching := True |}.
Definition valid_caret (search : Prop) : Carets :=
  {| caret_in := valid; caret_in_valid := fun _ _ H => H; own_index := False; searching := search |}.
Definition any_caret_indexed : Carets :=
  {| caret_in := fun _ _ => True; caret_in_valid := fun _ _ _ => I; own_index := True; searching := True |}.

Lemma all_lax : lax (CP := any_caret).
Proof. done. Qed.

(** Whatever the carets are. *)
Lemma performed_any s cs : opened s -> exists M, session (CP := any_caret) M (performed cs s) /\
  extends (fun _ => lines_of s) M (NEXT_REVISION (w_hist s)) /\
  SAVED_REVISION (w_hist (performed cs s)) = SAVED_REVISION (w_hist s).
Proof.
  intros H. pose proof (opened_session (CP := any_caret) s H (or_introl (fun _ _ => I)) (False_ind _)) as I0.
  destruct (performed_good (CP := any_caret) _ s cs (or_introl all_lax) I0) as (M & I1 & X & _ & S & _). by exists M.
Qed.

Lemma performed_append cs cs' s : performed (cs ++ cs') s = performed cs' (performed cs s).
Proof. apply foldl_app. Qed.

(** C13: over any commands after a document was opened, a revision number stands
    for one text: if two states of the session have the same revision they have
    the same lines.  In particular a document that is not marked as modified is
    the one that was opened. *)
Theorem revision_is_text s cs cs' : opened s ->
  let s1 := performed cs s in
  let s2 := performed cs' s1 in
  (CURRENT_REVISION (w_hist s2) = CURRENT_REVISION (w_hist s1) -> lines_of s2 = lines_of s1) /\
  (IS_DIRTY (w_hist s1) = false -> lines_of s1 = lines_of s).
Proof.
  intros H s1 s2. pose proof (opened_session (CP := any_caret) s H (or_introl (fun _ _ => I)) (False_ind _)) as I0.
  destruct (performed_good (CP := any_caret) _ s cs (or_introl all_lax) I0) as (M1 & I1 & X1 & L1 & S1 & _ & _). fold s1 in I1, L1, S1.
  destruct (performed_good (CP := any_caret) _ s1 cs' (or_introl all_lax) I1) as (M2 & I2 & X2 & L2 & S2 & _ & _). fold s2 in I2, L2, S2.
  pose proof (hi_now _ _ (ss_hist _ _ I1)) as N1. pose proof (hi_now _ _ (ss_hist _ _ I2)) as N2.
  pose proof (hi_current _ _ (ss_hist _ _ I1)) as C1. split.
  - intros E. rewrite <- N1, <- N2, E. symmetry. symmetry. apply X2. lia.
  - intros E. rewrite (hi_dirty _ _ (ss_hist _ _ I1)) in E. rewrite <- N1.
    rewrite (op_hist _ H) in X1, S1. cbn in X1, S1. rewrite (X1 (CURRENT_REVISION (w_hist s1))); [done|]. lia.
Qed.

(** C30: over any commands after a document was opened the caret stays in the
    document, and so do both ends of an active selection; the commands that put
    the caret where a search ends (find, and the replacement of one occurrence)
    only with an exact search, that minds the case and replaces by text without
    carriage returns. *)
Theorem caret_stays s cs : opened s -> case_lacks_cr ->
  forallb (fun c => negb (searches c)) cs = true \/ exact_search (w_search s) ->
  let s1 := performed cs s in
  valid (lines_of s1) (cursor (w_caret s1)) /\
  (hasselection (w_caret s1) = true -> valid (lines_of s1) (anchor (w_caret s1)) /\ valid (lines_of s1) (endpoint (w_caret s1))).
Proof.
  intros H Hc Hs s1. set (search := exact_search (w_search s)).
  pose proof (opened_session (CP := valid_caret search) s H (or_intror (conj (fun _ _ V => V) (conj (fun E => E) Hc))) (False_ind _)) as I0.
  destruct (performed_good (CP := valid_caret search) _ s cs (or_intror (proj1 (or_comm _ _) Hs : search \/ _)) I0) as (M1 & I1 & _). fold s1 in I1.
  split; [apply (hi_caret _ _ (ss_hist _ _ I1))|]. intros A. by apply (ss_selection _ _ I1), hasselection_active.
Qed.

(** The lines the history needs to stay within its limits. *)
Definition history_ok (h : hist) : Prop :=
  (length (UNDO_STACK h) + length (REDO_STACK h) <= UNDO_LIMIT)%nat /\
  UNDO_BYTES h = zsum (List.map (fun act => historysize (a_removed act) (a_inserted act)) (UNDO_STACK h)) /\
  0 <= CURRENT_REVISION h < NEXT_REVISION h /\
  IS_DIRTY h = negb (CURRENT_REVISION h =? SAVED_REVISION h).

Lemma sized_bytes l : Forall sized l -> bytes_of l = zsum (List.map (fun act => historysize (a_removed act) (a_inserted act)) l).
Proof. induction 1 as [|act l H _ IH]; [done|]. rewrite bytes_cons, IH, H. done. Qed.

(** Over any commands after a document was opened, undo and redo together
    hold at most 200 actions, [UNDO_BYTES] is the size of the actions that can be
    undone, the current revision was given out, and the modified mark says
    whether it is the saved one. *)
Theorem history_bounds s cs : opened s -> history_ok (w_hist (performed cs s)).
Proof.
  intros H. destruct (performed_any s cs H) as (M1 & I1 & _). destruct I1 as [[] _ _ _].
  split_and!; [done| |lia|lia|done]. rewrite hi_bytes. apply sized_bytes, hi_sized.
Qed.

(** Whether the action goes on from the newest one, as typing does. *)
Definition joins (h : hist) (act : action) (now : pyfloat) : bool :=
  match UNDO_STACK h with
  | [] => false
  | previous :: _ => continues (SAVED_REVISION h) previous act now
  end.

Lemma push_alone act now h : UNDO_BYTES h = bytes_of (UNDO_STACK h) -> joins h act now = false ->
  let all := timed act now :: UNDO_STACK h in
  let h' := push act now h in
  exists k, UNDO_STACK h' = take k all /\ UNDO_BYTES h' = bytes_of (take k all) /\ REDO_STACK h' = [] /\
    (k <= UNDO_LIMIT)%nat /\ (k = 0%nat \/ bytes_of (take k all) <= UNDO_BYTE_LIMIT) /\
    (forall k', (k < k' <= length all)%nat -> (UNDO_LIMIT < k')%nat \/ UNDO_BYTE_LIMIT < bytes_of (take k' all)).
Proof.
  intros Hb Hc all h'.
  set (h0 := set_REDO_STACK [] (set_UNDO_BYTES (UNDO_BYTES h + historysize (a_removed act) (a_inserted act))
        (set_UNDO_STACK all h))).
  assert (E : h' = history_trim (S (length (UNDO_STACK h))) h0).
  { unfold h', push. fold all. fold h0. unfold joins in Hc. destruct (UNDO_STACK h) as [|previous rest]; [done|]. by rewrite Hc. }
  destruct (history_trim_spec (S (length (UNDO_STACK h))) h0) as (k & Hk & Et & L1 & L2 & L3).
  { change (UNDO_STACK h0) with all. change (UNDO_BYTES h0) with (UNDO_BYTES h + historysize (a_removed act) (a_inserted act)).
    unfold all. rewrite bytes_cons, Hb. change (a_bytes (timed act now)) with (historysize (a_removed act) (a_inserted act)). lia. }
  { done. }
  exists k. rewrite E, Et. by split_and!.
Qed.

Lemma historysize_pos removed inserted : 0 < historysize removed inserted.
Proof.
  unfold historysize, utf8_size. pose proof (zlen_nonneg (utf8_encode_replace removed)).
  pose proof (zlen_nonneg (utf8_encode_replace inserted)). lia.
Qed.

Lemma bytes_nonneg l : Forall sized l -> 0 <= bytes_of l.
Proof.
  induction 1 as [|act l H _ IH]; [done|]. rewrite bytes_cons, H. pose proof (historysize_pos (a_removed act) (a_inserted act)). lia.
Qed.

(** An action that fits the history is its newest one when it was pushed; one
    that does not empties it. *)
Lemma push_top act now h : UNDO_BYTES h = bytes_of (UNDO_STACK h) -> Forall sized (UNDO_STACK h) -> joins h act now = false ->
  if historysize (a_removed act) (a_inserted act) <=? UNDO_BYTE_LIMIT
  then exists rest, UNDO_STACK (push act now h) = timed act now :: rest
  else UNDO_STACK (push act now h) = [].
Proof.
  intros Hb Hs Hj. destruct (push_alone act now h Hb Hj) as (k & K1 & _ & _ & _ & K5 & K6).
  set (size := historysize (a_removed act) (a_inserted act)) in *.
  assert (T : forall j, bytes_of (take (S j) (timed act now :: UNDO_STACK h)) = size + bytes_of (take j (UNDO_STACK h))) by done.
  destruct (size <=? UNDO_BYTE_LIMIT) eqn:E; destruct k as [|k].
  - exfalso. destruct (K6 1%nat) as [K|K]; [cbn; lia|unfold UNDO_LIMIT in K; lia|]. rewrite T in K. change (bytes_of (take 0 _)) with 0 in K. lia.
  - eexists. rewrite K1. reflexivity.
  - done.
  - exfalso. destruct K5 as [K5|K5]; [done|]. rewrite T in K5. pose proof (bytes_nonneg _ (Forall_take _ k _ Hs)). lia.
Qed.

(** Going on from the newest action replaces it. *)
Lemma push_joined act now h previous rest :
  UNDO_STACK h = previous :: rest -> joins h act now = true -> UNDO_STACK (push act now h) = merged previous act now :: rest.
Proof. unfold push, joins. intros ->. by intros ->. Qed.

(** ** Undo and redo *)

Section Undo.
#[local] Existing Instance any_caret.

(** C34: at any time after a document was opened, redo after undo brings back the
    text, the revision, the modified mark and both stacks, and puts the caret and
    the scroll position where the action had left them; undo after redo
    likewise. *)
Theorem undo_redo o cs : opened o -> let s := performed cs o in
  (forall act rest, UNDO_STACK (w_hist s) = act :: rest ->
     runs (undo ;; redo) s (fun _ s' => lines_of s' = lines_of s /\ w_hist s' = w_hist s /\ position s' = a_after act)) /\
  (forall act rest, REDO_STACK (w_hist s) = act :: rest ->
     runs (redo ;; undo) s (fun _ s' => lines_of s' = lines_of s /\ w_hist s' = w_hist s /\ position s' = a_before act)).
Proof.
  intros Ho s. destruct (performed_any o cs Ho) as (M & I & _). fold s in I. pose proof (ss_hist _ _ I) as H.
  assert (Same : forall s', hist_inv M s' -> CURRENT_REVISION (w_hist s') = CURRENT_REVISION (w_hist s) ->
    UNDO_STACK (w_hist s') = UNDO_STACK (w_hist s) -> REDO_STACK (w_hist s') = REDO_STACK (w_hist s) ->
    SAVED_REVISION (w_hist s') = SAVED_REVISION (w_hist s) -> NEXT_REVISION (w_hist s') = NEXT_REVISION (w_hist s) ->
    lines_of s' = lines_of s /\ w_hist s' = w_hist s).
  { intros s' H' E1 E2 E3 E4 E5. split; [by rewrite <- (hi_now _ _ H'), <- (hi_now _ _ H), E1|].
    pose proof (hi_dirty _ _ H) as D. pose proof (hi_dirty _ _ H') as D'. pose proof (hi_bytes _ _ H) as B.
    pose proof (hi_bytes _ _ H') as B'. destruct (w_hist s), (w_hist s'). cbn in *. congruence. }
  split; intros act rest E; run.
  - apply (undo_run M); [done|]. intros s1 H1 F1 U1. rewrite E in U1. destruct U1 as (U1 & U2 & U3 & U4 & _).
    apply (redo_run M); [done|]. intros s2 H2 F2 R2. rewrite U4 in R2. destruct R2 as (R1 & R2 & R3 & R4 & _).
    destruct F1 as (_ & _ & _ & _ & F3 & F4), F2 as (_ & _ & _ & _ & F5 & F6).
    destruct (Same s2) as [L1 L2]; [done| |congruence..|done].
    rewrite R1. pose proof (hi_undo _ _ H) as Hu. rewrite E in Hu. apply Hu.
  - apply (redo_run M); [done|]. intros s1 H1 F1 U1. rewrite E in U1. destruct U1 as (U1 & U2 & U3 & U4 & _).
    apply (undo_run M); [done|]. intros s2 H2 F2 R2. rewrite U4 in R2. destruct R2 as (R1 & R2 & R3 & R4 & _).
    destruct F1 as (_ & _ & _ & _ & F3 & F4), F2 as (_ & _ & _ & _ & F5 & F6).
    destruct (Same s2) as [L1 L2]; [done| |congruence..|done].
    rewrite R1. pose proof (hi_redo _ _ H) as Hu. rewrite E in Hu. apply Hu.
Qed.

(** C14: at any time after a document was opened, undo takes back an edit that
    changes the text. Where the edit goes on from the newest action, as typing on
    within a second does, the two are one action, and undo after the edit leaves
    what undo before the edit leaves: text, revision, caret and scroll position
    of before the whole run. Where it does not, undo leaves those of before the
    edit; only an edit that is by itself too large for the history is not taken
    back, and stays as it is. *)
Theorem undo_restores o cs sr sc er ec text : opened o -> let s := performed cs o in
  let '(p, q) := range_of (lines_of s) sr sc er ec in
  let removed := removed_text (lines_of s) p q in
  let inserted := normalise_newlines text in
  let edit := editreplace sr sc er ec text in
  let as_in (s' s1 : wst) := lines_of s' = lines_of s1 /\
    CURRENT_REVISION (w_hist s') = CURRENT_REVISION (w_hist s1) /\ position s' = position s1 in
  removed <> inserted ->
  runs (edit ;; undo) s (fun _ s' =>
    if joins (w_hist s) (recorded s p q inserted) (mono (w_tick s)) then runs undo s (fun _ s1 => as_in s' s1)
    else if historysize removed inserted <=? UNDO_BYTE_LIMIT then as_in s' s
    else runs edit s (fun _ s1 => s' = s1)).
Proof.
  intros Ho s. destruct (performed_any o cs Ho) as (M & I & _). fold s in I. pose proof (ss_hist _ _ I) as H.
  destruct (range_of (lines_of s) sr sc er ec) as [p q] eqn:Er.
  intros removed inserted edit as_in Hne.
  assert (B : bool_decide (removed = inserted) = false) by by apply bool_decide_eq_false.
  apply runs_bind, runs_self, (editreplace_run M); [done|]. rewrite Er.
  cbv zeta. fold removed inserted. intros Vp Vq L M' h t H' X Ln Sv Ht _ Edit.
  rewrite B in Ht. destruct (Ht eq_refl) as [Eh Ec]. clear Ht.
  set (act := recorded s p q inserted) in *. set (now := mono (w_tick s)) in *.
  pose proof (hi_undo _ _ H) as Hu. pose proof (proj1 (hi_sized _ _ H)) as Hs. pose proof (hi_bytes _ _ H) as Hb.
  apply (undo_run M'); [done|]. intros s2 H2 F2 U2. pose proof (hi_now _ _ H2) as N2.
  change (UNDO_STACK (w_hist (with_hist h t (edited s p q inserted)))) with (UNDO_STACK h) in U2.
  destruct (joins (w_hist s) act now) eqn:J.
  - destruct (UNDO_STACK (w_hist s)) as [|previous rest] eqn:E; [unfold joins in J; by rewrite E in J|].
    rewrite Eh, (push_joined _ _ _ previous rest) in U2 by done. destruct U2 as (U1 & U2 & _). cbn in U1, U2.
    apply (undo_run M); [done|]. intros s1 H1 _ V. rewrite E in V. destruct V as (V1 & V2 & _).
    split_and!; [|congruence..]. rewrite <- N2, <- (hi_now _ _ H1), U1, V1. apply X. apply Hu.
  - pose proof (push_top act now (revised (w_hist s)) Hb Hs J) as Top. rewrite <- Eh in Top.
    change (historysize (a_removed act) (a_inserted act)) with (historysize removed inserted) in Top.
    destruct (_ <=? _).
    + destruct Top as [rest Top]. rewrite Top in U2. destruct U2 as (U1 & U2 & _). cbn in U1, U2. split_and!; [|done|done].
      rewrite <- N2, U1, <- (hi_now _ _ H). apply X. apply (hi_current _ _ H).
    + rewrite Top in U2. subst s2. by eapply runs_eq.
Qed.

End Undo.

(** ** The rows of the screen *)

(** The index of rows answers as the list of all rows of the document would:
    [displaylinecount] is its length and [displaysegment] its entry at the index
    brought into range; and the row that [cursorvisualindex] gives for a position
    of the document is one that shows its column. *)
Definition index_right (s : wst) : Prop :=
  let rows := screen (w_conf s) (lines_of s) in
  runs displaylinecount s (fun n _ => n = zlen rows) /\
  (forall index, runs (displaysegment index) s (fun r _ =>
     rows !! Z.to_nat (Z.max 0 (Z.min (zlen rows - 1) index)) = Some r)) /\
  (forall p, valid (lines_of s) p -> runs (k ← cursorvisualindex p.1 p.2; displaysegment k) s (fun r _ =>
     shows r p.1 p.2 (zlen (line_at (lines_of s) p.1)))).

Lemma index_stays_right s cs : opened s -> wrap_ok (w_conf s) (w_doc s) (w_wrap s) ->
  let s1 := performed cs s in WORD_WRAP (w_conf s1) = true -> index_right s1.
Proof.
  intros H Hw s1 Ew. unfold index_right. cbv zeta. set (rows := screen (w_conf s1) (lines_of s1)).
  pose proof (opened_session (CP := any_caret_indexed) s H (or_introl (fun _ _ => I)) (fun _ => Hw)) as I0.
  destruct (performed_good (CP := any_caret_indexed) _ s cs (or_introl all_lax) I0) as (M1 & I1 & _). fold s1 in I1.
  assert (W : wrapping s1) by (destruct I1 as [[[] ] ? ? ?]; constructor; [done|done|by apply ed_index]).
  split_and!.
  - by apply displaylinecount_run.
  - intros index. apply displaysegment_run; [done..|]. by intros.
  - intros p Vp. run. apply (cursorvisualindex_run s1 p); [done..|]. intros r s2 k Hk Hl Hs Hr.
    destruct (reindexed_still _ _ Hr) as (W2 & [Q2 _] & _). pose proof (quiet_lines _ _ Q2) as El.
    apply displaysegment_run; [done|by rewrite (q_conf _ _ Q2)|]. intros r' s3 Hl' _.
    rewrite El, (q_conf _ _ Q2) in Hl'. fold rows in Hl, Hl'. fold k in Hl'. pose proof (lookup_lt_Some _ _ _ Hl) as Hlt.
    replace (Z.max 0 (Z.min (zlen rows - 1) k)) with k in Hl' by (unfold zlen; lia). congruence.
Qed.

End Spec.
