(* ===== verification/WriteDocsSpec.v ===== *)
(** Documents and files: a document that is not marked as modified is what its
    file holds, and text that was not saved is not given up unasked. *)

From stdpp Require Import base option list gmap.
From Stdlib Require Import ZArith Lia Bool String.
From S2P Require Import Prelude PyFloat PyText PyVal PyStr PyFs PyPath PyFsFacts BrokerReadSpec WriteState WriteText.
From S2P Require Import WriteFormat WriteDisk WriteTree WriteWrap WriteEdit WriteView WriteOps WriteDocs WriteEditSpec.
From S2P Require Import WriteFormatSpec WriteDiskSpec WriteWrapSpec WriteSession WriteCommands WriteSessionSpec.
Open Scope Z_scope.

Implicit Types lines : list pystr.

Section Docs.
Context {FT : Font} {CK : Clock} {AN : Alnum} {UC : PyUnicode} {OS : Os}.
Context (error_text : exn -> pystr).

(** ** What happens in the window *)

Inductive event : Type :=
| Command (c : command)
| Ask (action : daction)              (* File: new, open, recent, exit; closing the window; a dropped file *)
| Save | Save_as                      (* File: save, save as *)
| Dialog_answer (result value : pystr) | Dialog_error
| Picker_answer (path : option pystr) | Picker_error
| Worker | Poll.

Definition discard {A} (m : D A) : D unit := _ ← m; mret tt.

Definition handle (e : event) : D unit :=
  match e with
  | Command c => ed (perform c)
  | Ask action => discard (requestdestructiveaction error_text action)
  | Save => save_command error_text
  | Save_as => startsavepathprompt
  | Dialog_answer result value => discard (handledialogresult error_text result value)
  | Dialog_error => dialog_error
  | Picker_answer path => discard (handlepickerresult error_text path)
  | Picker_error => picker_error
  | Worker => run_worker error_text
  | Poll => discard (pollfileio error_text)
  end.

(** ** What stays *)

(** Document, history and settings are as before, and the editor runs if it did. *)
Record kept (s s' : wst * world) : Prop := {
  kp_doc : w_doc s'.1 = w_doc s.1;
  kp_hist : w_hist s'.1 = w_hist s.1;
  kp_running : APP_RUNNING (w_io s'.1) = APP_RUNNING (w_io s.1) }.

#[local] Instance kept_preorder : PreOrder kept.
Proof. split; [done|]. intros s1 s2 s3 [] []. split; congruence. Qed.

Definition keeps_at {A} (s : wst * world) (m : D A) : Prop := kept s (m s).2.

Lemma keeps_at_bind {A B} s (m : D A) (k : A -> D B) : keeps_at s m ->
  (forall a s', kept s s' -> keeps_at s' (k a)) -> keeps_at s (m ≫= k).
Proof.
  unfold keeps_at, mbind, d_bind. intros H Hk. destruct (m s) as [[a|e] s'] eqn:E; [|done].
  transitivity s'; [done|]. by apply Hk.
Qed.

Lemma keeps_at_ret {A} s (a : A) : keeps_at s (mret a).
Proof. done. Qed.

Lemma keeps_get {A B} s (f : wst -> A) (k : A -> D B) : keeps_at s (k (f s.1)) -> keeps_at s (get f ≫= k).
Proof. done. Qed.

Lemma keeps_sys {A} s (m : IO A) : keeps_at s (sys m).
Proof. unfold keeps_at, sys. by destruct (m s.2). Qed.

Lemma keeps_put_io s f : (forall i, APP_RUNNING (f i) = APP_RUNNING i) -> keeps_at s (put_io f).
Proof. intros H. split; [done|done|]. apply H. Qed.

Lemma keeps_try {A} s (m : D A) h : keeps_at s m -> (forall e s', kept s s' -> keeps_at s' (h e)) -> keeps_at s (try_d m h).
Proof.
  unfold keeps_at, try_d. intros H Hh. destruct (m s) as [[a|e] s'] eqn:E; [done|]. transitivity s'; [done|]. by apply Hh.
Qed.

Lemma keeps_at_status s m : keeps_at s (setstatus m).
Proof. by apply keeps_put_io. Qed.

End Docs.

Create HintDb docs.
#[export] Hint Resolve keeps_at_ret keeps_sys keeps_at_status : docs.

Ltac docs_step :=
  lazymatch goal with
  | |- forall _, _ => intros ?
  | |- keeps_at _ (get _ ≫= _) => apply keeps_get; cbv zeta
  | |- keeps_at _ (_ ≫= _) => apply keeps_at_bind; [|intros ? ? ?]
  | |- keeps_at _ (put_io _) => apply keeps_put_io; by intros []
  | |- keeps_at _ (try_d _ _) => apply keeps_try; [|intros ? ? ?]
  | |- keeps_at _ (if ?b then _ else _) => destruct b eqn:?
  | |- keeps_at _ (match ?x with _ => _ end) => destruct x eqn:?
  | |- keeps_at _ _ => progress eauto with docs
  end.
Ltac docs := repeat docs_step.

Section Frames.
Context {FT : Font} {CK : Clock} {AN : Alnum} {UC : PyUnicode} {OS : Os}.
Context (error_text : exn -> pystr).

Lemma keeps_cancel s : keeps_at s canceldestructiveflow.
Proof. unfold canceldestructiveflow. docs. Qed.

Lemma keeps_recent s path : keeps_at s (addrecentfile path).
Proof. unfold addrecentfile. docs. Qed.

Lemma keeps_start s job : keeps_at s (startfileio job).
Proof. unfold startfileio. docs. Qed.

Lemma keeps_dialog s d : keeps_at s (opendialog d).
Proof. unfold opendialog. docs. Qed.

Lemma keeps_picker s kind : keeps_at s (startfilepicker kind).
Proof. unfold startfilepicker. docs. Qed.

Lemma keeps_open_prompt s : keeps_at s startopenpathprompt.
Proof. unfold startopenpathprompt. docs; auto using keeps_picker, keeps_dialog. Qed.

Lemma keeps_save_prompt s : keeps_at s startsavepathprompt.
Proof. unfold startsavepathprompt. docs; auto using keeps_picker, keeps_dialog. Qed.

Lemma keeps_worker s : keeps_at s (run_worker error_text).
Proof. unfold run_worker. docs. Qed.

Hint Resolve keeps_cancel keeps_recent keeps_start keeps_dialog keeps_picker keeps_open_prompt keeps_save_prompt keeps_worker : docs.

(** While the editor runs, files are opened and saved in the background. *)
Lemma keeps_load s path : APP_RUNNING (w_io s.1) = true -> keeps_at s (loaddocumentfromfile error_text path).
Proof.
  intros Hr. unfold loaddocumentfromfile. apply keeps_try; [|intros; apply keeps_at_status].
  destruct (str_eqb path []); [apply keeps_at_status|]. apply keeps_get. rewrite Hr. docs.
Qed.

Lemma keeps_save s path : APP_RUNNING (w_io s.1) = true -> keeps_at s (savedocumenttofile error_text path).
Proof.
  intros Hr. unfold savedocumenttofile. apply keeps_try; [|intros; docs].
  apply keeps_at_bind; [apply keeps_sys|]. intros [[p root] parts] s' K. apply keeps_get. cbv zeta.
  rewrite (kp_running _ _ K), Hr. apply keeps_start.
Qed.

(** With unsaved changes an action waits. *)
Lemma keeps_request s action : IS_DIRTY (w_hist s.1) = true -> keeps_at s (requestdestructiveaction error_text action).
Proof. intros Hd. unfold requestdestructiveaction. apply keeps_get. rewrite Hd. cbn [negb]. docs. Qed.

Lemma keeps_complete s : IS_DIRTY (w_hist s.1) = true -> keeps_at s (completeaftersave error_text).
Proof. intros Hd. unfold completeaftersave. apply keeps_get. rewrite Hd. docs. Qed.

End Frames.
#[export] Hint Resolve keeps_cancel keeps_recent keeps_start keeps_dialog keeps_picker keeps_open_prompt keeps_save_prompt
  keeps_worker : docs.

(** ** Unsaved text *)

(** The events after which a modified document may be another: commands, a find,
    replace or go-to-line dialog that was confirmed, the answer [discard], and the
    result of a load or of the save of just this text. *)
Definition may_replace (e : event) (s : wst) : bool :=
  match e with
  | Command _ => true
  | Dialog_answer result _ =>
      match DIALOG (w_io s) with
      | Some (Find_text | Replace_with _ | Goto_line) => str_eqb result (lit "ok")
      | Some (Confirm_unsaved _) => str_eqb result (lit "discard")
      | _ => false
      end
  | Poll =>
      match FILE_IO_RESULT (w_io s) with
      | Some (IoLoaded _ _ _) => true
      | Some (IoSaved _ revision) => CURRENT_REVISION (w_hist s) =? revision
      | _ => false
      end
  | _ => false
  end.

Section Unsaved.
Context {FT : Font} {CK : Clock} {AN : Alnum} {UC : PyUnicode} {OS : Os}.
Context (error_text : exn -> pystr).

Lemma keeps_discard {A} s (m : D A) : keeps_at s m -> keeps_at s (discard m).
Proof. intros H. unfold discard. by apply keeps_at_bind. Qed.

Lemma keeps_save_command s : APP_RUNNING (w_io s.1) = true -> keeps_at s (save_command error_text).
Proof.
  intros Hr. unfold save_command. apply keeps_get. destruct (FILE_PATH (w_file s.1)) as [p|]; [|docs].
  destruct (str_eqb p []); [docs|]. apply keeps_at_bind; [by apply keeps_save|]. docs.
Qed.

Lemma keeps_saved_then s path : APP_RUNNING (w_io s.1) = true -> IS_DIRTY (w_hist s.1) = true ->
  keeps_at s (_ ← savedocumenttofile error_text path; _ ← completeaftersave error_text; mret tt).
Proof.
  intros Hr Hd. apply keeps_at_bind; [by apply keeps_save|]. intros _ s1 K1.
  apply keeps_at_bind; [apply keeps_complete; by rewrite (kp_hist _ _ K1)|]. docs.
Qed.

Lemma keeps_dialog_result s result value : APP_RUNNING (w_io s.1) = true -> IS_DIRTY (w_hist s.1) = true ->
  may_replace (Dialog_answer result value) s.1 = false -> keeps_at s (handledialogresult error_text result value).
Proof.
  intros Hr Hd Hm. unfold handledialogresult. apply keeps_get. cbn [may_replace] in Hm.
  destruct (DIALOG (w_io s.1)) as [action|]; [|docs].
  apply keeps_at_bind; [docs|]. intros _ s1 K1.
  assert (R1 : APP_RUNNING (w_io s1.1) = true) by by rewrite (kp_running _ _ K1).
  assert (D1 : IS_DIRTY (w_hist s1.1) = true) by by rewrite (kp_hist _ _ K1).
  destruct (str_eqb result (lit "cancel")); [docs|].
  assert (Other : forall m : D unit, keeps_at s1 m ->
    keeps_at s1 ((if negb (str_eqb result (lit "ok")) then mret tt else m) ;; mret true)).
  { intros m Hk. destruct (negb _); apply keeps_at_bind; docs. }
  assert (Not : forall m : D unit, str_eqb result (lit "ok") = false ->
    keeps_at s1 ((if negb (str_eqb result (lit "ok")) then mret tt else m) ;; mret true)).
  { intros m E. rewrite E. cbn [negb]. docs. }
  destruct action as [payload| | | |all|all|]; try (by apply Not).
  - apply keeps_at_bind; [|docs]. rewrite Hm. destruct (str_eqb result (lit "save")); [|docs].
    apply keeps_at_bind; [docs|]. intros _ s2 K2.
    assert (R2 : APP_RUNNING (w_io s2.1) = true) by by rewrite (kp_running _ _ K2).
    assert (D2 : IS_DIRTY (w_hist s2.1) = true) by by rewrite (kp_hist _ _ K2).
    apply keeps_get. destruct (FILE_PATH (w_file s2.1)) as [p|]; [|docs].
    destruct (str_eqb p []); [docs|by apply keeps_saved_then].
  - by apply Other, keeps_load.
  - by apply Other, keeps_saved_then.
  - apply Other. apply keeps_at_bind; [|docs]. by split.
Qed.

Lemma keeps_picker_result s path : APP_RUNNING (w_io s.1) = true -> keeps_at s (handlepickerresult error_text path).
Proof.
  intros Hr. unfold handlepickerresult. apply keeps_get. destruct (PICKER_PENDING (w_io s.1)) as [kind|]; [|docs].
  apply keeps_at_bind; [docs|]. intros _ s1 K1. assert (R1 : APP_RUNNING (w_io s1.1) = true) by by rewrite (kp_running _ _ K1).
  destruct path as [p|], kind; [..|docs|docs].
  - apply keeps_at_bind; [docs|]. intros there s2 K2. assert (R2 : APP_RUNNING (w_io s2.1) = true) by by rewrite (kp_running _ _ K2).
    apply keeps_at_bind; [destruct there; [by apply keeps_load|docs]|]. docs.
  - apply keeps_at_bind; [by apply keeps_save|]. docs.
Qed.

Lemma keeps_poll s : may_replace Poll s.1 = false -> IS_DIRTY (w_hist s.1) = true -> keeps_at s (pollfileio error_text).
Proof.
  intros Hm Hd. unfold pollfileio. apply keeps_get. cbn [may_replace] in Hm.
  destruct (FILE_IO_RESULT (w_io s.1)) as [[saving message|path lines m|path revision]|]; [|done| |docs]; [docs|].
  apply keeps_at_bind; [docs|]. intros _ s1 K1. apply keeps_at_bind; [docs|]. intros _ s2 K2. apply keeps_get.
  apply keeps_at_bind; [by split|]. intros _ s3 K3.
  assert (H3 : w_hist s3.1 = w_hist s.1) by (rewrite (kp_hist _ _ K3), (kp_hist _ _ K2); apply K1). apply keeps_get. rewrite H3, Hm.
  apply keeps_at_bind; [docs|]. intros _ s4 K4. apply keeps_at_bind; [docs|]. intros _ s5 K5. apply keeps_at_bind; [docs|].
  intros _ s6 K6. apply keeps_at_bind; [|docs]. apply keeps_complete.
  by rewrite (kp_hist _ _ K6), (kp_hist _ _ K5), (kp_hist _ _ K4), H3.
Qed.

(** C24: while the document has unsaved changes, no event but those that may
    replace it (a command, a confirmed find, replace or go-to-line dialog, the
    answer [discard], a load that ends, the save of just this text) changes the
    document or its history. *)
Theorem unsaved_text_kept e s : IS_DIRTY (w_hist s.1) = true -> APP_RUNNING (w_io s.1) = true ->
  may_replace e s.1 = false ->
  w_doc (handle error_text e s).2.1 = w_doc s.1 /\ w_hist (handle error_text e s).2.1 = w_hist s.1.
Proof.
  intros Hd Hr Hm. assert (K : keeps_at s (handle error_text e)); [|by destruct K].
  destruct e; cbn [handle]; try done.
  - by apply keeps_discard, keeps_request.
  - by apply keeps_save_command.
  - docs.
  - by apply keeps_discard, keeps_dialog_result.
  - unfold dialog_error. docs.
  - by apply keeps_discard, keeps_picker_result.
  - unfold picker_error. apply keeps_get. destruct (PICKER_PENDING _) as [[]|]; docs.
  - docs.
  - by apply keeps_discard, keeps_poll.
Qed.

End Unsaved.

(** ** The file of a document that is not modified *)

Section Clean.
Context {FT : Font} {CK : Clock} {AN : Alnum} {UC : PyUnicode} {OS : Os}.
Context (error_text : exn -> pystr).

Lemma d_bind_run {A B} (m : D A) (k : A -> D B) s a s1 : m s = (Ok a, s1) -> (m ≫= k) s = k a s1.
Proof. intros H. unfold mbind, d_bind. by rewrite H. Qed.

Lemma d_bind_inv {A B} (m : D A) (k : A -> D B) s r s' : (m ≫= k) s = (r, s') ->
  (exists a s1, m s = (Ok a, s1) /\ k a s1 = (r, s')) \/ (exists e, m s = (Exc e, s') /\ r = Exc e).
Proof.
  unfold mbind, d_bind. destruct (m s) as [[a|e] s1]; [by left; exists a, s1|]. intros [= <- <-]. right. by exists e.
Qed.

(** A save that was started: the job it leaves to the worker. *)
Lemma save_started s w path : APP_RUNNING (w_io s) = true -> FILE_IO_THREAD (w_io s) = None -> FILE_IO_RESULT (w_io s) = None ->
  let '(r, (s', w')) := savedocumenttofile error_text path (s, w) in
  same_nodes w w' /\ w_doc s' = w_doc s /\ w_hist s' = w_hist s /\ w_file s' = w_file s /\ AFTER_SAVE_ACTION (w_io s') = AFTER_SAVE_ACTION (w_io s) /\
  (exists g, s' = on_io g s) /\ FILE_IO_RESULT (w_io s') = None /\
  (FILE_IO_THREAD (w_io s') = None \/ path_text path = true /\
   FILE_IO_THREAD (w_io s') = Some (SaveJob (normpath path) (lines_of s) (CURRENT_REVISION (w_hist s))
     (FILE_ENCODING (w_file s)) (FILE_BOM (w_file s)) (FILE_NEWLINE (w_file s)))).
Proof.
  intros Hr Ht Hf. unfold savedocumenttofile, try_d, mbind, d_bind, sys. cbn [fst snd].
  destruct (usersavepath path w) as [[[[p root] parts]|e] w1] eqn:Ep.
  - pose proof (io_pres_run _ _ _ _ _ (usersavepath_still path) Ep) as S1. unfold usersavepath in Ep.
    apply io_bind_Ok in Ep as (u & w2 & Hg & Ep). apply guard_io_Ok in Hg as [Hp ->].
    apply io_bind_Ok in Ep as (user & w3 & _ & Ep). cbv zeta in Ep. destruct (below _ _) as [[|q qs]|]; [done| |done].
    apply ret_Ok in Ep as [[= -> -> ->] ->]. cbn [get fst snd]. rewrite Hr. unfold startfileio, mbind, d_bind.
    cbn [get fst snd]. rewrite Ht. cbn. split_and!; try done. { by eexists (fun _ => _). } right. by split.
  - pose proof (io_pres_run _ _ _ _ _ (usersavepath_still path) Ep) as S1. cbn. split_and!; try done; [by eexists (fun _ => _)|].
    by left.
Qed.

(** The worker of a save that says it went well. *)
Lemma worker_saved s w path lines revision encoding bom newline p rev :
  FILE_IO_THREAD (w_io s) = Some (SaveJob path lines revision encoding bom newline) -> FILE_IO_RESULT (w_io s) = None ->
  let s' := (run_worker error_text (s, w)).2 in
  FILE_IO_RESULT (w_io s'.1) = Some (IoSaved p rev) ->
  rev = revision /\ (exists g, s'.1 = on_io g s) /\ AFTER_SAVE_ACTION (w_io s'.1) = AFTER_SAVE_ACTION (w_io s) /\
  writeuserfilesnapshot path lines encoding bom newline w = (Ok p, s'.2).
Proof.
  intros Ht Hf. unfold run_worker. unfold mbind, d_bind, sys. cbn [get fst snd]. rewrite Ht, Hf. cbn [worker].
  unfold filesaveworker, try_io, mbind, d_bind, io_bind. cbn [fst snd].
  destruct (writeuserfilesnapshot path lines encoding bom newline w) as [[p'|e] w1]; cbn; [|by destruct e].
  intros [= -> ->]. split_and!; [done|by eexists (fun _ => _)|done|done].
Qed.

(** The result of a save: the document is marked as saved if its revision is the
    one that was saved. *)
Lemma poll_saved s w p revision : FILE_IO_RESULT (w_io s) = Some (IoSaved p revision) -> AFTER_SAVE_ACTION (w_io s) = None ->
  exists g f, (pollfileio error_text (s, w)).2 =
      (on_io g (on_file f (if CURRENT_REVISION (w_hist s) =? revision then on_hist set_saved s else s)), w) /\
    forall x, FILE_PATH (f x) = Some p /\ FILE_ENCODING (f x) = FILE_ENCODING x /\ FILE_BOM (f x) = FILE_BOM x /\
      FILE_NEWLINE (f x) = FILE_NEWLINE x.
Proof.
  intros Hr Ha. set (name := if str_eqb p [] then FILE_NAME (w_file s) else basename p).
  assert (E : pollfileio error_text (s, w) =
      ((if CURRENT_REVISION (w_hist s) =? revision then put (on_hist set_saved) else canceldestructiveflow) ;;
        addrecentfile p ;; setstatus (lit "saved") ;; _ ← completeaftersave error_text; mret true)
      (on_file (set_path (Some p) name) (on_io (set_FILE_IO_THREAD None) (on_io (set_FILE_IO_RESULT None) s)), w)).
  { unfold pollfileio, put_io. rewrite (d_bind_run (get _) _ _ _ _ eq_refl). cbn [fst]. rewrite Hr.
    rewrite (d_bind_run (put _) _ _ tt _ eq_refl), (d_bind_run (put _) _ _ tt _ eq_refl).
    rewrite (d_bind_run (get _) _ _ _ _ eq_refl). cbn [fst snd on_io w_file]. fold name.
    by rewrite (d_bind_run (put _) _ _ tt _ eq_refl), (d_bind_run (get _) _ _ _ _ eq_refl). }
  rewrite E. clear E.
  destruct (CURRENT_REVISION (w_hist s) =? revision); (eexists (fun _ => _), (set_path (Some p) name); split; [|done]);
    unfold canceldestructiveflow, addrecentfile, setstatus, put_io, completeaftersave, mbind, d_bind; cbn [put get fst snd].
  - replace (AFTER_SAVE_ACTION (w_io _)) with (@None daction) by (symmetry; exact Ha). reflexivity.
  - replace (AFTER_SAVE_ACTION (w_io _)) with (@None daction) by reflexivity. reflexivity.
Qed.

Lemma session_io {CP : Carets} M s g f : session M s -> session M (on_io g (on_file f s)).
Proof. intros [[[]] ? ? ?]. by constructor. Qed.

Lemma session_saved {CP : Carets} M s : session M s -> session M (on_hist set_saved s).
Proof.
  intros [[[]] ? ? ?]. constructor; try done. constructor; try done. cbn. by rewrite Z.eqb_refl.
Qed.

(** The state of a save in the background: it is started after the commands [before];
    the commands [during] come before the worker is done and [late] before its result
    is taken note of; the commands [after] come then. *)
Section Save.
Context (s : wst) (w : world) (path : pystr) (before during late after : list command).

Definition asked : wst := performed before s.
Definition started : wst * world := (savedocumenttofile error_text path (asked, w)).2.
Definition worked : wst * world := (run_worker error_text (performed during started.1, started.2)).2.
Definition noted : wst * world := (pollfileio error_text (performed late worked.1, worked.2)).2.
Definition later : wst := performed after noted.1.

(** The history at the note, and what the note makes of the state. *)
Lemma save_noted p revision :
  opened s -> APP_RUNNING (w_io s) = true -> FILE_IO_THREAD (w_io s) = None -> FILE_IO_RESULT (w_io s) = None ->
  AFTER_SAVE_ACTION (w_io s) = None -> linked w -> own_temporary (split_path (path_comps path)).2 = false ->
  FILE_IO_RESULT (w_io worked.1) = Some (IoSaved p revision) ->
  exists M4 g f, let s3 := performed late worked.1 in
    revision = CURRENT_REVISION (w_hist asked) /\ session (CP := any_caret) M4 s3 /\
    M4 revision = lines_of asked /\ M4 0 = lines_of s /\ revision < NEXT_REVISION (w_hist s3) /\ 0 < NEXT_REVISION (w_hist s3) /\
    SAVED_REVISION (w_hist s3) = 0 /\ 
    noted.1 = on_io g (on_file f (if CURRENT_REVISION (w_hist s3) =? revision then on_hist set_saved s3 else s3)) /\
    FILE_PATH (f (w_file s3)) = Some p /\ FILE_ENCODING (f (w_file s3)) = FILE_ENCODING (w_file asked) /\
    FILE_BOM (f (w_file s3)) = FILE_BOM (w_file asked) /\ FILE_NEWLINE (f (w_file s3)) = FILE_NEWLINE (w_file asked) /\
    exists data, has_file noted.2 (path_comps p) data /\
      snapshot_bytes (lines_of asked) (FILE_ENCODING (w_file asked)) (FILE_BOM (w_file asked)) (FILE_NEWLINE (w_file asked)) = Ok data.
Proof.
  intros Ho Hrun Hth Hres Haf Hl Hown Hd3.
  pose proof (opened_session (CP := any_caret) s Ho (or_introl (fun _ _ => I)) (False_ind _)) as I0.
  destruct (performed_good (CP := any_caret) _ s before (or_introl all_lax) I0) as (M1 & I1 & X1 & L1 & S1 & Eio & Efile). fold asked in I1, L1, S1, Eio, Efile.
  pose proof (save_started asked w path ltac:(congruence) ltac:(congruence) ltac:(congruence)) as Hs.
  unfold noted, worked in *. unfold started in *. destruct (savedocumenttofile error_text path (asked, w)) as [r [s2 w2]]. cbn [fst snd] in *.
  destruct Hs as (Sw & Ed & Eh & Ef & Ea & (g2 & Es2) & Er & Ht).
  assert (I2 : session (CP := any_caret) M1 s2) by (rewrite Es2; by apply (session_io _ _ g2 id)).
  destruct (performed_good (CP := any_caret) _ s2 during (or_introl all_lax) I2) as (M2 & I3 & X2 & L2 & S2 & Eio2 & Efile2).
  set (sw := performed during s2) in *.
  destruct Ht as [Ht|[Hpt Ht]].
  { exfalso. revert Hd3. unfold run_worker, mbind, d_bind. cbn [get fst snd]. rewrite Eio2, Ht. cbn. by rewrite Eio2, Er. }
  destruct (worker_saved sw w2 (normpath path) _ _ _ _ _ p revision ltac:(rewrite Eio2; exact Ht) ltac:(congruence) Hd3) as (-> & (g3 & Es3) & Ea3 & Hw).
  destruct (run_worker error_text (sw, w2)) as [r3 [s3' w3]]. cbn [fst snd] in *. subst s3'.
  assert (I3' : session (CP := any_caret) M2 (on_io g3 sw)) by by apply (session_io _ _ g3 id).
  destruct (performed_good (CP := any_caret) _ (on_io g3 sw) late (or_introl all_lax) I3') as (M3 & I4 & X3 & L3 & S3 & Eio3 & Efile3).
  set (s3 := performed late (on_io g3 sw)) in *.
  destruct (poll_saved s3 w3 p (CURRENT_REVISION (w_hist asked))) as (g & f & -> & Hf); [congruence|congruence|].
  exists M3, g, f. cbv zeta. cbn [fst snd]. destruct (Hf (w_file s3)) as (-> & -> & -> & ->).
  pose proof (hi_current _ _ (ss_hist _ _ I1)) as C1. pose proof (hi_now _ _ (ss_hist _ _ I1)) as N1.
  change (w_hist (on_io g3 sw)) with (w_hist sw) in *. rewrite Eh in *. rewrite (op_hist _ Ho) in *. cbn in X1, L1, S1.
  assert (Hfile : w_file s3 = w_file asked) by (rewrite Efile3; cbn; congruence). rewrite Hfile.
  split_and!; try done; try lia; try congruence.
  - rewrite X3, X2 by lia. exact N1.
  - rewrite X3, X2, X1 by lia. reflexivity.
  - assert (Hl2 : linked w2) by (intros d x i; unfold same_nodes in Sw; rewrite (child_nodes w) by done; rewrite Sw; apply Hl).
    assert (Ho2 : own_temporary (split_path (path_comps (normpath path))).2 = false) by by rewrite path_comps_norm.
    destruct (save_whole _ _ _ _ _ _ _ _ Hl2 Ho2 Hw) as [Hok _].
    destruct (Hok p eq_refl) as [-> (data & Hd & Hfl)]. rewrite normpath_idem, path_comps_norm in *. by exists data.
Qed.

(** C12: a save in the background, with any commands while it runs: the file it
    writes holds the text there was when it was asked for, in the document's format.
    If that is still the text when its result is taken note of (the same revision),
    the document is marked as saved, and later on, whatever is typed, undone and
    redone, whenever it is not marked as modified its text is the one in the file.
    If it is not, the mark still stands for the text that was opened: a document that
    later is not marked as modified has that text, not the file's. *)
Theorem clean_is_on_disk p revision :
  opened s -> APP_RUNNING (w_io s) = true -> FILE_IO_THREAD (w_io s) = None -> FILE_IO_RESULT (w_io s) = None ->
  AFTER_SAVE_ACTION (w_io s) = None -> linked w -> own_temporary (split_path (path_comps path)).2 = false ->
  FILE_IO_RESULT (w_io worked.1) = Some (IoSaved p revision) ->
  FILE_PATH (w_file later) = Some p /\
  (exists data, has_file noted.2 (path_comps p) data /\
     snapshot_bytes (lines_of asked) (FILE_ENCODING (w_file later)) (FILE_BOM (w_file later)) (FILE_NEWLINE (w_file later)) = Ok data) /\
  if CURRENT_REVISION (w_hist (performed late worked.1)) =? revision
  then IS_DIRTY (w_hist noted.1) = false /\ (IS_DIRTY (w_hist later) = false -> lines_of later = lines_of asked)
  else IS_DIRTY (w_hist later) = false -> lines_of later = lines_of s.
Proof.
  intros Ho Hrun Hth Hres Haf Hl Hown Hd3.
  destruct (save_noted p revision Ho Hrun Hth Hres Haf Hl Hown Hd3) as (M & g & f & -> & I3 & Ma & Ms & La & Ls & Sv & En & Fp & Fe & Fb & Fn & Hdata).
  set (s3 := performed late worked.1) in *. set (r := CURRENT_REVISION (w_hist asked)) in *.
  assert (I4 : session (CP := any_caret) M noted.1).
  { rewrite En. apply session_io. destruct (_ =? r); [by apply session_saved|done]. }
  destruct (performed_good (CP := any_caret) _ noted.1 after (or_introl all_lax) I4) as (M5 & I5 & X5 & L5 & S5 & _ & Efile5). fold later in I5, L5, S5, Efile5.
  assert (Ef : w_file later = f (w_file s3)) by (rewrite Efile5, En; by destruct (_ =? r)). rewrite Ef, Fp, Fe, Fb, Fn.
  split; [done|]. split; [exact Hdata|].
  pose proof (hi_dirty _ _ (ss_hist _ _ I5)) as D5. pose proof (hi_now _ _ (ss_hist _ _ I5)) as N5.
  assert (Nx : NEXT_REVISION (w_hist noted.1) = NEXT_REVISION (w_hist s3)) by (rewrite En; by destruct (_ =? r)). rewrite Nx in X5.
  destruct (CURRENT_REVISION (w_hist s3) =? r) eqn:Er.
  - split; [by rewrite En|]. intros Hc. rewrite Hc in D5. rewrite En in S5. cbn in S5.
    rewrite <- N5. replace (CURRENT_REVISION (w_hist later)) with r by lia. rewrite X5; [exact Ma|].
    pose proof (hi_current _ _ (ss_hist _ _ I3)). lia.
  - intros Hc. rewrite Hc in D5. rewrite En in S5. cbn in S5.
    rewrite <- N5. replace (CURRENT_REVISION (w_hist later)) with 0 by lia. rewrite X5; [exact Ms|lia].
Qed.

End Save.

End Clean.

(** ** Opening *)

Section Opening.
Context {FT : Font} {CK : Clock} {AN : Alnum} {UC : PyUnicode}.

Lemma foldr_max_le l : forall d, Forall (fun i => i <= foldr Z.max d l) l.
Proof.
  induction l as [|x l IH]; intros d; [constructor|]. cbn. constructor; [lia|]. eapply Forall_impl; [apply (IH d)|]. cbn. lia.
Qed.

(** A file that was read becomes a document in order: one clean line after
    another, no history, the caret at the top, an index of rows that can be
    trusted when no old rows are cached; as long as no selection is left over. *)
Theorem load_opens s sample b lines m lazy : parse_payload sample b = Ok (lines, m) ->
  SEL_ACTIVE (w_caret s) = false -> 1 <= TAB_WIDTH (w_conf s) ->
  runs (loaddocumentfromlines lines lazy (Some m)) s (fun _ s' =>
    opened s' /\ lines_of s' = lines /\
    m_format m = Some (FILE_ENCODING (w_file s'), FILE_BOM (w_file s'), FILE_NEWLINE (w_file s')) /\
    (WRAP_LINE_CACHE (w_wrap s) = [] -> wrap_ok (w_conf s') (w_doc s') (w_wrap s'))).
Proof.
  intros Hp Hs Ht. unfold parse_payload in Hp. destruct (detectfileformatsample sample) as [[e bm] read].
  apply bind_Ok in Hp as (text & _ & Hp). pose proof (text_lines_good text) as [Hne Hc].
  pose proof (payload_newline_known (endings text) (endings_known text)) as Hn.
  change (payload_newline (endings text)) with (text_lines text).2 in Hn.
  destruct (text_lines text) as [ls nl] eqn:El. injection Hp as -> <-. cbn [fst snd] in *.
  assert (Hz : zlen (seqZ 1 (zlen lines)) = zlen lines) by (unfold zlen at 1; rewrite length_seqZ; pose proof (zlen_nonneg lines); lia).
  assert (Hv : zlen (zreplicate (zlen lines) 0) = zlen lines) by (rewrite zlen_replicate; pose proof (zlen_nonneg lines); lia).
  unfold loaddocumentfromlines. replace (match lines with [] => [[]] | _ => lines end) with lines by by destruct lines.
  cbn [m_ids m_versions]. rewrite Hz, Hv, Z.eqb_refl. cbn [andb]. run.
  assert (Hk : known_newline nl = nl) by (unfold known_newline; apply newlines_in in Hn; by destruct Hn as [->|[->| ->]]).
  split_and!; [| |by cbn; rewrite Hk|].
  - constructor; cbn; try done; [|by left]. constructor; cbn; [done|done|unfold zlen in *; lia..].
  - done.
  - intros Hcache. split_and!; cbn.
    + split; cbn; [apply NoDup_seqZ|]. eapply Forall_impl; [apply (foldr_max_le _ (List.hd 0 (seqZ 1 (zlen lines))))|]. intros i Hi. apply Z.lt_succ_r in Hi. exact Hi.
    + unfold cache_ok. cbn. rewrite Hcache. constructor.
    + split; done.
Qed.

(** C15: a document that is opened while no rows are cached, as the first one is,
    has an index of rows that answers as the list of all rows of the document
    would, after any editing commands: the number of rows, the row at an index,
    and a row that shows a given position, whatever was cached meanwhile. *)
Theorem index_is_screen s sample b lines m lazy cs : parse_payload sample b = Ok (lines, m) ->
  SEL_ACTIVE (w_caret s) = false -> 1 <= TAB_WIDTH (w_conf s) -> WRAP_LINE_CACHE (w_wrap s) = [] ->
  runs (loaddocumentfromlines lines lazy (Some m)) s (fun _ s0 =>
    lines_of s0 = lines /\
    let s1 := performed cs s0 in WORD_WRAP (w_conf s1) = true -> index_right s1).
Proof.
  intros Hp Hs Ht Hc. apply (runs_mono _ _ _ _ (load_opens s sample b lines m lazy Hp Hs Ht)).
  intros _ s0 (Ho & Hl & _ & Hw). split; [done|]. intros s1 Ew. apply index_stays_right; [done|by apply Hw|done].
Qed.

End Opening.
