(* ===== verification/WriteDemo.v ===== *)
(** The properties of the editor at a concrete document: two lines, a font of
    ten pixels per character and a window of eight rows. *)

From stdpp Require Import base option list gmap.
From Stdlib Require Import ZArith Lia Bool String.
From S2P Require Import Prelude PyFloat PyText PyVal PyStr PyFs PyPath PyFsFacts BrokerReadSpec WriteState WriteText.
From S2P Require Import WriteFormat WriteDisk WriteTree WriteWrap WriteEdit WriteView WriteOps WriteDocs WriteEditSpec.
From S2P Require Import WriteFormatSpec WriteDiskSpec WriteWrapSpec WriteViewSpec WriteSession WriteCommands.
From S2P Require Import WriteSessionSpec WriteDocsSpec.
Open Scope Z_scope.

#[export] Instance demo_font : Font := {| glyph_advance _ _ _ := Some 10 |}.
#[export] Instance demo_clock : Clock := {| mono n := fround (Z.of_nat n) 0 |}.
#[export] Instance demo_alnum : Alnum := {| isalnum := ascii_alnum |}.
#[local] Existing Instance ascii_unicode.

Definition demo : wst :=
  mkwst (mkdoc [lit "hello wide world"; lit "bye"] [1; 2] [0; 0] 3 None)
    (mkcaret 0 0 false 0 0 0 0) (mkview 0 0 8 0)
    (mkwrap None [] [] [] ∅ None None [] [] 0 0)
    (mkwidths [] 0 true [] [] 0 false None)
    (mkhist [] [] 0 0 0 1 false)
    (mkconf true 14 (lit "font") 4 4 false false 120 300 10 34 22 true 12 12 20 2)
    (mksearch (lit "o") (lit "0") true)
    (mkfile None (lit "untitled.txt") (lit "utf-8") false (lit "n"))
    (mkio true None None None None None None true 1 [] [])
    0.

(** Text without a character, decided. *)
Lemma lacks_by c s : forallb (fun x => negb (x =? c)) s = true -> lacks c s.
Proof. intros H. apply Forall_forall. intros x Hx. rewrite forallb_forall in H. apply list_elem_of_In, H in Hx. lia. Qed.

Lemma demo_doc : docwf (w_doc demo).
Proof. constructor; [done| |done..]. repeat apply Forall_cons_2; [..|done]; split; by apply lacks_by. Qed.

Lemma demo_opened : opened demo.
Proof. constructor; try done; [apply demo_doc|by left]. Qed.

Lemma demo_indexed : wrap_ok (w_conf demo) (w_doc demo) (w_wrap demo).
Proof.
  split_and!; [|by apply Forall_nil|done]. split.
  - apply (bool_decide_unpack _). vm_compute. exact I.
  - repeat apply Forall_cons_2; done.
Qed.

Definition typed : list command :=
  [End_key; Type_character (lit "!"); Newline; Type_character (lit "x"); Select_all; Cut (Ok tt); Undo].

Example typed_lines : lines_of (performed typed demo) = [lit "hello wide world!"; lit "x"; lit "bye"].
Proof. vm_compute. reflexivity. Qed.

(** ** Witnesses *)

Lemma revision_is_text_witness :
  lines_of (performed [Redo; Undo] (performed typed demo)) = lines_of (performed typed demo).
Proof.
  refine (proj1 (revision_is_text demo typed [Redo; Undo] demo_opened) _). vm_compute. reflexivity.
Defined.

(** Every command of [typed] in any case, and a search that minds the case. *)
Lemma caret_stays_witness :
  valid (lines_of (performed (typed ++ [Replace_all]) demo)) (cursor (w_caret (performed (typed ++ [Replace_all]) demo))) /\
  valid (lines_of (performed [Find false None; Replace_one] demo)) (cursor (w_caret (performed [Find false None; Replace_one] demo))).
Proof.
  assert (Hc : case_lacks_cr).
  { intros s H. unfold lacks in *. cbn. unfold ascii_upper, ascii_lower.
    split; apply Forall_map; eapply Forall_impl; [exact H| |exact H|]; intros x Hx; cbn.
    + unfold ascii_upper1. destruct (_ && _) eqn:E; unfold CR in *; lia.
    + unfold ascii_lower1. destruct (_ && _) eqn:E; unfold CR in *; lia. }
  split.
  - refine (proj1 (caret_stays demo (typed ++ [Replace_all]) demo_opened Hc _)). left. reflexivity.
  - refine (proj1 (caret_stays demo [Find false None; Replace_one] demo_opened Hc _)). right.
    split; [reflexivity|by apply lacks_by].
Defined.

Lemma history_bounds_witness : history_ok (w_hist (performed typed demo)).
Proof. exact (history_bounds demo typed demo_opened). Defined.

Lemma first_of {A} (l : list A) : negb (Nat.eqb (List.length l) 0) = true -> exists x k, l = x :: k.
Proof. destruct l as [|x k]; [done|]. by exists x, k. Qed.

Lemma undo_redo_witness :
  runs (undo ;; redo) (performed (take 4 typed) demo)
    (fun _ s' => lines_of s' = lines_of (performed (take 4 typed) demo)).
Proof.
  destruct (first_of (UNDO_STACK (w_hist (performed (take 4 typed) demo)))) as (act & rest & E).
  { vm_compute. reflexivity. }
  refine (runs_mono _ _ _ _ (proj1 (undo_redo demo (take 4 typed) demo_opened) act rest E) _).
  intros _ s' [H _]. exact H.
Defined.

(** An edit of its own, and one that goes on with the typing before it. *)
Lemma undo_restores_witness :
  runs (editreplace 0 6 1 1 (lit "!") ;; undo) (performed typed demo)
    (fun _ s' => lines_of s' = lines_of (performed typed demo)) /\
  runs (editreplace 0 1 0 1 (lit "y") ;; undo) (performed [Type_character (lit "x")] demo)
    (fun _ s' => lines_of s' = lines_of demo).
Proof.
  split.
  - pose proof (undo_restores demo typed 0 6 1 1 (lit "!") demo_opened) as H. cbv zeta in H.
    assert (E : range_of (lines_of (performed typed demo)) 0 6 1 1 = ((0, 6), (1, 1))) by (vm_compute; reflexivity).
    assert (R : removed_text (lines_of (performed typed demo)) (0, 6) (1, 1) = lit "wide world!" ++ [NL] ++ lit "x")
      by (vm_compute; reflexivity).
    rewrite E, R in H. refine (runs_mono _ _ _ _ (H _) _); [vm_compute; discriminate|].
    intros _ s' H'. revert H'. match goal with |- context [joins ?h ?a ?n] => assert (J : joins h a n = false) by (vm_compute; reflexivity) end.
    rewrite J. match goal with |- context [?x <=? ?y] => assert (L : (x <=? y) = true) by (vm_compute; reflexivity) end.
    rewrite L. intros [H' _]. exact H'.
  - pose proof (undo_restores demo [Type_character (lit "x")] 0 1 0 1 (lit "y") demo_opened) as H. cbv zeta in H.
    assert (E : range_of (lines_of (performed [Type_character (lit "x")] demo)) 0 1 0 1 = ((0, 1), (0, 1))) by (vm_compute; reflexivity).
    rewrite E in H. refine (runs_mono _ _ _ _ (H _) _); [vm_compute; discriminate|].
    intros _ s' H'. revert H'. match goal with |- context [joins ?h ?a ?n] => assert (J : joins h a n = true) by (vm_compute; reflexivity) end.
    rewrite J. intros H'. destruct (runs_inv _ _ _ H') as (a & s1 & E1 & -> & _ & _).
    assert (U : lines_of (undo (performed [Type_character (lit "x")] demo)).2 = lines_of demo) by (vm_compute; reflexivity).
    rewrite E1 in U. exact U.
Defined.

Lemma caret_in_view_witness :
  runs ensurecursorvisible demo (fun _ s' =>
    FIRST_VISIBLE_ROW (w_view s') <= caret_row s' < FIRST_VISIBLE_ROW (w_view s') + VISIBLE_LINES (w_view s')).
Proof.
  refine (runs_mono _ _ _ _ (caret_in_view demo _ _ _) _).
  - constructor; [exact demo_doc|by left|exact demo_indexed].
  - split; [done|]. exists (lit "hello wide world"). split; [reflexivity|]. split; vm_compute; discriminate.
  - reflexivity.
  - intros _ s' (_ & _ & H). exact H.
Defined.

Lemma demo_font_laws : FontLaws demo_font.
Proof. split. intros path size c a [= <-]. done. Qed.

Lemma wrapline_partition_witness :
  let line := lit "to be or not" in
  let advances := measurelineadvances 4 line 14 (lit "font") in
  covers (line_segments line advances 60) 0 12 /\ Forall (row_breaks line advances 60) (line_segments line advances 60).
Proof.
  pose proof (wrapline_partition (FL := demo_font_laws) 4 (lit "to be or not") 14 (lit "font") 60) as (_ & H1 & _ & H2).
  split; [exact (H1 ltac:(discriminate))|]. apply H2; [discriminate|].
  unfold measurable. apply (bool_decide_unpack _). vm_compute. exact I.
Defined.

(** Files of the editor at work: the session user [ada] saves and loads notes on a
    small file system, and the theorems are applied to these runs. *)
#[local] Existing Instances demo_font demo_clock demo_alnum ascii_unicode.

(** ** A file system *)

#[local] Instance calm_os : Os := {|
  os_fault := fun _ => NoFault; os_clock := fun _ => fzero; os_entropy := fun k n => repeat (Z.of_nat k mod 256) n;
  os_pid := 9; os_euid := 1000; os_egid := 1000; os_umask := 18; os_cwd := [47] |}.

(** The call number [k] fails. *)
Definition failing_call (k : nat) : Os := {|
  os_fault := fun n => if Nat.eqb n k then Fails else NoFault;
  os_clock := fun _ => fzero; os_entropy := fun k n => repeat (Z.of_nat k mod 256) n;
  os_pid := 9; os_euid := 1000; os_egid := 1000; os_umask := 18; os_cwd := [47] |}.

(** [{'format': 1, 'username': 'ada'}] in double quotes. *)
Definition identity : bytes :=
  lit "{" ++ [34] ++ lit "format" ++ [34] ++ lit ": 1, " ++ [34] ++ lit "username" ++ [34] ++ lit ": " ++ [34] ++ lit "ada" ++ [34] ++ lit "}".

Definition folder (uid : Z) (es : list (pystr * ino)) : inode := mkinode (KDir (list_to_map es)) 493 uid uid.

Definition home_world : world := mkworld
  (list_to_map [
    (0%nat, folder 0 [(lit "the one", 1%nat); (lit "master", 5%nat)]);
    (1%nat, folder 0 [(lit "settings", 2%nat)]);
    (2%nat, folder 0 [(lit "session", 3%nat)]);
    (3%nat, folder 0 [(lit "identity.json", 4%nat)]);
    (4%nat, mkinode (KFile identity) 416 0 1000);
    (5%nat, folder 0 [(lit "ada", 6%nat)]);
    (6%nat, folder 1000 [(lit "notes.txt", 7%nat); (lit "letters", 8%nat)]);
    (7%nat, mkinode (KFile (lit "old" ++ [13; 10] ++ lit "text")) 420 1000 1000);
    (8%nat, folder 1000 [])]) 0 0.

(** Entries that lead nowhere, decided. *)
Definition linkedb (w : world) : bool :=
  forallb (fun p : ino * inode =>
    match i_kind p.2 with
    | KDir es => forallb (fun e : pystr * ino => bool_decide (is_Some (w_nodes w !! e.2))) (map_to_list es)
    | _ => true
    end) (map_to_list (w_nodes w)).

Lemma linked_by w : linkedb w = true -> linked w.
Proof.
  intros H d x i Hc. rewrite child_entries in Hc. destruct (entries w d) as [es|] eqn:He; [|done].
  apply entries_node in He as (n & Hn & Hk). unfold linkedb in H. rewrite forallb_forall in H.
  specialize (H (d, n) ltac:(apply list_elem_of_In, elem_of_map_to_list; exact Hn)). cbn in H. rewrite Hk in H.
  rewrite forallb_forall in H. specialize (H (x, i) ltac:(apply list_elem_of_In, elem_of_map_to_list; exact Hc)).
  apply bool_decide_eq_true_1 in H as [n' Hn']. by exists n'.
Qed.

Lemma home_linked : linked home_world.
Proof. apply linked_by. vm_compute. reflexivity. Qed.

Definition notes : pystr := lit "/master/ada/letters/../notes.txt".
Definition poem : list pystr := [lit "one " ++ [233]; []; lit "three"].

Lemma poem_clean : Forall clean poem.
Proof. repeat apply Forall_cons_2; [..|done]; split; by apply lacks_by. Qed.

Lemma poem_unicode : Forall unicode poem.
Proof. unfold poem. rewrite !Forall_cons. split_and!; [by apply scalars_unicode..|constructor]. Qed.

Lemma crlf_known : [CR; NL] ∈ newlines.
Proof. apply newlines_in. tauto. Qed.

Definition poem_bytes : bytes := match snapshot_bytes poem (lit "utf-8") false [CR; NL] with Ok b => b | Exc _ => [] end.

Lemma poem_snapshot : snapshot_bytes poem (lit "utf-8") false [CR; NL] = Ok poem_bytes.
Proof. vm_compute. reflexivity. Qed.

Lemma poem_recognised : recognised (lit "utf-8") false (join_with [CR; NL] poem).
Proof. right. left. split_and!; [done|done|]. vm_compute. discriminate. Qed.

(** ** Witnesses *)

Lemma saved_is_loaded_witness : parse_payload (ztake 65536 poem_bytes) poem_bytes = Ok (loaded (lit "utf-8") false [CR; NL] poem).
Proof.
  exact (saved_is_loaded poem (lit "utf-8") false [CR; NL] poem_bytes ltac:(discriminate) poem_clean poem_unicode crlf_known
    poem_recognised poem_snapshot).
Defined.

Definition utf16_file : bytes := [255; 254; 97; 0; 10; 0; 98; 0].

Lemma loaded_is_saved_witness : snapshot_bytes [lit "a"; lit "b"] (lit "utf-16-le") true [NL] = Ok utf16_file.
Proof.
  refine (loaded_is_saved utf16_file 65536 [lit "a"; lit "b"] (mkmetadata [1; 2] [0; 0] (Some (lit "utf-16-le", true, [NL])))
    _ _ _ _ _ _ _).
  - unfold bytes_ok, utf16_file, is_byte. rewrite !Forall_cons. split_and!; try constructor; lia.
  - vm_compute. reflexivity.
  - reflexivity.
  - intros text H. vm_compute in H. injection H as <-. unfold uniform. vm_compute.
    apply Forall_cons_2; [by right|]. apply Forall_cons_2; [by left|constructor].
Defined.

Definition save_run_demo (O : Os) : res pystr * world :=
  writeuserfilesnapshot (OS := O) notes poem (lit "utf-8") false [CR; NL] home_world.

Lemma notes_own : own_temporary (split_path (path_comps notes)).2 = false.
Proof. vm_compute. reflexivity. Qed.

Lemma notes_old : has_file home_world (path_comps notes) (lit "old" ++ [13; 10] ++ lit "text").
Proof. eexists. split; vm_compute; reflexivity. Qed.

(** One of the calls fails. *)
Lemma save_all_or_nothing_witness :
  exists data, has_file (save_run_demo (failing_call 23)).2 (path_comps notes) data /\
    (data = lit "old" ++ [13; 10] ++ lit "text" \/ snapshot_bytes poem (lit "utf-8") false [CR; NL] = Ok data).
Proof.
  exact (proj1 (proj2 (save_all_or_nothing (OS := failing_call 23) notes poem (lit "utf-8") false [CR; NL] home_world
    (save_run_demo (failing_call 23)).1 (save_run_demo (failing_call 23)).2 home_linked notes_own (surjective_pairing _)))
    _ notes_old).
Defined.

Definition after_save : world := (save_run_demo calm_os).2.

Lemma save_succeeds : save_run_demo calm_os = (Ok (lit "/master/ada/notes.txt"), after_save).
Proof.
  assert (H : (save_run_demo calm_os).1 = Ok (lit "/master/ada/notes.txt")) by (vm_compute; reflexivity).
  unfold after_save. destruct (save_run_demo calm_os). cbn in *. by rewrite H.
Qed.

Lemma saved_then_loaded_witness :
  exists w2, readfilepayload (OS := calm_os) (lit "/master/ada/notes.txt") after_save =
    (Ok (lit "/master/ada/notes.txt", poem, (loaded (lit "utf-8") false [CR; NL] poem).2), w2).
Proof.
  refine (saved_then_loaded calm_os calm_os notes poem (lit "utf-8") false [CR; NL] home_world (lit "/master/ada/notes.txt")
    after_save _ _ poem_clean poem_unicode crlf_known poem_recognised home_linked notes_own save_succeeds _).
  - intros n. reflexivity.
  - discriminate.
  - intros data H. rewrite poem_snapshot in H. injection H as <-. vm_compute. discriminate.
Defined.

Lemma load_opens_witness : runs (loaddocumentfromlines poem true (Some (loaded (lit "utf-8") false [CR; NL] poem).2)) demo
  (fun _ s' => opened s' /\ lines_of s' = poem).
Proof.
  refine (runs_mono _ _ _ _ (load_opens demo poem_bytes poem_bytes poem (loaded (lit "utf-8") false [CR; NL] poem).2 true _ _ _) _).
  - vm_compute. reflexivity.
  - reflexivity.
  - vm_compute. discriminate.
  - intros _ s' (H1 & H2 & _). by split.
Defined.

Lemma index_is_screen_witness :
  let s0 := (loaddocumentfromlines poem true (Some (loaded (lit "utf-8") false [CR; NL] poem).2) demo).2 in
  runs displaylinecount (performed typed s0) (fun n _ => n = zlen (screen (w_conf (performed typed s0)) (lines_of (performed typed s0))) /\ 2 < n).
Proof.
  intros s0.
  assert (H : runs (loaddocumentfromlines poem true (Some (loaded (lit "utf-8") false [CR; NL] poem).2)) demo (fun _ s0 =>
    lines_of s0 = poem /\ (WORD_WRAP (w_conf (performed typed s0)) = true -> index_right (performed typed s0)))).
  { apply (index_is_screen demo poem_bytes poem_bytes poem (loaded (lit "utf-8") false [CR; NL] poem).2 true typed).
    - vm_compute. reflexivity.
    - reflexivity.
    - vm_compute. discriminate.
    - reflexivity. }
  destruct (runs_inv _ _ _ H) as (a & s1 & E & _ & R). unfold s0. rewrite E. cbn [snd].
  assert (Es : s1 = s0) by (unfold s0; by rewrite E). rewrite Es in *.
  assert (W : WORD_WRAP (w_conf (performed typed s0)) = true) by (vm_compute; reflexivity).
  refine (runs_mono _ _ _ _ (proj1 (R W)) _). intros n s' ->. split; [reflexivity|]. vm_compute. reflexivity.
Defined.

Definition no_text (e : exn) : pystr := [].

Lemma unsaved_text_kept_witness :
  w_doc (handle no_text (Ask DNew) (performed [Type_character (lit "x")] demo, home_world)).2.1 =
  w_doc (performed [Type_character (lit "x")] demo).
Proof.
  refine (proj1 (unsaved_text_kept no_text (Ask DNew) (performed [Type_character (lit "x")] demo, home_world) _ _ _)).
  - vm_compute. reflexivity.
  - vm_compute. reflexivity.
  - reflexivity.
Defined.

(** Typed and saved; while the worker runs, an edit is made and undone. *)
Definition passing : list command := [Undo; Redo].
Definition noted_demo := noted no_text demo home_world notes typed passing [].
Definition later_demo := later no_text demo home_world notes typed passing [] [Undo; Redo].

Lemma clean_is_on_disk_witness :
  IS_DIRTY (w_hist later_demo) = false /\ exists data, has_file noted_demo.2 (path_comps (lit "/master/ada/notes.txt")) data /\
    snapshot_bytes (lines_of later_demo) (FILE_ENCODING (w_file later_demo)) (FILE_BOM (w_file later_demo)) (FILE_NEWLINE (w_file later_demo)) = Ok data.
Proof.
  assert (H : FILE_IO_RESULT (w_io (worked no_text demo home_world notes typed passing).1) =
    Some (IoSaved (lit "/master/ada/notes.txt") (CURRENT_REVISION (w_hist (performed typed demo))))) by (vm_compute; reflexivity).
  destruct (clean_is_on_disk no_text demo home_world notes typed passing [] [Undo; Redo] (lit "/master/ada/notes.txt")
    (CURRENT_REVISION (w_hist (performed typed demo))) demo_opened eq_refl eq_refl eq_refl eq_refl home_linked notes_own H)
    as (_ & (data & H1 & H2) & H3).
  assert (E : IS_DIRTY (w_hist later_demo) = false) by (vm_compute; reflexivity). split; [exact E|].
  assert (R : (CURRENT_REVISION (w_hist (performed [] (worked no_text demo home_world notes typed passing).1)) =?
    CURRENT_REVISION (w_hist (performed typed demo))) = true) by (vm_compute; reflexivity).
  rewrite R in H3. exists data. split; [exact H1|]. unfold later_demo. rewrite (proj2 H3 E). exact H2.
Defined.

(** The text is undone to the opened one while it is being saved: the document is not
    marked as modified, and the file holds another text. *)
Example clean_not_on_disk :
  let s := later no_text demo home_world notes typed [Undo; Undo; Undo; Undo] [] [] in
  FILE_IO_RESULT (w_io (worked no_text demo home_world notes typed [Undo; Undo; Undo; Undo]).1) <> None /\
  IS_DIRTY (w_hist s) = false /\ lines_of s = lines_of demo /\ lines_of s <> lines_of (performed typed demo).
Proof. vm_compute. repeat split; discriminate. Qed.
